(* ===== verification/_CoqProject ===== *)
-Q . S2P
Prelude.v
Bytes.v
Label.v
Slices.v
Transpose.v
Gf128.v
Ghash.v
Crypto.v
CipherSuite.v
Prf.v
SplitAead.v
Cbc.v
Redaction.v
RequestJoin.v
Response.v
CbcSession.v
Circuit.v
Oprf.v
SenderPool.v
ReceiverPool.v
Cmac.v
OtExtension.v
BaseOt.v
Wire.v
ExtensionWire.v
EndToEnd.v
Precompute.v
PrecomputeSender.v
PrecomputeReceiver.v
PrecomputeLog.v
SenderInv.v
ReceiverInv.v
PrecomputeRun.v
PrecomputeLive.v
Receipt.v
Attest.v
GoStrings.v
Jobs.v
Policy.v
Credential.v
SeqStore.v
Transport.v
Headers.v
Sse.v
Tee.v
Egress.v
RequestFormat.v
HttpParser.v
ResponseRedactions.v
ClientRedaction.v
Channel.v
Session.v
Pricing.v
Ledger.v
Admission.v
Store.v
Hub.v
Schedule.v
Agents.v
Seam.v
WsFrame.v
Realtime.v
