(* ===== verification/Prelude.v ===== *)
(** * Verification of the paired-TEE attestation service

    The program lets a client prove what a web server answered.  Two enclaves
    share a TLS session: TEE_K holds the keys, TEE_T the hidden parts of the
    request, and neither can talk to the server alone ([tee_k], [tee_t],
    [minitls], [client], [providers]).  Values that stay hidden are replaced by
    the output of an oblivious pseudo-random function, which the two enclaves
    compute by garbled circuits over precomputed oblivious transfers ([mpc]).  A
    market for API access is built on the same enclaves ([tokenhive]): a Hub
    sells jobs to tenants, an enclave runs them with the credential of a
    provider, and money moves only against a signed receipt.

    ** Conventions

    A Go function is a Gallina function; a method takes the state it changes
    and returns the new one.  [res] is the outcome of a call: [Ok], [Err] with
    the constant part of the message, [Panic].  Bytes are [Z] in [0,256), a byte
    slice is a list of them, machine integers are [Z] with their wrap-around
    written out ([u8], [u64], [i32], [add64] ...) wherever a value can reach the
    border.  Maps are [gmap]s.  Mutexes make operations atomic; where several
    atomic parts interleave, the states are those an inductive step relation
    reaches.  Logging, metrics and memory wiping that no later read can see are
    left out.  Code outside the repository is an argument: block ciphers and
    hashes ([Crypto], [Prf]: with executable instances), curve operations,
    CBOR, JSON, ECDSA, AES-GCM, the circuit compiler, [sort.Slice], the
    selection languages of a provider.  What is relied on is stated as a class
    or as section hypotheses ([COLaws], [InboxLaws], [SeamLaws], [SeqLaws],
    [StoreLaws], ...), each with a concrete instance in the witnesses.

    ** The files

    Foundations.  [Prelude] (outcomes, machine integers, tactics, hints),
    [Bytes] (encoding/binary, XOR), [Slices] (slices with their backing array),
    [GoStrings] (strings, net, net/url), [Crypto] (AES, SHA-256).

    Two-party computation, [src/mpc].  [Label] (label.go, index.go),
    [Transpose] (transpose.go), [Gf128] (gf128_*.go), [Circuit] (circuit.go,
    fixed_aes.go), [Cmac] (the program of the circuit), [Oprf] (oprf.go),
    [SenderPool] and [ReceiverPool] (pool.go), [OtExtension]
    (ot_extension.go), [BaseOt] (base_ot.go), [Wire] and [ExtensionWire]
    (serialize.go, wire.go, ot_extension_serialize.go, precompute_wire.go),
    [EndToEnd] (their composition).

    OT precomputation between the enclaves, [src/tee_k/ot_precompute.go],
    [src/tee_t/ot_precompute.go] and the control connection of the two
    connection_manager.go.  [Precompute] (one batch, message by message),
    [PrecomputeSender] and [PrecomputeReceiver] (the critical sections of the
    handlers of TEE_K and TEE_T), [PrecomputeLog] (a ghost record of every
    batch and what its messages carry), [SenderInv] and [ReceiverInv] (each
    section keeps the invariant), [PrecomputeRun] (the step relation over both
    enclaves, their goroutines and the messages under way), [PrecomputeLive]
    (a batch that starts is completed).

    TLS, [src/minitls].  [CipherSuite] (types.go), [Ghash] and [SplitAead]
    (crypto.go: the split record protection), [Prf] (prf12.go), [Cbc] (cbc12.go).

    Sessions, [src/client], [src/tee_k], [src/tee_t], [src/shared].
    [Redaction] and [RequestJoin] (the request from the client's ranges to the
    records the server reads), [Response] (the response from its records to the
    signed streams), [RequestFormat] (what TEE_K asks of a request),
    [CbcSession] (sessions with CBC suites), [HttpParser] and
    [ResponseRedactions] ([src/providers]: http_parser.go, response.go,
    http.go), [ClientRedaction] (client/redaction.go, client/verification.go).

    Market, [src/tokenhive].  [Receipt] (proof, platform), [Attest] (attest: the
    enclaves a deployment trusts), [Jobs] (jobs), [Policy] (policy), [Credential], [SeqStore], [Headers], [Sse], [Tee],
    [Session] (tee), [Transport] and [Channel] (transport), [Egress] (what the
    enclave writes to a provider), [Pricing], [Ledger], [Admission], [Store],
    [Hub], [Schedule], [Agents], [WsFrame], [Realtime] (hub), [Seam] (enclave and
    Hub across their wire).

    ** What is proved

    - Two-party computation: a garbled circuit evaluates to the plain one; an
      honest extension leaves correlated OTs; no receiver OT is used twice between
      two clears of the pool; the sender pool refines a queue; the service as a whole computes the AES-CMAC of
      RFC 4493.  Wire formats round trip and accept only canonical encodings.
    - OT precomputation: in every interleaving of the two enclaves, with
      connections replaced and messages lost, ready pools of one epoch end at the
      same index and hold correlated OTs ([equal_epochs_pair_the_pools]); a batch
      whose preflight passes on quiet enclaves is completed when the random bytes
      are good ([precomputation_completes]).
    - Requests: the server receives the client's own bytes under the standard
      AEAD although no party saw them whole, when every hidden range ends in the
      first fragment; at most one batch leaves TEE_T;
      a CBC request is one request to the host of the session and equals the
      signed copy outside the sensitive ranges.
    - Responses: records under pairwise different sequence numbers are accepted
      exactly when they are the standard AEAD of some plaintext at their position,
      with the additional data of the RFCs ([record_aad]); what a verifier sees is the server's
      plaintext outside the redactions; CBC records open exactly as RFC 5246 and
      RFC 7366 say, with one error for every other record; a CBC transcript is
      authenticated and the hand-over of the read state delivers the response.
    - Redactions: the parser ends on every input; a response accepted in pieces
      is accepted whole with the same parse, and with strict framing also the
      other way round; a strict parse points at the bytes it reports and a
      selection of it shows exactly the selected bytes; a byte is redacted exactly when nothing shows
      it; the specification the client sends says the same of the record stream.
    - Enclave: a receipt is an exact account of its exchange; sequence numbers
      never repeat over crashes; a provider that reads by the rules of HTTP/1.1
      ([server_reads]) finds one request, the authorised one; the
      policy decides its declarative reading; sessions are metered exactly; the
      connection pool is bounded and loses no wake-up.
    - Hub: money moves only with a verified receipt for the relayed bytes; in
      every interleaving of jobs a job settles once, books reconcile and budgets
      are overshot by a bounded amount (realtime sessions are modelled by
      themselves: they settle only with proof, and they exceed that bound); a
      fallback never bills twice; agents online hold their keys; frames of a
      session survive any cut; the receipt of an honest enclave that the Hub's
      verifier trusts is accepted.
    - Flaws the model shows.  For every input of the kind: records of TLS 1.2 can
      be left out of a response, a redaction range across fragments corrupts a
      request, a carriage return blocks settlement.  On concrete inputs: a record
      under a repeated number hides a forged one, a hidden host or a bare line
      feed passes the format checks, white space in a query splits a request,
      padding enters an OPRF range, and others.

    ** Fuel

    Structural recursion is used wherever the loop consumes a list.  Otherwise:
    64 swaps and 7 passes in [Transpose] and 128 steps of [gcm_loop] are the
    literal bounds of the loops; [phash_loop] takes a turn per requested byte,
    [padding_loop] the at most 256 turns of the code, [full_blocks] a turn per
    block, [missing_loop] a turn per sequence number, [read_head] one per line
    and one more, [sse_loop], [feed_loop], [trim_head] and the UTF-8 loops one
    per byte, [exchange_sort] one per element, [processHeaders] and
    [processChunkedBody] one per byte and one more.  Running out is [Panic] or a
    value the theorems exclude: each is proved never to happen
    ([parser_always_ends] for the parser; the functional theorems otherwise).

    ** Not modelled

    The handshake client of [minitls] (client.go, client12.go, crypto12.go) and
    the key schedule of TLS 1.3: they drive crypto/x509, crypto/ecdh and a
    network connection.  Dialling, session connections, heartbeats and the
    watchdog of the connection managers and the signing snapshots of [tee_k] and
    [tee_t]: sockets and timers; a timeout, a failed write or a lost message of
    the OT protocol is an event of the environment.  The
    orchestration and the verification bundle of [client], legacy TOPRF
    included: third-party provers.  Selections and request creation in
    [providers]: XPath, JSONPath and regular expressions of third-party
    packages.  Attestation formats, the router, tunnels and agents of
    [tokenhive], metrics: I/O around third-party packages.  Generated code,
    bindings, demos, deployment. *)

From stdpp Require Export base tactics list list_numbers numbers option strings gmap.
From Stdlib Require Export ZArith Lia Btauto.

#[global] Open Scope Z_scope.
#[global] Set Default Goal Selector "!".

(** ** Outcomes of a Go call

    [Ok v] is a nil error with value [v]; [Err m] is a non-nil error (the
    constant part of its message); [Panic] is a run-time panic (index or slice
    bounds out of range). *)

Definition error := string.

Inductive res (A : Type) :=
| Ok (a : A)
| Err (e : error)
| Panic.
Arguments Ok {A} a.
Arguments Err {A} e.
Arguments Panic {A}.

#[export] Instance res_ret : MRet res := @Ok.
#[export] Instance res_bind : MBind res := fun A B f m =>
  match m with Ok a => f a | Err e => Err e | Panic => Panic end.
#[export] Instance res_fmap : FMap res := fun A B f m =>
  match m with Ok a => Ok (f a) | Err e => Err e | Panic => Panic end.

Declare Scope go_scope.
Delimit Scope go_scope with go.
#[global] Open Scope go_scope.

(** [fail_if c m;; k] is [if c { return m }; k]. *)
Notation "'fail_if' c m ;; k" := (if c then Err m else k)
  (at level 10, c at level 0, m at level 0, k at level 200,
   format "'[v' 'fail_if'  c  m ;; '/' k ']'") : go_scope.

Lemma bind_Ok {A B} (m : res A) (f : A -> res B) b :
  m ≫= f = Ok b -> exists a, m = Ok a /\ f a = Ok b.
Proof. destruct m as [a| |]; cbn; intros H; [by exists a|done..]. Qed.

(** A chain of guards succeeds exactly when none of them fires. *)
Lemma guard_iff {A} (c : bool) m (k : res A) a : (if c then Err m else k) = Ok a <-> c = false /\ k = Ok a.
Proof. destruct c; split; [done|by intros [? _]|done|by intros [_ ?]]. Qed.

Lemma unit_bind_iff {A} (m : res unit) (k : res A) a : (_ ← m; k) = Ok a <-> m = Ok () /\ k = Ok a.
Proof. destruct m as [[]| |]; cbn; split; (done || by intros [? ?]). Qed.

(** [open_guards] spells out when a chain of guards and checks succeeds. *)
Ltac open_guards := repeat first [rewrite guard_iff | rewrite unit_bind_iff].

(** Guards and checks do not panic by themselves. *)
Lemma guard_np {A} (c : bool) m (k : res A) : k <> Panic -> (if c then Err m else k) <> Panic.
Proof. by destruct c. Qed.

Lemma unit_bind_np {A} (m : res unit) (k : res A) : m <> Panic -> k <> Panic -> (_ ← m; k) <> Panic.
Proof. by destruct m. Qed.

Lemma relabel_np (m : res unit) e : m <> Panic -> match m with Ok _ => Ok () | Err _ => Err e | Panic => Panic end <> Panic.
Proof. by destruct m. Qed.

Ltac no_panic := repeat first [done | apply guard_np | apply unit_bind_np].

#[export] Instance Ok_inj A : Inj (=) (=) (@Ok A).
Proof. intros a b E. congruence. Qed.

(** [inv_bind H] opens the successful run [H : m ≫= f = Ok b]. *)
Ltac inv_bind H :=
  let a := fresh "a" in let E := fresh "E" in
  apply bind_Ok in H as (a & E & H).

(** [inv_guard H] discards the failing branch of a guard in [H : ... = Ok _]. *)
Ltac inv_guard H :=
  match type of H with
  | (if ?c then Err _ else _) = Ok _ =>
      let E := fresh "Hguard" in destruct c eqn:E; [done|]
  end.

Definition is_ok {A} (m : res A) : bool := match m with Ok _ => true | _ => false end.

(** Slice indexing: an index out of range panics. *)
Definition index {A} (l : list A) (i : nat) : res A :=
  match l !! i with Some x => Ok x | None => Panic end.

Definition set_index {A} (l : list A) (i : nat) (x : A) : res (list A) :=
  if (i <? length l)%nat then Ok (<[i := x]> l) else Panic.

(** [l[a:b]] within bounds. *)
Definition slice {A} (l : list A) (a b : nat) : list A := take (b - a) (drop a l).

(** ** Machine integers *)

Definition is_u64 (z : Z) : Prop := 0 <= z < 2 ^ 64.
Definition is_u32 (z : Z) : Prop := 0 <= z < 2 ^ 32.
Definition is_byte (z : Z) : Prop := 0 <= z < 256.
Definition is_int (z : Z) : Prop := - 2 ^ 63 <= z < 2 ^ 63.
Definition MaxUint64 : Z := 2 ^ 64 - 1.

#[export] Instance is_u64_dec z : Decision (is_u64 z).
Proof. unfold is_u64. apply _. Defined.
#[export] Instance is_u32_dec z : Decision (is_u32 z).
Proof. unfold is_u32. apply _. Defined.
#[export] Instance is_byte_dec z : Decision (is_byte z).
Proof. unfold is_byte. apply _. Defined.

Definition u64 (z : Z) : Z := z mod 2 ^ 64.
Definition u32 (z : Z) : Z := z mod 2 ^ 32.
Definition u8 (z : Z) : Z := z mod 2 ^ 8.
Definition shl64 (x n : Z) : Z := u64 (Z.shiftl x n).
Definition shr64 (x n : Z) : Z := Z.shiftr x n.
Definition add64 (x y : Z) : Z := u64 (x + y).
Definition sub64 (x y : Z) : Z := u64 (x - y).

(** [int32(z)]. *)
Definition i32 (z : Z) : Z := (z + 2 ^ 31) mod 2 ^ 32 - 2 ^ 31.

Lemma i32_id z : - 2 ^ 31 <= z < 2 ^ 31 -> i32 z = z.
Proof. intros H. unfold i32. rewrite Z.mod_small by lia. lia. Qed.

(** ** Time

    A [time.Time] is the number of nanoseconds since the zero time (January 1,
    year 1), a [time.Duration] an [int64] of nanoseconds.  [t.Sub(u)] saturates. *)

Definition i64 (z : Z) : Z := (z + 2 ^ 63) mod 2 ^ 64 - 2 ^ 63.
Definition maxDuration : Z := 2 ^ 63 - 1.
Definition minDuration : Z := - 2 ^ 63.
Definition time_Sub (t u : Z) : Z := Z.max minDuration (Z.min maxDuration (t - u)).

(** [time.Unix(sec, 0)]: the seconds between year 1 and 1970 are added in [int64]. *)
Definition time_Unix (sec : Z) : Z := i64 (sec + 62135596800) * 1000000000.

(** [t.Unix()]. *)
Definition time_toUnix (t : Z) : Z := i64 (t / 1000000000 - 62135596800).

Arguments slice : simpl never.
Arguments u64 : simpl never.
Arguments u32 : simpl never.
Arguments u8 : simpl never.
Arguments shl64 : simpl never.
Arguments shr64 : simpl never.
Arguments add64 : simpl never.
Arguments sub64 : simpl never.

Create HintDb word discriminated.

(** ** Bits of machine words *)

Lemma testbit_high n z i : 0 <= z < 2 ^ n -> n <= i -> Z.testbit z i = false.
Proof.
  intros Hz Hi. destruct (decide (0 <= n)) as [Hn|Hn].
  - rewrite <- (Z.mod_small z (2 ^ n)) by done. by apply Z.mod_pow2_bits_high.
  - rewrite Z.pow_neg_r in Hz by lia. lia.
Qed.

Lemma bits_bound n z :
  0 <= n -> 0 <= z -> (forall i, n <= i -> Z.testbit z i = false) -> z < 2 ^ n.
Proof.
  intros Hn Hz Hb. destruct (decide (z = 0)) as [->|Hz0]; [lia|].
  apply Z.log2_lt_pow2; [lia|]. apply Znot_ge_lt. intros Hge.
  specialize (Hb (Z.log2 z) ltac:(lia)). rewrite Z.bit_log2 in Hb by lia. done.
Qed.

Lemma bits_inj_bounded n x y :
  0 <= x < 2 ^ n -> 0 <= y < 2 ^ n ->
  (forall i, 0 <= i < n -> Z.testbit x i = Z.testbit y i) -> x = y.
Proof.
  intros Hx Hy H. apply Z.bits_inj'. intros i Hi.
  destruct (decide (i < n)) as [Hlt|Hge]; [apply H; lia|].
  by rewrite !(testbit_high n) by lia.
Qed.

Lemma lxor_bound n x y :
  0 <= n -> 0 <= x < 2 ^ n -> 0 <= y < 2 ^ n -> 0 <= Z.lxor x y < 2 ^ n.
Proof.
  intros Hn Hx Hy. assert (0 <= Z.lxor x y) by (apply Z.lxor_nonneg; lia).
  split; [done|]. apply bits_bound; [done..|]. intros i Hi.
  by rewrite Z.lxor_spec, !(testbit_high n) by lia.
Qed.

Lemma land_bound n x y : 0 <= n -> 0 <= x < 2 ^ n -> 0 <= Z.land x y < 2 ^ n.
Proof.
  intros Hn Hx. assert (0 <= Z.land x y) by (apply Z.land_nonneg; lia).
  split; [done|]. apply bits_bound; [done..|]. intros i Hi.
  by rewrite Z.land_spec, (testbit_high n x) by lia.
Qed.

Lemma lor_bound n x y :
  0 <= n -> 0 <= x < 2 ^ n -> 0 <= y < 2 ^ n -> 0 <= Z.lor x y < 2 ^ n.
Proof.
  intros Hn Hx Hy. assert (0 <= Z.lor x y) by (apply Z.lor_nonneg; lia).
  split; [done|]. apply bits_bound; [done..|]. intros i Hi.
  by rewrite Z.lor_spec, !(testbit_high n) by lia.
Qed.

Lemma shiftr_bound n x k : 0 <= n -> 0 <= k -> 0 <= x < 2 ^ n -> 0 <= Z.shiftr x k < 2 ^ n.
Proof.
  intros Hn Hk Hx. assert (0 <= Z.shiftr x k) by (apply Z.shiftr_nonneg; lia).
  split; [done|]. apply bits_bound; [done..|]. intros i Hi.
  by rewrite Z.shiftr_spec, (testbit_high n x) by lia.
Qed.

Lemma mod_pow2_spec n x i :
  0 <= n -> 0 <= i -> Z.testbit (x mod 2 ^ n) i = (i <? n) && Z.testbit x i.
Proof.
  intros Hn Hi. destruct (Z.ltb_spec i n).
  - by rewrite Z.mod_pow2_bits_low by lia.
  - by rewrite Z.mod_pow2_bits_high by lia.
Qed.

Lemma u64_range x : is_u64 (u64 x).
Proof. unfold is_u64, u64. apply Z.mod_pos_bound. lia. Qed.

Lemma u64_id x : is_u64 x -> u64 x = x.
Proof. apply Z.mod_small. Qed.

Lemma u64_spec x i : 0 <= i -> Z.testbit (u64 x) i = (i <? 64) && Z.testbit x i.
Proof. intros. by apply mod_pow2_spec. Qed.

Lemma shl64_spec x n i :
  0 <= n -> 0 <= i ->
  Z.testbit (shl64 x n) i = (i <? 64) && (n <=? i) && Z.testbit x (i - n).
Proof.
  intros Hn Hi. unfold shl64. rewrite u64_spec, Z.shiftl_spec by done.
  destruct (Z.leb_spec n i).
  - by rewrite andb_true_r.
  - by rewrite (Z.testbit_neg_r x), !andb_false_r by lia.
Qed.

Lemma shr64_spec x n i : 0 <= i -> Z.testbit (shr64 x n) i = Z.testbit x (i + n).
Proof. intros. unfold shr64. by rewrite Z.shiftr_spec. Qed.

Lemma lxor_u64 x y : is_u64 x -> is_u64 y -> is_u64 (Z.lxor x y).
Proof. apply lxor_bound. lia. Qed.
Lemma land_u64 x y : is_u64 x -> is_u64 (Z.land x y).
Proof. apply land_bound. lia. Qed.
Lemma lor_u64 x y : is_u64 x -> is_u64 y -> is_u64 (Z.lor x y).
Proof. apply lor_bound. lia. Qed.
Lemma shr64_u64 x n : 0 <= n -> is_u64 x -> is_u64 (shr64 x n).
Proof. intros. by apply shiftr_bound. Qed.
Lemma shl64_u64 x n : is_u64 (shl64 x n).
Proof. apply u64_range. Qed.
Lemma is_u64_0 : is_u64 0.
Proof. by vm_compute. Qed.

#[export] Hint Resolve u64_range lxor_u64 land_u64 lor_u64 shl64_u64 is_u64_0 : word.
#[export] Hint Extern 2 (is_u64 (shr64 _ _)) => apply shr64_u64; [lia|] : word.
