(* ===== verification/Bytes.v ===== *)
(** * Byte strings

    What the Go sources use of [encoding/binary], of [copy]/[clear] on slices
    and of XOR over byte slices, with the round-trip lemmas every wire format
    of the development relies on.  A byte is a [Z] in [0,256). *)

From S2P Require Import Prelude.

Notation bytes := (list Z) (only parsing).
Notation is_bytes := (Forall is_byte).

(** ** Fixed-width integers ([binary.BigEndian], [binary.LittleEndian]) *)

Fixpoint le_put (n : nat) (w : Z) : bytes :=
  match n with
  | O => []
  | S n => w mod 256 :: le_put n (w / 256)
  end.

Fixpoint le_get (l : bytes) : Z :=
  match l with
  | [] => 0
  | b :: t => b + 256 * le_get t
  end.

Definition be_put (n : nat) (w : Z) : bytes := reverse (le_put n w).
Definition be_get (l : bytes) : Z := le_get (reverse l).
Arguments be_put : simpl never.
Arguments be_get : simpl never.

Lemma length_le_put n w : length (le_put n w) = n.
Proof. revert w. induction n as [|n IH]; intros w; simpl; [done|by rewrite IH]. Qed.

Lemma le_put_bytes n w : is_bytes (le_put n w).
Proof.
  revert w. induction n as [|n IH]; intros w; simpl; constructor; [|apply IH].
  unfold is_byte. pose proof (Z.mod_pos_bound w 256). lia.
Qed.

Lemma le_get_put n w : le_get (le_put n w) = w mod 256 ^ Z.of_nat n.
Proof.
  revert w. induction n as [|n IH]; intros w; simpl le_get; simpl le_put.
  { by rewrite Z.mod_1_r. }
  rewrite IH, Nat2Z.inj_succ, Z.pow_succ_r by lia.
  rewrite Z.rem_mul_r by lia. lia.
Qed.

Lemma le_get_bound l : is_bytes l -> 0 <= le_get l < 256 ^ Z.of_nat (length l).
Proof.
  induction 1 as [|b l Hb Hl IH]; [done|].
  cbn [le_get length]. rewrite Nat2Z.inj_succ, Z.pow_succ_r by lia.
  unfold is_byte in Hb. lia.
Qed.

Lemma le_put_get l : is_bytes l -> le_put (length l) (le_get l) = l.
Proof.
  induction 1 as [|b l Hb Hl IH]; [done|]. cbn [le_get le_put length].
  unfold is_byte in Hb.
  rewrite (Z.mul_comm 256), Z.mod_add, Z.div_add, Z.mod_small, Z.div_small by lia.
  by rewrite Z.add_0_l, IH.
Qed.

Lemma le_get_app l1 l2 :
  le_get (l1 ++ l2) = le_get l1 + 256 ^ Z.of_nat (length l1) * le_get l2.
Proof.
  induction l1 as [|b l1 IH]; [cbn [le_get app length]; lia|].
  cbn [le_get app length]. rewrite IH, Nat2Z.inj_succ, Z.pow_succ_r by lia. lia.
Qed.

Lemma length_be_put n w : length (be_put n w) = n.
Proof. unfold be_put. by rewrite length_reverse, length_le_put. Qed.

Lemma be_put_bytes n w : is_bytes (be_put n w).
Proof. unfold be_put. apply Forall_reverse, le_put_bytes. Qed.

Lemma be_get_put n w : 0 <= w < 256 ^ Z.of_nat n -> be_get (be_put n w) = w.
Proof.
  intros Hw. unfold be_get, be_put. rewrite reverse_involutive, le_get_put.
  by apply Z.mod_small.
Qed.

Lemma be_put_get n l : length l = n -> is_bytes l -> be_put n (be_get l) = l.
Proof.
  intros <- Hl. unfold be_get, be_put.
  rewrite <- (length_reverse l), le_put_get by (by apply Forall_reverse).
  apply reverse_involutive.
Qed.

Lemma be_get_bound l : is_bytes l -> 0 <= be_get l < 256 ^ Z.of_nat (length l).
Proof.
  intros Hl. unfold be_get. rewrite <- (length_reverse l).
  by apply le_get_bound, Forall_reverse.
Qed.

(** Width-specific forms used by the wire formats. *)
Lemma be_get_put8 w : is_u64 w -> be_get (be_put 8 w) = w.
Proof. intros. by apply be_get_put. Qed.
Lemma be_get_put4 w : is_u32 w -> be_get (be_put 4 w) = w.
Proof. intros. by apply be_get_put. Qed.
Lemma be_get8_u64 l : length l = 8%nat -> is_bytes l -> is_u64 (be_get l).
Proof. intros Hl Hb. pose proof (be_get_bound l Hb) as H. by rewrite Hl in H. Qed.
Lemma be_get4_u32 l : length l = 4%nat -> is_bytes l -> is_u32 (be_get l).
Proof. intros Hl Hb. pose proof (be_get_bound l Hb) as H. by rewrite Hl in H. Qed.
Lemma le_get8_u64 l : length l = 8%nat -> is_bytes l -> is_u64 (le_get l).
Proof. intros Hl Hb. pose proof (le_get_bound l Hb) as H. by rewrite Hl in H. Qed.

Lemma testbit_byte b i : is_byte b -> 8 <= i -> Z.testbit b i = false.
Proof. intros Hb Hi. by apply (testbit_high 8). Qed.

(** Bit [i] of a little-endian integer is bit [i mod 8] of byte [i / 8]. *)
Lemma le_get_testbit l i :
  is_bytes l -> 0 <= i ->
  Z.testbit (le_get l) i =
  Z.testbit (default 0 (l !! Z.to_nat (i / 8))) (i mod 8).
Proof.
  intros Hl. revert i. induction Hl as [|b l Hb Hl IH]; intros i Hi.
  { rewrite lookup_nil. cbn [le_get]. by rewrite !Z.testbit_0_l. }
  cbn [le_get]. replace (256 * le_get l) with (Z.shiftl (le_get l) 8)
    by (rewrite Z.shiftl_mul_pow2; lia).
  pose proof (le_get_bound l Hl) as Hb2.
  assert (Hdisj : Z.land b (Z.shiftl (le_get l) 8) = 0).
  { apply Z.bits_inj'. intros j Hj. rewrite Z.land_spec, Z.testbit_0_l.
    destruct (decide (8 <= j)).
    - by rewrite (testbit_byte b) by done.
    - by rewrite Z.shiftl_spec_low, andb_false_r by lia. }
  rewrite Z.add_nocarry_lxor, Z.lxor_spec by done.
  destruct (decide (8 <= i)) as [Hge|Hlt].
  - rewrite (testbit_byte b), xorb_false_l, Z.shiftl_spec, IH by (done || lia).
    replace (i / 8) with (1 + (i - 8) / 8)
      by (replace i with ((i - 8) + 1 * 8) at 2 by lia; rewrite Z.div_add; lia).
    replace (i mod 8) with ((i - 8) mod 8)
      by (replace i with ((i - 8) + 1 * 8) at 2 by lia; rewrite Z.mod_add; lia).
    assert (0 <= (i - 8) / 8) by (apply Z.div_pos; lia).
    rewrite Z2Nat.inj_add by lia. done.
  - rewrite Z.shiftl_spec_low, xorb_false_r by lia.
    by rewrite Z.div_small, Z.mod_small by lia.
Qed.

(** ** Slices *)

Lemma length_slice {A} (l : list A) a b :
  (a <= b)%nat -> (b <= length l)%nat -> length (slice l a b) = (b - a)%nat.
Proof. intros. unfold slice. rewrite length_take, length_drop. lia. Qed.

Lemma slice_forall {A} (P : A -> Prop) l a b : Forall P l -> Forall P (slice l a b).
Proof. intros. unfold slice. by apply Forall_take, Forall_drop. Qed.

Lemma lookup_slice {A} (l : list A) a b i :
  (i < b - a)%nat -> slice l a b !! i = l !! (a + i)%nat.
Proof. intros. unfold slice. by rewrite lookup_take_lt, lookup_drop. Qed.

(** The workhorse of the decoders: cut a slice out of a concatenation. *)
Lemma slice_app_skip {A} (l1 l2 : list A) a b :
  (length l1 <= a)%nat ->
  slice (l1 ++ l2) a b = slice l2 (a - length l1) (b - length l1).
Proof.
  intros. unfold slice. rewrite drop_app_ge by done. f_equal. lia.
Qed.

Lemma slice_app_hit {A} (l1 l2 : list A) b :
  length l1 = b -> slice (l1 ++ l2) 0 b = l1.
Proof. intros <-. unfold slice. by rewrite drop_0, Nat.sub_0_r, take_app_length. Qed.

Lemma slice_all {A} (l : list A) b : length l = b -> slice l 0 b = l.
Proof. intros <-. unfold slice. by rewrite drop_0, Nat.sub_0_r, firstn_all. Qed.

Lemma drop_app_skip {A} (l1 l2 : list A) a :
  (length l1 <= a)%nat -> drop a (l1 ++ l2) = drop (a - length l1) l2.
Proof. intros. by rewrite drop_app_ge. Qed.

Lemma slice_glue {A} (l : list A) a b c :
  (a <= b)%nat -> (b <= c)%nat -> slice l a b ++ slice l b c = slice l a c.
Proof.
  intros. unfold slice. replace (c - a)%nat with ((b - a) + (c - b))%nat by lia.
  rewrite <- take_take_drop. f_equal. rewrite drop_drop. do 2 f_equal. lia.
Qed.

Lemma slice_glue_drop {A} (l : list A) a b :
  (a <= b)%nat -> slice l a b ++ drop b l = drop a l.
Proof.
  intros. unfold slice. rewrite <- (take_drop (b - a) (drop a l)) at 2.
  rewrite drop_drop. do 2 f_equal. lia.
Qed.

Lemma list_eq_from_slices {A} (l : list A) b : slice l 0 b ++ drop b l = l.
Proof. rewrite slice_glue_drop by lia. apply drop_0. Qed.

(** ** XOR of byte strings *)

Definition xor_bytes : bytes -> bytes -> bytes := zip_with Z.lxor.

Lemma length_xor_bytes a b : length (xor_bytes a b) = Nat.min (length a) (length b).
Proof. apply length_zip_with. Qed.

Lemma xor_bytes_bytes a b : is_bytes a -> is_bytes b -> is_bytes (xor_bytes a b).
Proof.
  intros Ha Hb. apply Forall_lookup. intros i z Hz.
  apply lookup_zip_with_Some in Hz as (x & y & -> & Hx & Hy).
  eapply Forall_lookup_1 in Hx; [|done]. eapply Forall_lookup_1 in Hy; [|done].
  by apply (lxor_bound 8).
Qed.

Lemma xor_bytes_slice a b i j : slice (xor_bytes a b) i j = xor_bytes (slice a i j) (slice b i j).
Proof. unfold slice, xor_bytes. by rewrite zip_with_drop, zip_with_take. Qed.

Lemma xor_bytes_comm a b : xor_bytes a b = xor_bytes b a.
Proof.
  revert b. induction a as [|x a IH]; intros [|y b]; simpl; [done..|].
  by rewrite Z.lxor_comm, IH.
Qed.

Lemma xor_bytes_cancel a b : length a = length b -> xor_bytes (xor_bytes a b) b = a.
Proof.
  revert b. induction a as [|x a IH]; intros [|y b] H; simplify_eq/=; [done|].
  rewrite Z.lxor_assoc, Z.lxor_nilpotent, Z.lxor_0_r. f_equal. by apply IH.
Qed.

(** [clear(s)]: overwrite with zeros. *)
Definition zeros (n : nat) : bytes := replicate n 0.

Lemma zeros_bytes n : is_bytes (zeros n).
Proof. apply Forall_replicate. done. Qed.

#[export] Hint Resolve be_put_bytes le_put_bytes xor_bytes_bytes zeros_bytes : word.

(** ** Strings and comparisons *)

(** Go string constants as bytes. *)
Definition str (s : string) : bytes := map (fun a => Z.of_N (Ascii.N_of_ascii a)) (String.list_ascii_of_string s).

Definition bytes_eqb (a b : bytes) : bool := bool_decide (a = b).

Lemma bytes_eqb_spec a b : bytes_eqb a b = true <-> a = b.
Proof. unfold bytes_eqb. by rewrite bool_decide_eq_true. Qed.

Lemma bytes_eqb_refl a : bytes_eqb a a = true.
Proof. unfold bytes_eqb. by apply bool_decide_eq_true_2. Qed.

(** The comparison loop that ORs the differences of all positions. *)
Definition ct_equal (a b : bytes) : bool :=
  if negb (length a =? length b)%nat then false else
  foldr (fun p diff => Z.lor (Z.lxor p.1 p.2) diff) 0 (zip a b) =? 0.

Lemma ct_equal_spec a b : ct_equal a b = true <-> a = b.
Proof.
  unfold ct_equal. set (diff := foldr _ 0).
  assert (D : forall a b, length a = length b -> diff (zip a b) = 0 <-> a = b).
  { clear. intros a. induction a as [|x a IH]; intros [|y b] L; try done.
    change (diff (zip (x :: a) (y :: b))) with (Z.lor (Z.lxor x y) (diff (zip a b))).
    rewrite Z.lor_eq_0_iff, Z.lxor_eq_0_iff, (IH b) by (cbn in L; lia). naive_solver. }
  destruct (Nat.eqb_spec (length a) (length b)) as [L|L]; cbn [negb].
  - rewrite Z.eqb_eq. by apply D.
  - split; [done|]. by intros ->.
Qed.

(** [copy] of [s] into a zeroed array of [n] bytes. *)
Definition pad_to (n : nat) (s : bytes) : bytes := take n s ++ zeros (n - length s).

Lemma pad_to_exact n s : length s = n -> pad_to n s = s.
Proof. intros <-. unfold pad_to. by rewrite firstn_all, Nat.sub_diag, app_nil_r. Qed.

Lemma length_str s : length (str s) = String.length s.
Proof. unfold str. rewrite length_map. induction s; cbn; congruence. Qed.

Lemma str_bytes s : is_bytes (str s).
Proof.
  apply Forall_map, Forall_forall. intros a _. unfold is_byte. cbn.
  pose proof (Ascii.N_ascii_bounded a). lia.
Qed.

#[export] Instance str_inj : Inj (=) (=) str.
Proof.
  intros s. induction s as [|a s IH]; intros [|b t] E; try done.
  cbn in E. apply (inj2 cons) in E as [Ea Et].
  apply (f_equal (fun z => Ascii.ascii_of_N (Z.to_N z))) in Ea.
  rewrite !N2Z.id, !Ascii.ascii_N_embedding in Ea. rewrite Ea. f_equal. by apply IH.
Qed.

(** [norm_guards] turns the boolean guards a successful run left behind into propositions. *)
Ltac norm_guards :=
  repeat match goal with
    | H : negb _ = false |- _ => apply negb_false_iff in H
    | H : negb _ = true |- _ => apply negb_true_iff in H
    | H : _ || _ = false |- _ => apply orb_false_iff in H as [? ?]
    | H : _ && _ = true |- _ => apply andb_true_iff in H as [? ?]
    | H : (_ =? _)%nat = true |- _ => apply Nat.eqb_eq in H
    | H : (_ =? _)%nat = false |- _ => apply Nat.eqb_neq in H
    | H : (_ <? _)%nat = false |- _ => apply Nat.ltb_ge in H
    | H : (_ =? _)%Z = true |- _ => apply Z.eqb_eq in H
    | H : (_ =? _)%Z = false |- _ => apply Z.eqb_neq in H
    | H : (_ <? _)%Z = true |- _ => apply Z.ltb_lt in H
    | H : (_ <? _)%Z = false |- _ => apply Z.ltb_ge in H
    | H : (_ <=? _)%Z = true |- _ => apply Z.leb_le in H
    | H : (_ <=? _)%Z = false |- _ => apply Z.leb_gt in H
    | H : bytes_eqb _ _ = true |- _ => apply bytes_eqb_spec in H
    | H : String.eqb _ _ = true |- _ => apply String.eqb_eq in H
    | H : String.eqb _ _ = false |- _ => apply String.eqb_neq in H
    end.
