(* ===== verification/Label.v ===== *)
(** * Wire labels and OT index arithmetic ([mpc/label.go], [mpc/index.go])

    128-bit labels as the pair of 64-bit words the source uses, their XOR
    group, permutation bit and 16-byte big-endian encoding, and the overflow
    checked end of an OT index range. *)

From S2P Require Import Prelude Bytes.

Record Label := mkLabel { D0 : Z; D1 : Z }.

Record wire := mkWire { l0 : Label; l1 : Label }.

#[export] Instance Label_eq_dec : EqDecision Label.
Proof. solve_decision. Defined.
#[export] Instance Label_inhabited : Inhabited Label := populate (mkLabel 0 0).
#[export] Instance wire_inhabited : Inhabited wire := populate (mkWire inhabitant inhabitant).

Definition label_zero : Label := mkLabel 0 0.
Definition wire_zero : wire := mkWire label_zero label_zero.

Definition label_xor (l r : Label) : Label :=
  mkLabel (Z.lxor (D0 l) (D0 r)) (Z.lxor (D1 l) (D1 r)).

Declare Scope label_scope.
Delimit Scope label_scope with label.
Bind Scope label_scope with Label.
Infix "⊕" := label_xor (at level 50, left associativity) : label_scope.
#[global] Open Scope label_scope.

Definition label_equal (l r : Label) : bool := (D0 l =? D0 r) && (D1 l =? D1 r).

Definition permutationBit (l : Label) : bool := negb (shr64 (D0 l) 63 =? 0).

Definition withPermutationBit (set : bool) (l : Label) : Label :=
  if set then mkLabel (Z.lor (D0 l) (shl64 1 63)) (D1 l)
  else mkLabel (Z.ldiff (D0 l) (shl64 1 63)) (D1 l).

Definition label_put (l : Label) : bytes := be_put 8 (D0 l) ++ be_put 8 (D1 l).

Definition labelFromBytes (src : bytes) : Label :=
  mkLabel (be_get (slice src 0 8)) (be_get (slice src 8 16)).

Arguments permutationBit : simpl never.
Arguments withPermutationBit : simpl never.
Arguments label_put : simpl never.
Arguments labelFromBytes : simpl never.

(** [mpc/index.go] *)
Definition checkedIndexEnd (start count : Z) : res Z :=
  fail_if (count <? 0) "mpc: negative OT count";;
  let distance := u64 count in
  fail_if (MaxUint64 - start <? distance) "mpc: OT index range overflows uint64";;
  Ok (add64 start distance).

Definition CheckedOTIndexEnd (start count : Z) : res Z := checkedIndexEnd start count.

(** ** Well-formedness: both halves are 64-bit words *)

Definition label_ok (l : Label) : Prop := is_u64 (D0 l) /\ is_u64 (D1 l).

#[export] Instance label_ok_dec l : Decision (label_ok l).
Proof. unfold label_ok. apply _. Defined.

Lemma label_ext l r : D0 l = D0 r -> D1 l = D1 r -> l = r.
Proof. destruct l, r. simpl. by intros -> ->. Qed.

Lemma label_xor_ok l r : label_ok l -> label_ok r -> label_ok (l ⊕ r).
Proof. intros [??] [??]. split; simpl; auto with word. Qed.

Lemma label_zero_ok : label_ok label_zero.
Proof. done. Qed.

Lemma label_equal_spec l r : label_equal l r = true <-> l = r.
Proof.
  unfold label_equal. rewrite andb_true_iff, !Z.eqb_eq.
  split; [intros [??]; by apply label_ext|by intros ->].
Qed.

(** [xor_solve] proves equations of the XOR group of labels. *)
Ltac xor_solve :=
  apply label_ext; simpl; apply Z.bits_inj; intros ?;
  rewrite ?Z.lxor_spec, ?Z.testbit_0_l; btauto.

Lemma label_xor_comm l r : l ⊕ r = r ⊕ l.
Proof. xor_solve. Qed.
Lemma label_xor_assoc a b c : a ⊕ (b ⊕ c) = a ⊕ b ⊕ c.
Proof. xor_solve. Qed.
Lemma label_xor_nilpotent l : l ⊕ l = label_zero.
Proof. xor_solve. Qed.
Lemma label_xor_0_r l : l ⊕ label_zero = l.
Proof. xor_solve. Qed.
Lemma label_xor_0_l l : label_zero ⊕ l = l.
Proof. xor_solve. Qed.
Lemma label_xor_cancel l r : l ⊕ r ⊕ r = l.
Proof. xor_solve. Qed.

Lemma permutationBit_testbit l : label_ok l -> permutationBit l = Z.testbit (D0 l) 63.
Proof.
  intros [H _]. unfold permutationBit, shr64. rewrite Z.shiftr_div_pow2 by lia.
  rewrite Z.testbit_eqb by lia. unfold is_u64 in H.
  assert (0 <= D0 l / 2 ^ 63 < 2).
  { split; [apply Z.div_pos; lia|apply Z.div_lt_upper_bound; lia]. }
  rewrite Z.mod_small by done. f_equal. destruct (decide (D0 l / 2 ^ 63 = 0)) as [->|]; [done|].
  replace (D0 l / 2 ^ 63) with 1 by lia. done.
Qed.

Lemma permutationBit_xor l r :
  label_ok l -> label_ok r ->
  permutationBit (l ⊕ r) = xorb (permutationBit l) (permutationBit r).
Proof.
  intros Hl Hr. rewrite !permutationBit_testbit by auto using label_xor_ok.
  apply Z.lxor_spec.
Qed.

Lemma withPermutationBit_ok b l : label_ok l -> label_ok (withPermutationBit b l).
Proof.
  intros [H0 H1]. unfold withPermutationBit. destruct b; split; cbn [D0 D1]; auto with word.
  unfold is_u64 in *.
  assert (0 <= Z.ldiff (D0 l) (shl64 1 63)) by (apply Z.ldiff_nonneg; lia).
  split; [done|]. apply bits_bound; [lia|done|]. intros i Hi.
  by rewrite Z.ldiff_spec, (testbit_high 64 (D0 l)) by lia.
Qed.

Lemma permutationBit_with b l : label_ok l -> permutationBit (withPermutationBit b l) = b.
Proof.
  intros H. rewrite permutationBit_testbit by (by apply withPermutationBit_ok).
  unfold withPermutationBit. destruct b; cbn [D0]; [rewrite Z.lor_spec|rewrite Z.ldiff_spec];
    change (Z.testbit (shl64 1 63) 63) with true; btauto.
Qed.

(** ** Encoding *)

Lemma length_label_put l : length (label_put l) = 16%nat.
Proof. unfold label_put. by rewrite length_app, !length_be_put. Qed.

Lemma label_put_bytes l : is_bytes (label_put l).
Proof. unfold label_put. apply Forall_app; auto with word. Qed.

Lemma labelFromBytes_put l : label_ok l -> labelFromBytes (label_put l) = l.
Proof.
  intros [H0 H1]. unfold labelFromBytes, label_put. apply label_ext; cbn [D0 D1].
  - rewrite slice_app_hit by apply length_be_put. by apply be_get_put8.
  - rewrite slice_app_skip; rewrite length_be_put; [|done].
    rewrite slice_all by apply length_be_put. by apply be_get_put8.
Qed.

Lemma labelFromBytes_ok b : length b = 16%nat -> is_bytes b -> label_ok (labelFromBytes b).
Proof.
  intros Hl Hb. unfold labelFromBytes. split; cbn [D0 D1]; apply be_get8_u64; try (by apply slice_forall);
    by rewrite length_slice by lia.
Qed.

Lemma label_put_labelFromBytes b :
  length b = 16%nat -> is_bytes b -> label_put (labelFromBytes b) = b.
Proof.
  intros Hl Hb. unfold label_put, labelFromBytes. cbn [D0 D1].
  rewrite !be_put_get; try (by apply slice_forall); try (by rewrite length_slice by lia).
  rewrite slice_glue by lia. by apply slice_all.
Qed.

(** ** Index ranges *)

Lemma checkedIndexEnd_spec start count :
  is_u64 start -> is_int count ->
  checkedIndexEnd start count =
    if count <? 0 then Err "mpc: negative OT count"
    else if MaxUint64 <? start + count then Err "mpc: OT index range overflows uint64"
    else Ok (start + count).
Proof.
  unfold checkedIndexEnd, is_u64, is_int, MaxUint64, add64, u64. intros Hs Hc.
  destruct (Z.ltb_spec count 0); [done|].
  rewrite (Z.mod_small count) by lia.
  destruct (Z.ltb_spec (2 ^ 64 - 1) (start + count)).
  - by rewrite (proj2 (Z.ltb_lt _ _)) by lia.
  - by rewrite (proj2 (Z.ltb_ge _ _)), Z.mod_small by lia.
Qed.

Lemma checkedIndexEnd_Ok start count e :
  is_u64 start -> is_int count ->
  checkedIndexEnd start count = Ok e <-> 0 <= count /\ e = start + count /\ is_u64 e.
Proof.
  intros Hs Hc. rewrite checkedIndexEnd_spec by done. unfold is_u64, MaxUint64 in *.
  destruct (Z.ltb_spec count 0); [split; [done|lia]|].
  destruct (Z.ltb_spec (2 ^ 64 - 1) (start + count)); split; intros H'; simplify_eq; try lia.
  f_equal. lia.
Qed.

Lemma checkedIndexEnd_no_panic start count : checkedIndexEnd start count <> Panic.
Proof. unfold checkedIndexEnd. by repeat case_match. Qed.

Lemma checkedIndexEnd_fits start count :
  0 <= start -> 0 <= count < 2 ^ 63 -> start + count <= MaxUint64 ->
  checkedIndexEnd start count = Ok (start + count).
Proof.
  unfold MaxUint64. intros. apply checkedIndexEnd_Ok; unfold is_u64, is_int; lia.
Qed.

#[export] Hint Resolve label_xor_ok label_zero_ok withPermutationBit_ok labelFromBytes_ok
  label_put_bytes : word.
