(* ===== verification/Slices.v ===== *)
(** * Go slices with their backing array

    The OT pools keep secrets in slices that are grown, cleared, shifted and
    truncated, and the code takes care of what is left in the backing array.  So
    a slice here is its backing array (capacity included) and its length.
    [appendWithWipedGrowth] is the generic function of [mpc/pool.go]. *)

From S2P Require Import Prelude.

Record gslice (A : Type) := mkSlice { backing : list A; slen : nat }.
Arguments mkSlice {A} backing slen.
Arguments backing {A} g.
Arguments slen {A} g.

Section Ops.
Context {A : Type} (zero : A).
Implicit Types (s : gslice A) (l : list A).

Definition scap s : nat := length (backing s).

(** The visible elements, and what lies behind them up to the capacity. *)
Definition elems s : list A := take (slen s) (backing s).
Definition spare s : list A := drop (slen s) (backing s).

(** [make([]T, 0, capacity)]. *)
Definition make_empty (capacity : nat) : gslice A := mkSlice (replicate capacity zero) 0.

(** [append([]T(nil), s[a:b]...)]: a fresh copy of a subslice. *)
Definition copy_range s (a b : nat) : res (list A) :=
  if (a <=? b)%nat && (b <=? scap s)%nat then Ok (slice (backing s) a b) else Panic.

(** [clear(s[a:b])]. *)
Definition clear_range s (a b : nat) : res (gslice A) :=
  if (a <=? b)%nat && (b <=? scap s)%nat
  then Ok (mkSlice (take a (backing s) ++ replicate (b - a) zero ++ drop b (backing s)) (slen s))
  else Panic.

(** [clear(s); s = s[:0]]. *)
Definition clear_all s : gslice A :=
  mkSlice (replicate (slen s) zero ++ spare s) 0.

(** [r := copy(s, s[c:]); clear(s[r:]); s = s[:r]]. *)
Definition shift_out s (c : nat) : res (gslice A) :=
  if (slen s <? c)%nat then Panic else
  let r := (slen s - c)%nat in
  let moved := mkSlice (slice (backing s) c (slen s) ++ drop r (backing s)) (slen s) in
  cleared ← clear_range moved r (slen s);
  Ok (mkSlice (backing cleared) r).

Definition MaxInt : Z := 2 ^ 63 - 1.

(** [appendWithWipedGrowth dst src]: the new slice, and the backing array that
    was left behind, as it is after the call. *)
Definition appendWithWipedGrowth (dst : gslice A) (src : list A) : gslice A * list A :=
  if (length src <=? scap dst - slen dst)%nat then
    (mkSlice (elems dst ++ src ++ drop (slen dst + length src) (backing dst))
             (slen dst + length src), [])
  else
    let needed := (slen dst + length src)%nat in
    let newCap :=
      if (Z.of_nat (scap dst) <=? MaxInt / 2) && (needed <? scap dst * 2)%nat
      then (scap dst * 2)%nat else needed in
    let next := elems dst ++ src ++ replicate (newCap - needed) zero in
    let abandoned := if (scap dst =? 0)%nat then backing dst else replicate (scap dst) zero in
    (mkSlice next needed, abandoned).

(** ** What the operations do to the elements and to the spare capacity *)

Definition slice_wf s : Prop := (slen s <= scap s)%nat.

Lemma length_elems s : slice_wf s -> length (elems s) = slen s.
Proof. intros H. unfold elems. rewrite length_take. unfold slice_wf, scap in H. lia. Qed.

Lemma elems_spare s : elems s ++ spare s = backing s.
Proof. apply take_drop. Qed.

Lemma slice_of_parts l1 l2 : elems (mkSlice (l1 ++ l2) (length l1)) = l1 /\
  spare (mkSlice (l1 ++ l2) (length l1)) = l2.
Proof. unfold elems, spare. cbn. by rewrite take_app_length, drop_app_length. Qed.

(** Every slice is its elements followed by its spare capacity. *)
Lemma slice_parts s : slice_wf s -> s = mkSlice (elems s ++ spare s) (length (elems s)).
Proof. intros H. rewrite elems_spare, length_elems by done. by destruct s. Qed.

Lemma slice_wf_parts l1 l2 : slice_wf (mkSlice (l1 ++ l2) (length l1)).
Proof. unfold slice_wf, scap. cbn. rewrite length_app. lia. Qed.

Lemma copy_range_spec s a b :
  slice_wf s -> (a <= b <= slen s)%nat -> copy_range s a b = Ok (slice (elems s) a b).
Proof.
  intros Hw [H1 H2]. unfold copy_range. unfold slice_wf, scap in *.
  rewrite (proj2 (Nat.leb_le a b)), (proj2 (Nat.leb_le b _)) by lia. cbn [andb]. f_equal.
  unfold slice, elems. rewrite skipn_firstn_comm, take_take. f_equal. lia.
Qed.

Lemma clear_range_spec s a b :
  slice_wf s -> (a <= b <= slen s)%nat ->
  exists s', clear_range s a b = Ok s' /\ slice_wf s' /\ slen s' = slen s /\
    elems s' = take a (elems s) ++ replicate (b - a) zero ++ drop b (elems s) /\
    spare s' = spare s.
Proof.
  intros Hw [H1 H2]. pose proof (length_elems s Hw) as Le.
  unfold clear_range. unfold slice_wf, scap in *.
  rewrite (proj2 (Nat.leb_le a b)), (proj2 (Nat.leb_le b _)) by lia. cbn [andb].
  rewrite <- (elems_spare s). rewrite take_app_le, drop_app_le by lia.
  set (new := take a (elems s) ++ replicate (b - a) zero ++ drop b (elems s)).
  assert (Ln : length new = slen s).
  { unfold new. rewrite !length_app, length_take, length_replicate, length_drop. lia. }
  replace (take a (elems s) ++ replicate (b - a) zero ++ drop b (elems s) ++ spare s)
    with (new ++ spare s) by (unfold new; by rewrite <- !app_assoc).
  rewrite <- Ln. destruct (slice_of_parts new (spare s)) as [E1 E2].
  eexists. split; [done|]. split_and!; [apply slice_wf_parts|done..].
Qed.

Lemma clear_all_spec s : slice_wf s ->
  slice_wf (clear_all s) /\ elems (clear_all s) = [] /\
  spare (clear_all s) = replicate (slen s) zero ++ spare s.
Proof.
  intros Hw. unfold clear_all. split; [|done]. unfold slice_wf. cbn. lia.
Qed.

Lemma shift_out_spec s c :
  slice_wf s -> (c <= slen s)%nat ->
  exists s', shift_out s c = Ok s' /\ slice_wf s' /\
    elems s' = drop c (elems s) /\ spare s' = replicate c zero ++ spare s.
Proof.
  intros Hw Hc. pose proof (length_elems s Hw) as Le. unfold shift_out.
  rewrite (proj2 (Nat.ltb_ge _ _)) by done.
  rewrite <- (elems_spare s).
  assert (slice (elems s ++ spare s) c (slen s) = drop c (elems s)) as ->.
  { unfold slice. rewrite drop_app_le by lia. rewrite take_app_le by (rewrite length_drop; lia).
    rewrite take_ge; [done|]. rewrite length_drop. lia. }
  set (r := (slen s - c)%nat). rewrite drop_app_le by lia.
  set (mv := mkSlice _ _).
  assert (Em : mv = mkSlice ((drop c (elems s) ++ drop r (elems s)) ++ spare s)
                       (length (drop c (elems s) ++ drop r (elems s)))).
  { unfold mv. rewrite <- app_assoc. f_equal. rewrite length_app, !length_drop. lia. }
  destruct (slice_of_parts (drop c (elems s) ++ drop r (elems s)) (spare s)) as [E1 E2].
  destruct (clear_range_spec mv r (slen s)) as (cl & -> & Hwc & Lc & Ec & Es).
  { rewrite Em. apply slice_wf_parts. } { cbn. lia. }
  cbn [mbind res_bind]. rewrite Em, E1 in Ec. rewrite Em, E2 in Es.
  rewrite take_app_length' in Ec by (rewrite length_drop; lia).
  rewrite (drop_ge (_ ++ _)) in Ec by (rewrite length_app, !length_drop; lia).
  replace (slen s - r)%nat with c in Ec by lia. rewrite app_nil_r in Ec.
  rewrite <- (elems_spare cl), Ec, Es, <- app_assoc.
  replace r with (length (drop c (elems s))) by (rewrite length_drop; lia).
  destruct (slice_of_parts (drop c (elems s)) (replicate c zero ++ spare s)).
  eexists. split; [done|]. split_and!; [apply slice_wf_parts|done..].
Qed.

(** Growing appends the new elements; whatever is left behind, and the spare
    capacity of a fresh array, is zero. *)
Lemma appendWithWipedGrowth_spec dst src s' left :
  slice_wf dst -> appendWithWipedGrowth dst src = (s', left) ->
  slice_wf s' /\ elems s' = elems dst ++ src /\ Forall (eq zero) left /\
  (Forall (eq zero) (spare dst) -> Forall (eq zero) (spare s')).
Proof.
  intros Hw. pose proof (length_elems dst Hw) as Le. unfold slice_wf in Hw.
  unfold appendWithWipedGrowth.
  assert (Lx : (slen dst + length src)%nat = length (elems dst ++ src)) by (rewrite length_app; lia).
  rewrite !app_assoc, Lx.
  destruct (Nat.leb_spec (length src) (scap dst - slen dst)); intros E; injection E as <- <-.
  - destruct (slice_of_parts (elems dst ++ src) (drop (length (elems dst ++ src)) (backing dst))) as [-> ->].
    split_and!; [apply slice_wf_parts|done|constructor|]. rewrite <- Lx, <- drop_drop.
    by apply Forall_drop.
  - destruct (slice_of_parts (elems dst ++ src)
      (replicate ((if (Z.of_nat (scap dst) <=? MaxInt / 2)
                      && (length (elems dst ++ src) <? scap dst * 2)%nat
                   then (scap dst * 2)%nat else length (elems dst ++ src))
                  - length (elems dst ++ src)) zero)) as [-> ->].
    split_and!; [apply slice_wf_parts|done| |].
    + destruct (Nat.eqb_spec (scap dst) 0) as [E0|E0]; [|by apply Forall_replicate].
      apply nil_length_inv in E0. rewrite E0. constructor.
    + intros _. by apply Forall_replicate.
Qed.

End Ops.

Lemma make_empty_spec {A} (zero : A) n :
  slice_wf (make_empty zero n) /\ elems (make_empty zero n) = [] /\
  Forall (eq zero) (spare (make_empty zero n)).
Proof.
  split_and!; [unfold slice_wf; cbn; lia|done|].
  unfold spare. cbn. by apply Forall_replicate.
Qed.
