(* ===== verification/Transpose.v ===== *)
(** * Bit-matrix transposition ([mpc/transpose.go])

    IKNP works on columns, the OTs on rows.  [transposeColumns] cuts the 128-row
    column-major matrix into 128x128 blocks, [transpose128] into 64x64 quadrants
    and [transpose64] runs six passes of delta swaps.  The theorem is the one
    the name promises: bit [col] of output label [row] is bit [row] of column
    [col]. *)

From S2P Require Import Prelude Bytes Label.

Definition BaseOTCount : nat := 128.

(** ** [transpose64] *)

Definition delta_swap (w : nat) (mask : Z) (data : list Z) (k : nat) : list Z :=
  let t := Z.land (Z.lxor (nth k data 0) (shr64 (nth (k + w) data 0) (Z.of_nat w))) mask in
  let data := <[k := Z.lxor (nth k data 0) t]> data in
  <[(k + w)%nat := Z.lxor (nth (k + w) data 0) (shl64 t (Z.of_nat w))]> data.

(** [for k := 0; k < 64; k = (k + width + 1) &^ width]. *)
Fixpoint swap_loop (fuel : nat) (k w : nat) (mask : Z) (data : list Z) : list Z :=
  match fuel with
  | O => data
  | S fuel =>
      if (k <? 64)%nat
      then swap_loop fuel (Nat.ldiff (k + w + 1) w) w mask (delta_swap w mask data k)
      else data
  end.

(** [for width := 32; width != 0; { ...; width >>= 1; mask ^= mask << width }]:
    [fuel] bounds the passes (six are made, 64 bounds the swaps of a pass). *)
Fixpoint pass_loop (fuel : nat) (w : nat) (mask : Z) (data : list Z) : list Z :=
  match fuel with
  | O => data
  | S fuel =>
      if (w =? 0)%nat then data else
      let data := swap_loop 64 0 w mask data in
      let w' := Nat.div2 w in
      let mask' := if (w' =? 0)%nat then mask else Z.lxor mask (shl64 mask (Z.of_nat w')) in
      pass_loop fuel w' mask' data
  end.

Definition transpose64 (data : list Z) : list Z := pass_loop 7 32 4294967295 data.

(** ** [math/bits.Reverse64] *)

Fixpoint of_bits (f : nat -> bool) (n : nat) : Z :=
  match n with
  | O => 0
  | S n => Z.lor (of_bits f n) (Z.shiftl (Z.b2z (f n)) (Z.of_nat n))
  end.

Definition Reverse64 (x : Z) : Z := of_bits (fun i => Z.testbit x (63 - Z.of_nat i)) 64.

(** ** [transpose128] and [transposeColumns] *)

Definition transpose128 (data : list Label) : list Label :=
  let low := take 64 data in
  let high := drop 64 data in
  let a := transpose64 (map D0 low) in
  let b := transpose64 (map D1 low) in
  let c := transpose64 (map D0 high) in
  let d := transpose64 (map D1 high) in
  let row x y i := let j := (63 - i)%nat in
                   mkLabel (Reverse64 (nth j x 0)) (Reverse64 (nth j y 0)) in
  map (row a c) (seq 0 64) ++ map (row b d) (seq 0 64).

(** The 16 bytes of each column at [byteOffset], as labels. *)
Definition load_label (matrix : bytes) (off : nat) : res Label :=
  if (length matrix <? off + 16)%nat then Panic
  else Ok (mkLabel (le_get (slice matrix off (off + 8))) (le_get (slice matrix (off + 8) (off + 16)))).

Fixpoint load_block (matrix : bytes) (byteRows byteOffset : nat) (cols : list nat) : res (list Label) :=
  match cols with
  | [] => Ok []
  | col :: cols =>
      l ← load_label matrix (col * byteRows + byteOffset);
      ls ← load_block matrix byteRows byteOffset cols;
      Ok (l :: ls)
  end.

(** [n] blocks of 128 rows from row [row] on. *)
Fixpoint transpose_blocks (matrix : bytes) (byteRows row n : nat) : res (list Label) :=
  match n with
  | O => Ok []
  | S n =>
      block ← load_block matrix byteRows (row / 8) (seq 0 BaseOTCount);
      rest ← transpose_blocks matrix byteRows (row + BaseOTCount) n;
      Ok (transpose128 block ++ rest)
  end.

(** [transposeColumns matrix byteRows dst], for [len(dst) = rows]. *)
Definition transposeColumns (matrix : bytes) (byteRows rows : nat) : res (list Label) :=
  if negb (rows mod BaseOTCount =? 0)%nat then Panic
  else transpose_blocks matrix byteRows 0 (rows / BaseOTCount).

(** Bit [i] of a label read as 128 bits, the first word low ([deltaBit]). *)
Definition deltaBit (delta : Label) (bit : nat) : bool :=
  if (bit <? 64)%nat then negb (Z.land (D0 delta) (shl64 1 (Z.of_nat bit)) =? 0)
  else negb (Z.land (D1 delta) (shl64 1 (Z.of_nat bit - 64)) =? 0).

(** ** One pass *)

(** Bit [b] of row [r]. *)
Definition cell (data : list Z) (r b : nat) : bool := Z.testbit (nth r data 0) (Z.of_nat b).

(** Where the pass of width [2^s] takes the bit at [(r, b)] from. *)
Definition source (s : nat) (p : nat * nat) : nat * nat :=
  let '(r, b) := p in
  let flip x := if Nat.testbit x s then (x - 2 ^ s)%nat else (x + 2 ^ s)%nat in
  if Bool.eqb (Nat.testbit r s) (Nat.testbit b s) then (flip r, flip b) else (r, b).

(** What the data-independent part of a pass needs to satisfy, decided by
    computation: the swapped pairs and the mask. *)
Definition pass_rows (s : nat) : list nat := filter (fun k => Nat.testbit k s = false) (seq 0 64).

Fixpoint swap_rows (fuel k w : nat) : list nat :=
  match fuel with
  | O => []
  | S fuel => if (k <? 64)%nat then k :: swap_rows fuel (Nat.ldiff (k + w + 1) w) w else []
  end.

Definition pass_check (s : nat) (mask : Z) : bool :=
  let w := (2 ^ s)%nat in
  bool_decide (swap_rows 64 0 w = pass_rows s)
  && forallb (fun b => Bool.eqb (Z.testbit mask (Z.of_nat b)) (negb (Nat.testbit b s))) (seq 0 64)
  && forallb (fun b => if (w <=? b)%nat
                       then Bool.eqb (Nat.testbit (b - w) s) (negb (Nat.testbit b s))
                       else negb (Nat.testbit b s)) (seq 0 64)
  && forallb (fun b => if Nat.testbit b s then true
                       else (b + w <? 64)%nat && Nat.testbit (b + w) s) (seq 0 64).

Lemma swap_loop_rows fuel k w mask data :
  swap_loop fuel k w mask data = fold_left (delta_swap w mask) (swap_rows fuel k w) data.
Proof.
  revert k data. induction fuel as [|fuel IH]; intros k data; [done|].
  cbn [swap_loop swap_rows]. destruct (k <? 64)%nat; [|done]. cbn [fold_left]. apply IH.
Qed.

Lemma length_delta_swap w mask data k : length (delta_swap w mask data k) = length data.
Proof. unfold delta_swap. by rewrite !length_insert. Qed.

Lemma nth_insert (data : list Z) i j x :
  (i < length data)%nat -> nth j (<[i := x]> data) 0 = if decide (i = j) then x else nth j data 0.
Proof.
  intros H. rewrite !nth_lookup. case_decide as E.
  - subst. by rewrite list_lookup_insert_eq.
  - by rewrite list_lookup_insert_ne.
Qed.

(** The two rows a swap writes, and the others. *)
Definition swap_t (w : nat) (mask : Z) (data : list Z) (k : nat) : Z :=
  Z.land (Z.lxor (nth k data 0) (shr64 (nth (k + w) data 0) (Z.of_nat w))) mask.

Lemma nth_delta_swap w mask data k j :
  (0 < w)%nat -> (k + w < length data)%nat ->
  nth j (delta_swap w mask data k) 0 =
    if decide (j = k) then Z.lxor (nth k data 0) (swap_t w mask data k)
    else if decide (j = (k + w)%nat)
    then Z.lxor (nth (k + w) data 0) (shl64 (swap_t w mask data k) (Z.of_nat w))
    else nth j data 0.
Proof.
  intros Hw Hl. unfold delta_swap. fold (swap_t w mask data k).
  rewrite !nth_insert by (rewrite ?length_insert; lia).
  repeat case_decide; subst; try done; lia.
Qed.

(** A pass over disjoint pairs: every row is written once, from the old data. *)
Lemma nth_swaps w mask ks data j :
  (0 < w)%nat -> NoDup ks ->
  (forall k, k ∈ ks -> (k + w < length data)%nat /\ (k + w)%nat ∉ ks) ->
  nth j (fold_left (delta_swap w mask) ks data) 0 =
    if decide (j ∈ ks) then Z.lxor (nth j data 0) (swap_t w mask data j)
    else if decide ((w <= j)%nat /\ (j - w)%nat ∈ ks)
    then Z.lxor (nth j data 0) (shl64 (swap_t w mask data (j - w)) (Z.of_nat w))
    else nth j data 0.
Proof.
  intros Hw Hnd. revert data. induction Hnd as [|k ks Hk Hnd IH]; intros data Hks.
  { cbn. rewrite decide_False by apply not_elem_of_nil.
    by rewrite decide_False by (intros [_ []%not_elem_of_nil]). }
  cbn [fold_left].
  assert (Hhd : (k + w < length data)%nat) by (apply Hks, elem_of_cons; auto).
  assert (Htl : forall i, i ∈ ks -> (i + w < length data)%nat /\ (i + w)%nat ∉ ks /\
                  i <> k /\ i <> (k + w)%nat /\ (i + w)%nat <> k).
  { intros i Hi. destruct (Hks i) as [? Hn]; [apply elem_of_cons; auto|].
    destruct (Hks k) as [_ Hn']; [apply elem_of_cons; auto|].
    rewrite not_elem_of_cons in Hn, Hn'. destruct Hn, Hn'.
    split_and!; [done|done|congruence|congruence|done]. }
  rewrite IH; [|intros i Hi; rewrite length_delta_swap; destruct (Htl i Hi) as (? & ? & _); done].
  assert (Hrow : forall i, i <> k -> i <> (k + w)%nat -> nth i (delta_swap w mask data k) 0 = nth i data 0)
    by (intros i ? ?; by rewrite nth_delta_swap, !decide_False by done).
  assert (Ht : forall i, i ∈ ks -> swap_t w mask (delta_swap w mask data k) i = swap_t w mask data i).
  { intros i Hi. destruct (Htl i Hi) as (? & ? & ? & ? & ?). unfold swap_t.
    rewrite !Hrow by (done || lia). done. }
  destruct (decide (j ∈ ks)) as [Hj|Hj].
  { destruct (Htl j Hj) as (? & ? & ? & ? & ?).
    rewrite (decide_True (P := j ∈ k :: ks)) by (apply elem_of_cons; auto). by rewrite Ht, Hrow. }
  destruct (decide ((w <= j)%nat /\ (j - w)%nat ∈ ks)) as [[Hwj Hj']|Hj'].
  { destruct (Htl _ Hj') as (? & ? & ? & ? & ?).
    rewrite (decide_False (P := j ∈ k :: ks)) by (rewrite not_elem_of_cons; split; [lia|done]).
    rewrite decide_True by (split; [done|apply elem_of_cons; auto]).
    rewrite Ht, Hrow by (done || lia). done. }
  rewrite nth_delta_swap by done. destruct (decide (j = k)) as [->|Hjk].
  { by rewrite decide_True by (apply elem_of_cons; auto). }
  rewrite (decide_False (P := j ∈ k :: ks)) by (rewrite not_elem_of_cons; done).
  destruct (decide (j = (k + w)%nat)) as [->|Hjw].
  - replace (k + w - w)%nat with k by lia.
    by rewrite decide_True by (split; [lia|apply elem_of_cons; auto]).
  - rewrite decide_False; [done|]. intros [? [?|?]%elem_of_cons]; [lia|]. apply Hj'. done.
Qed.

(** A pass with a suitable mask exchanges the off-diagonal blocks. *)
Lemma pass_cell s mask data r b :
  pass_check s mask = true -> length data = 64%nat -> (r < 64)%nat -> (b < 64)%nat ->
  let '(r', b') := source s (r, b) in
  cell (swap_loop 64 0 (2 ^ s) mask data) r b = cell data r' b' /\ (r' < 64)%nat /\ (b' < 64)%nat.
Proof.
  intros Hchk L Hr Hb. unfold pass_check in Hchk.
  apply andb_true_iff in Hchk as [Hchk H4]. apply andb_true_iff in Hchk as [Hchk H3].
  apply andb_true_iff in Hchk as [H1 H2]. apply bool_decide_eq_true in H1.
  rewrite forallb_forall in H2, H3, H4.
  assert (Hin : forall x, (x < 64)%nat -> In x (seq 0 64)) by (intros; apply in_seq; lia).
  set (w := (2 ^ s)%nat) in *. assert (Hw : (0 < w)%nat) by (unfold w; apply Nat.neq_0_lt_0, Nat.pow_nonzero; lia).
  assert (Hks : forall k, k ∈ pass_rows s <-> (k < 64)%nat /\ Nat.testbit k s = false).
  { intros k. unfold pass_rows. rewrite list_elem_of_filter, elem_of_seq. intuition lia. }
  assert (Hup : forall x, (x < 64)%nat -> Nat.testbit x s = false ->
                  (x + w < 64)%nat /\ Nat.testbit (x + w) s = true).
  { intros x Hx Ex. specialize (H4 x (Hin x Hx)). rewrite Ex in H4.
    apply andb_true_iff in H4 as [?%Nat.ltb_lt ?]. done. }
  assert (Hdown : forall x, (x < 64)%nat -> Nat.testbit x s = true ->
                    (w <= x)%nat /\ Nat.testbit (x - w) s = false).
  { intros x Hx Ex. specialize (H3 x (Hin x Hx)). rewrite Ex in H3. cbn [negb] in H3.
    destruct (Nat.leb_spec w x); [|done]. by apply Bool.eqb_prop in H3. }
  assert (Hmask : forall x, (x < 64)%nat -> Z.testbit mask (Z.of_nat x) = negb (Nat.testbit x s)).
  { intros x Hx. specialize (H2 x (Hin x Hx)). by apply Bool.eqb_prop in H2. }
  unfold cell, source. rewrite swap_loop_rows, H1, nth_swaps; [|done|apply NoDup_filter, NoDup_seq|].
  2: { intros k [Hk Ek]%Hks. destruct (Hup k Hk Ek). split; [lia|]. intros [_ ?]%Hks. congruence. }
  assert (Ht : forall k x, (x < 64)%nat -> Z.testbit (swap_t w mask data k) (Z.of_nat x) =
     (xorb (Z.testbit (nth k data 0) (Z.of_nat x)) (Z.testbit (nth (k + w) data 0) (Z.of_nat (x + w))))
     && negb (Nat.testbit x s)).
  { intros k x Hx. unfold swap_t. rewrite Z.land_spec, Z.lxor_spec, shr64_spec, Hmask by lia.
    by rewrite Nat2Z.inj_add. }
  destruct (Nat.testbit r s) eqn:Er.
  - destruct (Hdown r Hr Er) as [Hwr Er']. rewrite decide_False by (rewrite Hks, Er; by intros []).
    rewrite decide_True by (split; [done|apply Hks; split; [lia|done]]).
    rewrite Z.lxor_spec, shl64_spec by lia.
    rewrite (proj2 (Z.ltb_lt _ 64)) by lia. cbn [andb].
    destruct (Nat.testbit b s) eqn:Eb; cbn [Bool.eqb].
    + destruct (Hdown b Hb Eb) as [Hwb Eb']. rewrite (proj2 (Z.leb_le _ _)) by lia.
      rewrite <- Nat2Z.inj_sub, Ht, Eb' by lia. cbn [negb andb].
      replace (r - w + w)%nat with r by lia. replace (b - w + w)%nat with b by lia.
      rewrite andb_true_r. split; [|lia]. generalize (Z.testbit (nth r data 0) (Z.of_nat b)).
      intros []; by destruct (Z.testbit _ _).
    + split; [|lia]. destruct (Z.leb_spec (Z.of_nat w) (Z.of_nat b)); [|apply xorb_false_r].
      rewrite <- Nat2Z.inj_sub, Ht by lia. specialize (H3 b (Hin b Hb)). rewrite Eb in H3.
      rewrite (proj2 (Nat.leb_le _ _)) in H3 by lia. apply Bool.eqb_prop in H3. rewrite H3.
      by rewrite andb_false_r, xorb_false_r.
  - destruct (Hup r Hr Er) as [Hwr Er']. rewrite decide_True by (apply Hks; done).
    rewrite Z.lxor_spec, Ht by lia. destruct (Nat.testbit b s) eqn:Eb; cbn [Bool.eqb negb].
    + rewrite andb_false_r, xorb_false_r. split; [done|lia].
    + destruct (Hup b Hb Eb) as [Hwb Eb']. rewrite andb_true_r. split; [|lia].
      generalize (Z.testbit (nth r data 0) (Z.of_nat b)). intros []; by destruct (Z.testbit _ _).
Qed.

(** ** Six passes *)

Definition passes : list (nat * Z) :=
  [(5%nat, 4294967295); (4%nat, 281470681808895); (3%nat, 71777214294589695);
   (2%nat, 1085102592571150095); (1%nat, 3689348814741910323); (0%nat, 6148914691236517205)].

Definition one_pass (data : list Z) (p : nat * Z) : list Z := swap_loop 64 0 (2 ^ fst p) (snd p) data.

Lemma pass_loop_step fuel w mask data :
  w <> 0%nat ->
  pass_loop (S fuel) w mask data =
  pass_loop fuel (Nat.div2 w)
    (if (Nat.div2 w =? 0)%nat then mask else Z.lxor mask (shl64 mask (Z.of_nat (Nat.div2 w))))
    (swap_loop 64 0 w mask data).
Proof. intros H. cbn [pass_loop]. by rewrite (proj2 (Nat.eqb_neq w 0) H). Qed.

Lemma transpose64_passes data : transpose64 data = fold_left one_pass passes data.
Proof.
  unfold transpose64, passes, one_pass. cbn [fold_left fst snd].
  do 6 (rewrite pass_loop_step by done;
        match goal with |- context [if ?c then ?x else ?y] =>
          let v := eval vm_compute in (if c then x else y) in
          replace (if c then x else y) with v by (vm_compute; reflexivity) end).
  done.
Qed.

Lemma length_one_pass data p : length (one_pass data p) = length data.
Proof.
  unfold one_pass. rewrite swap_loop_rows. generalize (swap_rows 64 0 (2 ^ fst p)). intros ks.
  revert data. induction ks as [|k ks IH]; intros data; [done|]. cbn. by rewrite IH, length_delta_swap.
Qed.

Lemma passes_cell ps data r b :
  Forall (fun p => pass_check (fst p) (snd p) = true) ps ->
  length data = 64%nat -> (r < 64)%nat -> (b < 64)%nat ->
  let '(r', b') := foldr (fun p => source (fst p)) (r, b) ps in
  cell (fold_left one_pass ps data) r b = cell data r' b' /\ (r' < 64)%nat /\ (b' < 64)%nat.
Proof.
  intros Hps. revert data r b. induction Hps as [|[s m] ps Hp Hps IH]; intros data r b L Hr Hb; [done|].
  cbn [fold_left foldr fst snd] in *.
  specialize (IH (one_pass data (s, m)) r b). rewrite length_one_pass in IH. specialize (IH L Hr Hb).
  destruct (foldr _ _ ps) as [r1 b1]. destruct IH as (-> & Hr1 & Hb1).
  pose proof (pass_cell s m data r1 b1 Hp L Hr1 Hb1) as H. by destruct (source s (r1, b1)).
Qed.

Lemma passes_ok : Forall (fun p => pass_check (fst p) (snd p) = true) passes.
Proof. repeat (constructor; [vm_compute; reflexivity|]). constructor. Qed.

Definition transposed_source_check : bool :=
  forallb (fun r => forallb (fun b =>
    let '(r', b') := foldr (fun p => source (fst p)) (r, b) passes in
    (r' =? 63 - b)%nat && (b' =? 63 - r)%nat) (seq 0 64)) (seq 0 64).

Lemma transposed_source r b : (r < 64)%nat -> (b < 64)%nat ->
  foldr (fun p => source (fst p)) (r, b) passes = ((63 - b)%nat, (63 - r)%nat).
Proof.
  intros Hr Hb. assert (H : transposed_source_check = true) by (vm_compute; reflexivity).
  unfold transposed_source_check in H. rewrite forallb_forall in H.
  specialize (H r ltac:(apply in_seq; lia)). rewrite forallb_forall in H.
  specialize (H b ltac:(apply in_seq; lia)).
  destruct (foldr _ _ passes) as [r' b']. apply andb_true_iff in H as [->%Nat.eqb_eq ->%Nat.eqb_eq]. done.
Qed.

Lemma transpose64_cell data r b :
  length data = 64%nat -> (r < 64)%nat -> (b < 64)%nat ->
  cell (transpose64 data) r b = cell data (63 - b) (63 - r).
Proof.
  intros L Hr Hb. rewrite transpose64_passes.
  pose proof (passes_cell passes data r b passes_ok L Hr Hb) as H.
  rewrite transposed_source in H by done. by destruct H.
Qed.

(** ** Reversal and labels *)

Lemma testbit_of_bits f n i : 0 <= i ->
  Z.testbit (of_bits f n) i = (i <? Z.of_nat n) && f (Z.to_nat i).
Proof.
  intros Hi. induction n as [|n IH]; cbn [of_bits].
  { rewrite Z.bits_0. by rewrite (proj2 (Z.ltb_ge _ _)) by lia. }
  rewrite Z.lor_spec, IH, Z.shiftl_spec by lia.
  destruct (decide (i = Z.of_nat n)) as [->|Hne].
  - rewrite (proj2 (Z.ltb_ge _ _)), (proj2 (Z.ltb_lt _ _)) by lia. rewrite Z.sub_diag, Nat2Z.id.
    cbn [andb orb]. apply Z.b2z_bit0.
  - assert (Z.testbit (Z.b2z (f n)) (i - Z.of_nat n) = false) as ->.
    { destruct (decide (i < Z.of_nat n)); [apply Z.testbit_neg_r; lia|].
      apply (testbit_high 1); [|lia]. destruct (f n); cbn; lia. }
    rewrite orb_false_r. f_equal.
    destruct (Z.ltb_spec i (Z.of_nat n)), (Z.ltb_spec i (Z.of_nat (S n))); try done; lia.
Qed.

Lemma of_bits_bound f n : 0 <= of_bits f n < 2 ^ Z.of_nat n.
Proof.
  assert (H : 0 <= of_bits f n).
  { induction n as [|n IH]; cbn [of_bits]; [lia|]. apply Z.lor_nonneg. split; [done|].
    apply Z.shiftl_nonneg. destruct (f n); cbn; lia. }
  split; [done|]. apply bits_bound; [lia|done|]. intros i Hi. rewrite testbit_of_bits by lia.
  by rewrite (proj2 (Z.ltb_ge _ _)) by lia.
Qed.

Lemma Reverse64_cell x b : (b < 64)%nat ->
  Z.testbit (Reverse64 x) (Z.of_nat b) = Z.testbit x (Z.of_nat (63 - b)).
Proof.
  intros Hb. unfold Reverse64. rewrite testbit_of_bits, Nat2Z.id by lia.
  rewrite (proj2 (Z.ltb_lt _ _)) by lia. cbn [andb]. f_equal. lia.
Qed.

Lemma land_bit x n : 0 <= n < 64 -> negb (Z.land x (shl64 1 n) =? 0) = Z.testbit x n.
Proof.
  intros Hn. unfold shl64. rewrite Z.shiftl_1_l, u64_id.
  2: { split; [apply Z.pow_nonneg; lia|]. apply Z.pow_lt_mono_r; lia. }
  destruct (Z.testbit x n) eqn:E.
  - apply negb_true_iff, Z.eqb_neq. intros H. apply (f_equal (fun z => Z.testbit z n)) in H.
    rewrite Z.land_spec, E, Z.pow2_bits_true, Z.bits_0 in H by lia. done.
  - apply negb_false_iff, Z.eqb_eq. apply Z.bits_inj'. intros i Hi.
    rewrite Z.land_spec, Z.bits_0, Z.pow2_bits_eqb by lia.
    destruct (Z.eqb_spec n i) as [<-|]; [by rewrite E|apply andb_false_r].
Qed.

Lemma deltaBit_testbit l i : (i < 128)%nat ->
  deltaBit l i = if (i <? 64)%nat then Z.testbit (D0 l) (Z.of_nat i)
                 else Z.testbit (D1 l) (Z.of_nat (i - 64)).
Proof.
  intros Hi. unfold deltaBit. destruct (Nat.ltb_spec i 64).
  - apply land_bit. lia.
  - rewrite land_bit by lia. f_equal. lia.
Qed.

(** Labels are determined by their 128 bits. *)
Lemma deltaBit_ext l l' : label_ok l -> label_ok l' ->
  (forall i, (i < 128)%nat -> deltaBit l i = deltaBit l' i) -> l = l'.
Proof.
  intros [H0 H1] [H0' H1'] H.
  apply label_ext; apply (bits_inj_bounded 64); try done; intros i Hi.
  - specialize (H (Z.to_nat i) ltac:(lia)). rewrite !deltaBit_testbit in H by lia.
    rewrite (proj2 (Nat.ltb_lt _ _)) in H by lia. by rewrite Z2Nat.id in H by lia.
  - specialize (H (64 + Z.to_nat i)%nat ltac:(lia)). rewrite !deltaBit_testbit in H by lia.
    rewrite (proj2 (Nat.ltb_ge _ _)) in H by lia.
    replace (64 + Z.to_nat i - 64)%nat with (Z.to_nat i) in H by lia. by rewrite Z2Nat.id in H by lia.
Qed.

Lemma deltaBit_xor l l' i : (i < 128)%nat -> deltaBit (l ⊕ l') i = xorb (deltaBit l i) (deltaBit l' i).
Proof.
  intros Hi. rewrite !deltaBit_testbit by done. unfold label_xor; cbn [D0 D1].
  destruct (i <? 64)%nat; apply Z.lxor_spec.
Qed.

Lemma deltaBit_zero i : deltaBit label_zero i = false.
Proof. unfold deltaBit. cbn [D0 D1 label_zero]. rewrite !Z.land_0_l. by destruct (i <? 64)%nat. Qed.

(** ** The 128x128 block *)

Lemma nth_map_seq {A} (f : nat -> A) n i d : (i < n)%nat -> nth i (map f (seq 0 n)) d = f i.
Proof.
  intros H. rewrite nth_indep with (d' := f 0%nat) by (rewrite length_map, length_seq; lia).
  rewrite map_nth. by rewrite seq_nth.
Qed.

Lemma cell_map (f : Label -> Z) (l : list Label) r b :
  (r < length l)%nat -> cell (map f l) r b = Z.testbit (f (nth r l label_zero)) (Z.of_nat b).
Proof.
  intros H. unfold cell. rewrite nth_indep with (d' := f label_zero) by (by rewrite length_map).
  by rewrite map_nth.
Qed.

(** One quadrant: reversed rows and reversed bits undo the anti-transposition. *)
Lemma quadrant x i b : length x = 64%nat -> (i < 64)%nat -> (b < 64)%nat ->
  Z.testbit (Reverse64 (nth (63 - i) (transpose64 x) 0)) (Z.of_nat b) = cell x b i.
Proof.
  intros L Hi Hb. rewrite Reverse64_cell by done.
  change (cell (transpose64 x) (63 - i) (63 - b) = cell x b i).
  rewrite transpose64_cell by (done || lia). f_equal; lia.
Qed.

Lemma length_transpose128 data : length (transpose128 data) = 128%nat.
Proof. unfold transpose128. by rewrite length_app, !length_map, !length_seq. Qed.

Lemma transpose128_ok data : Forall label_ok (transpose128 data).
Proof.
  assert (H : forall x, is_u64 (Reverse64 x)) by (intros x; apply of_bits_bound).
  unfold transpose128. apply Forall_app. split; apply Forall_map, Forall_true;
    intros i; split; apply H.
Qed.

Lemma nth_low (data : list Label) i : (i < 64)%nat -> nth i (take 64 data) label_zero = nth i data label_zero.
Proof. intros H. by rewrite !nth_lookup, lookup_take_lt by lia. Qed.

Lemma nth_high (data : list Label) i : nth i (drop 64 data) label_zero = nth (64 + i) data label_zero.
Proof. by rewrite !nth_lookup, lookup_drop. Qed.

Lemma transpose128_bit data i col :
  length data = 128%nat -> (i < 128)%nat -> (col < 128)%nat ->
  deltaBit (nth i (transpose128 data) label_zero) col = deltaBit (nth col data label_zero) i.
Proof.
  intros L Hi Hc. unfold transpose128.
  assert (Ll : forall f, length (map f (take 64 data) : list Z) = 64%nat)
    by (intros f; rewrite length_map, length_take, L; done).
  assert (Lh : forall f, length (map f (drop 64 data) : list Z) = 64%nat)
    by (intros f; rewrite length_map, length_drop, L; done).
  rewrite !deltaBit_testbit by done.
  assert (Hq : forall f j b, (j < 64)%nat -> (b < 128)%nat ->
    Z.testbit (Reverse64 (nth (63 - j) (transpose64 (map f (if (b <? 64)%nat then take 64 data else drop 64 data))) 0))
      (Z.of_nat (if (b <? 64)%nat then b else (b - 64)%nat)) = Z.testbit (f (nth b data label_zero)) (Z.of_nat j)).
  { intros f j b Hj Hb. destruct (Nat.ltb_spec b 64).
    - rewrite quadrant, cell_map, nth_low by (rewrite ?length_take; done || lia). done.
    - rewrite quadrant, cell_map, nth_high by (rewrite ?length_drop; done || lia).
      by replace (64 + (b - 64))%nat with b by lia. }
  destruct (Nat.ltb_spec i 64) as [Hi'|Hi'].
  - rewrite app_nth1 by (rewrite length_map, length_seq; lia). rewrite nth_map_seq by done.
    cbn [D0 D1]. specialize (Hq D0 i col Hi' Hc). destruct (col <? 64)%nat; exact Hq.
  - rewrite app_nth2 by (rewrite length_map, length_seq; lia). rewrite length_map, length_seq.
    rewrite nth_map_seq by lia. cbn [D0 D1].
    specialize (Hq D1 (i - 64)%nat col ltac:(lia) Hc). destruct (col <? 64)%nat; exact Hq.
Qed.

(** ** Columns to rows *)

(** Bit [r] of the byte string [c], least significant bit of each byte first. *)
Definition bit_of (c : bytes) (r : nat) : bool :=
  Z.testbit (default 0 (c !! (r / 8)%nat)) (Z.of_nat (r mod 8)).

(** Column [col] of the matrix. *)
Definition column (matrix : bytes) (byteRows col : nat) : bytes :=
  slice matrix (col * byteRows) ((col + 1) * byteRows).

Lemma le_get_bit_of l i : is_bytes l -> Z.testbit (le_get l) (Z.of_nat i) = bit_of l i.
Proof.
  intros Hl. rewrite le_get_testbit by (done || lia). unfold bit_of.
  pose proof (Nat2Z.inj_div i 8) as Hd. pose proof (Nat2Z.inj_mod i 8) as Hm.
  change (Z.of_nat 8) with 8 in Hd, Hm. by rewrite <- Hd, <- Hm, Nat2Z.id.
Qed.

Lemma bit_of_slice c a b i :
  (8 * a + i < 8 * b)%nat -> bit_of (slice c a b) i = bit_of c (8 * a + i).
Proof.
  intros H. unfold bit_of. rewrite (Nat.add_comm (8 * a)), (Nat.mul_comm 8 a).
  rewrite Nat.div_add, Nat.Div0.mod_add by lia.
  assert (i / 8 < b - a)%nat by (apply Nat.Div0.div_lt_upper_bound; lia).
  rewrite lookup_slice by done. by rewrite Nat.add_comm.
Qed.

Lemma load_label_Ok matrix off :
  (off + 16 <= length matrix)%nat -> is_bytes matrix ->
  exists l, load_label matrix off = Ok l /\ label_ok l /\
    forall i, (i < 128)%nat -> deltaBit l i = bit_of (slice matrix off (off + 16)) i.
Proof.
  intros Hl Hb. unfold load_label. rewrite (proj2 (Nat.ltb_ge _ _)) by lia.
  eexists. split; [done|]. split.
  { split; cbn [D0 D1]; apply le_get8_u64; try (by apply slice_forall); rewrite length_slice; lia. }
  intros i Hi. rewrite deltaBit_testbit by done. cbn [D0 D1].
  destruct (Nat.ltb_spec i 64); rewrite le_get_bit_of by (by apply slice_forall);
    rewrite !bit_of_slice by lia; f_equal; lia.
Qed.

Lemma load_block_Ok matrix byteRows off cols :
  is_bytes matrix ->
  (forall col, In col cols -> (col * byteRows + off + 16 <= length matrix)%nat) ->
  exists ls, load_block matrix byteRows off cols = Ok ls /\ length ls = length cols /\
    forall j col, cols !! j = Some col ->
      forall i, (i < 128)%nat -> deltaBit (nth j ls label_zero) i =
        bit_of (slice matrix (col * byteRows + off) (col * byteRows + off + 16)) i.
Proof.
  intros Hb. induction cols as [|c cols IH]; intros Hc.
  { exists []. split_and!; [done..|]. intros j col Hj. by rewrite lookup_nil in Hj. }
  cbn [load_block]. destruct (load_label_Ok matrix (c * byteRows + off)) as (l & -> & _ & Hl);
    [apply Hc; by left|done|].
  destruct IH as (ls & -> & L & Hls); [intros; apply Hc; by right|].
  cbn [mbind res_bind]. exists (l :: ls). split_and!; [done|cbn; lia|].
  intros [|j] col Hj; cbn in Hj; [by injection Hj as <-|]. by apply Hls.
Qed.

Lemma transpose_blocks_Ok matrix byteRows n row :
  is_bytes matrix -> length matrix = (BaseOTCount * byteRows)%nat ->
  (row mod 8 = 0)%nat -> (row + n * 128 <= 8 * byteRows)%nat ->
  exists ls, transpose_blocks matrix byteRows row n = Ok ls /\ length ls = (n * 128)%nat /\
    Forall label_ok ls /\
    forall i col, (i < n * 128)%nat -> (col < 128)%nat ->
      deltaBit (nth i ls label_zero) col = bit_of (column matrix byteRows col) (row + i).
Proof.
  intros Hb Hl. revert row. induction n as [|n IH]; intros row Hrow Hn.
  { exists []. split_and!; [done|done|constructor|]. intros; lia. }
  cbn [transpose_blocks]. unfold BaseOTCount in *.
  pose proof (Nat.div_mod_eq row 8) as Edm. rewrite Hrow, Nat.add_0_r in Edm.
  destruct (load_block_Ok matrix byteRows (row / 8) (seq 0 128)) as (blk & -> & Lb & Hblk);
    [done|intros col [_ ?]%in_seq; nia|].
  rewrite length_seq in Lb. cbn [mbind res_bind].
  destruct (IH (row + 128)%nat) as (rest & -> & Lr & Or & Hrest);
    [by rewrite (Nat.Div0.mod_add row 16 8 : ((row + 128) mod 8 = row mod 8)%nat)|lia|].
  cbn [mbind res_bind]. eexists. split; [done|].
  split; [rewrite length_app, length_transpose128; lia|].
  split; [apply Forall_app; split; [apply transpose128_ok|done]|].
  intros i col Hi Hc. destruct (decide (i < 128)%nat) as [Hlt|Hge].
  - rewrite app_nth1 by (rewrite length_transpose128; lia).
    rewrite transpose128_bit by done.
    rewrite (Hblk col col) by (rewrite ?lookup_seq; done || lia).
    rewrite bit_of_slice by lia. unfold column. rewrite bit_of_slice by nia. f_equal. nia.
  - rewrite app_nth2 by (rewrite length_transpose128; lia). rewrite length_transpose128.
    rewrite Hrest by lia. f_equal. lia.
Qed.

(** [transposeColumns] transposes: bit [col] of row [i] is bit [i] of column
    [col]. *)
Lemma transposeColumns_Ok matrix byteRows :
  is_bytes matrix -> length matrix = (BaseOTCount * byteRows)%nat -> (byteRows mod 16 = 0)%nat ->
  exists ls, transposeColumns matrix byteRows (8 * byteRows) = Ok ls /\
    length ls = (8 * byteRows)%nat /\ Forall label_ok ls /\
    forall i col, (i < 8 * byteRows)%nat -> (col < 128)%nat ->
      deltaBit (nth i ls label_zero) col = bit_of (column matrix byteRows col) i.
Proof.
  intros Hb Hl Hm. unfold transposeColumns.
  pose proof (Nat.div_mod_eq byteRows 16) as E. rewrite Hm, Nat.add_0_r in E.
  assert (Erows : (8 * byteRows = (byteRows / 16) * 128)%nat) by lia.
  assert ((8 * byteRows) mod BaseOTCount = 0 /\ (8 * byteRows) / BaseOTCount = byteRows / 16)%nat as [-> ->].
  { rewrite Erows. unfold BaseOTCount. rewrite Nat.Div0.mod_mul, Nat.div_mul by lia. done. }
  cbn [Nat.eqb negb].
  destruct (transpose_blocks_Ok matrix byteRows (byteRows / 16) 0) as (ls & -> & L & Ok' & Hls);
    [done|done|done|lia|].
  exists ls. split_and!; [done|lia|done|]. intros i col Hi Hc. apply Hls; lia.
Qed.

(** ** Transposition is transposition *)

(** on a matrix of 128 columns of [byteRows] bytes (a multiple of 16), the
    blocked delta-swap transposition succeeds and bit [col] of output row [row] is
    bit [row] of column [col], for all rows and columns. *)
Theorem transposeColumns_transposes matrix byteRows :
  is_bytes matrix -> length matrix = (BaseOTCount * byteRows)%nat -> (byteRows mod 16 = 0)%nat ->
  exists rows, transposeColumns matrix byteRows (8 * byteRows) = Ok rows /\
    length rows = (8 * byteRows)%nat /\
    forall row col l, (col < BaseOTCount)%nat -> rows !! row = Some l ->
      deltaBit l col = bit_of (column matrix byteRows col) row.
Proof.
  intros Hb Hl Hm. destruct (transposeColumns_Ok matrix byteRows Hb Hl Hm) as (ls & E & L & _ & Hbits).
  exists ls. split_and!; [done|done|]. intros row col l Hc Hr. pose proof (lookup_lt_Some _ _ _ Hr) as Hlt.
  rewrite <- Hbits by (done || lia). by rewrite nth_lookup, Hr.
Qed.

Lemma transposeColumns_transposes_witness :
  exists rows, transposeColumns (zeros (BaseOTCount * 16)) 16 (8 * 16) = Ok rows /\ length rows = 128%nat.
Proof.
  destruct (transposeColumns_transposes (zeros (BaseOTCount * 16)) 16) as (rows & E & L & _).
  - apply zeros_bytes.
  - apply length_replicate.
  - reflexivity.
  - exists rows. split; [exact E|exact L].
Defined.

(** transposing a 128x128 block twice gives it back. *)
Theorem transpose128_involutive block :
  length block = 128%nat -> Forall label_ok block -> transpose128 (transpose128 block) = block.
Proof.
  intros L Hok. apply list_eq_same_length with 128%nat; [done|apply length_transpose128|].
  intros i x y Hi Hx Hy.
  assert (Ex : x = nth i (transpose128 (transpose128 block)) label_zero) by (by rewrite nth_lookup, Hx).
  assert (Ey : y = nth i block label_zero) by (by rewrite nth_lookup, Hy).
  apply deltaBit_ext.
  - pose proof (transpose128_ok (transpose128 block)) as H. rewrite Forall_lookup in H. by apply (H i).
  - rewrite Forall_lookup in Hok. by apply (Hok i).
  - intros col Hc. rewrite Ex, Ey, transpose128_bit by (try apply length_transpose128; lia).
    by apply transpose128_bit.
Qed.

Lemma transpose128_involutive_witness :
  transpose128 (transpose128 (replicate 128 (mkLabel 5 9))) = replicate 128 (mkLabel 5 9).
Proof.
  apply transpose128_involutive; [apply length_replicate|].
  apply Forall_replicate. vm_compute. repeat split; try discriminate; reflexivity.
Defined.
