(* ===== verification/Gf128.v ===== *)
(** * Multiplication in GF(2^128) ([mpc/ot_extension.go], [mpc/gf128_amd64.go],
      [mpc/gf128_amd64.s])

    [gf128MulGeneric] is the portable bit-by-bit routine; on amd64 the product
    is computed by four carry-less 64-bit multiplications and folded by
    [reduceGF128].  The two are proved equal, and linear in the first factor,
    which is what the KOS check needs. *)

From S2P Require Import Prelude Bytes Label Transpose.

(** ** The portable routine *)

(** The step of the loop that doubles [v]. *)
Definition gf_double (v : Label) : Label :=
  let carry := shr64 (D1 v) 63 in
  mkLabel (Z.lxor (shl64 (D0 v) 1) (Z.land 135 (sub64 0 carry)))
          (Z.lor (shl64 (D1 v) 1) (shr64 (D0 v) 63)).

Fixpoint gf128_loop (n : nat) (i : nat) (b v z : Label) : Label :=
  match n with
  | O => z
  | S n =>
      let bit := if (64 <=? i)%nat then Z.land (shr64 (D1 b) (Z.of_nat i - 64)) 1
                 else Z.land (shr64 (D0 b) (Z.land (Z.of_nat i) 63)) 1 in
      let mask := sub64 0 bit in
      let z := mkLabel (Z.lxor (D0 z) (Z.land (D0 v) mask)) (Z.lxor (D1 z) (Z.land (D1 v) mask)) in
      gf128_loop n (S i) b (gf_double v) z
  end.

Definition gf128MulGeneric (a b : Label) : Label := gf128_loop 128 0 b a label_zero.

(** ** The carry-less routine *)

(** XOR of [f 0], ..., [f (n-1)]. *)
Fixpoint xsum (f : nat -> Z) (n : nat) : Z :=
  match n with
  | O => 0
  | S n => Z.lxor (xsum f n) (f n)
  end.

(** The carry-less product of [x] and the [n]-bit word with bits [b]. *)
Definition clmul (x : Z) (b : nat -> bool) (n : nat) : Z :=
  xsum (fun i => if b i then Z.shiftl x (Z.of_nat i) else 0) n.

(** The [PCLMULQDQ] instruction on two 64-bit words. *)
Definition pclmulqdq (x y : Z) : Z := clmul x (fun i => Z.testbit y (Z.of_nat i)) 64.

(** The 128 bits of a register as a label, least significant word first. *)
Definition of_xmm (x : Z) : Label := mkLabel (u64 x) (u64 (Z.shiftr x 64)).

Definition clmul128 (a b : Label) : Label * Label :=
  let X2 := pclmulqdq (D0 a) (D0 b) in
  let X3 := pclmulqdq (D1 a) (D0 b) in
  let X4 := pclmulqdq (D0 a) (D1 b) in
  let X5 := pclmulqdq (D1 a) (D1 b) in
  let X3 := Z.lxor X3 X4 in
  let X6 := (Z.shiftl X3 64) mod 2 ^ 128 in
  let X2 := Z.lxor X2 X6 in
  let X3 := Z.shiftr X3 64 in
  let X5 := Z.lxor X5 X3 in
  (of_xmm X2, of_xmm X5).

Definition reduceGF128 (lo hi : Label) : Label :=
  let overflow := Z.lxor (Z.lxor (shr64 (D1 hi) 63) (shr64 (D1 hi) 62)) (shr64 (D1 hi) 57) in
  let d0 := Z.lxor (D0 lo)
    (Z.lxor (Z.lxor (Z.lxor (D0 hi) (shl64 (D0 hi) 1)) (shl64 (D0 hi) 2)) (shl64 (D0 hi) 7)) in
  let d1 := Z.lxor (D1 lo)
    (Z.lxor (Z.lxor (Z.lxor (Z.lxor (Z.lxor (Z.lxor (D1 hi) (shl64 (D1 hi) 1)) (shr64 (D0 hi) 63))
       (shl64 (D1 hi) 2)) (shr64 (D0 hi) 62)) (shl64 (D1 hi) 7)) (shr64 (D0 hi) 57)) in
  let d0 := Z.lxor d0
    (Z.lxor (Z.lxor (Z.lxor overflow (shl64 overflow 1)) (shl64 overflow 2)) (shl64 overflow 7)) in
  mkLabel d0 d1.

(** [gf128Mul], with [hasPCLMULQDQ] the processor's feature flag. *)
Definition gf128Mul (hasPCLMULQDQ : bool) (a b : Label) : Label :=
  if hasPCLMULQDQ then let '(lo, hi) := clmul128 a b in reduceGF128 lo hi
  else gf128MulGeneric a b.

(** ** Algebra of XOR sums *)

Ltac lxor_bits :=
  apply Z.bits_inj'; let i := fresh "i" in intros i ?; rewrite ?Z.lxor_spec;
  repeat match goal with |- context [Z.testbit ?x i] => generalize (Z.testbit x i); intros ? end;
  btauto.

Lemma xsum_ext f g n : (forall i, (i < n)%nat -> f i = g i) -> xsum f n = xsum g n.
Proof. induction n as [|n IH]; intros H; cbn [xsum]; [done|]. rewrite IH, H by (intros; apply H || lia; lia). done. Qed.

Lemma xsum_lxor f g n : xsum (fun i => Z.lxor (f i) (g i)) n = Z.lxor (xsum f n) (xsum g n).
Proof. induction n as [|n IH]; cbn [xsum]; [done|]. rewrite IH. lxor_bits. Qed.

Lemma xsum_shiftl f k n : xsum (fun i => Z.shiftl (f i) k) n = Z.shiftl (xsum f n) k.
Proof. induction n as [|n IH]; cbn [xsum]; [by rewrite Z.shiftl_0_l|]. by rewrite IH, Z.shiftl_lxor. Qed.

Lemma xsum_split f n m :
  xsum f (n + m) = Z.lxor (xsum f n) (xsum (fun i => f (n + i)%nat) m).
Proof.
  induction m as [|m IH]; [by rewrite Nat.add_0_r, Z.lxor_0_r|].
  rewrite Nat.add_succ_r. cbn [xsum]. rewrite IH. lxor_bits.
Qed.

(** ** Linear maps *)

Definition additive (f : Z -> Label) : Prop :=
  forall x y, 0 <= x -> 0 <= y -> f (Z.lxor x y) = f x ⊕ f y.

Lemma additive_0 f : additive f -> f 0 = label_zero.
Proof. intros H. rewrite <- (Z.lxor_0_l 0). rewrite H by lia. xor_solve. Qed.

Lemma split_top n x : 0 <= n -> 0 <= x < 2 ^ (n + 1) ->
  x = Z.lxor (x mod 2 ^ n) (if Z.testbit x n then 2 ^ n else 0).
Proof.
  intros Hn Hx. apply Z.bits_inj'. intros i Hi. rewrite Z.lxor_spec, mod_pow2_spec by lia.
  assert (E : Z.testbit (if Z.testbit x n then 2 ^ n else 0) i = (n =? i) && Z.testbit x n).
  { destruct (Z.testbit x n); [by rewrite Z.pow2_bits_eqb, andb_true_r by lia|by rewrite Z.bits_0, andb_false_r]. }
  rewrite E. destruct (Z.eqb_spec n i) as [<-|Hne].
  - rewrite (proj2 (Z.ltb_ge _ _)) by lia. done.
  - rewrite andb_false_l, xorb_false_r. destruct (Z.ltb_spec i n); [done|].
    by rewrite (testbit_high (n + 1)) by lia.
Qed.

(** Two additive maps that agree on the powers of two agree. *)
Lemma additive_basis f g (n : nat) : additive f -> additive g ->
  (forall i, (i < n)%nat -> f (2 ^ Z.of_nat i) = g (2 ^ Z.of_nat i)) ->
  forall x, 0 <= x < 2 ^ Z.of_nat n -> f x = g x.
Proof.
  intros Hf Hg. induction n as [|n IH]; intros H x Hx.
  { assert (x = 0) as -> by (cbn in Hx; lia). by rewrite !additive_0. }
  rewrite (split_top (Z.of_nat n) x) by (rewrite ?Z.add_1_r, <- ?Nat2Z.inj_succ; lia || done).
  pose proof (Z.mod_pos_bound x (2 ^ Z.of_nat n) ltac:(apply Z.pow_pos_nonneg; lia)).
  assert (0 <= 2 ^ Z.of_nat n) by (apply Z.pow_nonneg; lia).
  rewrite Hf, Hg by (lia || (destruct (Z.testbit _ _); lia)).
  rewrite IH by (intros; apply H || done; lia). f_equal.
  destruct (Z.testbit x (Z.of_nat n)); [apply H; lia|by rewrite !additive_0].
Qed.

(** ** Word operations are additive *)

Lemma u64_lxor x y : u64 (Z.lxor x y) = Z.lxor (u64 x) (u64 y).
Proof.
  apply Z.bits_inj'. intros i Hi. rewrite Z.lxor_spec, !u64_spec, Z.lxor_spec by done.
  by destruct (i <? 64).
Qed.

Lemma shl64_lxor x y n : shl64 (Z.lxor x y) n = Z.lxor (shl64 x n) (shl64 y n).
Proof. unfold shl64. by rewrite Z.shiftl_lxor, u64_lxor. Qed.

Lemma shr64_lxor x y n : shr64 (Z.lxor x y) n = Z.lxor (shr64 x n) (shr64 y n).
Proof. apply Z.shiftr_lxor. Qed.

Lemma of_xmm_lxor x y : of_xmm (Z.lxor x y) = of_xmm x ⊕ of_xmm y.
Proof.
  unfold of_xmm, label_xor. cbn [D0 D1]. by rewrite Z.shiftr_lxor, !u64_lxor.
Qed.

Lemma of_xmm_ok x : label_ok (of_xmm x).
Proof. split; apply u64_range. Qed.

Lemma reduceGF128_lxor lo hi lo' hi' :
  reduceGF128 (lo ⊕ lo') (hi ⊕ hi') = reduceGF128 lo hi ⊕ reduceGF128 lo' hi'.
Proof.
  unfold reduceGF128, label_xor. cbn [D0 D1]. rewrite !shr64_lxor, !shl64_lxor.
  f_equal; rewrite ?shl64_lxor; lxor_bits.
Qed.

(** Reduction of a product of up to 256 bits. *)
Definition reduce_wide (P : Z) : Label := reduceGF128 (of_xmm P) (of_xmm (Z.shiftr P 128)).

Lemma reduce_wide_additive : additive reduce_wide.
Proof.
  intros x y _ _. unfold reduce_wide. by rewrite Z.shiftr_lxor, !of_xmm_lxor, reduceGF128_lxor.
Qed.

(** ** Doubling *)

Lemma testbit_carry_mask c n i : 0 <= n -> is_byte n -> (c = 0 \/ c = 1) ->
  Z.testbit (Z.land n (sub64 0 c)) i = Z.testbit n i && (c =? 1).
Proof.
  intros H0 Hn [-> | ->].
  - change (sub64 0 0) with 0. by rewrite Z.land_0_r, Z.bits_0, andb_false_r.
  - change (sub64 0 1) with (Z.ones 64). rewrite Z.land_ones by lia. unfold is_byte in Hn.
    rewrite Z.mod_small by lia. by rewrite andb_true_r.
Qed.

Lemma shr63_bit x : is_u64 x -> shr64 x 63 = Z.b2z (Z.testbit x 63).
Proof.
  intros Hx. apply Z.bits_inj'. intros i Hi. rewrite shr64_spec by done.
  destruct (decide (i = 0)) as [->|Hne]; [by rewrite Z.b2z_bit0|].
  rewrite (testbit_high 64) by (done || lia). symmetry.
  apply (testbit_high 1); [|lia]. destruct (Z.testbit x 63); cbn; lia.
Qed.

(** Bit [i] of the double: the bit below, plus the reduction polynomial when the
    top bit falls off. *)
Lemma gf_double_bit v i : label_ok v -> (i < 128)%nat ->
  deltaBit (gf_double v) i =
  xorb ((1 <=? i)%nat && deltaBit v (i - 1)) (Z.testbit 135 (Z.of_nat i) && deltaBit v 127).
Proof.
  intros [H0 H1] Hi. rewrite !(deltaBit_testbit v) by lia. rewrite deltaBit_testbit by done.
  change (127 <? 64)%nat with false. change (Z.of_nat (127 - 64)) with 63. cbv iota.
  unfold gf_double. cbn [D0 D1]. rewrite !shr63_bit by done.
  destruct (Nat.ltb_spec i 64) as [Hlt|Hge].
  - rewrite Z.lxor_spec, shl64_spec, testbit_carry_mask;
      [|lia|by vm_compute|destruct (Z.testbit (D1 v) 63); cbn; lia|lia|lia].
    rewrite (proj2 (Z.ltb_lt _ _)) by lia. cbn [andb].
    assert (Z.b2z (Z.testbit (D1 v) 63) =? 1 = Z.testbit (D1 v) 63) as -> by (by destruct (Z.testbit _ _)).
    f_equal. destruct (Nat.leb_spec 1 i).
    + rewrite (proj2 (Z.leb_le _ _)), (proj2 (Nat.ltb_lt _ _)) by lia. cbn [andb]. f_equal. lia.
    + rewrite (proj2 (Z.leb_gt _ _)) by lia. done.
  - rewrite (testbit_high 8 135) by lia. cbn [andb]. rewrite xorb_false_r.
    rewrite Z.lor_spec, shl64_spec by lia. rewrite (proj2 (Z.ltb_lt _ _)) by lia. cbn [andb].
    rewrite (proj2 (Nat.leb_le 1 i)) by lia. cbn [andb].
    destruct (decide (i = 64)%nat) as [->|Hne].
    + cbn -[Z.testbit]. by rewrite Z.b2z_bit0.
    + rewrite (proj2 (Z.leb_le _ _)), (proj2 (Nat.ltb_ge _ _)) by lia. cbn [andb].
      rewrite (testbit_high 1 (Z.b2z _)) by (destruct (Z.testbit (D0 v) 63); cbn; lia).
      rewrite orb_false_r. f_equal. lia.
Qed.

Lemma gf_double_ok v : label_ok v -> label_ok (gf_double v).
Proof.
  intros [H0 H1]. split; cbn [gf_double D0 D1]; auto 10 with word.
  apply lxor_u64; auto with word. apply land_u64. by vm_compute.
Qed.

Lemma gf_double_xor v w : label_ok v -> label_ok w -> gf_double (v ⊕ w) = gf_double v ⊕ gf_double w.
Proof.
  intros Hv Hw. apply deltaBit_ext; auto using gf_double_ok, label_xor_ok.
  intros i Hi. rewrite deltaBit_xor, !gf_double_bit by auto using label_xor_ok.
  rewrite !deltaBit_xor by lia. generalize (1 <=? i)%nat (Z.testbit 135 (Z.of_nat i)).
  intros. btauto.
Qed.

Lemma reduce_wide_ok P : label_ok (reduce_wide P).
Proof.
  assert (H : forall lo hi, label_ok lo -> label_ok hi -> label_ok (reduceGF128 lo hi)).
  { intros lo hi [] []. split; cbn [reduceGF128 D0 D1]; repeat apply lxor_u64; auto with word;
      apply shr64_u64; done || lia. }
  apply H; apply of_xmm_ok.
Qed.

(** Folding commutes with doubling: checked on the 255 powers of two, hence
    everywhere. *)
Definition fold_check : bool :=
  forallb (fun i => label_equal (reduce_wide (2 * 2 ^ Z.of_nat i))
                                (gf_double (reduce_wide (2 ^ Z.of_nat i)))) (seq 0 255).

Lemma reduce_wide_double P : 0 <= P < 2 ^ 255 -> reduce_wide (2 * P) = gf_double (reduce_wide P).
Proof.
  apply (additive_basis (fun x => reduce_wide (2 * x)) (fun x => gf_double (reduce_wide x)) 255).
  - intros x y Hx Hy. rewrite <- reduce_wide_additive by lia. f_equal.
    rewrite !(Z.mul_comm 2), <- !(Z.shiftl_mul_pow2 _ 1) by lia. apply Z.shiftl_lxor.
  - intros x y Hx Hy. rewrite reduce_wide_additive by done. apply gf_double_xor; apply reduce_wide_ok.
  - intros i Hi. assert (H : fold_check = true) by (vm_compute; reflexivity).
    unfold fold_check in H. rewrite forallb_forall in H.
    apply label_equal_spec. apply (H i). apply in_seq. lia.
Qed.

Fixpoint gf_pow (n : nat) (v : Label) : Label :=
  match n with O => v | S n => gf_double (gf_pow n v) end.

(** The 128 bits of a label as an integer. *)
Definition lval (l : Label) : Z := Z.lxor (D0 l) (Z.shiftl (D1 l) 64).

Lemma lval_testbit l i : label_ok l -> 0 <= i ->
  Z.testbit (lval l) i = if i <? 64 then Z.testbit (D0 l) i else Z.testbit (D1 l) (i - 64).
Proof.
  intros [H0 H1] Hi. unfold lval. rewrite Z.lxor_spec, Z.shiftl_spec by done.
  destruct (Z.ltb_spec i 64); [by rewrite (Z.testbit_neg_r (D1 l)), xorb_false_r by lia|].
  by rewrite (testbit_high 64 (D0 l)) by done.
Qed.

Lemma lval_bound l : label_ok l -> 0 <= lval l < 2 ^ 128.
Proof.
  intros Hl. pose proof Hl as [H0 H1]. assert (0 <= lval l).
  { apply Z.lxor_nonneg. unfold is_u64 in *. split; intros _; [apply Z.shiftl_nonneg|]; lia. }
  split; [done|]. apply bits_bound; [lia|done|]. intros i Hi. rewrite lval_testbit by (done || lia).
  rewrite (proj2 (Z.ltb_ge _ _)) by lia. apply (testbit_high 64); [done|lia].
Qed.

Lemma reduce_wide_lval l : label_ok l -> reduce_wide (lval l) = l.
Proof.
  intros Hl. pose proof Hl as [H0 H1]. unfold reduce_wide.
  assert (Z.shiftr (lval l) 128 = 0) as ->.
  { apply Z.shiftr_eq_0; [apply lval_bound; done|].
    destruct (decide (lval l = 0)) as [->|]; [done|]. pose proof (lval_bound l Hl).
    apply Z.log2_lt_pow2; lia. }
  assert (of_xmm (lval l) = l) as ->.
  { apply label_ext; unfold of_xmm; cbn [D0 D1]; apply (bits_inj_bounded 64); try apply u64_range; try done;
      intros i Hi; rewrite u64_spec, ?Z.shiftr_spec, lval_testbit by (done || lia);
      rewrite (proj2 (Z.ltb_lt i 64)) by lia; cbn [andb]; [done|].
    rewrite (proj2 (Z.ltb_ge _ _)) by lia. f_equal. lia. }
  change (of_xmm 0) with label_zero. unfold reduceGF128. cbn [D0 D1 label_zero].
  change (shr64 0 63) with 0. change (shr64 0 62) with 0. change (shr64 0 57) with 0.
  change (Z.lxor (Z.lxor 0 0) 0) with 0.
  change (shl64 0 1) with 0. change (shl64 0 2) with 0. change (shl64 0 7) with 0.
  rewrite !Z.lxor_0_r. by destruct l.
Qed.

Lemma reduce_wide_shift l i : label_ok l -> (i <= 127)%nat ->
  reduce_wide (Z.shiftl (lval l) (Z.of_nat i)) = gf_pow i l.
Proof.
  intros Hl. induction i as [|i IH]; intros Hi; [by apply reduce_wide_lval|].
  cbn [gf_pow]. rewrite <- IH by lia. rewrite <- reduce_wide_double.
  - f_equal. rewrite Nat2Z.inj_succ, <- Z.add_1_r, <- Z.shiftl_shiftl by lia.
    rewrite (Z.shiftl_mul_pow2 _ 1) by lia. lia.
  - pose proof (lval_bound l Hl). rewrite Z.shiftl_mul_pow2 by lia.
    split; [apply Z.mul_nonneg_nonneg; [lia|apply Z.pow_nonneg; lia]|].
    replace 255 with (128 + 127) by lia. rewrite Z.pow_add_r by lia.
    apply Z.mul_lt_mono_nonneg; [lia|lia|apply Z.pow_nonneg; lia|].
    apply Z.pow_lt_mono_r; lia.
Qed.

(** ** Both routines compute the sum of [b_i * x^i * a] *)

Fixpoint lsum (f : nat -> Label) (n : nat) : Label :=
  match n with
  | O => label_zero
  | S n => lsum f n ⊕ f n
  end.

Lemma lsum_ext f g n : (forall i, (i < n)%nat -> f i = g i) -> lsum f n = lsum g n.
Proof. induction n as [|n IH]; intros H; cbn [lsum]; [done|]. rewrite IH, H by (intros; apply H || lia; lia). done. Qed.

Lemma lsum_xor f g n : lsum (fun i => f i ⊕ g i) n = lsum f n ⊕ lsum g n.
Proof. induction n as [|n IH]; cbn [lsum]; [done|]. rewrite IH. xor_solve. Qed.

Lemma lsum_cons f n : lsum f (S n) = f 0%nat ⊕ lsum (fun i => f (S i)) n.
Proof.
  induction n as [|n IH]; [cbn [lsum]; xor_solve|].
  change (lsum f (S (S n))) with (lsum f (S n) ⊕ f (S n)). rewrite IH. cbn [lsum]. xor_solve.
Qed.

Definition gf_spec (a b : Label) : Label :=
  lsum (fun i => if deltaBit b i then gf_pow i a else label_zero) 128.

Lemma gf_pow_shift n v : gf_pow n (gf_double v) = gf_double (gf_pow n v).
Proof. induction n as [|n IH]; [done|]. cbn [gf_pow]. by rewrite IH. Qed.

Lemma bit_mask x b : is_u64 x -> (b = 0 \/ b = 1) -> Z.land x (sub64 0 b) = if b =? 1 then x else 0.
Proof.
  intros Hx [-> | ->].
  - change (sub64 0 0) with 0. by rewrite Z.land_0_r.
  - change (sub64 0 1) with (Z.ones 64). rewrite Z.land_ones by lia. by apply Z.mod_small.
Qed.

Lemma loop_bit b i : (i < 128)%nat -> exists c,
  (if (64 <=? i)%nat then Z.land (shr64 (D1 b) (Z.of_nat i - 64)) 1
   else Z.land (shr64 (D0 b) (Z.land (Z.of_nat i) 63)) 1) = c /\ (c = 0 \/ c = 1) /\
  (c =? 1) = deltaBit b i.
Proof.
  intros Hi. eexists. split; [done|].
  assert (H : forall x k, 0 <= k -> (Z.land (shr64 x k) 1 = 0 \/ Z.land (shr64 x k) 1 = 1) /\
            (Z.land (shr64 x k) 1 =? 1) = Z.testbit x k).
  { intros x k Hk. assert (E : Z.land (shr64 x k) 1 = Z.b2z (Z.testbit x k)).
    { change 1 with (Z.ones 1) at 1. rewrite Z.land_ones by lia.
      change (2 ^ 1) with 2. rewrite Zmod_odd. unfold shr64. rewrite Z.testbit_odd.
      by destruct (Z.odd _). }
    rewrite E. destruct (Z.testbit x k); cbn; auto. }
  rewrite deltaBit_testbit by done. destruct (Nat.leb_spec 64 i).
  - rewrite (proj2 (Nat.ltb_ge _ _)) by lia. rewrite Nat2Z.inj_sub by lia. apply H. lia.
  - rewrite (proj2 (Nat.ltb_lt _ _)) by lia.
    assert (Z.land (Z.of_nat i) 63 = Z.of_nat i) as ->.
    { change 63 with (Z.ones 6). rewrite Z.land_ones by lia. apply Z.mod_small. lia. }
    apply H. lia.
Qed.

Lemma gf128_loop_spec n i b v z : label_ok v -> (i + n <= 128)%nat ->
  gf128_loop n i b v z =
  z ⊕ lsum (fun j => if deltaBit b (i + j) then gf_pow j v else label_zero) n.
Proof.
  revert i v z. induction n as [|n IH]; intros i v z Hv Hi; [cbn; xor_solve|].
  cbn [gf128_loop]. destruct (loop_bit b i ltac:(lia)) as (c & -> & Hc & Ec).
  rewrite IH by (auto using gf_double_ok || lia). rewrite lsum_cons, Nat.add_0_r.
  rewrite !bit_mask, Ec by (done || apply Hv). cbn [gf_pow].
  rewrite (lsum_ext (fun j => if deltaBit b (S i + j) then gf_pow j (gf_double v) else label_zero)
                    (fun j => if deltaBit b (i + S j) then gf_double (gf_pow j v) else label_zero)).
  2: { intros j Hj. rewrite gf_pow_shift. by rewrite Nat.add_succ_r. }
  destruct (deltaBit b i); unfold label_xor, label_zero; cbn [D0 D1]; f_equal; lxor_bits.
Qed.

Lemma gf128MulGeneric_spec a b : label_ok a -> gf128MulGeneric a b = gf_spec a b.
Proof.
  intros Ha. unfold gf128MulGeneric. rewrite gf128_loop_spec by (done || lia). unfold gf_spec.
  cbn [Nat.add]. apply label_xor_0_l.
Qed.

(** *** The carry-less product *)

Lemma clmul_lxor x y b n : clmul (Z.lxor x y) b n = Z.lxor (clmul x b n) (clmul y b n).
Proof.
  unfold clmul. rewrite <- xsum_lxor. apply xsum_ext. intros i _.
  destruct (b i); [apply Z.shiftl_lxor|done].
Qed.

Lemma clmul_ext x b b' n : (forall i, (i < n)%nat -> b i = b' i) -> clmul x b n = clmul x b' n.
Proof. intros H. unfold clmul. apply xsum_ext. intros i Hi. by rewrite H. Qed.

Lemma clmul_shiftl x k b n : 0 <= k -> clmul (Z.shiftl x k) b n = Z.shiftl (clmul x b n) k.
Proof.
  intros Hk. unfold clmul. rewrite <- xsum_shiftl. apply xsum_ext. intros i _.
  destruct (b i); [|by rewrite Z.shiftl_0_l]. rewrite !Z.shiftl_shiftl by lia. f_equal. lia.
Qed.

Lemma clmul_split x b n m :
  clmul x b (n + m) = Z.lxor (clmul x b n) (Z.shiftl (clmul x (fun i => b (n + i)%nat) m) (Z.of_nat n)).
Proof.
  unfold clmul. rewrite xsum_split, <- xsum_shiftl. f_equal. apply xsum_ext. intros i _.
  destruct (b (n + i)%nat); [|by rewrite Z.shiftl_0_l].
  rewrite Z.shiftl_shiftl by lia. f_equal. lia.
Qed.

Lemma clmul_bound x b n : 0 <= x < 2 ^ 64 -> 0 <= clmul x b n < 2 ^ (64 + Z.of_nat n).
Proof.
  intros Hx. unfold clmul. induction n as [|n IH]; cbn [xsum]; [split; [done|apply Z.pow_pos_nonneg; lia]|].
  apply lxor_bound; [lia| |].
  - split; [apply IH|]. eapply Z.lt_le_trans; [apply IH|]. apply Z.pow_le_mono_r; lia.
  - destruct (b n); [|split; [done|apply Z.pow_pos_nonneg; lia]].
    rewrite Z.shiftl_mul_pow2 by lia. assert (0 < 2 ^ Z.of_nat n) by (apply Z.pow_pos_nonneg; lia).
    rewrite Nat2Z.inj_succ, Z.add_succ_r, Z.pow_succ_r, Z.pow_add_r by lia. nia.
Qed.

Lemma pclmulqdq_bound x y : is_u64 x -> 0 <= pclmulqdq x y < 2 ^ 128.
Proof.
  intros Hx. unfold pclmulqdq. replace 128 with (64 + Z.of_nat 64) by lia. by apply clmul_bound.
Qed.

(** The four 64-bit products assemble the 128-bit one. *)
Lemma clmul128_spec a b : label_ok a -> label_ok b ->
  clmul128 a b = (of_xmm (clmul (lval a) (deltaBit b) 128),
                  of_xmm (Z.shiftr (clmul (lval a) (deltaBit b) 128) 128)).
Proof.
  intros [Ha0 Ha1] [Hb0 Hb1].
  set (p00 := pclmulqdq (D0 a) (D0 b)). set (p10 := pclmulqdq (D1 a) (D0 b)).
  set (p01 := pclmulqdq (D0 a) (D1 b)). set (p11 := pclmulqdq (D1 a) (D1 b)).
  set (mid := Z.lxor p10 p01).
  assert (EP : clmul (lval a) (deltaBit b) 128 =
               Z.lxor p00 (Z.lxor (Z.shiftl mid 64) (Z.shiftl p11 128))).
  { change 128%nat with (64 + 64)%nat. rewrite clmul_split. unfold lval.
    rewrite !clmul_lxor, !clmul_shiftl by lia.
    assert (El : forall x, clmul x (deltaBit b) 64 = pclmulqdq x (D0 b)).
    { intros x. unfold pclmulqdq. apply clmul_ext. intros i Hi.
      rewrite deltaBit_testbit by lia. by rewrite (proj2 (Nat.ltb_lt _ _)) by lia. }
    assert (Eh : forall x, clmul x (fun i => deltaBit b (64 + i)) 64 = pclmulqdq x (D1 b)).
    { intros x. unfold pclmulqdq. apply clmul_ext. intros i Hi.
      rewrite deltaBit_testbit by lia. rewrite (proj2 (Nat.ltb_ge _ _)) by lia.
      by replace (64 + i - 64)%nat with i by lia. }
    rewrite !El, !Eh. fold p00 p10 p01 p11. unfold mid.
    change (Z.of_nat 64) with 64. rewrite !Z.shiftl_lxor, Z.shiftl_shiftl by lia.
    change (64 + 64) with 128. lxor_bits. }
  assert (B00 : 0 <= p00 < 2 ^ 128) by (exact (pclmulqdq_bound _ _ Ha0)).
  unfold clmul128. fold p00 p10 p01 p11 mid. cbv zeta. rewrite EP.
  assert (Hm : forall x, of_xmm ((x) mod 2 ^ 128) = of_xmm x).
  { intros x. apply label_ext; unfold of_xmm; cbn [D0 D1]; apply Z.bits_inj'; intros i Hi;
      rewrite !u64_spec, ?Z.shiftr_spec, mod_pow2_spec by lia;
      destruct (Z.ltb_spec i 64); cbn [andb]; try done; by rewrite (proj2 (Z.ltb_lt _ _)) by lia. }
  f_equal.
  - rewrite !of_xmm_lxor, Hm. f_equal. rewrite <- (label_xor_0_r (of_xmm (Z.shiftl mid 64))) at 1.
    f_equal. apply label_ext; unfold of_xmm; cbn [D0 D1 label_zero]; symmetry; apply Z.bits_inj'; intros i Hi;
      rewrite u64_spec, ?Z.shiftr_spec, Z.shiftl_spec, Z.bits_0 by lia;
      destruct (Z.ltb_spec i 64); cbn [andb]; try done; apply Z.testbit_neg_r; lia.
  - f_equal. rewrite !Z.shiftr_lxor, Z.shiftr_shiftl_r, Z.shiftr_shiftl_l by lia.
    assert (Z.shiftr p00 128 = 0) as ->.
    { rewrite Z.shiftr_div_pow2 by lia. by apply Z.div_small. }
    change (128 - 64) with 64. change (128 - 128) with 0. rewrite Z.shiftl_0_r, Z.lxor_0_l.
    apply Z.lxor_comm.
Qed.

Lemma reduce_wide_xsum f n : (forall i, 0 <= f i) ->
  reduce_wide (xsum f n) = lsum (fun i => reduce_wide (f i)) n.
Proof.
  intros Hf. assert (Hp : forall m, 0 <= xsum f m).
  { induction m as [|m IH]; cbn [xsum]; [done|]. apply Z.lxor_nonneg. split; auto. }
  induction n as [|n IH]; cbn [xsum lsum]; [done|]. by rewrite reduce_wide_additive, IH.
Qed.

(** The two routines agree. *)
Lemma gf128Mul_spec hw a b : label_ok a -> label_ok b -> gf128Mul hw a b = gf_spec a b.
Proof.
  intros Ha Hb. unfold gf128Mul. destruct hw; [|by apply gf128MulGeneric_spec].
  rewrite clmul128_spec by done. fold (reduce_wide (clmul (lval a) (deltaBit b) 128)).
  unfold clmul. rewrite reduce_wide_xsum.
  - apply lsum_ext. intros i Hi. destruct (deltaBit b i); [|done]. apply reduce_wide_shift; [done|lia].
  - intros i. destruct (deltaBit b i); [|done]. apply Z.shiftl_nonneg, lval_bound, Ha.
Qed.

(** ** Linearity in the first factor *)

Lemma gf_pow_ok n v : label_ok v -> label_ok (gf_pow n v).
Proof. intros Hv. induction n; [done|]. by apply gf_double_ok. Qed.

Lemma gf_pow_xor n v w : label_ok v -> label_ok w -> gf_pow n (v ⊕ w) = gf_pow n v ⊕ gf_pow n w.
Proof.
  intros Hv Hw. induction n as [|n IH]; [done|]. cbn [gf_pow]. rewrite IH.
  by apply gf_double_xor; apply gf_pow_ok.
Qed.

Lemma gf_spec_xor_l a a' b : label_ok a -> label_ok a' ->
  gf_spec (a ⊕ a') b = gf_spec a b ⊕ gf_spec a' b.
Proof.
  intros Ha Ha'. unfold gf_spec. rewrite <- lsum_xor. apply lsum_ext. intros i _.
  destruct (deltaBit b i); [by apply gf_pow_xor|xor_solve].
Qed.

Lemma gf_spec_ok a b : label_ok a -> label_ok (gf_spec a b).
Proof.
  intros Ha. unfold gf_spec. generalize 128%nat. intros n.
  induction n as [|n IH]; cbn [lsum]; [apply label_zero_ok|]. apply label_xor_ok; [done|].
  destruct (deltaBit b n); [by apply gf_pow_ok|apply label_zero_ok].
Qed.

Lemma gf_spec_zero_l b : gf_spec label_zero b = label_zero.
Proof.
  assert (H : gf_spec label_zero b = gf_spec label_zero b ⊕ gf_spec label_zero b).
  { rewrite <- gf_spec_xor_l by apply label_zero_ok. f_equal. }
  by rewrite label_xor_nilpotent in H.
Qed.

Lemma gf128Mul_ok hw a b : label_ok a -> label_ok b -> label_ok (gf128Mul hw a b).
Proof. intros. rewrite gf128Mul_spec by done. by apply gf_spec_ok. Qed.

(** ** Equivalence of the two multiplications *)

(** the PCLMULQDQ path (four carry-less products and the two-fold reduction)
    and the portable bit-by-bit routine compute the same product, and the product
    is linear in its first factor, which the consistency check relies on. *)
Theorem gf128Mul_fast_is_generic a a' b :
  label_ok a -> label_ok a' -> label_ok b ->
  gf128Mul true a b = gf128MulGeneric a b /\
  forall hw, gf128Mul hw (a ⊕ a') b = gf128Mul hw a b ⊕ gf128Mul hw a' b.
Proof.
  intros Ha Ha' Hb. split.
  - by rewrite gf128Mul_spec, gf128MulGeneric_spec.
  - intros hw. rewrite !gf128Mul_spec by auto using label_xor_ok. by apply gf_spec_xor_l.
Qed.

Lemma gf128Mul_fast_is_generic_witness :
  gf128Mul true (mkLabel 0 9223372036854775808) (mkLabel 2 0) = mkLabel 135 0 /\
  gf128Mul true (mkLabel 0 9223372036854775808) (mkLabel 2 0) =
    gf128MulGeneric (mkLabel 0 9223372036854775808) (mkLabel 2 0).
Proof.
  split; [vm_compute; reflexivity|].
  apply (gf128Mul_fast_is_generic (mkLabel 0 9223372036854775808) label_zero (mkLabel 2 0));
    vm_compute; repeat split; try discriminate; reflexivity.
Defined.
