(* ===== verification/Ghash.v ===== *)
(** * GHASH ([minitls/crypto.go], lines 801-908)

    TEE_T computes GCM tags with a table-driven product in GF(2^128): sixteen
    multiples of the key, four bits of the operand at a time, and a table that
    folds the four bits shifted out back in.  It is proved equal to the
    bit-serial product and the hash of NIST SP 800-38D, sections 6.3 and 6.4. *)

From S2P Require Import Prelude Bytes Gf128.

(** ** The code *)

Record gcmFieldElement := mkFe { fe_low : Z; fe_high : Z }.

Definition fe_zero : gcmFieldElement := mkFe 0 0.

#[export] Instance fe_inhabited : Inhabited gcmFieldElement := populate fe_zero.

Definition reverseBits (i : Z) : Z :=
  let i := Z.lor (Z.land (Z.shiftl i 2) 12) (Z.land (Z.shiftr i 2) 3) in
  Z.lor (Z.land (Z.shiftl i 1) 10) (Z.land (Z.shiftr i 1) 5).

Definition ghashAdd (x y : gcmFieldElement) : gcmFieldElement :=
  mkFe (Z.lxor (fe_low x) (fe_low y)) (Z.lxor (fe_high x) (fe_high y)).

Definition ghashDouble (x : gcmFieldElement) : gcmFieldElement :=
  let msbSet := Z.land (fe_high x) 1 =? 1 in
  let high := Z.lor (shr64 (fe_high x) 1) (shl64 (fe_low x) 63) in
  let low := shr64 (fe_low x) 1 in
  mkFe (if msbSet then Z.lxor low 0xe100000000000000 else low) high.

Definition ghashReductionTable : list Z := [
  0x0000; 0x1c20; 0x3840; 0x2460; 0x7080; 0x6ca0; 0x48c0; 0x54e0;
  0xe100; 0xfd20; 0xd940; 0xc560; 0x9180; 0x8da0; 0xa9c0; 0xb5e0].

(** One turn of the inner loop of [ghashMul]; [word] is what is left of the operand's word. *)
Definition nibble_step (productTable : list gcmFieldElement) (z : gcmFieldElement) (word : Z) : gcmFieldElement :=
  let msw := Z.land (fe_high z) 15 in
  let high := Z.lor (shr64 (fe_high z) 4) (shl64 (fe_low z) 60) in
  let low := shr64 (fe_low z) 4 in
  let low := Z.lxor low (shl64 (nth (Z.to_nat msw) ghashReductionTable 0) 48) in
  let t := productTable !!! Z.to_nat (Z.land word 15) in
  mkFe (Z.lxor low (fe_low t)) (Z.lxor high (fe_high t)).

Fixpoint mul_word (n : nat) (productTable : list gcmFieldElement) (word : Z) (z : gcmFieldElement) : gcmFieldElement :=
  match n with
  | O => z
  | S n => mul_word n productTable (shr64 word 4) (nibble_step productTable z word)
  end.

Definition ghashMul (productTable : list gcmFieldElement) (y : gcmFieldElement) : gcmFieldElement :=
  mul_word 16 productTable (fe_low y) (mul_word 16 productTable (fe_high y) fe_zero).

(** Absorbing one block of sixteen bytes. *)
Definition ghash_block (productTable : list gcmFieldElement) (y : gcmFieldElement) (block : bytes) : gcmFieldElement :=
  ghashMul productTable (mkFe (Z.lxor (fe_low y) (be_get (slice block 0 8))) (Z.lxor (fe_high y) (be_get (slice block 8 16)))).

(** The loop over full blocks runs [len(data)/16] times. *)
Fixpoint full_blocks {A} (absorbs : A -> bytes -> A) (n : nat) (y : A) (data : bytes) : A * bytes :=
  match n with
  | O => (y, data)
  | S n => full_blocks absorbs n (absorbs y (take 16 data)) (drop 16 data)
  end.

Definition ghashUpdate (productTable : list gcmFieldElement) (y : gcmFieldElement) (data : bytes) : gcmFieldElement :=
  let '(y, rest) := full_blocks (ghash_block productTable) (length data / 16) y data in
  if (0 <? length rest)%nat then ghash_block productTable y (pad_to 16 rest) else y.

(** The two assignments of the table loop for one even [i]. *)
Definition table_step (x : gcmFieldElement) (productTable : list gcmFieldElement) (i : Z) : list gcmFieldElement :=
  let at_ i := Z.to_nat (reverseBits i) in
  let productTable := <[at_ i := ghashDouble (productTable !!! at_ (i / 2))]> productTable in
  <[at_ (i + 1) := ghashAdd (productTable !!! at_ i) x]> productTable.

Definition product_table (x : gcmFieldElement) : list gcmFieldElement :=
  fold_left (table_step x) [2; 4; 6; 8; 10; 12; 14] (<[Z.to_nat (reverseBits 1) := x]> (replicate 16 fe_zero)).

Definition ghash (key : bytes) (data : list bytes) : bytes :=
  let x := mkFe (be_get (slice key 0 8)) (be_get (slice key 8 16)) in
  let y := fold_left (ghashUpdate (product_table x)) data fe_zero in
  be_put 8 (fe_low y) ++ be_put 8 (fe_high y).

(** ** The standard

    A block is a 128-bit integer, its first bit the most significant one.
    [gcm_double] is the multiplication by x of the standard's representation. *)

Definition gcm_R : Z := Z.shiftl 0xe1 120.

Definition gcm_double (V : Z) : Z := Z.lxor (Z.shiftr V 1) (if Z.testbit V 0 then gcm_R else 0).

(** Algorithm 1: X • Y. *)
Fixpoint gcm_loop (n i : nat) (X Z0 V : Z) : Z :=
  match n with
  | O => Z0
  | S n => gcm_loop n (S i) X (if Z.testbit X (127 - Z.of_nat i) then Z.lxor Z0 V else Z0) (gcm_double V)
  end.

Definition gcm_mul (X Y : Z) : Z := gcm_loop 128 0 X 0 Y.

Fixpoint blocks_of (n : nat) (data : bytes) : list Z :=
  match n with
  | O => []
  | S n => be_get (take 16 data) :: blocks_of n (drop 16 data)
  end.

Definition absorb (H Y X : Z) : Z := gcm_mul (Z.lxor Y X) H.

(** Algorithm 2, on a string of whole blocks. *)
Definition GHASH (H : Z) (data : bytes) : Z :=
  fold_left (absorb H) (blocks_of (length data / 16) data) 0.

(** The string padded with zeros to whole blocks. *)
Definition pad16 (s : bytes) : bytes := s ++ zeros ((16 - length s mod 16) mod 16).

(** ** Field elements as integers *)

Definition fe_ok (x : gcmFieldElement) : Prop := is_u64 (fe_low x) /\ is_u64 (fe_high x).

Definition fe_val (x : gcmFieldElement) : Z := Z.lxor (Z.shiftl (fe_low x) 64) (fe_high x).

Lemma fe_val_bound x : fe_ok x -> 0 <= fe_val x < 2 ^ 128.
Proof.
  intros [L H]. unfold is_u64 in *. apply lxor_bound; [lia| |lia].
  rewrite Z.shiftl_mul_pow2 by lia. lia.
Qed.

Lemma fe_val_testbit x i : fe_ok x -> 0 <= i ->
  Z.testbit (fe_val x) i = if i <? 64 then Z.testbit (fe_high x) i else Z.testbit (fe_low x) (i - 64).
Proof.
  intros [L H] Hi. unfold fe_val. rewrite Z.lxor_spec, Z.shiftl_spec by lia. destruct (Z.ltb_spec i 64).
  - by rewrite Z.testbit_neg_r, xorb_false_l by lia.
  - by rewrite (testbit_high 64 (fe_high x)), xorb_false_r by (done || lia).
Qed.

Lemma fe_val_add x y : fe_val (ghashAdd x y) = Z.lxor (fe_val x) (fe_val y).
Proof.
  unfold fe_val, ghashAdd. cbn [fe_low fe_high]. rewrite Z.shiftl_lxor.
  apply Z.bits_inj'. intros i _. rewrite !Z.lxor_spec. btauto.
Qed.

Lemma fe_add_ok x y : fe_ok x -> fe_ok y -> fe_ok (ghashAdd x y).
Proof. intros [] []. split; apply (lxor_bound 64); (done || lia). Qed.

(** Shifting a field element right by a few bits, word by word. *)
Lemma fe_shift x k : fe_ok x -> 0 < k < 64 ->
  let y := mkFe (shr64 (fe_low x) k) (Z.lor (shr64 (fe_high x) k) (shl64 (fe_low x) (64 - k))) in
  fe_ok y /\ fe_val y = Z.shiftr (fe_val x) k.
Proof.
  intros Hx Hk y. assert (Hy : fe_ok y).
  { destruct Hx. split; cbn [fe_low fe_high]; [apply shr64_u64; (done || lia)|].
    apply lor_u64; [apply shr64_u64; (done || lia)|apply u64_range]. }
  split; [done|]. apply Z.bits_inj'. intros i Hi.
  rewrite fe_val_testbit, Z.shiftr_spec, fe_val_testbit by (done || lia). destruct Hx as [L H].
  cbn [fe_low fe_high y]. rewrite Z.lor_spec, shl64_spec, shr64_spec by lia.
  destruct (Z.ltb_spec i 64).
  - destruct (Z.ltb_spec (i + k) 64).
    + rewrite (Z.testbit_neg_r (fe_low x)) by lia. btauto.
    + rewrite (testbit_high 64 (fe_high x)), orb_false_l, ?andb_true_l, (proj2 (Z.leb_le _ _)), ?andb_true_l by (done || lia). f_equal. lia.
  - rewrite shr64_spec, (proj2 (Z.ltb_ge _ _)) by lia. f_equal. lia.
Qed.

(** ** Doubling is linear *)

Lemma gcm_double_lxor x y : gcm_double (Z.lxor x y) = Z.lxor (gcm_double x) (gcm_double y).
Proof.
  unfold gcm_double. rewrite Z.shiftr_lxor, Z.lxor_spec.
  destruct (Z.testbit x 0), (Z.testbit y 0); cbn [xorb]; apply Z.bits_inj'; intros i _; rewrite !Z.lxor_spec, ?Z.bits_0; btauto.
Qed.

Fixpoint doubles (n : nat) (V : Z) : Z := match n with O => V | S n => gcm_double (doubles n V) end.

Lemma doubles_lxor n x y : doubles n (Z.lxor x y) = Z.lxor (doubles n x) (doubles n y).
Proof. induction n as [|n IH]; [done|]. cbn [doubles]. by rewrite IH, gcm_double_lxor. Qed.

Lemma doubles_0 n : doubles n 0 = 0.
Proof. induction n as [|n IH]; [done|]. cbn [doubles]. by rewrite IH. Qed.

Lemma doubles_add n m x : doubles (n + m) x = doubles n (doubles m x).
Proof. induction n as [|n IH]; [done|]. cbn [doubles Nat.add]. by rewrite IH. Qed.

Lemma doubles_xsum n f m : doubles n (xsum f m) = xsum (fun i => doubles n (f i)) m.
Proof. induction m as [|m IH]; cbn [xsum]; [apply doubles_0|by rewrite doubles_lxor, IH]. Qed.

Lemma doubles_if n (b : bool) x : doubles n (if b then x else 0) = if b then doubles n x else 0.
Proof. destruct b; [done|apply doubles_0]. Qed.

Lemma fe_double x : fe_ok x -> fe_ok (ghashDouble x) /\ fe_val (ghashDouble x) = gcm_double (fe_val x).
Proof.
  intros Hx. destruct (fe_shift x 1 Hx ltac:(lia)) as [[Ol Oh] E]. change (64 - 1) with 63 in *. unfold ghashDouble. cbn [fe_low fe_high] in *.
  assert (Z.land (fe_high x) 1 =? 1 = Z.testbit (fe_val x) 0) as ->.
  { rewrite fe_val_testbit by (done || lia). cbn [Z.ltb Z.compare].
    change 1 with (Z.ones 1) at 1. rewrite Z.land_ones by lia. change (2 ^ 1) with 2.
    rewrite Zmod_odd, <- Z.bit0_odd. by destruct (Z.testbit (fe_high x) 0). }
  unfold gcm_double. rewrite <- E. unfold fe_val. cbn [fe_low fe_high].
  destruct (Z.testbit _ 0); [|by rewrite Z.lxor_0_r].
  split; [split; [apply (lxor_bound 64); (done || lia)|done]|].
  rewrite Z.shiftl_lxor. change (Z.shiftl 0xe100000000000000 64) with gcm_R.
  cbn [fe_low fe_high]. apply Z.bits_inj'. intros i _. rewrite !Z.lxor_spec. btauto.
Qed.

(** ** Four doublings at once *)

Lemma doubles_shiftl n q : doubles n (Z.shiftl q (Z.of_nat n)) = q.
Proof.
  revert q. induction n as [|n IH]; intros q; [apply Z.shiftl_0_r|].
  replace (S n) with (n + 1)%nat by lia. rewrite doubles_add. cbn [doubles].
  assert (gcm_double (Z.shiftl q (Z.of_nat (n + 1))) = Z.shiftl q (Z.of_nat n)) as ->; [|done].
  unfold gcm_double. rewrite Z.shiftl_spec, Z.testbit_neg_r, Z.lxor_0_r by lia.
  rewrite Z.shiftr_shiftl_l by lia. f_equal. lia.
Qed.

(** The reduction table holds the four-fold doublings of the sixteen low nibbles. *)
Definition reduction_check : bool :=
  forallb (fun r => Z.shiftl (shl64 (nth r ghashReductionTable 0) 48) 64 =? doubles 4 (Z.of_nat r)) (seq 0 16).

Lemma reduction_spec r : (r < 16)%nat -> Z.shiftl (shl64 (nth r ghashReductionTable 0) 48) 64 = doubles 4 (Z.of_nat r).
Proof.
  intros H. assert (C : reduction_check = true) by (vm_compute; reflexivity).
  unfold reduction_check in C. rewrite forallb_forall in C. apply Z.eqb_eq, C, in_seq. lia.
Qed.

Lemma table_u64 n : is_u64 (shl64 n 48).
Proof. apply u64_range. Qed.

Lemma low_nibble z : 0 <= Z.land z 15 < 16.
Proof. change 15 with (Z.ones 4). rewrite Z.land_ones by lia. apply Z.mod_pos_bound. lia. Qed.

Lemma doubles_4 V : doubles 4 V = Z.lxor (Z.shiftr V 4) (doubles 4 (Z.land V 15)).
Proof.
  assert (E : V = Z.lxor (Z.shiftl (Z.shiftr V 4) 4) (Z.land V 15)).
  { apply Z.bits_inj'. intros i Hi. rewrite Z.lxor_spec, Z.land_spec, Z.shiftl_spec by lia. change 15 with (Z.ones 4).
    destruct (Z.ltb_spec i 4).
    - by rewrite (Z.testbit_neg_r (Z.shiftr V 4)), Z.ones_spec_low, andb_true_r, xorb_false_l by lia.
    - rewrite Z.ones_spec_high, andb_false_r, xorb_false_r by lia. rewrite Z.shiftr_spec by lia. f_equal. lia. }
  rewrite E at 1. rewrite doubles_lxor. by rewrite (doubles_shiftl 4).
Qed.

Lemma nibble_step_val pt z word : fe_ok z -> (forall n, (n < 16)%nat -> fe_ok (pt !!! n)) ->
  fe_ok (nibble_step pt z word)
  /\ fe_val (nibble_step pt z word) = Z.lxor (doubles 4 (fe_val z)) (fe_val (pt !!! Z.to_nat (Z.land word 15))).
Proof.
  intros Hz Hpt. destruct (fe_shift z 4 Hz ltac:(lia)) as [Oy E]. pose proof (low_nibble word).
  set (y := mkFe _ _) in *. set (t := pt !!! Z.to_nat (Z.land word 15)).
  set (r := mkFe (shl64 (nth (Z.to_nat (Z.land (fe_high z) 15)) ghashReductionTable 0) 48) 0).
  assert (S : nibble_step pt z word = ghashAdd (ghashAdd y r) t).
  { unfold nibble_step, ghashAdd, y, r. cbn [fe_low fe_high]. by rewrite Z.lxor_0_r. }
  rewrite S, !fe_val_add. split; [apply fe_add_ok; [apply fe_add_ok; [done|split; [apply u64_range|unfold is_u64; cbn; lia]]|apply Hpt; lia]|].
  f_equal. rewrite E, (doubles_4 (fe_val z)). f_equal.
  unfold fe_val at 1, r. cbn [fe_low fe_high]. pose proof (low_nibble (fe_high z)). rewrite Z.lxor_0_r, reduction_spec by lia. f_equal.
  rewrite Z2Nat.id by lia. apply Z.bits_inj'. intros i Hi. rewrite !Z.land_spec, fe_val_testbit by done.
  destruct (Z.ltb_spec i 64); [done|]. change 15 with (Z.ones 4). by rewrite Z.ones_spec_high, !andb_false_r by lia.
Qed.

(** ** The table *)

(** The multiple of [H] a nibble stands for: its most significant bit is the constant term. *)
Definition nibble_multiple (H : Z) (n : Z) : Z :=
  xsum (fun b => if Z.testbit n (3 - Z.of_nat b) then doubles b H else 0) 4.

(** The entries of the table, by the order in which the loop fills them. *)
Lemma product_table_entries x :
  let m2 := ghashDouble x in let m3 := ghashAdd m2 x in let m4 := ghashDouble m2 in let m5 := ghashAdd m4 x in
  let m6 := ghashDouble m3 in let m7 := ghashAdd m6 x in let m8 := ghashDouble m4 in let m9 := ghashAdd m8 x in
  let m10 := ghashDouble m5 in let m11 := ghashAdd m10 x in let m12 := ghashDouble m6 in let m13 := ghashAdd m12 x in
  let m14 := ghashDouble m7 in let m15 := ghashAdd m14 x in
  product_table x = [fe_zero; m8; m4; m12; m2; m10; m6; m14; x; m9; m5; m13; m3; m11; m7; m15].
Proof. reflexivity. Qed.

(** What is known of an entry: it is a field element, with this value. *)
Definition entry (y : gcmFieldElement) (v : Z) : Prop := fe_ok y /\ fe_val y = v.

Lemma entry_double y v : entry y v -> entry (ghashDouble y) (gcm_double v).
Proof. intros [O <-]. apply (fe_double y O). Qed.

Lemma entry_add x y v w : entry x v -> entry y w -> entry (ghashAdd x y) (Z.lxor v w).
Proof. intros [O <-] [P <-]. split; [by apply fe_add_ok|apply fe_val_add]. Qed.

Lemma product_table_spec x n : fe_ok x -> (n < 16)%nat ->
  entry (product_table x !!! n) (nibble_multiple (fe_val x) (Z.of_nat n)).
Proof.
  intros Hx Hn. assert (E1 : entry x (fe_val x)) by done.
  assert (E0 : entry fe_zero 0) by (split; [split; unfold is_u64; cbn; lia|done]).
  pose proof (entry_double _ _ E1) as E2. pose proof (entry_add _ _ _ _ E2 E1) as E3.
  pose proof (entry_double _ _ E2) as E4. pose proof (entry_add _ _ _ _ E4 E1) as E5.
  pose proof (entry_double _ _ E3) as E6. pose proof (entry_add _ _ _ _ E6 E1) as E7.
  pose proof (entry_double _ _ E4) as E8. pose proof (entry_add _ _ _ _ E8 E1) as E9.
  pose proof (entry_double _ _ E5) as E10. pose proof (entry_add _ _ _ _ E10 E1) as E11.
  pose proof (entry_double _ _ E6) as E12. pose proof (entry_add _ _ _ _ E12 E1) as E13.
  pose proof (entry_double _ _ E7) as E14. pose proof (entry_add _ _ _ _ E14 E1) as E15.
  rewrite product_table_entries. rewrite ?gcm_double_lxor in *. unfold nibble_multiple. cbn [xsum doubles].
  do 16 (destruct n as [|n]; [match goal with |- entry (_ !!! ?k) ?v =>
    let b0 := eval vm_compute in (Z.testbit (Z.of_nat k) 3) in let b1 := eval vm_compute in (Z.testbit (Z.of_nat k) 2) in
    let b2 := eval vm_compute in (Z.testbit (Z.of_nat k) 1) in let b3 := eval vm_compute in (Z.testbit (Z.of_nat k) 0) in
    change (Z.testbit (Z.of_nat k) (3 - Z.of_nat 0)) with b0; change (Z.testbit (Z.of_nat k) (3 - Z.of_nat 1)) with b1;
    change (Z.testbit (Z.of_nat k) (3 - Z.of_nat 2)) with b2; change (Z.testbit (Z.of_nat k) (3 - Z.of_nat 3)) with b3 end;
    cbv iota; cbn [lookup_total list_lookup_total]; rewrite ?Z.lxor_0_l, ?Z.lxor_0_r;
    first [done | rewrite Z.lxor_comm; done | eapply eq_ind; [eassumption|apply Z.bits_inj'; intros i _; rewrite !Z.lxor_spec; btauto]]|]).
  lia.
Qed.

(** ** The product *)

Lemma nibble_multiple_xsum m H word :
  doubles m (nibble_multiple H (Z.land word 15))
  = xsum (fun i => if Z.testbit word (Z.of_nat i) then doubles (m + 3 - i) H else 0) 4.
Proof.
  assert (B : forall k, 0 <= k < 4 -> Z.testbit (Z.land word 15) k = Z.testbit word k).
  { intros k Hk. rewrite Z.land_spec. change 15 with (Z.ones 4). by rewrite Z.ones_spec_low, andb_true_r by lia. }
  unfold nibble_multiple. rewrite doubles_xsum. cbn [xsum]. rewrite !B, !doubles_if, <- !doubles_add by lia.
  change (3 - Z.of_nat 0) with 3. change (3 - Z.of_nat 1) with 2. change (3 - Z.of_nat 2) with 1. change (3 - Z.of_nat 3) with 0.
  change (Z.of_nat 0) with 0. change (Z.of_nat 1) with 1. change (Z.of_nat 2) with 2. change (Z.of_nat 3) with 3.
  replace (m + 3 - 0)%nat with (m + 3)%nat by lia. replace (m + 3 - 1)%nat with (m + 2)%nat by lia.
  replace (m + 3 - 2)%nat with (m + 1)%nat by lia. replace (m + 3 - 3)%nat with (m + 0)%nat by lia.
  apply Z.bits_inj'. intros i _. rewrite !Z.lxor_spec. btauto.
Qed.

Lemma mul_word_spec pt H n word z : (forall k, (k < 16)%nat -> entry (pt !!! k) (nibble_multiple H (Z.of_nat k))) -> fe_ok z ->
  entry (mul_word n pt word z)
    (Z.lxor (doubles (4 * n) (fe_val z)) (xsum (fun i => if Z.testbit word (Z.of_nat i) then doubles (4 * n - 1 - i) H else 0) (4 * n))).
Proof.
  intros Hpt. revert word z. induction n as [|n IH]; intros word z Hz.
  { split; [done|]. by rewrite Z.lxor_0_r. }
  cbn [mul_word]. pose proof (low_nibble word) as L.
  destruct (nibble_step_val pt z word Hz (fun k Hk => proj1 (Hpt k Hk))) as [O V].
  destruct (Hpt (Z.to_nat (Z.land word 15)) ltac:(lia)) as [_ T]. rewrite T, Z2Nat.id in V by lia.
  destruct (IH (shr64 word 4) _ O) as [O' V']. split; [done|]. rewrite V', V, doubles_lxor, <- doubles_add, nibble_multiple_xsum.
  replace (4 * S n)%nat with (4 + 4 * n)%nat by lia. rewrite xsum_split. replace (4 * n + 4)%nat with (4 + 4 * n)%nat by lia.
  rewrite <- Z.lxor_assoc. f_equal.
  - f_equal. apply xsum_ext. intros i Hi. destruct (Z.testbit word _); [|done]. f_equal. lia.
  - apply xsum_ext. intros i Hi. rewrite shr64_spec by lia. replace (Z.of_nat i + 4) with (Z.of_nat (4 + i)) by lia.
    destruct (Z.testbit word _); [|done]. f_equal. lia.
Qed.

Lemma xsum_reverse f n : xsum (fun i => f (n - 1 - i)%nat) n = xsum f n.
Proof.
  induction n as [|n IH]; [done|]. replace (xsum (fun i => f (S n - 1 - i)%nat) (S n))
    with (Z.lxor (f n) (xsum (fun i => f (n - 1 - i)%nat) n)).
  { rewrite IH. cbn [xsum]. apply Z.lxor_comm. }
  change (S n) with (1 + n)%nat. rewrite (xsum_split _ 1 n). cbn [xsum]. rewrite Z.lxor_0_l. f_equal; [f_equal; lia|].
  apply xsum_ext. intros i Hi. f_equal. lia.
Qed.

Lemma gcm_loop_spec n i X Z0 V : gcm_loop n i X Z0 V =
  Z.lxor Z0 (xsum (fun j => if Z.testbit X (127 - Z.of_nat (i + j)) then doubles j V else 0) n).
Proof.
  revert i Z0 V. induction n as [|n IH]; intros i Z0 V; cbn [gcm_loop]; [by rewrite Z.lxor_0_r|].
  rewrite IH. change (S n) with (1 + n)%nat. rewrite (xsum_split _ 1 n). cbn [xsum doubles]. rewrite Z.lxor_0_l, Nat.add_0_r.
  rewrite <- Z.lxor_assoc. f_equal; [by destruct (Z.testbit X _); rewrite ?Z.lxor_0_r|].
  apply xsum_ext. intros j Hj. replace (S i + j)%nat with (i + S j)%nat by lia. destruct (Z.testbit X _); [|done].
  change (gcm_double V) with (doubles 1 V). by rewrite <- doubles_add, Nat.add_1_r.
Qed.

(** The table-driven product is the standard's. *)
Lemma ghashMul_spec pt H y : (forall k, (k < 16)%nat -> entry (pt !!! k) (nibble_multiple H (Z.of_nat k))) -> fe_ok y ->
  entry (ghashMul pt y) (gcm_mul (fe_val y) H).
Proof.
  intros Hpt Hy. unfold ghashMul. destruct (mul_word_spec pt H 16 (fe_high y) fe_zero Hpt) as [O V].
  { split; unfold is_u64; cbn; lia. }
  destruct (mul_word_spec pt H 16 (fe_low y) _ Hpt O) as [O' V']. split; [done|]. rewrite V', V.
  unfold gcm_mul. rewrite gcm_loop_spec. change (4 * 16)%nat with 64%nat. change 128%nat with (64 + 64)%nat at 1.
  rewrite xsum_split. change (fe_val fe_zero) with 0.
  rewrite doubles_0, !Z.lxor_0_l, doubles_xsum, Z.lxor_comm. f_equal.
  - rewrite <- xsum_reverse. apply xsum_ext. intros i Hi. rewrite (fe_val_testbit y (127 - Z.of_nat (0 + i)) Hy ltac:(lia)).
    assert (127 - Z.of_nat (0 + i) <? 64 = false) as -> by (apply Z.ltb_ge; lia).
    replace (Z.of_nat (64 - 1 - i)) with (127 - Z.of_nat (0 + i) - 64) by lia.
    destruct (Z.testbit (fe_low y) _); [|done]. f_equal. lia.
  - rewrite <- xsum_reverse. apply xsum_ext. intros i Hi. rewrite (fe_val_testbit y (127 - Z.of_nat (0 + (64 + i))) Hy ltac:(lia)).
    assert (127 - Z.of_nat (0 + (64 + i)) <? 64 = true) as -> by (apply Z.ltb_lt; lia).
    replace (Z.of_nat (64 - 1 - i)) with (127 - Z.of_nat (0 + (64 + i))) by lia.
    destruct (Z.testbit (fe_high y) _); [|apply doubles_0]. rewrite <- doubles_add. f_equal. lia.
Qed.

(** ** The hash *)

Lemma be_get_app a b : be_get (a ++ b) = be_get a * 256 ^ Z.of_nat (length b) + be_get b.
Proof. unfold be_get. rewrite reverse_app, le_get_app, length_reverse. lia. Qed.

Lemma be_put_app n m w : 0 <= w < 256 ^ Z.of_nat (n + m) ->
  be_put (n + m) w = be_put n (w / 256 ^ Z.of_nat m) ++ be_put m (w mod 256 ^ Z.of_nat m).
Proof.
  intros Hw. assert (0 < 256 ^ Z.of_nat m) by (apply Z.pow_pos_nonneg; lia).
  rewrite Nat2Z.inj_add, Z.pow_add_r in Hw by lia.
  rewrite <- (be_put_get (n + m) (be_put n (w / 256 ^ Z.of_nat m) ++ be_put m (w mod 256 ^ Z.of_nat m))).
  - f_equal. rewrite be_get_app, length_be_put, !be_get_put.
    + rewrite Z.mul_comm. apply Z.div_mod. lia.
    + apply Z.mod_pos_bound. lia.
    + split; [apply Z.div_pos; lia|]. apply Z.div_lt_upper_bound; lia.
  - by rewrite length_app, !length_be_put.
  - apply Forall_app; split; apply be_put_bytes.
Qed.

Lemma fe_val_add_form x : fe_ok x -> fe_val x = fe_low x * 2 ^ 64 + fe_high x.
Proof.
  intros [L H]. unfold fe_val. rewrite <- Z.shiftl_mul_pow2 by lia. symmetry. apply Z.add_nocarry_lxor.
  apply Z.bits_inj'. intros i Hi. rewrite Z.land_spec, Z.shiftl_spec, Z.bits_0 by lia.
  destruct (Z.ltb_spec i 64); [by rewrite Z.testbit_neg_r by lia|].
  by rewrite (testbit_high 64 (fe_high x)), andb_false_r by (done || lia).
Qed.

(** Two big-endian words as a field element. *)
Lemma entry_of_bytes s : length s = 16%nat -> is_bytes s -> entry (mkFe (be_get (slice s 0 8)) (be_get (slice s 8 16))) (be_get s).
Proof.
  intros L B. assert (O : fe_ok (mkFe (be_get (slice s 0 8)) (be_get (slice s 8 16)))).
  { split; cbn [fe_low fe_high]; apply be_get8_u64; (apply slice_forall; done) || (rewrite length_slice; lia). }
  split; [done|]. rewrite fe_val_add_form by done. cbn [fe_low fe_high].
  rewrite <- (list_eq_from_slices s 8) at 3. rewrite be_get_app, length_drop, L.
  assert (drop 8 s = slice s 8 16) as -> by (unfold slice; rewrite take_ge; [done|rewrite length_drop; lia]). done.
Qed.

(** Absorbing the blocks of a string, whatever absorbs a block ([f] on integers, [absorbs] on elements). *)
Section Absorb.
Context {A : Type} (absorbs : A -> bytes -> A) (f : Z -> Z -> Z) (R : A -> Z -> Prop).
Hypothesis step : forall y v block, R y v -> length block = 16%nat -> is_bytes block -> R (absorbs y block) (f v (be_get block)).

Lemma full_blocks_spec n y v data : R y v -> (16 * n <= length data)%nat -> is_bytes data ->
  let '(y', rest) := full_blocks absorbs n y data in
  R y' (fold_left f (blocks_of n data) v) /\ rest = drop (16 * n) data.
Proof.
  revert y v data. induction n as [|n IH]; intros y v data Ey L B; [by split|]. cbn [full_blocks blocks_of fold_left].
  specialize (IH (absorbs y (take 16 data)) (f v (be_get (take 16 data))) (drop 16 data)).
  destruct (full_blocks _ n _ _) as [y' rest]. destruct IH as [E ->].
  - apply step; [done|rewrite length_take; lia|by apply Forall_take].
  - rewrite length_drop. lia.
  - by apply Forall_drop.
  - split; [done|]. rewrite drop_drop. f_equal. lia.
Qed.

Lemma blocks_of_app n m a b : length a = (16 * n)%nat -> blocks_of (n + m) (a ++ b) = blocks_of n a ++ blocks_of m b.
Proof.
  revert a. induction n as [|n IH]; intros a L; [by destruct a|]. cbn [Nat.add blocks_of app].
  rewrite take_app_le, drop_app_le by lia. f_equal. apply IH. rewrite length_drop. lia.
Qed.

(** The number of blocks of a padded string. *)
Definition block_count (s : bytes) : nat := length (pad16 s) / 16.

Lemma length_pad16 s : length (pad16 s) = (16 * block_count s)%nat.
Proof.
  unfold block_count, pad16. rewrite length_app. unfold zeros. rewrite length_replicate.
  pose proof (Nat.div_mod_eq (length s) 16). pose proof (Nat.mod_upper_bound (length s) 16 ltac:(lia)).
  destruct (decide (length s mod 16 = 0)%nat) as [E|E].
  - rewrite E. change ((16 - 0) mod 16)%nat with 0%nat. rewrite Nat.add_0_r. by apply Nat.Div0.div_exact.
  - rewrite (Nat.mod_small (16 - _)) by lia. apply Nat.Div0.div_exact.
    replace (length s + (16 - length s mod 16))%nat with ((length s / 16 + 1) * 16)%nat by lia. apply Nat.Div0.mod_mul.
Qed.

Lemma pad16_bytes s : is_bytes s -> is_bytes (pad16 s).
Proof. intros B. apply Forall_app; split; [done|apply zeros_bytes]. Qed.

(** A string absorbed block by block, its last block padded. *)
Definition absorb_string (y : A) (data : bytes) : A :=
  let '(y, rest) := full_blocks absorbs (length data / 16) y data in
  if (0 <? length rest)%nat then absorbs y (pad_to 16 rest) else y.

Lemma absorb_string_spec y v data : R y v -> is_bytes data ->
  R (absorb_string y data) (fold_left f (blocks_of (block_count data) (pad16 data)) v).
Proof.
  intros Ey B. unfold absorb_string. pose proof (Nat.div_mod_eq (length data) 16) as D.
  pose proof (Nat.mod_upper_bound (length data) 16 ltac:(lia)) as M. set (n := (length data / 16)%nat) in *.
  pose proof (full_blocks_spec n y v data Ey ltac:(lia) B) as F. destruct (full_blocks absorbs n y data) as [y' rest].
  destruct F as [E ->]. pose proof (length_pad16 data) as P. unfold pad16 in *. rewrite length_app in P. unfold zeros in *.
  rewrite length_replicate in P. rewrite length_drop. set (r := (length data mod 16)%nat) in *.
  assert (T : data = take (16 * n) data ++ drop (16 * n) data) by (symmetry; apply take_drop).
  destruct (Nat.ltb_spec 0 (length data - 16 * n)).
  - rewrite (Nat.mod_small (16 - r)) in P |- * by lia. assert (block_count data = n + 1)%nat as -> by lia.
    rewrite T at 2. rewrite <- app_assoc, blocks_of_app by (rewrite length_take; lia). cbn [blocks_of]. rewrite fold_left_app. cbn [fold_left].
    assert (blocks_of n (take (16 * n) data) = blocks_of n data) as ->.
    { rewrite T at 2. rewrite <- (Nat.add_0_r n) at 3. rewrite (blocks_of_app n 0) by (rewrite length_take; lia). by rewrite app_nil_r. }
    assert (pad_to 16 (drop (16 * n) data) = take 16 (drop (16 * n) data ++ replicate (16 - r) 0)) as <-.
    { unfold pad_to, zeros. rewrite length_drop, !take_ge by (rewrite ?length_app, ?length_drop, ?length_replicate; lia). repeat f_equal. lia. }
    apply step; [done| |].
    + unfold pad_to, zeros. rewrite length_app, length_take, length_replicate, length_drop. lia.
    + apply Forall_app; split; [by apply Forall_take, Forall_drop|apply zeros_bytes].
  - assert (r = 0)%nat as -> by lia. change ((16 - 0) mod 16)%nat with 0%nat in *. rewrite app_nil_r.
    assert (block_count data = n) as -> by lia. done.
Qed.

Lemma absorb_strings_spec y v data : R y v -> Forall is_bytes data ->
  let whole := concat (map pad16 data) in
  R (fold_left absorb_string data y) (fold_left f (blocks_of (length whole / 16) whole) v) /\ (length whole mod 16 = 0)%nat.
Proof.
  revert y v. induction data as [|s data IH]; intros y v Ey B; [by split|]. inversion_clear B as [|? ? Bs Bd].
  cbn [map concat fold_left]. pose proof (length_pad16 s) as P. rewrite length_app, P.
  destruct (IH _ _ (absorb_string_spec y v s Ey Bs) Bd) as [E M]. set (w := concat (map pad16 data)) in *.
  rewrite (Nat.mul_comm 16), Nat.div_add_l by lia.
  split; [|by rewrite Nat.add_comm, Nat.Div0.mod_add]. by rewrite blocks_of_app, fold_left_app by lia.
Qed.
End Absorb.

#[local] Opaque ghashMul gcm_mul.

Section Hash.
Context (pt : list gcmFieldElement) (H : Z).
Hypothesis Hpt : forall k, (k < 16)%nat -> entry (pt !!! k) (nibble_multiple H (Z.of_nat k)).

Lemma ghash_block_add y block x : x = mkFe (be_get (slice block 0 8)) (be_get (slice block 8 16)) ->
  ghash_block pt y block = ghashMul pt (ghashAdd y x).
Proof. by intros ->. Qed.

Lemma ghash_block_spec y v block : entry y v -> length block = 16%nat -> is_bytes block ->
  entry (ghash_block pt y block) (absorb H v (be_get block)).
Proof.
  intros Ey L B. set (x := mkFe (be_get (slice block 0 8)) (be_get (slice block 8 16))).
  pose proof (entry_add _ _ _ _ Ey (entry_of_bytes block L B)) as [O E]. fold x in O, E.
  rewrite (ghash_block_add y block x eq_refl). unfold absorb. rewrite <- E. apply (ghashMul_spec pt H _ Hpt O).
Qed.

End Hash.

(** GHASH as TEE_T computes it is the standard's GHASH of its inputs, each padded to whole blocks. *)
Lemma ghash_is_standard key data : length key = 16%nat -> is_bytes key -> Forall is_bytes data ->
  ghash key data = be_put 16 (GHASH (be_get key) (concat (map pad16 data))).
Proof.
  intros L B Bd. destruct (entry_of_bytes key L B) as [O V].
  assert (Hpt := fun k => product_table_spec _ k O). rewrite V in Hpt.
  destruct (absorb_strings_spec _ _ _ (ghash_block_spec _ _ Hpt) fe_zero 0 data) as [[Oy Vy] _]; [split; [split; unfold is_u64; cbn; lia|done]|done|].
  change (absorb_string (ghash_block ?pt)) with (ghashUpdate pt) in *.
  unfold ghash, GHASH. rewrite <- Vy. pose proof (fe_val_bound _ Oy) as Bv.
  rewrite (be_put_app 8 8) by done. rewrite fe_val_add_form by done. destruct Oy as [Ol Oh]. unfold is_u64 in *.
  change (256 ^ Z.of_nat 8) with (2 ^ 64). f_equal; f_equal; [|symmetry].
  - symmetry. rewrite Z.div_add_l by lia. rewrite Z.div_small by lia. lia.
  - rewrite Z.add_comm, Z_mod_plus_full. apply Z.mod_small. lia.
Qed.
