(* ===== verification/Crypto.v ===== *)
(** * The cryptographic primitives the sources call

    The components only use two facts about [crypto/aes] and [crypto/sha256]:
    their interface (a 16-byte block in, a 16-byte block out; any string in, a
    32-byte digest out).  That interface is a type class, so that the theorems
    about the protocol hold whatever the primitive computes; the instances at
    the end of the file are executable AES (FIPS 197) and SHA-256 (FIPS 180-4),
    checked against published test vectors. *)

From S2P Require Import Prelude Bytes.

(** [crypto/aes]: [aes_encrypt key block] is [cipher.Block.Encrypt]. *)
Class BlockCipher := {
  aes_encrypt : bytes -> bytes -> bytes;
  aes_encrypt_length : forall key block, length (aes_encrypt key block) = 16%nat;
  aes_encrypt_bytes : forall key block, is_bytes (aes_encrypt key block);
}.

(** [aes.NewCipher] accepts 16, 24 and 32-byte keys. *)
Definition aes_NewCipher (key : bytes) : res bytes :=
  if (bool_decide (length key = 16%nat) || bool_decide (length key = 24%nat)
      || bool_decide (length key = 32%nat))
  then Ok key else Err "crypto/aes: invalid key size".

(** [crypto/sha256]: [sha256 data] is [sha256.Sum256]. *)
Class Sha256 := {
  sha256 : bytes -> bytes;
  sha256_length : forall m, length (sha256 m) = 32%nat;
  sha256_bytes : forall m, is_bytes (sha256 m);
}.

Lemma aes_NewCipher_16 key : length key = 16%nat -> aes_NewCipher key = Ok key.
Proof. intros H. unfold aes_NewCipher. by rewrite bool_decide_eq_true_2. Qed.

#[export] Hint Resolve aes_encrypt_bytes sha256_bytes : word.

(** ** AES *)
Module Aes.

Definition sbox : list Z := [
    99; 124; 119; 123; 242; 107; 111; 197; 48; 1; 103; 43; 254; 215; 171;
    118; 202; 130; 201; 125; 250; 89; 71; 240; 173; 212; 162; 175; 156; 164;
    114; 192; 183; 253; 147; 38; 54; 63; 247; 204; 52; 165; 229; 241; 113;
    216; 49; 21; 4; 199; 35; 195; 24; 150; 5; 154; 7; 18; 128; 226; 235; 39;
    178; 117; 9; 131; 44; 26; 27; 110; 90; 160; 82; 59; 214; 179; 41; 227;
    47; 132; 83; 209; 0; 237; 32; 252; 177; 91; 106; 203; 190; 57; 74; 76;
    88; 207; 208; 239; 170; 251; 67; 77; 51; 133; 69; 249; 2; 127; 80; 60;
    159; 168; 81; 163; 64; 143; 146; 157; 56; 245; 188; 182; 218; 33; 16;
    255; 243; 210; 205; 12; 19; 236; 95; 151; 68; 23; 196; 167; 126; 61;
    100; 93; 25; 115; 96; 129; 79; 220; 34; 42; 144; 136; 70; 238; 184; 20;
    222; 94; 11; 219; 224; 50; 58; 10; 73; 6; 36; 92; 194; 211; 172; 98;
    145; 149; 228; 121; 231; 200; 55; 109; 141; 213; 78; 169; 108; 86; 244;
    234; 101; 122; 174; 8; 186; 120; 37; 46; 28; 166; 180; 198; 232; 221;
    116; 31; 75; 189; 139; 138; 112; 62; 181; 102; 72; 3; 246; 14; 97; 53;
    87; 185; 134; 193; 29; 158; 225; 248; 152; 17; 105; 217; 142; 148; 155;
    30; 135; 233; 206; 85; 40; 223; 140; 161; 137; 13; 191; 230; 66; 104;
    65; 153; 45; 15; 176; 84; 187; 22].

Definition sub (b : Z) : Z := nth (Z.to_nat b) sbox 0.

Definition xtime (b : Z) : Z :=
  let d := Z.shiftl b 1 in
  if Z.testbit b 7 then Z.lxor (Z.land d 255) 27 else Z.land d 255.

(** Key expansion: [w] holds the words produced so far, most recent first. *)
Fixpoint expand (nk i n : nat) (rcon : Z) (w : list bytes) : list bytes :=
  match n with
  | O => reverse w
  | S n =>
      let prev := nth 0 w [] in
      let back := nth (nk - 1) w [] in
      let rot := drop 1 prev ++ take 1 prev in
      let '(temp, rcon') :=
        if (i mod nk =? 0)%nat then
          (xor_bytes (map sub rot) [rcon; 0; 0; 0], xtime rcon)
        else if (6 <? nk)%nat && (i mod nk =? 4)%nat then (map sub prev, rcon)
        else (prev, rcon) in
      expand nk (S i) n rcon' (xor_bytes back temp :: w)
  end.

Definition key_words (key : bytes) : list bytes :=
  let nk := (length key / 4)%nat in
  expand nk nk (4 * (nk + 7) - nk) 1
    (reverse (map (fun i => slice key (4 * i) (4 * i + 4)) (seq 0 nk))).

Definition round_key (ws : list bytes) (r : nat) : bytes :=
  map (fun i => u8 (nth (i mod 4) (nth (4 * r + i / 4) ws []) 0)) (seq 0 16).

Definition sub_shift (st : bytes) : bytes :=
  map (fun i => sub (nth ((i + 4 * (i mod 4)) mod 16) st 0)) (seq 0 16).

Definition mix_column (c : bytes) : bytes :=
  let a i := nth (i mod 4) c 0 in
  map (fun i => Z.lxor (Z.lxor (xtime (a i)) (Z.lxor (xtime (a (i + 1)%nat)) (a (i + 1)%nat)))
                       (Z.lxor (a (i + 2)%nat) (a (i + 3)%nat))) (seq 0 4).

Definition mix_columns (st : bytes) : bytes :=
  concat (map (fun c => mix_column (slice st (4 * c) (4 * c + 4))) (seq 0 4)).

Definition encrypt (key block : bytes) : bytes :=
  let ws := key_words key in
  let nr := (length key / 4 + 6)%nat in
  let st := fold_left (fun st r => xor_bytes (mix_columns (sub_shift st)) (round_key ws r))
              (seq 1 (nr - 1)) (xor_bytes block (round_key ws 0)) in
  xor_bytes (sub_shift st) (round_key ws nr).

Lemma sub_byte b : is_byte (sub b).
Proof.
  unfold sub. destruct (nth_in_or_default (Z.to_nat b) sbox 0) as [H| ->]; [|done].
  assert (Hall : Forall is_byte sbox) by (apply (bool_decide_unpack _); by vm_compute).
  rewrite Forall_forall in Hall. apply Hall. by apply list_elem_of_In.
Qed.

Lemma encrypt_length key block : length (encrypt key block) = 16%nat.
Proof. unfold encrypt. by rewrite length_xor_bytes. Qed.

Lemma encrypt_bytes key block : is_bytes (encrypt key block).
Proof.
  unfold encrypt. apply xor_bytes_bytes; apply Forall_map, Forall_forall; intros i _; simpl.
  - apply sub_byte.
  - unfold is_byte, u8. apply Z.mod_pos_bound. lia.
Qed.

End Aes.

#[export] Instance aes_cipher : BlockCipher := {|
  aes_encrypt := Aes.encrypt;
  aes_encrypt_length := Aes.encrypt_length;
  aes_encrypt_bytes := Aes.encrypt_bytes
|}.

(** FIPS 197, appendix C.1. *)
Example aes128_vector :
  Aes.encrypt (seqZ 0 16) (map (Z.mul 17) (seqZ 0 16)) =
  [105; 196; 224; 216; 106; 123; 4; 48; 216; 205; 183; 128; 112; 180; 197; 90].
Proof. vm_compute. reflexivity. Qed.

(** ** SHA-256 *)
Module Sha.

Definition K : list Z := [
    1116352408; 1899447441; 3049323471; 3921009573; 961987163; 1508970993;
    2453635748; 2870763221; 3624381080; 310598401; 607225278; 1426881987;
    1925078388; 2162078206; 2614888103; 3248222580; 3835390401; 4022224774;
    264347078; 604807628; 770255983; 1249150122; 1555081692; 1996064986;
    2554220882; 2821834349; 2952996808; 3210313671; 3336571891; 3584528711;
    113926993; 338241895; 666307205; 773529912; 1294757372; 1396182291;
    1695183700; 1986661051; 2177026350; 2456956037; 2730485921; 2820302411;
    3259730800; 3345764771; 3516065817; 3600352804; 4094571909; 275423344;
    430227734; 506948616; 659060556; 883997877; 958139571; 1322822218;
    1537002063; 1747873779; 1955562222; 2024104815; 2227730452; 2361852424;
    2428436474; 2756734187; 3204031479; 3329325298].

Definition H0 : list Z := [
    1779033703; 3144134277; 1013904242; 2773480762; 1359893119; 2600822924;
    528734635; 1541459225].

Definition rotr (x n : Z) : Z := u32 (Z.lor (Z.shiftr x n) (Z.shiftl x (32 - n))).
Definition xor3 (a b c : Z) : Z := Z.lxor a (Z.lxor b c).

(** Message schedule, most recent word first. *)
Fixpoint schedule (n : nat) (w : list Z) : list Z :=
  match n with
  | O => reverse w
  | S n =>
      let w2 := nth 1 w 0 in
      let w15 := nth 14 w 0 in
      let s0 := xor3 (rotr w15 7) (rotr w15 18) (Z.shiftr w15 3) in
      let s1 := xor3 (rotr w2 17) (rotr w2 19) (Z.shiftr w2 10) in
      schedule n (u32 (nth 15 w 0 + s0 + nth 6 w 0 + s1) :: w)
  end.

Definition round (st : list Z) (kw : Z * Z) : list Z :=
  match st with
  | [a; b; c; d; e; f; g; h] =>
      let s1 := xor3 (rotr e 6) (rotr e 11) (rotr e 25) in
      let ch := Z.lxor (Z.land e f) (Z.land (Z.lxor e (2 ^ 32 - 1)) g) in
      let t1 := u32 (h + s1 + ch + fst kw + snd kw) in
      let s0 := xor3 (rotr a 2) (rotr a 13) (rotr a 22) in
      let maj := xor3 (Z.land a b) (Z.land a c) (Z.land b c) in
      [u32 (t1 + s0 + maj); a; b; c; u32 (d + t1); e; f; g]
  | _ => st
  end.

Definition words (block : bytes) : list Z :=
  map (fun i => be_get (slice block (4 * i) (4 * i + 4))) (seq 0 16).

Definition compress (h : list Z) (block : bytes) : list Z :=
  let w := schedule 48 (reverse (words block)) in
  zip_with (fun x y => u32 (x + y)) h (fold_left round (zip K w) h).

Definition pad (m : bytes) : bytes :=
  let n := Z.of_nat (length m) in
  m ++ [128] ++ zeros (Z.to_nat ((- (n + 9)) mod 64)) ++ be_put 8 (u64 (8 * n)).

Definition digest (m : bytes) : bytes :=
  let p := pad m in
  let h := fold_left (fun h i => compress h (slice p (64 * i) (64 * i + 64)))
             (seq 0 (length p / 64)) H0 in
  concat (map (fun i => be_put 4 (nth i h 0)) (seq 0 8)).

Lemma digest_length m : length (digest m) = 32%nat.
Proof. unfold digest. cbn [map seq concat]. by rewrite !length_app, !length_be_put. Qed.

Lemma digest_bytes m : is_bytes (digest m).
Proof.
  unfold digest. apply Forall_concat, Forall_map, Forall_forall. intros i _. simpl.
  auto with word.
Qed.

End Sha.

#[export] Instance sha_256 : Sha256 := {|
  sha256 := Sha.digest;
  sha256_length := Sha.digest_length;
  sha256_bytes := Sha.digest_bytes
|}.

(** FIPS 180-4: SHA-256 of "abc". *)
Example sha256_vector :
  Sha.digest [97; 98; 99] =
  [186; 120; 22; 191; 143; 1; 207; 234; 65; 65; 64; 222; 93; 174; 34; 35;
   176; 3; 97; 163; 150; 23; 122; 156; 180; 16; 255; 97; 242; 0; 21; 173].
Proof. vm_compute. reflexivity. Qed.

(** ** A degenerate primitive

    The theorems that take a primitive as a parameter are instantiated with the
    constant cipher and the constant digest where a concrete run is shown. *)

Definition const_cipher : BlockCipher.
Proof.
  refine {| aes_encrypt _ _ := zeros 16 |}; intros _ _; [apply length_replicate|apply zeros_bytes].
Defined.

Definition const_sha : Sha256.
Proof.
  refine {| sha256 _ := zeros 32 |}; intros _; [apply length_replicate|apply zeros_bytes].
Defined.
