(* ===== verification/CipherSuite.v ===== *)
(** * Cipher suites ([minitls/types.go])

    The suites of the TLS stack, their parameters and the predicates the
    services branch on. *)

From S2P Require Import Prelude.

Definition TLS_RSA_WITH_AES_128_CBC_SHA : Z := 0x002f.
Definition TLS_RSA_WITH_AES_256_CBC_SHA : Z := 0x0035.
Definition TLS_RSA_WITH_AES_128_CBC_SHA256 : Z := 0x003c.
Definition TLS_RSA_WITH_AES_256_CBC_SHA256 : Z := 0x003d.
Definition TLS_ECDHE_ECDSA_WITH_AES_128_CBC_SHA : Z := 0xc009.
Definition TLS_ECDHE_ECDSA_WITH_AES_256_CBC_SHA : Z := 0xc00a.
Definition TLS_ECDHE_RSA_WITH_AES_128_CBC_SHA : Z := 0xc013.
Definition TLS_ECDHE_RSA_WITH_AES_256_CBC_SHA : Z := 0xc014.
Definition TLS_ECDHE_ECDSA_WITH_AES_128_CBC_SHA256 : Z := 0xc023.
Definition TLS_ECDHE_ECDSA_WITH_AES_256_CBC_SHA384 : Z := 0xc024.
Definition TLS_ECDHE_RSA_WITH_AES_128_CBC_SHA256 : Z := 0xc027.
Definition TLS_ECDHE_RSA_WITH_AES_256_CBC_SHA384 : Z := 0xc028.
Definition TLS_AES_128_GCM_SHA256 : Z := 0x1301.
Definition TLS_AES_256_GCM_SHA384 : Z := 0x1302.
Definition TLS_CHACHA20_POLY1305_SHA256 : Z := 0x1303.
Definition TLS_RSA_WITH_AES_128_GCM_SHA256 : Z := 0x009c.
Definition TLS_RSA_WITH_AES_256_GCM_SHA384 : Z := 0x009d.
Definition TLS_ECDHE_RSA_WITH_AES_128_GCM_SHA256 : Z := 0xc02f.
Definition TLS_ECDHE_ECDSA_WITH_AES_128_GCM_SHA256 : Z := 0xc02b.
Definition TLS_ECDHE_RSA_WITH_AES_256_GCM_SHA384 : Z := 0xc030.
Definition TLS_ECDHE_ECDSA_WITH_AES_256_GCM_SHA384 : Z := 0xc02c.
Definition TLS_ECDHE_RSA_WITH_CHACHA20_POLY1305_SHA256 : Z := 0xcca8.
Definition TLS_ECDHE_ECDSA_WITH_CHACHA20_POLY1305_SHA256 : Z := 0xcca9.

Inductive TLS12KeyExchange := TLS12KeyExchangeUnknown | TLS12KeyExchangeECDHE | TLS12KeyExchangeRSA.
Inductive TLS12Authentication := TLS12AuthenticationUnknown | TLS12AuthenticationRSA | TLS12AuthenticationECDSA.

Record CipherSuiteInfo := mkSuite {
  ci_ID : Z;
  ci_Name : string;
  ci_KeySize : nat;
  ci_BlockSize : nat;
  ci_IVSize : nat;
  ci_TagSize : nat;
  ci_HashFunc : string;
  ci_IsTLS13 : bool;
  ci_IsCBC : bool;
  ci_MACSize : nat;
  ci_MACHash : string;
  ci_KeyExchange : TLS12KeyExchange;
  ci_Authentication : TLS12Authentication;
}.

Definition tls12CBCSuiteInfo (id : Z) (name : string) (keySize macSize : nat) (macHash : string) (kx : TLS12KeyExchange)
    (auth : TLS12Authentication) : CipherSuiteInfo :=
  let prfHash := if String.eqb macHash "SHA384" then "SHA384"%string else "SHA256"%string in
  mkSuite id name keySize 16 16 macSize prfHash false true macSize macHash kx auth.

Definition GetCipherSuiteInfo (cipherSuite : Z) : option CipherSuiteInfo :=
  if cipherSuite =? TLS_AES_128_GCM_SHA256 then Some (mkSuite TLS_AES_128_GCM_SHA256 "TLS_AES_128_GCM_SHA256" 16 16 12 16 "SHA256" true false 0 "" TLS12KeyExchangeUnknown TLS12AuthenticationUnknown) else
  if cipherSuite =? TLS_AES_256_GCM_SHA384 then Some (mkSuite TLS_AES_256_GCM_SHA384 "TLS_AES_256_GCM_SHA384" 32 16 12 16 "SHA384" true false 0 "" TLS12KeyExchangeUnknown TLS12AuthenticationUnknown) else
  if cipherSuite =? TLS_CHACHA20_POLY1305_SHA256 then Some (mkSuite TLS_CHACHA20_POLY1305_SHA256 "TLS_CHACHA20_POLY1305_SHA256" 32 64 12 16 "SHA256" true false 0 "" TLS12KeyExchangeUnknown TLS12AuthenticationUnknown) else
  if cipherSuite =? TLS_RSA_WITH_AES_128_GCM_SHA256 then Some (mkSuite TLS_RSA_WITH_AES_128_GCM_SHA256 "TLS_RSA_WITH_AES_128_GCM_SHA256" 16 16 12 16 "SHA256" false false 0 "" TLS12KeyExchangeRSA TLS12AuthenticationRSA) else
  if cipherSuite =? TLS_RSA_WITH_AES_256_GCM_SHA384 then Some (mkSuite TLS_RSA_WITH_AES_256_GCM_SHA384 "TLS_RSA_WITH_AES_256_GCM_SHA384" 32 16 12 16 "SHA384" false false 0 "" TLS12KeyExchangeRSA TLS12AuthenticationRSA) else
  if cipherSuite =? TLS_ECDHE_RSA_WITH_AES_128_GCM_SHA256 then Some (mkSuite TLS_ECDHE_RSA_WITH_AES_128_GCM_SHA256 "TLS_ECDHE_RSA_WITH_AES_128_GCM_SHA256" 16 16 12 16 "SHA256" false false 0 "" TLS12KeyExchangeECDHE TLS12AuthenticationRSA) else
  if cipherSuite =? TLS_ECDHE_ECDSA_WITH_AES_128_GCM_SHA256 then Some (mkSuite TLS_ECDHE_ECDSA_WITH_AES_128_GCM_SHA256 "TLS_ECDHE_ECDSA_WITH_AES_128_GCM_SHA256" 16 16 12 16 "SHA256" false false 0 "" TLS12KeyExchangeECDHE TLS12AuthenticationECDSA) else
  if cipherSuite =? TLS_ECDHE_RSA_WITH_AES_256_GCM_SHA384 then Some (mkSuite TLS_ECDHE_RSA_WITH_AES_256_GCM_SHA384 "TLS_ECDHE_RSA_WITH_AES_256_GCM_SHA384" 32 16 12 16 "SHA384" false false 0 "" TLS12KeyExchangeECDHE TLS12AuthenticationRSA) else
  if cipherSuite =? TLS_ECDHE_ECDSA_WITH_AES_256_GCM_SHA384 then Some (mkSuite TLS_ECDHE_ECDSA_WITH_AES_256_GCM_SHA384 "TLS_ECDHE_ECDSA_WITH_AES_256_GCM_SHA384" 32 16 12 16 "SHA384" false false 0 "" TLS12KeyExchangeECDHE TLS12AuthenticationECDSA) else
  if cipherSuite =? TLS_ECDHE_RSA_WITH_CHACHA20_POLY1305_SHA256 then Some (mkSuite TLS_ECDHE_RSA_WITH_CHACHA20_POLY1305_SHA256 "TLS_ECDHE_RSA_WITH_CHACHA20_POLY1305_SHA256" 32 64 12 16 "SHA256" false false 0 "" TLS12KeyExchangeECDHE TLS12AuthenticationRSA) else
  if cipherSuite =? TLS_ECDHE_ECDSA_WITH_CHACHA20_POLY1305_SHA256 then Some (mkSuite TLS_ECDHE_ECDSA_WITH_CHACHA20_POLY1305_SHA256 "TLS_ECDHE_ECDSA_WITH_CHACHA20_POLY1305_SHA256" 32 64 12 16 "SHA256" false false 0 "" TLS12KeyExchangeECDHE TLS12AuthenticationECDSA) else
  if cipherSuite =? TLS_ECDHE_ECDSA_WITH_AES_128_CBC_SHA then Some (tls12CBCSuiteInfo cipherSuite "TLS_ECDHE_ECDSA_WITH_AES_128_CBC_SHA" 16 20 "SHA1" TLS12KeyExchangeECDHE TLS12AuthenticationECDSA) else
  if cipherSuite =? TLS_ECDHE_RSA_WITH_AES_128_CBC_SHA then Some (tls12CBCSuiteInfo cipherSuite "TLS_ECDHE_RSA_WITH_AES_128_CBC_SHA" 16 20 "SHA1" TLS12KeyExchangeECDHE TLS12AuthenticationRSA) else
  if cipherSuite =? TLS_ECDHE_ECDSA_WITH_AES_256_CBC_SHA then Some (tls12CBCSuiteInfo cipherSuite "TLS_ECDHE_ECDSA_WITH_AES_256_CBC_SHA" 32 20 "SHA1" TLS12KeyExchangeECDHE TLS12AuthenticationECDSA) else
  if cipherSuite =? TLS_ECDHE_RSA_WITH_AES_256_CBC_SHA then Some (tls12CBCSuiteInfo cipherSuite "TLS_ECDHE_RSA_WITH_AES_256_CBC_SHA" 32 20 "SHA1" TLS12KeyExchangeECDHE TLS12AuthenticationRSA) else
  if cipherSuite =? TLS_ECDHE_ECDSA_WITH_AES_128_CBC_SHA256 then Some (tls12CBCSuiteInfo cipherSuite "TLS_ECDHE_ECDSA_WITH_AES_128_CBC_SHA256" 16 32 "SHA256" TLS12KeyExchangeECDHE TLS12AuthenticationECDSA) else
  if cipherSuite =? TLS_ECDHE_RSA_WITH_AES_128_CBC_SHA256 then Some (tls12CBCSuiteInfo cipherSuite "TLS_ECDHE_RSA_WITH_AES_128_CBC_SHA256" 16 32 "SHA256" TLS12KeyExchangeECDHE TLS12AuthenticationRSA) else
  if cipherSuite =? TLS_ECDHE_ECDSA_WITH_AES_256_CBC_SHA384 then Some (tls12CBCSuiteInfo cipherSuite "TLS_ECDHE_ECDSA_WITH_AES_256_CBC_SHA384" 32 48 "SHA384" TLS12KeyExchangeECDHE TLS12AuthenticationECDSA) else
  if cipherSuite =? TLS_ECDHE_RSA_WITH_AES_256_CBC_SHA384 then Some (tls12CBCSuiteInfo cipherSuite "TLS_ECDHE_RSA_WITH_AES_256_CBC_SHA384" 32 48 "SHA384" TLS12KeyExchangeECDHE TLS12AuthenticationRSA) else
  if cipherSuite =? TLS_RSA_WITH_AES_128_CBC_SHA then Some (tls12CBCSuiteInfo cipherSuite "TLS_RSA_WITH_AES_128_CBC_SHA" 16 20 "SHA1" TLS12KeyExchangeRSA TLS12AuthenticationRSA) else
  if cipherSuite =? TLS_RSA_WITH_AES_256_CBC_SHA then Some (tls12CBCSuiteInfo cipherSuite "TLS_RSA_WITH_AES_256_CBC_SHA" 32 20 "SHA1" TLS12KeyExchangeRSA TLS12AuthenticationRSA) else
  if cipherSuite =? TLS_RSA_WITH_AES_128_CBC_SHA256 then Some (tls12CBCSuiteInfo cipherSuite "TLS_RSA_WITH_AES_128_CBC_SHA256" 16 32 "SHA256" TLS12KeyExchangeRSA TLS12AuthenticationRSA) else
  if cipherSuite =? TLS_RSA_WITH_AES_256_CBC_SHA256 then Some (tls12CBCSuiteInfo cipherSuite "TLS_RSA_WITH_AES_256_CBC_SHA256" 32 32 "SHA256" TLS12KeyExchangeRSA TLS12AuthenticationRSA) else
  None.

Definition IsChaCha20 (cipherSuite : Z) : bool :=
  match GetCipherSuiteInfo cipherSuite with Some info => (ci_BlockSize info =? 64)%nat | None => false end.

Definition IsAESGCM (cipherSuite : Z) : bool :=
  match GetCipherSuiteInfo cipherSuite with Some info => negb (ci_IsCBC info) && (ci_BlockSize info =? 16)%nat | None => false end.

Definition IsTLS12CBCCipherSuite (cipherSuite : Z) : bool :=
  match GetCipherSuiteInfo cipherSuite with Some info => negb (ci_IsTLS13 info) && ci_IsCBC info | None => false end.

Definition IsTLS12CipherSuite (cipherSuite : Z) : bool :=
  match GetCipherSuiteInfo cipherSuite with Some info => negb (ci_IsTLS13 info) | None => false end.

Definition IsTLS13CipherSuite (cipherSuite : Z) : bool :=
  match GetCipherSuiteInfo cipherSuite with Some info => ci_IsTLS13 info | None => false end.

Definition IsTLS12AESGCMCipherSuite (cipherSuite : Z) : bool := IsTLS12CipherSuite cipherSuite && IsAESGCM cipherSuite.

Definition IsTLS12ChaCha20Poly1305CipherSuite (cipherSuite : Z) : bool := IsTLS12CipherSuite cipherSuite && IsChaCha20 cipherSuite.

(** The [case] labels the record layer switches on. *)
Definition aes_gcm_suites : list Z := [
  TLS_AES_128_GCM_SHA256; TLS_AES_256_GCM_SHA384;
  TLS_RSA_WITH_AES_128_GCM_SHA256; TLS_RSA_WITH_AES_256_GCM_SHA384;
  TLS_ECDHE_RSA_WITH_AES_128_GCM_SHA256; TLS_ECDHE_ECDSA_WITH_AES_128_GCM_SHA256;
  TLS_ECDHE_RSA_WITH_AES_256_GCM_SHA384; TLS_ECDHE_ECDSA_WITH_AES_256_GCM_SHA384].

Definition chacha_suites : list Z := [
  TLS_CHACHA20_POLY1305_SHA256;
  TLS_ECDHE_RSA_WITH_CHACHA20_POLY1305_SHA256; TLS_ECDHE_ECDSA_WITH_CHACHA20_POLY1305_SHA256].

Definition tls12_gcm_suites : list Z := [
  TLS_RSA_WITH_AES_128_GCM_SHA256; TLS_RSA_WITH_AES_256_GCM_SHA384;
  TLS_ECDHE_RSA_WITH_AES_128_GCM_SHA256; TLS_ECDHE_ECDSA_WITH_AES_128_GCM_SHA256;
  TLS_ECDHE_RSA_WITH_AES_256_GCM_SHA384; TLS_ECDHE_ECDSA_WITH_AES_256_GCM_SHA384].

Definition is_suite (suites : list Z) (cipherSuite : Z) : bool := existsb (Z.eqb cipherSuite) suites.

Definition tls12CBCCipherSuites : list Z := [
  TLS_ECDHE_ECDSA_WITH_AES_128_CBC_SHA;
  TLS_ECDHE_RSA_WITH_AES_128_CBC_SHA;
  TLS_ECDHE_ECDSA_WITH_AES_256_CBC_SHA;
  TLS_ECDHE_RSA_WITH_AES_256_CBC_SHA;
  TLS_ECDHE_ECDSA_WITH_AES_128_CBC_SHA256;
  TLS_ECDHE_RSA_WITH_AES_128_CBC_SHA256;
  TLS_ECDHE_ECDSA_WITH_AES_256_CBC_SHA384;
  TLS_ECDHE_RSA_WITH_AES_256_CBC_SHA384;
  TLS_RSA_WITH_AES_128_CBC_SHA;
  TLS_RSA_WITH_AES_256_CBC_SHA;
  TLS_RSA_WITH_AES_128_CBC_SHA256;
  TLS_RSA_WITH_AES_256_CBC_SHA256].

(** ** The predicates and the [case] labels agree *)

Lemma is_suite_spec suites s : is_suite suites s = true <-> s ∈ suites.
Proof.
  unfold is_suite. rewrite existsb_exists. split.
  - intros (x & Hx & E). apply Z.eqb_eq in E as ->. by apply list_elem_of_In.
  - intros Hs. exists s. split; [by apply list_elem_of_In|apply Z.eqb_refl].
Qed.

(** The suites of the table. *)
Definition known_suites : list Z := aes_gcm_suites ++ chacha_suites ++ tls12CBCCipherSuites.

Lemma known_suite s info : GetCipherSuiteInfo s = Some info -> s ∈ known_suites.
Proof.
  unfold GetCipherSuiteInfo.
  repeat match goal with |- (if s =? ?c then _ else _) = _ -> _ =>
    destruct (Z.eqb_spec s c) as [->|_]; [intros _; apply is_suite_spec; vm_compute; reflexivity|] end.
  done.
Qed.

Lemma suite_cases (P : Z -> bool) : forallb P known_suites = true ->
  forall s, is_Some (GetCipherSuiteInfo s) -> P s = true.
Proof. intros H s [info E]. rewrite forallb_forall in H. apply H, list_elem_of_In. by eapply known_suite. Qed.

Lemma is_aes_gcm s : IsAESGCM s = is_suite aes_gcm_suites s.
Proof.
  destruct (GetCipherSuiteInfo s) eqn:E.
  - apply eqb_true_iff. apply (suite_cases (fun s => Bool.eqb (IsAESGCM s) (is_suite aes_gcm_suites s))); [vm_compute; reflexivity|by eexists].
  - unfold IsAESGCM. rewrite E. symmetry. apply not_true_is_false. intros H. apply is_suite_spec in H.
    repeat (apply elem_of_cons in H as [-> | H]; [discriminate E|]). by apply elem_of_nil in H.
Qed.

Lemma is_chacha s : IsChaCha20 s = is_suite chacha_suites s.
Proof.
  destruct (GetCipherSuiteInfo s) eqn:E.
  - apply eqb_true_iff. apply (suite_cases (fun s => Bool.eqb (IsChaCha20 s) (is_suite chacha_suites s))); [vm_compute; reflexivity|by eexists].
  - unfold IsChaCha20. rewrite E. symmetry. apply not_true_is_false. intros H. apply is_suite_spec in H.
    repeat (apply elem_of_cons in H as [-> | H]; [discriminate E|]). by apply elem_of_nil in H.
Qed.

(** An AEAD suite is one of the two families, never both. *)
Lemma suite_families s : is_suite aes_gcm_suites s = true -> is_suite chacha_suites s = false.
Proof.
  intros H. apply is_suite_spec in H.
  repeat (apply elem_of_cons in H as [-> | H]; [vm_compute; reflexivity|]). by apply elem_of_nil in H.
Qed.
