(* ===== verification/Prf.v ===== *)
(** * TLS 1.2 key derivation ([minitls/prf12.go])

    The pseudo-random function of RFC 5246 and the partition of its output into
    the keys of a connection.  The digests of [crypto/sha1], [crypto/sha256] and
    [crypto/sha512] are an interface; HMAC is RFC 2104 over them. *)

From S2P Require Import Prelude Bytes CipherSuite.

(** The names of [info.HashFunc] and [info.MACHash]. *)
Definition hash_size (h : string) : nat :=
  if String.eqb h "SHA1" then 20 else if String.eqb h "SHA384" then 48 else 32.

Definition hash_block (h : string) : nat := if String.eqb h "SHA384" then 128 else 64.

Class Hashes := {
  hash_sum : string -> bytes -> bytes;
  hash_sum_length : forall h m, length (hash_sum h m) = hash_size h;
  hash_sum_bytes : forall h m, is_bytes (hash_sum h m);
}.

Section Prf.
Context {HS : Hashes}.

(** [hmac.New(h, key)], [Write(msg)], [Sum(nil)]. *)
Definition hmac (h : string) (key msg : bytes) : bytes :=
  let key := if (hash_block h <? length key)%nat then hash_sum h key else key in
  let key := pad_to (hash_block h) key in
  let pad c := map (fun b => Z.lxor b c) key in
  hash_sum h (pad 0x5c ++ hash_sum h (pad 0x36 ++ msg)).

(** The loop of [pHash]: at most [length] turns, since every turn appends a byte at least. *)
Fixpoint phash_loop (fuel : nat) (h : string) (secret seed : bytes) (length_ : nat) (a result : bytes) : bytes :=
  match fuel with
  | O => result
  | S fuel =>
      if (length result <? length_)%nat then
        let b := hmac h secret (a ++ seed) in
        let todo := if (length_ <? length result + length b)%nat then (length_ - length result)%nat else length b in
        phash_loop fuel h secret seed length_ (hmac h secret a) (result ++ take todo b)
      else result
  end.

Definition pHash (h : string) (secret seed : bytes) (length_ : nat) : bytes :=
  phash_loop length_ h secret seed length_ (hmac h secret seed) [].

Definition prf12 (cipherSuite : Z) (secret : bytes) (label : string) (seed : bytes) (length_ : nat) : bytes :=
  let h := match GetCipherSuiteInfo cipherSuite with
           | Some info => if String.eqb (ci_HashFunc info) "SHA384" then "SHA384"%string else "SHA256"%string
           | None => "SHA256"%string
           end in
  pHash h secret (str label ++ seed) length_.

Record TLS12KeySchedule := mkKs { ks_cipherSuite : Z; ks_masterSecret : bytes; ks_clientRandom : bytes; ks_serverRandom : bytes }.

Definition NewTLS12KeySchedule (cipherSuite : Z) (masterSecret clientRandom serverRandom : bytes) : TLS12KeySchedule :=
  mkKs cipherSuite masterSecret clientRandom serverRandom.

Definition set_master (ks : TLS12KeySchedule) (m : bytes) : TLS12KeySchedule :=
  mkKs (ks_cipherSuite ks) m (ks_clientRandom ks) (ks_serverRandom ks).

Definition DeriveMasterSecret (ks : TLS12KeySchedule) (preMasterSecret : bytes) : TLS12KeySchedule :=
  set_master ks (prf12 (ks_cipherSuite ks) preMasterSecret "master secret" (ks_clientRandom ks ++ ks_serverRandom ks) 48).

Definition DeriveMasterSecretExtended (ks : TLS12KeySchedule) (preMasterSecret sessionHash : bytes) : TLS12KeySchedule :=
  set_master ks (prf12 (ks_cipherSuite ks) preMasterSecret "extended master secret" sessionHash 48).

Definition DeriveKeyBlock (ks : TLS12KeySchedule) (keyBlockLength : nat) : bytes :=
  prf12 (ks_cipherSuite ks) (ks_masterSecret ks) "key expansion" (ks_serverRandom ks ++ ks_clientRandom ks) keyBlockLength.

Definition DeriveFinishedData (ks : TLS12KeySchedule) (handshakeHash : bytes) (isClient : bool) : bytes :=
  prf12 (ks_cipherSuite ks) (ks_masterSecret ks) (if isClient then "client finished" else "server finished") handshakeHash 12.

(** The [case] labels of [GetKeyAndIVLengths]. *)
Definition GetKeyAndIVLengths (cipherSuite : Z) : nat * nat :=
  if is_suite [TLS_RSA_WITH_AES_128_GCM_SHA256; TLS_ECDHE_RSA_WITH_AES_128_GCM_SHA256; TLS_ECDHE_ECDSA_WITH_AES_128_GCM_SHA256] cipherSuite
  then (16, 4)%nat else
  if is_suite [TLS_RSA_WITH_AES_256_GCM_SHA384; TLS_ECDHE_RSA_WITH_AES_256_GCM_SHA384; TLS_ECDHE_ECDSA_WITH_AES_256_GCM_SHA384] cipherSuite
  then (32, 4)%nat else
  if is_suite [TLS_ECDHE_RSA_WITH_CHACHA20_POLY1305_SHA256; TLS_ECDHE_ECDSA_WITH_CHACHA20_POLY1305_SHA256] cipherSuite
  then (32, 12)%nat else (0, 0)%nat.

(** Client write key and IV, server write key and IV. *)
Definition DeriveKeys (ks : TLS12KeySchedule) : res (bytes * bytes * bytes * bytes) :=
  let '(keyLen, ivLen) := GetKeyAndIVLengths (ks_cipherSuite ks) in
  fail_if (((keyLen =? 0) || (ivLen =? 0))%nat) "unsupported cipher suite";;
  let keyBlock := DeriveKeyBlock ks (2 * (keyLen + ivLen)) in
  Ok (slice keyBlock 0 keyLen, slice keyBlock (keyLen + keyLen) (keyLen + keyLen + ivLen),
      slice keyBlock keyLen (keyLen + keyLen), slice keyBlock (keyLen + keyLen + ivLen) (keyLen + keyLen + ivLen + ivLen)).

Record TLS12CBCKeys := mkCbcKeys {
  ck_ClientMACKey : bytes;
  ck_ServerMACKey : bytes;
  ck_ClientKey : bytes;
  ck_ServerKey : bytes;
  ck_ClientIV : bytes;
  ck_ServerIV : bytes;
}.

(** [take(length)] of the closure in [DeriveCBCKeys]. *)
Definition take_key (offset length_ : nat) (keyBlock : bytes) : bytes * nat :=
  (slice keyBlock offset (offset + length_), (offset + length_)%nat).

Definition DeriveCBCKeys (ks : TLS12KeySchedule) : res TLS12CBCKeys :=
  match GetCipherSuiteInfo (ks_cipherSuite ks) with
  | None => Err "unsupported TLS 1.2 CBC cipher suite"
  | Some info =>
      fail_if (negb (ci_IsCBC info) || (ci_MACSize info =? 0)%nat || (ci_IVSize info =? 0)%nat) "unsupported TLS 1.2 CBC cipher suite";;
      let keyBlock := DeriveKeyBlock ks (2 * (ci_MACSize info + ci_KeySize info + ci_IVSize info)) in
      let '(clientMAC, o) := take_key 0 (ci_MACSize info) keyBlock in
      let '(serverMAC, o) := take_key o (ci_MACSize info) keyBlock in
      let '(clientKey, o) := take_key o (ci_KeySize info) keyBlock in
      let '(serverKey, o) := take_key o (ci_KeySize info) keyBlock in
      let '(clientIV, o) := take_key o (ci_IVSize info) keyBlock in
      let '(serverIV, o) := take_key o (ci_IVSize info) keyBlock in
      Ok (mkCbcKeys clientMAC serverMAC clientKey serverKey clientIV serverIV)
  end.

(** ** The reference of RFC 5246, section 5 *)

(** [P_hash] as the prefix of an unbounded string, here of [n] digests. *)
Fixpoint A_ (i : nat) (h : string) (secret seed : bytes) : bytes :=
  match i with O => seed | S i => hmac h secret (A_ i h secret seed) end.

Definition P_hash (n : nat) (h : string) (secret seed : bytes) : bytes :=
  concat (map (fun i => hmac h secret (A_ (S i) h secret seed ++ seed)) (seq 0 n)).

Lemma hmac_length h key msg : length (hmac h key msg) = hash_size h.
Proof. apply hash_sum_length. Qed.

Lemma hmac_bytes h key msg : is_bytes (hmac h key msg).
Proof. apply hash_sum_bytes. Qed.

Lemma hash_size_pos h : (20 <= hash_size h)%nat.
Proof. unfold hash_size. repeat case_match; lia. Qed.

Lemma P_hash_S n h secret seed : P_hash (S n) h secret seed = P_hash n h secret seed ++ hmac h secret (A_ (S n) h secret seed ++ seed).
Proof. unfold P_hash. rewrite seq_S, map_app, concat_app. cbn [map concat Nat.add]. by rewrite app_nil_r. Qed.

Lemma length_P_hash n h secret seed : length (P_hash n h secret seed) = (n * hash_size h)%nat.
Proof. induction n as [|n IH]; [done|]. rewrite P_hash_S, length_app, IH, hmac_length. lia. Qed.

Lemma P_hash_prefix n m h secret seed : (n <= m)%nat -> take (n * hash_size h) (P_hash m h secret seed) = P_hash n h secret seed.
Proof.
  intros H. induction H as [|m H IH].
  - apply take_ge. by rewrite length_P_hash.
  - rewrite P_hash_S, take_app_le; [done|]. rewrite length_P_hash. nia.
Qed.

Lemma phash_loop_spec h secret seed len : forall fuel i result, result = take len (P_hash i h secret seed) ->
  (len <= length result + fuel)%nat ->
  exists m, (len <= m * hash_size h)%nat
    /\ phash_loop fuel h secret seed len (A_ (S i) h secret seed) result = take len (P_hash m h secret seed).
Proof.
  pose proof (hash_size_pos h) as Hp.
  induction fuel as [|fuel IH]; intros i result -> HL; cbn [phash_loop].
  - exists i. split; [|done]. rewrite length_take, length_P_hash in HL. lia.
  - destruct (Nat.ltb_spec (length (take len (P_hash i h secret seed))) len) as [Hlt|Hge]; cycle 1.
    { exists i. rewrite length_take, length_P_hash in Hge. split; [lia|done]. }
    rewrite length_take, length_P_hash in *. rewrite hmac_length.
    assert (Hi : (i * hash_size h < len)%nat) by lia.
    replace (Nat.min len (i * hash_size h)) with (i * hash_size h)%nat in * by lia.
    apply (IH (S i)).
    + rewrite P_hash_S, take_app, length_P_hash. f_equal.
      destruct (Nat.ltb_spec len (i * hash_size h + hash_size h)); [done|]. rewrite !take_ge; [done|rewrite hmac_length; lia..].
    + rewrite length_app, !length_take, length_P_hash, hmac_length. destruct (Nat.ltb_spec len (i * hash_size h + hash_size h)); lia.
Qed.

(** [pHash] returns exactly the requested prefix, whatever the digest. *)
Lemma pHash_is_P_hash h secret seed len n : (len <= n * hash_size h)%nat ->
  pHash h secret seed len = take len (P_hash n h secret seed) /\ length (pHash h secret seed len) = len.
Proof.
  intros Hn. destruct (phash_loop_spec h secret seed len len 0 []) as (m & Hm & E); [by destruct len|cbn; lia|].
  assert (T : take len (P_hash m h secret seed) = take len (P_hash n h secret seed)).
  { pose proof (hash_size_pos h).
    assert (G : forall k, (len <= k * hash_size h)%nat -> take len (P_hash k h secret seed) = take len (P_hash (k + m + n) h secret seed)).
    { intros k Hk. rewrite <- (P_hash_prefix k (k + m + n)) by lia. rewrite take_take. f_equal. lia. }
    rewrite (G m Hm), (G n Hn). pose proof (P_hash_prefix (m + n) (m + m + n) h secret seed ltac:(lia)) as P1.
    pose proof (P_hash_prefix (m + n) (n + m + n) h secret seed ltac:(lia)) as P2.
    assert (L : (len <= (m + n) * hash_size h)%nat) by nia.
    apply (f_equal (take len)) in P1, P2. rewrite take_take in P1, P2. rewrite Nat.min_l in P1, P2 by lia. congruence. }
  unfold pHash. change (hmac h secret seed) with (A_ 1 h secret seed). rewrite E, T. split; [done|].
  rewrite length_take, length_P_hash. lia.
Qed.

Lemma pHash_length h secret seed len : length (pHash h secret seed len) = len.
Proof. apply (pHash_is_P_hash h secret seed len len). pose proof (hash_size_pos h). nia. Qed.
End Prf.

(** ** The keys of a connection *)

Section Keys.
Context {HS : Hashes}.

(** The digest of a suite's pseudo-random function. *)
Definition prf_hash (cipherSuite : Z) : string :=
  match GetCipherSuiteInfo cipherSuite with
  | Some info => if String.eqb (ci_HashFunc info) "SHA384" then "SHA384" else "SHA256"
  | None => "SHA256"
  end.

(** RFC 5246, section 6.3: [key_block = PRF(master_secret, "key expansion", server_random + client_random)]. *)
Definition rfc_key_block (ks : TLS12KeySchedule) (n : nat) : bytes :=
  take n (P_hash n (prf_hash (ks_cipherSuite ks)) (ks_masterSecret ks) (str "key expansion" ++ ks_serverRandom ks ++ ks_clientRandom ks)).

Lemma key_block_is_rfc ks n : DeriveKeyBlock ks n = rfc_key_block ks n /\ length (DeriveKeyBlock ks n) = n.
Proof.
  unfold DeriveKeyBlock, prf12, rfc_key_block. fold (prf_hash (ks_cipherSuite ks)). apply pHash_is_P_hash.
  pose proof (hash_size_pos (prf_hash (ks_cipherSuite ks))). nia.
Qed.

(** The AEAD suites of TLS 1.2 are those with key and IV lengths. *)
Lemma aead_lengths s : let '(k, v) := GetKeyAndIVLengths s in
  (k =? 0)%nat || (v =? 0)%nat = negb (IsTLS12CipherSuite s && negb (IsTLS12CBCCipherSuite s)).
Proof.
  destruct (GetCipherSuiteInfo s) eqn:E.
  - pose proof (suite_cases (fun s => let '(k, v) := GetKeyAndIVLengths s in
      Bool.eqb ((k =? 0)%nat || (v =? 0)%nat) (negb (IsTLS12CipherSuite s && negb (IsTLS12CBCCipherSuite s))))) as H.
    specialize (H ltac:(vm_compute; reflexivity) s ltac:(by eexists)). cbn beta in H. revert H. destruct (GetKeyAndIVLengths s). apply Bool.eqb_prop.
  - unfold IsTLS12CipherSuite. rewrite E. unfold GetKeyAndIVLengths.
    assert (U : forall l, forallb (fun x => match GetCipherSuiteInfo x with Some _ => true | None => false end) l = true -> is_suite l s = false).
    { intros l Hl. apply not_true_is_false. intros Hs. apply is_suite_spec, list_elem_of_In in Hs. rewrite forallb_forall in Hl.
      apply Hl in Hs. by rewrite E in Hs. }
    by rewrite !U by by vm_compute.
Qed.

Lemma cbc_info s info : GetCipherSuiteInfo s = Some info ->
  negb (ci_IsCBC info) || (ci_MACSize info =? 0)%nat || (ci_IVSize info =? 0)%nat = negb (IsTLS12CBCCipherSuite s).
Proof.
  intros E. pose proof (suite_cases (fun s => match GetCipherSuiteInfo s with Some info =>
      Bool.eqb (negb (ci_IsCBC info) || (ci_MACSize info =? 0)%nat || (ci_IVSize info =? 0)%nat) (negb (IsTLS12CBCCipherSuite s)) | None => false end)
    ltac:(vm_compute; reflexivity) s ltac:(by eexists)) as H. cbn beta in H. rewrite E in H. by apply Bool.eqb_prop.
Qed.

(** C29: The keys of a TLS 1.2 connection are the key block of RFC 5246, cut in its order: client before server, MAC keys
    before keys before IVs, each of the length its suite prescribes.  Exactly the AEAD suites of TLS 1.2 derive AEAD
    keys, exactly its CBC suites derive CBC keys; every other suite is refused. *)
Theorem keys_are_rfc_key_block ks :
  match DeriveKeys ks with
  | Ok (clientKey, clientIV, serverKey, serverIV) =>
      let '(k, v) := GetKeyAndIVLengths (ks_cipherSuite ks) in
      IsTLS12CipherSuite (ks_cipherSuite ks) && negb (IsTLS12CBCCipherSuite (ks_cipherSuite ks)) = true
      /\ map length [clientKey; serverKey; clientIV; serverIV] = [k; k; v; v]
      /\ clientKey ++ serverKey ++ clientIV ++ serverIV = rfc_key_block ks (2 * (k + v))
  | Err _ => IsTLS12CipherSuite (ks_cipherSuite ks) && negb (IsTLS12CBCCipherSuite (ks_cipherSuite ks)) = false
  | Panic => False
  end /\
  match DeriveCBCKeys ks with
  | Ok keys =>
      exists info, GetCipherSuiteInfo (ks_cipherSuite ks) = Some info /\ IsTLS12CBCCipherSuite (ks_cipherSuite ks) = true
      /\ map length [ck_ClientMACKey keys; ck_ServerMACKey keys; ck_ClientKey keys; ck_ServerKey keys; ck_ClientIV keys; ck_ServerIV keys]
         = [ci_MACSize info; ci_MACSize info; ci_KeySize info; ci_KeySize info; ci_IVSize info; ci_IVSize info]
      /\ ck_ClientMACKey keys ++ ck_ServerMACKey keys ++ ck_ClientKey keys ++ ck_ServerKey keys ++ ck_ClientIV keys ++ ck_ServerIV keys
         = rfc_key_block ks (2 * (ci_MACSize info + ci_KeySize info + ci_IVSize info))
  | Err _ => IsTLS12CBCCipherSuite (ks_cipherSuite ks) = false
  | Panic => False
  end.
Proof.
  split.
  - pose proof (aead_lengths (ks_cipherSuite ks)) as S. unfold DeriveKeys. destruct (GetKeyAndIVLengths (ks_cipherSuite ks)) as [k v].
    rewrite S. destruct (IsTLS12CipherSuite _ && _); cbn [negb]; [|done]. split; [done|].
    destruct (key_block_is_rfc ks (2 * (k + v))) as [E L]. rewrite <- E. set (B := DeriveKeyBlock ks _) in *.
    split; [cbn [map]; rewrite !length_slice by lia; repeat f_equal; lia|].
    rewrite (app_assoc (slice B 0 k)), slice_glue by lia. rewrite app_assoc, slice_glue by lia. rewrite slice_glue by lia. apply slice_all. lia.
  - unfold DeriveCBCKeys. destruct (GetCipherSuiteInfo (ks_cipherSuite ks)) as [info|] eqn:I; cycle 1.
    { unfold IsTLS12CBCCipherSuite. by rewrite I. }
    rewrite (cbc_info _ _ I). destruct (IsTLS12CBCCipherSuite _); cbn [negb]; [|done]. exists info. split; [done|]. split; [done|].
    destruct (key_block_is_rfc ks (2 * (ci_MACSize info + ci_KeySize info + ci_IVSize info))) as [E L]. rewrite <- E.
    set (B := DeriveKeyBlock ks _) in *. cbn [ck_ClientMACKey ck_ServerMACKey ck_ClientKey ck_ServerKey ck_ClientIV ck_ServerIV map].
    split; [rewrite !length_slice by lia; repeat f_equal; lia|].
    rewrite (app_assoc (slice B 0 _)), slice_glue by lia. do 3 (rewrite app_assoc, slice_glue by lia). rewrite slice_glue by lia. apply slice_all. lia.
Qed.
End Keys.
