(* ===== verification/SplitAead.v ===== *)
(** * Split AEAD ([minitls/crypto.go], lines 376-1092)

    No party but the pair of TEEs can encrypt a record: TEE_K holds the keys
    and produces ciphertext and tag secrets without computing the tag, TEE_T
    computes the tag from the ciphertext and the secrets.  The reference is
    AES-GCM of NIST SP 800-38D and ChaCha20-Poly1305 of RFC 8439. *)

From S2P Require Import Prelude Bytes Crypto Ghash CipherSuite.

(** [golang.org/x/crypto/chacha20] and [poly1305]: the first [n] bytes of the key stream from block [counter] on, and
    the one-time authenticator. *)
Class ChaChaPoly := {
  chacha20_stream : bytes -> bytes -> Z -> nat -> bytes;
  poly1305_Sum : bytes -> bytes -> bytes;
  chacha20_length : forall key nonce counter n, length (chacha20_stream key nonce counter n) = n;
  chacha20_bytes : forall key nonce counter n, is_bytes (chacha20_stream key nonce counter n);
  poly1305_length : forall key msg, length (poly1305_Sum key msg) = 16%nat;
}.

(** [chacha20.NewUnauthenticatedCipher] accepts 32-byte keys with 12-byte and 24-byte nonces. *)
Definition chacha20_new (key nonce : bytes) : res unit :=
  fail_if (negb (length key =? 32)%nat) "chacha20: wrong key size";;
  fail_if (negb ((length nonce =? 12)%nat || (length nonce =? 24)%nat)) "chacha20: wrong nonce size";;
  Ok ().

Definition ErrSequenceNumberOverflow : error := "TLS sequence number overflow".

(** ** TLS records *)

Definition RecordTypeApplicationData : Z := 0x17.

Definition CreateTLSRecord (recordType : Z) (payload : bytes) : bytes :=
  let recordLength := Z.of_nat (length payload) in
  [recordType; 0x03; 0x03; u8 (Z.shiftr recordLength 8); u8 (Z.land recordLength 255)] ++ payload.

Definition CreateApplicationDataRecord (payload : bytes) : bytes := CreateTLSRecord RecordTypeApplicationData payload.

Definition CreateTLS12AEADPayload (seqNum : Z) (encryptedData authTag : bytes) : bytes :=
  be_put 8 seqNum ++ encryptedData ++ authTag.

Definition CreateTLS13AEADPayload (encryptedData authTag : bytes) : bytes := encryptedData ++ authTag.

Definition CreateAdditionalDataTLS12 (seqNum : Z) (plaintextLength : nat) : bytes :=
  be_put 8 seqNum ++ [RecordTypeApplicationData; 0x03; 0x03] ++ be_put 2 (Z.of_nat plaintextLength mod 2 ^ 16).

Definition CreateAdditionalDataTLS13 (ciphertextLength : nat) : bytes :=
  [RecordTypeApplicationData; 0x03; 0x03; u8 (Z.shiftr (Z.of_nat ciphertextLength) 8); u8 (Z.land (Z.of_nat ciphertextLength) 255)].

Definition PrepareDataForTLS13 (data : bytes) : bytes := data ++ [RecordTypeApplicationData; 0].

Definition PrepareDataForEncryption (data : bytes) (cipherSuite : Z) : bytes :=
  if IsTLS13CipherSuite cipherSuite then PrepareDataForTLS13 data else data.

Definition CreateAdditionalData (cipherSuite seqNum : Z) (plaintextLength : nat) : bytes :=
  if IsTLS13CipherSuite cipherSuite then CreateAdditionalDataTLS13 (plaintextLength + 16)
  else CreateAdditionalDataTLS12 seqNum plaintextLength.

Definition CreateAEADPayload (cipherSuite seqNum : Z) (encryptedData authTag : bytes) : bytes :=
  if IsTLS12AESGCMCipherSuite cipherSuite then CreateTLS12AEADPayload seqNum encryptedData authTag
  else CreateTLS13AEADPayload encryptedData authTag.

(** ** Nonces *)

Record SplitAEAD := mkSplit { sa_key : bytes; sa_iv : bytes; sa_cipherSuite : Z; sa_seq : Z }.

Definition NewSplitAEAD (key iv : bytes) (cipherSuite : Z) : SplitAEAD := mkSplit key iv cipherSuite 0.

Definition SetSequence (sa : SplitAEAD) (seq : Z) : SplitAEAD := mkSplit (sa_key sa) (sa_iv sa) (sa_cipherSuite sa) seq.

(** [for i := range 8 { nonce[len(nonce)-1-i] ^= byte(seqNum >> (8*i)) }], from turn [i] on; a nonce shorter than
    eight bytes is indexed out of range. *)
Fixpoint xor_seq (n i : nat) (nonce : bytes) (seqNum : Z) : res bytes :=
  match n with
  | O => Ok nonce
  | S n =>
      if (length nonce <? S i)%nat then Panic else
      b ← index nonce (length nonce - 1 - i);
      nonce ← set_index nonce (length nonce - 1 - i) (Z.lxor b (u8 (shr64 seqNum (8 * Z.of_nat i))));
      xor_seq n (S i) nonce seqNum
  end.

Definition constructNonce (sa : SplitAEAD) (seqNum : Z) : res bytes :=
  if is_suite tls12_gcm_suites (sa_cipherSuite sa) then Ok (pad_to 4 (sa_iv sa) ++ be_put 8 seqNum)
  else xor_seq 8 0 (sa_iv sa) seqNum.

Definition ConstructTLS12NonceWithExplicitIV (implicitIV explicitIV : bytes) (cipherSuite : Z) : res bytes :=
  fail_if (negb (IsTLS12AESGCMCipherSuite cipherSuite)) "explicit IV only used with TLS 1.2 AES-GCM";;
  fail_if (negb (length implicitIV =? 4)%nat) "TLS 1.2 implicit IV must be 4 bytes";;
  fail_if (negb (length explicitIV =? 8)%nat) "TLS 1.2 explicit IV must be 8 bytes";;
  Ok (implicitIV ++ explicitIV).

Section SplitAead.
Context {BC : BlockCipher} {CP : ChaChaPoly}.

(** ** Key streams *)

(** [cipher.NewCTR]: the whole block is one big-endian counter. *)
Fixpoint ctr128_blocks (key : bytes) (n : nat) (ctr : Z) : bytes :=
  match n with
  | O => []
  | S n => aes_encrypt key (be_put 16 ctr) ++ ctr128_blocks key n ((ctr + 1) mod 2 ^ 128)
  end.

Definition ctr_keystream (key iv : bytes) (n : nat) : bytes := take n (ctr128_blocks key ((n + 15) / 16) (be_get iv)).

(** The nonce, padded, with the counter of the first data block. *)
Definition ctrNonce (nonce : bytes) : bytes := <[15%nat := 2]> (pad_to 16 nonce).

Definition generateAESDecryptionStream (key nonce : bytes) (length : nat) : res bytes :=
  match aes_NewCipher key with
  | Ok block => Ok (ctr_keystream block (ctrNonce nonce) length)
  | Err _ => Err "failed to create AES cipher"
  | Panic => Panic
  end.

Definition GenerateAESKeystream (key nonce : bytes) (length : nat) : res bytes := generateAESDecryptionStream key nonce length.

Definition generateChaCha20DecryptionStream (key nonce : bytes) (length : nat) : res bytes :=
  match chacha20_new key nonce with
  | Ok _ => Ok (chacha20_stream key nonce 1 length)
  | Err _ => Err "failed to create ChaCha20 cipher"
  | Panic => Panic
  end.

Definition GenerateChaCha20Keystream (key nonce : bytes) (length : nat) : res bytes := generateChaCha20DecryptionStream key nonce length.

Definition GenerateKeystream (cipherSuite : Z) (key nonce : bytes) (length : nat) : res bytes :=
  if IsChaCha20 cipherSuite then GenerateChaCha20Keystream key nonce length
  else if IsAESGCM cipherSuite then GenerateAESKeystream key nonce length
  else Err "unsupported cipher suite".

Definition GenerateDecryptionStreamWithNonce (key iv : bytes) (seqNum : Z) (length_ : nat) (cipherSuite : Z) (explicitIV : bytes)
    : res (bytes * bytes) :=
  let splitAEAD := NewSplitAEAD key iv cipherSuite in
  nonce ← (if (length explicitIV =? 8)%nat then ConstructTLS12NonceWithExplicitIV iv explicitIV cipherSuite
           else constructNonce splitAEAD seqNum);
  stream ← (if is_suite aes_gcm_suites cipherSuite then generateAESDecryptionStream key nonce length_
            else if is_suite chacha_suites cipherSuite then generateChaCha20DecryptionStream key nonce length_
            else Err "unsupported cipher suite for decryption stream");
  Ok (stream, nonce).

Definition GetBlockCounter (cipherSuite : Z) (blockNum : Z) : Z :=
  if IsChaCha20 cipherSuite then u32 (blockNum + 1) else u32 (blockNum + 2).

(** [s[start:end]]: out of range it panics. *)
Definition slice_checked (s : bytes) (start end_ : Z) : res bytes :=
  if (start <=? end_) && (end_ <=? Z.of_nat (length s)) then Ok (slice s (Z.to_nat start) (Z.to_nat end_)) else Panic.

(** [counter - 1] and [counter - 2] wrap in 32 bits before they become [int]s. *)
Definition GenerateSingleBlockKeystream (cipherSuite : Z) (serverKey nonce : bytes) (counter : Z) : res bytes :=
  match GetCipherSuiteInfo cipherSuite with
  | None => Err "unsupported cipher suite"
  | Some info =>
      let blockSize := Z.of_nat (ci_BlockSize info) in
      if IsChaCha20 cipherSuite then
        full ← GenerateChaCha20Keystream serverKey nonce (Z.to_nat (counter * blockSize));
        let start := u32 (counter - 1) * blockSize in
        slice_checked full start (Z.min (start + blockSize) (Z.of_nat (length full)))
      else
        let adjustedBlock := u32 (counter - 2) in
        fail_if (adjustedBlock <? 0) "invalid AES-GCM counter (must be >= 2)";;
        full ← GenerateAESKeystream serverKey nonce (Z.to_nat ((adjustedBlock + 1) * blockSize));
        let start := adjustedBlock * blockSize in
        slice_checked full start (Z.min (start + blockSize) (Z.of_nat (length full)))
  end.

(** ** TEE_K: encryption without the tag *)

Definition generateGCMTagSecrets (key nonce : bytes) : bytes :=
  aes_encrypt key (zeros 16) ++ aes_encrypt key (<[15%nat := 1]> (pad_to 16 (take 12 nonce))).

(** A nil slice when the cipher cannot be made. *)
Definition generateChaChaTagSecrets (key nonce : bytes) : bytes :=
  if is_ok (chacha20_new key nonce) then chacha20_stream key nonce 0 32 else [].

Definition EncryptWithoutTag (sa : SplitAEAD) (plaintext additionalData : bytes) : res (bytes * bytes * SplitAEAD) :=
  fail_if (sa_seq sa =? MaxUint64) ErrSequenceNumberOverflow;;
  nonce ← constructNonce sa (sa_seq sa);
  out ← (if is_suite aes_gcm_suites (sa_cipherSuite sa) then
           block ← aes_NewCipher (sa_key sa);
           Ok (xor_bytes plaintext (ctr_keystream block (ctrNonce nonce) (length plaintext)), generateGCMTagSecrets block nonce)
         else if is_suite chacha_suites (sa_cipherSuite sa) then
           match chacha20_new (sa_key sa) nonce with
           | Ok _ => Ok (xor_bytes plaintext (chacha20_stream (sa_key sa) nonce 1 (length plaintext)), generateChaChaTagSecrets (sa_key sa) nonce)
           | Err _ => Err "failed to create ChaCha20 cipher"
           | Panic => Panic
           end
         else Err "unsupported cipher suite for split AEAD");
  Ok (out.1, out.2, SetSequence sa (add64 (sa_seq sa) 1)).

(** ** TEE_T: the tag *)

Definition computePoly1305Tag (key additionalData ciphertext : bytes) : res bytes :=
  fail_if (negb (length key =? 32)%nat) "Poly1305 key must be 32 bytes";;
  let aadPadding := ((16 - length additionalData mod 16) mod 16)%nat in
  let ctPadding := ((16 - length ciphertext mod 16) mod 16)%nat in
  let polyData := additionalData ++ zeros aadPadding ++ ciphertext ++ zeros ctPadding
                  ++ le_put 8 (Z.of_nat (length additionalData)) ++ le_put 8 (Z.of_nat (length ciphertext)) in
  Ok (poly1305_Sum key polyData).

Definition ComputeTagFromSecrets (ciphertext tagSecrets : bytes) (cipherSuite : Z) (additionalData : bytes) : res bytes :=
  if is_suite aes_gcm_suites cipherSuite then
    fail_if (negb (length tagSecrets =? 32)%nat) "tag secrets wrong size";;
    let ghashKey := slice tagSecrets 0 16 in
    let encryptedCounter := slice tagSecrets 16 32 in
    let aadBitLen := u64 (Z.of_nat (length additionalData) * 8) in
    let ciphertextBitLen := u64 (Z.of_nat (length ciphertext) * 8) in
    let lengthBlock := be_put 8 aadBitLen ++ be_put 8 ciphertextBitLen in
    Ok (xor_bytes (ghash ghashKey [additionalData; ciphertext; lengthBlock]) encryptedCounter)
  else if is_suite chacha_suites cipherSuite then
    fail_if (negb (length tagSecrets =? 32)%nat) "ChaCha20-Poly1305 tag secrets wrong size";;
    match computePoly1305Tag (take 32 tagSecrets) additionalData ciphertext with
    | Err _ => Err "failed to compute Poly1305 tag"
    | r => r
    end
  else Err "unsupported cipher suite for tag computation".

(** ** The standards *)

(** SP 800-38D, section 6.2: the 32-bit increment. *)
Definition inc32 (block : bytes) : bytes := take 12 block ++ be_put 4 ((be_get (drop 12 block) + 1) mod 2 ^ 32).

(** Algorithm 3, the key stream of [n] blocks from [ICB]. *)
Fixpoint gctr_blocks (key : bytes) (n : nat) (CB : bytes) : bytes :=
  match n with
  | O => []
  | S n => aes_encrypt key CB ++ gctr_blocks key n (inc32 CB)
  end.

Definition GCTR (key ICB X : bytes) : bytes := xor_bytes X (gctr_blocks key ((length X + 15) / 16) ICB).

(** Algorithm 4 for a 96-bit nonce: ciphertext and 128-bit tag. *)
Definition GCM_AE (key nonce P A : bytes) : bytes * bytes :=
  let H := be_get (aes_encrypt key (zeros 16)) in
  let J0 := nonce ++ [0; 0; 0; 1] in
  let C := GCTR key (inc32 J0) P in
  let S := GHASH H (pad16 A ++ pad16 C ++ be_put 8 (8 * Z.of_nat (length A)) ++ be_put 8 (8 * Z.of_nat (length C))) in
  (C, GCTR key J0 (be_put 16 S)).

(** RFC 8439, section 2.8. *)
Definition CHACHA20_POLY1305 (key nonce P A : bytes) : bytes * bytes :=
  let otk := chacha20_stream key nonce 0 32 in
  let C := xor_bytes P (chacha20_stream key nonce 1 (length P)) in
  (C, poly1305_Sum otk (pad16 A ++ pad16 C ++ le_put 8 (Z.of_nat (length A)) ++ le_put 8 (Z.of_nat (length C)))).

(** The additional data of a record with [n] bytes of content at position [seqNum]: RFC 8446, 5.2 takes the header of the
    record, with the length of content and tag; RFC 5246, 6.2.3.3 the sequence number, type, version and length. *)
Definition record_aad (cipherSuite seqNum type : Z) (n : nat) : bytes :=
  if IsTLS13CipherSuite cipherSuite then [type; 0x03; 0x03] ++ be_put 2 (Z.of_nat n + 16)
  else be_put 8 seqNum ++ [type; 0x03; 0x03] ++ be_put 2 (Z.of_nat n).

(** The AEAD a suite names. *)
Definition aead_seal (cipherSuite : Z) (key nonce P A : bytes) : bytes * bytes :=
  if is_suite aes_gcm_suites cipherSuite then GCM_AE key nonce P A else CHACHA20_POLY1305 key nonce P A.

(** RFC 8446, section 5.3, and RFC 5288: the nonce of a record. *)
Definition record_nonce (cipherSuite : Z) (iv : bytes) (seqNum : Z) : bytes :=
  if is_suite tls12_gcm_suites cipherSuite then iv ++ be_put 8 seqNum
  else xor_bytes iv (zeros (length iv - 8) ++ be_put 8 seqNum).
End SplitAead.

(** ** Nonces *)

Lemma le_put_lookup n w j : (j < n)%nat -> le_put n w !! j = Some (u8 (Z.shiftr w (8 * Z.of_nat j))).
Proof.
  revert w j. induction n as [|n IH]; intros w j Hj; [lia|]. destruct j as [|j].
  - cbn [le_put]. cbn. unfold u8. by rewrite Z.shiftr_0_r.
  - cbn [le_put]. cbn [lookup list_lookup]. rewrite IH by lia. do 2 f_equal. change 256 with (2 ^ 8).
    rewrite <- Z.shiftr_div_pow2, Z.shiftr_shiftr by lia. f_equal. lia.
Qed.

Lemma be_put_lookup n w j : (j < n)%nat -> be_put n w !! j = Some (u8 (Z.shiftr w (8 * Z.of_nat (n - 1 - j)))).
Proof.
  intros Hj. unfold be_put. rewrite reverse_lookup by (rewrite length_le_put; lia). rewrite length_le_put.
  replace (n - S j)%nat with (n - 1 - j)%nat by lia. apply le_put_lookup. lia.
Qed.

Lemma xor_seq_spec n i nonce seqNum : (i + n <= length nonce)%nat -> exists out,
  xor_seq n i nonce seqNum = Ok out /\ length out = length nonce
  /\ forall p, (p < length nonce)%nat -> out !! p =
       (fun b => if ((i <=? length nonce - 1 - p) && (length nonce - 1 - p <? i + n))%nat
                 then Z.lxor b (u8 (shr64 seqNum (8 * Z.of_nat (length nonce - 1 - p)))) else b) <$> nonce !! p.
Proof.
  revert i nonce. induction n as [|n IH]; intros i nonce L.
  { exists nonce. split_and!; [done..|]. intros p Hp. destruct (nonce !! p); [|done]. cbn [fmap option_fmap option_map]. f_equal.
    rewrite Nat.add_0_r. destruct (Nat.leb_spec i (length nonce - 1 - p)), (Nat.ltb_spec (length nonce - 1 - p) i); (done || lia). }
  cbn [xor_seq]. rewrite (proj2 (Nat.ltb_ge _ _)) by lia. set (q := (length nonce - 1 - i)%nat).
  destruct (lookup_lt_is_Some_2 nonce q ltac:(lia)) as [b Hb]. unfold index. rewrite Hb. cbn [mbind res_bind].
  unfold set_index. rewrite (proj2 (Nat.ltb_lt _ _)) by lia. cbn [mbind res_bind].
  destruct (IH (S i) (<[q := Z.lxor b (u8 (shr64 seqNum (8 * Z.of_nat i)))]> nonce)) as (out & E & Lo & P); [rewrite length_insert; lia|].
  rewrite length_insert in *. exists out. split_and!; [done..|]. intros p Hp. rewrite P by done.
  destruct (decide (p = q)) as [->|Hne].
  - rewrite list_lookup_insert_eq, Hb by lia. cbn [fmap option_fmap option_map]. f_equal. replace (length nonce - 1 - q)%nat with i by lia.
    rewrite (proj2 (Nat.leb_gt (S i) i)), (proj2 (Nat.leb_le i i)), (proj2 (Nat.ltb_lt i (i + S n))) by lia. done.
  - rewrite list_lookup_insert_ne by done. destruct (nonce !! p) as [c|]; [|done]. cbn [fmap option_fmap option_map]. f_equal.
    assert (length nonce - 1 - p <> i)%nat by lia.
    destruct (Nat.leb_spec (S i) (length nonce - 1 - p)), (Nat.leb_spec i (length nonce - 1 - p)),
      (Nat.ltb_spec (length nonce - 1 - p) (S i + n)), (Nat.ltb_spec (length nonce - 1 - p) (i + S n)); (done || lia).
Qed.

Lemma xor_seq_8 iv seqNum : (8 <= length iv)%nat ->
  xor_seq 8 0 iv seqNum = Ok (xor_bytes iv (zeros (length iv - 8) ++ be_put 8 seqNum)).
Proof.
  intros L. destruct (xor_seq_spec 8 0 iv seqNum ltac:(lia)) as (out & -> & Lo & P). f_equal. apply list_eq. intros p.
  destruct (decide (p < length iv)%nat) as [Hp|Hp]; cycle 1.
  { rewrite !lookup_ge_None_2; [done|rewrite length_xor_bytes; lia|lia]. }
  rewrite P by done. unfold xor_bytes. rewrite lookup_zip_with. destruct (lookup_lt_is_Some_2 iv p Hp) as [b ->]. cbn [fmap option_fmap option_map mbind option_bind].
  cbn [Nat.leb andb]. unfold zeros. destruct (Nat.ltb_spec (length iv - 1 - p) (0 + 8)).
  - rewrite lookup_app_r, length_replicate, be_put_lookup by (rewrite ?length_replicate; lia). cbn [fmap option_fmap option_map mbind option_bind]. do 3 f_equal. unfold shr64. f_equal. lia.
  - rewrite lookup_app_l, lookup_replicate_2 by (rewrite ?length_replicate; lia). cbn [fmap option_fmap option_map mbind option_bind]. by rewrite Z.lxor_0_r.
Qed.

(** The IV of a suite: four bytes for AES-GCM of TLS 1.2, twelve otherwise. *)
Definition iv_ok (cipherSuite : Z) (iv : bytes) : Prop :=
  length iv = if is_suite tls12_gcm_suites cipherSuite then 4%nat else 12%nat.

Lemma constructNonce_spec sa seqNum : iv_ok (sa_cipherSuite sa) (sa_iv sa) ->
  constructNonce sa seqNum = Ok (record_nonce (sa_cipherSuite sa) (sa_iv sa) seqNum).
Proof.
  unfold iv_ok, constructNonce, record_nonce. destruct (is_suite tls12_gcm_suites _); intros L.
  - by rewrite pad_to_exact.
  - apply xor_seq_8. lia.
Qed.

Lemma record_nonce_spec cipherSuite iv seqNum : iv_ok cipherSuite iv -> is_bytes iv ->
  length (record_nonce cipherSuite iv seqNum) = 12%nat /\ is_bytes (record_nonce cipherSuite iv seqNum).
Proof.
  unfold iv_ok, record_nonce. destruct (is_suite tls12_gcm_suites _); intros L B.
  - rewrite length_app, length_be_put, L. split; [done|]. apply Forall_app; split; [done|apply be_put_bytes].
  - rewrite length_xor_bytes, length_app, length_be_put. unfold zeros. rewrite length_replicate. split; [lia|].
    apply xor_bytes_bytes; [done|]. apply Forall_app; split; [apply zeros_bytes|apply be_put_bytes].
Qed.

(** ** AES-GCM *)

Section Proofs.
Context {BC : BlockCipher} {CP : ChaChaPoly}.

Lemma be_get_counter nonce c : 0 <= c < 2 ^ 32 -> be_get (nonce ++ be_put 4 c) = be_get nonce * 2 ^ 32 + c.
Proof. intros Hc. rewrite be_get_app, length_be_put, (be_get_put 4) by done. done. Qed.

Lemma inc32_counter nonce c : length nonce = 12%nat -> 0 <= c < 2 ^ 32 ->
  inc32 (nonce ++ be_put 4 c) = nonce ++ be_put 4 ((c + 1) mod 2 ^ 32).
Proof. intros L Hc. unfold inc32. by rewrite take_app_length', drop_app_length', (be_get_put 4) by done. Qed.

(** Go's counter mode, which increments the whole block, is the standard's as long as the last 32 bits do not wrap. *)
Lemma ctr_is_gctr key nonce n c : length nonce = 12%nat -> is_bytes nonce -> 0 <= c -> c + Z.of_nat n <= 2 ^ 32 ->
  ctr128_blocks key n (be_get (nonce ++ be_put 4 c)) = gctr_blocks key n (nonce ++ be_put 4 c).
Proof.
  intros L B. revert c. induction n as [|n IH]; intros c Hc Hn; [done|]. cbn [ctr128_blocks gctr_blocks].
  assert (Bc : is_bytes (nonce ++ be_put 4 c)) by (apply Forall_app; split; [done|apply be_put_bytes]).
  rewrite be_put_get by (done || rewrite length_app, length_be_put; lia). f_equal. destruct n as [|n]; [done|].
  rewrite inc32_counter, (Z.mod_small (c + 1)) by (done || lia). rewrite <- IH by lia. f_equal.
  rewrite !be_get_counter by lia. pose proof (be_get_bound nonce B) as Bn. rewrite L in Bn.
  change (256 ^ Z.of_nat 12) with (2 ^ 96) in Bn. rewrite Z.mod_small by lia. lia.
Qed.

Lemma length_gctr key n CB : length (gctr_blocks key n CB) = (16 * n)%nat.
Proof. revert CB. induction n as [|n IH]; intros CB; [done|]. cbn [gctr_blocks]. rewrite length_app, aes_encrypt_length, IH. lia. Qed.

Lemma xor_bytes_take X Y : xor_bytes X (take (length X) Y) = xor_bytes X Y.
Proof. revert Y. induction X as [|x X IH]; intros [|y Y]; [done..|]. cbn. f_equal. apply IH. Qed.

Lemma padded_counter nonce v : length nonce = 12%nat -> <[15%nat := v]> (pad_to 16 nonce) = nonce ++ [0; 0; 0; v].
Proof.
  intros L. unfold pad_to. rewrite take_ge by lia. rewrite L. change (zeros (16 - 12)) with [0; 0; 0; 0].
  rewrite insert_app_r_alt by lia. by rewrite L.
Qed.

Lemma ctr_keystream_gctr key nonce X : length nonce = 12%nat -> is_bytes nonce -> Z.of_nat (length X) <= 2 ^ 36 - 32 ->
  xor_bytes X (ctr_keystream key (ctrNonce nonce) (length X)) = GCTR key (inc32 (nonce ++ [0; 0; 0; 1])) X.
Proof.
  intros L B Hx. unfold ctr_keystream, GCTR, ctrNonce. rewrite xor_bytes_take, padded_counter by done.
  change [0; 0; 0; 1] with (be_put 4 1). change [0; 0; 0; 2] with (be_put 4 2).
  rewrite inc32_counter by (done || lia). change ((1 + 1) mod 2 ^ 32) with 2. rewrite ctr_is_gctr; [done..|lia|].
  pose proof (Nat.div_mod_eq (length X + 15) 16). pose proof (Nat.mod_upper_bound (length X + 15) 16 ltac:(lia)). lia.
Qed.

Lemma length_GCTR key ICB X : length (GCTR key ICB X) = length X.
Proof.
  unfold GCTR. rewrite length_xor_bytes, length_gctr.
  pose proof (Nat.div_mod_eq (length X + 15) 16). pose proof (Nat.mod_upper_bound (length X + 15) 16 ltac:(lia)). lia.
Qed.

Lemma gctr_bytes key n CB : is_bytes (gctr_blocks key n CB).
Proof. revert CB. induction n as [|n IH]; intros CB; [by constructor|]. apply Forall_app; split; [apply aes_encrypt_bytes|apply IH]. Qed.

Lemma GCTR_bytes key ICB X : is_bytes X -> is_bytes (GCTR key ICB X).
Proof. intros B. apply xor_bytes_bytes; [done|apply gctr_bytes]. Qed.

(** The tag TEE_T computes from TEE_K's secrets is the standard's. *)
Lemma gcm_tag_from_secrets cipherSuite key nonce P A : is_suite aes_gcm_suites cipherSuite = true ->
  length nonce = 12%nat -> is_bytes P -> is_bytes A -> Z.of_nat (length P) < 2 ^ 61 -> Z.of_nat (length A) < 2 ^ 61 ->
  ComputeTagFromSecrets (GCM_AE key nonce P A).1 (generateGCMTagSecrets key nonce) cipherSuite A = Ok (GCM_AE key nonce P A).2.
Proof.
  intros Hs L BP BA LP LA. unfold ComputeTagFromSecrets. rewrite Hs.
  assert (LS : length (generateGCMTagSecrets key nonce) = 32%nat) by (unfold generateGCMTagSecrets; by rewrite length_app, !aes_encrypt_length).
  rewrite LS. change (negb (32 =? 32)%nat) with false. f_equal. unfold GCM_AE. cbn [fst snd]. set (C := GCTR key _ P).
  assert (LC : length C = length P) by apply length_GCTR. assert (BC' : is_bytes C) by by apply GCTR_bytes.
  assert (slice (generateGCMTagSecrets key nonce) 0 16 = aes_encrypt key (zeros 16)) as ->.
  { unfold generateGCMTagSecrets. apply slice_app_hit. apply aes_encrypt_length. }
  assert (slice (generateGCMTagSecrets key nonce) 16 32 = aes_encrypt key (nonce ++ [0; 0; 0; 1])) as ->.
  { unfold generateGCMTagSecrets. rewrite slice_app_skip by (rewrite aes_encrypt_length; lia). rewrite aes_encrypt_length.
    change (16 - 16)%nat with 0%nat. change (32 - 16)%nat with 16%nat. rewrite slice_all by apply aes_encrypt_length.
    by rewrite (take_ge nonce), padded_counter by lia. }
  rewrite !(u64_id (_ * 8)) by (unfold is_u64; lia). set (lens := be_put 8 _ ++ be_put 8 _).
  assert (Ll : length lens = 16%nat) by (unfold lens; by rewrite length_app, !length_be_put).
  rewrite ghash_is_standard; [|apply aes_encrypt_length|apply aes_encrypt_bytes|].
  2: { rewrite !Forall_cons. split_and!; [done..| |done]. apply Forall_app; split; apply be_put_bytes. }
  cbn [map concat]. rewrite app_nil_r. assert (pad16 lens = lens) as -> by (unfold pad16; rewrite Ll; by rewrite app_nil_r).
  unfold GCTR. rewrite length_be_put. change ((16 + 15) / 16)%nat with 1%nat. cbn [gctr_blocks]. rewrite app_nil_r.
  subst lens. rewrite !(Z.mul_comm _ 8). done.
Qed.

(** ** Both families *)

Definition key_ok (cipherSuite : Z) (key : bytes) : Prop :=
  if is_suite aes_gcm_suites cipherSuite then is_ok (aes_NewCipher key) = true else length key = 32%nat.

Lemma aes_NewCipher_Ok key b : aes_NewCipher key = Ok b -> b = key.
Proof. unfold aes_NewCipher. destruct (_ || _); [by intros [= ->]|done]. Qed.

(** The key stream of a record and the secrets TEE_K gives away; neither depends on what is encrypted. *)
Definition data_stream (cipherSuite : Z) (key nonce : bytes) (n : nat) : bytes :=
  if is_suite aes_gcm_suites cipherSuite then ctr_keystream key (ctrNonce nonce) n else chacha20_stream key nonce 1 n.

Definition split_secrets (cipherSuite : Z) (key nonce : bytes) : bytes :=
  if is_suite aes_gcm_suites cipherSuite then generateGCMTagSecrets key nonce else generateChaChaTagSecrets key nonce.

Definition aead_suite (cipherSuite : Z) : Prop := is_suite aes_gcm_suites cipherSuite || is_suite chacha_suites cipherSuite = true.

(** The tag of a sealed plaintext comes from its ciphertext and the secrets of its nonce. *)
Lemma tag_from_secrets cipherSuite key nonce P A : aead_suite cipherSuite -> key_ok cipherSuite key ->
  length nonce = 12%nat -> is_bytes nonce -> is_bytes P -> is_bytes A -> Z.of_nat (length P) <= 2 ^ 36 - 32 -> Z.of_nat (length A) < 2 ^ 61 ->
  let secrets := split_secrets cipherSuite key nonce in
  let '(C, T) := aead_seal cipherSuite key nonce P A in
  ComputeTagFromSecrets C secrets cipherSuite A = Ok T /\ length secrets = 32%nat
  /\ C = xor_bytes P (data_stream cipherSuite key nonce (length P)) /\ length C = length P.
Proof.
  intros Hs Hk Ln Bn BP BA LP LA secrets. unfold key_ok in Hk. unfold secrets, split_secrets, data_stream, aead_suite, aead_seal in *. clear secrets.
  destruct (is_suite aes_gcm_suites cipherSuite) eqn:Hg.
  - pose proof (gcm_tag_from_secrets _ key nonce P A Hg Ln BP BA ltac:(lia) LA) as T.
    destruct (GCM_AE key nonce P A) as [C T0] eqn:E. cbn [fst snd] in T. rewrite ctr_keystream_gctr by done.
    unfold GCM_AE in E. injection E as <- _. split_and!; [done| |done|apply length_GCTR].
    unfold generateGCMTagSecrets. by rewrite length_app, !aes_encrypt_length.
  - cbn [orb] in Hs. unfold CHACHA20_POLY1305. set (C := xor_bytes P _).
    assert (N : chacha20_new key nonce = Ok ()) by (unfold chacha20_new; by rewrite Hk, Ln).
    unfold generateChaChaTagSecrets. rewrite N. cbn [is_ok].
    assert (LS : length (chacha20_stream key nonce 0 32) = 32%nat) by apply chacha20_length.
    split_and!; [|done|done|unfold C; rewrite length_xor_bytes, chacha20_length; lia].
    unfold ComputeTagFromSecrets. rewrite Hg, Hs, LS. change (negb (32 =? 32)%nat) with false. cbv iota.
    rewrite take_ge by lia. unfold computePoly1305Tag. rewrite LS. change (negb (32 =? 32)%nat) with false. cbv iota.
    unfold pad16. by rewrite <- !app_assoc.
Qed.

(** What TEE_K encrypts is the plaintext under the key stream, with the secrets of the nonce. *)
Lemma encrypt_without_tag sa P A : aead_suite (sa_cipherSuite sa) -> sa_seq sa <> MaxUint64 -> iv_ok (sa_cipherSuite sa) (sa_iv sa) ->
  is_bytes (sa_iv sa) -> key_ok (sa_cipherSuite sa) (sa_key sa) ->
  let nonce := record_nonce (sa_cipherSuite sa) (sa_iv sa) (sa_seq sa) in
  EncryptWithoutTag sa P A = Ok (xor_bytes P (data_stream (sa_cipherSuite sa) (sa_key sa) nonce (length P)),
                                 split_secrets (sa_cipherSuite sa) (sa_key sa) nonce, SetSequence sa (add64 (sa_seq sa) 1)).
Proof.
  intros Hs Hq Hiv Biv Hk nonce. destruct (record_nonce_spec _ _ (sa_seq sa) Hiv Biv) as [Ln Bn]. fold nonce in Ln, Bn.
  unfold EncryptWithoutTag. rewrite (proj2 (Z.eqb_neq _ _) Hq), constructNonce_spec by done. fold nonce. cbn [mbind res_bind].
  unfold key_ok in Hk. unfold split_secrets, data_stream, aead_suite in *. destruct (is_suite aes_gcm_suites (sa_cipherSuite sa)) eqn:Hg.
  - destruct (aes_NewCipher (sa_key sa)) as [b| |] eqn:Eb; [|done..]. by apply aes_NewCipher_Ok in Eb as ->.
  - cbn [orb] in Hs. rewrite Hs. assert (N : chacha20_new (sa_key sa) nonce = Ok ()) by (unfold chacha20_new; by rewrite Hk, Ln). by rewrite N.
Qed.

(** What TEE_K sends for a plaintext, and what TEE_T makes of it. *)
Lemma split_seals sa P A : aead_suite (sa_cipherSuite sa) ->
  sa_seq sa <> MaxUint64 -> iv_ok (sa_cipherSuite sa) (sa_iv sa) -> is_bytes (sa_iv sa) -> key_ok (sa_cipherSuite sa) (sa_key sa) ->
  is_bytes P -> is_bytes A -> Z.of_nat (length P) <= 2 ^ 36 - 32 -> Z.of_nat (length A) < 2 ^ 61 ->
  let nonce := record_nonce (sa_cipherSuite sa) (sa_iv sa) (sa_seq sa) in
  let secrets := split_secrets (sa_cipherSuite sa) (sa_key sa) nonce in
  let '(C, T) := aead_seal (sa_cipherSuite sa) (sa_key sa) nonce P A in
  EncryptWithoutTag sa P A = Ok (C, secrets, SetSequence sa (add64 (sa_seq sa) 1))
  /\ ComputeTagFromSecrets C secrets (sa_cipherSuite sa) A = Ok T /\ length secrets = 32%nat
  /\ C = xor_bytes P (data_stream (sa_cipherSuite sa) (sa_key sa) nonce (length P)) /\ length C = length P.
Proof.
  intros Hs Hq Hiv Biv Hk BP BA LP LA nonce secrets. destruct (record_nonce_spec _ _ (sa_seq sa) Hiv Biv) as [Ln Bn].
  pose proof (tag_from_secrets (sa_cipherSuite sa) (sa_key sa) nonce P A Hs Hk Ln Bn BP BA LP LA) as T. cbv zeta in T. fold secrets in T.
  rewrite encrypt_without_tag by done. fold nonce secrets. destruct (aead_seal _ _ nonce P A) as [C T0]. destruct T as (? & ? & -> & ?). done.
Qed.

Lemma ctr128_length key n c : length (ctr128_blocks key n c) = (16 * n)%nat.
Proof. revert c. induction n as [|n IH]; intros c; [done|]. cbn [ctr128_blocks]. rewrite length_app, aes_encrypt_length, IH. lia. Qed.

Lemma length_data_stream cipherSuite key nonce n : length (data_stream cipherSuite key nonce n) = n.
Proof.
  unfold data_stream. destruct (is_suite _ _); [|apply chacha20_length]. unfold ctr_keystream. rewrite length_take, ctr128_length.
  pose proof (Nat.div_mod_eq (n + 15) 16). pose proof (Nat.mod_upper_bound (n + 15) 16 ltac:(lia)). lia.
Qed.

Lemma aead_seal_length cipherSuite key nonce P A : length (aead_seal cipherSuite key nonce P A).1 = length P.
Proof.
  unfold aead_seal. destruct (is_suite _ _); [apply length_GCTR|]. cbn [CHACHA20_POLY1305 fst]. rewrite length_xor_bytes, chacha20_length. lia.
Qed.

Lemma data_stream_bytes cipherSuite key nonce n : is_bytes (data_stream cipherSuite key nonce n).
Proof.
  unfold data_stream. destruct (is_suite _ _); [|apply chacha20_bytes]. unfold ctr_keystream. apply Forall_take. generalize (be_get (ctrNonce nonce)).
  induction ((n + 15) / 16)%nat as [|m IH]; intros c; [constructor|]. cbn [ctr128_blocks]. apply Forall_app. split; [apply aes_encrypt_bytes|apply IH].
Qed.

Lemma be_put_two w : be_put 2 w = [u8 (Z.shiftr w 8); u8 (Z.land w 0xFF)] /\ be_put 2 (w mod 2 ^ 16) = be_put 2 w.
Proof.
  assert (P2 : forall w, be_put 2 w = [u8 (Z.shiftr w 8); u8 (Z.land w 0xFF)]).
  { clear w. intros w. unfold be_put. cbn [le_put]. unfold u8. rewrite Z.shiftr_div_pow2 by lia. change 0xFF with (Z.ones 8).
    rewrite Z.land_ones by lia. change (2 ^ 8) with 256. rewrite Zmod_mod. done. }
  split; [apply P2|]. rewrite !P2. unfold u8. change 0xFF with (Z.ones 8). rewrite !Z.land_ones, !Z.shiftr_div_pow2 by lia.
  change (2 ^ 8) with 256. change (2 ^ 16) with 65536. f_equal; [|f_equal]; Z.div_mod_to_equations; lia.
Qed.

(** What the code adds to a request record is what TLS prescribes for application data. *)
Lemma additional_data_rfc cipherSuite seqNum n : CreateAdditionalData cipherSuite seqNum n = record_aad cipherSuite seqNum 23 n.
Proof.
  unfold CreateAdditionalData, record_aad, CreateAdditionalDataTLS13, CreateAdditionalDataTLS12. destruct (IsTLS13CipherSuite _).
  - rewrite Nat2Z.inj_add. by rewrite (proj1 (be_put_two _)).
  - by rewrite (proj2 (be_put_two _)).
Qed.

Lemma additional_data_bytes cipherSuite seqNum n : is_bytes (CreateAdditionalData cipherSuite seqNum n).
Proof.
  assert (U : forall z, is_byte (u8 z)) by (intros z; unfold u8, is_byte; apply Z.mod_pos_bound; lia).
  unfold CreateAdditionalData, CreateAdditionalDataTLS13, CreateAdditionalDataTLS12. destruct (IsTLS13CipherSuite _).
  - repeat (constructor; [by apply U || (unfold is_byte, RecordTypeApplicationData; lia)|]). constructor.
  - apply Forall_app; split; [apply be_put_bytes|]. apply Forall_app; split; [|apply be_put_bytes].
    repeat (constructor; [unfold is_byte, RecordTypeApplicationData; lia|]). constructor.
Qed.

Lemma additional_data_length cipherSuite seqNum n : (length (CreateAdditionalData cipherSuite seqNum n) <= 13)%nat.
Proof.
  unfold CreateAdditionalData, CreateAdditionalDataTLS13, CreateAdditionalDataTLS12. destruct (IsTLS13CipherSuite _); [cbn; lia|].
  rewrite !length_app, !length_be_put. cbn. lia.
Qed.
End Proofs.
