(* ===== verification/Cbc.v ===== *)
(** * TLS 1.2 CBC records ([minitls/cbc12.go])

    Record protection with AES-CBC and HMAC, in the order of RFC 5246
    (MAC, then encrypt) and of RFC 7366 (encrypt, then MAC).  The padding check
    runs in constant time; the reference below reads the padding directly. *)

From S2P Require Import Prelude Bytes Crypto CipherSuite Prf SplitAead.

(** [cipher.Block.Decrypt] undoes [Encrypt]. *)
Class BlockDecipher `{BC : BlockCipher} := {
  aes_decrypt : bytes -> bytes -> bytes;
  aes_decrypt_length : forall key block, length (aes_decrypt key block) = 16%nat;
  aes_decrypt_bytes : forall key block, is_bytes (aes_decrypt key block);
  aes_decrypt_encrypt : forall key block, is_ok (aes_NewCipher key) = true -> length block = 16%nat -> is_bytes block ->
    aes_decrypt key (aes_encrypt key block) = block;
}.

Definition tlsRecordHeaderLen : nat := 5.
Definition tls12MaxPlaintext : Z := 16384.
Definition tls12MaxCBCRecordPayload : Z := tls12MaxPlaintext + 2048.
Definition VersionTLS12 : Z := 0x0303.
Definition ErrBadRecordMAC : error := "tls: bad record MAC".

Inductive TLS12CBCRecordMode :=
  | TLS12CBCRecordModeUnspecified
  | TLS12CBCRecordModeMACThenEncrypt
  | TLS12CBCRecordModeEncryptThenMAC.

#[export] Instance record_mode_dec : EqDecision TLS12CBCRecordMode.
Proof. solve_decision. Defined.

Record TLS12CBCReadState := mkReadState {
  rs_CipherSuite : Z;
  rs_Mode : TLS12CBCRecordMode;
  rs_ReadKey : bytes;
  rs_ReadMACKey : bytes;
  rs_ReadIV : bytes;
  rs_ReadSequence : Z;
}.

Record TLS12CBCContext := mkCbc {
  cc_writeKey : bytes;
  cc_writeMACKey : bytes;
  cc_writeIV : bytes;
  cc_readKey : bytes;
  cc_readMACKey : bytes;
  cc_readIV : bytes;
  cc_writeSeq : Z;
  cc_readSeq : Z;
  cc_cipherSuite : Z;
  cc_mode : TLS12CBCRecordMode;
}.

(** [crypto/sha1] has a constant-time digest, so that the check of the SHA-1 suites never fails. *)
Definition validateRead (ctx : TLS12CBCContext) : res unit :=
  match GetCipherSuiteInfo (cc_cipherSuite ctx) with
  | None => Err "unsupported TLS 1.2 CBC cipher suite"
  | Some info =>
      fail_if (negb (ci_IsCBC info)) "unsupported TLS 1.2 CBC cipher suite";;
      fail_if (bool_decide (cc_mode ctx = TLS12CBCRecordModeUnspecified)) "invalid TLS 1.2 CBC record mode";;
      fail_if (negb (length (cc_readKey ctx) =? ci_KeySize info)%nat || negb (length (cc_readMACKey ctx) =? ci_MACSize info)%nat
        || negb (length (cc_readIV ctx) =? ci_IVSize info)%nat) "invalid TLS 1.2 CBC read-state lengths";;
      fail_if (negb (String.eqb (ci_MACHash info) "SHA1" || String.eqb (ci_MACHash info) "SHA256" || String.eqb (ci_MACHash info) "SHA384"))
        "unsupported TLS 1.2 CBC MAC hash";;
      Ok ()
  end.

Definition validate (ctx : TLS12CBCContext) : res unit :=
  _ ← validateRead ctx;
  match GetCipherSuiteInfo (cc_cipherSuite ctx) with
  | None => Panic
  | Some info =>
      fail_if (negb (length (cc_writeKey ctx) =? ci_KeySize info)%nat || negb (length (cc_writeMACKey ctx) =? ci_MACSize info)%nat
        || negb (length (cc_writeIV ctx) =? ci_IVSize info)%nat) "invalid TLS 1.2 CBC write-state lengths";;
      Ok ()
  end.

Definition NewTLS12CBCContext (keys : option TLS12CBCKeys) (cipherSuite : Z) (mode : TLS12CBCRecordMode) : res TLS12CBCContext :=
  match keys with
  | None => Err "TLS 1.2 CBC keys are nil"
  | Some keys =>
      let ctx := mkCbc (ck_ClientKey keys) (ck_ClientMACKey keys) (ck_ClientIV keys) (ck_ServerKey keys) (ck_ServerMACKey keys)
                   (ck_ServerIV keys) 0 0 cipherSuite mode in
      _ ← validate ctx; Ok ctx
  end.

Definition NewTLS12CBCReadContext (state : option TLS12CBCReadState) : res TLS12CBCContext :=
  match state with
  | None => Err "TLS 1.2 CBC read state is nil"
  | Some state =>
      let ctx := mkCbc [] [] [] (rs_ReadKey state) (rs_ReadMACKey state) (rs_ReadIV state) 0 (rs_ReadSequence state)
                   (rs_CipherSuite state) (rs_Mode state) in
      _ ← validateRead ctx; Ok ctx
  end.

Definition cbc_Destroy (ctx : TLS12CBCContext) : TLS12CBCContext := mkCbc [] [] [] [] [] [] 0 0 0 TLS12CBCRecordModeUnspecified.

Definition ExportReadState (ctx : TLS12CBCContext) : TLS12CBCReadState :=
  mkReadState (cc_cipherSuite ctx) (cc_mode ctx) (cc_readKey ctx) (cc_readMACKey ctx) (cc_readIV ctx) (cc_readSeq ctx).

Definition bump_write (ctx : TLS12CBCContext) : TLS12CBCContext :=
  mkCbc (cc_writeKey ctx) (cc_writeMACKey ctx) (cc_writeIV ctx) (cc_readKey ctx) (cc_readMACKey ctx) (cc_readIV ctx)
    (add64 (cc_writeSeq ctx) 1) (cc_readSeq ctx) (cc_cipherSuite ctx) (cc_mode ctx).

Definition bump_read (ctx : TLS12CBCContext) : TLS12CBCContext :=
  mkCbc (cc_writeKey ctx) (cc_writeMACKey ctx) (cc_writeIV ctx) (cc_readKey ctx) (cc_readMACKey ctx) (cc_readIV ctx)
    (cc_writeSeq ctx) (add64 (cc_readSeq ctx) 1) (cc_cipherSuite ctx) (cc_mode ctx).

(** ** Padding *)

Definition appendTLSPadding (input : bytes) (blockSize : nat) : bytes :=
  let paddingBytes := (blockSize - length input mod blockSize)%nat in
  input ++ replicate paddingBytes (u8 (Z.of_nat paddingBytes - 1)).

Definition roundUpTLS12 (value multiple : nat) : nat := (value + (multiple - value mod multiple) mod multiple)%nat.

(** [byte(int32(^t) >> 31)] for a [uint]. *)
Definition sign_mask (t : Z) : Z := u8 (Z.shiftr (i32 (u64 (Z.lnot t))) 31).

(** The loop over the last bytes, [n] turns from [i] on. *)
Fixpoint padding_loop (n i : nat) (payload : bytes) (paddingLen good : Z) : res Z :=
  match n with
  | O => Ok good
  | S n =>
      let mask := sign_mask (sub64 paddingLen (Z.of_nat i)) in
      b ← index payload (length payload - 1 - i);
      padding_loop n (S i) payload paddingLen (Z.ldiff good (Z.lxor (Z.land mask paddingLen) (Z.land mask b)))
  end.

(** All ones when all bits are set, zero otherwise. *)
Definition fold_good (good : Z) : Z :=
  let good := Z.land good (u8 (Z.shiftl good 4)) in
  let good := Z.land good (u8 (Z.shiftl good 2)) in
  let good := Z.land good (u8 (Z.shiftl good 1)) in
  u8 (Z.shiftr ((good + 128) mod 256 - 128) 7).

Definition extractTLS12Padding (payload : bytes) : res (Z * Z) :=
  if (length payload <? 1)%nat then Ok (0, 0) else
  paddingLen ← index payload (length payload - 1);
  let good := sign_mask (sub64 (Z.of_nat (length payload) - 1) paddingLen) in
  good ← padding_loop (Nat.min 256 (length payload)) 0 payload paddingLen good;
  let good := fold_good good in
  Ok (Z.land paddingLen good + 1, good).

Section Records.
Context {BC : BlockCipher} {BD : BlockDecipher} {HS : Hashes}.

(** ** Encryption *)

(** [CryptBlocks] over [n] full blocks. *)
Fixpoint cbc_encrypt (n : nat) (key prev data : bytes) : bytes :=
  match n with
  | O => []
  | S n => let c := aes_encrypt key (xor_bytes (take 16 data) prev) in c ++ cbc_encrypt n key c (drop 16 data)
  end.

Fixpoint cbc_decrypt (n : nat) (key prev data : bytes) : bytes :=
  match n with
  | O => []
  | S n => xor_bytes (aes_decrypt key (take 16 data)) prev ++ cbc_decrypt n key (take 16 data) (drop 16 data)
  end.

(** It panics on input that is not full blocks. *)
Definition CryptBlocks (crypt : nat -> bytes -> bytes -> bytes -> bytes) (key iv data : bytes) : res bytes :=
  if negb (length data mod 16 =? 0)%nat then Panic else Ok (crypt (length data / 16)%nat key iv data).

(** [extra] is only hashed for timing, after the sum is taken. *)
Definition tls12CBCMAC (macKey : bytes) (cipherSuite seq contentType : Z) (length_ : Z) (data : bytes) : res bytes :=
  match GetCipherSuiteInfo cipherSuite with
  | None => Panic
  | Some info =>
      if String.eqb (ci_MACHash info) "SHA1" || String.eqb (ci_MACHash info) "SHA256" || String.eqb (ci_MACHash info) "SHA384"
      then let aad := be_put 8 seq ++ [contentType] ++ be_put 2 VersionTLS12 ++ be_put 2 (length_ mod 2 ^ 16) in
           Ok (hmac (ci_MACHash info) macKey (aad ++ data))
      else Panic
  end.

(** [random]: the 16 bytes [io.ReadFull] reads, when it does not fail. *)
Definition EncryptRecord (ctx : TLS12CBCContext) (random : option bytes) (contentType : Z) (plaintext : bytes)
    : res (bytes * TLS12CBCContext) :=
  fail_if (cc_writeSeq ctx =? MaxUint64) ErrSequenceNumberOverflow;;
  fail_if (tls12MaxPlaintext <? Z.of_nat (length plaintext)) "TLS plaintext is too long";;
  fail_if ((length (cc_writeKey ctx) =? 0)%nat) "TLS 1.2 CBC write state is unavailable";;
  key ← match aes_NewCipher (cc_writeKey ctx) with Err _ => Err "create TLS 1.2 CBC write cipher" | r => r end;
  match random with
  | None => Err "generate TLS 1.2 CBC explicit IV"
  | Some explicitIV =>
      encryptedPlaintext ←
        (if bool_decide (cc_mode ctx = TLS12CBCRecordModeMACThenEncrypt) then
           mac ← tls12CBCMAC (cc_writeMACKey ctx) (cc_cipherSuite ctx) (cc_writeSeq ctx) contentType (Z.of_nat (length plaintext)) plaintext;
           Ok (plaintext ++ mac)
         else Ok plaintext);
      ciphertext ← CryptBlocks cbc_encrypt key explicitIV (appendTLSPadding encryptedPlaintext 16);
      let encryptedFragment := explicitIV ++ ciphertext in
      payload ←
        (if bool_decide (cc_mode ctx = TLS12CBCRecordModeEncryptThenMAC) then
           mac ← tls12CBCMAC (cc_writeMACKey ctx) (cc_cipherSuite ctx) (cc_writeSeq ctx) contentType
                   (Z.of_nat (length encryptedFragment)) encryptedFragment;
           Ok (encryptedFragment ++ mac)
         else Ok encryptedFragment);
      fail_if (tls12MaxCBCRecordPayload <? Z.of_nat (length payload)) "TLS 1.2 CBC record payload is too large";;
      Ok ([contentType; 0x03; 0x03] ++ be_put 2 (Z.of_nat (length payload) mod 2 ^ 16) ++ payload, bump_write ctx)
  end.

(** ** Decryption *)

Definition validTLS12CBCHeader (header payload : bytes) : bool :=
  if negb (length header =? tlsRecordHeaderLen)%nat || (tls12MaxCBCRecordPayload <? Z.of_nat (length payload)) then false else
  if negb (be_get (slice header 1 3) =? VersionTLS12) then false else
  be_get (slice header 3 5) =? Z.of_nat (length payload).

Definition DecryptRecord (ctx : TLS12CBCContext) (header payload : bytes) : res (bytes * TLS12CBCContext) :=
  fail_if (cc_readSeq ctx =? MaxUint64) ErrSequenceNumberOverflow;;
  fail_if (negb (validTLS12CBCHeader header payload)) ErrBadRecordMAC;;
  contentType ← index header 0;
  match GetCipherSuiteInfo (cc_cipherSuite ctx) with
  | None => Panic
  | Some info =>
      let etm := bool_decide (cc_mode ctx = TLS12CBCRecordModeEncryptThenMAC) in
      let mte := bool_decide (cc_mode ctx = TLS12CBCRecordModeMACThenEncrypt) in
      encryptedFragment ←
        (if etm then
           fail_if ((length payload <? ci_MACSize info)%nat) ErrBadRecordMAC;;
           let encryptedFragment := take (length payload - ci_MACSize info) payload in
           let remoteMAC := drop (length payload - ci_MACSize info) payload in
           localMAC ← tls12CBCMAC (cc_readMACKey ctx) (cc_cipherSuite ctx) (cc_readSeq ctx) contentType
                        (Z.of_nat (length encryptedFragment)) encryptedFragment;
           fail_if (negb (ct_equal localMAC remoteMAC)) ErrBadRecordMAC;;
           Ok encryptedFragment
         else Ok payload);
      key ← match aes_NewCipher (cc_readKey ctx) with Err _ => Err ErrBadRecordMAC | r => r end;
      let minimumCiphertext := if mte then roundUpTLS12 (ci_MACSize info + 1) 16 else 16%nat in
      fail_if (((length encryptedFragment <? 16 + minimumCiphertext)%nat) || negb ((length encryptedFragment - 16) mod 16 =? 0)%nat)
        ErrBadRecordMAC;;
      plaintextWithPadding ← CryptBlocks cbc_decrypt key (take 16 encryptedFragment) (drop 16 encryptedFragment);
      let len := Z.of_nat (length plaintextWithPadding) in
      '(paddingToRemove, paddingGood) ← extractTLS12Padding plaintextWithPadding;
      if etm then
        fail_if (negb (paddingGood =? 255) || (len <? paddingToRemove)) ErrBadRecordMAC;;
        let plaintext := take (Z.to_nat (len - paddingToRemove)) plaintextWithPadding in
        fail_if (tls12MaxPlaintext <? Z.of_nat (length plaintext)) ErrBadRecordMAC;;
        Ok (plaintext, bump_read ctx)
      else
        let macSize := Z.of_nat (ci_MACSize info) in
        let n := len - macSize - paddingToRemove in
        let n := if Z.shiftr (u32 n) 31 =? 1 then 0 else n in
        fail_if (len <? n + macSize) ErrBadRecordMAC;;
        let remoteMAC := slice plaintextWithPadding (Z.to_nat n) (Z.to_nat (n + macSize)) in
        localMAC ← tls12CBCMAC (cc_readMACKey ctx) (cc_cipherSuite ctx) (cc_readSeq ctx) contentType n (take (Z.to_nat n) plaintextWithPadding);
        let macAndPaddingGood := Z.land (if ct_equal localMAC remoteMAC then 1 else 0) paddingGood in
        fail_if (negb (macAndPaddingGood =? 1) || (tls12MaxPlaintext <? n)) ErrBadRecordMAC;;
        Ok (take (Z.to_nat n) plaintextWithPadding, bump_read ctx)
  end.
End Records.

(** ** The padding check *)

(** The reference: the last byte tells how many bytes like it come before it; what is left when they are removed. *)
Definition unpad (D : bytes) : option bytes :=
  match last D with
  | None => None
  | Some k =>
      let n := S (Z.to_nat k) in
      if bool_decide (drop (length D - n) D = replicate n k) then Some (take (length D - n) D) else None
  end.

Lemma unpad_Some D P : is_bytes D -> unpad D = Some P <-> exists k, is_byte k /\ D = P ++ replicate (S (Z.to_nat k)) k.
Proof.
  intros B. unfold unpad. split.
  - destruct (last D) as [k|] eqn:L; [|done]. case_bool_decide as E; [|done]. intros [= <-]. exists k. split.
    + rewrite Forall_forall in B. apply B. by apply last_Some_elem_of in L.
    + by rewrite <- E, take_drop.
  - intros (k & Hk & ->). replace (replicate (S (Z.to_nat k)) k) with (replicate (Z.to_nat k) k ++ [k]) at 1
      by (by rewrite <- replicate_cons_app).
    rewrite app_assoc, last_snoc, length_app, length_replicate.
    replace (length P + S (Z.to_nat k) - S (Z.to_nat k))%nat with (length P) by lia.
    rewrite drop_app_length, take_app_length. by rewrite bool_decide_eq_true_2.
Qed.

Lemma sign_mask_spec d : - 2 ^ 31 <= d < 2 ^ 31 -> sign_mask (u64 d) = if 0 <=? d then 255 else 0.
Proof.
  intros H. unfold sign_mask.
  assert (E : i32 (u64 (Z.lnot (u64 d))) = - d - 1).
  { unfold i32, u64. replace (Z.lnot (d mod 2 ^ 64)) with (- 1 - d mod 2 ^ 64) by (unfold Z.lnot; lia).
    rewrite Zminus_mod_idemp_r.
    assert (M : ((-1 - d) mod 2 ^ 64 + 2 ^ 31) mod 2 ^ 32 = (- 1 - d + 2 ^ 31) mod 2 ^ 32).
    { change (2 ^ 64) with (2 ^ 32 * 2 ^ 32). rewrite Z.rem_mul_r by lia. rewrite <- Z.add_assoc, (Z.add_comm (2 ^ 32 * _)), Z.add_assoc, (Z.mul_comm (2 ^ 32)).
      rewrite Z_mod_plus_full, Zplus_mod_idemp_l. done. }
    rewrite M, Z.mod_small by lia. lia. }
  rewrite E. rewrite Z.shiftr_div_pow2 by lia. destruct (Z.leb_spec 0 d).
  - assert ((- d - 1) / 2 ^ 31 = -1) as -> by (symmetry; apply Z.div_unique with (- d - 1 + 2 ^ 31); lia). done.
  - rewrite Z.div_small by lia. done.
Qed.

Lemma byte_in b : is_byte b -> b ∈ seqZ 0 256.
Proof. unfold is_byte. intros. apply elem_of_seqZ. lia. Qed.

Lemma fold_good_spec g : is_byte g -> fold_good g = if g =? 255 then 255 else 0.
Proof.
  intros H%byte_in. assert (A : forallb (fun g => fold_good g =? (if g =? 255 then 255 else 0)) (seqZ 0 256) = true) by by vm_compute.
  rewrite forallb_forall in A. apply Z.eqb_eq, A, list_elem_of_In, H.
Qed.

Lemma ldiff_full g x : is_byte g -> is_byte x -> is_byte (Z.ldiff g x) /\ (Z.ldiff g x = 255 <-> g = 255 /\ x = 0).
Proof.
  intros Hg%byte_in Hx%byte_in.
  assert (A : forallb (fun g => forallb (fun x => (0 <=? Z.ldiff g x) && (Z.ldiff g x <? 256)
      && Bool.eqb (Z.ldiff g x =? 255) ((g =? 255) && (x =? 0))) (seqZ 0 256)) (seqZ 0 256) = true) by by vm_compute.
  rewrite forallb_forall in A. specialize (A g (proj1 (list_elem_of_In _ _) Hg)). rewrite forallb_forall in A.
  specialize (A x (proj1 (list_elem_of_In _ _) Hx)). apply andb_true_iff in A as [[A1 A2]%andb_true_iff A3].
  apply Z.leb_le in A1. apply Z.ltb_lt in A2. split; [unfold is_byte; lia|]. apply Bool.eqb_prop in A3.
  rewrite <- Z.eqb_eq, A3, andb_true_iff, !Z.eqb_eq. done.
Qed.

Lemma padding_loop_spec p payload n : is_byte p -> is_bytes payload -> forall i good, is_byte good -> (i + n <= length payload)%nat -> (i + n <= 256)%nat ->
  exists g, padding_loop n i payload p good = Ok g /\ is_byte g
  /\ (g = 255 <-> good = 255 /\ forall j, (i <= j < i + n)%nat -> Z.of_nat j <= p -> payload !! (length payload - 1 - j)%nat = Some p).
Proof.
  intros Hp B. induction n as [|n IH]; intros i good Hg HL H2; cbn [padding_loop].
  { exists good. split; [done|]. split; [done|]. split; [|by intros []]. intros ->. split; [done|]. intros. lia. }
  destruct (lookup_lt_is_Some_2 payload (length payload - 1 - i) ltac:(lia)) as [b Hb]. unfold index. rewrite Hb. cbn [mbind res_bind].
  assert (Bb : is_byte b) by (rewrite Forall_forall in B; apply B; by eapply list_elem_of_lookup_2).
  unfold sub64. rewrite sign_mask_spec by (unfold is_byte in Hp; lia). set (mask := if 0 <=? p - Z.of_nat i then 255 else 0).
  set (x := Z.lxor _ _).
  assert (X : is_byte x /\ (x = 0 <-> (Z.of_nat i <= p -> b = p))).
  { assert (M : forall y, is_byte y -> Z.land 255 y = y).
    { intros y Hy. rewrite Z.land_comm. change 255 with (Z.ones 8). rewrite Z.land_ones by lia. unfold is_byte in Hy. by rewrite Z.mod_small by lia. }
    unfold x, mask. destruct (Z.leb_spec 0 (p - Z.of_nat i)).
    - rewrite !M by done. split; [by apply (lxor_bound 8)|]. rewrite Z.lxor_eq_0_iff. split; [by intros ->|]. intros E. symmetry. apply E. lia.
    - rewrite !Z.land_0_l, Z.lxor_0_l. split; [unfold is_byte; lia|]. split; [intros _ Hi; lia|done]. }
  destruct X as [Bx Ex]. destruct (ldiff_full good x Hg Bx) as [Bg Eg].
  destruct (IH (S i) (Z.ldiff good x) Bg ltac:(lia) ltac:(lia)) as (g & E & Hbg & Hg255). exists g. split; [done|]. split; [done|].
  rewrite Hg255, Eg, Ex. split.
  - intros [[-> H1] H3]. split; [done|]. intros j Hj Hjp. destruct (decide (j = i)) as [->|]; [by rewrite Hb, H1|apply H3; lia].
  - intros [-> H1]. split_and!; [done| |intros j Hj; apply H1; lia]. intros Hi. specialize (H1 i ltac:(lia) Hi). congruence.
Qed.

Definition padding_result (payload : bytes) : Z * Z :=
  match unpad payload with
  | Some P => (Z.of_nat (length payload) - Z.of_nat (length P), 255)
  | None => (1, 0)
  end.

(** The condition the loop establishes is the reference's. *)
Lemma unpad_lookup payload p : is_byte p -> last payload = Some p ->
  (p <= Z.of_nat (length payload) - 1 /\
   forall j, (0 <= j < 0 + Nat.min 256 (length payload))%nat -> Z.of_nat j <= p -> payload !! (length payload - 1 - j)%nat = Some p)
  <-> drop (length payload - S (Z.to_nat p)) payload = replicate (S (Z.to_nat p)) p.
Proof.
  intros Hp L. unfold is_byte in Hp. split.
  - intros [HL H]. apply list_eq. intros i. rewrite lookup_drop. destruct (decide (i < S (Z.to_nat p))%nat).
    + rewrite lookup_replicate_2 by done.
      specialize (H (Z.to_nat p - i)%nat ltac:(lia) ltac:(lia)). rewrite <- H. f_equal. lia.
    + rewrite lookup_ge_None_2 by lia. symmetry. apply lookup_ge_None_2. rewrite length_replicate. lia.
  - intros E. assert (HL : (S (Z.to_nat p) <= length payload)%nat).
    { apply (f_equal length) in E. rewrite length_drop, length_replicate in E. lia. }
    split; [lia|]. intros j Hj Hjp.
    assert (El : drop (length payload - S (Z.to_nat p)) payload !! (Z.to_nat p - j)%nat = Some p).
    { rewrite E. apply lookup_replicate_2. lia. }
    rewrite lookup_drop in El. rewrite <- El. f_equal. lia.
Qed.

(** The constant-time check computes the reference. *)
Lemma extract_padding_spec payload : is_bytes payload -> (0 < length payload)%nat -> Z.of_nat (length payload) < 2 ^ 31 ->
  extractTLS12Padding payload = Ok (padding_result payload).
Proof.
  intros B H0 HL. unfold extractTLS12Padding. rewrite (proj2 (Nat.ltb_ge _ _)) by lia.
  destruct (lookup_lt_is_Some_2 payload (length payload - 1) ltac:(lia)) as [p Hp]. unfold index. rewrite Hp. cbn [mbind res_bind].
  assert (Bp : is_byte p) by (rewrite Forall_forall in B; apply B; by eapply list_elem_of_lookup_2).
  assert (Lp : last payload = Some p) by (rewrite last_lookup; rewrite <- Hp; f_equal; lia).
  unfold sub64. rewrite sign_mask_spec by (unfold is_byte in Bp; lia).
  set (g0 := if 0 <=? Z.of_nat (length payload) - 1 - p then 255 else 0). assert (Bg0 : is_byte g0) by (unfold g0, is_byte; case_match; lia).
  destruct (padding_loop_spec p payload (Nat.min 256 (length payload)) Bp B 0 g0 Bg0 ltac:(lia) ltac:(lia)) as (g & -> & Bg & Eg).
  cbn [mbind res_bind]. rewrite fold_good_spec by done.
  pose proof (unpad_lookup payload p Bp Lp) as U. unfold padding_result, unpad. rewrite Lp.
  assert (G : g = 255 <-> drop (length payload - S (Z.to_nat p)) payload = replicate (S (Z.to_nat p)) p).
  { rewrite Eg, <- U. unfold g0. destruct (Z.leb_spec 0 (Z.of_nat (length payload) - 1 - p)); split; intros [? ?]; (split; [lia|done]) || lia. }
  unfold is_byte in Bp. case_bool_decide as D.
  - rewrite (proj2 G D), Z.eqb_refl. change 255 with (Z.ones 8) at 1. do 2 f_equal. rewrite length_take, (Z.land_ones p 8), Z.mod_small by lia.
    apply (f_equal length) in D. rewrite length_drop, length_replicate in D. lia.
  - destruct (Z.eqb_spec g 255) as [E|_]; [by apply G in E|]. by rewrite Z.land_0_r.
Qed.

(** The constant-time padding check is exact: it accepts a plaintext, with the number of bytes to remove, exactly
    when its last byte [k] is preceded by [k] bytes like it, and otherwise reports failure with one byte to remove. *)
Theorem padding_check_is_exact payload : is_bytes payload -> (0 < length payload)%nat -> Z.of_nat (length payload) < 2 ^ 31 ->
  extractTLS12Padding payload = Ok (padding_result payload)
  /\ forall P, unpad payload = Some P <-> exists k, is_byte k /\ payload = P ++ replicate (S (Z.to_nat k)) k.
Proof. intros B H0 HL. split; [by apply extract_padding_spec|]. intros P. by apply unpad_Some. Qed.

Lemma padding_check_is_exact_witness : extractTLS12Padding [7; 7; 2; 2; 2] = Ok (3, 255) /\ extractTLS12Padding [7; 7; 2; 3; 2] = Ok (1, 0).
Proof.
  split.
  - etrans; [apply (padding_check_is_exact [7; 7; 2; 2; 2]); [repeat (constructor; [unfold is_byte; lia|]); constructor|cbn; lia|done]|by vm_compute].
  - etrans; [apply (padding_check_is_exact [7; 7; 2; 3; 2]); [repeat (constructor; [unfold is_byte; lia|]); constructor|cbn; lia|done]|by vm_compute].
Defined.

(** ** Records *)

Lemma cbc_sizes s info : GetCipherSuiteInfo s = Some info -> ci_IsCBC info = true ->
  ci_MACSize info = hash_size (ci_MACHash info) /\ (1 <= ci_MACSize info <= 48)%nat /\ (ci_KeySize info = 16 \/ ci_KeySize info = 32)%nat
  /\ String.eqb (ci_MACHash info) "SHA1" || String.eqb (ci_MACHash info) "SHA256" || String.eqb (ci_MACHash info) "SHA384" = true.
Proof.
  intros E C. pose proof (suite_cases (fun s => match GetCipherSuiteInfo s with Some info => negb (ci_IsCBC info) ||
      (Nat.eqb (ci_MACSize info) (hash_size (ci_MACHash info)) && (1 <=? ci_MACSize info)%nat && (ci_MACSize info <=? 48)%nat
       && ((ci_KeySize info =? 16)%nat || (ci_KeySize info =? 32)%nat)
       && (String.eqb (ci_MACHash info) "SHA1" || String.eqb (ci_MACHash info) "SHA256" || String.eqb (ci_MACHash info) "SHA384")) | None => false end)
    ltac:(vm_compute; reflexivity) s ltac:(by eexists)) as H. cbn beta in H. rewrite E, C in H. cbn [negb orb] in H.
  apply andb_true_iff in H as [[[[H1 H2]%andb_true_iff H3]%andb_true_iff H4]%andb_true_iff H5].
  apply Nat.eqb_eq in H1. apply Nat.leb_le in H2, H3. apply orb_true_iff in H4 as [H4%Nat.eqb_eq|H4%Nat.eqb_eq]; auto.
Qed.

Section Record_facts.
Context {BC : BlockCipher} {BD : BlockDecipher} {HS : Hashes}.

Lemma cbc_encrypt_length n key iv data : length (cbc_encrypt n key iv data) = (16 * n)%nat.
Proof. revert iv data. induction n as [|n IH]; intros iv data; [done|]. cbn [cbc_encrypt]. rewrite length_app, aes_encrypt_length, IH. lia. Qed.

Lemma cbc_encrypt_bytes n key iv data : is_bytes (cbc_encrypt n key iv data).
Proof. revert iv data. induction n as [|n IH]; intros iv data; [constructor|]. cbn [cbc_encrypt]. apply Forall_app. split; [apply aes_encrypt_bytes|apply IH]. Qed.

Lemma cbc_decrypt_spec n key : forall iv data, length iv = 16%nat -> is_bytes iv -> is_bytes data -> length data = (16 * n)%nat ->
  length (cbc_decrypt n key iv data) = (16 * n)%nat /\ is_bytes (cbc_decrypt n key iv data).
Proof.
  induction n as [|n IH]; intros iv data Li Bi Bd Ld; [by split; [|constructor]|]. cbn [cbc_decrypt].
  destruct (IH (take 16 data) (drop 16 data)) as [L B]; [rewrite length_take; lia|by apply Forall_take|by apply Forall_drop|rewrite length_drop; lia|].
  rewrite length_app, length_xor_bytes, aes_decrypt_length, L. split; [lia|]. apply Forall_app. split; [|done].
  apply xor_bytes_bytes; [apply aes_decrypt_bytes|done].
Qed.

(** CBC decryption undoes CBC encryption. *)
Lemma cbc_roundtrip n key : is_ok (aes_NewCipher key) = true -> forall iv data, length iv = 16%nat -> is_bytes iv -> is_bytes data ->
  length data = (16 * n)%nat -> cbc_decrypt n key iv (cbc_encrypt n key iv data) = data.
Proof.
  intros K. induction n as [|n IH]; intros iv data Li Bi Bd Ld; [by destruct data|]. cbn [cbc_encrypt cbc_decrypt].
  assert (Lx : length (xor_bytes (take 16 data) iv) = 16%nat) by (rewrite length_xor_bytes, length_take; lia).
  assert (Bx : is_bytes (xor_bytes (take 16 data) iv)) by (apply xor_bytes_bytes; [by apply Forall_take|done]).
  rewrite take_app_length', drop_app_length' by (by rewrite aes_encrypt_length). rewrite aes_decrypt_encrypt by done.
  rewrite xor_bytes_cancel by (rewrite length_take; lia).
  rewrite IH; [apply take_drop|apply aes_encrypt_length|apply aes_encrypt_bytes|by apply Forall_drop|rewrite length_drop; lia].
Qed.

(** The MAC of a validated context. *)
Lemma cbc_mac s info k seq ct l data : GetCipherSuiteInfo s = Some info -> ci_IsCBC info = true ->
  exists mac, tls12CBCMAC k s seq ct l data = Ok mac /\ length mac = ci_MACSize info /\ is_bytes mac.
Proof.
  intros E C. destruct (cbc_sizes s info E C) as (Hm & _ & _ & Hh). unfold tls12CBCMAC. rewrite E, Hh. eexists. split; [done|].
  split; [by rewrite hmac_length|apply hmac_bytes].
Qed.

(** The plaintexts a payload opens to under the rules of RFC 5246 and RFC 7366.  A MAC-then-encrypt record whose padding
    is longer than what follows the MAC is read as empty, with the MAC at its start: the MAC decides. *)
Inductive opens (ctx : TLS12CBCContext) (info : CipherSuiteInfo) (contentType : Z) : bytes -> bytes -> Prop :=
  | opens_mte iv C P mac rest Q :
      cc_mode ctx = TLS12CBCRecordModeMACThenEncrypt -> length iv = 16%nat -> (length C mod 16 = 0)%nat ->
      let D := cbc_decrypt (length C / 16) (cc_readKey ctx) iv C in
      D = P ++ mac ++ rest -> (ci_MACSize info < length D)%nat ->
      tls12CBCMAC (cc_readMACKey ctx) (cc_cipherSuite ctx) (cc_readSeq ctx) contentType (Z.of_nat (length P)) P = Ok mac ->
      unpad D = Some Q -> length P = (length Q - ci_MACSize info)%nat -> Z.of_nat (length P) <= tls12MaxPlaintext ->
      opens ctx info contentType (iv ++ C) P
  | opens_etm iv C mac P :
      cc_mode ctx = TLS12CBCRecordModeEncryptThenMAC -> length iv = 16%nat -> C <> [] -> (length C mod 16 = 0)%nat ->
      tls12CBCMAC (cc_readMACKey ctx) (cc_cipherSuite ctx) (cc_readSeq ctx) contentType (Z.of_nat (length (iv ++ C))) (iv ++ C) = Ok mac ->
      unpad (cbc_decrypt (length C / 16) (cc_readKey ctx) iv C) = Some P -> Z.of_nat (length P) <= tls12MaxPlaintext ->
      opens ctx info contentType ((iv ++ C) ++ mac) P.

(** What a validated context is. *)
Record read_ok (ctx : TLS12CBCContext) (info : CipherSuiteInfo) : Prop := {
  ro_info : GetCipherSuiteInfo (cc_cipherSuite ctx) = Some info;
  ro_cbc : ci_IsCBC info = true;
  ro_mode : cc_mode ctx <> TLS12CBCRecordModeUnspecified;
  ro_key : length (cc_readKey ctx) = ci_KeySize info;
  ro_mac : length (cc_readMACKey ctx) = ci_MACSize info;
  ro_iv : length (cc_readIV ctx) = ci_IVSize info;
}.

Lemma validateRead_ok ctx : validateRead ctx = Ok () <-> exists info, read_ok ctx info.
Proof.
  unfold validateRead. split.
  - destruct (GetCipherSuiteInfo _) as [info|] eqn:E; [|done]. open_guards. intros (H1 & H2 & H3 & _). exists info.
    apply bool_decide_eq_false_1 in H2. norm_guards. by split.
  - intros [info [E C M K Mk Iv]]. rewrite E, C. open_guards. destruct (cbc_sizes _ _ E C) as (_ & _ & _ & Hh). rewrite Hh, K, Mk, Iv, !Nat.eqb_refl.
    split_and!; [done|by apply bool_decide_eq_false_2|done..].
Qed.

Lemma cbc_key_ok ctx info : read_ok ctx info -> aes_NewCipher (cc_readKey ctx) = Ok (cc_readKey ctx).
Proof.
  intros [E C _ K _ _]. destruct (cbc_sizes _ _ E C) as (_ & _ & Hk & _). unfold aes_NewCipher. rewrite K.
  destruct Hk as [-> | ->]; reflexivity.
Qed.

Lemma round_up m : (m < roundUpTLS12 (m + 1) 16 <= m + 16 /\ roundUpTLS12 (m + 1) 16 mod 16 = 0)%nat.
Proof.
  unfold roundUpTLS12. pose proof (Nat.div_mod_eq (m + 1) 16) as D. pose proof (Nat.mod_upper_bound (m + 1) 16 ltac:(lia)) as U.
  set (q := ((m + 1) / 16)%nat) in *. set (r := ((m + 1) mod 16)%nat) in *. destruct (decide (r = 0)%nat) as [E|].
  - rewrite E. change ((16 - 0) mod 16)%nat with 0%nat. rewrite Nat.add_0_r. fold r. lia.
  - rewrite Nat.mod_small by lia. split; [lia|]. rewrite D. replace (16 * q + r + (16 - r))%nat with ((q + 1) * 16)%nat by lia. apply Nat.Div0.mod_mul.
Qed.

Lemma sign_select n : - 2 ^ 31 <= n < 2 ^ 31 -> (if Z.shiftr (u32 n) 31 =? 1 then 0 else n) = Z.max 0 n.
Proof.
  intros H. unfold u32. rewrite Z.shiftr_div_pow2 by lia. destruct (decide (0 <= n)).
  - rewrite Z.mod_small, Z.div_small by lia. change (0 =? 1) with false. cbv iota. lia.
  - assert (n mod 2 ^ 32 = n + 2 ^ 32) as -> by (rewrite <- (Z_mod_plus_full n 1 (2 ^ 32)), Z.mod_small; lia).
    assert ((n + 2 ^ 32) / 2 ^ 31 = 1) as -> by (symmetry; apply Z.div_unique with (n + 2 ^ 31); lia). change (1 =? 1) with true. cbv iota. lia.
Qed.

Lemma unpad_prefix D P : is_bytes D -> unpad D = Some P -> (length P < length D <= length P + 256)%nat /\ take (length P) D = P.
Proof.
  intros B (k & Hk & ->)%unpad_Some; [|done]. rewrite length_app, length_replicate, take_app_length. unfold is_byte in Hk. split; [lia|done].
Qed.

(** The blocks of a fragment. *)
Lemma fragment_blocks key iv C : length iv = 16%nat -> is_bytes iv -> is_bytes C -> (length C mod 16 = 0)%nat ->
  CryptBlocks cbc_decrypt key (take 16 (iv ++ C)) (drop 16 (iv ++ C)) = Ok (cbc_decrypt (length C / 16) key iv C)
  /\ length (cbc_decrypt (length C / 16) key iv C) = length C /\ is_bytes (cbc_decrypt (length C / 16) key iv C).
Proof.
  intros Li Bi BC' M. rewrite take_app_length', drop_app_length' by done. unfold CryptBlocks. rewrite M. split; [done|].
  pose proof (Nat.div_mod_eq (length C) 16). destruct (cbc_decrypt_spec (length C / 16) key iv C) as [L B]; [done..|lia|]. split; [lia|done].
Qed.

Section Opening.
Context (ctx : TLS12CBCContext) (info : CipherSuiteInfo) (contentType : Z) (header payload : bytes).
Context (R : read_ok ctx info) (Hseq : cc_readSeq ctx <> MaxUint64) (Hct : header !! 0%nat = Some contentType)
  (Hh : validTLS12CBCHeader header payload = true) (Bp : is_bytes payload).

Lemma payload_small : Z.of_nat (length payload) <= 18432.
Proof.
  revert Hh. unfold validTLS12CBCHeader. destruct (_ || _) eqn:E; [done|]. intros _. apply orb_false_iff in E as [_ E].
  apply Z.ltb_ge in E. unfold tls12MaxCBCRecordPayload, tls12MaxPlaintext in E. lia.
Qed.

Lemma opens_decrypts P : opens ctx info contentType payload P -> DecryptRecord ctx header payload = Ok (P, bump_read ctx).
Proof.
  destruct R as [E C M K Mk Iv]. pose proof (cbc_key_ok ctx info R) as NK. pose proof payload_small as Hsm.
  destruct (cbc_sizes _ _ E C) as (_ & Hm & _ & _).
  intros O. unfold DecryptRecord. rewrite (proj2 (Z.eqb_neq _ _) Hseq), Hh. cbn [negb]. unfold index. rewrite Hct. cbn [mbind res_bind]. rewrite E.
  destruct O as [iv C0 P mac rest Q Md Li HC D HD HDm HM HU HP HPm | iv C0 mac P Md Li HC0 HC HM HU HPm]; rewrite Md.
  - rewrite (bool_decide_eq_false_2 (_ = TLS12CBCRecordModeEncryptThenMAC)), (bool_decide_eq_true_2 (_ = TLS12CBCRecordModeMACThenEncrypt)) by done. cbn [mbind res_bind]. rewrite NK. cbn [mbind res_bind].
    apply Forall_app in Bp as [Bi BC0]. destruct (fragment_blocks (cc_readKey ctx) iv C0 Li Bi BC0 HC) as (EB & LD & BD').
    fold D in EB, LD, BD'. rewrite length_app in *. destruct (round_up (ci_MACSize info)) as [Hr1 Hr2].
    assert (roundUpTLS12 (ci_MACSize info + 1) 16 <= length C0)%nat.
    { pose proof (Nat.div_mod_eq (length C0) 16). pose proof (Nat.div_mod_eq (roundUpTLS12 (ci_MACSize info + 1) 16) 16). lia. }
    rewrite (proj2 (Nat.ltb_ge _ _)) by lia. rewrite Li. replace (16 + length C0 - 16)%nat with (length C0) by lia. rewrite HC. cbn [negb orb Nat.eqb].
    rewrite EB. cbn [mbind res_bind]. rewrite extract_padding_spec by (done || lia). cbn [mbind res_bind]. unfold padding_result. rewrite HU.
    destruct (unpad_prefix D Q BD' HU) as [HQ _]. cbv zeta. rewrite sign_select by lia.
    destruct (cbc_mac (cc_cipherSuite ctx) info (cc_readMACKey ctx) (cc_readSeq ctx) contentType (Z.of_nat (length P)) P E C) as (mac' & HM' & Lmac & _).
    rewrite HM in HM'. injection HM' as <-.
    replace (Z.max 0 _) with (Z.of_nat (length P)) by lia. rewrite (proj2 (Z.ltb_ge _ _)) by lia.
    rewrite Nat2Z.id. replace (take (length P) D) with P by (by rewrite HD, take_app_length). rewrite HM. cbn [mbind res_bind].
    replace (slice D _ _) with mac. 2: { rewrite HD, slice_app_skip by lia. rewrite Nat.sub_diag. symmetry. apply slice_app_hit. lia. }
    rewrite (proj2 (ct_equal_spec mac mac) eq_refl). change (negb (Z.land 1 255 =? 1)) with false. rewrite (proj2 (Z.ltb_ge _ _)) by lia. done.
  - rewrite (bool_decide_eq_true_2 (_ = TLS12CBCRecordModeEncryptThenMAC)) by done. rewrite (bool_decide_eq_false_2 (_ = TLS12CBCRecordModeMACThenEncrypt)) by done.
    destruct (cbc_mac (cc_cipherSuite ctx) info (cc_readMACKey ctx) (cc_readSeq ctx) contentType (Z.of_nat (length (iv ++ C0))) (iv ++ C0) E C) as (mac' & HM' & Lmac & _).
    rewrite HM in HM'. injection HM' as <-. rewrite (length_app (iv ++ C0)), Lmac. rewrite (proj2 (Nat.ltb_ge _ _)) by lia.
    replace (length (iv ++ C0) + ci_MACSize info - ci_MACSize info)%nat with (length (iv ++ C0)) by lia. rewrite take_app_length, drop_app_length.
    rewrite HM. cbn [mbind res_bind]. rewrite (proj2 (ct_equal_spec mac mac) eq_refl). cbn [negb mbind res_bind]. rewrite NK. cbn [mbind res_bind].
    apply Forall_app in Bp as [[Bi BC0]%Forall_app _]. destruct (fragment_blocks (cc_readKey ctx) iv C0 Li Bi BC0 HC) as (EB & LD & BD').
    assert (16 <= length C0)%nat.
    { pose proof (Nat.div_mod_eq (length C0) 16). destruct C0; [done|]. cbn [length] in *. lia. }
    rewrite !length_app in *. rewrite (proj2 (Nat.ltb_ge _ _)) by lia. rewrite Li. replace (16 + length C0 - 16)%nat with (length C0) by lia. rewrite HC. cbn [negb orb Nat.eqb].
    rewrite EB. cbn [mbind res_bind]. rewrite extract_padding_spec by (done || lia). cbn [mbind res_bind]. unfold padding_result. rewrite HU.
    destruct (unpad_prefix _ P BD' HU) as [HQ TQ]. change (negb (255 =? 255)) with false. rewrite (proj2 (Z.ltb_ge _ _)) by lia. cbn [orb].
    replace (Z.to_nat _) with (length P) by lia. rewrite TQ, (proj2 (Z.ltb_ge _ _)) by lia. done.
Qed.

(** The blocks of what passed the length check. *)
Lemma cut_fragment F minimum : is_bytes F -> (length F <? 16 + minimum)%nat || negb ((length F - 16) mod 16 =? 0)%nat = false ->
  exists iv C, F = iv ++ C /\ length iv = 16%nat /\ is_bytes iv /\ is_bytes C /\ (length C mod 16 = 0)%nat /\ (minimum <= length C)%nat.
Proof.
  intros B [H1%Nat.ltb_ge H2%negb_false_iff%Nat.eqb_eq]%orb_false_iff. exists (take 16 F), (drop 16 F). rewrite take_drop, length_take, length_drop.
  split; [done|]. split; [lia|]. split; [by apply Forall_take|]. split; [by apply Forall_drop|]. split; [done|lia].
Qed.

Definition bad_or_opens : Prop :=
  DecryptRecord ctx header payload = Err ErrBadRecordMAC
  \/ exists P, DecryptRecord ctx header payload = Ok (P, bump_read ctx) /\ opens ctx info contentType payload P.

Lemma decrypt_sound : bad_or_opens.
Proof.
  destruct R as [E C M K Mk Iv]. pose proof (cbc_key_ok ctx info R) as NK. pose proof payload_small as Hsm.
  destruct (cbc_sizes _ _ E C) as (_ & Hm & _ & _). unfold bad_or_opens, DecryptRecord.
  rewrite (proj2 (Z.eqb_neq _ _) Hseq), Hh. cbn [negb]. unfold index. rewrite Hct. cbn [mbind res_bind]. rewrite E.
  destruct (cc_mode ctx) eqn:Md; [done|..].
  - rewrite (bool_decide_eq_false_2 (_ = TLS12CBCRecordModeEncryptThenMAC)), (bool_decide_eq_true_2 (_ = TLS12CBCRecordModeMACThenEncrypt)) by done.
    cbn [mbind res_bind]. rewrite NK. cbn [mbind res_bind]. destruct (_ || _) eqn:Hlen; [by left|].
    destruct (cut_fragment _ _ Bp Hlen) as (iv & C0 & Ep & Li & Bi & BC0 & HC & Hmin). rewrite Ep in *. clear Hlen.
    destruct (fragment_blocks (cc_readKey ctx) iv C0 Li Bi BC0 HC) as (-> & LD & BD'). cbn [mbind res_bind].
    set (D := cbc_decrypt _ _ _ _) in *. destruct (round_up (ci_MACSize info)) as [Hr _]. rewrite length_app in Hsm.
    rewrite extract_padding_spec by (done || lia). cbn [mbind res_bind]. unfold padding_result.
    destruct (unpad D) as [Q|] eqn:HU; cycle 1.
    { left. cbv zeta. set (n := if _ =? 1 then _ else _). destruct (_ <? _); [done|].
      edestruct (cbc_mac (cc_cipherSuite ctx) info (cc_readMACKey ctx) (cc_readSeq ctx) contentType n) as (mac & -> & _); [done..|].
      cbn [mbind res_bind]. by rewrite Z.land_0_r. }
    destruct (unpad_prefix D Q BD' HU) as [HQ _]. cbv zeta. rewrite sign_select by lia.
    replace (Z.max 0 _) with (Z.of_nat (length Q - ci_MACSize info)) by lia. set (n := (length Q - ci_MACSize info)%nat).
    rewrite (proj2 (Z.ltb_ge _ _)) by lia. rewrite Nat2Z.id. replace (Z.to_nat _) with (n + ci_MACSize info)%nat by lia.
    destruct (cbc_mac (cc_cipherSuite ctx) info (cc_readMACKey ctx) (cc_readSeq ctx) contentType (Z.of_nat n) (take n D) E C) as (mac & HM & Lmac & _).
    rewrite HM. cbn [mbind res_bind]. destruct (ct_equal mac _) eqn:Hc; [|by left]. apply ct_equal_spec in Hc.
    change (negb (Z.land 1 255 =? 1)) with false. cbn [orb]. destruct (Z.ltb_spec tls12MaxPlaintext (Z.of_nat n)); [by left|]. right.
    exists (take n D). split; [done|]. assert (Ln : length (take n D) = n) by (rewrite length_take; lia).
    apply (opens_mte ctx info contentType iv C0 (take n D) mac (drop (n + ci_MACSize info) D) Q); fold D; try done.
    + rewrite Hc, slice_glue_drop by lia. by rewrite take_drop.
    + lia.
    + by rewrite Ln.
    + by rewrite Ln.
  - rewrite (bool_decide_eq_true_2 (_ = TLS12CBCRecordModeEncryptThenMAC)), (bool_decide_eq_false_2 (_ = TLS12CBCRecordModeMACThenEncrypt)) by done.
    destruct (Nat.ltb_spec (length payload) (ci_MACSize info)); [by left|]. set (F := take (length payload - ci_MACSize info) payload).
    destruct (cbc_mac (cc_cipherSuite ctx) info (cc_readMACKey ctx) (cc_readSeq ctx) contentType (Z.of_nat (length F)) F E C) as (mac & HM & Lmac & _).
    rewrite HM. cbn [mbind res_bind]. destruct (ct_equal mac _) eqn:Hc; [|by left]. apply ct_equal_spec in Hc. cbn [negb mbind res_bind].
    rewrite NK. cbn [mbind res_bind]. destruct (_ || _) eqn:Hlen; [by left|].
    assert (BF : is_bytes F) by by apply Forall_take. assert (LF : (length F <= length payload)%nat) by (unfold F; rewrite length_take; lia).
    assert (Ep : payload = F ++ mac) by (by rewrite Hc; unfold F; rewrite take_drop).
    destruct (cut_fragment _ _ BF Hlen) as (iv & C0 & EF & Li & Bi & BC0 & HC & Hmin). rewrite EF in *.
    destruct (fragment_blocks (cc_readKey ctx) iv C0 Li Bi BC0 HC) as (-> & LD & BD'). cbn [mbind res_bind].
    set (D := cbc_decrypt _ _ _ _) in *. rewrite length_app in LF.
    rewrite extract_padding_spec by (done || lia). cbn [mbind res_bind]. unfold padding_result.
    destruct (unpad D) as [Q|] eqn:HU; [|by left].
    destruct (unpad_prefix D Q BD' HU) as [HQ TQ]. change (negb (255 =? 255)) with false. rewrite (proj2 (Z.ltb_ge _ _)) by lia. cbn [orb].
    replace (Z.to_nat _) with (length Q) by lia. rewrite TQ. destruct (Z.ltb_spec tls12MaxPlaintext (Z.of_nat (length Q))); [by left|]. right.
    exists Q. split; [done|]. rewrite Ep. apply opens_etm; try done. intros ->. cbn in Hmin. lia.
Qed.
End Opening.


(** ** The two ends of a connection *)

Lemma unpad_append P : is_bytes P -> unpad (appendTLSPadding P 16) = Some P /\ (length (appendTLSPadding P 16) mod 16 = 0)%nat
  /\ is_bytes (appendTLSPadding P 16) /\ (length P < length (appendTLSPadding P 16) <= length P + 16)%nat.
Proof.
  intros B. unfold appendTLSPadding. pose proof (Nat.div_mod_eq (length P) 16) as D. pose proof (Nat.mod_upper_bound (length P) 16 ltac:(lia)) as U.
  set (k := (16 - length P mod 16)%nat). assert (Hk : (1 <= k <= 16)%nat) by lia. unfold u8. rewrite Z.mod_small by lia.
  assert (Ek : replicate k (Z.of_nat k - 1) = replicate (S (Z.to_nat (Z.of_nat k - 1))) (Z.of_nat k - 1)) by (f_equal; lia).
  assert (Hb : is_byte (Z.of_nat k - 1)) by (unfold is_byte; lia).
  assert (BA : is_bytes (P ++ replicate k (Z.of_nat k - 1))) by (apply Forall_app; split; [done|by apply Forall_replicate]).
  split; [apply unpad_Some; [done|exists (Z.of_nat k - 1); by rewrite <- Ek]|]. rewrite length_app, length_replicate. split; [|split; [done|lia]].
  replace (length P + k)%nat with ((length P / 16 + 1) * 16)%nat by lia. apply Nat.Div0.mod_mul.
Qed.

(** Reader [r] holds the keys and the position of writer [w]. *)
Record paired (w r : TLS12CBCContext) (info : CipherSuiteInfo) : Prop := {
  pr_read : read_ok r info;
  pr_key : cc_writeKey w = cc_readKey r;
  pr_mac : cc_writeMACKey w = cc_readMACKey r;
  pr_suite : cc_cipherSuite w = cc_cipherSuite r;
  pr_mode : cc_mode w = cc_mode r;
  pr_seq : cc_writeSeq w = cc_readSeq r;
}.

(** The payload [EncryptRecord] makes opens to its plaintext. *)
Lemma encrypted_opens w r info random contentType P :
  paired w r info -> cc_writeSeq w <> MaxUint64 -> length random = 16%nat -> is_bytes random -> is_bytes P -> Z.of_nat (length P) <= tls12MaxPlaintext ->
  exists payload, EncryptRecord w (Some random) contentType P
      = Ok ([contentType; 0x03; 0x03] ++ be_put 2 (Z.of_nat (length payload) mod 2 ^ 16) ++ payload, bump_write w)
    /\ Z.of_nat (length payload) <= tls12MaxCBCRecordPayload /\ is_bytes payload /\ opens r info contentType payload P.
Proof.
  intros [R Ek Em Es Emd Eq] Hseq Lr Br BP LP. pose proof (cbc_key_ok r info R) as NK. destruct R as [E C M K Mk Iv].
  destruct (cbc_sizes _ _ E C) as (_ & Hm & Hk & _). unfold tls12MaxPlaintext in LP.
  unfold EncryptRecord. rewrite (proj2 (Z.eqb_neq _ _) Hseq), (proj2 (Z.ltb_ge _ _)) by (unfold tls12MaxPlaintext; lia).
  rewrite Ek, Em, Es, Emd, Eq. rewrite (proj2 (Nat.eqb_neq _ _)) by (rewrite K; lia). rewrite NK. cbn [mbind res_bind].
  assert (OK : is_ok (aes_NewCipher (cc_readKey r)) = true) by by rewrite NK.
  assert (X : forall Q, is_bytes Q -> let A := appendTLSPadding Q 16 in
    CryptBlocks cbc_encrypt (cc_readKey r) random A = Ok (cbc_encrypt (length A / 16) (cc_readKey r) random A)
    /\ let C := cbc_encrypt (length A / 16) (cc_readKey r) random A in
       length C = length A /\ is_bytes C /\ (length C mod 16 = 0)%nat /\ C <> [] /\ cbc_decrypt (length C / 16) (cc_readKey r) random C = A).
  { intros Q BQ A. destruct (unpad_append Q BQ) as (_ & MA & BA & LA). fold A in MA, BA, LA. unfold CryptBlocks. rewrite MA. split; [done|].
    pose proof (Nat.div_mod_eq (length A) 16) as D. set (C0 := cbc_encrypt _ _ _ _).
    assert (LC : length C0 = length A) by (unfold C0; rewrite cbc_encrypt_length; lia).
    split; [done|]. split; [apply cbc_encrypt_bytes|]. rewrite LC. split; [done|]. split; [intros EC; rewrite EC in LC; cbn in LC; lia|].
    apply cbc_roundtrip; [done..|lia]. }
  destruct (cc_mode r) eqn:Md; [done|..].
  - rewrite (bool_decide_eq_true_2 (_ = TLS12CBCRecordModeMACThenEncrypt)), (bool_decide_eq_false_2 (_ = TLS12CBCRecordModeEncryptThenMAC)) by done.
    destruct (cbc_mac (cc_cipherSuite r) info (cc_readMACKey r) (cc_readSeq r) contentType (Z.of_nat (length P)) P E C) as (mac & HM & Lmac & Bmac).
    rewrite HM. cbn [mbind res_bind]. destruct (X (P ++ mac) ltac:(by apply Forall_app)) as (-> & LC & BC0 & MC & NC & DC). cbn [mbind res_bind].
    destruct (unpad_append (P ++ mac) ltac:(by apply Forall_app)) as (UA & _ & _ & LA). set (A := appendTLSPadding _ _) in *.
    set (C0 := cbc_encrypt _ _ _ _) in *. rewrite length_app in LA.
    exists (random ++ C0). rewrite (proj2 (Z.ltb_ge _ _)) by (unfold tls12MaxCBCRecordPayload, tls12MaxPlaintext; rewrite length_app; lia).
    split; [done|]. split; [unfold tls12MaxCBCRecordPayload, tls12MaxPlaintext; rewrite length_app; lia|]. split; [by apply Forall_app|].
    apply (opens_mte r info contentType random C0 P mac (drop (length (P ++ mac)) A) (P ++ mac)); rewrite ?DC; try done.
    + rewrite app_assoc. unfold A at 2. unfold appendTLSPadding. rewrite drop_app_length. done.
    + lia.
    + rewrite length_app. lia.
  - rewrite (bool_decide_eq_false_2 (_ = TLS12CBCRecordModeMACThenEncrypt)), (bool_decide_eq_true_2 (_ = TLS12CBCRecordModeEncryptThenMAC)) by done.
    cbn [mbind res_bind]. destruct (X P BP) as (-> & LC & BC0 & MC & NC & DC). cbn [mbind res_bind].
    destruct (unpad_append P BP) as (UA & _ & _ & LA). set (A := appendTLSPadding _ _) in *. set (C0 := cbc_encrypt _ _ _ _) in *.
    destruct (cbc_mac (cc_cipherSuite r) info (cc_readMACKey r) (cc_readSeq r) contentType (Z.of_nat (length (random ++ C0))) (random ++ C0) E C) as (mac & HM & Lmac & Bmac).
    rewrite HM. cbn [mbind res_bind]. exists ((random ++ C0) ++ mac).
    rewrite (proj2 (Z.ltb_ge _ _)) by (unfold tls12MaxCBCRecordPayload, tls12MaxPlaintext; rewrite !length_app; lia).
    split; [done|]. split; [unfold tls12MaxCBCRecordPayload, tls12MaxPlaintext; rewrite !length_app; lia|].
    split; [by repeat apply Forall_app_2|]. apply opens_etm; rewrite ?DC; try done.
Qed.

Lemma header_valid contentType payload : Z.of_nat (length payload) <= tls12MaxCBCRecordPayload ->
  validTLS12CBCHeader ([contentType; 0x03; 0x03] ++ be_put 2 (Z.of_nat (length payload) mod 2 ^ 16)) payload = true.
Proof.
  intros L. unfold validTLS12CBCHeader. rewrite length_app, length_be_put. cbn [length Nat.add]; change (5 =? tlsRecordHeaderLen)%nat with true.
  rewrite (proj2 (Z.ltb_ge _ _)) by done. cbn [negb orb].
  assert (E1 : slice ([contentType; 3; 3] ++ be_put 2 (Z.of_nat (length payload) mod 2 ^ 16)) 1 3 = [3; 3]) by reflexivity. rewrite E1.
  change (negb (be_get [3; 3] =? VersionTLS12)) with false. cbv iota. rewrite slice_app_skip by (cbn; lia).
  change (slice (be_put 2 ?x) _ _) with (slice (be_put 2 x) 0 2). rewrite slice_all by apply length_be_put.
  rewrite be_get_put by (apply Z.mod_pos_bound; lia). unfold tls12MaxCBCRecordPayload, tls12MaxPlaintext in L. rewrite Z.mod_small by lia. apply Z.eqb_refl.
Qed.

(** A record through both ends. *)
Lemma record_exchange w r info random contentType P :
  paired w r info -> 0 <= cc_writeSeq w < MaxUint64 -> length random = 16%nat -> is_bytes random -> is_bytes P -> Z.of_nat (length P) <= tls12MaxPlaintext ->
  exists record w' r', EncryptRecord w (Some random) contentType P = Ok (record, w')
    /\ DecryptRecord r (take 5 record) (drop 5 record) = Ok (P, r')
    /\ paired w' r' info /\ cc_writeSeq w' = cc_writeSeq w + 1 /\ (length record <= 5 + Z.to_nat tls12MaxCBCRecordPayload)%nat.
Proof.
  intros HP Hseq Lr Br BP LP. destruct (encrypted_opens w r info random contentType P HP ltac:(lia) Lr Br BP LP) as (payload & E & Lp & Bp & O).
  pose proof HP as [R _ _ _ _ Eq]. exists ([contentType; 0x03; 0x03] ++ be_put 2 (Z.of_nat (length payload) mod 2 ^ 16) ++ payload), (bump_write w), (bump_read r).
  split; [done|]. rewrite app_assoc. rewrite take_app_length', drop_app_length' by (by rewrite length_app, length_be_put).
  split; [|split; [|split]].
  - apply (opens_decrypts r info contentType); [done|rewrite <- Eq; lia|done|by apply header_valid|done|done].
  - destruct HP as [[] ? ? ? ? ?]. split; [by split|done..|]. cbn. by rewrite Eq.
  - cbn. unfold add64. apply u64_id. unfold is_u64, MaxUint64 in *. lia.
  - rewrite !length_app, length_be_put. cbn [length]. lia.
Qed.

(** What one end seals the other opens, in both modes: a record of a plaintext of at most 16384 bytes is made,
    whatever its explicit IV, and the peer that holds the keys and the position reads back the plaintext, with both
    sequence numbers advanced so that the two ends stay paired. *)
Theorem cbc_records_roundtrip w r info random contentType P :
  paired w r info -> 0 <= cc_writeSeq w < MaxUint64 -> length random = 16%nat -> is_bytes random -> is_bytes P -> Z.of_nat (length P) <= tls12MaxPlaintext ->
  exists record w' r', EncryptRecord w (Some random) contentType P = Ok (record, w')
    /\ DecryptRecord r (take 5 record) (drop 5 record) = Ok (P, r')
    /\ paired w' r' info /\ cc_writeSeq w' = cc_writeSeq w + 1 /\ (length record <= 5 + Z.to_nat tls12MaxCBCRecordPayload)%nat.
Proof. apply record_exchange. Qed.
End Record_facts.

(** ** Concrete runs *)

(** The identity on blocks of bytes, and digests that do not look at their input. *)
Definition id_cipher : BlockCipher.
Proof.
  refine {| aes_encrypt _ block := pad_to 16 (map u8 block) |}; intros _ block.
  - unfold pad_to, zeros. rewrite length_app, length_take, length_replicate. lia.
  - unfold pad_to. apply Forall_app. split; [|apply zeros_bytes]. apply Forall_take, Forall_map, Forall_forall. intros x _.
    unfold u8, is_byte. apply Z.mod_pos_bound. lia.
Defined.

Definition id_decipher : @BlockDecipher id_cipher.
Proof.
  refine {| aes_decrypt := @aes_encrypt id_cipher |}; [apply (@aes_encrypt_length id_cipher)|apply (@aes_encrypt_bytes id_cipher)|].
  intros key block _ L B. assert (I : forall b, length b = 16%nat -> is_bytes b -> @aes_encrypt id_cipher key b = b); [|by rewrite !I by (done || by rewrite I)].
  intros b Lb Bb. cbn [aes_encrypt id_cipher]. rewrite pad_to_exact by (by rewrite length_map). induction Bb as [|x b Hx Bb IH] in Lb |- *; [done|].
  clear Lb. assert (map u8 b = b) as E by (clear -Bb; induction Bb as [|x b Hx Bb IH]; [done|]; cbn [map]; rewrite IH; f_equal; unfold u8; apply Z.mod_small; exact Hx).
  cbn [map]. rewrite E. f_equal. unfold u8. apply Z.mod_small. exact Hx.
Defined.

Definition const_hashes : Hashes.
Proof. refine {| hash_sum h _ := zeros (hash_size h) |}; intros; [apply length_replicate|apply zeros_bytes]. Defined.

Definition demo_cbc (mode : TLS12CBCRecordMode) : TLS12CBCContext :=
  mkCbc (zeros 16) (zeros 20) (zeros 16) (zeros 16) (zeros 20) (zeros 16) 1 1 TLS_RSA_WITH_AES_128_CBC_SHA mode.

Definition demo_cbc_info : CipherSuiteInfo :=
  tls12CBCSuiteInfo TLS_RSA_WITH_AES_128_CBC_SHA "TLS_RSA_WITH_AES_128_CBC_SHA" 16 20 "SHA1" TLS12KeyExchangeRSA TLS12AuthenticationRSA.

Lemma demo_cbc_ok mode : mode <> TLS12CBCRecordModeUnspecified -> read_ok (demo_cbc mode) demo_cbc_info.
Proof. by split. Qed.

Lemma cbc_records_roundtrip_witness : exists record w' r',
  @EncryptRecord id_cipher const_hashes (demo_cbc TLS12CBCRecordModeMACThenEncrypt) (Some (zeros 16)) 23 [72; 105] = Ok (record, w')
  /\ @DecryptRecord id_cipher id_decipher const_hashes (demo_cbc TLS12CBCRecordModeMACThenEncrypt) (take 5 record) (drop 5 record) = Ok ([72; 105], r')
  /\ paired w' r' demo_cbc_info /\ cc_writeSeq w' = 1 + 1 /\ (length record <= 5 + Z.to_nat tls12MaxCBCRecordPayload)%nat.
Proof.
  apply (@cbc_records_roundtrip id_cipher id_decipher const_hashes); [split; [by apply demo_cbc_ok|done..]|done|done|apply zeros_bytes|
    repeat (constructor; [unfold is_byte; lia|]); constructor|done].
Defined.

