(* ===== verification/Redaction.v ===== *)
(** * Redacted requests ([client/redaction_build.go], [tee_k/crypto.go], [tee_k/session_handlers.go],
      [tee_t/session_handlers.go], [tee_t/crypto_handlers.go])

    The client hides parts of its request under random streams, TEE_K encrypts
    what is left in TLS-sized fragments without computing tags, and TEE_T,
    which holds the streams and no key, removes them from the ciphertext and
    computes the tags.  Positions are Go [int]s, so sums wrap at 64 bits. *)

From stdpp Require Import sorting.
From S2P Require Import Prelude Bytes Crypto Ghash CipherSuite SplitAead.

Record RequestRedactionRange := mkRange { rr_Start : Z; rr_Length : Z; rr_Type : string }.

Definition RedactionTypeSensitive : string := "sensitive".
Definition RedactionTypeSensitiveProof : string := "sensitive_proof".

Definition range_end (r : RequestRedactionRange) : Z := i64 (rr_Start r + rr_Length r).

(** [l[i]] and [l[i] = x] for an [int] index. *)
Definition index_int {A} (l : list A) (i : Z) : res A := if i <? 0 then Panic else index l (Z.to_nat i).
Definition set_index_int {A} (l : list A) (i : Z) (x : A) : res (list A) := if i <? 0 then Panic else set_index l (Z.to_nat i) x.

(** [data[start+j] ^= stream[j]]. *)
Definition xor_position (data : bytes) (start j : Z) (stream : bytes) : res bytes :=
  b ← index_int data (i64 (start + j));
  s ← index_int stream j;
  set_index_int data (i64 (start + j)) (Z.lxor b s).

(** ** The client *)

Definition validateRedactionRanges (ranges : list RequestRedactionRange) (requestLen : Z) : res unit :=
  fail_if (existsb (fun r => (rr_Start r <? 0) || (rr_Length r <? 0) || (requestLen <? range_end r)) ranges) "invalid redaction range";;
  Ok ().

(** [for j := 0; j < r.Length && r.Start+j < len(redacted); j++], [n] turns from [j] on. *)
Fixpoint redact_loop (n : nat) (j start : Z) (stream data : bytes) : res bytes :=
  match n with
  | O => Ok data
  | S n =>
      if i64 (start + j) <? Z.of_nat (length data)
      then data ← xor_position data start j stream; redact_loop n (j + 1) start stream data
      else Ok data
  end.

Fixpoint applyRedaction (redacted : bytes) (ranges : list RequestRedactionRange) (streams : list bytes) : res bytes :=
  match ranges, streams with
  | [], _ | _, [] => Ok redacted
  | r :: ranges, stream :: streams =>
      redacted ← redact_loop (Z.to_nat (rr_Length r)) 0 (rr_Start r) stream redacted;
      applyRedaction redacted ranges streams
  end.

(** [streams]: what [generateRedactionStreams] drew, one per range, of its length ([None]: the source failed). *)
Definition createRedactedRequest (requestData httpRequest : bytes) (ranges : list RequestRedactionRange) (streams : option (list bytes)) : res bytes :=
  fail_if (((length requestData =? 0) && (length httpRequest =? 0))%nat) "no request data provided";;
  let httpRequest := if (0 <? length requestData)%nat then requestData else httpRequest in
  fail_if ((length ranges =? 0)%nat) "no redaction ranges provided - library requires explicit redaction ranges";;
  _ ← match validateRedactionRanges ranges (Z.of_nat (length httpRequest)) with Err _ => Err "invalid redaction ranges" | r => r end;
  match streams with
  | None => Err "failed to generate redaction streams"
  | Some streams => applyRedaction httpRequest ranges streams
  end.

(** ** TEE_K *)

Definition overlaps (r other : RequestRedactionRange) : bool :=
  negb ((range_end r <=? rr_Start other) || (range_end other <=? rr_Start r)).

Fixpoint validateRedactionPositions (ranges : list RequestRedactionRange) (requestLen : Z) : res unit :=
  match ranges with
  | [] => Ok ()
  | r :: others =>
      fail_if ((rr_Start r <? 0) || (rr_Length r <=? 0) || (requestLen <? range_end r)) "range out of bounds";;
      fail_if (negb (String.eqb (rr_Type r) RedactionTypeSensitive) && negb (String.eqb (rr_Type r) RedactionTypeSensitiveProof))
        "range has invalid type";;
      fail_if (existsb (overlaps r) others) "ranges overlap";;
      validateRedactionPositions others requestLen
  end.

Record EncryptedRequestData := mkEncrypted {
  er_EncryptedData : bytes;
  er_TagSecrets : bytes;
  er_CipherSuite : Z;
  er_SeqNum : Z;
  er_RedactionRanges : list RequestRedactionRange;
}.

Definition maxTLSPlaintextSize : nat := Z.to_nat 16384.

(** One byte of a TLS 1.3 record is the content type. *)
Definition maxFragmentPayload (cipherSuite : Z) : nat :=
  if IsTLS13CipherSuite cipherSuite then maxTLSPlaintextSize - 1 else maxTLSPlaintextSize.

(** The part of a range that lies in the fragment at [start], relative to it. *)
Definition adjust_range (start fragLen : Z) (r : RequestRedactionRange) : option RequestRedactionRange :=
  if (rr_Start r <? start + fragLen) && (start <? range_end r) then
    let adjusted := if rr_Start r <? start then mkRange 0 (rr_Length r - (start - rr_Start r)) (rr_Type r)
                    else mkRange (rr_Start r - start) (rr_Length r) (rr_Type r) in
    Some (if fragLen <? range_end adjusted then mkRange (rr_Start adjusted) (fragLen - rr_Start adjusted) (rr_Type adjusted) else adjusted)
  else None.

Section Redaction.
Context {BC : BlockCipher} {CP : ChaChaPoly}.

Definition encrypt_fragment (key iv : bytes) (cipherSuite currentSeqNum : Z) (ranges : list RequestRedactionRange) (start : Z)
    (fragmentPlaintext : bytes) : res EncryptedRequestData :=
  let fragmentData := PrepareDataForEncryption fragmentPlaintext cipherSuite in
  let splitAEAD := SetSequence (NewSplitAEAD key iv cipherSuite) currentSeqNum in
  let additionalData := CreateAdditionalData cipherSuite currentSeqNum (length fragmentData) in
  match EncryptWithoutTag splitAEAD fragmentData additionalData with
  | Ok (encryptedData, tagSecrets, _) =>
      Ok (mkEncrypted encryptedData tagSecrets cipherSuite currentSeqNum
            (omap (adjust_range start (Z.of_nat (length fragmentPlaintext))) ranges))
  | Err _ => Err "failed to encrypt fragment"
  | Panic => Panic
  end.

Fixpoint fragment_loop (n fragmentIndex : nat) (key iv : bytes) (cipherSuite actualSeqNum : Z) (ranges : list RequestRedactionRange)
    (rawPlaintext : bytes) : res (list EncryptedRequestData) :=
  match n with
  | O => Ok []
  | S n =>
      let start := (fragmentIndex * maxFragmentPayload cipherSuite)%nat in
      let end_ := Nat.min (start + maxFragmentPayload cipherSuite) (length rawPlaintext) in
      fragment ← encrypt_fragment key iv cipherSuite (add64 actualSeqNum (Z.of_nat fragmentIndex)) ranges (Z.of_nat start)
                   (slice rawPlaintext start end_);
      rest ← fragment_loop n (S fragmentIndex) key iv cipherSuite actualSeqNum ranges rawPlaintext;
      Ok (fragment :: rest)
  end.

(** What [encryptAndSendRequest] sends, given the client's application key, IV and sequence number. *)
Definition encryptAndSendRequest (key iv : bytes) (cipherSuite actualSeqNum : Z) (rawPlaintext : bytes)
    (ranges : list RequestRedactionRange) : res (list EncryptedRequestData) :=
  fail_if (((length key =? 0) || (length iv =? 0))%nat) "no application keys available";;
  let m := maxFragmentPayload cipherSuite in
  fragment_loop ((length rawPlaintext + m - 1) / m) 0 key iv cipherSuite actualSeqNum ranges rawPlaintext.

(** ** TEE_T *)

(** [for j := 0; j < r.Length && j < len(stream); j++], [n] turns from [j] on. *)
Fixpoint apply_loop (n : nat) (j start : Z) (stream data : bytes) : res bytes :=
  match n with
  | O => Ok data
  | S n =>
      if j <? Z.of_nat (length stream)
      then data ← xor_position data start j stream; apply_loop n (j + 1) start stream data
      else Ok data
  end.

Fixpoint reconstructFullRequestWithStreams (reconstructed : bytes) (ranges : list RequestRedactionRange) (streams : list bytes) : res bytes :=
  match ranges, streams with
  | [], _ | _, [] => Ok reconstructed
  | r :: ranges, stream :: streams =>
      let len := Z.of_nat (length reconstructed) in
      fail_if ((rr_Start r <? 0) || (rr_Length r <? 0) || (len <? rr_Start r) || (len <? range_end r)) "invalid redaction range";;
      reconstructed ← apply_loop (Z.to_nat (rr_Length r)) 0 (rr_Start r) stream reconstructed;
      reconstructFullRequestWithStreams reconstructed ranges streams
  end.

(** The additional data and the tag of a reconstructed fragment. *)
Definition fragment_tag (cipherSuite seqNum : Z) (reconstructed tagSecrets : bytes) : res bytes :=
  let additionalData := if IsTLS13CipherSuite cipherSuite then CreateAdditionalDataTLS13 (length reconstructed + 16)
                        else CreateAdditionalDataTLS12 seqNum (length reconstructed) in
  ComputeTagFromSecrets reconstructed tagSecrets cipherSuite additionalData.

(** Ciphertext and tag of one fragment. *)
Definition processEncryptedRequestWithStreams (encReq : EncryptedRequestData) (streams : list bytes) : res (bytes * bytes) :=
  reconstructed ← reconstructFullRequestWithStreams (er_EncryptedData encReq) (er_RedactionRanges encReq) streams;
  tag ← fragment_tag (er_CipherSuite encReq) (er_SeqNum encReq) reconstructed (er_TagSecrets encReq);
  Ok (reconstructed, tag).

(** Fragment [i] is stored under [BaseSeqNum + i]. *)
Fixpoint store_fragments (seqNum cipherSuite : Z) (fragments : list EncryptedRequestData) (pending : gmap Z EncryptedRequestData)
    : gmap Z EncryptedRequestData :=
  match fragments with
  | [] => pending
  | f :: fragments =>
      store_fragments (add64 seqNum 1) cipherSuite fragments
        (<[seqNum := mkEncrypted (er_EncryptedData f) (er_TagSecrets f) cipherSuite seqNum (er_RedactionRanges f)]> pending)
  end.

Definition MaxEncryptedFragments : nat := 500.
Definition MaxRedactionRanges : nat := 1000.

(** The checks of [handleBatchedEncryptedRequest] and the fragments it stores. *)
Definition store_batch (cipherSuite baseSeqNum : Z) (fragments : list EncryptedRequestData)
    (pending : gmap Z EncryptedRequestData) : res (gmap Z EncryptedRequestData) :=
  fail_if ((MaxEncryptedFragments <? length fragments)%nat) "too many fragments";;
  fail_if (match fragments with f :: _ => (MaxRedactionRanges <? length (er_RedactionRanges f))%nat | [] => false end) "too many redaction ranges";;
  Ok (store_fragments baseSeqNum cipherSuite fragments pending).

(** The exchange sort of the sequence numbers: the inner loop moves the least of the rest to the front. *)
Fixpoint move_least (x : Z) (l : list Z) : Z * list Z :=
  match l with
  | [] => (x, [])
  | y :: l => if y <? x then let '(m, l) := move_least y l in (m, x :: l) else let '(m, l) := move_least x l in (m, y :: l)
  end.

Fixpoint exchange_sort (n : nat) (l : list Z) : list Z :=
  match n, l with
  | S n, x :: l => let '(m, l) := move_least x l in m :: exchange_sort n l
  | _, _ => l
  end.

Fixpoint consecutive_from (base : Z) (l : list Z) : bool :=
  match l with [] => true | s :: l => (s =? base) && consecutive_from (add64 base 1) l end.

Fixpoint process_fragments (cipherSuite : Z) (pending : gmap Z EncryptedRequestData) (streams : list bytes) (seqNums : list Z)
    : res (list (bytes * bytes)) :=
  match seqNums with
  | [] => Ok []
  | s :: seqNums =>
      match pending !! s with
      | None => Panic
      | Some fragment =>
          fail_if (negb (er_CipherSuite fragment =? cipherSuite)) "cipher suite mismatch";;
          out ← processEncryptedRequestWithStreams (mkEncrypted (er_EncryptedData fragment) (er_TagSecrets fragment) cipherSuite
                  s (er_RedactionRanges fragment)) streams;
          rest ← process_fragments cipherSuite pending streams seqNums;
          Ok (out :: rest)
      end
  end.

(** The batch that goes to the client and its first sequence number; [None]: nothing is pending. *)
Definition processEncryptedFragmentsWithStreams (pending : gmap Z EncryptedRequestData) (streams : list bytes)
    : res (option (Z * list (bytes * bytes))) :=
  match map_to_list pending with
  | [] => Ok None
  | [(s, fragment)] => out ← processEncryptedRequestWithStreams fragment streams; Ok (Some (er_SeqNum fragment, [out]))
  | (k :: ks) =>
      let seqNums := exchange_sort (length (k :: ks)) (map fst (k :: ks)) in
      match seqNums with
      | [] => Ok None
      | base :: _ =>
          fail_if (negb (consecutive_from base seqNums)) "non-consecutive fragments";;
          match pending !! base with
          | None => Panic
          | Some first => out ← process_fragments (er_CipherSuite first) pending streams seqNums; Ok (Some (base, out))
          end
      end
  end.

(** The records the client sends to the server ([client/websocket.go]). *)
Definition request_records (cipherSuite baseSeqNum : Z) (sealed : list (bytes * bytes)) : list bytes :=
  imap (fun i ct => CreateApplicationDataRecord (CreateAEADPayload cipherSuite (add64 baseSeqNum (Z.of_nat i)) ct.1 ct.2)) sealed.
End Redaction.

(** ** XOR of byte strings *)

Lemma xor_bytes_assoc a b c : xor_bytes (xor_bytes a b) c = xor_bytes a (xor_bytes b c).
Proof.
  revert b c. induction a as [|x a IH]; intros [|y b] [|z c]; [done..|]. unfold xor_bytes in *. cbn [zip_with]. by rewrite Z.lxor_assoc, IH.
Qed.

Lemma xor_bytes_app a b c d : length a = length c -> xor_bytes (a ++ b) (c ++ d) = xor_bytes a c ++ xor_bytes b d.
Proof. intros L. apply zip_with_app. done. Qed.

Lemma xor_bytes_zeros a n : length a = n -> xor_bytes a (zeros n) = a.
Proof.
  intros <-. induction a as [|x a IH]; [done|]. unfold xor_bytes, zeros in *. cbn [length replicate zip_with]. by rewrite Z.lxor_0_r, IH.
Qed.

Lemma length_zeros n : length (zeros n) = n.
Proof. apply length_replicate. Qed.

Lemma zeros_app n m : zeros (n + m) = zeros n ++ zeros m.
Proof. apply replicate_add. Qed.

(** ** One range *)

Lemma i64_id z : is_int z -> i64 z = z.
Proof. unfold is_int, i64. intros H. rewrite Z.mod_small by lia. lia. Qed.

Lemma xor_position_spec a b c s0 x s1 start j : Z.of_nat (length a) = start + j -> Z.of_nat (length s0) = j ->
  0 <= start -> start + j < 2 ^ 63 ->
  xor_position (a ++ b :: c) start j (s0 ++ x :: s1) = Ok (a ++ Z.lxor b x :: c).
Proof.
  intros La Ls Hs Hb. unfold xor_position. rewrite i64_id by (unfold is_int; lia).
  unfold index_int, set_index_int. rewrite !(proj2 (Z.ltb_ge _ _)) by lia.
  replace (Z.to_nat (start + j)) with (length a) by lia. replace (Z.to_nat j) with (length s0) by lia.
  unfold index. rewrite !list_lookup_middle by done. cbn [mbind res_bind].
  unfold set_index. rewrite length_app. cbn [length]. rewrite (proj2 (Nat.ltb_lt _ _)) by lia.
  f_equal. rewrite <- (Nat.add_0_r (length a)) at 1. by rewrite insert_app_r.
Qed.

Lemma redact_loop_spec m : forall a c s0 s s1 start j, length m = length s -> Z.of_nat (length a) = start + j -> Z.of_nat (length s0) = j ->
  0 <= start -> Z.of_nat (length (a ++ m ++ c)) < 2 ^ 63 ->
  redact_loop (length m) j start (s0 ++ s ++ s1) (a ++ m ++ c) = Ok (a ++ xor_bytes m s ++ c)
  /\ apply_loop (length m) j start (s0 ++ s ++ s1) (a ++ m ++ c) = Ok (a ++ xor_bytes m s ++ c).
Proof.
  induction m as [|b m IH]; intros a c s0 s s1 start j L La Ls Hs Hb; destruct s as [|x s]; [done..|].
  cbn [length redact_loop apply_loop app] in *. rewrite !length_app in *. cbn [length] in *. rewrite length_app in Hb.
  rewrite i64_id by (unfold is_int; lia). rewrite length_app, !(proj2 (Z.ltb_lt _ _)) by lia.
  rewrite xor_position_spec by (done || lia). cbn [mbind res_bind].
  replace (a ++ Z.lxor b x :: m ++ c) with ((a ++ [Z.lxor b x]) ++ m ++ c) by by rewrite <- app_assoc.
  replace (s0 ++ x :: s ++ s1) with ((s0 ++ [x]) ++ s ++ s1) by by rewrite <- app_assoc.
  destruct (IH (a ++ [Z.lxor b x]) c (s0 ++ [x]) s s1 start (j + 1)) as [-> ->]; [lia|rewrite length_app; cbn [length]; lia..|done| |].
  { rewrite !length_app. cbn [length]. lia. }
  by rewrite <- !app_assoc.
Qed.

(** A stream at its place in a string of [n] bytes. *)
Definition span (n start : nat) (s : bytes) : bytes := zeros start ++ s ++ zeros (n - start - length s).

Lemma length_span n start s : (start + length s <= n)%nat -> length (span n start s) = n.
Proof. intros H. unfold span. rewrite !length_app, !length_zeros. lia. Qed.

Lemma span_grow n m start s : (start + length s <= n)%nat -> span (n + m) start s = span n start s ++ zeros m.
Proof.
  intros H. unfold span. replace (n + m - start - length s)%nat with ((n - start - length s) + m)%nat by lia.
  by rewrite zeros_app, <- !app_assoc.
Qed.

Lemma loops_span data start s : (start + length s <= length data)%nat -> Z.of_nat (length data) < 2 ^ 63 ->
  redact_loop (length s) 0 (Z.of_nat start) s data = Ok (xor_bytes data (span (length data) start s))
  /\ apply_loop (length s) 0 (Z.of_nat start) s data = Ok (xor_bytes data (span (length data) start s)).
Proof.
  intros H B. set (a := take start data). set (m := take (length s) (drop start data)). set (c := drop (length s) (drop start data)).
  assert (E : data = a ++ m ++ c) by (unfold a, m, c; by rewrite !take_drop).
  assert (La : length a = start) by (unfold a; rewrite length_take; lia).
  assert (Lm : length m = length s) by (unfold m; rewrite length_take, length_drop; lia).
  destruct (redact_loop_spec m a c [] s [] (Z.of_nat start) 0) as [R A]; [done|lia|done|lia|by rewrite <- E|].
  cbn [app] in R, A. rewrite app_nil_r, <- E, Lm in R, A. rewrite R, A.
  assert (xor_bytes data (span (length data) start s) = a ++ xor_bytes m s ++ c) as ->; [|done].
  unfold span. rewrite E at 1. rewrite !xor_bytes_app by (rewrite ?length_zeros; lia).
  assert (length c = length data - start - length s)%nat by (unfold c; rewrite !length_drop; lia).
  by rewrite !xor_bytes_zeros by done.
Qed.

(** ** All ranges *)

(** A range within [k] bytes together with a stream of its length. *)
Definition covered (k : nat) (r : RequestRedactionRange) (s : bytes) : Prop :=
  0 <= rr_Start r /\ rr_Length r = Z.of_nat (length s) /\ rr_Start r + rr_Length r <= Z.of_nat k.

(** What the streams do to the first [n] bytes. *)
Fixpoint mask (n : nat) (ranges : list RequestRedactionRange) (streams : list bytes) : bytes :=
  match ranges, streams with
  | r :: ranges, s :: streams => xor_bytes (span n (Z.to_nat (rr_Start r)) s) (mask n ranges streams)
  | _, _ => zeros n
  end.

Lemma mask_spec k n ranges streams : (k <= n)%nat -> Forall2 (covered k) ranges streams ->
  length (mask n ranges streams) = n /\ mask n ranges streams = mask k ranges streams ++ zeros (n - k).
Proof.
  intros Hk. induction 1 as [|r s ranges streams (Hs & Hl & He) _ [L E]]; cbn [mask].
  { rewrite length_zeros. split; [done|]. rewrite <- zeros_app. f_equal. lia. }
  assert (length (mask k ranges streams) = k) as Lk.
  { pose proof L as L'. rewrite E, length_app, length_zeros in L'. lia. }
  split; [rewrite length_xor_bytes, L, length_span by lia; lia|].
  rewrite E. replace n with (k + (n - k))%nat at 1 by lia. rewrite span_grow by lia.
  rewrite xor_bytes_app by (rewrite length_span by lia; lia). by rewrite (xor_bytes_zeros (zeros _)) by apply length_zeros.
Qed.

Lemma covered_fits k r s : covered k r s -> Z.of_nat k < 2 ^ 62 -> range_end r = rr_Start r + rr_Length r.
Proof. intros (Hs & Hl & He) Hk. unfold range_end. apply i64_id. unfold is_int. lia. Qed.

(** Hiding and unhiding both add the mask. *)
Lemma redaction_is_mask ranges streams data : Forall2 (covered (length data)) ranges streams -> Z.of_nat (length data) < 2 ^ 62 ->
  applyRedaction data ranges streams = Ok (xor_bytes data (mask (length data) ranges streams))
  /\ reconstructFullRequestWithStreams data ranges streams = Ok (xor_bytes data (mask (length data) ranges streams)).
Proof.
  intros F B. remember (length data) as n eqn:Hn. revert data Hn.
  induction F as [|r s ranges streams (Hs & Hl & He) F IH]; intros data ->; cbn [applyRedaction reconstructFullRequestWithStreams mask].
  { by rewrite xor_bytes_zeros. }
  rewrite (covered_fits (length data) r s) by done. rewrite !(proj2 (Z.ltb_ge _ _)) by lia. cbn [orb]. rewrite Hl, Nat2Z.id.
  destruct (loops_span data (Z.to_nat (rr_Start r)) s) as [Ra Aa]; [lia..|]. rewrite Z2Nat.id in Ra, Aa by done. rewrite Ra, Aa. cbn [mbind res_bind].
  assert (Lx : length data = length (xor_bytes data (span (length data) (Z.to_nat (rr_Start r)) s))).
  { rewrite length_xor_bytes, length_span by lia. lia. }
  destruct (IH _ Lx) as [-> ->]. by rewrite xor_bytes_assoc.
Qed.

(** ** One fragment *)

Lemma covered_weaken k k' ranges streams : (k <= k')%nat -> Forall2 (covered k) ranges streams -> Forall2 (covered k') ranges streams.
Proof. intros H F. eapply Forall2_impl; [exact F|]. intros r s (? & ? & ?). unfold covered. lia. Qed.

(** What is appended to a fragment before it is encrypted. *)
Definition suffix (cipherSuite : Z) : bytes := if IsTLS13CipherSuite cipherSuite then [RecordTypeApplicationData; 0] else [].

Lemma prepare_suffix data cipherSuite : PrepareDataForEncryption data cipherSuite = data ++ suffix cipherSuite.
Proof. unfold PrepareDataForEncryption, suffix, PrepareDataForTLS13. destruct (IsTLS13CipherSuite _); [done|by rewrite app_nil_r]. Qed.

Lemma suffix_spec cipherSuite : is_bytes (suffix cipherSuite) /\ (length (suffix cipherSuite) <= 2)%nat.
Proof.
  unfold suffix. destruct (IsTLS13CipherSuite _); [|by split; [constructor|cbn; lia]].
  split; [|cbn; lia]. repeat (constructor; [unfold is_byte, RecordTypeApplicationData; lia|]). constructor.
Qed.

Section Fragments.
Context {BC : BlockCipher} {CP : ChaChaPoly}.

(** The record a TLS client would send for a fragment: ciphertext and tag of the standard AEAD. *)
Definition seal_fragment (key iv : bytes) (cipherSuite seqNum : Z) (fragment : bytes) : bytes * bytes :=
  let data := PrepareDataForEncryption fragment cipherSuite in
  aead_seal cipherSuite key (record_nonce cipherSuite iv seqNum) data (record_aad cipherSuite seqNum 23 (length data)).

(** What the services need of the keys of a connection. *)
Record keys_ok (key iv : bytes) (cipherSuite : Z) : Prop := {
  ko_suite : aead_suite cipherSuite;
  ko_key : key_ok cipherSuite key;
  ko_iv : iv_ok cipherSuite iv;
  ko_bytes : is_bytes iv;
}.

Lemma fragment_tag_aad cipherSuite seqNum C secrets :
  fragment_tag cipherSuite seqNum C secrets
  = ComputeTagFromSecrets C secrets cipherSuite (CreateAdditionalData cipherSuite seqNum (length C)).
Proof. unfold fragment_tag, CreateAdditionalData. by destruct (IsTLS13CipherSuite _). Qed.

(** A fragment [Q] that went through TEE_K hidden comes out of TEE_T as the record of [Q] itself. *)
Lemma fragment_sealed key iv cipherSuite seqNum all start Q ranges streams :
  keys_ok key iv cipherSuite -> seqNum <> MaxUint64 -> is_bytes Q -> Forall is_bytes streams ->
  Z.of_nat (length Q) <= 2 ^ 20 -> Forall2 (covered (length Q)) ranges streams ->
  omap (adjust_range start (Z.of_nat (length Q))) all = ranges ->
  exists e, encrypt_fragment key iv cipherSuite seqNum all start (xor_bytes Q (mask (length Q) ranges streams)) = Ok e
    /\ er_RedactionRanges e = ranges
    /\ processEncryptedRequestWithStreams (mkEncrypted (er_EncryptedData e) (er_TagSecrets e) cipherSuite seqNum (er_RedactionRanges e)) streams
       = Ok (seal_fragment key iv cipherSuite seqNum Q).
Proof.
  intros K Hq BQ BS LQ F Hadj. destruct K as [Hs Hk Hiv Biv]. destruct (suffix_spec cipherSuite) as [Bf Lf].
  destruct (mask_spec (length Q) (length Q + length (suffix cipherSuite)) ranges streams ltac:(lia) F) as [Lm Em].
  destruct (mask_spec (length Q) (length Q) ranges streams ltac:(lia) F) as [Lq _].
  set (M := mask (length Q) ranges streams) in *. set (n := (length Q + length (suffix cipherSuite))%nat) in *.
  assert (BM : is_bytes M).
  { unfold M. clear -F BS. induction F as [|r s ranges streams C F IH]; cbn [mask]; [apply zeros_bytes|]. inversion_clear BS as [|? ? B1 B2].
    apply xor_bytes_bytes; [|by apply IH]. unfold span. repeat (apply Forall_app; split); (done || apply zeros_bytes). }
  set (X := xor_bytes Q M). assert (LX : length X = length Q) by (unfold X; rewrite length_xor_bytes; lia).
  assert (PX : X ++ suffix cipherSuite = xor_bytes (Q ++ suffix cipherSuite) (mask n ranges streams)).
  { rewrite Em, xor_bytes_app by lia. by rewrite xor_bytes_zeros by (unfold n; lia). }
  set (sa := SetSequence (NewSplitAEAD key iv cipherSuite) seqNum).
  set (A := CreateAdditionalData cipherSuite seqNum n).
  pose proof (split_seals sa (X ++ suffix cipherSuite) A Hs Hq Hiv Biv Hk) as SX.
  pose proof (split_seals sa (Q ++ suffix cipherSuite) A Hs Hq Hiv Biv Hk) as SQ.
  cbn [sa sa_cipherSuite sa_key sa_iv sa_seq SetSequence NewSplitAEAD] in SX, SQ.
  assert (BA : is_bytes A) by apply additional_data_bytes. assert (LA : Z.of_nat (length A) < 2 ^ 61).
  { pose proof (additional_data_length cipherSuite seqNum n). unfold A. lia. }
  specialize (SX ltac:(apply Forall_app; split; [by apply xor_bytes_bytes|done]) BA ltac:(rewrite length_app; lia) LA).
  specialize (SQ ltac:(by apply Forall_app) BA ltac:(rewrite length_app; lia) LA).
  unfold encrypt_fragment, seal_fragment. rewrite <- additional_data_rfc, !prepare_suffix, LX, length_app, LX, length_app. fold n A.
  fold sa in SX, SQ |- *.
  destruct (aead_seal cipherSuite key (record_nonce cipherSuite iv seqNum) (X ++ _) A) as [CX TX].
  destruct (aead_seal cipherSuite key (record_nonce cipherSuite iv seqNum) (Q ++ _) A) as [CQ TQ].
  destruct SX as (EX & _ & _ & CX' & LCX). destruct SQ as (_ & TagQ & _ & CQ' & LCQ). rewrite EX. eexists. split; [done|].
  cbn [er_RedactionRanges er_EncryptedData er_TagSecrets]. rewrite Hadj. split; [done|].
  unfold processEncryptedRequestWithStreams. cbn [er_RedactionRanges er_EncryptedData er_TagSecrets er_CipherSuite er_SeqNum].
  rewrite length_app in LCX, LCQ. rewrite LX in LCX. fold n in LCX, LCQ.
  destruct (redaction_is_mask ranges streams CX) as [_ ->].
  { apply (covered_weaken (length Q)); [lia|done]. }
  { lia. }
  assert (xor_bytes CX (mask (length CX) ranges streams) = CQ) as ->.
  { rewrite LCX, CX', CQ', PX, length_xor_bytes, Lm, length_app. fold n. rewrite Nat.min_id.
    rewrite (xor_bytes_comm _ (mask n _ _)), <- xor_bytes_assoc.
    rewrite (xor_bytes_comm (mask n _ _) (xor_bytes (Q ++ _) _)), xor_bytes_cancel; [done|rewrite Lm, length_app; done]. }
  cbn [mbind res_bind]. rewrite fragment_tag_aad, LCQ. fold A. by rewrite TagQ.
Qed.
End Fragments.

(** ** Sorting the sequence numbers *)

Lemma move_least_spec l : forall x m l', move_least x l = (m, l') -> m :: l' ≡ₚ x :: l /\ Forall (Z.le m) l'.
Proof.
  induction l as [|y l IH]; intros x m l' E; cbn [move_least] in E; [by injection E as <- <-|].
  destruct (Z.ltb_spec y x).
  - destruct (move_least y l) as [m0 l0] eqn:E0. injection E as <- <-. destruct (IH _ _ _ E0) as [P F].
    split; [by rewrite Permutation_swap, P|]. constructor; [|done].
    assert (m0 ∈ y :: l) as [-> | Hm]%elem_of_cons by (rewrite <- P; apply list_elem_of_here); [lia|].
    assert (y ∈ m0 :: l0) as [-> | Hy]%elem_of_cons by (rewrite P; apply list_elem_of_here); [lia|].
    rewrite Forall_forall in F. specialize (F y Hy). lia.
  - destruct (move_least x l) as [m0 l0] eqn:E0. injection E as <- <-. destruct (IH _ _ _ E0) as [P F].
    split; [by rewrite Permutation_swap, P, Permutation_swap|]. constructor; [|done].
    assert (x ∈ m0 :: l0) as [-> | Hx]%elem_of_cons by (rewrite P; apply list_elem_of_here); [lia|].
    rewrite Forall_forall in F. specialize (F x Hx). lia.
Qed.

Lemma exchange_sort_spec n : forall l, length l = n -> exchange_sort n l ≡ₚ l /\ StronglySorted Z.le (exchange_sort n l).
Proof.
  induction n as [|n IH]; intros [|x l] L; [split; [done|constructor]|done..|]. cbn [exchange_sort].
  destruct (move_least x l) as [m l'] eqn:E. destruct (move_least_spec _ _ _ _ E) as [P F].
  assert (L' : length l' = n) by (apply Permutation_length in P; cbn in P, L; lia).
  destruct (IH l' L') as [P' S]. split; [by rewrite P'|]. constructor; [done|]. rewrite Forall_forall in F |- *.
  intros z Hz. apply F. by rewrite <- P'.
Qed.

Lemma seqZ_sorted base n : StronglySorted Z.le (seqZ base (Z.of_nat n)).
Proof.
  revert base. induction n as [|n IH]; intros base; [constructor|]. rewrite Nat2Z.inj_succ, seqZ_cons by lia.
  replace (Z.pred (Z.succ (Z.of_nat n))) with (Z.of_nat n) by lia. constructor; [apply IH|]. rewrite Forall_forall. intros z Hz%elem_of_seqZ. lia.
Qed.

(** ** The fragments TEE_T holds *)

Definition stored (cipherSuite seqNum : Z) (f : EncryptedRequestData) : EncryptedRequestData :=
  mkEncrypted (er_EncryptedData f) (er_TagSecrets f) cipherSuite seqNum (er_RedactionRanges f).

Lemma store_fragments_lookup cipherSuite fs : forall seqNum pending s, 0 <= seqNum -> seqNum + Z.of_nat (length fs) < 2 ^ 64 ->
  store_fragments seqNum cipherSuite fs pending !! s =
    if (seqNum <=? s) && (s <? seqNum + Z.of_nat (length fs)) then stored cipherSuite s <$> fs !! Z.to_nat (s - seqNum) else pending !! s.
Proof.
  induction fs as [|f fs IH]; intros seqNum pending s H0 HB; cbn [store_fragments length] in *.
  { destruct (Z.leb_spec seqNum s), (Z.ltb_spec s (seqNum + Z.of_nat 0)); (done || lia). }
  unfold add64. rewrite u64_id by (unfold is_u64; lia). rewrite IH by lia.
  destruct (Z.leb_spec seqNum s), (Z.ltb_spec s (seqNum + Z.of_nat (S (length fs)))), (Z.leb_spec (seqNum + 1) s),
    (Z.ltb_spec s (seqNum + 1 + Z.of_nat (length fs))); try lia; cbn [andb].
  - replace (Z.to_nat (s - seqNum)) with (S (Z.to_nat (s - (seqNum + 1)))) by lia. done.
  - assert (s = seqNum) as -> by lia. rewrite lookup_insert_eq, Z.sub_diag. done.
  - by rewrite lookup_insert_ne by lia.
  - by rewrite lookup_insert_ne by lia.
Qed.

Lemma consecutive_seqZ n : forall base, 0 <= base -> base + Z.of_nat n < 2 ^ 64 -> consecutive_from base (seqZ base (Z.of_nat n)) = true.
Proof.
  induction n as [|n IH]; intros base H0 HB; [done|]. rewrite Nat2Z.inj_succ, seqZ_cons by lia. cbn [consecutive_from].
  rewrite Z.eqb_refl. unfold add64. rewrite u64_id by (unfold is_u64; lia).
  replace (Z.pred (Z.succ (Z.of_nat n))) with (Z.of_nat n) by lia. rewrite Z.add_1_r. apply IH; lia.
Qed.

Section Gather.
Context {BC : BlockCipher} {CP : ChaChaPoly}.

Lemma process_fragments_spec cipherSuite pending streams outs : forall base,
  (forall j out, outs !! j = Some out -> exists f, pending !! (base + Z.of_nat j) = Some f /\ er_CipherSuite f = cipherSuite
     /\ processEncryptedRequestWithStreams (stored cipherSuite (base + Z.of_nat j) f) streams = Ok out) ->
  process_fragments cipherSuite pending streams (seqZ base (Z.of_nat (length outs))) = Ok outs.
Proof.
  induction outs as [|out outs IH]; intros base H; [done|]. cbn [length]. rewrite Nat2Z.inj_succ, seqZ_cons by lia. cbn [process_fragments].
  destruct (H 0%nat out eq_refl) as (f & Hf & Hc & Hp). rewrite Z.add_0_r in Hf, Hp. rewrite Hf, Hc, Z.eqb_refl. cbn [negb].
  unfold stored in Hp. rewrite Hp. cbn [mbind res_bind]. replace (Z.pred (Z.succ (Z.of_nat (length outs)))) with (Z.of_nat (length outs)) by lia.
  rewrite IH; [done|]. intros j o Hj. destruct (H (S j) o Hj) as (f' & Hf' & Hc' & Hp').
  replace (base + Z.of_nat (S j)) with (Z.succ base + Z.of_nat j) in Hf', Hp' by lia. eauto.
Qed.

(** TEE_T processes a stored batch in order, whatever order its map is ranged over. *)
Lemma gather_fragments cipherSuite base fs streams outs : 0 <= base -> base + Z.of_nat (length fs) < 2 ^ 64 -> fs <> [] ->
  length outs = length fs ->
  (forall j f out, fs !! j = Some f -> outs !! j = Some out ->
     processEncryptedRequestWithStreams (stored cipherSuite (base + Z.of_nat j) f) streams = Ok out) ->
  processEncryptedFragmentsWithStreams (store_fragments base cipherSuite fs ∅) streams = Ok (Some (base, outs)).
Proof.
  intros H0 HB Hne Lo HP. set (pending := store_fragments base cipherSuite fs ∅).
  assert (LK : forall j f, fs !! j = Some f -> pending !! (base + Z.of_nat j) = Some (stored cipherSuite (base + Z.of_nat j) f)).
  { intros j f Hj. pose proof (lookup_lt_Some _ _ _ Hj). unfold pending. rewrite store_fragments_lookup by done.
    rewrite (proj2 (Z.leb_le _ _)), (proj2 (Z.ltb_lt _ _)) by lia. cbn [andb].
    replace (Z.to_nat (base + Z.of_nat j - base)) with j by lia. by rewrite Hj. }
  assert (KP : (map_to_list pending).*1 ≡ₚ seqZ base (Z.of_nat (length fs))).
  { apply NoDup_Permutation; [apply NoDup_fst_map_to_list|apply NoDup_seqZ|]. intros s. rewrite elem_of_seqZ. split.
    - intros ([s' f] & -> & Hin)%list_elem_of_fmap. apply elem_of_map_to_list in Hin. cbn [fst]. unfold pending in Hin.
      rewrite store_fragments_lookup in Hin by done.
      destruct (Z.leb_spec base s'), (Z.ltb_spec s' (base + Z.of_nat (length fs))); (lia || done).
    - intros Hs. destruct (lookup_lt_is_Some_2 fs (Z.to_nat (s - base)) ltac:(lia)) as [f Hf]. apply LK in Hf.
      replace (base + Z.of_nat (Z.to_nat (s - base))) with s in Hf by lia.
      apply list_elem_of_fmap. exists (s, stored cipherSuite s f). split; [done|]. by apply elem_of_map_to_list. }
  assert (L : length (map_to_list pending) = length fs).
  { apply Permutation_length in KP. rewrite length_fmap, length_seqZ in KP. lia. }
  unfold processEncryptedFragmentsWithStreams. destruct (map_to_list pending) as [|[s f] rest] eqn:Em; [by destruct fs|].
  destruct rest as [|k rest].
  - destruct fs as [|f0 [|? ?]]; [done| |done]. destruct outs as [|out [|? ?]]; [done| |done].
    assert (Hin : pending !! s = Some f) by (apply elem_of_map_to_list; rewrite Em; apply list_elem_of_here).
    assert (s = base) as ->.
    { assert (Hs : s ∈ seqZ base (Z.of_nat 1)) by (rewrite <- KP; apply list_elem_of_here). apply elem_of_seqZ in Hs. lia. }
    pose proof (LK 0%nat f0 eq_refl) as H1. rewrite Z.add_0_r in H1. rewrite H1 in Hin. injection Hin as <-.
    pose proof (HP 0%nat f0 out eq_refl eq_refl) as H2. rewrite Z.add_0_r in H2. by rewrite H2.
  - set (ks := (s, f) :: k :: rest) in *. assert (Es : exchange_sort (length ks) (map fst ks) = seqZ base (Z.of_nat (length outs))).
    { destruct (exchange_sort_spec (length ks) (map fst ks)) as [P S]; [by rewrite length_map|].
      rewrite Lo. apply (StronglySorted_unique Z.le); [done|apply seqZ_sorted|by rewrite P]. }
    rewrite Es. destruct (seqZ base (Z.of_nat (length outs))) as [|b bs] eqn:Eq.
    { apply (f_equal length) in Eq. rewrite length_seqZ in Eq. cbn in Eq, L. lia. }
    assert (b = base) as ->.
    { assert (Hb : seqZ base (Z.of_nat (length outs)) !! 0%nat = Some b) by by rewrite Eq. apply lookup_seqZ in Hb as [-> _]. lia. }
    rewrite <- Eq, consecutive_seqZ by lia. cbn [negb].
    destruct fs as [|f0 fs]; [done|]. pose proof (LK 0%nat f0 eq_refl) as H1. rewrite Z.add_0_r in H1. rewrite H1. cbn [er_CipherSuite stored].
    rewrite process_fragments_spec; [done|]. intros j out Hj. pose proof (lookup_lt_Some _ _ _ Hj).
    destruct (lookup_lt_is_Some_2 (f0 :: fs) j ltac:(lia)) as [fj Hfj]. exists (stored cipherSuite (base + Z.of_nat j) fj).
    split; [by apply LK|]. split; [done|]. apply (HP j fj out Hfj Hj).
Qed.
End Gather.

(** ** The whole request *)

Section Request.
Context {BC : BlockCipher} {CP : ChaChaPoly}.

Definition fragment_at (cipherSuite : Z) (P : bytes) (i : nat) : bytes :=
  let m := maxFragmentPayload cipherSuite in slice P (i * m) (Nat.min (i * m + m) (length P)).

Definition fragment_count (cipherSuite : Z) (n : nat) : nat :=
  let m := maxFragmentPayload cipherSuite in ((n + m - 1) / m)%nat.

Lemma max_payload cipherSuite : Z.of_nat (maxFragmentPayload cipherSuite) = 16383 \/ Z.of_nat (maxFragmentPayload cipherSuite) = 16384.
Proof. unfold maxFragmentPayload, maxTLSPlaintextSize. destruct (IsTLS13CipherSuite _); lia. Qed.

Lemma length_fragment cipherSuite P i : length (fragment_at cipherSuite P i)
  = (Nat.min (i * maxFragmentPayload cipherSuite + maxFragmentPayload cipherSuite) (length P) - i * maxFragmentPayload cipherSuite)%nat.
Proof. unfold fragment_at, slice. rewrite length_take, length_drop. lia. Qed.

(** A range of TEE_K's check that ends in the first fragment, with its stream. *)
Definition in_first (cipherSuite : Z) (P : bytes) (r : RequestRedactionRange) (s : bytes) : Prop :=
  covered (length (fragment_at cipherSuite P 0)) r s /\ s <> [].

Lemma adjust_first cipherSuite P ranges streams : Forall2 (in_first cipherSuite P) ranges streams ->
  omap (adjust_range 0 (Z.of_nat (length (fragment_at cipherSuite P 0)))) ranges = ranges.
Proof.
  assert (Lf : Z.of_nat (length (fragment_at cipherSuite P 0)) <= 16384).
  { rewrite length_fragment. pose proof (max_payload cipherSuite). lia. }
  induction 1 as [|r s ranges streams [C Hne] F IH]; [done|]. cbn [omap list_omap]. pose proof C as (Hs & Hl & He).
  destruct s as [|x s]; [done|]. cbn [length] in *. unfold adjust_range at 1. rewrite (covered_fits _ _ _ C) by lia.
  rewrite !(proj2 (Z.ltb_lt _ _)) by lia. cbn [andb]. rewrite (proj2 (Z.ltb_ge (rr_Start r) 0)) by lia.
  destruct r as [st ln ty]. cbn [rr_Start rr_Length rr_Type] in *. rewrite Z.sub_0_r.
  assert (range_end (mkRange st ln ty) = st + ln) as -> by (unfold range_end; cbn; apply i64_id; unfold is_int; lia).
  rewrite (proj2 (Z.ltb_ge _ _)) by lia. by rewrite IH.
Qed.

Lemma adjust_later cipherSuite P ranges streams i : Forall2 (in_first cipherSuite P) ranges streams -> (0 < i)%nat ->
  omap (adjust_range (Z.of_nat (i * maxFragmentPayload cipherSuite)) (Z.of_nat (length (fragment_at cipherSuite P i)))) ranges = [].
Proof.
  assert (Lf : Z.of_nat (length (fragment_at cipherSuite P 0)) <= Z.of_nat (maxFragmentPayload cipherSuite)).
  { rewrite length_fragment. lia. }
  pose proof (max_payload cipherSuite) as Hm.
  intros F Hi. induction F as [|r s ranges streams [C _] F IH]; [done|]. cbn [omap list_omap]. unfold adjust_range at 1.
  rewrite (covered_fits _ _ _ C) by lia. destruct C as (Hs & Hl & He).
  assert (maxFragmentPayload cipherSuite <= i * maxFragmentPayload cipherSuite)%nat by nia.
  rewrite (proj2 (Z.ltb_ge _ (rr_Start r + _))) by lia. by rewrite andb_false_r.
Qed.

(** The hidden request: only its first fragment differs from the request. *)
Lemma hidden_fragments cipherSuite P ranges streams i :
  Forall2 (covered (length (fragment_at cipherSuite P 0))) ranges streams ->
  let R := xor_bytes P (mask (length P) ranges streams) in
  let k := length (fragment_at cipherSuite P 0) in
  length R = length P /\
  fragment_at cipherSuite R i = if (i =? 0)%nat then xor_bytes (fragment_at cipherSuite P 0) (mask k ranges streams) else fragment_at cipherSuite P i.
Proof.
  intros F R k. set (m := maxFragmentPayload cipherSuite).
  assert (Hk : k = Nat.min m (length P)) by (unfold k; rewrite length_fragment; fold m; lia).
  assert (Hm : (0 < m)%nat) by (pose proof (max_payload cipherSuite); unfold m; lia).
  assert (Fk : Forall2 (covered k) ranges streams) by done.
  destruct (mask_spec k (length P) ranges streams ltac:(lia) Fk) as [Lm Em]. destruct (mask_spec k k ranges streams ltac:(lia) Fk) as [Lk _].
  assert (LR : length R = length P) by (unfold R; rewrite length_xor_bytes; lia). split; [done|].
  unfold fragment_at. fold m. rewrite LR. destruct (Nat.eqb_spec i 0) as [->|Hi].
  - unfold R. rewrite Em, xor_bytes_slice. cbn [Nat.mul Nat.add]. fold m. rewrite <- Hk. f_equal.
    unfold slice. rewrite drop_0, Nat.sub_0_r, take_app_length'; done.
  - unfold R. rewrite Em. destruct (decide (m <= length P)%nat) as [Hle|Hlt]; cycle 1.
    { assert (length P <= i * m)%nat by nia. unfold slice. replace (Nat.min (i * m + m) (length P) - i * m)%nat with 0%nat by lia. done. }
    assert (k = m) by lia. assert (m <= i * m)%nat by nia.
    rewrite <- (take_drop k P) at 1. rewrite xor_bytes_app by (rewrite length_take; lia).
    rewrite xor_bytes_zeros by (rewrite length_drop; lia).
    rewrite slice_app_skip by (rewrite length_xor_bytes, length_take; lia).
    rewrite length_xor_bytes, length_take, Lk. replace (Nat.min (Nat.min k (length P)) k) with k by lia.
    unfold slice. rewrite drop_drop. f_equal; [lia|f_equal; lia].
Qed.

(** The request passes TEE_K in fragments that TEE_T turns into the records of the request. *)
Lemma fragment_loop_spec key iv cipherSuite seqNum P ranges streams n : forall i,
  keys_ok key iv cipherSuite -> is_bytes P -> Forall is_bytes streams -> Forall2 (in_first cipherSuite P) ranges streams ->
  0 <= seqNum -> seqNum + Z.of_nat (i + n) < 2 ^ 64 ->
  exists es, fragment_loop n i key iv cipherSuite seqNum ranges (xor_bytes P (mask (length P) ranges streams)) = Ok es /\ length es = n
  /\ (i = 0%nat -> forall e, head es = Some e -> er_RedactionRanges e = ranges)
  /\ forall j e, es !! j = Some e ->
       processEncryptedRequestWithStreams (stored cipherSuite (seqNum + Z.of_nat (i + j)) e) streams
       = Ok (seal_fragment key iv cipherSuite (seqNum + Z.of_nat (i + j)) (fragment_at cipherSuite P (i + j))).
Proof.
  induction n as [|n IH]; intros i K BP BS F Hq HB; [by exists []|].
  assert (FC : Forall2 (covered (length (fragment_at cipherSuite P 0))) ranges streams) by (eapply Forall2_impl; [exact F|by intros ? ? []]).
  destruct (IH (S i)) as (es & E & Le & Hh & Hp); [done..|lia|].
  destruct (hidden_fragments cipherSuite P ranges streams i FC) as [LR FR]. set (R := xor_bytes P _) in *.
  assert (Hadd : add64 seqNum (Z.of_nat i) = seqNum + Z.of_nat i) by (unfold add64; apply u64_id; unfold is_u64; lia).
  assert (Hmax : seqNum + Z.of_nat i <> MaxUint64) by (unfold MaxUint64; lia).
  assert (LQ : forall i, Z.of_nat (length (fragment_at cipherSuite P i)) <= 2 ^ 20).
  { intros i'. rewrite length_fragment. pose proof (max_payload cipherSuite). lia. }
  assert (BQ : forall i, is_bytes (fragment_at cipherSuite P i)) by (intros; by apply slice_forall).
  cbn [fragment_loop]. rewrite Hadd. change (slice R _ _) with (fragment_at cipherSuite R i). rewrite FR.
  assert (exists e, encrypt_fragment key iv cipherSuite (seqNum + Z.of_nat i) ranges (Z.of_nat (i * maxFragmentPayload cipherSuite))
      (if (i =? 0)%nat then xor_bytes (fragment_at cipherSuite P 0) (mask (length (fragment_at cipherSuite P 0)) ranges streams)
       else fragment_at cipherSuite P i) = Ok e /\ (i = 0%nat -> er_RedactionRanges e = ranges)
    /\ processEncryptedRequestWithStreams (stored cipherSuite (seqNum + Z.of_nat i) e) streams
       = Ok (seal_fragment key iv cipherSuite (seqNum + Z.of_nat i) (fragment_at cipherSuite P i))) as (e & Ee & Lr & Pe).
  { destruct (Nat.eqb_spec i 0) as [->|Hi].
    - destruct (fragment_sealed key iv cipherSuite (seqNum + Z.of_nat 0) ranges 0 (fragment_at cipherSuite P 0) ranges streams)
        as (e & Ee & Er & Pe); [done..|by eapply adjust_first|]. exists e. split_and!; [done|by rewrite Er|done].
    - destruct (fragment_sealed key iv cipherSuite (seqNum + Z.of_nat i) ranges (Z.of_nat (i * maxFragmentPayload cipherSuite))
        (fragment_at cipherSuite P i) [] []) as (e & Ee & Er & Pe); [done..|eapply adjust_later; [done|lia]|].
      cbn [mask] in Ee. rewrite xor_bytes_zeros in Ee by done. exists e. rewrite Er. split_and!; [done|intros ->; lia|].
      unfold stored. rewrite Er in Pe |- *. exact Pe. }
  rewrite Ee. cbn [mbind res_bind]. rewrite E. eexists. split; [done|]. split; [cbn; lia|]. split; [by intros H0 ? [= <-]; apply Lr|].
  intros [|j] f Hf; cbn in Hf; [injection Hf as <-; by rewrite Nat.add_0_r|]. rewrite Nat.add_succ_r. apply (Hp j f Hf).
Qed.

Lemma fragments_cover cipherSuite P n : concat (map (fragment_at cipherSuite P) (seq 0 n)) = take (n * maxFragmentPayload cipherSuite) P.
Proof.
  induction n as [|n IH]; [done|]. rewrite seq_S, map_app, concat_app, IH. cbn [map concat]. rewrite app_nil_r.
  set (m := maxFragmentPayload cipherSuite). replace (S n * m)%nat with (n * m + m)%nat by lia. rewrite <- take_take_drop. f_equal.
  unfold fragment_at, slice. fold m. cbn [Nat.add]. rewrite <- (take_ge (drop (n * m) P) (length P - n * m)) at 2 by (rewrite length_drop; lia).
  rewrite take_take. f_equal. lia.
Qed.

(** What TEE_K checks of the ranges, and what the client's streams satisfy. *)
Lemma validated_in_first cipherSuite P ranges streams :
  validateRedactionPositions ranges (Z.of_nat (length P)) = Ok () -> Forall2 (fun r s => rr_Length r = Z.of_nat (length s)) ranges streams ->
  Forall (fun r => rr_Start r + rr_Length r <= Z.of_nat (maxFragmentPayload cipherSuite)) ranges ->
  Forall2 (in_first cipherSuite P) ranges streams
  /\ validateRedactionRanges ranges (Z.of_nat (length P)) = Ok () /\ Forall2 (covered (length P)) ranges streams.
Proof.
  intros V F. unfold validateRedactionRanges. revert V. induction F as [|r s ranges streams Hl F IH]; intros V B.
  { split_and!; [constructor|done|constructor]. }
  inversion_clear B as [|? ? Br Bs]. cbn [validateRedactionPositions existsb] in *.
  revert V. open_guards. intros (G & _ & _ & V). apply orb_false_iff in G as [[G1 G2]%orb_false_iff G3].
  apply Z.ltb_ge in G1, G3. apply Z.leb_gt in G2. pose proof (max_payload cipherSuite).
  assert (E : range_end r = rr_Start r + rr_Length r) by (unfold range_end; apply i64_id; unfold is_int; lia). rewrite E in *.
  destruct (IH V Bs) as (I1 & I2 & I3). split; [|split].
  - constructor; [|done]. split; [|intros ->; cbn in Hl; lia].
    unfold covered. rewrite length_fragment. lia.
  - rewrite !(proj2 (Z.ltb_ge _ _)) by lia. revert I2. open_guards. by intros [-> _].
  - constructor; [|done]. unfold covered. lia.
Qed.

(** The hidden request through both services. *)
Lemma hidden_request_seals key iv cipherSuite seqNum P ranges streams :
  keys_ok key iv cipherSuite -> is_bytes P -> (0 < length P)%nat -> Z.of_nat (length P) <= 2 ^ 20 ->
  ranges <> [] -> (length ranges <= MaxRedactionRanges)%nat -> Forall is_bytes streams ->
  validateRedactionPositions ranges (Z.of_nat (length P)) = Ok () -> Forall2 (fun r s => rr_Length r = Z.of_nat (length s)) ranges streams ->
  Forall (fun r => rr_Start r + rr_Length r <= Z.of_nat (maxFragmentPayload cipherSuite)) ranges ->
  let n := fragment_count cipherSuite (length P) in
  0 <= seqNum -> seqNum + Z.of_nat n < 2 ^ 64 ->
  exists R es pending,
    createRedactedRequest P [] ranges (Some streams) = Ok R
    /\ encryptAndSendRequest key iv cipherSuite seqNum R ranges = Ok es
    /\ (exists e rest, es = e :: rest /\ er_RedactionRanges e = ranges)
    /\ store_batch cipherSuite seqNum es ∅ = Ok pending /\ pending <> ∅
    /\ (exists f, pending !! seqNum = Some f /\ er_CipherSuite f = cipherSuite)
    /\ processEncryptedFragmentsWithStreams pending streams
       = Ok (Some (seqNum, map (fun i => seal_fragment key iv cipherSuite (seqNum + Z.of_nat i) (fragment_at cipherSuite P i)) (seq 0 n)))
    /\ concat (map (fragment_at cipherSuite P) (seq 0 n)) = P.
Proof.
  intros K BP HP LP Hne Lr BS V F B n Hq HB. destruct (validated_in_first cipherSuite P ranges streams V F B) as (F1 & V1 & F2).
  set (m := maxFragmentPayload cipherSuite). assert (Hm := max_payload cipherSuite). fold m in Hm.
  assert (D := Nat.div_mod_eq (length P + m - 1) m). assert (M := Nat.mod_upper_bound (length P + m - 1) m ltac:(lia)).
  assert (Hn : n = ((length P + m - 1) / m)%nat) by done. rewrite <- Hn in D.
  destruct (redaction_is_mask ranges streams P F2 ltac:(lia)) as [ER _].
  destruct (fragment_loop_spec key iv cipherSuite seqNum P ranges streams n 0 K BP BS F1 Hq HB) as (es & E & Le & Hh & Hp).
  destruct (mask_spec (length P) (length P) ranges streams ltac:(lia) F2) as [Lm _].
  set (R := xor_bytes P (mask (length P) ranges streams)) in *. assert (LR : length R = length P) by (unfold R; rewrite length_xor_bytes; lia).
  assert (Hes : es <> []) by (intros ->; cbn in Le; rewrite <- Le in D; nia).
  assert (Hf : exists f, store_fragments seqNum cipherSuite es ∅ !! seqNum = Some f /\ er_CipherSuite f = cipherSuite).
  { rewrite store_fragments_lookup by lia. destruct es as [|e es]; [done|]. cbn [length]. rewrite (proj2 (Z.leb_le _ _)), (proj2 (Z.ltb_lt _ _)) by lia.
    rewrite Z.sub_diag. cbn. by eexists. }
  exists R, es, (store_fragments seqNum cipherSuite es ∅). repeat apply conj.
  - unfold createRedactedRequest. rewrite (proj2 (Nat.ltb_lt 0 (length P))), (proj2 (Nat.eqb_neq (length P) 0)) by lia. cbn [andb].
    rewrite V1, ER. by destruct ranges.
  - unfold encryptAndSendRequest. rewrite LR. fold m. rewrite <- Hn.
    assert ((length key =? 0)%nat = false) as ->.
    { destruct K as [_ Hk _ _]. unfold key_ok in Hk. destruct key; [|done]. by destruct (is_suite _ _). }
    assert ((length iv =? 0)%nat = false) as ->.
    { destruct K as [_ _ Hi _]. unfold iv_ok in Hi. destruct iv; [|done]. by destruct (is_suite _ _). }
    exact E.
  - destruct es as [|e es]; [done|]. exists e, es. split; [done|by apply Hh].
  - unfold store_batch, MaxEncryptedFragments. rewrite (proj2 (Nat.ltb_ge _ _)).
    2: { assert (Z.of_nat n * 16383 <= 2 ^ 21) by nia. lia. }
    destruct es as [|e es]; [done|]. by rewrite (proj2 (Nat.ltb_ge _ _)) by (by rewrite (Hh eq_refl e)).
  - intros E0. destruct Hf as (f & Hf & _). rewrite E0 in Hf. done.
  - exact Hf.
  - apply gather_fragments; [done|lia|done|by rewrite length_map, length_seq, Le|].
    intros j f out Hj0 Ho. rewrite list_lookup_fmap in Ho. destruct (seq 0 n !! j) eqn:Es; [|done]. apply lookup_seq in Es as [-> Hj].
    injection Ho as <-. apply (Hp j f Hj0).
  - rewrite fragments_cover. apply take_ge. fold m. nia.
Qed.
End Request.

(** ** Concrete runs *)

(** A stream cipher and an authenticator that compute nothing, for the runs below (which use AES-GCM suites). *)
Definition const_chacha : ChaChaPoly.
Proof.
  refine {| chacha20_stream _ _ _ n := zeros n; poly1305_Sum _ _ := zeros 16 |}; intros; apply length_replicate || apply zeros_bytes.
Defined.

Definition demo_request : bytes := [71; 69; 84; 32; 47; 32; 115; 51; 99; 114; 51; 116].
