(* ===== verification/RequestJoin.v ===== *)
(** * TEE_T's request join ([tee_t/session_handlers.go], lines 20-132 and 365-454)

    The streams come from the client and the encrypted fragments from TEE_K, over
    two connections and in either order; whichever handler brings the counter to
    two dispatches the request. *)

From S2P Require Import Prelude Bytes Crypto Ghash CipherSuite SplitAead Redaction.

(** The fields of the session the request path uses; the session is terminated whenever a handler fails. *)
Record TeetRequest := mkTeet {
  tr_RequestPartsArrived : Z;
  tr_RedactionState : option (list RequestRedactionRange * list bytes);
  tr_PendingEncryptedFragments : gmap Z EncryptedRequestData;
  tr_PendingEncryptedRequest : option EncryptedRequestData;
  tr_RequestProofStreams : list bytes;
  tr_CipherSuite : Z;
}.

Definition new_request : TeetRequest := mkTeet 0 None ∅ None [] 0.

(** What goes to the client: the first sequence number, and ciphertext and tag of each fragment. *)
Definition batch : Type := Z * list (bytes * bytes).

(** The streams of the ranges that are disclosed in the proof. *)
Definition proof_streams (ranges : list RequestRedactionRange) (streams : list bytes) : list bytes :=
  omap (fun rs => if String.eqb (rr_Type rs.1) RedactionTypeSensitiveProof then Some rs.2 else None) (zip ranges streams).

Section Join.
Context {CP : ChaChaPoly}.

(** Counter-at-join: [RequestPartsArrived.Add(1)] is atomic, and the handler that brings it to 2 dispatches. *)
Definition processIfBothPartsArrived (t : TeetRequest) : res (TeetRequest * option batch) :=
  let count := i32 (tr_RequestPartsArrived t + 1) in
  if negb (count =? 2) then Ok (mkTeet count (tr_RedactionState t) (tr_PendingEncryptedFragments t) (tr_PendingEncryptedRequest t)
                                  (tr_RequestProofStreams t) (tr_CipherSuite t), None)
  else
    let proofs := match tr_RedactionState t with Some (ranges, streams) => proof_streams ranges streams | None => tr_RequestProofStreams t end in
    if (0 <? size (tr_PendingEncryptedFragments t))%nat then
      match tr_RedactionState t with
      | None => Err "no redaction state available for session"
      | Some (_, streams) =>
          out ← processEncryptedFragmentsWithStreams (tr_PendingEncryptedFragments t) streams;
          let suite := match out with
                       | Some (s, _) => match tr_PendingEncryptedFragments t !! s with Some f => er_CipherSuite f | None => tr_CipherSuite t end
                       | None => tr_CipherSuite t
                       end in
          Ok (mkTeet count (tr_RedactionState t) ∅ (tr_PendingEncryptedRequest t) proofs suite, out)
      end
    else
      match tr_PendingEncryptedRequest t, tr_RedactionState t with
      | Some encReq, Some (_, streams) =>
          out ← processEncryptedRequestWithStreams encReq streams;
          Ok (mkTeet count (tr_RedactionState t) (tr_PendingEncryptedFragments t) None proofs (er_CipherSuite encReq), Some (er_SeqNum encReq, [out]))
      | Some _, None => Err "no redaction state available for session"
      | None, _ => Err "both parts marked arrived but no encrypted request data present"
      end.

Definition handleRedactionStreams (t : TeetRequest) (streams : list bytes) : res (TeetRequest * option batch) :=
  let ranges := match tr_RedactionState t with Some (ranges, _) => ranges | None => [] end in
  processIfBothPartsArrived (mkTeet (tr_RequestPartsArrived t) (Some (ranges, streams)) (tr_PendingEncryptedFragments t)
                               (tr_PendingEncryptedRequest t) (tr_RequestProofStreams t) (tr_CipherSuite t)).

Definition handleBatchedEncryptedRequest (t : TeetRequest) (cipherSuite baseSeqNum : Z) (fragments : list EncryptedRequestData)
    : res (TeetRequest * option batch) :=
  pending ← store_batch cipherSuite baseSeqNum fragments (tr_PendingEncryptedFragments t);
  let '(ranges, streams) := match tr_RedactionState t with Some rs => rs | None => ([], []) end in
  let ranges := match fragments with f :: _ => er_RedactionRanges f | [] => ranges end in
  processIfBothPartsArrived (mkTeet (tr_RequestPartsArrived t) (Some (ranges, streams)) pending
                               (tr_PendingEncryptedRequest t) (tr_RequestProofStreams t) (tr_CipherSuite t)).

(** The messages of a session, in the order in which the handlers bring their part to the join.  The code takes no lock
    here: each handler stores its part and then adds one to an atomic [int32]; the two parts are different fields, and
    the atomic addition makes the first part visible to the handler that reads 2, so a handler is one step. *)
Inductive request_message :=
  | Streams (streams : list bytes)
  | Encrypted (cipherSuite baseSeqNum : Z) (fragments : list EncryptedRequestData).

Definition request_step (t : TeetRequest) (m : request_message) : res (TeetRequest * option batch) :=
  match m with
  | Streams streams => handleRedactionStreams t streams
  | Encrypted cipherSuite baseSeqNum fragments => handleBatchedEncryptedRequest t cipherSuite baseSeqNum fragments
  end.

(** The batches that went out when the messages were handled in turn; a failure ends the session. *)
Fixpoint request_run (t : TeetRequest) (ms : list request_message) : list batch * res TeetRequest :=
  match ms with
  | [] => ([], Ok t)
  | m :: ms =>
      match request_step t m with
      | Ok (t, out) => let '(outs, r) := request_run t ms in (option_list out ++ outs, r)
      | Err e => ([], Err e)
      | Panic => ([], Panic)
      end
  end.
End Join.

(** ** The join *)

Section Join_facts.
Context {BC : BlockCipher} {CP : ChaChaPoly}.

Lemma i32_next k : i32 (i32 k + 1) = i32 (k + 1).
Proof.
  unfold i32. f_equal. replace ((k + 2 ^ 31) mod 2 ^ 32 - 2 ^ 31 + 1 + 2 ^ 31) with ((k + 2 ^ 31) mod 2 ^ 32 + 1) by lia.
  rewrite Zplus_mod_idemp_l. f_equal. lia.
Qed.

(** The counter reads 2 only at its second message, until it has gone all the way round. *)
Lemma i32_two k : 0 <= k < 2 ^ 32 + 2 -> i32 k = 2 -> k = 2.
Proof.
  intros Hk E. unfold i32 in E. assert (M : (k + 2 ^ 31) mod 2 ^ 32 = 2 + 2 ^ 31) by lia.
  pose proof (Z.div_mod (k + 2 ^ 31) (2 ^ 32) ltac:(lia)) as D. rewrite M in D.
  assert (0 <= (k + 2 ^ 31) / 2 ^ 32) by (apply Z.div_pos; lia). nia.
Qed.

(** Either handler ends in the join, which counts it. *)
Lemma step_counts t m t' out : request_step t m = Ok (t', out) ->
  tr_RequestPartsArrived t' = i32 (tr_RequestPartsArrived t + 1) /\ (out <> None -> i32 (tr_RequestPartsArrived t + 1) = 2).
Proof.
  assert (J : forall u, processIfBothPartsArrived u = Ok (t', out) ->
    tr_RequestPartsArrived t' = i32 (tr_RequestPartsArrived u + 1) /\ (out <> None -> i32 (tr_RequestPartsArrived u + 1) = 2)).
  { intros u E. unfold processIfBothPartsArrived in E. destruct (Z.eqb_spec (i32 (tr_RequestPartsArrived u + 1)) 2) as [E2|_];
      cbn [negb] in E; [|by injection E as <- <-]. split; [|done].
    destruct (0 <? size _)%nat.
    - destruct (tr_RedactionState u) as [[? ?]|]; [|done]. inv_bind E. by injection E as <- _.
    - destruct (tr_PendingEncryptedRequest u), (tr_RedactionState u) as [[? ?]|]; try done. inv_bind E. by injection E as <- _. }
  destruct m; cbn [request_step]; intros E.
  - apply (J _ E).
  - unfold handleBatchedEncryptedRequest in E. inv_bind E. destruct (tr_RedactionState t) as [[? ?]|]; apply (J _ E).
Qed.

Lemma run_outputs ms : forall t k, tr_RequestPartsArrived t = i32 k -> 0 <= k -> k + Z.of_nat (length ms) < 2 ^ 32 + 2 ->
  (length (fst (request_run t ms)) <= (if decide (k < 2)%Z then 1 else 0))%nat.
Proof.
  induction ms as [|m ms IH]; intros t k Hk H0 HB; [cbn; lia|]. cbn [request_run length] in *.
  destruct (request_step t m) as [[t' out]|e|] eqn:E; [|cbn; lia..].
  destruct (step_counts _ _ _ _ E) as [E1 E2]. rewrite Hk, i32_next in E1, E2.
  specialize (IH t' (k + 1) E1 ltac:(lia) ltac:(lia)). destruct (request_run t' ms) as [outs r]. cbn [fst] in *.
  rewrite length_app. destruct out as [b|]; [change (length (option_list (Some b))) with 1%nat|change (length (option_list (@None batch))) with 0%nat]; cycle 1.
  { revert IH. repeat case_decide; lia. }
  assert (k + 1 = 2) by (apply i32_two; [lia|by apply E2]). revert IH. repeat case_decide; lia.
Qed.

(** C30: A session sends at most one request to the server.  Whatever the client and TEE_K send, in whatever order and
    however often, at most one batch of records leaves TEE_T, as long as there are fewer than 2^32 messages and so the counter of
    the arrived parts has not gone round. *)
Theorem request_leaves_once ms : Z.of_nat (length ms) < 2 ^ 32 -> (length (fst (request_run new_request ms)) <= 1)%nat.
Proof. intros H. apply (run_outputs ms new_request 0); [done|lia|lia]. Qed.

(** C2: The server receives exactly the client's request, sealed as TLS prescribes, although no party that handled it
    could have sealed it.  When TEE_K accepts the ranges, the client's streams fit them and all of them end in the
    first fragment (there is at least one range, the request has at most 2^20 bytes and its sequence numbers do not
    overflow; [straddling_range_corrupts_request] shows what a range that ends later does), the hidden request passes TEE_K, and whichever of the streams and the fragments reaches TEE_T first,
    one batch leaves it: fragment by fragment, ciphertext and tag of the standard AEAD of the client's own bytes, under
    consecutive sequence numbers and the nonces of the record layer; the fragments are the request, and TEE_T keeps
    exactly the streams of the ranges disclosed in the proof. *)
Theorem hidden_request_is_sealed key iv cipherSuite seqNum P ranges streams :
  keys_ok key iv cipherSuite -> is_bytes P -> (0 < length P)%nat -> Z.of_nat (length P) <= 2 ^ 20 ->
  ranges <> [] -> (length ranges <= MaxRedactionRanges)%nat -> Forall is_bytes streams ->
  validateRedactionPositions ranges (Z.of_nat (length P)) = Ok () -> Forall2 (fun r s => rr_Length r = Z.of_nat (length s)) ranges streams ->
  Forall (fun r => rr_Start r + rr_Length r <= Z.of_nat (maxFragmentPayload cipherSuite)) ranges ->
  let n := fragment_count cipherSuite (length P) in
  0 <= seqNum -> seqNum + Z.of_nat n < 2 ^ 64 ->
  let sealed := map (fun i => seal_fragment key iv cipherSuite (seqNum + Z.of_nat i) (fragment_at cipherSuite P i)) (seq 0 n) in
  let sent t := ([(seqNum, sealed)], Ok t) in
  let final := mkTeet 2 (Some (ranges, streams)) ∅ None (proof_streams ranges streams) cipherSuite in
  exists R es,
    createRedactedRequest P [] ranges (Some streams) = Ok R
    /\ encryptAndSendRequest key iv cipherSuite seqNum R ranges = Ok es
    /\ request_run new_request [Streams streams; Encrypted cipherSuite seqNum es] = sent final
    /\ request_run new_request [Encrypted cipherSuite seqNum es; Streams streams] = sent final
    /\ concat (map (fragment_at cipherSuite P) (seq 0 n)) = P.
Proof.
  intros K BP HP LP Hne Lr BS V F B n Hq HB sealed sent final.
  destruct (hidden_request_seals key iv cipherSuite seqNum P ranges streams K BP HP LP Hne Lr BS V F B Hq HB)
    as (R & es & pending & HR & HE & (e & rest & Ee & Er) & HS & Hp & (f & Hf & Hs) & HO & HC).
  exists R, es. split; [done|]. split; [done|].
  assert (Sz : (0 <? size pending)%nat = true).
  { apply Nat.ltb_lt, Nat.neq_0_lt_0. by rewrite map_size_empty_iff. }
  assert (J : processIfBothPartsArrived (mkTeet 1 (Some (ranges, streams)) pending None [] 0) = Ok (final, Some (seqNum, sealed))).
  { unfold processIfBothPartsArrived. cbn [tr_RequestPartsArrived tr_RedactionState tr_PendingEncryptedFragments tr_RequestProofStreams
      tr_PendingEncryptedRequest tr_CipherSuite]. change (negb (i32 (1 + 1) =? 2)) with false. cbv iota. rewrite Sz.
    fold n in HO. fold sealed in HO. rewrite HO. cbn [mbind res_bind]. rewrite Hf, Hs. done. }
  assert (S0 : handleBatchedEncryptedRequest new_request cipherSuite seqNum es = Ok (mkTeet 1 (Some (ranges, [])) pending None [] 0, None)).
  { unfold handleBatchedEncryptedRequest, new_request. cbn [tr_PendingEncryptedFragments]. rewrite HS. cbn [mbind res_bind]. by rewrite Ee, Er. }
  split; [|split; [|done]]; cbn [request_run request_step].
  - change (handleRedactionStreams new_request streams) with (Ok (mkTeet 1 (Some ([], streams)) ∅ None [] 0, @None batch)).
    cbv iota. unfold handleBatchedEncryptedRequest. cbn [tr_PendingEncryptedFragments tr_RequestPartsArrived tr_RedactionState
      tr_PendingEncryptedRequest tr_RequestProofStreams tr_CipherSuite]. rewrite HS. cbn [mbind res_bind]. rewrite Ee, Er. cbv iota. by rewrite J.
  - rewrite S0. unfold handleRedactionStreams. cbn [tr_PendingEncryptedFragments tr_RequestPartsArrived tr_RedactionState
      tr_PendingEncryptedRequest tr_RequestProofStreams tr_CipherSuite]. by rewrite J.
Qed.
(** ** A range over a border *)

(** TEE_T uses as much of a stream as the range is long, from its first byte on. *)
Lemma apply_prefix n start stream k : forall j data, 0 <= j -> j + Z.of_nat n <= Z.of_nat k -> (k <= length stream)%nat ->
  apply_loop n j start stream data = apply_loop n j start (take k stream) data.
Proof.
  induction n as [|n IH]; intros j data Hj Hn Hk; [done|]. cbn [apply_loop]. rewrite length_take, !(proj2 (Z.ltb_lt _ _)) by lia.
  unfold xor_position. replace (index_int (take k stream) j) with (index_int stream j); cycle 1.
  { unfold index_int. rewrite (proj2 (Z.ltb_ge _ _)) by lia. unfold index. by rewrite lookup_take_lt by lia. }
  destruct (index_int data _); [|done..]. cbn [mbind res_bind]. destruct (index_int stream j); [|done..]. cbn [mbind res_bind].
  destruct (set_index_int data _ _) as [data'| |]; [|done..]. cbn [mbind res_bind]. apply IH; lia.
Qed.

Lemma process_prefix e r stream : er_RedactionRanges e = [r] -> (Z.to_nat (rr_Length r) <= length stream)%nat ->
  processEncryptedRequestWithStreams e [stream] = processEncryptedRequestWithStreams e [take (Z.to_nat (rr_Length r)) stream].
Proof.
  intros Er L. unfold processEncryptedRequestWithStreams. rewrite Er. cbn [reconstructFullRequestWithStreams].
  destruct (_ || _); [done|]. by rewrite (apply_prefix _ _ stream (Z.to_nat (rr_Length r))) by lia.
Qed.

(** The loop over the fragments, one by one. *)
Lemma fragment_loop_each key iv cipherSuite seqNum ranges R (Q : nat -> EncryptedRequestData -> Prop) n : forall i,
  (forall j, (j < i + n)%nat -> exists e, encrypt_fragment key iv cipherSuite (add64 seqNum (Z.of_nat j)) ranges
     (Z.of_nat (j * maxFragmentPayload cipherSuite)) (fragment_at cipherSuite R j) = Ok e /\ Q j e) ->
  exists es, fragment_loop n i key iv cipherSuite seqNum ranges R = Ok es /\ length es = n /\ forall j e, es !! j = Some e -> Q (i + j)%nat e.
Proof.
  induction n as [|n IH]; intros i H; [by exists []|]. destruct (H i ltac:(lia)) as (e & Ee & Qe). destruct (IH (S i) ltac:(intros j Hj; apply H; lia)) as (es & Es & L & Qs).
  exists (e :: es). cbn [fragment_loop]. change (slice R _ _) with (fragment_at cipherSuite R i). rewrite Ee. cbn [mbind res_bind].
  rewrite Es. split; [done|]. split; [cbn; lia|]. intros [|j] f Hf; cbn in Hf; [injection Hf as <-; by rewrite Nat.add_0_r|].
  rewrite Nat.add_succ_r. by apply (Qs j).
Qed.

Lemma xor_bytes_self a : xor_bytes a a = zeros (length a).
Proof. induction a as [|x a IH]; [done|]. unfold xor_bytes, zeros in *. cbn [zip_with length replicate]. by rewrite Z.lxor_nilpotent, IH. Qed.

Lemma keys_present key iv cipherSuite : keys_ok key iv cipherSuite -> (length key =? 0)%nat = false /\ (length iv =? 0)%nat = false.
Proof.
  intros [_ Hk Hi _]. unfold key_ok, iv_ok in *. split; [destruct key; [|done]|destruct iv; [|done]].
  - clear Hi. by destruct (is_suite _ _).
  - clear Hk. by destruct (is_suite _ _).
Qed.

Lemma span_xor k a b : length a = length b -> (length a <= k)%nat -> xor_bytes (span k 0 a) (span k 0 b) = span k 0 (xor_bytes a b).
Proof.
  intros L H. unfold span. cbn [zeros replicate app]. rewrite xor_bytes_app by done. rewrite length_xor_bytes, <- L, Nat.min_id.
  by rewrite xor_bytes_zeros by apply length_zeros.
Qed.

Section Straddling.
Context (key iv : bytes) (cipherSuite seqNum : Z) (P stream : bytes) (start : nat) (type : string).
Context (K : keys_ok key iv cipherSuite) (BP : is_bytes P) (BS : is_bytes stream).
Let m : nat := maxFragmentPayload cipherSuite.
Let range := mkRange (Z.of_nat start) (Z.of_nat (length stream)) type.
Let before := (m - start)%nat.
Let beyond := (start + length stream - m)%nat.
Context (Hm : (start < m)%nat) (Hb : (m < start + length stream)%nat) (H2 : (start + length stream <= 2 * m)%nat)
  (HP : (start + length stream <= length P)%nat) (LP : Z.of_nat (length P) <= 2 ^ 20).
Context (Hq : 0 <= seqNum) (HB : seqNum + Z.of_nat (fragment_count cipherSuite (length P)) < 2 ^ 64).

(** What the second fragment turns into: the end of the range is hidden with the end of the stream and revealed with its
    beginning. *)
Definition corrupted_fragment : bytes :=
  let Q := fragment_at cipherSuite P 1 in
  xor_bytes Q (span (length Q) 0 (xor_bytes (drop before stream) (take beyond stream))).

Definition received_fragment (i : nat) : bytes := if (i =? 1)%nat then corrupted_fragment else fragment_at cipherSuite P i.

Lemma straddle_bounds : length (drop before stream) = beyond /\ length (take beyond stream) = beyond
  /\ length (fragment_at cipherSuite P 0) = m /\ (beyond <= length (fragment_at cipherSuite P 1) <= m)%nat
  /\ length corrupted_fragment = length (fragment_at cipherSuite P 1).
Proof.
  pose proof (length_fragment cipherSuite P 0) as L0. pose proof (length_fragment cipherSuite P 1) as L1. fold m in L0, L1.
  assert (D : length (drop before stream) = beyond) by (rewrite length_drop; unfold before, beyond; lia).
  assert (T : length (take beyond stream) = beyond) by (rewrite length_take; unfold beyond; lia).
  assert (B : (beyond <= length (fragment_at cipherSuite P 1))%nat) by (unfold beyond; lia).
  split_and!; [done..|lia|lia|lia|]. unfold corrupted_fragment. rewrite length_xor_bytes, length_span; [lia|].
  rewrite length_xor_bytes, D, T. lia.
Qed.

(** The hidden request, fragment by fragment. *)
Lemma straddle_hidden i : let R := xor_bytes P (span (length P) start stream) in
  length R = length P /\ fragment_at cipherSuite R i =
    match i with
    | 0%nat => xor_bytes (fragment_at cipherSuite P 0) (span m start (take before stream))
    | 1%nat => xor_bytes corrupted_fragment (span (length corrupted_fragment) 0 (take beyond stream))
    | _ => fragment_at cipherSuite P i
    end.
Proof.
  intros R. destruct straddle_bounds as (Ld & Lt & L0 & L1 & Lc). assert (LR : length R = length P) by (unfold R; rewrite length_xor_bytes, length_span by lia; lia).
  split; [done|]. unfold fragment_at at 1. fold m. rewrite LR. unfold R. rewrite xor_bytes_slice. fold (fragment_at cipherSuite P i).
  set (first := zeros start ++ take before stream).
  assert (Lf : length first = m) by (unfold first; rewrite length_app, length_zeros, length_take; unfold before; lia).
  assert (E : span (length P) start stream = first ++ drop before stream ++ zeros (length P - start - length stream)).
  { unfold span, first. rewrite <- (take_drop before stream) at 1. by rewrite <- !app_assoc. }
  rewrite E. destruct i as [|[|i]].
  - f_equal. cbn [Nat.mul Nat.add]. rewrite Nat.min_l by lia. rewrite <- Lf at 1. unfold slice. rewrite drop_0, Nat.sub_0_r, take_app_length.
    unfold span, first. rewrite length_take. replace (m - start - Nat.min before (length stream))%nat with 0%nat by (unfold before; lia).
    cbn [zeros replicate]. by rewrite app_nil_r.
  - rewrite Lc. unfold corrupted_fragment. rewrite xor_bytes_assoc, span_xor by (rewrite ?length_xor_bytes; lia).
    rewrite xor_bytes_cancel by lia. f_equal. rewrite slice_app_skip, Lf by lia. unfold slice. rewrite Nat.mul_1_l, Nat.sub_diag, drop_0.
    pose proof (length_fragment cipherSuite P 1) as LL. fold m in LL. rewrite Nat.mul_1_l in LL. rewrite take_app, Ld. rewrite (take_ge (drop before stream)) by lia.
    unfold span. cbn [zeros replicate app]. f_equal. unfold zeros. rewrite take_replicate, Ld. f_equal. unfold beyond in *. lia.
  - pose proof (length_fragment cipherSuite P (S (S i))) as LL. fold m in LL. rewrite slice_app_skip, Lf by nia.
    rewrite slice_app_skip, Ld by (unfold beyond; nia). unfold slice, zeros. rewrite drop_replicate, take_replicate.
    apply xor_bytes_zeros. unfold beyond. nia.
Qed.

Lemma straddle_adjust i : omap (adjust_range (Z.of_nat (i * m)) (Z.of_nat (length (received_fragment i)))) [range]
  = match i with 0%nat => [mkRange (Z.of_nat start) (Z.of_nat before) type] | 1%nat => [mkRange 0 (Z.of_nat beyond) type] | _ => [] end.
Proof.
  destruct straddle_bounds as (_ & _ & L0 & L1 & Lc). pose proof (max_payload cipherSuite) as Hp. fold m in Hp.
  assert (RE : forall s l, 0 <= s <= 2 ^ 21 -> 0 <= l <= 2 ^ 21 -> range_end (mkRange s l type) = s + l).
  { intros s l ? ?. unfold range_end. cbn [rr_Start rr_Length]. apply i64_id. unfold is_int. lia. }
  cbn [omap list_omap]. unfold adjust_range, range. rewrite RE by lia. cbn [rr_Start rr_Length rr_Type]. unfold received_fragment, before, beyond.
  destruct i as [|[|i]]; cbn [Nat.eqb].
  - rewrite L0. cbn [Nat.mul]. rewrite !(proj2 (Z.ltb_lt _ _)) by lia. cbn [andb]. rewrite (proj2 (Z.ltb_ge (Z.of_nat start) _)) by lia.
    rewrite RE by lia. cbn [rr_Start rr_Length rr_Type]. rewrite (proj2 (Z.ltb_lt (Z.of_nat m) _)) by lia. do 2 f_equal; lia.
  - rewrite Lc, Nat.mul_1_l. rewrite (proj2 (Z.ltb_lt (Z.of_nat start) (Z.of_nat m))), !(proj2 (Z.ltb_lt _ _)) by lia. cbn [andb]. rewrite RE by lia.
    rewrite (proj2 (Z.ltb_ge (Z.of_nat (length _)) _)) by (unfold beyond in L1; lia). do 2 f_equal. lia.
  - rewrite (proj2 (Z.ltb_ge (Z.of_nat (S (S i) * m)) _)) by nia. by rewrite andb_false_r.
Qed.

(** The fragment is as it was only when the two parts of the stream agree. *)
Lemma corrupted_differs : received_fragment 1 = fragment_at cipherSuite P 1 -> drop before stream = take beyond stream.
Proof.
  destruct straddle_bounds as (Ld & Lt & _ & L1 & Lc). unfold received_fragment. cbn [Nat.eqb]. unfold corrupted_fragment.
  set (Q := fragment_at cipherSuite P 1) in *. set (x := xor_bytes (drop before stream) (take beyond stream)). intros E.
  assert (Lx : length x = beyond) by (unfold x; rewrite length_xor_bytes; lia).
  assert (S0 : span (length Q) 0 x = zeros (length Q)).
  { apply (f_equal (xor_bytes Q)) in E. rewrite <- xor_bytes_assoc, !xor_bytes_self in E. rewrite xor_bytes_comm in E. rewrite xor_bytes_zeros in E; [done|].
    apply length_span. lia. }
  assert (X0 : x = zeros beyond).
  { apply (f_equal (take beyond)) in S0. unfold span in S0. cbn [zeros replicate app] in S0. rewrite take_app_length' in S0 by done.
    unfold zeros in S0 |- *. by rewrite take_replicate, Nat.min_l in S0 by lia. }
  assert (T : xor_bytes x (take beyond stream) = take beyond stream) by (rewrite X0, xor_bytes_comm; by apply xor_bytes_zeros).
  unfold x in T. by rewrite xor_bytes_cancel in T by lia.
Qed.

(** Every record is a good one, of what the fragment turned into. *)
Lemma straddle_fragment i : let R := xor_bytes P (span (length P) start stream) in seqNum + Z.of_nat i < 2 ^ 64 - 1 ->
  exists e, encrypt_fragment key iv cipherSuite (add64 seqNum (Z.of_nat i)) [range] (Z.of_nat (i * m)) (fragment_at cipherSuite R i) = Ok e
    /\ (length (er_RedactionRanges e) <= 1)%nat
    /\ processEncryptedRequestWithStreams (stored cipherSuite (seqNum + Z.of_nat i) e) [stream]
       = Ok (seal_fragment key iv cipherSuite (seqNum + Z.of_nat i) (received_fragment i)).
Proof.
  intros R Hi. destruct straddle_bounds as (Ld & Lt & L0 & L1 & Lc). destruct (straddle_hidden i) as [_ FR]. fold R in FR. rewrite FR. clear FR. pose proof (straddle_adjust i) as A.
  assert (add64 seqNum (Z.of_nat i) = seqNum + Z.of_nat i) as -> by (unfold add64; apply u64_id; unfold is_u64; lia).
  assert (Hmax : seqNum + Z.of_nat i <> MaxUint64) by (unfold MaxUint64; lia). pose proof (max_payload cipherSuite) as Hp. fold m in Hp.
  assert (LQ : Z.of_nat (length (received_fragment i)) <= 2 ^ 20).
  { unfold received_fragment. destruct (i =? 1)%nat; [rewrite Lc|]; rewrite length_fragment; fold m; lia. }
  assert (BT : forall k, is_bytes (take k stream) /\ is_bytes (drop k stream)) by (intros k; split; [by apply Forall_take|by apply Forall_drop]).
  assert (BF : forall i, is_bytes (fragment_at cipherSuite P i)) by (intros; by apply slice_forall).
  assert (BQ : is_bytes (received_fragment i)).
  { unfold received_fragment, corrupted_fragment, span. destruct (i =? 1)%nat; [|apply BF]. apply xor_bytes_bytes; [apply BF|].
    cbn [zeros replicate app]. apply Forall_app. split; [by apply xor_bytes_bytes; apply BT|apply zeros_bytes]. }
  assert (M : forall k s0 t0 u, length (span k s0 u) = k -> mask k [mkRange (Z.of_nat s0) t0 type] [u] = span k s0 u).
  { intros k s0 t0 u L. cbn [mask rr_Start]. rewrite Nat2Z.id. by apply xor_bytes_zeros. }
  pose proof (fragment_sealed key iv cipherSuite (seqNum + Z.of_nat i) [range] (Z.of_nat (i * m)) (received_fragment i)) as FS.
  destruct i as [|[|i]].
  - destruct (FS [mkRange (Z.of_nat start) (Z.of_nat before) type] [take before stream] K Hmax BQ ltac:(constructor; [apply BT|constructor]) LQ) as (e & Ee & Er & Pe); [|exact A|].
    { constructor; [|constructor]. unfold covered. cbn [rr_Start rr_Length]. unfold received_fragment. cbn [Nat.eqb]. rewrite length_take. unfold before. lia. }
    rewrite M in Ee by (apply length_span; unfold received_fragment; cbn [Nat.eqb]; rewrite length_take; unfold before; lia).
    unfold received_fragment in Ee. cbn [Nat.eqb] in Ee. rewrite L0 in Ee. exists e. rewrite Er. split_and!; [done|cbn; lia|].
    unfold stored. rewrite <- Pe, Er. rewrite (process_prefix _ (mkRange (Z.of_nat start) (Z.of_nat before) type)) by (done || (cbn; unfold before; lia)).
    cbn [rr_Length]. by rewrite Nat2Z.id.
  - destruct (FS [mkRange 0 (Z.of_nat beyond) type] [take beyond stream] K Hmax BQ ltac:(constructor; [apply BT|constructor]) LQ) as (e & Ee & Er & Pe); [|exact A|].
    { constructor; [|constructor]. unfold covered. cbn [rr_Start rr_Length]. unfold received_fragment. cbn [Nat.eqb]. lia. }
    rewrite (M _ 0%nat) in Ee by (apply length_span; unfold received_fragment; cbn [Nat.eqb]; lia).
    exists e. rewrite Er. split_and!; [done|cbn; lia|].
    unfold stored. rewrite <- Pe, Er. rewrite (process_prefix _ (mkRange 0 (Z.of_nat beyond) type)) by (done || (cbn; unfold beyond; lia)).
    cbn [rr_Length]. by rewrite Nat2Z.id.
  - destruct (FS [] [] K Hmax BQ ltac:(constructor) LQ ltac:(constructor) A) as (e & Ee & Er & Pe). cbn [mask] in Ee. rewrite xor_bytes_zeros in Ee by done.
    exists e. rewrite Er. split_and!; [exact Ee|cbn; lia|]. unfold stored. rewrite Er in Pe |- *. exact Pe.
Qed.
End Straddling.
(** Streams first: the fragments bring the counter to two and the batch leaves. *)
Lemma join_sends cipherSuite seqNum es streams pending out :
  es <> [] -> store_batch cipherSuite seqNum es ∅ = Ok pending -> pending <> ∅ ->
  processEncryptedFragmentsWithStreams pending streams = Ok (Some out) ->
  fst (request_run new_request [Streams streams; Encrypted cipherSuite seqNum es]) = [out].
Proof.
  intros Hne HS Hp HO. assert (Sz : (0 <? size pending)%nat = true) by (apply Nat.ltb_lt, Nat.neq_0_lt_0; by rewrite map_size_empty_iff).
  destruct es as [|e es]; [done|]. cbn [request_run request_step].
  change (handleRedactionStreams new_request streams) with (Ok (mkTeet 1 (Some ([], streams)) ∅ None [] 0, @None batch)). cbv iota.
  unfold handleBatchedEncryptedRequest. cbn [tr_PendingEncryptedFragments tr_RequestPartsArrived tr_RedactionState
    tr_PendingEncryptedRequest tr_RequestProofStreams tr_CipherSuite]. rewrite HS. cbn [mbind res_bind].
  unfold processIfBothPartsArrived. cbn [tr_RequestPartsArrived tr_RedactionState tr_PendingEncryptedFragments tr_RequestProofStreams
      tr_PendingEncryptedRequest tr_CipherSuite]. change (negb (i32 (1 + 1) =? 2)) with false. cbv iota. rewrite Sz, HO. cbn [mbind res_bind]. by destruct out.
Qed.

(** C39: A range that reaches into the second fragment corrupts the request.  TEE_K cuts the range at the border of the
    fragments, but TEE_T applies the stream of the range from its first byte on in either fragment.  For every request of
    at most 2^20 bytes and every range that starts in its first fragment and ends in its second, the checks of the client
    and of both services pass, and the batch that leaves TEE_T consists of good records, of which the second seals
    [corrupted_fragment]: the second fragment with the end of the range under the exclusive or of the end and the
    beginning of the stream, which is not what the client asked for unless these two happen to be equal. *)
Theorem straddling_range_corrupts_request key iv cipherSuite seqNum P stream start type :
  keys_ok key iv cipherSuite -> is_bytes P -> is_bytes stream -> Z.of_nat (length P) <= 2 ^ 20 ->
  type = RedactionTypeSensitive \/ type = RedactionTypeSensitiveProof ->
  let m := maxFragmentPayload cipherSuite in
  (start < m < start + length stream)%nat -> (start + length stream <= 2 * m)%nat -> (start + length stream <= length P)%nat ->
  0 <= seqNum -> seqNum + Z.of_nat (fragment_count cipherSuite (length P)) < 2 ^ 64 ->
  let ranges := [mkRange (Z.of_nat start) (Z.of_nat (length stream)) type] in
  let record i := seal_fragment key iv cipherSuite (seqNum + Z.of_nat i) (received_fragment cipherSuite P stream start i) in
  validateRedactionPositions ranges (Z.of_nat (length P)) = Ok ()
  /\ (exists R es, createRedactedRequest P [] ranges (Some [stream]) = Ok R
      /\ encryptAndSendRequest key iv cipherSuite seqNum R ranges = Ok es
      /\ fst (request_run new_request [Streams [stream]; Encrypted cipherSuite seqNum es])
         = [(seqNum, map record (seq 0 (fragment_count cipherSuite (length P))))])
  /\ (drop (m - start) stream <> take (start + length stream - m) stream ->
      received_fragment cipherSuite P stream start 1 <> fragment_at cipherSuite P 1).
Proof.
  intros K BP BS LP HT m [H1 H2] H3 H4 Hq HB ranges record. set (n := fragment_count cipherSuite (length P)) in *.
  pose proof (max_payload cipherSuite) as Hp. fold m in Hp.
  assert (RE : range_end (mkRange (Z.of_nat start) (Z.of_nat (length stream)) type) = Z.of_nat (start + length stream)).
  { unfold range_end. cbn [rr_Start rr_Length]. rewrite i64_id by (unfold is_int; lia). lia. }
  assert (C : Forall2 (covered (length P)) ranges [stream]) by (constructor; [|constructor]; unfold covered; cbn [rr_Start rr_Length]; lia).
  assert (D := Nat.div_mod_eq (length P + m - 1) m). assert (M := Nat.mod_upper_bound (length P + m - 1) m ltac:(lia)).
  assert (Hn : n = ((length P + m - 1) / m)%nat) by done. rewrite <- Hn in D. split_and!.
  - cbn [ranges validateRedactionPositions existsb]. rewrite RE. cbn [rr_Start rr_Length rr_Type].
    rewrite !(proj2 (Z.ltb_ge _ _)), (proj2 (Z.leb_gt _ _)) by lia. by destruct HT as [-> | ->].
  - destruct (redaction_is_mask ranges [stream] P C ltac:(lia)) as [ER _]. cbn [ranges mask rr_Start] in ER.
    rewrite Nat2Z.id, (xor_bytes_zeros (span _ _ _)) in ER by (apply length_span; lia). set (R := xor_bytes P (span (length P) start stream)) in *.
    assert (LR : length R = length P) by (unfold R; rewrite length_xor_bytes, length_span by lia; lia).
    destruct (fragment_loop_each key iv cipherSuite seqNum ranges R (fun i e => (length (er_RedactionRanges e) <= 1)%nat
      /\ processEncryptedRequestWithStreams (stored cipherSuite (seqNum + Z.of_nat i) e) [stream] = Ok (record i)) n 0) as (es & E & Le & Qs).
    { intros j Hj. apply straddle_fragment; (done || lia). }
    exists R, es. split_and!.
    + unfold createRedactedRequest. rewrite (proj2 (Nat.ltb_lt 0 (length P))), (proj2 (Nat.eqb_neq (length P) 0)) by lia. cbn [andb].
      unfold validateRedactionRanges. cbn [ranges existsb length Nat.eqb]. rewrite RE. cbn [rr_Start rr_Length]. rewrite !(proj2 (Z.ltb_ge _ _)) by lia. exact ER.
    + unfold encryptAndSendRequest. rewrite LR. fold m. rewrite <- Hn. destruct (keys_present key iv cipherSuite K) as [-> ->]. exact E.
    + assert (Hes : es <> []) by (intros ->; cbn in Le; rewrite <- Le in D; nia).
      apply (join_sends _ _ _ _ (store_fragments seqNum cipherSuite es ∅)); [done| | |].
      * unfold store_batch, MaxEncryptedFragments, MaxRedactionRanges. rewrite (proj2 (Nat.ltb_ge _ _)).
        2: { assert (Z.of_nat n * 16383 <= 2 ^ 21) by nia. lia. }
        destruct es as [|e es]; [done|]. destruct (Qs 0%nat e eq_refl) as [Lr _]. by rewrite (proj2 (Nat.ltb_ge _ _)) by lia.
      * intros E0. apply (f_equal (lookup seqNum)) in E0. rewrite store_fragments_lookup in E0 by lia. destruct es as [|e es]; [done|].
        cbn [length] in E0. rewrite (proj2 (Z.leb_le _ _)), (proj2 (Z.ltb_lt _ _)), Z.sub_diag in E0 by lia. done.
      * apply gather_fragments; [done|lia|done|by rewrite length_map, length_seq, Le|].
        intros j f out Hj Ho. rewrite list_lookup_fmap in Ho. destruct (seq 0 n !! j) eqn:Es; [|done]. apply lookup_seq in Es as [-> _].
        injection Ho as <-. by apply (Qs j f Hj).
  - intros Hd E. apply Hd. by eapply (corrupted_differs cipherSuite P stream start).
Qed.
End Join_facts.

(** ** Concrete runs *)

Lemma request_leaves_once_witness :
  let ms := [Streams []; Encrypted TLS_AES_128_GCM_SHA256 3 [mkEncrypted [1] (zeros 32) 0 0 []]; Streams []; Streams []] in
  (length (fst (@request_run const_chacha new_request ms)) <= 1)%nat.
Proof. intros ms. apply (@request_leaves_once const_chacha ms). vm_compute. done. Defined.

(** Bytes 6 to 11 of the request are hidden from TEE_K. *)
Lemma hidden_request_is_sealed_witness :
  let cs := TLS_AES_128_GCM_SHA256 in
  let ranges := [mkRange 6 6 RedactionTypeSensitiveProof] in let streams := [replicate 6 170] in
  let sealed := map (fun i => @seal_fragment const_cipher const_chacha (zeros 16) (zeros 12) cs (3 + Z.of_nat i) (fragment_at cs demo_request i)) (seq 0 1) in
  let sent t := ([(3, sealed)], Ok t) in
  let final := mkTeet 2 (Some (ranges, streams)) ∅ None (proof_streams ranges streams) cs in
  exists R es,
  createRedactedRequest demo_request [] ranges (Some streams) = Ok R
  /\ @encryptAndSendRequest const_cipher const_chacha (zeros 16) (zeros 12) cs 3 R ranges = Ok es
  /\ @request_run const_chacha new_request [Streams streams; Encrypted cs 3 es] = sent final
  /\ @request_run const_chacha new_request [Encrypted cs 3 es; Streams streams] = sent final
  /\ concat (map (fragment_at cs demo_request) (seq 0 1)) = demo_request.
Proof.
  refine (@hidden_request_is_sealed const_cipher const_chacha (zeros 16) (zeros 12) TLS_AES_128_GCM_SHA256 3 demo_request
    [mkRange 6 6 RedactionTypeSensitiveProof] [replicate 6 170] _ _ _ _ _ _ _ _ _ _ _ _);
    [|repeat (constructor; [unfold is_byte; lia|]); constructor|vm_compute; lia|by vm_compute|done|vm_compute; lia| |done| |
     |lia|by vm_compute].
  - split; [done|by vm_compute|done|apply zeros_bytes].
  - repeat constructor; unfold is_byte; lia.
  - repeat constructor.
  - constructor; [by vm_compute|constructor].
Defined.

(** Bytes 16380 to 16385 of a request of 16390 bytes, hidden under a stream that does not repeat. *)
Lemma straddling_range_corrupts_request_witness :
  let cs := TLS_AES_128_GCM_SHA256 in let P := replicate (Z.to_nat 16390) 5 in let stream := [1; 2; 3; 4; 5; 6] in
  let ranges := [mkRange (Z.of_nat (Z.to_nat 16380)) (Z.of_nat 6) RedactionTypeSensitive] in
  let record i := @seal_fragment const_cipher const_chacha (zeros 16) (zeros 12) cs (3 + Z.of_nat i) (received_fragment cs P stream (Z.to_nat 16380) i) in
  take 3 (received_fragment cs P stream (Z.to_nat 16380) 1) = [Z.lxor 5 (Z.lxor 4 1); Z.lxor 5 (Z.lxor 5 2); Z.lxor 5 (Z.lxor 6 3)]
  /\ validateRedactionPositions ranges (Z.of_nat (length P)) = Ok ()
  /\ (exists R es, createRedactedRequest P [] ranges (Some [stream]) = Ok R
      /\ @encryptAndSendRequest const_cipher const_chacha (zeros 16) (zeros 12) cs 3 R ranges = Ok es
      /\ fst (@request_run const_chacha new_request [Streams [stream]; Encrypted cs 3 es])
         = [(3, map record (seq 0 (fragment_count cs (length P))))])
  /\ (drop (maxFragmentPayload cs - Z.to_nat 16380) stream <> take (Z.to_nat 16380 + 6 - maxFragmentPayload cs) stream ->
      received_fragment cs P stream (Z.to_nat 16380) 1 <> fragment_at cs P 1).
Proof.
  intros cs P stream ranges record. split; [by vm_compute|].
  assert (L : length P = Z.to_nat 16390) by apply length_replicate. assert (Em : maxFragmentPayload cs = Z.to_nat 16383) by by vm_compute.
  apply (@straddling_range_corrupts_request const_cipher const_chacha (zeros 16) (zeros 12) cs 3 P stream (Z.to_nat 16380) RedactionTypeSensitive).
  - split; [done|by vm_compute|done|apply zeros_bytes].
  - apply Forall_replicate. unfold is_byte. lia.
  - repeat constructor; unfold is_byte; lia.
  - rewrite L. lia.
  - by left.
  - rewrite Em. change (length stream) with 6%nat. lia.
  - rewrite Em. change (length stream) with 6%nat. lia.
  - rewrite L. change (length stream) with 6%nat. lia.
  - lia.
  - rewrite L. by vm_compute.
Defined.
