(* ===== verification/Response.v ===== *)
(** * Authenticated responses ([client/tls.go], [tee_t/session_handlers.go], [tee_t/crypto_handlers.go],
      [tee_k/response_handlers.go], [tee_k/crypto.go])

    The client forwards the server's records to TEE_T, which sends their lengths
    to TEE_K; TEE_K answers with the tag secrets of the nonces, TEE_T checks the
    tags without a key, and TEE_K then releases the key streams and signs them
    with the redacted parts replaced by random bytes. *)

From stdpp Require Import sorting.
From S2P Require Import Prelude Bytes Crypto Ghash CipherSuite SplitAead Redaction.

Record EncryptedResponseData := mkResponse {
  ed_EncryptedData : bytes;
  ed_Tag : bytes;
  ed_RecordHeader : bytes;
  ed_SeqNum : Z;
  ed_ExplicitIV : bytes;
}.

(** The client: a captured record under its sequence number; [None] closes the session. *)
Definition processTLSRecord (cipherSuite responseSeqNum : Z) (record : bytes) : option EncryptedResponseData :=
  let encryptedPayload := drop 5 record in
  let n := length encryptedPayload in
  if (n <? 16)%nat then None else
  let tag := drop (n - 16) encryptedPayload in
  if negb (cipherSuite =? 0) && IsTLS12AESGCMCipherSuite cipherSuite then
    if (n <? 8 + 16)%nat then None
    else Some (mkResponse (slice encryptedPayload 8 (n - 16)) tag (take 5 record) responseSeqNum (take 8 encryptedPayload))
  else Some (mkResponse (take (n - 16) encryptedPayload) tag (take 5 record) responseSeqNum []).

(** [sort.Slice] by sequence number. *)
Fixpoint insert_by {A} (key : A -> Z) (x : A) (l : list A) : list A :=
  match l with
  | [] => [x]
  | y :: l' => if key x <? key y then x :: l else y :: insert_by key x l'
  end.

Definition sort_by {A} (key : A -> Z) (l : list A) : list A := foldl (fun acc x => insert_by key x acc) [] l.

(** ** TEE_T: the batch of the client *)

Record TeetResponses := mkTeetResponses {
  tp_CipherSuite : Z;
  tp_ResponseBatchReceived : bool;
  tp_Pending : gmap Z EncryptedResponseData;
  tp_Transcript : list bytes;
  tp_Ciphertext : bytes;
}.

(** The record as it came from the server. *)
Definition transcript_record (cipherSuite : Z) (r : EncryptedResponseData) : bytes :=
  let payload := (if IsTLS12AESGCMCipherSuite cipherSuite && (length (ed_ExplicitIV r) =? 8)%nat then ed_ExplicitIV r else [])
                 ++ ed_EncryptedData r ++ ed_Tag r in
  let recordLength := Z.min (Z.of_nat (length payload)) 0xFFFF in
  [match ed_RecordHeader r with t :: _ => t | [] => 0x17 end; 0x03; 0x03; u8 (Z.shiftr recordLength 8); u8 (Z.land recordLength 0xFF)]
  ++ pad_to (Z.to_nat recordLength) payload.

Record ResponseLength := mkLength {
  rl_Length : nat;
  rl_RecordHeader : bytes;
  rl_SeqNum : Z;
  rl_ExplicitIV : bytes;
}.

Definition response_length (r : EncryptedResponseData) : ResponseLength :=
  mkLength (length (ed_EncryptedData r)) (ed_RecordHeader r) (ed_SeqNum r) (ed_ExplicitIV r).

Definition handleBatchedEncryptedResponses (t : TeetResponses) (responses : list EncryptedResponseData) : res (TeetResponses * list ResponseLength) :=
  fail_if (tp_ResponseBatchReceived t) "multiple encrypted response batches received for session";;
  let sortedResponses := sort_by ed_SeqNum responses in
  Ok (mkTeetResponses (tp_CipherSuite t) true
        (foldl (fun pending r => <[ed_SeqNum r := r]> pending) (tp_Pending t) sortedResponses)
        (tp_Transcript t ++ map (transcript_record (tp_CipherSuite t)) sortedResponses)
        (tp_Ciphertext t),
      map response_length sortedResponses).

(** ** TEE_K: the tag secrets *)

Record TeekResponses := mkTeekResponses {
  kp_CipherSuite : Z;
  kp_ServerKeys : option (bytes * bytes);
  kp_AppRecordsViaTCPData : Z;
  kp_HandshakeAppRecordsConsumed : Z;
  kp_responseTagSeq : option Z;
  kp_ResponseLengthBySeq : gmap Z nat;
  kp_NonceBySeq : gmap Z bytes;
  kp_CachedDecryptionStreams : gmap Z bytes;
}.

(** [atomic.Uint64]: initialised once, then counted up. *)
Definition NextResponseTagSeq (k : TeekResponses) : Z * Z :=
  let seq := match kp_responseTagSeq k with
             | Some seq => seq
             | None => if kp_HandshakeAppRecordsConsumed k <? kp_AppRecordsViaTCPData k
                       then kp_AppRecordsViaTCPData k - kp_HandshakeAppRecordsConsumed k else 0
             end in
  (seq, add64 seq 1).

Section Response.
Context {BC : BlockCipher} {CP : ChaChaPoly}.

(** The tag secrets of a record and the nonce they belong to. *)
Definition generateResponseTagSecrets (cipherSuite : Z) (keys : option (bytes * bytes)) (responseLength : nat) (seqNum : Z)
    (recordHeader explicitIV : bytes) : res (bytes * bytes) :=
  match keys with
  | None => Err "no TLS client available"
  | Some (serverAppKey, serverAppIV) =>
      let additionalData := CreateAdditionalData cipherSuite seqNum responseLength in
      let additionalData := match recordHeader with
                            | t :: _ => if negb (IsTLS13CipherSuite cipherSuite) then <[8%nat := t]> additionalData else additionalData
                            | [] => additionalData
                            end in
      let splitAEAD := SetSequence (NewSplitAEAD serverAppKey serverAppIV cipherSuite) seqNum in
      let dummyEncrypted := zeros responseLength in
      if negb (IsTLS13CipherSuite cipherSuite) then
        if (0 <? length explicitIV)%nat && IsTLS12AESGCMCipherSuite cipherSuite then
          fail_if (negb (length explicitIV =? 8)%nat) "TLS 1.2 explicit IV must be 8 bytes";;
          if (length serverAppIV <? 4)%nat then Panic else
          let nonce := take 4 serverAppIV ++ be_put 8 (be_get explicitIV) in
          match aes_NewCipher serverAppKey with
          | Ok block => Ok (aes_encrypt block (zeros 16) ++ aes_encrypt block (<[15%nat := 1]> (pad_to 16 nonce)), nonce)
          | Err _ => Err "failed to create AES cipher"
          | Panic => Panic
          end
        else if IsTLS12ChaCha20Poly1305CipherSuite cipherSuite then
          nonce ← xor_seq 8 0 serverAppIV seqNum;
          out ← match EncryptWithoutTag splitAEAD dummyEncrypted [] with Err _ => Err "failed to generate tag secrets" | r => r end;
          Ok (out.1.2, nonce)
        else Err "unsupported TLS 1.2 cipher suite"
      else
        out ← match EncryptWithoutTag splitAEAD dummyEncrypted additionalData with Err _ => Err "failed to generate tag secrets" | r => r end;
        nonce ← xor_seq 8 0 serverAppIV seqNum;
        Ok (out.1.2, nonce)
  end.

(** The loop of [handleBatchedResponseLengths]. *)
Fixpoint lengths_loop (k : TeekResponses) (lengths : list ResponseLength) : res (TeekResponses * list (Z * bytes)) :=
  match lengths with
  | [] => Ok (k, [])
  | l :: lengths =>
      let useTEEKSeq := IsTLS13CipherSuite (kp_CipherSuite k) in
      let '(seq, next) := NextResponseTagSeq k in
      let nonceSeq := if useTEEKSeq then seq else rl_SeqNum l in
      '(secrets, nonce) ← generateResponseTagSecrets (kp_CipherSuite k) (kp_ServerKeys k) (rl_Length l) nonceSeq (rl_RecordHeader l) (rl_ExplicitIV l);
      let k := mkTeekResponses (kp_CipherSuite k) (kp_ServerKeys k) (kp_AppRecordsViaTCPData k) (kp_HandshakeAppRecordsConsumed k)
                 (if useTEEKSeq then Some next else kp_responseTagSeq k)
                 (<[rl_SeqNum l := rl_Length l]> (kp_ResponseLengthBySeq k)) (<[rl_SeqNum l := nonce]> (kp_NonceBySeq k))
                 (kp_CachedDecryptionStreams k) in
      '(k, rest) ← lengths_loop k lengths;
      Ok (k, (rl_SeqNum l, secrets) :: rest)
  end.

Definition handleBatchedResponseLengths (k : TeekResponses) (lengths : list ResponseLength) : res (TeekResponses * list (Z * bytes)) :=
  lengths_loop k lengths.

(** ** TEE_T: the tags *)

(** The additional data TEE_T rebuilds for a record. *)
Definition response_aad (cipherSuite : Z) (r : EncryptedResponseData) : bytes :=
  let recordType := match ed_RecordHeader r with t :: _ => t | [] => 0x17 end in
  if IsTLS13CipherSuite cipherSuite then
    let ciphertextLength := Z.of_nat (length (ed_EncryptedData r)) + 16 in
    [recordType; 0x03; 0x03; u8 (Z.shiftr ciphertextLength 8); u8 (Z.land ciphertextLength 0xFF)]
  else
    let additionalData := CreateAdditionalDataTLS12 (ed_SeqNum r) (length (ed_EncryptedData r)) in
    match ed_RecordHeader r with t :: _ => <[8%nat := t]> additionalData | [] => additionalData end.

(** What [AppendResponseCiphertext] is given: the last byte of a TLS 1.3 record is not content. *)
Definition strip_type (cipherSuite : Z) (s : bytes) : bytes := if IsTLS13CipherSuite cipherSuite then take (length s - 1) s else s.

(** The ciphertext to append, when the tag is right. *)
Definition verifyTagForResponse (t : TeetResponses) (r : EncryptedResponseData) (tagSecrets : bytes) : option bytes :=
  if tp_CipherSuite t =? 0 then None else
  match ComputeTagFromSecrets (ed_EncryptedData r) tagSecrets (tp_CipherSuite t) (response_aad (tp_CipherSuite t) r) with
  | Ok computedTag =>
      if ct_equal computedTag (ed_Tag r) then
        if IsTLS13CipherSuite (tp_CipherSuite t) && (length (ed_EncryptedData r) <? 1)%nat then None
        else Some (strip_type (tp_CipherSuite t) (ed_EncryptedData r))
      else None
  | _ => None
  end.

Fixpoint verify_loop (t : TeetResponses) (secrets : list (Z * bytes)) : res TeetResponses :=
  match secrets with
  | [] => Ok t
  | (seqNum, tagSecrets) :: secrets =>
      match tp_Pending t !! seqNum with
      | None => Err "critical security failure: missing encrypted response"
      | Some r =>
          match verifyTagForResponse t r tagSecrets with
          | None => Err "tag verification failed for batch"
          | Some ciphertext =>
              verify_loop (mkTeetResponses (tp_CipherSuite t) (tp_ResponseBatchReceived t) (tp_Pending t) (tp_Transcript t)
                             (tp_Ciphertext t ++ ciphertext)) secrets
          end
      end
  end.

(** Success is what TEE_T reports to TEE_K; a failure ends the session. *)
Definition handleBatchedTagSecrets (t : TeetResponses) (tagSecrets : list (Z * bytes)) : res TeetResponses :=
  verify_loop t (sort_by fst tagSecrets).

(** ** TEE_K: the key streams *)

Definition generateSingleDecryptionStream (k : TeekResponses) (responseLength : nat) (seqNum : Z) : res (bytes * TeekResponses) :=
  match kp_CachedDecryptionStreams k !! seqNum with
  | Some stream => Ok (stream, k)
  | None =>
      match kp_NonceBySeq k !! seqNum with
      | None => Err "no nonce found for sequence - tag secrets must be generated first"
      | Some nonce =>
          match kp_ServerKeys k with
          | None => Err "no TLS client available"
          | Some (serverAppKey, _) =>
              let failed (r : res bytes) := match r with Err _ => Err "failed to generate decryption stream" | r => r end in
              stream ← (if is_suite aes_gcm_suites (kp_CipherSuite k) then failed (GenerateAESKeystream serverAppKey nonce responseLength)
                        else if is_suite chacha_suites (kp_CipherSuite k) then failed (GenerateChaCha20Keystream serverAppKey nonce responseLength)
                        else Err "unsupported cipher suite");
              Ok (stream, mkTeekResponses (kp_CipherSuite k) (kp_ServerKeys k) (kp_AppRecordsViaTCPData k) (kp_HandshakeAppRecordsConsumed k)
                            (kp_responseTagSeq k) (kp_ResponseLengthBySeq k) (kp_NonceBySeq k)
                            (<[seqNum := stream]> (kp_CachedDecryptionStreams k)))
          end
      end
  end.

(** One stream after the other, in the order of the list. *)
Fixpoint streams_loop (k : TeekResponses) (seqs : list (Z * nat)) : res (TeekResponses * list (Z * bytes)) :=
  match seqs with
  | [] => Ok (k, [])
  | (seqNum, len) :: seqs =>
      '(stream, k) ← generateSingleDecryptionStream k len seqNum;
      '(k, rest) ← streams_loop k seqs;
      Ok (k, (seqNum, stream) :: rest)
  end.

(** The streams go to the client as the map is ranged over. *)
Definition handleBatchedTagVerifications (k : TeekResponses) (allSuccessful : bool) : res (TeekResponses * list (Z * bytes)) :=
  if allSuccessful then streams_loop k (map_to_list (kp_ResponseLengthBySeq k)) else Err "tag verification failed".

(** ** TEE_K: the redacted key stream *)

Record ResponseRedactionRange := mkResponseRange { sr_Start : Z; sr_Length : Z }.

Definition MaxResponseRedactionRanges : nat := 1000.

Definition rangesOverlapResponse (r1 r2 : ResponseRedactionRange) : bool :=
  (sr_Start r1 <? sr_Start r2 + sr_Length r2) && (sr_Start r2 <? sr_Start r1 + sr_Length r1).

Fixpoint validate_ranges (ranges : list ResponseRedactionRange) : res unit :=
  match ranges with
  | [] => Ok ()
  | r :: ranges =>
      fail_if (existsb (rangesOverlapResponse r) ranges) "ranges overlap";;
      fail_if ((sr_Start r <? 0) || (sr_Length r <=? 0)) "invalid bounds";;
      validate_ranges ranges
  end.

Definition validateResponseRedactionSpec (ranges : list ResponseRedactionRange) : res unit :=
  fail_if ((MaxResponseRedactionRanges <? length ranges)%nat) "too many response redaction ranges";;
  validate_ranges ranges.

Record RedactionOperation := mkOperation { op_SeqNum : Z; op_Start : Z; op_Bytes : bytes }.

(** The length of the content of a record. *)
Definition content_length (cipherSuite : Z) (len : nat) : Z :=
  if IsTLS13CipherSuite cipherSuite then Z.of_nat len - 1 else Z.of_nat len.

(** The operations of one range over the records from [seqOffset] on; [random] is what [rand.Read] fills the bytes of
    a range in a record with. *)
Fixpoint range_operations (cipherSuite : Z) (random : ResponseRedactionRange -> Z -> option bytes) (r : ResponseRedactionRange) (seqOffset : Z)
    (seqs : list (Z * nat)) : res (list RedactionOperation) :=
  match seqs with
  | [] => Ok []
  | (seqNum, len) :: seqs =>
      let rangeEnd := sr_Start r + sr_Length r in
      let seqEnd := seqOffset + content_length cipherSuite len in
      let overlapStart := Z.max (sr_Start r) seqOffset - seqOffset in
      let overlapLength := Z.min rangeEnd seqEnd - seqOffset - overlapStart in
      operation ← (if (sr_Start r <? seqEnd) && (seqOffset <? rangeEnd) && (0 <? overlapLength) then
                     match random r seqNum with
                     | None => Err "failed to generate random redaction bytes"
                     | Some b => Ok [mkOperation seqNum overlapStart (pad_to (Z.to_nat overlapLength) b)]
                     end
                   else Ok []);
      rest ← range_operations cipherSuite random r seqEnd seqs;
      Ok (operation ++ rest)
  end.

Fixpoint all_operations (cipherSuite : Z) (random : ResponseRedactionRange -> Z -> option bytes) (ranges : list ResponseRedactionRange)
    (seqs : list (Z * nat)) : res (list RedactionOperation) :=
  match ranges with
  | [] => Ok []
  | r :: ranges =>
      operations ← range_operations cipherSuite random r 0 seqs;
      rest ← all_operations cipherSuite random ranges seqs;
      Ok (operations ++ rest)
  end.

(** [redactedStream[operation.Start+i] = operation.Bytes[i]] while in range. *)
Fixpoint write_loop (b : bytes) (start : nat) (stream : bytes) : bytes :=
  match b with
  | [] => stream
  | x :: b => if (start <? length stream)%nat then write_loop b (S start) (<[start := x]> stream) else stream
  end.

Definition apply_operations (operations : list RedactionOperation) (seqNum : Z) (stream : bytes) : bytes :=
  foldl (fun stream o => if op_SeqNum o =? seqNum then write_loop (op_Bytes o) (Z.to_nat (op_Start o)) stream else stream) stream operations.

(** The redacted and the original stream of every record, without the content type. *)
Fixpoint redact_streams_loop (k : TeekResponses) (operations : list RedactionOperation) (seqs : list (Z * nat)) : res (TeekResponses * bytes * bytes) :=
  match seqs with
  | [] => Ok (k, [], [])
  | (seqNum, len) :: seqs =>
      '(originalStream, k) ← generateSingleDecryptionStream k len seqNum;
      fail_if (IsTLS13CipherSuite (kp_CipherSuite k) && (len <? 1)%nat) "invalid TLS 1.3 response length";;
      '(k, redacted, original) ← redact_streams_loop k operations seqs;
      Ok (k, strip_type (kp_CipherSuite k) (apply_operations operations seqNum originalStream) ++ redacted,
          strip_type (kp_CipherSuite k) originalStream ++ original)
  end.

(** [ConsolidatedResponseKeystream], which is signed, and the key stream kept for the OPRF. *)
Definition generateAndSendRedactedDecryptionStream (k : TeekResponses) (ranges : list ResponseRedactionRange)
    (random : ResponseRedactionRange -> Z -> option bytes) : res (TeekResponses * bytes * bytes) :=
  let seqs := sort_by fst (map_to_list (kp_ResponseLengthBySeq k)) in
  operations ← all_operations (kp_CipherSuite k) random ranges seqs;
  redact_streams_loop k operations seqs.
End Response.

(** ** Sorting *)

Section Sort.
Context {A : Type} (key : A -> Z).

Lemma insert_by_perm x l : insert_by key x l ≡ₚ x :: l.
Proof. induction l as [|y l IH]; [done|]. cbn [insert_by]. destruct (_ <? _); [done|]. by rewrite IH, Permutation_swap. Qed.

Lemma insert_by_sorted x l : StronglySorted (fun a b => key a <= key b) l -> StronglySorted (fun a b => key a <= key b) (insert_by key x l).
Proof.
  induction 1 as [|y l S IH F]; cbn [insert_by]; [by repeat constructor|]. destruct (Z.ltb_spec (key x) (key y)).
  - constructor; [by constructor|]. constructor; [lia|]. eapply Forall_impl; [exact F|]. cbn. intros. lia.
  - constructor; [done|]. rewrite insert_by_perm. constructor; [lia|done].
Qed.

Lemma sort_by_spec l : sort_by key l ≡ₚ l /\ StronglySorted (fun a b => key a <= key b) (sort_by key l).
Proof.
  unfold sort_by. assert (G : forall l acc, StronglySorted (fun a b => key a <= key b) acc ->
    foldl (fun acc x => insert_by key x acc) acc l ≡ₚ acc ++ l /\ StronglySorted (fun a b => key a <= key b) (foldl (fun acc x => insert_by key x acc) acc l)).
  { clear l. induction l as [|x l IH]; intros acc S; cbn [foldl]; [by rewrite app_nil_r|].
    destruct (IH (insert_by key x acc) (insert_by_sorted x acc S)) as [P S']. split; [|done]. rewrite P, insert_by_perm. apply Permutation_middle. }
  apply (G l []). constructor.
Qed.

Lemma insert_by_last x l : Forall (fun y => key y <= key x) l -> insert_by key x l = l ++ [x].
Proof. induction 1 as [|y l H F IH]; [done|]. cbn [insert_by]. rewrite (proj2 (Z.ltb_ge _ _)) by lia. by rewrite IH. Qed.

Lemma sort_by_sorted l : StronglySorted (fun a b => key a <= key b) l -> sort_by key l = l.
Proof.
  unfold sort_by. assert (G : forall l acc, StronglySorted (fun a b => key a <= key b) (acc ++ l) -> foldl (fun acc x => insert_by key x acc) acc l = acc ++ l).
  { clear l. induction l as [|x l IH]; intros acc S; cbn [foldl]; [by rewrite app_nil_r|].
    rewrite insert_by_last.
    - rewrite IH; [by rewrite <- app_assoc|by rewrite <- app_assoc].
    - revert S. clear. induction acc as [|y acc IH]; intros S; inversion_clear S as [|? ? S' F]; constructor; [|by apply IH].
      rewrite Forall_forall in F. apply F. rewrite elem_of_app. right. apply list_elem_of_here. }
  apply (G l []).
Qed.
End Sort.

Lemma sorted_map {A B} (key : A -> Z) (key' : B -> Z) (f : A -> B) l : (forall a, key' (f a) = key a) ->
  StronglySorted (fun a b => key a <= key b) l -> StronglySorted (fun a b => key' a <= key' b) (map f l).
Proof. intros E. induction 1 as [|x l S IH F]; cbn [map]; constructor; [done|]. apply Forall_map. eapply Forall_impl; [exact F|]. cbn. intros y. by rewrite !E. Qed.

(** ** Redaction *)

(** Position [p] of the response lies in a range. *)
Definition hidden_at (ranges : list ResponseRedactionRange) (p : Z) : bool :=
  existsb (fun r => (sr_Start r <=? p) && (p <? sr_Start r + sr_Length r)) ranges.

(** The byte the operations put at position [q] of a record. *)
Definition covers (o : RedactionOperation) (seqNum : Z) (q : nat) : bool :=
  (op_SeqNum o =? seqNum) && (Z.to_nat (op_Start o) <=? q)%nat && (q <? Z.to_nat (op_Start o) + length (op_Bytes o))%nat.

Definition op_at (operations : list RedactionOperation) (seqNum : Z) (q : nat) : option Z :=
  foldl (fun acc o => if covers o seqNum q then op_Bytes o !! (q - Z.to_nat (op_Start o))%nat else acc) None operations.

Lemma length_write_loop b : forall start stream, length (write_loop b start stream) = length stream.
Proof. induction b as [|x b IH]; intros start stream; [done|]. cbn [write_loop]. destruct (_ <? _)%nat; [|done]. by rewrite IH, length_insert. Qed.

Lemma write_loop_lookup b : forall start stream q, (q < length stream)%nat ->
  write_loop b start stream !! q = if ((start <=? q) && (q <? start + length b))%nat then b !! (q - start)%nat else stream !! q.
Proof.
  induction b as [|x b IH]; intros start stream q Hq; cbn [write_loop length].
  { rewrite Nat.add_0_r. destruct (Nat.leb_spec start q), (Nat.ltb_spec q start); (done || lia). }
  destruct (Nat.ltb_spec start (length stream)); cycle 1.
  { destruct (Nat.leb_spec start q); [lia|done]. }
  rewrite IH by (by rewrite length_insert).
  destruct (Nat.leb_spec (S start) q), (Nat.leb_spec start q), (Nat.ltb_spec q (S start + length b)), (Nat.ltb_spec q (start + S (length b)));
    cbn [andb]; try lia; try done.
  - replace (q - start)%nat with (S (q - S start)) by lia. done.
  - rewrite list_lookup_insert_ne by lia. done.
  - assert (q = start) as -> by lia. rewrite Nat.sub_diag. by rewrite list_lookup_insert_eq.
  - by rewrite list_lookup_insert_ne by lia.
Qed.

Lemma apply_operations_spec operations seqNum stream : length (apply_operations operations seqNum stream) = length stream
  /\ forall q, (q < length stream)%nat -> apply_operations operations seqNum stream !! q =
       match op_at operations seqNum q with Some b => Some b | None => stream !! q end.
Proof.
  unfold apply_operations, op_at. induction operations as [|o os IH] using rev_ind; [done|]. rewrite !foldl_app. cbn [foldl]. set (f := foldl _ stream os) in *.
  destruct IH as [L IH]. destruct (op_SeqNum o =? seqNum) eqn:E.
  - rewrite length_write_loop. split; [done|]. intros q Hq. rewrite write_loop_lookup by lia. rewrite foldl_app. cbn [foldl]. unfold covers. rewrite E. cbn [andb].
    destruct ((_ <=? _) && _)%nat eqn:B; [|by apply IH]. apply andb_true_iff in B as [B1%Nat.leb_le B2%Nat.ltb_lt].
    destruct (lookup_lt_is_Some_2 (op_Bytes o) (q - Z.to_nat (op_Start o)) ltac:(lia)) as [x ->]. done.
  - split; [done|]. intros q Hq. rewrite foldl_app. cbn [foldl]. unfold covers. rewrite E. cbn [andb]. by apply IH.
Qed.

Lemma op_at_app o1 o2 seqNum q : op_at (o1 ++ o2) seqNum q = match op_at o2 seqNum q with Some b => Some b | None => op_at o1 seqNum q end.
Proof.
  unfold op_at. rewrite foldl_app. generalize (foldl (fun acc o => if covers o seqNum q then op_Bytes o !! (q - Z.to_nat (op_Start o))%nat else acc) None o1).
  induction o2 as [|o os IH] using rev_ind; intros acc; [done|]. rewrite !foldl_app. cbn [foldl]. destruct (covers o seqNum q) eqn:E; [|apply IH].
  unfold covers in E. apply andb_true_iff in E as [[_ B1%Nat.leb_le]%andb_true_iff B2%Nat.ltb_lt].
  destruct (lookup_lt_is_Some_2 (op_Bytes o) (q - Z.to_nat (op_Start o)) ltac:(lia)) as [x ->]. done.
Qed.

(** The byte at position [p] of the consolidated response. *)
Fixpoint veil_at (suite : Z) (operations : list RedactionOperation) (seqs : list (Z * nat)) (p : nat) : option Z :=
  match seqs with
  | [] => None
  | (seqNum, len) :: seqs =>
      let n := Z.to_nat (content_length suite len) in
      if (p <? n)%nat then op_at operations seqNum p else veil_at suite operations seqs (p - n)
  end.

Definition total_length (suite : Z) (seqs : list (Z * nat)) : nat := sum_list (map (fun s => Z.to_nat (content_length suite s.2)) seqs).

(** A record that TEE_T appended has content. *)
Definition lengths_ok (suite : Z) (seqs : list (Z * nat)) : Prop := Forall (fun s => 0 <= content_length suite s.2) seqs.

Lemma range_operations_seqs suite random r seqs : forall off operations, range_operations suite random r off seqs = Ok operations ->
  Forall (fun o => op_SeqNum o ∈ seqs.*1) operations.
Proof.
  induction seqs as [|[s len] seqs IH]; intros off ops E; cbn [range_operations] in E; [injection E as <-; constructor|].
  inv_bind E. inv_bind E. injection E as <-. apply Forall_app. split.
  - destruct (_ && _); [|by injection E0 as <-; constructor]. destruct (random r s); [|done]. injection E0 as <-. constructor; [|constructor]. apply list_elem_of_here.
  - eapply Forall_impl; [by eapply IH|]. cbn. intros o Ho. by apply list_elem_of_further.
Qed.

Lemma op_at_other operations seqNum q : Forall (fun o => op_SeqNum o <> seqNum) operations -> op_at operations seqNum q = None.
Proof.
  unfold op_at. intros F. induction operations as [|o os IH] using rev_ind; [done|]. apply Forall_app in F as [F1 F2]. inversion_clear F2 as [|? ? Ho _].
  rewrite foldl_app. cbn [foldl]. unfold covers. rewrite (proj2 (Z.eqb_neq _ _) Ho). cbn [andb]. by apply IH.
Qed.

(** One range hides its own positions and no other. *)
Lemma range_veil suite random r seqs : forall off operations, NoDup seqs.*1 -> lengths_ok suite seqs ->
  range_operations suite random r off seqs = Ok operations ->
  forall p, (p < total_length suite seqs)%nat ->
  is_Some (veil_at suite operations seqs p) <-> sr_Start r <= off + Z.of_nat p < sr_Start r + sr_Length r.
Proof.
  induction seqs as [|[s len] seqs IH]; intros off ops N Hl E p Hp; [cbn in Hp; lia|].
  inversion_clear N as [|? ? Hs N']. inversion_clear Hl as [|? ? H0 Hl']. cbn [range_operations] in E. inv_bind E. inv_bind E. injection E as <-.
  cbn [veil_at snd] in *. set (n := content_length suite len) in *.
  assert (T : total_length suite ((s, len) :: seqs) = (Z.to_nat n + total_length suite seqs)%nat) by done. rewrite T in Hp.
  assert (O0 : op_at a0 s p = None).
  { apply op_at_other. eapply Forall_impl; [by eapply range_operations_seqs|]. cbn. intros o Ho Eo. apply Hs. rewrite <- Eo. exact Ho. }
  destruct (Nat.ltb_spec p (Z.to_nat n)) as [Hlt|Hge].
  - rewrite op_at_app, O0. destruct (_ && _) eqn:C.
    + destruct (random r s) as [b|]; [|done]. injection E0 as <-. unfold op_at. cbn [foldl]. unfold covers. cbn [op_SeqNum op_Start op_Bytes]. rewrite Z.eqb_refl.
      apply andb_true_iff in C as [[C1%Z.ltb_lt C2%Z.ltb_lt]%andb_true_iff C3%Z.ltb_lt].
      assert (Lp : forall n b, length (pad_to n b) = n). { intros. unfold pad_to, zeros. rewrite length_app, length_take, length_replicate. lia. }
      rewrite Lp. cbn [andb]. set (st := Z.max (sr_Start r) off - off) in *. set (ln := Z.min _ _ - off - st) in *.
      destruct (Nat.leb_spec (Z.to_nat st) p), (Nat.ltb_spec p (Z.to_nat st + Z.to_nat ln)); cbn [andb].
      * destruct (lookup_lt_is_Some_2 (pad_to (Z.to_nat ln) b) (p - Z.to_nat st) ltac:(rewrite Lp; lia)) as [x ->]. split; [lia|by eexists].
      * split; [by intros []|lia].
      * split; [by intros []|lia].
      * split; [by intros []|lia].
    + injection E0 as <-. change (op_at [] s p) with (@None Z). split; [by intros []|]. intros HR. exfalso.
      rewrite !andb_false_iff, !Z.ltb_ge in C. lia.
  - assert (V : forall l q, Forall (fun o => op_SeqNum o ∉ l.*1) a -> veil_at suite (a ++ a0) l q = veil_at suite a0 l q).
    { intros l. induction l as [|[s' len'] l IHl]; intros q F; [done|]. cbn [veil_at]. rewrite op_at_app.
      rewrite (op_at_other a s'). 2: { eapply Forall_impl; [exact F|]. cbn. intros o Ho Eo. apply Ho. rewrite Eo. apply list_elem_of_here. }
      rewrite IHl. 2: { eapply Forall_impl; [exact F|]. cbn. intros o Ho Hin. apply Ho. by apply list_elem_of_further. }
      by destruct (op_at a0 s' q). }
    rewrite V.
    + rewrite (IH _ _ N' Hl' E1 (p - Z.to_nat n)%nat ltac:(lia)). lia.
    + destruct (_ && _); [|by injection E0 as <-; constructor]. destruct (random r s); [|done]. injection E0 as <-. constructor; [done|constructor].
Qed.

Lemma veil_app suite o1 o2 seqs p : veil_at suite (o1 ++ o2) seqs p = match veil_at suite o2 seqs p with Some b => Some b | None => veil_at suite o1 seqs p end.
Proof.
  revert p. induction seqs as [|[s len] seqs IH]; intros p; [done|]. cbn [veil_at]. destruct (_ <? _)%nat; [apply op_at_app|apply IH].
Qed.

Lemma veil_exact suite random seqs ranges : forall operations, NoDup seqs.*1 -> lengths_ok suite seqs ->
  all_operations suite random ranges seqs = Ok operations ->
  forall p, (p < total_length suite seqs)%nat -> is_Some (veil_at suite operations seqs p) <-> hidden_at ranges (Z.of_nat p) = true.
Proof.
  induction ranges as [|r ranges IH]; intros ops N Hl E p Hp; cbn [all_operations] in E.
  { injection E as <-. cbn. split; [|done]. clear. revert p. induction seqs as [|[s len] seqs IH]; intros p; cbn [veil_at]; [by intros []|].
    destruct (_ <? _)%nat; [by intros []|apply IH]. }
  inv_bind E. inv_bind E. injection E as <-. rewrite veil_app. cbn [hidden_at existsb]. fold (hidden_at ranges (Z.of_nat p)).
  pose proof (range_veil suite random r seqs 0 a N Hl E0 p Hp) as R1. pose proof (IH a0 N Hl E1 p Hp) as R2. rewrite Z.add_0_l in R1.
  rewrite orb_true_iff, andb_true_iff, Z.leb_le, Z.ltb_lt, <- R1, <- R2. destruct (veil_at suite a0 seqs p); [|by split; [left|intros [?|[? ?]]]].
  split; [by right; eexists|by eexists].
Qed.

(** ** The records of a server *)

Lemma tls12_gcm_spec s : IsTLS12AESGCMCipherSuite s = is_suite tls12_gcm_suites s.
Proof.
  destruct (GetCipherSuiteInfo s) eqn:E.
  - apply eqb_true_iff. apply (suite_cases (fun s => Bool.eqb (IsTLS12AESGCMCipherSuite s) (is_suite tls12_gcm_suites s))); [vm_compute; reflexivity|by eexists].
  - unfold IsTLS12AESGCMCipherSuite, IsTLS12CipherSuite. rewrite E. symmetry. apply not_true_is_false. intros H. apply is_suite_spec in H.
    repeat (apply elem_of_cons in H as [-> | H]; [discriminate E|]). by apply elem_of_nil in H.
Qed.

(** An AEAD suite of TLS 1.2 is of one of the two families, and not of TLS 1.3. *)
Lemma aead_suite_cases s : aead_suite s ->
  (IsTLS13CipherSuite s = true /\ is_suite tls12_gcm_suites s = false) \/
  (IsTLS13CipherSuite s = false /\ IsTLS12AESGCMCipherSuite s = true /\ is_suite aes_gcm_suites s = true /\ is_suite tls12_gcm_suites s = true) \/
  (IsTLS13CipherSuite s = false /\ IsTLS12AESGCMCipherSuite s = false /\ IsTLS12ChaCha20Poly1305CipherSuite s = true /\ is_suite tls12_gcm_suites s = false).
Proof.
  unfold aead_suite. intros H. apply orb_true_iff in H.
  assert (s ∈ aes_gcm_suites \/ s ∈ chacha_suites) as [H0|H0] by (rewrite <- !is_suite_spec; done);
    repeat (apply elem_of_cons in H0 as [-> | H0]; [vm_compute; tauto|]); by apply elem_of_nil in H0.
Qed.

Section Sealed.
Context {BC : BlockCipher} {CP : ChaChaPoly}.
Context (suite : Z) (key iv : bytes) (K : keys_ok key iv suite).

(** RFC 5288 leaves the explicit part of the nonce to the server. *)
Definition response_nonce (seqNum : Z) (explicitIV : bytes) : bytes :=
  if IsTLS12AESGCMCipherSuite suite then iv ++ explicitIV else record_nonce suite iv seqNum.

(** The content type a record is sent under. *)
Definition record_type (r : EncryptedResponseData) : Z := match ed_RecordHeader r with t :: _ => t | [] => 0x17 end.

(** The record is what the server makes of plaintext [Q] at position [seqNum]. *)
Definition server_sealed (seqNum : Z) (r : EncryptedResponseData) (Q : bytes) : Prop :=
  is_bytes Q /\ (IsTLS13CipherSuite suite = true -> Q <> []) /\
  (ed_EncryptedData r, ed_Tag r) = aead_seal suite key (response_nonce seqNum (ed_ExplicitIV r)) Q
    (record_aad suite seqNum (record_type r) (length Q)).

#[local] Instance server_sealed_dec seqNum r Q : Decision (server_sealed seqNum r Q).
Proof. unfold server_sealed. apply _. Defined.

(** A record as the transport delivers it. *)
Record response_ok (r : EncryptedResponseData) : Prop := {
  wo_data : is_bytes (ed_EncryptedData r);
  wo_length : Z.of_nat (length (ed_EncryptedData r)) <= 2 ^ 20;
  wo_header : is_bytes (ed_RecordHeader r);
  wo_iv : is_bytes (ed_ExplicitIV r) /\ (IsTLS12AESGCMCipherSuite suite = true -> length (ed_ExplicitIV r) = 8%nat);
  wo_seq : 0 <= ed_SeqNum r < MaxUint64;
}.

Lemma response_nonce_spec seqNum explicitIV : is_bytes explicitIV -> (IsTLS12AESGCMCipherSuite suite = true -> length explicitIV = 8%nat) ->
  length (response_nonce seqNum explicitIV) = 12%nat /\ is_bytes (response_nonce seqNum explicitIV).
Proof.
  intros B L. destruct K as [Hs Hk Hiv Biv]. unfold response_nonce. pose proof (tls12_gcm_spec suite) as E.
  destruct (IsTLS12AESGCMCipherSuite suite); [|by apply record_nonce_spec].
  unfold iv_ok in Hiv. rewrite <- E in Hiv. rewrite length_app, Hiv, L by done. split; [done|]. by apply Forall_app.
Qed.

Lemma response_aad_spec r : response_ok r -> is_bytes (response_aad suite r) /\ (length (response_aad suite r) <= 13)%nat.
Proof.
  intros [_ _ Hh _ _]. assert (U : forall z, is_byte (u8 z)) by (intros z; unfold u8, is_byte; apply Z.mod_pos_bound; lia).
  assert (T : is_byte (match ed_RecordHeader r with t :: _ => t | [] => 0x17 end)).
  { destruct Hh as [|t ? Ht _]; [unfold is_byte; lia|done]. }
  unfold response_aad. destruct (IsTLS13CipherSuite suite).
  - split; [|cbn; lia]. constructor; [exact T|]. repeat (constructor; [by apply U || (unfold is_byte; lia)|]). constructor.
  - assert (B : is_bytes (CreateAdditionalDataTLS12 (ed_SeqNum r) (length (ed_EncryptedData r)))).
    { unfold CreateAdditionalDataTLS12. apply Forall_app; split; [apply be_put_bytes|]. apply Forall_app; split; [|apply be_put_bytes].
      repeat (constructor; [unfold is_byte, RecordTypeApplicationData; lia|]). constructor. }
    assert (L : length (CreateAdditionalDataTLS12 (ed_SeqNum r) (length (ed_EncryptedData r))) = 13%nat).
    { unfold CreateAdditionalDataTLS12. by rewrite !length_app, !length_be_put. }
    destruct (ed_RecordHeader r) as [|t h]; [split; [done|lia]|]. rewrite length_insert. split; [|lia]. by apply Forall_insert.
Qed.

(** TEE_T rebuilds the additional data the server used. *)
Lemma response_aad_rfc r seqNum : (IsTLS13CipherSuite suite = false -> seqNum = ed_SeqNum r) ->
  response_aad suite r = record_aad suite seqNum (record_type r) (length (ed_EncryptedData r)).
Proof.
  intros E. unfold response_aad, record_aad, record_type. destruct (IsTLS13CipherSuite suite); [by rewrite (proj1 (be_put_two _))|].
  rewrite (E eq_refl). unfold CreateAdditionalDataTLS12. rewrite (proj2 (be_put_two _)). destruct (ed_RecordHeader r) as [|t h]; [done|].
  rewrite insert_app_r_alt by (rewrite length_be_put; lia). by rewrite length_be_put.
Qed.

(** What TEE_K answers for a record. *)
Lemma tag_secrets r seqNum : response_ok r -> 0 <= seqNum < MaxUint64 ->
  generateResponseTagSecrets suite (Some (key, iv)) (length (ed_EncryptedData r)) seqNum (ed_RecordHeader r) (ed_ExplicitIV r)
  = Ok (split_secrets suite key (response_nonce seqNum (ed_ExplicitIV r)), response_nonce seqNum (ed_ExplicitIV r)).
Proof.
  intros [_ _ _ [Be Le] _] Hq. destruct K as [Hs Hk Hiv Biv]. unfold generateResponseTagSecrets, response_nonce.
  assert (E : forall A, EncryptWithoutTag (SetSequence (NewSplitAEAD key iv suite) seqNum) (zeros (length (ed_EncryptedData r))) A
    = Ok (xor_bytes (zeros (length (ed_EncryptedData r))) (data_stream suite key (record_nonce suite iv seqNum) (length (zeros (length (ed_EncryptedData r))))),
          split_secrets suite key (record_nonce suite iv seqNum), SetSequence (SetSequence (NewSplitAEAD key iv suite) seqNum) (add64 seqNum 1))).
  { intros A. apply encrypt_without_tag; [done|cbn; lia|done..]. }
  unfold iv_ok in Hiv. destruct (aead_suite_cases suite Hs) as [[H13 H12]|[(H13 & HG & HA & H12)|(H13 & HG & HC & H12)]]; rewrite H13; cbn [negb].
  - rewrite E. cbn [mbind res_bind fst snd]. rewrite tls12_gcm_spec, H12. rewrite H12 in Hiv. rewrite xor_seq_8 by lia. cbn [mbind res_bind].
    unfold record_nonce. by rewrite H12.
  - rewrite HG, Le by done. rewrite H12 in Hiv. cbn [Nat.ltb Nat.leb Nat.eqb andb negb]. rewrite Hiv. cbn [Nat.ltb Nat.leb].
    unfold key_ok in Hk. rewrite HA in Hk. destruct (aes_NewCipher key) as [b| |] eqn:Eb; [|done..]. apply aes_NewCipher_Ok in Eb as ->.
    rewrite be_put_get, take_ge by (done || lia || by apply Le). unfold split_secrets, generateGCMTagSecrets. rewrite HA.
    rewrite (take_ge (iv ++ _)) by (rewrite length_app, Hiv, Le by done; done). done.
  - rewrite HG, HC, andb_false_r. rewrite H12 in Hiv. rewrite xor_seq_8 by lia. cbn [mbind res_bind]. rewrite E. cbn [mbind res_bind fst snd].
    unfold record_nonce. by rewrite H12.
Qed.

(** TEE_T accepts a record under its secrets exactly when the server sealed it. *)
Lemma verify_iff t r seqNum : tp_CipherSuite t = suite -> response_ok r -> (IsTLS13CipherSuite suite = false -> seqNum = ed_SeqNum r) ->
  let nonce := response_nonce seqNum (ed_ExplicitIV r) in
  let Q := xor_bytes (ed_EncryptedData r) (data_stream suite key nonce (length (ed_EncryptedData r))) in
  (forall Q', server_sealed seqNum r Q' -> Q' = Q) /\
  verifyTagForResponse t r (split_secrets suite key nonce)
  = if decide (server_sealed seqNum r Q) then Some (strip_type suite (ed_EncryptedData r)) else None.
Proof.
  intros Ht W At nonce Q. pose proof (response_aad_rfc r seqNum At) as RA. pose proof W as [Bd Ld _ [Be Le] _]. destruct (response_nonce_spec seqNum _ Be Le) as [Ln Bn]. fold nonce in Ln, Bn.
  destruct (response_aad_spec r W) as [Ba La]. destruct K as [Hs Hk Hiv Biv].
  pose proof (length_data_stream suite key nonce (length (ed_EncryptedData r))) as LS.
  pose proof (data_stream_bytes suite key nonce (length (ed_EncryptedData r))) as BS.
  assert (BQ : is_bytes Q) by by apply xor_bytes_bytes. assert (LQ : length Q = length (ed_EncryptedData r)) by (unfold Q; rewrite length_xor_bytes; lia).
  assert (U : forall Q', is_bytes Q' -> (ed_EncryptedData r, ed_Tag r) = aead_seal suite key nonce Q' (record_aad suite seqNum (record_type r) (length Q')) -> Q' = Q).
  { intros Q' B' E'. pose proof (aead_seal_length suite key nonce Q' (record_aad suite seqNum (record_type r) (length Q'))) as LC'. rewrite <- E' in LC'. cbn [fst] in LC'.
    rewrite <- LC', <- RA in E'.
    pose proof (tag_from_secrets suite key nonce Q' (response_aad suite r) Hs Hk Ln Bn B' Ba ltac:(lia) ltac:(lia)) as T.
    rewrite <- E' in T. destruct T as (_ & _ & EC & LC). unfold Q. rewrite LC, EC. symmetry. apply xor_bytes_cancel. by rewrite length_data_stream. }
  split; [by intros Q' (B' & _ & E'); apply U|].
  pose proof (tag_from_secrets suite key nonce Q (response_aad suite r) Hs Hk Ln Bn BQ Ba ltac:(lia) ltac:(lia)) as T.
  unfold verifyTagForResponse. rewrite Ht. assert (suite =? 0 = false) as ->.
  { apply Z.eqb_neq. intros E0. unfold aead_suite in Hs. rewrite E0 in Hs. done. }
  assert (SD : server_sealed seqNum r Q <-> (IsTLS13CipherSuite suite = true -> Q <> []) /\ (ed_EncryptedData r, ed_Tag r) = aead_seal suite key nonce Q (response_aad suite r)).
  { unfold server_sealed. fold nonce. rewrite LQ, <- RA. tauto. }
  destruct (aead_seal suite key nonce Q _) as [C T0]. destruct T as (T1 & _ & EC & LC).
  assert (C = ed_EncryptedData r) as ->.
  { rewrite EC, LQ. unfold Q. apply xor_bytes_cancel. by rewrite LS. }
  rewrite T1. destruct (ct_equal T0 (ed_Tag r)) eqn:Hc.
  - apply ct_equal_spec in Hc as ->. destruct (IsTLS13CipherSuite suite) eqn:H13; cbn [andb].
    + destruct (Nat.ltb_spec (length (ed_EncryptedData r)) 1).
      * rewrite decide_False; [done|]. rewrite SD. intros (N & _). apply N; [done|]. by destruct Q; [|cbn in LQ; lia].
      * rewrite decide_True; [done|]. rewrite SD. split; [|done]. intros _ EQ. rewrite EQ in LQ. cbn in LQ. lia.
    + rewrite decide_True; [done|]. by rewrite SD.
  - rewrite decide_False; [done|]. rewrite SD. intros (_ & E'). injection E' as E'. rewrite (proj2 (ct_equal_spec _ _)) in Hc; done.
Qed.

(** ** A whole response *)

(** The messages of one response, from the client's batch to TEE_T's verdict. *)
Definition response_run (t : TeetResponses) (k : TeekResponses) (responses : list EncryptedResponseData) : res (TeetResponses * TeekResponses) :=
  '(t, lengths) ← handleBatchedEncryptedResponses t responses;
  '(k, secrets) ← handleBatchedResponseLengths k lengths;
  t ← handleBatchedTagSecrets t secrets;
  Ok (t, k).

(** The position each record is checked at: TEE_K counts the records of TLS 1.3, the client numbers those of TLS 1.2. *)
Fixpoint placed (base : Z) (rs : list EncryptedResponseData) : list (Z * EncryptedResponseData) :=
  match rs with
  | [] => []
  | r :: rs => (if IsTLS13CipherSuite suite then base else ed_SeqNum r, r) :: placed (base + 1) rs
  end.

(** What a record decrypts to at its position. *)
Definition opened (pr : Z * EncryptedResponseData) : bytes :=
  xor_bytes (ed_EncryptedData pr.2) (data_stream suite key (response_nonce pr.1 (ed_ExplicitIV pr.2)) (length (ed_EncryptedData pr.2))).

Definition secret_of (pr : Z * EncryptedResponseData) : Z * bytes :=
  (ed_SeqNum pr.2, split_secrets suite key (response_nonce pr.1 (ed_ExplicitIV pr.2))).

(** TEE_K at position [base] with the keys of the server. *)
Record teek_at (k : TeekResponses) (base : Z) : Prop := {
  ka_suite : kp_CipherSuite k = suite;
  ka_keys : kp_ServerKeys k = Some (key, iv);
  ka_base : (NextResponseTagSeq k).1 = base;
}.

Definition record_lengths (prs : list (Z * EncryptedResponseData)) : list (Z * nat) :=
  map (fun pr => (ed_SeqNum pr.2, length (ed_EncryptedData pr.2))) prs.
Definition record_nonces (prs : list (Z * EncryptedResponseData)) : list (Z * bytes) :=
  map (fun pr => (ed_SeqNum pr.2, response_nonce pr.1 (ed_ExplicitIV pr.2))) prs.

Definition insert_all {A} (m : gmap Z A) (l : list (Z * A)) : gmap Z A := foldl (fun m p => <[p.1 := p.2]> m) m l.

Definition placed_right (pr : Z * EncryptedResponseData) : Prop := IsTLS13CipherSuite suite = false -> pr.1 = ed_SeqNum pr.2.

Lemma placed_all_right rs base : Forall placed_right (placed base rs).
Proof.
  revert base. induction rs as [|r rs IH]; intros base; [constructor|]. constructor; [|apply IH]. unfold placed_right. cbn [fst snd]. by destruct (IsTLS13CipherSuite suite).
Qed.

Lemma lengths_loop_spec rs : forall k base, teek_at k base -> Forall response_ok rs -> 0 <= base -> base + Z.of_nat (length rs) < MaxUint64 ->
  exists k', lengths_loop k (map response_length rs) = Ok (k', map secret_of (placed base rs))
    /\ kp_CipherSuite k' = suite /\ kp_ServerKeys k' = Some (key, iv) /\ kp_CachedDecryptionStreams k' = kp_CachedDecryptionStreams k
    /\ kp_ResponseLengthBySeq k' = insert_all (kp_ResponseLengthBySeq k) (record_lengths (placed base rs))
    /\ kp_NonceBySeq k' = insert_all (kp_NonceBySeq k) (record_nonces (placed base rs)).
Proof.
  induction rs as [|r rs IH]; intros k base [Es Ek Eb] W H0 HB; [by exists k|]. inversion_clear W as [|? ? Wr Ws]. cbn [map length] in *.
  cbn [lengths_loop response_length rl_Length rl_RecordHeader rl_SeqNum rl_ExplicitIV]. rewrite Es, Ek.
  destruct (NextResponseTagSeq k) as [seq next] eqn:En. cbn [fst] in Eb. subst seq.
  assert (Enext : next = add64 base 1) by (unfold NextResponseTagSeq in En; by injection En as <- <-).
  assert (add64 base 1 = base + 1) as Ea by (unfold add64; apply u64_id; unfold is_u64, MaxUint64 in *; lia).
  rewrite tag_secrets; [|done|destruct Wr; destruct (IsTLS13CipherSuite suite); lia]. cbn [mbind res_bind].
  set (k1 := mkTeekResponses _ _ _ _ _ _ _ _).
  assert (K1 : teek_at k1 (if IsTLS13CipherSuite suite then base + 1 else base)).
  { split; [done..|]. unfold k1, NextResponseTagSeq. cbn [kp_responseTagSeq kp_AppRecordsViaTCPData kp_HandshakeAppRecordsConsumed fst].
    destruct (IsTLS13CipherSuite suite); [by rewrite Enext|]. unfold NextResponseTagSeq in En. by injection En as <- _. }
  assert (P : IsTLS13CipherSuite suite = false -> placed base rs = placed (base + 1) rs).
  { clear. revert base. induction rs as [|r rs IH]; intros base E; [done|]. cbn [placed]. rewrite E. f_equal. by apply IH. }
  assert (P1 : placed (if IsTLS13CipherSuite suite then base + 1 else base) rs = placed (base + 1) rs) by (destruct (IsTLS13CipherSuite suite); [done|by apply P]).
  destruct (IH k1 _ K1 Ws) as (k' & E & E1 & E2 & E3 & E4 & E5); [destruct (IsTLS13CipherSuite suite); lia..|]. rewrite E, P1 in *. exists k'. cbn [mbind res_bind].
  split_and!; [done..| |]; cbn [placed record_lengths record_nonces map insert_all foldl fst snd] in *; done.
Qed.

Definition append_ciphertext (t : TeetResponses) (c : bytes) : TeetResponses :=
  mkTeetResponses (tp_CipherSuite t) (tp_ResponseBatchReceived t) (tp_Pending t) (tp_Transcript t) (tp_Ciphertext t ++ c).

Lemma verify_loop_spec prs : forall t, tp_CipherSuite t = suite -> Forall (fun pr => response_ok pr.2) prs -> Forall placed_right prs ->
  (forall pr, pr ∈ prs -> tp_Pending t !! ed_SeqNum pr.2 = Some pr.2) ->
  verify_loop t (map secret_of prs) =
    if decide (Forall (fun pr => server_sealed pr.1 pr.2 (opened pr)) prs)
    then Ok (append_ciphertext t (concat (map (fun pr => strip_type suite (ed_EncryptedData pr.2)) prs)))
    else Err "tag verification failed for batch".
Proof.
  induction prs as [|[p r] prs IH]; intros t Ht W R L.
  { rewrite decide_True by constructor. cbn. unfold append_ciphertext. rewrite app_nil_r. by destruct t. }
  inversion_clear W as [|? ? Wr Ws]. inversion_clear R as [|? ? Rr Rs]. pose proof (L (p, r) ltac:(apply list_elem_of_here)) as Lp. cbn [snd] in Lp.
  cbn [map verify_loop]. unfold secret_of at 1. cbn [fst snd]. rewrite Lp.
  destruct (verify_iff t r p Ht Wr Rr) as [_ V]. cbn [snd] in V. rewrite V. fold (opened (p, r)).
  destruct (decide (server_sealed p r _)) as [S|S]; cycle 1.
  { rewrite decide_False; [done|]. intros F. inversion_clear F. done. }
  set (t1 := mkTeetResponses _ _ _ _ _). specialize (IH t1 Ht Ws Rs ltac:(intros pr Hpr; apply L; by apply list_elem_of_further)).
  rewrite IH. destruct (decide (Forall _ prs)) as [F|F].
  - rewrite decide_True by by constructor. unfold append_ciphertext, t1. cbn. by rewrite <- app_assoc.
  - rewrite decide_False; [done|]. intros F'. inversion_clear F'. done.
Qed.

Lemma placed_snd rs base : map snd (placed base rs) = rs.
Proof. revert base. induction rs as [|r rs IH]; intros base; [done|]. cbn [placed map snd]. by rewrite IH. Qed.

Lemma insert_all_lookup {A} (l : list (Z * A)) : forall m i, NoDup l.*1 -> insert_all m l !! i = match (list_to_map l : gmap Z A) !! i with Some x => Some x | None => m !! i end.
Proof.
  induction l as [|[j x] l IH]; intros m i N; [by rewrite list_to_map_nil, lookup_empty|]. rewrite list_to_map_cons.
  inversion_clear N as [|? ? Hj N']. change (insert_all m ((j, x) :: l)) with (insert_all (<[j := x]> m) l). rewrite IH by done.
  destruct (decide (i = j)) as [->|Hne].
  - rewrite !lookup_insert_eq. rewrite not_elem_of_list_to_map_1; [done|]. done.
  - by rewrite !lookup_insert_ne.
Qed.

Lemma pending_lookup rs : forall (m : gmap Z EncryptedResponseData) r, NoDup (map ed_SeqNum rs) -> r ∈ rs ->
  foldl (fun pending r => <[ed_SeqNum r := r]> pending) m rs !! ed_SeqNum r = Some r.
Proof.
  intros m r N Hr.
  assert (E : forall m, foldl (fun pending r => <[ed_SeqNum r := r]> pending) m rs = insert_all m (map (fun r => (ed_SeqNum r, r)) rs)).
  { clear. induction rs as [|r rs IH]; intros m; [done|]. cbn. apply IH. }
  rewrite E. assert (N' : NoDup (map (fun r => (ed_SeqNum r, r)) rs).*1) by by rewrite <- list_fmap_compose.
  rewrite insert_all_lookup by done. rewrite (elem_of_list_to_map_1 _ _ r); [done|done|]. apply list_elem_of_fmap. by exists r.
Qed.

(** A session before its response. *)
Record response_start (t : TeetResponses) (k : TeekResponses) (base : Z) : Prop := {
  st_suite : tp_CipherSuite t = suite;
  st_first : tp_ResponseBatchReceived t = false;
  st_cipher : tp_Ciphertext t = [];
  st_teek : teek_at k base;
  st_lengths : kp_ResponseLengthBySeq k = ∅;
  st_nonces : kp_NonceBySeq k = ∅;
  st_cache : kp_CachedDecryptionStreams k = ∅;
}.

Lemma response_run_spec t k base responses : response_start t k base -> Forall response_ok responses -> NoDup (map ed_SeqNum responses) ->
  0 <= base -> base + Z.of_nat (length responses) < MaxUint64 ->
  let prs := placed base (sort_by ed_SeqNum responses) in
  if decide (Forall (fun pr => server_sealed pr.1 pr.2 (opened pr)) prs)
  then exists t' k', response_run t k responses = Ok (t', k')
       /\ tp_Ciphertext t' = concat (map (fun pr => strip_type suite (ed_EncryptedData pr.2)) prs)
       /\ tp_Transcript t' = tp_Transcript t ++ map (fun pr => transcript_record suite pr.2) prs
       /\ kp_CipherSuite k' = suite /\ kp_ServerKeys k' = Some (key, iv) /\ kp_CachedDecryptionStreams k' = ∅
       /\ kp_ResponseLengthBySeq k' = list_to_map (record_lengths prs) /\ kp_NonceBySeq k' = list_to_map (record_nonces prs)
  else exists e, response_run t k responses = Err e.
Proof.
  intros [Ht Hb Hc Hk HL HN HC] W N H0 HB prs. destruct (sort_by_spec ed_SeqNum responses) as [P S]. set (rs := sort_by ed_SeqNum responses) in *.
  assert (Wr : Forall response_ok rs) by by rewrite P. assert (Nr : NoDup (map ed_SeqNum rs)) by by rewrite P.
  assert (Lr : length rs = length responses) by by rewrite P.
  destruct (lengths_loop_spec rs k base Hk Wr H0 ltac:(lia)) as (k' & E & E1 & E2 & E3 & E4 & E5). fold prs in E, E4, E5.
  unfold response_run, handleBatchedEncryptedResponses. rewrite Hb. cbn [mbind res_bind]. fold rs. unfold handleBatchedResponseLengths. rewrite E. cbn [mbind res_bind].
  set (t1 := mkTeetResponses _ _ _ _ _). unfold handleBatchedTagSecrets.
  assert (Ps : map snd prs = rs) by apply placed_snd.
  assert (SS : StronglySorted (fun a b => fst a <= fst b) (map secret_of prs)).
  { apply (sorted_map (fun pr => ed_SeqNum pr.2)); [done|]. rewrite <- Ps in S. revert S. generalize prs. clear. intros prs.
    induction prs as [|pr prs IH]; cbn [map]; intros S; constructor; inversion_clear S as [|? ? S' F]; [by apply IH|]. exact (proj1 (Forall_map _ _ _) F). }
  rewrite sort_by_sorted by done.
  assert (Wp : Forall (fun pr => response_ok pr.2) prs) by (rewrite <- Ps in Wr; exact (proj1 (Forall_map _ _ _) Wr)).
  assert (Np : NoDup (map (fun pr : Z * EncryptedResponseData => ed_SeqNum pr.2) prs)) by (by rewrite <- Ps, map_map in Nr).
  pose proof (verify_loop_spec prs t1 Ht Wp (placed_all_right _ _)) as V. specialize (V ltac:(intros pr Hpr; apply pending_lookup; [done|];
    rewrite <- Ps; apply list_elem_of_fmap; by exists pr)).
  rewrite V. destruct (decide _) as [F|F]; [|by eexists]. cbn [mbind res_bind]. eexists _, k'. split; [done|].
  assert (I : forall A (l : list (Z * A)), l.*1 = map (fun pr : Z * EncryptedResponseData => ed_SeqNum pr.2) prs -> insert_all ∅ l = list_to_map l).
  { intros A l El. apply map_eq. intros i. rewrite insert_all_lookup by by rewrite El. rewrite lookup_empty. by destruct ((list_to_map l : gmap Z A) !! i). }
  rewrite HL in E4. rewrite HN in E5. rewrite HC in E3. rewrite I in E4 by (unfold record_lengths; by rewrite <- list_fmap_compose).
  rewrite I in E5 by (unfold record_nonces; by rewrite <- list_fmap_compose). unfold append_ciphertext, t1. cbn [tp_Ciphertext tp_Transcript].
  rewrite Hc, Ht. split; [done|]. split; [|done]. f_equal. rewrite <- Ps, map_map. done.
Qed.

(** ** The key streams *)

(** The cache holds streams of the recorded nonces and lengths. *)
Definition cache_ok (k : TeekResponses) : Prop := forall seqNum stream, kp_CachedDecryptionStreams k !! seqNum = Some stream ->
  exists nonce len, kp_NonceBySeq k !! seqNum = Some nonce /\ kp_ResponseLengthBySeq k !! seqNum = Some len /\ stream = data_stream suite key nonce len.

(** TEE_K after the lengths of the records [prs]. *)
Record holds_records (k : TeekResponses) (prs : list (Z * EncryptedResponseData)) : Prop := {
  hr_suite : kp_CipherSuite k = suite;
  hr_keys : kp_ServerKeys k = Some (key, iv);
  hr_lengths : kp_ResponseLengthBySeq k = list_to_map (record_lengths prs);
  hr_nonces : kp_NonceBySeq k = list_to_map (record_nonces prs);
  hr_cache : cache_ok k;
}.

Definition seqs_distinct (prs : list (Z * EncryptedResponseData)) : Prop := NoDup (map (fun pr => ed_SeqNum pr.2) prs).

Lemma record_lookup {A} (f : Z * EncryptedResponseData -> A) prs pr : seqs_distinct prs -> pr ∈ prs ->
  (list_to_map (map (fun pr => (ed_SeqNum pr.2, f pr)) prs) : gmap Z A) !! ed_SeqNum pr.2 = Some (f pr).
Proof.
  intros N Hpr. apply elem_of_list_to_map_1; [by rewrite <- list_fmap_compose|]. apply list_elem_of_fmap. by exists pr.
Qed.

(** The stream of a record is the key stream of its nonce, cached or not. *)
Lemma single_stream k prs pr : holds_records k prs -> seqs_distinct prs -> pr ∈ prs -> response_ok pr.2 ->
  exists k', generateSingleDecryptionStream k (length (ed_EncryptedData pr.2)) (ed_SeqNum pr.2)
    = Ok (data_stream suite key (response_nonce pr.1 (ed_ExplicitIV pr.2)) (length (ed_EncryptedData pr.2)), k') /\ holds_records k' prs.
Proof.
  intros [Es Ek El En Hc] N Hpr W.
  assert (L1 : kp_ResponseLengthBySeq k !! ed_SeqNum pr.2 = Some (length (ed_EncryptedData pr.2))).
  { rewrite El. by apply (record_lookup (fun pr => length (ed_EncryptedData pr.2))). }
  assert (L2 : kp_NonceBySeq k !! ed_SeqNum pr.2 = Some (response_nonce pr.1 (ed_ExplicitIV pr.2))).
  { rewrite En. by apply (record_lookup (fun pr => response_nonce pr.1 (ed_ExplicitIV pr.2))). }
  unfold generateSingleDecryptionStream. destruct (kp_CachedDecryptionStreams k !! ed_SeqNum pr.2) as [stream|] eqn:E.
  - destruct (Hc _ _ E) as (nonce & len & E1 & E2 & ->). rewrite L2 in E1. rewrite L1 in E2. injection E1 as <-. injection E2 as <-. by exists k.
  - rewrite L2, Ek, Es. destruct W as [_ _ _ [Be Le] _]. destruct (response_nonce_spec pr.1 _ Be Le) as [Ln Bn]. set (nonce := response_nonce _ _) in *.
    destruct K as [Hs Hk Hiv Biv]. set (len := length (ed_EncryptedData pr.2)) in *.
    exists (mkTeekResponses suite (Some (key, iv)) (kp_AppRecordsViaTCPData k) (kp_HandshakeAppRecordsConsumed k) (kp_responseTagSeq k)
      (kp_ResponseLengthBySeq k) (kp_NonceBySeq k) (<[ed_SeqNum pr.2 := data_stream suite key nonce len]> (kp_CachedDecryptionStreams k))). split.
    { unfold key_ok in Hk. unfold data_stream, aead_suite in *. destruct (is_suite aes_gcm_suites suite).
      - unfold GenerateAESKeystream, generateAESDecryptionStream. destruct (aes_NewCipher key) as [b| |] eqn:Eb; [|done..]. by apply aes_NewCipher_Ok in Eb as ->.
      - cbn [orb] in Hs. rewrite Hs. unfold GenerateChaCha20Keystream, generateChaCha20DecryptionStream, chacha20_new. by rewrite Hk, Ln. }
    split; [done..|]. intros s0 stream0 H0. cbn in H0 |- *.
    destruct (decide (s0 = ed_SeqNum pr.2)) as [->|Hne].
    + rewrite lookup_insert_eq in H0. injection H0 as <-. exists nonce, len. done.
    + rewrite lookup_insert_ne in H0 by done. by apply Hc.
Qed.

Definition stream_of (pr : Z * EncryptedResponseData) : bytes :=
  data_stream suite key (response_nonce pr.1 (ed_ExplicitIV pr.2)) (length (ed_EncryptedData pr.2)).

(** What the redaction loop makes of the records it has to go through. *)
Lemma redact_streams_spec prs operations : seqs_distinct prs -> Forall (fun pr => response_ok pr.2) prs -> lengths_ok suite (record_lengths prs) ->
  forall rest k, (forall pr, pr ∈ rest -> pr ∈ prs) -> holds_records k prs ->
  exists k', redact_streams_loop k operations (record_lengths rest)
    = Ok (k', concat (map (fun pr => strip_type suite (apply_operations operations (ed_SeqNum pr.2) (stream_of pr))) rest),
              concat (map (fun pr => strip_type suite (stream_of pr)) rest)) /\ holds_records k' prs.
Proof.
  intros N W LO. induction rest as [|pr rest IH]; intros k Hin H; [by exists k|]. cbn [record_lengths map redact_streams_loop].
  assert (Hpr : pr ∈ prs) by (apply Hin, list_elem_of_here). assert (Wpr : response_ok pr.2) by (rewrite Forall_forall in W; by apply W).
  destruct (single_stream k prs pr H N Hpr Wpr) as (k1 & E1 & H1). rewrite E1. cbn [mbind res_bind]. rewrite (hr_suite _ _ H1).
  assert (L0 : IsTLS13CipherSuite suite && (length (ed_EncryptedData pr.2) <? 1)%nat = false).
  { unfold lengths_ok, record_lengths in LO. rewrite Forall_map, Forall_forall in LO. specialize (LO pr Hpr). cbn in LO. unfold content_length in LO.
    destruct (IsTLS13CipherSuite suite); [|done]. apply Nat.ltb_ge. lia. }
  rewrite L0. destruct (IH k1 ltac:(intros q Hq; apply Hin; by apply list_elem_of_further) H1) as (k2 & E2 & H2).
  unfold record_lengths in E2. rewrite E2. cbn [mbind res_bind]. exists k2. rewrite (hr_suite _ _ H2). done.
Qed.

Lemma strip_length s : 0 <= content_length suite (length s) -> length (strip_type suite s) = Z.to_nat (content_length suite (length s)).
Proof. unfold strip_type, content_length. destruct (IsTLS13CipherSuite suite); [rewrite length_take|]; lia. Qed.

Lemma strip_lookup s q : (q < length (strip_type suite s))%nat -> strip_type suite s !! q = s !! q.
Proof. unfold strip_type. destruct (IsTLS13CipherSuite suite); [|done]. rewrite length_take. intros H. apply lookup_take_lt. lia. Qed.

(** The consolidated streams differ exactly where the operations put their bytes. *)
Lemma consolidated_lookup operations prs : lengths_ok suite (record_lengths prs) ->
  let redacted := concat (map (fun pr => strip_type suite (apply_operations operations (ed_SeqNum pr.2) (stream_of pr))) prs) in
  let original := concat (map (fun pr => strip_type suite (stream_of pr)) prs) in
  length original = total_length suite (record_lengths prs) /\ length redacted = length original
  /\ forall p, (p < length original)%nat -> redacted !! p = match veil_at suite operations (record_lengths prs) p with Some b => Some b | None => original !! p end.
Proof.
  induction prs as [|pr prs IH]; intros LO; cbn [map concat record_lengths]; [split; [done|split; [done|intros p Hp; cbn in Hp; lia]]|].
  inversion_clear LO as [|? ? L0 LO']. cbn [snd] in L0. specialize (IH LO'). cbv zeta in IH. destruct IH as (T & LR & P).
  destruct (apply_operations_spec operations (ed_SeqNum pr.2) (stream_of pr)) as [LA PA].
  assert (LS : length (stream_of pr) = length (ed_EncryptedData pr.2)) by apply length_data_stream.
  set (n := content_length suite (length (ed_EncryptedData pr.2))) in *.
  assert (L1 : length (strip_type suite (stream_of pr)) = Z.to_nat n) by (rewrite strip_length, LS; [done|rewrite LS; done]).
  assert (L2 : length (strip_type suite (apply_operations operations (ed_SeqNum pr.2) (stream_of pr))) = Z.to_nat n).
  { rewrite strip_length; rewrite LA, LS; done. }
  cbv zeta. rewrite !length_app, L1, L2, LR. split; [by rewrite T|]. split; [done|]. intros p Hp. cbn [veil_at]. fold n. fold (record_lengths prs).
  destruct (Nat.ltb_spec p (Z.to_nat n)).
  - rewrite !lookup_app_l by lia. rewrite !strip_lookup by lia. apply PA.
    rewrite LS. unfold n, content_length in *. destruct (IsTLS13CipherSuite suite); lia.
  - rewrite !lookup_app_r by lia. rewrite L1, L2. apply P. lia.
Qed.

(** ** What the services establish *)

Lemma sort_by_unique {A} (f : A -> Z) (l l' : list A) : l ≡ₚ l' -> StronglySorted (fun a b => f a <= f b) l' -> NoDup (map f l') -> sort_by f l = l'.
Proof.
  intros P S N. destruct (sort_by_spec f l) as [P' S']. eapply (StronglySorted_unique_strong (fun a b => f a <= f b)); [|done|done|by rewrite P', P].
  intros x y Hx Hy H1 H2. rewrite P', P in Hx. apply list_elem_of_lookup in Hx as [i Hi], Hy as [j Hj].
  assert (i = j) as ->; [|congruence]. apply (NoDup_lookup (map f l') i j (f x)); [done|by rewrite list_lookup_fmap, Hi|].
  rewrite list_lookup_fmap, Hj. cbn. f_equal. lia.
Qed.

Lemma recorded_seqs prs : StronglySorted (fun a b => ed_SeqNum a <= ed_SeqNum b) (map snd prs) -> seqs_distinct prs ->
  sort_by fst (map_to_list (list_to_map (record_lengths prs) : gmap Z nat)) = record_lengths prs.
Proof.
  intros S N. assert (N1 : NoDup (record_lengths prs).*1) by (unfold record_lengths; by rewrite <- list_fmap_compose).
  apply sort_by_unique; [by apply map_to_list_to_map| |done].
  unfold record_lengths. clear N N1. induction prs as [|pr prs IH]; cbn [map] in *; constructor; inversion_clear S as [|? ? S' F]; [by apply IH|].
  apply Forall_map. exact (proj1 (Forall_map _ _ _) F).
Qed.

Lemma operations_total random ranges seqs : (forall r s, random r s <> None) -> exists operations, all_operations suite random ranges seqs = Ok operations.
Proof.
  intros T. induction ranges as [|r ranges [os IH]]; [by eexists|]. cbn [all_operations].
  assert (exists o, range_operations suite random r 0 seqs = Ok o) as [o ->]; [|rewrite IH; by eexists].
  clear IH. generalize 0. induction seqs as [|[s len] seqs IHs]; intros off; [by eexists|]. cbn [range_operations]. destruct (IHs (off + content_length suite len)) as [o E].
  destruct (_ && _); [destruct (random r s) as [b|] eqn:Er; [|by apply T in Er]|]; cbn [mbind res_bind]; rewrite E; by eexists.
Qed.

Lemma xor_strip a b : length a = length b -> xor_bytes (strip_type suite a) (strip_type suite b) = strip_type suite (xor_bytes a b).
Proof.
  intros L. unfold strip_type. destruct (IsTLS13CipherSuite suite); [|done]. rewrite length_xor_bytes, L, Nat.min_id. pose proof (xor_bytes_slice a b 0 (length b - 1)) as E.
  unfold slice in E. rewrite !drop_0, Nat.sub_0_r in E. done.
Qed.

Lemma strip_length_eq a b : length a = length b -> length (strip_type suite a) = length (strip_type suite b).
Proof. intros L. unfold strip_type. destruct (IsTLS13CipherSuite suite); [|done]. rewrite !length_take. lia. Qed.

Lemma ciphertext_opens prs :
  xor_bytes (concat (map (fun pr => strip_type suite (ed_EncryptedData pr.2)) prs)) (concat (map (fun pr => strip_type suite (stream_of pr)) prs))
  = concat (map (fun pr => strip_type suite (opened pr)) prs).
Proof.
  induction prs as [|pr prs IH]; [done|]. cbn [map concat].
  assert (L : length (ed_EncryptedData pr.2) = length (stream_of pr)) by (symmetry; apply length_data_stream).
  rewrite xor_bytes_app by by apply strip_length_eq. by rewrite IH, xor_strip.
Qed.

Section Session.
Context (t : TeetResponses) (k : TeekResponses) (base : Z) (responses : list EncryptedResponseData).
Context (St : response_start t k base) (W : Forall response_ok responses) (N : NoDup (map ed_SeqNum responses)).
Context (H0 : 0 <= base) (HB : base + Z.of_nat (length responses) < MaxUint64).

Let prs := placed base (sort_by ed_SeqNum responses).

Lemma session_records : Forall (fun pr => response_ok pr.2) prs /\ seqs_distinct prs /\ StronglySorted (fun a b => ed_SeqNum a <= ed_SeqNum b) (map snd prs).
Proof.
  destruct (sort_by_spec ed_SeqNum responses) as [P S]. assert (E : map snd prs = sort_by ed_SeqNum responses) by apply placed_snd. split_and!.
  - apply (proj1 (Forall_map snd response_ok prs)). by rewrite E, P.
  - unfold seqs_distinct. rewrite <- (map_map snd ed_SeqNum), E. by rewrite P.
  - by rewrite E.
Qed.

Lemma sealed_opened : Forall (fun pr => exists Q, server_sealed pr.1 pr.2 Q) prs <-> Forall (fun pr => server_sealed pr.1 pr.2 (opened pr)) prs.
Proof.
  destruct session_records as [Wp _]. pose proof (placed_all_right (sort_by ed_SeqNum responses) base) as R. fold prs in R.
  rewrite !Forall_forall in *. split; intros F pr Hpr; [|by eexists; apply F].
  destruct (F pr Hpr) as [Q HQ]. destruct (verify_iff t pr.2 pr.1 (st_suite _ _ _ St) (Wp pr Hpr) (R pr Hpr)) as [U _]. unfold opened. by rewrite <- (U Q HQ).
Qed.

Lemma disclosure ranges random t' k' : response_run t k responses = Ok (t', k') -> (forall r s, random r s <> None) ->
  let plaintext := concat (map (fun pr => strip_type suite (opened pr)) prs) in
  exists operations k'' redacted original,
    Forall (fun pr => server_sealed pr.1 pr.2 (opened pr)) prs
    /\ all_operations suite random ranges (record_lengths prs) = Ok operations
    /\ generateAndSendRedactedDecryptionStream k' ranges random = Ok (k'', redacted, original)
    /\ xor_bytes (tp_Ciphertext t') original = plaintext /\ length redacted = length plaintext
    /\ forall p, (p < length plaintext)%nat ->
         if hidden_at ranges (Z.of_nat p) then is_Some (veil_at suite operations (record_lengths prs) p)
                                              /\ redacted !! p = veil_at suite operations (record_lengths prs) p
         else xor_bytes (tp_Ciphertext t') redacted !! p = plaintext !! p.
Proof.
  intros E T plaintext. pose proof (response_run_spec t k base responses St W N H0 HB) as R. cbv zeta in R. fold prs in R.
  destruct (decide _) as [F|F]; [|by destruct R as [e R]; rewrite R in E]. destruct R as (t1 & k1 & R & Ct & _ & E1 & E2 & E3 & E4 & E5).
  rewrite R in E. injection E as <- <-. destruct session_records as (Wp & Np & Sp).
  assert (HR : holds_records k1 prs) by (split; [done..|]; intros s stream Hs; by rewrite E3, lookup_empty in Hs).
  assert (LO : lengths_ok suite (record_lengths prs)).
  { unfold lengths_ok, record_lengths. apply Forall_map. eapply Forall_impl; [exact F|]. cbn. intros pr (_ & Hne & Es). unfold content_length.
    destruct (IsTLS13CipherSuite suite); [|lia]. pose proof (aead_seal_length suite key (response_nonce pr.1 (ed_ExplicitIV pr.2)) (opened pr)
      (record_aad suite pr.1 (record_type pr.2) (length (opened pr)))) as L.
    rewrite <- Es in L. cbn [fst] in L. destruct (opened pr); [by specialize (Hne eq_refl)|cbn in L; lia]. }
  destruct (operations_total random ranges (record_lengths prs) T) as [operations EO].
  destruct (redact_streams_spec prs operations Np Wp LO prs k1 ltac:(done) HR) as (k2 & ER & _).
  destruct (consolidated_lookup operations prs LO) as (TL & LR & PV).
  exists operations, k2. eexists _, _. split; [done|]. split; [done|].
  split. { unfold generateAndSendRedactedDecryptionStream. rewrite E4, recorded_seqs, E1, EO by done. cbn [mbind res_bind]. exact ER. }
  set (redacted := concat (map _ prs)) in *. set (original := concat (map (fun pr => strip_type suite (stream_of pr)) prs)) in *.
  assert (XP : xor_bytes (tp_Ciphertext t1) original = plaintext) by (rewrite Ct; apply ciphertext_opens).
  assert (LC : length (tp_Ciphertext t1) = length original).
  { rewrite Ct. unfold original. clear. induction prs as [|pr l IH]; [done|]. cbn [map concat]. rewrite !length_app, IH. f_equal. apply strip_length_eq.
    symmetry. apply length_data_stream. }
  assert (LP : length plaintext = length original) by (rewrite <- XP, length_xor_bytes; lia).
  split; [done|]. split; [lia|]. intros p Hp. specialize (PV p ltac:(lia)).
  pose proof (veil_exact suite random (record_lengths prs) ranges operations ltac:(unfold record_lengths; by rewrite <- list_fmap_compose) LO EO p ltac:(lia)) as VE.
  destruct (hidden_at ranges (Z.of_nat p)).
  - destruct (proj2 VE eq_refl) as [b Hb]. rewrite PV, Hb. split; [by eexists|done].
  - destruct (veil_at suite operations (record_lengths prs) p) as [b|] eqn:Ev.
    { assert (false = true) by (apply VE; by eexists). done. }
    rewrite <- XP. unfold xor_bytes. rewrite !lookup_zip_with, PV. done.
Qed.
End Session.
End Sealed.

(** ** The properties *)

Section Properties.
Context {BC : BlockCipher} {CP : ChaChaPoly}.

(** C3: TEE_T accepts a response exactly when the server sealed it.  Whatever records of at most 2^20 bytes the client
    forwards under pairwise different sequence numbers, the exchange of lengths, secrets and verdict ends, and it ends
    well exactly when every record, at the position it is checked at, is the standard AEAD of some plaintext under the
    server's key, the nonce of that position and the additional data TLS prescribes there; otherwise it ends in an error.
    The positions are consecutive for TLS 1.3, whatever the client says, and the client's numbers for TLS 1.2.  That the
    numbers differ is needed: [repeated_number_hides_a_forgery] below accepts a forged record under a repeated one. *)
Theorem response_accepted_iff_sealed suite key iv t k base responses :
  keys_ok key iv suite -> response_start suite key iv t k base -> Forall (response_ok suite) responses -> NoDup (map ed_SeqNum responses) ->
  0 <= base -> base + Z.of_nat (length responses) < MaxUint64 ->
  let prs := placed suite base (sort_by ed_SeqNum responses) in
  (Forall (fun pr => exists Q, server_sealed suite key iv pr.1 pr.2 Q) prs
   /\ exists t' k', response_run t k responses = Ok (t', k') /\ tp_Ciphertext t' = concat (map (fun pr => strip_type suite (ed_EncryptedData pr.2)) prs))
  \/ (~ Forall (fun pr => exists Q, server_sealed suite key iv pr.1 pr.2 Q) prs /\ exists e, response_run t k responses = Err e).
Proof.
  intros K St W N H0 HB prs. pose proof (response_run_spec suite key iv K t k base responses St W N H0 HB) as R. cbv zeta in R. fold prs in R.
  pose proof (sealed_opened suite key iv K t k base responses St W) as SO. fold prs in SO. destruct (decide _) as [F|F].
  - left. split; [by apply SO|]. destruct R as (t' & k' & R & C & _). by exists t', k'.
  - right. split; [by rewrite SO|done].
Qed.

(** C4: What a verifier sees of an accepted response, forwarded under pairwise different sequence numbers in records of
    at most 2^20 bytes, is the server's plaintext and nothing of the hidden ranges.  TEE_T's
    ciphertext under TEE_K's unredacted key stream is the content of the records, each the plaintext the server sealed;
    under the key stream that is signed, every position outside the ranges shows that plaintext, and every position in a
    range holds a byte that does not depend on the key: it is a function of the lengths, the ranges and the random bytes. *)
Theorem disclosed_response_is_the_servers suite key iv t k base responses ranges random t' k' :
  keys_ok key iv suite -> response_start suite key iv t k base -> Forall (response_ok suite) responses -> NoDup (map ed_SeqNum responses) ->
  0 <= base -> base + Z.of_nat (length responses) < MaxUint64 ->
  response_run t k responses = Ok (t', k') -> (forall r s, random r s <> None) ->
  let prs := placed suite base (sort_by ed_SeqNum responses) in
  let plaintext := concat (map (fun pr => strip_type suite (opened suite key iv pr)) prs) in
  exists operations k'' redacted original,
    Forall (fun pr => server_sealed suite key iv pr.1 pr.2 (opened suite key iv pr)) prs
    /\ all_operations suite random ranges (record_lengths prs) = Ok operations
    /\ generateAndSendRedactedDecryptionStream k' ranges random = Ok (k'', redacted, original)
    /\ xor_bytes (tp_Ciphertext t') original = plaintext /\ length redacted = length plaintext
    /\ forall p, (p < length plaintext)%nat ->
         if hidden_at ranges (Z.of_nat p) then is_Some (veil_at suite operations (record_lengths prs) p)
                                              /\ redacted !! p = veil_at suite operations (record_lengths prs) p
         else xor_bytes (tp_Ciphertext t') redacted !! p = plaintext !! p.
Proof. intros K St W N H0 HB E T. by apply (disclosure suite key iv K t k base responses St W N H0 HB). Qed.

(** The text a verifier reads off TEE_T's ciphertext and TEE_K's signed key stream when nothing is redacted. *)
Definition shown (t : TeetResponses) (k : TeekResponses) : option bytes :=
  match generateAndSendRedactedDecryptionStream k [] (fun _ _ => Some []) with
  | Ok (_, redacted, _) => Some (xor_bytes (tp_Ciphertext t) redacted)
  | _ => None
  end.

Lemma shown_text suite key iv t k base responses t' k' :
  keys_ok key iv suite -> response_start suite key iv t k base -> Forall (response_ok suite) responses -> NoDup (map ed_SeqNum responses) ->
  0 <= base -> base + Z.of_nat (length responses) < MaxUint64 -> response_run t k responses = Ok (t', k') ->
  shown t' k' = Some (concat (map (fun pr => strip_type suite (opened suite key iv pr)) (placed suite base (sort_by ed_SeqNum responses)))).
Proof.
  intros K St W N H0 HB E. destruct (disclosure suite key iv K t k base responses St W N H0 HB [] (fun _ _ => Some []) t' k' E ltac:(done))
    as (ops & k2 & redacted & original & _ & _ & G & XP & L & P). unfold shown. rewrite G. f_equal.
  set (plaintext := concat _) in *. apply list_eq. intros p. destruct (decide (p < length plaintext)%nat) as [Hp|Hp]; [exact (P p Hp)|].
  rewrite !lookup_ge_None_2; [done|lia|]. rewrite length_xor_bytes. lia.
Qed.

Lemma placed_tls12 suite base rs : IsTLS13CipherSuite suite = false -> placed suite base rs = map (fun r => (ed_SeqNum r, r)) rs.
Proof. intros E. revert base. induction rs as [|r rs IH]; intros base; [done|]. cbn [placed map]. by rewrite E, IH. Qed.

(** C38: In TLS 1.2 the client can leave records out of the response.  TEE_K takes the position of a record from the client
    there, so of any response the services accept (sequence numbers pairwise different, records of at most 2^20 bytes)
    they accept every selection of its records as well, and what they sign then reads as the text of the selected records
    alone, without a trace of the others. *)
Theorem tls12_record_can_be_left_out suite key iv t k base responses kept t' k' :
  keys_ok key iv suite -> response_start suite key iv t k base -> Forall (response_ok suite) responses -> NoDup (map ed_SeqNum responses) ->
  0 <= base -> base + Z.of_nat (length responses) < MaxUint64 ->
  IsTLS13CipherSuite suite = false -> response_run t k responses = Ok (t', k') -> kept ⊆+ responses ->
  let text rs := concat (map (fun r => opened suite key iv (ed_SeqNum r, r)) (sort_by ed_SeqNum rs)) in
  shown t' k' = Some (text responses)
  /\ exists t'' k'', response_run t k kept = Ok (t'', k'') /\ shown t'' k'' = Some (text kept).
Proof.
  intros K St W N H0 HB E13 E Sub text.
  assert (T : forall rs t1 k1, Forall (response_ok suite) rs -> NoDup (map ed_SeqNum rs) -> base + Z.of_nat (length rs) < MaxUint64 ->
    response_run t k rs = Ok (t1, k1) -> shown t1 k1 = Some (text rs)).
  { intros rs t1 k1 Wr Nr Lr Er. rewrite (shown_text suite key iv t k base rs t1 k1) by done. rewrite placed_tls12, map_map by done.
    unfold text, strip_type. by rewrite E13. }
  split; [by apply T|]. apply submseteq_Permutation in Sub as [left P].
  assert (Wk : Forall (response_ok suite) kept) by (rewrite P in W; by apply Forall_app in W as [? _]).
  assert (Nk : NoDup (map ed_SeqNum kept)) by (rewrite P, map_app in N; by apply NoDup_app in N as [? _]).
  assert (Lk : base + Z.of_nat (length kept) < MaxUint64) by (apply Permutation_length in P; rewrite length_app in P; lia).
  assert (exists t'' k'', response_run t k kept = Ok (t'', k'')) as (t'' & k'' & Ek); [|exists t'', k''; split; [done|by apply T]].
  pose proof (response_run_spec suite key iv K t k base responses St W N H0 HB) as R.
  pose proof (response_run_spec suite key iv K t k base kept St Wk Nk H0 Lk) as Rk. cbv zeta in R, Rk. rewrite !placed_tls12 in * by done.
  destruct (decide _) as [F|F]; [|by destruct R as [e R]; rewrite R in E]. rewrite decide_True in Rk by
    (rewrite Forall_map, (proj1 (sort_by_spec ed_SeqNum responses)), P, Forall_app in F; destruct F as [F _];
     rewrite Forall_map; by rewrite (proj1 (sort_by_spec ed_SeqNum kept))).
  destruct Rk as (t'' & k'' & Ek & _). by exists t'', k''.
Qed.
End Properties.

(** ** Concrete runs *)

Definition demo_teet (suite : Z) : TeetResponses := mkTeetResponses suite false ∅ [] [].
Definition demo_teek (suite : Z) (key iv : bytes) : TeekResponses := mkTeekResponses suite (Some (key, iv)) 0 0 None ∅ ∅ ∅.

(** Records of the constant cipher, whose key stream and tags are zero. *)
Definition demo_records : list EncryptedResponseData :=
  [mkResponse [79; 75; 23] (zeros 16) [23; 3; 3; 0; 19] 6 []; mkResponse [72; 105; 23] (zeros 16) [23; 3; 3; 0; 19] 5 []].

Lemma demo_keys_ok : @keys_ok (zeros 16) (zeros 12) TLS_AES_128_GCM_SHA256.
Proof. split; [done|by vm_compute|done|apply zeros_bytes]. Qed.

Lemma demo_start : @response_start TLS_AES_128_GCM_SHA256 (zeros 16) (zeros 12) (demo_teet TLS_AES_128_GCM_SHA256)
  (demo_teek TLS_AES_128_GCM_SHA256 (zeros 16) (zeros 12)) 0.
Proof. by repeat split. Qed.

Lemma demo_records_ok : Forall (response_ok TLS_AES_128_GCM_SHA256) demo_records.
Proof.
  repeat constructor; cbn; try (unfold is_byte; lia); try done; try (intros H; by vm_compute in H).
Qed.

Lemma response_accepted_iff_sealed_witness :
  let suite := TLS_AES_128_GCM_SHA256 in let prs := placed suite 0 (sort_by ed_SeqNum demo_records) in
  let run := @response_run const_cipher const_chacha (demo_teet suite) (demo_teek suite (zeros 16) (zeros 12)) demo_records in
  let sealed := fun pr => exists Q, @server_sealed const_cipher const_chacha suite (zeros 16) (zeros 12) pr.1 pr.2 Q in
  (Forall sealed prs /\ exists t' k', run = Ok (t', k') /\ tp_Ciphertext t' = concat (map (fun pr => strip_type suite (ed_EncryptedData pr.2)) prs))
  \/ (~ Forall sealed prs /\ exists e, run = Err e).
Proof.
  apply (@response_accepted_iff_sealed const_cipher const_chacha); [apply demo_keys_ok|apply demo_start|apply demo_records_ok| |done|done].
  apply (bool_decide_unpack _). by vm_compute.
Defined.

Definition demo_run : TeetResponses * TeekResponses :=
  match @response_run const_cipher const_chacha (demo_teet TLS_AES_128_GCM_SHA256) (demo_teek TLS_AES_128_GCM_SHA256 (zeros 16) (zeros 12)) demo_records with
  | Ok p => p
  | _ => (demo_teet 0, demo_teek 0 [] [])
  end.

Lemma disclosed_response_is_the_servers_witness :
  let suite := TLS_AES_128_GCM_SHA256 in let prs := placed suite 0 (sort_by ed_SeqNum demo_records) in
  let ranges := [mkResponseRange 1 2] in let random := fun _ _ => Some [170; 170] in
  let opens := @opened const_cipher const_chacha suite (zeros 16) (zeros 12) in
  let plaintext := concat (map (fun pr => strip_type suite (opens pr)) prs) in
  exists operations k'' redacted original,
    Forall (fun pr => @server_sealed const_cipher const_chacha suite (zeros 16) (zeros 12) pr.1 pr.2 (opens pr)) prs
    /\ all_operations suite random ranges (record_lengths prs) = Ok operations
    /\ @generateAndSendRedactedDecryptionStream const_cipher const_chacha demo_run.2 ranges random = Ok (k'', redacted, original)
    /\ xor_bytes (tp_Ciphertext demo_run.1) original = plaintext /\ length redacted = length plaintext
    /\ forall p, (p < length plaintext)%nat ->
         if hidden_at ranges (Z.of_nat p) then is_Some (veil_at suite operations (record_lengths prs) p)
                                              /\ redacted !! p = veil_at suite operations (record_lengths prs) p
         else xor_bytes (tp_Ciphertext demo_run.1) redacted !! p = plaintext !! p.
Proof.
  apply (@disclosed_response_is_the_servers const_cipher const_chacha TLS_AES_128_GCM_SHA256 (zeros 16) (zeros 12) (demo_teet TLS_AES_128_GCM_SHA256)
    (demo_teek TLS_AES_128_GCM_SHA256 (zeros 16) (zeros 12)) 0 demo_records [mkResponseRange 1 2] (fun _ _ => Some [170; 170]) demo_run.1 demo_run.2);
    [apply demo_keys_ok|apply demo_start|apply demo_records_ok| |done|done|by vm_compute|done].
  apply (bool_decide_unpack _). by vm_compute.
Defined.

(** A server with a real cipher: the record of content [s] at position [seq], as the client forwards it. *)
Definition server_record (suite : Z) (key iv : bytes) (seq : Z) (s : string) : EncryptedResponseData :=
  let inner := if IsTLS13CipherSuite suite then str s ++ [23] else str s in
  let blank := mkResponse inner [] [23; 3; 3] seq (be_put 8 seq) in
  let ct := @aead_seal aes_cipher const_chacha suite key (response_nonce suite iv seq (be_put 8 seq)) inner (record_aad suite seq (record_type blank) (length inner)) in
  mkResponse ct.1 ct.2 [23; 3; 3] seq (be_put 8 seq).

(** What a verifier reads of the records the client forwards; [None]: the response is refused. *)
Definition disclosed (suite : Z) (key iv : bytes) (responses : list EncryptedResponseData) : option bytes :=
  match @response_run aes_cipher const_chacha (demo_teet suite) (demo_teek suite key iv) responses with
  | Ok (t, k) => @shown aes_cipher const_chacha t k
  | _ => None
  end.

(** In TLS 1.3, where TEE_K counts the records, a response without its second record is refused. *)
Lemma tls13_gap_is_refused :
  let key := seqZ 1 16 in let suite := TLS_AES_128_GCM_SHA256 in let r := server_record suite key (seqZ 40 12) in
  disclosed suite key (seqZ 40 12) [r 0 "balance: "; r 1 "-"; r 2 "100"]%string = Some (str "balance: -100")
  /\ disclosed suite key (seqZ 40 12) [r 0 "balance: "; r 2 "100"]%string = None.
Proof. vm_compute. done. Qed.

(** TEE_T files the records by sequence number, so of two under one number only the last is checked, twice: a record
    that is refused on its own is accepted, and signed into the transcript, when a good one repeats its number.  TEE_T
    then appends the good ciphertext twice and TEE_K its key stream once, so what follows is read as something the server
    did not send. *)
Lemma repeated_number_hides_a_forgery :
  let key := seqZ 1 16 in let suite := TLS_ECDHE_RSA_WITH_AES_128_GCM_SHA256 in let r := server_record suite key (seqZ 40 4) in
  let forged := mkResponse [170] (zeros 16) [23; 3; 3] 1 (be_put 8 1) in
  disclosed suite key (seqZ 40 4) [forged] = None
  /\ disclosed suite key (seqZ 40 4) [r 1 "5"; r 2 "world"]%string = Some (str "5world")
  /\ exists text, disclosed suite key (seqZ 40 4) [forged; r 1 "5"; r 2 "world"]%string = Some text /\ take 1 text = str "5" /\ drop 1 text <> str "world".
Proof. split; [by vm_compute|]. split; [by vm_compute|]. eexists. split; [by vm_compute|]. by vm_compute. Qed.

(** A server with AES-128-GCM of TLS 1.2 that answers in three records. *)
Definition demo12 (seq : Z) (s : string) : EncryptedResponseData :=
  server_record TLS_ECDHE_RSA_WITH_AES_128_GCM_SHA256 (seqZ 1 16) (seqZ 40 4) seq s.
Definition demo12_records : list EncryptedResponseData := [demo12 1 "balance: "; demo12 2 "-"; demo12 3 "100"]%string.

Lemma demo12_records_ok : Forall (response_ok TLS_ECDHE_RSA_WITH_AES_128_GCM_SHA256) demo12_records.
Proof.
  assert (E : demo12_records = ltac:(let v := eval vm_compute in demo12_records in exact v)) by by vm_compute.
  rewrite E. repeat constructor; cbn; try (unfold is_byte; lia); try done.
Qed.

Definition demo12_run : TeetResponses * TeekResponses :=
  match @response_run aes_cipher const_chacha (demo_teet TLS_ECDHE_RSA_WITH_AES_128_GCM_SHA256)
          (demo_teek TLS_ECDHE_RSA_WITH_AES_128_GCM_SHA256 (seqZ 1 16) (seqZ 40 4)) demo12_records with
  | Ok p => p
  | _ => (demo_teet 0, demo_teek 0 [] [])
  end.

Lemma tls12_record_can_be_left_out_witness :
  let suite := TLS_ECDHE_RSA_WITH_AES_128_GCM_SHA256 in let kept := [demo12 1 "balance: "; demo12 3 "100"]%string in
  @shown aes_cipher const_chacha demo12_run.1 demo12_run.2 = Some (str "balance: -100")
  /\ exists t'' k'', @response_run aes_cipher const_chacha (demo_teet suite) (demo_teek suite (seqZ 1 16) (seqZ 40 4)) kept = Ok (t'', k'')
       /\ @shown aes_cipher const_chacha t'' k'' = Some (str "balance: 100").
Proof.
  cbv zeta. set (suite := TLS_ECDHE_RSA_WITH_AES_128_GCM_SHA256). set (kept := [demo12 1 "balance: "; demo12 3 "100"]%string).
  assert (X : forall rs s, concat (map (fun r => @opened aes_cipher const_chacha suite (seqZ 1 16) (seqZ 40 4) (ed_SeqNum r, r)) (sort_by ed_SeqNum rs)) = str s ->
    Some (concat (map (fun r => @opened aes_cipher const_chacha suite (seqZ 1 16) (seqZ 40 4) (ed_SeqNum r, r)) (sort_by ed_SeqNum rs))) = Some (str s))
    by (intros rs s ->; done).
  rewrite <- (X demo12_records "balance: -100"%string), <- (X kept "balance: 100"%string) by by vm_compute.
  apply (@tls12_record_can_be_left_out aes_cipher const_chacha suite (seqZ 1 16) (seqZ 40 4) (demo_teet suite) (demo_teek suite (seqZ 1 16) (seqZ 40 4)) 0 demo12_records kept).
  - split; [done|by vm_compute|done|]. repeat constructor; cbn; lia.
  - by repeat split.
  - apply demo12_records_ok.
  - apply (bool_decide_unpack _). by vm_compute.
  - done.
  - done.
  - done.
  - by vm_compute.
  - unfold demo12_records, kept. do 2 constructor. done.
Defined.
