(* ===== verification/CbcSession.v ===== *)
(** * CBC sessions ([tee_k/cbc_handlers.go], [tee_t/cbc_handlers.go], [shared/cbc.go])

    With the CBC suites of TLS 1.2 the services cannot split the record
    protection.  TEE_K keeps the write keys and hands the read state to TEE_T,
    which decrypts the response, tells TEE_K its length and keeps the copy with
    the redacted parts replaced for the transcript. *)

From S2P Require Import Prelude Bytes Crypto CipherSuite Prf SplitAead Cbc Redaction Response.

(** [teeproto.TLS12CBCSessionBinding]; the record mode is the number of the protobuf enum. *)
Record SessionBinding := mkBinding {
  sb_ContractVersion : Z;
  sb_CipherSuite : Z;
  sb_RecordMode : Z;
  sb_ExtendedMasterSecret : bool;
  sb_SessionBinding : bytes;
}.

Definition tls12CBCModeToProto (mode : TLS12CBCRecordMode) : res Z :=
  match mode with
  | TLS12CBCRecordModeMACThenEncrypt => Ok 1
  | TLS12CBCRecordModeEncryptThenMAC => Ok 2
  | TLS12CBCRecordModeUnspecified => Err "unsupported TLS 1.2 CBC record mode"
  end.

Definition tls12CBCModeFromProto (mode : Z) : res TLS12CBCRecordMode :=
  if mode =? 1 then Ok TLS12CBCRecordModeMACThenEncrypt else
  if mode =? 2 then Ok TLS12CBCRecordModeEncryptThenMAC else Err "unsupported TLS 1.2 CBC record mode".

(** [teeproto.TLS12CBCReadState]. *)
Record ReadStateMessage := mkReadMessage {
  rm_Binding : option SessionBinding;
  rm_ReadKey : bytes;
  rm_ReadMacKey : bytes;
  rm_ReadIv : bytes;
  rm_ReadSequence : Z;
}.

Record ReadStateAck := mkAck { ack_Success : bool; ack_SessionBinding : bytes }.

(** ** TEE_K: the hand-over *)

Record TeekCbc := mkTeekCbc { kc_CBCBinding : option SessionBinding; kc_waiting : bool; kc_CBCReadStateAcked : bool }.

(** Up to the message for TEE_T; [random] is the binding [rand.Read] drew. *)
Definition handOffTLS12CBCReadState (k : TeekCbc) (ctx : option TLS12CBCContext) (ems : bool) (random : option bytes)
    : res (TeekCbc * ReadStateMessage) :=
  match ctx with
  | None => Err "TLS 1.2 CBC context is unavailable"
  | Some ctx =>
      let readState := ExportReadState ctx in
      fail_if (negb (rs_ReadSequence readState =? 1)) "TLS 1.2 CBC server read sequence after handshake, want 1";;
      mode ← tls12CBCModeToProto (rs_Mode readState);
      match random with
      | None => Err "generate TLS 1.2 CBC session binding"
      | Some b =>
          let binding := mkBinding 1 (rs_CipherSuite readState) mode ems (pad_to 32 b) in
          Ok (mkTeekCbc (Some binding) true (kc_CBCReadStateAcked k),
              mkReadMessage (Some binding) (rs_ReadKey readState) (rs_ReadMACKey readState) (rs_ReadIV readState) (rs_ReadSequence readState))
      end
  end.

(** What the waiting hand-over is told. *)
Definition handleTLS12CBCReadStateAck (k : TeekCbc) (ack : ReadStateAck) : res (TeekCbc * res unit) :=
  match kc_CBCBinding k with
  | None => Err "unexpected TLS 1.2 CBC read-state acknowledgment"
  | Some binding =>
      fail_if (negb (kc_waiting k)) "unexpected TLS 1.2 CBC read-state acknowledgment";;
      fail_if (kc_CBCReadStateAcked k) "duplicate TLS 1.2 CBC read-state acknowledgment";;
      Ok (mkTeekCbc (kc_CBCBinding k) (kc_waiting k) true,
          if negb (bytes_eqb (ack_SessionBinding ack) (sb_SessionBinding binding)) then Err "TLS 1.2 CBC read-state acknowledgment binding mismatch"
          else if negb (ack_Success ack) then Err "TEE_T rejected TLS 1.2 CBC read state" else Ok ())
  end.

Definition validateTLS12CBCBinding (binding : option SessionBinding) : res unit :=
  match binding with
  | None => Err "invalid TLS 1.2 CBC session binding"
  | Some b =>
      fail_if (negb (sb_ContractVersion b =? 1) || negb (length (sb_SessionBinding b) =? 32)%nat) "invalid TLS 1.2 CBC session binding";;
      fail_if (negb (IsTLS12CBCCipherSuite (sb_CipherSuite b mod 2 ^ 16))) "binding contains unsupported TLS 1.2 CBC cipher suite";;
      Ok ()
  end.

(** ** Records *)

(** [teeproto.TLSRecord]. *)
Record TLSRecord := mkRecord { tr_Header : bytes; tr_Payload : bytes; tr_SeqNum : Z }.

Definition RecordTypeAlert : Z := 0x15.
Definition TLS12CBCRequestDigestDomain : bytes := str "reclaim.tls12-cbc.request-records.v1" ++ [0].
Definition TLS12CBCResponseDigestDomain : bytes := str "reclaim.tls12-cbc.response-records.v1" ++ [0].

Definition digest_part (r : TLSRecord) : bytes :=
  be_put 8 (tr_SeqNum r) ++ tr_Header r ++ be_put 4 (Z.of_nat (length (tr_Payload r)) mod 2 ^ 32) ++ tr_Payload r.

Definition record_shape (r : TLSRecord) : bool :=
  (length (tr_Header r) =? 5)%nat && (be_get (slice (tr_Header r) 3 5) =? Z.of_nat (length (tr_Payload r))).

Section Session.
Context {BC : BlockCipher} {BD : BlockDecipher} {HS : Hashes} {SH : Sha256}.

Definition TLS12CBCRecordDigest (domain : bytes) (records : list (option TLSRecord)) : res bytes :=
  fail_if (negb (bytes_eqb domain TLS12CBCRequestDigestDomain) && negb (bytes_eqb domain TLS12CBCResponseDigestDomain)) "invalid TLS 1.2 CBC digest domain";;
  fail_if (existsb (fun r => match r with None => true | Some r => negb (record_shape r) end) records) "TLS record has invalid header or length";;
  Ok (sha256 (domain ++ concat (map (fun r => match r with Some r => digest_part r | None => [] end) records))).

(** ** TEE_T *)

Record TeetCbc := mkTeetCbc {
  tc_CBCReadStateReceived : bool;
  tc_CBCBinding : option SessionBinding;
  tc_CBCReadContext : option TLS12CBCContext;
  tc_CipherSuite : Z;
  tc_ResponseBatchReceived : bool;
  tc_CBCAuthenticatedResponse : bytes;
  tc_CBCResponseDigest : bytes;
  tc_CBCPlaintextRecordLengths : list Z;
  tc_CBCCloseNotify : bool;
  tc_CBCRedactionSpecReceived : bool;
  tc_CBCAuthenticatedRedactedResponse : bytes;
  tc_CBCResponseRedactionRanges : list ResponseRedactionRange;
  tc_TEEKFinished : bool;
}.

Definition new_cbc : TeetCbc := mkTeetCbc false None None 0 false [] [] [] false false [] [] false.

(** The acknowledgment that is sent, the handler's result and the state; only the flag is kept when it fails. *)
Definition handleTLS12CBCReadState (t : TeetCbc) (m : ReadStateMessage) : TeetCbc * ReadStateAck * res unit :=
  let received := mkTeetCbc true (tc_CBCBinding t) (tc_CBCReadContext t) (tc_CipherSuite t) (tc_ResponseBatchReceived t)
    (tc_CBCAuthenticatedResponse t) (tc_CBCResponseDigest t) (tc_CBCPlaintextRecordLengths t) (tc_CBCCloseNotify t)
    (tc_CBCRedactionSpecReceived t) (tc_CBCAuthenticatedRedactedResponse t) (tc_CBCResponseRedactionRanges t) (tc_TEEKFinished t) in
  let ack ok := mkAck ok (match rm_Binding m with Some b => sb_SessionBinding b | None => [] end) in
  let accepted :=
    fail_if (tc_CBCReadStateReceived t) "duplicate TLS 1.2 CBC read-state message";;
    match rm_Binding m with
    | None => Err "invalid TLS 1.2 CBC session binding"
    | Some b =>
        fail_if (negb (sb_ContractVersion b =? 1) || negb (length (sb_SessionBinding b) =? 32)%nat) "invalid TLS 1.2 CBC session binding";;
        let cipherSuite := sb_CipherSuite b mod 2 ^ 16 in
        fail_if (negb (IsTLS12CBCCipherSuite cipherSuite)) "unsupported TLS 1.2 CBC cipher suite";;
        mode ← tls12CBCModeFromProto (sb_RecordMode b);
        fail_if (negb (rm_ReadSequence m =? 1)) "TLS 1.2 CBC read sequence, want 1";;
        readContext ← NewTLS12CBCReadContext (Some (mkReadState cipherSuite mode (rm_ReadKey m) (rm_ReadMacKey m) (rm_ReadIv m) (rm_ReadSequence m)));
        Ok (mkTeetCbc true (Some b) (Some readContext) cipherSuite (tc_ResponseBatchReceived t)
              (tc_CBCAuthenticatedResponse t) (tc_CBCResponseDigest t) (tc_CBCPlaintextRecordLengths t) (tc_CBCCloseNotify t)
              (tc_CBCRedactionSpecReceived t) (tc_CBCAuthenticatedRedactedResponse t) (tc_CBCResponseRedactionRanges t) (tc_TEEKFinished t))
    end in
  match accepted with
  | Ok t => (t, ack true, Ok ())
  | Err e => (received, ack false, Err e)
  | Panic => (received, ack false, Panic)
  end.

(** [authenticatedTLS12CBCBatch]; the fragments carry sequence number, type and plaintext. *)
Record AuthenticatedBatch := mkBatch {
  ab_readContext : TLS12CBCContext;
  ab_records : list TLSRecord;
  ab_fragments : list (Z * Z * bytes);
  ab_response : bytes;
  ab_plaintextLengths : list Z;
  ab_closeNotify : bool;
}.

(** One turn of the loop over the records. *)
Definition authenticate_record (result : AuthenticatedBatch) (record : option TLSRecord) : res AuthenticatedBatch :=
  match record with
  | None => Err "nil TLS 1.2 CBC response record"
  | Some record =>
      fail_if (ab_closeNotify result) "TLS record follows close_notify";;
      let seq := cc_readSeq (ab_readContext result) in
      let contentType := match tr_Header record with t :: _ => t | [] => 0 end in
      '(plaintext, ctx) ← match DecryptRecord (ab_readContext result) (tr_Header record) (tr_Payload record) with
                          | Err _ => Err "TLS 1.2 CBC response authentication failed" | r => r end;
      fail_if (negb (contentType =? RecordTypeApplicationData) && negb (contentType =? RecordTypeAlert)) "unsupported authenticated post-handshake TLS record type";;
      let records := ab_records result ++ [mkRecord (tr_Header record) (tr_Payload record) seq] in
      let fragments := ab_fragments result ++ [(seq, contentType, plaintext)] in
      if contentType =? RecordTypeApplicationData then
        Ok (mkBatch ctx records fragments (ab_response result ++ plaintext)
              (ab_plaintextLengths result ++ [Z.of_nat (length plaintext) mod 2 ^ 32]) (ab_closeNotify result))
      else
        match plaintext with
        | [level; description] =>
            fail_if (level =? 2) "fatal TLS 1.2 alert";;
            Ok (mkBatch ctx records fragments (ab_response result) (ab_plaintextLengths result)
                  (if description =? 0 then true else ab_closeNotify result))
        | _ => Err "invalid TLS 1.2 alert length"
        end
  end.

Fixpoint authenticate_loop (result : AuthenticatedBatch) (records : list (option TLSRecord)) : res AuthenticatedBatch :=
  match records with
  | [] => Ok result
  | r :: records => result ← authenticate_record result r; authenticate_loop result records
  end.

Definition authenticateTLS12CBCResponseBatch (readContext : TLS12CBCContext) (records : list (option TLSRecord)) : res AuthenticatedBatch :=
  fail_if (((length records =? 0) || (MaxEncryptedFragments <? length records))%nat) "invalid TLS 1.2 CBC response record count";;
  batchContext ← NewTLS12CBCReadContext (Some (ExportReadState readContext));
  result ← authenticate_loop (mkBatch batchContext [] [] [] [] false) records;
  fail_if ((length (ab_response result) =? 0)%nat) "TLS 1.2 CBC response contains no application data";;
  Ok result.

Definition batch_seen (t : TeetCbc) : TeetCbc :=
  mkTeetCbc (tc_CBCReadStateReceived t) (tc_CBCBinding t) (tc_CBCReadContext t) (tc_CipherSuite t) true
    (tc_CBCAuthenticatedResponse t) (tc_CBCResponseDigest t) (tc_CBCPlaintextRecordLengths t) (tc_CBCCloseNotify t)
    (tc_CBCRedactionSpecReceived t) (tc_CBCAuthenticatedRedactedResponse t) (tc_CBCResponseRedactionRanges t) (tc_TEEKFinished t).

(** The total length goes to TEE_K, the fragments go to the client; an error also ends the session. *)
Definition handleTLS12CBCResponseRecords (t : TeetCbc) (records : list (option TLSRecord)) : TeetCbc * res (Z * list (Z * Z * bytes)) :=
  match tc_CBCBinding t, tc_CBCReadContext t with
  | Some _, Some readContext =>
      if tc_ResponseBatchReceived t then (t, Err "multiple TLS 1.2 CBC response batches received") else
      let t := batch_seen t in
      match authenticateTLS12CBCResponseBatch readContext records with
      | Ok authenticated =>
          match TLS12CBCRecordDigest TLS12CBCResponseDigestDomain (map Some (ab_records authenticated)) with
          | Ok digest =>
              (mkTeetCbc (tc_CBCReadStateReceived t) (tc_CBCBinding t) (Some (ab_readContext authenticated)) (tc_CipherSuite t) true
                 (ab_response authenticated) digest (ab_plaintextLengths authenticated) (ab_closeNotify authenticated)
                 (tc_CBCRedactionSpecReceived t) (tc_CBCAuthenticatedRedactedResponse t) (tc_CBCResponseRedactionRanges t) (tc_TEEKFinished t),
               Ok (i32 (Z.of_nat (length (ab_response authenticated))), ab_fragments authenticated))
          | Err e => (t, Err e)
          | Panic => (t, Panic)
          end
      | Err e => (t, Err e)
      | Panic => (t, Panic)
      end
  | _, _ => (t, Err "TLS 1.2 CBC read state is unavailable")
  end.

(** ** Redaction of the response *)

Definition range_in (len : Z) (r : ResponseRedactionRange) : bool :=
  negb ((sr_Start r <? 0) || (sr_Length r <=? 0) || (len <? sr_Start r) || (len - sr_Start r <? sr_Length r)).

(** [nil] entries are refused wherever they are found. *)
Fixpoint check_spec (len : Z) (ranges : list (option ResponseRedactionRange)) : res (list ResponseRedactionRange) :=
  match ranges with
  | [] => Ok []
  | None :: _ => Err "nil TLS 1.2 CBC response redaction range"
  | Some r :: others =>
      fail_if (negb (range_in len r)) "TLS 1.2 CBC response redaction range is out of bounds";;
      fail_if (existsb (fun o => match o with None => true | Some o => rangesOverlapResponse r o end) others)
        "TLS 1.2 CBC response redaction range is nil or overlaps";;
      rest ← check_spec len others;
      Ok (r :: rest)
  end.

(** [rand.Read(redacted[start : start+length])]. *)
Fixpoint randomize (random : ResponseRedactionRange -> option bytes) (ranges : list ResponseRedactionRange) (response : bytes) : res bytes :=
  match ranges with
  | [] => Ok response
  | r :: ranges =>
      match random r with
      | None => Err "redact authenticated TLS 1.2 CBC response"
      | Some b => randomize random ranges (write_loop (pad_to (Z.to_nat (sr_Length r)) b) (Z.to_nat (sr_Start r)) response)
      end
  end.

Definition spec_seen (t : TeetCbc) : TeetCbc :=
  mkTeetCbc (tc_CBCReadStateReceived t) (tc_CBCBinding t) (tc_CBCReadContext t) (tc_CipherSuite t) (tc_ResponseBatchReceived t)
    (tc_CBCAuthenticatedResponse t) (tc_CBCResponseDigest t) (tc_CBCPlaintextRecordLengths t) (tc_CBCCloseNotify t)
    true (tc_CBCAuthenticatedRedactedResponse t) (tc_CBCResponseRedactionRanges t) (tc_TEEKFinished t).

Definition redact_response (response : bytes) (spec : list (option ResponseRedactionRange)) (random : ResponseRedactionRange -> option bytes)
    : res (list ResponseRedactionRange * bytes) :=
  fail_if ((MaxResponseRedactionRanges <? length spec)%nat) "too many TLS 1.2 CBC response redaction ranges";;
  ranges ← check_spec (Z.of_nat (length response)) spec;
  redacted ← randomize random ranges response;
  Ok (ranges, redacted).

Definition handleTLS12CBCResponseRedactionSpec (t : TeetCbc) (spec : list (option ResponseRedactionRange))
    (random : ResponseRedactionRange -> option bytes) : TeetCbc * res unit :=
  if bool_decide (tc_CBCBinding t = None) || (length (tc_CBCAuthenticatedResponse t) =? 0)%nat || negb (length (tc_CBCResponseDigest t) =? 32)%nat
  then (t, Err "TLS 1.2 CBC authenticated response is unavailable") else
  if tc_CBCRedactionSpecReceived t then (t, Err "multiple TLS 1.2 CBC response redaction specifications received") else
  let t := spec_seen t in
  match redact_response (tc_CBCAuthenticatedResponse t) spec random with
  | Ok (ranges, redacted) =>
      (mkTeetCbc (tc_CBCReadStateReceived t) (tc_CBCBinding t) (tc_CBCReadContext t) (tc_CipherSuite t) (tc_ResponseBatchReceived t)
         (tc_CBCAuthenticatedResponse t) (tc_CBCResponseDigest t) (tc_CBCPlaintextRecordLengths t) (tc_CBCCloseNotify t)
         true redacted ranges true, Ok ())
  | Err e => (t, Err e)
  | Panic => (t, Panic)
  end.
End Session.

(** ** The server's side *)

Section Session_facts.
Context {BC : BlockCipher} {BD : BlockDecipher} {HS : Hashes} {SH : Sha256}.

(** A message of the server: its content type, the explicit IV of its record and its plaintext. *)
Definition message : Type := Z * bytes * bytes.

Fixpoint writes (w : TLS12CBCContext) (ms : list message) : res (list bytes * TLS12CBCContext) :=
  match ms with
  | [] => Ok ([], w)
  | (contentType, iv, plaintext) :: ms =>
      '(record, w) ← EncryptRecord w (Some iv) contentType plaintext;
      '(records, w) ← writes w ms;
      Ok (record :: records, w)
  end.

(** Application data and warnings; close_notify comes last. *)
Inductive messages_ok : list message -> Prop :=
  | messages_nil : messages_ok []
  | messages_data iv P ms : length iv = 16%nat -> is_bytes iv -> is_bytes P -> Z.of_nat (length P) <= tls12MaxPlaintext -> messages_ok ms ->
      messages_ok ((RecordTypeApplicationData, iv, P) :: ms)
  | messages_alert iv level description ms : length iv = 16%nat -> is_bytes iv -> is_byte level -> is_byte description -> level <> 2 ->
      (description = 0 -> ms = []) -> messages_ok ms -> messages_ok ((RecordTypeAlert, iv, [level; description]) :: ms).

Definition response_of (ms : list message) : bytes :=
  concat (map (fun m => if m.1.1 =? RecordTypeApplicationData then m.2 else []) ms).

(** What the client sends for a record it captured; its own numbering is its own. *)
Definition carries (wire : bytes) (r : TLSRecord) : Prop := tr_Header r = take 5 wire /\ tr_Payload r = drop 5 wire.

Lemma decrypt_shape ctx header payload P ctx' : DecryptRecord ctx header payload = Ok (P, ctx') ->
  validTLS12CBCHeader header payload = true /\ length header = 5%nat /\ be_get (slice header 3 5) = Z.of_nat (length payload).
Proof.
  unfold DecryptRecord. intros E. inv_guard E. inv_guard E. apply negb_false_iff in Hguard0. split; [done|]. clear E. revert Hguard0. unfold validTLS12CBCHeader.
  destruct (_ || _) eqn:E1; [done|]. apply orb_false_iff in E1 as [E1 _]. apply negb_false_iff, Nat.eqb_eq in E1. destruct (negb _); [done|]. intros E2%Z.eqb_eq. done.
Qed.

(** Every record is kept with its bytes, under the number TEE_T gave it. *)
Lemma authenticate_record_records result record result' : authenticate_record result record = Ok result' ->
  exists r P, record = Some r /\ ab_closeNotify result = false
    /\ DecryptRecord (ab_readContext result) (tr_Header r) (tr_Payload r) = Ok (P, ab_readContext result')
    /\ (hd 0 (tr_Header r) = RecordTypeApplicationData \/ hd 0 (tr_Header r) = RecordTypeAlert)
    /\ ab_records result' = ab_records result ++ [mkRecord (tr_Header r) (tr_Payload r) (cc_readSeq (ab_readContext result))]
    /\ ab_fragments result' = ab_fragments result ++ [(cc_readSeq (ab_readContext result), hd 0 (tr_Header r), P)]
    /\ ab_response result' = ab_response result ++ (if hd 0 (tr_Header r) =? RecordTypeApplicationData then P else []).
Proof.
  intros E. destruct record as [r|]; [|done]. cbn [authenticate_record] in E. inv_guard E. inv_bind E. destruct a as [P ctx].
  assert (ED : DecryptRecord (ab_readContext result) (tr_Header r) (tr_Payload r) = Ok (P, ctx)) by (by destruct (DecryptRecord _ _ _)).
  change (match tr_Header r with [] => 0 | t :: _ => t end) with (hd 0 (tr_Header r)) in E. exists r, P. split; [done|]. split; [done|].
  inv_guard E. destruct (Z.eqb_spec (hd 0 (tr_Header r)) RecordTypeApplicationData) as [Et|Et].
  - injection E as <-. cbn. rewrite Et. tauto.
  - destruct P as [|l [|d [|? ?]]]; [done..| |done]. inv_guard E. injection E as <-. cbn.
    destruct (Z.eqb_spec (hd 0 (tr_Header r)) RecordTypeAlert) as [Ea|Ea]; [|done]. rewrite app_nil_r. tauto.
Qed.

Lemma loop_shapes records : forall result result', authenticate_loop result records = Ok result' ->
  Forall (fun r => record_shape r = true) (ab_records result) -> Forall (fun r => record_shape r = true) (ab_records result').
Proof.
  induction records as [|r records IH]; intros result result' E F; cbn [authenticate_loop] in E; [by injection E as <-|].
  inv_bind E. eapply IH; [exact E|]. destruct (authenticate_record_records _ _ _ E0) as (r0 & P & -> & _ & ED & _ & -> & _).
  apply Forall_app. split; [done|]. constructor; [|constructor]. destruct (decrypt_shape _ _ _ _ _ ED) as (_ & L & S). unfold record_shape. cbn.
  rewrite L, S, Z.eqb_refl. done.
Qed.

(** The digest of what was authenticated always exists. *)
Lemma digest_exists records : Forall (fun r => record_shape r = true) records ->
  exists d, TLS12CBCRecordDigest TLS12CBCResponseDigestDomain (map Some records) = Ok d /\ length d = 32%nat.
Proof.
  intros F. unfold TLS12CBCRecordDigest. rewrite bytes_eqb_refl, andb_false_r.
  assert (existsb (fun r => match r with None => true | Some r => negb (record_shape r) end) (map Some records) = false) as ->.
  { induction F as [|r records Hr F IH]; [done|]. cbn. by rewrite Hr, IH. }
  eexists. split; [done|]. apply sha256_length.
Qed.

(** ** What the services deliver *)

(** A read context survives being exported and imported. *)
Lemma reimport s ctx : NewTLS12CBCReadContext (Some s) = Ok ctx -> NewTLS12CBCReadContext (Some (ExportReadState ctx)) = Ok ctx.
Proof. cbn [NewTLS12CBCReadContext]. intros E. inv_bind E. injection E as <-. cbn in *. by rewrite E0. Qed.

(** TEE_K's context and the one TEE_T makes of its export read alike. *)
Lemma import_paired w ctx info : paired w ctx info ->
  exists r, NewTLS12CBCReadContext (Some (ExportReadState ctx)) = Ok r /\ paired w r info.
Proof.
  intros [[E C M K Mk Iv] Hk Hm Hs Hmd Hq]. cbn [NewTLS12CBCReadContext ExportReadState].
  set (r := mkCbc _ _ _ _ _ _ _ _ _ _). assert (R : read_ok r info) by by split.
  rewrite (proj2 (validateRead_ok r)) by eauto. exists r. split; [done|]. by split.
Qed.

(** The fragments of the messages, numbered from [seq]. *)
Fixpoint numbered (seq : Z) (ms : list message) : list (Z * Z * bytes) :=
  match ms with
  | [] => []
  | (contentType, _, P) :: ms => (seq, contentType, P) :: numbered (seq + 1) ms
  end.

(** The header of a record starts with its type. *)
Lemma record_type w random contentType P record w' : EncryptRecord w random contentType P = Ok (record, w') -> hd 0 (take 5 record) = contentType.
Proof.
  unfold EncryptRecord. intros E. do 3 inv_guard E. inv_bind E. destruct random as [iv|]; [|done]. do 3 inv_bind E. inv_guard E. by injection E as <- <-.
Qed.

(** One message of the server through both ends. *)
Lemma message_authenticated w result info contentType iv P :
  paired w (ab_readContext result) info -> 0 <= cc_writeSeq w < MaxUint64 -> length iv = 16%nat -> is_bytes iv -> is_bytes P ->
  Z.of_nat (length P) <= tls12MaxPlaintext -> ab_closeNotify result = false ->
  (contentType = RecordTypeApplicationData \/ contentType = RecordTypeAlert /\ exists level description, P = [level; description] /\ level <> 2) ->
  exists record w', EncryptRecord w (Some iv) contentType P = Ok (record, w') /\ cc_writeSeq w' = cc_writeSeq w + 1
    /\ forall r, carries record r -> exists result', authenticate_record result (Some r) = Ok result' /\ paired w' (ab_readContext result') info
      /\ ab_fragments result' = ab_fragments result ++ [(cc_writeSeq w, contentType, P)]
      /\ ab_response result' = ab_response result ++ (if contentType =? RecordTypeApplicationData then P else [])
      /\ ab_closeNotify result' = (contentType =? RecordTypeAlert) && bool_decide (P !! 1%nat = Some 0).
Proof.
  intros HP Hq Li Bi BP LP Hc Ht. destruct (record_exchange w _ info iv contentType P HP Hq Li Bi BP LP) as (record & w' & r' & EE & ED & HP' & Hq' & _).
  exists record, w'. split; [done|]. split; [done|]. intros r [Hh Hp]. unfold authenticate_record. rewrite Hc, Hh, Hp, ED. cbn [mbind res_bind].
  change (match take 5 record with [] => 0 | t :: _ => t end) with (hd 0 (take 5 record)). rewrite (record_type _ _ _ _ _ _ EE).
  pose proof (pr_seq _ _ _ HP) as Hs. rewrite <- Hs. destruct Ht as [-> | (-> & level & description & -> & Hl)].
  - eexists. split; [reflexivity|]. by cbn.
  - cbn. rewrite (proj2 (Z.eqb_neq _ _) Hl). eexists. split; [reflexivity|]. cbn. rewrite app_nil_r. split; [done|]. split; [done|]. split; [done|].
    destruct (Z.eqb_spec description 0) as [-> |Hd]; [done|]. symmetry. apply bool_decide_eq_false_2. congruence.
Qed.

(** The messages pass, whatever came before them. *)
Definition authenticated (info : CipherSuiteInfo) (ms : list message) : Prop := forall w result, paired w (ab_readContext result) info ->
  0 <= cc_writeSeq w -> cc_writeSeq w + Z.of_nat (length ms) < MaxUint64 -> (ms <> [] -> ab_closeNotify result = false) ->
  exists wires w', writes w ms = Ok (wires, w') /\ length wires = length ms
    /\ forall rs, Forall2 carries wires rs -> exists result', authenticate_loop result (map Some rs) = Ok result'
      /\ ab_fragments result' = ab_fragments result ++ numbered (cc_writeSeq w) ms
      /\ ab_response result' = ab_response result ++ response_of ms.

Lemma authenticated_cons info contentType iv P ms : authenticated info ms ->
  length iv = 16%nat -> is_bytes iv -> is_bytes P -> Z.of_nat (length P) <= tls12MaxPlaintext ->
  (contentType = RecordTypeApplicationData \/ contentType = RecordTypeAlert /\ exists level description, P = [level; description] /\ level <> 2) ->
  (ms <> [] -> (contentType =? RecordTypeAlert) && bool_decide (P !! 1%nat = Some 0) = false) -> authenticated info ((contentType, iv, P) :: ms).
Proof.
  intros IH Li Bi BP LP Ht Hlast w result HP H0 Hq Hc. cbn [length] in Hq.
  destruct (message_authenticated w result info contentType iv P HP ltac:(lia) Li Bi BP LP (Hc ltac:(done)) Ht) as (record & w1 & EE & Hq1 & HR).
  destruct (HR (mkRecord (take 5 record) (drop 5 record) 0) ltac:(by split)) as (result0 & _ & HP1 & _ & _ & Hc0).
  destruct (IH w1 result0 HP1 ltac:(lia) ltac:(lia)) as (wires & w2 & EW & Lw & _); [by rewrite Hc0|].
  exists (record :: wires), w2. cbn [writes]. rewrite EE. cbn [mbind res_bind]. rewrite EW. split; [done|]. split; [cbn; by rewrite Lw|].
  intros [|r rs] F; [by apply Forall2_cons_nil_inv in F|]. apply Forall2_cons in F as [Hr F].
  destruct (HR r Hr) as (result1 & EA & HP2 & Hf & Hre & Hc1).
  destruct (IH w1 result1 HP2 ltac:(lia) ltac:(lia)) as (wires' & w2' & EW' & _ & HL); [by rewrite Hc1|].
  rewrite EW in EW'. injection EW' as <- <-. destruct (HL rs F) as (result' & EL & Hf' & Hr').
  exists result'. cbn [map authenticate_loop]. rewrite EA. cbn [mbind res_bind]. split; [done|]. rewrite Hf', Hf, Hr', Hre, Hq1, <- !app_assoc. done.
Qed.

Lemma messages_authenticated info ms : messages_ok ms -> authenticated info ms.
Proof.
  induction 1 as [|iv P ms Li Bi BP LP Hms IH|iv level description ms Li Bi Bl Bd Hl Hlast Hms IH].
  - intros w result HP H0 Hq Hc. exists [], w. split; [done|]. split; [done|]. intros rs F. apply Forall2_nil_inv_l in F as ->. exists result. cbn. rewrite !app_nil_r. done.
  - apply authenticated_cons; auto.
  - apply authenticated_cons; auto; [by vm_compute|right; eauto|].
    intros Hne. cbn. apply bool_decide_eq_false_2. intros [= ->]. auto.
Qed.

(** The batch of a paired server. *)
Lemma batch_authenticated w r info s ms : NewTLS12CBCReadContext (Some s) = Ok r -> paired w r info -> messages_ok ms -> response_of ms <> [] ->
  (length ms <= MaxEncryptedFragments)%nat -> 0 <= cc_writeSeq w -> cc_writeSeq w + Z.of_nat (length ms) < MaxUint64 ->
  exists wires w', writes w ms = Ok (wires, w')
    /\ forall rs, Forall2 carries wires rs -> exists result, authenticateTLS12CBCResponseBatch r (map Some rs) = Ok result
      /\ ab_fragments result = numbered (cc_writeSeq w) ms /\ ab_response result = response_of ms.
Proof.
  intros EN HP Hms Hr Hn H0 Hq. destruct (messages_authenticated info ms Hms w (mkBatch r [] [] [] [] false) HP H0 Hq ltac:(done)) as (wires & w' & EW & Lw & HL).
  exists wires, w'. split; [done|]. intros rs F. destruct (HL rs F) as (result & EL & Hf & Hre). exists result. cbn in Hf, Hre.
  split; [|done]. unfold authenticateTLS12CBCResponseBatch. rewrite length_map, <- (Forall2_length _ _ _ F), Lw.
  assert (length ms <> 0)%nat by (by destruct ms). rewrite (proj2 (Nat.eqb_neq _ _)), (proj2 (Nat.ltb_ge _ _)) by done. cbn [orb].
  rewrite (reimport _ _ EN). cbn [mbind res_bind]. rewrite EL. cbn [mbind res_bind]. rewrite Hre.
  rewrite (proj2 (Nat.eqb_neq _ _)) by (by destruct (response_of ms)). done.
Qed.

Lemma batch_digest r rs result : authenticateTLS12CBCResponseBatch r rs = Ok result ->
  exists d, TLS12CBCRecordDigest TLS12CBCResponseDigestDomain (map Some (ab_records result)) = Ok d /\ length d = 32%nat.
Proof.
  unfold authenticateTLS12CBCResponseBatch. intros E. inv_guard E. do 2 inv_bind E. inv_guard E. injection E as <-.
  apply digest_exists, (loop_shapes _ _ _ E1). constructor.
Qed.

(** The suites have 16-bit numbers. *)
Lemma suite_number ctx info : read_ok ctx info -> cc_cipherSuite ctx mod 2 ^ 16 = cc_cipherSuite ctx /\ IsTLS12CBCCipherSuite (cc_cipherSuite ctx) = true.
Proof.
  intros [E C _ _ _ _]. pose proof (suite_cases (fun s => match GetCipherSuiteInfo s with
    | Some info => negb (ci_IsCBC info) || (s mod 2 ^ 16 =? s) && IsTLS12CBCCipherSuite s | None => false end)
    ltac:(vm_compute; reflexivity) (cc_cipherSuite ctx) ltac:(by eexists)) as H. cbn beta in H. rewrite E, C in H.
  apply andb_true_iff in H as [H1%Z.eqb_eq H2]. done.
Qed.

(** The hand-over ends with TEE_K released and TEE_T at TEE_K's read position. *)
Lemma hand_over w ctx info ems b : paired w ctx info -> cc_readSeq ctx = 1 ->
  exists k1 m t r, handOffTLS12CBCReadState (mkTeekCbc None false false) (Some ctx) ems (Some b) = Ok (k1, m)
    /\ handleTLS12CBCReadState new_cbc m = (t, mkAck true (pad_to 32 b), Ok ())
    /\ (exists k2, handleTLS12CBCReadStateAck k1 (mkAck true (pad_to 32 b)) = Ok (k2, Ok ()) /\ kc_CBCReadStateAcked k2 = true)
    /\ tc_CBCReadContext t = Some r /\ paired w r info /\ NewTLS12CBCReadContext (Some (ExportReadState ctx)) = Ok r
    /\ tc_CBCBinding t = kc_CBCBinding k1 /\ is_Some (tc_CBCBinding t) /\ tc_ResponseBatchReceived t = false.
Proof.
  intros HP Hq. destruct (import_paired w ctx info HP) as (r & EN & HPr). pose proof (pr_read _ _ _ HP) as R.
  destruct (suite_number ctx info R) as [Hs Hcbc]. unfold handOffTLS12CBCReadState. cbn [rs_ReadSequence rs_Mode rs_CipherSuite ExportReadState]. rewrite Hq.
  cbn [Z.eqb negb Pos.eqb]. assert (exists mode, tls12CBCModeToProto (cc_mode ctx) = Ok mode /\ tls12CBCModeFromProto mode = Ok (cc_mode ctx)) as (mode & EM & EF).
  { destruct R as [_ _ M _ _ _]. destruct (cc_mode ctx); [done|by exists 1|by exists 2]. }
  rewrite EM. cbn [mbind res_bind]. do 4 eexists. split; [reflexivity|]. unfold handleTLS12CBCReadState. cbn -[pad_to NewTLS12CBCReadContext IsTLS12CBCCipherSuite].
  assert (L : length (pad_to 32 b) = 32%nat) by (unfold pad_to, zeros; rewrite length_app, length_take, length_replicate; lia).
  rewrite L. cbn [Nat.eqb negb orb]. rewrite Hs, Hcbc. cbn [negb]. rewrite EF. cbn [mbind res_bind].
  replace (mkReadState _ _ _ _ _ _) with (ExportReadState ctx) by (unfold ExportReadState; by rewrite Hq). rewrite EN. cbn [mbind res_bind].
  split; [reflexivity|]. cbn -[pad_to]. split.
  - eexists. rewrite bytes_eqb_refl. by cbn.
  - split; [done|]. split; [done|]. split; [done|]. split; [done|]. split; [by eexists|done].
Qed.

(** C12: A CBC session ends with TEE_T holding the server's response.  Let TEE_K's context be paired with the server after
    the handshake, where one record of each side has been protected.  The hand-over of the read state, with whatever
    random binding, is accepted by TEE_T, whose acknowledgment releases TEE_K.  The server then writes at most 500 messages
    ([messages_ok]: application data and non-fatal alerts, a close_notify only as the last of them) with some application
    data among them.  Their records, sent by the client under whatever numbers, are authenticated: the text is the concatenation of the application data, its length
    goes to TEE_K and the client gets every message under the number of its record. *)
Theorem cbc_session_delivers_response w ctx info ems b ms :
  paired w ctx info -> cc_readSeq ctx = 1 -> messages_ok ms -> response_of ms <> [] -> (length ms <= MaxEncryptedFragments)%nat ->
  exists k1 m t ack k2, handOffTLS12CBCReadState (mkTeekCbc None false false) (Some ctx) ems (Some b) = Ok (k1, m)
    /\ handleTLS12CBCReadState new_cbc m = (t, ack, Ok ())
    /\ handleTLS12CBCReadStateAck k1 ack = Ok (k2, Ok ())
    /\ exists wires w', writes w ms = Ok (wires, w')
    /\ forall rs, Forall2 carries wires rs -> exists t', 
         handleTLS12CBCResponseRecords t (map Some rs) = (t', Ok (i32 (Z.of_nat (length (response_of ms))), numbered 1 ms))
         /\ tc_CBCAuthenticatedResponse t' = response_of ms /\ length (tc_CBCResponseDigest t') = 32%nat /\ tc_CBCBinding t' = kc_CBCBinding k2.
Proof.
  intros HP Hq Hms Hr Hn. destruct (hand_over w ctx info ems b HP Hq) as (k1 & m & t & r & E1 & E2 & (k2 & E3 & _) & Hc & HPr & EN & Hb & [bind Hbind] & Hrb).
  exists k1, m, t, (mkAck true (pad_to 32 b)), k2. split; [done|]. split; [done|]. split; [done|].
  assert (Hw : cc_writeSeq w = 1) by (by rewrite (pr_seq _ _ _ HP)). unfold MaxEncryptedFragments in Hn.
  destruct (batch_authenticated w r info _ ms EN HPr Hms Hr Hn ltac:(lia) ltac:(unfold MaxUint64; lia)) as (wires & w' & EW & HL).
  exists wires, w'. split; [done|]. intros rs F. destruct (HL rs F) as (result & EA & Hf & Hre). destruct (batch_digest _ _ _ EA) as (d & ED & Ld).
  unfold handleTLS12CBCResponseRecords. rewrite Hbind, Hc, Hrb, EA, ED.
  eexists. rewrite Hf, Hre, Hw. split; [reflexivity|]. cbn. split; [done|]. split; [done|].
  rewrite Hb. clear -E3. unfold handleTLS12CBCReadStateAck in E3. destruct (kc_CBCBinding k1) as [bind'|]; [|done]. do 2 inv_guard E3. injection E3 as <- _. done.
Qed.

(** ** What an accepted response is *)

(** The records open one after the other from the context's position, with the fragments they are given. *)
Inductive opens_all (info : CipherSuiteInfo) : TLS12CBCContext -> list (option TLSRecord) -> list (Z * Z * bytes) -> Prop :=
  | opens_all_nil ctx : opens_all info ctx [] []
  | opens_all_cons ctx r rs contentType P frs :
      tr_Header r !! 0%nat = Some contentType -> opens ctx info contentType (tr_Payload r) P -> opens_all info (bump_read ctx) rs frs ->
      opens_all info ctx (Some r :: rs) ((cc_readSeq ctx, contentType, P) :: frs).

Definition data_of (frs : list (Z * Z * bytes)) : bytes :=
  concat (map (fun f => if f.1.2 =? RecordTypeApplicationData then f.2 else []) frs).

Definition bytes_record (r : option TLSRecord) : Prop := match r with Some r => is_bytes (tr_Payload r) | None => True end.

Lemma bump_read_ok ctx info : read_ok ctx info -> read_ok (bump_read ctx) info.
Proof. intros []. by split. Qed.

Lemma loop_opens info records : Forall bytes_record records -> forall result result',
  authenticate_loop result records = Ok result' -> read_ok (ab_readContext result) info ->
  0 <= cc_readSeq (ab_readContext result) -> cc_readSeq (ab_readContext result) + Z.of_nat (length records) < MaxUint64 ->
  exists frs, opens_all info (ab_readContext result) records frs /\ ab_fragments result' = ab_fragments result ++ frs
    /\ ab_response result' = ab_response result ++ data_of frs.
Proof.
  induction 1 as [|r records Br F IH]; intros result result' E R H0 Hq; cbn [authenticate_loop] in E.
  { injection E as <-. exists []. rewrite !app_nil_r. split; [constructor|done]. }
  inv_bind E. destruct (authenticate_record_records _ _ _ E0) as (r0 & P & -> & _ & ED & _ & _ & Hf & Hr). cbn [length] in Hq.
  destruct (decrypt_shape _ _ _ _ _ ED) as (Hh & Lh & _). destruct (tr_Header r0) as [|ct h] eqn:Eh; [done|]. cbn [hd] in *.
  destruct (decrypt_sound _ info ct (ct :: h) (tr_Payload r0) R ltac:(lia) ltac:(done) Hh Br) as [B|(P' & EP & O)]; [by rewrite ED in B|].
  rewrite ED in EP. injection EP as <- Ec.
  destruct (IH a result' E) as (frs & OA & Hf' & Hr'); rewrite ?Ec.
  { by apply bump_read_ok. } { cbn. apply u64_range. }
  { cbn. unfold add64. rewrite u64_id; unfold is_u64, MaxUint64 in *; lia. }
  exists ((cc_readSeq (ab_readContext result), ct, P) :: frs). split; [constructor; [by rewrite Eh|done|by rewrite <- Ec]|].
  rewrite Hf', Hr', Hf, Hr, <- !app_assoc. split; [done|]. by unfold data_of.
Qed.

Lemma check_spec_ok len spec : forall ranges, check_spec len spec = Ok ranges ->
  spec = map Some ranges /\ Forall (fun r => 0 <= sr_Start r /\ 0 < sr_Length r /\ sr_Start r + sr_Length r <= len) ranges.
Proof.
  induction spec as [|[r|] spec IH]; intros ranges E; cbn [check_spec] in E; [by injection E as <-| |done].
  do 2 inv_guard E. inv_bind E. injection E as <-. destruct (IH a E0) as [-> F]. split; [done|]. constructor; [|done].
  apply negb_false_iff in Hguard. unfold range_in in Hguard. apply negb_true_iff in Hguard.
  apply orb_false_iff in Hguard as [[[H1 H2]%orb_false_iff H3]%orb_false_iff H4]. apply Z.ltb_ge in H1, H3, H4. apply Z.leb_gt in H2. lia.
Qed.

(** Only the ranges are overwritten. *)
Lemma randomize_outside random ranges : forall response redacted, randomize random ranges response = Ok redacted ->
  length redacted = length response
  /\ forall q, (q < length response)%nat ->
       Forall (fun r => 0 <= sr_Start r /\ ~ (sr_Start r <= Z.of_nat q < sr_Start r + sr_Length r)) ranges -> redacted !! q = response !! q.
Proof.
  induction ranges as [|r ranges IH]; intros response redacted E; cbn [randomize] in E; [by injection E as <-|].
  destruct (random r) as [b|]; [|done]. destruct (IH _ _ E) as [L H]. rewrite length_write_loop in L, H. split; [done|].
  intros q Hq [[H0 Hr] F]%Forall_cons. rewrite (H q Hq F), write_loop_lookup by done.
  assert (Lp : length (pad_to (Z.to_nat (sr_Length r)) b) = Z.to_nat (sr_Length r)) by (unfold pad_to, zeros; rewrite length_app, length_take, length_replicate; lia).
  rewrite Lp. destruct (Nat.leb_spec (Z.to_nat (sr_Start r)) q), (Nat.ltb_spec q (Z.to_nat (sr_Start r) + Z.to_nat (sr_Length r))); cbn [andb]; (done || lia).
Qed.

(** C10: What TEE_T keeps of a CBC session was authenticated.  Whatever records a client sends, if TEE_T accepts the batch
    and then a redaction specification, then the records open under the read keys TEE_K handed over, one after the other
    from the first position after the handshake, none left out and none repeated, whatever numbers the client gave; the
    response is the application data in them; and the copy kept for the transcript has its length and equals it at every
    position outside the specified ranges, which lie inside it. *)
Theorem cbc_transcript_is_authenticated t s ctx info records t' total frs spec random t'' :
  tc_CBCReadContext t = Some ctx -> NewTLS12CBCReadContext (Some s) = Ok ctx -> rs_ReadSequence s = 1 ->
  GetCipherSuiteInfo (rs_CipherSuite s) = Some info -> Forall bytes_record records ->
  handleTLS12CBCResponseRecords t records = (t', Ok (total, frs)) ->
  handleTLS12CBCResponseRedactionSpec t' spec random = (t'', Ok ()) ->
  opens_all info ctx records frs /\ tc_CBCAuthenticatedResponse t'' = data_of frs /\ total = i32 (Z.of_nat (length (data_of frs)))
  /\ Forall (fun r => 0 <= sr_Start r /\ sr_Start r + sr_Length r <= Z.of_nat (length (data_of frs))) (tc_CBCResponseRedactionRanges t'')
  /\ length (tc_CBCAuthenticatedRedactedResponse t'') = length (data_of frs)
  /\ forall q, (q < length (data_of frs))%nat ->
       Forall (fun r => ~ (sr_Start r <= Z.of_nat q < sr_Start r + sr_Length r)) (tc_CBCResponseRedactionRanges t'') ->
       tc_CBCAuthenticatedRedactedResponse t'' !! q = data_of frs !! q.
Proof.
  intros Hc EN Hq Hi Bs E ES. unfold handleTLS12CBCResponseRecords in E. rewrite Hc in E. destruct (tc_CBCBinding t); [|done].
  destruct (tc_ResponseBatchReceived t); [done|]. destruct (authenticateTLS12CBCResponseBatch ctx records) as [result| |] eqn:EA; [|done..].
  destruct (TLS12CBCRecordDigest _ _) as [digest| |]; [|done..]. injection E as <- <- <-. unfold authenticateTLS12CBCResponseBatch in EA.
  inv_guard EA. rewrite (reimport _ _ EN) in EA. cbn [mbind res_bind] in EA. inv_bind EA. inv_guard EA. injection EA as ->.
  match goal with E : authenticate_loop _ _ = Ok _ |- _ => rename E into EL end. apply orb_false_iff in Hguard as [_ Hn%Nat.ltb_ge]. unfold MaxEncryptedFragments in Hn.
  assert (read_ok ctx info /\ cc_readSeq ctx = 1) as [R Hs].
  { cbn [NewTLS12CBCReadContext] in EN. inv_bind EN. injection EN as <-. split; [|done]. match goal with E : validateRead _ = Ok ?a |- _ => destruct a; apply validateRead_ok in E as [info' R] end.
    pose proof (ro_info _ _ R). cbn in *. by simplify_eq. }
  destruct (loop_opens info records Bs _ _ EL R) as (frs & OA & Hf & Hr); [cbn; lia|cbn; unfold MaxUint64; lia|]. cbn in OA, Hf, Hr. rewrite Hf, Hr.
  split; [done|]. unfold handleTLS12CBCResponseRedactionSpec in ES. destruct (_ || _); [done|]. destruct (tc_CBCRedactionSpecReceived _); [done|].
  destruct (redact_response _ _ _) as [[ranges redacted]| |] eqn:ER; [|done..]. injection ES as <-. unfold redact_response in ER. inv_guard ER. do 2 inv_bind ER. injection ER as -> ->. cbn in *. rewrite Hr in *.
  match goal with E : check_spec _ _ = Ok _, E2 : randomize _ _ _ = Ok _ |- _ => destruct (check_spec_ok _ _ _ E) as [_ F]; destruct (randomize_outside _ _ _ _ E2) as [L H] end.
  split; [done|]. split; [done|].
  split; [eapply Forall_impl; [exact F|cbn; lia]|]. split; [done|]. intros q Hq' N. apply H; [done|].
  apply Forall_forall. intros r Hin. rewrite Forall_forall in F, N. split; [by apply F|by apply N].
Qed.
End Session_facts.

(** ** Concrete runs *)

Definition demo_messages : list message := [(RecordTypeApplicationData, zeros 16, [72; 105]); (RecordTypeAlert, zeros 16, [1; 0])].

Lemma cbc_session_delivers_response_witness :
  let ctx := demo_cbc TLS12CBCRecordModeMACThenEncrypt in
  exists k1 m t ack k2, handOffTLS12CBCReadState (mkTeekCbc None false false) (Some ctx) true (Some (zeros 32)) = Ok (k1, m)
    /\ handleTLS12CBCReadState new_cbc m = (t, ack, Ok ())
    /\ handleTLS12CBCReadStateAck k1 ack = Ok (k2, Ok ())
    /\ exists wires w', @writes id_cipher const_hashes ctx demo_messages = Ok (wires, w')
    /\ forall rs, Forall2 carries wires rs -> exists t',
         @handleTLS12CBCResponseRecords id_cipher id_decipher const_hashes const_sha t (map Some rs) = (t', Ok (i32 (Z.of_nat (length (response_of demo_messages))), numbered 1 demo_messages))
         /\ tc_CBCAuthenticatedResponse t' = response_of demo_messages /\ length (tc_CBCResponseDigest t') = 32%nat /\ tc_CBCBinding t' = kc_CBCBinding k2.
Proof.
  apply (@cbc_session_delivers_response id_cipher id_decipher const_hashes const_sha _ _ demo_cbc_info);
    [split; [by apply demo_cbc_ok|done..]|done| |done|cbn; unfold MaxEncryptedFragments; lia].
  repeat constructor; (by apply zeros_bytes) || (unfold is_byte; lia) || done.
Defined.

Definition demo_read_state : TLS12CBCReadState :=
  mkReadState TLS_RSA_WITH_AES_128_CBC_SHA TLS12CBCRecordModeEncryptThenMAC (zeros 16) (zeros 20) (zeros 16) 1.

Definition demo_cbc_read : TLS12CBCContext :=
  mkCbc [] [] [] (zeros 16) (zeros 20) (zeros 16) 0 1 TLS_RSA_WITH_AES_128_CBC_SHA TLS12CBCRecordModeEncryptThenMAC.

Definition demo_teet : TeetCbc :=
  mkTeetCbc true (Some (mkBinding 1 TLS_RSA_WITH_AES_128_CBC_SHA 2 true (zeros 32))) (Some demo_cbc_read) TLS_RSA_WITH_AES_128_CBC_SHA
    false [] [] [] false false [] [] false.

Definition demo_records : list (option TLSRecord) := [Some (mkRecord [23; 3; 3; 0; 52] (zeros 16 ++ [72; 105] ++ replicate 14 13 ++ zeros 20) 9)].

Definition demo_accepted : TeetCbc * Z * list (Z * Z * bytes) :=
  match @handleTLS12CBCResponseRecords id_cipher id_decipher const_hashes const_sha demo_teet demo_records with (t, Ok (n, frs)) => (t, n, frs) | (t, _) => (t, 0, []) end.

Definition demo_redacted : TeetCbc :=
  (handleTLS12CBCResponseRedactionSpec demo_accepted.1.1 [Some (mkResponseRange 0 1)] (fun _ => Some [42])).1.

Lemma cbc_transcript_is_authenticated_witness :
  tc_CBCAuthenticatedRedactedResponse demo_redacted = [42; 105]
  /\ @opens_all id_cipher id_decipher const_hashes demo_cbc_info demo_cbc_read demo_records demo_accepted.2
  /\ tc_CBCAuthenticatedResponse demo_redacted = data_of demo_accepted.2.
Proof.
  split; [by vm_compute|].
  destruct (@cbc_transcript_is_authenticated id_cipher id_decipher const_hashes const_sha demo_teet demo_read_state demo_cbc_read demo_cbc_info demo_records
      demo_accepted.1.1 demo_accepted.1.2 demo_accepted.2 [Some (mkResponseRange 0 1)] (fun _ => Some [42]) demo_redacted)
    as (O & D & _); [reflexivity..| | | |exact (conj O D)].
  - constructor; [|constructor]. cbn [bytes_record tr_Payload demo_records].
    repeat apply Forall_app_2; [apply zeros_bytes|repeat (constructor; [unfold is_byte; lia|]); constructor|by apply Forall_replicate|apply zeros_bytes].
  - vm_compute; reflexivity.
  - vm_compute; reflexivity.
Defined.
