(* ===== verification/Circuit.v ===== *)
(** * The garbled circuit ([mpc/circuit.go], [mpc/fixed_aes.go])

    Half-gates garbling and evaluation with free XOR over a compiled Boolean
    circuit.  The circuit itself comes from a third-party compiler, so it is an
    argument ([markCircuit]); the engine built from it, the garbling loop, the
    evaluation loop, the hash and the scratch pool follow the source.

    The main result, [garble_evaluate], is a simulation: evaluating the garbled
    tables on one label per input wire yields, on every wire, the label of the
    bit that the plain Boolean circuit computes there. *)

From S2P Require Import Prelude Bytes Label Crypto.

Definition InputBits : nat := 640.
Definition OutputBits : nat := 128.

(** ** The compiled circuit, as the third-party compiler hands it over *)

Inductive markOp := MarkXOR | MarkXNOR | MarkAND | MarkINV | MarkOther.

Record markGate := mkMarkGate { Input0 : Z; Input1 : Z; Output : Z; Op : markOp }.

Record markCircuit := mkMarkCircuit {
  NumParties : Z;
  InputsSize : Z;
  OutputsSize : Z;
  NumWires : Z;
  Gates : list markGate;
}.

(** ** The execution plan *)

Inductive operation := opXOR | opXNOR | opAND | opINV.

Record gate := mkGate { in0 : Z; in1 : Z; out : Z; table : Z; op : operation }.

Record engine := mkEngine { gates : list gate; numWires : Z; tableCount : Z }.

(** The loop of [newEngine]: translates the gates in order and numbers the
    table rows (two for an AND, one for an INV). *)
Fixpoint newEngine_gates (src : list markGate) (tc : Z) : res (list gate * Z) :=
  match src with
  | [] => Ok ([], tc)
  | g :: rest =>
      let dst o t := mkGate (u32 (Input0 g)) (u32 (Input1 g)) (u32 (Output g)) t o in
      '(d, tc') ← (match Op g with
                   | MarkXOR => Ok (dst opXOR 0, tc)
                   | MarkXNOR => Ok (dst opXNOR 0, tc)
                   | MarkAND => Ok (dst opAND (u32 tc), tc + 2)
                   | MarkINV => Ok (dst opINV (u32 tc), tc + 1)
                   | MarkOther => Err "unsupported circuit operation"
                   end : res (gate * Z));
      '(ds, tc'') ← newEngine_gates rest tc';
      Ok (d :: ds, tc'')
  end.

Definition newEngine (compiled : option markCircuit) : res engine :=
  match compiled with
  | None => Err "nil compiled circuit"
  | Some c =>
      fail_if (negb (NumParties c =? 2)
               || negb (InputsSize c =? Z.of_nat (2 * InputBits))
               || negb (OutputsSize c =? Z.of_nat OutputBits))
        "unexpected circuit shape";;
      '(gs, tc) ← newEngine_gates (Gates c) 0;
      Ok (mkEngine gs (NumWires c) tc)
  end.

(** [defaultEngine] compiles once per process; [compiled] is what the
    third-party [compiler.Compile] returned. *)
Definition defaultEngine (compiled : res markCircuit) : res engine :=
  match compiled with
  | Ok c => newEngine (Some c)
  | Err _ => Err "compile AES-CMAC circuit"
  | Panic => Panic
  end.

Definition Initialize (compiled : res markCircuit) : res unit :=
  _ ← defaultEngine compiled; Ok ().

(** ** Scratch memory *)

Record garbleScratch := mkScratch {
  s_wires : list wire;
  s_tables : list Label;
  s_random : bytes;
}.

Record garbled := mkGarbled { g_wires : list wire; g_tables : list Label }.

Definition random_size : nat := 16 + (2 * InputBits) * 16.

(** [e.pool.New]. *)
Definition new_scratch (e : engine) : garbleScratch :=
  mkScratch (replicate (Z.to_nat (numWires e)) wire_zero)
            (replicate (Z.to_nat (tableCount e)) label_zero)
            (zeros random_size).

Definition clearGarbleScratch (s : garbleScratch) : garbleScratch :=
  mkScratch (replicate (length (s_wires s)) wire_zero)
            (replicate (length (s_tables s)) label_zero)
            (zeros (length (s_random s))).

(** [sync.Pool] as a stack of free scratch buffers. *)
Definition pool_get (e : engine) (pool : list garbleScratch) : garbleScratch * list garbleScratch :=
  match pool with
  | [] => (new_scratch e, [])
  | s :: pool => (s, pool)
  end.

(** [g.release]: the scratch behind [g] goes back to the pool cleared. *)
Definition garbled_release (s : garbleScratch) (pool : list garbleScratch) : list garbleScratch :=
  clearGarbleScratch s :: pool.

(** ** Randomness: an [io.Reader] is the bytes it will deliver *)

Definition ReadFull (rng : bytes) (n : nat) : option (bytes * bytes) :=
  if (n <=? length rng)%nat then Some (take n rng, drop n rng) else None.

Section Hash.
Context {BC : BlockCipher}.

(** [fixedAES]: [encrypt2]/[encrypt4] encrypt each 16-byte block of the buffer. *)
Definition newFixedAES (key : bytes) : res bytes := aes_NewCipher key.

Fixpoint encrypt_blocks (key : bytes) (n : nat) (buf : bytes) : bytes :=
  match n with
  | O => buf
  | S n => aes_encrypt key (take 16 buf) ++ encrypt_blocks key n (drop 16 buf)
  end.

Definition encrypt2 (key buf : bytes) : bytes := encrypt_blocks key 2 buf.
Definition encrypt4 (key buf : bytes) : bytes := encrypt_blocks key 4 buf.

Definition halfHashInput (x : Label) (tweak : Z) : Label :=
  let carry := shr64 (D0 x) 63 in
  mkLabel (Z.lor (shl64 (D0 x) 1) (shr64 (D1 x) 63))
          (Z.lxor (Z.lxor (shl64 (D1 x) 1) (Z.land 135 (sub64 0 carry))) tweak).

Definition halfHash4 (block : bytes) (x0 x1 x2 x3 : Label) (tweak01 tweak23 : Z)
    : Label * Label * Label * Label :=
  let k0 := halfHashInput x0 tweak01 in
  let k1 := halfHashInput x1 tweak01 in
  let k2 := halfHashInput x2 tweak23 in
  let k3 := halfHashInput x3 tweak23 in
  let buf := encrypt4 block (label_put k0 ++ label_put k1 ++ label_put k2 ++ label_put k3) in
  (labelFromBytes (slice buf 0 16) ⊕ k0, labelFromBytes (slice buf 16 32) ⊕ k1,
   labelFromBytes (slice buf 32 48) ⊕ k2, labelFromBytes (slice buf 48 64) ⊕ k3).

Definition halfHash2 (block : bytes) (x0 x1 : Label) (tweak0 tweak1 : Z) : Label * Label :=
  let k0 := halfHashInput x0 tweak0 in
  let k1 := halfHashInput x1 tweak1 in
  let buf := encrypt2 block (label_put k0 ++ label_put k1) in
  (labelFromBytes (slice buf 0 16) ⊕ k0, labelFromBytes (slice buf 16 32) ⊕ k1).

Definition unaryHash (block : bytes) (a : Label) (tweak : Z) : Label :=
  let k := halfHashInput a tweak in
  labelFromBytes (aes_encrypt block (label_put k)) ⊕ k.

(** ** Garbling *)

Record garbleState := mkGarbleState { gw : list wire; gt : list Label; gtweak : Z }.

Definition garble_gate (block : bytes) (r : Label) (st : garbleState) (g : gate)
    : res garbleState :=
  a ← index (gw st) (Z.to_nat (in0 g));
  match op g with
  | opXOR | opXNOR =>
      b ← index (gw st) (Z.to_nat (in1 g));
      let x0 := l0 a ⊕ l0 b in
      let x1 := x0 ⊕ r in
      let w := match op g with opXNOR => mkWire x1 x0 | _ => mkWire x0 x1 end in
      ws ← set_index (gw st) (Z.to_nat (out g)) w;
      Ok (mkGarbleState ws (gt st) (gtweak st))
  | opAND =>
      b ← index (gw st) (Z.to_nat (in1 g));
      let pa := permutationBit (l0 a) in
      let pb := permutationBit (l0 b) in
      let tweak := gtweak st in
      let '(ha0, ha1, hb0, hb1) :=
        halfHash4 block (l0 a) (l1 a) (l0 b) (l1 b) tweak (u32 (tweak + 1)) in
      let tg := if pb then ha0 ⊕ ha1 ⊕ r else ha0 ⊕ ha1 in
      let wg0 := if pa then ha0 ⊕ tg else ha0 in
      let te := hb0 ⊕ hb1 ⊕ l0 a in
      let we0 := if pb then hb0 ⊕ te ⊕ l0 a else hb0 in
      let x0 := wg0 ⊕ we0 in
      ws ← set_index (gw st) (Z.to_nat (out g)) (mkWire x0 (x0 ⊕ r));
      ts ← set_index (gt st) (Z.to_nat (table g)) tg;
      ts ← set_index ts (Z.to_nat (u32 (table g + 1))) te;
      Ok (mkGarbleState ws ts (u32 (tweak + 2)))
  | opINV =>
      let p0 := permutationBit (l0 a) in
      let tweak := gtweak st in
      let h0 := unaryHash block (l0 a) tweak in
      let h1 := unaryHash block (l1 a) tweak in
      let '(t0, t1) := if p0 then (h1, h0) else (h0, h1) in
      let '(x0, x1) := if p0 then (t0, t0 ⊕ r) else (t0 ⊕ r, t0) in
      let t1 := if p0 then t1 ⊕ x1 else t1 ⊕ x0 in
      ws ← set_index (gw st) (Z.to_nat (out g)) (mkWire x0 x1);
      ts ← set_index (gt st) (Z.to_nat (table g)) t1;
      Ok (mkGarbleState ws ts (u32 (tweak + 1)))
  end.

Fixpoint garble_loop (block : bytes) (r : Label) (gs : list gate) (st : garbleState)
    : res garbleState :=
  match gs with
  | [] => Ok st
  | g :: gs => st' ← garble_gate block r st g; garble_loop block r gs st'
  end.

(** The first loop of [garble]: one fresh label per input wire. *)
Fixpoint garble_inputs (r : Label) (random : bytes) (n i off : nat) (ws : list wire)
    : res (list wire) :=
  match n with
  | O => Ok ws
  | S n =>
      let x0 := labelFromBytes (slice random off (off + 16)) in
      ws' ← set_index ws i (mkWire x0 (x0 ⊕ r));
      garble_inputs r random n (S i) (off + 16) ws'
  end.

(** [e.garble]: the result, the rest of the random stream, the pool, and the
    scratch the returned labels alias (for [release]). *)
Definition garble (e : engine) (rng : option bytes) (key : bytes)
    (pool : list garbleScratch)
    : res (garbled * garbleScratch) * option bytes * list garbleScratch :=
  match rng with
  | None => (Err "nil randomness source", rng, pool)
  | Some rs =>
      match newFixedAES key with
      | Err m => (Err m, rng, pool)
      | Panic => (Panic, rng, pool)
      | Ok block =>
          let '(scratch, pool) := pool_get e pool in
          match ReadFull rs (length (s_random scratch)) with
          | None => (Err "read garbling randomness", Some [], clearGarbleScratch scratch :: pool)
          | Some (random, rs') =>
              let r := withPermutationBit true (labelFromBytes (slice random 0 16)) in
              let result :=
                ws ← garble_inputs r random (2 * InputBits) 0 16 (s_wires scratch);
                st ← garble_loop block r (gates e) (mkGarbleState ws (s_tables scratch) 0);
                Ok (mkGarbled (gw st) (gt st), mkScratch (gw st) (gt st) random) in
              (result, Some rs', pool)
          end
      end
  end.

(** ** Evaluation *)

Record evalState := mkEvalState { ew : list Label; etweak : Z }.

Definition eval_gate (block : bytes) (tables : list Label) (st : evalState) (g : gate)
    : res evalState :=
  a ← index (ew st) (Z.to_nat (in0 g));
  match op g with
  | opXOR | opXNOR =>
      b ← index (ew st) (Z.to_nat (in1 g));
      ws ← set_index (ew st) (Z.to_nat (out g)) (a ⊕ b);
      Ok (mkEvalState ws (etweak st))
  | opAND =>
      b ← index (ew st) (Z.to_nat (in1 g));
      let tweak := etweak st in
      let '(wg, we) := halfHash2 block a b tweak (u32 (tweak + 1)) in
      wg ← (if permutationBit a
            then t ← index tables (Z.to_nat (table g)); Ok (wg ⊕ t) else Ok wg : res Label);
      we ← (if permutationBit b
            then t ← index tables (Z.to_nat (u32 (table g + 1))); Ok (we ⊕ t ⊕ a)
            else Ok we : res Label);
      ws ← set_index (ew st) (Z.to_nat (out g)) (wg ⊕ we);
      Ok (mkEvalState ws (u32 (tweak + 2)))
  | opINV =>
      let tweak := etweak st in
      row ← (if permutationBit a then index tables (Z.to_nat (table g)) else Ok label_zero
             : res Label);
      ws ← set_index (ew st) (Z.to_nat (out g)) (unaryHash block a tweak ⊕ row);
      Ok (mkEvalState ws (u32 (tweak + 1)))
  end.

Fixpoint eval_loop (block : bytes) (tables : list Label) (gs : list gate) (st : evalState)
    : res evalState :=
  match gs with
  | [] => Ok st
  | g :: gs => st' ← eval_gate block tables st g; eval_loop block tables gs st'
  end.

Definition evaluate (e : engine) (key : bytes) (wires tables : list Label) : res (list Label) :=
  fail_if (negb (Z.of_nat (length wires) =? numWires e)) "wire count mismatch";;
  fail_if (negb (Z.of_nat (length tables) =? tableCount e)) "garbled table count mismatch";;
  block ← newFixedAES key;
  st ← eval_loop block tables (gates e) (mkEvalState wires 0);
  Ok (ew st).

End Hash.

(** ** Bit packing *)

Definition byte_bits (b : Z) : list bool := map (Z.testbit b) (seqZ 0 8).

(** [bytesToBits data dst] with [len(dst) = 8*len(data)]. *)
Definition bytesToBits (data : bytes) : list bool := concat (map byte_bits data).

Fixpoint bitsToBytes_loop (i : nat) (bits : list bool) (dst : bytes) : res bytes :=
  match bits with
  | [] => Ok dst
  | b :: bits =>
      dst' ← (if b then
                x ← index dst (i / 8);
                set_index dst (i / 8) (Z.lor x (Z.shiftl 1 (Z.of_nat (i mod 8))))
              else Ok dst : res bytes);
      bitsToBytes_loop (S i) bits dst'
  end.

(** [bitsToBytes bits dst] with [len(dst) = n]. *)
Definition bitsToBytes (bits : list bool) (n : nat) : res bytes :=
  bitsToBytes_loop 0 bits (zeros n).

(** ** Batched hashing computes the single-block hash on every input *)

Section HashFacts.
Context {BC : BlockCipher}.

Lemma encrypt_blocks_app key n k rest :
  encrypt_blocks key (S n) (label_put k ++ rest) =
  aes_encrypt key (label_put k) ++ encrypt_blocks key n rest.
Proof.
  cbn [encrypt_blocks]. by rewrite (take_app_length' _ _ 16), (drop_app_length' _ _ 16)
    by (by rewrite length_label_put).
Qed.

(** [slice_solve] reads a 16-byte block out of a concatenation of blocks. *)
Ltac slice_solve :=
  repeat (rewrite slice_app_skip by (rewrite ?aes_encrypt_length; lia));
  rewrite ?aes_encrypt_length; cbn [Nat.sub];
  first [ rewrite slice_app_hit by apply aes_encrypt_length
        | rewrite slice_all by apply aes_encrypt_length ].

Lemma halfHash4_spec block x0 x1 x2 x3 t01 t23 :
  halfHash4 block x0 x1 x2 x3 t01 t23 =
  (unaryHash block x0 t01, unaryHash block x1 t01,
   unaryHash block x2 t23, unaryHash block x3 t23).
Proof.
  unfold halfHash4, encrypt4. cbv zeta.
  rewrite <- (app_nil_r (label_put (halfHashInput x3 t23))).
  rewrite !encrypt_blocks_app. cbn [encrypt_blocks]. unfold unaryHash.
  repeat f_equal; slice_solve; done.
Qed.

Lemma halfHash2_spec block x0 x1 t0 t1 :
  halfHash2 block x0 x1 t0 t1 = (unaryHash block x0 t0, unaryHash block x1 t1).
Proof.
  unfold halfHash2, encrypt2. cbv zeta.
  rewrite <- (app_nil_r (label_put (halfHashInput x1 t1))).
  rewrite !encrypt_blocks_app. cbn [encrypt_blocks]. unfold unaryHash.
  repeat f_equal; slice_solve; done.
Qed.

Lemma halfHashInput_ok x t : label_ok x -> is_u32 t -> label_ok (halfHashInput x t).
Proof.
  intros [H0 H1] Ht. assert (is_u64 t) by (unfold is_u64, is_u32 in *; lia).
  split; cbn [D0 D1 halfHashInput]; auto 10 with word.
  apply lxor_u64; [apply lxor_u64; auto with word|done].
  by apply land_u64.
Qed.

Lemma unaryHash_ok block x t : label_ok x -> is_u32 t -> label_ok (unaryHash block x t).
Proof.
  intros. unfold unaryHash. apply label_xor_ok; [|by apply halfHashInput_ok].
  apply labelFromBytes_ok; [apply aes_encrypt_length|apply aes_encrypt_bytes].
Qed.

End HashFacts.

Lemma u32_range z : is_u32 (u32 z).
Proof. unfold is_u32, u32. apply Z.mod_pos_bound. lia. Qed.

(** ** The plain Boolean circuit: the specification *)

Definition plain_gate (bs : list bool) (g : gate) : list bool :=
  let a := default false (bs !! Z.to_nat (in0 g)) in
  let b := default false (bs !! Z.to_nat (in1 g)) in
  let v := match op g with
           | opXOR => xorb a b
           | opXNOR => negb (xorb a b)
           | opAND => a && b
           | opINV => negb a
           end in
  <[Z.to_nat (out g) := v]> bs.

Definition plain_loop (gs : list gate) (bs : list bool) : list bool := fold_left plain_gate gs bs.

(** The output bits the circuit computes from its [2*InputBits] input bits. *)
Definition plain_outputs (e : engine) (inputs : list bool) : list bool :=
  let n := Z.to_nat (numWires e) in
  drop (n - OutputBits) (plain_loop (gates e) (inputs ++ replicate (n - 2 * InputBits) false)).

(** ** Well-formed circuits *)

(** Every gate reads wires that already carry a value and never overwrites an
    input wire; [defd] marks the wires defined so far. *)
Definition gate_ok (defd : list bool) (g : gate) : bool :=
  default false (defd !! Z.to_nat (in0 g))
  && (match op g with opINV => true | _ => default false (defd !! Z.to_nat (in1 g)) end)
  && (2 * InputBits <=? Z.to_nat (out g))%nat
  && (Z.to_nat (out g) <? length defd)%nat.

Fixpoint gates_ok (defd : list bool) (gs : list gate) : bool :=
  match gs with
  | [] => forallb id (drop (length defd - OutputBits) defd)
  | g :: gs => gate_ok defd g && gates_ok (<[Z.to_nat (out g) := true]> defd) gs
  end.

Definition engine_ok (e : engine) : bool :=
  (Z.of_nat (2 * InputBits + OutputBits) <=? numWires e)
  && (tableCount e <? 2 ^ 32)
  && gates_ok (replicate (2 * InputBits) true
               ++ replicate (Z.to_nat (numWires e) - 2 * InputBits) false) (gates e).

(** Table rows are numbered consecutively, as [newEngine] does. *)
Definition rows (g : gate) : nat :=
  match op g with opXOR | opXNOR => 0 | opAND => 2 | opINV => 1 end.

Fixpoint numbered (tc : nat) (gs : list gate) (total : nat) : Prop :=
  match gs with
  | [] => tc = total
  | g :: gs => (rows g <> 0%nat -> table g = Z.of_nat tc) /\ numbered (tc + rows g) gs total
  end.

Lemma numbered_le tc gs total : numbered tc gs total -> (tc <= total)%nat.
Proof.
  revert tc. induction gs as [|g gs IH]; intros tc; cbn [numbered]; [lia|].
  intros [_ H%IH]. lia.
Qed.

Lemma newEngine_gates_numbered src tc gs total :
  newEngine_gates src (Z.of_nat tc) = Ok (gs, total) -> total < 2 ^ 32 ->
  exists n, total = Z.of_nat n /\ numbered tc gs n.
Proof.
  revert tc gs. induction src as [|g src IH]; intros tc gs H Htot; simplify_eq/=.
  { by exists tc. }
  assert (Hid : forall k n, Z.of_nat n = total -> numbered (tc + k) [] n \/ (tc + k <= n)%nat ->
                  u32 (Z.of_nat tc) = Z.of_nat tc).
  { intros k n <- Hn. unfold u32. apply Z.mod_small. cbn in Hn. lia. }
  replace (Z.of_nat tc + 2) with (Z.of_nat (tc + 2)) in H by lia.
  replace (Z.of_nat tc + 1) with (Z.of_nat (tc + 1)) in H by lia.
  destruct (Op g); simplify_eq/=;
    destruct (newEngine_gates src _) as [[ds tc'']| |] eqn:E; simplify_eq/=;
    apply IH in E as (n & -> & Hn); try done; exists n; split; try done;
    unfold rows; cbn [op table]; rewrite ?Nat.add_0_r; (split; [intros Hrows|done]); try done;
    (eapply Hid; [done|right; by apply numbered_le in Hn]).
Qed.

Lemma newEngine_numbered c e :
  newEngine c = Ok e -> tableCount e < 2 ^ 32 ->
  exists n, tableCount e = Z.of_nat n /\ numbered 0 (gates e) n.
Proof.
  unfold newEngine. destruct c as [c|]; [|done].
  destruct (_ || _); [done|].
  destruct (newEngine_gates (Gates c) 0) as [[gs tc]| |] eqn:E; intros H Htc; simplify_eq/=.
  by eapply (newEngine_gates_numbered _ 0).
Qed.

(** ** One gate *)

Definition wire_ok (r : Label) (w : wire) : Prop := label_ok (l0 w) /\ l1 w = l0 w ⊕ r.

(** The label that carries bit [b] on wire [w]. *)
Definition label_of (w : wire) (b : bool) : Label := if b then l1 w else l0 w.

Definition offset_ok (r : Label) : Prop := label_ok r /\ permutationBit r = true.

Lemma label_of_ok r w b : offset_ok r -> wire_ok r w -> label_ok (label_of w b).
Proof. intros [Hr _] [Hw E]. destruct b; cbn [label_of]; [rewrite E|]; auto with word. Qed.

Lemma label_of_perm r w b :
  offset_ok r -> wire_ok r w -> permutationBit (label_of w b) = xorb (permutationBit (l0 w)) b.
Proof.
  intros [Hr Hp] [Hw E]. destruct b; cbn [label_of].
  - by rewrite E, permutationBit_xor, Hp by done.
  - by rewrite xorb_false_r.
Qed.

Lemma label_of_inj r w b c :
  offset_ok r -> wire_ok r w -> label_of w b = label_of w c -> b = c.
Proof.
  intros Hr Hw E. apply (f_equal permutationBit) in E.
  rewrite !(label_of_perm r) in E by done.
  generalize (permutationBit (l0 w)) E. by intros [] ?; destruct b, c.
Qed.

Section GateAlgebra.
Context (r : Label) (Hr : offset_ok r).
Context (wa wb : wire) (Ha : wire_ok r wa) (Hb : wire_ok r wb).

Lemma xor_gate_algebra va vb :
  label_of wa va ⊕ label_of wb vb =
  label_of (mkWire (l0 wa ⊕ l0 wb) (l0 wa ⊕ l0 wb ⊕ r)) (xorb va vb).
Proof.
  destruct Ha as [_ Ea], Hb as [_ Eb], va, vb; simpl; rewrite ?Ea, ?Eb; xor_solve.
Qed.

(** The half-gates AND: generator half [tg] and evaluator half [te], for any
    hash functions [hA], [hB]. *)
Lemma and_gate_algebra (hA hB : Label -> Label) va vb :
  let a := label_of wa va in
  let b := label_of wb vb in
  let pa := permutationBit (l0 wa) in
  let pb := permutationBit (l0 wb) in
  let tg := if pb then hA (l0 wa) ⊕ hA (l1 wa) ⊕ r else hA (l0 wa) ⊕ hA (l1 wa) in
  let wg0 := if pa then hA (l0 wa) ⊕ tg else hA (l0 wa) in
  let te := hB (l0 wb) ⊕ hB (l1 wb) ⊕ l0 wa in
  let we0 := if pb then hB (l0 wb) ⊕ te ⊕ l0 wa else hB (l0 wb) in
  let x0 := wg0 ⊕ we0 in
  (if permutationBit a then hA a ⊕ tg else hA a)
    ⊕ (if permutationBit b then hB b ⊕ te ⊕ a else hB b)
  = label_of (mkWire x0 (x0 ⊕ r)) (va && vb).
Proof.
  intros a b pa pb tg wg0 te we0 x0. subst a b x0 we0 te wg0 tg.
  rewrite !(label_of_perm r) by done. fold pa pb. clearbody pa pb.
  destruct Ha as [_ Ea], Hb as [_ Eb].
  destruct va, vb, pa, pb; cbn [xorb andb label_of]; rewrite ?Ea, ?Eb; xor_solve.
Qed.

(** The row-reduced inverter. *)
Lemma inv_gate_algebra (h : Label -> Label) va :
  let a := label_of wa va in
  let p0 := permutationBit (l0 wa) in
  let '(t0, t1) := if p0 then (h (l1 wa), h (l0 wa)) else (h (l0 wa), h (l1 wa)) in
  let '(x0, x1) := if p0 then (t0, t0 ⊕ r) else (t0 ⊕ r, t0) in
  let t1 := if p0 then t1 ⊕ x1 else t1 ⊕ x0 in
  h a ⊕ (if permutationBit a then t1 else label_zero) = label_of (mkWire x0 x1) (negb va).
Proof.
  intros a p0. subst a. rewrite (label_of_perm r) by done. fold p0. clearbody p0.
  destruct Ha as [_ Ea]. destruct va, p0; cbn [xorb negb label_of]; xor_solve.
Qed.

End GateAlgebra.

(** ** The simulation relation between garbler, evaluator and plain circuit *)

Definition related (r : Label) (defd : list bool)
    (gws : list wire) (ews : list Label) (bs : list bool) : Prop :=
  length gws = length defd /\ length ews = length defd /\ length bs = length defd /\
  forall i, defd !! i = Some true ->
    exists w b, gws !! i = Some w /\ wire_ok r w /\ bs !! i = Some b
                /\ ews !! i = Some (label_of w b).

Lemma related_insert r defd gws ews bs i w b :
  related r defd gws ews bs -> wire_ok r w ->
  related r (<[i := true]> defd) (<[i := w]> gws) (<[i := label_of w b]> ews) (<[i := b]> bs).
Proof.
  intros (Hg & He & Hb & H) Hw. unfold related. rewrite !length_insert.
  split_and!; [done..|]. intros j Hj. destruct (decide (i = j)) as [->|Hne].
  - assert (j < length defd)%nat by (apply lookup_lt_Some in Hj; by rewrite length_insert in Hj).
    exists w, b. rewrite !list_lookup_insert_eq by lia. done.
  - rewrite list_lookup_insert_ne in Hj by done.
    destruct (H j Hj) as (w' & b' & ? & ? & ? & ?). exists w', b'.
    rewrite !list_lookup_insert_ne by done. done.
Qed.

Lemma related_lookup r defd gws ews bs i :
  related r defd gws ews bs -> default false (defd !! i) = true ->
  exists w b, gws !! i = Some w /\ wire_ok r w /\ bs !! i = Some b
              /\ ews !! i = Some (label_of w b).
Proof.
  intros (_ & _ & _ & H) Hd. apply H. destruct (defd !! i); simplify_eq/=; done.
Qed.

Lemma set_index_Ok {A} (l : list A) i x : (i < length l)%nat -> set_index l i x = Ok (<[i := x]> l).
Proof. intros H. unfold set_index. by rewrite (proj2 (Nat.ltb_lt _ _)). Qed.

Lemma index_Ok {A} (l : list A) i x : l !! i = Some x -> index l i = Ok x.
Proof. unfold index. by intros ->. Qed.

Lemma set_index_inv {A} (l l' : list A) i x : set_index l i x = Ok l' -> l' = <[i := x]> l.
Proof. unfold set_index. destruct (i <? length l)%nat; congruence. Qed.

(** A gate writes no wire but its output. *)
Lemma garble_gate_frame `{BlockCipher} block r st g st' i :
  garble_gate block r st g = Ok st' -> Z.to_nat (out g) <> i -> gw st' !! i = gw st !! i.
Proof.
  unfold garble_gate. intros E Hi.
  inv_bind E. destruct (op g);
    repeat (match type of E with
            | _ ≫= _ = Ok _ => inv_bind E
            | context [halfHash4 ?a ?b ?c ?d ?e ?f ?h] =>
                destruct (halfHash4 a b c d e f h) as [[[??]?]?]
            | (let '(_, _) := ?p in _) = _ => destruct p
            end; cbv zeta in E);
    repeat match goal with H : set_index _ _ _ = Ok _ |- _ => apply set_index_inv in H end;
    injection E as <-; subst; cbn [gw]; rewrite list_lookup_insert_ne by exact Hi; reflexivity.
Qed.

(** [go_run] executes in-range slice writes of a monadic body. *)
Ltac go_run :=
  repeat (rewrite set_index_Ok by (rewrite ?length_insert; lia); cbn [mbind res_bind]).

Lemma if_Ok {A} (c : bool) (x y : A) : (if c then Ok x else Ok y) = Ok (if c then x else y).
Proof. by destruct c. Qed.

(** [label_ok_tac] proves that an XOR expression over hashes is a pair of words. *)
Ltac label_ok_tac :=
  repeat match goal with |- context [if ?b then _ else _] => destruct b end;
  repeat match goal with
  | H : label_ok ?x |- label_ok ?x => exact H
  | H : offset_ok ?x |- label_ok ?x => exact (proj1 H)
  | H : wire_ok _ ?w |- label_ok (l0 ?w) => exact (proj1 H)
  | H : wire_ok _ ?w |- label_ok (l1 ?w) => rewrite (proj2 H)
  | H : is_u32 ?x |- is_u32 ?x => exact H
  | |- is_u32 (u32 _) => apply u32_range
  | |- label_ok (_ ⊕ _) => apply label_xor_ok
  | |- label_ok (unaryHash _ _ _) => apply unaryHash_ok
  | |- _ = _ => reflexivity
  end.

(** ** One step of the simulation *)

Section Simulation.
Context {BC : BlockCipher} (block : bytes) (r : Label) (Hr : offset_ok r).

Definition step_spec (g : gate) defd gts tw ews bs (tc : nat) (st' : garbleState) : Prop :=
  length (gt st') = length gts /\ is_u32 (gtweak st') /\
  (forall j, (j < tc)%nat -> gt st' !! j = gts !! j) /\
  exists est', etweak est' = gtweak st' /\
    related r (<[Z.to_nat (out g) := true]> defd) (gw st') (ew est') (plain_gate bs g) /\
    forall T, (forall j, (tc <= j < tc + rows g)%nat -> T !! j = gt st' !! j) ->
      eval_gate block T (mkEvalState ews tw) g = Ok est'.

Lemma xor_step g defd gws gts tw ews bs tc :
  op g = opXOR \/ op g = opXNOR ->
  related r defd gws ews bs -> gate_ok defd g = true -> is_u32 tw ->
  exists st', garble_gate block r (mkGarbleState gws gts tw) g = Ok st' /\
    step_spec g defd gts tw ews bs tc st'.
Proof.
  intros Eop Hrel Hok Htw. unfold gate_ok in Hok. rewrite !andb_true_iff in Hok.
  destruct Hok as [[[Ha Hb] _] Hout%Nat.ltb_lt].
  assert (Hb' : default false (defd !! Z.to_nat (in1 g)) = true)
    by (destruct Eop as [E|E]; by rewrite E in Hb).
  destruct (related_lookup _ _ _ _ _ _ Hrel Ha) as (wa & va & Gwa & Owa & Bwa & Ewa).
  destruct (related_lookup _ _ _ _ _ _ Hrel Hb') as (wb & vb & Gwb & Owb & Bwb & Ewb).
  pose proof Hrel as (Lg & Le & Lb & _).
  unfold garble_gate. cbn [gw gt gtweak]. rewrite (index_Ok _ _ _ Gwa), (index_Ok _ _ _ Gwb).
  cbn [mbind res_bind]. rewrite !set_index_Ok by lia.
  assert (Hl : label_ok (l0 wa ⊕ l0 wb)) by (destruct Owa, Owb; auto with word).
  assert (Hwx : wire_ok r (mkWire (l0 wa ⊕ l0 wb) (l0 wa ⊕ l0 wb ⊕ r))) by done.
  assert (Hwn : wire_ok r (mkWire (l0 wa ⊕ l0 wb ⊕ r) (l0 wa ⊕ l0 wb))).
  { split; cbn [l0 l1]; [destruct Hr; auto with word|by rewrite label_xor_cancel]. }
  assert (Hev : forall T, eval_gate block T (mkEvalState ews tw) g =
    Ok (mkEvalState (<[Z.to_nat (out g) := label_of wa va ⊕ label_of wb vb]> ews) tw)).
  { intros T. unfold eval_gate. cbn [ew etweak].
    rewrite (index_Ok _ _ _ Ewa), (index_Ok _ _ _ Ewb). cbn [mbind res_bind].
    rewrite set_index_Ok by lia. by destruct Eop as [-> | ->]. }
  rewrite (xor_gate_algebra r) in Hev by done.
  unfold step_spec, plain_gate. rewrite Bwa, Bwb. cbn [from_option id].
  destruct Eop as [Eop|Eop]; rewrite Eop; eexists; (split; [done|]); cbn [gw gt gtweak];
    (split_and!; [done..|]); eexists; split_and!; try (intros; apply Hev); try done; cbn [ew].
  - by apply related_insert.
  - pose proof (related_insert r defd gws ews bs (Z.to_nat (out g)) _
      (negb (xorb va vb)) Hrel Hwn) as H.
    by destruct (xorb va vb).
Qed.

Lemma and_step g defd gws gts tw ews bs tc :
  op g = opAND ->
  related r defd gws ews bs -> gate_ok defd g = true -> is_u32 tw ->
  table g = Z.of_nat tc -> (tc + 2 <= length gts)%nat -> Z.of_nat (length gts) < 2 ^ 32 ->
  exists st', garble_gate block r (mkGarbleState gws gts tw) g = Ok st' /\
    step_spec g defd gts tw ews bs tc st'.
Proof.
  intros Eop Hrel Hok Htw Htab Hlen H32. unfold gate_ok in Hok. rewrite !andb_true_iff in Hok.
  destruct Hok as [[[Ha Hb] _] Hout%Nat.ltb_lt]. rewrite Eop in Hb.
  destruct (related_lookup _ _ _ _ _ _ Hrel Ha) as (wa & va & Gwa & Owa & Bwa & Ewa).
  destruct (related_lookup _ _ _ _ _ _ Hrel Hb) as (wb & vb & Gwb & Owb & Bwb & Ewb).
  pose proof Hrel as (Lg & Le & Lb & _).
  assert (Htab1 : Z.to_nat (u32 (table g + 1)) = S tc)
    by (rewrite Htab; unfold u32; rewrite Z.mod_small; lia).
  assert (Htab0 : Z.to_nat (table g) = tc) by lia.
  unfold garble_gate. cbn [gw gt gtweak]. rewrite Eop, (index_Ok _ _ _ Gwa), (index_Ok _ _ _ Gwb).
  cbn [mbind res_bind]. rewrite halfHash4_spec, Htab0, Htab1. cbv zeta.
  go_run. eexists. split; [done|]. unfold step_spec. cbn [gw gt gtweak].
  split_and!; [by rewrite !length_insert|apply u32_range| |].
  { intros j Hj. by rewrite !list_lookup_insert_ne by lia. }
  pose proof (and_gate_algebra r Hr wa wb Owa Owb (fun x => unaryHash block x tw)
    (fun x => unaryHash block x (u32 (tw + 1))) va vb) as Halg. cbv beta zeta in Halg.
  unfold plain_gate. rewrite Eop, Bwa, Bwb. cbn [from_option id].
  eexists (mkEvalState (<[_ := label_of _ _]> ews) _). cbn [ew etweak]. split; [done|].
  split; [apply related_insert; [done|split; cbn [l0 l1]; [label_ok_tac|done]]|].
  intros T HT. unfold eval_gate. rewrite Eop. cbn [ew etweak].
  rewrite (index_Ok _ _ _ Ewa), (index_Ok _ _ _ Ewb). cbn [mbind res_bind].
  rewrite halfHash2_spec, Htab0, Htab1.
  assert (T0 := HT tc ltac:(unfold rows; rewrite Eop; lia)).
  assert (T1 := HT (S tc) ltac:(unfold rows; rewrite Eop; lia)).
  rewrite list_lookup_insert_ne, list_lookup_insert_eq in T0 by lia.
  rewrite list_lookup_insert_eq in T1 by (rewrite length_insert; lia).
  unfold index. rewrite T0, T1. cbn [mbind res_bind]. rewrite !if_Ok. cbn [mbind res_bind].
  go_run. by rewrite Halg.
Qed.

Lemma inv_step g defd gws gts tw ews bs tc :
  op g = opINV ->
  related r defd gws ews bs -> gate_ok defd g = true -> is_u32 tw ->
  table g = Z.of_nat tc -> (tc + 1 <= length gts)%nat ->
  exists st', garble_gate block r (mkGarbleState gws gts tw) g = Ok st' /\
    step_spec g defd gts tw ews bs tc st'.
Proof.
  intros Eop Hrel Hok Htw Htab Hlen. unfold gate_ok in Hok. rewrite !andb_true_iff in Hok.
  destruct Hok as [[[Ha _] _] Hout%Nat.ltb_lt].
  destruct (related_lookup _ _ _ _ _ _ Hrel Ha) as (wa & va & Gwa & Owa & Bwa & Ewa).
  pose proof Hrel as (Lg & Le & Lb & _).
  assert (Htab0 : Z.to_nat (table g) = tc) by lia.
  pose proof (inv_gate_algebra r Hr wa Owa (fun x => unaryHash block x tw) va) as Halg.
  cbv beta zeta in Halg.
  unfold garble_gate. cbn [gw gt gtweak]. rewrite Eop, (index_Ok _ _ _ Gwa), Htab0.
  cbn [mbind res_bind]. cbv zeta.
  set (xs := if permutationBit (l0 wa) then _ else _) in *.
  assert (Hxs : label_ok (fst xs) /\ label_ok (snd xs)).
  { subst xs. destruct (permutationBit (l0 wa)); cbn [fst snd]; split; label_ok_tac. }
  destruct xs as [t0 t1]. cbn [fst snd] in Hxs. destruct Hxs as [Ht0 _].
  set (ys := if permutationBit (l0 wa) then _ else _) in *.
  assert (Hys : label_ok (fst ys) /\ snd ys = fst ys ⊕ r).
  { subst ys. destruct (permutationBit (l0 wa)); cbn [fst snd];
      rewrite ?label_xor_cancel; split; label_ok_tac. }
  destruct ys as [x0 x1]. cbn [fst snd] in Hys. go_run.
  eexists. split; [done|]. unfold step_spec. cbn [gw gt gtweak].
  split_and!; [by rewrite !length_insert|apply u32_range| |].
  { intros j Hj. by rewrite !list_lookup_insert_ne by lia. }
  unfold plain_gate. rewrite Eop, Bwa. cbn [from_option id].
  eexists (mkEvalState (<[_ := label_of _ _]> ews) _). cbn [ew etweak]. split; [done|].
  split; [by apply related_insert|].
  intros T HT. unfold eval_gate. rewrite Eop. cbn [ew etweak].
  rewrite (index_Ok _ _ _ Ewa). cbn [mbind res_bind]. rewrite Htab0.
  assert (T0 := HT tc ltac:(unfold rows; rewrite Eop; lia)).
  rewrite list_lookup_insert_eq in T0 by lia. unfold index. rewrite T0, if_Ok.
  cbn [mbind res_bind]. go_run. by rewrite Halg.
Qed.

Lemma gate_step g defd gws gts tw ews bs tc :
  related r defd gws ews bs -> gate_ok defd g = true -> is_u32 tw ->
  (rows g <> 0%nat -> table g = Z.of_nat tc) ->
  (tc + rows g <= length gts)%nat -> Z.of_nat (length gts) < 2 ^ 32 ->
  exists st', garble_gate block r (mkGarbleState gws gts tw) g = Ok st' /\
    step_spec g defd gts tw ews bs tc st'.
Proof.
  intros Hrel Hok Htw Htab Hlen H32. unfold rows in *. destruct (op g) eqn:Eop.
  - apply xor_step; auto.
  - apply xor_step; auto.
  - apply and_step; auto.
  - apply inv_step; auto.
Qed.

(** ** The whole circuit

    Garbling runs to the end before evaluation starts; later gates never touch
    the table rows of earlier ones, so evaluation sees the rows each gate wrote. *)
Lemma loop_simulation gs total : forall tc defd gws gts tw ews bs,
  related r defd gws ews bs -> gates_ok defd gs = true -> is_u32 tw ->
  numbered tc gs total -> (total <= length gts)%nat -> Z.of_nat (length gts) < 2 ^ 32 ->
  exists st', garble_loop block r gs (mkGarbleState gws gts tw) = Ok st' /\
    length (gt st') = length gts /\
    (forall j, (j < tc)%nat -> gt st' !! j = gts !! j) /\
    exists defd' est', eval_loop block (gt st') gs (mkEvalState ews tw) = Ok est' /\
      length defd' = length defd /\
      (forall i, (i < 2 * InputBits)%nat -> defd' !! i = defd !! i /\ gw st' !! i = gws !! i) /\
      forallb id (drop (length defd' - OutputBits) defd') = true /\
      related r defd' (gw st') (ew est') (plain_loop gs bs).
Proof.
  induction gs as [|g gs IH]; intros tc defd gws gts tw ews bs Hrel Hok Htw Hnum Hlen H32.
  { eexists. split_and!; [done..|]. exists defd, (mkEvalState ews tw). done. }
  cbn [gates_ok] in Hok. apply andb_true_iff in Hok as [Hg Hgs].
  cbn [numbered] in Hnum. destruct Hnum as [Htab Hnum].
  pose proof (numbered_le _ _ _ Hnum) as Hle.
  destruct (gate_step g defd gws gts tw ews bs tc)
    as (st1 & E1 & L1 & Tw1 & Keep1 & est1 & Etw & Rel1 & Ev1); [done..|lia|done|].
  cbn [garble_loop]. rewrite E1. cbn [mbind res_bind].
  destruct st1 as [gws1 gts1 tw1]. cbn [gw gt gtweak] in *.
  destruct (IH (tc + rows g)%nat _ gws1 gts1 tw1 (ew est1) (plain_gate bs g) Rel1)
    as (st' & E' & L' & Keep' & defd' & est' & Ev' & Ld & Hin & Hout & Rel'); [done..|lia|lia|].
  exists st'. split; [done|]. split; [lia|]. split.
  { intros j Hj. rewrite Keep' by lia. by apply Keep1. }
  exists defd', est'. cbn [eval_loop]. rewrite (Ev1 (gt st')).
  2:{ intros j Hj. apply Keep'. lia. }
  cbn [mbind res_bind]. rewrite length_insert in Ld.
  destruct est1 as [ews1 tw1']. cbn in Etw, Ev'. subst tw1'.
  split_and!; [done|done| |done|done].
  intros i Hi. destruct (Hin i Hi) as [Hd Hw]. rewrite Hd, Hw.
  assert (Z.to_nat (out g) <> i).
  { unfold gate_ok in Hg. rewrite !andb_true_iff, Nat.leb_le in Hg. lia. }
  rewrite list_lookup_insert_ne by done. split; [done|].
  by apply (garble_gate_frame _ _ _ _ _ _ E1).
Qed.

(** Fresh labels for the input wires. *)
Lemma garble_inputs_spec random n : forall i off ws,
  label_ok r -> is_bytes random -> (off + 16 * n <= length random)%nat ->
  (i + n <= length ws)%nat ->
  exists ws', garble_inputs r random n i off ws = Ok ws' /\ length ws' = length ws /\
    (forall j, (i <= j < i + n)%nat -> exists w, ws' !! j = Some w /\ wire_ok r w) /\
    (forall j, ~ (i <= j < i + n)%nat -> ws' !! j = ws !! j).
Proof.
  induction n as [|n IH]; intros i off ws Hrok Hb Hlen Hws; cbn [garble_inputs].
  { exists ws. split_and!; [done..| |done]. intros j Hj. lia. }
  go_run. set (x0 := labelFromBytes _).
  destruct (IH (S i) (off + 16)%nat (<[i := mkWire x0 (x0 ⊕ r)]> ws))
    as (ws' & -> & L & Hin & Hout); [done|done|lia|rewrite length_insert; lia|].
  rewrite length_insert in L. exists ws'. split_and!; [done..| |].
  - intros j Hj. destruct (decide (i = j)) as [->|Hne]; [|apply Hin; lia].
    exists (mkWire x0 (x0 ⊕ r)). rewrite Hout, list_lookup_insert_eq by lia. split; [done|].
    split; [|done]. apply labelFromBytes_ok; [|by apply slice_forall].
    rewrite length_slice; lia.
  - intros j Hj. rewrite Hout, list_lookup_insert_ne by lia. done.
Qed.

End Simulation.

(** ** Garbling then evaluating computes the circuit *)

(** The scratch buffers a pool hands out have the sizes [e.pool.New] gives
    them and hold nothing but zeros. *)
Definition scratch_ok (e : engine) (s : garbleScratch) : Prop := s = new_scratch e.

Definition pool_ok (e : engine) (pool : list garbleScratch) : Prop := Forall (scratch_ok e) pool.

(** What garbling promises: a global offset [r] such that every input and
    output wire carries a label pair differing by [r], and evaluating on labels
    of the bits [vs] ends with the labels of the plain circuit's output bits. *)
Definition garbling_correct `{BlockCipher} (e : engine) (key : bytes) (g : garbled) : Prop :=
  let n := Z.to_nat (numWires e) in
  length (g_wires g) = n /\ Z.of_nat (length (g_tables g)) = tableCount e /\
  exists r, offset_ok r /\
    (forall i, (i < 2 * InputBits)%nat -> exists w, g_wires g !! i = Some w /\ wire_ok r w) /\
    forall vs wires,
      length vs = (2 * InputBits)%nat -> length wires = n ->
      (forall i v, vs !! i = Some v ->
         exists w, g_wires g !! i = Some w /\ wires !! i = Some (label_of w v)) ->
      exists outs, evaluate e key wires (g_tables g) = Ok outs /\ length outs = n /\
        length (plain_outputs e vs) = OutputBits /\
        forall i, (i < OutputBits)%nat -> exists w b,
          g_wires g !! (n - OutputBits + i)%nat = Some w /\ wire_ok r w /\
          plain_outputs e vs !! i = Some b /\
          outs !! (n - OutputBits + i)%nat = Some (label_of w b).

Lemma ReadFull_Some rng n a b :
  ReadFull rng n = Some (a, b) <-> length a = n /\ rng = a ++ b.
Proof.
  unfold ReadFull. destruct (Nat.leb_spec n (length rng)); split; intros E.
  - injection E as <- <-. rewrite take_drop, length_take. split; [lia|done].
  - destruct E as [<- ->]. by rewrite take_app_length, drop_app_length.
  - done.
  - destruct E as [<- ->]. rewrite length_app in H. lia.
Qed.

Lemma ReadFull_enough rng n :
  (n <= length rng)%nat -> ReadFull rng n = Some (take n rng, drop n rng).
Proof. intros. unfold ReadFull. by rewrite (proj2 (Nat.leb_le _ _)). Qed.

Lemma engine_ok_inv e :
  engine_ok e = true ->
  (2 * InputBits + OutputBits <= Z.to_nat (numWires e))%nat /\ tableCount e < 2 ^ 32 /\
  gates_ok (replicate (2 * InputBits) true
            ++ replicate (Z.to_nat (numWires e) - 2 * InputBits) false) (gates e) = true.
Proof.
  unfold engine_ok. rewrite !andb_true_iff, Z.leb_le, Z.ltb_lt. intros [[? ?] ?].
  split_and!; [lia|done..].
Qed.

Lemma pool_get_ok e pool :
  pool_ok e pool -> scratch_ok e (fst (pool_get e pool)) /\ pool_ok e (snd (pool_get e pool)).
Proof. intros H. destruct H; split; cbn; by try constructor. Qed.

Definition inputs_defined (n : nat) : list bool :=
  replicate (2 * InputBits) true ++ replicate (n - 2 * InputBits) false.

Lemma inputs_related r n ws wires vs :
  (2 * InputBits <= n)%nat -> length ws = n -> length wires = n ->
  length vs = (2 * InputBits)%nat ->
  (forall i v, vs !! i = Some v ->
     exists w, ws !! i = Some w /\ wire_ok r w /\ wires !! i = Some (label_of w v)) ->
  related r (inputs_defined n) ws wires (vs ++ replicate (n - 2 * InputBits) false).
Proof.
  intros Hn Lw Le Lv H. unfold related, inputs_defined. rewrite !length_app, !length_replicate.
  split_and!; [lia..|]. intros i Hi.
  assert (Hlt : (i < length vs)%nat).
  { apply lookup_app_Some in Hi as [Hi|[_ Hi]].
    - apply lookup_lt_Some in Hi. rewrite length_replicate in Hi. lia.
    - apply lookup_replicate in Hi as [??]. done. }
  destruct (lookup_lt_is_Some_2 vs i Hlt) as [v Hv].
  destruct (H i v Hv) as (w & ? & ? & ?). exists w, v.
  by rewrite lookup_app_l, Hv by done.
Qed.

Section GarbleEvaluate.
Context {BC : BlockCipher}.

Section Run.
Context (e : engine) (key : bytes) (r : Label) (total : nat) (ws : list wire) (gts : list Label)
        (st : garbleState).
Context (Hr : offset_ok r) (Hok : engine_ok e = true) (Hkey : length key = 16%nat).
Context (Htc : tableCount e = Z.of_nat total) (Hnum : numbered 0 (gates e) total).
Context (Lws : length ws = Z.to_nat (numWires e)) (Lgts : length gts = total).
Context (Hws : forall i, (i < 2 * InputBits)%nat -> exists w, ws !! i = Some w /\ wire_ok r w).

Let n := Z.to_nat (numWires e).

Lemma garbled_run_sim vs wires :
  length vs = (2 * InputBits)%nat -> length wires = n ->
  (forall i v, vs !! i = Some v ->
     exists w, ws !! i = Some w /\ wires !! i = Some (label_of w v)) ->
  exists st', garble_loop key r (gates e) (mkGarbleState ws gts 0) = Ok st' /\
  length (gt st') = length gts /\
  exists defd' est', eval_loop key (gt st') (gates e) (mkEvalState wires 0) = Ok est' /\
    length defd' = n /\
    (forall i, (i < 2 * InputBits)%nat -> gw st' !! i = ws !! i) /\
    (forall i, (i < OutputBits)%nat -> defd' !! (n - OutputBits + i)%nat = Some true) /\
    related r defd' (gw st') (ew est')
      (plain_loop (gates e) (vs ++ replicate (n - 2 * InputBits) false)).
Proof.
  intros Lv Lw Hvs. destruct (engine_ok_inv _ Hok) as (Hn & H32 & Hgates).
  destruct (loop_simulation key r Hr (gates e) total 0 (inputs_defined n) ws gts 0 wires
    (vs ++ replicate (n - 2 * InputBits) false))
    as (st' & E & ? & _ & defd' & est' & ? & Ld & Hin & Hout & ?); try done; try lia.
  { apply inputs_related; try done; [lia|]. intros i v Hv.
    destruct (Hvs i v Hv) as (w & Hw & ?). exists w. split_and!; [done| |done].
    destruct (Hws i) as (w' & ? & ?); [|by simplify_eq].
    apply lookup_lt_Some in Hv. lia. }
  unfold inputs_defined in Ld. rewrite length_app, !length_replicate in Ld.
  exists st'. split_and!; [done..|].
  exists defd', est'. split_and!; [done|lia| | |done]; intros i Hi; [by apply Hin|].
  replace (n - OutputBits + i)%nat with (length defd' - OutputBits + i)%nat by lia.
  rewrite <- lookup_drop.
  destruct (lookup_lt_is_Some_2 (drop (length defd' - OutputBits) defd') i) as [b Hb];
    [rewrite length_drop; lia|].
  rewrite Hb. f_equal. rewrite forallb_forall in Hout.
  apply (Hout b). apply list_elem_of_In, list_elem_of_lookup. by exists i.
Qed.

Lemma garbled_run_correct :
  exists st', garble_loop key r (gates e) (mkGarbleState ws gts 0) = Ok st' /\
    garbling_correct e key (mkGarbled (gw st') (gt st')).
Proof.
  destruct (engine_ok_inv _ Hok) as (Hn & H32 & Hgates). fold n in Hn.
  destruct (garbled_run_sim (replicate (2 * InputBits) false) (l0 <$> ws))
    as (st' & Hrun & Lgt & defd & est & _ & Ld & Hin & _ & Hrel);
    [by rewrite length_replicate|by rewrite length_fmap| |].
  { intros i v [-> Hi]%lookup_replicate. destruct (Hws i Hi) as (w & Hw & _).
    exists w. by rewrite list_lookup_fmap, Hw. }
  exists st'. split; [done|]. unfold garbling_correct. fold n. cbn [g_wires g_tables].
  split_and!; [by destruct Hrel as [-> _]|lia|].
  exists r. split; [done|]. split; [intros i Hi; rewrite Hin by done; by apply Hws|].
  intros vs wires Lv Lw Hvs.
  destruct (garbled_run_sim vs wires) as (st2 & E2 & _ & defd' & est' & Ev & Ld' & _ & Hout & Hrel');
    [done..| |].
  { intros i v Hv. destruct (Hvs i v Hv) as (w & Hw & ?). exists w. split; [|done].
    rewrite <- Hin; [done|]. apply lookup_lt_Some in Hv. lia. }
  rewrite Hrun in E2. injection E2 as <-.
  exists (ew est'). unfold evaluate, newFixedAES, plain_outputs. fold n.
  destruct Hrel' as (_ & Le & Lb & Hrel').
  assert (HnZ : Z.of_nat n = numWires e) by (unfold n, InputBits, OutputBits in *; lia).
  rewrite (proj2 (Z.eqb_eq _ _)) by lia. cbn [negb].
  rewrite (proj2 (Z.eqb_eq _ _)) by lia. cbn [negb].
  rewrite aes_NewCipher_16 by done. cbn [mbind res_bind]. rewrite Ev. cbn [mbind res_bind].
  split_and!; [done|lia|rewrite length_drop; lia|].
  intros i Hi. destruct (Hrel' _ (Hout i Hi)) as (w & b & ? & ? & ? & ?).
  exists w, b. by rewrite lookup_drop.
Qed.
End Run.

(** Garbling never fails on a well-formed engine with enough randomness. *)
Lemma garble_total c e rs key pool :
  newEngine c = Ok e -> engine_ok e = true -> length key = 16%nat -> pool_ok e pool ->
  is_bytes rs -> (random_size <= length rs)%nat ->
  exists g s pool', garble e (Some rs) key pool = (Ok (g, s), Some (drop random_size rs), pool')
    /\ pool_ok e pool' /\ garbling_correct e key g.
Proof.
  intros Hnew Hok Hkey Hpool Hbytes Hrs.
  destruct (engine_ok_inv _ Hok) as (Hn & Htc & Hgates).
  destruct (newEngine_numbered _ _ Hnew Htc) as (total & Etc & Hnum).
  destruct (pool_get_ok e pool Hpool) as [Hs Hp].
  unfold garble, newFixedAES. rewrite aes_NewCipher_16 by done.
  destruct (pool_get e pool) as [sc pool']. cbn [fst snd] in *. rewrite Hs.
  replace (length (s_random (new_scratch e))) with random_size
    by (unfold new_scratch, zeros; cbn [s_random]; by rewrite length_replicate).
  rewrite ReadFull_enough by done.
  set (random := take random_size rs). set (n := Z.to_nat (numWires e)).
  assert (Hrb : is_bytes random) by (by apply Forall_take).
  assert (Hrl : length random = random_size) by (apply length_take_le; lia).
  set (r := withPermutationBit true _).
  assert (Hl16 : label_ok (labelFromBytes (slice random 0 16))).
  { apply labelFromBytes_ok; [|by apply slice_forall].
    rewrite length_slice; [done|lia|rewrite Hrl; unfold random_size; lia]. }
  assert (Hr : offset_ok r) by (split; [by apply withPermutationBit_ok|by apply permutationBit_with]).
  destruct (garble_inputs_spec r random (2 * InputBits) 0 16 (s_wires (new_scratch e)))
    as (ws & -> & Lws & Hws & _); [apply Hr|done|rewrite Hrl; unfold random_size; lia| |].
  { cbn [s_wires new_scratch]. rewrite length_replicate. lia. }
  cbn [mbind res_bind].
  destruct (garbled_run_correct e key r total ws (s_tables (new_scratch e)))
    as (st & -> & Hcorrect); try done.
  - cbn [s_wires new_scratch] in Lws. by rewrite length_replicate in Lws.
  - unfold new_scratch. cbn [s_tables]. rewrite length_replicate. lia.
  - intros i Hi. apply Hws. lia.
  - cbn [mbind res_bind]. eexists _, _, _. split_and!; done.
Qed.

End GarbleEvaluate.

(** ** Bit packing is a bijection between bit vectors and byte strings *)

(** Bit [m] of a byte string, least significant bit of each byte first. *)
Definition bit_at (d : bytes) (m : nat) : bool :=
  Z.testbit (default 0 (d !! (m / 8)%nat)) (Z.of_nat (m mod 8)).

Lemma length_bytesToBits data : length (bytesToBits data) = (8 * length data)%nat.
Proof.
  unfold bytesToBits. induction data as [|b data IH]; [done|].
  cbn [map concat length]. rewrite length_app, IH. unfold byte_bits.
  rewrite length_map, length_seqZ. lia.
Qed.

Lemma lookup_byte_bits b j :
  (j < 8)%nat -> byte_bits b !! j = Some (Z.testbit b (Z.of_nat j)).
Proof.
  intros Hj. unfold byte_bits. change (map ?f ?l) with (f <$> l).
  rewrite list_lookup_fmap, lookup_seqZ_lt by lia. done.
Qed.

Lemma lookup_bytesToBits data m :
  (m < 8 * length data)%nat -> bytesToBits data !! m = Some (bit_at data m).
Proof.
  revert m. induction data as [|b data IH]; intros m Hm; cbn [length] in Hm; [lia|].
  unfold bytesToBits, bit_at. cbn [map concat].
  assert (L : length (byte_bits b) = 8%nat)
    by (unfold byte_bits; by rewrite length_map, length_seqZ).
  destruct (decide (m < 8)%nat) as [Hlt|Hge].
  - rewrite lookup_app_l by lia. rewrite lookup_byte_bits by done.
    by rewrite Nat.div_small, Nat.mod_small by done.
  - rewrite lookup_app_r by lia. rewrite L. fold (bytesToBits data). rewrite IH by lia.
    unfold bit_at. replace (m / 8)%nat with (S ((m - 8) / 8)).
    + replace ((m - 8) mod 8)%nat with (m mod 8)%nat; [done|].
      replace m with ((m - 8) + 1 * 8)%nat at 1 by lia. by rewrite Nat.Div0.mod_add.
    + replace m with ((m - 8) + 1 * 8)%nat at 2 by lia. rewrite Nat.div_add by lia. lia.
Qed.

Lemma bit_at_ext d1 d2 :
  is_bytes d1 -> is_bytes d2 -> length d1 = length d2 ->
  (forall m, (m < 8 * length d1)%nat -> bit_at d1 m = bit_at d2 m) -> d1 = d2.
Proof.
  intros H1 H2 L H. apply list_eq_same_length with (length d1); [done..|].
  intros k x y Hk Hx Hy.
  assert (Bx : is_byte x) by (by eapply Forall_lookup_1 in Hx).
  assert (By : is_byte y) by (by eapply Forall_lookup_1 in Hy).
  apply (bits_inj_bounded 8); [done..|]. intros j Hj.
  specialize (H (8 * k + Z.to_nat j)%nat ltac:(lia)). unfold bit_at in H.
  replace ((8 * k + Z.to_nat j) / 8)%nat with k in H
    by (rewrite Nat.mul_comm, Nat.div_add_l, Nat.div_small; lia).
  replace ((8 * k + Z.to_nat j) mod 8)%nat with (Z.to_nat j) in H
    by (rewrite Nat.mul_comm, Nat.add_comm, Nat.Div0.mod_add, Nat.mod_small; lia).
  rewrite Hx, Hy in H. cbn [from_option id] in H. by rewrite Z2Nat.id in H by lia.
Qed.

(** Setting one bit. *)
Lemma bit_at_set d i x m :
  d !! (i / 8)%nat = Some x ->
  bit_at (<[(i / 8)%nat := Z.lor x (Z.shiftl 1 (Z.of_nat (i mod 8)))]> d) m =
  bit_at d m || (m =? i)%nat.
Proof.
  intros Hx. unfold bit_at. pose proof (lookup_lt_Some _ _ _ Hx) as Hlt.
  pose proof (Nat.div_mod_eq m 8). pose proof (Nat.div_mod_eq i 8).
  pose proof (Nat.mod_upper_bound m 8). pose proof (Nat.mod_upper_bound i 8).
  destruct (decide (m / 8 = i / 8)%nat) as [E|E].
  - rewrite E, list_lookup_insert_eq, Hx by done. cbn [from_option id].
    rewrite Z.lor_spec, Z.shiftl_1_l, Z.pow2_bits_eqb by lia. f_equal.
    destruct (Nat.eqb_spec m i); [apply Z.eqb_eq|apply Z.eqb_neq]; lia.
  - rewrite list_lookup_insert_ne by done.
    destruct (Nat.eqb_spec m i); [congruence|]. by rewrite orb_false_r.
Qed.

Lemma bitsToBytes_loop_spec bits : forall i dst,
  (i + length bits <= 8 * length dst)%nat -> is_bytes dst ->
  (forall m, (i <= m)%nat -> bit_at dst m = false) ->
  exists d, bitsToBytes_loop i bits dst = Ok d /\ length d = length dst /\ is_bytes d /\
    forall m, bit_at d m = if (m <? i)%nat then bit_at dst m else default false (bits !! (m - i)%nat).
Proof.
  induction bits as [|b bits IH]; intros i dst Hlen Hb Hz; cbn [bitsToBytes_loop length] in *.
  { exists dst. split_and!; [done..|]. intros m. rewrite lookup_nil.
    destruct (Nat.ltb_spec m i); [done|by apply Hz]. }
  assert (Hi : (i / 8 < length dst)%nat) by (apply Nat.Div0.div_lt_upper_bound; lia).
  destruct (lookup_lt_is_Some_2 _ _ Hi) as [x Hx].
  set (dst' := if b then <[(i / 8)%nat := Z.lor x (Z.shiftl 1 (Z.of_nat (i mod 8)))]> dst else dst).
  assert (Hstep : forall m, bit_at dst' m = bit_at dst m || (b && (m =? i)%nat)).
  { intros m. subst dst'. destruct b; [by rewrite bit_at_set|by rewrite orb_false_r]. }
  destruct (IH (S i) dst') as (d & E & L & Hd & Hbits).
  - subst dst'. destruct b; rewrite ?length_insert; lia.
  - subst dst'. destruct b; [|done]. apply Forall_insert; [done|].
    apply (lor_bound 8); [lia|exact (Forall_lookup_1 _ _ _ _ Hb Hx)|].
    rewrite Z.shiftl_1_l. pose proof (Nat.mod_upper_bound i 8).
    split; [lia|apply Z.pow_lt_mono_r; lia].
  - intros m Hm. rewrite Hstep, Hz by lia. destruct (Nat.eqb_spec m i); [lia|by rewrite andb_false_r].
  - exists d. split_and!; [|by rewrite L; subst dst'; destruct b; rewrite ?length_insert|done|].
    + rewrite <- E. subst dst'. destruct b; [|done]. unfold index. rewrite Hx.
      cbn [mbind res_bind]. by rewrite set_index_Ok.
    + intros m. rewrite Hbits, Hstep.
      destruct (Nat.ltb_spec m (S i)), (Nat.ltb_spec m i); try lia.
      * destruct (Nat.eqb_spec m i); [lia|]. by rewrite andb_false_r, orb_false_r.
      * replace m with i by lia. rewrite Nat.sub_diag, Nat.eqb_refl, andb_true_r, Hz by lia. done.
      * replace (m - i)%nat with (S (m - S i)) by lia. done.
Qed.

Lemma bitsToBytes_spec bits n :
  length bits = (8 * n)%nat ->
  exists d, bitsToBytes bits n = Ok d /\ length d = n /\ is_bytes d /\ bytesToBits d = bits.
Proof.
  intros Hl. unfold bitsToBytes.
  assert (Hz : forall m, bit_at (zeros n) m = false).
  { intros m. unfold bit_at. destruct (zeros n !! (m / 8)%nat) eqn:E; [|apply Z.testbit_0_l].
    apply lookup_replicate in E as [-> _]. apply Z.testbit_0_l. }
  destruct (bitsToBytes_loop_spec bits 0 (zeros n)) as (d & E & L & Hd & Hbits);
    [unfold zeros; rewrite length_replicate; lia|auto with word|done|].
  unfold zeros in L. rewrite length_replicate in L.
  exists d. split_and!; [done..|]. apply list_eq_same_length with (8 * n)%nat;
    [done|by rewrite length_bytesToBits, L|].
  intros m x y Hm Hx Hy. rewrite lookup_bytesToBits in Hx by lia.
  rewrite Hbits in Hx. cbn [Nat.ltb Nat.leb] in Hx. rewrite Nat.sub_0_r, Hy in Hx.
  by injection Hx.
Qed.

Lemma bytesToBits_inj d1 d2 :
  is_bytes d1 -> is_bytes d2 -> bytesToBits d1 = bytesToBits d2 -> d1 = d2.
Proof.
  intros H1 H2 E. assert (L : length d1 = length d2).
  { apply (f_equal length) in E. rewrite !length_bytesToBits in E. lia. }
  apply bit_at_ext; [done..|]. intros m Hm.
  apply (f_equal (fun l => l !! m)) in E.
  rewrite !lookup_bytesToBits in E by lia. by injection E.
Qed.

Lemma bitsToBytes_bytesToBits d : is_bytes d -> bitsToBytes (bytesToBits d) (length d) = Ok d.
Proof.
  intros Hd. destruct (bitsToBytes_spec (bytesToBits d) (length d)) as (d' & -> & L & Hb & E);
    [apply length_bytesToBits|]. f_equal. by apply bytesToBits_inj.
Qed.

(** ** Garbling, end to end *)

(** C9: garbling a well-formed circuit with enough randomness always succeeds,
    returns its scratch pool in order, and evaluating the garbled tables on one
    label per input wire yields, on every output wire, the label of the bit that
    the plain circuit computes; the two labels of an output wire differ in their
    permutation bit, so the bit can be read off. *)
Theorem garbling_evaluates_circuit `{BlockCipher} compiled e rs key pool vs :
  newEngine compiled = Ok e -> engine_ok e = true -> length key = 16%nat -> is_bytes rs ->
  (random_size <= length rs)%nat -> pool_ok e pool -> length vs = (2 * InputBits)%nat ->
  exists g s pool', garble e (Some rs) key pool = (Ok (g, s), Some (drop random_size rs), pool') /\
    pool_ok e pool' /\
    forall wires, length wires = Z.to_nat (numWires e) ->
      (forall i v, vs !! i = Some v ->
         exists w, g_wires g !! i = Some w /\ wires !! i = Some (label_of w v)) ->
      exists outs, evaluate e key wires (g_tables g) = Ok outs /\
        forall i, (i < OutputBits)%nat -> exists w b,
          g_wires g !! (Z.to_nat (numWires e) - OutputBits + i)%nat = Some w /\
          plain_outputs e vs !! i = Some b /\
          outs !! (Z.to_nat (numWires e) - OutputBits + i)%nat = Some (label_of w b) /\
          b = xorb (permutationBit (l0 w)) (permutationBit (label_of w b)).
Proof.
  intros Hnew Hok Hkey Hrs Hlen Hpool Hvs.
  destruct (garble_total compiled e rs key pool) as (g & s & pool' & E & Hp & Hg); [done..|].
  exists g, s, pool'. split; [done|]. split; [done|]. intros wires Lw Hw.
  destruct Hg as (_ & _ & r & Hr & _ & Heval).
  destruct (Heval vs wires Hvs Lw Hw) as (outs & Eo & _ & _ & Hout). exists outs. split; [done|].
  intros i Hi. destruct (Hout i Hi) as (w & b & Hwi & Hok' & Hb & Ho). exists w, b. split_and!; try done.
  rewrite (label_of_perm r) by done. generalize (permutationBit (l0 w)). by intros []; destruct b.
Qed.

(** A circuit with the required interface: every output is the XOR of the first
    input with itself. *)
Definition xor_circuit : markCircuit :=
  mkMarkCircuit 2 1280 128 1408
    (map (fun i => mkMarkGate 0 0 (1280 + i) MarkXOR) (seqZ 0 128)).

Definition xor_engine : engine :=
  mkEngine (map (fun i => mkGate 0 0 (1280 + i) 0 opXOR) (seqZ 0 128)) 1408 0.

Lemma xor_engine_new : newEngine (Some xor_circuit) = Ok xor_engine.
Proof. vm_compute. reflexivity. Qed.

Lemma xor_engine_ok : engine_ok xor_engine = true.
Proof. vm_compute. reflexivity. Qed.

Lemma garbling_evaluates_circuit_witness :
  exists g s pool', @garble const_cipher xor_engine (Some (zeros random_size)) (zeros 16) [] =
    (Ok (g, s), Some (drop random_size (zeros random_size)), pool').
Proof.
  destruct (@garbling_evaluates_circuit const_cipher (Some xor_circuit) xor_engine (zeros random_size)
    (zeros 16) [] (replicate (2 * InputBits) false)) as (g & s & pool' & E & _).
  - exact xor_engine_new.
  - exact xor_engine_ok.
  - reflexivity.
  - apply zeros_bytes.
  - unfold zeros. rewrite length_replicate. apply Nat.le_refl.
  - constructor.
  - apply length_replicate.
  - exists g, s, pool'. exact E.
Defined.
