(* ===== verification/Oprf.v ===== *)
(** * The online OPRF protocol ([mpc/oprf.go])

    One garbler (TEE_K) and one evaluator (TEE_T) evaluate the fixed circuit on
    their private inputs: the garbler sends the garbled circuit, the evaluator
    answers with choice corrections for its precomputed random OTs, the garbler
    returns masked labels, the evaluator evaluates and sends the output labels,
    the garbler checks them.  Sessions are single use.

    A method on a pointer takes the pointed-to state as an [option] ([None] is
    the nil pointer) and returns the new state next to its result.  The mutex of
    a session makes each operation atomic. *)

From S2P Require Import Prelude Bytes Label Crypto Circuit.

Record SenderOT := mkSenderOT { R0 : Label; R1 : Label; sIndex : Z }.
Record ReceiverOT := mkReceiverOT { R : Label; rIndex : Z; Choice : bool }.
Record OTMask := mkOTMask { M0 : Label; M1 : Label }.

Definition sender_zero : SenderOT := mkSenderOT label_zero label_zero 0.
Definition receiver_zero : ReceiverOT := mkReceiverOT label_zero 0 false.

Record OnlinePayload := mkPayload {
  pSessionID : Z;
  Key : bytes;
  Tables : list Label;
  GarblerInputs : list Label;
  OutputTranslations : bytes;
  OTStartIndex : Z;
  p_garbled : option garbleScratch;
}.

Record GarblerSession := mkGarblerSession {
  gSessionID : Z;
  evaluatorWires : list wire;
  otPads : list SenderOT;
  outputWires : list wire;
  corrected : bool;
  verified : bool;
}.

Record EvaluatorSession := mkEvaluatorSession {
  eSessionID : Z;
  payload : option OnlinePayload;
  inputBits : list bool;
  eOts : list ReceiverOT;
  evaluated : bool;
}.

Record OnlineResult := mkOnlineResult { CMACOutput : bytes; OutputLabels : list Label }.

(** ** Releasing and destroying *)

Definition payload_Release (p : option OnlinePayload) (pool : list garbleScratch)
    : option OnlinePayload * list garbleScratch :=
  match p with
  | None => (None, pool)
  | Some p =>
      let p' := mkPayload (pSessionID p) (zeros 16) [] [] (zeros (OutputBits / 8))
                  (OTStartIndex p) None in
      match p_garbled p with
      | Some scratch => (Some p', garbled_release scratch pool)
      | None => (Some p', pool)
      end
  end.

Definition garblerSession_Destroy (s : option GarblerSession) : option GarblerSession :=
  match s with
  | None => None
  | Some s => Some (mkGarblerSession (gSessionID s) [] [] [] true true)
  end.

Definition evaluatorSession_Destroy (s : option EvaluatorSession) (pool : list garbleScratch)
    : option EvaluatorSession * list garbleScratch :=
  match s with
  | None => (None, pool)
  | Some s =>
      let pool' := snd (payload_Release (payload s) pool) in
      (Some (mkEvaluatorSession (eSessionID s) None (replicate InputBits false) [] true), pool')
  end.

Definition PadZeros64 (data : bytes) (dataLen : Z) : res bytes :=
  fail_if ((dataLen <? 0) || (64 <? dataLen)) "mpc: data length is outside [0,64]";;
  fail_if (Z.of_nat (length data) <? dataLen) "mpc: data slice length is shorter";;
  let n := Z.to_nat dataLen in
  Ok (take n data ++ zeros (64 - n)).

(** ** Index validation *)

Fixpoint sender_indices_ok (ots : list SenderOT) (start : Z) (i : nat) : bool :=
  match ots with
  | [] => true
  | o :: ots => (sIndex o =? add64 start (Z.of_nat i)) && sender_indices_ok ots start (S i)
  end.

Definition validateSenderOTIndices (ots : list SenderOT) (start : Z) : res unit :=
  _ ← checkedIndexEnd start (Z.of_nat (length ots));
  if sender_indices_ok ots start 0 then Ok () else Err "mpc: sender OT index".

Fixpoint receiver_indices_ok (ots : list ReceiverOT) (start : Z) (i : nat) : bool :=
  match ots with
  | [] => true
  | o :: ots => (rIndex o =? add64 start (Z.of_nat i)) && receiver_indices_ok ots start (S i)
  end.

Definition validateReceiverOTIndices (ots : list ReceiverOT) (start : Z) : res unit :=
  _ ← checkedIndexEnd start (Z.of_nat (length ots));
  if receiver_indices_ok ots start 0 then Ok () else Err "mpc: receiver OT index".

Section Online.
Context {BC : BlockCipher}.
(** What the third-party circuit compiler returned for the fixed source. *)
Context (compiled : res markCircuit).

(** [s[start:]] of the wire array, where [start = numWires - OutputBits]. *)
Definition output_tail {A} (e : engine) (l : list A) : res (list A) :=
  let start := numWires e - Z.of_nat OutputBits in
  if (start <? 0) || (Z.of_nat (length l) <? start) then Panic else Ok (drop (Z.to_nat start) l).

(** ** Garbler, first message *)

Definition GarblerOnline (rng : option bytes) (garblerInput : bytes) (ots : list SenderOT)
    (otStartIndex : Z) (pool : list garbleScratch)
    : res (OnlinePayload * GarblerSession) * option bytes * list garbleScratch :=
  match rng with
  | None => (Err "mpc: nil randomness source", rng, pool)
  | Some rs =>
      if negb (length ots =? InputBits)%nat then (Err "mpc: need sender OTs", rng, pool) else
      match (_ ← validateSenderOTIndices ots otStartIndex; defaultEngine compiled) with
      | Err m => (Err m, rng, pool)
      | Panic => (Panic, rng, pool)
      | Ok e =>
          match ReadFull rs 24 with
          | None => (Err "mpc: read online randomness", Some [], pool)
          | Some (header, rs) =>
              let sessionID := be_get (slice header 0 8) in
              let key := slice header 8 24 in
              match garble e (Some rs) key pool with
              | (Err _, rng, pool) => (Err "mpc: garble circuit", rng, pool)
              | (Panic, rng, pool) => (Panic, rng, pool)
              | (Ok (g, scratch), rng, pool) =>
                  let bits := bytesToBits garblerInput in
                  let garblerInputs :=
                    zip_with (fun (bit : bool) w => if bit then l1 w else l0 w) bits (g_wires g) in
                  let evaluatorWires := slice (g_wires g) InputBits (2 * InputBits) in
                  let result :=
                    outputWires ← output_tail e (g_wires g);
                    translations ←
                      bitsToBytes (map (fun w => permutationBit (l0 w)) outputWires) (OutputBits / 8);
                    Ok (mkPayload sessionID key (g_tables g) garblerInputs translations
                          otStartIndex (Some scratch),
                        mkGarblerSession sessionID evaluatorWires ots outputWires false false) in
                  (result, rng, pool)
              end
          end
      end
  end.

(** ** Evaluator, choice corrections *)

Definition EvaluatorPrepare (p : option OnlinePayload) (evaluatorInput : bytes)
    (ots : list ReceiverOT) : res (EvaluatorSession * list bool) :=
  match p with
  | None => Err "mpc: nil online payload"
  | Some p =>
      fail_if (negb (length ots =? InputBits)%nat) "mpc: need receiver OTs";;
      fail_if (negb (length (GarblerInputs p) =? InputBits)%nat) "mpc: garbler input label count";;
      _ ← validateReceiverOTIndices ots (OTStartIndex p);
      let bits := bytesToBits evaluatorInput in
      let corrections := zip_with (fun o bit => xorb (Choice o) bit) ots bits in
      Ok (mkEvaluatorSession (pSessionID p) (Some p) bits ots false, corrections)
  end.

(** ** Garbler, masked labels *)

Definition mask_for (w : wire) (pads : SenderOT) (c : bool) : OTMask :=
  let '(r0, r1) := if c then (R1 pads, R0 pads) else (R0 pads, R1 pads) in
  mkOTMask (l0 w ⊕ r0) (l1 w ⊕ r1).

Fixpoint make_masks (ws : list wire) (pads : list SenderOT) (cs : list bool) : list OTMask :=
  match ws, pads, cs with
  | w :: ws, p :: pads, c :: cs => mask_for w p c :: make_masks ws pads cs
  | _, _, _ => []
  end.

Definition ApplyCorrections (session : option GarblerSession) (corrections : list bool)
    : option GarblerSession * res (list OTMask) :=
  match session with
  | None => (None, Err "mpc: nil garbler session")
  | Some s =>
      if negb (length corrections =? InputBits)%nat then (Some s, Err "mpc: need corrections") else
      if corrected s then (Some s, Err "mpc: corrections already applied") else
      if negb (length (evaluatorWires s) =? InputBits)%nat || negb (length (otPads s) =? InputBits)%nat
      then (Some s, Err "mpc: invalid garbler session state") else
      let masks := make_masks (evaluatorWires s) (otPads s) corrections in
      (Some (mkGarblerSession (gSessionID s) [] [] (outputWires s) true (verified s)), Ok masks)
  end.

(** ** Evaluator, evaluation *)

(** [e.evalPool]: a stack of free label buffers. *)
Definition evalPool_get (e : engine) (pool : list (list Label)) : list Label * list (list Label) :=
  match pool with
  | [] => (replicate (Z.to_nat (numWires e)) label_zero, [])
  | ws :: pool => (ws, pool)
  end.

(** [copy(wires[:InputBits], p.GarblerInputs)] and the unmasking loop. *)
Fixpoint unmask_loop (bits : list bool) (ots : list ReceiverOT) (masks : list OTMask)
    (i : nat) (ws : list Label) : res (list Label) :=
  match bits, ots, masks with
  | b :: bits, o :: ots, m :: masks =>
      ws' ← set_index ws i (R o ⊕ (if b then M1 m else M0 m));
      unmask_loop bits ots masks (S i) ws'
  | _, _, _ => Ok ws
  end.

Definition load_inputs (wires : list Label) (garblerInputs : list Label) (bits : list bool)
    (ots : list ReceiverOT) (masks : list OTMask) : res (list Label) :=
  if (length wires <? InputBits)%nat then Panic else
  let n := Nat.min InputBits (length garblerInputs) in
  let wires := take n garblerInputs ++ drop n wires in
  unmask_loop bits ots masks InputBits wires.

Definition decode_outputs (labels : list Label) (translations : bytes) : list bool :=
  imap (fun i label => xorb (permutationBit label) (bit_at translations i)) labels.

Definition evaluated_session (s : EvaluatorSession) : EvaluatorSession :=
  mkEvaluatorSession (eSessionID s) None (replicate InputBits false) [] true.

Definition EvaluatorOnline (session : option EvaluatorSession) (masks : list OTMask)
    (pool : list (list Label))
    : option EvaluatorSession * res OnlineResult * list (list Label) :=
  match session with
  | None => (None, Err "mpc: nil evaluator session", pool)
  | Some s =>
      if negb (length masks =? InputBits)%nat then (Some s, Err "mpc: need OT masks", pool) else
      if evaluated s then (Some s, Err "mpc: evaluator session already used", pool) else
      let s' := Some (evaluated_session s) in
      match payload s with
      | None => (s', Err "mpc: invalid evaluator session state", pool)
      | Some p =>
          if negb (length (eOts s) =? InputBits)%nat
          then (s', Err "mpc: invalid evaluator session state", pool) else
          match defaultEngine compiled with
          | Err m => (s', Err m, pool)
          | Panic => (s', Panic, pool)
          | Ok e =>
              let '(wires, pool) := evalPool_get e pool in
              let result :=
                wires ← load_inputs wires (GarblerInputs p) (inputBits s) (eOts s) masks;
                outs ← match evaluate e (Key p) wires (Tables p) with
                       | Err _ => Err "mpc: evaluate circuit"
                       | r => r
                       end;
                labels ← output_tail e outs;
                cmac ← bitsToBytes (decode_outputs labels (OutputTranslations p)) 16;
                Ok (mkOnlineResult cmac labels) in
              (s', result, replicate (length wires) label_zero :: pool)
          end
      end
  end.

(** ** Garbler, verification of the output labels *)

Fixpoint match_labels (labels : list Label) (ws : list wire) : res (list bool) :=
  match labels, ws with
  | l :: labels, w :: ws =>
      if label_equal l (l0 w) then bs ← match_labels labels ws; Ok (false :: bs)
      else if label_equal l (l1 w) then bs ← match_labels labels ws; Ok (true :: bs)
      else Err "mpc: output label is invalid"
  | _, _ => Ok []
  end.

Definition VerifyOutput (session : option GarblerSession) (labels : list Label)
    : option GarblerSession * res bytes :=
  match session with
  | None => (None, Err "mpc: nil garbler session")
  | Some s =>
      if negb (corrected s) then (Some s, Err "mpc: corrections not applied") else
      if verified s then (Some s, Err "mpc: output already verified") else
      let s' := Some (mkGarblerSession (gSessionID s) (evaluatorWires s) (otPads s) [] true true) in
      if negb (length labels =? OutputBits)%nat || negb (length (outputWires s) =? OutputBits)%nat
      then (s', Err "mpc: need output labels") else
      (s', bits ← match_labels labels (outputWires s); bitsToBytes bits 16)
  end.

End Online.

(** ** Correlated OTs: what precomputation leaves with the two parties *)

Definition ot_pair (s : SenderOT) (t : ReceiverOT) : Prop :=
  sIndex s = rIndex t /\ R t = if Choice t then R1 s else R0 s.

Definition correlated : list SenderOT -> list ReceiverOT -> Prop := Forall2 ot_pair.

Lemma correlated_indices sots rots start i :
  correlated sots rots -> sender_indices_ok sots start i = receiver_indices_ok rots start i.
Proof.
  intros H. revert i. induction H as [|s t sots rots [E _] H IH]; intros i; [done|].
  cbn [sender_indices_ok receiver_indices_ok]. by rewrite E, IH.
Qed.

Lemma correlated_validate sots rots start :
  correlated sots rots -> validateSenderOTIndices sots start = Ok () ->
  validateReceiverOTIndices rots start = Ok ().
Proof.
  intros H. unfold validateSenderOTIndices, validateReceiverOTIndices.
  rewrite <- (Forall2_length _ _ _ H), <- (correlated_indices sots) by done.
  destruct (checkedIndexEnd _ _); [|done..]. cbn [mbind res_bind]. by destruct (sender_indices_ok _ _ _).
Qed.

(** ** One OT: the evaluator unmasks exactly the label of its input bit *)

Lemma ot_transfer w s t (b : bool) :
  ot_pair s t ->
  R t ⊕ (if b then M1 (mask_for w s (xorb (Choice t) b)) else M0 (mask_for w s (xorb (Choice t) b)))
  = label_of w b.
Proof.
  intros [_ E]. rewrite E. unfold mask_for, label_of.
  destruct (Choice t), b; cbn [xorb M0 M1]; xor_solve.
Qed.

Lemma length_make_masks ws pads cs :
  length pads = length ws -> length cs = length ws -> length (make_masks ws pads cs) = length ws.
Proof.
  revert pads cs. induction ws as [|w ws IH]; intros [|p pads] [|c cs] H1 H2; simplify_eq/=; [done|].
  f_equal. auto.
Qed.

Lemma unmask_loop_spec ws sots rots : correlated sots rots -> forall bits i wires,
  length ws = length sots -> length bits = length sots ->
  (i + length sots <= length wires)%nat ->
  exists wires',
    unmask_loop bits rots
      (make_masks ws sots (zip_with (fun o bit => xorb (Choice o) bit) rots bits)) i wires = Ok wires'
    /\ length wires' = length wires
    /\ (forall j, (j < i)%nat -> wires' !! j = wires !! j)
    /\ (forall j w b, ws !! j = Some w -> bits !! j = Some b ->
          wires' !! (i + j)%nat = Some (label_of w b)).
Proof.
  intros Hc. revert ws. induction Hc as [|s t sots rots Hp Hc IH]; intros ws bits i wires Lw Lb Hl;
    destruct ws as [|w ws], bits as [|b bits]; simplify_eq/=.
  { exists wires. split_and!; [done..|]. intros j w b Hj. by rewrite lookup_nil in Hj. }
  rewrite (ot_transfer w s t b Hp). go_run.
  destruct (IH ws bits (S i) (<[i := label_of w b]> wires)) as (wires' & E & L & Hlow & Hhigh);
    [done|done|rewrite length_insert; lia|].
  rewrite length_insert in L. exists wires'. split_and!; [done|done| |].
  - intros j Hj. rewrite Hlow, list_lookup_insert_ne by lia. done.
  - intros [|j] w' b' Hw Hb; simplify_eq/=.
    + by rewrite Nat.add_0_r, Hlow, list_lookup_insert_eq by lia.
    + rewrite Nat.add_succ_r. exact (Hhigh j w' b' Hw Hb).
Qed.

(** ** The output labels decode to the plain bits on both sides *)

(** Labels of the bits [bs] on the wires [ws]. *)
Definition carries (r : Label) (ws : list wire) (labels : list Label) (bs : list bool) : Prop :=
  length ws = length bs /\ length labels = length bs /\
  forall i b, bs !! i = Some b ->
    exists w, ws !! i = Some w /\ wire_ok r w /\ labels !! i = Some (label_of w b).

Lemma carries_cons r ws labels b bs :
  carries r ws labels (b :: bs) ->
  exists w ws' labels', ws = w :: ws' /\ wire_ok r w /\ labels = label_of w b :: labels' /\
    carries r ws' labels' bs.
Proof.
  intros (L1 & L2 & H). destruct ws as [|w ws], labels as [|l labels]; simplify_eq/=.
  destruct (H 0%nat b eq_refl) as (w' & ? & ? & ?); simplify_eq/=.
  eexists _, _, _. split_and!; [done..|]. split_and!; [done..|].
  intros i c Hi. apply (H (S i) c Hi).
Qed.

Lemma match_labels_spec r ws labels bs :
  offset_ok r -> carries r ws labels bs -> match_labels labels ws = Ok bs.
Proof.
  intros Hr. revert ws labels. induction bs as [|b bs IH]; intros ws labels H.
  { destruct H as (L1 & L2 & _). by destruct ws, labels. }
  apply carries_cons in H as (w & ws' & labels' & -> & Hw & -> & H).
  cbn [match_labels]. rewrite (IH _ _ H). cbn [mbind res_bind].
  destruct (label_equal (label_of w b) (l0 w)) eqn:E0.
  - apply label_equal_spec in E0. by apply (label_of_inj r w b false Hr Hw) in E0 as ->.
  - destruct b.
    + by rewrite (proj2 (label_equal_spec _ _)).
    + by rewrite (proj2 (label_equal_spec _ _)) in E0.
Qed.

(** The translation bits sent with the payload. *)
Definition translation_bits (ws : list wire) : list bool := map (fun w => permutationBit (l0 w)) ws.

Lemma decode_outputs_spec r ws labels bs tr :
  offset_ok r -> carries r ws labels bs -> bytesToBits tr = translation_bits ws ->
  decode_outputs labels tr = bs.
Proof.
  intros Hr (L1 & L2 & H) Htr. unfold decode_outputs.
  apply list_eq_same_length with (length bs); [done|by rewrite length_imap|].
  intros i x b Hi Hx Hb. destruct (H i b Hb) as (w & Hw & Hok & Hl).
  rewrite list_lookup_imap, Hl in Hx. cbn [fmap option_fmap option_map] in Hx.
  apply (inj Some) in Hx as <-.
  assert (Hbit : bit_at tr i = permutationBit (l0 w)).
  { apply (f_equal (fun l => l !! i)) in Htr. unfold translation_bits in Htr.
    change (map ?f ?l) with (f <$> l) in Htr. rewrite list_lookup_fmap, Hw in Htr.
    cbn [fmap option_fmap option_map] in Htr.
    rewrite lookup_bytesToBits in Htr; [by apply (inj Some) in Htr|].
    apply lookup_lt_Some in Htr. by rewrite length_bytesToBits in Htr. }
  rewrite Hbit, (label_of_perm r) by done.
  generalize (permutationBit (l0 w)). by intros []; destruct b.
Qed.

(** ** The garbler accepts only labels it issued *)

Lemma match_labels_sound labels ws bs :
  length labels = length ws -> match_labels labels ws = Ok bs ->
  Forall2 (fun '(l, w) b => l = label_of w b) (zip labels ws) bs.
Proof.
  revert ws bs. induction labels as [|l labels IH]; intros [|w ws] bs L H; try done;
    cbn [match_labels zip zip_with] in *; [injection H as <-; constructor|].
  destruct (label_equal l (l0 w)) eqn:E0; [|destruct (label_equal l (l1 w)) eqn:E1; [|done]];
    inv_bind H; injection H as <-; (constructor; [by apply label_equal_spec|]);
    (apply IH; [by apply Nat.succ_inj|done]).
Qed.

(** ** The garbler's session as a state machine *)

Inductive garblerOp :=
| GApply (corrections : list bool)
| GVerify (labels : list Label)
| GDestroy.

(** What a call lets out of the session. *)
Inductive garblerEvent :=
| EMasks (masks : list OTMask)
| EOutput (out : bytes)
| ENone.

Definition garbler_exec (s : GarblerSession) (o : garblerOp) : GarblerSession * garblerEvent :=
  match o with
  | GApply cs =>
      match ApplyCorrections (Some s) cs with
      | (s', Ok masks) => (default s s', EMasks masks)
      | (s', _) => (default s s', ENone)
      end
  | GVerify labels =>
      match VerifyOutput (Some s) labels with
      | (s', Ok out) => (default s s', EOutput out)
      | (s', _) => (default s s', ENone)
      end
  | GDestroy => (default s (garblerSession_Destroy (Some s)), ENone)
  end.

Fixpoint garbler_trace (s : GarblerSession) (ops : list garblerOp) : list garblerEvent :=
  match ops with
  | [] => []
  | o :: ops => let '(s', ev) := garbler_exec s o in ev :: garbler_trace s' ops
  end.

Definition is_masks (ev : garblerEvent) : bool := match ev with EMasks _ => true | _ => false end.
Definition is_output (ev : garblerEvent) : bool := match ev with EOutput _ => true | _ => false end.

Definition count {A} (f : A -> bool) (l : list A) : nat := length (filter (fun x => f x = true) l).

Lemma count_cons {A} (f : A -> bool) x l : count f (x :: l) = ((if f x then 1 else 0) + count f l)%nat.
Proof. unfold count. rewrite filter_cons. by destruct (f x). Qed.

(** One call: the phase only moves forward, masks leave only in the first phase
    and an output only in the second. *)
Lemma garbler_exec_spec s o s' ev :
  garbler_exec s o = (s', ev) ->
  (corrected s = true -> corrected s' = true) /\
  (verified s = true -> verified s' = true) /\
  (is_masks ev = true -> corrected s = false /\ corrected s' = true /\ verified s' = verified s) /\
  (is_output ev = true -> corrected s = true /\ verified s = false /\ verified s' = true) /\
  (corrected s = true -> forall labels, o = GVerify labels -> verified s' = true).
Proof.
  destruct o as [cs|labels|]; cbn [garbler_exec]; intros H.
  - unfold ApplyCorrections in H.
    destruct (negb (length cs =? InputBits)%nat); [by simplify_eq|].
    destruct (corrected s) eqn:E; [by simplify_eq|].
    destruct (_ || _); [by simplify_eq|].
    cbn in H. injection H as <- <-. cbn [corrected verified is_masks is_output]. by split_and!.
  - unfold VerifyOutput in H. destruct (corrected s) eqn:Ec; cbn [negb] in H; [|by simplify_eq/=].
    destruct (verified s) eqn:Ev.
    + cbn in H. injection H as <- <-. rewrite Ec, Ev. by split_and!.
    + destruct (_ || _); [cbn in H; injection H as <- <-; by split_and!|].
      destruct (_ ≫= _); cbn in H; injection H as <- <-; cbn [corrected verified]; by split_and!.
  - cbn in H. injection H as <- <-. cbn. by split_and!.
Qed.

Lemma garbler_trace_counts ops s :
  (count is_masks (garbler_trace s ops) <= if corrected s then 0 else 1)%nat /\
  (count is_output (garbler_trace s ops) <= if verified s then 0 else 1)%nat.
Proof.
  revert s. induction ops as [|o ops IH]; intros s.
  { cbn. destruct (corrected s), (verified s); lia. }
  cbn [garbler_trace]. destruct (garbler_exec s o) as [s' ev] eqn:E.
  apply garbler_exec_spec in E as (Hc & Hv & Hm & Ho & _).
  rewrite !count_cons. destruct (IH s') as [IH1 IH2].
  destruct (corrected s) eqn:Ec; [rewrite Hc in IH1 by done|];
  destruct (verified s) eqn:Ev; [rewrite Hv in IH2 by done|..| rewrite Hv in IH2 by done|];
  destruct (is_masks ev) eqn:Em, (is_output ev) eqn:Eo;
  try destruct (Hm eq_refl) as (? & Hm1 & Hm2); try destruct (Ho eq_refl) as (? & ? & Ho1);
  try congruence; rewrite ?Hm1, ?Ho1 in *; split; try lia;
  destruct (corrected s'), (verified s'); simplify_eq; lia.
Qed.

(** ** The protocol, end to end *)

Section Protocol.
Context {BC : BlockCipher} (compiled : res markCircuit).

(** Everything the two parties exchange in one honest run: the evaluator's
    value of the output and the garbler's verified value. *)
Definition run_oprf (rs garblerInput evaluatorInput : bytes) (sots : list SenderOT)
    (rots : list ReceiverOT) (start : Z) (pool : list garbleScratch) (epool : list (list Label))
    : res (bytes * bytes) :=
  '(p, gs) ← fst (fst (GarblerOnline compiled (Some rs) garblerInput sots start pool));
  '(es, corrections) ← EvaluatorPrepare (Some p) evaluatorInput rots;
  let '(gs1, masks) := ApplyCorrections (Some gs) corrections in
  masks ← masks;
  result ← snd (fst (EvaluatorOnline compiled (Some es) masks epool));
  out ← snd (VerifyOutput gs1 (OutputLabels result));
  Ok (CMACOutput result, out).

(** What the garbler's first message and its session agree on. *)
Definition garbler_ready (e : engine) (garblerInput : bytes) (sots : list SenderOT) (start : Z)
    (p : OnlinePayload) (gs : GarblerSession) : Prop :=
  exists g, garbling_correct e (Key p) g /\ Tables p = g_tables g /\
    GarblerInputs p = zip_with (fun bit w => label_of w bit) (bytesToBits garblerInput) (g_wires g) /\
    evaluatorWires gs = slice (g_wires g) InputBits (2 * InputBits) /\
    outputWires gs = drop (Z.to_nat (numWires e) - OutputBits) (g_wires g) /\
    bytesToBits (OutputTranslations p) = translation_bits (outputWires gs) /\
    otPads gs = sots /\ corrected gs = false /\ verified gs = false /\ OTStartIndex p = start.

Lemma output_tail_Ok {A} e (l : list A) :
  engine_ok e = true -> length l = Z.to_nat (numWires e) ->
  output_tail e l = Ok (drop (Z.to_nat (numWires e) - OutputBits) l).
Proof.
  intros (Hn & _)%engine_ok_inv L. unfold output_tail, InputBits, OutputBits in *.
  rewrite (proj2 (Z.ltb_ge _ _)) by lia. rewrite (proj2 (Z.ltb_ge _ _)) by lia.
  cbn [orb]. do 2 f_equal. lia.
Qed.

Lemma GarblerOnline_ready c e rs gIn sots start pool :
  compiled = Ok c -> newEngine (Some c) = Ok e -> engine_ok e = true -> pool_ok e pool ->
  is_bytes rs -> (24 + random_size <= length rs)%nat ->
  length sots = InputBits -> validateSenderOTIndices sots start = Ok () ->
  exists p gs rng' pool',
    GarblerOnline compiled (Some rs) gIn sots start pool = (Ok (p, gs), rng', pool') /\
    pool_ok e pool' /\ garbler_ready e gIn sots start p gs.
Proof.
  intros -> Hnew Hok Hpool Hrs Hlen Ls Hval. unfold GarblerOnline.
  rewrite Ls, Nat.eqb_refl, Hval. cbn [negb mbind res_bind defaultEngine].
  rewrite Hnew, ReadFull_enough by lia.
  set (key := slice _ 8 24).
  destruct (garble_total (Some c) e (drop 24 rs) key pool)
    as (g & s & pool' & -> & Hp & Hg); try done.
  { subst key. rewrite length_slice; rewrite ?length_take; lia. }
  { by apply Forall_drop. }
  { rewrite length_drop. lia. }
  pose proof Hg as (Lw & _). pose proof (engine_ok_inv _ Hok) as (Hn & _).
  rewrite output_tail_Ok by done. cbn [mbind res_bind].
  set (ows := drop _ (g_wires g)).
  destruct (bitsToBytes_spec (map (fun w => permutationBit (l0 w)) ows) (OutputBits / 8))
    as (tr & -> & _ & _ & Htr).
  { rewrite length_map. subst ows. rewrite length_drop. unfold OutputBits in *. cbn. lia. }
  cbn [mbind res_bind]. eexists _, _, _, _. split; [done|]. split; [done|].
  exists g. cbn. split_and!; done.
Qed.

Definition epool_ok (e : engine) (epool : list (list Label)) : Prop :=
  Forall (fun ws => length ws = Z.to_nat (numWires e)) epool.

Lemma evalPool_get_ok e epool :
  epool_ok e epool -> length (fst (evalPool_get e epool)) = Z.to_nat (numWires e).
Proof. intros H. destruct H; cbn; [by rewrite length_replicate|done]. Qed.

(** The evaluator's wire buffer after unmasking carries both parties' bits. *)
Lemma load_inputs_spec n ws0 gws gbits ebits sots rots :
  (2 * InputBits <= n)%nat -> length ws0 = n -> length gws = n ->
  length gbits = InputBits -> length ebits = InputBits -> length sots = InputBits ->
  correlated sots rots ->
  exists ws1,
    load_inputs ws0 (zip_with (fun bit w => label_of w bit) gbits gws) ebits rots
      (make_masks (slice gws InputBits (2 * InputBits)) sots
         (zip_with (fun o bit => xorb (Choice o) bit) rots ebits)) = Ok ws1 /\
    length ws1 = n /\
    forall i v, (gbits ++ ebits) !! i = Some v ->
      exists w, gws !! i = Some w /\ ws1 !! i = Some (label_of w v).
Proof.
  intros Hn L0 Lg Lgb Leb Ls Hc. unfold load_inputs.
  rewrite (proj2 (Nat.ltb_ge _ _)) by lia.
  set (GI := zip_with _ gbits gws).
  assert (LGI : length GI = InputBits) by (subst GI; rewrite length_zip_with; lia).
  rewrite LGI, Nat.min_id. rewrite (take_ge GI) by lia.
  destruct (unmask_loop_spec (slice gws InputBits (2 * InputBits)) sots rots Hc ebits InputBits
    (GI ++ drop InputBits ws0)) as (ws1 & E & L & Hlow & Hhigh);
    [rewrite length_slice; lia|lia|rewrite length_app, length_drop; lia|].
  exists ws1. split; [done|]. rewrite length_app, length_drop in L. split; [lia|].
  intros i v [Hv|[Hi Hv]]%lookup_app_Some.
  - pose proof (lookup_lt_Some _ _ _ Hv) as Hlt.
    destruct (lookup_lt_is_Some_2 gws i ltac:(lia)) as [w Hw]. exists w. split; [done|].
    rewrite Hlow, lookup_app_l by lia. subst GI. by rewrite lookup_zip_with, Hv, Hw.
  - pose proof (lookup_lt_Some _ _ _ Hv) as Hlt.
    destruct (lookup_lt_is_Some_2 gws i ltac:(lia)) as [w Hw]. exists w. split; [done|].
    rewrite <- (Hhigh (i - length gbits)%nat w v); [f_equal; lia| |done].
    rewrite lookup_slice by lia. rewrite <- Hw. f_equal. lia.
Qed.

(** The evaluator's step: its session and masks being those of an honest run,
    it obtains labels of the plain circuit's output bits and decodes them. *)
Lemma EvaluatorOnline_correct c e gIn eIn sots rots start p gs epool sid :
  compiled = Ok c -> newEngine (Some c) = Ok e -> engine_ok e = true -> epool_ok e epool ->
  length gIn = 80%nat -> length eIn = 80%nat -> length sots = InputBits -> correlated sots rots ->
  garbler_ready e gIn sots start p gs ->
  let masks := make_masks (evaluatorWires gs) sots
                 (zip_with (fun o bit => xorb (Choice o) bit) rots (bytesToBits eIn)) in
  let out := plain_outputs e (bytesToBits gIn ++ bytesToBits eIn) in
  exists cmac labels r,
    snd (fst (EvaluatorOnline compiled
      (Some (mkEvaluatorSession sid (Some p) (bytesToBits eIn) rots false)) masks epool))
      = Ok (mkOnlineResult cmac labels) /\
    offset_ok r /\ carries r (outputWires gs) labels out /\
    length out = OutputBits /\ bytesToBits cmac = out /\ is_bytes cmac /\ length cmac = 16%nat.
Proof.
  intros Hcomp Hnew Hok Hep Lg Le Ls Hc
    (g & Hg & Et & Egi & Eew & Eow & Htr & _) masks out.
  pose proof Hg as (Lw & Lt & r & Hr & Hin & Heval).
  pose proof (engine_ok_inv _ Hok) as (Hn & _). set (n := Z.to_nat (numWires e)) in *.
  pose proof (Forall2_length _ _ _ Hc) as Lr.
  assert (Lgb : length (bytesToBits gIn) = InputBits) by (rewrite length_bytesToBits, Lg; done).
  assert (Leb : length (bytesToBits eIn) = InputBits) by (rewrite length_bytesToBits, Le; done).
  assert (Lev : length (evaluatorWires gs) = InputBits) by (rewrite Eew, length_slice; lia).
  unfold EvaluatorOnline. cbn [evaluated payload eOts inputBits evaluated_session].
  assert (length masks = InputBits) as ->.
  { unfold masks. rewrite length_make_masks; rewrite ?length_zip_with; lia. }
  rewrite Nat.eqb_refl, <- Lr, Ls, Nat.eqb_refl, Hcomp. cbn [negb defaultEngine]. rewrite Hnew.
  pose proof (evalPool_get_ok e epool Hep) as L0.
  destruct (evalPool_get e epool) as [ws0 epool']. cbn [fst snd] in *. rewrite Egi.
  destruct (load_inputs_spec n ws0 (g_wires g) (bytesToBits gIn) (bytesToBits eIn) sots rots)
    as (ws1 & E1 & L1 & Hws1); [lia|done..|]. unfold masks. rewrite Eew, E1.
  cbn [mbind res_bind]. rewrite Et.
  destruct (Heval (bytesToBits gIn ++ bytesToBits eIn) ws1)
    as (outs & -> & Lo & Lpo & Hout); [rewrite length_app; lia|done|done|].
  cbn [mbind res_bind]. rewrite output_tail_Ok by done. cbn [mbind res_bind]. fold n. fold out in Lpo, Hout.
  assert (Hcar : carries r (outputWires gs) (drop (n - OutputBits) outs) out).
  { rewrite Eow. split_and!; [rewrite length_drop; lia..|].
    intros i b Hb. destruct (Hout i) as (w & b' & Hw & Hwok & Hb' & Hl).
    { apply lookup_lt_Some in Hb. lia. }
    rewrite Hb in Hb'. apply (inj Some) in Hb' as <-. exists w. by rewrite !lookup_drop. }
  rewrite (decode_outputs_spec r (outputWires gs) _ out) by done.
  destruct (bitsToBytes_spec out 16) as (cmac & -> & Lc & Hcb & Hbits); [by rewrite Lpo|].
  cbn [mbind res_bind]. by exists cmac, (drop (n - OutputBits) outs), r.
Qed.

(** From the garbler's first message on, every step succeeds and both parties
    hold the bytes of the plain circuit's output. *)
Lemma online_rest c e gIn eIn sots rots start p gs epool :
  compiled = Ok c -> newEngine (Some c) = Ok e -> engine_ok e = true -> epool_ok e epool ->
  length gIn = 80%nat -> length eIn = 80%nat -> length sots = InputBits ->
  validateSenderOTIndices sots start = Ok () -> correlated sots rots ->
  garbler_ready e gIn sots start p gs ->
  exists es cs masks gs1 cmac labels,
    EvaluatorPrepare (Some p) eIn rots = Ok (es, cs) /\
    ApplyCorrections (Some gs) cs = (Some gs1, Ok masks) /\
    snd (fst (EvaluatorOnline compiled (Some es) masks epool)) = Ok (mkOnlineResult cmac labels) /\
    snd (VerifyOutput (Some gs1) labels) = Ok cmac /\
    bytesToBits cmac = plain_outputs e (bytesToBits gIn ++ bytesToBits eIn) /\
    is_bytes cmac /\ length cmac = 16%nat.
Proof.
  intros Hcomp Hnew Hok Hep Lg Le Ls Hval Hc Hready.
  destruct (EvaluatorOnline_correct c e gIn eIn sots rots start p gs epool (pSessionID p))
    as (cmac & labels & r & HE & Hr & Hcar & Lout & Hbits & Hcb & Lc); [done..|].
  destruct Hready as (g & Hg & _ & Egi & Eew & _ & _ & Eot & Hcor & Hver & Est).
  pose proof Hg as (Lw & _). pose proof (engine_ok_inv _ Hok) as (Hn & _).
  pose proof (Forall2_length _ _ _ Hc) as Lr.
  assert (Lgb : length (bytesToBits gIn) = InputBits) by (rewrite length_bytesToBits, Lg; done).
  assert (Leb : length (bytesToBits eIn) = InputBits) by (rewrite length_bytesToBits, Le; done).
  assert (Lev : length (evaluatorWires gs) = InputBits) by (rewrite Eew, length_slice; lia).
  do 3 eexists. exists (mkGarblerSession (gSessionID gs) [] [] (outputWires gs) true false).
  exists cmac, labels. split.
  { unfold EvaluatorPrepare. rewrite <- Lr, Ls, Nat.eqb_refl, Egi, length_zip_with, Lgb, Lw.
    rewrite (Nat.min_l InputBits) by lia. rewrite Nat.eqb_refl, Est.
    by rewrite (correlated_validate sots) by done. }
  split.
  { unfold ApplyCorrections. rewrite length_zip_with, <- Lr, Leb, Nat.min_l, Hcor, Hver, Lev, Eot by lia.
    by rewrite Ls, Nat.eqb_refl. }
  split; [exact HE|]. split; [|done].
  destruct Hcar as (L1 & L2 & Hcar). unfold VerifyOutput. cbn [corrected verified outputWires negb].
  rewrite L2, L1, Lout, Nat.eqb_refl. cbn [negb orb snd].
  rewrite (match_labels_spec r _ _ (plain_outputs e (bytesToBits gIn ++ bytesToBits eIn))) by done.
  cbn [mbind res_bind]. rewrite <- Hbits. rewrite <- Lc. by apply bitsToBytes_bytesToBits.
Qed.

(** An honest run: both parties obtain the output of the plain circuit. *)
Lemma run_oprf_correct c e rs gIn eIn sots rots start pool epool :
  compiled = Ok c -> newEngine (Some c) = Ok e -> engine_ok e = true ->
  pool_ok e pool -> epool_ok e epool ->
  is_bytes rs -> (24 + random_size <= length rs)%nat ->
  length gIn = 80%nat -> length eIn = 80%nat -> length sots = InputBits ->
  validateSenderOTIndices sots start = Ok () -> correlated sots rots ->
  exists cmac, run_oprf rs gIn eIn sots rots start pool epool = Ok (cmac, cmac) /\
    bytesToBits cmac = plain_outputs e (bytesToBits gIn ++ bytesToBits eIn) /\
    is_bytes cmac /\ length cmac = 16%nat.
Proof.
  intros Hcomp Hnew Hok Hp Hep Hrs Lrs Lg Le Ls Hval Hc.
  destruct (GarblerOnline_ready c e rs gIn sots start pool)
    as (p & gs & rng' & pool' & E & _ & Hready); [done..|].
  destruct (online_rest c e gIn eIn sots rots start p gs epool)
    as (es & cs & masks & gs1 & cmac & labels & E1 & E2 & E3 & E4 & Hrest); [done..|].
  exists cmac. split; [|done]. unfold run_oprf. rewrite E. cbn [fst mbind res_bind].
  rewrite E1. cbn [mbind res_bind]. rewrite E2. cbn [mbind res_bind]. rewrite E3.
  cbn [mbind res_bind OutputLabels CMACOutput]. by rewrite E4.
Qed.

End Protocol.

(** ** What the garbler accepts *)

(** when the garbler accepts output labels, every one of them is a label it
    issued for that output wire, the bytes it returns are exactly the bits those
    labels stand for, and the session can never verify again. *)
Theorem verified_output_sound s labels s' out :
  VerifyOutput (Some s) labels = (Some s', Ok out) ->
  corrected s = true /\ length labels = OutputBits /\ length out = 16%nat /\
  Forall2 (fun '(l, w) b => l = label_of w b) (zip labels (outputWires s)) (bytesToBits out) /\
  forall labels', is_ok (snd (VerifyOutput (Some s') labels')) = false.
Proof.
  unfold VerifyOutput at 1. destruct (corrected s) eqn:Ec; cbn [negb]; [|done].
  destruct (verified s); [done|].
  destruct (Nat.eqb_spec (length labels) OutputBits) as [L1|]; cbn [negb orb]; [|done].
  destruct (Nat.eqb_spec (length (outputWires s)) OutputBits) as [L2|]; cbn [negb]; [|done].
  destruct (match_labels labels (outputWires s)) as [bits| |] eqn:Em; [|done..].
  apply match_labels_sound in Em; [|congruence]. cbn [mbind res_bind]. intros E.
  pose proof (Forall2_length _ _ _ Em) as Lb. rewrite length_zip_with, L1, L2, Nat.min_id in Lb.
  destruct (bitsToBytes_spec bits 16) as (d & Ed & Ld & _ & Eb); [rewrite <- Lb; reflexivity|].
  rewrite Ed in E. injection E as <- <-. rewrite Eb. split_and!; try done.
Qed.

(** A garbler session whose outputs all have the labels 0 and 1. *)
Definition plain_wire : wire := mkWire label_zero (mkLabel 0 1).
Definition plain_session : GarblerSession :=
  mkGarblerSession 7 [] [] (replicate OutputBits plain_wire) true false.

Lemma verified_output_sound_witness :
  exists s' out, VerifyOutput (Some plain_session) (replicate OutputBits (mkLabel 0 1)) = (Some s', Ok out) /\
    out = replicate 16 255 /\
    Forall2 (fun '(l, w) b => l = label_of w b)
      (zip (replicate OutputBits (mkLabel 0 1)) (outputWires plain_session)) (bytesToBits out).
Proof.
  eexists _, _. split; [vm_compute; reflexivity|]. split; [reflexivity|].
  eapply (verified_output_sound plain_session (replicate OutputBits (mkLabel 0 1))). vm_compute. reflexivity.
Defined.

(** whatever calls are made on a garbler session, in any order and with any
    arguments, at most one of them releases masked labels and at most one returns
    a verified output, so the two labels of an input wire are never both
    revealed by answering two correction requests. *)
Theorem garbler_session_single_use s ops :
  (count is_masks (garbler_trace s ops) <= 1)%nat /\ (count is_output (garbler_trace s ops) <= 1)%nat /\
  count is_masks (garbler_trace (default s (garblerSession_Destroy (Some s))) ops) = 0%nat /\
  count is_output (garbler_trace (default s (garblerSession_Destroy (Some s))) ops) = 0%nat.
Proof.
  destruct (garbler_trace_counts ops s) as [H1 H2].
  destruct (garbler_trace_counts ops (default s (garblerSession_Destroy (Some s)))) as [H3 H4].
  cbn [corrected verified from_option id garblerSession_Destroy] in *.
  destruct (corrected s), (verified s); split_and!; lia.
Qed.

(** ** The evaluator's session *)

(** an evaluator session evaluates at most once: a call with the right number
    of masks consumes the payload, the input bits and the OTs of the session
    whether or not it succeeds, and every later call fails and changes nothing;
    a call with the wrong number of masks is rejected without consuming them. *)
Theorem evaluator_session_single_use `{BlockCipher} compiled s masks masks' pool pool' :
  evaluated s = false -> length masks = InputBits -> length masks' = InputBits ->
  let s1 := fst (fst (EvaluatorOnline compiled (Some s) masks pool)) in
  s1 = Some (evaluated_session s) /\
  EvaluatorOnline compiled s1 masks' pool' = (s1, Err "mpc: evaluator session already used", pool') /\
  forall short, length short <> InputBits ->
    EvaluatorOnline compiled (Some s) short pool = (Some s, Err "mpc: need OT masks", pool).
Proof.
  intros He Lm Lm' s1.
  assert (E1 : s1 = Some (evaluated_session s)).
  { unfold s1, EvaluatorOnline. rewrite Lm, Nat.eqb_refl, He. cbn [negb].
    destruct (payload s); [|done]. destruct (length (eOts s) =? InputBits)%nat; cbn [negb]; [|done].
    destruct (defaultEngine compiled); [|done..]. by destruct (evalPool_get a pool). }
  split; [done|]. rewrite E1. split.
  - unfold EvaluatorOnline. rewrite Lm', Nat.eqb_refl. done.
  - intros short Hs. unfold EvaluatorOnline. by rewrite (proj2 (Nat.eqb_neq _ _) Hs).
Qed.

Lemma evaluator_session_single_use_witness :
  let s := mkEvaluatorSession 1 None [] [] false in
  let masks := replicate InputBits (mkOTMask label_zero label_zero) in
  let s1 := fst (fst (@EvaluatorOnline const_cipher (Err "no circuit") (Some s) masks [])) in
  s1 = Some (evaluated_session s).
Proof.
  apply (@evaluator_session_single_use const_cipher (Err "no circuit")
           (mkEvaluatorSession 1 None [] [] false)
           (replicate InputBits (mkOTMask label_zero label_zero))
           (replicate InputBits (mkOTMask label_zero label_zero)) [] []).
  - reflexivity.
  - apply length_replicate.
  - apply length_replicate.
Defined.
