(* ===== verification/SenderPool.v ===== *)
(** * The garbler's pool of random OTs ([SenderPool] in [mpc/pool.go])

    An append-only pool with absolute 64-bit indices.  Entries are handed out in
    order, cleared in place when consumed, and compacted away later.  The mutex
    makes every method atomic, so a method is a function on the pool state.

    The specification is a queue: the next index and the OTs that were added and
    not yet handed out.  [sender_repr] relates a pool to its queue and also says
    that everything else in the backing array is zero, so no consumed secret
    stays in memory. *)

From S2P Require Import Prelude Bytes Label Slices Crypto Circuit Oprf.

Definition OTPoolInitialSize : Z := 100000.
Definition OTPoolExtendSize : Z := 50000.
Definition OTPoolWatermark : Z := 50000.
Definition OTsPerOPRF : nat := InputBits.
Definition MaxPrecomputeOTs : Z := OTPoolInitialSize.

Definition ValidatePrecomputeCount (count : Z) : res unit :=
  fail_if ((count <=? 0) || (MaxPrecomputeOTs <? count)) "mpc: unsupported OT precompute count";;
  Ok ().

(** [int(x)] of a [uint64]. *)
Definition to_int (x : Z) : Z := if x <? 2 ^ 63 then x else x - 2 ^ 64.

(** A claim is the address of its marker. *)
Record SenderPool := mkSenderPool {
  sp_entries : gslice SenderOT;
  sp_base : Z;
  sp_next : Z;
  sp_claim : option nat;
}.

Definition NewSenderPool (capacity : nat) : SenderPool :=
  mkSenderPool (make_empty sender_zero capacity) 0 0 None.

Definition sender_totalLocked (p : SenderPool) : res Z :=
  match checkedIndexEnd (sp_base p) (Z.of_nat (slen (sp_entries p))) with
  | Ok total =>
      if (sp_next p <? sp_base p) || (total <? sp_next p)
      then Err "mpc: invalid sender pool frontier" else Ok total
  | Err _ => Err "mpc: invalid sender pool frontier"
  | Panic => Panic
  end.

Definition sender_validateAddLocked (p : SenderPool) (entries : list SenderOT) : res unit :=
  start ← sender_totalLocked p;
  _ ← checkedIndexEnd start (Z.of_nat (length entries));
  validateSenderOTIndices entries start.

Definition SenderPool_ValidateAdd := sender_validateAddLocked.

Definition SenderPool_Add (p : SenderPool) (entries : list SenderOT) : SenderPool * res unit :=
  match sender_validateAddLocked p entries with
  | Ok _ =>
      let '(es, _) := appendWithWipedGrowth sender_zero (sp_entries p) entries in
      (mkSenderPool es (sp_base p) (sp_next p) (sp_claim p), Ok ())
  | Err m => (p, Err m)
  | Panic => (p, Panic)
  end.

Definition sender_compactConsumed (p : SenderPool) : res SenderPool :=
  let consumed := sub64 (sp_next p) (sp_base p) in
  if (consumed <? OTPoolWatermark) && (consumed <? Z.of_nat (slen (sp_entries p)) / 2) then Ok p else
  es ← shift_out sender_zero (sp_entries p) (Z.to_nat (to_int consumed));
  Ok (mkSenderPool es (sp_next p) (sp_next p) (sp_claim p)).

Definition reserve_checked (p : SenderPool) (count : Z) : res (Z * Z) :=
  fail_if (count <=? 0) "mpc: invalid OT reservation count";;
  fail_if (sp_next p <? sp_base p) "mpc: invalid sender pool index state";;
  total ← sender_totalLocked p;
  end_ ← checkedIndexEnd (sp_next p) count;
  fail_if (total <? end_) "mpc: insufficient sender OTs";;
  Ok (sp_next p, end_).

Definition SenderPool_Reserve (p : SenderPool) (count : Z)
    : SenderPool * res (Z * list SenderOT) :=
  match reserve_checked p count with
  | Err m => (p, Err m)
  | Panic => (p, Panic)
  | Ok (start, end_) =>
      let offset := Z.to_nat (to_int (sub64 start (sp_base p))) in
      let n := Z.to_nat count in
      match (result ← copy_range (sp_entries p) offset (offset + n);
             es ← clear_range sender_zero (sp_entries p) offset (offset + n);
             p' ← sender_compactConsumed (mkSenderPool es (sp_base p) end_ (sp_claim p));
             Ok (p', (start, result))) with
      | Ok (p', r) => (p', Ok r)
      | Err m => (p, Err m)
      | Panic => (p, Panic)
      end
  end.

Definition sender_clearLocked (p : SenderPool) : SenderPool :=
  mkSenderPool (clear_all sender_zero (sp_entries p)) 0 0 (sp_claim p).

Definition SenderPool_Clear (p : SenderPool) : SenderPool :=
  let p := sender_clearLocked p in mkSenderPool (sp_entries p) (sp_base p) (sp_next p) None.

Definition owns (p : SenderPool) (claim : option nat) : bool :=
  match claim with
  | None => false
  | Some c => bool_decide (sp_claim p = Some c)
  end.

Definition SenderPool_ClearForExtendFailure (p : SenderPool) (claim : option nat)
    : SenderPool * bool :=
  if owns p claim then (sender_clearLocked p, true) else (p, false).

Definition SenderPool_Available (p : SenderPool) : Z :=
  match sender_totalLocked p with Ok total => to_int (sub64 total (sp_next p)) | _ => 0 end.

Definition SenderPool_TotalCount (p : SenderPool) : Z :=
  match sender_totalLocked p with Ok total => total | _ => 0 end.

Definition SenderPool_NextIndex (p : SenderPool) : Z := sp_next p.

Definition SenderPool_NeedsExtend (p : SenderPool) : bool :=
  match sender_totalLocked p with
  | Ok total =>
      (to_int (sub64 total (sp_next p)) <? OTPoolWatermark) && bool_decide (sp_claim p = None)
  | _ => false
  end.

(** [alloc] is the next free address: [&SenderExtendClaim{}] is distinct from
    every claim made before. *)
Definition SenderPool_ClaimExtendIfNeeded (alloc : nat) (p : SenderPool)
    : nat * SenderPool * option nat :=
  match sender_totalLocked p with
  | Ok total =>
      let available := to_int (sub64 total (sp_next p)) in
      if (OTPoolWatermark <=? available) || negb (bool_decide (sp_claim p = None))
      then (alloc, p, None)
      else (S alloc, mkSenderPool (sp_entries p) (sp_base p) (sp_next p) (Some alloc), Some alloc)
  | _ => (alloc, p, None)
  end.

Definition SenderPool_IsExtendPending (p : SenderPool) : bool := bool_decide (sp_claim p <> None).

Definition SenderPool_OwnsExtendClaim (p : SenderPool) (claim : option nat) : bool := owns p claim.

Definition SenderPool_InvalidateExtendClaim (p : SenderPool) : SenderPool :=
  mkSenderPool (sp_entries p) (sp_base p) (sp_next p) None.

Definition SenderPool_ReleaseExtendClaim (p : SenderPool) (claim : option nat)
    : SenderPool * bool :=
  if owns p claim then (SenderPool_InvalidateExtendClaim p, true) else (p, false).

(** ** The specification: a queue of OTs *)

Record otQueue := mkQueue { q_next : Z; q_items : list SenderOT }.

Definition consecutive (start : Z) (l : list SenderOT) : Prop :=
  forall i o, l !! i = Some o -> sIndex o = start + Z.of_nat i.

Definition q_end (q : otQueue) : Z := q_next q + Z.of_nat (length (q_items q)).

Definition q_add (q : otQueue) (l : list SenderOT) : otQueue :=
  mkQueue (q_next q) (q_items q ++ l).

Definition q_reserve (q : otQueue) (count : Z) : option (otQueue * (Z * list SenderOT)) :=
  if (0 <? count) && (count <=? Z.of_nat (length (q_items q))) then
    let n := Z.to_nat count in
    Some (mkQueue (q_next q + count) (drop n (q_items q)), (q_next q, take n (q_items q)))
  else None.

(** The pool [p] holds exactly the queue [q]: zeros up to the next index, then
    the queue, then zeros up to the capacity. *)
Definition sender_repr (p : SenderPool) (q : otQueue) : Prop :=
  slice_wf (sp_entries p) /\
  0 <= sp_base p <= sp_next p /\ sp_next p = q_next q /\
  elems (sp_entries p) =
    replicate (Z.to_nat (sp_next p - sp_base p)) sender_zero ++ q_items q /\
  Forall (eq sender_zero) (spare (sp_entries p)) /\
  consecutive (q_next q) (q_items q) /\
  q_end q <= MaxUint64 /\ Z.of_nat (slen (sp_entries p)) < 2 ^ 63.

Lemma sender_repr_len p q : sender_repr p q ->
  slen (sp_entries p) = (Z.to_nat (sp_next p - sp_base p) + length (q_items q))%nat.
Proof.
  intros (Hw & _ & _ & E & _). rewrite <- length_elems by done.
  by rewrite E, length_app, length_replicate.
Qed.

Lemma sender_total p q : sender_repr p q -> sender_totalLocked p = Ok (q_end q).
Proof.
  intros H. pose proof (sender_repr_len p q H) as L.
  destruct H as (Hw & Hb & Hn & _ & _ & _ & He & Hi). unfold q_end, MaxUint64 in *.
  unfold sender_totalLocked.
  rewrite checkedIndexEnd_fits by (unfold MaxUint64; lia).
  rewrite (proj2 (Z.ltb_ge _ _)), (proj2 (Z.ltb_ge _ _)) by lia. cbn [orb]. f_equal. lia.
Qed.

Lemma to_int_small z : 0 <= z < 2 ^ 63 -> to_int z = z.
Proof. intros. unfold to_int. by rewrite (proj2 (Z.ltb_lt _ _)) by lia. Qed.

Lemma sub64_small a b : 0 <= b <= a -> a <= MaxUint64 -> sub64 a b = a - b.
Proof. unfold MaxUint64, sub64, u64. intros. apply Z.mod_small. lia. Qed.

Lemma sender_indices_ok_spec l start i :
  0 <= start -> start + Z.of_nat (i + length l) <= MaxUint64 ->
  sender_indices_ok l start i = true <-> consecutive (start + Z.of_nat i) l.
Proof.
  intros H0. revert i. induction l as [|o l IH]; intros i Hi.
  { split; [|done]. intros _ j o' H. by rewrite lookup_nil in H. }
  cbn [sender_indices_ok length] in *. rewrite andb_true_iff, (IH (S i)) by lia.
  unfold add64, u64, MaxUint64 in *. rewrite Z.mod_small, Z.eqb_eq by lia. split.
  - intros [E H] [|j] o' Hj; cbn in Hj; [injection Hj as <-; lia|]. rewrite (H j o' Hj). lia.
  - intros H. split; [rewrite (H 0%nat o eq_refl); lia|]. intros j o' Hj. rewrite (H (S j) o' Hj). lia.
Qed.

(** ** Refinement, operation by operation *)

Lemma NewSenderPool_repr n : sender_repr (NewSenderPool n) (mkQueue 0 []).
Proof.
  destruct (make_empty_spec sender_zero n) as (Hw & He & Hs).
  unfold sender_repr, q_end, MaxUint64; cbn -[make_empty]. split_and!; try done.
Qed.

Lemma consecutive_app start l1 l2 :
  consecutive start l1 -> consecutive (start + Z.of_nat (length l1)) l2 ->
  consecutive start (l1 ++ l2).
Proof.
  intros H1 H2 i o [H|[Hi H]]%lookup_app_Some; [by apply H1|]. rewrite (H2 _ _ H). lia.
Qed.

Lemma consecutive_drop start l n :
  (n <= length l)%nat -> consecutive start l -> consecutive (start + Z.of_nat n) (drop n l).
Proof. intros Hn H i o Hi. rewrite lookup_drop in Hi. rewrite (H _ _ Hi). lia. Qed.

(** Validation accepts exactly the batches that continue the pool. *)
Lemma sender_validateAdd_iff p q l :
  sender_repr p q -> Z.of_nat (length l) < 2 ^ 63 ->
  sender_validateAddLocked p l = Ok () <->
  q_end q + Z.of_nat (length l) <= MaxUint64 /\ consecutive (q_end q) l.
Proof.
  intros H Hl. unfold sender_validateAddLocked. rewrite (sender_total p q H). cbn [mbind res_bind].
  destruct H as (_ & Hb & Hn & _ & _ & _ & He & _).
  assert (H0 : 0 <= q_end q) by (unfold q_end; lia).
  unfold validateSenderOTIndices.
  rewrite checkedIndexEnd_spec; [|unfold is_u64, MaxUint64 in *; lia|unfold is_int; lia].
  rewrite (proj2 (Z.ltb_ge _ _)) by lia.
  destruct (Z.ltb_spec MaxUint64 (q_end q + Z.of_nat (length l))); cbn [mbind res_bind];
    [split; [done|lia]|].
  pose proof (sender_indices_ok_spec l (q_end q) 0 ltac:(lia) ltac:(lia)) as Hs.
  rewrite Z.add_0_r in Hs. rewrite <- Hs.
  destruct (sender_indices_ok l (q_end q) 0); split; try done. by intros [_ ?].
Qed.

Lemma SenderPool_Add_repr p q l p' r :
  sender_repr p q -> Z.of_nat (slen (sp_entries p) + length l) < 2 ^ 63 ->
  SenderPool_Add p l = (p', r) ->
  (r = Ok () /\ sender_repr p' (q_add q l) /\ sp_claim p' = sp_claim p) \/
  ((exists m, r = Err m) /\ p' = p).
Proof.
  intros H Hl. unfold SenderPool_Add. destruct (sender_validateAddLocked p l) as [[]|m|] eqn:E.
  - apply (sender_validateAdd_iff p q l H ltac:(lia)) in E as [He Hc].
    destruct (appendWithWipedGrowth _ _ _) as [es left] eqn:Ea. intros Eq. injection Eq as <- <-.
    left. split; [done|]. split; [|done].
    destruct H as (Hw & Hb & Hn & Hel & Hs & Hq & _ & _).
    apply appendWithWipedGrowth_spec in Ea as (Hw' & Hel' & _ & Hs'); [|done].
    split_and!; cbn [sp_entries sp_base sp_next sp_claim q_add q_next q_items]; try done; try lia.
    + by rewrite Hel', Hel, <- app_assoc.
    + by apply Hs'.
    + by apply consecutive_app.
    + unfold q_end, q_add in *. cbn [q_next q_items]. rewrite length_app. lia.
    + rewrite <- length_elems, Hel', length_app, length_elems by done. done.
  - intros Eq. injection Eq as <- <-. right. split; [by eexists|done].
  - exfalso. revert E. unfold sender_validateAddLocked. rewrite (sender_total p q H).
    cbn [mbind res_bind]. unfold validateSenderOTIndices.
    pose proof (checkedIndexEnd_no_panic (q_end q) (Z.of_nat (length l))).
    destruct (checkedIndexEnd _ _); [|done..]. cbn [mbind res_bind]. by case_match.
Qed.

Lemma sender_compact_repr p q : sender_repr p q ->
  exists p', sender_compactConsumed p = Ok p' /\ sender_repr p' q /\ sp_claim p' = sp_claim p.
Proof.
  intros H. pose proof (sender_repr_len p q H) as L. pose proof H as (Hw & Hb & Hn & He & Hs & Hq & Hm & Hi).
  unfold sender_compactConsumed. unfold q_end in Hm.
  rewrite sub64_small by lia. rewrite to_int_small by lia.
  destruct (_ && _); [by exists p|].
  destruct (shift_out_spec sender_zero (sp_entries p) (Z.to_nat (sp_next p - sp_base p)))
    as (es & -> & Hw' & He' & Hs'); [done|lia|].
  cbn [mbind res_bind]. eexists. split; [done|]. split; [|done].
  rewrite He, drop_app_length' in He' by (by rewrite length_replicate).
  split_and!; cbn [sp_entries sp_base sp_next]; try done; try lia.
  - by rewrite Z.sub_diag.
  - rewrite Hs'. apply Forall_app. split; [by apply Forall_replicate|done].
  - rewrite <- length_elems, He' by done. lia.
Qed.

(** Reserving hands out the front of the queue, whole or not at all. *)
Lemma SenderPool_Reserve_repr p q count p' r :
  sender_repr p q -> is_int count -> SenderPool_Reserve p count = (p', r) ->
  match q_reserve q count with
  | Some (q', out) => r = Ok out /\ sender_repr p' q' /\ sp_claim p' = sp_claim p
  | None => (exists m, r = Err m) /\ p' = p
  end.
Proof.
  intros H Hc. pose proof (sender_repr_len p q H) as L.
  pose proof H as (Hw & Hb & Hn & He & Hs & Hq & Hm & Hi). unfold q_end in Hm.
  unfold SenderPool_Reserve, reserve_checked, q_reserve.
  destruct (Z.leb_spec count 0) as [Hc0|Hc0].
  { rewrite (proj2 (Z.ltb_ge 0 count)) by lia. intros E. injection E as <- <-. split; [by eexists|done]. }
  rewrite (proj2 (Z.ltb_lt 0 count)) by lia. cbn [andb].
  rewrite (proj2 (Z.ltb_ge (sp_next p) (sp_base p))) by lia.
  rewrite (sender_total p q H). cbn [mbind res_bind].
  rewrite checkedIndexEnd_spec by (unfold is_u64, MaxUint64 in *; lia || done).
  rewrite (proj2 (Z.ltb_ge count 0)) by lia.
  destruct (Z.ltb_spec MaxUint64 (sp_next p + count)) as [Ho|Ho]; cbn [mbind res_bind].
  { rewrite (proj2 (Z.leb_gt count _)) by lia. intros E. injection E as <- <-. split; [by eexists|done]. }
  unfold q_end. destruct (Z.ltb_spec (q_next q + Z.of_nat (length (q_items q))) (sp_next p + count)).
  { rewrite (proj2 (Z.leb_gt count _)) by lia. intros E. injection E as <- <-. split; [by eexists|done]. }
  rewrite (proj2 (Z.leb_le count _)) by lia.
  rewrite sub64_small by lia. rewrite to_int_small by lia.
  set (k := Z.to_nat (sp_next p - sp_base p)) in *. set (n := Z.to_nat count).
  rewrite copy_range_spec by (done || lia). cbn [mbind res_bind].
  destruct (clear_range_spec sender_zero (sp_entries p) k (k + n)) as (es & -> & Hw' & L' & He' & Hs');
    [done|lia|]. cbn [mbind res_bind].
  destruct (sender_compact_repr (mkSenderPool es (sp_base p) (sp_next p + count) (sp_claim p))
    (mkQueue (q_next q + count) (drop n (q_items q)))) as (p2 & -> & Hr2 & Hcl).
  { split_and!; cbn [sp_entries sp_base sp_next q_next q_items]; try done; try lia.
    - rewrite He', He, take_app_length' by (by rewrite length_replicate).
      rewrite drop_app_ge, length_replicate by (rewrite length_replicate; lia).
      replace (k + n - k)%nat with n by lia.
      rewrite app_assoc, <- replicate_add. do 2 f_equal. lia.
    - by rewrite Hs'.
    - replace count with (Z.of_nat n) by lia. apply consecutive_drop; [lia|done].
    - unfold q_end. cbn [q_next q_items]. rewrite length_drop. lia. }
  cbn [mbind res_bind]. intros E. injection E as <- <-. split_and!; [|done..].
  f_equal. rewrite Hn. f_equal. rewrite He. unfold slice.
  rewrite drop_app_length' by (by rewrite length_replicate). f_equal. lia.
Qed.

Lemma sender_clearLocked_repr p q : sender_repr p q ->
  sender_repr (sender_clearLocked p) (mkQueue 0 []).
Proof.
  intros (Hw & Hb & Hn & He & Hs & Hq & Hm & Hi).
  destruct (clear_all_spec sender_zero (sp_entries p) Hw) as (Hw' & He' & Hs').
  unfold sender_repr, sender_clearLocked; cbn -[clear_all make_empty elems spare].
  split_and!; try done.
  rewrite Hs'. apply Forall_app. split; [by apply Forall_replicate|done].
Qed.

Lemma sender_Available p q : sender_repr p q ->
  SenderPool_Available p = Z.of_nat (length (q_items q)) /\
  SenderPool_TotalCount p = q_end q /\ SenderPool_NextIndex p = q_next q.
Proof.
  intros H. pose proof (sender_repr_len p q H) as L. unfold SenderPool_Available, SenderPool_TotalCount.
  rewrite (sender_total p q H). destruct H as (Hw & Hb & Hn & He & Hs & Hq & Hm & Hi).
  unfold q_end in *. rewrite sub64_small by lia. rewrite to_int_small by lia. split_and!; [lia|done..].
Qed.

(** ** Runs of a pool *)

Inductive senderOp :=
| SAdd (l : list SenderOT)
| SReserve (count : Z)
| SClear
| SClearForExtendFailure (claim : option nat)
| SClaim
| SRelease (claim : option nat)
| SInvalidate.

(** The allocator of claims, the pool, and what was handed out so far since the
    pool was last cleared. *)
Record senderWorld := mkSenderWorld {
  w_alloc : nat;
  w_pool : SenderPool;
  w_given : list SenderOT;
}.

Definition sender_step (w : senderWorld) (o : senderOp) : senderWorld :=
  let p := w_pool w in
  match o with
  | SAdd l => mkSenderWorld (w_alloc w) (fst (SenderPool_Add p l)) (w_given w)
  | SReserve n =>
      match SenderPool_Reserve p n with
      | (p', Ok (_, l)) => mkSenderWorld (w_alloc w) p' (w_given w ++ l)
      | (p', _) => mkSenderWorld (w_alloc w) p' (w_given w)
      end
  | SClear => mkSenderWorld (w_alloc w) (SenderPool_Clear p) []
  | SClearForExtendFailure c =>
      let '(p', cleared) := SenderPool_ClearForExtendFailure p c in
      mkSenderWorld (w_alloc w) p' (if cleared then [] else w_given w)
  | SClaim =>
      let '(a, p', _) := SenderPool_ClaimExtendIfNeeded (w_alloc w) p in
      mkSenderWorld a p' (w_given w)
  | SRelease c => mkSenderWorld (w_alloc w) (fst (SenderPool_ReleaseExtendClaim p c)) (w_given w)
  | SInvalidate => mkSenderWorld (w_alloc w) (SenderPool_InvalidateExtendClaim p) (w_given w)
  end.

(** What Go's memory allows: the pool's slice never outgrows [int]. *)
Definition op_fits (w : senderWorld) (o : senderOp) : Prop :=
  match o with
  | SAdd l => Z.of_nat (slen (sp_entries (w_pool w)) + length l) < 2 ^ 63
  | SReserve n => is_int n
  | _ => True
  end.

Inductive sender_reachable : senderWorld -> Prop :=
| sender_init n a : sender_reachable (mkSenderWorld a (NewSenderPool n) [])
| sender_next w o : sender_reachable w -> op_fits w o -> sender_reachable (sender_step w o).

(** Handed-out OTs and the queue together carry the indices 0, 1, 2, ... *)
Definition sender_inv (w : senderWorld) : Prop :=
  (forall c, sp_claim (w_pool w) = Some c -> (c < w_alloc w)%nat) /\
  exists q, sender_repr (w_pool w) q /\ consecutive 0 (w_given w) /\
    q_next q = Z.of_nat (length (w_given w)).

Lemma sender_repr_claim p q c : sender_repr p q ->
  sender_repr (mkSenderPool (sp_entries p) (sp_base p) (sp_next p) c) q.
Proof. done. Qed.

Lemma consecutive_nil s : consecutive s [].
Proof. intros i o H. by rewrite lookup_nil in H. Qed.

Lemma sender_step_inv w o : sender_inv w -> op_fits w o -> sender_inv (sender_step w o).
Proof.
  destruct w as [a p given]. intros [Hcl (q & Hr & Hg & Hn)] Hfit. cbn [w_alloc w_pool w_given] in *.
  destruct o as [l|n| |c| |c|]; cbn [sender_step w_alloc w_pool w_given op_fits] in *.
  - destruct (SenderPool_Add p l) as [p' r] eqn:E.
    apply (SenderPool_Add_repr p q) in E as [(_ & Hr' & Ec)|[_ ->]]; [|by split; [|exists q]|done..].
    split; cbn [w_pool w_alloc fst]; [by rewrite Ec|]. by exists (q_add q l).
  - destruct (SenderPool_Reserve p n) as [p' r] eqn:E.
    apply (SenderPool_Reserve_repr p q) in E; [|done..]. unfold q_reserve in E.
    destruct (Z.ltb_spec 0 n); [destruct (Z.leb_spec n (Z.of_nat (length (q_items q))))|];
      cbn [andb] in E; [|destruct E as [[m ->] ->]; by split; [|exists q]..].
    destruct E as (-> & Hr' & Ec). split; cbn [w_pool w_alloc w_given]; [by rewrite Ec|].
    eexists. split; [exact Hr'|]. destruct Hr as (_ & _ & _ & _ & _ & Hq & _). split.
    + apply consecutive_app; [done|]. rewrite Z.add_0_l, <- Hn.
      intros i x [Hx _]%lookup_take_Some. by apply Hq.
    + cbn [q_next]. rewrite length_app, length_take. lia.
  - split; cbn; [done|]. exists (mkQueue 0 []). split_and!; [|apply consecutive_nil|done].
    by apply sender_repr_claim, (sender_clearLocked_repr p q).
  - unfold SenderPool_ClearForExtendFailure. destruct (owns p c); [|by split; [|exists q]].
    split; [exact Hcl|]. exists (mkQueue 0 []). split_and!; [|apply consecutive_nil|done].
    by apply (sender_clearLocked_repr p q).
  - unfold SenderPool_ClaimExtendIfNeeded. rewrite (sender_total p q Hr).
    destruct (_ || _); [by split; [|exists q]|].
    split; cbn; [intros c E; injection E as <-; lia|]. by exists q.
  - unfold SenderPool_ReleaseExtendClaim. destruct (owns p c); cbn [fst]; [|by split; [|exists q]].
    split; [done|]. by exists q.
  - split; [done|]. by exists q.
Qed.

Lemma sender_reachable_inv w : sender_reachable w -> sender_inv w.
Proof.
  induction 1 as [n a|w o _ IH Hfit]; [|by apply sender_step_inv].
  split; [done|]. exists (mkQueue 0 []). split_and!; [apply NewSenderPool_repr|apply consecutive_nil|done].
Qed.

(** ** Extension claims *)

Lemma sender_Add_claim p l : sp_claim (fst (SenderPool_Add p l)) = sp_claim p.
Proof.
  unfold SenderPool_Add. destruct (sender_validateAddLocked p l); [|done..].
  by destruct (appendWithWipedGrowth _ _ _).
Qed.

Lemma sender_compact_claim p p' : sender_compactConsumed p = Ok p' -> sp_claim p' = sp_claim p.
Proof.
  unfold sender_compactConsumed. destruct (_ && _); intros H; [by injection H as <-|].
  inv_bind H. by injection H as <-.
Qed.

Lemma sender_Reserve_claim p n : sp_claim (fst (SenderPool_Reserve p n)) = sp_claim p.
Proof.
  unfold SenderPool_Reserve. destruct (reserve_checked p n) as [[s e]| |]; [|done..].
  destruct (copy_range _ _ _); [|done..]. cbn [mbind res_bind].
  destruct (clear_range _ _ _ _); [|done..]. cbn [mbind res_bind].
  destruct (sender_compactConsumed _) eqn:E; [|done..]. by apply sender_compact_claim in E.
Qed.

(** A claim that was issued and is no longer held. *)
Definition stale (w : senderWorld) (c : nat) : Prop :=
  (c < w_alloc w)%nat /\ sp_claim (w_pool w) <> Some c.

Lemma stale_step w o c : stale w c -> stale (sender_step w o) c.
Proof.
  destruct w as [a p given]. intros [Ha Hc]. unfold stale in *. cbn [w_alloc w_pool] in *.
  destruct o as [l|n| |d| |d|]; cbn [sender_step w_alloc w_pool].
  - by rewrite sender_Add_claim.
  - pose proof (sender_Reserve_claim p n) as E. destruct (SenderPool_Reserve p n) as [p' r].
    cbn [fst] in E. destruct r as [[? ?]| |]; cbn [w_alloc w_pool]; by rewrite E.
  - done.
  - unfold SenderPool_ClearForExtendFailure. by destruct (owns p d).
  - unfold SenderPool_ClaimExtendIfNeeded. destruct (sender_totalLocked p); [|done..].
    destruct (_ || _); [done|]. cbn [w_alloc w_pool sp_claim]. split; [lia|].
    intros E. apply (inj Some) in E. lia.
  - unfold SenderPool_ReleaseExtendClaim. by destruct (owns p d).
  - done.
Qed.

Definition sender_run (w : senderWorld) (ops : list senderOp) : senderWorld := fold_left sender_step ops w.

Lemma stale_run ops w c : stale w c -> stale (sender_run w ops) c.
Proof.
  revert w. induction ops as [|o ops IH]; intros w H; [done|]. cbn. by apply IH, stale_step.
Qed.

(** ** The pool behaves like the queue *)

(** The calls that touch the queue, and what their caller observes. *)
Inductive queueOp := QAdd (l : list SenderOT) | QReserve (count : Z) | QClear.

Inductive queueEvent := EvAdd (accepted : bool) | EvReserve (r : option (Z * list SenderOT)) | EvClear.

Definition pool_step (p : SenderPool) (o : queueOp) : SenderPool * queueEvent :=
  match o with
  | QAdd l => let '(p', r) := SenderPool_Add p l in (p', EvAdd (is_ok r))
  | QReserve n =>
      let '(p', r) := SenderPool_Reserve p n in
      (p', EvReserve (match r with Ok out => Some out | _ => None end))
  | QClear => (SenderPool_Clear p, EvClear)
  end.

(** The specification: a batch is accepted when it continues the queue. *)
Definition q_accepts (q : otQueue) (l : list SenderOT) : bool :=
  (q_end q + Z.of_nat (length l) <=? MaxUint64) && sender_indices_ok l (q_end q) 0.

Definition queue_step (q : otQueue) (o : queueOp) : otQueue * queueEvent :=
  match o with
  | QAdd l => if q_accepts q l then (q_add q l, EvAdd true) else (q, EvAdd false)
  | QReserve n =>
      match q_reserve q n with
      | Some (q', out) => (q', EvReserve (Some out))
      | None => (q, EvReserve None)
      end
  | QClear => (mkQueue 0 [], EvClear)
  end.

Fixpoint events {S} (step : S -> queueOp -> S * queueEvent) (s : S) (ops : list queueOp) : list queueEvent :=
  match ops with
  | [] => []
  | o :: ops => let '(s', ev) := step s o in ev :: events step s' ops
  end.

(** Every call of the run has arguments that fit Go's [int]. *)
Fixpoint run_fits (p : SenderPool) (ops : list queueOp) : Prop :=
  match ops with
  | [] => True
  | o :: ops =>
      match o with
      | QAdd l => Z.of_nat (slen (sp_entries p) + length l) < 2 ^ 63
      | QReserve n => is_int n
      | QClear => True
      end /\ run_fits (fst (pool_step p o)) ops
  end.

Lemma pool_step_refines p q o :
  sender_repr p q -> run_fits p [o] ->
  snd (pool_step p o) = snd (queue_step q o) /\ sender_repr (fst (pool_step p o)) (fst (queue_step q o)).
Proof.
  intros Hr [Hfit _]. destruct o as [l|n|]; cbn [pool_step queue_step].
  - pose proof (sender_validateAdd_iff p q l Hr ltac:(lia)) as Hiff.
    pose proof Hr as (_ & Hb & Hn & _ & _ & _ & He & _).
    assert (Hacc : q_accepts q l = true <-> sender_validateAddLocked p l = Ok ()).
    { unfold q_accepts. rewrite Hiff, andb_true_iff, Z.leb_le. split; intros [H1 H2]; (split; [done|]);
        apply (sender_indices_ok_spec l (q_end q) 0) in H2 || apply (sender_indices_ok_spec l (q_end q) 0);
        rewrite ?Z.add_0_r in *; try done; unfold q_end in *; lia. }
    destruct (SenderPool_Add p l) as [p' r] eqn:E. unfold SenderPool_Add in E.
    apply (SenderPool_Add_repr p q l p' r Hr) in Hfit as [(-> & Hr' & _)|[[m ->] ->]]; [| |exact E].
    + assert (q_accepts q l = true) as ->; [|done]. apply Hacc.
      destruct (sender_validateAddLocked p l) as [[]| |]; [done|simplify_eq..].
    + assert (q_accepts q l = false) as ->; [|done]. apply not_true_iff_false. rewrite Hacc.
      intros E'. rewrite E' in E. destruct (appendWithWipedGrowth _ _ _). simplify_eq.
  - destruct (SenderPool_Reserve p n) as [p' r] eqn:E. apply (SenderPool_Reserve_repr p q) in E; [|done..].
    destruct (q_reserve q n) as [[q' out]|]; [destruct E as (-> & Hr' & _)|destruct E as [[m ->] ->]]; done.
  - split; [done|]. by apply sender_repr_claim, (sender_clearLocked_repr p q).
Qed.

(** C27: refinement of the garbler's pool to a queue. Along any sequence of [Add],
    [Reserve] and [Clear] calls the pool, with its 64-bit indices, in-place
    clearing and compaction, answers exactly like a queue of OTs that starts at
    index 0: the same batches are accepted, the same ranges are handed out. *)
Theorem sender_pool_refines_queue capacity ops :
  run_fits (NewSenderPool capacity) ops ->
  events pool_step (NewSenderPool capacity) ops = events queue_step (mkQueue 0 []) ops.
Proof.
  generalize (NewSenderPool_repr capacity). generalize (NewSenderPool capacity), (mkQueue 0 []).
  induction ops as [|o ops IH]; intros p q Hr Hfit; [done|].
  cbn [run_fits] in Hfit. destruct Hfit as [Ho Hrest].
  destruct (pool_step_refines p q o Hr (conj Ho I)) as [Eev Hr'].
  cbn [events]. destruct (pool_step p o) as [p' ev], (queue_step q o) as [q' ev'].
  cbn [fst snd] in *. subst ev'. f_equal. by apply IH.
Qed.

Lemma sender_pool_refines_queue_witness :
  let ots := [mkSenderOT label_zero label_zero 0; mkSenderOT label_zero label_zero 1] in
  events pool_step (NewSenderPool 1) [QAdd ots; QReserve 2; QReserve 1] =
  [EvAdd true; EvReserve (Some (0, ots)); EvReserve None].
Proof.
  cbv zeta. rewrite sender_pool_refines_queue; [reflexivity|].
  repeat split; vm_compute; try reflexivity; try discriminate.
Defined.

(** ** Indices and residues *)

(** in every reachable state of the garbler's pool the OTs handed out since
    it was last cleared carry the indices 0, 1, 2, ... without gap or repetition,
    and anything but zeros in the backing array of the pool, spare capacity
    included, is an OT that has not been handed out: consumed secrets do not stay
    in memory. *)
Theorem sender_pool_indices_and_residue w :
  sender_reachable w ->
  map sIndex (w_given w) = seqZ 0 (Z.of_nat (length (w_given w))) /\
  forall o, o ∈ backing (sp_entries (w_pool w)) -> o <> sender_zero ->
    Z.of_nat (length (w_given w)) <= sIndex o.
Proof.
  intros [_ (q & Hr & Hg & Hn)]%sender_reachable_inv. split.
  - apply list_eq. intros i. change (map sIndex (w_given w)) with (sIndex <$> w_given w).
    rewrite list_lookup_fmap. destruct (w_given w !! i) as [o|] eqn:Ei.
    + cbn. rewrite (Hg i o Ei). symmetry. apply lookup_seqZ. apply lookup_lt_Some in Ei. split; lia.
    + cbn. symmetry. apply lookup_ge_None. rewrite length_seqZ. apply lookup_ge_None in Ei. lia.
  - intros o Ho Hz. destruct Hr as (_ & Hb & Hnx & He & Hs & Hq & _).
    rewrite <- elems_spare, He in Ho. apply elem_of_app in Ho as [[Ho|Ho]%elem_of_app|Ho].
    + by apply elem_of_replicate in Ho as [-> _].
    + apply list_elem_of_lookup in Ho as [i Hi]. rewrite (Hq i o Hi), Hn. lia.
    + rewrite Forall_forall in Hs. by rewrite <- (Hs o Ho) in Hz.
Qed.

Lemma sender_pool_indices_and_residue_witness :
  let w0 := mkSenderWorld 0 (NewSenderPool 4) [] in
  let w := sender_run w0 [SAdd [mkSenderOT label_zero label_zero 0; mkSenderOT label_zero label_zero 1]; SReserve 1] in
  map sIndex (w_given w) = [0] /\ map sIndex (w_given w) = seqZ 0 (Z.of_nat (length (w_given w))).
Proof.
  split; [vm_compute; reflexivity|].
  apply (sender_pool_indices_and_residue
    (sender_run (mkSenderWorld 0 (NewSenderPool 4) [])
       [SAdd [mkSenderOT label_zero label_zero 0; mkSenderOT label_zero label_zero 1]; SReserve 1])).
  apply (sender_next (sender_step (mkSenderWorld 0 (NewSenderPool 4) [])
           (SAdd [mkSenderOT label_zero label_zero 0; mkSenderOT label_zero label_zero 1])) (SReserve 1)).
  - apply sender_next; [apply sender_init|vm_compute; reflexivity].
  - vm_compute. split; [discriminate|reflexivity].
Defined.

(** an extension claim is owned by one caller at a time and a stale claim is
    dead: once a claim that was issued is no longer held (released, invalidated,
    or the pool cleared), no sequence of calls makes it owned again, so a delayed
    owner can neither release nor clear on behalf of a newer one. *)
Theorem stale_claim_is_dead w c ops :
  stale w c ->
  let w' := sender_run w ops in
  SenderPool_OwnsExtendClaim (w_pool w') (Some c) = false /\
  SenderPool_ReleaseExtendClaim (w_pool w') (Some c) = (w_pool w', false) /\
  SenderPool_ClearForExtendFailure (w_pool w') (Some c) = (w_pool w', false).
Proof.
  intros H w'. pose proof (stale_run ops w c H) as [_ Hc]. fold w' in Hc.
  assert (E : owns (w_pool w') (Some c) = false) by (unfold owns; by apply bool_decide_eq_false).
  unfold SenderPool_OwnsExtendClaim, SenderPool_ReleaseExtendClaim, SenderPool_ClearForExtendFailure.
  by rewrite E.
Qed.

Lemma stale_claim_is_dead_witness :
  let w := sender_run (mkSenderWorld 0 (NewSenderPool 1) []) [SClaim; SInvalidate] in
  SenderPool_ReleaseExtendClaim (w_pool (sender_run w [SClaim])) (Some 0%nat)
    = (w_pool (sender_run w [SClaim]), false) /\
  SenderPool_IsExtendPending (w_pool (sender_run w [SClaim])) = true.
Proof.
  split; [|vm_compute; reflexivity].
  apply (stale_claim_is_dead (sender_run (mkSenderWorld 0 (NewSenderPool 1) []) [SClaim; SInvalidate]) 0 [SClaim]).
  vm_compute. split; [lia|discriminate].
Defined.
