(* ===== verification/ReceiverPool.v ===== *)
(** * The evaluator's pool of random OTs ([ReceiverPool] in [mpc/pool.go])

    The receiver accepts disjoint index ranges in any order and must never use
    an index twice.  The specification views a pool as a partial map from
    absolute indices to the OTs that are still free ([rp_free]); [Consume]
    removes a range that is entirely free, or fails and changes nothing. *)

From S2P Require Import Prelude Bytes Label Slices Crypto Circuit Oprf SenderPool.

Record ReceiverPool := mkReceiverPool {
  rp_entries : gslice ReceiverOT;
  rp_used : list bool;
  rp_base : Z;
  rp_high : Z;
  rp_avail : Z;
}.

Definition NewReceiverPool (capacity : nat) : ReceiverPool :=
  mkReceiverPool (make_empty receiver_zero capacity) [] 0 0 0.

Definition receiver_totalLocked (p : ReceiverPool) : res Z :=
  let len := Z.of_nat (slen (rp_entries p)) in
  match checkedIndexEnd (rp_base p) len with
  | Ok total =>
      if negb (Z.of_nat (length (rp_used p)) =? len) || (rp_avail p <? 0) || (len <? rp_avail p)
         || (rp_high p <? rp_base p) || (total <? rp_high p)
      then Err "mpc: invalid receiver pool frontier" else Ok total
  | Err _ => Err "mpc: invalid receiver pool frontier"
  | Panic => Panic
  end.

Definition ReceiverPool_Add (p : ReceiverPool) (entries : list ReceiverOT) : ReceiverPool * res unit :=
  match (start ← receiver_totalLocked p;
         _ ← checkedIndexEnd start (Z.of_nat (length entries));
         validateReceiverOTIndices entries start) with
  | Ok _ =>
      let '(es, _) := appendWithWipedGrowth receiver_zero (rp_entries p) entries in
      (mkReceiverPool es (rp_used p ++ replicate (length entries) false) (rp_base p) (rp_high p)
         (rp_avail p + Z.of_nat (length entries)), Ok ())
  | Err m => (p, Err m)
  | Panic => (p, Panic)
  end.

(** The scan [for i := offset; i < offset+count; i++ { if p.used[i] ... }]. *)
Fixpoint any_used (used : list bool) (i n : nat) : res bool :=
  match n with
  | O => Ok false
  | S n => u ← index used i; if (u : bool) then Ok true else any_used used (S i) n
  end.

Definition receiver_validateConsumable (p : ReceiverPool) (start count : Z) : res unit :=
  fail_if (count <=? 0) "mpc: invalid OT consume count";;
  fail_if (start <? rp_base p) "mpc: receiver OT range starts before retained index";;
  total ← receiver_totalLocked p;
  end_ ← checkedIndexEnd start count;
  fail_if (total <? end_) "mpc: insufficient receiver OTs";;
  let offset := Z.to_nat (to_int (sub64 start (rp_base p))) in
  hit ← any_used (rp_used p) offset (Z.to_nat count);
  fail_if (hit : bool) "mpc: receiver OT index already used";;
  Ok ().

Definition ReceiverPool_ValidateConsumable := receiver_validateConsumable.

(** [for consumed < len(p.used) && p.used[consumed] { consumed++ }]. *)
Fixpoint used_prefix (used : list bool) : nat :=
  match used with
  | true :: used => S (used_prefix used)
  | _ => 0
  end.

Definition receiver_compactConsumed (p : ReceiverPool) : res ReceiverPool :=
  let consumed := used_prefix (rp_used p) in
  let len := Z.of_nat (slen (rp_entries p)) in
  if (Z.of_nat consumed <? OTPoolWatermark) && (Z.of_nat consumed <? len / 2) then Ok p else
  es ← shift_out receiver_zero (rp_entries p) consumed;
  let remaining := slen es in
  let moved := drop consumed (rp_used p) ++ drop (length (rp_used p) - consumed) (rp_used p) in
  if (length (rp_used p) <? remaining)%nat then Panic else
  Ok (mkReceiverPool es (take remaining moved) (add64 (rp_base p) (Z.of_nat consumed))
        (rp_high p) (rp_avail p)).

(** [for i := a; i < b; i++ { p.used[i] = true }]. *)
Definition mark_used (used : list bool) (a b : nat) : res (list bool) :=
  if (length used <? b)%nat then Panic
  else Ok (take a used ++ replicate (b - a) true ++ drop b used).

Definition ReceiverPool_Consume (p : ReceiverPool) (start count : Z)
    : ReceiverPool * res (list ReceiverOT) :=
  match (_ ← receiver_validateConsumable p start count;
         end_ ← checkedIndexEnd start count;
         let offset := Z.to_nat (to_int (sub64 start (rp_base p))) in
         let n := Z.to_nat count in
         result ← copy_range (rp_entries p) offset (offset + n);
         used ← mark_used (rp_used p) offset (offset + n);
         es ← clear_range receiver_zero (rp_entries p) offset (offset + n);
         let high := if rp_high p <? end_ then end_ else rp_high p in
         p' ← receiver_compactConsumed
                (mkReceiverPool es used (rp_base p) high (rp_avail p - count));
         Ok (p', result)) with
  | Ok (p', r) => (p', Ok r)
  | Err m => (p, Err m)
  | Panic => (p, Panic)
  end.

(** The loop of [AdvanceTo]: marks the first [n] entries, counting the ones that
    were still free. *)
Fixpoint advance_loop (used : list bool) (n : nat) (avail : Z) : res (list bool * Z) :=
  match n, used with
  | O, _ => Ok (used, avail)
  | S n, u :: used =>
      '(used', avail') ← advance_loop used n (if u then avail else avail - 1);
      Ok (true :: used', avail')
  | S _, [] => Panic
  end.

Definition ReceiverPool_AdvanceTo (p : ReceiverPool) (next : Z) : ReceiverPool * res unit :=
  match (total ← receiver_totalLocked p;
         fail_if ((next <? rp_high p) || (total <? next)) "mpc: receiver OT resume index outside";;
         let end_ := Z.to_nat (to_int (sub64 next (rp_base p))) in
         '(used, avail) ← advance_loop (rp_used p) end_ (rp_avail p);
         es ← clear_range receiver_zero (rp_entries p) 0 end_;
         receiver_compactConsumed (mkReceiverPool es used (rp_base p) next avail)) with
  | Ok p' => (p', Ok ())
  | Err m => (p, Err m)
  | Panic => (p, Panic)
  end.

Definition ReceiverPool_Clear (p : ReceiverPool) : ReceiverPool :=
  mkReceiverPool (clear_all receiver_zero (rp_entries p)) [] 0 0 0.

Definition ReceiverPool_Available (p : ReceiverPool) : Z :=
  match receiver_totalLocked p with Ok _ => rp_avail p | _ => 0 end.

Definition ReceiverPool_TotalCount (p : ReceiverPool) : Z :=
  match receiver_totalLocked p with Ok total => total | _ => 0 end.

Definition ReceiverPool_NextIndex (p : ReceiverPool) : Z := rp_high p.

Definition ValidatePoolAgreement (sender : option SenderPool) (receiver : option ReceiverPool)
    : res unit :=
  match sender, receiver with
  | Some s, Some r =>
      if negb (SenderPool_TotalCount s =? ReceiverPool_TotalCount r)
         || negb (SenderPool_NextIndex s =? ReceiverPool_NextIndex r)
      then Err "mpc: sender and receiver OT pools disagree" else Ok ()
  | _, _ => Err "mpc: nil OT pool"
  end.

(** ** The specification: which indices are free, and with which OT *)

Definition rp_free (p : ReceiverPool) (k : Z) : option ReceiverOT :=
  if k <? rp_base p then None else
  let i := Z.to_nat (k - rp_base p) in
  match rp_used p !! i with
  | Some false => elems (rp_entries p) !! i
  | _ => None
  end.

Definition rp_total (p : ReceiverPool) : Z := rp_base p + Z.of_nat (slen (rp_entries p)).

Definition free_count (used : list bool) : nat := length (filter (fun u => u = false) used).

(** A used cell is zero and below the high-water mark; a free cell has its
    absolute index. *)
Definition cell_ok (base high : Z) (i : nat) (u : bool) (e : ReceiverOT) : Prop :=
  if u then e = receiver_zero /\ base + Z.of_nat i < high else rIndex e = base + Z.of_nat i.

Definition receiver_ok (p : ReceiverPool) : Prop :=
  slice_wf (rp_entries p) /\ length (rp_used p) = slen (rp_entries p) /\
  0 <= rp_base p <= rp_high p /\ rp_high p <= rp_total p /\ rp_total p <= MaxUint64 /\
  Z.of_nat (slen (rp_entries p)) < 2 ^ 63 /\
  rp_avail p = Z.of_nat (free_count (rp_used p)) /\
  Forall (eq receiver_zero) (spare (rp_entries p)) /\
  forall i u e, rp_used p !! i = Some u -> elems (rp_entries p) !! i = Some e ->
    cell_ok (rp_base p) (rp_high p) i u e.

Lemma free_count_app l1 l2 : free_count (l1 ++ l2) = (free_count l1 + free_count l2)%nat.
Proof. unfold free_count. by rewrite filter_app, length_app. Qed.

Lemma free_count_le l : (free_count l <= length l)%nat.
Proof. unfold free_count. apply length_filter. Qed.

Lemma free_count_true n : free_count (replicate n true) = 0%nat.
Proof. unfold free_count. induction n as [|n IH]; [done|]. by rewrite replicate_S, filter_cons_False. Qed.

Lemma free_count_false n : free_count (replicate n false) = n.
Proof.
  unfold free_count. induction n as [|n IH]; [done|]. rewrite replicate_S, filter_cons_True by done.
  cbn [length]. by rewrite IH.
Qed.

Lemma receiver_total p : receiver_ok p -> receiver_totalLocked p = Ok (rp_total p).
Proof.
  intros (Hw & Lu & Hb & Hh & Ht & Hi & Ha & _). unfold receiver_totalLocked, rp_total in *.
  rewrite checkedIndexEnd_fits by lia. rewrite Lu, Z.eqb_refl, Ha.
  pose proof (free_count_le (rp_used p)).
  rewrite !(proj2 (Z.ltb_ge _ _)) by lia. done.
Qed.

Lemma NewReceiverPool_ok n :
  receiver_ok (NewReceiverPool n) /\ forall k, rp_free (NewReceiverPool n) k = None.
Proof.
  destruct (make_empty_spec receiver_zero n) as (Hw & He & Hs). split.
  - unfold receiver_ok, rp_total, MaxUint64. cbn -[make_empty elems spare]. split_and!; try done.
  - intros k. unfold rp_free. cbn -[make_empty elems]. by destruct (k <? 0).
Qed.

(** ** Scanning *)

Lemma any_used_spec used i n : (i + n <= length used)%nat ->
  exists b, any_used used i n = Ok b /\
    (b = false <-> forall j, (i <= j < i + n)%nat -> used !! j = Some false).
Proof.
  revert i. induction n as [|n IH]; intros i Hl.
  { exists false. split; [done|]. split; [intros _ j Hj; lia|done]. }
  destruct (lookup_lt_is_Some_2 used i ltac:(lia)) as [u Hu].
  cbn [any_used]. unfold index. rewrite Hu. cbn [mbind res_bind]. destruct u.
  - exists true. split; [done|]. split; [done|]. intros H. rewrite (H i) in Hu by lia. done.
  - destruct (IH (S i) ltac:(lia)) as (b & -> & Hb). exists b. split; [done|]. rewrite Hb.
    split; intros H j Hj; [|apply H; lia].
    destruct (decide (j = i)) as [->|]; [done|]. apply H. lia.
Qed.

Lemma used_prefix_spec used :
  (used_prefix used <= length used)%nat /\
  used = replicate (used_prefix used) true ++ drop (used_prefix used) used.
Proof.
  induction used as [|[] used [IH1 IH2]]; cbn; [done| |split; [lia|done]].
  split; [lia|]. by f_equal.
Qed.

(** ** Compaction is invisible *)

Record same_view (p p' : ReceiverPool) : Prop := {
  sv_free : forall k, rp_free p' k = rp_free p k;
  sv_total : rp_total p' = rp_total p;
  sv_high : rp_high p' = rp_high p;
  sv_avail : rp_avail p' = rp_avail p;
}.

Lemma receiver_compact_ok p : receiver_ok p ->
  exists p', receiver_compactConsumed p = Ok p' /\ receiver_ok p' /\ same_view p p'.
Proof.
  intros H. pose proof H as (Hw & Lu & Hb & Hh & Ht & Hi & Ha & Hs & Hc).
  unfold receiver_compactConsumed. destruct (_ && _); [by exists p|].
  destruct (used_prefix_spec (rp_used p)) as [Hpl Hpe]. set (c := used_prefix (rp_used p)) in *.
  destruct (shift_out_spec receiver_zero (rp_entries p) c) as (es & -> & Hw' & He' & Hs'); [done|lia|].
  cbn [mbind res_bind].
  assert (Ls : slen es = (slen (rp_entries p) - c)%nat)
    by (rewrite <- length_elems, He', length_drop, length_elems by done; lia).
  rewrite (proj2 (Nat.ltb_ge _ _)) by lia.
  rewrite take_app_length' by (rewrite length_drop; lia).
  assert (Hcb : rp_base p + Z.of_nat c <= rp_high p).
  { destruct (decide (c = 0%nat)) as [->|Hc0]; [lia|].
    destruct (lookup_lt_is_Some_2 (elems (rp_entries p)) (c - 1)) as [e He]; [rewrite length_elems; lia || done|].
    assert (Hu : rp_used p !! (c - 1)%nat = Some true).
    { rewrite Hpe, lookup_app_l, lookup_replicate_2 by (rewrite ?length_replicate; lia). done. }
    destruct (Hc _ _ _ Hu He) as [_ ?]. lia. }
  unfold rp_total in *.
  assert (Eadd : add64 (rp_base p) (Z.of_nat c) = rp_base p + Z.of_nat c).
  { unfold add64, u64, MaxUint64 in *. rewrite Z.mod_small; lia. }
  rewrite Eadd. eexists. split; [done|]. split.
  - unfold receiver_ok, rp_total; cbn [rp_entries rp_used rp_base rp_high rp_avail].
    split_and!; try done; try lia.
    + rewrite length_drop. lia.
    + rewrite Ha, Hpe at 1. rewrite free_count_app, free_count_true. done.
    + rewrite Hs'. apply Forall_app. split; [by apply Forall_replicate|done].
    + intros i u e Hu He. rewrite lookup_drop in Hu. rewrite He', lookup_drop in He.
      pose proof (Hc _ _ _ Hu He) as Hcell. unfold cell_ok in *.
      destruct u; [destruct Hcell; split; [done|lia]|lia].
  - split; cbn [rp_entries rp_used rp_base rp_high rp_avail]; try done.
    + intros k. unfold rp_free. cbn [rp_entries rp_used rp_base].
      destruct (Z.ltb_spec k (rp_base p)); [by rewrite (proj2 (Z.ltb_lt k _)) by lia|].
      destruct (Z.ltb_spec k (rp_base p + Z.of_nat c)).
      * rewrite Hpe, lookup_app_l, lookup_replicate_2 by (rewrite ?length_replicate; lia). done.
      * rewrite He', !lookup_drop. by replace (c + Z.to_nat (k - (rp_base p + Z.of_nat c)))%nat
          with (Z.to_nat (k - rp_base p)) by lia.
    + unfold rp_total. cbn. lia.
Qed.

(** ** [Consume] *)

Definition in_range (start count k : Z) : bool := (start <=? k) && (k <? start + count).

Lemma in_range_spec start count k : in_range start count k = true <-> start <= k < start + count.
Proof. unfold in_range. rewrite andb_true_iff, Z.leb_le, Z.ltb_lt. done. Qed.

(** A whole range is free. *)
Definition range_free (p : ReceiverPool) (start count : Z) : Prop :=
  0 < count /\ forall k, start <= k < start + count -> is_Some (rp_free p k).

Lemma rp_free_Some p k e : receiver_ok p -> rp_free p k = Some e ->
  rp_base p <= k < rp_total p /\ rIndex e = k /\
  rp_used p !! Z.to_nat (k - rp_base p) = Some false.
Proof.
  intros (Hw & Lu & Hb & _ & _ & _ & _ & _ & Hc) H. unfold rp_free in H.
  destruct (Z.ltb_spec k (rp_base p)); [done|].
  destruct (rp_used p !! Z.to_nat (k - rp_base p)) as [[]|] eqn:Hu; [done| |done].
  pose proof (Hc _ _ _ Hu H) as Hcell. cbn in Hcell.
  apply lookup_lt_Some in Hu. unfold rp_total. split_and!; [lia..|done].
Qed.

Lemma validateConsumable_spec p start count :
  receiver_ok p -> is_u64 start -> is_int count ->
  (receiver_validateConsumable p start count = Ok () /\ range_free p start count /\
   rp_base p <= start /\ start + count <= rp_total p) \/
  ((exists m, receiver_validateConsumable p start count = Err m) /\ ~ range_free p start count).
Proof.
  intros H Hs Hc. pose proof H as (Hw & Lu & Hb & Hh & Ht & Hi & Ha & Hsp & Hcell).
  unfold receiver_validateConsumable.
  destruct (Z.leb_spec count 0); [right; split; [by eexists|intros [? _]; lia]|].
  assert (Hin : range_free p start count -> rp_base p <= start /\ start + count <= rp_total p).
  { intros [_ Hf]. destruct (Hf start) as [e1 He1]; [lia|]. destruct (Hf (start + count - 1)) as [e2 He2]; [lia|].
    apply rp_free_Some in He1 as [? _], He2 as [? _]; [|done..]. lia. }
  destruct (Z.ltb_spec start (rp_base p)); [right; split; [by eexists|intros Hf; apply Hin in Hf; lia]|].
  rewrite receiver_total by done. cbn [mbind res_bind]. rewrite checkedIndexEnd_spec by done.
  rewrite (proj2 (Z.ltb_ge count 0)) by lia.
  destruct (Z.ltb_spec MaxUint64 (start + count)); cbn [mbind res_bind];
    [right; split; [by eexists|intros Hf; apply Hin in Hf; lia]|].
  destruct (Z.ltb_spec (rp_total p) (start + count));
    [right; split; [by eexists|intros Hf; apply Hin in Hf; lia]|].
  unfold rp_total in *. rewrite sub64_small by lia. rewrite to_int_small by lia.
  destruct (any_used_spec (rp_used p) (Z.to_nat (start - rp_base p)) (Z.to_nat count)) as (b & -> & Hb'); [lia|].
  cbn [mbind res_bind].
  assert (E : range_free p start count <-> b = false).
  { rewrite Hb'. split.
    - intros [_ Hf] j Hj. destruct (Hf (rp_base p + Z.of_nat j)) as [e He]; [lia|].
      apply rp_free_Some in He as (_ & _ & Hu); [|done].
      by replace (Z.to_nat (rp_base p + Z.of_nat j - rp_base p)) with j in Hu by lia.
    - intros Hf. split; [lia|]. intros k Hk. unfold rp_free.
      rewrite (proj2 (Z.ltb_ge _ _)), Hf by lia. apply lookup_lt_is_Some_2.
      rewrite length_elems by done. lia. }
  destruct b; [right; split; [by eexists|intros Hf; by apply E in Hf]|left].
  split; [done|]. split; [by apply E|lia].
Qed.

Lemma lookup_patch {A} (l : list A) a b x i :
  (a <= b <= length l)%nat ->
  (take a l ++ replicate (b - a) x ++ drop b l) !! i =
  if decide (a <= i < b)%nat then Some x else l !! i.
Proof.
  intros H. case_decide as Hd.
  - rewrite lookup_app_r, length_take, Nat.min_l by (rewrite ?length_take; lia).
    rewrite lookup_app_l, lookup_replicate_2 by (rewrite ?length_replicate; lia). done.
  - destruct (decide (i < a)%nat).
    + rewrite lookup_app_l, lookup_take_lt by (rewrite ?length_take; lia). done.
    + rewrite lookup_app_r, length_take, Nat.min_l by (rewrite ?length_take; lia).
      rewrite lookup_app_r, length_replicate by (rewrite length_replicate; lia).
      rewrite lookup_drop. f_equal. lia.
Qed.

Lemma free_count_slice used a b :
  (a <= b <= length used)%nat -> (forall j, (a <= j < b)%nat -> used !! j = Some false) ->
  free_count used = (free_count (take a used ++ replicate (b - a) true ++ drop b used) + (b - a))%nat.
Proof.
  intros H Hf. rewrite !free_count_app, free_count_true.
  assert (E : used = take a used ++ replicate (b - a) false ++ drop b used).
  { apply list_eq. intros i. rewrite lookup_patch by done. case_decide; [by apply Hf|done]. }
  rewrite E at 1. rewrite !free_count_app, free_count_false. lia.
Qed.

Definition after_consume (p p' : ReceiverPool) (start count : Z) : Prop :=
  (forall k, rp_free p' k = if in_range start count k then None else rp_free p k) /\
  rp_total p' = rp_total p /\ rp_high p' = Z.max (rp_high p) (start + count) /\
  rp_avail p' = rp_avail p - count.

(** The pool state between clearing the range and compaction. *)
Lemma consume_mid_ok p es used start count (a b : nat) :
  receiver_ok p -> range_free p start count ->
  rp_base p <= start -> start + count <= rp_total p ->
  a = Z.to_nat (start - rp_base p) -> b = (a + Z.to_nat count)%nat ->
  slice_wf es -> slen es = slen (rp_entries p) -> spare es = spare (rp_entries p) ->
  elems es = take a (elems (rp_entries p)) ++ replicate (b - a) receiver_zero
             ++ drop b (elems (rp_entries p)) ->
  used = take a (rp_used p) ++ replicate (b - a) true ++ drop b (rp_used p) ->
  let mid := mkReceiverPool es used (rp_base p)
               (if rp_high p <? start + count then start + count else rp_high p)
               (rp_avail p - count) in
  receiver_ok mid /\ after_consume p mid start count.
Proof.
  intros H Hf Hb1 Ht1 -> -> Hw' Ls Hs' He' ->. pose proof H as (Hw & Lu & Hb & Hh & Ht & Hi & Ha & Hs & Hc).
  set (a := Z.to_nat (start - rp_base p)) in *. set (b := (a + Z.to_nat count)%nat) in *.
  destruct Hf as [Hpos Hf]. unfold rp_total in *.
  assert (Hmax : (if rp_high p <? start + count then start + count else rp_high p)
                 = Z.max (rp_high p) (start + count)) by (destruct (Z.ltb_spec (rp_high p) (start + count)); lia).
  pose proof (length_elems _ Hw) as Le.
  assert (Hfree : forall j, (a <= j < b)%nat -> rp_used p !! j = Some false).
  { intros j Hj. destruct (Hf (rp_base p + Z.of_nat j)) as [e He]; [lia|].
    apply rp_free_Some in He as (_ & _ & Hu); [|done].
    by replace (Z.to_nat (rp_base p + Z.of_nat j - rp_base p)) with j in Hu by lia. }
  split.
  - unfold receiver_ok, rp_total; cbn [rp_entries rp_used rp_base rp_high rp_avail]. rewrite Hmax.
    split_and!; try done; try lia.
    + rewrite !length_app, length_take, length_replicate, length_drop. lia.
    + pose proof (free_count_slice (rp_used p) a b ltac:(lia) Hfree). lia.
    + by rewrite Hs'.
    + intros i u e Hu He. rewrite lookup_patch in Hu by lia. rewrite He', lookup_patch in He by lia.
      unfold cell_ok. case_decide.
      * apply (inj Some) in Hu as <-, He as <-. split; [done|]. lia.
      * pose proof (Hc _ _ _ Hu He) as Hcell. unfold cell_ok in Hcell.
        destruct u; [destruct Hcell; split; [done|lia]|done].
  - unfold after_consume, rp_total. cbn [rp_entries rp_used rp_base rp_high rp_avail].
    split_and!; [|by rewrite Ls|done..].
    intros k. unfold rp_free. cbn [rp_entries rp_used rp_base].
    destruct (Z.ltb_spec k (rp_base p)); [by destruct (in_range _ _ _)|].
    rewrite He', !lookup_patch by lia.
    destruct (in_range start count k) eqn:Er.
    + apply in_range_spec in Er. by rewrite decide_True by lia.
    + assert (~ (start <= k < start + count)) by (rewrite <- in_range_spec; congruence).
      by rewrite !decide_False by lia.
Qed.

(** Consuming takes a range that is entirely free, in order, and nothing else;
    otherwise it fails and leaves the pool as it was. *)
Lemma ReceiverPool_Consume_spec p start count p' r :
  receiver_ok p -> is_u64 start -> is_int count -> ReceiverPool_Consume p start count = (p', r) ->
  (range_free p start count /\ receiver_ok p' /\ after_consume p p' start count /\
   exists l, r = Ok l /\ Z.of_nat (length l) = count /\
     forall i, (i < length l)%nat -> l !! i = rp_free p (start + Z.of_nat i)) \/
  (~ range_free p start count /\ (exists m, r = Err m) /\ p' = p).
Proof.
  intros H Hs Hc. unfold ReceiverPool_Consume.
  destruct (validateConsumable_spec p start count H Hs Hc)
    as [(-> & Hf & Hb1 & Ht1)|[[m ->] Hn]]; cbn [mbind res_bind];
    [|intros E; injection E as <- <-; right; split_and!; [done|by eexists|done]].
  pose proof H as (Hw & Lu & Hb & Hh & Ht & Hi & Ha & Hsp & Hcell). unfold rp_total in *.
  pose proof Hf as [Hpos Hfr]. pose proof (length_elems _ Hw) as Le.
  rewrite checkedIndexEnd_fits by (unfold is_int in *; lia). cbn [mbind res_bind].
  rewrite sub64_small by lia. rewrite to_int_small by lia.
  set (a := Z.to_nat (start - rp_base p)). set (b := (a + Z.to_nat count)%nat).
  rewrite copy_range_spec by (done || lia). cbn [mbind res_bind].
  unfold mark_used. rewrite (proj2 (Nat.ltb_ge _ _)) by lia. cbn [mbind res_bind].
  destruct (clear_range_spec receiver_zero (rp_entries p) a b) as (es & -> & Hw' & Ls & He' & Hs'); [done|lia|].
  cbn [mbind res_bind].
  destruct (consume_mid_ok p es (take a (rp_used p) ++ replicate (b - a) true ++ drop b (rp_used p))
    start count a b) as [Hmid (Hf1 & Hf2 & Hf3 & Hf4)]; try done.
  destruct (receiver_compact_ok _ Hmid) as (p2 & -> & Hok2 & [V1 V2 V3 V4]). cbn [mbind res_bind].
  intros E. injection E as <- <-. left. split_and!; [done|done| |].
  - split_and!; [intros k; by rewrite V1|congruence..].
  - eexists. split; [done|]. rewrite length_slice by lia. split; [lia|].
    intros i Hi'. rewrite lookup_slice by lia. unfold rp_free.
    rewrite (proj2 (Z.ltb_ge _ _)) by lia.
    replace (Z.to_nat (start + Z.of_nat i - rp_base p)) with (a + i)%nat by lia.
    destruct (Hfr (start + Z.of_nat i)) as [e He]; [lia|].
    apply rp_free_Some in He as (_ & _ & Hu); [|done].
    replace (Z.to_nat (start + Z.of_nat i - rp_base p)) with (a + i)%nat in Hu by lia. by rewrite Hu.
Qed.

(** ** [Add] *)

Definition r_consecutive (start : Z) (l : list ReceiverOT) : Prop :=
  forall i o, l !! i = Some o -> rIndex o = start + Z.of_nat i.

Lemma receiver_indices_ok_spec l start i :
  0 <= start -> start + Z.of_nat (i + length l) <= MaxUint64 ->
  receiver_indices_ok l start i = true <-> r_consecutive (start + Z.of_nat i) l.
Proof.
  intros H0. revert i. induction l as [|o l IH]; intros i Hi.
  { split; [|done]. intros _ j o' H. by rewrite lookup_nil in H. }
  cbn [receiver_indices_ok length] in *. rewrite andb_true_iff, (IH (S i)) by lia.
  unfold add64, u64, MaxUint64 in *. rewrite Z.mod_small, Z.eqb_eq by lia. split.
  - intros [E H] [|j] o' Hj; cbn in Hj; [injection Hj as <-; lia|]. rewrite (H j o' Hj). lia.
  - intros H. split; [rewrite (H 0%nat o eq_refl); lia|]. intros j o' Hj. rewrite (H (S j) o' Hj). lia.
Qed.

(** Appending makes the batch free at the indices from the old total on. *)
Definition after_add (p p' : ReceiverPool) (l : list ReceiverOT) : Prop :=
  (forall k, rp_free p' k =
     if k <? rp_total p then rp_free p k else l !! Z.to_nat (k - rp_total p)) /\
  rp_total p' = rp_total p + Z.of_nat (length l) /\ rp_high p' = rp_high p.

Lemma ReceiverPool_Add_spec p l p' r :
  receiver_ok p -> Z.of_nat (slen (rp_entries p) + length l) < 2 ^ 63 ->
  ReceiverPool_Add p l = (p', r) ->
  (r = Ok () /\ receiver_ok p' /\ after_add p p' l /\ r_consecutive (rp_total p) l) \/
  ((exists m, r = Err m) /\ p' = p).
Proof.
  intros H Hl. pose proof H as (Hw & Lu & Hb & Hh & Ht & Hi & Ha & Hs & Hc).
  unfold ReceiverPool_Add. rewrite receiver_total by done. cbn [mbind res_bind].
  unfold validateReceiverOTIndices.
  rewrite checkedIndexEnd_spec by (unfold is_u64, is_int, rp_total, MaxUint64 in *; lia).
  rewrite (proj2 (Z.ltb_ge _ _)) by lia.
  destruct (Z.ltb_spec MaxUint64 (rp_total p + Z.of_nat (length l))); cbn [mbind res_bind];
    [intros E; injection E as <- <-; right; split; [by eexists|done]|].
  pose proof (receiver_indices_ok_spec l (rp_total p) 0 ltac:(lia) ltac:(lia)) as Hx.
  rewrite Z.add_0_r in Hx.
  destruct (receiver_indices_ok _ _ _);
    [|intros E; injection E as <- <-; right; split; [by eexists|done]].
  destruct (appendWithWipedGrowth _ _ _) as [es left] eqn:Ea. intros Eq. injection Eq as <- <-.
  apply appendWithWipedGrowth_spec in Ea as (Hw' & Hel & _ & Hs'); [|done].
  pose proof (length_elems _ Hw) as Le.
  assert (Ls : slen es = (slen (rp_entries p) + length l)%nat)
    by (rewrite <- length_elems, Hel, length_app, Le by done; done).
  left. split; [done|]. pose proof (proj1 Hx eq_refl) as Hcons. split; [|split; [|done]].
  - unfold receiver_ok, rp_total in *; cbn [rp_entries rp_used rp_base rp_high rp_avail].
    split_and!; try done; try lia; [rewrite length_app, length_replicate; lia| |by apply Hs'|].
    { rewrite free_count_app, free_count_false. lia. }
    intros i u e Hu He. rewrite Hel in He.
    apply lookup_app_Some in Hu as [Hu|[Hge Hu]].
    + rewrite lookup_app_l in He by (apply lookup_lt_Some in Hu; lia). exact (Hc _ _ _ Hu He).
    + rewrite lookup_app_r in He by lia. apply lookup_replicate in Hu as [-> _].
      cbn. rewrite (Hcons _ _ He). lia.
  - unfold after_add, rp_total in *; cbn [rp_entries rp_used rp_base rp_high rp_avail].
    split_and!; [|lia|done]. intros k. unfold rp_free. cbn [rp_entries rp_used rp_base].
    destruct (Z.ltb_spec k (rp_base p)); [by rewrite (proj2 (Z.ltb_lt _ _)) by lia|].
    rewrite Hel. destruct (Z.ltb_spec k (rp_base p + Z.of_nat (slen (rp_entries p)))).
    + by rewrite !lookup_app_l by lia.
    + rewrite !lookup_app_r by lia. rewrite Lu, Le.
      replace (Z.to_nat (k - rp_base p) - slen (rp_entries p))%nat
        with (Z.to_nat (k - (rp_base p + Z.of_nat (slen (rp_entries p))))) by lia.
      set (j := Z.to_nat _). destruct (decide (j < length l)%nat).
      * by rewrite lookup_replicate_2 by done.
      * rewrite !(proj2 (lookup_ge_None _ _)) by (rewrite ?length_replicate; lia). done.
Qed.

(** ** [AdvanceTo] *)

Lemma advance_loop_spec used n avail : (n <= length used)%nat ->
  advance_loop used n avail =
  Ok (replicate n true ++ drop n used, avail - Z.of_nat (free_count (take n used))).
Proof.
  revert n avail. induction used as [|u used IH]; intros [|n] avail Hl; cbn [length] in Hl; try lia;
    cbn [advance_loop]; try (cbn; by rewrite Z.sub_0_r).
  rewrite IH by lia. cbn [mbind res_bind replicate app drop take]. do 2 f_equal.
  unfold free_count. destruct u; [rewrite filter_cons_False by done; lia|].
  rewrite filter_cons_True by done. cbn [length]. lia.
Qed.

Lemma ReceiverPool_AdvanceTo_spec p next p' r :
  receiver_ok p -> is_u64 next -> ReceiverPool_AdvanceTo p next = (p', r) ->
  (rp_high p <= next <= rp_total p /\ r = Ok () /\ receiver_ok p' /\
   (forall k, rp_free p' k = if k <? next then None else rp_free p k) /\
   rp_total p' = rp_total p /\ rp_high p' = next) \/
  (~ (rp_high p <= next <= rp_total p) /\ (exists m, r = Err m) /\ p' = p).
Proof.
  intros H Hn. pose proof H as (Hw & Lu & Hb & Hh & Ht & Hi & Ha & Hs & Hc).
  unfold ReceiverPool_AdvanceTo. rewrite receiver_total by done. cbn [mbind res_bind].
  destruct (Z.ltb_spec next (rp_high p)); cbn [orb];
    [intros E; injection E as <- <-; right; split_and!; [lia|by eexists|done]|].
  destruct (Z.ltb_spec (rp_total p) next);
    [intros E; injection E as <- <-; right; split_and!; [lia|by eexists|done]|].
  unfold rp_total in *. pose proof (length_elems _ Hw) as Le.
  rewrite sub64_small by lia. rewrite to_int_small by lia. set (n := Z.to_nat (next - rp_base p)).
  rewrite advance_loop_spec by lia. cbn [mbind res_bind].
  destruct (clear_range_spec receiver_zero (rp_entries p) 0 n) as (es & -> & Hw' & Ls & He' & Hs'); [done|lia|].
  cbn [mbind res_bind]. set (mid := mkReceiverPool _ _ _ _ _).
  assert (Epatch : replicate n true ++ drop n (rp_used p)
                   = take 0 (rp_used p) ++ replicate (n - 0) true ++ drop n (rp_used p))
    by (by rewrite Nat.sub_0_r).
  assert (Hmid : receiver_ok mid).
  { unfold mid, receiver_ok, rp_total in *; cbn [rp_entries rp_used rp_base rp_high rp_avail].
    split_and!; try done; try lia; [rewrite length_app, length_replicate, length_drop; lia| |by rewrite Hs'|].
    - rewrite free_count_app, free_count_true, Ha. rewrite <- (take_drop n (rp_used p)) at 1.
      rewrite free_count_app. lia.
    - intros i u e Hu He. rewrite Epatch, lookup_patch in Hu by lia.
      rewrite He', lookup_patch in He by lia. unfold cell_ok. case_decide.
      + apply (inj Some) in Hu as <-, He as <-. split; [done|lia].
      + pose proof (Hc _ _ _ Hu He) as Hcell. unfold cell_ok in Hcell.
        destruct u; [destruct Hcell; split; [done|lia]|done]. }
  destruct (receiver_compact_ok mid Hmid) as (p2 & -> & Hok2 & [V1 V2 V3 V4]).
  intros E. injection E as <- <-. left. split_and!; try done; try lia.
  - intros k. rewrite V1. unfold rp_free, mid. cbn [rp_entries rp_used rp_base].
    destruct (Z.ltb_spec k (rp_base p)); [by destruct (k <? next)|].
    rewrite Epatch, He', !lookup_patch by lia.
    destruct (Z.ltb_spec k next); [by rewrite decide_True by lia|by rewrite !decide_False by lia].
  - unfold rp_total in V2. rewrite V2. unfold mid. cbn. lia.
Qed.

Lemma ReceiverPool_Clear_ok p : receiver_ok p ->
  receiver_ok (ReceiverPool_Clear p) /\ forall k, rp_free (ReceiverPool_Clear p) k = None.
Proof.
  intros (Hw & _ & _ & _ & _ & _ & _ & Hs & _).
  destruct (clear_all_spec receiver_zero (rp_entries p) Hw) as (Hw' & He' & Hs'). split.
  - unfold receiver_ok, rp_total, MaxUint64, ReceiverPool_Clear. cbn -[clear_all elems spare].
    split_and!; try done. rewrite Hs'. apply Forall_app. split; [by apply Forall_replicate|done].
  - intros k. unfold rp_free. cbn -[clear_all elems]. by destruct (k <? 0).
Qed.

(** ** No index is handed out twice *)

Inductive receiverOp :=
| RAdd (l : list ReceiverOT)
| RConsume (start count : Z)
| RAdvance (next : Z)
| RClear.

(** The pool, how often it was cleared, and the indices handed out so far, in order, each with the number of clears
    before it: [Clear] empties the pool for another epoch, whose indices count from zero again. *)
Record receiverRun := mkReceiverRun { rn_pool : ReceiverPool; rn_clears : nat; rn_given : list (nat * Z) }.

Definition receiver_step (w : receiverRun) (o : receiverOp) : receiverRun :=
  match o with
  | RAdd l => mkReceiverRun (fst (ReceiverPool_Add (rn_pool w) l)) (rn_clears w) (rn_given w)
  | RConsume start count =>
      match ReceiverPool_Consume (rn_pool w) start count with
      | (p', Ok l) => mkReceiverRun p' (rn_clears w) (rn_given w ++ map (fun o => (rn_clears w, rIndex o)) l)
      | (p', _) => mkReceiverRun p' (rn_clears w) (rn_given w)
      end
  | RAdvance next => mkReceiverRun (fst (ReceiverPool_AdvanceTo (rn_pool w) next)) (rn_clears w) (rn_given w)
  | RClear => mkReceiverRun (ReceiverPool_Clear (rn_pool w)) (S (rn_clears w)) (rn_given w)
  end.

Definition rop_fits (w : receiverRun) (o : receiverOp) : Prop :=
  match o with
  | RAdd l => Z.of_nat (slen (rp_entries (rn_pool w)) + length l) < 2 ^ 63
  | RConsume start count => is_u64 start /\ is_int count
  | RAdvance next => is_u64 next
  | RClear => True
  end.

Definition new_receiver_run (n : nat) : receiverRun := mkReceiverRun (NewReceiverPool n) 0 [].

Inductive receiver_reachable : receiverRun -> Prop :=
| receiver_init n : receiver_reachable (new_receiver_run n)
| receiver_next w o : receiver_reachable w -> rop_fits w o -> receiver_reachable (receiver_step w o).

(** An index that was handed out since the last clear is below the total and no longer free. *)
Definition receiver_inv (w : receiverRun) : Prop :=
  receiver_ok (rn_pool w) /\ NoDup (rn_given w) /\
  forall c k, (c, k) ∈ rn_given w -> (c <= rn_clears w)%nat /\
    (c = rn_clears w -> k < rp_total (rn_pool w) /\ rp_free (rn_pool w) k = None).

(** The indices of a consumed range are that range. *)
Lemma consumed_indices p start l : receiver_ok p ->
  (forall i, (i < length l)%nat -> is_Some (rp_free p (start + Z.of_nat i))) ->
  (forall i, (i < length l)%nat -> l !! i = rp_free p (start + Z.of_nat i)) ->
  map rIndex l = seqZ start (Z.of_nat (length l)).
Proof.
  intros H Hsome Hl. apply list_eq. intros i. change (map rIndex l) with (rIndex <$> l).
  rewrite list_lookup_fmap. destruct (decide (i < length l)%nat) as [Hi|Hi].
  - destruct (Hsome i Hi) as [e He]. rewrite Hl, He by done. cbn [fmap option_fmap option_map].
    apply rp_free_Some in He as (_ & -> & _); [|done]. symmetry. apply lookup_seqZ. split; [done|lia].
  - rewrite !(proj2 (lookup_ge_None _ _)); [done|rewrite length_seqZ; lia|lia].
Qed.

Lemma tagged_seqZ (c : nat) l start count : map rIndex l = seqZ start count -> map (fun o => (c, rIndex o)) l = map (c,.) (seqZ start count).
Proof. intros <-. by rewrite map_map. Qed.

Lemma receiver_step_inv w o : receiver_inv w -> rop_fits w o -> receiver_inv (receiver_step w o).
Proof.
  destruct w as [p n given]. intros (Hok & Hnd & Hg) Hfit. cbn [rn_pool rn_clears rn_given] in *.
  assert (Keep : forall p', receiver_ok p' -> (forall k, k < rp_total p -> rp_free p k = None -> k < rp_total p' /\ rp_free p' k = None) ->
    receiver_inv (mkReceiverRun p' n given)).
  { intros p' Hok' Hk. split_and!; cbn [rn_pool rn_clears rn_given]; [done..|]. intros c k Hin. destruct (Hg c k Hin) as [? H]. split; [done|].
    intros E. destruct (H E). by apply Hk. }
  destruct o as [l|start count|next|]; cbn [receiver_step rop_fits rn_pool rn_clears rn_given] in *.
  - destruct (ReceiverPool_Add p l) as [p' r] eqn:E.
    apply ReceiverPool_Add_spec in E as [(_ & Hok' & (Hf & Ht & _) & _)|[_ ->]]; [|by apply Keep|done..].
    apply Keep; [done|]. intros k Hlt Hn. cbn [fst]. rewrite Hf, (proj2 (Z.ltb_lt _ _)) by done. split; [lia|done].
  - destruct Hfit as [Hs Hc]. destruct (ReceiverPool_Consume p start count) as [p' r] eqn:E.
    apply ReceiverPool_Consume_spec in E
      as [(Hrf & Hok' & (Hf & Ht & _) & l & -> & Ll & Hl)|(_ & [m ->] & ->)]; [|by apply Keep|done..].
    assert (Ei : map rIndex l = seqZ start count).
    { rewrite <- Ll. apply (consumed_indices p); [done| |done]. intros i Hi. apply Hrf. lia. }
    rewrite (tagged_seqZ n _ _ _ Ei). destruct Hrf as [_ Hrf]. split_and!; cbn [rn_pool rn_clears rn_given]; [done| |].
    + apply NoDup_app. split_and!; [done| |apply NoDup_fmap_2; [by intros ? ? [= ->]|apply NoDup_seqZ]].
      intros [c k] Hk (k' & [= -> ->] & Hin%elem_of_seqZ)%list_elem_of_fmap. destruct (Hg n k' Hk) as [_ [_ Hn]]; [done|].
      destruct (Hrf k' Hin) as [e He]. congruence.
    + intros c k [Hk|(k' & [= -> ->] & Hin%elem_of_seqZ)%list_elem_of_fmap]%elem_of_app; rewrite Ht.
      * destruct (Hg c k Hk) as [? H]. split; [done|]. intros Ec. destruct (H Ec) as [? Hn]. rewrite Hf, Hn. by destruct (in_range _ _ _).
      * split; [done|]. intros _. rewrite Hf, (proj2 (in_range_spec _ _ _)) by lia. split; [|done].
        destruct (Hrf k' Hin) as [e He]. apply rp_free_Some in He as [? _]; [lia|done].
  - destruct (ReceiverPool_AdvanceTo p next) as [p' r] eqn:E.
    apply ReceiverPool_AdvanceTo_spec in E as [(_ & _ & Hok' & Hf & Ht & _)|(_ & _ & ->)]; [|by apply Keep|done..].
    apply Keep; [done|]. intros k Hlt Hn. cbn [fst]. rewrite Hf, Ht, Hn. split; [done|]. by destruct (k <? next).
  - destruct (ReceiverPool_Clear_ok p Hok) as [Hok' _]. split_and!; cbn [rn_pool rn_clears rn_given]; [done..|].
    intros c k Hin. destruct (Hg c k Hin) as [? _]. split; [lia|]. intros ->. lia.
Qed.

Lemma receiver_reachable_inv w : receiver_reachable w -> receiver_inv w.
Proof.
  induction 1 as [n|w o _ IH Hfit]; [|by apply receiver_step_inv].
  destruct (NewReceiverPool_ok n) as [? Hf]. split_and!; cbn; [done|constructor|].
  intros c k Hk. by apply elem_of_nil in Hk.
Qed.

(** ** The properties the protocol relies on *)

(** C23: no OT index is used twice. Along any sequence of [Add], [Consume] (of any
    ranges, in any order), [AdvanceTo] and [Clear] calls, the indices handed out
    between two clears are pairwise distinct ([Clear] starts another epoch, whose
    indices count from zero again), and the backing array holds nothing but zeros
    and OTs whose index has not been handed out since the last clear. *)
Theorem receiver_never_reuses_index w :
  receiver_reachable w ->
  NoDup (rn_given w) /\
  forall o, o ∈ backing (rp_entries (rn_pool w)) -> o <> receiver_zero -> (rn_clears w, rIndex o) ∉ rn_given w.
Proof.
  intros (Hok & Hnd & Hg)%receiver_reachable_inv. split; [done|]. intros o Ho Hz Hin.
  destruct (Hg _ _ Hin) as [_ [_ Hnone]]; [done|]. destruct Hok as (Hw & Lu & Hb & _ & _ & _ & _ & Hs & Hc).
  rewrite <- elems_spare in Ho. apply elem_of_app in Ho as [Ho|Ho].
  - apply list_elem_of_lookup in Ho as [i Hi]. pose proof (lookup_lt_Some _ _ _ Hi) as Hlt.
    rewrite length_elems in Hlt by done.
    destruct (lookup_lt_is_Some_2 (rp_used (rn_pool w)) i) as [u Hu]; [lia|].
    pose proof (Hc i u o Hu Hi) as Hcell. destruct u; [by destruct Hcell as [-> _]|].
    cbn in Hcell. unfold rp_free in Hnone. rewrite Hcell in Hnone.
    rewrite (proj2 (Z.ltb_ge _ _)) in Hnone by lia.
    replace (Z.to_nat (rp_base (rn_pool w) + Z.of_nat i - rp_base (rn_pool w))) with i in Hnone by lia.
    by rewrite Hu, Hi in Hnone.
  - rewrite Forall_forall in Hs. by rewrite <- (Hs o Ho) in Hz.
Qed.

Definition two_ots : list ReceiverOT := [mkReceiverOT (mkLabel 5 6) 0 true; mkReceiverOT (mkLabel 7 8) 1 false].

(** A range is handed out once, and again only after a clear and a new [Add]. *)
Definition demo_receiver_ops : list receiverOp :=
  [RAdd two_ots; RConsume 1 1; RConsume 1 1; RAdvance 2; RClear; RConsume 1 1; RAdd two_ots; RConsume 0 2; RConsume 0 2].

Lemma receiver_never_reuses_index_witness :
  let w := fold_left receiver_step demo_receiver_ops (new_receiver_run 2) in
  rn_given w = [(0%nat, 1); (1%nat, 0); (1%nat, 1)] /\ NoDup (rn_given w).
Proof.
  split; [vm_compute; reflexivity|].
  apply (receiver_never_reuses_index (fold_left receiver_step demo_receiver_ops (new_receiver_run 2))).
  cbn [fold_left demo_receiver_ops]. repeat apply receiver_next; [apply receiver_init|..]; vm_compute; repeat split; try reflexivity; discriminate.
Defined.

(** [Consume] is all or nothing. On a well-formed pool it succeeds exactly
    when the count is positive and every index of the range is still free; it
    then returns those OTs in index order, frees nothing else and keeps the pool
    well formed; otherwise it fails and leaves the pool as it was. *)
Theorem consume_iff_range_free p start count :
  receiver_ok p -> is_u64 start -> is_int count ->
  let '(p', r) := ReceiverPool_Consume p start count in
  (is_ok r = true <-> range_free p start count) /\
  (is_ok r = false -> p' = p) /\ receiver_ok p' /\
  (forall l, r = Ok l -> (forall i o, l !! i = Some o -> rp_free p (start + Z.of_nat i) = Some o /\
                                                       rIndex o = start + Z.of_nat i) /\
     forall k, rp_free p' k = if in_range start count k then None else rp_free p k).
Proof.
  intros Hok Hs Hc. destruct (ReceiverPool_Consume p start count) as [p' r] eqn:E.
  apply ReceiverPool_Consume_spec in E
    as [(Hf & Hok' & (Hfree & _) & l & -> & Ll & Hl)|(Hn & [m ->] & ->)]; [| |done..].
  - split_and!; [done|done|done|]. intros l' E. apply (inj Ok) in E as <-. split; [|done].
    intros i o Hi. pose proof (lookup_lt_Some _ _ _ Hi) as Hlt. rewrite Hl in Hi by done.
    split; [done|]. by apply rp_free_Some in Hi as (_ & ? & _).
  - by split_and!.
Qed.

Lemma consume_iff_range_free_witness :
  let p := fst (ReceiverPool_Add (NewReceiverPool 2) two_ots) in
  is_ok (snd (ReceiverPool_Consume p 0 2)) = true /\ range_free p 0 2.
Proof.
  cbv zeta. set (p := fst (ReceiverPool_Add (NewReceiverPool 2) two_ots)).
  assert (Hok : receiver_ok p).
  { destruct (ReceiverPool_Add_spec (NewReceiverPool 2) two_ots p (Ok ())) as [(_ & ? & _)|[[m ?] _]];
      [apply NewReceiverPool_ok|vm_compute; reflexivity|vm_compute; reflexivity|done|done]. }
  assert (E : is_ok (snd (ReceiverPool_Consume p 0 2)) = true) by (vm_compute; reflexivity).
  split; [exact E|].
  pose proof (consume_iff_range_free p 0 2 Hok ltac:(vm_compute; split; [discriminate|reflexivity])
    ltac:(vm_compute; split; [discriminate|reflexivity])) as H.
  destruct (ReceiverPool_Consume p 0 2) as [p' r]. cbn [snd] in E. apply H. exact E.
Defined.

(** Everything below [next] is gone, until the pool is cleared. *)
Definition below_dead (next : Z) (w : receiverRun) : Prop :=
  receiver_ok (rn_pool w) /\
  (rn_clears w = 0%nat -> next <= rp_total (rn_pool w) /\ forall k, k < next -> rp_free (rn_pool w) k = None) /\
  Forall (fun ck => ck.1 = 0%nat -> next <= ck.2) (rn_given w).

Lemma below_dead_step next w o : below_dead next w -> rop_fits w o -> below_dead next (receiver_step w o).
Proof.
  destruct w as [p n given]. intros (Hok & Hd & Hg) Hfit. cbn [rn_pool rn_clears rn_given] in *.
  destruct o as [l|start count|nx|]; cbn [receiver_step rop_fits rn_pool rn_clears rn_given] in *.
  - destruct (ReceiverPool_Add p l) as [p' r] eqn:E.
    apply ReceiverPool_Add_spec in E as [(_ & Hok' & (Hf & Ht' & _) & _)|[_ ->]]; [|by split_and!|done..].
    split_and!; cbn [fst rn_pool rn_clears rn_given]; [done| |done]. intros En. destruct (Hd En) as [Ht Hdead]. split; [lia|].
    intros k Hk. rewrite Hf, (proj2 (Z.ltb_lt _ _)) by lia. by apply Hdead.
  - destruct Hfit as [Hs Hc]. destruct (ReceiverPool_Consume p start count) as [p' r] eqn:E.
    apply ReceiverPool_Consume_spec in E
      as [(Hrf & Hok' & (Hf & Ht' & _) & l & -> & Ll & Hl)|(_ & [m ->] & ->)]; [|by split_and!|done..].
    assert (Ei : map rIndex l = seqZ start count).
    { rewrite <- Ll. apply (consumed_indices p); [done| |done]. intros i Hi. apply Hrf. lia. }
    split_and!; cbn [rn_pool rn_clears rn_given]; [done| |].
    + intros En. destruct (Hd En) as [Ht Hdead]. split; [lia|]. intros k Hk. rewrite Hf, Hdead by done. by destruct (in_range _ _ _).
    + apply Forall_app. split; [done|]. rewrite (tagged_seqZ n _ _ _ Ei). apply Forall_fmap, Forall_forall. intros k Hk%elem_of_seqZ. cbn. intros En.
      destruct (Hd En) as [_ Hdead]. destruct Hrf as [_ Hrf]. destruct (Hrf k Hk) as [e He].
      destruct (decide (next <= k)); [done|]. rewrite Hdead in He by lia. done.
  - destruct (ReceiverPool_AdvanceTo p nx) as [p' r] eqn:E.
    apply ReceiverPool_AdvanceTo_spec in E as [(_ & _ & Hok' & Hf & Ht' & _)|(_ & _ & ->)]; [|by split_and!|done..].
    split_and!; cbn [fst rn_pool rn_clears rn_given]; [done| |done]. intros En. destruct (Hd En) as [Ht Hdead]. split; [lia|].
    intros k Hk. rewrite Hf, Hdead by done. by destruct (k <? nx).
  - destruct (ReceiverPool_Clear_ok p Hok) as [Hok' _]. by split_and!.
Qed.

Fixpoint receiver_run_fits (w : receiverRun) (ops : list receiverOp) : Prop :=
  match ops with
  | [] => True
  | o :: ops => rop_fits w o /\ receiver_run_fits (receiver_step w o) ops
  end.

Lemma below_dead_run next ops : forall w, below_dead next w -> receiver_run_fits w ops ->
  below_dead next (fold_left receiver_step ops w).
Proof.
  induction ops as [|o ops IH]; intros w H Hfit; [done|]. cbn in *. destruct Hfit as [Ho Hfit].
  apply IH; [|done]. by apply below_dead_step.
Qed.

(** resuming after a reconnect. When [AdvanceTo next] succeeds, the indices
    below the sender's frontier [next] are gone: no later sequence of calls hands
    one of them out before the pool is cleared. *)
Theorem advance_discards_for_good p next p' ops :
  receiver_ok p -> is_u64 next -> ReceiverPool_AdvanceTo p next = (p', Ok ()) ->
  let start := mkReceiverRun p' 0 [] in receiver_run_fits start ops ->
  Forall (fun ck => ck.1 = 0%nat -> next <= ck.2) (rn_given (fold_left receiver_step ops start)).
Proof.
  intros Hok Hn E start Hfit.
  apply ReceiverPool_AdvanceTo_spec in E as [(Hr & _ & Hok' & Hf & Ht & _)|(_ & [m ?] & _)]; [|done..].
  apply (below_dead_run next ops start); [|done]. split_and!; cbn [start rn_pool rn_clears rn_given]; [done| |constructor].
  intros _. split; [lia|]. intros k Hk. by rewrite Hf, (proj2 (Z.ltb_lt _ _)).
Qed.

Lemma advance_discards_for_good_witness :
  let p := fst (ReceiverPool_Add (NewReceiverPool 2) two_ots) in
  let start := mkReceiverRun (fst (ReceiverPool_AdvanceTo p 1)) 0 [] in
  rn_given (fold_left receiver_step [RConsume 0 1; RConsume 1 1] start) = [(0%nat, 1)] /\
  Forall (fun ck => ck.1 = 0%nat -> 1 <= ck.2) (rn_given (fold_left receiver_step [RConsume 0 1; RConsume 1 1] start)).
Proof.
  cbv zeta. split; [vm_compute; reflexivity|].
  apply (advance_discards_for_good (fst (ReceiverPool_Add (NewReceiverPool 2) two_ots)) 1).
  - destruct (ReceiverPool_Add_spec (NewReceiverPool 2) two_ots (fst (ReceiverPool_Add (NewReceiverPool 2) two_ots)) (Ok ()))
      as [(_ & ? & _)|[[m ?] _]]; [apply NewReceiverPool_ok|vm_compute; reflexivity|vm_compute; reflexivity|done|done].
  - vm_compute. split; [discriminate|reflexivity].
  - vm_compute. reflexivity.
  - vm_compute. repeat split; try discriminate; reflexivity.
Defined.
