(* ===== verification/Cmac.v ===== *)
(** * The function the circuit computes ([aesCMACSource] in [mpc/circuit.go])

    The program text that is handed to the circuit compiler, translated, and its
    specification: AES-CMAC (RFC 4493) of the XOR of the two parties' data
    shares under the XOR of their key shares. *)

From S2P Require Import Prelude Bytes Label Crypto Circuit Oprf.

(** ** The circuit source *)

(** The loop of [leftShift], from byte 15 down to byte 0: [l] is what is left to
    read, last byte first. *)
Fixpoint leftShift_loop (l : bytes) (carry : Z) : bytes :=
  match l with
  | [] => []
  | b :: l => Z.lor (u8 (Z.shiftl b 1)) carry :: leftShift_loop l (Z.shiftr b 7)
  end.

Definition leftShift (L : bytes) : bytes :=
  let result := reverse (leftShift_loop (reverse L) 0) in
  let mask := u8 (0 - Z.shiftr (nth 0 L 0) 7) in
  <[15%nat := Z.lxor (nth 15 result 0) (Z.land mask 135)]> result.

Definition cmac_main `{BlockCipher} (gInput eInput : bytes) : bytes :=
  let key := xor_bytes (slice gInput 64 80) (slice eInput 64 80) in
  let data := xor_bytes (slice gInput 0 64) (slice eInput 0 64) in
  let L := aes_encrypt key (zeros 16) in
  let K1 := leftShift L in
  let M1 := slice data 0 16 in
  let M2 := slice data 16 32 in
  let M3 := slice data 32 48 in
  let M4 := xor_bytes (slice data 48 64) K1 in
  let C := aes_encrypt key M1 in
  let C := aes_encrypt key (xor_bytes C M2) in
  let C := aes_encrypt key (xor_bytes C M3) in
  aes_encrypt key (xor_bytes C M4).

(** ** RFC 4493 *)

(** Doubling in GF(2^128), on the block as a big-endian integer. *)
Definition dbl (x : Z) : Z :=
  let y := (2 * x) mod 2 ^ 128 in
  if Z.testbit x 127 then Z.lxor y 135 else y.

Definition rfc4493_cmac `{BlockCipher} (key M : bytes) : bytes :=
  let L := be_get (aes_encrypt key (zeros 16)) in
  let K1 := be_put 16 (dbl L) in
  let K2 := be_put 16 (dbl (dbl L)) in
  let len := length M in
  let n := Nat.max 1 ((len + 15) / 16) in
  let complete := (0 <? len)%nat && (len mod 16 =? 0)%nat in
  let rest := drop (16 * (n - 1)) M in
  let M_last :=
    if complete then xor_bytes rest K1
    else xor_bytes (rest ++ [128] ++ zeros (15 - length rest)) K2 in
  let X := fold_left (fun X i => aes_encrypt key (xor_bytes X (slice M (16 * i) (16 * i + 16))))
             (seq 0 (n - 1)) (zeros 16) in
  aes_encrypt key (xor_bytes X M_last).

(** RFC 4493, section 4, examples 2 and 4. *)
Definition rfc_key : bytes :=
  [43; 126; 21; 22; 40; 174; 210; 166; 171; 247; 21; 136; 9; 207; 79; 60].

Definition rfc_msg : bytes :=
  [107; 193; 190; 226; 46; 64; 159; 150; 233; 61; 126; 17; 115; 147; 23; 42;
   174; 45; 138; 87; 30; 3; 172; 156; 158; 183; 111; 172; 69; 175; 142; 81;
   48; 200; 28; 70; 163; 92; 228; 17; 229; 251; 193; 25; 26; 10; 82; 239;
   246; 159; 36; 69; 223; 79; 155; 23; 173; 43; 65; 123; 230; 108; 55; 16].

Example rfc4493_example_2 :
  rfc4493_cmac rfc_key (take 16 rfc_msg) =
  [7; 10; 22; 180; 107; 77; 65; 68; 247; 155; 221; 157; 208; 74; 40; 124].
Proof. vm_compute. reflexivity. Qed.

Example rfc4493_example_4 :
  rfc4493_cmac rfc_key rfc_msg =
  [81; 240; 190; 191; 126; 59; 157; 146; 252; 73; 116; 23; 121; 54; 60; 254].
Proof. vm_compute. reflexivity. Qed.

(** ** [leftShift] is doubling *)

Lemma shl1_carry b c : is_byte b -> 0 <= c <= 1 ->
  Z.lor (u8 (Z.shiftl b 1)) c = (2 * b + c) mod 256 /\ Z.shiftr b 7 = (2 * b + c) / 256.
Proof.
  intros Hb Hc. unfold is_byte in Hb. unfold u8. rewrite Z.shiftl_mul_pow2, Z.shiftr_div_pow2 by lia.
  change (2 ^ 1) with 2. change (2 ^ 8) with 256. change (2 ^ 7) with 128.
  replace (b * 2 mod 256) with (2 * (b mod 128)) by (Z.to_euclidean_division_equations; lia).
  split; [|Z.to_euclidean_division_equations; lia].
  transitivity (2 * (b mod 128) + c); [|Z.to_euclidean_division_equations; lia].
  assert (c = 0 \/ c = 1) as [-> | ->] by lia; [by rewrite Z.lor_0_r, Z.add_0_r|].
  apply Z.bits_inj'. intros i Hi. rewrite Z.lor_spec.
  destruct (decide (i = 0)) as [->|Hi0]; [by rewrite Z.testbit_odd_0, orb_true_r|].
  replace i with (Z.succ (i - 1)) by lia.
  rewrite Z.testbit_odd_succ, Z.testbit_even_succ by lia.
  by rewrite (testbit_high 1 1), orb_false_r by lia.
Qed.

Lemma leftShift_loop_spec l c : is_bytes l -> 0 <= c <= 1 ->
  length (leftShift_loop l c) = length l /\ is_bytes (leftShift_loop l c) /\
  le_get (leftShift_loop l c) = (2 * le_get l + c) mod 256 ^ Z.of_nat (length l).
Proof.
  intros Hl. revert c. induction Hl as [|b l Hb Hl IH]; intros c Hc.
  { cbn. split_and!; [done|constructor|by rewrite Z.mod_1_r]. }
  destruct (shl1_carry b c Hb Hc) as [E1 E2]. cbn [leftShift_loop le_get length]. rewrite E1, E2.
  assert (Hc' : 0 <= (2 * b + c) / 256 <= 1)
    by (unfold is_byte in Hb; Z.to_euclidean_division_equations; lia).
  destruct (IH _ Hc') as (L & HB & ->).
  split_and!; [by rewrite L|constructor; [|done]|].
  { unfold is_byte. apply Z.mod_pos_bound. lia. }
  rewrite Nat2Z.inj_succ, Z.pow_succ_r by lia.
  rewrite Z.rem_mul_r by lia.
  replace (2 * (b + 256 * le_get l) + c) with ((2 * b + c) + (2 * le_get l) * 256) by lia.
  rewrite Z.mod_add, Z.div_add by lia. do 3 f_equal. lia.
Qed.

Lemma list_snoc_inv {A} n (l : list A) :
  length l = S n -> exists pre x, l = pre ++ [x] /\ length pre = n.
Proof.
  intros H. destruct l as [|x pre _] using rev_ind; [done|].
  exists pre, x. split; [done|]. rewrite length_app in H. cbn in H. lia.
Qed.

(** XOR into the low byte of a little-endian string. *)
Lemma le_get_xor_low b l m : is_byte b -> is_byte m ->
  le_get (Z.lxor b m :: l) = Z.lxor (le_get (b :: l)) m.
Proof.
  intros Hb Hm. cbn [le_get]. pose proof (lxor_bound 8 b m ltac:(lia) Hb Hm) as Hx.
  assert (E : forall x, is_byte x -> x + 256 * le_get l = Z.lxor (Z.shiftl (le_get l) 8) x).
  { intros x Hx'. rewrite <- Z.add_nocarry_lxor; [rewrite Z.shiftl_mul_pow2 by lia; lia|].
    apply Z.bits_inj'. intros i Hi. rewrite Z.land_spec, Z.bits_0.
    destruct (decide (i < 8)); [by rewrite Z.shiftl_spec_low|].
    by rewrite (testbit_high 8 x), andb_false_r by (done || lia). }
  rewrite !E by done. by rewrite Z.lxor_assoc.
Qed.

Lemma be_get_xor_last l b m : is_byte b -> is_byte m ->
  be_get (l ++ [Z.lxor b m]) = Z.lxor (be_get (l ++ [b])) m.
Proof.
  intros. unfold be_get. rewrite !reverse_app. cbn [reverse rev_append app].
  change (reverse [?x]) with [x]. cbn [app]. by apply le_get_xor_low.
Qed.

Lemma msb_testbit L : length L = 16%nat -> is_bytes L ->
  Z.testbit (be_get L) 127 = Z.testbit (nth 0 L 0) 7 /\ is_byte (nth 0 L 0).
Proof.
  intros HL HB. destruct L as [|b L]; [done|]. cbn [nth]. split; [|by inversion HB].
  unfold be_get. rewrite reverse_cons. rewrite le_get_testbit; [|rewrite <- reverse_cons; by apply Forall_reverse|lia].
  change (Z.to_nat (127 / 8)) with 15%nat. change (127 mod 8) with 7.
  injection HL as HL. by rewrite lookup_app_r, length_reverse, HL by (rewrite length_reverse; lia).
Qed.

Lemma msb_mask b : is_byte b ->
  Z.land (u8 (0 - Z.shiftr b 7)) 135 = if Z.testbit b 7 then 135 else 0.
Proof.
  intros Hb. unfold is_byte in Hb. rewrite Z.shiftr_div_pow2 by lia. change (2 ^ 7) with 128.
  assert (b / 128 = 0 \/ b / 128 = 1) as E by (Z.to_euclidean_division_equations; lia).
  assert (Z.testbit b 7 = negb (b / 128 =? 0)) as ->.
  { rewrite Z.testbit_odd, Z.shiftr_div_pow2 by lia. change (2 ^ 7) with 128. by destruct E as [-> | ->]. }
  by destruct E as [-> | ->].
Qed.

Lemma leftShift_spec L : length L = 16%nat -> is_bytes L ->
  leftShift L = be_put 16 (dbl (be_get L)).
Proof.
  intros HL HB. unfold leftShift.
  destruct (leftShift_loop_spec (reverse L) 0) as (L1 & B1 & E1); [by apply Forall_reverse|lia|].
  rewrite length_reverse, HL in L1. rewrite length_reverse, HL, Z.add_0_r in E1.
  set (out := reverse (leftShift_loop (reverse L) 0)).
  assert (Lo : length out = 16%nat) by (unfold out; by rewrite length_reverse).
  assert (Bo : is_bytes out) by (by apply Forall_reverse).
  assert (Eo : be_get out = (2 * be_get L) mod 2 ^ 128).
  { unfold out. unfold be_get at 1. by rewrite reverse_involutive, E1. }
  destruct (msb_testbit L HL HB) as [Hmsb Hb0]. rewrite (msb_mask _ Hb0).
  clearbody out. destruct (list_snoc_inv 15 out Lo) as (pre & b & -> & Lp).
  rewrite insert_app_r_alt, Lp, Nat.sub_diag by lia. cbn [insert list_insert].
  rewrite app_nth2, Lp, Nat.sub_diag by lia. cbn [nth].
  apply Forall_app in Bo as [Bp Bb]. inversion Bb as [|? ? Hbb _]; subst.
  set (m := if Z.testbit (nth 0 L 0) 7 then 135 else 0).
  assert (Hm : is_byte m) by (unfold m, is_byte; destruct (Z.testbit (nth 0 L 0) 7); lia).
  assert (E : be_get (pre ++ [Z.lxor b m]) = dbl (be_get L)).
  { rewrite be_get_xor_last, Eo by done. unfold dbl, m. rewrite Hmsb.
    destruct (Z.testbit (nth 0 L 0) 7); [done|apply Z.lxor_0_r]. }
  rewrite <- E, be_put_get; [done|rewrite length_app, Lp; done|].
  apply Forall_app. split; [done|]. constructor; [|constructor]. by apply (lxor_bound 8).
Qed.

(** ** The circuit source computes RFC 4493 *)

Lemma xor_zeros n l : length l = n -> xor_bytes (zeros n) l = l.
Proof.
  intros <-. unfold xor_bytes, zeros. induction l as [|b l IH]; [done|].
  cbn [length replicate zip_with]. by rewrite IH, Z.lxor_0_l.
Qed.

Lemma cmac_main_spec `{BlockCipher} gInput eInput :
  length gInput = 80%nat -> length eInput = 80%nat ->
  cmac_main gInput eInput =
  rfc4493_cmac (xor_bytes (slice gInput 64 80) (slice eInput 64 80))
               (xor_bytes (slice gInput 0 64) (slice eInput 0 64)).
Proof.
  intros Lg Le. unfold cmac_main, rfc4493_cmac.
  set (key := xor_bytes (slice gInput 64 80) _). set (data := xor_bytes (slice gInput 0 64) _).
  assert (Ld : length data = 64%nat)
    by (unfold data; rewrite length_xor_bytes, !length_slice by lia; done).
  rewrite Ld. change (Nat.max 1 ((64 + 15) / 16) - 1)%nat with 3%nat.
  change ((0 <? 64)%nat && (64 mod 16 =? 0)%nat) with true. cbv iota zeta.
  cbn [seq fold_left Nat.mul Nat.add].
  rewrite leftShift_spec by (apply aes_encrypt_length || apply aes_encrypt_bytes).
  rewrite (xor_zeros 16) by (rewrite length_slice; lia).
  replace (slice data 48 64) with (drop 48 data); [done|].
  unfold slice. by rewrite take_ge by (rewrite length_drop, Ld; lia).
Qed.

Lemma cmac_main_bytes `{BlockCipher} g e : is_bytes (cmac_main g e) /\ length (cmac_main g e) = 16%nat.
Proof. split; [apply aes_encrypt_bytes|apply aes_encrypt_length]. Qed.

(** ** The protocol computes the CMAC of the shared secret inputs *)

(** What the compiler is relied on for: the gates it returns compute the
    program text it was given. *)
Definition compiles_source `{BlockCipher} (e : engine) : Prop :=
  forall g x, length g = 80%nat -> is_bytes g -> length x = 80%nat -> is_bytes x ->
    plain_outputs e (bytesToBits g ++ bytesToBits x) = bytesToBits (cmac_main g x).

Lemma run_oprf_is_cmac `{BlockCipher} compiled c e rs gIn eIn sots rots start pool epool :
  compiled = Ok c -> newEngine (Some c) = Ok e -> engine_ok e = true -> compiles_source e ->
  pool_ok e pool -> epool_ok e epool ->
  is_bytes rs -> (24 + random_size <= length rs)%nat ->
  length gIn = 80%nat -> is_bytes gIn -> length eIn = 80%nat -> is_bytes eIn ->
  length sots = InputBits -> validateSenderOTIndices sots start = Ok () -> correlated sots rots ->
  let tag := rfc4493_cmac (xor_bytes (slice gIn 64 80) (slice eIn 64 80))
                          (xor_bytes (slice gIn 0 64) (slice eIn 0 64)) in
  run_oprf compiled rs gIn eIn sots rots start pool epool = Ok (tag, tag).
Proof.
  intros Hcomp Hnew Hok Hsrc Hp Hep Hrs Lrs Lg Bg Le Be Ls Hval Hc tag.
  destruct (run_oprf_correct compiled c e rs gIn eIn sots rots start pool epool)
    as (cmac & -> & Hbits & Hb & Hl); [done..|].
  rewrite Hsrc in Hbits by done. destruct (cmac_main_bytes gIn eIn) as [Hb' Hl'].
  apply bytesToBits_inj in Hbits as ->; [|done..].
  unfold tag. by rewrite cmac_main_spec.
Qed.

(** ** The circuit computes AES-CMAC of the shared secrets *)

(** when the compiled gates compute the program text they were compiled
    from, the circuit's output bits are the bytes of AES-CMAC (RFC 4493) of the
    64-byte message [gData xor eData] under the key [gKey xor eKey]; the subkey
    of the text is doubling in GF(2^128). *)
Theorem circuit_output_is_cmac `{BlockCipher} e gData gKey eData eKey :
  compiles_source e ->
  length gData = 64%nat -> length gKey = 16%nat -> length eData = 64%nat -> length eKey = 16%nat ->
  is_bytes (gData ++ gKey) -> is_bytes (eData ++ eKey) ->
  bitsToBytes (plain_outputs e (bytesToBits (gData ++ gKey) ++ bytesToBits (eData ++ eKey))) 16 =
  Ok (rfc4493_cmac (xor_bytes gKey eKey) (xor_bytes gData eData)).
Proof.
  intros Hsrc L1 L2 L3 L4 Bg Be.
  assert (Lg : length (gData ++ gKey) = 80%nat) by (rewrite length_app, L1, L2; reflexivity).
  assert (Le : length (eData ++ eKey) = 80%nat) by (rewrite length_app, L3, L4; reflexivity).
  rewrite Hsrc by done. destruct (cmac_main_bytes (gData ++ gKey) (eData ++ eKey)) as [Hb Hl].
  rewrite <- Hl at 1. rewrite bitsToBytes_bytesToBits, cmac_main_spec by done.
  assert (Hslice : forall d k : bytes, length d = 64%nat -> length k = 16%nat ->
            slice (d ++ k) 0 64 = d /\ slice (d ++ k) 64 80 = k).
  { intros d k Ld Lk. split; [by apply slice_app_hit|]. rewrite slice_app_skip, Ld by lia. by apply slice_all. }
  destruct (Hslice gData gKey) as [-> ->]; [done..|]. by destruct (Hslice eData eKey) as [-> ->].
Qed.

(** The constant cipher is computed by the circuit that outputs zeros. *)
Lemma xor_loop_id gs bs :
  Forall (fun g => op g = opXOR /\ in0 g = in1 g /\ bs !! Z.to_nat (out g) = Some false) gs ->
  plain_loop gs bs = bs.
Proof.
  unfold plain_loop. induction 1 as [|g gs (Ho & Ei & Hb) H IH]; [done|]. cbn [fold_left].
  assert (plain_gate bs g = bs) as ->; [|done].
  unfold plain_gate. rewrite Ho, Ei, xorb_nilpotent. by apply list_insert_id.
Qed.

Lemma xor_engine_source : @compiles_source const_cipher xor_engine.
Proof.
  intros g x Lg Bg Lx Bx. unfold plain_outputs.
  set (ins := bytesToBits g ++ bytesToBits x).
  assert (Li : length ins = (2 * InputBits)%nat)
    by (unfold ins; rewrite length_app, !length_bytesToBits, Lg, Lx; reflexivity).
  rewrite xor_loop_id.
  - change (Z.to_nat (numWires xor_engine) - OutputBits)%nat with (2 * InputBits)%nat.
    rewrite <- Li, drop_app_length, Li. reflexivity.
  - cbn [xor_engine gates]. apply Forall_map, Forall_forall. intros i [Hi1 Hi2]%elem_of_seqZ.
    unfold compose. cbn [op in0 in1 out]. split_and!; [done..|].
    rewrite lookup_app_r by (rewrite Li; unfold InputBits; lia).
    apply lookup_replicate_2. rewrite Li. cbn [numWires xor_engine]. unfold InputBits. lia.
Qed.

Lemma circuit_output_is_cmac_witness :
  bitsToBytes (plain_outputs xor_engine
    (bytesToBits (replicate 64 1 ++ replicate 16 2) ++ bytesToBits (replicate 64 3 ++ replicate 16 4))) 16 =
  Ok (@rfc4493_cmac const_cipher (xor_bytes (replicate 16 2) (replicate 16 4))
        (xor_bytes (replicate 64 1) (replicate 64 3))).
Proof.
  apply (@circuit_output_is_cmac const_cipher xor_engine (replicate 64 1) (replicate 16 2)
           (replicate 64 3) (replicate 16 4)).
  - exact xor_engine_source.
  - reflexivity.
  - reflexivity.
  - reflexivity.
  - reflexivity.
  - apply Forall_app; split; apply Forall_replicate; unfold is_byte; lia.
  - apply Forall_app; split; apply Forall_replicate; unfold is_byte; lia.
Defined.
