(* ===== verification/OtExtension.v ===== *)
(** * OT extension ([mpc/ot_extension.go])

    IKNP extension of 128 base OTs with the KOS consistency check.  The receiver
    (TEE_T) commits to its matrix, the sender (TEE_K) answers with a random
    challenge, the receiver proves consistency, and only then the sender derives
    its OTs.  Both states are single use.

    The main result: when the base OTs gave the sender the seeds its correlation
    selects, an honest run succeeds and leaves correlated random OTs with the
    two parties ([correlated] of [Oprf.v]), with consecutive indices. *)

From S2P Require Import Prelude Bytes Label Transpose Gf128 Crypto Circuit Oprf.

Definition KOSCheckOTs : nat := 128.
Definition maxExtensionOTs : Z := 2 ^ 24.

(** ** Data *)

Record BaseOTSeedPair := mkSeedPair { Zero : Label; One : Label }.

Record ExtensionCommitment := mkCommitment {
  cSessionID : bytes;
  StartIndex : Z;
  Count : Z;
  PaddedCount : Z;
  EpochHash : bytes;
  cTranscript : bytes;
  U : bytes;
}.

Record ExtensionChallenge := mkChallenge {
  chSessionID : bytes;
  Commitment : bytes;
  chTranscript : bytes;
  Chi : list Label;
}.

Record ExtensionProof := mkProof {
  prSessionID : bytes;
  prTranscript : bytes;
  X : Label;
  T : list Label;
}.

Record ExtensionReceiverState := mkReceiverState {
  r_commitment : ExtensionCommitment;
  r_choices : bytes;
  r_tMatrix : bytes;
  r_used : bool;
}.

Record ExtensionSenderState := mkSenderState {
  s_commitment : ExtensionCommitment;
  s_challengeTranscript : bytes;
  s_delta : Label;
  s_qChecks : list Label;
  s_rows : list Label;
  s_used : bool;
}.

Definition zero_commitment : ExtensionCommitment := mkCommitment (zeros 32) 0 0 0 (zeros 32) (zeros 32) [].

(** [extensionStateCommitment]: the matrix is not kept in the state. *)
Definition extensionStateCommitment (c : ExtensionCommitment) : ExtensionCommitment :=
  mkCommitment (cSessionID c) (StartIndex c) (Count c) (PaddedCount c) (EpochHash c) (cTranscript c) [].

Definition clearExtensionReceiverState (s : ExtensionReceiverState) : ExtensionReceiverState :=
  mkReceiverState zero_commitment [] [] (r_used s).

Definition clearExtensionSenderState (s : ExtensionSenderState) : ExtensionSenderState :=
  mkSenderState zero_commitment (zeros 32) label_zero (replicate BaseOTCount label_zero) [] (s_used s).

Definition receiverState_Destroy (s : option ExtensionReceiverState) : option ExtensionReceiverState :=
  match s with
  | None => None
  | Some s => Some (clearExtensionReceiverState
                      (mkReceiverState (r_commitment s) (r_choices s) (r_tMatrix s) true))
  end.

Definition senderState_Destroy (s : option ExtensionSenderState) : option ExtensionSenderState :=
  match s with
  | None => None
  | Some s => Some (clearExtensionSenderState
                      (mkSenderState (s_commitment s) (s_challengeTranscript s) (s_delta s)
                         (s_qChecks s) (s_rows s) true))
  end.

(** ** Sizes *)

Definition extensionPaddedCount (count : Z) : res Z :=
  fail_if ((count <=? 0) || (maxExtensionOTs <? count)) "mpc: invalid OT extension count";;
  let total := count + Z.of_nat KOSCheckOTs in
  Ok (Z.ldiff (total + Z.of_nat BaseOTCount - 1) (Z.of_nat BaseOTCount - 1)).

Definition extensionChallengeCount (padded : Z) : Z := Z.quot (padded - Z.of_nat KOSCheckOTs) 128.

Definition baseCipherMessageSize : nat := 4 + 32 + BaseOTCount * 32.

(** ** Epochs ([validateExtensionEpoch] of [mpc/precompute_wire.go]) *)

Definition extensionEpochPrefix : bytes := str "kos2:".
Definition maxEpochLength : nat := 256.

(** [unicode/utf8.ValidString]. *)
Definition byte_in (lo hi b : Z) : bool := (lo <=? b) && (b <=? hi).

Fixpoint utf8_valid (fuel : nat) (s : bytes) : bool :=
  match fuel with
  | O => false
  | S fuel =>
      match s with
      | [] => true
      | b0 :: t =>
          if b0 <? 128 then utf8_valid fuel t else
          if byte_in 194 223 b0 then
            match t with b1 :: t => byte_in 128 191 b1 && utf8_valid fuel t | _ => false end else
          if byte_in 224 239 b0 then
            match t with
            | b1 :: b2 :: t =>
                let lo := if b0 =? 224 then 160 else 128 in
                let hi := if b0 =? 237 then 159 else 191 in
                byte_in lo hi b1 && byte_in 128 191 b2 && utf8_valid fuel t
            | _ => false
            end else
          if byte_in 240 244 b0 then
            match t with
            | b1 :: b2 :: b3 :: t =>
                let lo := if b0 =? 240 then 144 else 128 in
                let hi := if b0 =? 244 then 143 else 191 in
                byte_in lo hi b1 && byte_in 128 191 b2 && byte_in 128 191 b3 && utf8_valid fuel t
            | _ => false
            end
          else false
      end
  end.

Definition utf8_ValidString (s : bytes) : bool := utf8_valid (S (length s)) s.

Definition validateExtensionEpoch (epoch : bytes) : res unit :=
  fail_if ((length epoch <=? length extensionEpochPrefix)%nat || (maxEpochLength <? length epoch)%nat
           || negb (utf8_ValidString epoch)) "mpc: invalid OT extension epoch";;
  fail_if (negb (bytes_eqb (take (length extensionEpochPrefix) epoch) extensionEpochPrefix))
    "mpc: unsupported OT extension epoch version";;
  Ok ().

Definition validateBaseCipherForTranscript (cipherMessage sessionID : bytes) : res unit :=
  fail_if (negb (length cipherMessage =? baseCipherMessageSize)%nat
           || negb (bytes_eqb (take 4 cipherMessage) (str "BOT1")))
    "mpc: invalid base OT ciphertext message";;
  fail_if (negb (bytes_eqb (slice cipherMessage 4 36) sessionID))
    "mpc: base OT ciphertext session mismatch";;
  Ok ().

Section Extension.
Context {BC : BlockCipher} {SH : Sha256}.
(** The processor's carry-less multiply flag. *)
Context (hasPCLMULQDQ : bool).

(** ** Transcripts *)

Definition extensionTranscript (cipherMessage : bytes) (c : ExtensionCommitment) : bytes :=
  sha256 (str "reclaim-tee/mpc/kos/repetition/v2/transcript" ++ str "KOC2" ++ cSessionID c
          ++ be_put 8 (StartIndex c) ++ be_put 4 (Count c) ++ be_put 4 (PaddedCount c)
          ++ EpochHash c ++ cipherMessage ++ U c).

Definition extensionEpochHash (epoch : bytes) : bytes :=
  sha256 (str "reclaim-tee/mpc/kos/repetition/v2/epoch"
          ++ be_put 4 (u32 (Z.of_nat (length epoch))) ++ epoch).

Definition extensionChallengeTranscript (ch : ExtensionChallenge) : bytes :=
  sha256 (str "reclaim-tee/mpc/kos/repetition/v2/challenge" ++ chSessionID ch ++ Commitment ch
          ++ be_put 4 (u32 (Z.of_nat (length (Chi ch)))) ++ concat (map label_put (Chi ch))).

(** ** Hashing and expansion *)

Definition tmmoKey : bytes := take 16 (sha256 (str "reclaim-tee/mpc/kos/tmmo/v1")).

Definition tmmoHash (block : bytes) (value : Label) (tweak : Z) : Label :=
  let encrypted := aes_encrypt block (label_put value) in
  let input := be_put 8 (be_get (slice encrypted 0 8))
               ++ be_put 8 (Z.lxor (be_get (slice encrypted 8 16)) tweak) in
  let input := aes_encrypt block input in
  labelFromBytes input ⊕ labelFromBytes encrypted.

(** The counter-mode loop of [expandSeed]. *)
Fixpoint ctr_blocks (key : bytes) (n : nat) (value : Z) : bytes :=
  match n with
  | O => []
  | S n => aes_encrypt key (zeros 8 ++ be_put 8 value) ++ ctr_blocks key n (add64 value 1)
  end.


(** [expandSeed seed sessionID column dst] with [len(dst) = n]. *)
Definition expandSeed (seed : Label) (sessionID : bytes) (column : nat) (n : nat) : res bytes :=
  let material := pad_to 32 (str "reclaim-tee/mpc/iknp/prg/v1") ++ sessionID
                  ++ [u8 (Z.of_nat column)] ++ label_put seed in
  let derived := sha256 material in
  block ← aes_NewCipher (take 16 derived);
  Ok (take n (ctr_blocks block ((n + 15) / 16) 0)).

(** ** The repetition-code check *)

(** [labelFromBytes(s[off:off+16])]. *)
Definition label_at (s : bytes) (off : nat) : res Label :=
  if (length s <? off + 16)%nat then Panic else Ok (labelFromBytes (slice s off (off + 16))).

Fixpoint repetition_loop (s : bytes) (chi : list Label) (block : nat) (check : Label) : res Label :=
  match chi with
  | [] => Ok check
  | coefficient :: chi =>
      l ← label_at s (block * 16);
      repetition_loop s chi (S block) (check ⊕ gf128Mul hasPCLMULQDQ l coefficient)
  end.

(** One column, or the receiver's choices: the check block plus the challenge
    combination of the others. *)
Definition repetition_check (s : bytes) (mainBytes : nat) (chi : list Label) : res Label :=
  check ← label_at s mainBytes;
  repetition_loop s chi 0 check.

Fixpoint check_columns (matrix : bytes) (byteRows mainBytes : nat) (chi : list Label) (cols : list nat)
    : res (list Label) :=
  match cols with
  | [] => Ok []
  | col :: cols =>
      c ← repetition_check (column matrix byteRows col) mainBytes chi;
      cs ← check_columns matrix byteRows mainBytes chi cols;
      Ok (c :: cs)
  end.

Definition repetitionColumnChecks (matrix : bytes) (padded : Z) (chi : list Label) : res (list Label) :=
  let mainBytes := Z.to_nat (Z.quot (padded - Z.of_nat KOSCheckOTs) 8) in
  let byteRows := Z.to_nat (Z.quot padded 8) in
  check_columns matrix byteRows mainBytes chi (seq 0 BaseOTCount).

Definition repetitionReceiverProof (choices matrix : bytes) (padded : Z) (chi : list Label)
    : res (Label * list Label) :=
  let mainBytes := Z.to_nat (Z.quot (padded - Z.of_nat KOSCheckOTs) 8) in
  x ← repetition_check choices mainBytes chi;
  t ← repetitionColumnChecks matrix padded chi;
  Ok (x, t).

(** ** Deriving the OTs *)

Fixpoint receiver_ots (hasher : bytes) (raw : list Label) (choices : bytes) (startIndex : Z) (i n : nat)
    : res (list ReceiverOT) :=
  match n with
  | O => Ok []
  | S n =>
      v ← index raw i;
      c ← index choices (i / 8);
      let choice := negb (Z.land c (Z.shiftl 1 (Z.of_nat (i mod 8))) =? 0) in
      rest ← receiver_ots hasher raw choices startIndex (S i) n;
      Ok (mkReceiverOT (tmmoHash hasher v (Z.of_nat i)) (add64 startIndex (Z.of_nat i)) choice :: rest)
  end.

Definition hashReceiverOTs (raw : list Label) (choices : bytes) (startIndex count : Z)
    : res (list ReceiverOT) :=
  _ ← checkedIndexEnd startIndex count;
  hasher ← aes_NewCipher tmmoKey;
  receiver_ots hasher raw choices startIndex 0 (Z.to_nat count).

Fixpoint sender_ots (hasher : bytes) (rows : list Label) (delta : Label) (startIndex : Z) (i n : nat)
    : res (list SenderOT) :=
  match n with
  | O => Ok []
  | S n =>
      q0 ← index rows i;
      let q1 := q0 ⊕ delta in
      rest ← sender_ots hasher rows delta startIndex (S i) n;
      Ok (mkSenderOT (tmmoHash hasher q0 (Z.of_nat i)) (tmmoHash hasher q1 (Z.of_nat i))
            (add64 startIndex (Z.of_nat i)) :: rest)
  end.

Definition hashSenderOTs (s : ExtensionSenderState) : res (list SenderOT) :=
  let count := Count (s_commitment s) in
  _ ← checkedIndexEnd (StartIndex (s_commitment s)) count;
  hasher ← aes_NewCipher tmmoKey;
  sender_ots hasher (s_rows s) (s_delta s) (StartIndex (s_commitment s)) 0 (Z.to_nat count).

(** ** Validation *)

Definition validateExtensionCommitment (epoch cipherMessage : bytes) (c : option ExtensionCommitment)
    : res unit :=
  match c with
  | None => Err "mpc: nil OT extension commitment"
  | Some c =>
      _ ← validateExtensionEpoch epoch;
      _ ← validateBaseCipherForTranscript cipherMessage (cSessionID c);
      padded ← extensionPaddedCount (Count c);
      fail_if (negb (PaddedCount c =? padded)) "mpc: padded OT count";;
      _ ← checkedIndexEnd (StartIndex c) (Count c);
      fail_if (negb (Z.of_nat (length (U c)) =? Z.quot (Z.of_nat BaseOTCount * padded) 8))
        "mpc: OT extension matrix length";;
      fail_if (negb (bytes_eqb (EpochHash c) (extensionEpochHash epoch)))
        "mpc: OT extension epoch mismatch";;
      fail_if (negb (bytes_eqb (cTranscript c) (extensionTranscript cipherMessage c)))
        "mpc: OT extension commitment transcript mismatch";;
      Ok ()
  end.

Definition validateExtensionChallenge (c : ExtensionCommitment) (ch : option ExtensionChallenge)
    : res ExtensionChallenge :=
  match ch with
  | None => Err "mpc: nil OT extension challenge"
  | Some ch =>
      fail_if (negb (bytes_eqb (chSessionID ch) (cSessionID c))
               || negb (bytes_eqb (Commitment ch) (cTranscript c)))
        "mpc: OT extension challenge transcript mismatch";;
      fail_if (negb (Z.of_nat (length (Chi ch)) =? extensionChallengeCount (PaddedCount c)))
        "mpc: OT extension challenge length";;
      fail_if (negb (bytes_eqb (chTranscript ch) (extensionChallengeTranscript ch)))
        "mpc: OT extension challenge hash mismatch";;
      Ok ch
  end.

(** ** The four protocol steps *)

Definition NewExtensionSession (rng : option bytes) : res bytes * option bytes :=
  match rng with
  | None => (Err "mpc: nil randomness source", rng)
  | Some rs =>
      match ReadFull rs 32 with
      | None => (Err "mpc: read OT extension session", Some [])
      | Some (session, rs) => (Ok session, Some rs)
      end
  end.

(** The column loop of [StartExtensionReceiver]: the columns of [tMatrix] and
    of [u]. *)
Fixpoint receiver_columns (base : list BaseOTSeedPair) (sessionID : bytes) (col byteRows : nat)
    (choices : bytes) : res (list bytes * list bytes) :=
  match base with
  | [] => Ok ([], [])
  | sp :: base =>
      t0 ← match expandSeed (Zero sp) sessionID col byteRows with
           | Err _ => Err "mpc: expand base seed/0" | r => r end;
      tmp ← match expandSeed (One sp) sessionID col byteRows with
            | Err _ => Err "mpc: expand base seed/1" | r => r end;
      '(ts, us) ← receiver_columns base sessionID (S col) byteRows choices;
      Ok (t0 :: ts, xor_bytes (xor_bytes t0 tmp) choices :: us)
  end.

Definition StartExtensionReceiver (rng : option bytes) (base : list BaseOTSeedPair)
    (epoch cipherMessage sessionID : bytes) (startIndex count : Z)
    : res (ExtensionReceiverState * ExtensionCommitment * list ReceiverOT) * option bytes :=
  match rng with
  | None => (Err "mpc: nil randomness source", rng)
  | Some rs =>
      match (_ ← validateExtensionEpoch epoch;
             _ ← validateBaseCipherForTranscript cipherMessage sessionID;
             padded ← extensionPaddedCount count;
             _ ← checkedIndexEnd startIndex count;
             Ok padded) with
      | Err m => (Err m, rng)
      | Panic => (Panic, rng)
      | Ok padded =>
          let byteRows := Z.to_nat (Z.quot padded 8) in
          match ReadFull rs byteRows with
          | None => (Err "mpc: read OT choices", Some [])
          | Some (choices, rs) =>
              let result :=
                '(ts, us) ← receiver_columns base sessionID 0 byteRows choices;
                let tMatrix := concat ts in
                let c0 := mkCommitment sessionID startIndex (u32 count) (u32 padded)
                            (extensionEpochHash epoch) (zeros 32) (concat us) in
                let commitment :=
                  mkCommitment sessionID startIndex (u32 count) (u32 padded)
                    (extensionEpochHash epoch) (extensionTranscript cipherMessage c0) (concat us) in
                raw ← transposeColumns tMatrix byteRows (Z.to_nat padded);
                receiver ← hashReceiverOTs raw choices startIndex count;
                Ok (mkReceiverState (extensionStateCommitment commitment) choices tMatrix false,
                    commitment, receiver) in
              (result, Some rs)
          end
      end
  end.

(** The column loop of [StartExtensionSender]: the columns of [qMatrix]. *)
Fixpoint sender_columns (selected : list Label) (delta : Label) (sessionID u : bytes)
    (col byteRows : nat) : res (list bytes) :=
  match selected with
  | [] => Ok []
  | seed :: selected =>
      q ← match expandSeed seed sessionID col byteRows with
          | Err _ => Err "mpc: expand selected base seed" | r => r end;
      let q := if deltaBit delta col then xor_bytes q (column u byteRows col) else q in
      qs ← sender_columns selected delta sessionID u (S col) byteRows;
      Ok (q :: qs)
  end.

Definition chi_from (random : bytes) (n : nat) : list Label :=
  map (fun i => labelFromBytes (slice random (i * 16) ((i + 1) * 16))) (seq 0 n).

Definition StartExtensionSender (rng : option bytes) (selected : list Label) (delta : Label)
    (epoch cipherMessage : bytes) (commitment : option ExtensionCommitment)
    : res (ExtensionSenderState * ExtensionChallenge) * option bytes :=
  match rng with
  | None => (Err "mpc: nil randomness source", rng)
  | Some rs =>
      if label_equal delta label_zero then (Err "mpc: zero OT correlation delta", rng) else
      match validateExtensionCommitment epoch cipherMessage commitment, commitment with
      | Err m, _ => (Err m, rng)
      | Ok _, Some c =>
          let byteRows := Z.to_nat (Z.quot (PaddedCount c) 8) in
          match sender_columns selected delta (cSessionID c) (U c) 0 byteRows with
          | Err m => (Err m, rng)
          | Panic => (Panic, rng)
          | Ok qs =>
              let qMatrix := concat qs in
              let chiCount := Z.to_nat (extensionChallengeCount (PaddedCount c)) in
              match ReadFull rs (chiCount * 16) with
              | None => (Err "mpc: read OT extension challenge", Some [])
              | Some (random, rs) =>
                  let chi := chi_from random chiCount in
                  let ch0 := mkChallenge (cSessionID c) (cTranscript c) (zeros 32) chi in
                  let challenge :=
                    mkChallenge (cSessionID c) (cTranscript c) (extensionChallengeTranscript ch0) chi in
                  let result :=
                    checks ← repetitionColumnChecks qMatrix (PaddedCount c) chi;
                    rows ← transposeColumns qMatrix byteRows (Z.to_nat (PaddedCount c));
                    Ok (mkSenderState (extensionStateCommitment c) (chTranscript challenge) delta
                          checks rows false, challenge) in
                  (result, Some rs)
              end
          end
      | _, _ => (Panic, rng)
      end
  end.

Definition FinishExtensionReceiver (state : option ExtensionReceiverState)
    (challenge : option ExtensionChallenge)
    : option ExtensionReceiverState * res ExtensionProof :=
  match state with
  | None => (None, Err "mpc: nil OT extension receiver state")
  | Some s =>
      if r_used s then (Some s, Err "mpc: OT extension receiver state already used") else
      let s' := mkReceiverState (r_commitment s) (r_choices s) (r_tMatrix s) true in
      let result :=
        ch ← validateExtensionChallenge (r_commitment s) challenge;
        '(x, t) ← repetitionReceiverProof (r_choices s) (r_tMatrix s)
                    (PaddedCount (r_commitment s)) (Chi ch);
        Ok (mkProof (cSessionID (r_commitment s)) (chTranscript ch) x t) in
      (Some (clearExtensionReceiverState s'), result)
  end.

(** The column equations of the check. *)
Fixpoint kos_check (q t : list Label) (delta x : Label) (col : nat) : res unit :=
  match q, t with
  | q0 :: q, t0 :: t =>
      let want := if deltaBit delta col then t0 ⊕ x else t0 in
      fail_if (negb (bytes_eqb (label_put q0) (label_put want)))
        "mpc: KOS receiver consistency check failed";;
      kos_check q t delta x (S col)
  | _, _ => Ok ()
  end.

Definition FinishExtensionSender (state : option ExtensionSenderState) (proof : option ExtensionProof)
    : option ExtensionSenderState * res (list SenderOT) :=
  match state with
  | None => (None, Err "mpc: nil OT extension sender state")
  | Some s =>
      if s_used s then (Some s, Err "mpc: OT extension sender state already used") else
      let s' := mkSenderState (s_commitment s) (s_challengeTranscript s) (s_delta s) (s_qChecks s)
                  (s_rows s) true in
      let result :=
        match proof with
        | None => Err "mpc: nil OT extension proof"
        | Some p =>
            fail_if (negb (bytes_eqb (prSessionID p) (cSessionID (s_commitment s)))
                     || negb (bytes_eqb (prTranscript p) (s_challengeTranscript s)))
              "mpc: OT extension proof transcript mismatch";;
            fail_if (negb (Z.of_nat (length (s_rows s)) =? PaddedCount (s_commitment s)))
              "mpc: OT extension sender proof state is incomplete";;
            _ ← kos_check (s_qChecks s) (T p) (s_delta s) (X p) 0;
            hashSenderOTs s
        end in
      (Some (clearExtensionSenderState s'), result)
  end.

End Extension.

(** ** Sizes *)

Lemma ldiff_127 x : 0 <= x -> Z.ldiff x 127 = 128 * (x / 128).
Proof.
  intros Hx. change 127 with (Z.ones 7). rewrite Z.ldiff_ones_r by lia.
  rewrite Z.shiftl_mul_pow2, Z.shiftr_div_pow2 by lia. change (2 ^ 7) with 128. lia.
Qed.

(** The padded count is the smallest whole number of 128-row blocks that holds
    the OTs and the 128 check rows. *)
Lemma extensionPaddedCount_spec count padded :
  extensionPaddedCount count = Ok padded <->
  0 < count <= maxExtensionOTs /\ padded mod 128 = 0 /\ count + 128 <= padded < count + 256.
Proof.
  unfold extensionPaddedCount, maxExtensionOTs, KOSCheckOTs, BaseOTCount.
  change (Z.of_nat 128) with 128. change (128 - 1) with 127.
  destruct (Z.leb_spec count 0); cbn [orb]; [split; [done|lia]|].
  destruct (Z.ltb_spec (2 ^ 24) count); [split; [done|lia]|].
  rewrite ldiff_127 by lia. split.
  - intros E. injection E as <-. split; [lia|]. rewrite Z.mul_comm, Z.mod_mul by lia. split; [done|].
    pose proof (Z.div_mod (count + 128 + 128 - 1) 128 ltac:(lia)).
    pose proof (Z.mod_pos_bound (count + 128 + 128 - 1) 128 ltac:(lia)). lia.
  - intros (_ & Hm & Hr). f_equal. pose proof (Z.div_mod padded 128 ltac:(lia)). rewrite Hm in *.
    pose proof (Z.div_mod (count + 128 + 128 - 1) 128 ltac:(lia)).
    pose proof (Z.mod_pos_bound (count + 128 + 128 - 1) 128 ltac:(lia)). lia.
Qed.

(** In blocks: [k] blocks of 128 rows, that is 16 bytes of every column. *)
Lemma padded_blocks count padded :
  extensionPaddedCount count = Ok padded ->
  exists k : nat, padded = Z.of_nat (128 * k) /\ (2 <= k)%nat /\ padded < 2 ^ 32 /\ 0 < count < 2 ^ 32 /\
    (Z.to_nat count + 128 <= 128 * k)%nat /\
    Z.to_nat (Z.quot padded 8) = (16 * k)%nat /\ Z.to_nat padded = (8 * (16 * k))%nat /\
    Z.to_nat (Z.quot (padded - Z.of_nat KOSCheckOTs) 8) = (16 * (k - 1))%nat /\
    extensionChallengeCount padded = Z.of_nat (k - 1) /\
    Z.quot (Z.of_nat BaseOTCount * padded) 8 = Z.of_nat (128 * (16 * k)).
Proof.
  intros (Hc & Hm & Hr)%extensionPaddedCount_spec. unfold maxExtensionOTs in Hc.
  exists (Z.to_nat (padded / 128)). pose proof (Z.div_mod padded 128 ltac:(lia)) as E. rewrite Hm in E.
  set (q := padded / 128) in *. assert (Hk : 2 <= q) by lia.
  unfold extensionChallengeCount, KOSCheckOTs, BaseOTCount. change (Z.of_nat 128) with 128.
  rewrite !Z.quot_div_nonneg by lia. replace (padded / 8) with (16 * q).
  2: { replace padded with ((16 * q) * 8) by lia. by rewrite Z.div_mul by lia. }
  replace ((padded - 128) / 8) with (16 * (q - 1)).
  2: { replace (padded - 128) with ((16 * (q - 1)) * 8) by lia. by rewrite Z.div_mul by lia. }
  replace ((padded - 128) / 128) with (q - 1).
  2: { replace (padded - 128) with ((q - 1) * 128) by lia. by rewrite Z.div_mul by lia. }
  replace (128 * padded / 8) with (128 * (16 * q)).
  2: { replace (128 * padded) with ((128 * (16 * q)) * 8) by lia. by rewrite Z.div_mul by lia. }
  split_and!; lia.
Qed.

(** ** XOR of byte strings, bit by bit and as labels *)

Lemma bit_of_xor a b i : length a = length b -> bit_of (xor_bytes a b) i = xorb (bit_of a i) (bit_of b i).
Proof.
  intros L. unfold bit_of, xor_bytes. rewrite lookup_zip_with.
  destruct (a !! (i / 8)%nat) eqn:Ea; cbn [mbind option_bind].
  - destruct (lookup_lt_is_Some_2 b (i / 8)) as [y Hy]; [apply lookup_lt_Some in Ea; lia|].
    rewrite Hy. cbn [mbind option_bind from_option id]. apply Z.lxor_spec.
  - apply lookup_ge_None in Ea. rewrite (proj2 (lookup_ge_None b _)) by lia.
    cbn [from_option id]. by rewrite !Z.bits_0.
Qed.

Lemma le_get_xor a b : length a = length b -> is_bytes a -> is_bytes b ->
  le_get (xor_bytes a b) = Z.lxor (le_get a) (le_get b).
Proof.
  intros L Ha Hb. apply Z.bits_inj'. intros i Hi.
  replace i with (Z.of_nat (Z.to_nat i)) by lia.
  rewrite Z.lxor_spec, !le_get_bit_of by (done || by apply xor_bytes_bytes). by apply bit_of_xor.
Qed.

Lemma reverse_xor a b : length a = length b -> reverse (xor_bytes a b) = xor_bytes (reverse a) (reverse b).
Proof.
  revert b. induction a as [|x a IH]; intros [|y b] L; try done.
  unfold xor_bytes in *. cbn [zip_with]. rewrite !reverse_cons, IH by (cbn in L; lia).
  rewrite zip_with_app by (rewrite !length_reverse; cbn in L; lia). done.
Qed.

Lemma be_get_xor a b : length a = length b -> is_bytes a -> is_bytes b ->
  be_get (xor_bytes a b) = Z.lxor (be_get a) (be_get b).
Proof.
  intros L Ha Hb. unfold be_get. rewrite reverse_xor by done.
  apply le_get_xor; [by rewrite !length_reverse|by apply Forall_reverse..].
Qed.

Lemma labelFromBytes_xor a b : length a = length b -> is_bytes a -> is_bytes b ->
  labelFromBytes (xor_bytes a b) = labelFromBytes a ⊕ labelFromBytes b.
Proof.
  intros L Ha Hb. unfold labelFromBytes, label_xor. cbn [D0 D1]. rewrite !xor_bytes_slice.
  assert (Hl : forall i j, length (slice a i j) = length (slice b i j))
    by (intros i j; unfold slice; rewrite !length_take, !length_drop; lia).
  rewrite !be_get_xor; auto using slice_forall.
Qed.

(** ** Expansion *)

Section Facts.
Context {BC : BlockCipher} {SH : Sha256} (hw : bool).

Lemma ctr_blocks_spec key n v : length (ctr_blocks key n v) = (16 * n)%nat /\ is_bytes (ctr_blocks key n v).
Proof.
  revert v. induction n as [|n IH]; intros v; [by split; [|constructor]|].
  cbn [ctr_blocks]. destruct (IH (add64 v 1)). rewrite length_app, aes_encrypt_length. split; [lia|].
  apply Forall_app. split; [apply aes_encrypt_bytes|done].
Qed.

(** The pseudo-random column of a seed. *)
Definition prg (seed : Label) (sessionID : bytes) (col n : nat) : bytes :=
  take n (ctr_blocks (take 16 (sha256 (pad_to 32 (str "reclaim-tee/mpc/iknp/prg/v1") ++ sessionID
            ++ [u8 (Z.of_nat col)] ++ label_put seed))) ((n + 15) / 16) 0).

Lemma expandSeed_Ok seed sid col n : expandSeed seed sid col n = Ok (prg seed sid col n).
Proof.
  unfold expandSeed. rewrite aes_NewCipher_16; [done|]. by rewrite length_take, sha256_length.
Qed.

Lemma length_prg seed sid col n : length (prg seed sid col n) = n.
Proof.
  unfold prg. rewrite length_take. destruct (ctr_blocks_spec (take 16 (sha256 (pad_to 32 (str "reclaim-tee/mpc/iknp/prg/v1")
    ++ sid ++ [u8 (Z.of_nat col)] ++ label_put seed))) ((n + 15) / 16) 0) as [-> _].
  pose proof (Nat.div_mod_eq (n + 15) 16). pose proof (Nat.mod_upper_bound (n + 15) 16). lia.
Qed.

Lemma prg_bytes seed sid col n : is_bytes (prg seed sid col n).
Proof. unfold prg. apply Forall_take. apply ctr_blocks_spec. Qed.

Lemma receiver_columns_Ok base sid col n choices :
  receiver_columns base sid col n choices =
  Ok (imap (fun j p => prg (Zero p) sid (col + j) n) base,
      imap (fun j p => xor_bytes (xor_bytes (prg (Zero p) sid (col + j) n) (prg (One p) sid (col + j) n)) choices)
        base).
Proof.
  revert col. induction base as [|p base IH]; intros col; [done|].
  cbn [receiver_columns]. rewrite !expandSeed_Ok. cbn [mbind res_bind]. rewrite IH.
  cbn [mbind res_bind imap]. rewrite !Nat.add_0_r. do 2 f_equal; f_equal; apply imap_ext; intros j q _;
    unfold compose; by rewrite Nat.add_succ_r.
Qed.

Lemma sender_columns_Ok selected delta sid u col n :
  sender_columns selected delta sid u col n =
  Ok (imap (fun j seed => let q := prg seed sid (col + j) n in
              if deltaBit delta (col + j) then xor_bytes q (column u n (col + j)) else q) selected).
Proof.
  revert col. induction selected as [|s selected IH]; intros col; [done|].
  cbn [sender_columns]. rewrite expandSeed_Ok. cbn [mbind res_bind]. rewrite IH.
  cbn [mbind res_bind imap]. rewrite !Nat.add_0_r. do 2 f_equal. apply imap_ext. intros j q _.
  unfold compose. by rewrite Nat.add_succ_r.
Qed.

Lemma column_concat (cols : list bytes) n j c :
  Forall (fun c => length c = n) cols -> cols !! j = Some c -> column (concat cols) n j = c.
Proof.
  intros H. revert j. induction H as [|c0 cols Hc H IH]; intros j Hj; [by rewrite lookup_nil in Hj|].
  unfold column in *. cbn [concat]. destruct j as [|j]; cbn in Hj.
  - injection Hj as <-. rewrite Nat.mul_0_l, Nat.add_0_l, Nat.mul_1_l. by apply slice_app_hit.
  - rewrite slice_app_skip by lia. rewrite Hc. specialize (IH j Hj). cbn [Nat.mul Nat.add] in IH |- *.
    replace (n + j * n - n)%nat with (j * n)%nat by lia.
    replace (n + (j + 1) * n - n)%nat with ((j + 1) * n)%nat by lia. done.
Qed.

Lemma concat_columns_spec (cols : list bytes) n :
  Forall (fun c => length c = n /\ is_bytes c) cols ->
  length (concat cols) = (length cols * n)%nat /\ is_bytes (concat cols).
Proof.
  induction 1 as [|c cols [Hl Hb] H [IH1 IH2]]; [by split; [|constructor]|].
  cbn [concat length]. rewrite length_app. split; [lia|by apply Forall_app].
Qed.

(** ** The check is linear *)

Lemma label_at_Ok s off : (off + 16 <= length s)%nat -> is_bytes s ->
  exists l, label_at s off = Ok l /\ label_ok l.
Proof.
  intros H Hb. unfold label_at. rewrite (proj2 (Nat.ltb_ge _ _)) by lia. eexists. split; [done|].
  apply labelFromBytes_ok; [rewrite length_slice; lia|by apply slice_forall].
Qed.

Lemma label_at_xor a b off l m : length a = length b -> is_bytes a -> is_bytes b ->
  label_at a off = Ok l -> label_at b off = Ok m -> label_at (xor_bytes a b) off = Ok (l ⊕ m).
Proof.
  intros L Ha Hb. unfold label_at. rewrite length_xor_bytes, <- L, Nat.min_id.
  destruct (length a <? off + 16)%nat; [done|]. intros E1 E2. injection E1 as <-. injection E2 as <-.
  rewrite xor_bytes_slice, labelFromBytes_xor; auto using slice_forall.
  unfold slice. rewrite !length_take, !length_drop. lia.
Qed.

Lemma repetition_loop_xor a b chi block x y :
  length a = length b -> is_bytes a -> is_bytes b -> Forall label_ok chi ->
  ((block + length chi) * 16 <= length a)%nat -> label_ok x -> label_ok y ->
  exists c d, repetition_loop hw a chi block x = Ok c /\ repetition_loop hw b chi block y = Ok d /\
    repetition_loop hw (xor_bytes a b) chi block (x ⊕ y) = Ok (c ⊕ d) /\ label_ok c /\ label_ok d.
Proof.
  intros L Ha Hb Hchi. revert block x y. induction Hchi as [|c0 chi Hc Hchi IH]; intros block x y Hl Hx Hy.
  { exists x, y. by split_and!. }
  cbn [repetition_loop length] in *.
  destruct (label_at_Ok a (block * 16)) as (la & Ea & Oa); [lia|done|].
  destruct (label_at_Ok b (block * 16)) as (lb & Eb & Ob); [lia|done|].
  rewrite (label_at_xor a b _ la lb), Ea, Eb by done. cbn [mbind res_bind].
  destruct (IH (S block) (x ⊕ gf128Mul hw la c0) (y ⊕ gf128Mul hw lb c0)) as (c & d & E1 & E2 & E3 & O);
    [lia|apply label_xor_ok; [done|by apply gf128Mul_ok]..|].
  exists c, d. rewrite E1, E2. split_and!; try done; try apply O.
  rewrite <- E3. f_equal. rewrite !gf128Mul_spec, gf_spec_xor_l by auto using label_xor_ok.
  generalize (gf_spec la c0) (gf_spec lb c0). intros. xor_solve.
Qed.

Lemma repetition_check_xor a b mainBytes chi :
  length a = length b -> is_bytes a -> is_bytes b -> Forall label_ok chi ->
  (mainBytes + 16 <= length a)%nat -> (length chi * 16 <= length a)%nat ->
  exists c d, repetition_check hw a mainBytes chi = Ok c /\ repetition_check hw b mainBytes chi = Ok d /\
    repetition_check hw (xor_bytes a b) mainBytes chi = Ok (c ⊕ d) /\ label_ok c /\ label_ok d.
Proof.
  intros L Ha Hb Hchi H1 H2. unfold repetition_check.
  destruct (label_at_Ok a mainBytes) as (la & Ea & Oa); [lia|done|].
  destruct (label_at_Ok b mainBytes) as (lb & Eb & Ob); [lia|done|].
  rewrite (label_at_xor a b _ la lb), Ea, Eb by done. cbn [mbind res_bind].
  apply repetition_loop_xor; auto.
Qed.

(** Columns that differ by the choices where the correlation has a one satisfy
    all the check equations. *)
Lemma check_columns_kos tM qM choices n mainBytes chi delta x start m :
  (forall col, In col (seq start m) ->
     length (column tM n col) = n /\ is_bytes (column tM n col) /\
     column qM n col = if deltaBit delta col then xor_bytes (column tM n col) choices else column tM n col) ->
  length choices = n -> is_bytes choices -> Forall label_ok chi ->
  (mainBytes + 16 <= n)%nat -> (length chi * 16 <= n)%nat ->
  repetition_check hw choices mainBytes chi = Ok x ->
  exists ts qs, check_columns hw tM n mainBytes chi (seq start m) = Ok ts /\
    check_columns hw qM n mainBytes chi (seq start m) = Ok qs /\
    kos_check qs ts delta x start = Ok ().
Proof.
  intros Hcols Lc Hc Hchi H1 H2 Hx. revert start Hcols.
  induction m as [|m IH]; intros start Hcols; [by exists [], []|].
  cbn [seq check_columns]. destruct (Hcols start) as (Lt & Bt & Eq); [by left|].
  destruct (repetition_check_xor (column tM n start) choices mainBytes chi)
    as (c & d & E1 & E2 & E3 & _); [congruence|done..|lia|lia|].
  rewrite Hx in E2. injection E2 as <-.
  destruct (IH (S start)) as (ts & qs & E4 & E5 & E6); [intros col Hin; apply Hcols; by right|].
  rewrite E1, E4. cbn [mbind res_bind]. exists (c :: ts), ((if deltaBit delta start then c ⊕ x else c) :: qs).
  split; [done|]. rewrite Eq. split.
  - destruct (deltaBit delta start); rewrite ?E1, ?E3; cbn [mbind res_bind]; by rewrite E5.
  - cbn [kos_check]. unfold bytes_eqb. rewrite bool_decide_eq_true_2 by done. done.
Qed.

(** ** From rows to correlated OTs *)

Lemma choice_bit choices i c : choices !! (i / 8)%nat = Some c ->
  negb (Z.land c (Z.shiftl 1 (Z.of_nat (i mod 8))) =? 0) = bit_of choices i.
Proof.
  intros Hc. pose proof (Nat.mod_upper_bound i 8 ltac:(lia)) as Hm.
  pose proof (land_bit c (Z.of_nat (i mod 8)) ltac:(lia)) as Hl. unfold shl64 in Hl. rewrite u64_id in Hl.
  - rewrite Hl. unfold bit_of. by rewrite Hc.
  - rewrite Z.shiftl_1_l. split; [apply Z.pow_nonneg; lia|]. apply Z.pow_lt_mono_r; lia.
Qed.

Lemma ots_correlated hasher raw rows delta choices start i n :
  (forall j, (i <= j < i + n)%nat -> exists t c, raw !! j = Some t /\ choices !! (j / 8)%nat = Some c /\
     rows !! j = Some (if bit_of choices j then t ⊕ delta else t)) ->
  exists ss rs, sender_ots hasher rows delta start i n = Ok ss /\
    receiver_ots hasher raw choices start i n = Ok rs /\
    correlated ss rs /\ length ss = n /\ sender_indices_ok ss start i = true.
Proof.
  revert i. induction n as [|n IH]; intros i H; [by exists [], []; split_and!; [..|constructor| |]|].
  destruct (H i) as (t & c & Ht & Hc & Hq); [lia|].
  destruct (IH (S i)) as (ss & rs & E1 & E2 & Hcor & L & Hi); [intros j Hj; apply H; lia|].
  cbn [sender_ots receiver_ots]. unfold index. rewrite Ht, Hq, Hc. cbn [mbind res_bind].
  rewrite E1, E2. cbn [mbind res_bind]. rewrite (choice_bit choices i c Hc).
  eexists _, _. split; [done|]. split; [done|]. split; [|split; [cbn; lia|]].
  - constructor; [|done]. split; [done|]. cbn [R Choice R0 R1].
    destruct (bit_of choices i); [|done]. f_equal. symmetry. apply label_xor_cancel.
  - cbn [sender_indices_ok sIndex]. by rewrite Z.eqb_refl.
Qed.

(** The IKNP relation, row by row. *)
Lemma rows_related tM qM choices delta n rowsT rowsQ i :
  (forall col, (col < 128)%nat -> length (column tM n col) = n /\
     column qM n col = if deltaBit delta col then xor_bytes (column tM n col) choices else column tM n col) ->
  length choices = n -> label_ok delta -> Forall label_ok rowsT -> Forall label_ok rowsQ ->
  (i < length rowsT)%nat -> (i < length rowsQ)%nat ->
  (forall col, (col < 128)%nat -> deltaBit (nth i rowsT label_zero) col = bit_of (column tM n col) i) ->
  (forall col, (col < 128)%nat -> deltaBit (nth i rowsQ label_zero) col = bit_of (column qM n col) i) ->
  nth i rowsQ label_zero =
    if bit_of choices i then nth i rowsT label_zero ⊕ delta else nth i rowsT label_zero.
Proof.
  intros Hcols Lc Hd OT OQ HiT HiQ HT HQ.
  assert (Ht : label_ok (nth i rowsT label_zero)).
  { rewrite Forall_nth in OT. by apply OT. }
  assert (Hq : label_ok (nth i rowsQ label_zero)).
  { rewrite Forall_nth in OQ. by apply OQ. }
  apply deltaBit_ext; [done|destruct (bit_of choices i); auto using label_xor_ok|].
  intros col Hc. rewrite HQ by done. destruct (Hcols col Hc) as [Lt ->].
  assert (E : bit_of (if deltaBit delta col then xor_bytes (column tM n col) choices else column tM n col) i
              = xorb (bit_of (column tM n col) i) (deltaBit delta col && bit_of choices i)).
  { destruct (deltaBit delta col); [rewrite bit_of_xor by congruence|]; by rewrite ?xorb_false_r. }
  rewrite E, <- HT by done. destruct (bit_of choices i).
  - by rewrite deltaBit_xor, andb_true_r.
  - by rewrite andb_false_r, xorb_false_r.
Qed.

(** ** An honest run *)

(** What base OT leaves with the parties: the sender holds the seed of each pair
    that its correlation selects. *)
Definition base_related (base : list BaseOTSeedPair) (selected : list Label) (delta : Label) : Prop :=
  length base = BaseOTCount /\ length selected = BaseOTCount /\
  forall col p, base !! col = Some p ->
    selected !! col = Some (if deltaBit delta col then One p else Zero p).

(** The whole exchange. *)
Definition run_extension (rngR rngS : bytes) (base : list BaseOTSeedPair) (selected : list Label)
    (delta : Label) (epoch cipherMessage sessionID : bytes) (startIndex count : Z)
    : res (list SenderOT * list ReceiverOT) :=
  '(rst, commitment, rots) ← fst (StartExtensionReceiver (Some rngR) base epoch cipherMessage sessionID
                                     startIndex count);
  '(sst, challenge) ← fst (StartExtensionSender hw (Some rngS) selected delta epoch cipherMessage
                             (Some commitment));
  proof ← snd (FinishExtensionReceiver hw (Some rst) (Some challenge));
  sots ← snd (FinishExtensionSender (Some sst) (Some proof));
  Ok (sots, rots).

(** The two matrices of an honest run. *)
Lemma honest_columns base selected delta sid choices k :
  base_related base selected delta -> length choices = (16 * k)%nat -> is_bytes choices ->
  let n := (16 * k)%nat in
  let ts := imap (fun j p => prg (Zero p) sid j n) base in
  let us := imap (fun j p => xor_bytes (xor_bytes (prg (Zero p) sid j n) (prg (One p) sid j n)) choices) base in
  let qs := imap (fun j seed => let q := prg seed sid j n in
              if deltaBit delta j then xor_bytes q (column (concat us) n j) else q) selected in
  (length (concat ts) = (BaseOTCount * n)%nat /\ is_bytes (concat ts)) /\
  (length (concat us) = (BaseOTCount * n)%nat /\ is_bytes (concat us)) /\
  (length (concat qs) = (BaseOTCount * n)%nat /\ is_bytes (concat qs)) /\
  forall col, (col < 128)%nat ->
    length (column (concat ts) n col) = n /\ is_bytes (column (concat ts) n col) /\
    column (concat qs) n col =
      if deltaBit delta col then xor_bytes (column (concat ts) n col) choices
      else column (concat ts) n col.
Proof.
  intros (Lb & Ls & Hsel) Lc Bc n ts us qs.
  assert (Fts : Forall (fun c => length c = n /\ is_bytes c) ts).
  { apply Forall_lookup. intros j c. unfold ts. rewrite list_lookup_imap. intros (p & Hp & ->)%fmap_Some.
    split; [apply length_prg|apply prg_bytes]. }
  assert (Fus : Forall (fun c => length c = n /\ is_bytes c) us).
  { apply Forall_lookup. intros j c. unfold us. rewrite list_lookup_imap. intros (p & Hp & ->)%fmap_Some.
    rewrite !length_xor_bytes, !length_prg, Lc. split; [unfold n; lia|].
    apply xor_bytes_bytes; [apply xor_bytes_bytes; apply prg_bytes|done]. }
  assert (Fl : forall l : list bytes, Forall (fun c => length c = n /\ is_bytes c) l -> Forall (fun c => length c = n) l).
  { intros l H. eapply Forall_impl; [exact H|]. by intros ? []. }
  assert (Hq : forall col p, base !! col = Some p -> qs !! col = Some
     (if deltaBit delta col then xor_bytes (prg (Zero p) sid col n) choices else prg (Zero p) sid col n)).
  { intros col p Hp. unfold qs. rewrite list_lookup_imap, (Hsel col p Hp). cbn [fmap option_fmap option_map].
    f_equal. destruct (deltaBit delta col); [|done].
    rewrite (column_concat us n col (xor_bytes (xor_bytes (prg (Zero p) sid col n) (prg (One p) sid col n)) choices));
      [|by apply Fl|unfold us; by rewrite list_lookup_imap, Hp].
    apply list_eq. intros i. unfold xor_bytes. rewrite !lookup_zip_with.
    destruct (prg (One p) sid col n !! i) eqn:E1, (prg (Zero p) sid col n !! i) eqn:E0, (choices !! i) eqn:Ec;
      cbn [mbind option_bind]; try done.
    - f_equal. lxor_bits.
    - apply lookup_lt_Some in E0. apply lookup_ge_None in E1. rewrite length_prg in *. lia. }
  assert (Fqs : Forall (fun c => length c = n /\ is_bytes c) qs).
  { apply Forall_lookup. intros j c Hj.
    destruct (lookup_lt_is_Some_2 base j) as [p Hp].
    { apply lookup_lt_Some in Hj. unfold qs in Hj. rewrite length_imap in Hj. lia. }
    rewrite (Hq j p Hp) in Hj. apply (inj Some) in Hj as <-. destruct (deltaBit delta j).
    - rewrite length_xor_bytes, length_prg, Lc. split; [unfold n; lia|]. apply xor_bytes_bytes; [apply prg_bytes|done].
    - split; [apply length_prg|apply prg_bytes]. }
  split_and!; try (destruct (concat_columns_spec _ _ Fts) as [H1 H2]; unfold ts in H1; rewrite length_imap, Lb in H1; done);
    try (destruct (concat_columns_spec _ _ Fus) as [H1 H2]; unfold us in H1; rewrite length_imap, Lb in H1; done);
    try (destruct (concat_columns_spec _ _ Fqs) as [H1 H2]; unfold qs in H1; rewrite length_imap, Ls in H1; done).
  intros col Hc. destruct (lookup_lt_is_Some_2 base col) as [p Hp]; [rewrite Lb; done|].
  rewrite (column_concat ts n col (prg (Zero p) sid col n)); [|by apply Fl|unfold ts; by rewrite list_lookup_imap, Hp].
  rewrite (column_concat qs n col _ (Fl _ Fqs) (Hq col p Hp)).
  split_and!; [apply length_prg|apply prg_bytes|done].
Qed.

Lemma chi_from_spec random n : (n * 16 <= length random)%nat -> is_bytes random ->
  length (chi_from random n) = n /\ Forall label_ok (chi_from random n).
Proof.
  intros Hl Hb. unfold chi_from. split; [by rewrite length_map, length_seq|].
  apply Forall_map, Forall_forall. intros i [_ Hi]%elem_of_seq. unfold compose.
  apply labelFromBytes_ok; [rewrite length_slice; lia|by apply slice_forall].
Qed.

Definition honest_inputs (rngR rngS : bytes) (base : list BaseOTSeedPair) (selected : list Label)
    (delta : Label) (epoch cipherMessage sessionID : bytes) (startIndex count : Z) : Prop :=
  validateExtensionEpoch epoch = Ok () /\
  validateBaseCipherForTranscript cipherMessage sessionID = Ok () /\
  0 < count <= maxExtensionOTs /\ 0 <= startIndex /\ startIndex + count <= MaxUint64 /\
  is_bytes rngR /\ (Z.to_nat count + 256 <= 8 * length rngR)%nat /\
  is_bytes rngS /\ (Z.to_nat count + 128 <= 8 * length rngS)%nat /\
  label_ok delta /\ delta <> label_zero /\ base_related base selected delta.

(** The sender accepts the commitment the receiver made. *)
Lemma honest_commitment_valid epoch cm sid start count padded us n :
  validateExtensionEpoch epoch = Ok () -> validateBaseCipherForTranscript cm sid = Ok () ->
  extensionPaddedCount count = Ok padded -> 0 <= start -> start + count <= MaxUint64 ->
  padded = Z.of_nat (8 * n) -> length us = (BaseOTCount * n)%nat ->
  let c0 := mkCommitment sid start count padded (extensionEpochHash epoch) (zeros 32) us in
  validateExtensionCommitment epoch cm
    (Some (mkCommitment sid start count padded (extensionEpochHash epoch) (extensionTranscript cm c0) us)) = Ok ().
Proof.
  intros He Hb Hp H0 H1 -> Lu c0. unfold validateExtensionCommitment.
  cbn [cSessionID StartIndex Count PaddedCount EpochHash cTranscript U].
  rewrite He, Hb. cbn [mbind res_bind]. rewrite Hp. cbn [mbind res_bind]. rewrite Z.eqb_refl. cbn [negb].
  apply extensionPaddedCount_spec in Hp as (Hc & _). unfold maxExtensionOTs in Hc.
  rewrite checkedIndexEnd_fits by lia. cbn [mbind res_bind].
  rewrite Lu. unfold BaseOTCount.
  assert (Z.quot (Z.of_nat 128 * Z.of_nat (8 * n)) 8 = Z.of_nat (128 * n)) as ->.
  { rewrite Z.quot_div_nonneg by lia. replace (Z.of_nat 128 * Z.of_nat (8 * n)) with (Z.of_nat (128 * n) * 8) by lia.
    by rewrite Z.div_mul by lia. }
  rewrite Z.eqb_refl. cbn [negb]. unfold bytes_eqb.
  rewrite bool_decide_eq_true_2 by reflexivity. cbn [negb].
  rewrite bool_decide_eq_true_2 by (unfold extensionTranscript, c0; reflexivity). done.
Qed.

(** Everything the sender and the receiver do after the commitment, on the two
    matrices: the sender accepts and derives its OTs. *)
Lemma extension_rest rngS selected delta epoch cm c choices tM k sots :
  validateExtensionCommitment epoch cm (Some c) = Ok () ->
  PaddedCount c = Z.of_nat (128 * k) -> (2 <= k)%nat -> 0 <= Count c ->
  is_bytes rngS -> ((k - 1) * 16 <= length rngS)%nat -> delta <> label_zero ->
  length choices = (16 * k)%nat -> is_bytes choices ->
  let n := (16 * k)%nat in
  let qs := imap (fun j seed => let q := prg seed (cSessionID c) j n in
              if deltaBit delta j then xor_bytes q (column (U c) n j) else q) selected in
  length (concat qs) = (BaseOTCount * n)%nat -> is_bytes (concat qs) ->
  (forall col, (col < 128)%nat ->
     length (column tM n col) = n /\ is_bytes (column tM n col) /\
     column (concat qs) n col =
       if deltaBit delta col then xor_bytes (column tM n col) choices else column tM n col) ->
  (forall rowsQ, transposeColumns (concat qs) n (8 * n) = Ok rowsQ ->
     hashSenderOTs (mkSenderState (extensionStateCommitment c) [] delta [] rowsQ false) = Ok sots) ->
  exists sst challenge proof,
    fst (StartExtensionSender hw (Some rngS) selected delta epoch cm (Some c)) = Ok (sst, challenge) /\
    snd (FinishExtensionReceiver hw
           (Some (mkReceiverState (extensionStateCommitment c) choices tM false)) (Some challenge)) = Ok proof /\
    snd (FinishExtensionSender (Some sst) (Some proof)) = Ok sots.
Proof.
  intros Hval Hpad Hk Hcnt BS LS Hd Lch Bch n qs LQ BQ Hcols Hhash.
  unfold StartExtensionSender. rewrite Hval.
  assert (label_equal delta label_zero = false) as ->.
  { apply not_true_iff_false. by rewrite label_equal_spec. }
  assert (Erows : Z.to_nat (Z.quot (PaddedCount c) 8) = n).
  { rewrite Hpad, Z.quot_div_nonneg by lia. replace (Z.of_nat (128 * k)) with (Z.of_nat n * 8) by lia.
    rewrite Z.div_mul by lia. lia. }
  assert (Emain : Z.to_nat (Z.quot (PaddedCount c - Z.of_nat KOSCheckOTs) 8) = (16 * (k - 1))%nat).
  { rewrite Hpad. unfold KOSCheckOTs. rewrite Z.quot_div_nonneg by lia.
    replace (Z.of_nat (128 * k) - Z.of_nat 128) with (Z.of_nat (16 * (k - 1)) * 8) by lia.
    rewrite Z.div_mul by lia. lia. }
  assert (Echi : extensionChallengeCount (PaddedCount c) = Z.of_nat (k - 1)).
  { unfold extensionChallengeCount, KOSCheckOTs. rewrite Hpad, Z.quot_div_nonneg by lia.
    replace (Z.of_nat (128 * k) - Z.of_nat 128) with (Z.of_nat (k - 1) * 128) by lia. by rewrite Z.div_mul by lia. }
  rewrite Erows, sender_columns_Ok. cbn [Nat.add]. fold n qs.
  rewrite Echi, Nat2Z.id, ReadFull_enough by lia.
  set (random := take ((k - 1) * 16) rngS).
  destruct (chi_from_spec random (k - 1)) as [Lchi Ochi];
    [unfold random; rewrite length_take; lia|by apply Forall_take|].
  set (chi := chi_from random (k - 1)) in *.
  destruct (repetition_check_xor choices choices (16 * (k - 1)) chi) as (x & _ & Ex & _); [done..|lia|lia|].
  destruct (check_columns_kos tM (concat qs) choices n (16 * (k - 1)) chi delta x 0 128)
    as (tc & qc & ET & EQ & Hkos); try done; try lia.
  { intros col [_ Hcol]%in_seq. by apply Hcols. }
  assert (Ecq : repetitionColumnChecks hw (concat qs) (PaddedCount c) chi = Ok qc)
    by (unfold repetitionColumnChecks; by rewrite Erows, Emain).
  assert (Ect : repetitionColumnChecks hw tM (PaddedCount c) chi = Ok tc)
    by (unfold repetitionColumnChecks; by rewrite Erows, Emain).
  destruct (transposeColumns_Ok (concat qs) n) as (rowsQ & Etr & LrQ & _ & _);
    [done|done|unfold n; by rewrite Nat.mul_comm, Nat.Div0.mod_mul|].
  rewrite Ecq, Hpad, Nat2Z.id. cbn [mbind res_bind].
  replace (128 * k)%nat with (8 * n)%nat by (unfold n; lia). rewrite Etr. cbn [mbind res_bind fst].
  do 3 eexists. split; [done|].
  unfold FinishExtensionReceiver. cbn [r_used r_commitment r_choices r_tMatrix snd].
  unfold validateExtensionChallenge. cbn [chSessionID Commitment chTranscript Chi cSessionID cTranscript PaddedCount extensionStateCommitment].
  unfold bytes_eqb. rewrite !bool_decide_eq_true_2 by done. cbn [negb orb].
  rewrite Lchi, Echi, Z.eqb_refl. cbn [negb].
  cbn [mbind res_bind].
  unfold repetitionReceiverProof. rewrite Emain. cbn [Chi]. rewrite Ex. cbn [mbind res_bind]. rewrite Ect. cbn [mbind res_bind].
  split; [done|].
  unfold FinishExtensionSender. cbn [s_used snd s_commitment s_challengeTranscript prSessionID prTranscript s_rows s_qChecks s_delta X T].
  unfold bytes_eqb. rewrite !bool_decide_eq_true_2 by done. cbn [negb orb cSessionID PaddedCount extensionStateCommitment].
  rewrite LrQ, Hpad. replace (8 * n)%nat with (128 * k)%nat by (unfold n; lia). rewrite Z.eqb_refl. cbn [negb].
  rewrite Hkos. cbn [mbind res_bind]. by apply Hhash.
Qed.

Lemma run_extension_correct rngR rngS base selected delta epoch cm sid start count :
  honest_inputs rngR rngS base selected delta epoch cm sid start count ->
  exists sots rots,
    run_extension rngR rngS base selected delta epoch cm sid start count = Ok (sots, rots) /\
    correlated sots rots /\ Z.of_nat (length sots) = count /\ validateSenderOTIndices sots start = Ok ().
Proof.
  intros (He & Hb & Hc & H0 & H1 & BR & LR & BS & LS & Od & Hd & Hbase).
  destruct (extensionPaddedCount count) as [padded| |] eqn:Hp.
  2,3: unfold extensionPaddedCount in Hp; revert Hp; rewrite (proj2 (Z.leb_gt _ _)), (proj2 (Z.ltb_ge _ _)) by lia; done.
  pose proof (padded_blocks count padded Hp) as (k & Epad & Hk & Hp32 & Hc32 & Hck & Erows & Erows' & _).
  assert (Hkc : (128 * k < Z.to_nat count + 256)%nat) by (apply extensionPaddedCount_spec in Hp; lia).
  unfold run_extension, StartExtensionReceiver. rewrite He, Hb. cbn [mbind res_bind]. rewrite Hp. cbn [mbind res_bind].
  unfold maxExtensionOTs in Hc. rewrite checkedIndexEnd_fits by lia. cbn [mbind res_bind]. rewrite Erows.
  rewrite ReadFull_enough by lia. set (choices := take (16 * k) rngR).
  assert (Lch : length choices = (16 * k)%nat) by (unfold choices; rewrite length_take; lia).
  assert (Bch : is_bytes choices) by (by apply Forall_take).
  rewrite receiver_columns_Ok. cbn [mbind res_bind Nat.add].
  destruct (honest_columns base selected delta sid choices k Hbase Lch Bch) as ([LT BT] & [LU BU] & [LQ BQ] & Hcols).
  set (ts := imap (fun j p => prg (Zero p) sid j (16 * k)) base) in *.
  set (us := imap _ base) in *. set (qs := imap _ selected) in *.
  unfold u32. rewrite (Z.mod_small count), (Z.mod_small padded) by lia. rewrite Erows'.
  destruct (transposeColumns_Ok (concat ts) (16 * k)) as (rowsT & -> & LrT & OrT & HrT); [done|done|by rewrite Nat.mul_comm, Nat.Div0.mod_mul|].
  cbn [mbind res_bind]. unfold hashReceiverOTs. rewrite checkedIndexEnd_fits by lia. cbn [mbind res_bind].
  rewrite aes_NewCipher_16 by (unfold tmmoKey; rewrite length_take, sha256_length; done). cbn [mbind res_bind].
  destruct (transposeColumns_Ok (concat qs) (16 * k)) as (rowsQ & EQ & LrQ & OrQ & HrQ); [done|done|by rewrite Nat.mul_comm, Nat.Div0.mod_mul|].
  destruct (ots_correlated tmmoKey rowsT rowsQ delta choices start 0 (Z.to_nat count))
    as (sots & rots & ES & -> & Hcor & Lso & Hidx).
  { intros j Hj. destruct (lookup_lt_is_Some_2 choices (j / 8)) as [c Hcj].
    { rewrite Lch. apply Nat.Div0.div_lt_upper_bound. lia. }
    exists (nth j rowsT label_zero), c. split_and!; [|done|].
    { destruct (lookup_lt_is_Some_2 rowsT j) as [x Hx]; [lia|]. by rewrite nth_lookup, Hx. }
    rewrite <- (rows_related (concat ts) (concat qs) choices delta (16 * k) rowsT rowsQ j); try done; try lia.
    - destruct (lookup_lt_is_Some_2 rowsQ j) as [x Hx]; [lia|]. by rewrite nth_lookup, Hx.
    - intros col Hcol. destruct (Hcols col Hcol) as (? & _ & ?). done.
    - intros col Hcol. apply HrT; [lia|done].
    - intros col Hcol. apply HrQ; [lia|done]. }
  cbn [mbind res_bind fst]. set (c0 := mkCommitment sid start count padded _ (zeros 32) _).
  set (c := mkCommitment _ _ _ _ _ (extensionTranscript _ _) _).
  destruct (extension_rest rngS selected delta epoch cm c choices (concat ts) k sots)
    as (sst & ch & pr & -> & E2 & E3); try done; try lia.
  { apply (honest_commitment_valid _ _ _ _ _ _ _ (16 * k)); try done; lia. }
  { unfold c. cbn [Count]. lia. }
  { intros rowsQ' E'. change (transposeColumns (concat qs) (16 * k) (8 * (16 * k)) = Ok rowsQ') in E'. rewrite EQ in E'. injection E' as <-. unfold hashSenderOTs.
    cbn [s_commitment s_rows s_delta extensionStateCommitment Count StartIndex c].
    rewrite checkedIndexEnd_fits by lia. cbn [mbind res_bind].
    rewrite aes_NewCipher_16 by (unfold tmmoKey; rewrite length_take, sha256_length; done). done. }
  cbn [mbind res_bind]. rewrite E2. cbn [mbind res_bind]. rewrite E3. cbn [mbind res_bind].
  exists sots, rots. split_and!; [done|done|lia|].
  unfold validateSenderOTIndices. rewrite checkedIndexEnd_fits by lia. cbn [mbind res_bind]. by rewrite Hidx.
Qed.

End Facts.

(** ** What the sender's acceptance means *)

Lemma label_put_inj a b : label_ok a -> label_ok b -> label_put a = label_put b -> a = b.
Proof. intros Ha Hb E. rewrite <- (labelFromBytes_put a), <- (labelFromBytes_put b) by done. by rewrite E. Qed.

Lemma kos_check_sound q t delta x col :
  length q = length t -> Forall label_ok q -> Forall label_ok t -> label_ok x ->
  kos_check q t delta x col = Ok () ->
  forall i qi ti, q !! i = Some qi -> t !! i = Some ti ->
    qi = if deltaBit delta (col + i) then ti ⊕ x else ti.
Proof.
  intros L Hq Ht Hx. revert t L Ht col. induction Hq as [|q0 q Hq0 Hq IH]; intros [|t0 t] L Ht col E i qi ti Hi Hti;
    try (by rewrite lookup_nil in Hi); try done.
  inversion Ht as [|? ? Ht0 Ht']; subst. cbn [kos_check] in E.
  destruct (bytes_eqb _ _) eqn:Eb; cbn [negb] in E; [|done].
  unfold bytes_eqb in Eb. apply bool_decide_eq_true in Eb.
  destruct i as [|i]; cbn in Hi, Hti.
  - injection Hi as <-. injection Hti as <-. rewrite Nat.add_0_r.
    apply label_put_inj; [done|destruct (deltaBit delta col); auto using label_xor_ok|done].
  - rewrite Nat.add_succ_r. apply (IH t ltac:(cbn in L; lia) Ht' (S col) E i); done.
Qed.

(** the sender releases OTs only for a proof that matches its transcript and
    satisfies all 128 column equations [q_i = t_i + delta_i * x]; whatever the
    outcome, the state is wiped and can never be used again. *)
Theorem sender_accepts_only_consistent_proofs `{BlockCipher} `{Sha256} s p s' sots :
  length (s_qChecks s) = BaseOTCount -> length (T p) = BaseOTCount ->
  Forall label_ok (s_qChecks s) -> Forall label_ok (T p) -> label_ok (X p) ->
  FinishExtensionSender (Some s) (Some p) = (Some s', Ok sots) ->
  prSessionID p = cSessionID (s_commitment s) /\ prTranscript p = s_challengeTranscript s /\
  (forall col q t, s_qChecks s !! col = Some q -> T p !! col = Some t ->
     q = if deltaBit (s_delta s) col then t ⊕ X p else t) /\
  s_rows s' = [] /\ s_delta s' = label_zero /\
  forall p', snd (FinishExtensionSender (Some s') p') = Err "mpc: OT extension sender state already used".
Proof.
  intros Lq Lt Oq Ot Ox. unfold FinishExtensionSender at 1. destruct (s_used s); [done|].
  intros E. apply pair_equal_spec in E as [Es E]. apply (inj Some) in Es as <-.
  destruct (_ || _) eqn:G1; [done|]. destruct (negb (Z.of_nat _ =? _)) eqn:G2; [done|].
  apply bind_Ok in E as ([] & Ek & _). apply orb_false_iff in G1 as [G1 G3].
  unfold bytes_eqb in *. apply negb_false_iff, bool_decide_eq_true in G1, G3.
  split_and!; try done. intros col q t Hq Ht.
  apply (kos_check_sound (s_qChecks s) (T p) (s_delta s) (X p) 0); [congruence|done..].
Qed.

(** A consistent transcript of an extension with no OTs requested. *)
Definition idle_state : ExtensionSenderState :=
  mkSenderState (mkCommitment (zeros 32) 0 0 0 (zeros 32) (zeros 32) []) (zeros 32) (mkLabel 1 0)
    (replicate BaseOTCount label_zero) [] false.
Definition idle_proof : ExtensionProof :=
  mkProof (zeros 32) (zeros 32) label_zero (replicate BaseOTCount label_zero).

Lemma sender_accepts_only_consistent_proofs_witness :
  exists s' sots, @FinishExtensionSender const_cipher const_sha (Some idle_state) (Some idle_proof)
    = (Some s', Ok sots) /\ s_rows s' = [].
Proof.
  eexists _, _. split; [vm_compute; reflexivity|].
  eapply (@sender_accepts_only_consistent_proofs const_cipher const_sha idle_state idle_proof).
  - apply length_replicate.
  - apply length_replicate.
  - apply Forall_replicate, label_zero_ok.
  - apply Forall_replicate, label_zero_ok.
  - apply label_zero_ok.
  - vm_compute. reflexivity.
Defined.

(** C20: an honest extension run always succeeds. Whenever the base OTs left the
    sender with the seeds its nonzero correlation selects, the four steps of the
    protocol return OTs of the requested number with consecutive indices, and the
    receiver's OT [i] is the sender's pad for its choice bit, whichever
    multiplication routine the two processors use. *)
Theorem extension_yields_correlated_ots `{BlockCipher} `{Sha256} hw rngR rngS base selected delta epoch cm sid start count :
  honest_inputs rngR rngS base selected delta epoch cm sid start count ->
  exists sots rots,
    run_extension hw rngR rngS base selected delta epoch cm sid start count = Ok (sots, rots) /\
    Z.of_nat (length sots) = count /\
    forall i s, sots !! i = Some s -> exists t, rots !! i = Some t /\
      sIndex s = start + Z.of_nat i /\ rIndex t = start + Z.of_nat i /\
      R t = if Choice t then R1 s else R0 s.
Proof.
  intros Hh. destruct (run_extension_correct hw rngR rngS base selected delta epoch cm sid start count Hh)
    as (sots & rots & E & Hc & L & Hv). exists sots, rots. split_and!; [done..|].
  intros i s Hs. destruct (Forall2_lookup_l _ _ _ _ _ Hc Hs) as (t & Ht & Ei & ER). exists t.
  destruct Hh as (_ & _ & Hcnt & Hlo & Hhi & _). unfold maxExtensionOTs in Hcnt.
  unfold validateSenderOTIndices in Hv. rewrite checkedIndexEnd_fits in Hv by lia. cbn [mbind res_bind] in Hv.
  destruct (sender_indices_ok sots start 0) eqn:Es; [|done].
  assert (Hidx : forall l k j o, sender_indices_ok l start k = true -> start + Z.of_nat (k + length l) <= MaxUint64 ->
            l !! j = Some o -> sIndex o = start + Z.of_nat (k + j)).
  { clear -Hlo. induction l as [|o' l IH]; intros k j o Hk Hb Hj; [by rewrite lookup_nil in Hj|].
    cbn [sender_indices_ok length] in *. apply andb_true_iff in Hk as [Hk1 Hk2]. destruct j as [|j]; cbn in Hj.
    - injection Hj as <-. apply Z.eqb_eq in Hk1. rewrite Hk1. unfold add64, u64, MaxUint64 in *.
      rewrite Z.mod_small by lia. lia.
    - rewrite (IH (S k) j o Hk2 ltac:(lia) Hj). lia. }
  pose proof (Hidx sots 0%nat i s Es ltac:(lia) Hs) as Hsi. cbn [Nat.add] in Hsi.
  split_and!; [done|done|congruence|done].
Qed.

(** 256 checks of a session with constant seeds. *)
Definition demo_cipher_message : bytes := str "BOT1" ++ zeros 32 ++ zeros (BaseOTCount * 32).
Definition demo_base : list BaseOTSeedPair := replicate BaseOTCount (mkSeedPair label_zero (mkLabel 1 1)).
Definition demo_delta : Label := mkLabel 1 0.
Definition demo_selected : list Label :=
  map (fun col => if deltaBit demo_delta col then mkLabel 1 1 else label_zero) (seq 0 BaseOTCount).

Lemma extension_yields_correlated_ots_witness :
  exists sots rots,
    @run_extension const_cipher const_sha true (zeros 64) (zeros 64) demo_base demo_selected demo_delta
      (str "kos2:x") demo_cipher_message (zeros 32) 7 2 = Ok (sots, rots) /\ Z.of_nat (length sots) = 2.
Proof.
  destruct (@extension_yields_correlated_ots const_cipher const_sha true (zeros 64) (zeros 64) demo_base
    demo_selected demo_delta (str "kos2:x") demo_cipher_message (zeros 32) 7 2) as (sots & rots & E & L & _).
  - unfold honest_inputs. split_and!.
    + vm_compute. reflexivity.
    + vm_compute. reflexivity.
    + lia.
    + vm_compute. discriminate.
    + lia.
    + vm_compute. discriminate.
    + apply zeros_bytes.
    + vm_compute. lia.
    + apply zeros_bytes.
    + vm_compute. lia.
    + vm_compute. repeat split; try discriminate; reflexivity.
    + discriminate.
    + split_and!; [apply length_replicate|unfold demo_selected; rewrite length_map; apply length_seq|].
      intros col p [-> Hc]%lookup_replicate. unfold demo_selected. change (map ?f ?l) with (f <$> l).
      rewrite list_lookup_fmap, lookup_seq_lt by exact Hc. reflexivity.
  - exists sots, rots. split; [exact E|exact L].
Defined.
