(* ===== verification/BaseOt.v ===== *)
(** * Base OTs ([mpc/base_ot.go])

    Three messages around the Chou-Orlandi OT of a third-party library: setup
    point, 128 choice points, 128 pairs of encrypted seeds.  The library and the
    curve encoding are parameters ([COLib]); what is relied on is their
    documented behaviour ([COLaws]): decryption with the choices opens the
    selected label, and a compressed point decodes to itself.  The framing, the
    session binding, the seed and correlation sampling and the single-use states
    are the program's own. *)

From S2P Require Import Prelude Bytes Label Transpose Gf128 Crypto Circuit Oprf OtExtension.

Definition compressedP256PointSize : nat := 33.
Definition baseSetupMessageSize : nat := 4 + 32 + compressedP256PointSize.
Definition baseChoiceMessageSize : nat := 4 + 32 + BaseOTCount * compressedP256PointSize.

(** ** The libraries the program calls *)

Class COLib := {
  ECPoint : Type;
  COSenderSetup : Type;
  COChoiceBundle : Type;
  zero_setup : COSenderSetup;
  zero_bundle : COChoiceBundle;
  (** The public point [(Ax, Ay)] of a setup. *)
  setup_point : COSenderSetup -> ECPoint;
  GenerateCOSenderSetup : bytes -> res COSenderSetup * bytes;
  MarshalCompressed : ECPoint -> bytes;
  UnmarshalCompressed : bytes -> option ECPoint;
  BuildCOChoices : bytes -> ECPoint -> list bool -> res (COChoiceBundle * list ECPoint) * bytes;
  EncryptCOCiphertexts : COSenderSetup -> list ECPoint -> list (Label * Label) -> res (list (bytes * bytes));
  DecryptCOCiphertexts : COChoiceBundle -> list (bytes * bytes) -> res (list Label);
}.

Class COLaws `{COLib} := {
  marshal_length p : length (MarshalCompressed p) = compressedP256PointSize;
  unmarshal_marshal p : UnmarshalCompressed (MarshalCompressed p) = Some p;
  (** Oblivious transfer: for an honest setup and honest choices, encryption
      succeeds with 16-byte ciphertexts and decryption yields the chosen labels. *)
  co_correct rng1 rng2 rng1' rng2' setup bundle points choices wires :
    GenerateCOSenderSetup rng1 = (Ok setup, rng1') ->
    BuildCOChoices rng2 (setup_point setup) choices = (Ok (bundle, points), rng2') ->
    length wires = length choices -> Forall (fun w => label_ok (fst w) /\ label_ok (snd w)) wires ->
    length points = length choices /\
    exists cts, EncryptCOCiphertexts setup points wires = Ok cts /\ length cts = length choices /\
      Forall (fun ct => length (fst ct) = 16%nat /\ length (snd ct) = 16%nat) cts /\
      DecryptCOCiphertexts bundle cts =
        Ok (zip_with (fun (c : bool) w => if c then snd w else fst w) choices wires);
}.

Section BaseOT.
Context `{CO : COLib}.

(** ** States *)

Record BaseOTSenderState := mkBaseSender {
  bs_session : bytes;
  bs_setup : COSenderSetup;
  bs_seeds : list BaseOTSeedPair;
  bs_used : bool;
}.

Record BaseOTReceiverState := mkBaseReceiver {
  br_session : bytes;
  br_bundle : COChoiceBundle;
  br_delta : Label;
  br_used : bool;
}.

Definition zero_pair : BaseOTSeedPair := mkSeedPair label_zero label_zero.

Definition clearBaseOTSenderState (s : BaseOTSenderState) : BaseOTSenderState :=
  mkBaseSender (zeros 32) zero_setup (replicate BaseOTCount zero_pair) (bs_used s).

Definition clearBaseOTReceiverState (s : BaseOTReceiverState) : BaseOTReceiverState :=
  mkBaseReceiver (zeros 32) zero_bundle label_zero (br_used s).

Definition baseSender_Destroy (s : option BaseOTSenderState) : option BaseOTSenderState :=
  match s with
  | None => None
  | Some s => Some (clearBaseOTSenderState (mkBaseSender (bs_session s) (bs_setup s) (bs_seeds s) true))
  end.

Definition baseReceiver_Destroy (s : option BaseOTReceiverState) : option BaseOTReceiverState :=
  match s with
  | None => None
  | Some s => Some (clearBaseOTReceiverState (mkBaseReceiver (br_session s) (br_bundle s) (br_delta s) true))
  end.

(** ** First message *)

(** The seed loop: [n] pairs of distinct labels. *)
Fixpoint read_seeds (n : nat) (rng : bytes) : res (list BaseOTSeedPair) * bytes :=
  match n with
  | O => (Ok [], rng)
  | S n =>
      match ReadFull rng 32 with
      | None => (Err "mpc: read base OT seeds", [])
      | Some (seedBytes, rng) =>
          let z := labelFromBytes (slice seedBytes 0 16) in
          let o := labelFromBytes (slice seedBytes 16 32) in
          if label_equal z o then (Err "mpc: identical base OT seed pair", rng) else
          match read_seeds n rng with
          | (Ok rest, rng) => (Ok (mkSeedPair z o :: rest), rng)
          | r => r
          end
      end
  end.

Definition StartBaseOTSender (rng : option bytes) (session : bytes)
    : res (BaseOTSenderState * bytes) * option bytes :=
  match rng with
  | None => (Err "mpc: nil randomness source", None)
  | Some rs =>
      match GenerateCOSenderSetup rs with
      | (Err _, rs) => (Err "mpc: generate base OT sender setup", Some rs)
      | (Panic, rs) => (Panic, Some rs)
      | (Ok setup, rs) =>
          match read_seeds BaseOTCount rs with
          | (Err m, rs) => (Err m, Some rs)
          | (Panic, rs) => (Panic, Some rs)
          | (Ok seeds, rs) =>
              let message := str "BOS1" ++ session
                             ++ pad_to compressedP256PointSize (MarshalCompressed (setup_point setup)) in
              (Ok (mkBaseSender session setup seeds false, message), Some rs)
          end
      end
  end.

(** ** Second message *)

Definition StartBaseOTReceiver (rng : option bytes) (session setupMessage : bytes)
    : res (BaseOTReceiverState * bytes) * option bytes :=
  match rng with
  | None => (Err "mpc: nil randomness source", None)
  | Some rs =>
      if negb (length setupMessage =? baseSetupMessageSize)%nat
         || negb (bytes_eqb (take 4 setupMessage) (str "BOS1"))
      then (Err "mpc: invalid base OT setup message", rng) else
      if negb (bytes_eqb (slice setupMessage 4 36) session)
      then (Err "mpc: base OT setup session mismatch", rng) else
      match UnmarshalCompressed (drop 36 setupMessage) with
      | None => (Err "mpc: invalid base OT sender point", rng)
      | Some a =>
          match ReadFull rs 16 with
          | None => (Err "mpc: read OT correlation delta", Some [])
          | Some (deltaBytes, rs) =>
              let delta := labelFromBytes deltaBytes in
              if label_equal delta label_zero then (Err "mpc: zero OT correlation delta", Some rs) else
              let choices := map (deltaBit delta) (seq 0 BaseOTCount) in
              match BuildCOChoices rs a choices with
              | (Err _, rs) => (Err "mpc: build base OT choices", Some rs)
              | (Panic, rs) => (Panic, Some rs)
              | (Ok (bundle, points), rs) =>
                  if (BaseOTCount <? length points)%nat then (Panic, Some rs) else
                  let message := str "BOC1" ++ session
                    ++ pad_to (BaseOTCount * compressedP256PointSize)
                         (concat (map (fun p => pad_to compressedP256PointSize (MarshalCompressed p)) points)) in
                  (Ok (mkBaseReceiver session bundle delta false, message), Some rs)
              end
          end
      end
  end.

(** ** Third message *)

Fixpoint read_points (n off : nat) (message : bytes) : res (list ECPoint) :=
  match n with
  | O => Ok []
  | S n =>
      match UnmarshalCompressed (slice message off (off + compressedP256PointSize)) with
      | None => Err "mpc: invalid base OT choice point"
      | Some p => ps ← read_points n (off + compressedP256PointSize) message; Ok (p :: ps)
      end
  end.

Definition seed_wires (seeds : list BaseOTSeedPair) : list (Label * Label) :=
  map (fun p => (Zero p, One p)) seeds.

Definition FinishBaseOTSender (state : option BaseOTSenderState) (choiceMessage : bytes)
    : option BaseOTSenderState * res (bytes * list BaseOTSeedPair) :=
  match state with
  | None => (None, Err "mpc: nil base OT sender state")
  | Some s =>
      if bs_used s then (Some s, Err "mpc: base OT sender state already used") else
      let s' := mkBaseSender (bs_session s) (bs_setup s) (bs_seeds s) true in
      let result :=
        fail_if (negb (length choiceMessage =? baseChoiceMessageSize)%nat
                 || negb (bytes_eqb (take 4 choiceMessage) (str "BOC1")))
          "mpc: invalid base OT choice message";;
        fail_if (negb (bytes_eqb (slice choiceMessage 4 36) (bs_session s)))
          "mpc: base OT choice session mismatch";;
        points ← read_points BaseOTCount 36 choiceMessage;
        ciphertexts ← match EncryptCOCiphertexts (bs_setup s) points (seed_wires (bs_seeds s)) with
                      | Err _ => Err "mpc: encrypt base OT seeds" | r => r end;
        if (BaseOTCount <? length ciphertexts)%nat then Panic else
        let body := concat (map (fun ct => pad_to 16 (fst ct) ++ pad_to 16 (snd ct)) ciphertexts) in
        Ok (str "BOT1" ++ bs_session s ++ pad_to (BaseOTCount * 32) body, bs_seeds s) in
      (Some (clearBaseOTSenderState s'), result)
  end.

(** ** Decryption *)

Fixpoint read_ciphertexts (n off : nat) (message : bytes) : list (bytes * bytes) :=
  match n with
  | O => []
  | S n => (slice message off (off + 16), slice message (off + 16) (off + 32))
           :: read_ciphertexts n (off + 32) message
  end.

Definition FinishBaseOTReceiver (state : option BaseOTReceiverState) (cipherMessage : bytes)
    : option BaseOTReceiverState * res (list Label * Label) :=
  match state with
  | None => (None, Err "mpc: nil base OT receiver state")
  | Some s =>
      if br_used s then (Some s, Err "mpc: base OT receiver state already used") else
      let s' := mkBaseReceiver (br_session s) (br_bundle s) (br_delta s) true in
      let result :=
        fail_if (negb (length cipherMessage =? baseCipherMessageSize)%nat
                 || negb (bytes_eqb (take 4 cipherMessage) (str "BOT1")))
          "mpc: invalid base OT ciphertext message";;
        fail_if (negb (bytes_eqb (slice cipherMessage 4 36) (br_session s)))
          "mpc: base OT ciphertext session mismatch";;
        let ciphertexts := read_ciphertexts BaseOTCount 36 cipherMessage in
        labels ← match DecryptCOCiphertexts (br_bundle s) ciphertexts with
                 | Err _ => Err "mpc: decrypt base OT seeds" | r => r end;
        if (BaseOTCount <? length labels)%nat then Panic else
        Ok (labels ++ replicate (BaseOTCount - length labels) label_zero, br_delta s) in
      (Some (clearBaseOTReceiverState s'), result)
  end.

End BaseOT.

(** ** Framing *)


Lemma length_concat_fixed {A} (f : A -> bytes) n l :
  (forall x, x ∈ l -> length (f x) = n) -> length (concat (map f l)) = (length l * n)%nat.
Proof.
  induction l as [|x l IH]; intros H; [done|]. cbn [map concat length]. rewrite length_app, H, IH;
    [lia|intros y Hy; apply H; by right|by left].
Qed.

(** A frame: a four-byte tag, the session, the body. *)
Lemma frame_parts (tag session body : bytes) :
  length tag = 4%nat -> length session = 32%nat ->
  take 4 (tag ++ session ++ body) = tag /\ slice (tag ++ session ++ body) 4 36 = session /\
  drop 36 (tag ++ session ++ body) = body.
Proof.
  intros Lt Ls. split_and!.
  - by rewrite take_app_length' by done.
  - rewrite slice_app_skip, Lt by lia. by apply slice_app_hit.
  - rewrite drop_app_skip, Lt by lia. rewrite drop_app_skip, Ls by lia. apply drop_0.
Qed.


Lemma Ok_pair {A B} (a a' : A) (b b' : B) : Ok (a, b) = Ok (a', b') -> a = a' /\ b = b'.
Proof. by intros [= -> ->]. Qed.

Section Honest.
Context `{COLaws}.

Lemma read_points_concat points : forall pre,
  read_points (length points) (length pre) (pre ++ concat (map MarshalCompressed points)) = Ok points.
Proof.
  induction points as [|p points IH]; intros pre; [done|].
  cbn [length read_points map concat].
  rewrite slice_app_skip by lia. rewrite Nat.sub_diag.
  replace (length pre + compressedP256PointSize - length pre)%nat with compressedP256PointSize by lia.
  rewrite slice_app_hit, unmarshal_marshal by apply marshal_length.
  replace (length pre + compressedP256PointSize)%nat with (length (pre ++ MarshalCompressed p))
    by (rewrite length_app, marshal_length; done).
  rewrite app_assoc, IH. done.
Qed.

Lemma read_ciphertexts_concat cts : forall pre,
  Forall (fun ct => length (fst ct) = 16%nat /\ length (snd ct) = 16%nat) cts ->
  read_ciphertexts (length cts) (length pre)
    (pre ++ concat (map (fun ct => fst ct ++ snd ct) cts)) = cts.
Proof.
  induction cts as [|[z o] cts IH]; intros pre Hall; [done|].
  inversion Hall as [|? ? [Lz Lo] Hrest]; subst. cbn [fst snd] in Lz, Lo.
  cbn [length read_ciphertexts map concat fst snd].
  assert (E1 : slice (pre ++ (z ++ o) ++ concat (map (fun ct => fst ct ++ snd ct) cts))
                 (length pre) (length pre + 16) = z).
  { rewrite slice_app_skip by lia. rewrite Nat.sub_diag, <- app_assoc.
    replace (length pre + 16 - length pre)%nat with 16%nat by lia. by apply slice_app_hit. }
  assert (E2 : slice (pre ++ (z ++ o) ++ concat (map (fun ct => fst ct ++ snd ct) cts))
                 (length pre + 16) (length pre + 32) = o).
  { rewrite slice_app_skip by lia. rewrite <- app_assoc, slice_app_skip, Lz by lia.
    replace (length pre + 16 - length pre - 16)%nat with 0%nat by lia.
    replace (length pre + 32 - length pre - 16)%nat with 16%nat by lia. by apply slice_app_hit. }
  rewrite E1, E2. f_equal.
  replace (length pre + 32)%nat with (length (pre ++ z ++ o)) by (rewrite !length_app; lia).
  rewrite (app_assoc pre (z ++ o)). by apply IH.
Qed.

Lemma read_seeds_spec n rng seeds rng' :
  is_bytes rng -> read_seeds n rng = (Ok seeds, rng') ->
  length seeds = n /\ Forall (fun p => label_ok (Zero p) /\ label_ok (One p) /\ Zero p <> One p) seeds.
Proof.
  revert rng seeds rng'. induction n as [|n IH]; intros rng seeds rng' Hb E.
  { injection E as <- _. split; [done|constructor]. }
  cbn [read_seeds] in E. destruct (ReadFull rng 32) as [[sb rest]|] eqn:Er; [|done].
  apply ReadFull_Some in Er as [Lsb ->]. apply Forall_app in Hb as [Hsb Hrest].
  destruct (label_equal _ _) eqn:Eq; [done|].
  destruct (read_seeds n rest) as [[seeds'| |] rng''] eqn:Es; [|done..].
  injection E as <- _. apply IH in Es as [L Hall]; [|done]. split; [cbn; lia|].
  constructor; [|done]. cbn [Zero One].
  split_and!; try (apply labelFromBytes_ok; [rewrite length_slice; lia|by apply slice_forall]).
  intros E0. apply not_true_iff_false in Eq. apply Eq. by apply label_equal_spec.
Qed.

(** Random bytes for the seed loop: enough of them, and no pair of halves is the same. *)
Definition seed_coins (n : nat) (r : bytes) : Prop := (32 * n <= length r)%nat /\
  forall i, (i < n)%nat -> slice r (32 * i) (32 * i + 16) <> slice r (32 * i + 16) (32 * i + 32).

Lemma read_seeds_starts n : forall r, is_bytes r -> seed_coins n r -> exists seeds r', read_seeds n r = (Ok seeds, r').
Proof.
  induction n as [|n IH]; intros r B [L D]; [by eexists _, _|]. cbn [read_seeds].
  assert (ReadFull r 32 = Some (take 32 r, drop 32 r)) as -> by (unfold ReadFull; by rewrite (proj2 (Nat.leb_le _ _)) by lia).
  assert (B32 : is_bytes (take 32 r)) by by apply Forall_take. assert (L32 : length (take 32 r) = 32%nat) by (rewrite length_take; lia).
  specialize (D 0%nat ltac:(lia)) as D0. cbn [Nat.mul Nat.add] in D0.
  assert (S1 : slice (take 32 r) 0 16 = slice r 0 16) by (unfold slice; rewrite !drop_0, take_take; done).
  assert (S2 : slice (take 32 r) 16 32 = slice r 16 32).
  { unfold slice. rewrite skipn_firstn_comm, take_take. done. }
  destruct (label_equal _ _) eqn:E.
  { exfalso. apply label_equal_spec in E. apply D0. apply (f_equal label_put) in E.
    rewrite !label_put_labelFromBytes, S1, S2 in E; [done|..]; (by apply slice_forall) || (rewrite length_slice; lia). }
  destruct (IH (drop 32 r)) as (seeds & r' & ->); [by apply Forall_drop| |by eexists _, _].
  split; [rewrite length_drop; lia|]. intros i Hi. specialize (D (S i) ltac:(lia)).
  assert (SD : forall a b, slice (drop 32 r) a b = slice r (32 + a) (32 + b)).
  { intros a b. unfold slice. rewrite drop_drop. f_equal; lia. }
  rewrite !SD. replace (32 * S i)%nat with (32 + 32 * i)%nat in D by lia. rewrite <- !Nat.add_assoc in D. exact D.
Qed.

(** The choice bits of a correlation. *)
Definition delta_choices (deltaBytes : bytes) : list bool := map (deltaBit (labelFromBytes deltaBytes)) (seq 0 BaseOTCount).

(** Random bytes with which both parties can start: the curve library finds a setup and the blinded choices in them, the
    seeds of every pair differ and the correlation is not zero. *)
Definition base_coins (r1 r2 : bytes) : Prop := exists setup rest bundle points rest',
  GenerateCOSenderSetup r1 = (Ok setup, rest) /\ seed_coins BaseOTCount rest /\ (16 <= length r2)%nat /\ take 16 r2 <> zeros 16 /\
  BuildCOChoices (drop 16 r2) (setup_point setup) (delta_choices (take 16 r2)) = (Ok (bundle, points), rest').

(** With such bytes both first steps succeed. *)
Lemma base_ot_starts r1 r2 session : length session = 32%nat -> is_bytes r2 ->
  (forall s r', GenerateCOSenderSetup r1 = (Ok s, r') -> is_bytes r') -> base_coins r1 r2 ->
  exists ss m1 rs m2, fst (StartBaseOTSender (Some r1) session) = Ok (ss, m1) /\ fst (StartBaseOTReceiver (Some r2) session m1) = Ok (rs, m2).
Proof.
  intros Ls B2 Hgen (setup & rest & bundle & points & rest' & Eg & Sc & L2 & Nz & Eb).
  destruct (read_seeds_starts BaseOTCount rest ltac:(by eapply Hgen) Sc) as (seeds & r' & Es).
  eexists _, _, _, _. split; [unfold StartBaseOTSender; rewrite Eg, Es; reflexivity|].
  unfold StartBaseOTReceiver. rewrite (pad_to_exact compressedP256PointSize) by apply marshal_length.
  destruct (frame_parts (str "BOS1") session (MarshalCompressed (setup_point setup)) eq_refl Ls) as (F1 & F2 & F3).
  rewrite F1, F2, F3, !bytes_eqb_refl, unmarshal_marshal. rewrite !length_app, Ls, marshal_length. cbn [negb orb].
  change (negb (length (str "BOS1") + (32 + compressedP256PointSize) =? baseSetupMessageSize)%nat) with false. cbn [orb].
  assert (ReadFull r2 16 = Some (take 16 r2, drop 16 r2)) as -> by (unfold ReadFull; by rewrite (proj2 (Nat.leb_le _ _)) by lia).
  destruct (label_equal _ label_zero) eqn:E.
  { exfalso. apply label_equal_spec in E. apply Nz. apply (f_equal label_put) in E.
    rewrite label_put_labelFromBytes in E; [done|rewrite length_take; lia|by apply Forall_take]. }
  unfold delta_choices in Eb. rewrite Eb.
  destruct (co_correct r1 (drop 16 r2) rest rest' setup bundle points _ (replicate BaseOTCount (label_zero, label_zero)) Eg Eb) as (Lp & _);
    [by rewrite length_map, length_seq, length_replicate|by apply Forall_replicate|].
  rewrite length_map, length_seq in Lp. rewrite Lp, Nat.ltb_irrefl. reflexivity.
Qed.

(** Both first steps having succeeded, the two finishing steps succeed, and the
    extension sender holds exactly the seeds its correlation selects. *)
Lemma base_ot_finish rngS rngR session ss m1 rs m2 :
  length session = 32%nat -> is_bytes rngS -> is_bytes rngR ->
  (forall s r', GenerateCOSenderSetup rngS = (Ok s, r') -> is_bytes r') ->
  fst (StartBaseOTSender (Some rngS) session) = Ok (ss, m1) ->
  fst (StartBaseOTReceiver (Some rngR) session m1) = Ok (rs, m2) ->
  exists m3 seeds selected delta,
    snd (FinishBaseOTSender (Some ss) m2) = Ok (m3, seeds) /\
    snd (FinishBaseOTReceiver (Some rs) m3) = Ok (selected, delta) /\
    base_related seeds selected delta /\ label_ok delta /\ delta <> label_zero /\
    validateBaseCipherForTranscript m3 session = Ok ().
Proof.
  intros Ls BS BR Hgen E1 E2.
  unfold StartBaseOTSender in E1. destruct (GenerateCOSenderSetup rngS) as [[setup| |] r1] eqn:Eg; [|done..].
  destruct (read_seeds BaseOTCount r1) as [[seeds| |] r1'] eqn:Es; [|done..].
  cbn [fst] in E1. apply Ok_pair in E1 as [<- <-].
  apply read_seeds_spec in Es as [Lseeds Hseeds]; [|by eapply Hgen].
  unfold StartBaseOTReceiver in E2.
  rewrite (pad_to_exact compressedP256PointSize) in E2 by apply marshal_length.
  destruct (frame_parts (str "BOS1") session (MarshalCompressed (setup_point setup)) eq_refl Ls) as (F1 & F2 & F3).
  rewrite F1, F2, F3, !bytes_eqb_refl, unmarshal_marshal in E2.
  rewrite !length_app, Ls, marshal_length in E2. cbn [negb orb] in E2.
  destruct (ReadFull rngR 16) as [[db r2]|] eqn:Er; [|done]. apply ReadFull_Some in Er as [Ldb ->].
  destruct (label_equal (labelFromBytes db) label_zero) eqn:Ed; [done|].
  set (delta := labelFromBytes db) in *.
  destruct (BuildCOChoices r2 (setup_point setup) (map (deltaBit delta) (seq 0 BaseOTCount)))
    as [[[bundle points]| |] r3] eqn:Eb; [|done..].
  destruct (co_correct rngS r2 r1 r3 setup bundle points (map (deltaBit delta) (seq 0 BaseOTCount)) (seed_wires seeds))
    as (Lp & cts & Eenc & Lct & Hct & Edec); [done|done|unfold seed_wires; by rewrite !length_map, length_seq| |].
  { unfold seed_wires. apply Forall_map. eapply Forall_impl; [exact Hseeds|]. intros p (? & ? & _). done. }
  rewrite length_map, length_seq in Lp, Lct.
  rewrite Lp, Nat.ltb_irrefl in E2. cbn [fst] in E2. apply Ok_pair in E2 as [<- <-].
  assert (Hmap : map (fun p => pad_to compressedP256PointSize (MarshalCompressed p)) points = map MarshalCompressed points).
  { apply map_ext. intros p. apply pad_to_exact, marshal_length. }
  rewrite Hmap. assert (Lpts : length (concat (map MarshalCompressed points)) = (BaseOTCount * compressedP256PointSize)%nat).
  { rewrite (length_concat_fixed _ compressedP256PointSize), Lp by (intros; apply marshal_length). done. }
  rewrite pad_to_exact by done.
  assert (Hcm : map (fun ct => pad_to 16 (fst ct) ++ pad_to 16 (snd ct)) cts = map (fun ct => fst ct ++ snd ct) cts).
  { apply map_ext_in. intros ct Hin. rewrite Forall_forall in Hct.
    destruct (Hct ct ltac:(by apply list_elem_of_In)) as [? ?]. by rewrite !pad_to_exact. }
  set (body := concat (map (fun ct => fst ct ++ snd ct) cts)).
  assert (Lbody : length body = (BaseOTCount * 32)%nat).
  { unfold body. rewrite (length_concat_fixed _ 32), Lct; [done|]. intros ct Hin.
    rewrite Forall_forall in Hct. destruct (Hct ct Hin). rewrite length_app. lia. }
  assert (Hod : label_ok delta).
  { apply labelFromBytes_ok; [done|]. by apply Forall_app in BR as [? _]. }
  assert (Hnz : delta <> label_zero).
  { intros E0. apply not_true_iff_false in Ed. apply Ed. by apply label_equal_spec. }
  exists (str "BOT1" ++ session ++ body), seeds,
    (zip_with (fun (c : bool) w => if c then snd w else fst w) (map (deltaBit delta) (seq 0 BaseOTCount)) (seed_wires seeds)), delta.
  destruct (frame_parts (str "BOC1") session (concat (map MarshalCompressed points)) eq_refl Ls) as (G1 & G2 & _).
  destruct (frame_parts (str "BOT1") session body eq_refl Ls) as (K1 & K2 & _).
  split_and!; [..| |done|done|].
  - unfold FinishBaseOTSender. cbn [bs_used bs_session bs_setup bs_seeds snd].
    rewrite G1, G2, !bytes_eqb_refl, !length_app, Ls, Lpts. cbn [negb orb].
    replace (length (str "BOC1") + (32 + BaseOTCount * compressedP256PointSize))%nat with baseChoiceMessageSize by done.
    rewrite Nat.eqb_refl. cbn [negb].
    assert (read_points BaseOTCount 36 (str "BOC1" ++ session ++ concat (map MarshalCompressed points)) = Ok points) as ->.
    { rewrite <- Lp, app_assoc. replace 36%nat with (length (str "BOC1" ++ session)) by (by rewrite length_app, Ls).
      apply read_points_concat. }
    cbn [mbind res_bind]. rewrite Eenc. cbn [mbind res_bind]. rewrite Lct, Nat.ltb_irrefl, Hcm. fold body.
    by rewrite pad_to_exact.
  - unfold FinishBaseOTReceiver. cbn [br_used br_session br_bundle br_delta snd].
    rewrite K1, K2, !bytes_eqb_refl, !length_app, Ls, Lbody. cbn [negb orb].
    replace (length (str "BOT1") + (32 + BaseOTCount * 32))%nat with baseCipherMessageSize by done.
    rewrite Nat.eqb_refl. cbn [negb].
    assert (read_ciphertexts BaseOTCount 36 (str "BOT1" ++ session ++ body) = cts) as ->.
    { rewrite <- Lct, app_assoc. replace 36%nat with (length (str "BOT1" ++ session)) by (by rewrite length_app, Ls).
      by apply read_ciphertexts_concat. }
    rewrite Edec. cbn [mbind res_bind]. rewrite length_zip_with, length_map, length_seq.
    unfold seed_wires. rewrite length_map, Lseeds, Nat.min_id, Nat.ltb_irrefl, Nat.sub_diag. cbn [replicate].
    by rewrite app_nil_r.
  - split_and!; [done|unfold seed_wires; rewrite length_zip_with, !length_map, length_seq, Lseeds; done|].
    intros col p Hp. pose proof (lookup_lt_Some _ _ _ Hp) as Hlt. rewrite Lseeds in Hlt.
    rewrite lookup_zip_with. unfold seed_wires. change (map ?f ?l) with (f <$> l).
    rewrite !list_lookup_fmap, lookup_seq_lt, Hp by done. cbn. by destruct (deltaBit delta col).
  - unfold validateBaseCipherForTranscript. rewrite K1, K2, !bytes_eqb_refl, !length_app, Ls, Lbody.
    replace (length (str "BOT1") + (32 + BaseOTCount * 32))%nat with baseCipherMessageSize by done.
    by rewrite Nat.eqb_refl.
Qed.

End Honest.

(** ** Base OTs deliver the selected seeds *)

(** when both parties have started, the remaining base-OT messages are
    accepted, and the extension sender ends with exactly the seed of every pair
    that its nonzero correlation selects; the ciphertext message is the one the
    extension transcript expects, and neither state can be finished twice. *)
Theorem base_ot_delivers_selected_seeds `{COLaws} rngS rngR session ss m1 rs m2 :
  length session = 32%nat -> is_bytes rngS -> is_bytes rngR ->
  (forall s r', GenerateCOSenderSetup rngS = (Ok s, r') -> is_bytes r') ->
  fst (StartBaseOTSender (Some rngS) session) = Ok (ss, m1) ->
  fst (StartBaseOTReceiver (Some rngR) session m1) = Ok (rs, m2) ->
  exists ss' rs' m3 seeds selected delta,
    FinishBaseOTSender (Some ss) m2 = (Some ss', Ok (m3, seeds)) /\
    FinishBaseOTReceiver (Some rs) m3 = (Some rs', Ok (selected, delta)) /\
    base_related seeds selected delta /\ delta <> label_zero /\
    validateBaseCipherForTranscript m3 session = Ok () /\
    (forall m, snd (FinishBaseOTSender (Some ss') m) = Err "mpc: base OT sender state already used") /\
    (forall m, snd (FinishBaseOTReceiver (Some rs') m) = Err "mpc: base OT receiver state already used").
Proof.
  intros Ls BS BR Hgen E1 E2.
  destruct (base_ot_finish rngS rngR session ss m1 rs m2)
    as (m3 & seeds & selected & delta & F1 & F2 & Hb & Od & Hd & Hm); [done..|].
  destruct (FinishBaseOTSender (Some ss) m2) as [ss' r1] eqn:Es.
  destruct (FinishBaseOTReceiver (Some rs) m3) as [rs' r2] eqn:Er. cbn [snd] in F1, F2. subst r1 r2.
  assert (Hs' : exists x, ss' = Some (mkBaseSender (zeros 32) zero_setup x true)).
  { unfold FinishBaseOTSender in Es. destruct (bs_used ss); [done|]. apply pair_equal_spec in Es as [<- _].
    by eexists. }
  assert (Hr' : rs' = Some (mkBaseReceiver (zeros 32) zero_bundle label_zero true)).
  { unfold FinishBaseOTReceiver in Er. destruct (br_used rs); [done|]. by apply pair_equal_spec in Er as [<- _]. }
  destruct Hs' as [x ->]. subst rs'.
  eexists _, _, m3, seeds, selected, delta. split_and!; [reflexivity|exact Er|done..].
Qed.

(** *** A transparent OT: the point is the choice itself *)

Definition plain_co : COLib.
Proof.
  refine {|
    ECPoint := bool; COSenderSetup := unit; COChoiceBundle := list bool;
    zero_setup := tt; zero_bundle := []; setup_point _ := true;
    GenerateCOSenderSetup rng := (Ok tt, rng);
    MarshalCompressed b := (if b : bool then 1 else 0) :: zeros 32;
    UnmarshalCompressed s := match s with b :: _ => Some (b =? 1) | [] => None end;
    BuildCOChoices rng _ choices := (Ok (choices, choices), rng);
    EncryptCOCiphertexts _ _ wires := Ok (map (fun w => (label_put (fst w), label_put (snd w))) wires);
    DecryptCOCiphertexts choices cts :=
      Ok (zip_with (fun (c : bool) ct => labelFromBytes (if c then snd ct else fst ct)) choices cts)
  |}.
Defined.

Lemma plain_decrypt choices wires :
  length wires = length choices -> Forall (fun w => label_ok (fst w) /\ label_ok (snd w)) wires ->
  zip_with (fun (c : bool) ct => labelFromBytes (if c then snd ct else fst ct)) choices
    (map (fun w => (label_put (fst w), label_put (snd w))) wires) =
  zip_with (fun (c : bool) w => if c then snd w else fst w) choices wires.
Proof.
  revert choices. induction wires as [|[z o] wires IH]; intros [|c choices] L Hok; try done.
  inversion Hok as [|? ? [Hz Ho] Hrest]; subst. cbn [map zip_with fst snd] in *.
  rewrite IH by (done || (cbn in L; lia)). f_equal. destruct c; by apply labelFromBytes_put.
Qed.

Definition plain_co_laws : @COLaws plain_co.
Proof.
  constructor.
  - intros []; reflexivity.
  - intros []; reflexivity.
  - intros rng1 rng2 rng1' rng2' setup bundle points choices wires _ E L Hok.
    cbn in E. injection E as <- <- _. split; [reflexivity|].
    eexists. split; [reflexivity|]. rewrite length_map. split; [exact L|]. split.
    + apply Forall_map, Forall_true. intros w. unfold compose. cbn [fst snd]. split; apply length_label_put.
    + cbn. f_equal. by apply plain_decrypt.
Defined.

Definition demo_session : bytes := zeros 32.
Definition demo_rngS : bytes := concat (replicate BaseOTCount (zeros 16 ++ replicate 16 1)).
Definition demo_rngR : bytes := replicate 16 170.

Lemma demo_rngS_bytes : is_bytes demo_rngS.
Proof.
  unfold demo_rngS. apply Forall_concat, Forall_replicate, Forall_app. split; [apply zeros_bytes|].
  apply Forall_replicate. unfold is_byte. lia.
Qed.

Lemma demo_rngR_bytes : is_bytes demo_rngR.
Proof. apply Forall_replicate. unfold is_byte. lia. Qed.

(** The two first messages of the transparent OT. *)
Definition demo_seeds : list BaseOTSeedPair :=
  replicate BaseOTCount (mkSeedPair label_zero (mkLabel 72340172838076673 72340172838076673)).
Definition demo_ss : @BaseOTSenderState plain_co := @mkBaseSender plain_co demo_session tt demo_seeds false.
Definition demo_m1 : bytes := str "BOS1" ++ demo_session ++ 1 :: zeros 32.
Definition demo_correlation : Label := mkLabel 12297829382473034410 12297829382473034410.
Definition demo_choices : list bool := map (deltaBit demo_correlation) (seq 0 BaseOTCount).
Definition demo_rs : @BaseOTReceiverState plain_co :=
  @mkBaseReceiver plain_co demo_session demo_choices demo_correlation false.
Definition demo_m2 : bytes :=
  str "BOC1" ++ demo_session ++ concat (map (fun b : bool => (if b then 1 else 0) :: zeros 32) demo_choices).

Lemma demo_read_seeds : read_seeds BaseOTCount demo_rngS = (Ok demo_seeds, []).
Proof. vm_compute. reflexivity. Qed.

Lemma demo_start_sender : fst (@StartBaseOTSender plain_co (Some demo_rngS) demo_session) = Ok (demo_ss, demo_m1).
Proof.
  unfold StartBaseOTSender. cbn [GenerateCOSenderSetup plain_co]. rewrite demo_read_seeds.
  cbn [fst setup_point MarshalCompressed plain_co].
  rewrite (pad_to_exact compressedP256PointSize (1 :: zeros 32)) by reflexivity. reflexivity.
Qed.

Lemma demo_start_receiver :
  fst (@StartBaseOTReceiver plain_co (Some demo_rngR) demo_session demo_m1) = Ok (demo_rs, demo_m2).
Proof.
  unfold StartBaseOTReceiver.
  replace (negb (length demo_m1 =? baseSetupMessageSize)%nat || negb (bytes_eqb (take 4 demo_m1) (str "BOS1")))
    with false by (vm_compute; reflexivity).
  replace (negb (bytes_eqb (slice demo_m1 4 36) demo_session)) with false by (vm_compute; reflexivity).
  replace (drop 36 demo_m1) with (1 :: zeros 32) by (vm_compute; reflexivity).
  replace (ReadFull demo_rngR 16) with (Some (demo_rngR, @nil Z)) by (vm_compute; reflexivity).
  cbn [UnmarshalCompressed BuildCOChoices MarshalCompressed plain_co].
  replace (labelFromBytes demo_rngR) with demo_correlation by (vm_compute; reflexivity).
  replace (label_equal demo_correlation label_zero) with false by (vm_compute; reflexivity).
  fold demo_choices.
  replace (BaseOTCount <? length demo_choices)%nat with false by (vm_compute; reflexivity).
  cbn [fst]. f_equal.
Qed.

Lemma demo_generate s r' : @GenerateCOSenderSetup plain_co demo_rngS = (Ok s, r') -> is_bytes r'.
Proof. intros E. apply pair_equal_spec in E as [_ <-]. exact demo_rngS_bytes. Qed.

Lemma base_ot_delivers_selected_seeds_witness :
  exists seeds selected delta, base_related seeds selected delta /\ delta <> label_zero.
Proof.
  destruct (@base_ot_delivers_selected_seeds plain_co plain_co_laws demo_rngS demo_rngR demo_session
      demo_ss demo_m1 demo_rs demo_m2 (length_replicate 32 0) demo_rngS_bytes demo_rngR_bytes demo_generate
      demo_start_sender demo_start_receiver)
    as (ss' & rs' & m3 & seeds & selected & delta & _ & _ & Hb & Hd & _).
  exists seeds, selected, delta. split; [exact Hb|exact Hd].
Defined.
