(* ===== verification/Wire.v ===== *)
(** * Wire formats ([mpc/wire.go], [mpc/serialize.go],
      [mpc/ot_extension_serialize.go], [mpc/precompute_wire.go])

    Every message has an encoder and a strict decoder.  The interface [Codec]
    states what the protocol handlers rely on: a well-formed value decodes to
    itself, and only the canonical encoding of a value is accepted (no trailing
    bytes, no alternative version, no inconsistent length).  Each format is an
    instance. *)

From S2P Require Import Prelude Bytes Label Transpose Crypto Circuit Oprf SenderPool OtExtension BaseOt.

(** ** The interface *)

Class Codec (A : Type) := {
  encode : A -> res bytes;
  decode : bytes -> res A;
  wire_wf : A -> Prop;
}.

Class CodecLaws (A : Type) `{Codec A} := {
  decode_encode x : wire_wf x -> exists d, encode x = Ok d /\ is_bytes d /\ decode d = Ok x;
  encode_decode d x : is_bytes d -> decode d = Ok x -> wire_wf x /\ encode x = Ok d;
}.

Section CodecFacts.
Context `{CodecLaws A}.

(** Two values with the same encoding are equal. *)
Lemma encode_inj x y d : wire_wf x -> wire_wf y -> encode x = Ok d -> encode y = Ok d -> x = y.
Proof.
  intros (dx & Ex & _ & Dx)%decode_encode (dy & Ey & _ & Dy)%decode_encode E1 E2. congruence.
Qed.

(** A value has one accepted encoding. *)
Lemma decode_inj x d d' : is_bytes d -> is_bytes d' -> decode d = Ok x -> decode d' = Ok x -> d = d'.
Proof.
  intros B B' [_ E]%encode_decode [_ E']%encode_decode; [congruence|done..].
Qed.

(** Strict decoding: a byte string is accepted exactly when it is the encoding of
    a well-formed value, and decodes to that value. *)
Lemma decode_iff d x : is_bytes d -> decode d = Ok x <-> wire_wf x /\ encode x = Ok d.
Proof.
  intros B. split; [by apply encode_decode|]. intros [Hwf E].
  destruct (decode_encode x Hwf) as (d' & E' & _ & D). rewrite E in E'. by apply (inj Ok) in E' as <-.
Qed.
End CodecFacts.

(** ** Sequences of labels *)

Definition put_labels (ls : list Label) : bytes := concat (map label_put ls).

Fixpoint get_labels (n off : nat) (data : bytes) : list Label :=
  match n with
  | O => []
  | S n => labelFromBytes (slice data off (off + 16)) :: get_labels n (off + 16) data
  end.

Lemma length_put_labels ls : length (put_labels ls) = (16 * length ls)%nat.
Proof.
  unfold put_labels. induction ls as [|l ls IH]; [done|].
  cbn [map concat length]. rewrite length_app, length_label_put, IH. lia.
Qed.

Lemma put_labels_bytes ls : is_bytes (put_labels ls).
Proof.
  unfold put_labels. induction ls; [constructor|]. apply Forall_app. split; [apply label_put_bytes|done].
Qed.

Lemma length_get_labels n off data : length (get_labels n off data) = n.
Proof. revert off. induction n as [|n IH]; intros off; [done|]. cbn. by rewrite IH. Qed.

Lemma get_put_labels ls : forall pre post, Forall label_ok ls ->
  get_labels (length ls) (length pre) (pre ++ put_labels ls ++ post) = ls.
Proof.
  unfold put_labels. induction ls as [|l ls IH]; intros pre post Hok; [done|].
  inversion Hok; subst. cbn [length get_labels map concat]. f_equal.
  - rewrite slice_app_skip by lia. rewrite Nat.sub_diag, <- app_assoc.
    replace (length pre + 16 - length pre)%nat with 16%nat by lia.
    rewrite slice_app_hit by apply length_label_put. by apply labelFromBytes_put.
  - rewrite <- app_assoc, (app_assoc pre).
    replace (length pre + 16)%nat with (length (pre ++ label_put l)) by (rewrite length_app, length_label_put; lia).
    by apply IH.
Qed.

Lemma put_get_labels n off data : is_bytes data -> (off + 16 * n <= length data)%nat ->
  put_labels (get_labels n off data) = slice data off (off + 16 * n) /\ Forall label_ok (get_labels n off data).
Proof.
  intros Hb. revert off. induction n as [|n IH]; intros off Hl.
  { split; [|constructor]. unfold slice. replace (off + 16 * 0 - off)%nat with 0%nat by lia. done. }
  destruct (IH (off + 16)%nat) as [E Hok]; [lia|]. cbn [get_labels].
  unfold put_labels in *. cbn [map concat]. rewrite E.
  assert (L : length (slice data off (off + 16)) = 16%nat) by (rewrite length_slice; lia).
  assert (B : is_bytes (slice data off (off + 16))) by (by apply slice_forall). split.
  - rewrite label_put_labelFromBytes by done. rewrite slice_glue by lia. f_equal. lia.
  - constructor; [by apply labelFromBytes_ok|done].
Qed.

Lemma get_labels_ext n off data data' off' :
  (forall i, (i < 16 * n)%nat -> data !! (off + i)%nat = data' !! (off' + i)%nat) ->
  get_labels n off data = get_labels n off' data'.
Proof.
  revert off off'. induction n as [|n IH]; intros off off' Hl; [done|]. cbn [get_labels]. f_equal.
  - f_equal. unfold slice. apply list_eq. intros i.
    destruct (decide (i < 16)%nat) as [Hi|Hi].
    + rewrite !lookup_take_lt, !lookup_drop by lia. apply Hl. lia.
    + rewrite !(proj2 (lookup_ge_None _ _)); [done|rewrite length_take; lia..].
  - apply IH. intros i Hi. rewrite <- !Nat.add_assoc. apply Hl. lia.
Qed.

(** ** Fields of a frame *)

(** [len] evaluates the lengths of the parts of a frame. *)
Ltac len :=
  rewrite ?length_app, ?length_be_put, ?length_put_labels, ?length_label_put;
  repeat match goal with
  | |- context [length (str ?s)] =>
      let n := eval vm_compute in (length (str s)) in change (length (str s)) with n
  end;
  unfold compressedP256PointSize, BaseOTCount in *; lia.

(** [field] reads one field out of a frame that is a concatenation of parts. *)
Ltac field :=
  repeat rewrite slice_app_skip by len;
  match goal with
  | |- context [slice (?l ++ _) ?a ?b] => replace a with 0%nat by len; rewrite (slice_app_hit l) by len
  | |- context [slice ?l ?a ?b] => replace a with 0%nat by len; rewrite (slice_all l) by len
  end.

#[export] Hint Resolve str_bytes put_labels_bytes : word.

Ltac bytes_tac := repeat (apply Forall_app; split); auto with word.

(** [guards H] turns the accepted guards of a decoder into facts. *)
Ltac guards H :=
  repeat match type of H with
  | (if ?c then Err _ else _) = Ok _ =>
      let E := fresh "G" in destruct c eqn:E; [discriminate H|];
      rewrite ?orb_false_iff, ?negb_false_iff, ?bytes_eqb_spec, ?Nat.eqb_eq, ?Z.eqb_eq,
        ?Nat.ltb_ge, ?Z.ltb_ge, ?Z.leb_gt in E
  end.

(** ** Choice corrections *)

Definition MarshalChoiceCorrections (corrections : list bool) : res bytes :=
  fail_if (negb (length corrections =? InputBits)%nat) "mpc: need choice corrections";;
  bitsToBytes corrections (InputBits / 8).

Definition UnmarshalChoiceCorrections (data : bytes) : res (list bool) :=
  fail_if (negb (length data =? InputBits / 8)%nat) "mpc: choice correction length";;
  Ok (bytesToBits data).

#[export] Instance corrections_codec : Codec (list bool) := {|
  encode := MarshalChoiceCorrections;
  decode := UnmarshalChoiceCorrections;
  wire_wf l := length l = InputBits;
|}.

#[export] Instance corrections_laws : CodecLaws (list bool).
Proof.
  split.
  - intros l Hl. cbn [wire_wf corrections_codec] in Hl. cbn [encode decode corrections_codec].
    unfold MarshalChoiceCorrections, UnmarshalChoiceCorrections. rewrite Hl, Nat.eqb_refl. cbn [negb].
    destruct (bitsToBytes_spec l (InputBits / 8)) as (d & -> & L & B & E); [rewrite Hl; done|].
    exists d. split_and!; [done..|]. by rewrite L, Nat.eqb_refl, E.
  - intros d l B E. cbn [wire_wf encode decode corrections_codec] in *.
    unfold MarshalChoiceCorrections, UnmarshalChoiceCorrections in *. guards E. injection E as <-.
    assert (L : length (bytesToBits d) = InputBits) by (rewrite length_bytesToBits, G; done).
    split; [done|]. rewrite L, Nat.eqb_refl. cbn [negb]. rewrite <- G. by apply bitsToBytes_bytesToBits.
Qed.

(** ** OT masks *)

Definition mask_put (m : OTMask) : bytes := label_put (M0 m) ++ label_put (M1 m).

Definition MarshalOTMasks (masks : list OTMask) : res bytes :=
  fail_if (negb (length masks =? InputBits)%nat) "mpc: need OT masks";;
  Ok (be_put 4 (u32 (Z.of_nat (length masks))) ++ concat (map mask_put masks)).

Fixpoint get_masks (n off : nat) (data : bytes) : list OTMask :=
  match n with
  | O => []
  | S n => mkOTMask (labelFromBytes (slice data off (off + 16)))
                    (labelFromBytes (slice data (off + 16) (off + 32))) :: get_masks n (off + 32) data
  end.

Definition UnmarshalOTMasks (data : bytes) : res (list OTMask) :=
  fail_if ((length data <? 4)%nat) "mpc: OT mask encoding is too short";;
  let count := be_get (slice data 0 4) in
  fail_if (negb (count =? Z.of_nat InputBits) || negb (Z.of_nat (length data) =? 4 + count * 32))
    "mpc: invalid OT mask encoding length";;
  Ok (get_masks (Z.to_nat count) 4 data).

Definition mask_labels (masks : list OTMask) : list Label := flat_map (fun m => [M0 m; M1 m]) masks.

Lemma length_mask_labels ms : length (mask_labels ms) = (2 * length ms)%nat.
Proof. unfold mask_labels. induction ms as [|m ms IH]; [done|]. cbn. rewrite IH. lia. Qed.

Lemma mask_labels_inj ms ms' : mask_labels ms = mask_labels ms' -> ms = ms'.
Proof.
  revert ms'. induction ms as [|[a b] ms IH]; intros [|[a' b'] ms'] E; try done.
  injection E as -> -> E. f_equal. by apply IH.
Qed.

Lemma put_masks_labels ms : concat (map mask_put ms) = put_labels (mask_labels ms).
Proof.
  unfold mask_labels, put_labels. induction ms as [|m ms IH]; [done|].
  cbn [map concat flat_map app]. rewrite IH. unfold mask_put. by rewrite app_assoc.
Qed.

Lemma get_masks_labels n off data : mask_labels (get_masks n off data) = get_labels (2 * n) off data.
Proof.
  revert off. induction n as [|n IH]; intros off; [done|].
  replace (2 * S n)%nat with (S (S (2 * n))) by lia.
  unfold mask_labels in *. cbn [get_masks flat_map app get_labels M0 M1]. rewrite IH.
  by replace (off + 16 + 16)%nat with (off + 32)%nat by lia.
Qed.

#[export] Instance masks_codec : Codec (list OTMask) := {|
  encode := MarshalOTMasks;
  decode := UnmarshalOTMasks;
  wire_wf ms := length ms = InputBits /\ Forall label_ok (mask_labels ms);
|}.

(** A count of at most [2^32 - 1] survives its encoding. *)
Lemma be_count n : 0 <= Z.of_nat n < 2 ^ 32 -> be_get (be_put 4 (u32 (Z.of_nat n))) = Z.of_nat n.
Proof. intros H. unfold u32. rewrite Z.mod_small by done. by apply be_get_put4. Qed.

Lemma be_put_count data a b z : length (slice data a b) = 4%nat -> is_bytes data ->
  be_get (slice data a b) = z -> be_put 4 (u32 z) = slice data a b.
Proof.
  intros L B <-. unfold u32. pose proof (be_get4_u32 _ L (slice_forall _ _ a b B)) as H.
  rewrite Z.mod_small by done. apply be_put_get; [done|by apply slice_forall].
Qed.

#[export] Instance masks_laws : CodecLaws (list OTMask).
Proof.
  split.
  - intros ms [L Hok]. cbn [encode decode masks_codec]. unfold MarshalOTMasks, UnmarshalOTMasks.
    rewrite L, Nat.eqb_refl, put_masks_labels. cbn [negb]. eexists. split; [done|].
    split; [bytes_tac|].
    rewrite (slice_app_hit (be_put 4 _)), be_count by (rewrite ?length_be_put; done || lia).
    rewrite !length_app, length_be_put, length_put_labels, length_mask_labels, L, Z.eqb_refl.
    assert ((4 + 16 * (2 * InputBits) <? 4)%nat = false) as -> by reflexivity.
    replace (Z.of_nat (4 + 16 * (2 * InputBits))) with (4 + Z.of_nat InputBits * 32) by lia.
    rewrite Z.eqb_refl. cbn [negb orb]. f_equal.
    apply mask_labels_inj. rewrite get_masks_labels, Nat2Z.id, <- L, <- length_mask_labels.
    rewrite <- (app_nil_r (put_labels (mask_labels ms))). by apply (get_put_labels _ (be_put 4 _)).
  - intros d ms B E. cbn [wire_wf encode decode masks_codec] in *. unfold MarshalOTMasks, UnmarshalOTMasks in *.
    guards E. injection E as <-. destruct G0 as [Gc Gl]. rewrite Gc in *. rewrite Nat2Z.id in *.
    destruct (put_get_labels (2 * InputBits) 4 d) as [E Hok]; [done|lia|].
    assert (Lm : length (get_masks InputBits 4 d) = InputBits).
    { pose proof (get_masks_labels InputBits 4 d) as Em. apply (f_equal length) in Em.
      rewrite length_mask_labels, length_get_labels in Em. lia. }
    rewrite get_masks_labels, Lm, Nat.eqb_refl. cbn [negb]. split; [done|].
    rewrite put_masks_labels, get_masks_labels, E.
    rewrite (be_put_count d 0 4) by (rewrite ?length_slice; done || lia).
    rewrite slice_glue by lia. f_equal. apply slice_all. lia.
Qed.

(** ** Output labels *)

Definition MarshalOutputLabels (labels : list Label) : res bytes :=
  fail_if (negb (length labels =? OutputBits)%nat) "mpc: need output labels";;
  Ok (be_put 4 (u32 (Z.of_nat (length labels))) ++ put_labels labels).

Definition UnmarshalOutputLabels (data : bytes) : res (list Label) :=
  fail_if ((length data <? 4)%nat) "mpc: output label encoding is too short";;
  let count := be_get (slice data 0 4) in
  fail_if (negb (count =? Z.of_nat OutputBits) || negb (Z.of_nat (length data) =? 4 + count * 16))
    "mpc: invalid output label encoding length";;
  Ok (get_labels (Z.to_nat count) 4 data).

#[export] Instance labels_codec : Codec (list Label) := {|
  encode := MarshalOutputLabels;
  decode := UnmarshalOutputLabels;
  wire_wf ls := length ls = OutputBits /\ Forall label_ok ls;
|}.

#[export] Instance labels_laws : CodecLaws (list Label).
Proof.
  split.
  - intros ls [L Hok]. cbn [encode decode labels_codec]. unfold MarshalOutputLabels, UnmarshalOutputLabels.
    rewrite L, Nat.eqb_refl. cbn [negb]. eexists. split; [done|]. split; [bytes_tac|].
    rewrite (slice_app_hit (be_put 4 _)), be_count by (rewrite ?length_be_put; done || lia).
    rewrite !length_app, length_be_put, length_put_labels, L, Z.eqb_refl.
    assert ((4 + 16 * OutputBits <? 4)%nat = false) as -> by reflexivity.
    replace (Z.of_nat (4 + 16 * OutputBits)) with (4 + Z.of_nat OutputBits * 16) by lia.
    rewrite Z.eqb_refl. cbn [negb orb]. f_equal.
    rewrite Nat2Z.id, <- L. rewrite <- (app_nil_r (put_labels ls)). by apply (get_put_labels _ (be_put 4 _)).
  - intros d ls B E. cbn [wire_wf encode decode labels_codec] in *. unfold MarshalOutputLabels, UnmarshalOutputLabels in *.
    guards E. injection E as <-. destruct G0 as [Gc Gl]. rewrite Gc in *. rewrite Nat2Z.id in *.
    destruct (put_get_labels OutputBits 4 d) as [E Hok]; [done|lia|].
    rewrite length_get_labels, Nat.eqb_refl. cbn [negb]. split; [done|]. rewrite E.
    rewrite (be_put_count d 0 4) by (rewrite ?length_slice; done || lia).
    rewrite slice_glue by lia. f_equal. apply slice_all. lia.
Qed.

(** ** The online payload *)

Definition payloadHeaderSize : nat := 4 + 8 + 16 + 8 + 4.

Section Payload.
Context (compiled : res markCircuit).

Definition MarshalOnlinePayload (p : option OnlinePayload) : res bytes :=
  match p with
  | None => Err "mpc: nil online payload"
  | Some p =>
      e ← defaultEngine compiled;
      fail_if (negb (Z.of_nat (length (Tables p)) =? tableCount e)) "mpc: table count";;
      fail_if (negb (length (GarblerInputs p) =? InputBits)%nat) "mpc: garbler input count";;
      Ok (str "MPC1" ++ be_put 8 (pSessionID p) ++ Key p ++ be_put 8 (OTStartIndex p)
          ++ be_put 4 (u32 (Z.of_nat (length (Tables p)))) ++ put_labels (Tables p)
          ++ put_labels (GarblerInputs p) ++ OutputTranslations p)
  end.

Definition UnmarshalOnlinePayload (data : bytes) : res OnlinePayload :=
  e ← defaultEngine compiled;
  fail_if ((length data <? payloadHeaderSize)%nat) "mpc: online payload is too short";;
  fail_if (negb (bytes_eqb (slice data 0 4) (str "MPC1"))) "mpc: unsupported online payload version";;
  let count := be_get (slice data 36 40) in
  fail_if (negb (count =? tableCount e)) "mpc: table count";;
  let expected := Z.of_nat payloadHeaderSize + count * 16 + Z.of_nat InputBits * 16 + Z.of_nat OutputBits / 8 in
  fail_if (negb (Z.of_nat (length data) =? expected)) "mpc: online payload length";;
  let n := Z.to_nat count in
  Ok (mkPayload (be_get (slice data 4 12)) (slice data 12 28)
        (get_labels n payloadHeaderSize data)
        (get_labels InputBits (payloadHeaderSize + 16 * n) data)
        (drop (payloadHeaderSize + 16 * n + 16 * InputBits) data)
        (be_get (slice data 28 36)) None).

Definition OnlinePayloadSize : res Z :=
  e ← defaultEngine compiled;
  Ok (Z.of_nat payloadHeaderSize + tableCount e * 16 + Z.of_nat InputBits * 16 + Z.of_nat OutputBits / 8).

End Payload.

Section PayloadLaws.
Context (compiled : res markCircuit) (e : engine).
Hypothesis engine_is : defaultEngine compiled = Ok e.
Hypothesis tables_fit : 0 <= tableCount e < 2 ^ 32.

Definition payload_wf (p : OnlinePayload) : Prop :=
  is_u64 (pSessionID p) /\ is_u64 (OTStartIndex p) /\
  length (Key p) = 16%nat /\ is_bytes (Key p) /\
  Z.of_nat (length (Tables p)) = tableCount e /\ Forall label_ok (Tables p) /\
  length (GarblerInputs p) = InputBits /\ Forall label_ok (GarblerInputs p) /\
  length (OutputTranslations p) = 16%nat /\ is_bytes (OutputTranslations p) /\ p_garbled p = None.

Definition payload_codec : Codec OnlinePayload := {|
  encode p := MarshalOnlinePayload compiled (Some p);
  decode := UnmarshalOnlinePayload compiled;
  wire_wf := payload_wf;
|}.

Lemma payload_decode_encode p : payload_wf p ->
  exists d, MarshalOnlinePayload compiled (Some p) = Ok d /\ is_bytes d /\
    UnmarshalOnlinePayload compiled d = Ok p /\
    OnlinePayloadSize compiled = Ok (Z.of_nat (length d)).
Proof.
  intros (Hs & Ho & Lk & Bk & Lt & Ot & Lg & Og & Ltr & Btr & Hn).
  unfold MarshalOnlinePayload, UnmarshalOnlinePayload, OnlinePayloadSize. rewrite engine_is. cbn [mbind res_bind].
  rewrite <- Lt in *. clear Lt. rewrite Z.eqb_refl, Lg, Nat.eqb_refl. cbn [negb].
  eexists. split; [done|]. split; [bytes_tac|].
  set (nt := length (Tables p)) in *. set (d := str "MPC1" ++ _).
  assert (Ld : length d = (payloadHeaderSize + 16 * nt + 16 * InputBits + 16)%nat).
  { unfold d. rewrite !length_app, !length_be_put, !length_put_labels, Lk, Lg, Ltr. fold nt.
    change (length (str "MPC1")) with 4%nat. unfold payloadHeaderSize. lia. }
  unfold payloadHeaderSize in *. assert (EO : Z.of_nat OutputBits / 8 = 16) by reflexivity.
  split; [|rewrite Ld, EO; f_equal; lia].
  rewrite Ld. rewrite (proj2 (Nat.ltb_ge _ (4 + 8 + 16 + 8 + 4))) by lia.
  assert (slice d 0 4 = str "MPC1") as -> by (unfold d; by field).
  rewrite bytes_eqb_refl. cbn [negb].
  assert (slice d 36 40 = be_put 4 (u32 (Z.of_nat nt))) as -> by (unfold d; by field).
  rewrite be_count, Z.eqb_refl by done. cbn [negb]. rewrite EO.
  assert (Eg : (Z.of_nat (4 + 8 + 16 + 8 + 4 + 16 * nt + 16 * InputBits + 16) =?
    Z.of_nat (4 + 8 + 16 + 8 + 4) + Z.of_nat nt * 16 + Z.of_nat InputBits * 16 + 16) = true) by (apply Z.eqb_eq; lia).
  rewrite Eg. cbn [negb]. f_equal. rewrite Nat2Z.id.
  destruct p as [sid key ts gi tr ost gb]. cbn [pSessionID Key Tables GarblerInputs OutputTranslations OTStartIndex p_garbled] in *.
  subst gb. f_equal.
  - replace (slice d 4 12) with (be_put 8 sid) by (unfold d; by field). by apply be_get_put8.
  - unfold d. by field.
  - unfold d. rewrite !app_assoc. rewrite <- (app_assoc _ (put_labels gi)), <- (app_assoc _ (put_labels ts)).
    unfold nt. replace (4 + 8 + 16 + 8 + 4)%nat with (length ((((str "MPC1" ++ be_put 8 sid) ++ key) ++ be_put 8 ost) ++ be_put 4 (u32 (Z.of_nat nt)))).
    + by apply get_put_labels.
    + rewrite !length_app, !length_be_put, Lk. done.
  - unfold d. rewrite !app_assoc. rewrite <- (app_assoc _ (put_labels gi)).
    replace (4 + 8 + 16 + 8 + 4 + 16 * nt)%nat with (length (((((str "MPC1" ++ be_put 8 sid) ++ key) ++ be_put 8 ost) ++ be_put 4 (u32 (Z.of_nat nt))) ++ put_labels ts)).
    + rewrite <- Lg. by apply get_put_labels.
    + rewrite !length_app, !length_be_put, Lk, length_put_labels. fold nt. change (length (str "MPC1")) with 4%nat. lia.
  - unfold d. rewrite !app_assoc. apply drop_app_length'.
    rewrite !length_app, !length_be_put, Lk, !length_put_labels, Lg. fold nt. change (length (str "MPC1")) with 4%nat. lia.
  - replace (slice d 28 36) with (be_put 8 ost) by (unfold d; by field). by apply be_get_put8.
Qed.

Lemma payload_encode_decode d p : is_bytes d -> UnmarshalOnlinePayload compiled d = Ok p ->
  payload_wf p /\ MarshalOnlinePayload compiled (Some p) = Ok d.
Proof.
  intros B E. unfold MarshalOnlinePayload, UnmarshalOnlinePayload in *. rewrite engine_is in *.
  cbn [mbind res_bind] in *. guards E. apply (inj Ok) in E as <-.
  set (c := be_get (slice d 36 40)) in *. assert (EO : Z.of_nat OutputBits / 8 = 16) by reflexivity.
  rewrite EO in G2. unfold payloadHeaderSize in *.
  assert (Lc : length (slice d 36 40) = 4%nat) by (rewrite length_slice; lia).
  pose proof (be_get4_u32 _ Lc (slice_forall _ _ _ _ B)) as Hc. fold c in Hc.
  set (n := Z.to_nat c) in *. assert (En : c = Z.of_nat n) by (unfold n, is_u32 in *; lia).
  destruct (put_get_labels n 40 d) as [ET OT]; [done|lia|].
  destruct (put_get_labels InputBits (40 + 16 * n) d) as [EG OG]; [done|lia|].
  split.
  - unfold payload_wf. cbn [pSessionID Key Tables GarblerInputs OutputTranslations OTStartIndex p_garbled].
    rewrite !length_get_labels, length_drop, length_slice by lia.
    split_and!; try done; try (by apply slice_forall); try (by apply Forall_drop); try lia;
      apply be_get8_u64; try (by apply slice_forall); rewrite length_slice; lia.
  - cbn [pSessionID Key Tables GarblerInputs OutputTranslations OTStartIndex].
    rewrite !length_get_labels, <- En, G1, Z.eqb_refl, Nat.eqb_refl. cbn [negb].
    change (4 + 8 + 16 + 8 + 4)%nat with 40%nat. rewrite ET, EG, <- G1, <- G0.
    rewrite !be_put_get by (by apply slice_forall || (rewrite length_slice; lia)).
    rewrite (be_put_count d 36 40) by (done || lia). rewrite !app_assoc, !slice_glue by lia.
    rewrite slice_glue_drop by lia. done.
Qed.

Definition payload_laws : @CodecLaws OnlinePayload payload_codec.
Proof.
  split.
  - intros p Hp. destruct (payload_decode_encode p Hp) as (d & ? & ? & ? & _). by exists d.
  - exact payload_encode_decode.
Defined.

End PayloadLaws.

(** ** Strictness of the online formats *)

(** the online payload's wire format. A byte string is accepted exactly when
    it is the encoding of a well-formed payload (right table and label counts,
    right total length, right version), and it then decodes to that payload, so
    decoding inverts encoding and no other byte string is accepted. *)
Theorem payload_decoding_is_strict compiled e d p :
  defaultEngine compiled = Ok e -> 0 <= tableCount e < 2 ^ 32 -> is_bytes d ->
  UnmarshalOnlinePayload compiled d = Ok p <->
  payload_wf e p /\ MarshalOnlinePayload compiled (Some p) = Ok d.
Proof.
  intros He Ht B.
  exact (@decode_iff OnlinePayload (payload_codec compiled e) (payload_laws compiled e He Ht) d p B).
Qed.

(** A payload of the circuit without tables. *)
Definition demo_payload : OnlinePayload :=
  mkPayload 11 (zeros 16) [] (replicate InputBits (mkLabel 1 2)) (zeros 16) 640 None.

Lemma demo_payload_wf : payload_wf xor_engine demo_payload.
Proof.
  unfold payload_wf, demo_payload. cbn [pSessionID Key Tables GarblerInputs OutputTranslations OTStartIndex p_garbled].
  split_and!; try (by apply length_replicate); try apply zeros_bytes; try done.
  apply Forall_replicate. vm_compute. repeat split; try discriminate; reflexivity.
Qed.

Lemma payload_decoding_is_strict_witness :
  exists d, MarshalOnlinePayload (Ok xor_circuit) (Some demo_payload) = Ok d /\
    UnmarshalOnlinePayload (Ok xor_circuit) d = Ok demo_payload.
Proof.
  destruct (payload_decode_encode (Ok xor_circuit) xor_engine xor_engine_new
    ltac:(vm_compute; split; [discriminate|reflexivity]) demo_payload demo_payload_wf) as (d & Em & B & _).
  exists d. split; [exact Em|].
  apply (payload_decoding_is_strict (Ok xor_circuit) xor_engine d demo_payload).
  - exact xor_engine_new.
  - vm_compute. split; [discriminate|reflexivity].
  - exact B.
  - split; [exact demo_payload_wf|exact Em].
Defined.

(** the three other online messages (choice corrections, masked labels,
    output labels) are decoded strictly: exactly the encodings of values of the
    protocol's fixed sizes are accepted, each decoding to the value encoded. *)
Theorem online_messages_decoding_is_strict d cs ms ls :
  is_bytes d ->
  (UnmarshalChoiceCorrections d = Ok cs <->
     length cs = InputBits /\ MarshalChoiceCorrections cs = Ok d) /\
  (UnmarshalOTMasks d = Ok ms <->
     (length ms = InputBits /\ Forall label_ok (mask_labels ms)) /\ MarshalOTMasks ms = Ok d) /\
  (UnmarshalOutputLabels d = Ok ls <->
     (length ls = OutputBits /\ Forall label_ok ls) /\ MarshalOutputLabels ls = Ok d).
Proof.
  intros B. split_and!.
  - exact (decode_iff (A := list bool) d cs B).
  - exact (decode_iff (A := list OTMask) d ms B).
  - exact (decode_iff (A := list Label) d ls B).
Qed.

Lemma online_messages_decoding_is_strict_witness :
  UnmarshalChoiceCorrections (replicate 80 255) = Ok (replicate InputBits true) /\
  MarshalChoiceCorrections (replicate InputBits true) = Ok (replicate 80 255).
Proof.
  assert (E : UnmarshalChoiceCorrections (replicate 80 255) = Ok (replicate InputBits true))
    by (vm_compute; reflexivity).
  split; [exact E|].
  apply (online_messages_decoding_is_strict (replicate 80 255) (replicate InputBits true) [] []); [|exact E].
  apply Forall_replicate. unfold is_byte. lia.
Defined.
