(* ===== verification/ExtensionWire.v ===== *)
(** * Wire formats of the OT extension ([mpc/ot_extension_serialize.go],
      [mpc/precompute_wire.go])

    Commitment, challenge and proof frames, the framing of the precompute
    exchange, epochs and the size bounds that production handlers check before
    they decode. *)

From S2P Require Import Prelude Bytes Label Transpose Crypto Circuit Oprf SenderPool OtExtension BaseOt Wire.

Definition extensionCommitmentHeaderSize : nat := 4 + 32 + 8 + 4 + 4 + 32 + 32.
Definition extensionChallengeHeaderSize : nat := 4 + 32 + 32 + 32 + 4.
Definition extensionProofSize : nat := 4 + 32 + 32 + 16 + BaseOTCount * 16.

(** ** Commitment *)

Definition MarshalExtensionCommitment (c : option ExtensionCommitment) : res bytes :=
  match c with
  | None => Err "mpc: nil OT extension commitment"
  | Some c =>
      padded ← extensionPaddedCount (Count c);
      fail_if (negb (PaddedCount c =? padded)) "mpc: padded OT count";;
      _ ← checkedIndexEnd (StartIndex c) (Count c);
      fail_if (negb (Z.of_nat (length (U c)) =? Z.quot (Z.of_nat BaseOTCount * padded) 8))
        "mpc: OT extension matrix length";;
      Ok (str "KOC2" ++ cSessionID c ++ be_put 8 (StartIndex c) ++ be_put 4 (Count c)
          ++ be_put 4 (PaddedCount c) ++ EpochHash c ++ cTranscript c ++ U c)
  end.

Definition UnmarshalExtensionCommitment (data : bytes) : res ExtensionCommitment :=
  fail_if ((length data <? extensionCommitmentHeaderSize)%nat) "mpc: OT extension commitment is too short";;
  fail_if (negb (bytes_eqb (slice data 0 4) (str "KOC2"))) "mpc: unsupported OT extension commitment version";;
  let count := be_get (slice data 44 48) in
  padded ← extensionPaddedCount count;
  let encodedPadded := be_get (slice data 48 52) in
  fail_if (negb (encodedPadded =? padded)) "mpc: padded OT count";;
  let startIndex := be_get (slice data 36 44) in
  _ ← checkedIndexEnd startIndex count;
  let wantLen := u64 (Z.of_nat extensionCommitmentHeaderSize + Z.of_nat BaseOTCount * padded / 8) in
  fail_if (negb (Z.of_nat (length data) =? wantLen)) "mpc: OT extension commitment length";;
  Ok (mkCommitment (slice data 4 36) startIndex (u32 count) (u32 padded) (slice data 52 84)
        (slice data 84 116) (drop 116 data)).

#[export] Instance commitment_codec : Codec ExtensionCommitment := {|
  encode c := MarshalExtensionCommitment (Some c);
  decode := UnmarshalExtensionCommitment;
  wire_wf c :=
    length (cSessionID c) = 32%nat /\ is_bytes (cSessionID c) /\
    length (EpochHash c) = 32%nat /\ is_bytes (EpochHash c) /\
    length (cTranscript c) = 32%nat /\ is_bytes (cTranscript c) /\ is_bytes (U c) /\
    is_u64 (StartIndex c) /\ StartIndex c + Count c <= MaxUint64 /\
    extensionPaddedCount (Count c) = Ok (PaddedCount c) /\
    Z.of_nat (length (U c)) = Z.quot (Z.of_nat BaseOTCount * PaddedCount c) 8;
|}.

Lemma commitment_sizes count padded : extensionPaddedCount count = Ok padded ->
  0 < count < 2 ^ 32 /\ 0 < padded < 2 ^ 32 /\
  Z.quot (Z.of_nat BaseOTCount * padded) 8 = 16 * padded /\
  u64 (Z.of_nat extensionCommitmentHeaderSize + Z.of_nat BaseOTCount * padded / 8) = 116 + 16 * padded.
Proof.
  intros H. pose proof (padded_blocks count padded H) as (k & -> & Hk & Hp & Hc & _).
  split; [done|]. split; [lia|]. unfold BaseOTCount, extensionCommitmentHeaderSize.
  assert (E : Z.of_nat 128 * Z.of_nat (128 * k) / 8 = 16 * Z.of_nat (128 * k)).
  { replace (Z.of_nat 128 * Z.of_nat (128 * k)) with (16 * Z.of_nat (128 * k) * 8) by lia.
    by rewrite Z.div_mul by lia. }
  rewrite Z.quot_div_nonneg, E by lia. split; [done|]. apply u64_id. unfold is_u64. lia.
Qed.

#[export] Instance commitment_laws : CodecLaws ExtensionCommitment.
Proof.
  split.
  - intros [sid start cnt pad eh tr u] (Ls & Bs & Le & Be & Lt & Bt & Bu & Hst & Hov & Hpad & Lu).
    cbn [encode decode commitment_codec cSessionID StartIndex Count PaddedCount EpochHash cTranscript U] in *.
    unfold MarshalExtensionCommitment, UnmarshalExtensionCommitment.
    cbn [cSessionID StartIndex Count PaddedCount EpochHash cTranscript U].
    pose proof (commitment_sizes _ _ Hpad) as (Hc & Hp & Eq & Ew). rewrite Eq in Lu.
    rewrite Hpad. cbn [mbind res_bind]. rewrite Z.eqb_refl. cbn [negb].
    unfold is_u64 in Hst. rewrite checkedIndexEnd_fits by lia. cbn [mbind res_bind].
    rewrite Eq, Lu, Z.eqb_refl. cbn [negb]. eexists. split; [done|]. split; [bytes_tac|].
    set (d := str "KOC2" ++ _).
    assert (Ld : Z.of_nat (length d) = 116 + 16 * pad).
    { unfold d. rewrite !length_app, !length_be_put, Ls, Le, Lt. change (length (str "KOC2")) with 4%nat. lia. }
    unfold extensionCommitmentHeaderSize. rewrite (proj2 (Nat.ltb_ge (length d) _)) by lia.
    assert (slice d 0 4 = str "KOC2") as -> by (unfold d; by field). rewrite bytes_eqb_refl. cbn [negb].
    assert (slice d 44 48 = be_put 4 cnt) as -> by (unfold d; by field).
    assert (slice d 48 52 = be_put 4 pad) as -> by (unfold d; by field).
    assert (slice d 36 44 = be_put 8 start) as -> by (unfold d; by field).
    rewrite !be_get_put4, be_get_put8 by (unfold is_u32, is_u64; lia).
    rewrite Hpad. cbn [mbind res_bind]. rewrite Z.eqb_refl. cbn [negb].
    rewrite checkedIndexEnd_fits by lia. cbn [mbind res_bind].
    change (4 + 32 + 8 + 4 + 4 + 32 + 32)%nat with extensionCommitmentHeaderSize. rewrite Ew, Ld, Z.eqb_refl. cbn [negb].
    assert (slice d 4 36 = sid) as -> by (unfold d; by field).
    assert (slice d 52 84 = eh) as -> by (unfold d; by field).
    assert (slice d 84 116 = tr) as -> by (unfold d; by field).
    assert (drop 116 d = u) as ->.
    { unfold d. rewrite !app_assoc. apply drop_app_length'. rewrite !length_app, !length_be_put, Ls, Le, Lt. done. }
    unfold u32. by rewrite !Z.mod_small by lia.
  - intros d c B E. cbn [wire_wf encode decode commitment_codec] in *.
    unfold MarshalExtensionCommitment, UnmarshalExtensionCommitment in *.
    guards E. apply bind_Ok in E as (padded & Hpad & E). guards E. apply bind_Ok in E as (en & Hend & E). guards E.
    apply (inj Ok) in E as <-. cbn [cSessionID StartIndex Count PaddedCount EpochHash cTranscript U].
    pose proof (commitment_sizes _ _ Hpad) as (Hc & Hp & Eq & Ew).
    rewrite Ew in G2. unfold extensionCommitmentHeaderSize in *. set (cnt := be_get (slice d 44 48)) in *. set (st := be_get (slice d 36 44)) in *.
    unfold u32. rewrite !Z.mod_small by lia.
    assert (Hst : is_u64 st) by (apply be_get8_u64; [rewrite length_slice; lia|by apply slice_forall]).
    apply checkedIndexEnd_Ok in Hend as (_ & -> & Hend); [|done|unfold is_int; lia].
    split.
    + rewrite length_drop, !length_slice, Eq by lia.
      split_and!; try done; try (by apply slice_forall); try (by apply Forall_drop); try lia.
      unfold is_u64, MaxUint64 in *. lia.
    + rewrite Hpad. cbn [mbind res_bind]. rewrite Z.eqb_refl. cbn [negb]. unfold is_u64 in Hst.
      rewrite checkedIndexEnd_fits by (unfold is_u64, MaxUint64 in *; lia). cbn [mbind res_bind].
      assert (EL : Z.of_nat (length (drop 116 d)) = 16 * padded) by (rewrite length_drop; lia).
      rewrite Eq, EL, Z.eqb_refl. cbn [negb]. unfold cnt, st. rewrite <- G0, <- G1.
      rewrite !be_put_get by (by apply slice_forall || (rewrite length_slice; lia)).
      rewrite !app_assoc, !slice_glue by lia. rewrite slice_glue_drop by lia. done.
Qed.

(** ** Challenge and proof *)

Section Hashed.
Context {SH : Sha256}.

Definition MarshalExtensionChallenge (ch : option ExtensionChallenge) : res bytes :=
  match ch with
  | None => Err "mpc: invalid OT extension challenge"
  | Some ch =>
      fail_if ((length (Chi ch) =? 0)%nat) "mpc: invalid OT extension challenge";;
      fail_if (negb (bytes_eqb (chTranscript ch) (extensionChallengeTranscript ch)))
        "mpc: OT extension challenge hash mismatch";;
      Ok (str "KCH2" ++ chSessionID ch ++ Commitment ch ++ chTranscript ch
          ++ be_put 4 (u32 (Z.of_nat (length (Chi ch)))) ++ put_labels (Chi ch))
  end.

Definition UnmarshalExtensionChallenge (data : bytes) : res ExtensionChallenge :=
  fail_if ((length data <? extensionChallengeHeaderSize)%nat || negb (bytes_eqb (slice data 0 4) (str "KCH2")))
    "mpc: invalid OT extension challenge";;
  let count := be_get (slice data 100 104) in
  maxPadded ← extensionPaddedCount maxExtensionOTs;
  fail_if ((count <=? 0) || (extensionChallengeCount maxPadded <? count))
    "mpc: invalid OT extension challenge count";;
  let wantLen := u64 (Z.of_nat extensionChallengeHeaderSize + count * 16) in
  fail_if (negb (Z.of_nat (length data) =? wantLen)) "mpc: OT extension challenge length";;
  let ch := mkChallenge (slice data 4 36) (slice data 36 68) (slice data 68 100)
              (get_labels (Z.to_nat count) 104 data) in
  fail_if (negb (bytes_eqb (chTranscript ch) (extensionChallengeTranscript ch)))
    "mpc: OT extension challenge hash mismatch";;
  Ok ch.

(** The largest challenge: one coefficient per block of the largest batch. *)
Lemma max_challenge : exists p, extensionPaddedCount maxExtensionOTs = Ok p /\
  extensionChallengeCount p = 131072.
Proof. eexists. split; vm_compute; reflexivity. Qed.

Definition challenge_wf (ch : ExtensionChallenge) : Prop :=
  length (chSessionID ch) = 32%nat /\ is_bytes (chSessionID ch) /\
  length (Commitment ch) = 32%nat /\ is_bytes (Commitment ch) /\
  Forall label_ok (Chi ch) /\ 0 < Z.of_nat (length (Chi ch)) <= 131072 /\
  chTranscript ch = extensionChallengeTranscript ch.

#[export] Instance challenge_codec : Codec ExtensionChallenge := {|
  encode ch := MarshalExtensionChallenge (Some ch);
  decode := UnmarshalExtensionChallenge;
  wire_wf := challenge_wf;
|}.

#[export] Instance challenge_laws : CodecLaws ExtensionChallenge.
Proof.
  destruct max_challenge as (mp & Emp & Emc). split.
  - intros [sid cm tr chi] (Ls & Bs & Lc & Bc & Ok' & Hn & Ht).
    cbn [encode decode challenge_codec chSessionID Commitment chTranscript Chi] in *.
    unfold MarshalExtensionChallenge, UnmarshalExtensionChallenge. cbn [chSessionID Commitment chTranscript Chi].
    assert (Lt : length tr = 32%nat) by (rewrite Ht; apply sha256_length).
    assert (Bt : is_bytes tr) by (rewrite Ht; apply sha256_bytes).
    rewrite (proj2 (Nat.eqb_neq (length chi) 0)) by lia. rewrite (proj2 (bytes_eqb_spec tr _)) by done. cbn [negb].
    eexists. split; [done|]. split; [bytes_tac|]. set (d := str "KCH2" ++ _).
    assert (Ld : length d = (104 + 16 * length chi)%nat).
    { unfold d. rewrite !length_app, length_be_put, length_put_labels, Ls, Lc, Lt. change (length (str "KCH2")) with 4%nat. lia. }
    unfold extensionChallengeHeaderSize. rewrite (proj2 (Nat.ltb_ge (length d) _)) by lia.
    assert (slice d 0 4 = str "KCH2") as -> by (unfold d; by field). rewrite bytes_eqb_refl. cbn [negb orb].
    assert (slice d 100 104 = be_put 4 (u32 (Z.of_nat (length chi)))) as -> by (unfold d; by field).
    rewrite be_count by lia. rewrite Emp. cbn [mbind res_bind]. rewrite Emc.
    rewrite (proj2 (Z.leb_gt _ _)), (proj2 (Z.ltb_ge _ _)) by lia. cbn [orb].
    rewrite u64_id by (unfold is_u64; lia). rewrite Ld, (proj2 (Z.eqb_eq _ _)) by lia. cbn [negb].
    assert (slice d 4 36 = sid) as -> by (unfold d; by field).
    assert (slice d 36 68 = cm) as -> by (unfold d; by field).
    assert (slice d 68 100 = tr) as -> by (unfold d; by field).
    assert (get_labels (Z.to_nat (Z.of_nat (length chi))) 104 d = chi) as ->.
    { rewrite Nat2Z.id. unfold d. rewrite !app_assoc. rewrite <- (app_nil_r (put_labels chi)) .
      match goal with |- get_labels _ _ (?pre ++ _) = _ => replace 104%nat with (length pre) end.
      - by apply get_put_labels.
      - rewrite !length_app, length_be_put, Ls, Lc, Lt. done. }
    cbn [chTranscript]. by rewrite (proj2 (bytes_eqb_spec tr _)).
  - intros d ch B E. cbn [wire_wf encode decode challenge_codec] in *.
    unfold MarshalExtensionChallenge, UnmarshalExtensionChallenge in *.
    rewrite Emp in E. cbn [mbind res_bind] in E. rewrite Emc in E. guards E. apply (inj Ok) in E as <-.
    cbn [chTranscript] in *. destruct G as [Gl Gt], G0 as [Gc1 Gc2].
    unfold extensionChallengeHeaderSize in *. set (c := be_get (slice d 100 104)) in *.
    rewrite u64_id in G1 by (unfold is_u64; lia).
    destruct (put_get_labels (Z.to_nat c) 104 d) as [EL OL]; [done|lia|]. split.
    + unfold challenge_wf. cbn [chSessionID Commitment chTranscript Chi].
      rewrite length_get_labels, !length_slice by lia.
      split_and!; try done; try (by apply slice_forall); lia.
    + cbn [chSessionID Commitment chTranscript Chi]. rewrite length_get_labels.
      rewrite (proj2 (Nat.eqb_neq (Z.to_nat c) 0)) by lia. rewrite (proj2 (bytes_eqb_spec (slice d 68 100) _)) by done.
      cbn [negb]. rewrite EL, <- Gt. rewrite (be_put_count d 100 104); [|rewrite length_slice; lia|done|fold c; lia].
      rewrite !app_assoc, !slice_glue by lia. f_equal. apply slice_all. lia.
Qed.

End Hashed.

Definition MarshalExtensionProof (p : option ExtensionProof) : res bytes :=
  match p with
  | None => Err "mpc: nil OT extension proof"
  | Some p => Ok (str "KPR2" ++ prSessionID p ++ prTranscript p ++ label_put (X p) ++ put_labels (T p))
  end.

Definition UnmarshalExtensionProof (data : bytes) : res ExtensionProof :=
  fail_if (negb (length data =? extensionProofSize)%nat || negb (bytes_eqb (slice data 0 4) (str "KPR2")))
    "mpc: invalid OT extension proof";;
  Ok (mkProof (slice data 4 36) (slice data 36 68) (labelFromBytes (slice data 68 84))
        (get_labels BaseOTCount 84 data)).

#[export] Instance proof_codec : Codec ExtensionProof := {|
  encode p := MarshalExtensionProof (Some p);
  decode := UnmarshalExtensionProof;
  wire_wf p :=
    length (prSessionID p) = 32%nat /\ is_bytes (prSessionID p) /\
    length (prTranscript p) = 32%nat /\ is_bytes (prTranscript p) /\
    label_ok (X p) /\ length (T p) = BaseOTCount /\ Forall label_ok (T p);
|}.

#[export] Instance proof_laws : CodecLaws ExtensionProof.
Proof.
  split.
  - intros [sid tr x t] (Ls & Bs & Lt & Bt & Ox & LT & OT).
    cbn [encode decode proof_codec prSessionID prTranscript X T] in *.
    unfold MarshalExtensionProof, UnmarshalExtensionProof. cbn [prSessionID prTranscript X T].
    eexists. split; [done|]. split; [bytes_tac|]. set (d := str "KPR2" ++ _).
    assert (Ld : length d = extensionProofSize).
    { unfold d. rewrite !length_app, length_label_put, length_put_labels, Ls, Lt, LT. done. }
    rewrite Ld, Nat.eqb_refl. assert (slice d 0 4 = str "KPR2") as -> by (unfold d; by field).
    rewrite bytes_eqb_refl. cbn [negb orb].
    assert (slice d 4 36 = sid) as -> by (unfold d; by field).
    assert (slice d 36 68 = tr) as -> by (unfold d; by field).
    assert (slice d 68 84 = label_put x) as -> by (unfold d; by field).
    rewrite labelFromBytes_put by done. repeat f_equal. unfold d. rewrite !app_assoc.
    rewrite <- (app_nil_r (put_labels t)).
    match goal with |- get_labels _ _ (?pre ++ _) = _ => replace 84%nat with (length pre) end.
    + rewrite <- LT. by apply get_put_labels.
    + rewrite !length_app, length_label_put, Ls, Lt. done.
  - intros d p B E. cbn [wire_wf encode decode proof_codec] in *.
    unfold MarshalExtensionProof, UnmarshalExtensionProof in *. guards E. apply (inj Ok) in E as <-.
    destruct G as [Gl Gt]. unfold extensionProofSize, BaseOTCount in *. cbn [prSessionID prTranscript X T].
    destruct (put_get_labels 128 84 d) as [EL OL]; [done|lia|].
    assert (Lx : length (slice d 68 84) = 16%nat) by (rewrite length_slice; lia).
    assert (Bx : is_bytes (slice d 68 84)) by (by apply slice_forall). split.
    + rewrite length_get_labels, !length_slice by lia.
      split_and!; try done; try (by apply slice_forall). by apply labelFromBytes_ok.
    + rewrite EL, <- Gt, label_put_labelFromBytes by done. rewrite !app_assoc, !slice_glue by lia.
      f_equal. apply slice_all. lia.
Qed.

(** ** Epochs *)

Definition InitialExtensionEpoch (nonce : bytes) : res bytes :=
  fail_if (bytes_eqb nonce []) "mpc: empty OT extension epoch nonce";;
  let epoch := extensionEpochPrefix ++ nonce in
  _ ← validateExtensionEpoch epoch;
  Ok epoch.

(** [encoding/hex]: lower-case digits. *)
Definition hex_digit (n : Z) : Z := if n <? 10 then 48 + n else 87 + n.
Definition hex_encode (s : bytes) : bytes :=
  concat (map (fun b => [hex_digit (b / 16); hex_digit (b mod 16)]) s).

Definition ExtensionEpoch (sessionID : bytes) : bytes := extensionEpochPrefix ++ hex_encode sessionID.

Definition IsCurrentExtensionEpoch (epoch : bytes) : bool := is_ok (validateExtensionEpoch epoch).

(** ** Phases and the opening message *)

Inductive PrecomputePhase :=
| PrecomputePhaseUnknown
| PrecomputePhaseBegin
| PrecomputePhaseBaseChoices
| PrecomputePhaseChallenge.

Definition PrecomputeRequestPhase (data : bytes) : PrecomputePhase :=
  if (length data <? 4)%nat then PrecomputePhaseUnknown else
  let tag := slice data 0 4 in
  if bytes_eqb tag (str "KOB2") then PrecomputePhaseBegin else
  if bytes_eqb tag (str "KBC2") then PrecomputePhaseBaseChoices else
  if bytes_eqb tag (str "KCH2") then PrecomputePhaseChallenge else PrecomputePhaseUnknown.

Record PrecomputeBegin := mkBegin {
  bSessionID : bytes;
  bStartIndex : Z;
  bCount : Z;
  bEpoch : bytes;
}.

Definition MarshalPrecomputeBegin (b : PrecomputeBegin) : res bytes :=
  _ ← extensionPaddedCount (bCount b);
  _ ← checkedIndexEnd (bStartIndex b) (bCount b);
  _ ← validateExtensionEpoch (bEpoch b);
  Ok (str "KOB2" ++ bSessionID b ++ be_put 8 (bStartIndex b) ++ be_put 4 (bCount b)
      ++ be_put 2 (Z.of_nat (length (bEpoch b)) mod 2 ^ 16) ++ bEpoch b).

Definition UnmarshalPrecomputeBegin (data : bytes) : res PrecomputeBegin :=
  fail_if ((length data <? 50)%nat || negb (bytes_eqb (slice data 0 4) (str "KOB2")))
    "mpc: invalid OT precompute begin message";;
  let epochLen := be_get (slice data 48 50) in
  fail_if ((epochLen =? 0) || negb (Z.of_nat (length data) =? 50 + epochLen))
    "mpc: invalid OT precompute begin epoch framing";;
  let b := mkBegin (slice data 4 36) (be_get (slice data 36 44)) (be_get (slice data 44 48)) (drop 50 data) in
  _ ← validateExtensionEpoch (bEpoch b);
  _ ← extensionPaddedCount (bCount b);
  _ ← checkedIndexEnd (bStartIndex b) (bCount b);
  Ok b.

#[export] Instance begin_codec : Codec PrecomputeBegin := {|
  encode := MarshalPrecomputeBegin;
  decode := UnmarshalPrecomputeBegin;
  wire_wf b :=
    length (bSessionID b) = 32%nat /\ is_bytes (bSessionID b) /\ is_bytes (bEpoch b) /\
    is_u64 (bStartIndex b) /\ bStartIndex b + bCount b <= MaxUint64 /\ 0 < bCount b <= maxExtensionOTs /\
    validateExtensionEpoch (bEpoch b) = Ok ();
|}.

Lemma validateEpoch_length e : validateExtensionEpoch e = Ok () -> (5 < length e <= 256)%nat.
Proof.
  unfold validateExtensionEpoch, maxEpochLength. change (length extensionEpochPrefix) with 5%nat.
  intros H. guards H. destruct G as [[G1 G2] _]. apply Nat.leb_gt in G1. split; [done|].
  pose proof (proj1 (Nat.ltb_ge 256 (length e))). auto.
Qed.

Lemma padded_of_count count : 0 < count <= maxExtensionOTs -> exists p, extensionPaddedCount count = Ok p.
Proof.
  intros H. unfold extensionPaddedCount. rewrite (proj2 (Z.leb_gt _ _)), (proj2 (Z.ltb_ge _ _)) by lia.
  eexists. reflexivity.
Qed.

#[export] Instance begin_laws : CodecLaws PrecomputeBegin.
Proof.
  split.
  - intros [sid st cnt ep] (Ls & Bs & Be & Hst & Hov & Hc & Hep).
    cbn [encode decode begin_codec bSessionID bStartIndex bCount bEpoch] in *.
    unfold MarshalPrecomputeBegin, UnmarshalPrecomputeBegin. cbn [bSessionID bStartIndex bCount bEpoch].
    destruct (padded_of_count cnt Hc) as [p Hp]. rewrite Hp. unfold maxExtensionOTs, is_u64 in *.
    cbn [mbind res_bind]. rewrite checkedIndexEnd_fits by lia. cbn [mbind res_bind]. rewrite Hep. cbn [mbind res_bind].
    eexists. split; [done|]. split; [bytes_tac|]. set (d := str "KOB2" ++ _).
    pose proof (validateEpoch_length ep Hep) as Lep.
    assert (Ld : length d = (50 + length ep)%nat).
    { unfold d. rewrite !length_app, !length_be_put, Ls. change (length (str "KOB2")) with 4%nat. lia. }
    rewrite Ld, (proj2 (Nat.ltb_ge _ _)) by lia.
    assert (slice d 0 4 = str "KOB2") as -> by (unfold d; by field). rewrite bytes_eqb_refl. cbn [negb orb].
    assert (slice d 48 50 = be_put 2 (Z.of_nat (length ep) mod 2 ^ 16)) as -> by (unfold d; by field).
    rewrite (Z.mod_small (Z.of_nat (length ep))) by lia. rewrite be_get_put by lia.
    rewrite (proj2 (Z.eqb_neq _ _)), (proj2 (Z.eqb_eq _ _)) by lia. cbn [negb orb].
    assert (slice d 4 36 = sid) as -> by (unfold d; by field).
    assert (slice d 36 44 = be_put 8 st) as -> by (unfold d; by field).
    assert (slice d 44 48 = be_put 4 cnt) as -> by (unfold d; by field).
    assert (drop 50 d = ep) as ->.
    { unfold d. rewrite !app_assoc. apply drop_app_length'. rewrite !length_app, !length_be_put, Ls. done. }
    rewrite be_get_put8, be_get_put4 by (unfold is_u64, is_u32; lia).
    cbn [bSessionID bStartIndex bCount bEpoch]. rewrite Hep. cbn [mbind res_bind]. rewrite Hp. cbn [mbind res_bind].
    rewrite checkedIndexEnd_fits by lia. done.
  - intros d b B E. cbn [wire_wf encode decode begin_codec] in *.
    unfold MarshalPrecomputeBegin, UnmarshalPrecomputeBegin in *. guards E.
    cbn [bSessionID bStartIndex bCount bEpoch] in E.
    apply bind_Ok in E as ([] & Hep & E). apply bind_Ok in E as (p & Hp & E). apply bind_Ok in E as (en & Hen & E).
    apply (inj Ok) in E as <-. cbn [bSessionID bStartIndex bCount bEpoch].
    destruct G as [Gl Gt], G0 as [G1 G2]. apply Z.eqb_neq in G1.
    assert (Hst : is_u64 (be_get (slice d 36 44))) by (apply be_get8_u64; [rewrite length_slice; lia|by apply slice_forall]).
    pose proof (proj1 (extensionPaddedCount_spec _ _) Hp) as (Hc & _). unfold maxExtensionOTs in Hc.
    pose proof (checkedIndexEnd_Ok (be_get (slice d 36 44)) (be_get (slice d 44 48)) en Hst ltac:(unfold is_int; lia)) as [Hx _].
    destruct (Hx Hen) as (_ & -> & Hend). split.
    + rewrite length_slice by lia. unfold maxExtensionOTs.
      split_and!; try done; try (by apply slice_forall); try (by apply Forall_drop); try lia.
      unfold is_u64, MaxUint64 in *. lia.
    + rewrite Hp. cbn [mbind res_bind]. unfold is_u64 in Hst.
      rewrite checkedIndexEnd_fits by (unfold is_u64, MaxUint64 in *; lia). cbn [mbind res_bind]. rewrite Hep. cbn [mbind res_bind].
      rewrite length_drop. pose proof (be_get_bound (slice d 48 50) (slice_forall _ _ _ _ B)) as Hb.
      rewrite length_slice in Hb by lia.
      replace (Z.of_nat (length d - 50)) with (be_get (slice d 48 50)) by lia.
      rewrite (Z.mod_small (be_get (slice d 48 50))) by (cbn in Hb; lia).
      rewrite !be_put_get by (by apply slice_forall || (rewrite length_slice; lia)). rewrite <- Gt.
      rewrite !app_assoc, !slice_glue by lia. rewrite slice_glue_drop by lia. done.
Qed.

(** ** Nested base-OT frames *)

Definition nested_frame (tag inner : string) (size : nat) (session body : bytes) (m : error) : res bytes :=
  fail_if (negb (length body =? size)%nat || negb (bytes_eqb (slice body 0 4) (str inner))
           || negb (bytes_eqb (slice body 4 36) session)) m;;
  Ok (str tag ++ session ++ body).

Definition nested_unframe (tag inner : string) (size : nat) (session data : bytes) (m m' : error) : res bytes :=
  fail_if (negb (length data =? 4 + 32 + size)%nat || negb (bytes_eqb (slice data 0 4) (str tag))
           || negb (bytes_eqb (slice data 4 36) session)) m;;
  let body := drop 36 data in
  fail_if (negb (bytes_eqb (slice body 0 4) (str inner)) || negb (bytes_eqb (slice body 4 36) session)) m';;
  Ok body.

Definition MarshalPrecomputeBaseSetup (session setup : bytes) : res bytes :=
  nested_frame "KBS2" "BOS1" baseSetupMessageSize session setup "mpc: invalid base OT setup for KOS2 frame".

Definition UnmarshalPrecomputeBaseSetup (data session : bytes) : res bytes :=
  nested_unframe "KBS2" "BOS1" baseSetupMessageSize session data
    "mpc: invalid KOS2 base OT setup frame" "mpc: invalid nested base OT setup".

Definition MarshalPrecomputeBaseChoices (session choices : bytes) : res bytes :=
  nested_frame "KBC2" "BOC1" baseChoiceMessageSize session choices "mpc: invalid base OT choices for KOS2 frame".

Definition UnmarshalPrecomputeBaseChoices (data session : bytes) : res bytes :=
  nested_unframe "KBC2" "BOC1" baseChoiceMessageSize session data
    "mpc: invalid KOS2 base OT choice frame" "mpc: invalid nested base OT choices".

(** A frame is accepted for the session it was made for, and only then. *)
Lemma nested_roundtrip tag inner size session body m m1 m2 d :
  length (str tag) = 4%nat -> length session = 32%nat ->
  nested_frame tag inner size session body m = Ok d <->
  nested_unframe tag inner size session d m1 m2 = Ok body.
Proof.
  intros Lt Ls. unfold nested_frame, nested_unframe. split; intros E; guards E; apply (inj Ok) in E as <-.
  - destruct G as [[G1 G2] G3]. destruct (frame_parts (str tag) session body Lt Ls) as (F1 & F2 & F3).
    assert (slice (str tag ++ session ++ body) 0 4 = str tag) as -> by (by apply slice_app_hit).
    rewrite F2, F3, G2, G3, !bytes_eqb_refl. rewrite !length_app, Lt, Ls, G1.
    rewrite (proj2 (Nat.eqb_eq _ _)) by lia. done.
  - destruct G as [[G1 G2] G3], G0 as [G4 G5]. rewrite length_drop, G1, G4, G5, !bytes_eqb_refl.
    rewrite (proj2 (Nat.eqb_eq _ _)) by lia. cbn [negb orb]. rewrite <- G2, <- G3.
    rewrite app_assoc, slice_glue by lia. by rewrite list_eq_from_slices.
Qed.

(** ** The commitment with its base-OT ciphertexts *)

Definition MarshalPrecomputeCommitment (cipherMessage : bytes) (c : option ExtensionCommitment) : res bytes :=
  match c with
  | None => Err "mpc: nil OT extension commitment"
  | Some c' =>
      _ ← validateBaseCipherForTranscript cipherMessage (cSessionID c');
      extension ← MarshalExtensionCommitment c;
      Ok (str "KOF2" ++ be_put 4 (u32 (Z.of_nat (length cipherMessage))) ++ cipherMessage ++ extension)
  end.

Definition UnmarshalPrecomputeCommitment (data : bytes) : res (bytes * ExtensionCommitment) :=
  fail_if ((length data <? 8)%nat || negb (bytes_eqb (slice data 0 4) (str "KOF2")))
    "mpc: invalid OT precompute commitment message";;
  let cipherLen := be_get (slice data 4 8) in
  fail_if (negb (cipherLen =? Z.of_nat baseCipherMessageSize) || (Z.of_nat (length data) <? 8 + cipherLen))
    "mpc: invalid base OT ciphertext framing";;
  let n := Z.to_nat cipherLen in
  c ← UnmarshalExtensionCommitment (drop (8 + n) data);
  let cipher := slice data 8 (8 + n) in
  _ ← validateBaseCipherForTranscript cipher (cSessionID c);
  Ok (cipher, c).

Definition PrecomputeCommitmentWireSize (count : Z) : res Z :=
  padded ← extensionPaddedCount count;
  Ok (8 + Z.of_nat baseCipherMessageSize + Z.of_nat extensionCommitmentHeaderSize
      + Z.quot (Z.of_nat BaseOTCount * padded) 8).

Definition PrecomputeChallengeWireSize (count : Z) : res Z :=
  padded ← extensionPaddedCount count;
  Ok (Z.of_nat extensionChallengeHeaderSize + extensionChallengeCount padded * 16).

Definition PrecomputeProofWireSize : Z := Z.of_nat extensionProofSize.

Definition commitmentOffset : nat := 8 + baseCipherMessageSize.

Definition UnmarshalPrecomputeCommitmentFor (data : bytes) (expected : PrecomputeBegin)
    : res (bytes * ExtensionCommitment) :=
  _ ← ValidatePrecomputeCount (bCount expected);
  _ ← checkedIndexEnd (bStartIndex expected) (bCount expected);
  wantLen ← PrecomputeCommitmentWireSize (bCount expected);
  fail_if (negb (Z.of_nat (length data) =? wantLen)) "mpc: OT precompute commitment length";;
  fail_if (negb (bytes_eqb (slice data 0 4) (str "KOF2"))
           || negb (be_get (slice data 4 8) =? Z.of_nat baseCipherMessageSize)
           || negb (bytes_eqb (slice data commitmentOffset (commitmentOffset + 4)) (str "KOC2")))
    "mpc: invalid OT precompute commitment framing";;
  fail_if (negb (bytes_eqb (slice data (commitmentOffset + 4) (commitmentOffset + 36)) (bSessionID expected))
           || negb (be_get (slice data (commitmentOffset + 36) (commitmentOffset + 44)) =? bStartIndex expected)
           || negb (be_get (slice data (commitmentOffset + 44) (commitmentOffset + 48)) =? bCount expected))
    "mpc: OT extension commitment metadata mismatch";;
  '(cipher, c) ← UnmarshalPrecomputeCommitment data;
  fail_if (negb (bytes_eqb (cSessionID c) (bSessionID expected))
           || negb (StartIndex c =? bStartIndex expected) || negb (Count c =? bCount expected))
    "mpc: OT extension commitment metadata mismatch";;
  Ok (cipher, c).

Definition UnmarshalExtensionChallengeFor {SH : Sha256} (data session : bytes) (otCount : Z)
    : res ExtensionChallenge :=
  _ ← ValidatePrecomputeCount otCount;
  wantLen ← PrecomputeChallengeWireSize otCount;
  fail_if (negb (Z.of_nat (length data) =? wantLen)) "mpc: OT extension challenge length";;
  fail_if (negb (bytes_eqb (slice data 0 4) (str "KCH2")) || negb (bytes_eqb (slice data 4 36) session))
    "mpc: OT extension challenge metadata mismatch";;
  padded ← extensionPaddedCount otCount;
  fail_if (negb (be_get (slice data 100 104) =? u32 (extensionChallengeCount padded)))
    "mpc: OT extension challenge coefficient count mismatch";;
  ch ← UnmarshalExtensionChallenge data;
  fail_if (negb (bytes_eqb (chSessionID ch) session)) "mpc: OT extension challenge metadata mismatch";;
  Ok ch.

Definition UnmarshalExtensionProofFor (data session : bytes) : res ExtensionProof :=
  fail_if (negb (length data =? extensionProofSize)%nat || negb (bytes_eqb (slice data 0 4) (str "KPR2"))
           || negb (bytes_eqb (slice data 4 36) session)) "mpc: invalid OT extension proof metadata";;
  UnmarshalExtensionProof data.

#[export] Instance precompute_commitment_codec : Codec (bytes * ExtensionCommitment) := {|
  encode x := MarshalPrecomputeCommitment (fst x) (Some (snd x));
  decode := UnmarshalPrecomputeCommitment;
  wire_wf x := is_bytes (fst x) /\ validateBaseCipherForTranscript (fst x) (cSessionID (snd x)) = Ok () /\
               wire_wf (snd x);
|}.

Lemma cipher_length cm sid : validateBaseCipherForTranscript cm sid = Ok () -> length cm = baseCipherMessageSize.
Proof. unfold validateBaseCipherForTranscript. intros H. guards H. by destruct G. Qed.

Lemma baseCipherMessageSize_val : baseCipherMessageSize = Z.to_nat 4132.
Proof. reflexivity. Qed.

(** The framing itself does not look into the ciphertexts. *)
Lemma commitment_frame_decodes cm c : validateBaseCipherForTranscript cm (cSessionID c) = Ok () -> wire_wf c ->
  exists d, MarshalPrecomputeCommitment cm (Some c) = Ok d /\ (is_bytes cm -> is_bytes d) /\
    slice d 0 4 = str "KOF2" /\ UnmarshalPrecomputeCommitment d = Ok (cm, c).
Proof.
  intros Hv Hc. destruct (decode_encode c Hc) as (ext & Ee & Be & De). cbn [encode decode commitment_codec] in Ee, De.
  unfold MarshalPrecomputeCommitment, UnmarshalPrecomputeCommitment. rewrite Hv. cbn [mbind res_bind].
  rewrite Ee. cbn [mbind res_bind]. eexists. split; [done|]. split; [intros Bc; bytes_tac|].
  pose proof (cipher_length _ _ Hv) as Lc. set (d := str "KOF2" ++ _).
  assert (Ld : length d = (8 + length cm + length ext)%nat).
  { unfold d. rewrite !length_app, length_be_put. change (length (str "KOF2")) with 4%nat. lia. }
  assert (T4 : slice d 0 4 = str "KOF2") by (unfold d; by field). split; [done|].
  rewrite Ld, (proj2 (Nat.ltb_ge _ 8)) by lia. rewrite T4, bytes_eqb_refl. cbn [negb orb].
  assert (slice d 4 8 = be_put 4 (u32 (Z.of_nat (length cm)))) as -> by (unfold d; by field).
  rewrite be_count by (rewrite Lc, baseCipherMessageSize_val; lia).
  rewrite Lc at 1. rewrite Z.eqb_refl, (proj2 (Z.ltb_ge _ _)) by lia. cbn [negb orb]. rewrite Nat2Z.id.
  assert (drop (8 + length cm) d = ext) as ->.
  { unfold d. rewrite !app_assoc. apply drop_app_length'. rewrite !length_app, length_be_put. done. }
  assert (slice d 8 (8 + length cm) = cm) as -> by (unfold d; by field).
  rewrite De. cbn [mbind res_bind]. by rewrite Hv.
Qed.

#[export] Instance precompute_commitment_laws : CodecLaws (bytes * ExtensionCommitment).
Proof.
  split.
  - intros [cm c] (Bc & Hv & Hc). cbn [encode decode precompute_commitment_codec fst snd] in *.
    destruct (commitment_frame_decodes cm c Hv Hc) as (d & E & B & _ & D). exists d. auto.
  - intros d [cm c] B E. cbn [wire_wf encode decode precompute_commitment_codec fst snd] in *.
    unfold MarshalPrecomputeCommitment, UnmarshalPrecomputeCommitment in *. guards E.
    apply bind_Ok in E as (c' & Hc & E). apply bind_Ok in E as ([] & Hv & E).
    apply Ok_pair in E as [<- <-]. destruct G as [Gl Gt], G0 as [Gc Gn]. rewrite Gc in *. rewrite Nat2Z.id in *.
    assert (Bd : is_bytes (drop (8 + baseCipherMessageSize) d)) by (by apply Forall_drop).
    destruct (@encode_decode _ _ commitment_laws _ _ Bd Hc) as [Hwf Henc].
    cbn [wire_wf encode commitment_codec] in Hwf, Henc. split; [split_and!; [by apply slice_forall|done|done]|].
    rewrite Hv. cbn [mbind res_bind]. rewrite Henc. cbn [mbind res_bind]. rewrite (cipher_length _ _ Hv).
    rewrite (be_put_count d 4 8); [|rewrite length_slice; lia|done|done]. rewrite <- Gt.
    rewrite !app_assoc, !slice_glue by lia. rewrite slice_glue_drop by lia. done.
Qed.

(** *** The early checks of the production decoders

    They reject a frame before anything is copied, and never reject one that
    the generic decoder would accept for the pending batch. *)

Definition matches_begin (c : ExtensionCommitment) (b : PrecomputeBegin) : Prop :=
  cSessionID c = bSessionID b /\ StartIndex c = bStartIndex b /\ Count c = bCount b.

Lemma commitment_fields d c : UnmarshalExtensionCommitment d = Ok c ->
  (116 <= length d)%nat /\ slice d 0 4 = str "KOC2" /\ cSessionID c = slice d 4 36 /\
  StartIndex c = be_get (slice d 36 44) /\ Count c = be_get (slice d 44 48) /\
  exists padded, extensionPaddedCount (Count c) = Ok padded /\ Z.of_nat (length d) = 116 + 16 * padded.
Proof.
  intros E. unfold UnmarshalExtensionCommitment in E. guards E.
  apply bind_Ok in E as (padded & Hpad & E). guards E. apply bind_Ok in E as (en & Hend & E). guards E.
  apply (inj Ok) in E as <-. cbn [cSessionID StartIndex Count].
  pose proof (commitment_sizes _ _ Hpad) as (Hc & Hp & Eq & Ew). rewrite Ew in G2.
  unfold extensionCommitmentHeaderSize in *. unfold u32. rewrite Z.mod_small by lia.
  split_and!; try done; try lia. by exists padded.
Qed.

Lemma slice_drop (d : bytes) o a b : slice (drop o d) a b = slice d (o + a) (o + b).
Proof. unfold slice. rewrite drop_drop. f_equal. lia. Qed.

Lemma precheck_commitment_iff d b cm c :
  ValidatePrecomputeCount (bCount b) = Ok () ->
  UnmarshalPrecomputeCommitmentFor d b = Ok (cm, c) <->
  UnmarshalPrecomputeCommitment d = Ok (cm, c) /\ matches_begin c b /\
  is_ok (checkedIndexEnd (bStartIndex b) (bCount b)) = true.
Proof.
  intros Hv. unfold UnmarshalPrecomputeCommitmentFor. rewrite Hv. cbn [mbind res_bind]. split.
  - intros E. apply bind_Ok in E as (en & -> & E). apply bind_Ok in E as (w & _ & E). guards E.
    apply bind_Ok in E as ([cm' c'] & Hu & E). guards E. apply Ok_pair in E as [<- <-].
    destruct G2 as [[? ?] ?]. done.
  - intros (Hu & (M1 & M2 & M3) & Hend). destruct (checkedIndexEnd _ _) as [en| |]; [|done..]. cbn [mbind res_bind].
    pose proof Hu as Hu'. unfold UnmarshalPrecomputeCommitment in Hu'. guards Hu'.
    apply bind_Ok in Hu' as (c' & Hc & Hu'). apply bind_Ok in Hu' as ([] & _ & Hu'). apply Ok_pair in Hu' as [<- <-].
    destruct G as [Gl Gt], G0 as [Gc Gn]. rewrite Gc in *. rewrite Nat2Z.id in *.
    pose proof (commitment_fields _ _ Hc) as (L & F0 & F1 & F2 & F3 & padded & Hp & Lp).
    rewrite !slice_drop in *. rewrite length_drop in L, Lp.
    unfold PrecomputeCommitmentWireSize. rewrite <- M3, Hp. cbn [mbind res_bind].
    pose proof (commitment_sizes _ _ Hp) as (_ & _ & -> & _). unfold extensionCommitmentHeaderSize.
    rewrite (proj2 (Z.eqb_eq (Z.of_nat (length d)) _)) by lia. cbn [negb].
    unfold commitmentOffset. rewrite Nat.add_0_r in F0.
    rewrite Gt, F0, !bytes_eqb_refl, Z.eqb_refl. cbn [negb orb].
    rewrite <- F1, <- F2, <- F3, M1, M2, bytes_eqb_refl, !Z.eqb_refl. cbn [negb orb].
    rewrite Hu. cbn [mbind res_bind]. by rewrite M1, M2, bytes_eqb_refl, !Z.eqb_refl.
Qed.

(** ** Strictness of the extension formats *)

(** the frames of the OT extension (opening message, commitment with its
    base-OT ciphertexts, challenge, proof) are decoded strictly: exactly the
    encodings of well-formed values are accepted, each decoding to the value
    encoded. In particular the redundant fields (padded count, matrix length,
    nested session identifiers, challenge hash) must be consistent. *)
Theorem extension_frames_decoding_is_strict `{Sha256} d b cm c ch p :
  is_bytes d ->
  (UnmarshalPrecomputeBegin d = Ok b <-> wire_wf b /\ MarshalPrecomputeBegin b = Ok d) /\
  (UnmarshalPrecomputeCommitment d = Ok (cm, c) <->
     wire_wf (cm, c) /\ MarshalPrecomputeCommitment cm (Some c) = Ok d) /\
  (UnmarshalExtensionChallenge d = Ok ch <->
     challenge_wf ch /\ MarshalExtensionChallenge (Some ch) = Ok d) /\
  (UnmarshalExtensionProof d = Ok p <-> wire_wf p /\ MarshalExtensionProof (Some p) = Ok d).
Proof.
  intros B. split_and!.
  - exact (decode_iff (A := PrecomputeBegin) d b B).
  - exact (decode_iff (A := bytes * ExtensionCommitment) d (cm, c) B).
  - exact (decode_iff (A := ExtensionChallenge) d ch B).
  - exact (decode_iff (A := ExtensionProof) d p B).
Qed.

(** A batch of one OT, with an all-zero matrix. *)
Definition demo_begin : PrecomputeBegin := mkBegin (zeros 32) 5 1 (str "kos2:n").
Definition demo_commitment : ExtensionCommitment :=
  mkCommitment (zeros 32) 5 1 256 (zeros 32) (zeros 32) (zeros (16 * 256)).

Lemma demo_begin_wf : wire_wf demo_begin.
Proof.
  cbn [wire_wf begin_codec demo_begin bSessionID bStartIndex bCount bEpoch].
  split_and!; try reflexivity; try apply zeros_bytes; try apply str_bytes; vm_compute; try split; discriminate || reflexivity.
Qed.

Lemma demo_commitment_wf : wire_wf (demo_cipher_message, demo_commitment).
Proof.
  cbn [wire_wf precompute_commitment_codec commitment_codec fst snd demo_commitment cSessionID StartIndex Count
       PaddedCount EpochHash cTranscript U].
  split_and!; try apply zeros_bytes; try (by apply length_replicate).
  - unfold demo_cipher_message. apply Forall_app. split; [apply str_bytes|]. apply Forall_app. split; apply zeros_bytes.
  - vm_compute. reflexivity.
  - split; vm_compute; [discriminate|reflexivity].
  - vm_compute. discriminate.
  - vm_compute. reflexivity.
  - unfold zeros. rewrite length_replicate. vm_compute. reflexivity.
Qed.

Lemma extension_frames_decoding_is_strict_witness :
  exists d, MarshalPrecomputeBegin demo_begin = Ok d /\ UnmarshalPrecomputeBegin d = Ok demo_begin.
Proof.
  destruct (decode_encode demo_begin demo_begin_wf) as (d & Em & B & _). cbn [encode begin_codec] in Em.
  exists d. split; [exact Em|].
  apply (@extension_frames_decoding_is_strict const_sha d demo_begin [] zero_commitment
           (mkChallenge [] [] [] []) (mkProof [] [] label_zero [])); [exact B|].
  split; [exact demo_begin_wf|exact Em].
Defined.

(** the early checks of the production decoder lose nothing. For a pending
    batch within the production limit whose range fits 64 bits, the decoder that
    first checks size, tags, session, start index and count accepts exactly the
    frames that the generic decoder accepts with that metadata. *)
Theorem prechecked_commitment_decoder_is_exact d b cm c :
  ValidatePrecomputeCount (bCount b) = Ok () -> is_ok (checkedIndexEnd (bStartIndex b) (bCount b)) = true ->
  UnmarshalPrecomputeCommitmentFor d b = Ok (cm, c) <->
  UnmarshalPrecomputeCommitment d = Ok (cm, c) /\ matches_begin c b.
Proof.
  intros Hv Hi. rewrite precheck_commitment_iff by done. split; [by intros (? & ? & _)|]. by intros [? ?].
Qed.

Lemma prechecked_commitment_decoder_is_exact_witness :
  exists d, MarshalPrecomputeCommitment demo_cipher_message (Some demo_commitment) = Ok d /\
    UnmarshalPrecomputeCommitmentFor d demo_begin = Ok (demo_cipher_message, demo_commitment).
Proof.
  destruct (decode_encode (demo_cipher_message, demo_commitment) demo_commitment_wf) as (d & Em & B & D).
  exists d. split; [exact Em|].
  apply (prechecked_commitment_decoder_is_exact d demo_begin demo_cipher_message demo_commitment).
  - reflexivity.
  - vm_compute. reflexivity.
  - split; [exact D|]. split_and!; reflexivity.
Defined.

(** the base-OT frames of the precompute exchange are accepted for the session
    they were made for, and only then: framing a base-OT message gives [d] exactly
    when unframing [d] for that session gives the message back. *)
Theorem base_frames_bind_session session body d :
  length session = 32%nat ->
  (MarshalPrecomputeBaseSetup session body = Ok d <-> UnmarshalPrecomputeBaseSetup d session = Ok body) /\
  (MarshalPrecomputeBaseChoices session body = Ok d <-> UnmarshalPrecomputeBaseChoices d session = Ok body).
Proof.
  intros Ls. split; apply nested_roundtrip; done.
Qed.

Lemma base_frames_bind_session_witness :
  let setup := str "BOS1" ++ zeros 32 ++ zeros 33 in
  exists d, MarshalPrecomputeBaseSetup (zeros 32) setup = Ok d /\
    UnmarshalPrecomputeBaseSetup d (zeros 32) = Ok setup.
Proof.
  cbv zeta. eexists. split; [vm_compute; reflexivity|].
  apply base_frames_bind_session; [reflexivity|]. vm_compute. reflexivity.
Defined.
