(* ===== verification/EndToEnd.v ===== *)
(** * Precomputation, pools and online phase together

    How the parts of [mpc] compose: a verified extension batch is added to both
    pools, an online session reserves a range on the sender's side and consumes
    the same range on the receiver's side, and the OPRF runs on the OTs so
    obtained.  [pools_paired] is the contract between the two pools. *)

From S2P Require Import Prelude Bytes Label Slices Transpose Gf128 Crypto Circuit Oprf SenderPool.
From S2P Require Import ReceiverPool Cmac OtExtension BaseOt.

(** ** Paired pools *)

(** Both pools end at the same index, and every OT still in the sender's queue
    has its counterpart free in the receiver's pool. *)
Definition pools_paired (q : otQueue) (rp : ReceiverPool) : Prop :=
  rp_total rp = q_end q /\
  forall i s, q_items q !! i = Some s ->
    exists t, rp_free rp (q_next q + Z.of_nat i) = Some t /\ ot_pair s t.

Lemma pools_paired_new n m : pools_paired (mkQueue 0 []) (NewReceiverPool m) /\
  sender_repr (NewSenderPool n) (mkQueue 0 []) /\ receiver_ok (NewReceiverPool m).
Proof.
  split_and!; [|apply NewSenderPool_repr|apply NewReceiverPool_ok].
  split; [done|]. intros i s H. cbn [q_items] in H. by rewrite lookup_nil in H.
Qed.

Lemma validateSender_consecutive l start : 0 <= start -> start + Z.of_nat (length l) <= MaxUint64 ->
  Z.of_nat (length l) < 2 ^ 63 ->
  validateSenderOTIndices l start = Ok () <-> consecutive start l.
Proof.
  intros H0 H1 H2. unfold validateSenderOTIndices. rewrite checkedIndexEnd_fits by lia. cbn [mbind res_bind].
  pose proof (sender_indices_ok_spec l start 0 ltac:(lia) ltac:(lia)) as Hs. rewrite Z.add_0_r in Hs. rewrite <- Hs.
  by destruct (sender_indices_ok l start 0).
Qed.

(** Adding a correlated batch at the common end succeeds on both sides. *)
Lemma add_both sp q rp ss rs :
  sender_repr sp q -> receiver_ok rp -> rp_total rp = q_end q -> correlated ss rs ->
  validateSenderOTIndices ss (q_end q) = Ok () -> q_end q + Z.of_nat (length ss) <= MaxUint64 ->
  Z.of_nat (slen (sp_entries sp) + length ss) < 2 ^ 63 ->
  Z.of_nat (slen (rp_entries rp) + length ss) < 2 ^ 63 ->
  SenderPool_ValidateAdd sp ss = Ok () /\
  exists sp' rp', SenderPool_Add sp ss = (sp', Ok ()) /\ ReceiverPool_Add rp rs = (rp', Ok ()) /\
    (sender_repr sp' (q_add q ss) /\ sp_claim sp' = sp_claim sp) /\ receiver_ok rp' /\ after_add rp rp' rs.
Proof.
  intros Hs Hr Ht Hc Hv He Ls Lr. pose proof (Forall2_length _ _ _ Hc) as Lc.
  destruct (SenderPool_Add sp ss) as [sp' r] eqn:Ea. destruct (ReceiverPool_Add rp rs) as [rp' r'] eqn:Eb.
  assert (H0 : 0 <= q_end q) by (destruct Hs as (_ & ? & ? & _); unfold q_end; lia).
  assert (Hval : SenderPool_ValidateAdd sp ss = Ok ()).
  { apply (sender_validateAdd_iff sp q ss Hs); [lia|]. split; [done|].
    by apply validateSender_consecutive in Hv; [|lia..]. }
  assert (Hr1 : r = Ok ()).
  { unfold SenderPool_Add in Ea. fold SenderPool_ValidateAdd in Ea. rewrite Hval in Ea. destruct (appendWithWipedGrowth _ _ _). by injection Ea as _ <-. }
  assert (Hr2 : r' = Ok ()).
  { unfold ReceiverPool_Add in Eb. rewrite receiver_total in Eb by done. cbn [mbind res_bind] in Eb.
    rewrite Ht, <- Lc, checkedIndexEnd_fits in Eb by lia. cbn [mbind res_bind] in Eb.
    rewrite (correlated_validate ss rs _ Hc Hv) in Eb. destruct (appendWithWipedGrowth _ _ _). by injection Eb as _ <-. }
  subst r r'. split; [done|]. exists sp', rp'. split; [done|]. split; [done|].
  apply (SenderPool_Add_repr sp q) in Ea as [(_ & Hs' & Hcl)|[[m ?] _]]; [|done..].
  apply ReceiverPool_Add_spec in Eb as [(_ & Hr' & Hf & _)|[[m ?] _]]; [|done..|by rewrite <- Lc]. done.
Qed.

(** It also keeps the pools paired. *)
Lemma add_paired sp q rp ss rs :
  sender_repr sp q -> receiver_ok rp -> pools_paired q rp -> correlated ss rs ->
  validateSenderOTIndices ss (q_end q) = Ok () -> q_end q + Z.of_nat (length ss) <= MaxUint64 ->
  Z.of_nat (slen (sp_entries sp) + length ss) < 2 ^ 63 ->
  Z.of_nat (slen (rp_entries rp) + length ss) < 2 ^ 63 ->
  exists sp' rp', SenderPool_Add sp ss = (sp', Ok ()) /\ ReceiverPool_Add rp rs = (rp', Ok ()) /\
    sender_repr sp' (q_add q ss) /\ receiver_ok rp' /\ pools_paired (q_add q ss) rp'.
Proof.
  intros Hs Hr [Ht Hp] Hc Hv He Ls Lr. pose proof (Forall2_length _ _ _ Hc) as Lc.
  destruct (add_both sp q rp ss rs) as (_ & sp' & rp' & Ea & Eb & (Hs' & _) & Hr' & Hf & Ht' & _); [done..|].
  exists sp', rp'. split_and!; try done. split; [unfold q_end, q_add in *; cbn; rewrite length_app; lia|].
  intros i s Hi. cbn [q_add q_items q_next] in *. rewrite Hf. apply lookup_app_Some in Hi as [Hi|[Hge Hi]].
  - destruct (Hp i s Hi) as (t & Hft & Hpair). exists t. split; [|done].
    rewrite (proj2 (Z.ltb_lt _ _)); [done|]. apply lookup_lt_Some in Hi. unfold q_end in Ht. lia.
  - rewrite (proj2 (Z.ltb_ge _ _)) by (unfold q_end in Ht; lia).
    destruct (Forall2_lookup_l _ _ _ _ _ Hc Hi) as (t & Hft & Hpair). exists t. split; [|done].
    rewrite <- Hft. f_equal. unfold q_end in Ht. lia.
Qed.

(** Reserving on the sender's side and consuming the announced range on the
    receiver's side yields correlated OTs for the online phase. *)
Lemma take_paired sp q rp count sp' start ss :
  sender_repr sp q -> receiver_ok rp -> pools_paired q rp -> is_int count ->
  SenderPool_Reserve sp count = (sp', Ok (start, ss)) ->
  exists rp' rs, ReceiverPool_Consume rp start count = (rp', Ok rs) /\ correlated ss rs /\
    Z.of_nat (length ss) = count /\ validateSenderOTIndices ss start = Ok () /\
    exists q', sender_repr sp' q' /\ receiver_ok rp' /\ pools_paired q' rp'.
Proof.
  intros Hs Hr [Ht Hp] Hc E. apply (SenderPool_Reserve_repr sp q) in E; [|done..].
  unfold q_reserve in E. destruct (Z.ltb_spec 0 count); [|destruct E as [[m ?] _]; done].
  destruct (Z.leb_spec count (Z.of_nat (length (q_items q)))); cbn [andb] in E; [|destruct E as [[m ?] _]; done].
  destruct E as (E & Hs' & _). apply Ok_pair in E as [-> ->]. set (n := Z.to_nat count) in *.
  pose proof Hs as (_ & Hb & Hn & _ & _ & Hq & He & Hi).
  assert (Hst : is_u64 (q_next q)) by (unfold is_u64, q_end, MaxUint64 in *; lia).
  destruct (ReceiverPool_Consume rp (q_next q) count) as [rp' r'] eqn:Ec.
  apply ReceiverPool_Consume_spec in Ec; [|done..].
  assert (Hfree : range_free rp (q_next q) count).
  { split; [lia|]. intros k Hk. destruct (lookup_lt_is_Some_2 (q_items q) (Z.to_nat (k - q_next q))) as [s Hsl]; [lia|].
    destruct (Hp _ _ Hsl) as (t & Hft & _). replace (q_next q + Z.of_nat (Z.to_nat (k - q_next q))) with k in Hft by lia.
    by exists t. }
  destruct Ec as [(_ & Hr' & (Hf & Ht' & _ & _) & rs & -> & Lrs & Hrs)|[? _]]; [|done].
  exists rp', rs. split; [done|].
  assert (Lt : length (take n (q_items q)) = n) by (rewrite length_take; lia).
  split_and!; [|lia| |].
  - apply Forall2_same_length_lookup. split; [lia|]. intros i s t Hsi Hti.
    apply lookup_take_Some in Hsi as [Hsi Hlt]. destruct (Hp i s Hsi) as (t' & Hft & Hpair).
    rewrite Hrs, Hft in Hti by lia. by injection Hti as <-.
  - unfold is_int in Hc. apply validateSender_consecutive; [lia|unfold q_end in He; lia|lia|].
    intros i s [Hsi _]%lookup_take_Some. by apply Hq.
  - eexists. split; [exact Hs'|]. split; [done|]. split.
    + rewrite Ht', Ht. unfold q_end. cbn [q_next q_items]. rewrite length_drop. lia.
    + cbn [q_next q_items]. intros i s Hsi. rewrite lookup_drop in Hsi. destruct (Hp _ _ Hsi) as (t & Hft & Hpair).
      exists t. split; [|done]. rewrite Hf.
      replace (in_range (q_next q) count (q_next q + count + Z.of_nat i)) with false.
      * rewrite <- Hft. f_equal. lia.
      * symmetry. apply not_true_iff_false. rewrite in_range_spec. lia.
Qed.

(** ** From base OTs to the tag *)

Section Service.
Context {BC : BlockCipher} {SH : Sha256} `{CL : COLaws} (hw : bool) (compiled : res markCircuit).

(** The messages after the two parties have started their base OTs: seeds and
    correlation, one extension batch into fresh pools, one online session. *)
Definition run_service (ss : BaseOTSenderState) (rs : BaseOTReceiverState) (m2 : bytes)
    (rngT rngK rngO epoch session : bytes) (count : Z) (gIn eIn : bytes)
    (pool : list garbleScratch) (epool : list (list Label)) : res (bytes * bytes) :=
  '(m3, seeds) ← snd (FinishBaseOTSender (Some ss) m2);
  '(selected, delta) ← snd (FinishBaseOTReceiver (Some rs) m3);
  '(sots, rots) ← run_extension hw rngT rngK seeds selected delta epoch m3 session 0 count;
  let '(sp, added) := SenderPool_Add (NewSenderPool 0) sots in
  _ ← added;
  let '(rp, added) := ReceiverPool_Add (NewReceiverPool 0) rots in
  _ ← added;
  let '(sp, reserved) := SenderPool_Reserve sp (Z.of_nat OTsPerOPRF) in
  '(start, s) ← reserved;
  let '(rp, consumed) := ReceiverPool_Consume rp start (Z.of_nat OTsPerOPRF) in
  r ← consumed;
  run_oprf compiled rngO gIn eIn s r start pool epool.

(** What the two parties bring to the exchange. *)
Record service_inputs (c : markCircuit) (e : engine) (rngT rngK rngO epoch session : bytes) (count : Z)
    (gIn eIn : bytes) (pool : list garbleScratch) (epool : list (list Label)) : Prop := {
  si_compiled : compiled = Ok c;
  si_engine : newEngine (Some c) = Ok e;
  si_engine_ok : engine_ok e = true;
  si_source : compiles_source e;
  si_pool : pool_ok e pool;
  si_epool : epool_ok e epool;
  si_epoch : validateExtensionEpoch epoch = Ok ();
  si_count : Z.of_nat OTsPerOPRF <= count <= maxExtensionOTs;
  si_rngT : is_bytes rngT /\ (Z.to_nat count + 256 <= 8 * length rngT)%nat;
  si_rngK : is_bytes rngK /\ (Z.to_nat count + 128 <= 8 * length rngK)%nat;
  si_rngO : is_bytes rngO /\ (24 + random_size <= length rngO)%nat;
  si_gIn : length gIn = 80%nat /\ is_bytes gIn;
  si_eIn : length eIn = 80%nat /\ is_bytes eIn;
}.

(** C1: the paired service computes AES-CMAC. Once the two parties have started
    their base OTs, finishing them, running one OT extension batch through both
    pools and one garbled-circuit session always succeeds, and the evaluator's
    value and the garbler's verified value are both the RFC 4493 CMAC of the XOR
    of the data shares under the XOR of the key shares. *)
Theorem service_computes_cmac c e rngT rngK rngO epoch session count gIn eIn pool epool
    rngS rngR ss m1 rs m2 :
  service_inputs c e rngT rngK rngO epoch session count gIn eIn pool epool ->
  length session = 32%nat -> is_bytes rngS -> is_bytes rngR ->
  (forall s r', GenerateCOSenderSetup rngS = (Ok s, r') -> is_bytes r') ->
  fst (StartBaseOTSender (Some rngS) session) = Ok (ss, m1) ->
  fst (StartBaseOTReceiver (Some rngR) session m1) = Ok (rs, m2) ->
  let tag := rfc4493_cmac (xor_bytes (slice gIn 64 80) (slice eIn 64 80))
                          (xor_bytes (slice gIn 0 64) (slice eIn 0 64)) in
  run_service ss rs m2 rngT rngK rngO epoch session count gIn eIn pool epool = Ok (tag, tag).
Proof.
  intros [Hc He Hok Hsrc Hp Hep Hepoch Hcnt [BT LT] [BK LK] [BO LO] [Lg Bg] [Le Be]] Ls BS BR Hgen E1 E2 tag.
  destruct (base_ot_finish rngS rngR session ss m1 rs m2)
    as (m3 & seeds & selected & delta & F1 & F2 & Hbase & Od & Hd & Hm3); [done..|].
  unfold run_service. rewrite F1. cbn [mbind res_bind]. rewrite F2. cbn [mbind res_bind].
  unfold OTsPerOPRF, maxExtensionOTs in *.
  destruct (run_extension_correct hw rngT rngK seeds selected delta epoch m3 session 0 count)
    as (sots & rots & -> & Hcor & Lso & Hval).
  { split_and!; try done; unfold maxExtensionOTs, MaxUint64, InputBits in *; lia. }
  cbn [mbind res_bind].
  destruct (pools_paired_new 0 0) as (Hpp & Hsr & Hro).
  destruct (add_paired (NewSenderPool 0) (mkQueue 0 []) (NewReceiverPool 0) sots rots)
    as (sp & rp & -> & -> & Hs1 & Hr1 & Hp1); try done.
  { unfold q_end, MaxUint64. cbn [q_next q_items length]. lia. }
  { cbn [NewSenderPool sp_entries make_empty slen]. lia. }
  { cbn [NewReceiverPool rp_entries make_empty slen]. lia. }
  cbn [mbind res_bind].
  destruct (SenderPool_Reserve sp (Z.of_nat InputBits)) as [sp' r] eqn:Er.
  pose proof (SenderPool_Reserve_repr sp (q_add (mkQueue 0 []) sots) (Z.of_nat InputBits) sp' r Hs1 ltac:(by vm_compute) Er) as Hres.
  unfold q_reserve, q_add in Hres. cbn [q_items q_next app] in Hres.
  rewrite (proj2 (Z.leb_le (Z.of_nat InputBits) (Z.of_nat (length sots)))) in Hres by lia.
  change (0 <? Z.of_nat InputBits) with true in Hres. cbn [andb] in Hres. destruct Hres as (-> & _ & _).
  cbn [mbind res_bind].
  destruct (take_paired sp (q_add (mkQueue 0 []) sots) rp (Z.of_nat InputBits) sp' 0
              (take (Z.to_nat (Z.of_nat InputBits)) sots) Hs1 Hr1 Hp1 ltac:(by vm_compute) Er)
    as (rp' & rs' & -> & Hcor' & Ls' & Hv' & _).
  cbn [mbind res_bind]. apply (run_oprf_is_cmac compiled c e); try done. lia.
Qed.

End Service.

(** ** Pools stay paired *)

(** The joint history of the two pools: verified batches are added on both sides,
    ranges are reserved by the sender and consumed by the receiver. *)
Inductive pairOp := PBatch (ss : list SenderOT) (rs : list ReceiverOT) | PTake (count : Z).

(** What an online session gets out of the pools. *)
Definition pair_step (w : SenderPool * ReceiverPool) (o : pairOp)
    : SenderPool * ReceiverPool * option (Z * list SenderOT * list ReceiverOT) :=
  let '(sp, rp) := w in
  match o with
  | PBatch ss rs => (fst (SenderPool_Add sp ss), fst (ReceiverPool_Add rp rs), None)
  | PTake count =>
      match SenderPool_Reserve sp count with
      | (sp', Ok (start, ss)) =>
          match ReceiverPool_Consume rp start count with
          | (rp', Ok rs) => (sp', rp', Some (start, ss, rs))
          | (rp', _) => (sp', rp', None)
          end
      | (sp', _) => (sp', rp, None)
      end
  end.

Definition batch_ok (w : SenderPool * ReceiverPool) (o : pairOp) : Prop :=
  match o with
  | PBatch ss rs =>
      correlated ss rs /\ validateSenderOTIndices ss (SenderPool_TotalCount (fst w)) = Ok () /\
      SenderPool_TotalCount (fst w) + Z.of_nat (length ss) <= MaxUint64 /\
      Z.of_nat (slen (sp_entries (fst w)) + length ss) < 2 ^ 63 /\
      Z.of_nat (slen (rp_entries (snd w)) + length ss) < 2 ^ 63
  | PTake count => is_int count
  end.

Inductive paired_reachable : SenderPool * ReceiverPool -> Prop :=
| paired_init n m : paired_reachable (NewSenderPool n, NewReceiverPool m)
| paired_next w o : paired_reachable w -> batch_ok w o -> paired_reachable (fst (pair_step w o)).

Lemma paired_reachable_inv w : paired_reachable w ->
  exists q, sender_repr (fst w) q /\ receiver_ok (snd w) /\ pools_paired q (snd w).
Proof.
  induction 1 as [n m|[sp rp] o _ (q & Hs & Hr & Hp) Hb].
  { destruct (pools_paired_new n m) as (? & ? & ?). by exists (mkQueue 0 []). }
  cbn [fst snd] in *. destruct o as [ss rs|count]; cbn [pair_step batch_ok fst snd] in *.
  - destruct Hb as (Hc & Hv & He & L1 & L2). destruct (sender_Available sp q Hs) as (_ & Et & _). rewrite Et in *.
    destruct (add_paired sp q rp ss rs) as (sp' & rp' & -> & -> & Hs' & Hr' & Hp'); [done..|].
    by exists (q_add q ss).
  - destruct (SenderPool_Reserve sp count) as [sp' r] eqn:E. destruct r as [[start ss]|m|].
    + destruct (take_paired sp q rp count sp' start ss Hs Hr Hp Hb E) as (rp' & rs & -> & _ & _ & _ & q' & ? & ? & ?).
      by exists q'.
    + apply (SenderPool_Reserve_repr sp q) in E; [|done..]. destruct (q_reserve q count) as [[? ?]|]; [by destruct E|].
      destruct E as [_ ->]. by exists q.
    + apply (SenderPool_Reserve_repr sp q) in E; [|done..]. destruct (q_reserve q count) as [[? ?]|]; [by destruct E|].
      destruct E as [_ ->]. by exists q.
Qed.

(** the two pools stay in step. After any history of batches and sessions, a
    range that the garbler reserves is accepted by the evaluator, and the two
    parties hold correlated OTs of that range, ready for one online run. *)
Theorem reserved_range_is_correlated w count sp' start ss :
  paired_reachable w -> is_int count -> SenderPool_Reserve (fst w) count = (sp', Ok (start, ss)) ->
  exists rp' rs, ReceiverPool_Consume (snd w) start count = (rp', Ok rs) /\
    correlated ss rs /\ Z.of_nat (length ss) = count /\ validateSenderOTIndices ss start = Ok () /\
    validateReceiverOTIndices rs start = Ok ().
Proof.
  intros (q & Hs & Hr & Hp)%paired_reachable_inv Hc E.
  destruct (take_paired (fst w) q (snd w) count sp' start ss Hs Hr Hp Hc E) as (rp' & rs & Ec & Hcor & L & Hv & _).
  exists rp', rs. split_and!; [done..|]. by apply (correlated_validate ss).
Qed.

Lemma reserved_range_is_correlated_witness :
  exists sp' ss rp' rs,
    let w := fst (pair_step (NewSenderPool 0, NewReceiverPool 0)
                    (PBatch [mkSenderOT (mkLabel 1 2) (mkLabel 3 4) 0] [mkReceiverOT (mkLabel 3 4) 0 true])) in
    SenderPool_Reserve (fst w) 1 = (sp', Ok (0, ss)) /\
    ReceiverPool_Consume (snd w) 0 1 = (rp', Ok rs) /\ correlated ss rs.
Proof.
  eexists _, _.
  edestruct (reserved_range_is_correlated
    (fst (pair_step (NewSenderPool 0, NewReceiverPool 0)
       (PBatch [mkSenderOT (mkLabel 1 2) (mkLabel 3 4) 0] [mkReceiverOT (mkLabel 3 4) 0 true]))) 1)
    as (rp' & rs & E & Hc & _).
  - apply paired_next; [apply paired_init|]. cbn [batch_ok]. split_and!.
    + constructor; [|constructor]. split; reflexivity.
    + vm_compute. reflexivity.
    + vm_compute. discriminate.
    + vm_compute. reflexivity.
    + vm_compute. reflexivity.
  - vm_compute. split; [discriminate|reflexivity].
  - vm_compute. reflexivity.
  - exists rp', rs. cbv zeta. split; [vm_compute; reflexivity|]. split; [exact E|exact Hc].
Defined.

Lemma service_computes_cmac_witness :
  let tag := @rfc4493_cmac const_cipher (xor_bytes (slice (zeros 80) 64 80) (slice (zeros 80) 64 80))
               (xor_bytes (slice (zeros 80) 0 64) (slice (zeros 80) 0 64)) in
  @run_service const_cipher const_sha plain_co true (Ok xor_circuit) demo_ss demo_rs demo_m2
      (zeros 112) (zeros 96) (zeros (24 + random_size)) (str "kos2:x") demo_session 640
      (zeros 80) (zeros 80) [] [] = Ok (tag, tag).
Proof.
  apply (@service_computes_cmac const_cipher const_sha plain_co plain_co_laws true (Ok xor_circuit)
    xor_circuit xor_engine (zeros 112) (zeros 96) (zeros (24 + random_size)) (str "kos2:x") demo_session 640
    (zeros 80) (zeros 80) [] [] demo_rngS demo_rngR demo_ss demo_m1 demo_rs demo_m2).
  - split.
    + reflexivity.
    + exact xor_engine_new.
    + exact xor_engine_ok.
    + exact xor_engine_source.
    + constructor.
    + constructor.
    + vm_compute. reflexivity.
    + vm_compute. split; discriminate.
    + split; [apply zeros_bytes|vm_compute; lia].
    + split; [apply zeros_bytes|vm_compute; lia].
    + split; [apply zeros_bytes|]. unfold zeros. rewrite length_replicate. apply Nat.le_refl.
    + split; [apply length_replicate|apply zeros_bytes].
    + split; [apply length_replicate|apply zeros_bytes].
  - apply length_replicate.
  - exact demo_rngS_bytes.
  - exact demo_rngR_bytes.
  - exact demo_generate.
  - exact demo_start_sender.
  - exact demo_start_receiver.
Defined.
