(* ===== verification/Precompute.v ===== *)
(** * One precomputation batch, message by message

    The six computations that TEE_K and TEE_T make for one batch of OTs
    ([tee_k/ot_precompute.go], [tee_t/ot_precompute.go]) around the base OTs, the
    OT extension and their frames.  What the handlers need to know about them:
    the values of an honest exchange fit their frames, a frame decodes only for
    the batch it was made for, and the two ends of a batch are correlated. *)

From S2P Require Import Prelude Bytes Label Slices Transpose Gf128 Crypto Circuit Oprf SenderPool OtExtension BaseOt.
From S2P Require Import Wire ExtensionWire.

(** ** What the parties send fits the wire *)

Section Values.
Context {BC : BlockCipher} {SH : Sha256} (hw : bool).

Lemma check_columns_wf tM n mainBytes chi cols ts :
  (forall col, col ∈ cols -> length (column tM n col) = n /\ is_bytes (column tM n col)) ->
  Forall label_ok chi -> (mainBytes + 16 <= n)%nat -> (length chi * 16 <= n)%nat ->
  check_columns hw tM n mainBytes chi cols = Ok ts -> length ts = length cols /\ Forall label_ok ts.
Proof.
  intros Hcols Hchi H1 H2. revert ts. induction cols as [|col cols IH]; intros ts E.
  { apply (inj Ok) in E as <-. by split; [|constructor]. }
  cbn [check_columns] in E. apply bind_Ok in E as (c & Ec & E). apply bind_Ok in E as (r & Er & E).
  apply (inj Ok) in E as <-. destruct (Hcols col) as [L B]; [by left|].
  destruct (repetition_check_xor hw (column tM n col) (column tM n col) mainBytes chi)
    as (c' & _ & Ec' & _ & _ & Oc & _); [done..|lia|lia|].
  rewrite Ec in Ec'. apply (inj Ok) in Ec' as <-.
  destruct (IH (fun x Hx => Hcols x (list_elem_of_further x col cols Hx)) r Er) as [Lr Or].
  split; [cbn; lia|by constructor].
Qed.

(** The receiver's first message and the state it keeps. *)
Record honest_receiver (seeds : list BaseOTSeedPair) (b : PrecomputeBegin) (er : ExtensionReceiverState)
    (com : ExtensionCommitment) : Prop := {
  hr_state : er = mkReceiverState (extensionStateCommitment com) (r_choices er) (r_tMatrix er) false;
  hr_wf : wire_wf com;
  hr_begin : matches_begin com b;
  hr_choices : Z.of_nat (length (r_choices er)) = Z.quot (PaddedCount com) 8 /\ is_bytes (r_choices er);
  hr_columns : forall col, (col < BaseOTCount)%nat ->
    length (column (r_tMatrix er) (Z.to_nat (Z.quot (PaddedCount com) 8)) col)
      = Z.to_nat (Z.quot (PaddedCount com) 8) /\
    is_bytes (column (r_tMatrix er) (Z.to_nat (Z.quot (PaddedCount com) 8)) col);
}.

Lemma StartExtensionReceiver_honest r seeds b m3 er com rots :
  is_bytes r -> length seeds = BaseOTCount -> wire_wf b ->
  fst (StartExtensionReceiver (Some r) seeds (bEpoch b) m3 (bSessionID b) (bStartIndex b) (bCount b))
    = Ok (er, com, rots) ->
  honest_receiver seeds b er com.
Proof.
  intros Br Ls (L32 & Bs & _ & Hst & Hov & Hc & Hep) E. unfold StartExtensionReceiver in E.
  rewrite Hep in E. cbn [mbind res_bind] in E.
  destruct (validateBaseCipherForTranscript m3 (bSessionID b)) as [[]| |] eqn:Hv; [|done..]. cbn [mbind res_bind] in E.
  destruct (extensionPaddedCount (bCount b)) as [padded| |] eqn:Hp; [|done..]. cbn [mbind res_bind] in E.
  pose proof (padded_blocks _ _ Hp) as (k & Ek & Hk & Hp32 & Hc32 & _ & Erows & Erows' & _ & _ & EU).
  unfold is_u64, maxExtensionOTs in *. rewrite checkedIndexEnd_fits in E by lia. cbn [mbind res_bind] in E.
  rewrite Erows in E. destruct (ReadFull r (16 * k)) as [[choices r']|] eqn:Er; [|done]. cbn [fst] in E.
  apply ReadFull_Some in Er as [Lch ->]. apply Forall_app in Br as [Bch _].
  rewrite receiver_columns_Ok in E. cbn [mbind res_bind Nat.add] in E.
  destruct (honest_columns seeds (imap (fun j p => if deltaBit label_zero j then One p else Zero p) seeds) label_zero
              (bSessionID b) choices k) as ([LT BT] & [LU BU] & _ & Hcols); [|done..|].
  { split_and!; [done|by rewrite length_imap|]. intros col p Hcol. by rewrite list_lookup_imap, Hcol. }
  set (ts := imap (fun j p => prg (Zero p) (bSessionID b) j (16 * k)) seeds) in *. set (us := imap _ seeds) in *.
  apply bind_Ok in E as (raw & Hraw & E). apply bind_Ok in E as (rec & Hrec & E). apply (inj Ok) in E.
  apply pair_equal_spec in E as [E _]. apply pair_equal_spec in E as [<- <-].
  unfold u32 in *. rewrite !Z.mod_small in * by lia.
  assert (EQ : Z.quot padded 8 = Z.of_nat (16 * k)).
  { rewrite Ek, Z.quot_div_nonneg by lia. replace (Z.of_nat (128 * k)) with (Z.of_nat (16 * k) * 8) by lia.
    by rewrite Z.div_mul by lia. }
  split; cbn [r_commitment r_choices r_tMatrix PaddedCount].
  - done.
  - cbn [wire_wf commitment_codec cSessionID StartIndex Count PaddedCount EpochHash cTranscript U].
    unfold is_u64. split_and!; try done; try lia; try apply sha256_length; try apply sha256_bytes.
    rewrite LU, EU. unfold BaseOTCount. lia.
  - by split_and!.
  - rewrite EQ, Lch. by split.
  - intros col Hcol. rewrite EQ, Nat2Z.id. destruct (Hcols col Hcol) as (? & ? & _). done.
Qed.

Lemma StartExtensionSender_honest r sel delta epoch m3 com es ch :
  is_bytes r -> wire_wf com ->
  fst (StartExtensionSender hw (Some r) sel delta epoch m3 (Some com)) = Ok (es, ch) ->
  challenge_wf ch /\ chSessionID ch = cSessionID com /\
  Z.of_nat (length (Chi ch)) = extensionChallengeCount (PaddedCount com).
Proof.
  intros Br Hwf E. unfold StartExtensionSender in E. destruct (label_equal delta label_zero); [done|].
  destruct (validateExtensionCommitment epoch m3 (Some com)) as [[]| |]; [|done..].
  rewrite sender_columns_Ok in E. cbn [wire_wf commitment_codec] in Hwf.
  destruct Hwf as (L32 & Bs & _ & _ & Lt & Bt & _ & _ & _ & Hp & _).
  pose proof (padded_blocks _ _ Hp) as (k & Ek & Hk & Hp32 & Hc32 & Hck & _ & _ & _ & Echi & _).
  apply extensionPaddedCount_spec in Hp as (Hcnt & _ & Hrange). unfold maxExtensionOTs in Hcnt.
  rewrite Echi, Nat2Z.id in E. destruct (ReadFull r ((k - 1) * 16)) as [[random r']|] eqn:Er; [|done].
  apply ReadFull_Some in Er as [Lr ->]. apply Forall_app in Br as [Brd _]. cbn [fst] in E.
  apply bind_Ok in E as (checks & _ & E). apply bind_Ok in E as (rows & _ & E). apply (inj Ok) in E.
  apply pair_equal_spec in E as [_ <-]. destruct (chi_from_spec random (k - 1)) as [Lchi Ochi]; [lia|done|].
  cbn [chSessionID Chi]. split; [|by rewrite Lchi, Echi]. unfold challenge_wf.
  cbn [chSessionID Commitment chTranscript Chi]. rewrite Lchi. split_and!; try done; lia.
Qed.

Lemma FinishExtensionReceiver_honest seeds b er com ch pf :
  honest_receiver seeds b er com -> challenge_wf ch ->
  snd (FinishExtensionReceiver hw (Some er) (Some ch)) = Ok pf ->
  wire_wf pf /\ prSessionID pf = cSessionID com.
Proof.
  intros [Hst Hwf _ [Lc Bc] Hcols] Hch E. rewrite Hst in E. unfold FinishExtensionReceiver in E.
  cbn [r_used snd r_commitment r_choices r_tMatrix] in E.
  apply bind_Ok in E as (ch' & Hval & E). unfold validateExtensionChallenge in Hval. guards Hval.
  apply (inj Ok) in Hval as <-. cbn [cSessionID cTranscript PaddedCount extensionStateCommitment] in *.
  apply bind_Ok in E as ([x t] & Hpr & E). apply (inj Ok) in E as <-. unfold repetitionReceiverProof in Hpr.
  cbn [wire_wf commitment_codec] in Hwf. destruct Hwf as (L32 & Bs & _ & _ & _ & _ & _ & _ & _ & Hp & _).
  pose proof (padded_blocks _ _ Hp) as (k & Ek & Hk & _ & _ & _ & Erows & _ & Emain & Echi & _).
  rewrite Emain in Hpr. apply bind_Ok in Hpr as (x' & Hx & Hpr). apply bind_Ok in Hpr as (t' & Ht & Hpr).
  apply Ok_pair in Hpr as [<- <-]. unfold repetitionColumnChecks in Ht. rewrite Erows, Emain in Ht.
  destruct Hch as (_ & _ & _ & _ & Ochi & _ & Htr). rewrite Erows in Hcols.
  assert (Lchi : length (Chi ch) = (k - 1)%nat) by lia.
  assert (Lcs : length (r_choices er) = (16 * k)%nat) by lia.
  apply check_columns_wf in Ht as [LT OT]; [|intros col Hcol; apply Hcols; apply elem_of_seq in Hcol; lia|done|lia|lia].
  destruct (repetition_check_xor hw (r_choices er) (r_choices er) (16 * (k - 1)) (Chi ch))
    as (c' & _ & Ec' & _ & _ & Oc & _); [done..|lia|lia|]. rewrite Hx in Ec'. apply (inj Ok) in Ec' as <-.
  cbn [wire_wf proof_codec prSessionID prTranscript X T].
  split; [|done]. rewrite Htr. split_and!; try done; try apply sha256_length; try apply sha256_bytes.
Qed.

End Values.

(** ** Frames name their kind and their batch *)

Definition frame_tag (d : bytes) : bytes := slice d 0 4.

Lemma nested_frame_tag tag inner size session body m d : length (str tag) = 4%nat ->
  nested_frame tag inner size session body m = Ok d -> frame_tag d = str tag.
Proof.
  intros Lt E. unfold nested_frame in E. guards E. apply (inj Ok) in E as <-. by apply slice_app_hit.
Qed.

Lemma nested_unframe_spec tag inner size session d m m' body :
  nested_unframe tag inner size session d m m' = Ok body ->
  frame_tag d = str tag /\ session = slice d 4 36 /\ body = drop 36 d.
Proof.
  intros E. unfold nested_unframe in E. guards E. apply (inj Ok) in E as <-. by destruct G as [[_ ?] ?].
Qed.

(** Two readings of the same nested frame agree. *)
Lemma nested_agree tag inner size s s' body body' m m1 m2 d :
  length (str tag) = 4%nat -> length s' = 32%nat ->
  nested_frame tag inner size s' body' m = Ok d -> nested_unframe tag inner size s d m1 m2 = Ok body ->
  s = s' /\ body = body'.
Proof.
  intros Lt Ls E E'. apply (nested_roundtrip _ _ _ _ _ _ m1 m2) in E; [|done..].
  apply nested_unframe_spec in E as (_ & -> & ->), E' as (_ & -> & ->). done.
Qed.

Lemma begin_frame_tag b d : MarshalPrecomputeBegin b = Ok d -> frame_tag d = str "KOB2".
Proof.
  intros E. unfold MarshalPrecomputeBegin in E. apply bind_Ok in E as (? & _ & E). apply bind_Ok in E as (? & _ & E).
  apply bind_Ok in E as (? & _ & E). apply (inj Ok) in E as <-. by apply slice_app_hit.
Qed.

Lemma UnmarshalPrecomputeBegin_tag d b : UnmarshalPrecomputeBegin d = Ok b -> frame_tag d = str "KOB2".
Proof. intros E. unfold UnmarshalPrecomputeBegin in E. guards E. by destruct G. Qed.

Lemma UnmarshalCommitment_tag d cm c : UnmarshalPrecomputeCommitment d = Ok (cm, c) -> frame_tag d = str "KOF2".
Proof. intros E. unfold UnmarshalPrecomputeCommitment in E. guards E. by destruct G. Qed.

Lemma UnmarshalCommitmentFor_inv d b cm c : UnmarshalPrecomputeCommitmentFor d b = Ok (cm, c) ->
  UnmarshalPrecomputeCommitment d = Ok (cm, c) /\ matches_begin c b.
Proof.
  intros E. assert (Hv : ValidatePrecomputeCount (bCount b) = Ok ()).
  { unfold UnmarshalPrecomputeCommitmentFor in E. by apply bind_Ok in E as ([] & ? & _). }
  apply precheck_commitment_iff in E as (? & ? & _); done.
Qed.

Section Frames.
Context {SH : Sha256}.

Lemma challenge_frame_tag ch d : MarshalExtensionChallenge (Some ch) = Ok d -> frame_tag d = str "KCH2".
Proof. intros E. unfold MarshalExtensionChallenge in E. guards E. apply (inj Ok) in E as <-. by apply slice_app_hit. Qed.

Lemma proof_frame_tag p d : MarshalExtensionProof (Some p) = Ok d -> frame_tag d = str "KPR2".
Proof. intros E. apply (inj Ok) in E as <-. by apply slice_app_hit. Qed.

Lemma UnmarshalChallengeFor_inv d s n ch : UnmarshalExtensionChallengeFor d s n = Ok ch ->
  UnmarshalExtensionChallenge d = Ok ch /\ chSessionID ch = s /\ frame_tag d = str "KCH2".
Proof.
  intros E. unfold UnmarshalExtensionChallengeFor in E. apply bind_Ok in E as ([] & _ & E).
  apply bind_Ok in E as (w & _ & E). guards E. apply bind_Ok in E as (padded & _ & E). guards E.
  apply bind_Ok in E as (ch' & Hu & E). guards E. apply (inj Ok) in E as <-. by destruct G0.
Qed.

Lemma UnmarshalProofFor_inv d s p : UnmarshalExtensionProofFor d s = Ok p ->
  UnmarshalExtensionProof d = Ok p /\ prSessionID p = s /\ frame_tag d = str "KPR2".
Proof.
  intros E. unfold UnmarshalExtensionProofFor in E. guards E. destruct G as [[_ G] G'].
  split; [done|]. unfold UnmarshalExtensionProof in E. guards E. apply (inj Ok) in E as <-. done.
Qed.

(** The production decoders accept the frames of the batch they wait for. *)
Lemma challenge_for ch s count padded :
  challenge_wf ch -> chSessionID ch = s -> ValidatePrecomputeCount count = Ok () ->
  extensionPaddedCount count = Ok padded -> Z.of_nat (length (Chi ch)) = extensionChallengeCount padded ->
  exists d, MarshalExtensionChallenge (Some ch) = Ok d /\ is_bytes d /\
    UnmarshalExtensionChallengeFor d s count = Ok ch.
Proof.
  intros Hwf <- Hv Hp Lchi. destruct (@decode_encode _ _ challenge_laws ch Hwf) as (d & E & B & D). cbn [encode decode challenge_codec] in E, D.
  exists d. split_and!; [done..|]. unfold UnmarshalExtensionChallengeFor, PrecomputeChallengeWireSize.
  rewrite Hv. cbn [mbind res_bind]. rewrite Hp. cbn [mbind res_bind].
  pose proof (challenge_frame_tag ch d E) as Ht. unfold frame_tag in Ht.
  pose proof E as E'. unfold MarshalExtensionChallenge in E'. guards E'. apply (inj Ok) in E' as Ed.
  destruct Hwf as (L32 & Bs & Lc & Bc & _ & Hn & Htr).
  assert (Lt : length (chTranscript ch) = 32%nat) by (rewrite Htr; apply sha256_length).
  assert (Ld : length d = (104 + 16 * length (Chi ch))%nat).
  { rewrite <- Ed, !length_app, length_be_put, length_put_labels, L32, Lc, Lt. change (length (str "KCH2")) with 4%nat. lia. }
  assert (S1 : slice d 4 36 = chSessionID ch) by (rewrite <- Ed; by field).
  assert (S2 : slice d 100 104 = be_put 4 (u32 (Z.of_nat (length (Chi ch))))) by (rewrite <- Ed; by field).
  unfold extensionChallengeHeaderSize.
  rewrite (proj2 (Z.eqb_eq (Z.of_nat (length d)) _)) by lia. rewrite Ht, S1, S2, !bytes_eqb_refl. cbn [negb orb].
  rewrite be_count by lia. unfold u32. rewrite Z.mod_small by lia. rewrite Lchi, Z.eqb_refl. cbn [negb].
  rewrite D. cbn [mbind res_bind]. by rewrite bytes_eqb_refl.
Qed.

Lemma proof_for p s : wire_wf p -> prSessionID p = s ->
  exists d, MarshalExtensionProof (Some p) = Ok d /\ is_bytes d /\ UnmarshalExtensionProofFor d s = Ok p.
Proof.
  intros Hwf <-. destruct (decode_encode p Hwf) as (d & E & B & D). cbn [encode decode proof_codec] in E, D.
  exists d. split_and!; [done..|]. unfold UnmarshalExtensionProofFor.
  pose proof (proof_frame_tag p d E) as Ht. unfold frame_tag in Ht.
  assert (Ld : length d = extensionProofSize /\ slice d 4 36 = prSessionID p).
  { unfold UnmarshalExtensionProof in D. guards D.
    apply (inj Ok) in D as <-. by destruct G. }
  destruct Ld as [Ld S1]. rewrite Ld, Nat.eqb_refl, Ht, S1, !bytes_eqb_refl. done.
Qed.

End Frames.

(** ** The exchange *)

Section Exchange.
Context {BC : BlockCipher} {SH : Sha256} `{CL : COLaws} (hw : bool).

(** [rand.Reader]: bytes, as many as any step of a batch reads; what the OT
    library leaves of them is bytes again. *)
Definition good_coins (r : bytes) : Prop :=
  is_bytes r /\ MaxPrecomputeOTs + 256 <= 8 * Z.of_nat (length r) /\
  forall s r', GenerateCOSenderSetup r = (Ok s, r') -> is_bytes r'.

(** A batch that TEE_K may open. *)
Definition batch_wf (b : PrecomputeBegin) : Prop := wire_wf b /\ bCount b <= MaxPrecomputeOTs.

Lemma batch_wf_validate b : batch_wf b -> ValidatePrecomputeCount (bCount b) = Ok ().
Proof.
  intros [(_ & _ & _ & _ & _ & Hc & _) Hm]. unfold ValidatePrecomputeCount.
  by rewrite (proj2 (Z.leb_gt _ _)), (proj2 (Z.ltb_ge _ _)) by lia.
Qed.

(** Once both parties have started their base OTs, every later step of the
    exchange succeeds, its values fit their frames and the results are a
    correlated batch at the announced indices. *)
Lemma exchange_forward b r1 r2 r3 r4 bs m1 br m2 :
  batch_wf b -> good_coins r1 -> good_coins r2 -> good_coins r3 -> good_coins r4 ->
  fst (StartBaseOTSender (Some r1) (bSessionID b)) = Ok (bs, m1) ->
  fst (StartBaseOTReceiver (Some r2) (bSessionID b) m1) = Ok (br, m2) ->
  exists m3 seeds sel delta er com rots es ch pf sots,
    snd (FinishBaseOTSender (Some bs) m2) = Ok (m3, seeds) /\
    fst (StartExtensionReceiver (Some r3) seeds (bEpoch b) m3 (bSessionID b) (bStartIndex b) (bCount b))
      = Ok (er, com, rots) /\
    snd (FinishBaseOTReceiver (Some br) m3) = Ok (sel, delta) /\
    fst (StartExtensionSender hw (Some r4) sel delta (bEpoch b) m3 (Some com)) = Ok (es, ch) /\
    snd (FinishExtensionReceiver hw (Some er) (Some ch)) = Ok pf /\
    snd (FinishExtensionSender (Some es) (Some pf)) = Ok sots /\
    (correlated sots rots /\ Z.of_nat (length sots) = bCount b /\
     validateSenderOTIndices sots (bStartIndex b) = Ok ()) /\
    validateBaseCipherForTranscript m3 (bSessionID b) = Ok () /\
    honest_receiver seeds b er com /\
    (challenge_wf ch /\ chSessionID ch = bSessionID b /\
     Z.of_nat (length (Chi ch)) = extensionChallengeCount (PaddedCount com)) /\
    wire_wf pf /\ prSessionID pf = bSessionID b.
Proof.
  intros [Hwf Hm] (B1 & _ & G1) (B2 & _ & _) (B3 & L3 & _) (B4 & L4 & _) E1 E2.
  pose proof Hwf as (L32 & Bs & _ & Hst & Hov & Hc & Hep). unfold is_u64 in Hst.
  destruct (base_ot_finish r1 r2 (bSessionID b) bs m1 br m2)
    as (m3 & seeds & sel & delta & F1 & F2 & Hbase & Od & Hd & Hm3); [done..|].
  destruct (run_extension_correct hw r3 r4 seeds sel delta (bEpoch b) m3 (bSessionID b) (bStartIndex b) (bCount b))
    as (sots & rots & E & Hcor & Lso & Hval).
  { split_and!; try done; lia. }
  unfold run_extension in E. apply bind_Ok in E as ([[er com] rots'] & X1 & E).
  apply bind_Ok in E as ([es ch] & X2 & E). apply bind_Ok in E as (pf & X3 & E).
  apply bind_Ok in E as (sots' & X4 & E). apply Ok_pair in E as [-> ->].
  pose proof (StartExtensionReceiver_honest r3 seeds b m3 er com rots B3 (proj1 Hbase) Hwf X1) as Hr.
  pose proof Hr as [_ Hcw [Hcs _] _ _].
  destruct (StartExtensionSender_honest hw r4 sel delta (bEpoch b) m3 com es ch B4 Hcw X2) as (Hch & Hchs & Lch).
  destruct (FinishExtensionReceiver_honest hw seeds b er com ch pf Hr Hch X3) as (Hpf & Hps).
  exists m3, seeds, sel, delta, er, com, rots, es, ch, pf, sots. split_and!; try done; congruence.
Qed.

End Exchange.
