(* ===== verification/PrecomputeSender.v ===== *)
(** * TEE_K's side of OT precomputation ([tee_k/ot_precompute.go])

    TEE_K owns the sender pool and drives every batch.  One mutex guards the
    pool state, another the identity of the control connection; curve work and
    writes happen outside both, so a handler is a sequence of critical sections
    with other goroutines between them.  Here each critical section is a
    function on [TEEK], and [kthread] is what a goroutine carries from one to the
    next: the pending batch it works for, the control connection it came from and
    the values it captured.  [response_enter] and [thread_run] are the sections
    of [handleOTPrecomputeResponse] and [completeSenderPrecompute];
    [perform_preflight] and [perform_setup] those of
    [performOTPrecomputationWithClaim].

    Pointers that are compared (pending batches, refill claims, resume requests,
    connections) are addresses.  The pool state is allocated once, so a goroutine
    that saw it holds the current one. *)

From S2P Require Import Prelude Bytes Label Slices Transpose Crypto Circuit Oprf SenderPool OtExtension BaseOt.
From S2P Require Import Wire ExtensionWire Precompute.

(** ** Messages of the control connection *)

Inductive otMessage :=
| OTPrecomputeRequest (count : Z) (setup : bytes) (isInitial : bool) (epoch : bytes)
| OTPrecomputeResponse (count : Z) (data : bytes)
| OTPrecomputeComplete (poolSize : Z)
| OTResumeRequest (epoch : bytes) (nextIndex : Z)
| OTResumeResponse (accepted : bool).

(** [controlConnectionToken]: a connection and its generation. *)
Record token := mkToken { t_conn : nat; t_gen : Z }.

#[export] Instance token_eq_dec : EqDecision token.
Proof. solve_decision. Defined.

Inductive senderPrecomputePhase :=
| senderPrecomputeAwaitBaseSetup
| senderPrecomputeAwaitCommitment
| senderPrecomputeProcessingCommitment
| senderPrecomputeAwaitProof
| senderPrecomputeProcessingProof.

#[export] Instance senderPhase_eq_dec : EqDecision senderPrecomputePhase.
Proof. solve_decision. Defined.

Section State.
Context `{CO : COLib}.

Record senderPrecompute := mkSenderPrecompute {
  sn_id : nat;
  sn_session : bytes;
  sn_count : Z;
  sn_start : Z;
  sn_initial : bool;
  sn_base : option BaseOTReceiverState;
  sn_ext : option ExtensionSenderState;
  sn_phase : senderPrecomputePhase;
  sn_control : token;
  sn_claim : option nat;
}.

Record OTPrecomputeState := mkOTState {
  os_pool : SenderPool;
  os_ready : bool;
  os_inconsistent : bool;
  os_epoch : bytes;
  os_resumeChan : option (token * bool);
  os_resumePending : option (nat * token);
  os_pending : option senderPrecompute;
}.

Definition NewOTPrecomputeState : OTPrecomputeState :=
  mkOTState (NewSenderPool (Z.to_nat OTPoolInitialSize)) false false [] None None None.

(** The fields of [TEEK] and of its connection manager that precomputation
    touches; [tk_signals] are the results sent on the [done] channels, [tk_closed]
    the connections closed. *)
Record TEEK := mkTEEK {
  tk_ot : option OTPrecomputeState;
  tk_otReady : bool;
  tk_controlHealthy : bool;
  tk_conn : option nat;
  tk_generation : Z;
  tk_attested : bool;
  tk_alloc : nat;
  tk_signals : gmap nat (res unit);
  tk_closed : list nat;
}.

Definition NewTEEK : TEEK := mkTEEK None false false None 0 false 0 ∅ [].

(** *** Field updates *)

Definition set_pool (p : SenderPool) (s : OTPrecomputeState) : OTPrecomputeState :=
  mkOTState p (os_ready s) (os_inconsistent s) (os_epoch s) (os_resumeChan s) (os_resumePending s) (os_pending s).
Definition set_ready (r : bool) (s : OTPrecomputeState) : OTPrecomputeState :=
  mkOTState (os_pool s) r (os_inconsistent s) (os_epoch s) (os_resumeChan s) (os_resumePending s) (os_pending s).
Definition set_inconsistent (i : bool) (s : OTPrecomputeState) : OTPrecomputeState :=
  mkOTState (os_pool s) (os_ready s) i (os_epoch s) (os_resumeChan s) (os_resumePending s) (os_pending s).
Definition set_epoch (e : bytes) (s : OTPrecomputeState) : OTPrecomputeState :=
  mkOTState (os_pool s) (os_ready s) (os_inconsistent s) e (os_resumeChan s) (os_resumePending s) (os_pending s).
Definition set_resumeChan (c : option (token * bool)) (s : OTPrecomputeState) : OTPrecomputeState :=
  mkOTState (os_pool s) (os_ready s) (os_inconsistent s) (os_epoch s) c (os_resumePending s) (os_pending s).
Definition set_resumePending (r : option (nat * token)) (s : OTPrecomputeState) : OTPrecomputeState :=
  mkOTState (os_pool s) (os_ready s) (os_inconsistent s) (os_epoch s) (os_resumeChan s) r (os_pending s).
Definition set_pending (p : option senderPrecompute) (s : OTPrecomputeState) : OTPrecomputeState :=
  mkOTState (os_pool s) (os_ready s) (os_inconsistent s) (os_epoch s) (os_resumeChan s) (os_resumePending s) p.

Definition set_phase (ph : senderPrecomputePhase) (p : senderPrecompute) : senderPrecompute :=
  mkSenderPrecompute (sn_id p) (sn_session p) (sn_count p) (sn_start p) (sn_initial p) (sn_base p) (sn_ext p)
    ph (sn_control p) (sn_claim p).
Definition set_base (b : BaseOTReceiverState) (p : senderPrecompute) : senderPrecompute :=
  mkSenderPrecompute (sn_id p) (sn_session p) (sn_count p) (sn_start p) (sn_initial p) (Some b) (sn_ext p)
    (sn_phase p) (sn_control p) (sn_claim p).
Definition set_ext (e : ExtensionSenderState) (p : senderPrecompute) : senderPrecompute :=
  mkSenderPrecompute (sn_id p) (sn_session p) (sn_count p) (sn_start p) (sn_initial p) (sn_base p) (Some e)
    (sn_phase p) (sn_control p) (sn_claim p).

Definition set_ot (s : OTPrecomputeState) (k : TEEK) : TEEK :=
  mkTEEK (Some s) (tk_otReady k) (tk_controlHealthy k) (tk_conn k) (tk_generation k) (tk_attested k)
    (tk_alloc k) (tk_signals k) (tk_closed k).
Definition set_otReady (b : bool) (k : TEEK) : TEEK :=
  mkTEEK (tk_ot k) b (tk_controlHealthy k) (tk_conn k) (tk_generation k) (tk_attested k)
    (tk_alloc k) (tk_signals k) (tk_closed k).
Definition set_healthy (b : bool) (k : TEEK) : TEEK :=
  mkTEEK (tk_ot k) (tk_otReady k) b (tk_conn k) (tk_generation k) (tk_attested k)
    (tk_alloc k) (tk_signals k) (tk_closed k).
Definition set_control (c : option nat) (g : Z) (a : bool) (k : TEEK) : TEEK :=
  mkTEEK (tk_ot k) (tk_otReady k) (tk_controlHealthy k) c g a (tk_alloc k) (tk_signals k) (tk_closed k).
Definition set_alloc (n : nat) (k : TEEK) : TEEK :=
  mkTEEK (tk_ot k) (tk_otReady k) (tk_controlHealthy k) (tk_conn k) (tk_generation k) (tk_attested k)
    n (tk_signals k) (tk_closed k).
Definition close_conn (c : nat) (k : TEEK) : TEEK :=
  mkTEEK (tk_ot k) (tk_otReady k) (tk_controlHealthy k) (tk_conn k) (tk_generation k) (tk_attested k)
    (tk_alloc k) (tk_signals k) (c :: tk_closed k).

(** ** Readiness *)

Definition otPoolUsableLocked (s : option OTPrecomputeState) : bool :=
  match s with
  | None => false
  | Some s => os_ready s && negb (os_inconsistent s) && (Z.of_nat OTsPerOPRF <=? SenderPool_Available (os_pool s))
  end.

Definition isOTPoolReady (k : TEEK) : bool := otPoolUsableLocked (tk_ot k).

(** Stores the state and publishes its readiness, as one critical section does. *)
Definition publishOTReadyLocked (s : OTPrecomputeState) (k : TEEK) : TEEK :=
  set_otReady (otPoolUsableLocked (Some s)) (set_ot s k).

(** The [done] channel holds one result; later ones are dropped. *)
Definition signalSenderPrecompute (p : nat) (r : res unit) (k : TEEK) : TEEK :=
  match tk_signals k !! p with
  | Some _ => k
  | None => mkTEEK (tk_ot k) (tk_otReady k) (tk_controlHealthy k) (tk_conn k) (tk_generation k) (tk_attested k)
              (tk_alloc k) (<[p := r]> (tk_signals k)) (tk_closed k)
  end.

(** ** The control connection *)

Definition isCurrentControlConnection (k : TEEK) (t : token) : bool :=
  bool_decide (tk_conn k = Some (t_conn t)) && (tk_generation k =? t_gen t).

Definition currentAttestedControlToken (k : TEEK) : res token :=
  match tk_conn k with
  | None => Err "no TEE_T control connection available"
  | Some c => if negb (tk_attested k) then Err "TEE_T control attestation not verified"
              else Ok (mkToken c (tk_generation k))
  end.

(** [connectAndServe]: dial and attest, then install the connection.  [attemptControlConnection], its first line, has set
    [attestationVerified] before it returned; until the connection is installed the flag has no effect, because every
    reader requires the connection as well, so the two are one step. *)
Definition establishControl (c : nat) (k : TEEK) : TEEK :=
  set_control (Some c) (add64 (tk_generation k) 1) true k.

(** The state of [k] points to the pending batch [p]. *)
Definition pending_is (s : OTPrecomputeState) (p : nat) : bool :=
  match os_pending s with Some q => bool_decide (sn_id q = p) | None => false end.

(** ** Opening a batch *)

(** What a goroutine knows after the preflight: the connection it will use, the
    start index and whether the pool state was still to be allocated. *)
Record preflight := mkPreflight { pf_origin : token; pf_start : Z; pf_fresh : bool }.

Definition perform_preflight (k : TEEK) (count : Z) (isInitial : bool) (claim : option nat)
    (expectedOrigin : option token) : res preflight :=
  _ ← ValidatePrecomputeCount count;
  fail_if (negb isInitial && bool_decide (claim = None)) "OT extension has no ownership claim";;
  fail_if (isInitial && (negb (bool_decide (claim = None)) || negb (bool_decide (expectedOrigin = None))))
    "initial OT precomputation cannot use an extension claim";;
  origin ← match expectedOrigin with Some o => Ok o | None => currentAttestedControlToken k end;
  fail_if (negb (isCurrentControlConnection k origin))
    "TEE_T control connection changed before OT precomputation preflight";;
  match tk_ot k with
  | None =>
      fail_if (negb isInitial) "OT refill claim has no sender pool";;
      _ ← checkedIndexEnd 0 count;
      Ok (mkPreflight origin 0 true)
  | Some s =>
      fail_if (negb (bool_decide (os_pending s = None))) "OT precomputation already in progress";;
      if isInitial then _ ← checkedIndexEnd 0 count; Ok (mkPreflight origin 0 false) else
      fail_if (negb (os_ready s)) "cannot extend: OT pool not ready";;
      fail_if (negb (SenderPool_OwnsExtendClaim (os_pool s) claim)) "OT refill claim was lost before preflight";;
      let startIndex := SenderPool_TotalCount (os_pool s) in
      _ ← checkedIndexEnd startIndex count;
      Ok (mkPreflight origin startIndex false)
  end.

(** [newV4UUIDFromReader] and [uuid.UUID.String]. *)
Definition newV4UUIDFromReader (rng : bytes) : option (bytes * bytes) :=
  match ReadFull rng 16 with
  | None => None
  | Some (id, rng) =>
      let b6 := Z.lor (Z.land (nth 6 id 0) 15) 64 in
      let b8 := Z.lor (Z.land (nth 8 id 0) 63) 128 in
      Some (<[8%nat := b8]> (<[6%nat := b6]> id), rng)
  end.

Definition uuid_String (id : bytes) : bytes :=
  hex_encode (slice id 0 4) ++ str "-" ++ hex_encode (slice id 4 6) ++ str "-" ++ hex_encode (slice id 6 8)
  ++ str "-" ++ hex_encode (slice id 8 10) ++ str "-" ++ hex_encode (slice id 10 16).

Definition newSenderPrecomputeIdentity (rng : bytes) (startIndex count : Z) (isInitial : bool)
    : res (bytes * bytes) :=
  _ ← checkedIndexEnd startIndex count;
  match NewExtensionSession (Some rng) with
  | (Ok session, Some rng) =>
      if negb isInitial then Ok (session, []) else
      match newV4UUIDFromReader rng with
      | None => Err "sample initial OT extension epoch"
      | Some (nonce, _) => epoch ← InitialExtensionEpoch (uuid_String nonce); Ok (session, epoch)
      end
  | (Err m, _) => Err m
  | _ => Panic
  end.

(** What a goroutine carries between two critical sections. *)
Inductive kthread :=
| KSendBegin (p : nat) (ctl : token) (count : Z) (isInitial : bool) (epoch frame : bytes)
| KBaseSetup (p : nat) (ctl : token) (session data : bytes)
| KSendChoices (p : nat) (ctl : token) (count : Z) (isInitial : bool) (epoch frame : bytes)
| KCommitment (p : nat) (ctl : token) (base : option BaseOTReceiverState) (expected : PrecomputeBegin) (data : bytes)
| KSendChallenge (p : nat) (ctl : token) (count : Z) (isInitial : bool) (epoch frame : bytes)
| KProof (pending : senderPrecompute) (data : bytes)
| KSendComplete (pending : senderPrecompute) (entries : list SenderOT) (expectedTotal : Z)
| KCommit (pending : senderPrecompute) (entries : list SenderOT).

(** The second critical section of [performOTPrecomputationWithClaim]: from the
    preflight and the fresh identity to the pending batch and the first frame.
    The batch's address is the next free one. *)
Definition perform_setup (k : TEEK) (pf : preflight) (count : Z) (isInitial : bool) (claim : option nat)
    (session initialEpoch : bytes) : TEEK * res kthread :=
  let origin := pf_origin pf in
  if negb (isCurrentControlConnection k origin)
  then (k, Err "TEE_T control connection changed before OT precomputation setup") else
  match match tk_ot k with
        | None => if negb isInitial then Err "OT refill state disappeared after preflight"
                  else Ok NewOTPrecomputeState
        | Some s => if pf_fresh pf then Err "OT precompute state changed after preflight" else Ok s
        end with
  | Err m => (k, Err m)
  | Panic => (k, Panic)
  | Ok s =>
      let k := set_ot s k in
      if negb (bool_decide (os_pending s = None)) then (k, Err "OT precomputation already in progress") else
      let '(k, s, checked) :=
        if isInitial then
          let s := set_ready false (set_pool (SenderPool_Clear (os_pool s)) (set_epoch initialEpoch s)) in
          (publishOTReadyLocked s k, s, Ok ())
        else
          (k, s, if negb (os_ready s) then Err "cannot extend: OT pool not ready" else
                 if negb (SenderPool_OwnsExtendClaim (os_pool s) claim)
                 then Err "OT refill claim was lost before setup" else Ok ()) in
      let currentStart := if isInitial then 0 else SenderPool_TotalCount (os_pool s) in
      let b := mkBegin session (pf_start pf) (u32 count) (os_epoch s) in
      match (_ ← checked;
             fail_if (negb (currentStart =? pf_start pf)) "OT pool frontier changed after preflight";;
             _ ← checkedIndexEnd currentStart count;
             MarshalPrecomputeBegin b) with
      | Err m => (k, Err m)
      | Panic => (k, Panic)
      | Ok beginData =>
          let p := tk_alloc k in
          let pending := mkSenderPrecompute p session count currentStart isInitial None None
                           senderPrecomputeAwaitBaseSetup origin claim in
          (set_alloc (S p) (set_ot (set_pending (Some pending) s) k),
           Ok (KSendBegin p origin count isInitial (os_epoch s) beginData))
      end
  end.

(** ** Giving up a batch *)

Definition failPendingPrecompute (k : TEEK) (p : nat) (m : error) : TEEK * bool :=
  match tk_ot k with
  | None => (k, false)
  | Some s =>
      if pending_is s p then
        (signalSenderPrecompute p (Err m) (set_ot (set_pending None s) k), true)
      else (k, false)
  end.

Definition failPendingPrecomputeAndClear (k : TEEK) (pending : senderPrecompute) (m : error) : TEEK * bool :=
  match tk_ot k with
  | None => (k, false)
  | Some s =>
      if negb (pending_is s (sn_id pending)) then (k, false) else
      let '(pool, owned) :=
        if sn_initial pending then (SenderPool_Clear (os_pool s), true)
        else SenderPool_ClearForExtendFailure (os_pool s) (sn_claim pending) in
      if negb owned then (k, false) else
      let s := set_pending None (set_ready false (set_pool pool s)) in
      (signalSenderPrecompute (sn_id pending) (Err m) (publishOTReadyLocked s k), true)
  end.

(** A failed refill: service goes on while one circuit is left, otherwise the
    connection that owned the refill is closed. *)
Definition recoverFailedClaimedOTExtension (k : TEEK) (claim : option nat) (origin : option token)
    : TEEK * bool :=
  match tk_ot k, origin with
  | None, _ => (k, false)
  | Some s, None =>
      let '(pool, _) := SenderPool_ReleaseExtendClaim (os_pool s) claim in
      (publishOTReadyLocked (set_pool pool s) k, false)
  | Some s, Some origin =>
      let '(pool, released) := SenderPool_ReleaseExtendClaim (os_pool s) claim in
      let s := set_pool pool s in
      if negb released then (k, false) else
      if negb (isCurrentControlConnection k origin) then (set_ot s k, false) else
      let usable := otPoolUsableLocked (Some s) in
      let s := if usable then s else set_inconsistent true s in
      let k := publishOTReadyLocked s k in
      if usable then (k, false) else (close_conn (t_conn origin) (set_healthy false k), true)
  end.

End State.

Section Handlers.
Context {BC : BlockCipher} {SH : Sha256} `{CO : COLib} (hw : bool).

(** ** The responses of TEE_T *)

(** The first critical section of [handleOTPrecomputeResponse]: find the pending
    batch of this connection and move its phase. *)
Definition response_enter (k : TEEK) (ctl : token) (count : Z) (data : bytes) : TEEK * res kthread :=
  match tk_ot k with
  | None => (k, Err "OT precompute state not initialized")
  | Some s =>
      if negb (isCurrentControlConnection k ctl)
      then (k, Err "OT precompute response control connection is no longer current") else
      match os_pending s with
      | None => (k, Err "unexpected OT precompute response")
      | Some p =>
          if negb (bool_decide (sn_control p = ctl))
          then (k, Err "OT precompute response belongs to a superseded control connection") else
          if negb (count =? sn_count p)
          then (fst (failPendingPrecompute k (sn_id p) "OT count mismatch"), Err "OT count mismatch") else
          let move ph := set_ot (set_pending (Some (set_phase ph p)) s) k in
          match sn_phase p with
          | senderPrecomputeAwaitBaseSetup =>
              (move senderPrecomputeAwaitCommitment, Ok (KBaseSetup (sn_id p) ctl (sn_session p) data))
          | senderPrecomputeAwaitCommitment =>
              (move senderPrecomputeProcessingCommitment,
               Ok (KCommitment (sn_id p) ctl (sn_base p)
                     (mkBegin (sn_session p) (sn_start p) (u32 (sn_count p)) (os_epoch s)) data))
          | senderPrecomputeAwaitProof =>
              (move senderPrecomputeProcessingProof,
               Ok (KProof (set_phase senderPrecomputeProcessingProof p) data))
          | _ => (k, Err "unexpected OT precompute response phase")
          end
      end
  end.

(** What a step of a goroutine leaves: the state, the goroutine's next part if it
    goes on, the message written. *)
Definition outcome : Type := TEEK * option kthread * option otMessage.

Definition stop (k : TEEK) : outcome := (k, None, None).
Definition fail_batch (k : TEEK) (p : nat) (m : error) : outcome := stop (fst (failPendingPrecompute k p m)).

(** Base OT: the choices are published only while the exact connection and batch
    are still current. *)
Definition run_base_setup (k : TEEK) (p : nat) (ctl : token) (session data coins : bytes) : outcome :=
  match (setup ← UnmarshalPrecomputeBaseSetup data session;
         '(base, choices) ← fst (StartBaseOTReceiver (Some coins) session setup);
         frame ← MarshalPrecomputeBaseChoices session choices;
         Ok (base, frame)) with
  | Err m => fail_batch k p m
  | Panic => stop k
  | Ok (base, frame) =>
      match tk_ot k with
      | None => stop k
      | Some s =>
          match os_pending s with
          | None => stop k
          | Some q =>
              if negb (isCurrentControlConnection k ctl) || negb (bool_decide (sn_id q = p))
                 || negb (bool_decide (sn_control q = ctl)) || negb (bool_decide (sn_base q = None))
                 || negb (bool_decide (sn_phase q = senderPrecomputeAwaitCommitment))
              then stop k
              else (set_ot (set_pending (Some (set_base base q)) s) k,
                    Some (KSendChoices p ctl (sn_count q) (sn_initial q) (os_epoch s) frame), None)
          end
      end
  end.

(** The commitment: finish the base OT, start the extension, answer with the
    challenge. *)
Definition run_commitment (k : TEEK) (p : nat) (ctl : token) (base : option BaseOTReceiverState)
    (expected : PrecomputeBegin) (data coins : bytes) : outcome :=
  match ('(ciphertexts, commitment) ← UnmarshalPrecomputeCommitmentFor data expected;
         '(selected, delta) ← snd (FinishBaseOTReceiver base ciphertexts);
         '(extension, challenge) ← fst (StartExtensionSender hw (Some coins) selected delta (bEpoch expected)
                                          ciphertexts (Some commitment));
         frame ← MarshalExtensionChallenge (Some challenge);
         Ok (extension, frame)) with
  | Err m => fail_batch k p m
  | Panic => stop k
  | Ok (extension, frame) =>
      match tk_ot k with
      | None => stop k
      | Some s =>
          match os_pending s with
          | None => stop k
          | Some q =>
              if negb (isCurrentControlConnection k ctl) || negb (bool_decide (sn_id q = p))
                 || negb (bool_decide (sn_control q = ctl))
                 || negb (bool_decide (sn_phase q = senderPrecomputeProcessingCommitment))
              then stop k
              else (set_ot (set_pending (Some (set_phase senderPrecomputeAwaitProof (set_ext extension q))) s) k,
                    Some (KSendChallenge p ctl (bCount expected) (sn_initial q) (bEpoch expected) frame), None)
          end
      end
  end.

(** [completeSenderPrecompute] up to the acknowledgment: the batch must still be
    the pending one, its refill claim held, the pool where the batch starts. *)
Definition complete_validate (k : TEEK) (pending : senderPrecompute) (entries : list SenderOT) : outcome :=
  match checkedIndexEnd (sn_start pending) (Z.of_nat (length entries)) with
  | Err _ | Panic => stop k
  | Ok expectedTotal =>
      let controlCurrent := isCurrentControlConnection k (sn_control pending) in
      let stateCurrent :=
        match tk_ot k with
        | None => false
        | Some s => pending_is s (sn_id pending)
                    && (sn_initial pending || SenderPool_OwnsExtendClaim (os_pool s) (sn_claim pending))
                    && (SenderPool_TotalCount (os_pool s) =? sn_start pending)
        end in
      if negb controlCurrent || negb stateCurrent then
        stop (fst (failPendingPrecomputeAndClear k pending "OT sender state changed during extension"))
      else
      match match tk_ot k with Some s => SenderPool_ValidateAdd (os_pool s) entries | None => Panic end with
      | Ok _ => (k, Some (KSendComplete pending entries expectedTotal), None)
      | Panic => stop k
      | Err m =>
          if sn_initial pending then stop (fst (failPendingPrecomputeAndClear k pending m)) else
          let '(k, failed) := failPendingPrecompute k (sn_id pending) m in
          if failed
          then stop (fst (recoverFailedClaimedOTExtension k (sn_claim pending) (Some (sn_control pending))))
          else stop k
      end
  end.

Definition run_proof (k : TEEK) (pending : senderPrecompute) (data : bytes) : outcome :=
  match (proof ← UnmarshalExtensionProofFor data (sn_session pending);
         snd (FinishExtensionSender (sn_ext pending) (Some proof))) with
  | Err m => fail_batch k (sn_id pending) m
  | Panic => stop k
  | Ok entries => complete_validate k pending entries
  end.

(** [completeSenderPrecompute] after the acknowledgment: append to the pool. *)
Definition complete_commit (k : TEEK) (pending : senderPrecompute) (entries : list SenderOT) : outcome :=
  let changed := stop (fst (failPendingPrecomputeAndClear k pending "OT sender state changed before local commit")) in
  match tk_ot k with
  | None => changed
  | Some s =>
      if negb (isCurrentControlConnection k (sn_control pending)) || negb (pending_is s (sn_id pending))
         || negb (sn_initial pending || SenderPool_OwnsExtendClaim (os_pool s) (sn_claim pending))
         || negb (SenderPool_TotalCount (os_pool s) =? sn_start pending)
      then changed else
      match SenderPool_Add (os_pool s) entries with
      | (pool, Ok _) =>
          let s := set_pending None (set_epoch (ExtensionEpoch (sn_session pending)) (set_pool pool s)) in
          let s := if sn_initial pending then set_inconsistent false (set_ready true s)
                   else set_pool (fst (SenderPool_ReleaseExtendClaim pool (sn_claim pending))) s in
          stop (signalSenderPrecompute (sn_id pending) (Ok ()) (publishOTReadyLocked s k))
      | (pool, Err m) =>
          let '(pool, owned) :=
            if sn_initial pending then (SenderPool_Clear pool, true)
            else SenderPool_ClearForExtendFailure pool (sn_claim pending) in
          if negb owned
          then stop (signalSenderPrecompute (sn_id pending) (Err m) k)
          else stop (signalSenderPrecompute (sn_id pending) (Err m)
                       (publishOTReadyLocked (set_pending None (set_ready false (set_pool pool s))) k))
      | (_, Panic) => stop k
      end
  end.

(** One part of a goroutine.  [coins] is what it reads from [rand.Reader],
    [written] whether the connection takes the message. *)
Definition thread_run (k : TEEK) (th : kthread) (coins : bytes) (written : bool) : outcome :=
  match th with
  | KSendBegin p ctl count isInitial epoch frame | KSendChoices p ctl count isInitial epoch frame =>
      if negb (isCurrentControlConnection k ctl) then fail_batch k p "TEE_T control connection changed" else
      if negb written then fail_batch k p "send OT precompute request" else
      (k, None, Some (OTPrecomputeRequest (u32 count) frame isInitial epoch))
  | KSendChallenge p ctl count isInitial epoch frame =>
      if negb written then fail_batch k p "send OT precompute request" else
      (k, None, Some (OTPrecomputeRequest (u32 count) frame isInitial epoch))
  | KBaseSetup p ctl session data => run_base_setup k p ctl session data coins
  | KCommitment p ctl base expected data => run_commitment k p ctl base expected data coins
  | KProof pending data => run_proof k pending data
  | KSendComplete pending entries expectedTotal =>
      if negb (isCurrentControlConnection k (sn_control pending)) || negb written
      then stop (fst (failPendingPrecomputeAndClear k pending "send OT precompute complete"))
      else (k, Some (KCommit pending entries), Some (OTPrecomputeComplete expectedTotal))
  | KCommit pending entries => complete_commit k pending entries
  end.

(** The connection a part of a goroutine works on. *)
Definition thread_control (th : kthread) : token :=
  match th with
  | KSendBegin _ ctl _ _ _ _ | KBaseSetup _ ctl _ _ | KSendChoices _ ctl _ _ _ _ | KCommitment _ ctl _ _ _
  | KSendChallenge _ ctl _ _ _ _ => ctl
  | KProof p _ | KSendComplete p _ _ | KCommit p _ => sn_control p
  end.

(** ** Using the pool *)

(** A reservation of a session: its start and its connection. *)
Definition senderOTReservation : Type := Z * token.

(** [reserveOTEntriesForSession]: [session_ok] is what the connection manager says
    of the session.  The claim, if any, goes to a refill goroutine. *)
Definition reserveOTEntriesForSession (k : TEEK) (session_ok : bool) (origin : token)
    (reservations : gmap Z senderOTReservation) (rangeIndex count : Z)
    : TEEK * gmap Z senderOTReservation * res (Z * list SenderOT) * option nat :=
  match tk_ot k with
  | None => (k, reservations, Err "OT reservation identity is incomplete", None)
  | Some s =>
      if negb session_ok then (k, reservations, Err "session connection was superseded", None) else
      if negb (os_ready s) || os_inconsistent s then (k, reservations, Err "OT pool not ready", None) else
      if negb (bool_decide (reservations !! rangeIndex = None))
      then (k, reservations, Err "OT reservation already exists for range", None) else
      let '(pool, reserved) := SenderPool_Reserve (os_pool s) count in
      let '(alloc, pool, claim) := SenderPool_ClaimExtendIfNeeded (tk_alloc k) pool in
      let reservations :=
        match reserved with Ok (start, _) => <[rangeIndex := (start, origin)]> reservations | _ => reservations end in
      (publishOTReadyLocked (set_pool pool s) (set_alloc alloc k), reservations, reserved, claim)
  end.

Definition reconcileAbandonedOTReservation (k : TEEK) (reservation : senderOTReservation) : TEEK * bool :=
  match tk_ot k with
  | None => (k, false)
  | Some s =>
      if negb (isCurrentControlConnection k (snd reservation)) then (k, false) else
      (close_conn (t_conn (snd reservation))
         (set_healthy false (publishOTReadyLocked (set_inconsistent true s) k)), true)
  end.

(** ** Disconnects *)

Definition signal_pending (s : OTPrecomputeState) (m : error) (k : TEEK) : TEEK :=
  match os_pending s with Some p => signalSenderPrecompute (sn_id p) (Err m) k | None => k end.

Definition clearOTPool (k : TEEK) : TEEK :=
  match tk_ot k with
  | None => k
  | Some s =>
      let s' := set_resumePending None (set_inconsistent false (set_ready false (set_pending None
                  (set_pool (SenderPool_Clear (os_pool s)) s)))) in
      signal_pending s "OT precomputation aborted while clearing pool" (publishOTReadyLocked s' k)
  end.

Definition suspendOTPoolForReconnect (k : TEEK) : TEEK :=
  match tk_ot k with
  | None => k
  | Some s =>
      if os_ready s then
        let s' := set_pool (SenderPool_InvalidateExtendClaim (os_pool s)) (set_pending None s) in
        signal_pending s "OT precomputation interrupted by disconnect" (publishOTReadyLocked s' k)
      else clearOTPool k
  end.

(** [tearDownControl], as far as the pool and the connection are concerned. *)
Definition tearDownControl (k : TEEK) (ctl : token) : TEEK :=
  if negb (isCurrentControlConnection k ctl) then k else
  suspendOTPoolForReconnect (set_healthy false (set_control None (tk_generation k) false k)).

(** ** Resuming a retained pool *)

Definition hasResumablePool (k : TEEK) : bool :=
  match tk_ot k with
  | None => false
  | Some s => os_ready s && IsCurrentExtensionEpoch (os_epoch s) && (0 <? SenderPool_Available (os_pool s))
  end.

(** [tryResumeOTPool] up to the request; the request's address is the next free
    one. *)
Definition resume_begin (k : TEEK) : TEEK * res (nat * token * otMessage) :=
  match currentAttestedControlToken k with
  | Err m => (k, Err m)
  | Panic => (k, Panic)
  | Ok origin =>
      match tk_ot k with
      | None => (k, Panic)
      | Some s =>
          if negb (IsCurrentExtensionEpoch (os_epoch s))
          then (k, Err "OT pool uses an unsupported protocol epoch") else
          if negb (bool_decide (os_resumePending s = None)) then (k, Err "OT resume already pending") else
          let a := tk_alloc k in
          (set_alloc (S a) (set_ot (set_resumeChan None (set_resumePending (Some (a, origin)) s)) k),
           Ok (a, origin, OTResumeRequest (os_epoch s) (SenderPool_NextIndex (os_pool s))))
      end
  end.

Definition handleOTResumeResponse (k : TEEK) (ctl : token) (accepted : bool) : TEEK * res unit :=
  match tk_ot k with
  | None => (k, Err "OT pool not initialized")
  | Some s =>
      match os_resumePending s with
      | Some (_, o) =>
          if negb (bool_decide (o = ctl)) then (k, Err "unexpected OT resume response") else
          match os_resumeChan s with
          | None => (set_ot (set_resumeChan (Some (ctl, accepted)) s) k, Ok ())
          | Some _ => (k, Ok ())
          end
      | None => (k, Err "unexpected OT resume response")
      end
  end.

(** The end of [tryResumeOTPool]: the answer of this connection, or the timeout. *)
Definition resume_finish (k : TEEK) (a : nat) (origin : token) : TEEK * res bool :=
  match tk_ot k with
  | None => (k, Panic)
  | Some s =>
      let release (s : OTPrecomputeState) :=
        match os_resumePending s with
        | Some (b, _) => if bool_decide (b = a) then set_resumePending None s else s
        | None => s
        end in
      match os_resumeChan s with
      | None => (set_ot (release s) k, Err "OT resume timed out")
      | Some (ctl, accepted) =>
          let s := set_resumeChan None s in
          if negb (bool_decide (ctl = origin))
          then (set_ot (release s) k, Err "OT resume response belongs to a superseded control connection") else
          if negb accepted then (set_ot (release s) k, Ok false) else
          if negb (isCurrentControlConnection k origin)
          then (set_ot (release s) k, Err "OT resume control connection changed before commit") else
          (publishOTReadyLocked (release (set_inconsistent false s)) k, Ok true)
      end
  end.

(** What [ensureResumedOTPoolUsable] decides: nothing to do, a refill to wait for,
    a refill in the background. *)
Inductive resumeRefill := NoRefill | RefillNow (claim : nat) | RefillLater (claim : nat).

Definition ensureResumedOTPoolUsable (k : TEEK) : TEEK * res resumeRefill :=
  match tk_ot k with
  | None => (k, Err "OT pool not initialized")
  | Some s =>
      let available := SenderPool_Available (os_pool s) in
      if OTPoolWatermark <=? available then (publishOTReadyLocked s k, Ok NoRefill) else
      let '(alloc, pool, claim) := SenderPool_ClaimExtendIfNeeded (tk_alloc k) (os_pool s) in
      let k := publishOTReadyLocked (set_pool pool s) (set_alloc alloc k) in
      match claim with
      | None => (k, Err "OT refill is already pending after resume")
      | Some c => (k, Ok (if available <? Z.of_nat OTsPerOPRF then RefillNow c else RefillLater c))
      end
  end.

End Handlers.
