(* ===== verification/PrecomputeReceiver.v ===== *)
(** * TEE_T's side of OT precomputation ([tee_t/ot_precompute.go])

    TEE_T owns the receiver pool and answers TEE_K's requests.  A lease
    ([withCurrentControlState]) makes every critical section conditional on the
    connection still being the current one; the base OT, the extension and the
    writes happen outside.  As on the other side, a critical section is a
    function on [TEET] and [tthread] is what a handler carries to the next one.
    The pool state is replaced by an initial precomputation, so it has an address;
    a pending batch that has ended leaves its outcome for those who wait for it
    ([tt_outcomes]: closing [done] and setting [outcome]). *)

From S2P Require Import Prelude Bytes Label Slices Transpose Crypto Circuit Oprf SenderPool ReceiverPool OtExtension BaseOt.
From S2P Require Import Wire ExtensionWire Precompute PrecomputeSender.

Inductive receiverPrecomputePhase :=
| receiverPrecomputeAwaitBaseChoices
| receiverPrecomputeProcessingChoices
| receiverPrecomputeAwaitChallenge
| receiverPrecomputeProcessingChallenge
| receiverPrecomputeAwaitComplete.

#[export] Instance receiverPhase_eq_dec : EqDecision receiverPrecomputePhase.
Proof. solve_decision. Defined.

(** The terminal outcomes; a batch without one is in progress. *)
Inductive receiverPrecomputeOutcome := receiverPrecomputeCommitted | receiverPrecomputeAborted.

#[export] Instance receiverOutcome_eq_dec : EqDecision receiverPrecomputeOutcome.
Proof. solve_decision. Defined.

Section Receiver.
Context {BC : BlockCipher} {SH : Sha256} `{CO : COLib} (hw : bool).

Record receiverPrecompute := mkReceiverPrecompute {
  rc_id : nat;
  rc_begin : PrecomputeBegin;
  rc_initial : bool;
  rc_generation : Z;
  rc_base : option BaseOTSenderState;
  rc_ext : option ExtensionReceiverState;
  rc_entries : list ReceiverOT;
  rc_phase : receiverPrecomputePhase;
}.

Record OTReceiverState := mkReceiverOTState {
  rs_id : nat;
  rs_pool : ReceiverPool;
  rs_ready : bool;
  rs_epoch : bytes;
  rs_pending : option receiverPrecompute;
}.

Definition NewOTReceiverState (a : nat) : OTReceiverState :=
  mkReceiverOTState a (NewReceiverPool (Z.to_nat OTPoolInitialSize)) false [] None.

Record TEET := mkTEET {
  tt_ot : option OTReceiverState;
  tt_otReady : bool;
  tt_controlHealthy : bool;
  tt_conn : option nat;
  tt_generation : Z;
  tt_attested : bool;
  tt_alloc : nat;
  tt_outcomes : gmap nat receiverPrecomputeOutcome;
}.

Definition NewTEET : TEET := mkTEET None false false None 0 false 0 ∅.

(** *** Field updates *)

Definition r_set_pool (p : ReceiverPool) (s : OTReceiverState) : OTReceiverState :=
  mkReceiverOTState (rs_id s) p (rs_ready s) (rs_epoch s) (rs_pending s).
Definition r_set_ready (b : bool) (s : OTReceiverState) : OTReceiverState :=
  mkReceiverOTState (rs_id s) (rs_pool s) b (rs_epoch s) (rs_pending s).
Definition r_set_epoch (e : bytes) (s : OTReceiverState) : OTReceiverState :=
  mkReceiverOTState (rs_id s) (rs_pool s) (rs_ready s) e (rs_pending s).
Definition r_set_pending (p : option receiverPrecompute) (s : OTReceiverState) : OTReceiverState :=
  mkReceiverOTState (rs_id s) (rs_pool s) (rs_ready s) (rs_epoch s) p.

Definition rc_set_phase (ph : receiverPrecomputePhase) (p : receiverPrecompute) : receiverPrecompute :=
  mkReceiverPrecompute (rc_id p) (rc_begin p) (rc_initial p) (rc_generation p) (rc_base p) (rc_ext p) (rc_entries p) ph.
Definition rc_set_ext (e : ExtensionReceiverState) (l : list ReceiverOT) (p : receiverPrecompute) : receiverPrecompute :=
  mkReceiverPrecompute (rc_id p) (rc_begin p) (rc_initial p) (rc_generation p) (rc_base p) (Some e) l (rc_phase p).

Definition t_set_ot (s : OTReceiverState) (t : TEET) : TEET :=
  mkTEET (Some s) (tt_otReady t) (tt_controlHealthy t) (tt_conn t) (tt_generation t) (tt_attested t)
    (tt_alloc t) (tt_outcomes t).
Definition t_set_otReady (b : bool) (t : TEET) : TEET :=
  mkTEET (tt_ot t) b (tt_controlHealthy t) (tt_conn t) (tt_generation t) (tt_attested t) (tt_alloc t) (tt_outcomes t).
Definition t_set_control (h : bool) (c : option nat) (g : Z) (a : bool) (t : TEET) : TEET :=
  mkTEET (tt_ot t) (tt_otReady t) h c g a (tt_alloc t) (tt_outcomes t).
Definition t_set_alloc (n : nat) (t : TEET) : TEET :=
  mkTEET (tt_ot t) (tt_otReady t) (tt_controlHealthy t) (tt_conn t) (tt_generation t) (tt_attested t) n (tt_outcomes t).

(** ** Ending a batch *)

(** [finishReceiverPrecompute]: the first outcome stands. *)
Definition finishReceiverPrecompute (p : option receiverPrecompute) (o : receiverPrecomputeOutcome) (t : TEET) : TEET :=
  match p with
  | None => t
  | Some p =>
      match tt_outcomes t !! rc_id p with
      | Some _ => t
      | None => mkTEET (tt_ot t) (tt_otReady t) (tt_controlHealthy t) (tt_conn t) (tt_generation t) (tt_attested t)
                  (tt_alloc t) (<[rc_id p := o]> (tt_outcomes t))
      end
  end.

(** The state is still the one at address [rid] and points to the batch [pid]. *)
Definition receiver_pending_is (s : OTReceiverState) (rid pid : nat) : bool :=
  bool_decide (rs_id s = rid)
  && match rs_pending s with Some p => bool_decide (rc_id p = pid) | None => false end.

Definition clearPendingReceiverPrecompute (t : TEET) (rid pid : nat) : TEET :=
  match tt_ot t with
  | Some s =>
      if receiver_pending_is s rid pid
      then t_set_ot (r_set_pending None s) (finishReceiverPrecompute (rs_pending s) receiverPrecomputeAborted t)
      else t
  | None => t
  end.

Definition clearOTReceiverPool (t : TEET) : TEET :=
  let t :=
    match tt_ot t with
    | None => t
    | Some s =>
        t_set_ot (r_set_ready false (r_set_pending None (r_set_pool (ReceiverPool_Clear (rs_pool s)) s)))
          (finishReceiverPrecompute (rs_pending s) receiverPrecomputeAborted t)
    end in
  t_set_otReady false t.

Definition suspendOTReceiverPoolForReconnect (t : TEET) : TEET :=
  match tt_ot t with
  | None => clearOTReceiverPool t
  | Some s =>
      let t := t_set_ot (r_set_pending None s) (finishReceiverPrecompute (rs_pending s) receiverPrecomputeAborted t) in
      if rs_ready s then t else clearOTReceiverPool t
  end.

(** ** The control connection *)

(** The guard of [withCurrentControlState]. *)
Definition lease_ok (t : TEET) (ctl : token) : bool :=
  bool_decide (tt_conn t = Some (t_conn ctl)) && (tt_generation t =? t_gen ctl).

Definition activateControlConnection (t : TEET) (c : nat) : TEET :=
  let t := match tt_conn t with
           | Some c' => if bool_decide (c' = c) then t else suspendOTReceiverPoolForReconnect t
           | None => t
           end in
  t_set_otReady false (t_set_control false (Some c) (add64 (tt_generation t) 1) false t).

Definition completeControlAttestation (t : TEET) (ctl : token) : TEET * res unit :=
  if negb (lease_ok t ctl) then (t, Err "control connection was superseded during attestation response")
  else (t_set_control true (tt_conn t) (tt_generation t) true t, Ok ()).

Definition tearDownControlConnection (t : TEET) (ctl : token) : TEET :=
  if negb (lease_ok t ctl) then t else
  suspendOTReceiverPoolForReconnect (t_set_control false None (tt_generation t) false t).

(** ** The requests of TEE_K *)

(** What a handler carries between two critical sections. *)
Inductive tthread :=
| TBegin (rid : nat) (ctl : token) (b : PrecomputeBegin) (isInitial : bool) (count : Z)
| TChoices (rid pid : nat) (ctl : token) (base : option BaseOTSenderState) (b : PrecomputeBegin)
    (epoch : bytes) (count : Z) (data : bytes)
| TChallenge (rid pid : nat) (ctl : token) (ext : option ExtensionReceiverState) (b : PrecomputeBegin)
    (count : Z) (data : bytes)
| TSend (rid pid : nat) (ctl : token) (count : Z) (frame : bytes).

Definition thread_connection (th : tthread) : token :=
  match th with
  | TBegin _ ctl _ _ _ | TChoices _ _ ctl _ _ _ _ _ | TChallenge _ _ ctl _ _ _ _ | TSend _ _ ctl _ _ => ctl
  end.

Definition begin_enter (t : TEET) (ctl : token) (count : Z) (setup : bytes) (isInitial : bool) (epoch : bytes)
    : TEET * res tthread :=
  match (b ← UnmarshalPrecomputeBegin setup;
         _ ← ValidatePrecomputeCount (bCount b);
         _ ← checkedIndexEnd (bStartIndex b) (bCount b);
         fail_if (negb (bCount b =? count) || negb (bytes_eqb (bEpoch b) epoch))
           "OT precompute begin metadata mismatch";;
         fail_if (negb (lease_ok t ctl)) "control generation was superseded";;
         Ok b) with
  | Err m => (t, Err m)
  | Panic => (t, Panic)
  | Ok b =>
      let '(t, ready) :=
        if isInitial then
          let t := match tt_ot t with
                   | Some s => finishReceiverPrecompute (rs_pending s) receiverPrecomputeAborted t
                   | None => t
                   end in
          let a := tt_alloc t in
          (t_set_alloc (S a) (t_set_ot (r_set_epoch epoch (NewOTReceiverState a)) t), true)
        else (t, match tt_ot t with Some s => rs_ready s | None => false end) in
      match tt_ot t with
      | Some s =>
          if negb ready then (t, Err "OT receiver pool is not ready for extension") else
          if negb (bool_decide (rs_pending s = None)) then (t, Err "OT precomputation already in progress") else
          if negb (bStartIndex b =? ReceiverPool_TotalCount (rs_pool s))
          then (t, Err "OT extension start index") else
          if negb isInitial && negb (bytes_eqb epoch (rs_epoch s)) then (t, Err "OT extension epoch mismatch") else
          (t, Ok (TBegin (rs_id s) ctl b isInitial count))
      | None => (t, Err "OT receiver pool is not ready for extension")
      end
  end.

Definition choices_enter (t : TEET) (ctl : token) (count : Z) (setup : bytes) (isInitial : bool) (epoch : bytes)
    : TEET * res tthread :=
  if negb (lease_ok t ctl) then (t, Err "control generation was superseded") else
  match tt_ot t with
  | None => (t, Err "unexpected base OT choice message")
  | Some s =>
      match rs_pending s with
      | None => (t, Err "unexpected base OT choice message")
      | Some p =>
          if negb (rc_generation p =? t_gen ctl) then (t, Err "base OT choice control generation mismatch") else
          if negb (count =? bCount (rc_begin p)) || negb (eqb isInitial (rc_initial p))
             || negb (bytes_eqb epoch (rs_epoch s)) then (t, Err "base OT choice metadata mismatch") else
          if negb (bool_decide (rc_phase p = receiverPrecomputeAwaitBaseChoices))
          then (t, Err "unexpected base OT choice phase") else
          (t_set_ot (r_set_pending (Some (rc_set_phase receiverPrecomputeProcessingChoices p)) s) t,
           Ok (TChoices (rs_id s) (rc_id p) ctl (rc_base p) (rc_begin p) (rs_epoch s) count setup))
      end
  end.

Definition challenge_enter (t : TEET) (ctl : token) (count : Z) (setup : bytes) (isInitial : bool) (epoch : bytes)
    : TEET * res tthread :=
  if negb (lease_ok t ctl) then (t, Err "control generation was superseded") else
  match tt_ot t with
  | None => (t, Err "unexpected OT extension challenge")
  | Some s =>
      match rs_pending s with
      | None => (t, Err "unexpected OT extension challenge")
      | Some p =>
          if negb (rc_generation p =? t_gen ctl) || negb (count =? bCount (rc_begin p))
             || negb (eqb isInitial (rc_initial p)) || negb (bytes_eqb epoch (rs_epoch s))
          then (t, Err "OT extension challenge metadata mismatch") else
          if negb (bool_decide (rc_phase p = receiverPrecomputeAwaitChallenge))
             || bool_decide (rc_ext p = None) || (length (rc_entries p) =? 0)%nat
          then (t, Err "unexpected OT extension challenge phase") else
          (t_set_ot (r_set_pending (Some (rc_set_phase receiverPrecomputeProcessingChallenge p)) s) t,
           Ok (TChallenge (rs_id s) (rc_id p) ctl (rc_ext p) (rc_begin p) count setup))
      end
  end.

(** [handleOTPrecomputeRequest]. *)
Definition request_enter (t : TEET) (ctl : token) (count : Z) (setup : bytes) (isInitial : bool) (epoch : bytes)
    : TEET * res tthread :=
  match PrecomputeRequestPhase setup with
  | PrecomputePhaseBegin => begin_enter t ctl count setup isInitial epoch
  | PrecomputePhaseBaseChoices => choices_enter t ctl count setup isInitial epoch
  | PrecomputePhaseChallenge => challenge_enter t ctl count setup isInitial epoch
  | PrecomputePhaseUnknown => (t, Err "unknown OT precompute request phase")
  end.

Definition receiver_outcome : Type := TEET * option tthread * option otMessage.
Definition t_stop (t : TEET) : receiver_outcome := (t, None, None).

(** Base setup: the batch becomes pending if nothing changed meanwhile. *)
Definition run_begin (t : TEET) (rid : nat) (ctl : token) (b : PrecomputeBegin) (isInitial : bool) (count : Z)
    (coins : bytes) : receiver_outcome :=
  match fst (StartBaseOTSender (Some coins) (bSessionID b)) with
  | Err _ | Panic => t_stop t
  | Ok (baseSender, setupMessage) =>
      if negb (lease_ok t ctl) then t_stop t else
      match tt_ot t with
      | None => t_stop t
      | Some s =>
          if negb (bool_decide (rs_id s = rid)) || negb (bool_decide (rs_pending s = None)) then t_stop t else
          let pid := tt_alloc t in
          let pending := mkReceiverPrecompute pid b isInitial (t_gen ctl) (Some baseSender) None []
                           receiverPrecomputeAwaitBaseChoices in
          let t := t_set_alloc (S pid) (t_set_ot (r_set_pending (Some pending) s) t) in
          match MarshalPrecomputeBaseSetup (bSessionID b) setupMessage with
          | Ok frame => (t, Some (TSend rid pid ctl count frame), None)
          | _ => t_stop (clearPendingReceiverPrecompute t rid pid)
          end
      end
  end.

(** Choices: finish the base OT, start the extension, keep the entries. *)
Definition run_choices (t : TEET) (rid pid : nat) (ctl : token) (base : option BaseOTSenderState)
    (b : PrecomputeBegin) (epoch : bytes) (count : Z) (data coins : bytes) : receiver_outcome :=
  match (choiceMessage ← UnmarshalPrecomputeBaseChoices data (bSessionID b);
         '(cipherMessage, basePairs) ← snd (FinishBaseOTSender base choiceMessage);
         '(extension, commitment, entries) ←
           fst (StartExtensionReceiver (Some coins) basePairs epoch cipherMessage (bSessionID b)
                  (bStartIndex b) (bCount b));
         frame ← MarshalPrecomputeCommitment cipherMessage (Some commitment);
         Ok (extension, entries, frame)) with
  | Err _ => t_stop (clearPendingReceiverPrecompute t rid pid)
  | Panic => t_stop t
  | Ok (extension, entries, frame) =>
      if negb (lease_ok t ctl) then t_stop t else
      match tt_ot t with
      | None => t_stop t
      | Some s =>
          match rs_pending s with
          | None => t_stop t
          | Some p =>
              if negb (receiver_pending_is s rid pid) || negb (rc_generation p =? t_gen ctl)
                 || negb (bool_decide (rc_phase p = receiverPrecomputeProcessingChoices))
              then t_stop t
              else (t_set_ot (r_set_pending (Some (rc_set_phase receiverPrecomputeAwaitChallenge
                                                     (rc_set_ext extension entries p))) s) t,
                    Some (TSend rid pid ctl count frame), None)
          end
      end
  end.

(** Challenge: answer with the proof. *)
Definition run_challenge (t : TEET) (rid pid : nat) (ctl : token) (ext : option ExtensionReceiverState)
    (b : PrecomputeBegin) (count : Z) (data : bytes) : receiver_outcome :=
  match (challenge ← UnmarshalExtensionChallengeFor data (bSessionID b) (bCount b);
         proof ← snd (FinishExtensionReceiver hw ext (Some challenge));
         MarshalExtensionProof (Some proof)) with
  | Err _ => t_stop (clearPendingReceiverPrecompute t rid pid)
  | Panic => t_stop t
  | Ok frame =>
      if negb (lease_ok t ctl) then t_stop t else
      match tt_ot t with
      | None => t_stop t
      | Some s =>
          match rs_pending s with
          | None => t_stop t
          | Some p =>
              if negb (receiver_pending_is s rid pid) || negb (rc_generation p =? t_gen ctl)
                 || negb (bool_decide (rc_phase p = receiverPrecomputeProcessingChallenge))
              then t_stop t
              else (t_set_ot (r_set_pending (Some (rc_set_phase receiverPrecomputeAwaitComplete p)) s) t,
                    Some (TSend rid pid ctl count frame), None)
          end
      end
  end.

Definition receiver_thread_run (t : TEET) (th : tthread) (coins : bytes) (written : bool) : receiver_outcome :=
  match th with
  | TBegin rid ctl b isInitial count => run_begin t rid ctl b isInitial count coins
  | TChoices rid pid ctl base b epoch count data => run_choices t rid pid ctl base b epoch count data coins
  | TChallenge rid pid ctl ext b count data => run_challenge t rid pid ctl ext b count data
  | TSend rid pid ctl count frame =>
      if negb written then t_stop (clearPendingReceiverPrecompute t rid pid)
      else (t, None, Some (OTPrecomputeResponse count frame))
  end.

(** TEE_K has verified the proof: the entries join the pool. *)
Definition handleOTPrecomputeComplete (t : TEET) (ctl : token) (poolSize : Z) : TEET * res unit :=
  if negb (lease_ok t ctl) then (t, Err "control generation was superseded") else
  match tt_ot t with
  | None => (t, Err "unexpected OT precompute completion")
  | Some s =>
      match rs_pending s with
      | None => (t, Err "unexpected OT precompute completion")
      | Some p =>
          if (length (rc_entries p) =? 0)%nat then (t, Err "unexpected OT precompute completion") else
          if negb (rc_generation p =? t_gen ctl)
          then (t, Err "OT precompute completion control generation mismatch") else
          if negb (bool_decide (rc_phase p = receiverPrecomputeAwaitComplete))
          then (t, Err "unexpected OT precompute completion phase") else
          match checkedIndexEnd (ReceiverPool_TotalCount (rs_pool s)) (Z.of_nat (length (rc_entries p))) with
          | Err m => (t, Err m)
          | Panic => (t, Panic)
          | Ok expectedTotal =>
              if negb (poolSize =? expectedTotal) then (t, Err "OT pool total mismatch") else
              match ReceiverPool_Add (rs_pool s) (rc_entries p) with
              | (_, Err m) => (t, Err m)
              | (_, Panic) => (t, Panic)
              | (pool, Ok _) =>
                  let s := r_set_ready true (r_set_pending None
                             (r_set_epoch (ExtensionEpoch (bSessionID (rc_begin p))) (r_set_pool pool s))) in
                  (finishReceiverPrecompute (Some p) receiverPrecomputeCommitted (t_set_otReady true (t_set_ot s t)),
                   Ok ())
              end
          end
      end
  end.

(** ** Using the pool *)

(** The pending batch, when the range ends inside it and its committed part is
    unused. *)
Definition pendingReceiverCompletionForRange (s : OTReceiverState) (startIndex count : Z)
    : res (option receiverPrecompute) :=
  if count <=? 0 then Ok None else
  match checkedIndexEnd startIndex count with
  | Ok end_ =>
      let committedTotal := ReceiverPool_TotalCount (rs_pool s) in
      if end_ <=? committedTotal then Ok None else
      match rs_pending s with
      | None => Ok None
      | Some p =>
          if (length (rc_entries p) =? 0)%nat || negb (bStartIndex (rc_begin p) =? committedTotal) then Ok None else
          match checkedIndexEnd (bStartIndex (rc_begin p)) (Z.of_nat (length (rc_entries p))) with
          | Ok pendingEnd =>
              if (pendingEnd <? startIndex) || (pendingEnd <? end_) then Ok None else
              if startIndex <? committedTotal then
                _ ← ReceiverPool_ValidateConsumable (rs_pool s) startIndex (to_int (sub64 committedTotal startIndex));
                Ok (Some p)
              else Ok (Some p)
          | _ => Ok None
          end
      end
  | _ => Ok None
  end.

(** The range was there, or the caller waits for the batch [pid] of the state
    [rid]. *)
Inductive consumeResult := Consumed (l : list ReceiverOT) | WaitFor (rid pid : nat).

(** The first critical section of [consumeOTReceiverEntriesForIdentity];
    [session_ok] is the lease of the session. *)
Definition consume_enter (t : TEET) (session_ok : bool) (startIndex count : Z) : TEET * res consumeResult :=
  if negb session_ok then (t, Err "session connection was superseded") else
  match tt_ot t with
  | None => (t, Err "OT receiver state not initialized")
  | Some s =>
      match pendingReceiverCompletionForRange s startIndex count with
      | Err m => (t, Err m)
      | Panic => (t, Panic)
      | Ok (Some p) => (t, Ok (WaitFor (rs_id s) (rc_id p)))
      | Ok None =>
          if negb (rs_ready s) then (t, Err "OT receiver pool not ready") else
          let '(pool, r) := ReceiverPool_Consume (rs_pool s) startIndex count in
          (t_set_ot (r_set_pool pool s) t, l ← r; Ok (Consumed l))
      end
  end.

(** The second one, after [done] was closed. *)
Definition consume_finish (t : TEET) (session_ok : bool) (rid pid : nat) (startIndex count : Z)
    : TEET * res (list ReceiverOT) :=
  if negb session_ok then (t, Err "session connection was superseded") else
  match tt_ot t with
  | None => (t, Err "OT receiver state changed while waiting for precompute")
  | Some s =>
      if negb (bool_decide (rs_id s = rid)) then (t, Err "OT receiver state changed while waiting for precompute") else
      if negb (bool_decide (tt_outcomes t !! pid = Some receiverPrecomputeCommitted))
      then (t, Err "OT receiver precompute did not commit") else
      let '(pool, r) := ReceiverPool_Consume (rs_pool s) startIndex count in
      (t_set_ot (r_set_pool pool s) t, r)
  end.

(** ** Resuming a retained pool *)

Definition resumeOTPool (t : TEET) (epoch : bytes) (nextIndex : Z) : TEET * bool :=
  if negb (IsCurrentExtensionEpoch epoch) then (t, false) else
  match tt_ot t with
  | None => (t, false)
  | Some s =>
      if negb (rs_ready s) || negb (bool_decide (rs_pending s = None)) || bytes_eqb (rs_epoch s) []
         || negb (bytes_eqb (rs_epoch s) epoch) then (t, false) else
      let '(pool, r) := ReceiverPool_AdvanceTo (rs_pool s) nextIndex in
      (t_set_ot (r_set_pool pool s) t, is_ok r)
  end.

Definition handleOTResumeRequest (t : TEET) (ctl : token) (epoch : bytes) (nextIndex : Z)
    : TEET * res otMessage :=
  if negb (lease_ok t ctl) then (t, Err "control generation was superseded") else
  let '(t, accepted) := resumeOTPool t epoch nextIndex in
  (if accepted then t_set_otReady true t else t, Ok (OTResumeResponse accepted)).

End Receiver.
