(* ===== verification/PrecomputeLog.v ===== *)
(** * The batches of a run, and what their frames mean

    To relate the two enclaves, the proofs keep one entry per batch: its opening
    message, the batches before it, and the values each side has computed so far.
    An entry only grows.  A frame that an enclave sent is the encoding of a value
    of an entry ([genuine_req], [genuine_resp]); decoding it for a batch yields
    that batch's value and no other.  [sots_of] and [rots_of] are the two ends of
    a finished batch, and they are correlated. *)

From S2P Require Import Prelude Bytes Label Slices Transpose Gf128 Crypto Circuit Oprf SenderPool OtExtension BaseOt.
From S2P Require Import Wire ExtensionWire Precompute.

(** ** Epochs name their session *)

Lemma hex_digit_inj a b : 0 <= a < 16 -> 0 <= b < 16 -> hex_digit a = hex_digit b -> a = b.
Proof. unfold hex_digit. intros Ha Hb. destruct (Z.ltb_spec a 10), (Z.ltb_spec b 10); lia. Qed.

Lemma hex_encode_inj a b : is_bytes a -> is_bytes b -> hex_encode a = hex_encode b -> a = b.
Proof.
  unfold hex_encode. revert b. induction a as [|x a IH]; intros [|y b] Ha Hb E; try done.
  inversion Ha as [|? ? Hx Ha']; subst. inversion Hb as [|? ? Hy Hb']; subst. cbn [map concat app] in E.
  injection E as E1 E2 E3. unfold is_byte in Hx, Hy.
  pose proof (Z.div_mod x 16 ltac:(lia)). pose proof (Z.div_mod y 16 ltac:(lia)).
  pose proof (Z.mod_pos_bound x 16 ltac:(lia)). pose proof (Z.mod_pos_bound y 16 ltac:(lia)).
  apply hex_digit_inj in E1; [|lia..]. apply hex_digit_inj in E2; [|lia..].
  f_equal; [lia|]. by apply IH.
Qed.

Lemma ExtensionEpoch_inj a b : is_bytes a -> is_bytes b -> ExtensionEpoch a = ExtensionEpoch b -> a = b.
Proof. intros Ha Hb E%app_inv_head. by apply hex_encode_inj. Qed.

Lemma hex_encode_bytes s : is_bytes s -> is_bytes (hex_encode s).
Proof.
  unfold hex_encode. induction 1 as [|b s Hb _ IH]; [constructor|]. cbn [map concat app].
  unfold is_byte in *. pose proof (Z.div_lt_upper_bound b 16 16 ltac:(lia) ltac:(lia)).
  pose proof (Z.div_pos b 16 ltac:(lia) ltac:(lia)). pose proof (Z.mod_pos_bound b 16 ltac:(lia)).
  repeat constructor; try done; unfold hex_digit; case_match; norm_guards; lia.
Qed.

Lemma ExtensionEpoch_bytes s : is_bytes s -> is_bytes (ExtensionEpoch s).
Proof. intros H. apply Forall_app. split; [apply str_bytes|by apply hex_encode_bytes]. Qed.

(** ** Entries *)

Section Log.
Context {BC : BlockCipher} {SH : Sha256} {CO : COLib} {CL : COLaws} (hw : bool).

Record entry := mkEntry {
  e_begin : PrecomputeBegin;
  e_initial : bool;
  e_chain : list bytes;
  e_setup : option (BaseOTSenderState * bytes);
  e_choices : option (BaseOTReceiverState * bytes);
  e_commit : option (ExtensionReceiverState * ExtensionCommitment * list ReceiverOT * bytes);
  e_challenge : option (ExtensionSenderState * ExtensionChallenge);
  e_proof : option ExtensionProof;
  e_sots : option (list SenderOT);
}.

Notation log := (gmap (list Z) entry).

(** TEE_K has finished the batch. *)
Definition committed (L : log) (s : bytes) : Prop := exists e l, L !! s = Some e /\ e_sots e = Some l.

(** Where a batch starts: afresh, or on top of the batch that gave the epoch. *)
Definition chain_ok (L : log) (e : entry) : Prop :=
  Forall (committed L) (e_chain e) /\
  if e_initial e then e_chain e = [] else
  exists p ep, bEpoch (e_begin e) = ExtensionEpoch p /\ L !! p = Some ep /\ e_chain e = e_chain ep ++ [p].

(** Every value was computed from the values before it. *)
Definition setup_just (s : bytes) (bs : BaseOTSenderState) (m1 : bytes) : Prop :=
  exists r, good_coins r /\ fst (StartBaseOTSender (Some r) s) = Ok (bs, m1).

Definition choices_just (s : bytes) (e : entry) (br : BaseOTReceiverState) (m2 : bytes) : Prop :=
  exists r bs m1, good_coins r /\ e_setup e = Some (bs, m1) /\
    fst (StartBaseOTReceiver (Some r) s m1) = Ok (br, m2).

Definition commit_just (s : bytes) (e : entry) er com rots m3 : Prop :=
  exists r bs m1 br m2 seeds, good_coins r /\ e_setup e = Some (bs, m1) /\ e_choices e = Some (br, m2) /\
    snd (FinishBaseOTSender (Some bs) m2) = Ok (m3, seeds) /\
    fst (StartExtensionReceiver (Some r) seeds (bEpoch (e_begin e)) m3 s (bStartIndex (e_begin e))
           (bCount (e_begin e))) = Ok (er, com, rots).

Definition challenge_just (e : entry) es ch : Prop :=
  exists r br m2 er com rots m3 sel delta, good_coins r /\ e_choices e = Some (br, m2) /\
    e_commit e = Some (er, com, rots, m3) /\ snd (FinishBaseOTReceiver (Some br) m3) = Ok (sel, delta) /\
    fst (StartExtensionSender hw (Some r) sel delta (bEpoch (e_begin e)) m3 (Some com)) = Ok (es, ch).

Definition proof_just (e : entry) pf : Prop :=
  exists er com rots m3 es ch, e_commit e = Some (er, com, rots, m3) /\ e_challenge e = Some (es, ch) /\
    snd (FinishExtensionReceiver hw (Some er) (Some ch)) = Ok pf.

Definition sots_just (e : entry) l : Prop :=
  exists es ch pf, e_challenge e = Some (es, ch) /\ e_proof e = Some pf /\
    snd (FinishExtensionSender (Some es) (Some pf)) = Ok l.

Record entry_ok (L : log) (s : bytes) (e : entry) : Prop := {
  eo_wf : batch_wf (e_begin e);
  eo_session : bSessionID (e_begin e) = s;
  eo_chain : chain_ok L e;
  eo_setup bs m1 : e_setup e = Some (bs, m1) -> setup_just s bs m1;
  eo_choices br m2 : e_choices e = Some (br, m2) -> choices_just s e br m2;
  eo_commit er com rots m3 : e_commit e = Some (er, com, rots, m3) -> commit_just s e er com rots m3;
  eo_challenge es ch : e_challenge e = Some (es, ch) -> challenge_just e es ch;
  eo_proof pf : e_proof e = Some pf -> proof_just e pf;
  eo_sots l : e_sots e = Some l -> sots_just e l;
}.

Definition log_ok (L : log) : Prop := forall s e, L !! s = Some e -> entry_ok L s e.

Lemma entry_session L s e : entry_ok L s e -> length s = 32%nat /\ is_bytes s.
Proof. intros [[(? & ? & _) _] <- _ _ _ _ _ _ _]. done. Qed.

(** What TEE_T committed to fits the wire and belongs to the batch. *)
Lemma commit_honest L s e er com rots m3 : entry_ok L s e -> e_commit e = Some (er, com, rots, m3) ->
  (exists seeds, honest_receiver seeds (e_begin e) er com) /\
  validateBaseCipherForTranscript m3 s = Ok () /\ cSessionID com = s /\
  Z.of_nat (length rots) = bCount (e_begin e).
Proof.
  intros He Hc. destruct (eo_commit _ _ _ He _ _ _ _ Hc) as (r & bs & m1 & br & m2 & seeds & Hr & E1 & E2 & F1 & F2).
  destruct (eo_choices _ _ _ He _ _ E2) as (r2 & bs' & m1' & Hr2 & E1' & F3). rewrite E1 in E1'. injection E1' as <- <-.
  destruct (eo_setup _ _ _ He _ _ E1) as (r1 & Hr1 & F4). pose proof (eo_session _ _ _ He) as <-.
  destruct (exchange_forward hw (e_begin e) r1 r2 r r bs m1 br m2 (eo_wf _ _ _ He) Hr1 Hr2 Hr Hr F4 F3)
    as (m3' & seeds' & sel & delta & er' & com' & rots' & es & ch & pf & sots & X1 & X2 & _ & _ & _ & _ & (X5 & X6 & _) & X7 & X8 & _).
  rewrite F1 in X1. apply Ok_pair in X1 as [<- <-]. rewrite F2 in X2. apply (inj Ok) in X2. injection X2 as <- <- <-.
  split; [by exists seeds|]. split; [done|]. split; [by destruct (hr_begin _ _ _ _ X8)|].
  by rewrite <- (Forall2_length _ _ _ X5).
Qed.

(** So does TEE_K's challenge, TEE_T's proof, and the ends of the batch match. *)
Lemma challenge_honest L s e es ch : entry_ok L s e -> e_challenge e = Some (es, ch) ->
  challenge_wf ch /\ chSessionID ch = s /\
  exists er com rots m3 pf sots, e_commit e = Some (er, com, rots, m3) /\
    Z.of_nat (length (Chi ch)) = extensionChallengeCount (PaddedCount com) /\
    snd (FinishExtensionReceiver hw (Some er) (Some ch)) = Ok pf /\ wire_wf pf /\ prSessionID pf = s /\
    snd (FinishExtensionSender (Some es) (Some pf)) = Ok sots /\
    correlated sots rots /\ Z.of_nat (length sots) = bCount (e_begin e) /\
    validateSenderOTIndices sots (bStartIndex (e_begin e)) = Ok ().
Proof.
  intros He Hc. destruct (eo_challenge _ _ _ He _ _ Hc)
    as (r4 & br & m2 & er & com & rots & m3 & sel & delta & Hr4 & E2 & E3 & F5 & F6).
  destruct (eo_commit _ _ _ He _ _ _ _ E3) as (r3 & bs & m1 & br' & m2' & seeds & Hr3 & E1 & E2' & F1 & F2).
  rewrite E2 in E2'. injection E2' as <- <-.
  destruct (eo_choices _ _ _ He _ _ E2) as (r2 & bs' & m1' & Hr2 & E1' & F3). rewrite E1 in E1'. injection E1' as <- <-.
  destruct (eo_setup _ _ _ He _ _ E1) as (r1 & Hr1 & F4). pose proof (eo_session _ _ _ He) as <-.
  destruct (exchange_forward hw (e_begin e) r1 r2 r3 r4 bs m1 br m2 (eo_wf _ _ _ He) Hr1 Hr2 Hr3 Hr4 F4 F3)
    as (m3' & seeds' & sel' & delta' & er' & com' & rots' & es' & ch' & pf & sots & X1 & X2 & X3 & X4 & X5 & X6 & (X7 & X8 & X9)
        & _ & _ & (Y1 & Y2 & Y3) & Y4 & Y5).
  rewrite F1 in X1. apply Ok_pair in X1 as [<- <-]. rewrite F2 in X2. apply (inj Ok) in X2. injection X2 as <- <- <-.
  rewrite F5 in X3. apply Ok_pair in X3 as [<- <-]. rewrite F6 in X4. apply Ok_pair in X4 as [<- <-].
  split_and!; [done..|]. exists er, com, rots, m3, pf, sots. by split_and!.
Qed.

Lemma proof_honest L s e pf : entry_ok L s e -> e_proof e = Some pf -> wire_wf pf /\ prSessionID pf = s.
Proof.
  intros He Hp. destruct (eo_proof _ _ _ He _ Hp) as (er & com & rots & m3 & es & ch & E3 & E4 & F).
  destruct (challenge_honest _ _ _ _ _ He E4) as (_ & _ & er' & com' & rots' & m3' & pf' & sots & E3' & _ & F' & ? & ? & _).
  rewrite E3 in E3'. injection E3' as <- <- <- <-. rewrite F in F'. by apply (inj Ok) in F' as <-.
Qed.

(** The two ends of a batch that TEE_K has finished. *)
Lemma finished_correlated L s e es ch pf l : entry_ok L s e ->
  e_challenge e = Some (es, ch) -> e_proof e = Some pf -> snd (FinishExtensionSender (Some es) (Some pf)) = Ok l ->
  exists er com rots m3, e_commit e = Some (er, com, rots, m3) /\ correlated l rots /\
    Z.of_nat (length l) = bCount (e_begin e) /\ validateSenderOTIndices l (bStartIndex (e_begin e)) = Ok ().
Proof.
  intros He E4 Hp F. destruct (eo_proof _ _ _ He _ Hp) as (er & com & rots & m3 & es' & ch' & E3 & E4' & G).
  rewrite E4 in E4'. injection E4' as <- <-.
  destruct (challenge_honest _ _ _ _ _ He E4)
    as (_ & _ & er' & com' & rots' & m3' & pf' & sots & E3' & _ & G' & _ & _ & F' & H1 & H2 & H3).
  rewrite E3 in E3'. injection E3' as <- <- <- <-. rewrite G in G'. apply (inj Ok) in G' as <-.
  rewrite F in F'. apply (inj Ok) in F' as <-. exists er, com, rots, m3. by split_and!.
Qed.

(** ** Genuine frames *)

Inductive genuine_req (L : log) : bytes -> Prop :=
| gen_begin s e d : L !! s = Some e -> MarshalPrecomputeBegin (e_begin e) = Ok d -> genuine_req L d
| gen_choices s e br m2 d : L !! s = Some e -> e_choices e = Some (br, m2) ->
    MarshalPrecomputeBaseChoices s m2 = Ok d -> genuine_req L d
| gen_challenge s e es ch d : L !! s = Some e -> e_challenge e = Some (es, ch) ->
    MarshalExtensionChallenge (Some ch) = Ok d -> genuine_req L d.

Inductive genuine_resp (L : log) : bytes -> Prop :=
| gen_setup s e bs m1 d : L !! s = Some e -> e_setup e = Some (bs, m1) ->
    MarshalPrecomputeBaseSetup s m1 = Ok d -> genuine_resp L d
| gen_commit s e er com rots m3 d : L !! s = Some e -> e_commit e = Some (er, com, rots, m3) ->
    MarshalPrecomputeCommitment m3 (Some com) = Ok d -> genuine_resp L d
| gen_proof s e pf d : L !! s = Some e -> e_proof e = Some pf ->
    MarshalExtensionProof (Some pf) = Ok d -> genuine_resp L d.

Lemma commitment_frame_tag cm c d : MarshalPrecomputeCommitment cm (Some c) = Ok d -> frame_tag d = str "KOF2".
Proof.
  intros E. unfold MarshalPrecomputeCommitment in E. apply bind_Ok in E as (? & _ & E). apply bind_Ok in E as (? & _ & E).
  apply (inj Ok) in E as <-. by apply slice_app_hit.
Qed.

(** Frames of another kind have another tag. *)
Ltac other_tag :=
  exfalso; repeat match goal with
  | H : MarshalPrecomputeBegin _ = Ok _ |- _ => apply begin_frame_tag in H
  | H : MarshalPrecomputeBaseChoices _ _ = Ok _ |- _ => apply nested_frame_tag in H; [|reflexivity]
  | H : MarshalPrecomputeBaseSetup _ _ = Ok _ |- _ => apply nested_frame_tag in H; [|reflexivity]
  | H : MarshalExtensionChallenge _ = Ok _ |- _ => apply challenge_frame_tag in H
  | H : MarshalExtensionProof _ = Ok _ |- _ => apply proof_frame_tag in H
  | H : MarshalPrecomputeCommitment _ _ = Ok _ |- _ => apply commitment_frame_tag in H
  end;
  match goal with H : frame_tag ?d = _, H' : frame_tag ?d = _ |- _ => rewrite H in H'; vm_compute in H'; discriminate H' end.

Lemma resp_setup L d s m : log_ok L -> genuine_resp L d -> UnmarshalPrecomputeBaseSetup d s = Ok m ->
  exists e bs, L !! s = Some e /\ e_setup e = Some (bs, m).
Proof.
  intros HL Hd E. pose proof (proj1 (nested_unframe_spec _ _ _ _ _ _ _ _ E)) as Ht.
  destruct Hd as [s' e bs m1 d Hs He Hm|s' e er com rots m3 d Hs He Hm|s' e pf d Hs He Hm]; [|other_tag..].
  destruct (entry_session _ _ _ (HL _ _ Hs)) as [L32 _].
  destruct (nested_agree "KBS2" _ _ s s' m m1 _ _ _ d eq_refl L32 Hm E) as [-> ->]. by exists e, bs.
Qed.

Lemma resp_commit L d b cm c : log_ok L -> genuine_resp L d -> UnmarshalPrecomputeCommitmentFor d b = Ok (cm, c) ->
  exists e er rots, L !! bSessionID b = Some e /\ e_commit e = Some (er, c, rots, cm).
Proof.
  intros HL Hd E. apply UnmarshalCommitmentFor_inv in E as [E Hb]. pose proof (UnmarshalCommitment_tag _ _ _ E) as Ht.
  destruct Hd as [s' e bs m1 d Hs He Hm|s' e er com rots m3 d Hs He Hm|s' e pf d Hs He Hm]; [other_tag| |other_tag].
  destruct (commit_honest _ _ _ _ _ _ _ (HL _ _ Hs) He) as ([seeds Hh] & Hv & Hsid & _).
  destruct (commitment_frame_decodes m3 com) as (d' & Hm' & _ & _ & Hu); [by rewrite Hsid|by apply Hh|].
  rewrite Hm in Hm'. apply (inj Ok) in Hm' as <-. rewrite E in Hu. apply Ok_pair in Hu as [-> ->].
  destruct Hb as (Hb & _). exists e, er, rots. by rewrite <- Hb, Hsid.
Qed.

Lemma resp_proof L d s p : log_ok L -> genuine_resp L d -> UnmarshalExtensionProofFor d s = Ok p ->
  exists e, L !! s = Some e /\ e_proof e = Some p.
Proof.
  intros HL Hd E. apply UnmarshalProofFor_inv in E as (E & Hs & Ht).
  destruct Hd as [s' e bs m1 d Hs' He Hm|s' e er com rots m3 d Hs' He Hm|s' e pf d Hs' He Hm]; [other_tag..|].
  destruct (proof_honest _ _ _ _ (HL _ _ Hs') He) as [Hw Hps].
  destruct (decode_encode pf Hw) as (d' & Hm' & _ & Hu). cbn [encode decode proof_codec] in Hm', Hu.
  rewrite Hm in Hm'. apply (inj Ok) in Hm' as <-. rewrite E in Hu. apply (inj Ok) in Hu as ->.
  exists e. by rewrite <- Hs, Hps.
Qed.

Lemma req_begin L d b : log_ok L -> genuine_req L d -> UnmarshalPrecomputeBegin d = Ok b ->
  exists e, L !! bSessionID b = Some e /\ e_begin e = b /\ MarshalPrecomputeBegin b = Ok d.
Proof.
  intros HL Hd E. pose proof (UnmarshalPrecomputeBegin_tag _ _ E) as Ht.
  destruct Hd as [s e d Hs Hm|s e br m2 d Hs He Hm|s e es ch d Hs He Hm]; [|other_tag..].
  destruct (eo_wf _ _ _ (HL _ _ Hs)) as [Hw _].
  destruct (decode_encode (e_begin e) Hw) as (d' & Hm' & _ & Hu). cbn [encode decode begin_codec] in Hm', Hu.
  rewrite Hm in Hm'. apply (inj Ok) in Hm' as <-. rewrite E in Hu. apply (inj Ok) in Hu as ->.
  exists e. rewrite (eo_session _ _ _ (HL _ _ Hs)). done.
Qed.

Lemma req_choices L d s m : log_ok L -> genuine_req L d -> UnmarshalPrecomputeBaseChoices d s = Ok m ->
  exists e br, L !! s = Some e /\ e_choices e = Some (br, m).
Proof.
  intros HL Hd E. pose proof (proj1 (nested_unframe_spec _ _ _ _ _ _ _ _ E)) as Ht.
  destruct Hd as [s' e d Hs Hm|s' e br m2 d Hs He Hm|s' e es ch d Hs He Hm]; [other_tag| |other_tag].
  destruct (entry_session _ _ _ (HL _ _ Hs)) as [L32 _].
  destruct (nested_agree "KBC2" _ _ s s' m m2 _ _ _ d eq_refl L32 Hm E) as [-> ->]. by exists e, br.
Qed.

Lemma req_challenge L d s n ch : log_ok L -> genuine_req L d -> UnmarshalExtensionChallengeFor d s n = Ok ch ->
  exists e es, L !! s = Some e /\ e_challenge e = Some (es, ch).
Proof.
  intros HL Hd E. apply UnmarshalChallengeFor_inv in E as (E & Hs & Ht).
  destruct Hd as [s' e d Hs' Hm|s' e br m2 d Hs' He Hm|s' e es ch' d Hs' He Hm]; [other_tag..|].
  destruct (challenge_honest _ _ _ _ _ (HL _ _ Hs') He) as (Hw & Hps & _).
  destruct (@decode_encode _ _ challenge_laws ch' Hw) as (d' & Hm' & _ & Hu). cbn [encode decode challenge_codec] in Hm', Hu.
  rewrite Hm in Hm'. apply (inj Ok) in Hm' as <-. rewrite E in Hu. apply (inj Ok) in Hu as ->.
  exists e, es. by rewrite <- Hs, Hps.
Qed.

(** ** Growth *)

Record entry_le (e e' : entry) : Prop := {
  el_begin : e_begin e' = e_begin e;
  el_initial : e_initial e' = e_initial e;
  el_chain : e_chain e' = e_chain e;
  el_setup v : e_setup e = Some v -> e_setup e' = Some v;
  el_choices v : e_choices e = Some v -> e_choices e' = Some v;
  el_commit v : e_commit e = Some v -> e_commit e' = Some v;
  el_challenge v : e_challenge e = Some v -> e_challenge e' = Some v;
  el_proof v : e_proof e = Some v -> e_proof e' = Some v;
  el_sots v : e_sots e = Some v -> e_sots e' = Some v;
}.

(** Progress of TEE_K leaves TEE_T's values alone, and conversely. *)
Definition same_t (e e' : entry) : Prop :=
  e_setup e' = e_setup e /\ e_commit e' = e_commit e /\ e_proof e' = e_proof e.
Definition same_k (e e' : entry) : Prop :=
  e_choices e' = e_choices e /\ e_challenge e' = e_challenge e /\ e_sots e' = e_sots e.

Definition grows (P : entry -> entry -> Prop) (L L' : log) : Prop :=
  forall s e, L !! s = Some e -> exists e', L' !! s = Some e' /\ entry_le e e' /\ P e e'.
Definition log_le : log -> log -> Prop := grows (fun _ _ => True).

#[local] Instance entry_le_refl : Reflexive entry_le.
Proof. by intros e. Qed.

Lemma grows_le P L L' : grows P L L' -> log_le L L'.
Proof. intros H s e Hs. destruct (H s e Hs) as (e' & ? & ? & _). by exists e'. Qed.

Lemma grows_refl P L : Reflexive P -> grows P L L.
Proof. intros HP s e Hs. by exists e. Qed.

Lemma grows_new (P : entry -> entry -> Prop) L s e : Reflexive P -> L !! s = None -> grows P L (<[s := e]> L).
Proof.
  intros HP Hn s' e' Hs'. assert (s <> s') by congruence. exists e'. by rewrite lookup_insert_ne.
Qed.

Lemma grows_upd (P : entry -> entry -> Prop) L s e e' : Reflexive P ->
  L !! s = Some e -> entry_le e e' -> P e e' -> grows P L (<[s := e']> L).
Proof.
  intros HP Hs Hle Hp s' x Hs'. destruct (decide (s = s')) as [<-|Hne].
  - rewrite Hs in Hs'. injection Hs' as <-. exists e'. by rewrite lookup_insert_eq.
  - exists x. by rewrite lookup_insert_ne.
Qed.

Lemma committed_le L L' s : log_le L L' -> committed L s -> committed L' s.
Proof. intros H (e & l & Hs & Hl). destruct (H s e Hs) as (e' & Hs' & Hle & _). exists e', l. split; [done|by apply Hle]. Qed.

Lemma chain_ok_le L L' e e' : log_le L L' -> entry_le e e' -> chain_ok L e -> chain_ok L' e'.
Proof.
  intros H [Hb Hi Hc _ _ _ _ _ _] [Hf Hx]. unfold chain_ok. rewrite Hb, Hi, Hc. split.
  - eapply Forall_impl; [exact Hf|]. intros s. by apply committed_le.
  - destruct (e_initial e); [done|]. destruct Hx as (p & ep & E & Hp & Ec).
    destruct (H p ep Hp) as (ep' & Hp' & Hle & _). exists p, ep'. by rewrite (el_chain _ _ Hle).
Qed.

(** A justification stays one when the entry grows. *)
Lemma choices_just_le s e e' br m2 : entry_le e e' -> choices_just s e br m2 -> choices_just s e' br m2.
Proof. intros Hle (r & bs & m1 & Hr & E & F). exists r, bs, m1. split_and!; [done|by apply Hle|done]. Qed.

Lemma commit_just_le s e e' er com rots m3 : entry_le e e' ->
  commit_just s e er com rots m3 -> commit_just s e' er com rots m3.
Proof.
  intros Hle (r & bs & m1 & br & m2 & seeds & Hr & E1 & E2 & F1 & F2). exists r, bs, m1, br, m2, seeds.
  rewrite (el_begin _ _ Hle). split_and!; try done; by apply Hle.
Qed.

Lemma challenge_just_le e e' es ch : entry_le e e' -> challenge_just e es ch -> challenge_just e' es ch.
Proof.
  intros Hle (r & br & m2 & er & com & rots & m3 & sel & delta & Hr & E1 & E2 & F1 & F2).
  exists r, br, m2, er, com, rots, m3, sel, delta. rewrite (el_begin _ _ Hle). split_and!; try done; by apply Hle.
Qed.

Lemma proof_just_le e e' pf : entry_le e e' -> proof_just e pf -> proof_just e' pf.
Proof.
  intros Hle (er & com & rots & m3 & es & ch & E1 & E2 & F). exists er, com, rots, m3, es, ch.
  split_and!; try done; by apply Hle.
Qed.

Lemma sots_just_le e e' l : entry_le e e' -> sots_just e l -> sots_just e' l.
Proof. intros Hle (es & ch & pf & E1 & E2 & F). exists es, ch, pf. split_and!; try done; by apply Hle. Qed.

(** Adding justified values keeps a log consistent. *)
Lemma entry_ok_le L L' s e e' : entry_ok L s e -> log_le L L' -> entry_le e e' ->
  (forall bs m1, e_setup e' = Some (bs, m1) -> e_setup e = Some (bs, m1) \/ setup_just s bs m1) ->
  (forall br m2, e_choices e' = Some (br, m2) -> e_choices e = Some (br, m2) \/ choices_just s e' br m2) ->
  (forall er com rots m3, e_commit e' = Some (er, com, rots, m3) ->
     e_commit e = Some (er, com, rots, m3) \/ commit_just s e' er com rots m3) ->
  (forall es ch, e_challenge e' = Some (es, ch) -> e_challenge e = Some (es, ch) \/ challenge_just e' es ch) ->
  (forall pf, e_proof e' = Some pf -> e_proof e = Some pf \/ proof_just e' pf) ->
  (forall l, e_sots e' = Some l -> e_sots e = Some l \/ sots_just e' l) ->
  entry_ok L' s e'.
Proof.
  intros [Hw Hs Hc H1 H2 H3 H4 H5 H6] HL Hle N1 N2 N3 N4 N5 N6. split.
  - by rewrite (el_begin _ _ Hle).
  - by rewrite (el_begin _ _ Hle).
  - by eapply chain_ok_le.
  - intros bs m1 E. destruct (N1 _ _ E) as [E'|?]; [by apply H1|done].
  - intros br m2 E. destruct (N2 _ _ E) as [E'|?]; [eapply choices_just_le; eauto|done].
  - intros er com rots m3 E. destruct (N3 _ _ _ _ E) as [E'|?]; [eapply commit_just_le; eauto|done].
  - intros es ch E. destruct (N4 _ _ E) as [E'|?]; [eapply challenge_just_le; eauto|done].
  - intros pf E. destruct (N5 _ E) as [E'|?]; [eapply proof_just_le; eauto|done].
  - intros l E. destruct (N6 _ E) as [E'|?]; [eapply sots_just_le; eauto|done].
Qed.

Lemma log_ok_insert L s e' : log_ok L -> log_le L (<[s := e']> L) -> entry_ok (<[s := e']> L) s e' ->
  log_ok (<[s := e']> L).
Proof.
  intros HL Hle He s' x Hs'. destruct (decide (s = s')) as [<-|Hne].
  - rewrite lookup_insert_eq in Hs'. by injection Hs' as <-.
  - rewrite lookup_insert_ne in Hs' by done. apply (entry_ok_le L _ s' x x); try done; [by apply HL|intros; by left..].
Qed.

Lemma genuine_req_le L L' d : log_le L L' -> genuine_req L d -> genuine_req L' d.
Proof.
  intros H [s e d' Hs Hm|s e br m2 d' Hs He Hm|s e es ch d' Hs He Hm];
    destruct (H s e Hs) as (e' & Hs' & Hle & _).
  - apply (gen_begin _ s e'); [done|]. by rewrite (el_begin _ _ Hle).
  - apply (gen_choices _ s e' br m2); [done|by apply Hle|done].
  - apply (gen_challenge _ s e' es ch); [done|by apply Hle|done].
Qed.

Lemma genuine_resp_le L L' d : log_le L L' -> genuine_resp L d -> genuine_resp L' d.
Proof.
  intros H [s e bs m1 d' Hs He Hm|s e er com rots m3 d' Hs He Hm|s e pf d' Hs He Hm];
    destruct (H s e Hs) as (e' & Hs' & Hle & _).
  - apply (gen_setup _ s e' bs m1); [done|by apply Hle|done].
  - apply (gen_commit _ s e' er com rots m3); [done|by apply Hle|done].
  - apply (gen_proof _ s e' pf); [done|by apply Hle|done].
Qed.

(** *** One more value *)

Definition with_setup v (e : entry) : entry :=
  mkEntry (e_begin e) (e_initial e) (e_chain e) (Some v) (e_choices e) (e_commit e) (e_challenge e) (e_proof e) (e_sots e).
Definition with_choices v (e : entry) : entry :=
  mkEntry (e_begin e) (e_initial e) (e_chain e) (e_setup e) (Some v) (e_commit e) (e_challenge e) (e_proof e) (e_sots e).
Definition with_commit v (e : entry) : entry :=
  mkEntry (e_begin e) (e_initial e) (e_chain e) (e_setup e) (e_choices e) (Some v) (e_challenge e) (e_proof e) (e_sots e).
Definition with_challenge v (e : entry) : entry :=
  mkEntry (e_begin e) (e_initial e) (e_chain e) (e_setup e) (e_choices e) (e_commit e) (Some v) (e_proof e) (e_sots e).
Definition with_proof v (e : entry) : entry :=
  mkEntry (e_begin e) (e_initial e) (e_chain e) (e_setup e) (e_choices e) (e_commit e) (e_challenge e) (Some v) (e_sots e).
Definition with_sots v (e : entry) : entry :=
  mkEntry (e_begin e) (e_initial e) (e_chain e) (e_setup e) (e_choices e) (e_commit e) (e_challenge e) (e_proof e) (Some v).

Lemma log_upd (P : entry -> entry -> Prop) L s e e' : Reflexive P -> log_ok L -> L !! s = Some e ->
  entry_le e e' -> P e e' ->
  (log_le L (<[s := e']> L) -> entry_ok L s e -> entry_ok (<[s := e']> L) s e') ->
  log_ok (<[s := e']> L) /\ grows P L (<[s := e']> L).
Proof.
  intros HP HL Hs Hle Hp Hok. assert (Hg : grows P L (<[s := e']> L)) by (by eapply grows_upd).
  split; [|done]. apply grows_le in Hg. apply log_ok_insert; [done..|]. apply Hok; [done|]. by apply HL.
Qed.

#[local] Instance same_k_refl : Reflexive same_k.
Proof. by intros e. Qed.
#[local] Instance same_t_refl : Reflexive same_t.
Proof. by intros e. Qed.

Lemma log_setup L s e bs m1 : log_ok L -> L !! s = Some e -> e_setup e = None -> setup_just s bs m1 ->
  log_ok (<[s := with_setup (bs, m1) e]> L) /\ grows same_k L (<[s := with_setup (bs, m1) e]> L).
Proof.
  intros HL Hs Hn Hj. assert (Hle : entry_le e (with_setup (bs, m1) e)) by (split; cbn; congruence || done).
  apply (log_upd _ _ _ e); try done. intros Hg He. apply (entry_ok_le L _ s e); try done; cbn; try (intros; by left).
  intros bs' m1' [= <- <-]. by right.
Qed.

Lemma log_choices L s e br m2 : log_ok L -> L !! s = Some e -> e_choices e = None -> choices_just s e br m2 ->
  log_ok (<[s := with_choices (br, m2) e]> L) /\ grows same_t L (<[s := with_choices (br, m2) e]> L).
Proof.
  intros HL Hs Hn Hj. assert (Hle : entry_le e (with_choices (br, m2) e)) by (split; cbn; congruence || done).
  apply (log_upd _ _ _ e); try done. intros Hg He. apply (entry_ok_le L _ s e); try done; cbn; try (intros; by left).
  intros br' m2' [= <- <-]. right. by eapply choices_just_le.
Qed.

Lemma log_commit L s e er com rots m3 : log_ok L -> L !! s = Some e -> e_commit e = None ->
  commit_just s e er com rots m3 ->
  log_ok (<[s := with_commit (er, com, rots, m3) e]> L) /\ grows same_k L (<[s := with_commit (er, com, rots, m3) e]> L).
Proof.
  intros HL Hs Hn Hj. assert (Hle : entry_le e (with_commit (er, com, rots, m3) e)) by (split; cbn; congruence || done).
  apply (log_upd _ _ _ e); try done. intros Hg He. apply (entry_ok_le L _ s e); try done; cbn; try (intros; by left).
  intros ? ? ? ? [= <- <- <- <-]. right. by eapply commit_just_le.
Qed.

Lemma log_challenge L s e es ch : log_ok L -> L !! s = Some e -> e_challenge e = None -> challenge_just e es ch ->
  log_ok (<[s := with_challenge (es, ch) e]> L) /\ grows same_t L (<[s := with_challenge (es, ch) e]> L).
Proof.
  intros HL Hs Hn Hj. assert (Hle : entry_le e (with_challenge (es, ch) e)) by (split; cbn; congruence || done).
  apply (log_upd _ _ _ e); try done. intros Hg He. apply (entry_ok_le L _ s e); try done; cbn; try (intros; by left).
  intros ? ? [= <- <-]. right. by eapply challenge_just_le.
Qed.

Lemma log_proof L s e pf : log_ok L -> L !! s = Some e -> e_proof e = None -> proof_just e pf ->
  log_ok (<[s := with_proof pf e]> L) /\ grows same_k L (<[s := with_proof pf e]> L).
Proof.
  intros HL Hs Hn Hj. assert (Hle : entry_le e (with_proof pf e)) by (split; cbn; congruence || done).
  apply (log_upd _ _ _ e); try done. intros Hg He. apply (entry_ok_le L _ s e); try done; cbn; try (intros; by left).
  intros ? [= <-]. right. by eapply proof_just_le.
Qed.

Lemma log_sots L s e l : log_ok L -> L !! s = Some e -> e_sots e = None -> sots_just e l ->
  log_ok (<[s := with_sots l e]> L) /\ grows same_t L (<[s := with_sots l e]> L).
Proof.
  intros HL Hs Hn Hj. assert (Hle : entry_le e (with_sots l e)) by (split; cbn; congruence || done).
  apply (log_upd _ _ _ e); try done. intros Hg He. apply (entry_ok_le L _ s e); try done; cbn; try (intros; by left).
  intros ? [= <-]. right. by eapply sots_just_le.
Qed.

(** A batch is opened: nothing is known of it but its opening message. *)
Definition open_entry (b : PrecomputeBegin) (initial : bool) (chain : list bytes) : entry :=
  mkEntry b initial chain None None None None None None.

Lemma log_open L b initial chain : log_ok L -> L !! bSessionID b = None -> batch_wf b ->
  chain_ok L (open_entry b initial chain) ->
  log_ok (<[bSessionID b := open_entry b initial chain]> L) /\
  forall P, Reflexive P -> grows P L (<[bSessionID b := open_entry b initial chain]> L).
Proof.
  intros HL Hn Hw Hc. assert (Hle : log_le L (<[bSessionID b := open_entry b initial chain]> L)) by (by apply grows_new).
  split; [|intros P HP; by apply grows_new]. apply log_ok_insert; [done..|]. split; try done. by eapply chain_ok_le.
Qed.

Lemma chain_at L s e p ep : log_ok L -> L !! s = Some e -> e_initial e = false ->
  bEpoch (e_begin e) = ExtensionEpoch p -> L !! p = Some ep -> e_chain e = e_chain ep ++ [p].
Proof.
  intros HL Hs Hi He Hp. destruct (eo_chain _ _ _ (HL _ _ Hs)) as [_ Hx]. rewrite Hi in Hx.
  destruct Hx as (p' & ep' & He' & Hp' & Hx). rewrite He in He'.
  apply ExtensionEpoch_inj in He' as <-; [congruence|by eapply entry_session, HL..].
Qed.

(** ** Histories *)

Definition sots_of (L : log) (s : bytes) : list SenderOT :=
  match L !! s with Some e => default [] (e_sots e) | None => [] end.
Definition rots_of (L : log) (s : bytes) : list ReceiverOT :=
  match L !! s with Some e => match e_commit e with Some (_, _, l, _) => l | None => [] end | None => [] end.
Definition sender_history (L : log) (ss : list bytes) : list SenderOT := concat (sots_of L <$> ss).
Definition receiver_history (L : log) (ss : list bytes) : list ReceiverOT := concat (rots_of L <$> ss).

(** TEE_T has made its entries for the batch. *)
Definition offered (L : log) (s : bytes) : Prop := exists e v, L !! s = Some e /\ e_commit e = Some v.

Lemma committed_offered L s : log_ok L -> committed L s -> offered L s /\ correlated (sots_of L s) (rots_of L s).
Proof.
  intros HL (e & l & Hs & Hl). destruct (eo_sots _ _ _ (HL _ _ Hs) _ Hl) as (es & ch & pf & E1 & E2 & F).
  destruct (finished_correlated _ _ _ _ _ _ _ (HL _ _ Hs) E1 E2 F) as (er & com & rots & m3 & E3 & Hc & _).
  split; [by exists e, (er, com, rots, m3)|]. unfold sots_of, rots_of. by rewrite Hs, Hl, E3.
Qed.

Lemma histories_correlated L ss : log_ok L -> Forall (committed L) ss ->
  correlated (sender_history L ss) (receiver_history L ss).
Proof.
  intros HL. induction 1 as [|s ss Hs _ IH]; [constructor|]. unfold sender_history, receiver_history.
  rewrite !fmap_cons. cbn [concat]. apply Forall2_app; [by apply committed_offered|done].
Qed.

Lemma sender_history_le L L' ss : log_le L L' -> Forall (committed L) ss -> sender_history L' ss = sender_history L ss.
Proof.
  intros H. induction 1 as [|s ss (e & l & Hs & Hl) _ IH]; [done|]. unfold sender_history in *.
  rewrite !fmap_cons. cbn [concat]. rewrite IH. f_equal. destruct (H s e Hs) as (e' & Hs' & Hle & _).
  unfold sots_of. by rewrite Hs, Hs', Hl, (el_sots _ _ Hle _ Hl).
Qed.

Lemma receiver_history_le L L' ss : log_le L L' -> Forall (offered L) ss -> receiver_history L' ss = receiver_history L ss.
Proof.
  intros H. induction 1 as [|s ss (e & l & Hs & Hl) _ IH]; [done|]. unfold receiver_history in *.
  rewrite !fmap_cons. cbn [concat]. rewrite IH. f_equal. destruct (H s e Hs) as (e' & Hs' & Hle & _).
  unfold rots_of. by rewrite Hs, Hs', Hl, (el_commit _ _ Hle _ Hl).
Qed.

Lemma sender_history_snoc L ss s : sender_history L (ss ++ [s]) = sender_history L ss ++ sots_of L s.
Proof. unfold sender_history. rewrite fmap_app, concat_app. cbn. by rewrite app_nil_r. Qed.

Lemma receiver_history_snoc L ss s : receiver_history L (ss ++ [s]) = receiver_history L ss ++ rots_of L s.
Proof. unfold receiver_history. rewrite fmap_app, concat_app. cbn. by rewrite app_nil_r. Qed.

End Log.
