(* ===== verification/SenderInv.v ===== *)
(** * What TEE_K's precomputation state means

    [kinv] relates the state of TEE_K to the log of batches: the pool holds the
    unreserved end of the history of the batch that gave the epoch, and the
    pending batch is exactly as far as its phase says.  [kthread_ok] is what a
    goroutine knows.  Every critical section keeps both. *)

From S2P Require Import Prelude Bytes Label Slices Transpose Gf128 Crypto Circuit Oprf SenderPool OtExtension BaseOt.
From S2P Require Import Wire ExtensionWire Precompute PrecomputeSender PrecomputeLog.

Section Sender.
Context {BC : BlockCipher} {SH : Sha256} {CO : COLib} {CL : COLaws} (hw : bool).
Notation log := (gmap (list Z) entry).
Implicit Types L : log.

(** ** The pool *)

Definition kpool_ok L (pool : SenderPool) (ready : bool) (epoch : bytes) : Prop :=
  exists q, sender_repr pool q /\
  if ready then
    exists p e, epoch = ExtensionEpoch p /\ L !! p = Some e /\ Forall (committed L) (e_chain e ++ [p]) /\
      q_end q = Z.of_nat (length (sender_history L (e_chain e ++ [p]))) /\
      q_items q = drop (Z.to_nat (q_next q)) (sender_history L (e_chain e ++ [p]))
  else q = mkQueue 0 [].

Lemma kpool_le L L' pool ready epoch : log_le L L' -> kpool_ok L pool ready epoch -> kpool_ok L' pool ready epoch.
Proof.
  intros H (q & Hq & Hr). exists q. split; [done|]. destruct ready; [|done].
  destruct Hr as (p & e & He & Hp & Hc & He' & Hi). destruct (H p e Hp) as (e' & Hp' & Hle & _). exists p, e'.
  rewrite (el_chain _ _ Hle), (sender_history_le L L') by done. split_and!; try done.
  eapply Forall_impl; [exact Hc|]. intros s. by apply committed_le.
Qed.

Lemma kpool_claim L pool ready epoch c : kpool_ok L pool ready epoch ->
  kpool_ok L (mkSenderPool (sp_entries pool) (sp_base pool) (sp_next pool) c) ready epoch.
Proof. intros (q & Hq & Hr). exists q. split; [by apply sender_repr_claim|done]. Qed.

Lemma kpool_invalidate L pool ready epoch :
  kpool_ok L pool ready epoch -> kpool_ok L (SenderPool_InvalidateExtendClaim pool) ready epoch.
Proof. apply kpool_claim. Qed.

Lemma kpool_release L pool ready epoch c : kpool_ok L pool ready epoch ->
  kpool_ok L (fst (SenderPool_ReleaseExtendClaim pool c)) ready epoch.
Proof. intros H. unfold SenderPool_ReleaseExtendClaim. destruct (owns pool c); [by apply kpool_claim|done]. Qed.

Lemma kpool_ClaimExtend L pool ready epoch a a' pool' c : kpool_ok L pool ready epoch ->
  SenderPool_ClaimExtendIfNeeded a pool = (a', pool', c) -> kpool_ok L pool' ready epoch /\ (a <= a')%nat.
Proof.
  intros H. unfold SenderPool_ClaimExtendIfNeeded. destruct (sender_totalLocked pool) as [total| |].
  - cbv zeta. destruct (_ || _); intros E; injection E as <- <- <-; [done|]. split; [by apply kpool_claim|lia].
  - by intros E; injection E as <- <- <-.
  - by intros E; injection E as <- <- <-.
Qed.

Lemma kpool_clearLocked L pool ready epoch epoch' : kpool_ok L pool ready epoch ->
  kpool_ok L (sender_clearLocked pool) false epoch'.
Proof. intros (q & Hq & _). exists (mkQueue 0 []). split; [by eapply sender_clearLocked_repr|done]. Qed.

Lemma kpool_Clear L pool ready epoch epoch' : kpool_ok L pool ready epoch ->
  kpool_ok L (SenderPool_Clear pool) false epoch'.
Proof. intros H. unfold SenderPool_Clear. apply kpool_claim. by eapply kpool_clearLocked. Qed.

Lemma kpool_new L epoch : kpool_ok L (os_pool NewOTPrecomputeState) false epoch.
Proof. exists (mkQueue 0 []). split; [apply NewSenderPool_repr|done]. Qed.

Lemma kpool_reserve L pool ready epoch n pool' r : kpool_ok L pool ready epoch -> is_int n ->
  SenderPool_Reserve pool n = (pool', r) -> kpool_ok L pool' ready epoch.
Proof.
  intros (q & Hq & Hr) Hn E. pose proof Hq as (_ & Hb & Hnx & _).
  apply (SenderPool_Reserve_repr pool q) in E; [|done..].
  unfold q_reserve in E. destruct ((0 <? n) && (n <=? Z.of_nat (length (q_items q)))) eqn:G; cbn in E.
  2: { destruct E as [_ ->]. by exists q. }
  apply andb_true_iff in G as [G1%Z.ltb_lt G2%Z.leb_le]. destruct E as (_ & Hq' & _). eexists. split; [exact Hq'|].
  destruct ready.
  - destruct Hr as (p & e & He & Hp & Hc & Hend & Hi). exists p, e. split_and!; try done; unfold q_end in *; cbn [q_next q_items] in *.
    + rewrite <- Hend, length_drop. lia.
    + rewrite Hi, drop_drop. f_equal. lia.
  - subst q. cbn in G2. lia.
Qed.

(** A finished batch joins the pool and the epoch moves on. *)
Lemma kpool_add L pool ready epoch s e l pool' :
  log_ok hw L -> kpool_ok L pool ready epoch -> L !! s = Some e -> e_sots e = Some l ->
  bEpoch (e_begin e) = epoch -> e_initial e = negb ready ->
  Z.of_nat (slen (sp_entries pool) + length l) < 2 ^ 63 ->
  SenderPool_Add pool l = (pool', Ok ()) -> kpool_ok L pool' true (ExtensionEpoch s).
Proof.
  intros HL (q & Hq & Hr) Hs Hl Hep Hin Hfit E. pose proof Hq as (_ & Hb & Hnx & _).
  apply (SenderPool_Add_repr pool q) in E as [(_ & Hq' & _)|[[m ?] _]]; [|done..]. exists (q_add q l). split; [done|].
  destruct (eo_chain _ _ _ _ (HL _ _ Hs)) as [Hc Hx]. rewrite Hin in Hx.
  assert (Hist : q_end q = Z.of_nat (length (sender_history L (e_chain e))) /\
                 q_items q = drop (Z.to_nat (q_next q)) (sender_history L (e_chain e))).
  { destruct ready; cbn [negb] in Hin, Hx.
    - destruct Hr as (p & ep & He & Hp & _ & Hend & Hi).
      by rewrite (chain_at hw L s e p ep HL Hs Hin ltac:(congruence) Hp).
    - rewrite Hx, Hr. done. }
  destruct Hist as [Hend Hi]. exists s, e. unfold q_end, q_add in *. cbn [q_next q_items].
  rewrite sender_history_snoc, !length_app. unfold sots_of. rewrite Hs, Hl. cbn [from_option id].
  split_and!; [done..| | |].
  - apply Forall_app. split; [done|]. apply Forall_singleton. by exists e, l.
  - lia.
  - rewrite Hi, drop_app_le by lia. done.
Qed.

(** ** The pending batch and the goroutines *)

Definition base_known (e : entry) (b : option BaseOTReceiverState) : Prop :=
  match b with None => e_choices e = None | Some br => exists m2, e_choices e = Some (br, m2) end.

Definition kpending_ok L (alloc : nat) (ready : bool) (epoch : bytes) (q : senderPrecompute) : Prop :=
  (sn_id q < alloc)%nat /\
  exists e, L !! sn_session q = Some e /\
    e_begin e = mkBegin (sn_session q) (sn_start q) (u32 (sn_count q)) epoch /\
    e_initial e = sn_initial q /\ sn_initial q = negb ready /\ e_sots e = None /\
    match sn_phase q with
    | senderPrecomputeAwaitBaseSetup => sn_base q = None /\ e_choices e = None /\ e_challenge e = None
    | senderPrecomputeAwaitCommitment | senderPrecomputeProcessingCommitment =>
        base_known e (sn_base q) /\ e_challenge e = None
    | senderPrecomputeAwaitProof | senderPrecomputeProcessingProof =>
        exists es ch, sn_ext q = Some es /\ e_challenge e = Some (es, ch)
    end.

Definition kinv L (k : TEEK) : Prop :=
  forall s, tk_ot k = Some s ->
    kpool_ok L (os_pool s) (os_ready s) (os_epoch s) /\
    forall q, os_pending s = Some q -> kpending_ok L (tk_alloc k) (os_ready s) (os_epoch s) q.

(** The address [p] stands for the session [s], if it is still pending. *)
Definition link (k : TEEK) (p : nat) (s : bytes) : Prop :=
  (p < tk_alloc k)%nat /\
  forall st q, tk_ot k = Some st -> os_pending st = Some q -> sn_id q = p -> sn_session q = s.

(** A request frame: genuine, and an opening one says truly whether it is
    initial. *)
Definition req_ok L (d : bytes) (isInitial : bool) : Prop :=
  genuine_req L d /\
  forall b e, UnmarshalPrecomputeBegin d = Ok b -> L !! bSessionID b = Some e -> e_initial e = isInitial.

Definition kthread_ok L (k : TEEK) (th : kthread) : Prop :=
  match th with
  | KSendBegin _ _ _ isInitial _ frame | KSendChoices _ _ _ isInitial _ frame
  | KSendChallenge _ _ _ isInitial _ frame => req_ok L frame isInitial
  | KBaseSetup p _ session data => genuine_resp L data /\ link k p session
  | KCommitment p _ base expected data =>
      genuine_resp L data /\ link k p (bSessionID expected) /\
      exists e, L !! bSessionID expected = Some e /\ e_begin e = expected /\
        forall br, base = Some br -> exists m2, e_choices e = Some (br, m2)
  | KProof pend data =>
      genuine_resp L data /\ link k (sn_id pend) (sn_session pend) /\
      exists e, L !! sn_session pend = Some e /\ e_initial e = sn_initial pend /\
        forall es, sn_ext pend = Some es -> exists ch, e_challenge e = Some (es, ch)
  | KSendComplete pend entries _ | KCommit pend entries =>
      link k (sn_id pend) (sn_session pend) /\
      exists e, L !! sn_session pend = Some e /\ e_initial e = sn_initial pend /\ sots_just e entries
  end.

(** Between two states of TEE_K a pending batch stays, goes, or is a new one. *)
Definition pend_mono (k k' : TEEK) : Prop :=
  (tk_alloc k <= tk_alloc k')%nat /\
  forall s' q', tk_ot k' = Some s' -> os_pending s' = Some q' ->
    (tk_alloc k <= sn_id q')%nat \/
    exists s q, tk_ot k = Some s /\ os_pending s = Some q /\ sn_id q = sn_id q' /\ sn_session q = sn_session q'.

Lemma link_mono k k' p s : pend_mono k k' -> link k p s -> link k' p s.
Proof.
  intros [Ha Hp] [Hl Hq]. split; [lia|]. intros st q Hst Hpe Hid.
  destruct (Hp st q Hst Hpe) as [?|(s0 & q0 & Hs0 & Hq0 & Hid0 & Hse0)]; [lia|].
  rewrite <- Hse0. eapply Hq; eauto. congruence.
Qed.

Lemma req_ok_le L L' d i : log_ok hw L -> log_le L L' -> req_ok L d i -> req_ok L' d i.
Proof.
  intros HL H [Hg Hi]. split; [by eapply genuine_req_le|]. intros b e' Hb Hs'.
  destruct (req_begin hw L d b HL Hg Hb) as (e & Hs & _). destruct (H _ _ Hs) as (e2 & Hs2 & Hle & _).
  assert (e2 = e') as <- by congruence. rewrite (el_initial _ _ Hle). by eapply Hi.
Qed.

Lemma kthread_mono L L' k k' th : log_ok hw L -> log_le L L' -> pend_mono k k' ->
  kthread_ok L k th -> kthread_ok L' k' th.
Proof.
  intros HL H Hm. destruct th; cbn; try (by apply req_ok_le).
  - intros [? ?]. split; [by eapply genuine_resp_le|by eapply link_mono].
  - intros (? & ? & e & Hs & <- & Hb). destruct (H _ _ Hs) as (e' & Hs' & Hle & _).
    split; [by eapply genuine_resp_le|]. split; [by eapply link_mono|]. exists e'.
    split; [done|]. split; [apply Hle|]. intros br Hbr. destruct (Hb br Hbr) as (m2 & E). exists m2. by apply Hle.
  - intros (? & ? & e & Hs & Hi & Hb). destruct (H _ _ Hs) as (e' & Hs' & Hle & _).
    split; [by eapply genuine_resp_le|]. split; [by eapply link_mono|]. exists e'.
    split; [done|]. split; [by rewrite (el_initial _ _ Hle)|]. intros es Hes. destruct (Hb es Hes) as (ch & E). exists ch. by apply Hle.
  - intros (? & e & Hs & Hi & Hj). destruct (H _ _ Hs) as (e' & Hs' & Hle & _). split; [by eapply link_mono|]. exists e'.
    split; [done|]. split; [by rewrite (el_initial _ _ Hle)|by eapply sots_just_le].
  - intros (? & e & Hs & Hi & Hj). destruct (H _ _ Hs) as (e' & Hs' & Hle & _). split; [by eapply link_mono|]. exists e'.
    split; [done|]. split; [by rewrite (el_initial _ _ Hle)|by eapply sots_just_le].
Qed.

(** TEE_T's progress does not disturb TEE_K. *)
Lemma kinv_t L L' k : grows same_k L L' -> kinv L k -> kinv L' k.
Proof.
  intros H Hk s Hs. destruct (Hk s Hs) as [Hp Hq]. split; [eapply kpool_le; [by eapply grows_le|done]|].
  intros q Eq. destruct (Hq q Eq) as (Hid & e & He & Hb & Hi & Hr & Hs0 & Hph). split; [done|].
  destruct (H _ _ He) as (e' & He' & Hle & Hc & Hch & Hso). exists e'. rewrite (el_begin _ _ Hle), (el_initial _ _ Hle), Hso.
  split_and!; try done. unfold base_known in *. destruct (sn_phase q); rewrite ?Hc, ?Hch; done.
Qed.

(** ** Critical sections that open no batch and add no OTs *)

Definition ksafe L (k k' : TEEK) : Prop := kinv L k' /\ pend_mono k k'.

Lemma pend_mono_refl k : pend_mono k k.
Proof. split; [done|]. intros s q Hs Hq. right. by exists s, q. Qed.

Lemma ksafe_refl L k : kinv L k -> ksafe L k k.
Proof. intros H. split; [done|apply pend_mono_refl]. Qed.

Lemma ksafe_trans L k1 k2 k3 : ksafe L k1 k2 -> (kinv L k2 -> ksafe L k2 k3) -> ksafe L k1 k3.
Proof.
  intros [H1 [A1 P1]] H2. destruct (H2 H1) as [H3 [A2 P2]]. split; [done|]. split; [lia|].
  intros s q Hs Hq. destruct (P2 s q Hs Hq) as [?|(s2 & q2 & Hs2 & Hq2 & E1 & E2)]; [left; lia|].
  destruct (P1 s2 q2 Hs2 Hq2) as [?|(s1 & q1 & Hs1 & Hq1 & F1 & F2)]; [left; lia|].
  right. exists s1, q1. split_and!; congruence.
Qed.

(** The state is only looked at through the pool, its epoch and the pending
    batch. *)
Lemma ksafe_keep L k k' s s' : kinv L k -> tk_ot k = Some s -> tk_ot k' = Some s' -> (tk_alloc k <= tk_alloc k')%nat ->
  kpool_ok L (os_pool s') (os_ready s') (os_epoch s') ->
  os_pending s' = None \/ (os_pending s' = os_pending s /\ os_ready s' = os_ready s /\ os_epoch s' = os_epoch s) ->
  ksafe L k k'.
Proof.
  intros Hk Hs Hs' Ha Hp Hq. destruct (Hk s Hs) as [_ Hpe]. split; [|split; [done|]].
  - intros s2 E. rewrite Hs' in E. injection E as <-. split; [done|]. intros q Eq.
    destruct Hq as [?|(E & -> & ->)]; [congruence|]. destruct (Hpe q ltac:(congruence)) as [? ?]. split; [lia|done].
  - intros s2 q2 E Eq. rewrite Hs' in E. injection E as <-. destruct Hq as [?|(E & _)]; [congruence|].
    right. exists s, q2. split_and!; congruence.
Qed.

Lemma ksafe_same L k k' : kinv L k -> tk_ot k' = tk_ot k -> tk_alloc k' = tk_alloc k -> ksafe L k k'.
Proof.
  intros Hk E1 E2. split.
  - intros s Hs. rewrite E2. apply Hk. congruence.
  - split; [lia|]. intros s q Hs Hq. right. exists s, q. split_and!; congruence.
Qed.

Lemma signal_ot p r k : tk_ot (signalSenderPrecompute p r k) = tk_ot k.
Proof. unfold signalSenderPrecompute. by case_match. Qed.
Lemma signal_alloc p r k : tk_alloc (signalSenderPrecompute p r k) = tk_alloc k.
Proof. unfold signalSenderPrecompute. by case_match. Qed.
Lemma signal_pending_ot s m k : tk_ot (signal_pending s m k) = tk_ot k.
Proof. unfold signal_pending. case_match; [apply signal_ot|done]. Qed.
Lemma signal_pending_alloc s m k : tk_alloc (signal_pending s m k) = tk_alloc k.
Proof. unfold signal_pending. case_match; [apply signal_alloc|done]. Qed.

End Sender.

#[export] Hint Rewrite @signal_ot @signal_alloc @signal_pending_ot @signal_pending_alloc : kstate.

(** Reads the pool state and the allocator off an updated TEE_K. *)
Ltac kproj := unfold publishOTReadyLocked; autorewrite with kstate; cbn; autorewrite with kstate; cbn.

Section Steps.
Context {BC : BlockCipher} {SH : Sha256} {CO : COLib} {CL : COLaws} (hw : bool).
Notation log := (gmap (list Z) entry).
Implicit Types L : log.

(** [ksafe_keep] on an explicit state. *)
Ltac keep s := eapply (ksafe_keep _ _ _ s); [done|done|kproj; reflexivity|kproj; done || lia|cbn|cbn].

Lemma ksafe_fail L k p m : kinv L k -> ksafe L k (fst (failPendingPrecompute k p m)).
Proof.
  intros Hk. unfold failPendingPrecompute. destruct (tk_ot k) as [s|] eqn:Es; [|by apply ksafe_refl].
  destruct (pending_is s p); [|by apply ksafe_refl]. cbn [fst]. keep s; [by apply Hk|by left].
Qed.

Lemma kpool_ForFailure L pool ready epoch c pool' epoch' : kpool_ok L pool ready epoch ->
  SenderPool_ClearForExtendFailure pool c = (pool', true) -> kpool_ok L pool' false epoch'.
Proof.
  intros H. unfold SenderPool_ClearForExtendFailure. destruct (owns pool c); [|done].
  intros E. injection E as <-. by eapply kpool_clearLocked.
Qed.

(** The pool of a batch that is given up. *)
Lemma kpool_give_up L pool ready epoch (initial : bool) c pool' epoch' : kpool_ok L pool ready epoch ->
  (if initial then (SenderPool_Clear pool, true) else SenderPool_ClearForExtendFailure pool c) = (pool', true) ->
  kpool_ok L pool' false epoch'.
Proof.
  intros H. destruct initial; [|by eapply kpool_ForFailure]. intros E. injection E as <-. by eapply kpool_Clear.
Qed.

Lemma ksafe_failClear L k pend m : kinv L k -> ksafe L k (fst (failPendingPrecomputeAndClear k pend m)).
Proof.
  intros Hk. unfold failPendingPrecomputeAndClear. destruct (tk_ot k) as [s|] eqn:Es; [|by apply ksafe_refl].
  destruct (negb (pending_is s (sn_id pend))); [by apply ksafe_refl|].
  destruct (if sn_initial pend then _ else _) as [pool owned] eqn:Ec. destruct owned; [|by apply ksafe_refl].
  cbn [negb fst]. keep s; [|by left]. eapply kpool_give_up; [|exact Ec]. by apply Hk.
Qed.

Lemma ksafe_recover L k c o : kinv L k -> ksafe L k (fst (recoverFailedClaimedOTExtension k c o)).
Proof.
  intros Hk. unfold recoverFailedClaimedOTExtension. destruct (tk_ot k) as [s|] eqn:Es; [|by apply ksafe_refl].
  pose proof (kpool_release L (os_pool s) (os_ready s) (os_epoch s) c (proj1 (Hk s Es))) as Hp.
  destruct (SenderPool_ReleaseExtendClaim (os_pool s) c) as [pool released]. cbn [fst] in Hp.
  destruct o as [o|]; [|cbn [fst]; keep s; [done|by right]].
  destruct released; [|by apply ksafe_refl]. cbn [negb].
  destruct (isCurrentControlConnection k o); cbn [negb fst]; [|keep s; [done|by right]].
  destruct (otPoolUsableLocked (Some (set_pool pool s))); cbn [fst]; (keep s; [done|by right]).
Qed.

Lemma ksafe_reserve L k ok o rs range n : kinv L k -> is_int n ->
  ksafe L k (fst (fst (fst (reserveOTEntriesForSession k ok o rs range n)))).
Proof.
  intros Hk Hn. unfold reserveOTEntriesForSession. destruct (tk_ot k) as [s|] eqn:Es; [|by apply ksafe_refl].
  destruct (negb ok); [by apply ksafe_refl|]. destruct (negb (os_ready s) || os_inconsistent s); [by apply ksafe_refl|].
  destruct (negb _); [by apply ksafe_refl|].
  destruct (SenderPool_Reserve (os_pool s) n) as [pool r] eqn:Er.
  destruct (SenderPool_ClaimExtendIfNeeded (tk_alloc k) pool) as [[a pool'] c] eqn:Ec. cbn [fst].
  pose proof (kpool_reserve L _ _ _ n pool r (proj1 (Hk s Es)) Hn Er) as Hp.
  apply (kpool_ClaimExtend L _ (os_ready s) (os_epoch s)) in Ec as [Hp' Ha]; [|done]. keep s; [done|by right].
Qed.

Lemma ksafe_reconcile L k r : kinv L k -> ksafe L k (fst (reconcileAbandonedOTReservation k r)).
Proof.
  intros Hk. unfold reconcileAbandonedOTReservation. destruct (tk_ot k) as [s|] eqn:Es; [|by apply ksafe_refl].
  destruct (isCurrentControlConnection k (snd r)); cbn [negb fst]; [|by apply ksafe_refl].
  keep s; [by apply Hk|by right].
Qed.

Lemma ksafe_clear L k : kinv L k -> ksafe L k (clearOTPool k).
Proof.
  intros Hk. unfold clearOTPool. destruct (tk_ot k) as [s|] eqn:Es; [|by apply ksafe_refl].
  keep s; [|by left]. eapply kpool_Clear. by apply Hk.
Qed.

Lemma ksafe_suspend L k : kinv L k -> ksafe L k (suspendOTPoolForReconnect k).
Proof.
  intros Hk. unfold suspendOTPoolForReconnect. destruct (tk_ot k) as [s|] eqn:Es; [|by apply ksafe_refl].
  destruct (os_ready s) eqn:Er; [|by apply ksafe_clear]. keep s; [|by left].
  rewrite Er. apply kpool_invalidate. rewrite <- Er. by apply Hk.
Qed.

Lemma ksafe_tearDown L k ctl : kinv L k -> ksafe L k (tearDownControl k ctl).
Proof.
  intros Hk. unfold tearDownControl. destruct (negb _); [by apply ksafe_refl|].
  apply (ksafe_trans _ _ (set_healthy false (set_control None (tk_generation k) false k)));
    [by apply ksafe_same|apply ksafe_suspend].
Qed.

Lemma ksafe_establish L k c : kinv L k -> ksafe L k (establishControl c k).
Proof. intros Hk. by apply ksafe_same. Qed.

Lemma ksafe_resume_begin L k : kinv L k -> ksafe L k (fst (resume_begin k)).
Proof.
  intros Hk. unfold resume_begin. destruct (currentAttestedControlToken k); try by apply ksafe_refl.
  destruct (tk_ot k) as [s|] eqn:Es; [|by apply ksafe_refl]. destruct (negb _); [by apply ksafe_refl|].
  destruct (negb _); [by apply ksafe_refl|]. cbn [fst]. keep s; [by apply Hk|by right].
Qed.

Lemma ksafe_resume_response L k ctl b : kinv L k -> ksafe L k (fst (handleOTResumeResponse k ctl b)).
Proof.
  intros Hk. unfold handleOTResumeResponse. destruct (tk_ot k) as [s|] eqn:Es; [|by apply ksafe_refl].
  destruct (os_resumePending s) as [[a o]|]; [|by apply ksafe_refl]. destruct (negb _); [by apply ksafe_refl|].
  destruct (os_resumeChan s); [by apply ksafe_refl|]. cbn [fst]. keep s; [by apply Hk|by right].
Qed.

Lemma ksafe_resume_finish L k a o : kinv L k -> ksafe L k (fst (resume_finish k a o)).
Proof.
  intros Hk. unfold resume_finish. destruct (tk_ot k) as [s|] eqn:Es; [|by apply ksafe_refl].
  destruct (Hk s Es) as [Hp _]. cbv zeta.
  assert (Hrel : forall s0, os_pool s0 = os_pool s -> os_ready s0 = os_ready s -> os_epoch s0 = os_epoch s ->
    os_pending s0 = os_pending s -> forall k', tk_alloc k' = tk_alloc k ->
    tk_ot k' = Some (match os_resumePending s0 with
                     | Some (b, _) => if bool_decide (b = a) then set_resumePending None s0 else s0
                     | None => s0 end) -> ksafe L k k').
  { intros s0 E1 E2 E3 E4 k' Ha Hs'. eapply (ksafe_keep _ _ _ s); [done|done|exact Hs'|lia| |].
    - destruct (os_resumePending s0) as [[b o']|]; [destruct (bool_decide _)|]; cbn; by rewrite E1, E2, E3.
    - right. destruct (os_resumePending s0) as [[b o']|]; [destruct (bool_decide _)|]; cbn; by rewrite E2, E3, E4. }
  destruct (os_resumeChan s) as [[ctl acc]|]; [|cbn [fst]; by eapply (Hrel s)].
  destruct (negb _); [cbn [fst]; by eapply (Hrel (set_resumeChan None s))|].
  destruct acc; cbn [negb]; [|cbn [fst]; by eapply (Hrel (set_resumeChan None s))].
  destruct (isCurrentControlConnection k o); cbn [negb fst]; [|by eapply (Hrel (set_resumeChan None s))].
  by eapply (Hrel (set_inconsistent false (set_resumeChan None s))).
Qed.

Lemma ksafe_ensure L k : kinv L k -> ksafe L k (fst (ensureResumedOTPoolUsable k)).
Proof.
  intros Hk. unfold ensureResumedOTPoolUsable. destruct (tk_ot k) as [s|] eqn:Es; [|by apply ksafe_refl].
  destruct (OTPoolWatermark <=? _); [cbn [fst]; keep s; [by apply Hk|by right]|].
  destruct (SenderPool_ClaimExtendIfNeeded (tk_alloc k) (os_pool s)) as [[a pool'] c] eqn:Ec.
  apply (kpool_ClaimExtend L _ (os_ready s) (os_epoch s)) in Ec as [Hp' Ha]; [|by apply Hk].
  destruct c; cbn [fst]; (keep s; [done|by right]).
Qed.


(** ** Critical sections that advance the pending batch *)

Lemma kinv_move L L' k s q q' : kinv L k -> log_le L L' -> tk_ot k = Some s -> os_pending s = Some q ->
  sn_id q' = sn_id q -> sn_session q' = sn_session q ->
  kpending_ok L' (tk_alloc k) (os_ready s) (os_epoch s) q' ->
  kinv L' (set_ot (set_pending (Some q') s) k) /\ pend_mono k (set_ot (set_pending (Some q') s) k).
Proof.
  intros Hk HL Hs Hq Hid Hse Hp. split.
  - intros s' [= <-]. cbn. split; [eapply kpool_le; [done|]; by apply Hk|]. by intros ? [= <-].
  - split; [done|]. cbn. intros s' q2 [= <-] [= <-]. right. by exists s, q.
Qed.

Lemma kinv_pending L k s q : kinv L k -> tk_ot k = Some s -> os_pending s = Some q ->
  kpending_ok L (tk_alloc k) (os_ready s) (os_epoch s) q.
Proof. intros Hk Hs Hq. by apply (Hk s Hs). Qed.

Lemma link_pending k s q : (sn_id q < tk_alloc k)%nat -> tk_ot k = Some s -> os_pending s = Some q ->
  link k (sn_id q) (sn_session q).
Proof. intros Ha Hs Hq. split; [done|]. intros st q' E1 E2 _. congruence. Qed.

(** What the opening frame of a batch names. *)
Definition begin_session (d : bytes) : option bytes :=
  match UnmarshalPrecomputeBegin d with Ok b => Some (bSessionID b) | _ => None end.

(** The opening frame that a goroutine or a message carries. *)
Definition ktok (th : kthread) : option bytes :=
  match th with
  | KSendBegin _ _ _ _ _ frame | KSendChoices _ _ _ _ _ frame | KSendChallenge _ _ _ _ _ frame => begin_session frame
  | _ => None
  end.
Definition mtok (m : otMessage) : option bytes :=
  match m with OTPrecomputeRequest _ d _ _ => begin_session d | _ => None end.

Lemma no_begin d : frame_tag d <> str "KOB2" -> begin_session d = None.
Proof.
  intros H. unfold begin_session. destruct (UnmarshalPrecomputeBegin d) eqn:E; [|done..].
  by apply UnmarshalPrecomputeBegin_tag in E.
Qed.

Lemma choices_no_begin s m d : MarshalPrecomputeBaseChoices s m = Ok d -> begin_session d = None.
Proof. intros H. apply no_begin. apply nested_frame_tag in H; [|done]. rewrite H. vm_compute. congruence. Qed.

Lemma challenge_no_begin c d : MarshalExtensionChallenge (Some c) = Ok d -> begin_session d = None.
Proof. intros H. apply no_begin. apply challenge_frame_tag in H. rewrite H. vm_compute. congruence. Qed.

(** A frame that opens nothing needs to be genuine only. *)
Lemma req_ok_other L d i : genuine_req L d -> begin_session d = None -> req_ok L d i.
Proof. intros Hg Hn. split; [done|]. intros b e Hb. unfold begin_session in Hn. by rewrite Hb in Hn. Qed.

Lemma response_enter_ok L k ctl count data k' r : kinv L k -> genuine_resp L data ->
  response_enter k ctl count data = (k', r) ->
  ksafe L k k' /\ forall th, r = Ok th -> kthread_ok L k' th /\ ktok th = None.
Proof.
  intros Hk Hg. unfold response_enter. destruct (tk_ot k) as [s|] eqn:Es; [|intros [= <- <-]; by split; [apply ksafe_refl|]].
  destruct (negb _); [intros [= <- <-]; by split; [apply ksafe_refl|]|].
  destruct (os_pending s) as [q|] eqn:Eq; [|intros [= <- <-]; by split; [apply ksafe_refl|]].
  destruct (negb _); [intros [= <- <-]; by split; [apply ksafe_refl|]|].
  destruct (negb _); [intros [= <- <-]; split; [by apply ksafe_fail|done]|].
  pose proof (kinv_pending L k s q Hk Es Eq) as (Hid & e & He & Hb & Hi & Hr & Hso & Hph).
  assert (Hmove : forall ph, kpending_ok L (tk_alloc k) (os_ready s) (os_epoch s) (set_phase ph q) ->
    ksafe L k (set_ot (set_pending (Some (set_phase ph q)) s) k) /\
    link (set_ot (set_pending (Some (set_phase ph q)) s) k) (sn_id q) (sn_session q)).
  { intros ph Hok. split; [by apply (kinv_move L L k s q); try done; apply grows_refl|].
    by apply (link_pending _ (set_pending (Some (set_phase ph q)) s) (set_phase ph q)). }
  destruct (sn_phase q) eqn:Ep; intros [= <- <-]; try (by split; [apply ksafe_refl|]).
  - destruct (Hmove senderPrecomputeAwaitCommitment) as [H1 H2].
    { split; [done|]. exists e. cbn. destruct Hph as (-> & ? & ?). by split_and!. }
    split; [done|]. intros th [= <-]. by split; [split|].
  - destruct (Hmove senderPrecomputeProcessingCommitment) as [H1 H2].
    { split; [done|]. exists e. cbn. destruct Hph. by split_and!. }
    split; [done|]. intros th [= <-]. split; [|done]. split; [done|]. split; [done|]. exists e. cbn. split_and!; try done.
    intros br Hbr. destruct Hph as [Hbk _]. unfold base_known in Hbk. by rewrite Hbr in Hbk.
  - destruct (Hmove senderPrecomputeProcessingProof) as [H1 H2].
    { split; [done|]. exists e. cbn. by split_and!. }
    split; [done|]. intros th [= <-]. split; [|done]. split; [done|]. split; [done|]. exists e. cbn. split_and!; try done.
    destruct Hph as (es & ch & E1 & E2). intros es' E. exists ch. congruence.
Qed.

(** What a step of a goroutine guarantees: the log grows by TEE_K's values only,
    and no opening frame appears that the goroutine did not carry. *)
Definition kmsg_ok L (m : otMessage) : Prop :=
  match m with OTPrecomputeRequest _ d i _ => req_ok L d i | OTResumeRequest _ n => is_u64 n | _ => True end.

Definition kprogress L k (th : kthread) (o : outcome) : Prop :=
  exists L', log_ok hw L' /\ grows same_t L L' /\ (forall s, is_Some (L' !! s) -> is_Some (L !! s)) /\
    kinv L' (fst (fst o)) /\ pend_mono k (fst (fst o)) /\
    (forall t, snd (fst o) = Some t -> kthread_ok L' (fst (fst o)) t) /\
    (forall x, snd o = Some x -> kmsg_ok L' x) /\
    (option_list (snd (fst o) ≫= ktok) ++ option_list (snd o ≫= mtok)) ⊆+ option_list (ktok th).

Lemma same_t_reflexive : Reflexive same_t.
Proof. by intros e. Qed.

Lemma kprogress_stop L k th k' : log_ok hw L -> ksafe L k k' -> kprogress L k th (stop k').
Proof.
  intros HL [H1 H2]. exists L. cbn. split_and!; try done; [by apply grows_refl, same_t_reflexive|].
  apply submseteq_nil_l.
Qed.


(** The facts behind a guard that let the section go on. *)
Ltac facts := norm_guards; repeat match goal with H : bool_decide _ = true |- _ => apply bool_decide_eq_true in H end.

Lemma run_base_setup_ok L k p ctl session data coins : log_ok hw L -> kinv L k -> good_coins coins ->
  kthread_ok L k (KBaseSetup p ctl session data) ->
  kprogress L k (KBaseSetup p ctl session data) (run_base_setup k p ctl session data coins).
Proof.
  intros HL Hk Hr [Hg Hlink]. unfold run_base_setup.
  destruct (_ ≫= _) as [[base frame]|m|] eqn:E; [|by apply kprogress_stop, ksafe_fail|by apply kprogress_stop, ksafe_refl].
  destruct (tk_ot k) as [s|] eqn:Es; [|by apply kprogress_stop, ksafe_refl].
  destruct (os_pending s) as [q|] eqn:Eq; [|by apply kprogress_stop, ksafe_refl].
  destruct (_ || _) eqn:G; [by apply kprogress_stop, ksafe_refl|]. facts.
  apply bind_Ok in E as (setup & E1 & E). apply bind_Ok in E as ([b choices] & E2 & E).
  apply bind_Ok in E as (frame' & E3 & E). apply Ok_pair in E as [<- <-].
  destruct (resp_setup hw L data session setup HL Hg E1) as (e & bs & He & Hset).
  pose proof (proj2 Hlink s q Es Eq ltac:(done)) as Hse.
  destruct (kinv_pending L k s q Hk Es Eq) as (Hid & e' & He' & Hb & Hi & Hrd & Hso & Hph).
  rewrite Hse, He in He'. injection He' as <-.
  assert (Hq : sn_phase q = senderPrecomputeAwaitCommitment /\ sn_base q = None) by done. destruct Hq as [Hq Hq0].
  rewrite Hq in Hph. destruct Hph as [Hbk Hch]. rewrite Hq0 in Hbk. cbn in Hbk.
  destruct (log_choices hw L session e b choices HL He Hbk) as [HL' Hgr]; [by exists coins, bs, setup|].
  set (L' := <[session := with_choices (b, choices) e]> L) in *. assert (Hle : log_le L L') by (by eapply grows_le).
  assert (He' : L' !! session = Some (with_choices (b, choices) e)) by apply lookup_insert_eq.
  destruct (kinv_move L L' k s q (set_base b q)) as [Hk' Hm]; try done.
  { split; [done|]. exists (with_choices (b, choices) e). cbn. rewrite Hse, He', Hq. split_and!; try done; [by rewrite Hb, Hse|by exists choices]. }
  exists L'. cbn [fst snd]. split_and!; try done.
  - intros x. unfold L'. destruct (decide (session = x)) as [<-|Hne]; [by rewrite He|by rewrite lookup_insert_ne].
  - intros t [= <-]. apply req_ok_other; [|by eapply choices_no_begin]. by eapply (gen_choices _ session).
  - cbn. by rewrite (choices_no_begin session choices frame').
Qed.

Lemma run_commitment_ok L k p ctl base expected data coins : log_ok hw L -> kinv L k -> good_coins coins ->
  kthread_ok L k (KCommitment p ctl base expected data) ->
  kprogress L k (KCommitment p ctl base expected data) (run_commitment hw k p ctl base expected data coins).
Proof.
  intros HL Hk Hr (Hg & Hlink & e & He & Hb & Hbase). unfold run_commitment.
  destruct (_ ≫= _) as [[ext frame]|m|] eqn:E; [|by apply kprogress_stop, ksafe_fail|by apply kprogress_stop, ksafe_refl].
  destruct (tk_ot k) as [s|] eqn:Es; [|by apply kprogress_stop, ksafe_refl].
  destruct (os_pending s) as [q|] eqn:Eq; [|by apply kprogress_stop, ksafe_refl].
  destruct (_ || _) eqn:G; [by apply kprogress_stop, ksafe_refl|]. facts.
  apply bind_Ok in E as ([cm com] & E1 & E). apply bind_Ok in E as ([sel delta] & E2 & E).
  apply bind_Ok in E as ([ext' ch] & E3 & E). apply bind_Ok in E as (frame' & E4 & E). apply Ok_pair in E as [<- <-].
  destruct (resp_commit hw L data expected cm com HL Hg E1) as (e0 & er & rots & He0 & Hcom).
  rewrite He in He0. injection He0 as <-.
  destruct base as [br|]; [|done]. destruct (Hbase br eq_refl) as (m2 & Hch2).
  pose proof (proj2 Hlink s q Es Eq ltac:(done)) as Hse.
  destruct (kinv_pending L k s q Hk Es Eq) as (Hid & e' & He' & Hb' & Hi & Hrd & Hso & Hph).
  rewrite Hse, He in He'. injection He' as <-.
  assert (Hq : sn_phase q = senderPrecomputeProcessingCommitment) by done. rewrite Hq in Hph. destruct Hph as [Hbk Hch].
  destruct (log_challenge hw L (bSessionID expected) e ext' ch HL He Hch) as [HL' Hgr].
  { exists coins, br, m2, er, com, rots, cm, sel, delta. rewrite Hb. by split_and!. }
  set (L' := <[bSessionID expected := with_challenge (ext', ch) e]> L) in *.
  assert (Hle : log_le L L') by (by eapply grows_le).
  assert (He' : L' !! bSessionID expected = Some (with_challenge (ext', ch) e)) by apply lookup_insert_eq.
  destruct (kinv_move L L' k s q (set_phase senderPrecomputeAwaitProof (set_ext ext' q))) as [Hk' Hm]; try done.
  { split; [done|]. exists (with_challenge (ext', ch) e). cbn. rewrite Hse, He'. split_and!; try done; [by rewrite Hb', Hse|].
    by exists ext', ch. }
  exists L'. cbn [fst snd]. split_and!; try done.
  - intros x. unfold L'. destruct (decide (bSessionID expected = x)) as [<-|Hne]; [by rewrite He|by rewrite lookup_insert_ne].
  - intros t [= <-]. apply req_ok_other; [|by eapply challenge_no_begin]. by eapply (gen_challenge _ (bSessionID expected)).
  - cbn. by rewrite (challenge_no_begin ch frame').
Qed.

(** The pool's slices fit the machine's integers, also with one more batch. *)
Definition kfits (k : TEEK) : Prop :=
  forall s, tk_ot k = Some s -> Z.of_nat (slen (sp_entries (os_pool s))) + MaxPrecomputeOTs < 2 ^ 63.

Lemma complete_validate_ok L k th pend entries : log_ok hw L -> kinv L k ->
  kthread_ok L k (KCommit pend entries) -> kprogress L k th (complete_validate k pend entries).
Proof.
  intros HL Hk Hth. unfold complete_validate.
  destruct (checkedIndexEnd _ _); [|by apply kprogress_stop, ksafe_refl..]. cbv zeta.
  destruct (negb (isCurrentControlConnection k (sn_control pend)) || _); [by apply kprogress_stop, ksafe_failClear|].
  destruct (match tk_ot k with Some s => _ | None => Panic end) as [u|m|].
  - exists L. cbn. split_and!; try done; [by apply grows_refl, same_t_reflexive|apply pend_mono_refl|by intros t [= <-]|].
    apply submseteq_nil_l.
  - destruct (sn_initial pend); [by apply kprogress_stop, ksafe_failClear|].
    destruct (failPendingPrecompute k (sn_id pend) m) as [k1 failed] eqn:Ef.
    pose proof (ksafe_fail L k (sn_id pend) m Hk) as Hf. rewrite Ef in Hf. cbn [fst] in Hf.
    destruct failed; [|by apply kprogress_stop]. apply kprogress_stop; [done|].
    eapply ksafe_trans; [exact Hf|]. apply ksafe_recover.
  - by apply kprogress_stop, ksafe_refl.
Qed.

Lemma run_proof_ok L k pend data : log_ok hw L -> kinv L k -> kthread_ok L k (KProof pend data) ->
  kprogress L k (KProof pend data) (run_proof k pend data).
Proof.
  intros HL Hk (Hg & Hlink & e & He & Hi & Hx). unfold run_proof.
  destruct (_ ≫= _) as [entries|m|] eqn:E; [|by apply kprogress_stop, ksafe_fail|by apply kprogress_stop, ksafe_refl].
  apply complete_validate_ok; try done. apply bind_Ok in E as (pf & E1 & E2).
  destruct (resp_proof hw L data (sn_session pend) pf HL Hg E1) as (e' & He' & Hp). rewrite He in He'. injection He' as <-.
  destruct (sn_ext pend) as [es|]; [|done]. destruct (Hx es eq_refl) as (ch & Hch).
  split; [done|]. exists e. split_and!; try done. by exists es, ch, pf.
Qed.

(** The batch joins the pool. *)
Lemma complete_commit_ok L k pend entries : log_ok hw L -> kinv L k -> kfits k ->
  kthread_ok L k (KCommit pend entries) -> kprogress L k (KCommit pend entries) (complete_commit k pend entries).
Proof.
  intros HL Hk Hfit (Hlink & e & He & Hi & Hj). unfold complete_commit.
  destruct (tk_ot k) as [s|] eqn:Es; [|by apply kprogress_stop, ksafe_failClear]. cbv zeta.
  destruct (_ || _) eqn:G; [by apply kprogress_stop, ksafe_failClear|]. facts.
  unfold pending_is in *. destruct (os_pending s) as [q|] eqn:Eq; [|done]. facts.
  pose proof (proj2 Hlink s q Es Eq ltac:(done)) as Hse. destruct (Hk s Es) as [Hp _].
  destruct (kinv_pending L k s q Hk Es Eq) as (Hid & e' & He' & Hb & Hi' & Hrd & Hso & _).
  rewrite Hse, He in He'. injection He' as <-. pose proof Hj as (es & ch & pf & J1 & J2 & J3).
  destruct (finished_correlated hw L _ e es ch pf entries (HL _ _ He) J1 J2 J3) as (_ & _ & _ & _ & _ & _ & Hlen & _).
  pose proof (proj2 (eo_wf _ _ _ _ (HL _ _ He))) as Hmax. specialize (Hfit s Es).
  destruct (SenderPool_Add (os_pool s) entries) as [pool r] eqn:Ea.
  destruct r as [u|m|]; [|destruct (if sn_initial pend then _ else _) as [pool' owned] eqn:Ec|by apply kprogress_stop, ksafe_refl].
  2: { assert (pool = os_pool s) as ->.
       { destruct Hp as (qq & Hq & _). apply (SenderPool_Add_repr _ qq) in Ea as [(? & _)|[_ ?]]; [done|done|done|lia]. }
       destruct owned; cbn [negb].
       - apply kprogress_stop; [done|]. keep s; [|by left]. by eapply kpool_give_up.
       - apply kprogress_stop; [done|]. apply ksafe_same; [done|by kproj..]. }
  destruct (log_sots hw L _ e entries HL He Hso Hj) as [HL' Hgr]. set (L' := <[sn_session pend := with_sots entries e]> L) in *.
  assert (Hle : log_le L L') by (by eapply grows_le).
  assert (Hnew : kpool_ok L' pool true (ExtensionEpoch (sn_session pend))).
  { destruct u. apply (kpool_add hw L' (os_pool s) (os_ready s) (os_epoch s) _ (with_sots entries e) entries); cbn; try done.
    - by eapply kpool_le.
    - apply lookup_insert_eq.
    - by rewrite Hb.
    - by rewrite <- Hrd.
    - lia. }
  exists L'. cbn [fst snd]. split_and!; try done.
  - intros x. unfold L'. destruct (decide (sn_session pend = x)) as [<-|Hne]; [by rewrite He|by rewrite lookup_insert_ne].
  - intros s' Hs'. revert Hs'. kproj. intros [= <-]. destruct (sn_initial pend); cbn; (split; [|by intros ? ?]); [done|].
    rewrite Hi' in Hi. replace (os_ready s) with true by (destruct (os_ready s); cbn in Hrd; congruence). by apply kpool_release.
  - split; [by kproj|]. intros s' q'. kproj. intros [= <-]. by destruct (sn_initial pend).
Qed.

Lemma thread_run_ok L k th coins written : log_ok hw L -> kinv L k -> kfits k -> good_coins coins ->
  kthread_ok L k th -> kprogress L k th (thread_run hw k th coins written).
Proof.
  intros HL Hk Hfit Hr Hth.
  assert (Hsend : forall c d i ep, kthread_ok L k th -> ktok th = begin_session d -> req_ok L d i ->
    kprogress L k th (k, None, Some (OTPrecomputeRequest c d i ep))).
  { intros c d i ep _ Ht Hreq. exists L. cbn. split_and!; try done; [by apply grows_refl, same_t_reflexive|apply pend_mono_refl| |].
    - by intros x [= <-].
    - by rewrite Ht. }
  destruct th; cbn [thread_run].
  - destruct (negb _); [by apply kprogress_stop, ksafe_fail|]. destruct (negb _); [by apply kprogress_stop, ksafe_fail|]. by apply Hsend.
  - by apply run_base_setup_ok.
  - destruct (negb _); [by apply kprogress_stop, ksafe_fail|]. destruct (negb _); [by apply kprogress_stop, ksafe_fail|]. by apply Hsend.
  - by apply run_commitment_ok.
  - destruct (negb _); [by apply kprogress_stop, ksafe_fail|]. by apply Hsend.
  - by apply run_proof_ok.
  - destruct (_ || _); [by apply kprogress_stop, ksafe_failClear|]. exists L. cbn.
    split_and!; try done; [by apply grows_refl, same_t_reflexive|apply pend_mono_refl|by intros t [= <-]|by intros x [= <-]].
  - by apply complete_commit_ok.
Qed.


(** ** Opening a batch *)

Lemma ksafe_fresh L k k' s' : tk_ot k' = Some s' -> os_pending s' = None -> (tk_alloc k <= tk_alloc k')%nat ->
  kpool_ok L (os_pool s') (os_ready s') (os_epoch s') -> ksafe L k k'.
Proof.
  intros Hs Hn Ha Hp. split.
  - intros s2 E. rewrite Hs in E. injection E as <-. split; [done|]. intros q. by rewrite Hn.
  - split; [done|]. intros s2 q E Eq. rewrite Hs in E. injection E as <-. congruence.
Qed.

Lemma kpool_start L pool ready epoch : kpool_ok L pool ready epoch -> is_u64 (SenderPool_TotalCount pool).
Proof.
  intros (q & Hq & _). destruct (sender_Available pool q Hq) as (_ & -> & _). pose proof Hq as (_ & Hb & Hn & _ & _ & _ & He & _).
  unfold is_u64, MaxUint64, q_end in *. lia.
Qed.

(** The frame names a well-formed batch. *)
Lemma begin_wf b d : length (bSessionID b) = 32%nat -> is_bytes (bSessionID b) -> is_bytes (bEpoch b) ->
  is_u64 (bStartIndex b) -> 0 < bCount b <= MaxPrecomputeOTs -> MarshalPrecomputeBegin b = Ok d -> batch_wf b.
Proof.
  intros L32 Bs Be Hst Hc E. split; [|lia]. unfold MarshalPrecomputeBegin in E.
  apply bind_Ok in E as (p & _ & E). apply bind_Ok in E as (en & Hen & E). apply bind_Ok in E as ([] & Hep & _).
  apply checkedIndexEnd_Ok in Hen as (_ & -> & Hend); [|done|unfold is_int, MaxPrecomputeOTs, OTPoolInitialSize in *; lia].
  cbn [wire_wf begin_codec]. unfold MaxPrecomputeOTs, OTPoolInitialSize, maxExtensionOTs, is_u64, MaxUint64 in *. split_and!; try done; lia.
Qed.

(** The state of an opened batch. *)
Lemma opened L k s pend chain d : log_ok hw L -> L !! sn_session pend = None ->
  kpool_ok L (os_pool s) (os_ready s) (os_epoch s) -> sn_id pend = tk_alloc k ->
  let b := mkBegin (sn_session pend) (sn_start pend) (u32 (sn_count pend)) (os_epoch s) in
  batch_wf b -> MarshalPrecomputeBegin b = Ok d -> chain_ok L (open_entry b (sn_initial pend) chain) ->
  sn_initial pend = negb (os_ready s) -> sn_phase pend = senderPrecomputeAwaitBaseSetup -> sn_base pend = None ->
  let k' := set_alloc (S (tk_alloc k)) (set_ot (set_pending (Some pend) s) k) in
  exists L', log_ok hw L' /\ grows same_t L L' /\ grows same_k L L' /\
    (forall x, is_Some (L' !! x) -> x = sn_session pend \/ is_Some (L !! x)) /\
    kinv L' k' /\ (forall k0, tk_alloc k0 = tk_alloc k -> pend_mono k0 k') /\ req_ok L' d (sn_initial pend) /\ begin_session d = Some (sn_session pend) /\
    exists e, L' !! sn_session pend = Some e /\ e_setup e = None.
Proof.
  intros HL Hn Hp Hid b Hw Hm Hc Hrd Hph Hb k'.
  destruct (log_open hw L b (sn_initial pend) chain HL Hn Hw Hc) as [HL' Hg].
  set (e := open_entry b (sn_initial pend) chain) in *. set (L' := <[bSessionID b := e]> L) in *.
  assert (He : L' !! sn_session pend = Some e) by apply lookup_insert_eq.
  assert (Hle : log_le L L') by (by apply Hg).
  destruct (decode_encode b (proj1 Hw)) as (d' & Hm' & _ & Hu). cbn [encode decode begin_codec] in Hm', Hu.
  rewrite Hm in Hm'. apply (inj Ok) in Hm' as <-.
  exists L'. split; [done|]. split; [by apply Hg|]. split; [by apply Hg|]. split_and!.
  - intros x. unfold L'. destruct (decide (sn_session pend = x)) as [<-|Hne]; [by left|]. rewrite lookup_insert_ne by done. by right.
  - intros s' [= <-]. cbn. split; [by eapply kpool_le|]. intros q [= <-]. split; [lia|]. exists e. rewrite Hph. by split_and!.
  - intros k0 Ek0. split; [cbn; lia|]. cbn. intros s' q [= <-] [= <-]. left. lia.
  - split; [by apply (gen_begin _ (sn_session pend) e)|]. intros b' e' Hb' He'. rewrite Hu in Hb'. apply (inj Ok) in Hb' as <-.
    change (L' !! sn_session pend = Some e') in He'. rewrite He in He'. by injection He' as <-.
  - unfold begin_session. by rewrite Hu.
  - by exists e.
Qed.

Lemma perform_setup_ok L k pf count isInitial claim session epoch k' r :
  log_ok hw L -> kinv L k -> L !! session = None -> length session = 32%nat -> is_bytes session -> is_bytes epoch ->
  0 < count <= MaxPrecomputeOTs -> perform_setup k pf count isInitial claim session epoch = (k', r) ->
  exists L', log_ok hw L' /\ grows same_t L L' /\ grows same_k L L' /\
    (forall x, is_Some (L' !! x) -> x = session \/ is_Some (L !! x)) /\ kinv L' k' /\ pend_mono k k' /\
    forall th, r = Ok th -> kthread_ok L' k' th /\ ktok th = Some session /\
      exists e, L' !! session = Some e /\ e_setup e = None.
Proof.
  intros HL Hk Hn L32 Bs Be Hcount E.
  assert (Hno : ksafe L k k' -> (exists m, r = Err m) \/ r = Panic -> exists L', log_ok hw L' /\ grows same_t L L' /\ grows same_k L L' /\
    (forall x, is_Some (L' !! x) -> x = session \/ is_Some (L !! x)) /\ kinv L' k' /\ pend_mono k k' /\
    forall th, r = Ok th -> kthread_ok L' k' th /\ ktok th = Some session /\ exists e, L' !! session = Some e /\ e_setup e = None).
  { intros [H1 H2] Hr. exists L. split_and!; try done; [apply grows_refl; by intros x..|intros x ?; by right|].
    intros th ->. by destruct Hr as [[? ?]|?]. }
  unfold perform_setup in E. cbv zeta in E.
  destruct (negb (isCurrentControlConnection k (pf_origin pf))); [injection E as <- <-; apply Hno; [by apply ksafe_refl|left; by eexists]|].
  destruct (match tk_ot k with Some s => _ | None => _ end) as [s|m|] eqn:Est;
    [|injection E as <- <-; apply Hno; [by apply ksafe_refl|first [by left; eexists|by right]]..].
  assert (Hp : kpool_ok L (os_pool s) (os_ready s) (os_epoch s)).
  { destruct (tk_ot k) as [s0|] eqn:Es.
    - destruct (pf_fresh pf); [done|]. injection Est as <-. by apply Hk.
    - destruct isInitial; [|done]. injection Est as <-. apply kpool_new. }
  destruct (negb (bool_decide (os_pending s = None))) eqn:Ep.
  { injection E as <- <-. apply Hno; [|left; by eexists]. destruct (tk_ot k) as [s0|] eqn:Es.
    - destruct (pf_fresh pf); [done|]. injection Est as <-. by apply ksafe_same.
    - destruct isInitial; [|done]. injection Est as <-. done. }
  facts. destruct isInitial.
  - set (s2 := set_ready false _) in *. set (k2 := publishOTReadyLocked s2 (set_ot s k)) in *.
    assert (Hp2 : kpool_ok L (os_pool s2) (os_ready s2) (os_epoch s2)) by (by eapply kpool_Clear).
    destruct (_ ≫= _) as [d|m|] eqn:Ed; injection E as <- <-;
      [|apply Hno; [|first [by left; eexists|by right]]; by apply (ksafe_fresh L k k2 s2)..].
    apply bind_Ok in Ed as ([] & _ & Ed). inv_guard Ed. facts. apply bind_Ok in Ed as (en & Hen & Ed).
    set (pend := mkSenderPrecompute _ session count 0 true None None _ _ _).
    destruct (opened L k2 s2 pend [] d) as (L' & H1 & H2 & H3 & H4 & H5 & H6 & H7 & H8 & H9); try done.
    { unfold pend. cbn [sn_session sn_start sn_count]. unfold MaxPrecomputeOTs, OTPoolInitialSize in *. unfold u32. rewrite Z.mod_small by lia.
      eapply begin_wf; cbn; try done.
      unfold u32 in Ed. rewrite Z.mod_small in Ed by lia. by rewrite <- Hguard in Ed. }
    { cbn. by rewrite Hguard. }
    exists L'. split_and!; try done; [by apply H6|]. intros th [= <-]. done.
  - destruct (_ ≫= _) as [d|m|] eqn:Ed; injection E as <- <-;
      [|apply Hno; [|first [by left; eexists|by right]]; by apply (ksafe_fresh L k (set_ot s k) s)..].
    apply bind_Ok in Ed as ([] & Hck & Ed). inv_guard Ed. facts. apply bind_Ok in Ed as (en & Hen & Ed).
    destruct (os_ready s) eqn:Erd; [|done]. cbn [negb] in Hck.
    pose proof Hp as (qq & _ & p & ep & Hepo & Hep & Hcm & _).
    set (pend := mkSenderPrecompute _ session count _ false None None _ _ _).
    destruct (opened L (set_ot s k) s pend (e_chain ep ++ [p]) d) as (L' & H1 & H2 & H3 & H4 & H5 & H6 & H7 & H8 & H9); try done.
    { by rewrite Erd. }
    { unfold pend. cbn [sn_session sn_start sn_count]. unfold MaxPrecomputeOTs, OTPoolInitialSize in *. unfold u32. rewrite Z.mod_small by lia.
      eapply begin_wf; cbn; try done.
      - rewrite Hepo. apply ExtensionEpoch_bytes. by eapply entry_session, HL.
      - by eapply kpool_start.
      - unfold u32 in Ed. rewrite Z.mod_small in Ed by lia. by rewrite Hguard. }
    { cbn. by rewrite Hguard. }
    { split; [done|]. cbn. by exists p, ep. }
    { by rewrite Erd. }
    exists L'. split_and!; try done; [by apply H6|]. intros th [= <-]. done.
Qed.

End Steps.
