(* ===== verification/ReceiverInv.v ===== *)
(** * What TEE_T's precomputation state means

    The counterpart of [SenderInv]: TEE_T's pool holds OTs of the history of its
    epoch, its pending batch is as far as its phase says, and every critical
    section keeps that. *)

From S2P Require Import Prelude Bytes Label Slices Transpose Gf128 Crypto Circuit Oprf SenderPool ReceiverPool OtExtension.
From S2P Require Import BaseOt Wire ExtensionWire Precompute PrecomputeSender PrecomputeReceiver PrecomputeLog SenderInv.

Section Receiver.
Context {BC : BlockCipher} {SH : Sha256} {CO : COLib} {CL : COLaws} (hw : bool).
Notation log := (gmap (list Z) entry).
Implicit Types L : log.

(** ** The pool *)

Definition tpool_ok L (pool : ReceiverPool) (ready : bool) (epoch : bytes) : Prop :=
  receiver_ok pool /\
  if ready then
    exists p e, epoch = ExtensionEpoch p /\ L !! p = Some e /\ Forall (offered L) (e_chain e ++ [p]) /\
      rp_total pool = Z.of_nat (length (receiver_history L (e_chain e ++ [p]))) /\
      forall k t, rp_free pool k = Some t -> receiver_history L (e_chain e ++ [p]) !! Z.to_nat k = Some t
  else rp_total pool = 0.

Lemma offered_le L L' s : log_le L L' -> offered L s -> offered L' s.
Proof. intros H (e & v & Hs & Hv). destruct (H s e Hs) as (e' & Hs' & Hle & _). exists e', v. split; [done|by apply Hle]. Qed.

Lemma tpool_le L L' pool ready epoch : log_le L L' -> tpool_ok L pool ready epoch -> tpool_ok L' pool ready epoch.
Proof.
  intros H (Hok & Hr). split; [done|]. destruct ready; [|done].
  destruct Hr as (p & e & He & Hp & Hc & Ht & Hf). destruct (H p e Hp) as (e' & Hp' & Hle & _). exists p, e'.
  rewrite (el_chain _ _ Hle), (receiver_history_le L L') by done. split_and!; try done.
  eapply Forall_impl; [exact Hc|]. intros s. by apply offered_le.
Qed.

(** A pool that only loses OTs. *)
Lemma tpool_shrink L pool pool' ready epoch : tpool_ok L pool ready epoch -> receiver_ok pool' ->
  rp_total pool' = rp_total pool -> (forall k t, rp_free pool' k = Some t -> rp_free pool k = Some t) ->
  tpool_ok L pool' ready epoch.
Proof.
  intros [_ Hr] Hok Ht Hf. split; [done|]. rewrite Ht. destruct ready; [|done].
  destruct Hr as (p & e & He & Hp & Hc & Hlen & Hh). exists p, e. split_and!; try done. intros k t Hk. by apply Hh, Hf.
Qed.

Lemma tpool_consume L pool ready epoch start n pool' r : tpool_ok L pool ready epoch -> is_u64 start -> is_int n ->
  ReceiverPool_Consume pool start n = (pool', r) -> tpool_ok L pool' ready epoch.
Proof.
  intros H Hs Hn E. apply ReceiverPool_Consume_spec in E as [(_ & Hok & (Hf & Ht & _) & _)|(_ & _ & ->)]; [| |apply H|done..].
  2: done. eapply tpool_shrink; [done..|]. intros k t. rewrite Hf. by destruct (in_range start n k).
Qed.

Lemma tpool_advance L pool ready epoch next pool' r : tpool_ok L pool ready epoch -> is_u64 next ->
  ReceiverPool_AdvanceTo pool next = (pool', r) -> tpool_ok L pool' ready epoch.
Proof.
  intros H Hn E. apply ReceiverPool_AdvanceTo_spec in E as [(_ & _ & Hok & Hf & Ht & _)|(_ & _ & ->)]; [| |apply H|done].
  2: done. eapply tpool_shrink; [done..|]. intros k t. rewrite Hf. by destruct (k <? next).
Qed.

Lemma tpool_clear L pool ready epoch epoch' : tpool_ok L pool ready epoch -> tpool_ok L (ReceiverPool_Clear pool) false epoch'.
Proof. intros [H _]. split; [by apply ReceiverPool_Clear_ok|done]. Qed.

Lemma tpool_new L a epoch : tpool_ok L (rs_pool (NewOTReceiverState a)) false epoch.
Proof. split; [apply NewReceiverPool_ok|done]. Qed.

Lemma tpool_add L pool ready epoch s e er com l m3 pool' :
  log_ok hw L -> tpool_ok L pool ready epoch -> L !! s = Some e -> e_commit e = Some (er, com, l, m3) ->
  bEpoch (e_begin e) = epoch -> e_initial e = negb ready ->
  Z.of_nat (slen (rp_entries pool) + length l) < 2 ^ 63 ->
  ReceiverPool_Add pool l = (pool', Ok ()) -> tpool_ok L pool' true (ExtensionEpoch s).
Proof.
  intros HL [Hok Hr] Hs Hl Hep Hin Hfit E.
  apply ReceiverPool_Add_spec in E as [(_ & Hok' & (Hf & Ht & _) & _)|[[m ?] _]]; [|done..]. split; [done|].
  destruct (eo_chain _ _ _ _ (HL _ _ Hs)) as [Hc Hx]. rewrite Hin in Hx.
  assert (Hist : rp_total pool = Z.of_nat (length (receiver_history L (e_chain e))) /\
    forall k t, rp_free pool k = Some t -> receiver_history L (e_chain e) !! Z.to_nat k = Some t).
  { destruct ready; cbn [negb] in Hin, Hx.
    - destruct Hr as (p & ep & He & Hp & _ & Hend & Hi).
      by rewrite (chain_at hw L s e p ep HL Hs Hin ltac:(congruence) Hp).
    - rewrite Hx, Hr. split; [done|]. intros k t Hk. destruct (rp_free_Some pool k t Hok Hk) as (? & ? & _).
      pose proof Hok as (_ & _ & ? & _). unfold rp_total in *. lia. }
  destruct Hist as [Hend Hi]. exists s, e. rewrite receiver_history_snoc, length_app. unfold rots_of. rewrite Hs, Hl.
  split_and!; [done..| | |].
  - apply Forall_app. split; [|apply Forall_singleton; by eexists e, _].
    eapply Forall_impl; [exact Hc|]. intros x Hx'. by apply (committed_offered hw).
  - lia.
  - intros k t. rewrite Hf. destruct (Z.ltb_spec k (rp_total pool)) as [Hlt|Hge]; intros Hk.
    + apply lookup_app_l_Some. by apply Hi.
    + rewrite lookup_app_r by lia. rewrite <- Hk. f_equal. lia.
Qed.

(** ** The pending batch and the handlers *)

Definition tpending_ok L (alloc : nat) (ready : bool) (epoch : bytes) (p : receiverPrecompute) : Prop :=
  (rc_id p < alloc)%nat /\
  exists e, L !! bSessionID (rc_begin p) = Some e /\ e_begin e = rc_begin p /\ e_initial e = rc_initial p /\
    rc_initial p = negb ready /\ bEpoch (rc_begin p) = epoch /\
    match rc_phase p with
    | receiverPrecomputeAwaitBaseChoices | receiverPrecomputeProcessingChoices =>
        (exists bs m1, rc_base p = Some bs /\ e_setup e = Some (bs, m1)) /\ rc_entries p = [] /\
        e_commit e = None /\ e_proof e = None
    | receiverPrecomputeAwaitChallenge | receiverPrecomputeProcessingChallenge =>
        (exists er com m3, rc_ext p = Some er /\ e_commit e = Some (er, com, rc_entries p, m3)) /\ e_proof e = None
    | receiverPrecomputeAwaitComplete => exists er com m3, e_commit e = Some (er, com, rc_entries p, m3)
    end.

Definition tinv L (t : TEET) : Prop :=
  forall s, tt_ot t = Some s ->
    tpool_ok L (rs_pool s) (rs_ready s) (rs_epoch s) /\
    forall p, rs_pending s = Some p -> tpending_ok L (tt_alloc t) (rs_ready s) (rs_epoch s) p.

(** The address [pid] stands for the batch [b], if it is still pending. *)
Definition tlink (t : TEET) (pid : nat) (b : PrecomputeBegin) : Prop :=
  (pid < tt_alloc t)%nat /\
  forall s p, tt_ot t = Some s -> rs_pending s = Some p -> rc_id p = pid -> rc_begin p = b.

Definition tthread_ok L (t : TEET) (th : tthread) : Prop :=
  match th with
  | TBegin rid ctl b isInitial _ =>
      (exists e, L !! bSessionID b = Some e /\ e_begin e = b /\ e_initial e = isInitial) /\
      (lease_ok t ctl = true -> forall s, tt_ot t = Some s -> rs_id s = rid ->
         rs_epoch s = bEpoch b /\ rs_ready s = negb isInitial)
  | TChoices _ pid _ base b epoch _ data =>
      genuine_req L data /\ tlink t pid b /\ epoch = bEpoch b /\
      exists e, L !! bSessionID b = Some e /\ e_begin e = b /\
        forall bs, base = Some bs -> exists m1, e_setup e = Some (bs, m1)
  | TChallenge _ pid _ ext b _ data =>
      genuine_req L data /\ tlink t pid b /\
      exists e, L !! bSessionID b = Some e /\ e_begin e = b /\
        forall er, ext = Some er -> exists com l m3, e_commit e = Some (er, com, l, m3)
  | TSend _ _ _ _ frame => genuine_resp L frame
  end.

Definition tpend_mono (t t' : TEET) : Prop :=
  (tt_alloc t <= tt_alloc t')%nat /\
  forall s' p', tt_ot t' = Some s' -> rs_pending s' = Some p' ->
    (tt_alloc t <= rc_id p')%nat \/
    exists s p, tt_ot t = Some s /\ rs_pending s = Some p /\ rc_id p = rc_id p' /\ rc_begin p = rc_begin p'.

(** For a handler of the connection [c] nothing changed, or its lease is over. *)
Definition tstable (t t' : TEET) (c : nat) : Prop :=
  tt_conn t' <> Some c \/
  (tt_conn t' = tt_conn t /\ tt_generation t' = tt_generation t /\
   forall s', tt_ot t' = Some s' ->
     exists s, tt_ot t = Some s /\ rs_id s = rs_id s' /\ rs_epoch s = rs_epoch s' /\ rs_ready s = rs_ready s').

Lemma tlink_mono t t' pid b : tpend_mono t t' -> tlink t pid b -> tlink t' pid b.
Proof.
  intros [Ha Hp] [Hl Hq]. split; [lia|]. intros s' p' Hs Hpe Hid.
  destruct (Hp s' p' Hs Hpe) as [?|(s0 & p0 & Hs0 & Hp0 & Hid0 & Hb0)]; [lia|].
  rewrite <- Hb0. eapply Hq; eauto. congruence.
Qed.

Lemma tthread_mono L L' t t' th : log_le L L' -> tpend_mono t t' -> tstable t t' (t_conn (thread_connection th)) ->
  tthread_ok L t th -> tthread_ok L' t' th.
Proof.
  intros H Hm Hst. destruct th; cbn in *.
  - intros [(e & Hs & Hb & Hi) Hl]. destruct (H _ _ Hs) as (e' & Hs' & Hle & _). split.
    + exists e'. by rewrite (el_begin _ _ Hle), (el_initial _ _ Hle).
    + intros Hle' s Hs2 Hid. unfold lease_ok in Hle'. apply andb_true_iff in Hle' as [Hc Hg].
      apply bool_decide_eq_true in Hc. destruct Hst as [?|(Ec & Eg & Hk)]; [congruence|].
      destruct (Hk s Hs2) as (s0 & Hs0 & E1 & E2 & E3). rewrite <- E2, <- E3. apply Hl; [|done|congruence].
      unfold lease_ok. rewrite <- Ec, <- Eg, Hc, Hg, bool_decide_eq_true_2; done.
  - intros (Hg & Hl & -> & e & Hs & Hb & Hx). destruct (H _ _ Hs) as (e' & Hs' & Hle & _).
    split; [by eapply genuine_req_le|]. split; [by eapply tlink_mono|]. split; [done|]. exists e'.
    rewrite (el_begin _ _ Hle). split_and!; try done. intros bs Hbs. destruct (Hx bs Hbs) as (m1 & E). exists m1. by apply Hle.
  - intros (Hg & Hl & e & Hs & Hb & Hx). destruct (H _ _ Hs) as (e' & Hs' & Hle & _).
    split; [by eapply genuine_req_le|]. split; [by eapply tlink_mono|]. exists e'.
    rewrite (el_begin _ _ Hle). split_and!; try done. intros er Her. destruct (Hx er Her) as (com & l & m3 & E).
    exists com, l, m3. by apply Hle.
  - by apply genuine_resp_le.
Qed.

(** TEE_K's progress does not disturb TEE_T. *)
Lemma tinv_k L L' t : grows same_t L L' -> tinv L t -> tinv L' t.
Proof.
  intros H Ht s Hs. destruct (Ht s Hs) as [Hp Hq]. split; [eapply tpool_le; [by eapply grows_le|done]|].
  intros p Ep. destruct (Hq p Ep) as (Hid & e & He & Hb & Hi & Hr & Hep & Hph). split; [done|].
  destruct (H _ _ He) as (e' & He' & Hle & H1 & H2 & H3). exists e'. rewrite (el_begin _ _ Hle), (el_initial _ _ Hle).
  split_and!; try done. destruct (rc_phase p); rewrite ?H1, ?H2, ?H3; done.
Qed.

(** ** Critical sections that open no batch and add no OTs *)

Definition tsafe L (c : option nat) (t t' : TEET) : Prop :=
  tinv L t' /\ tpend_mono t t' /\ forall x, c <> Some x -> tstable t t' x.

Lemma tpend_mono_refl t : tpend_mono t t.
Proof. split; [done|]. intros s p Hs Hp. right. by exists s, p. Qed.

Lemma tstable_refl t x : tstable t t x.
Proof. right. split_and!; try done. intros s Hs. by exists s. Qed.

Lemma tsafe_refl L c t : tinv L t -> tsafe L c t t.
Proof. intros H. split_and!; [done|apply tpend_mono_refl|intros; apply tstable_refl]. Qed.

Lemma tsafe_weaken L c t t' : tsafe L None t t' -> tsafe L c t t'.
Proof. intros (H1 & H2 & H3). split_and!; try done. intros x _. by apply H3. Qed.

Lemma tsafe_trans L c t1 t2 t3 : tsafe L c t1 t2 -> tsafe L None t2 t3 -> tsafe L c t1 t3.
Proof.
  intros (I1 & [A1 P1] & S1) (I2 & [A2 P2] & S2). split_and!; [done| |].
  - split; [lia|]. intros s p Hs Hp. destruct (P2 s p Hs Hp) as [?|(s2 & p2 & Hs2 & Hp2 & E1 & E2)]; [left; lia|].
    destruct (P1 s2 p2 Hs2 Hp2) as [?|(s1 & p1 & Hs1 & Hp1 & F1 & F2)]; [left; lia|].
    right. exists s1, p1. split_and!; congruence.
  - intros x Hx. destruct (S2 x ltac:(done)) as [?|(C2 & G2 & K2)]; [by left|].
    destruct (S1 x Hx) as [?|(C1 & G1 & K1)]; [left; congruence|]. right. split_and!; [congruence..|].
    intros s3 Hs3. destruct (K2 s3 Hs3) as (s2 & Hs2 & ? & ? & ?). destruct (K1 s2 Hs2) as (s1 & Hs1 & ? & ? & ?).
    exists s1. split_and!; congruence.
Qed.

(** A section that leaves the epoch and the connection alone. *)
Lemma tsafe_keep L t t' s s' : tinv L t -> tt_ot t = Some s -> tt_ot t' = Some s' -> tt_alloc t' = tt_alloc t ->
  tt_conn t' = tt_conn t -> tt_generation t' = tt_generation t ->
  rs_id s' = rs_id s -> rs_epoch s' = rs_epoch s -> rs_ready s' = rs_ready s ->
  tpool_ok L (rs_pool s') (rs_ready s') (rs_epoch s') ->
  rs_pending s' = None \/ rs_pending s' = rs_pending s -> tsafe L None t t'.
Proof.
  intros Ht Hs Hs' Ha Hc Hg Hid He Hr Hp Hq. destruct (Ht s Hs) as [_ Hpe]. split_and!.
  - intros s2 E. rewrite Hs' in E. injection E as <-. split; [done|]. intros p Ep.
    destruct Hq as [?|E]; [congruence|]. rewrite Ha, Hr, He. apply Hpe. congruence.
  - split; [lia|]. intros s2 p2 E Ep. rewrite Hs' in E. injection E as <-. destruct Hq as [?|E]; [congruence|].
    right. exists s, p2. split_and!; congruence.
  - intros x _. right. split_and!; try done. intros s2 E. rewrite Hs' in E. injection E as <-. by exists s.
Qed.

(** A section that ends the lease of every handler: afterwards no connection that
    was in use is current. *)
Lemma tsafe_end L t t' : tinv L t' -> tpend_mono t t' ->
  (forall x, tt_conn t' = Some x -> False) -> tsafe L None t t'.
Proof. intros H1 H2 H3. split_and!; try done. intros x _. left. intros E. by eapply H3. Qed.

Lemma finish_ot p o t : tt_ot (finishReceiverPrecompute p o t) = tt_ot t.
Proof. unfold finishReceiverPrecompute. destruct p; [case_match|]; done. Qed.
Lemma finish_alloc p o t : tt_alloc (finishReceiverPrecompute p o t) = tt_alloc t.
Proof. unfold finishReceiverPrecompute. destruct p; [case_match|]; done. Qed.
Lemma finish_conn p o t : tt_conn (finishReceiverPrecompute p o t) = tt_conn t.
Proof. unfold finishReceiverPrecompute. destruct p; [case_match|]; done. Qed.
Lemma finish_generation p o t : tt_generation (finishReceiverPrecompute p o t) = tt_generation t.
Proof. unfold finishReceiverPrecompute. destruct p; [case_match|]; done. Qed.

End Receiver.

#[export] Hint Rewrite @finish_ot @finish_alloc @finish_conn @finish_generation : tstate.

#[global] Arguments finishReceiverPrecompute : simpl never.

Ltac tproj := cbn; autorewrite with tstate; cbn; autorewrite with tstate; cbn.

Section Steps.
Context {BC : BlockCipher} {SH : Sha256} {CO : COLib} {CL : COLaws} (hw : bool).
Notation log := (gmap (list Z) entry).
Implicit Types L : log.

Ltac keep s := eapply (tsafe_keep _ _ _ s); [done|done|tproj; reflexivity|by tproj..|cbn|cbn].

(** The lease names the current connection. *)
Lemma lease_conn t ctl : lease_ok t ctl = true -> tt_conn t = Some (t_conn ctl).
Proof. unfold lease_ok. intros [H _]%andb_true_iff. by apply bool_decide_eq_true in H. Qed.

(** Under the lease, handlers of other connections have lost theirs. *)
Lemma tsafe_lease L t t' ctl : lease_ok t ctl = true -> tt_conn t' = tt_conn t -> tinv L t' -> tpend_mono t t' ->
  tsafe L (Some (t_conn ctl)) t t'.
Proof. intros Hl Hc H1 H2. split_and!; try done. intros x Hx. left. rewrite Hc, (lease_conn t ctl Hl). congruence. Qed.

Lemma tsafe_clearPending L t rid pid : tinv L t -> tsafe L None t (clearPendingReceiverPrecompute t rid pid).
Proof.
  intros Ht. unfold clearPendingReceiverPrecompute. destruct (tt_ot t) as [s|] eqn:Es; [|by apply tsafe_refl].
  destruct (receiver_pending_is s rid pid); [|by apply tsafe_refl]. keep s; [by apply Ht|by left].
Qed.

(** Clearing and suspending end the pending batch; they run when a connection
    ends. *)
Lemma clear_inv L t : tinv L t -> tinv L (clearOTReceiverPool t) /\ tpend_mono t (clearOTReceiverPool t) /\
  tt_conn (clearOTReceiverPool t) = tt_conn t /\ tt_generation (clearOTReceiverPool t) = tt_generation t.
Proof.
  intros Ht. unfold clearOTReceiverPool. destruct (tt_ot t) as [s|] eqn:Es.
  - split_and!; [| |by tproj..].
    + intros s' E. injection E as <-. cbn. split; [eapply tpool_clear; by apply Ht|done].
    + split; [by tproj|]. intros s' p E. by injection E as <-.
  - split; [|split; [|done]].
    + intros s'. cbn. congruence.
    + split; [done|]. intros s' p. cbn. congruence.
Qed.

Lemma suspend_inv L t : tinv L t -> tinv L (suspendOTReceiverPoolForReconnect t) /\
  tpend_mono t (suspendOTReceiverPoolForReconnect t) /\
  tt_conn (suspendOTReceiverPoolForReconnect t) = tt_conn t /\
  tt_generation (suspendOTReceiverPoolForReconnect t) = tt_generation t.
Proof.
  intros Ht. unfold suspendOTReceiverPoolForReconnect. destruct (tt_ot t) as [s|] eqn:Es; [|by apply clear_inv].
  set (t1 := t_set_ot _ _).
  assert (H1 : tinv L t1 /\ tpend_mono t t1 /\ tt_conn t1 = tt_conn t /\ tt_generation t1 = tt_generation t).
  { split_and!; [| |by unfold t1; tproj..].
    - intros s' E. injection E as <-. cbn. split; [by apply Ht|done].
    - split; [by unfold t1; tproj|]. intros s' p E. by injection E as <-. }
  destruct H1 as (H1 & [A1 P1] & C1 & G1). destruct (rs_ready s); [done|].
  destruct (clear_inv L t1 H1) as (H2 & [A2 P2] & C2 & G2). split_and!; [done| |congruence..].
  split; [lia|]. intros s' p' E Ep. destruct (P2 s' p' E Ep) as [?|(s2 & p2 & E2 & Ep2 & _)]; [left; lia|].
  by injection E2 as <-.
Qed.

Lemma tsafe_activate L t c : tinv L t -> tsafe L (Some c) t (activateControlConnection t c).
Proof.
  intros Ht. unfold activateControlConnection. set (t1 := match tt_conn t with Some c' => _ | None => t end).
  assert (H1 : tinv L t1 /\ tpend_mono t t1).
  { unfold t1. destruct (tt_conn t); [|split; [done|apply tpend_mono_refl]].
    case_bool_decide; [split; [done|apply tpend_mono_refl]|]. destruct (suspend_inv L t Ht) as (? & ? & _). done. }
  destruct H1 as [H1 [A1 P1]]. split_and!.
  - exact H1.
  - split; [done|]. exact P1.
  - intros x Hx. left. cbn. congruence.
Qed.

Lemma tsafe_attest L t ctl : tinv L t -> tsafe L None t (fst (completeControlAttestation t ctl)).
Proof.
  intros Ht. unfold completeControlAttestation. destruct (negb _); [by apply tsafe_refl|]. cbn [fst].
  split_and!; [exact Ht|exact (tpend_mono_refl t)|]. intros x _. exact (tstable_refl t x).
Qed.

Lemma tsafe_tearDown L t ctl : tinv L t -> tsafe L None t (tearDownControlConnection t ctl).
Proof.
  intros Ht. unfold tearDownControlConnection. destruct (negb _); [by apply tsafe_refl|].
  destruct (suspend_inv L (t_set_control false None (tt_generation t) false t) Ht) as (H1 & H2 & H3 & _).
  apply tsafe_end; [done|exact H2|]. intros x. rewrite H3. done.
Qed.

Lemma tsafe_consume_enter L t ok start n : tinv L t -> is_u64 start -> is_int n ->
  tsafe L None t (fst (consume_enter t ok start n)).
Proof.
  intros Ht Hs Hn. unfold consume_enter. destruct (negb ok); [by apply tsafe_refl|].
  destruct (tt_ot t) as [s|] eqn:Es; [|by apply tsafe_refl].
  destruct (pendingReceiverCompletionForRange s start n) as [[p|]| |]; try by apply tsafe_refl.
  destruct (negb _); [by apply tsafe_refl|]. destruct (ReceiverPool_Consume (rs_pool s) start n) as [pool r] eqn:Ec. cbn [fst].
  keep s; [|by right]. eapply tpool_consume; [|done..]. by apply Ht.
Qed.

Lemma tsafe_consume_finish L t ok rid pid start n : tinv L t -> is_u64 start -> is_int n ->
  tsafe L None t (fst (consume_finish t ok rid pid start n)).
Proof.
  intros Ht Hs Hn. unfold consume_finish. destruct (negb ok); [by apply tsafe_refl|].
  destruct (tt_ot t) as [s|] eqn:Es; [|by apply tsafe_refl]. destruct (negb _); [by apply tsafe_refl|].
  destruct (negb _); [by apply tsafe_refl|]. destruct (ReceiverPool_Consume (rs_pool s) start n) as [pool r] eqn:Ec. cbn [fst].
  keep s; [|by right]. eapply tpool_consume; [|done..]. by apply Ht.
Qed.

Lemma tsafe_resume L t ctl epoch n : tinv L t -> is_u64 n -> tsafe L None t (fst (handleOTResumeRequest t ctl epoch n)).
Proof.
  intros Ht Hn. unfold handleOTResumeRequest, resumeOTPool. destruct (negb (lease_ok t ctl)); [by apply tsafe_refl|].
  destruct (negb _); [by apply tsafe_refl|]. destruct (tt_ot t) as [s|] eqn:Es; [|by apply tsafe_refl].
  destruct (_ || _); [by apply tsafe_refl|]. destruct (ReceiverPool_AdvanceTo (rs_pool s) n) as [pool r] eqn:Ea.
  assert (Hp : tpool_ok L pool (rs_ready s) (rs_epoch s)) by (eapply tpool_advance; [|done..]; by apply Ht).
  destruct (is_ok r); cbn [fst]; (keep s; [done|by right]).
Qed.

(** ** Critical sections that advance the pending batch *)

Definition ttok (th : tthread) : option bytes :=
  match th with TBegin _ _ b _ _ => Some (bSessionID b) | _ => None end.

Lemma tinv_pending L t s p : tinv L t -> tt_ot t = Some s -> rs_pending s = Some p ->
  tpending_ok L (tt_alloc t) (rs_ready s) (rs_epoch s) p.
Proof. intros Ht Hs Hp. by apply (Ht s Hs). Qed.

Lemma tinv_move L L' t s p p' : tinv L t -> log_le L L' -> tt_ot t = Some s -> rs_pending s = Some p ->
  rc_id p' = rc_id p -> rc_begin p' = rc_begin p ->
  tpending_ok L' (tt_alloc t) (rs_ready s) (rs_epoch s) p' ->
  tinv L' (t_set_ot (r_set_pending (Some p') s) t) /\ tpend_mono t (t_set_ot (r_set_pending (Some p') s) t).
Proof.
  intros Ht HL Hs Hq Hid Hb Hp. split.
  - intros s' [= <-]. cbn. split; [eapply tpool_le; [done|]; by apply Ht|]. by intros ? [= <-].
  - split; [done|]. cbn. intros s' p2 [= <-] [= <-]. right. by exists s, p.
Qed.

Lemma tlink_pending t s p : (rc_id p < tt_alloc t)%nat -> tt_ot t = Some s -> rs_pending s = Some p ->
  tlink t (rc_id p) (rc_begin p).
Proof. intros Ha Hs Hq. split; [done|]. intros st q' E1 E2 _. congruence. Qed.

(** The facts behind a guard that let the section go on. *)
Ltac facts := norm_guards; repeat match goal with H : bool_decide _ = true |- _ => apply bool_decide_eq_true in H end.

(** What entering a request leaves: the handler knows its batch, and carries an
    opening frame only if the message did. *)
Definition entered L t ctl d (t' : TEET) (r : res tthread) : Prop :=
  tsafe L (Some (t_conn ctl)) t t' /\
  forall th, r = Ok th -> tthread_ok L t' th /\ thread_connection th = ctl /\
    (ttok th = None \/ ttok th = begin_session d).

Lemma entered_stop L t ctl d t' r : tsafe L (Some (t_conn ctl)) t t' -> (forall th, r <> Ok th) -> entered L t ctl d t' r.
Proof. intros H1 H2. split; [done|]. intros th E. by apply H2 in E. Qed.

Lemma choices_enter_ok L t ctl count d i epoch t' r : tinv L t -> genuine_req L d ->
  choices_enter t ctl count d i epoch = (t', r) -> entered L t ctl d t' r.
Proof.
  intros Ht Hg. unfold choices_enter. destruct (lease_ok t ctl) eqn:Hle; cbn [negb];
    [|intros [= <- <-]; apply entered_stop; [by apply tsafe_refl|done]].
  destruct (tt_ot t) as [s|] eqn:Es; [|intros [= <- <-]; apply entered_stop; [by apply tsafe_refl|done]].
  destruct (rs_pending s) as [p|] eqn:Ep; [|intros [= <- <-]; apply entered_stop; [by apply tsafe_refl|done]].
  destruct (negb (rc_generation p =? t_gen ctl)); [intros [= <- <-]; apply entered_stop; [by apply tsafe_refl|done]|].
  destruct (_ || _); [intros [= <- <-]; apply entered_stop; [by apply tsafe_refl|done]|].
  destruct (negb (bool_decide _)) eqn:G; [intros [= <- <-]; apply entered_stop; [by apply tsafe_refl|done]|].
  facts. intros [= <- <-].
  destruct (tinv_pending L t s p Ht Es Ep) as (Hid & e & He & Hb & Hi & Hr & Hep & Hph). rewrite G in Hph.
  destruct (tinv_move L L t s p (rc_set_phase receiverPrecomputeProcessingChoices p)) as [Hm1 Hm2]; try done;
    [by apply grows_refl|split; [done|]; by exists e|].
  split; [by apply tsafe_lease|]. intros th [= <-]. split; [|split; [done|by left]].
  split; [done|]. split; [by apply (tlink_pending _ (r_set_pending (Some (rc_set_phase receiverPrecomputeProcessingChoices p)) s)
    (rc_set_phase receiverPrecomputeProcessingChoices p))|]. split; [done|].
  exists e. split_and!; try done. destruct Hph as [(bs & m1 & E1 & E2) _]. intros bs' E. exists m1. congruence.
Qed.

Lemma challenge_enter_ok L t ctl count d i epoch t' r : tinv L t -> genuine_req L d ->
  challenge_enter t ctl count d i epoch = (t', r) -> entered L t ctl d t' r.
Proof.
  intros Ht Hg. unfold challenge_enter. destruct (lease_ok t ctl) eqn:Hle; cbn [negb];
    [|intros [= <- <-]; apply entered_stop; [by apply tsafe_refl|done]].
  destruct (tt_ot t) as [s|] eqn:Es; [|intros [= <- <-]; apply entered_stop; [by apply tsafe_refl|done]].
  destruct (rs_pending s) as [p|] eqn:Ep; [|intros [= <- <-]; apply entered_stop; [by apply tsafe_refl|done]].
  destruct (negb (rc_generation p =? t_gen ctl) || _ || _ || _); [intros [= <- <-]; apply entered_stop; [by apply tsafe_refl|done]|].
  destruct (_ || _) eqn:G; [intros [= <- <-]; apply entered_stop; [by apply tsafe_refl|done]|].
  facts. intros [= <- <-].
  destruct (tinv_pending L t s p Ht Es Ep) as (Hid & e & He & Hb & Hi & Hr & Hep & Hph).
  assert (Hq : rc_phase p = receiverPrecomputeAwaitChallenge) by done. rewrite Hq in Hph.
  destruct (tinv_move L L t s p (rc_set_phase receiverPrecomputeProcessingChallenge p)) as [Hm1 Hm2]; try done;
    [by apply grows_refl|split; [done|]; by exists e|].
  split; [by apply tsafe_lease|]. intros th [= <-]. split; [|split; [done|by left]].
  split; [done|]. split; [by apply (tlink_pending _ (r_set_pending (Some (rc_set_phase receiverPrecomputeProcessingChallenge p)) s)
    (rc_set_phase receiverPrecomputeProcessingChallenge p))|].
  exists e. split_and!; try done. destruct Hph as [(er & com & m3 & E1 & E2) _]. intros er' E. exists com, (rc_entries p), m3. congruence.
Qed.

Lemma begin_enter_ok L t ctl count d i epoch t' r : log_ok hw L -> tinv L t -> req_ok L d i ->
  begin_enter t ctl count d i epoch = (t', r) -> entered L t ctl d t' r.
Proof.
  intros HL Ht [Hg Hini]. unfold begin_enter.
  destruct (_ ≫= _) as [b|m|] eqn:E; [|intros [= <- <-]; apply entered_stop; [by apply tsafe_refl|done]..].
  apply bind_Ok in E as (b' & Eb & E). apply bind_Ok in E as ([] & _ & E). apply bind_Ok in E as (en & _ & E).
  destruct (_ || _) eqn:G1; [done|]. destruct (negb (lease_ok t ctl)) eqn:G2; [done|]. apply (inj Ok) in E as <-. facts.
  destruct (req_begin hw L d b' HL Hg Eb) as (e & He & Hb & _). pose proof (Hini b' e Eb He) as Hi.
  assert (Htok : begin_session d = Some (bSessionID b')) by (unfold begin_session; by rewrite Eb).
  destruct i.
  - set (t1 := match tt_ot t with Some s => _ | None => t end) in *.
    assert (Ht1 : tt_alloc t1 = tt_alloc t /\ tt_conn t1 = tt_conn t /\ tt_generation t1 = tt_generation t).
    { unfold t1. destruct (tt_ot t); [by tproj|done]. }
    destruct Ht1 as (A1 & C1 & Gn1). set (s2 := r_set_epoch epoch (NewOTReceiverState (tt_alloc t1))).
    set (t2 := t_set_alloc (S (tt_alloc t1)) (t_set_ot s2 t1)). change (tt_ot t2) with (Some s2). cbn [negb].
    assert (Hs2 : tsafe L (Some (t_conn ctl)) t t2).
    { apply tsafe_lease; [done|done| |].
      - intros s' [= <-]. split; [apply tpool_new|done].
      - split; [cbn; lia|]. by intros s' p [= <-]. }
    destruct (negb (bool_decide _)); [intros [= <- <-]; by apply entered_stop|].
    destruct (negb (bStartIndex b' =? _)); [intros [= <- <-]; by apply entered_stop|]. cbn [andb].
    intros [= <- <-]. split; [done|]. intros th [= <-]. split; [|split; [done|right; by rewrite Htok]].
    split; [by exists e|]. intros _ s' [= <-] _. split; [by symmetry|done].
  - destruct (tt_ot t) as [s|] eqn:Es; [|intros [= <- <-]; apply entered_stop; [by apply tsafe_refl|done]].
    destruct (rs_ready s) eqn:Er; cbn [negb]; [|intros [= <- <-]; apply entered_stop; [by apply tsafe_refl|done]].
    destruct (negb (bool_decide _)); [intros [= <- <-]; apply entered_stop; [by apply tsafe_refl|done]|].
    destruct (negb (bStartIndex b' =? _)); [intros [= <- <-]; apply entered_stop; [by apply tsafe_refl|done]|].
    cbn [andb]. destruct (negb (bytes_eqb epoch (rs_epoch s))) eqn:G3; [intros [= <- <-]; apply entered_stop; [by apply tsafe_refl|done]|].
    facts. intros [= <- <-]. split; [by apply tsafe_refl|]. intros th [= <-].
    split; [|split; [done|right; by rewrite Htok]]. split; [by exists e|]. intros _ s' Es' _. rewrite Es in Es'. injection Es' as <-.
    split; [congruence|done].
Qed.

Lemma request_enter_ok L t ctl count d i epoch t' r : log_ok hw L -> tinv L t -> req_ok L d i ->
  request_enter t ctl count d i epoch = (t', r) -> entered L t ctl d t' r.
Proof.
  intros HL Ht Hreq. unfold request_enter. destruct (PrecomputeRequestPhase d).
  - intros [= <- <-]. apply entered_stop; [by apply tsafe_refl|done].
  - by apply begin_enter_ok.
  - apply choices_enter_ok; [done|apply Hreq].
  - apply challenge_enter_ok; [done|apply Hreq].
Qed.


Definition tfits (t : TEET) : Prop :=
  forall s, tt_ot t = Some s -> Z.of_nat (slen (rp_entries (rs_pool s))) + MaxPrecomputeOTs < 2 ^ 63.

(** The batch joins the pool. *)
Lemma complete_ok L t ctl n : log_ok hw L -> tinv L t -> tfits t ->
  tsafe L (Some (t_conn ctl)) t (fst (handleOTPrecomputeComplete t ctl n)).
Proof.
  intros HL Ht Hfit. unfold handleOTPrecomputeComplete. destruct (lease_ok t ctl) eqn:Hle; cbn [negb]; [|by apply tsafe_refl].
  destruct (tt_ot t) as [s|] eqn:Es; [|by apply tsafe_refl]. destruct (rs_pending s) as [p|] eqn:Ep; [|by apply tsafe_refl].
  destruct (length (rc_entries p) =? 0)%nat; [by apply tsafe_refl|]. destruct (negb (rc_generation p =? _)); [by apply tsafe_refl|].
  destruct (negb (bool_decide _)) eqn:G; [by apply tsafe_refl|]. facts.
  destruct (checkedIndexEnd _ _); [|by apply tsafe_refl..]. destruct (negb _); [by apply tsafe_refl|].
  destruct (ReceiverPool_Add (rs_pool s) (rc_entries p)) as [pool [u|m|]] eqn:Ea; [|by apply tsafe_refl..]. cbn [fst].
  destruct (tinv_pending L t s p Ht Es Ep) as (Hid & e & He & Hb & Hi & Hr & Hep & Hph). rewrite G in Hph.
  destruct Hph as (er & com & m3 & Hcom). destruct (commit_honest hw L _ e _ _ _ _ (HL _ _ He) Hcom) as (_ & _ & _ & Hlen).
  pose proof (proj2 (eo_wf _ _ _ _ (HL _ _ He))) as Hmax. specialize (Hfit s Es). destruct u.
  assert (Hnew : tpool_ok L pool true (ExtensionEpoch (bSessionID (rc_begin p)))).
  { apply (tpool_add hw L (rs_pool s) (rs_ready s) (rs_epoch s) _ e er com (rc_entries p) m3); try done; [by apply Ht|congruence..|lia]. }
  apply tsafe_lease; [done|by tproj| |].
  - intros s' E. revert E. tproj. intros [= <-]. cbn. done.
  - split; [by tproj|]. intros s' p'. tproj. by intros [= <-].
Qed.

Definition tmsg_ok L (m : otMessage) : Prop := match m with OTPrecomputeResponse _ d => genuine_resp L d | _ => True end.

(** What a step of a handler guarantees: the log grows by TEE_T's values, and a
    base setup is added only for the batch whose opening frame it carries. *)
Definition tprogress L t (th : tthread) (o : receiver_outcome) : Prop :=
  exists L', log_ok hw L' /\ grows same_k L L' /\ (forall s, is_Some (L' !! s) -> is_Some (L !! s)) /\
    tsafe L' (Some (t_conn (thread_connection th))) t (fst (fst o)) /\
    (forall t2, snd (fst o) = Some t2 -> tthread_ok L' (fst (fst o)) t2 /\
       thread_connection t2 = thread_connection th /\ ttok t2 = None) /\
    (forall m, snd o = Some m -> tmsg_ok L' m) /\
    (forall s e e', ttok th <> Some s -> L !! s = Some e -> L' !! s = Some e' -> e_setup e' = e_setup e).

Lemma tprogress_stop L t th t' : log_ok hw L -> tsafe L (Some (t_conn (thread_connection th))) t t' ->
  tprogress L t th (t_stop t').
Proof.
  intros HL Hs. exists L. cbn. split_and!; try done; [apply grows_refl; by intros x|].
  intros s e e' _ E1 E2. congruence.
Qed.

Lemma tprogress_clear L t th rid pid : log_ok hw L -> tinv L t ->
  tprogress L t th (t_stop (clearPendingReceiverPrecompute t rid pid)).
Proof. intros HL Ht. apply tprogress_stop; [done|]. by apply tsafe_weaken, tsafe_clearPending. Qed.

Lemma insert_old L s e e' : L !! s = Some e -> forall x, is_Some ((<[s := e']> L) !! x) -> is_Some (L !! x).
Proof. intros He x. destruct (decide (s = x)) as [<-|Hne]; [by rewrite He|by rewrite lookup_insert_ne]. Qed.

(** A value other than the base setup. *)
Lemma setup_same L s e e' : L !! s = Some e -> e_setup e' = e_setup e ->
  forall x a b, L !! x = Some a -> (<[s := e']> L) !! x = Some b -> e_setup b = e_setup a.
Proof.
  intros He E x a b Ha. destruct (decide (s = x)) as [<-|Hne]; [rewrite lookup_insert_eq|rewrite lookup_insert_ne by done];
    [intros [= <-]; congruence|congruence].
Qed.

Lemma run_begin_ok L t rid ctl b i count coins : log_ok hw L -> tinv L t -> good_coins coins ->
  tthread_ok L t (TBegin rid ctl b i count) -> (forall e, L !! bSessionID b = Some e -> e_setup e = None) ->
  tprogress L t (TBegin rid ctl b i count) (run_begin t rid ctl b i count coins).
Proof.
  intros HL Ht Hr [(e & He & Hb & Hi) Hl] Hnone. unfold run_begin.
  destruct (fst (StartBaseOTSender (Some coins) (bSessionID b))) as [[bs m1]| |] eqn:E1;
    [|by apply tprogress_stop, tsafe_refl..].
  destruct (lease_ok t ctl) eqn:Hle; cbn [negb]; [|by apply tprogress_stop, tsafe_refl].
  destruct (tt_ot t) as [s|] eqn:Es; [|by apply tprogress_stop, tsafe_refl].
  destruct (_ || _) eqn:G; [by apply tprogress_stop, tsafe_refl|]. facts.
  destruct (Hl eq_refl s eq_refl ltac:(done)) as [Hep Hrd].
  destruct (log_setup hw L (bSessionID b) e bs m1 HL He (Hnone e He)) as [HL' Hgr]; [by exists coins|].
  set (e' := with_setup (bs, m1) e) in *. set (L' := <[bSessionID b := e']> L) in *.
  assert (Hlog : log_le L L') by (by eapply grows_le).
  assert (He' : L' !! bSessionID b = Some e') by apply lookup_insert_eq.
  assert (Hnc : e_commit e = None /\ e_proof e = None).
  { pose proof (HL _ _ He) as Hok. assert (Hc : e_commit e = None).
    { destruct (e_commit e) as [[[[a c] l] m]|] eqn:Ec; [|done].
      destruct (eo_commit _ _ _ _ Hok _ _ _ _ Ec) as (? & ? & ? & ? & ? & ? & _ & Es' & _). by rewrite (Hnone e He) in Es'. }
    split; [done|]. destruct (e_proof e) eqn:Epf; [|done].
    destruct (eo_proof _ _ _ _ Hok _ Epf) as (? & ? & ? & ? & ? & ? & Ec & _). congruence. }
  set (pend := mkReceiverPrecompute _ b i _ _ _ _ _). set (t2 := t_set_alloc _ _).
  assert (Hs2 : tsafe L' (Some (t_conn ctl)) t t2).
  { apply tsafe_lease; [done|done| |].
    - intros s' [= <-]. cbn. split; [eapply tpool_le; [done|]; by apply Ht|]. intros p [= <-]. split; [cbn; lia|].
      exists e'. cbn. rewrite Hrd, negb_involutive. destruct Hnc. split_and!; try done. by exists bs, m1.
    - split; [cbn; lia|]. intros s' p [= <-] [= <-]. left. cbn. lia. }
  assert (Hset : forall x a c, Some (bSessionID b) <> Some x -> L !! x = Some a -> L' !! x = Some c -> e_setup c = e_setup a).
  { intros x a c Hx Ha. unfold L'. rewrite lookup_insert_ne by congruence. congruence. }
  destruct (MarshalPrecomputeBaseSetup (bSessionID b) m1) as [frame| |] eqn:Em.
  - exists L'. cbn [fst snd]. split_and!; try done; [by eapply insert_old|].
    intros t3 [= <-]. split; [|done]. by apply (gen_setup _ (bSessionID b) e' bs m1).
  - exists L'. unfold t_stop. cbn [fst snd]. split_and!; try done; [by eapply insert_old|].
    eapply tsafe_trans; [exact Hs2|]. by apply tsafe_clearPending, Hs2.
  - exists L'. unfold t_stop. cbn [fst snd]. split_and!; try done; [by eapply insert_old|].
    eapply tsafe_trans; [exact Hs2|]. by apply tsafe_clearPending, Hs2.
Qed.

Lemma run_choices_ok L t rid pid ctl base b epoch count data coins : log_ok hw L -> tinv L t -> good_coins coins ->
  tthread_ok L t (TChoices rid pid ctl base b epoch count data) ->
  tprogress L t (TChoices rid pid ctl base b epoch count data) (run_choices t rid pid ctl base b epoch count data coins).
Proof.
  intros HL Ht Hr (Hg & Hlink & -> & e & He & Hb & Hbase). unfold run_choices.
  destruct (_ ≫= _) as [[[ext entries] frame]|m|] eqn:E; [|by apply tprogress_clear|by apply tprogress_stop, tsafe_refl].
  destruct (lease_ok t ctl) eqn:Hle; cbn [negb]; [|by apply tprogress_stop, tsafe_refl].
  destruct (tt_ot t) as [s|] eqn:Es; [|by apply tprogress_stop, tsafe_refl].
  destruct (rs_pending s) as [p|] eqn:Ep; [|by apply tprogress_stop, tsafe_refl].
  destruct (_ || _) eqn:G; [by apply tprogress_stop, tsafe_refl|]. facts.
  apply bind_Ok in E as (m2 & E1 & E). apply bind_Ok in E as ([m3 seeds] & E2 & E).
  apply bind_Ok in E as ([[ext' com] entries'] & E3 & E). apply bind_Ok in E as (frame' & E4 & E).
  apply (inj Ok) in E. injection E as <- <- <-.
  destruct (req_choices hw L data _ m2 HL Hg E1) as (e0 & br & He0 & Hch). rewrite He in He0. injection He0 as <-.
  destruct base as [bs|]; [|done]. destruct (Hbase bs eq_refl) as (m1 & Hset).
  unfold receiver_pending_is in *. rewrite Ep in *. facts. pose proof (proj2 Hlink s p Es Ep ltac:(done)) as Hbp.
  destruct (tinv_pending L t s p Ht Es Ep) as (Hid & e' & He' & Hb' & Hi & Hrd & Hep & Hph).
  rewrite Hbp, He in He'. injection He' as <-.
  assert (Hq : rc_phase p = receiverPrecomputeProcessingChoices) by done. rewrite Hq in Hph. destruct Hph as (_ & _ & Hno & Hnp).
  destruct (log_commit hw L (bSessionID b) e ext' com entries' m3 HL He Hno) as [HL' Hgr].
  { exists coins, bs, m1, br, m2, seeds. rewrite Hb. by split_and!. }
  set (e' := with_commit (ext', com, entries', m3) e) in *. set (L' := <[bSessionID b := e']> L) in *.
  assert (Hlog : log_le L L') by (by eapply grows_le).
  assert (He' : L' !! bSessionID b = Some e') by apply lookup_insert_eq.
  destruct (tinv_move L L' t s p (rc_set_phase receiverPrecomputeAwaitChallenge (rc_set_ext ext' entries' p))) as [Hm1 Hm2]; try done.
  { split; [done|]. exists e'. cbn. rewrite Hbp, Hb. split_and!; try congruence. by exists ext', com, m3. }
  exists L'. cbn [fst snd]. split_and!; try done.
  - by eapply insert_old.
  - by apply tsafe_lease.
  - intros t2 [= <-]. split; [|done]. by apply (gen_commit _ (bSessionID b) e' ext' com entries' m3).
  - intros x a c _ Ha Hc. by apply (setup_same L (bSessionID b) e e' He eq_refl x a c).
Qed.

Lemma run_challenge_ok L t rid pid ctl ext b count data : log_ok hw L -> tinv L t ->
  tthread_ok L t (TChallenge rid pid ctl ext b count data) ->
  tprogress L t (TChallenge rid pid ctl ext b count data) (run_challenge hw t rid pid ctl ext b count data).
Proof.
  intros HL Ht (Hg & Hlink & e & He & Hb & Hext). unfold run_challenge.
  destruct (_ ≫= _) as [frame|m|] eqn:E; [|by apply tprogress_clear|by apply tprogress_stop, tsafe_refl].
  destruct (lease_ok t ctl) eqn:Hle; cbn [negb]; [|by apply tprogress_stop, tsafe_refl].
  destruct (tt_ot t) as [s|] eqn:Es; [|by apply tprogress_stop, tsafe_refl].
  destruct (rs_pending s) as [p|] eqn:Ep; [|by apply tprogress_stop, tsafe_refl].
  destruct (_ || _) eqn:G; [by apply tprogress_stop, tsafe_refl|]. facts.
  apply bind_Ok in E as (ch & E1 & E). apply bind_Ok in E as (pf & E2 & E3).
  destruct (req_challenge hw L data _ _ ch HL Hg E1) as (e0 & es & He0 & Hch). rewrite He in He0. injection He0 as <-.
  destruct ext as [er|]; [|done]. destruct (Hext er eq_refl) as (com & l & m3 & Hcom).
  unfold receiver_pending_is in *. rewrite Ep in *. facts. pose proof (proj2 Hlink s p Es Ep ltac:(done)) as Hbp.
  destruct (tinv_pending L t s p Ht Es Ep) as (Hid & e' & He' & Hb' & Hi & Hrd & Hep & Hph).
  rewrite Hbp, He in He'. injection He' as <-.
  assert (Hq : rc_phase p = receiverPrecomputeProcessingChallenge) by done. rewrite Hq in Hph. destruct Hph as ((er' & com' & m3' & Hx1 & Hx2) & Hnp).
  destruct (log_proof hw L (bSessionID b) e pf HL He Hnp) as [HL' Hgr]; [by exists er, com, l, m3, es, ch|].
  set (e' := with_proof pf e) in *. set (L' := <[bSessionID b := e']> L) in *.
  assert (Hlog : log_le L L') by (by eapply grows_le).
  assert (He' : L' !! bSessionID b = Some e') by apply lookup_insert_eq.
  destruct (tinv_move L L' t s p (rc_set_phase receiverPrecomputeAwaitComplete p)) as [Hm1 Hm2]; try done.
  { split; [done|]. exists e'. cbn. rewrite Hbp, Hb. split_and!; try congruence. by exists er', com', m3'. }
  exists L'. cbn [fst snd]. split_and!; try done.
  - by eapply insert_old.
  - by apply tsafe_lease.
  - intros t2 [= <-]. split; [|done]. by apply (gen_proof _ (bSessionID b) e' pf).
  - intros x a c _ Ha Hc. by apply (setup_same L (bSessionID b) e e' He eq_refl x a c).
Qed.

Lemma receiver_thread_run_ok L t th coins written : log_ok hw L -> tinv L t -> good_coins coins -> tthread_ok L t th ->
  (forall s e, ttok th = Some s -> L !! s = Some e -> e_setup e = None) ->
  tprogress L t th (receiver_thread_run hw t th coins written).
Proof.
  intros HL Ht Hr Hth Hnone. destruct th; cbn [receiver_thread_run].
  - apply run_begin_ok; try done. intros e. by apply Hnone.
  - by apply run_choices_ok.
  - by apply run_challenge_ok.
  - destruct (negb written); [by apply tprogress_clear|]. exists L. cbn. split_and!; try done.
    + apply grows_refl. by intros x.
    + by apply tsafe_refl.
    + by intros m [= <-].
    + intros s e e' _ E1 E2. congruence.
Qed.

End Steps.
