(* ===== verification/PrecomputeRun.v ===== *)
(** * The two enclaves and the connections between them

    A [world] is both enclaves, their running goroutines and the messages under
    way.  A [step] runs one critical section of either side: opening a batch,
    taking a message, continuing a goroutine, reserving or consuming OTs, a
    disconnect, a resume.  Messages of a connection are taken at most once, in
    any order or never; a read loop handles one message at a time.  Whatever a
    goroutine read earlier (a preflight, a claim, a connection) is an argument of
    the event, so every interleaving is a run.

    The safety theorem: whenever both enclaves hold a ready pool of the same
    epoch, the pools have the same total and every OT that both still hold is a
    correlated pair.  The epoch is what the resume handshake compares. *)

From S2P Require Import Prelude Bytes Label Slices Transpose Gf128 Crypto Circuit Oprf SenderPool ReceiverPool OtExtension.
From S2P Require Import BaseOt Wire ExtensionWire Precompute PrecomputeSender PrecomputeReceiver PrecomputeLog SenderInv ReceiverInv.

Section Run.
Context {BC : BlockCipher} {SH : Sha256} {CO : COLib} {CL : COLaws} (hw : bool).
Notation log := (gmap (list Z) entry).
Implicit Types L : log.

(** [w_sessions] are the session identifiers drawn so far. *)
Record world := mkWorld {
  w_k : TEEK;
  w_t : TEET;
  w_kth : list kthread;
  w_tth : list tthread;
  w_up : list (nat * otMessage);
  w_down : list (nat * otMessage);
  w_sessions : list bytes;
}.

Definition initial_world : world := mkWorld NewTEEK NewTEET [] [] [] [] [].

Definition with_k (k : TEEK) (w : world) : world :=
  mkWorld k (w_t w) (w_kth w) (w_tth w) (w_up w) (w_down w) (w_sessions w).
Definition with_t (t : TEET) (w : world) : world :=
  mkWorld (w_k w) t (w_kth w) (w_tth w) (w_up w) (w_down w) (w_sessions w).

Inductive event :=
| KEstablish (c : nat)
| KTearDown (ctl : token)
| KPerform (pf : preflight) (count : Z) (isInitial : bool) (claim : option nat) (rng : bytes)
| KDeliver (i : nat) (gen : Z)
| KRun (i : nat) (coins : bytes) (written : bool)
| KTimeout (p : nat)
| KRecover (claim : option nat) (origin : option token)
| KReserve (session_ok : bool) (origin : token) (reservations : gmap Z senderOTReservation) (rangeIndex count : Z)
| KReconcile (reservation : senderOTReservation)
| KResume
| KResumeFinish (a : nat) (origin : token)
| KEnsure
| TActivate (c : nat)
| TAttest (ctl : token)
| TTearDown (ctl : token)
| TDeliver (i : nat) (gen : Z)
| TRun (i : nat) (coins : bytes) (written : bool)
| TConsume (session_ok : bool) (start count : Z)
| TConsumeFinish (session_ok : bool) (rid pid : nat) (start count : Z).

(** A read loop that is still in a handler takes no message. *)
Definition k_busy (w : world) (c : nat) : bool :=
  existsb (fun th => match th with KSendBegin _ _ _ _ _ _ => false
                                 | _ => (t_conn (thread_control th) =? c)%nat end) (w_kth w).
Definition t_busy (w : world) (c : nat) : bool :=
  existsb (fun th => (t_conn (thread_connection th) =? c)%nat) (w_tth w).

Definition opt_ok {A} (r : res A) : list A := match r with Ok a => [a] | _ => [] end.

Definition open_batch (w : world) (pf : preflight) (count : Z) (isInitial : bool) (claim : option nat) (rng : bytes)
    : world :=
  match newSenderPrecomputeIdentity rng (pf_start pf) count isInitial with
  | Ok (session, epoch) =>
      let '(k, r) := perform_setup (w_k w) pf count isInitial claim session epoch in
      mkWorld k (w_t w) (w_kth w ++ opt_ok r) (w_tth w) (w_up w) (w_down w) (session :: w_sessions w)
  | _ => w
  end.

Definition k_deliver (w : world) (i : nat) (gen : Z) : option world :=
  '(c, m) ← w_down w !! i;
  if k_busy w c then None else
  let rest k th := mkWorld k (w_t w) (w_kth w ++ th) (w_tth w) (w_up w) (delete i (w_down w)) (w_sessions w) in
  Some match m with
       | OTPrecomputeResponse count data =>
           let '(k, r) := response_enter (w_k w) (mkToken c gen) count data in rest k (opt_ok r)
       | OTResumeResponse accepted => rest (fst (handleOTResumeResponse (w_k w) (mkToken c gen) accepted)) []
       | _ => rest (w_k w) []
       end.

Definition k_run (w : world) (i : nat) (coins : bytes) (written : bool) : option world :=
  th ← w_kth w !! i;
  let '(k, th', m) := thread_run hw (w_k w) th coins written in
  Some (mkWorld k (w_t w) (delete i (w_kth w) ++ option_list th') (w_tth w)
          (w_up w ++ option_list ((t_conn (thread_control th),.) <$> m)) (w_down w) (w_sessions w)).

Definition k_resume (w : world) : world :=
  let '(k, r) := resume_begin (w_k w) in
  mkWorld k (w_t w) (w_kth w) (w_tth w)
    (w_up w ++ map (fun '(_, origin, m) => (t_conn origin, m)) (opt_ok r)) (w_down w) (w_sessions w).

Definition t_deliver (w : world) (i : nat) (gen : Z) : option world :=
  '(c, m) ← w_up w !! i;
  if t_busy w c then None else
  let ctl := mkToken c gen in
  let rest t th out := mkWorld (w_k w) t (w_kth w) (w_tth w ++ th) (delete i (w_up w)) (w_down w ++ out) (w_sessions w) in
  Some match m with
       | OTPrecomputeRequest count setup isInitial epoch =>
           let '(t, r) := request_enter (w_t w) ctl count setup isInitial epoch in rest t (opt_ok r) []
       | OTPrecomputeComplete poolSize => rest (fst (handleOTPrecomputeComplete (w_t w) ctl poolSize)) [] []
       | OTResumeRequest epoch nextIndex =>
           let '(t, r) := handleOTResumeRequest (w_t w) ctl epoch nextIndex in rest t [] (map (c,.) (opt_ok r))
       | _ => rest (w_t w) [] []
       end.

Definition t_run (w : world) (i : nat) (coins : bytes) (written : bool) : option world :=
  th ← w_tth w !! i;
  let '(t, th', m) := receiver_thread_run hw (w_t w) th coins written in
  Some (mkWorld (w_k w) t (w_kth w) (delete i (w_tth w) ++ option_list th') (w_up w)
          (w_down w ++ option_list ((t_conn (thread_connection th),.) <$> m)) (w_sessions w)).

(** One event; [None] when there is no such message or goroutine, or the read
    loop is busy. *)
Definition step (w : world) (ev : event) : option world :=
  match ev with
  | KEstablish c => Some (with_k (establishControl c (w_k w)) w)
  | KTearDown ctl => Some (with_k (tearDownControl (w_k w) ctl) w)
  | KPerform pf count isInitial claim rng => Some (open_batch w pf count isInitial claim rng)
  | KDeliver i gen => k_deliver w i gen
  | KRun i coins written => k_run w i coins written
  | KTimeout p => Some (with_k (fst (failPendingPrecompute (w_k w) p "OT precomputation timed out")) w)
  | KRecover claim origin => Some (with_k (fst (recoverFailedClaimedOTExtension (w_k w) claim origin)) w)
  | KReserve ok origin rs range n =>
      Some (with_k (fst (fst (fst (reserveOTEntriesForSession (w_k w) ok origin rs range n)))) w)
  | KReconcile r => Some (with_k (fst (reconcileAbandonedOTReservation (w_k w) r)) w)
  | KResume => Some (k_resume w)
  | KResumeFinish a origin => Some (with_k (fst (resume_finish (w_k w) a origin)) w)
  | KEnsure => Some (with_k (fst (ensureResumedOTPoolUsable (w_k w))) w)
  | TActivate c => Some (with_t (activateControlConnection (w_t w) c) w)
  | TAttest ctl => Some (with_t (fst (completeControlAttestation (w_t w) ctl)) w)
  | TTearDown ctl => Some (with_t (tearDownControlConnection (w_t w) ctl) w)
  | TDeliver i gen => t_deliver w i gen
  | TRun i coins written => t_run w i coins written
  | TConsume ok start n => Some (with_t (fst (consume_enter (w_t w) ok start n)) w)
  | TConsumeFinish ok rid pid start n => Some (with_t (fst (consume_finish (w_t w) ok rid pid start n)) w)
  end.

(** What the environment guarantees: randomness is bytes and a fresh session is
    new, a batch is opened after a preflight, a new connection is not one a
    handler still works on, arguments are machine integers. *)
Definition event_ok (w : world) (ev : event) : Prop :=
  match ev with
  | KPerform pf count isInitial claim rng =>
      is_bytes rng /\ (exists k0 expected, perform_preflight k0 count isInitial claim expected = Ok pf) /\
      forall s e, newSenderPrecomputeIdentity rng (pf_start pf) count isInitial = Ok (s, e) -> s ∉ w_sessions w
  | KRun _ coins _ | TRun _ coins _ => good_coins coins
  | KReserve _ _ _ _ n => is_int n
  | TActivate c => t_busy w c = false
  | TConsume _ start n | TConsumeFinish _ _ _ start n => is_u64 start /\ is_int n
  | _ => True
  end.

(** The slices of the pools fit in memory. *)
Definition fits (w : world) : Prop := kfits (w_k w) /\ tfits (w_t w).

Inductive reachable : world -> Prop :=
| reach_initial : reachable initial_world
| reach_step w ev w' : reachable w -> fits w -> event_ok w ev -> step w ev = Some w' -> reachable w'.

(** ** The invariant *)

(** The opening frames under way. *)
Definition tokens (w : world) : list bytes :=
  omap ktok (w_kth w) ++ omap (fun m => mtok (snd m)) (w_up w) ++ omap ttok (w_tth w).

Record winv L (w : world) : Prop := {
  wi_log : log_ok hw L;
  wi_sessions s : is_Some (L !! s) -> s ∈ w_sessions w;
  wi_k : kinv L (w_k w);
  wi_t : tinv L (w_t w);
  wi_kth : Forall (kthread_ok L (w_k w)) (w_kth w);
  wi_tth : Forall (tthread_ok L (w_t w)) (w_tth w);
  wi_up : Forall (fun m => kmsg_ok L (snd m)) (w_up w);
  wi_down : Forall (fun m => tmsg_ok L (snd m)) (w_down w);
  wi_tokens : NoDup (tokens w);
  wi_unset s : s ∈ tokens w -> exists e, L !! s = Some e /\ e_setup e = None;
  wi_conns : NoDup (map (fun th => t_conn (thread_connection th)) (w_tth w));
}.

Lemma initial_inv : winv ∅ initial_world.
Proof.
  split; cbn; try done; try (by constructor).
  - intros s [? E]. by rewrite lookup_empty in E.
  - intros s H. by apply not_elem_of_nil in H.
Qed.

Lemma t_busy_false w c : t_busy w c = false -> Forall (fun th => t_conn (thread_connection th) <> c) (w_tth w).
Proof.
  unfold t_busy. induction (w_tth w) as [|th l IH]; [constructor|]. cbn. intros [H1 H2]%orb_false_iff.
  apply Nat.eqb_neq in H1. constructor; [done|by apply IH].
Qed.

Lemma kmsg_le L L' m : log_ok hw L -> log_le L L' -> kmsg_ok L m -> kmsg_ok L' m.
Proof. intros HL H. destruct m; cbn; try done. by apply (req_ok_le hw). Qed.

Lemma tmsg_le L L' m : log_le L L' -> tmsg_ok L m -> tmsg_ok L' m.
Proof. intros H. destruct m; cbn; try done. by apply genuine_resp_le. Qed.

Lemma NoDup_sub {A} (l k : list A) : l ⊆+ k -> NoDup k -> NoDup l.
Proof. intros (x & ->)%submseteq_Permutation. by intros (? & _)%NoDup_app. Qed.

(** TEE_K's side moves. *)
Lemma winv_kmove L L' w k kth up down ss : winv L w ->
  log_ok hw L' -> grows same_t L L' -> (forall s, is_Some (L' !! s) -> s ∈ ss) ->
  kinv L' k -> pend_mono (w_k w) k ->
  Forall (fun th => th ∈ w_kth w \/ kthread_ok L' k th) kth ->
  Forall (fun m => m ∈ w_up w \/ kmsg_ok L' (snd m)) up -> Forall (fun m => m ∈ w_down w) down ->
  let w' := mkWorld k (w_t w) kth (w_tth w) up down ss in
  NoDup (tokens w') -> (forall s, s ∈ tokens w' -> s ∈ tokens w \/ exists e, L' !! s = Some e /\ e_setup e = None) ->
  winv L' w'.
Proof.
  intros W HL' Hg Hss Hk Hm Hth Hup Hdown w' Hnd Htok. pose proof (wi_log _ _ W) as HL.
  assert (Hle : log_le L L') by (by eapply grows_le). split; cbn; try done.
  - eapply tinv_k; [exact Hg|apply W].
  - eapply Forall_impl; [exact Hth|]. intros th [Hin|?]; [|done]. eapply (kthread_mono hw); [exact HL|exact Hle|exact Hm|].
    pose proof (wi_kth _ _ W) as F. rewrite Forall_forall in F. by apply F.
  - eapply Forall_impl; [apply (wi_tth _ _ W)|]. intros th. apply tthread_mono; [done|apply tpend_mono_refl|apply tstable_refl].
  - eapply Forall_impl; [exact Hup|]. intros m [Hin|?]; [|done]. eapply kmsg_le; [exact HL|exact Hle|].
    pose proof (wi_up _ _ W) as F. rewrite Forall_forall in F. by apply F.
  - eapply Forall_impl; [exact Hdown|]. intros m Hin. eapply tmsg_le; [exact Hle|].
    pose proof (wi_down _ _ W) as F. rewrite Forall_forall in F. by apply F.
  - intros s Hs. destruct (Htok s Hs) as [Hin|?]; [|done]. destruct (wi_unset _ _ W s Hin) as (e & He & Hn).
    destruct (Hg s e He) as (e' & He' & _ & Hse & _). exists e'. split; [done|]. congruence.
  - apply W.
Qed.

(** TEE_T's side moves. *)
Lemma winv_tmove L L' c w t tth up down : winv L w ->
  log_ok hw L' -> grows same_k L L' -> (forall s, is_Some (L' !! s) -> is_Some (L !! s)) ->
  tsafe L' c (w_t w) t ->
  Forall (fun th => (th ∈ w_tth w /\ c <> Some (t_conn (thread_connection th))) \/ tthread_ok L' t th) tth ->
  Forall (fun m => m ∈ w_up w) up -> Forall (fun m => m ∈ w_down w \/ tmsg_ok L' (snd m)) down ->
  NoDup (map (fun th => t_conn (thread_connection th)) tth) ->
  let w' := mkWorld (w_k w) t (w_kth w) tth up down (w_sessions w) in
  tokens w' ⊆+ tokens w ->
  (forall s e e', s ∈ tokens w' -> L !! s = Some e -> L' !! s = Some e' -> e_setup e' = e_setup e) ->
  winv L' w'.
Proof.
  intros W HL' Hg Hss (Ht & Hm & Hst) Hth Hup Hdown Hcn w' Htok Hset. pose proof (wi_log _ _ W) as HL.
  assert (Hle : log_le L L') by (by eapply grows_le). split; cbn; try done.
  - intros s Hs. by apply (wi_sessions _ _ W), Hss.
  - eapply kinv_t; [exact Hg|apply W].
  - eapply Forall_impl; [apply (wi_kth _ _ W)|]. intros th. apply (kthread_mono hw); [done|done|apply pend_mono_refl].
  - eapply Forall_impl; [exact Hth|]. intros th [[Hin Hc]|?]; [|done].
    eapply tthread_mono; [exact Hle|exact Hm|by apply Hst|].
    pose proof (wi_tth _ _ W) as F. rewrite Forall_forall in F. by apply F.
  - eapply Forall_impl; [exact Hup|]. intros m Hin. eapply kmsg_le; [exact HL|exact Hle|].
    pose proof (wi_up _ _ W) as F. rewrite Forall_forall in F. by apply F.
  - eapply Forall_impl; [exact Hdown|]. intros m [Hin|?]; [|done]. eapply tmsg_le; [exact Hle|].
    pose proof (wi_down _ _ W) as F. rewrite Forall_forall in F. by apply F.
  - by eapply NoDup_sub, W.
  - intros s Hs. destruct (wi_unset _ _ W s) as (e & He & Hn); [by eapply elem_of_submseteq|].
    destruct (Hg s e He) as (e' & He' & _). exists e'. split; [done|]. rewrite (Hset s e e'); done.
Qed.

Lemma in_delete {A} (l : list A) i x : x ∈ delete i l -> x ∈ l.
Proof. intros H. eapply elem_of_submseteq; [exact H|]. apply sublist_submseteq, sublist_delete. Qed.

Lemma Forall_in {A} (l : list A) : Forall (fun x => x ∈ l) l.
Proof. by apply Forall_forall. Qed.

Lemma Forall_in_delete {A} (l : list A) i : Forall (fun x => x ∈ l) (delete i l).
Proof. apply Forall_forall. intros x. apply in_delete. Qed.

Lemma omap_delete {A B} (f : A -> option B) (l : list A) i x : l !! i = Some x ->
  omap f l ≡ₚ option_list (f x) ++ omap f (delete i l).
Proof. intros H. rewrite (delete_Permutation l i x H) at 1. cbn. by destruct (f x). Qed.

(** Steps that only change TEE_K. *)
Lemma step_k L w k : winv L w -> ksafe L (w_k w) k -> winv L (with_k k w).
Proof.
  intros W [H1 H2]. apply (winv_kmove L L); try done; try (by apply W).
  - by apply grows_refl.
  - apply Forall_forall. by left.
  - apply Forall_forall. by left.
  - apply Forall_in.
  - intros s Hs. by left.
Qed.

(** Steps that only change TEE_T, outside the handlers. *)
Lemma step_t L c w t : winv L w -> tsafe L c (w_t w) t ->
  Forall (fun th => c <> Some (t_conn (thread_connection th))) (w_tth w) -> winv L (with_t t w).
Proof.
  intros W Ht Hc. apply (winv_tmove L L c); try done; try (by apply W); try apply Forall_in.
  - by apply grows_refl.
  - apply Forall_forall. intros th Hin. rewrite Forall_forall in Hc. left. split; [done|by apply Hc].
  - apply Forall_forall. by left.
  - intros s e e' _ E1 E2. congruence.
Qed.

Lemma step_t_any L w t : winv L w -> tsafe L None (w_t w) t -> winv L (with_t t w).
Proof. intros W Ht. eapply step_t; [done|exact Ht|]. by apply Forall_forall. Qed.

(** A goroutine of TEE_K goes on. *)
Lemma step_k_run L w i coins written w' : winv L w -> kfits (w_k w) -> good_coins coins ->
  k_run w i coins written = Some w' -> exists L', winv L' w'.
Proof.
  intros W Hfit Hr E. unfold k_run in E. destruct (w_kth w !! i) as [th|] eqn:Ei; [|done]. cbn in E.
  destruct (thread_run hw (w_k w) th coins written) as [[k th'] m] eqn:Er. injection E as <-.
  pose proof (wi_kth _ _ W) as Fk. rewrite Forall_forall in Fk.
  destruct (thread_run_ok hw L (w_k w) th coins written) as (L' & H1 & H2 & H3 & H4 & H5 & H6 & H7 & H8);
    [apply W|apply W|done|done|by eapply Fk, list_elem_of_lookup_2|].
  rewrite Er in *. cbn [fst snd] in *. exists L'.
  assert (Hsub : tokens (mkWorld k (w_t w) (delete i (w_kth w) ++ option_list th') (w_tth w)
      (w_up w ++ option_list ((t_conn (thread_control th),.) <$> m)) (w_down w) (w_sessions w)) ⊆+ tokens w).
  { unfold tokens. cbn [w_kth w_up w_tth]. rewrite !omap_app, (omap_delete ktok (w_kth w) i th Ei).
    rewrite <- !app_assoc. set (D := omap ktok (delete i (w_kth w))). set (U := omap _ (w_up w)). set (T := omap ttok (w_tth w)).
    replace (omap ktok (option_list th')) with (option_list (th' ≫= ktok)) by (by destruct th' as [t|]; [cbn; destruct (ktok t)|]).
    replace (omap (fun m0 => mtok (snd m0)) (option_list ((t_conn (thread_control th),.) <$> m)))
      with (option_list (m ≫= mtok)) by (by destruct m as [x|]; [cbn; destruct (mtok x)|]).
    rewrite (Permutation_app_swap_app D), (Permutation_app_swap_app U), (Permutation_app_swap_app D).
    rewrite app_assoc. by apply submseteq_skips_r. }
  apply (winv_kmove L L'); try done.
  - intros s Hs. by apply (wi_sessions _ _ W), H3.
  - apply Forall_app. split; [apply Forall_forall; intros x Hx; left; by eapply in_delete|].
    destruct th' as [t|]; cbn; [|constructor]. apply Forall_singleton. right. by apply H6.
  - apply Forall_app. split; [apply Forall_forall; by left|]. destruct m as [x|]; cbn; [|constructor].
    apply Forall_singleton. right. by apply H7.
  - apply Forall_in.
  - by eapply NoDup_sub, W.
  - intros s Hs. left. by eapply elem_of_submseteq.
Qed.

(** A message reaches TEE_K. *)
Lemma step_k_deliver L w i gen w' : winv L w -> k_deliver w i gen = Some w' -> exists L', winv L' w'.
Proof.
  intros W E. unfold k_deliver in E. destruct (w_down w !! i) as [[c m]|] eqn:Ei; [|done]. cbn in E.
  destruct (k_busy w c); [done|]. injection E as <-. exists L.
  pose proof (wi_down _ _ W) as Fd. rewrite Forall_forall in Fd. specialize (Fd (c, m) (list_elem_of_lookup_2 _ _ _ Ei)). cbn in Fd.
  assert (Hgo : forall k ths, ksafe L (w_k w) k -> Forall (kthread_ok L k) ths -> omap ktok ths = [] ->
    winv L (mkWorld k (w_t w) (w_kth w ++ ths) (w_tth w) (w_up w) (delete i (w_down w)) (w_sessions w))).
  { intros k ths [K1 K2] Hths Htk. apply (winv_kmove L L); try done; try (by apply W).
    - by apply grows_refl.
    - apply Forall_app. split; [apply Forall_forall; by left|]. eapply Forall_impl; [exact Hths|]. by right.
    - apply Forall_forall. by left.
    - apply Forall_in_delete.
    - unfold tokens. cbn. rewrite omap_app, Htk, app_nil_r. apply W.
    - intros s. unfold tokens. cbn. rewrite omap_app, Htk, app_nil_r. by left. }
  destruct m as [| |n| |acc]; try (apply Hgo; [apply ksafe_refl, W|constructor|done]).
  - destruct (response_enter (w_k w) (mkToken c gen) count data) as [k r] eqn:Er.
    apply (response_enter_ok L) in Er as [Hs Hth]; [|apply W|done].
    destruct r as [th| |]; cbn [opt_ok]; [|by apply Hgo..]. destruct (Hth th eq_refl) as [T1 T2].
    apply Hgo; [done|by apply Forall_singleton|]. cbn. by rewrite T2.
  - apply Hgo; [apply ksafe_resume_response, W|constructor|done].
Qed.

(** TEE_K asks to resume. *)
Lemma step_k_resume L w : winv L w -> winv L (k_resume w).
Proof.
  intros W. unfold k_resume. pose proof (ksafe_resume_begin L (w_k w) (wi_k _ _ W)) as [K1 K2].
  destruct (resume_begin (w_k w)) as [k r] eqn:Er. cbn [fst] in *.
  assert (Hm : Forall (fun m => kmsg_ok L (snd m)) (map (fun '(_, origin, m) => (t_conn origin, m)) (opt_ok r)) /\
               omap (fun m => mtok (snd m)) (map (fun '(_, origin, m) => (t_conn origin, m)) (opt_ok r)) = []).
  { unfold resume_begin in Er. destruct (currentAttestedControlToken (w_k w)); try (by injection Er as <- <-).
    destruct (tk_ot (w_k w)) as [s|] eqn:Es; [|by injection Er as <- <-]. destruct (negb _); [by injection Er as <- <-|].
    destruct (negb _); [by injection Er as <- <-|]. injection Er as <- <-. cbn. split; [|done]. apply Forall_singleton. cbn.
    destruct (wi_k _ _ W s Es) as [(q & Hq & _) _]. destruct (sender_Available _ q Hq) as (_ & _ & ->).
    pose proof Hq as (_ & Hb & Hn & _ & _ & _ & He & _). unfold is_u64, q_end, MaxUint64 in *. lia. }
  destruct Hm as [Hm Ht]. apply (winv_kmove L L); try done; try (by apply W).
  - by apply grows_refl.
  - apply Forall_forall. by left.
  - apply Forall_app. split; [apply Forall_forall; by left|]. eapply Forall_impl; [exact Hm|]. by right.
  - apply Forall_in.
  - unfold tokens. cbn [w_kth w_up w_tth]. rewrite omap_app, Ht, app_nil_r. apply W.
  - intros s. unfold tokens. cbn [w_kth w_up w_tth]. rewrite omap_app, Ht, app_nil_r. by left.
Qed.

(** The random identity of a batch is bytes. *)
Lemma byte_tables : forallb (fun x => bool_decide (is_byte (Z.lor (Z.of_nat x) 64))) (seq 0 16) = true /\
  forallb (fun x => bool_decide (is_byte (Z.lor (Z.of_nat x) 128))) (seq 0 64) = true.
Proof. vm_compute. done. Qed.

Lemma lor_byte x m (n : nat) v : 0 <= x -> m = 2 ^ Z.of_nat n - 1 ->
  forallb (fun x => bool_decide (is_byte (Z.lor (Z.of_nat x) v))) (seq 0 (Z.to_nat (2 ^ Z.of_nat n))) = true ->
  is_byte (Z.lor (Z.land x m) v).
Proof.
  intros Hx -> H. rewrite forallb_forall in H. replace (2 ^ Z.of_nat n - 1) with (Z.ones (Z.of_nat n)) by (rewrite Z.ones_equiv; lia).
  rewrite Z.land_ones by lia. pose proof (Z.mod_pos_bound x (2 ^ Z.of_nat n) ltac:(apply Z.pow_pos_nonneg; lia)).
  specialize (H (Z.to_nat (x mod 2 ^ Z.of_nat n)) ltac:(apply in_seq; lia)). apply bool_decide_eq_true in H.
  by rewrite Z2Nat.id in H by lia.
Qed.

Lemma newV4UUID_bytes rng id rng' : is_bytes rng -> newV4UUIDFromReader rng = Some (id, rng') -> is_bytes id.
Proof.
  intros B E. unfold newV4UUIDFromReader in E. destruct (ReadFull rng 16) as [[x r]|] eqn:Er; [|done].
  apply ReadFull_Some in Er as [_ ->]. apply Forall_app in B as [B _]. cbv zeta in E. injection E as <- _.
  assert (Hn : forall i, 0 <= nth i x 0).
  { intros i. rewrite nth_lookup. destruct (x !! i) as [y|] eqn:Ey; [|done].
    rewrite Forall_forall in B. specialize (B y (list_elem_of_lookup_2 _ _ _ Ey)). unfold is_byte in B. cbn. lia. }
  apply Forall_insert; [apply Forall_insert; [done|]|].
  - apply (lor_byte _ 15 4); [apply Hn|done|apply byte_tables].
  - apply (lor_byte _ 63 6); [apply Hn|done|apply byte_tables].
Qed.

Lemma identity_bytes rng start count i s epoch : is_bytes rng ->
  newSenderPrecomputeIdentity rng start count i = Ok (s, epoch) ->
  length s = 32%nat /\ is_bytes s /\ is_bytes epoch.
Proof.
  intros B E. unfold newSenderPrecomputeIdentity in E. apply bind_Ok in E as (en & _ & E).
  unfold NewExtensionSession in E. destruct (ReadFull rng 32) as [[x r]|] eqn:Er; [|done].
  apply ReadFull_Some in Er as [L32 ->]. apply Forall_app in B as [B1 B2].
  destruct i; cbn [negb] in E; [|apply Ok_pair in E as [<- <-]; by split_and!].
  destruct (newV4UUIDFromReader r) as [[id r']|] eqn:Eu; [|done]. apply newV4UUID_bytes in Eu; [|done].
  apply bind_Ok in E as (ep & Ep & E). apply Ok_pair in E as [<- <-]. split_and!; [done..|].
  unfold InitialExtensionEpoch in Ep. inv_guard Ep. cbv zeta in Ep. apply bind_Ok in Ep as ([] & _ & Ep). apply (inj Ok) in Ep as <-.
  apply Forall_app. split; [apply str_bytes|]. unfold uuid_String.
  repeat (apply Forall_app; split); try apply str_bytes; by apply hex_encode_bytes, slice_forall.
Qed.

(** TEE_K opens a batch. *)
Lemma step_perform L w pf count i claim rng : winv L w -> event_ok w (KPerform pf count i claim rng) ->
  exists L', winv L' (open_batch w pf count i claim rng).
Proof.
  intros W (B & (k0 & expected & Hpf) & Hfresh). unfold open_batch.
  destruct (newSenderPrecomputeIdentity rng (pf_start pf) count i) as [[s epoch]| |] eqn:Eid; [|by exists L..].
  destruct (identity_bytes _ _ _ _ _ _ B Eid) as (L32 & Bs & Be).
  assert (Hcount : 0 < count <= MaxPrecomputeOTs).
  { unfold perform_preflight in Hpf. apply bind_Ok in Hpf as ([] & Hv & _). unfold ValidatePrecomputeCount in Hv.
    inv_guard Hv. norm_guards. lia. }
  assert (Hn : L !! s = None).
  { destruct (L !! s) eqn:El; [|done]. exfalso. eapply Hfresh; [done|]. eapply (wi_sessions _ _ W). by rewrite El. }
  destruct (perform_setup (w_k w) pf count i claim s epoch) as [k r] eqn:Es.
  destruct (perform_setup_ok hw L (w_k w) pf count i claim s epoch k r) as (L' & H1 & H2 & H3 & H4 & H5 & H6 & H7);
    try done; try apply W.
  exists L'.
  assert (Hnew : s ∉ tokens w).
  { intros Hin. destruct (wi_unset _ _ W s Hin) as (e & He & _). congruence. }
  assert (Htok : tokens (mkWorld k (w_t w) (w_kth w ++ opt_ok r) (w_tth w) (w_up w) (w_down w) (s :: w_sessions w))
                 ≡ₚ (match r with Ok _ => [s] | _ => [] end) ++ tokens w).
  { unfold tokens. cbn [w_kth w_up w_tth]. rewrite omap_app. destruct r as [th| |]; cbn [opt_ok omap list_omap]; [|by rewrite app_nil_r..].
    destruct (H7 th eq_refl) as (_ & -> & _). rewrite <- !app_assoc. by rewrite (Permutation_app_swap_app (omap ktok (w_kth w))). }
  apply (winv_kmove L L'); try done.
  - intros x Hx. destruct (H4 x Hx) as [->|?]; [by left|]. right. by apply (wi_sessions _ _ W).
  - apply Forall_app. split; [apply Forall_forall; by left|]. destruct r as [th| |]; cbn; [|constructor..].
    apply Forall_singleton. right. by apply H7.
  - apply Forall_forall. by left.
  - apply Forall_in.
  - rewrite Htok. destruct r as [th| |]; cbn [app]; [|apply W..]. constructor; [done|apply W].
  - intros x. rewrite Htok. destruct r as [th| |]; cbn [app]; [|by left..]. intros [->|?]%elem_of_cons; [|by left].
    right. by apply (H7 th).
Qed.

(** A handler of TEE_T goes on. *)
Lemma step_t_run L w i coins written w' : winv L w -> good_coins coins ->
  t_run w i coins written = Some w' -> exists L', winv L' w'.
Proof.
  intros W Hr E. unfold t_run in E. destruct (w_tth w !! i) as [th|] eqn:Ei; [|done]. cbn in E.
  destruct (receiver_thread_run hw (w_t w) th coins written) as [[t th'] m] eqn:Er. injection E as <-.
  pose proof (wi_tth _ _ W) as Fk. rewrite Forall_forall in Fk.
  assert (Hperm : w_tth w ≡ₚ th :: delete i (w_tth w)) by (by apply delete_Permutation).
  pose proof (omap_delete ttok (w_tth w) i th Ei) as Hom.
  destruct (receiver_thread_run_ok hw L (w_t w) th coins written) as (L' & H1 & H2 & H3 & H4 & H5 & H6 & H7);
    [apply W|apply W|done|by eapply Fk, list_elem_of_lookup_2| |].
  { intros s e Hs He. destruct (wi_unset _ _ W s) as (e' & He' & Hn); [|congruence].
    unfold tokens. rewrite Hom, Hs. cbn. rewrite !elem_of_app. right. right. by left. }
  rewrite Er in *. cbn [fst snd] in *. exists L'.
  set (tth := delete i (w_tth w) ++ option_list th').
  assert (Hnt : omap ttok (option_list th') = []).
  { destruct th' as [t2|]; [|done]. destruct (H5 t2 eq_refl) as (_ & _ & E). cbn. by rewrite E. }
  assert (Hsub : tokens w ≡ₚ option_list (ttok th) ++
    tokens (mkWorld (w_k w) t (w_kth w) tth (w_up w) (w_down w ++ option_list ((t_conn (thread_connection th),.) <$> m)) (w_sessions w))).
  { unfold tokens, tth. cbn [w_kth w_up w_tth]. rewrite omap_app, Hnt, app_nil_r, Hom.
    set (A := omap ktok _). set (U := omap _ (w_up w)). set (D := omap ttok _).
    rewrite (Permutation_app_swap_app U), (Permutation_app_swap_app A). done. }
  pose proof (wi_conns _ _ W) as Hc. rewrite Hperm in Hc. cbn in Hc. apply NoDup_cons in Hc as [Hc1 Hc2].
  apply (winv_tmove L L' (Some (t_conn (thread_connection th)))); try done.
  - apply Forall_app. split.
    + apply Forall_forall. intros x Hx. left. split; [by eapply in_delete|]. intros [= E]. apply Hc1. rewrite E.
      apply (list_elem_of_fmap_2 (fun th => t_conn (thread_connection th))). done.
    + destruct th' as [t2|]; [|constructor]. apply Forall_singleton. right. by apply H5.
  - apply Forall_in.
  - apply Forall_app. split; [apply Forall_forall; by left|]. destruct m as [x|]; cbn; [|constructor].
    apply Forall_singleton. right. by apply H6.
  - unfold tth. rewrite map_app. destruct th' as [t2|]; [|by rewrite app_nil_r]. cbn. destruct (H5 t2 eq_refl) as (_ & -> & _).
    apply NoDup_app. split_and!; [done| |apply NoDup_singleton]. intros x Hx Hx'. apply list_elem_of_singleton in Hx' as ->. done.
  - rewrite Hsub. apply submseteq_inserts_l. done.
  - intros s e e' Hs He He'. apply (H7 s e e'); [|done..]. intros Htk. pose proof (wi_tokens _ _ W) as Hnd.
    rewrite Hsub, Htk in Hnd. cbn in Hnd. by apply NoDup_cons in Hnd as [? _].
Qed.

(** A message reaches TEE_T. *)
Lemma step_t_deliver L w i gen w' : winv L w -> tfits (w_t w) -> t_deliver w i gen = Some w' -> exists L', winv L' w'.
Proof.
  intros W Hfit E. unfold t_deliver in E. destruct (w_up w !! i) as [[c m]|] eqn:Ei; [|done]. cbn in E.
  destruct (t_busy w c) eqn:Hbusy; [done|]. injection E as <-. exists L. apply t_busy_false in Hbusy.
  pose proof (wi_up _ _ W) as Fu. rewrite Forall_forall in Fu. specialize (Fu (c, m) (list_elem_of_lookup_2 _ _ _ Ei)). cbn in Fu.
  pose proof (omap_delete (fun m => mtok (snd m)) (w_up w) i (c, m) Ei) as Hom. cbn in Hom.
  assert (Hgo : forall t ths out, tsafe L (Some c) (w_t w) t ->
    Forall (fun th => tthread_ok L t th /\ t_conn (thread_connection th) = c) ths -> (length ths <= 1)%nat ->
    omap ttok ths ⊆+ option_list (mtok m) -> Forall (fun x => tmsg_ok L (snd x)) out ->
    winv L (mkWorld (w_k w) t (w_kth w) (w_tth w ++ ths) (delete i (w_up w)) (w_down w ++ out) (w_sessions w))).
  { intros t ths out Hs Hths Hlen Htk Hout. apply (winv_tmove L L (Some c)); try done; try apply W.
    - by apply grows_refl.
    - apply Forall_app. split.
      + apply Forall_forall. intros x Hx. left. rewrite Forall_forall in Hbusy. split; [done|]. intros [= ->]. by apply (Hbusy x Hx).
      + eapply Forall_impl; [exact Hths|]. intros x [? _]. by right.
    - apply Forall_in_delete.
    - apply Forall_app. split; [apply Forall_forall; by left|]. eapply Forall_impl; [exact Hout|]. by right.
    - rewrite map_app. destruct ths as [|th [|? ?]]; cbn in *; [rewrite app_nil_r; apply W| |lia].
      apply Forall_singleton in Hths as [_ Hc]. rewrite Hc. apply NoDup_app. split_and!; [apply W| |apply NoDup_singleton].
      intros x Hx Hx'. apply list_elem_of_singleton in Hx' as ->.
      apply (list_elem_of_fmap_1 (fun th => t_conn (thread_connection th))) in Hx as (th' & E & Hin).
      rewrite Forall_forall in Hbusy. by apply (Hbusy th' Hin).
    - unfold tokens. cbn [w_kth w_up w_tth]. rewrite omap_app, Hom. set (A := omap ktok _). set (D := omap _ (delete i _)).
      set (T := omap ttok (w_tth w)). rewrite (Permutation_app_comm T), (Permutation_app_swap_app D).
      apply submseteq_skips_l. rewrite <- app_assoc. by apply submseteq_skips_r.
    - intros s e e' _ E1 E2. congruence. }
  destruct m as [count d ini epoch|count d|n|epoch n|acc];
    try (apply Hgo; try done; try (cbn; lia); apply tsafe_refl, W).
  - destruct (request_enter (w_t w) (mkToken c gen) count d ini epoch) as [t r] eqn:Er.
    apply (request_enter_ok hw L) in Er as [Hs Hth]; [|apply W|apply W|done].
    destruct r as [th| |]; cbn [opt_ok]; [|apply Hgo; try done; try (cbn; lia); apply submseteq_nil_l..].
    destruct (Hth th eq_refl) as (T1 & T2 & T3). apply Hgo; try done; try (cbn; lia).
    + apply Forall_singleton. split; [done|by rewrite T2].
    + cbn. destruct T3 as [->| ->]; [apply submseteq_nil_l|]. by destruct (begin_session d).
  - apply Hgo; try done; try (cbn; lia). by apply (complete_ok hw L (w_t w) (mkToken c gen) n); try apply W.
  - pose proof (tsafe_resume L (w_t w) (mkToken c gen) epoch n (wi_t _ _ W) Fu) as Hs.
    destruct (handleOTResumeRequest (w_t w) (mkToken c gen) epoch n) as [t r] eqn:Er. cbn [fst] in Hs.
    apply Hgo; try done; try (cbn; lia); [by apply tsafe_weaken|].
    unfold handleOTResumeRequest in Er. destruct (negb _); [by injection Er as <- <-|].
    destruct (resumeOTPool (w_t w) epoch n) as [t' a]. injection Er as <- <-. by apply Forall_singleton.
Qed.

Lemma world_step_inv L w ev w' : winv L w -> fits w -> event_ok w ev -> step w ev = Some w' -> exists L', winv L' w'.
Proof.
  intros W [Fk Ft] Hev E. pose proof (wi_k _ _ W) as K. pose proof (wi_t _ _ W) as T.
  destruct ev; cbn [step] in E; try (injection E as <-).
  - exists L. by apply step_k, ksafe_establish.
  - exists L. by apply step_k, ksafe_tearDown.
  - by apply (step_perform L).
  - by eapply step_k_deliver.
  - by eapply step_k_run.
  - exists L. by apply step_k, ksafe_fail.
  - exists L. by apply step_k, ksafe_recover.
  - exists L. by apply step_k, ksafe_reserve.
  - exists L. by apply step_k, ksafe_reconcile.
  - exists L. by apply step_k_resume.
  - exists L. by apply step_k, ksafe_resume_finish.
  - exists L. by apply step_k, ksafe_ensure.
  - exists L. eapply step_t; [done|by apply tsafe_activate|]. apply t_busy_false in Hev.
    eapply Forall_impl; [exact Hev|]. cbn. congruence.
  - exists L. by apply step_t_any, tsafe_attest.
  - exists L. by apply step_t_any, tsafe_tearDown.
  - by eapply step_t_deliver.
  - by eapply step_t_run.
  - exists L. destruct Hev. by apply step_t_any, tsafe_consume_enter.
  - exists L. destruct Hev. by apply step_t_any, tsafe_consume_finish.
Qed.

Lemma reachable_inv w : reachable w -> exists L, winv L w.
Proof.
  induction 1 as [|w ev w' _ [L W] Hf He Hs]; [exists ∅; apply initial_inv|]. by eapply world_step_inv.
Qed.

(** ** Safety *)

Lemma one_epoch_pools L w sk st : winv L w -> tk_ot (w_k w) = Some sk -> tt_ot (w_t w) = Some st ->
  os_ready sk = true -> rs_ready st = true -> os_epoch sk = rs_epoch st ->
  exists q, sender_repr (os_pool sk) q /\ receiver_ok (rs_pool st) /\ q_end q = rp_total (rs_pool st) /\
    forall i s t, q_items q !! i = Some s -> rp_free (rs_pool st) (q_next q + Z.of_nat i) = Some t -> ot_pair s t.
Proof.
  intros W Hk Ht Rk Rt He. pose proof (wi_log _ _ W) as HL.
  destruct (wi_k _ _ W sk Hk) as [(q & Hq & Hkr) _]. destruct (wi_t _ _ W st Ht) as [[Hok Htr] _].
  rewrite Rk in Hkr. rewrite Rt in Htr. destruct Hkr as (p & e & E1 & Hp & Hc & Hend & Hit).
  destruct Htr as (p' & e' & E2 & Hp' & _ & Htot & Hfree).
  assert (p = p') as <-.
  { apply ExtensionEpoch_inj; [by eapply entry_session, HL..|]. congruence. }
  rewrite Hp in Hp'. injection Hp' as <-.
  pose proof (histories_correlated hw L (e_chain e ++ [p]) HL Hc) as Hcor. pose proof (Forall2_length _ _ _ Hcor) as Hlen.
  exists q. split_and!; [done|done|lia|].
  intros i s t Hs Hft. apply Hfree in Hft. rewrite Hit, lookup_drop in Hs. pose proof Hq as (_ & Hb & Hn & _).
  replace (Z.to_nat (q_next q + Z.of_nat i)) with (Z.to_nat (q_next q) + i)%nat in Hft by lia.
  by eapply (Forall2_lookup_lr _ _ _ _ _ _ Hcor).
Qed.

(** C7: an epoch names a pair of pools. In every interleaving of the two
    enclaves' goroutines over connections that may come and go, whenever both
    hold a ready pool of the same epoch the pools end at the same index, and at
    every index that TEE_K has not reserved and TEE_T has not used the two hold a
    correlated pair of OTs. *)
Theorem equal_epochs_pair_the_pools w sk st :
  reachable w -> tk_ot (w_k w) = Some sk -> tt_ot (w_t w) = Some st ->
  os_ready sk = true -> rs_ready st = true -> os_epoch sk = rs_epoch st ->
  exists q, sender_repr (os_pool sk) q /\ receiver_ok (rs_pool st) /\
    SenderPool_TotalCount (os_pool sk) = ReceiverPool_TotalCount (rs_pool st) /\
    forall i s t, q_items q !! i = Some s -> rp_free (rs_pool st) (q_next q + Z.of_nat i) = Some t -> ot_pair s t.
Proof.
  intros [L W]%reachable_inv Hk Ht Rk Rt He.
  destruct (one_epoch_pools L w sk st) as (q & Hq & Hok & Htot & Hp); [done..|].
  exists q. split_and!; [done|done| |done].
  destruct (sender_Available _ q Hq) as (_ & -> & _). unfold ReceiverPool_TotalCount. by rewrite receiver_total.
Qed.

End Run.
