(* ===== verification/PrecomputeLive.v ===== *)
(** * A batch that starts is completed

    The schedule of one precomputation on a quiet pair of enclaves: TEE_K opens
    the batch, the six frames travel, TEE_K commits and TEE_T follows.  The
    theorem says that the schedule runs to its end from every reachable state in
    which the preflight of TEE_K passes, and what it leaves: two ready pools of
    the new epoch, longer by the batch, and a success for the goroutine that
    waits.  The steps of the protocol are proved to succeed; what is assumed is
    about the random bytes and the curve library alone: enough bytes, a session
    not used before, seeds that differ, a correlation that is not zero, and a
    library that finds its points in them. *)

From S2P Require Import Prelude Bytes Label Slices Transpose Gf128 Crypto Circuit Oprf SenderPool ReceiverPool OtExtension.
From S2P Require Import BaseOt Wire ExtensionWire EndToEnd Precompute PrecomputeSender PrecomputeReceiver PrecomputeLog.
From S2P Require Import SenderInv ReceiverInv PrecomputeRun.

(** ** Epochs of finished batches are current *)

Lemma utf8_ascii s n : Forall (fun b => b < 128) s -> (length s < n)%nat -> utf8_valid n s = true.
Proof.
  revert n. induction s as [|b s IH]; intros [|n] H L; cbn [length utf8_valid] in *; try lia; try done.
  inversion H; subst. rewrite (proj2 (Z.ltb_lt _ _)) by done. apply IH; [done|lia].
Qed.

Lemma hex_ascii s : is_bytes s -> Forall (fun b => b < 128) (hex_encode s).
Proof.
  unfold hex_encode. induction 1 as [|b s Hb _ IH]; [constructor|]. cbn [map concat app].
  unfold is_byte in *. pose proof (Z.div_lt_upper_bound b 16 16 ltac:(lia) ltac:(lia)).
  pose proof (Z.mod_pos_bound b 16 ltac:(lia)).
  repeat constructor; try done; unfold hex_digit; case_match; norm_guards; lia.
Qed.

Lemma length_hex s : length (hex_encode s) = (2 * length s)%nat.
Proof. unfold hex_encode. induction s as [|b s IH]; [done|]. cbn [map concat app length] in *. lia. Qed.

Lemma ExtensionEpoch_current s : is_bytes s -> length s = 32%nat -> validateExtensionEpoch (ExtensionEpoch s) = Ok ().
Proof.
  intros B L. unfold validateExtensionEpoch, ExtensionEpoch. rewrite length_app, length_hex, L.
  change (length extensionEpochPrefix) with 5%nat. cbn [Nat.add Nat.mul]. rewrite (take_app_length' _ _ 5), bytes_eqb_refl by done.
  change (69 <=? 5)%nat with false. change (maxEpochLength <? 69)%nat with false. cbn [orb negb].
  unfold utf8_ValidString. rewrite utf8_ascii; [done| |rewrite !length_app; lia].
  apply Forall_app. split; [|by apply hex_ascii]. by repeat constructor.
Qed.

(** ** The frames of the base OT *)

Lemma tag_length d t : frame_tag d = str t -> length (str t) = 4%nat -> (length d <? 4)%nat = false.
Proof.
  intros H L. apply Nat.ltb_ge. rewrite <- H in L. unfold frame_tag, slice in L. rewrite length_take, length_drop in L. lia.
Qed.

Lemma nested_fits tag inner size session body m m1 m2 : length (str tag) = 4%nat -> length session = 32%nat ->
  length body = size -> take 4 body = str inner -> slice body 4 36 = session ->
  exists d, nested_frame tag inner size session body m = Ok d /\ nested_unframe tag inner size session d m1 m2 = Ok body.
Proof.
  intros Lt Ls L4 T4 S4. exists (str tag ++ session ++ body).
  assert (E : nested_frame tag inner size session body m = Ok (str tag ++ session ++ body)).
  { unfold nested_frame. change (slice body 0 4) with (take 4 body).
    by rewrite L4, Nat.eqb_refl, T4, S4, !bytes_eqb_refl. }
  split; [done|]. by apply (nested_roundtrip _ _ _ _ _ m).
Qed.

Section Frames.
Context {CO : COLib}.

Lemma setup_frame session r m1 br m2 : length session = 32%nat ->
  fst (StartBaseOTReceiver (Some r) session m1) = Ok (br, m2) ->
  exists d, MarshalPrecomputeBaseSetup session m1 = Ok d /\ UnmarshalPrecomputeBaseSetup d session = Ok m1.
Proof.
  intros Ls E. unfold StartBaseOTReceiver in E.
  destruct (negb (length m1 =? baseSetupMessageSize)%nat || negb (bytes_eqb (take 4 m1) (str "BOS1"))) eqn:G1; [done|].
  destruct (negb (bytes_eqb (slice m1 4 36) session)) eqn:G2; [done|]. norm_guards.
  by apply nested_fits.
Qed.

Lemma choices_frame r session bs m1 m2 x : length session = 32%nat ->
  fst (StartBaseOTSender (Some r) session) = Ok (bs, m1) -> snd (FinishBaseOTSender (Some bs) m2) = Ok x ->
  exists d, MarshalPrecomputeBaseChoices session m2 = Ok d /\ UnmarshalPrecomputeBaseChoices d session = Ok m2 /\
    PrecomputeRequestPhase d = PrecomputePhaseBaseChoices.
Proof.
  intros Ls E1 E2. assert (Hs : bs_session bs = session).
  { unfold StartBaseOTSender in E1. destruct (GenerateCOSenderSetup r) as [[?| |] r1]; [|done..].
    destruct (read_seeds BaseOTCount r1) as [[?| |] ?]; [|done..]. by apply Ok_pair in E1 as [<- _]. }
  unfold FinishBaseOTSender in E2. destruct (bs_used bs); [done|]. cbn [snd] in E2.
  destruct (negb (length m2 =? baseChoiceMessageSize)%nat || negb (bytes_eqb (take 4 m2) (str "BOC1"))) eqn:G1; [done|].
  destruct (negb (bytes_eqb (slice m2 4 36) (bs_session bs))) eqn:G2; [done|]. norm_guards.
  destruct (nested_fits "KBC2" "BOC1" baseChoiceMessageSize session m2 "mpc: invalid base OT choices for KOS2 frame"
    "mpc: invalid KOS2 base OT choice frame" "mpc: invalid nested base OT choices") as (d & D1 & D2); [done..|congruence|].
  exists d. split_and!; [done..|]. pose proof (nested_frame_tag "KBC2" _ _ _ _ _ _ eq_refl D1) as Ht.
  unfold PrecomputeRequestPhase. rewrite (tag_length d "KBC2") by done. unfold frame_tag in Ht. by rewrite Ht.
Qed.

End Frames.

Lemma challenge_phase {SH : Sha256} ch d : MarshalExtensionChallenge (Some ch) = Ok d ->
  PrecomputeRequestPhase d = PrecomputePhaseChallenge.
Proof.
  intros E. pose proof (challenge_frame_tag ch d E) as Ht.
  unfold PrecomputeRequestPhase. rewrite (tag_length d "KCH2") by done. unfold frame_tag in Ht. by rewrite Ht.
Qed.

Lemma SenderPool_Add_slen p q l p' : sender_repr p q -> SenderPool_Add p l = (p', Ok ()) ->
  slen (sp_entries p') = (slen (sp_entries p) + length l)%nat.
Proof.
  intros (Hw & _) E. unfold SenderPool_Add in E. destruct (sender_validateAddLocked p l); [|done..].
  destruct (appendWithWipedGrowth _ _ _) as [es left] eqn:Ea. injection E as <-.
  apply appendWithWipedGrowth_spec in Ea as (Hw' & He & _); [|done]. cbn [sp_entries].
  by rewrite <- (length_elems es), He, length_app, length_elems.
Qed.

(** ** Runs *)

Section Live.
Context {BC : BlockCipher} {SH : Sha256} {CO : COLib} {CL : COLaws} (hw : bool).

Fixpoint run (w : world) (evs : list event) : option world :=
  match evs with
  | [] => Some w
  | ev :: evs => w ← step hw w ev; run w evs
  end.

(** The run gets to [w'], through reachable worlds only. *)
Definition goes (w : world) (evs : list event) (w' : world) : Prop :=
  run w evs = Some w' /\ (reachable hw w -> reachable hw w').

Lemma goes_nil w : goes w [] w.
Proof. done. Qed.

Lemma goes_cons w ev evs w1 w' : fits w -> event_ok w ev -> step hw w ev = Some w1 -> goes w1 evs w' ->
  goes w (ev :: evs) w'.
Proof.
  intros Hf He Hs [H1 H2]. split; [cbn [run]; by rewrite Hs|]. intros Hr. by eapply H2, reach_step.
Qed.

Lemma goes_app w evs1 w1 evs2 w2 : goes w evs1 w1 -> goes w1 evs2 w2 -> goes w (evs1 ++ evs2) w2.
Proof.
  intros [H1 R1] [H2 R2]. split; [|auto]. clear R1 R2. revert w H1.
  induction evs1 as [|ev evs IH]; intros w H1; cbn [run app] in *; [by injection H1 as <-|].
  destruct (step hw w ev) as [w0|]; [|done]. cbn in *. by apply IH.
Qed.

(** ** The parts of the schedule *)

Definition opening (pf : preflight) (count : Z) (isInitial : bool) (claim : option nat) (rng r1 : bytes) (gT : Z)
    : list event :=
  [KPerform pf count isInitial claim rng; KRun 0 r1 true; TDeliver 0 gT].
Definition base_round (gK : Z) (r1 r2 : bytes) : list event :=
  [TRun 0 r1 true; TRun 0 r1 true; KDeliver 0 gK; KRun 0 r2 true; KRun 0 r2 true].
Definition extension_round (gK gT : Z) (r3 r4 : bytes) : list event :=
  [TDeliver 0 gT; TRun 0 r3 true; TRun 0 r3 true; KDeliver 0 gK; KRun 0 r4 true; KRun 0 r4 true].
Definition proof_round (gK gT : Z) (r : bytes) : list event :=
  [TDeliver 0 gT; TRun 0 r true; TRun 0 r true; KDeliver 0 gK; KRun 0 r true; KRun 0 r true].
Definition closing (gT : Z) (r : bytes) : list event := [KRun 0 r true; TDeliver 0 gT].

Definition batch_schedule (pf : preflight) (count : Z) (isInitial : bool) (claim : option nat) (rng : bytes) (gK gT : Z)
    (r1 r2 r3 r4 : bytes) : list event :=
  opening pf count isInitial claim rng r1 gT ++ base_round gK r1 r2 ++ extension_round gK gT r3 r4
  ++ proof_round gK gT r1 ++ closing gT r1.

(** Nobody is working on anything and nothing is under way. *)
Definition quiet (w : world) : Prop := w_kth w = [] /\ w_tth w = [] /\ w_up w = [] /\ w_down w = [].

Lemma batch_bounds b : batch_wf b ->
  0 <= bStartIndex b /\ bStartIndex b + bCount b <= MaxUint64 /\ 0 < bCount b <= 100000.
Proof.
  intros [(_ & _ & _ & Hs & Ho & Hc & _) Hm]. unfold is_u64, MaxPrecomputeOTs, OTPoolInitialSize in *. lia.
Qed.

Lemma count_u32 b : batch_wf b -> u32 (bCount b) = bCount b.
Proof. intros H%batch_bounds. apply Z.mod_small. lia. Qed.

Section Rounds.
Variables (S : OTPrecomputeState) (K : TEEK) (R : OTReceiverState) (T : TEET).
Variables (c : nat) (gK gT : Z) (b : PrecomputeBegin) (ini : bool) (claim : option nat) (p pid : nat) (ss : list bytes).
Hypothesis Hb : batch_wf b.
Hypothesis HK : isCurrentControlConnection K (mkToken c gK) = true.
Hypothesis HT : lease_ok T (mkToken c gT) = true.
Hypothesis HepK : os_epoch S = bEpoch b.
Hypothesis HepT : rs_epoch R = bEpoch b.
Hypothesis HfK : Z.of_nat (slen (sp_entries (os_pool S))) + 2 * MaxPrecomputeOTs < 2 ^ 63.
Hypothesis HfT : Z.of_nat (slen (rp_entries (rs_pool R))) + MaxPrecomputeOTs < 2 ^ 63.

Definition kpend base ext ph : senderPrecompute :=
  mkSenderPrecompute p (bSessionID b) (bCount b) (bStartIndex b) ini base ext ph (mkToken c gK) claim.
Definition kst base ext ph : TEEK := set_ot (set_pending (Some (kpend base ext ph)) S) K.
Definition tpend base ext l ph : receiverPrecompute := mkReceiverPrecompute pid b ini gT base ext l ph.
Definition tst base ext l ph : TEET := t_set_ot (r_set_pending (Some (tpend base ext l ph)) R) T.

Lemma kst_fits base ext ph : kfits (kst base ext ph).
Proof. clear HfT. intros s [= <-]. cbn [os_pool set_pending]. unfold MaxPrecomputeOTs, OTPoolInitialSize in *. lia. Qed.
Lemma tst_fits base ext l ph : tfits (tst base ext l ph).
Proof. by intros s [= <-]. Qed.

Lemma session_32 : length (bSessionID b) = 32%nat.
Proof. by destruct Hb as [(? & _) _]. Qed.

Lemma begin_again : mkBegin (bSessionID b) (bStartIndex b) (u32 (bCount b)) (os_epoch S) = b.
Proof. rewrite (count_u32 b Hb), HepK. by destruct b. Qed.

Ltac conditions :=
  repeat first [rewrite bool_decide_true by done | rewrite bool_decide_false by done | rewrite Z.eqb_refl
               | rewrite bytes_eqb_refl | rewrite eqb_reflx]; cbn [negb orb andb].
Ltac on_k := unfold kst; cbn [tk_ot set_ot];
  repeat change (isCurrentControlConnection (set_ot ?s K)) with (isCurrentControlConnection K);
  rewrite ?HK; cbn [negb orb andb os_pending os_epoch os_pool set_pending kpend sn_id sn_control sn_count sn_phase sn_base
    sn_ext sn_session sn_start sn_initial set_phase set_base set_ext]; conditions.
Ltac on_t := unfold tst; cbn [tt_ot t_set_ot];
  repeat change (lease_ok (t_set_ot ?s T)) with (lease_ok T);
  rewrite ?HT; cbn [negb orb andb rs_pending rs_epoch rs_id rs_pool r_set_pending tpend rc_id rc_generation rc_begin
    rc_initial rc_phase rc_ext rc_base rc_entries rc_set_phase rc_set_ext t_gen]; rewrite ?HepT; conditions.

(** *** What TEE_K does with the three responses *)

Lemma k_takes_setup d :
  response_enter (kst None None senderPrecomputeAwaitBaseSetup) (mkToken c gK) (bCount b) d
  = (kst None None senderPrecomputeAwaitCommitment, Ok (KBaseSetup p (mkToken c gK) (bSessionID b) d)).
Proof. unfold response_enter. by on_k. Qed.

Lemma k_sends_choices d m1 r2 br m2 d' : UnmarshalPrecomputeBaseSetup d (bSessionID b) = Ok m1 ->
  fst (StartBaseOTReceiver (Some r2) (bSessionID b) m1) = Ok (br, m2) ->
  MarshalPrecomputeBaseChoices (bSessionID b) m2 = Ok d' ->
  run_base_setup (kst None None senderPrecomputeAwaitCommitment) p (mkToken c gK) (bSessionID b) d r2
  = (kst (Some br) None senderPrecomputeAwaitCommitment,
     Some (KSendChoices p (mkToken c gK) (bCount b) ini (bEpoch b) d'), None).
Proof.
  intros E1 E2 E3. unfold run_base_setup. rewrite E1. cbn [mbind res_bind]. rewrite E2. cbn [mbind res_bind].
  rewrite E3. cbn [mbind res_bind]. on_k. by rewrite HepK.
Qed.

Lemma k_takes_commitment br d :
  response_enter (kst (Some br) None senderPrecomputeAwaitCommitment) (mkToken c gK) (bCount b) d
  = (kst (Some br) None senderPrecomputeProcessingCommitment, Ok (KCommitment p (mkToken c gK) (Some br) b d)).
Proof. unfold response_enter. on_k. by rewrite begin_again. Qed.

Lemma k_sends_challenge br d m3 com r4 sel delta es ch d' : UnmarshalPrecomputeCommitmentFor d b = Ok (m3, com) ->
  snd (FinishBaseOTReceiver (Some br) m3) = Ok (sel, delta) ->
  fst (StartExtensionSender hw (Some r4) sel delta (bEpoch b) m3 (Some com)) = Ok (es, ch) ->
  MarshalExtensionChallenge (Some ch) = Ok d' ->
  run_commitment hw (kst (Some br) None senderPrecomputeProcessingCommitment) p (mkToken c gK) (Some br) b d r4
  = (kst (Some br) (Some es) senderPrecomputeAwaitProof,
     Some (KSendChallenge p (mkToken c gK) (bCount b) ini (bEpoch b) d'), None).
Proof.
  intros E1 E2 E3 E4. unfold run_commitment. rewrite E1. cbn [mbind res_bind]. rewrite E2. cbn [mbind res_bind].
  rewrite E3. cbn [mbind res_bind]. rewrite E4. cbn [mbind res_bind]. by on_k.
Qed.

Lemma k_takes_proof br es d :
  response_enter (kst (Some br) (Some es) senderPrecomputeAwaitProof) (mkToken c gK) (bCount b) d
  = (kst (Some br) (Some es) senderPrecomputeProcessingProof,
     Ok (KProof (kpend (Some br) (Some es) senderPrecomputeProcessingProof) d)).
Proof. unfold response_enter. by on_k. Qed.

Lemma k_current base ext ph : isCurrentControlConnection (kst base ext ph) (mkToken c gK) = true.
Proof. exact HK. Qed.
Lemma k_current' base ext ph : isCurrentControlConnection (kst base ext ph) (sn_control (kpend base ext ph)) = true.
Proof. exact HK. Qed.

Lemma k_validates br es d pf sots : UnmarshalExtensionProofFor d (bSessionID b) = Ok pf ->
  snd (FinishExtensionSender (Some es) (Some pf)) = Ok sots -> Z.of_nat (length sots) = bCount b ->
  SenderPool_TotalCount (os_pool S) = bStartIndex b -> (ini || SenderPool_OwnsExtendClaim (os_pool S) claim) = true ->
  SenderPool_ValidateAdd (os_pool S) sots = Ok () ->
  let pend := kpend (Some br) (Some es) senderPrecomputeProcessingProof in
  run_proof (kst (Some br) (Some es) senderPrecomputeProcessingProof) pend d
  = (kst (Some br) (Some es) senderPrecomputeProcessingProof,
     Some (KSendComplete pend sots (bStartIndex b + bCount b)), None).
Proof.
  intros E1 E2 L E3 E4 E5 pend. subst pend. unfold run_proof. cbn [kpend sn_session sn_ext]. rewrite E1. cbn [mbind res_bind].
  rewrite E2. unfold complete_validate, pending_is. pose proof (batch_bounds b Hb).
  cbn [kpend sn_start sn_claim]. rewrite checkedIndexEnd_fits by lia. cbv zeta. on_k. rewrite E4, E3, E5. by rewrite HK, Z.eqb_refl, L.
Qed.

(** TEE_K after its commit. *)
Definition kdone (pool : SenderPool) : TEEK :=
  let s := set_pending None (set_epoch (ExtensionEpoch (bSessionID b)) (set_pool pool S)) in
  let s := if ini then set_inconsistent false (set_ready true s)
           else set_pool (fst (SenderPool_ReleaseExtendClaim pool claim)) s in
  signalSenderPrecompute p (Ok ()) (publishOTReadyLocked s K).

Lemma k_commits base ext ph ph' sots pool : SenderPool_TotalCount (os_pool S) = bStartIndex b ->
  (ini || SenderPool_OwnsExtendClaim (os_pool S) claim) = true ->
  SenderPool_Add (os_pool S) sots = (pool, Ok ()) ->
  complete_commit (kst base ext ph) (kpend base ext ph') sots = (kdone pool, None, None).
Proof.
  intros E1 E2 E3. unfold complete_commit, pending_is. cbv zeta. cbn [kpend sn_claim]. on_k. rewrite HK, E2, E1, E3, Z.eqb_refl. done.
Qed.

(** *** What TEE_T does with the requests *)

Lemma t_takes_choices bs d : PrecomputeRequestPhase d = PrecomputePhaseBaseChoices ->
  request_enter (tst (Some bs) None [] receiverPrecomputeAwaitBaseChoices) (mkToken c gT) (bCount b) d ini (bEpoch b)
  = (tst (Some bs) None [] receiverPrecomputeProcessingChoices,
     Ok (TChoices (rs_id R) pid (mkToken c gT) (Some bs) b (bEpoch b) (bCount b) d)).
Proof. intros E. unfold request_enter. rewrite E. unfold choices_enter. by on_t. Qed.

Lemma t_sends_commitment bs d m2 m3 seeds r3 er com rots d' :
  UnmarshalPrecomputeBaseChoices d (bSessionID b) = Ok m2 ->
  snd (FinishBaseOTSender (Some bs) m2) = Ok (m3, seeds) ->
  fst (StartExtensionReceiver (Some r3) seeds (bEpoch b) m3 (bSessionID b) (bStartIndex b) (bCount b))
    = Ok (er, com, rots) ->
  MarshalPrecomputeCommitment m3 (Some com) = Ok d' ->
  run_choices (tst (Some bs) None [] receiverPrecomputeProcessingChoices) (rs_id R) pid (mkToken c gT) (Some bs) b
    (bEpoch b) (bCount b) d r3
  = (tst (Some bs) (Some er) rots receiverPrecomputeAwaitChallenge,
     Some (TSend (rs_id R) pid (mkToken c gT) (bCount b) d'), None).
Proof.
  intros E1 E2 E3 E4. unfold run_choices, receiver_pending_is. rewrite E1. cbn [mbind res_bind]. rewrite E2.
  cbn [mbind res_bind]. rewrite E3. cbn [mbind res_bind]. rewrite E4. cbn [mbind res_bind]. by on_t.
Qed.

Lemma t_takes_challenge bs er rots d : PrecomputeRequestPhase d = PrecomputePhaseChallenge -> rots <> [] ->
  request_enter (tst (Some bs) (Some er) rots receiverPrecomputeAwaitChallenge) (mkToken c gT) (bCount b) d ini (bEpoch b)
  = (tst (Some bs) (Some er) rots receiverPrecomputeProcessingChallenge,
     Ok (TChallenge (rs_id R) pid (mkToken c gT) (Some er) b (bCount b) d)).
Proof. intros E Hn. unfold request_enter. rewrite E. unfold challenge_enter. on_t. by destruct rots. Qed.

Lemma t_sends_proof bs er rots d ch pf d' : UnmarshalExtensionChallengeFor d (bSessionID b) (bCount b) = Ok ch ->
  snd (FinishExtensionReceiver hw (Some er) (Some ch)) = Ok pf -> MarshalExtensionProof (Some pf) = Ok d' ->
  run_challenge hw (tst (Some bs) (Some er) rots receiverPrecomputeProcessingChallenge) (rs_id R) pid (mkToken c gT)
    (Some er) b (bCount b) d
  = (tst (Some bs) (Some er) rots receiverPrecomputeAwaitComplete,
     Some (TSend (rs_id R) pid (mkToken c gT) (bCount b) d'), None).
Proof.
  intros E1 E2 E3. unfold run_challenge, receiver_pending_is. rewrite E1. cbn [mbind res_bind]. rewrite E2.
  cbn [mbind res_bind]. rewrite E3. by on_t.
Qed.

(** TEE_T after the completion. *)
Definition tdone base ext l (pool : ReceiverPool) : TEET :=
  finishReceiverPrecompute (Some (tpend base ext l receiverPrecomputeAwaitComplete)) receiverPrecomputeCommitted
    (t_set_otReady true (t_set_ot (r_set_ready true (r_set_pending None
      (r_set_epoch (ExtensionEpoch (bSessionID b)) (r_set_pool pool R)))) T)).

Lemma t_completes base ext l pool : l <> [] -> Z.of_nat (length l) = bCount b ->
  ReceiverPool_TotalCount (rs_pool R) = bStartIndex b -> ReceiverPool_Add (rs_pool R) l = (pool, Ok ()) ->
  handleOTPrecomputeComplete (tst base ext l receiverPrecomputeAwaitComplete) (mkToken c gT) (bStartIndex b + bCount b)
  = (tdone base ext l pool, Ok ()).
Proof.
  intros Hn L E1 E2. unfold handleOTPrecomputeComplete. on_t. rewrite E1, E2, L.
  pose proof (batch_bounds b Hb). rewrite checkedIndexEnd_fits by lia.
  conditions. destruct l; [done|]. done.
Qed.

(** TEE_T makes the batch pending. *)
Lemma t_opens T0 r1 bs m1 d1 : T = t_set_alloc (Datatypes.S pid) T0 -> tt_ot T0 = Some R -> rs_pending R = None ->
  tt_alloc T0 = pid -> fst (StartBaseOTSender (Some r1) (bSessionID b)) = Ok (bs, m1) ->
  MarshalPrecomputeBaseSetup (bSessionID b) m1 = Ok d1 ->
  run_begin T0 (rs_id R) (mkToken c gT) b ini (bCount b) r1
  = (tst (Some bs) None [] receiverPrecomputeAwaitBaseChoices, Some (TSend (rs_id R) pid (mkToken c gT) (bCount b) d1), None).
Proof.
  intros ET Hot Hp Ha E1 E2. unfold run_begin. rewrite E1, Hot, Hp, E2, Ha.
  assert (lease_ok T0 (mkToken c gT) = true) as -> by (pose proof HT as H; by rewrite ET in H).
  unfold tst. rewrite ET. conditions. done.
Qed.

(** *** The rounds *)

Definition at_ (k : TEEK) (t : TEET) kth tth up down : world := mkWorld k t kth tth up down ss.

Ltac fit := split; [apply kst_fits|apply tst_fits].
Ltac go_eval E := unfold at_; cbn [step]; unfold t_run, k_run, t_deliver, k_deliver, t_busy, k_busy;
  cbn [w_k w_t w_kth w_tth w_up w_down w_sessions lookup list_lookup mbind option_bind existsb thread_run receiver_thread_run
       t_conn t_gen thread_connection thread_control delete list_delete app];
  lazymatch E with I => idtac | _ => rewrite E end;
  cbn [negb orb option_list option_rect fmap option_fmap option_map app opt_ok t_conn thread_connection thread_control
       map delete list_delete fst snd]; rewrite ?(count_u32 b Hb); reflexivity.
Ltac go_step E := eapply goes_cons; [fit|done|go_eval E|].

Lemma base_round_goes T0 r1 r2 bs m1 br m2 d1 d2 : good_coins r1 -> good_coins r2 ->
  T = t_set_alloc (Datatypes.S pid) T0 -> tt_ot T0 = Some R -> rs_pending R = None -> tt_alloc T0 = pid -> tfits T0 ->
  fst (StartBaseOTSender (Some r1) (bSessionID b)) = Ok (bs, m1) ->
  MarshalPrecomputeBaseSetup (bSessionID b) m1 = Ok d1 -> UnmarshalPrecomputeBaseSetup d1 (bSessionID b) = Ok m1 ->
  fst (StartBaseOTReceiver (Some r2) (bSessionID b) m1) = Ok (br, m2) ->
  MarshalPrecomputeBaseChoices (bSessionID b) m2 = Ok d2 ->
  goes (at_ (kst None None senderPrecomputeAwaitBaseSetup) T0 [] [TBegin (rs_id R) (mkToken c gT) b ini (bCount b)] [] [])
    (base_round gK r1 r2)
    (at_ (kst (Some br) None senderPrecomputeAwaitCommitment) (tst (Some bs) None [] receiverPrecomputeAwaitBaseChoices)
       [] [] [(c, OTPrecomputeRequest (bCount b) d2 ini (bEpoch b))] []).
Proof.
  intros C1 C2 ET Hot Hp Ha Hf0 X1 M1 U1 X2 M2.
  eapply goes_cons; [split; [apply kst_fits|exact Hf0]|done| |].
  { go_eval (t_opens T0 r1 bs m1 d1 ET Hot Hp Ha X1 M1). }
  go_step I.
  go_step (k_takes_setup d1).
  go_step (k_sends_choices d1 m1 r2 br m2 d2 U1 X2 M2).
  go_step (k_current (Some br) None senderPrecomputeAwaitCommitment).
  apply goes_nil.
Qed.

Lemma extension_round_goes bs br r3 r4 m2 m3 seeds sel delta er com rots es ch d2 d3 d4 :
  good_coins r3 -> good_coins r4 -> PrecomputeRequestPhase d2 = PrecomputePhaseBaseChoices ->
  UnmarshalPrecomputeBaseChoices d2 (bSessionID b) = Ok m2 ->
  snd (FinishBaseOTSender (Some bs) m2) = Ok (m3, seeds) ->
  fst (StartExtensionReceiver (Some r3) seeds (bEpoch b) m3 (bSessionID b) (bStartIndex b) (bCount b))
    = Ok (er, com, rots) ->
  MarshalPrecomputeCommitment m3 (Some com) = Ok d3 ->
  UnmarshalPrecomputeCommitmentFor d3 b = Ok (m3, com) ->
  snd (FinishBaseOTReceiver (Some br) m3) = Ok (sel, delta) ->
  fst (StartExtensionSender hw (Some r4) sel delta (bEpoch b) m3 (Some com)) = Ok (es, ch) ->
  MarshalExtensionChallenge (Some ch) = Ok d4 ->
  goes (at_ (kst (Some br) None senderPrecomputeAwaitCommitment) (tst (Some bs) None [] receiverPrecomputeAwaitBaseChoices)
          [] [] [(c, OTPrecomputeRequest (bCount b) d2 ini (bEpoch b))] [])
    (extension_round gK gT r3 r4)
    (at_ (kst (Some br) (Some es) senderPrecomputeAwaitProof) (tst (Some bs) (Some er) rots receiverPrecomputeAwaitChallenge)
          [] [] [(c, OTPrecomputeRequest (bCount b) d4 ini (bEpoch b))] []).
Proof.
  intros C3 C4 P2 U2 F1 X1 M3 U3 F2 X2 M4.
  go_step (t_takes_choices bs d2 P2).
  go_step (t_sends_commitment bs d2 m2 m3 seeds r3 er com rots d3 U2 F1 X1 M3).
  go_step I.
  go_step (k_takes_commitment br d3).
  go_step (k_sends_challenge br d3 m3 com r4 sel delta es ch d4 U3 F2 X2 M4).
  go_step I.
  apply goes_nil.
Qed.

Lemma proof_round_goes br bs er rots es ch pf sots r d4 d5 : good_coins r ->
  PrecomputeRequestPhase d4 = PrecomputePhaseChallenge -> rots <> [] ->
  UnmarshalExtensionChallengeFor d4 (bSessionID b) (bCount b) = Ok ch ->
  snd (FinishExtensionReceiver hw (Some er) (Some ch)) = Ok pf -> MarshalExtensionProof (Some pf) = Ok d5 ->
  UnmarshalExtensionProofFor d5 (bSessionID b) = Ok pf ->
  snd (FinishExtensionSender (Some es) (Some pf)) = Ok sots -> Z.of_nat (length sots) = bCount b ->
  SenderPool_TotalCount (os_pool S) = bStartIndex b -> (ini || SenderPool_OwnsExtendClaim (os_pool S) claim) = true ->
  SenderPool_ValidateAdd (os_pool S) sots = Ok () ->
  goes (at_ (kst (Some br) (Some es) senderPrecomputeAwaitProof) (tst (Some bs) (Some er) rots receiverPrecomputeAwaitChallenge)
          [] [] [(c, OTPrecomputeRequest (bCount b) d4 ini (bEpoch b))] [])
    (proof_round gK gT r)
    (at_ (kst (Some br) (Some es) senderPrecomputeProcessingProof)
       (tst (Some bs) (Some er) rots receiverPrecomputeAwaitComplete)
       [KCommit (kpend (Some br) (Some es) senderPrecomputeProcessingProof) sots] []
       [(c, OTPrecomputeComplete (bStartIndex b + bCount b))] []).
Proof.
  intros Hr P4 Hn U4 X3 M5 U5 X4 L E1 E2 E3.
  go_step (t_takes_challenge bs er rots d4 P4 Hn).
  go_step (t_sends_proof bs er rots d4 ch pf d5 U4 X3 M5).
  go_step I.
  go_step (k_takes_proof br es d5).
  go_step (k_validates br es d5 pf sots U5 X4 L E1 E2 E3).
  go_step (k_current' (Some br) (Some es) senderPrecomputeProcessingProof).
  apply goes_nil.
Qed.

Lemma kdone_fits pool : Z.of_nat (slen (sp_entries pool)) + MaxPrecomputeOTs < 2 ^ 63 -> kfits (kdone pool).
Proof.
  intros H s. unfold kdone, signalSenderPrecompute.
  destruct (tk_signals _ !! p); cbn [tk_ot publishOTReadyLocked set_otReady set_ot]; intros [= <-];
    (destruct ini; [done|]); cbn [os_pool set_pool];
    unfold SenderPool_ReleaseExtendClaim; by destruct (owns pool claim).
Qed.

Lemma closing_goes base ext base' ext' ph l sots pool rpool r : good_coins r ->
  SenderPool_TotalCount (os_pool S) = bStartIndex b -> (ini || SenderPool_OwnsExtendClaim (os_pool S) claim) = true ->
  SenderPool_Add (os_pool S) sots = (pool, Ok ()) -> kfits (kdone pool) ->
  l <> [] -> Z.of_nat (length l) = bCount b -> ReceiverPool_TotalCount (rs_pool R) = bStartIndex b ->
  ReceiverPool_Add (rs_pool R) l = (rpool, Ok ()) ->
  goes (at_ (kst base ext ph) (tst base' ext' l receiverPrecomputeAwaitComplete) [KCommit (kpend base ext ph) sots] []
          [(c, OTPrecomputeComplete (bStartIndex b + bCount b))] [])
    (closing gT r) (at_ (kdone pool) (tdone base' ext' l rpool) [] [] [] []).
Proof.
  intros Hr E1 E2 E3 Hf Hn L E4 E5.
  go_step (k_commits base ext ph ph sots pool E1 E2 E3).
  eapply goes_cons; [split; [exact Hf|apply tst_fits]|done|go_eval (t_completes base' ext' l rpool Hn L E4 E5)|].
  apply goes_nil.
Qed.

(** From the opening message at TEE_T to the end. *)
Lemma exchange_goes T0 q r1 r2 r3 r4 bs m1 br m2 :
  good_coins r1 -> good_coins r2 -> good_coins r3 -> good_coins r4 ->
  T = t_set_alloc (Datatypes.S pid) T0 -> tt_ot T0 = Some R -> rs_pending R = None -> tt_alloc T0 = pid -> tfits T0 ->
  sender_repr (os_pool S) q -> receiver_ok (rs_pool R) -> q_end q = bStartIndex b -> rp_total (rs_pool R) = bStartIndex b ->
  (ini || SenderPool_OwnsExtendClaim (os_pool S) claim) = true ->
  fst (StartBaseOTSender (Some r1) (bSessionID b)) = Ok (bs, m1) ->
  fst (StartBaseOTReceiver (Some r2) (bSessionID b) m1) = Ok (br, m2) ->
  exists pool rpool er rots sots,
    goes (at_ (kst None None senderPrecomputeAwaitBaseSetup) T0 [] [TBegin (rs_id R) (mkToken c gT) b ini (bCount b)] [] [])
      (base_round gK r1 r2 ++ extension_round gK gT r3 r4 ++ proof_round gK gT r1 ++ closing gT r1)
      (at_ (kdone pool) (tdone (Some bs) (Some er) rots rpool) [] [] [] []) /\
    sender_repr pool (q_add q sots) /\ receiver_ok rpool /\ Z.of_nat (length sots) = bCount b /\
    rp_total rpool = bStartIndex b + bCount b.
Proof.
  intros C1 C2 C3 C4 ET Hot Hp Ha Hf Hs Hr Hq Hrt Hown X1 X2. pose proof (batch_bounds b Hb) as HB.
  destruct (exchange_forward hw b r1 r2 r3 r4 bs m1 br m2 Hb C1 C2 C3 C4 X1 X2)
    as (m3 & seeds & sel & delta & er & com & rots & es & ch & pf & sots & F1 & X3 & F2 & X4 & X5 & X6 &
        (Hcor & Ls & Hval) & Hm3 & Hhr & (Hch & Hchs & Lch) & Hpf & Hps).
  pose proof (Forall2_length _ _ _ Hcor) as Lr. pose proof Hhr as [_ Hcw Hmb _ _].
  destruct (setup_frame (bSessionID b) r2 m1 br m2 session_32 X2) as (d1 & M1 & U1).
  destruct (choices_frame r1 (bSessionID b) bs m1 m2 _ session_32 X1 F1) as (d2 & M2 & U2 & P2).
  destruct (commitment_frame_decodes m3 com) as (d3 & M3 & _ & _ & U3); [by rewrite (proj1 Hmb)|done|].
  assert (U3' : UnmarshalPrecomputeCommitmentFor d3 b = Ok (m3, com)).
  { apply precheck_commitment_iff; [by apply batch_wf_validate|]. rewrite checkedIndexEnd_fits by lia. done. }
  assert (Hpc : extensionPaddedCount (bCount b) = Ok (PaddedCount com)).
  { destruct Hmb as (_ & _ & <-). cbn [wire_wf commitment_codec] in Hcw. tauto. }
  destruct (challenge_for ch (bSessionID b) (bCount b) (PaddedCount com)) as (d4 & M4 & _ & U4); [done|done|by apply batch_wf_validate|done..|].
  destruct (proof_for pf (bSessionID b) Hpf Hps) as (d5 & M5 & _ & U5).
  assert (Hn : rots <> []) by (intros ->; cbn in Lr; lia).
  assert (HtK : SenderPool_TotalCount (os_pool S) = bStartIndex b).
  { by destruct (sender_Available _ q Hs) as (_ & -> & _). }
  assert (HtT : ReceiverPool_TotalCount (rs_pool R) = bStartIndex b).
  { unfold ReceiverPool_TotalCount. by rewrite receiver_total. }
  assert (Hfit : Z.of_nat (slen (sp_entries (os_pool S))) + Z.of_nat (length sots) + MaxPrecomputeOTs < 2 ^ 63).
  { unfold MaxPrecomputeOTs, OTPoolInitialSize in *. lia. }
  destruct (add_both (os_pool S) q (rs_pool R) sots rots) as (Hva & pool & rpool & A1 & A2 & (Hs' & _) & Hr' & _ & Ht' & _);
    try done; try lia; [by rewrite Hq|unfold MaxPrecomputeOTs, OTPoolInitialSize in *; lia..|].
  exists pool, rpool, er, rots, sots. split_and!; try done; [|lia].
  eapply goes_app; [by apply (base_round_goes T0 r1 r2 bs m1 br m2 d1 d2)|].
  eapply goes_app; [by apply (extension_round_goes bs br r3 r4 m2 m3 seeds sel delta er com rots es ch d2 d3 d4)|].
  eapply goes_app; [apply (proof_round_goes br bs er rots es ch pf sots r1 d4 d5); try done; by eapply challenge_phase|]. eapply closing_goes; try done; [|lia].
  apply kdone_fits. rewrite (SenderPool_Add_slen _ _ _ _ Hs A1). lia.
Qed.

End Rounds.
(** ** Opening the batch *)

(** The preflight passed: the connection, the count and, for a refill, the pool. *)
Lemma preflight_Ok k count ini claim expected pf : perform_preflight k count ini claim expected = Ok pf ->
  0 < count <= MaxPrecomputeOTs /\ isCurrentControlConnection k (pf_origin pf) = true /\
  if ini then pf_start pf = 0 /\ pf_fresh pf = bool_decide (tk_ot k = None) /\
    (forall s, tk_ot k = Some s -> os_pending s = None)
  else exists s, tk_ot k = Some s /\ os_pending s = None /\ os_ready s = true /\ pf_fresh pf = false /\
    SenderPool_OwnsExtendClaim (os_pool s) claim = true /\ pf_start pf = SenderPool_TotalCount (os_pool s).
Proof.
  intros E. unfold perform_preflight in E. apply bind_Ok in E as ([] & Hc & E).
  assert (0 < count <= MaxPrecomputeOTs). { unfold ValidatePrecomputeCount in Hc. inv_guard Hc. norm_guards. lia. }
  do 2 inv_guard E. apply bind_Ok in E as (origin & _ & E).
  destruct (negb (isCurrentControlConnection k origin)) eqn:Hcur; [done|]. apply negb_false_iff in Hcur.
  destruct (tk_ot k) as [s|]; [|destruct ini; [|done]].
  - destruct (negb (bool_decide (os_pending s = None))) eqn:Hp; [done|].
    apply negb_false_iff, bool_decide_eq_true in Hp. destruct ini.
    + apply bind_Ok in E as (? & _ & E). apply (inj Ok) in E as <-. split_and!; try done; try lia. by intros ? [= <-].
    + destruct (os_ready s) eqn:Hrd; [|done]. cbn [negb] in E.
      destruct (SenderPool_OwnsExtendClaim (os_pool s) claim) eqn:Ho; [|done]. cbn [negb] in E. cbv zeta in E.
      apply bind_Ok in E as (? & _ & E). apply (inj Ok) in E as <-. split_and!; try done; try lia. by exists s.
  - cbn [negb] in E. apply bind_Ok in E as (? & _ & E). apply (inj Ok) in E as <-. by split_and!; try lia.
Qed.

Lemma identity_Ok rng start count ini s e : is_bytes rng -> newSenderPrecomputeIdentity rng start count ini = Ok (s, e) ->
  length s = 32%nat /\ is_bytes s /\ is_bytes e /\ is_ok (checkedIndexEnd start count) = true /\
  (ini = true -> validateExtensionEpoch e = Ok ()).
Proof.
  intros B E. destruct (identity_bytes _ _ _ _ _ _ B E) as (? & ? & ?). split_and!; try done.
  - unfold newSenderPrecomputeIdentity in E. by apply bind_Ok in E as (en & -> & _).
  - intros ->. unfold newSenderPrecomputeIdentity in E. apply bind_Ok in E as (en & _ & E).
    destruct (NewExtensionSession (Some rng)) as [[x|m|] [r|]]; try done. cbn [negb] in E.
    destruct (newV4UUIDFromReader r) as [[id r']|]; [|done]. apply bind_Ok in E as (ep & Ep & E). apply Ok_pair in E as [_ <-].
    unfold InitialExtensionEpoch in Ep. inv_guard Ep. cbv zeta in Ep. apply bind_Ok in Ep as ([] & Hv & Ep).
    by apply (inj Ok) in Ep as <-.
Qed.

Lemma uuid_epoch id : is_bytes id -> length id = 16%nat -> is_ok (InitialExtensionEpoch (uuid_String id)) = true.
Proof.
  intros B L. assert (H : forall i j, Forall (fun b => b < 128) (hex_encode (slice id i j))) by (intros; apply hex_ascii; by apply slice_forall).
  assert (A : Forall (fun b => b < 128) (uuid_String id)).
  { unfold uuid_String. repeat (apply Forall_app; split); (done || by repeat constructor). }
  assert (LU : length (uuid_String id) = 36%nat).
  { unfold uuid_String. rewrite !length_app, !length_hex, !length_slice by lia. reflexivity. }
  unfold InitialExtensionEpoch. destruct (bytes_eqb (uuid_String id) []) eqn:E0; [apply bytes_eqb_spec in E0; by rewrite E0 in LU|].
  unfold validateExtensionEpoch. rewrite length_app, LU. change (length extensionEpochPrefix) with 5%nat. cbn [Nat.add].
  rewrite (take_app_length' _ _ 5), bytes_eqb_refl by done. change (41 <=? 5)%nat with false. change (maxEpochLength <? 41)%nat with false.
  unfold utf8_ValidString. rewrite utf8_ascii; [done| |rewrite !length_app; lia]. apply Forall_app. split; [by repeat constructor|done].
Qed.

(** With enough random bytes the identity of a batch is drawn: the session is the first 32 of them. *)
Lemma identity_starts rng start count ini : is_bytes rng -> (48 <= length rng)%nat -> is_ok (checkedIndexEnd start count) = true ->
  exists e, newSenderPrecomputeIdentity rng start count ini = Ok (take 32 rng, e).
Proof.
  intros B L E. unfold newSenderPrecomputeIdentity. destruct (checkedIndexEnd start count); [|done..]. cbn [mbind res_bind].
  unfold NewExtensionSession, ReadFull. rewrite (proj2 (Nat.leb_le 32 _)) by lia. destruct ini; cbn [negb]; [|by eexists].
  destruct (newV4UUIDFromReader (drop 32 rng)) as [[id r']|] eqn:Eu.
  - assert (Lid : length id = 16%nat).
    { unfold newV4UUIDFromReader, ReadFull in Eu. rewrite (proj2 (Nat.leb_le 16 _)) in Eu by (rewrite length_drop; lia).
      injection Eu as <- _. rewrite !length_insert, length_take, length_drop. lia. }
    apply newV4UUID_bytes in Eu; [|by apply Forall_drop]. pose proof (uuid_epoch id Eu Lid) as U.
    destruct (InitialExtensionEpoch (uuid_String id)) as [ep| |]; [by eexists|done..].
  - exfalso. unfold newV4UUIDFromReader, ReadFull in Eu. by rewrite (proj2 (Nat.leb_le 16 _)) in Eu by (rewrite length_drop; lia).
Qed.

Lemma preflight_end k count ini claim expected pf : perform_preflight k count ini claim expected = Ok pf ->
  is_ok (checkedIndexEnd (pf_start pf) count) = true.
Proof.
  intros E. unfold perform_preflight in E. apply bind_Ok in E as ([] & _ & E). do 2 inv_guard E. apply bind_Ok in E as (origin & _ & E).
  inv_guard E. destruct (tk_ot k) as [s|].
  - inv_guard E. destruct ini.
    + apply bind_Ok in E as (? & Ec & E). apply (inj Ok) in E as <-. cbn [pf_start]. by rewrite Ec.
    + do 2 inv_guard E. cbv zeta in E. apply bind_Ok in E as (? & Ec & E). apply (inj Ok) in E as <-. cbn [pf_start]. by rewrite Ec.
  - inv_guard E. apply bind_Ok in E as (? & Ec & E). apply (inj Ok) in E as <-. cbn [pf_start]. by rewrite Ec.
Qed.

Lemma fresh_batch s start count epoch : length s = 32%nat -> is_bytes s -> is_bytes epoch ->
  validateExtensionEpoch epoch = Ok () -> is_u64 start -> is_ok (checkedIndexEnd start count) = true ->
  0 < count <= MaxPrecomputeOTs ->
  let b := mkBegin s start count epoch in
  batch_wf b /\ exists d, MarshalPrecomputeBegin b = Ok d /\ UnmarshalPrecomputeBegin d = Ok b.
Proof.
  intros L32 Bs Be Hv Hst Hck Hc b.
  assert (Hend : start + count <= MaxUint64).
  { destruct (checkedIndexEnd start count) as [en| |] eqn:E; [|done..].
    apply checkedIndexEnd_Ok in E as (_ & -> & He); [unfold is_u64, MaxUint64 in *; lia|done|].
    unfold is_int, MaxPrecomputeOTs, OTPoolInitialSize in *. lia. }
  assert (Hw : wire_wf b).
  { cbn [wire_wf begin_codec b bSessionID bEpoch bStartIndex bCount]. unfold maxExtensionOTs, MaxPrecomputeOTs, OTPoolInitialSize in *.
    split_and!; try done; lia. }
  split; [split; [done|cbn; lia]|]. destruct (decode_encode b Hw) as (d & E & _ & D). by exists d.
Qed.

(** The roomy part of [fits]: one more batch than the next. *)
Definition room (k : TEEK) : Prop :=
  forall s, tk_ot k = Some s -> Z.of_nat (slen (sp_entries (os_pool s))) + 2 * MaxPrecomputeOTs < 2 ^ 63.

Record opens (k : TEEK) (pf : preflight) (count : Z) (ini : bool) (claim : option nat) (s e : bytes) (c : nat) (gK : Z)
    (S : OTPrecomputeState) (K : TEEK) (d : bytes) (q : otQueue) : Prop := {
  op_setup : perform_setup k pf count ini claim s e
    = (kst S K c gK (mkBegin s (pf_start pf) count (os_epoch S)) ini claim (tk_alloc k) None None senderPrecomputeAwaitBaseSetup,
       Ok (KSendBegin (tk_alloc k) (mkToken c gK) count ini (os_epoch S) d));
  op_wf : batch_wf (mkBegin s (pf_start pf) count (os_epoch S));
  op_frame : UnmarshalPrecomputeBegin d = Ok (mkBegin s (pf_start pf) count (os_epoch S));
  op_tag : MarshalPrecomputeBegin (mkBegin s (pf_start pf) count (os_epoch S)) = Ok d;
  op_current : isCurrentControlConnection K (mkToken c gK) = true;
  op_repr : sender_repr (os_pool S) q;
  op_start : q_end q = pf_start pf;
  op_owned : (ini || SenderPool_OwnsExtendClaim (os_pool S) claim) = true;
  op_room : Z.of_nat (slen (sp_entries (os_pool S))) + 2 * MaxPrecomputeOTs < 2 ^ 63;
  op_signals : tk_signals K = tk_signals k;
  op_case : if ini then pf_start pf = 0 /\ q = mkQueue 0 [] else tk_ot k = Some S /\ os_ready S = true;
}.

Lemma opens_initial L k count claim expected pf rng s e c gK : kinv L k ->
  perform_preflight k count true claim expected = Ok pf -> pf_origin pf = mkToken c gK -> is_bytes rng ->
  newSenderPrecomputeIdentity rng (pf_start pf) count true = Ok (s, e) ->
  exists S K d q, opens k pf count true claim s e c gK S K d q.
Proof.
  intros Hk Hpf Ho B Hid. destruct (preflight_Ok _ _ _ _ _ _ Hpf) as (Hc & Hcur & Hst & Hfr & Hpend).
  destruct (identity_Ok _ _ _ _ _ _ B Hid) as (L32 & Bs & Be & Hck & Hv). specialize (Hv eq_refl). rewrite Ho in Hcur.
  set (s0 := default NewOTPrecomputeState (tk_ot k)).
  assert (Hs0 : os_pending s0 = None /\ exists q, sender_repr (os_pool s0) q).
  { unfold s0. destruct (tk_ot k) as [st|] eqn:Es; cbn; [|split; [done|]; eexists; apply NewSenderPool_repr].
    split; [by apply Hpend|]. destruct (Hk st Es) as [(q & Hq & _) _]. by exists q. }
  destruct Hs0 as [Hp0 [q0 Hq0]].
  set (S := set_ready false (set_pool (SenderPool_Clear (os_pool s0)) (set_epoch e s0))).
  set (k1 := publishOTReadyLocked S (set_ot s0 k)).
  destruct (fresh_batch s (pf_start pf) count e) as [Hw (d & M & U)]; [done..|rewrite Hst; unfold is_u64; lia|done|done|].
  exists S, (set_alloc (Datatypes.S (tk_alloc k)) k1), d, (mkQueue 0 []).
  assert (Hrep : sender_repr (os_pool S) (mkQueue 0 [])).
  { unfold S. cbn [os_pool set_ready set_pool]. unfold SenderPool_Clear. by apply sender_repr_claim, (sender_clearLocked_repr _ q0). }
  split; try done.
  - unfold perform_setup. rewrite Ho, Hcur. cbn [negb].
    replace (match tk_ot k with None => _ | Some s => _ end) with (Ok s0 : res OTPrecomputeState).
    2: { revert Hfr. unfold s0. destruct (tk_ot k); intros Hfr; [by rewrite Hfr|done]. }
    cbv zeta. rewrite Hp0. cbn [negb bool_decide decide decide_rel option_eq_None_dec].
    cbn [mbind res_bind]. rewrite Hst in *. cbn [Z.eqb negb].
    destruct (checkedIndexEnd 0 count) as [en| |]; [|done..]. cbn [mbind res_bind].
    change (os_epoch _) with e. unfold u32. rewrite Z.mod_small by (unfold MaxPrecomputeOTs, OTPoolInitialSize in *; lia).
    rewrite M. done.
Qed.

Lemma opens_refill L k count claim expected pf rng s e c gK : log_ok hw L -> kinv L k -> room k ->
  perform_preflight k count false claim expected = Ok pf -> pf_origin pf = mkToken c gK -> is_bytes rng ->
  newSenderPrecomputeIdentity rng (pf_start pf) count false = Ok (s, e) ->
  exists S K d q, opens k pf count false claim s e c gK S K d q.
Proof.
  intros HL Hk Hroom Hpf Ho B Hid. destruct (preflight_Ok _ _ _ _ _ _ Hpf) as (Hc & Hcur & S & Es & Hp & Hrd & Hfr & Hown & Hst).
  destruct (identity_Ok _ _ _ _ _ _ B Hid) as (L32 & Bs & _ & Hck & _). rewrite Ho in Hcur.
  destruct (Hk S Es) as [(q & Hq & Hr) _]. rewrite Hrd in Hr. destruct Hr as (p & ep & Hepo & Hep & _).
  destruct (entry_session _ _ _ _ (HL _ _ Hep)) as [Lp Bp]. pose proof (sender_Available _ q Hq) as (_ & Htot & _).
  assert (Hu : is_u64 (pf_start pf)).
  { rewrite Hst, Htot. pose proof Hq as (_ & Hb & Hn & _ & _ & _ & He & _). unfold is_u64, MaxUint64, q_end in *. lia. }
  destruct (fresh_batch s (pf_start pf) count (os_epoch S)) as [Hw (d & M & U)]; try done.
  { rewrite Hepo. by apply ExtensionEpoch_bytes. }
  { rewrite Hepo. by apply ExtensionEpoch_current. }
  exists S, (set_alloc (Datatypes.S (tk_alloc k)) (set_ot S k)), d, q. split; try done; [|congruence|by apply Hroom].
  unfold perform_setup. rewrite Ho, Hcur, Es, Hfr. cbn [negb]. cbv zeta. rewrite Hp, Hrd, Hown.
  cbn [negb bool_decide decide decide_rel option_eq_None_dec]. cbn [mbind res_bind]. rewrite <- Hst, Z.eqb_refl. cbn [negb].
  destruct (checkedIndexEnd (pf_start pf) count) as [en| |]; [|done..]. cbn [mbind res_bind].
  unfold u32. rewrite Z.mod_small by (unfold MaxPrecomputeOTs, OTPoolInitialSize in *; lia). by rewrite M.
Qed.

(** ** The opening message at TEE_T *)

(** A refill finds TEE_T's pool ready, idle and of the sender's epoch. *)
Definition refill_expected (w : world) : Prop :=
  exists sk st, tk_ot (w_k w) = Some sk /\ tt_ot (w_t w) = Some st /\ rs_ready st = true /\ rs_pending st = None /\
    os_epoch sk = rs_epoch st.

Record accepts (t : TEET) (b : PrecomputeBegin) (ini : bool) (d : bytes) (c : nat) (gT : Z) (T0 : TEET) (R : OTReceiverState)
    : Prop := {
  ac_enter : request_enter t (mkToken c gT) (bCount b) d ini (bEpoch b)
    = (T0, Ok (TBegin (rs_id R) (mkToken c gT) b ini (bCount b)));
  ac_ot : tt_ot T0 = Some R;
  ac_pending : rs_pending R = None;
  ac_epoch : rs_epoch R = bEpoch b;
  ac_lease : lease_ok T0 (mkToken c gT) = true;
  ac_ok : receiver_ok (rs_pool R);
  ac_total : rp_total (rs_pool R) = bStartIndex b;
  ac_fits : Z.of_nat (slen (rp_entries (rs_pool R))) + MaxPrecomputeOTs < 2 ^ 63;
}.

Lemma begin_phase b d : MarshalPrecomputeBegin b = Ok d -> PrecomputeRequestPhase d = PrecomputePhaseBegin.
Proof.
  intros E. pose proof (begin_frame_tag b d E) as Ht.
  unfold PrecomputeRequestPhase. rewrite (tag_length d "KOB2") by done. unfold frame_tag in Ht. by rewrite Ht.
Qed.

Lemma begin_checks t b c gT d : batch_wf b -> UnmarshalPrecomputeBegin d = Ok b -> lease_ok t (mkToken c gT) = true ->
  (b' ← UnmarshalPrecomputeBegin d;
   _ ← ValidatePrecomputeCount (bCount b');
   _ ← checkedIndexEnd (bStartIndex b') (bCount b');
   fail_if (negb (bCount b' =? bCount b) || negb (bytes_eqb (bEpoch b') (bEpoch b)))
     "OT precompute begin metadata mismatch";;
   fail_if (negb (lease_ok t (mkToken c gT))) "control generation was superseded";;
   Ok b') = Ok b.
Proof.
  intros Hw U Hl. rewrite U. cbn [mbind res_bind]. rewrite batch_wf_validate by done. cbn [mbind res_bind].
  pose proof (batch_bounds b Hw). rewrite checkedIndexEnd_fits by lia. cbn [mbind res_bind].
  by rewrite Z.eqb_refl, bytes_eqb_refl, Hl.
Qed.

Lemma accepts_initial t b d c gT : batch_wf b -> bStartIndex b = 0 -> MarshalPrecomputeBegin b = Ok d ->
  UnmarshalPrecomputeBegin d = Ok b -> lease_ok t (mkToken c gT) = true ->
  exists T0 R, accepts t b true d c gT T0 R.
Proof.
  intros Hw Hs M U Hl.
  set (t1 := match tt_ot t with Some s => finishReceiverPrecompute (rs_pending s) receiverPrecomputeAborted t | None => t end).
  assert (Hl1 : lease_ok t1 (mkToken c gT) = true).
  { unfold t1. destruct (tt_ot t) as [s|]; [|done]. unfold finishReceiverPrecompute. destruct (rs_pending s) as [p|]; [|done].
    by destruct (tt_outcomes t !! rc_id p). }
  set (R := r_set_epoch (bEpoch b) (NewOTReceiverState (tt_alloc t1))).
  exists (t_set_alloc (S (tt_alloc t1)) (t_set_ot R t1)), R.
  split; try done; [|apply NewReceiverPool_ok].
  unfold request_enter. rewrite (begin_phase b d M). unfold begin_enter. rewrite begin_checks by done.
  fold t1. cbv zeta. cbn [tt_ot t_set_alloc t_set_ot]. fold R. cbn [negb andb].
  change (bool_decide (rs_pending R = None)) with true. change (ReceiverPool_TotalCount (rs_pool R)) with 0.
  by rewrite Hs.
Qed.

Lemma accepts_refill L w b d c gT sk q : winv hw L w -> fits w -> refill_expected w -> tk_ot (w_k w) = Some sk ->
  os_ready sk = true -> sender_repr (os_pool sk) q -> q_end q = bStartIndex b -> bEpoch b = os_epoch sk ->
  batch_wf b -> MarshalPrecomputeBegin b = Ok d -> UnmarshalPrecomputeBegin d = Ok b ->
  lease_ok (w_t w) (mkToken c gT) = true ->
  exists T0 R, accepts (w_t w) b false d c gT T0 R.
Proof.
  intros W [_ Hf] (sk' & st & Es & Et & Rt & Hp & He) Es' Rk Hq Hqe Hbe Hw M U Hl.
  rewrite Es in Es'. injection Es' as ->.
  destruct (one_epoch_pools hw L w sk st) as (q' & Hq' & Hok & Htot & _); [done..|].
  assert (Hse : rp_total (rs_pool st) = bStartIndex b).
  { rewrite <- Htot, <- Hqe. apply (sender_Available _ q) in Hq as (_ & <- & _). by apply (sender_Available _ q') in Hq' as (_ & <- & _). }
  exists (w_t w), st. split; try done; [|congruence|by apply Hf].
  unfold request_enter. rewrite (begin_phase b d M). unfold begin_enter. rewrite begin_checks by done.
  cbv zeta. rewrite Et, Rt, Hp. unfold ReceiverPool_TotalCount. rewrite receiver_total, Hse, Z.eqb_refl by done.
  rewrite Hbe, He, bytes_eqb_refl. done.
Qed.

Lemma opening_goes w count ini claim expected pf c gK gT rng s e r1 S K d q T0 R :
  let b := mkBegin s (pf_start pf) count (os_epoch S) in
  quiet w -> fits w -> perform_preflight (w_k w) count ini claim expected = Ok pf -> is_bytes rng ->
  newSenderPrecomputeIdentity rng (pf_start pf) count ini = Ok (s, e) -> s ∉ w_sessions w -> good_coins r1 ->
  opens (w_k w) pf count ini claim s e c gK S K d q -> accepts (w_t w) b ini d c gT T0 R ->
  goes w (opening pf count ini claim rng r1 gT)
    (at_ (s :: w_sessions w) (kst S K c gK b ini claim (tk_alloc (w_k w)) None None senderPrecomputeAwaitBaseSetup) T0 []
       [TBegin (rs_id R) (mkToken c gT) b ini (bCount b)] [] []).
Proof.
  intros b (Q1 & Q2 & Q3 & Q4) [Hfk Hft] Hpf B Hid Hfresh C1 Hop Hac.
  assert (HfS : forall x ph, kfits (kst S K c gK b ini claim (tk_alloc (w_k w)) x None ph)).
  { intros x ph. apply kst_fits. by apply (op_room _ _ _ _ _ _ _ _ _ _ _ _ _ Hop). }
  eapply goes_cons; [done| | |].
  { cbn [event_ok]. split_and!; [done|by eexists _, _|]. intros s' e' E. rewrite Hid in E. by apply Ok_pair in E as [<- _]. }
  { cbn [step]. unfold open_batch. rewrite Hid, (op_setup _ _ _ _ _ _ _ _ _ _ _ _ _ Hop), Q1, Q2, Q3, Q4. reflexivity. }
  eapply goes_cons; [split; [apply HfS|exact Hft]|done| |].
  { cbn [step]. unfold k_run. cbn [w_kth app opt_ok lookup list_lookup mbind option_bind w_k thread_run].
    rewrite (op_current _ _ _ _ _ _ _ _ _ _ _ _ _ Hop : isCurrentControlConnection (kst S K c gK _ _ _ _ _ _ _) _ = true).
    cbn [negb]. rewrite (count_u32 b (op_wf _ _ _ _ _ _ _ _ _ _ _ _ _ Hop) : u32 count = count). reflexivity. }
  eapply goes_cons; [split; [apply HfS|exact Hft]|done| |].
  { cbn [step]. unfold t_deliver, t_busy. cbn.
    pose proof (ac_enter _ _ _ _ _ _ _ _ Hac) as E. cbn [b bCount bEpoch] in E. rewrite E. reflexivity. }
  done.
Qed.

(** ** Liveness *)

(** What a batch of [count] OTs of the session [s] leaves. *)
Definition batch_done (w' : world) (s : bytes) (total : Z) : Prop :=
  exists sk st, tk_ot (w_k w') = Some sk /\ tt_ot (w_t w') = Some st /\
    os_ready sk = true /\ rs_ready st = true /\ os_pending sk = None /\ rs_pending st = None /\
    os_epoch sk = ExtensionEpoch s /\ rs_epoch st = ExtensionEpoch s /\
    SenderPool_TotalCount (os_pool sk) = total /\ ReceiverPool_TotalCount (rs_pool st) = total.

Lemma kdone_reads S K b ini claim p pool q : tk_signals K !! p = None -> (ini = false -> os_ready S = true) ->
  sender_repr pool q ->
  exists sk, tk_ot (kdone S K b ini claim p pool) = Some sk /\ os_ready sk = true /\ os_pending sk = None /\
    os_epoch sk = ExtensionEpoch (bSessionID b) /\ SenderPool_TotalCount (os_pool sk) = q_end q /\
    tk_signals (kdone S K b ini claim p pool) !! p = Some (Ok ()).
Proof.
  intros Hs Hr Hq. unfold kdone. cbv zeta. set (sk := if ini then _ else _).
  assert (Hsk : os_ready sk = true /\ os_pending sk = None /\ os_epoch sk = ExtensionEpoch (bSessionID b) /\
            sender_repr (os_pool sk) q).
  { unfold sk. destruct ini; [done|]. split_and!; [by apply Hr|done|done|]. cbn [os_pool set_pool].
    unfold SenderPool_ReleaseExtendClaim. destruct (owns pool claim); [by apply sender_repr_claim|done]. }
  destruct Hsk as (? & ? & ? & Hq'). exists sk. unfold signalSenderPrecompute.
  change (tk_signals (publishOTReadyLocked sk K)) with (tk_signals K). rewrite Hs. cbn [tk_ot tk_signals].
  split_and!; try done; [by destruct (sender_Available _ q Hq') as (_ & -> & _)|apply lookup_insert_eq].
Qed.

Lemma tdone_reads R T gT b ini pid base ext l pool : receiver_ok pool ->
  exists st, tt_ot (tdone R T gT b ini pid base ext l pool) = Some st /\ rs_ready st = true /\ rs_pending st = None /\
    rs_epoch st = ExtensionEpoch (bSessionID b) /\ ReceiverPool_TotalCount (rs_pool st) = rp_total pool.
Proof.
  intros Hok. eexists. split; [unfold tdone, finishReceiverPrecompute; case_match; reflexivity|].
  split_and!; try done. unfold ReceiverPool_TotalCount. cbn [rs_pool r_set_ready r_set_pending r_set_epoch r_set_pool].
  by rewrite receiver_total.
Qed.

Lemma exchange_runs w count ini claim expected pf c gK gT rng s e r1 r2 r3 r4 bs m1 br m2 :
  reachable hw w -> fits w -> room (w_k w) -> quiet w ->
  perform_preflight (w_k w) count ini claim expected = Ok pf -> pf_origin pf = mkToken c gK ->
  lease_ok (w_t w) (mkToken c gT) = true -> (ini = false -> refill_expected w) ->
  is_bytes rng -> newSenderPrecomputeIdentity rng (pf_start pf) count ini = Ok (s, e) -> s ∉ w_sessions w ->
  tk_signals (w_k w) !! tk_alloc (w_k w) = None ->
  good_coins r1 -> good_coins r2 -> good_coins r3 -> good_coins r4 ->
  fst (StartBaseOTSender (Some r1) s) = Ok (bs, m1) ->
  fst (StartBaseOTReceiver (Some r2) s m1) = Ok (br, m2) ->
  exists w', goes w (batch_schedule pf count ini claim rng gK gT r1 r2 r3 r4) w' /\ quiet w' /\
    batch_done w' s (pf_start pf + count) /\ tk_signals (w_k w') !! tk_alloc (w_k w) = Some (Ok ()).
Proof.
  intros Hr Hf Hroom Hq Hpf Ho Hl Href B Hid Hfresh Hsig C1 C2 C3 C4 X1 X2.
  destruct (reachable_inv hw w Hr) as [L W]. pose proof (wi_k _ _ _ W) as Hk. pose proof (wi_log _ _ _ W) as HL.
  assert (exists S K d q, opens (w_k w) pf count ini claim s e c gK S K d q) as (S & K & d & q & Hop).
  { destruct ini; [by eapply opens_initial|by eapply opens_refill]. }
  pose proof Hop as [_ Hw U M Hcur Hrep Hst Hown Hrm Hsg Hcase]. set (b := mkBegin s (pf_start pf) count (os_epoch S)) in *.
  assert (exists T0 R, accepts (w_t w) b ini d c gT T0 R) as (T0 & R & Hac).
  { destruct ini; [apply accepts_initial; try done; apply Hcase|]. destruct Hcase as [Es Rk].
    by apply (accepts_refill L w b d c gT S q); auto. }
  pose proof (opening_goes w count ini claim expected pf c gK gT rng s e r1 S K d q T0 R Hq Hf Hpf B Hid Hfresh C1 Hop Hac) as G1.
  destruct Hac as [_ Hot Hpend Hep Hls Hok Htot Hfit].
  destruct (exchange_goes S K R (t_set_alloc (Datatypes.S (tt_alloc T0)) T0) c gK gT b ini claim (tk_alloc (w_k w))
              (tt_alloc T0) (s :: w_sessions w) Hw Hcur Hls eq_refl Hep Hrm Hfit T0 q r1 r2 r3 r4 bs m1 br m2)
    as (pool & rpool & er & rots & sots & G2 & Hrep' & Hok' & Lso & Htot'); try done.
  { intros st. rewrite Hot. by intros [= <-]. }
  pose proof (goes_app _ _ _ _ _ G1 G2) as G. eexists. split; [exact G|].
  split; [done|]. unfold at_. cbn [w_k w_t].
  destruct (kdone_reads S K b ini claim (tk_alloc (w_k w)) pool (q_add q sots)) as (sk & K1 & K2 & K3 & K4 & K5 & K6);
    [by rewrite Hsg|by intros ->; apply Hcase|done|].
  edestruct (tdone_reads R) as (st & T1 & T2 & T3 & T4 & T5); [exact Hok'|].
  split; [|exact K6]. exists sk, st. split_and!; try done; [|by rewrite T5, Htot'].
  rewrite K5. unfold q_end, q_add in *. cbn [q_next q_items]. rewrite length_app. change (bCount b) with count in Lso. lia.
Qed.

(** C8: a batch is completed. From any reachable quiet state in which TEE_K's
    preflight passes, TEE_T holds the same connection and (for a refill) a ready
    idle pool of the same epoch, the schedule of the exchange runs to its end: both
    pools are ready under the epoch of the new session and longer by the batch,
    nothing is pending or under way, and the goroutine that waits for the batch is
    told of its success.  The sender's slice has room for the batch, the address of
    its pending record is new, and the random bytes are good: enough for every
    step, the session they give was not used before, no two seeds of a pair are
    equal, the correlation is not zero and the curve library finds a setup and the
    choices in them ([base_coins]). *)
Theorem precomputation_completes w count ini claim expected pf c gK gT rng r1 r2 r3 r4 :
  reachable hw w -> fits w -> room (w_k w) -> quiet w ->
  perform_preflight (w_k w) count ini claim expected = Ok pf -> pf_origin pf = mkToken c gK ->
  lease_ok (w_t w) (mkToken c gT) = true -> (ini = false -> refill_expected w) ->
  is_bytes rng -> (48 <= length rng)%nat -> take 32 rng ∉ w_sessions w ->
  tk_signals (w_k w) !! tk_alloc (w_k w) = None ->
  good_coins r1 -> good_coins r2 -> good_coins r3 -> good_coins r4 -> base_coins r1 r2 ->
  exists w', run w (batch_schedule pf count ini claim rng gK gT r1 r2 r3 r4) = Some w' /\ reachable hw w' /\ quiet w' /\
    batch_done w' (take 32 rng) (pf_start pf + count) /\ tk_signals (w_k w') !! tk_alloc (w_k w) = Some (Ok ()).
Proof.
  intros Hr Hf Hroom Hq Hpf Ho Hl Href B Lr Hfresh Hsig C1 C2 C3 C4 BC12. set (s := take 32 rng) in *.
  destruct (identity_starts rng (pf_start pf) count ini B Lr (preflight_end _ _ _ _ _ _ Hpf)) as [e Hid]. fold s in Hid.
  assert (Ls : length s = 32%nat) by (unfold s; rewrite length_take; lia).
  destruct (base_ot_starts r1 r2 s Ls (proj1 C2) (proj2 (proj2 C1)) BC12) as (bs & m1 & br & m2 & X1 & X2).
  destruct (exchange_runs w count ini claim expected pf c gK gT rng s e r1 r2 r3 r4 bs m1 br m2 Hr Hf Hroom Hq Hpf Ho Hl
              Href B Hid Hfresh Hsig C1 C2 C3 C4 X1 X2) as (w' & [G Hreach] & H).
  exists w'. split; [exact G|]. split; [by apply Hreach|exact H].
Qed.

End Live.

(** ** A first batch on a new connection *)

Definition demo_coinsS : bytes := demo_rngS ++ zeros (90 * 100).
Definition demo_coinsR : bytes := demo_rngR ++ zeros (130 * 100).

Lemma demo_coins_good : @good_coins plain_co demo_coinsS /\ @good_coins plain_co demo_coinsR.
Proof.
  assert (H : forall r, is_bytes r -> (12532 <=? Z.of_nat (length r)) = true -> @good_coins plain_co r).
  { intros r B L%Z.leb_le. split_and!; [done| |].
    - change MaxPrecomputeOTs with 100000. lia.
    - intros s r' E. apply pair_equal_spec in E as [_ <-]. exact B. }
  split; (apply H; [apply Forall_app; split; [|apply zeros_bytes]|vm_compute; reflexivity]);
    [apply demo_rngS_bytes|apply demo_rngR_bytes].
Qed.

Lemma demo_coins_seeds : read_seeds BaseOTCount demo_coinsS = (Ok demo_seeds, zeros (90 * 100)).
Proof. vm_compute. reflexivity. Qed.

Lemma demo_coins_sender :
  fst (@StartBaseOTSender plain_co (Some demo_coinsS) demo_session) = Ok (demo_ss, demo_m1).
Proof.
  unfold StartBaseOTSender. cbn [GenerateCOSenderSetup plain_co]. rewrite demo_coins_seeds.
  cbn [fst setup_point MarshalCompressed plain_co].
  rewrite (pad_to_exact compressedP256PointSize (1 :: zeros 32)) by reflexivity. reflexivity.
Qed.

(** The base-OT receiver draws sixteen bytes; more of them change nothing. *)
Lemma StartBaseOTReceiver_app r r' session m x : length r = 16%nat ->
  fst (@StartBaseOTReceiver plain_co (Some r) session m) = Ok x ->
  fst (@StartBaseOTReceiver plain_co (Some (r ++ r')) session m) = Ok x.
Proof.
  intros L. assert (E1 : ReadFull r 16 = Some (r, [])).
  { unfold ReadFull. rewrite L. cbn [Nat.leb]. by rewrite take_ge, drop_ge by lia. }
  assert (E2 : ReadFull (r ++ r') 16 = Some (r, r')).
  { unfold ReadFull. rewrite (proj2 (Nat.leb_le 16 _)) by (rewrite length_app; lia).
    by rewrite take_app_length', drop_app_length' by done. }
  unfold StartBaseOTReceiver. rewrite E1, E2. intros E. destruct (_ || _); [done|]. destruct (negb _); [done|].
  destruct (UnmarshalCompressed (drop 36 m)); [|done]. destruct (label_equal _ _); [done|].
  cbn [BuildCOChoices plain_co] in *. destruct (_ <? _)%nat; done.
Qed.

Lemma demo_coins_receiver :
  fst (@StartBaseOTReceiver plain_co (Some demo_coinsR) demo_session demo_m1) = Ok (demo_rs, demo_m2).
Proof. exact (StartBaseOTReceiver_app demo_rngR (zeros (130 * 100)) demo_session demo_m1 (demo_rs, demo_m2) (length_replicate 16 170) demo_start_receiver). Qed.

(** Both enclaves have just connected. *)
Definition connected : @world plain_co :=
  @mkWorld plain_co (@establishControl plain_co 0 (@NewTEEK plain_co)) (@activateControlConnection plain_co (@NewTEET plain_co) 0) [] [] [] [] [].

Lemma connected_reachable : @reachable const_cipher const_sha plain_co true connected.
Proof.
  assert (F : forall w, tk_ot (w_k w) = None -> tt_ot (w_t w) = None -> @fits plain_co w).
  { intros w E1 E2. split; intros s E; congruence. }
  assert (R : @reachable const_cipher const_sha plain_co true (with_k (establishControl 0 NewTEEK) initial_world)).
  { eapply (reach_step true initial_world (KEstablish 0)); [apply reach_initial|by apply F|exact I|reflexivity]. }
  eapply (reach_step true _ (TActivate 0)); [exact R|by apply F|reflexivity|reflexivity].
Qed.

Definition demo_pf : preflight := mkPreflight (mkToken 0 1) 0 true.
Definition demo_id : bytes * bytes :=
  match newSenderPrecomputeIdentity (zeros 48) 0 700 true with Ok x => x | _ => ([], []) end.

Lemma demo_identity : newSenderPrecomputeIdentity (zeros 48) 0 700 true = Ok (demo_session, snd demo_id).
Proof. vm_compute. reflexivity. Qed.

(** The hypotheses of a run of [batch_schedule], in their order. *)
Ltac demo_hypotheses :=
  [> exact connected_reachable | split; intros s E; discriminate E | intros s E; discriminate E | split_and!; reflexivity
   | reflexivity | reflexivity | reflexivity | intros E; discriminate E | apply zeros_bytes | exact demo_identity
   | apply not_elem_of_nil | reflexivity | apply demo_coins_good | apply demo_coins_good | apply demo_coins_good
   | apply demo_coins_good | exact demo_coins_sender | exact demo_coins_receiver | ].

Lemma demo_base_coins : @base_coins plain_co demo_coinsS demo_coinsR.
Proof.
  exists tt, demo_coinsS, (delta_choices (take 16 demo_coinsR)), (delta_choices (take 16 demo_coinsR)), (drop 16 demo_coinsR).
  split; [reflexivity|]. split; [|split; [apply Nat.leb_le; vm_compute; reflexivity|split; [vm_compute; discriminate|reflexivity]]].
  split; [apply Nat.leb_le; vm_compute; reflexivity|]. intros i Hi. apply (bool_decide_unpack _).
  assert (F : Forall (fun i => bool_decide (slice demo_coinsS (32 * i) (32 * i + 16) <> slice demo_coinsS (32 * i + 16) (32 * i + 32))) (seq 0 BaseOTCount)).
  { apply (bool_decide_unpack _). vm_compute. exact I. }
  rewrite Forall_forall in F. apply F. apply elem_of_seq. lia.
Qed.

Lemma precomputation_completes_witness :
  exists w', @run const_cipher const_sha plain_co true connected
      (batch_schedule demo_pf 700 true None (zeros 48) 1 1 demo_coinsS demo_coinsR demo_coinsS demo_coinsS) = Some w' /\
    quiet w' /\ batch_done w' demo_session 700.
Proof.
  destruct (@precomputation_completes const_cipher const_sha plain_co plain_co_laws true connected 700 true None None demo_pf 0 1 1
    (zeros 48) demo_coinsS demo_coinsR demo_coinsS demo_coinsS)
    as (w' & R & _ & Q & D & _);
    [exact connected_reachable|split; intros s E; discriminate E|intros s E; discriminate E|split_and!; reflexivity
    |reflexivity|reflexivity|reflexivity|intros E; discriminate E|apply zeros_bytes|unfold zeros; rewrite length_replicate; lia
    |apply not_elem_of_nil|reflexivity|apply demo_coins_good|apply demo_coins_good|apply demo_coins_good|apply demo_coins_good
    |exact demo_base_coins|].
  exists w'. split; [exact R|]. split; [exact Q|exact D].
Defined.

Lemma demo_completed : exists w', @reachable const_cipher const_sha plain_co true w' /\ batch_done w' demo_session 700.
Proof.
  destruct (@exchange_runs const_cipher const_sha plain_co plain_co_laws true connected 700 true None None demo_pf 0 1 1
    (zeros 48) demo_session (snd demo_id) demo_coinsS demo_coinsR demo_coinsS demo_coinsS demo_ss demo_m1 demo_rs demo_m2)
    as (w' & [_ G] & _ & D & _); demo_hypotheses.
  exists w'. split; [exact (G connected_reachable)|exact D].
Qed.

Lemma equal_epochs_pair_the_pools_witness :
  exists (w : @world plain_co) sk st q, tk_ot (w_k w) = Some sk /\ tt_ot (w_t w) = Some st /\
    SenderPool_TotalCount (os_pool sk) = 700 /\ sender_repr (os_pool sk) q /\
    forall i s t, q_items q !! i = Some s -> rp_free (rs_pool st) (q_next q + Z.of_nat i) = Some t -> ot_pair s t.
Proof.
  destruct demo_completed as (w & Hr & sk & st & Hk & Ht & Rk & Rt & _ & _ & E1 & E2 & T1 & _).
  destruct (@equal_epochs_pair_the_pools const_cipher const_sha plain_co plain_co_laws true w sk st Hr Hk Ht Rk Rt
              (eq_trans E1 (eq_sym E2))) as (q & Hq & _ & _ & Hp).
  exists w, sk, st, q. split; [exact Hk|]. split; [exact Ht|]. split; [exact T1|]. split; [exact Hq|exact Hp].
Defined.
