(* ===== verification/Receipt.v ===== *)
(** * Execution receipts ([tokenhive/proof], [tokenhive/platform])

    A receipt is the statement a TEE signs after running a job: what was asked,
    the digest of what came back, and the attested key that signs.  This file
    holds the streaming response digest ([proof/stream.go]), the receipt with
    its validation, signing and verification ([proof/receipt.go]), and the
    domain-separated signature it rests on ([platform/platform.go]).

    The CBOR encoder (fxamacker/cbor behind [internal/canonical]) and ECDSA are
    parameters: the classes [Cbor] and [Ecdsa]. *)

From S2P Require Import Prelude Bytes Crypto.

(** ** Data *)

Definition VersionV1 : Z := 1.
Definition ReceiptSigningDomain : string := "TokenHive.ExecutionReceipt.v1".
Definition JobIDLength : nat := 16.
Definition JobSpecHashLength : nat := 32.
Definition StreamHashLength : nat := 32.
Definition EvidenceHashLength : nat := 32.
Definition PolicyHashLength : nat := 32.
Definition MaxApplicationIDSize : nat := 256.

(** [CompletionState], a [uint8]. *)
Definition CompletionUnspecified : Z := 0.
Definition CompletionComplete : Z := 1.
Definition CompletionTruncated : Z := 2.
Definition CompletionFailed : Z := 3.

Definition completion_Valid (c : Z) : bool :=
  (c =? CompletionComplete) || (c =? CompletionTruncated) || (c =? CompletionFailed).

Record AttestationRef := mkAttestationRef {
  Platform : string;
  AttestationType : string;
  ApplicationID : string;
  KeyID : bytes;
  PublicKeyDER : bytes;
  EvidenceHash : bytes;
  Evidence : bytes;
}.

Record Receipt := mkReceipt {
  Version : Z;
  JobID : bytes;
  JobSpecHash : bytes;
  Provider : string;
  Method : string;
  Host : string;
  Path : string;
  StatusCode : Z;
  StreamHash : bytes;
  ChunkCount : Z;
  ResponseBytes : Z;
  Completion : Z;
  StartedAt : Z;
  FinishedAt : Z;
  Attestation : option AttestationRef;
  PolicyHash : bytes;
  RequestBytes : Z;
  ProviderSeq : Z;
  ResponseHeadersHash : bytes;
}.

Record Signature := mkSignature { sigAlgorithm : string; sigKeyID : bytes; sigValue : bytes }.

Record SignedReceipt := mkSigned { sReceipt : Receipt; sSignature : Signature }.

Record Identity := mkIdentity {
  idPlatform : string;
  idAttestationType : string;
  idApplicationID : string;
  idEvidence : bytes;
  idEvidenceHash : bytes;
  idPublicKeyDER : bytes;
  idKeyID : bytes;
}.

(** ** The parameters *)

(** [Encoder.Marshal] of a receipt. *)
Class Cbor := { cbor_receipt : Receipt -> res bytes }.

(** What [x509.ParsePKIXPublicKey] can return, as far as the code looks at it. *)
Inductive ParsedKey (K : Type) := KeyP256 (k : K) | KeyOtherCurve | KeyNotECDSA.
Arguments KeyP256 {K} k.
Arguments KeyOtherCurve {K}.
Arguments KeyNotECDSA {K}.

Class Ecdsa := {
  PubKey : Type;
  PrivKey : Type;
  ParsePKIXPublicKey : bytes -> res (ParsedKey PubKey);
  VerifyASN1 : PubKey -> bytes -> bytes -> bool;
  SignASN1 : PrivKey -> bytes -> res bytes;
}.

(** The documented contract of [crypto/ecdsa] and [crypto/x509]: a signature
    made with a key verifies under the public key its encoding parses to. *)
Class EcdsaLaws `{Ecdsa} := {
  marshalPKIX : PrivKey -> bytes;
  public : PrivKey -> PubKey;
  parse_marshal : forall k, ParsePKIXPublicKey (marshalPKIX k) = Ok (KeyP256 (public k));
  verify_sign : forall k d v, SignASN1 k d = Ok v -> VerifyASN1 (public k) d v = true;
}.

Definition SignatureAlgorithmECDSAP256SHA256ASN1 : string := "ecdsa-p256-sha256-asn1".
Definition maxSigningDomainLength : nat := Z.to_nat 65535.
Definition ResponseStreamDomain : string := "TokenHive.Response.v1".

Section Ops.
Context {SH : Sha256} {CB : Cbor} {EC : Ecdsa}.

(** ** The streaming response digest

    SHA-256 is sequential: the state of a [hash.Hash] is the string written
    to it so far. *)

Record StreamingHasher := mkHasher { h_jobID : bytes; h_data : bytes; h_chunks : Z; h_bytes : Z }.

Definition hasher_Reset (s : StreamingHasher) : StreamingHasher :=
  mkHasher (h_jobID s) (str ResponseStreamDomain ++ h_jobID s) 0 0.

Definition NewStreamingHasher (jobID : bytes) : StreamingHasher :=
  hasher_Reset (mkHasher jobID [] 0 0).

Definition hasher_Write (s : StreamingHasher) (p : bytes) : StreamingHasher :=
  mkHasher (h_jobID s) (h_data s ++ p) (h_chunks s) (add64 (h_bytes s) (Z.of_nat (length p))).

Definition hasher_WriteChunk (s : StreamingHasher) (p : bytes) : StreamingHasher :=
  let s := hasher_Write s p in mkHasher (h_jobID s) (h_data s) (add64 (h_chunks s) 1) (h_bytes s).

Definition hasher_Sum (s : StreamingHasher) : bytes := sha256 (h_data s).

Definition HashResponseStream (jobID : bytes) (chunks : list bytes) : bytes :=
  hasher_Sum (fold_left hasher_WriteChunk chunks (NewStreamingHasher jobID)).

Definition MatchesStream (r : Receipt) (chunks : list bytes) : bool :=
  if negb (length (StreamHash r) =? StreamHashLength)%nat then false
  else bytes_eqb (HashResponseStream (JobID r) chunks) (StreamHash r).

(** ** Domain-separated signatures *)

(** The string [SigningDigest] hashes. *)
Definition signing_preimage (domain : string) (payload : bytes) : bytes :=
  str "TokenHive.AttestedSignature.v1"
    ++ be_put 2 (Z.of_nat (String.length domain)) ++ str domain
    ++ be_put 8 (Z.of_nat (length payload)) ++ payload.

Definition SigningDigest (domain : string) (payload : bytes) : res bytes :=
  fail_if ((String.length domain =? 0)%nat || (maxSigningDomainLength <? String.length domain)%nat)
    "invalid signing domain";;
  Ok (sha256 (signing_preimage domain payload)).

Definition VerifySignature (identity : Identity) (domain : string) (payload : bytes) (sig : Signature)
    : res unit :=
  fail_if (negb (String.eqb (sigAlgorithm sig) SignatureAlgorithmECDSAP256SHA256ASN1))
    "unsupported signature algorithm";;
  fail_if (negb (bytes_eqb (sha256 (idPublicKeyDER identity)) (idKeyID identity)))
    "identity key ID does not match public key";;
  fail_if (negb (bytes_eqb (sigKeyID sig) (idKeyID identity)))
    "signature key ID does not match identity";;
  parsed ← ParsePKIXPublicKey (idPublicKeyDER identity);
  match parsed with
  | KeyNotECDSA => Err "attested public key has the wrong type, want ECDSA"
  | KeyOtherCurve => Err "attested public key uses another curve, want P-256"
  | KeyP256 publicKey =>
      digest ← SigningDigest domain payload;
      fail_if (negb (VerifyASN1 publicKey digest (sigValue sig))) "invalid attested signature";;
      Ok ()
  end.

(** ** Validation *)

Definition validateAttestation (ref : option AttestationRef) : res unit :=
  match ref with
  | None => Err "receipt has no attestation reference"
  | Some ref =>
      fail_if (String.eqb (Platform ref) "") "invalid attestation reference: empty platform";;
      fail_if (String.eqb (AttestationType ref) "") "invalid attestation reference: empty attestation type";;
      fail_if (String.eqb (ApplicationID ref) "" || (MaxApplicationIDSize <? String.length (ApplicationID ref))%nat)
        "invalid attestation reference: invalid application ID";;
      fail_if (negb (length (KeyID ref) =? 32)%nat) "invalid attestation reference: key ID length";;
      fail_if ((length (PublicKeyDER ref) =? 0)%nat) "invalid attestation reference: empty public key";;
      fail_if (negb (length (EvidenceHash ref) =? EvidenceHashLength)%nat)
        "invalid attestation reference: evidence hash length";;
      fail_if (negb (bytes_eqb (sha256 (PublicKeyDER ref)) (KeyID ref)))
        "invalid attestation reference: key ID does not match the public key";;
      Ok ()
  end.

Definition receipt_Validate (r : Receipt) : res unit :=
  fail_if (negb (Version r =? VersionV1)) "unsupported receipt version";;
  fail_if (negb (length (JobID r) =? JobIDLength)%nat) "invalid job ID";;
  fail_if (negb (length (JobSpecHash r) =? JobSpecHashLength)%nat) "invalid job spec hash";;
  fail_if (negb (length (StreamHash r) =? StreamHashLength)%nat) "invalid response stream hash";;
  fail_if (negb (length (ResponseHeadersHash r) =? 0)%nat
           && negb (length (ResponseHeadersHash r) =? StreamHashLength)%nat) "invalid response headers hash";;
  fail_if (negb (length (PolicyHash r) =? PolicyHashLength)%nat) "invalid policy hash";;
  fail_if (negb (completion_Valid (Completion r))) "invalid completion state";;
  fail_if ((StartedAt r <=? 0) || (FinishedAt r <? StartedAt r)) "invalid time range";;
  validateAttestation (Attestation r).

Definition receipt_Identity (r : Receipt) : res Identity :=
  _ ← validateAttestation (Attestation r);
  match Attestation r with
  | None => Panic
  | Some a =>
      Ok (mkIdentity (Platform a) (AttestationType a) (ApplicationID a) (Evidence a)
            (pad_to 32 (EvidenceHash a)) (PublicKeyDER a) (pad_to 32 (KeyID a)))
  end.

(** ** Signing

    The interface [platform.Epoch], and its implementation over an ECDSA key
    as [platform/simulated] gives it. *)

Record Epoch := mkEpoch {
  ep_Identity : Identity;
  ep_Sign : string -> bytes -> res Signature;
}.

Record Signer := mkSigner { s_epoch : option Epoch; IncludeEvidence : bool }.

Definition epoch_Sign (priv : PrivKey) (keyID : bytes) (domain : string) (payload : bytes) : res Signature :=
  digest ← SigningDigest domain payload;
  value ← SignASN1 priv digest;
  Ok (mkSignature SignatureAlgorithmECDSAP256SHA256ASN1 keyID value).

Definition with_attestation (r : Receipt) (a : AttestationRef) : Receipt :=
  mkReceipt (Version r) (JobID r) (JobSpecHash r) (Provider r) (Method r) (Host r) (Path r) (StatusCode r)
    (StreamHash r) (ChunkCount r) (ResponseBytes r) (Completion r) (StartedAt r) (FinishedAt r) (Some a)
    (PolicyHash r) (RequestBytes r) (ProviderSeq r) (ResponseHeadersHash r).

Definition signer_Sign (s : option Signer) (receipt : Receipt) : res SignedReceipt :=
  match s with
  | Some (mkSigner (Some epoch) withEvidence) =>
      let identity := ep_Identity epoch in
      let receipt := with_attestation receipt
        (mkAttestationRef (idPlatform identity) (idAttestationType identity) (idApplicationID identity)
           (idKeyID identity) (idPublicKeyDER identity) (idEvidenceHash identity)
           (if withEvidence then idEvidence identity else [])) in
      _ ← receipt_Validate receipt;
      encoded ← cbor_receipt receipt;
      signature ← ep_Sign epoch ReceiptSigningDomain encoded;
      Ok (mkSigned receipt signature)
  | _ => Err "no attested epoch available for signing"
  end.

(** ** Verification *)

Record VerifyOptions := mkOptions {
  o_Now : Z;                       (* the zero time means the clock *)
  o_AllowedPlatforms : list string;
  o_RequireEvidence : bool;
  o_MaxAge : Z;
}.

Definition receipt_Verify (clock : Z) (signed : SignedReceipt) (opts : VerifyOptions) : res unit :=
  let r := sReceipt signed in
  _ ← receipt_Validate r;
  match Attestation r with
  | None => Panic
  | Some a =>
      fail_if (o_RequireEvidence opts && (length (Evidence a) =? 0)%nat) "attestation evidence is required";;
      fail_if (negb (length (o_AllowedPlatforms opts) =? 0)%nat
               && negb (existsb (String.eqb (Platform a)) (o_AllowedPlatforms opts)))
        "attestation platform is not allowed";;
      let now := if o_Now opts =? 0 then clock else o_Now opts in
      fail_if ((0 <? o_MaxAge opts) && (o_MaxAge opts <? time_Sub now (time_Unix (FinishedAt r))))
        "receipt is older than the allowed window";;
      identity ← receipt_Identity r;
      fail_if (negb (bytes_eqb (sigKeyID (sSignature signed)) (idKeyID identity)))
        "attestation does not match the signing key";;
      encoded ← cbor_receipt r;
      VerifySignature identity ReceiptSigningDomain encoded (sSignature signed)
  end.
End Ops.

(** ** The response digest binds the job and the bytes, not the framing *)

(** The two strings given are different and have the same SHA-256 digest.  (That some two strings have is a fact of
    counting; a statement below names the two that would have to.) *)
Definition collides {SH : Sha256} (x y : bytes) : Prop := x <> y /\ sha256 x = sha256 y.

(** What the stream digest of a job hashes. *)
Definition stream_preimage (jobID : bytes) (chunks : list bytes) : bytes := str ResponseStreamDomain ++ jobID ++ concat chunks.

Section Facts.
Context {SH : Sha256} {CB : Cbor} {EC : Ecdsa}.

Lemma sha256_eq_or_collides x y : sha256 x = sha256 y -> x = y \/ collides x y.
Proof. intros E. destruct (decide (x = y)); [by left|by right]. Qed.

Lemma hasher_run chunks s :
  let s' := fold_left hasher_WriteChunk chunks s in
  h_data s' = h_data s ++ concat chunks
  /\ h_chunks s' = fold_left (fun n _ => add64 n 1) chunks (h_chunks s)
  /\ h_bytes s' = fold_left (fun n c => add64 n (Z.of_nat (length c))) chunks (h_bytes s).
Proof.
  revert s. induction chunks as [|c cs IH]; intros s; cbn [fold_left concat].
  { by rewrite app_nil_r. }
  destruct (IH (hasher_WriteChunk s c)) as (D & N & B). rewrite D, N, B. split; [|done].
  cbn. by rewrite <- app_assoc.
Qed.

Lemma HashResponseStream_concat jobID chunks :
  HashResponseStream jobID chunks = sha256 (str ResponseStreamDomain ++ jobID ++ concat chunks).
Proof.
  unfold HashResponseStream, hasher_Sum.
  destruct (hasher_run chunks (NewStreamingHasher jobID)) as (D & _). rewrite D. cbn [h_data NewStreamingHasher
    hasher_Reset h_jobID]. by rewrite <- app_assoc.
Qed.

Lemma MatchesStream_spec r chunks :
  MatchesStream r chunks = true <->
  length (StreamHash r) = 32%nat /\ sha256 (str ResponseStreamDomain ++ JobID r ++ concat chunks) = StreamHash r.
Proof.
  unfold MatchesStream. rewrite HashResponseStream_concat.
  destruct (Nat.eqb_spec (length (StreamHash r)) StreamHashLength) as [L|L]; cbn [negb].
  - rewrite bytes_eqb_spec. unfold StreamHashLength in L. tauto.
  - split; [done|]. intros [? _]. done.
Qed.

(** The stream digest of a receipt does not depend on how the response was cut into chunks, and it binds
    the job and the bytes: two receipts of the same digest, each matching its own stream, are for the same
    job and the same response bytes, unless these very streams collide under SHA-256. *)
Theorem stream_hash_binds_job_and_bytes r1 r2 c1 c2 :
  length (JobID r1) = JobIDLength -> length (JobID r2) = JobIDLength ->
  MatchesStream r1 c1 = true ->
  (forall c, concat c = concat c1 -> MatchesStream r1 c = true)
  /\ (StreamHash r2 = StreamHash r1 -> MatchesStream r2 c2 = true ->
      (JobID r2 = JobID r1 /\ concat c2 = concat c1) \/ collides (stream_preimage (JobID r2) c2) (stream_preimage (JobID r1) c1)).
Proof.
  intros L1 L2 M1. apply MatchesStream_spec in M1 as [H1 E1]. split.
  - intros c E. apply MatchesStream_spec. by rewrite E.
  - intros ES M2. apply MatchesStream_spec in M2 as [_ E2]. rewrite ES, <- E1 in E2.
    destruct (sha256_eq_or_collides _ _ E2) as [E|C]; [left|by right].
    apply (inj (app _)) in E. apply app_inj_1 in E; [done|congruence].
Qed.

(** ** Domain separation *)

Lemma maxDomain : Z.of_nat maxSigningDomainLength = 65535.
Proof. apply Z2Nat.id. done. Qed.

Lemma be_put_inj n x y :
  0 <= x < 256 ^ Z.of_nat n -> 0 <= y < 256 ^ Z.of_nat n -> be_put n x = be_put n y -> x = y.
Proof.
  intros Hx Hy E. apply (f_equal be_get) in E. by rewrite !be_get_put in E.
Qed.

Lemma signing_preimage_inj d1 d2 p1 p2 :
  Z.of_nat (String.length d1) < 2 ^ 16 -> Z.of_nat (String.length d2) < 2 ^ 16 ->
  signing_preimage d1 p1 = signing_preimage d2 p2 -> d1 = d2 /\ p1 = p2.
Proof.
  intros B1 B2 E. unfold signing_preimage in E. apply (inj (app _)) in E.
  apply app_inj_1 in E as [El E]; [|by rewrite !length_be_put].
  apply be_put_inj in El; [|change (256 ^ Z.of_nat 2) with (2 ^ 16); lia..].
  apply app_inj_1 in E as [Ed E]; [|rewrite !length_str; lia].
  apply app_inj_1 in E as [_ Ep]; [|by rewrite !length_be_put].
  split; [by apply (inj str)|done].
Qed.

(** Signing digests are domain separated: the same digest for two (domain, payload) pairs means the same
    domain and the same payload, unless these very preimages collide under SHA-256. *)
Theorem signing_digest_separates_domains d1 d2 p1 p2 x :
  SigningDigest d1 p1 = Ok x -> SigningDigest d2 p2 = Ok x ->
  (d1 = d2 /\ p1 = p2) \/ collides (signing_preimage d1 p1) (signing_preimage d2 p2).
Proof.
  unfold SigningDigest. intros E1 E2. inv_guard E1. inv_guard E2.
  apply orb_false_iff in Hguard as [_ G1]. apply orb_false_iff in Hguard0 as [_ G2].
  apply Nat.ltb_ge in G1, G2. pose proof maxDomain.
  apply (inj Ok) in E1. apply (inj Ok) in E2. rewrite <- E2 in E1.
  destruct (sha256_eq_or_collides _ _ E1) as [E|C]; [left|by right].
  apply signing_preimage_inj in E; [done|lia..].
Qed.

(** ** What an accepted receipt proves *)

Lemma validateAttestation_spec ref :
  validateAttestation ref = Ok () ->
  exists a, ref = Some a /\ length (KeyID a) = 32%nat /\ length (EvidenceHash a) = 32%nat
    /\ sha256 (PublicKeyDER a) = KeyID a.
Proof.
  destruct ref as [a|]; [|done]. cbn. intros E. do 7 inv_guard E. exists a.
  norm_guards. by split_and!.
Qed.

Lemma receipt_Identity_spec r i :
  receipt_Identity r = Ok i ->
  exists a, Attestation r = Some a /\ idPublicKeyDER i = PublicKeyDER a /\ idKeyID i = KeyID a
    /\ idPlatform i = Platform a /\ idEvidenceHash i = EvidenceHash a.
Proof.
  unfold receipt_Identity. intros E. inv_bind E. destruct a.
  destruct (validateAttestation_spec _ E0) as (a & Ea & Lk & Le & _). rewrite Ea in E.
  apply (inj Ok) in E as <-. exists a. cbn. by rewrite !pad_to_exact.
Qed.

(** The facts that make a signed receipt a proof. *)
Record attested (now : Z) (opts : VerifyOptions) (s : SignedReceipt) (a : AttestationRef) : Prop := {
  at_valid : receipt_Validate (sReceipt s) = Ok ();
  at_ref : Attestation (sReceipt s) = Some a;
  at_platform : o_AllowedPlatforms opts = [] \/ In (Platform a) (o_AllowedPlatforms opts);
  at_evidence : o_RequireEvidence opts = true -> Evidence a <> [];
  at_fresh : 0 < o_MaxAge opts -> time_Sub now (time_Unix (FinishedAt (sReceipt s))) <= o_MaxAge opts;
  at_key : sha256 (PublicKeyDER a) = KeyID a /\ sigKeyID (sSignature s) = KeyID a;
  at_signed : exists k payload,
    ParsePKIXPublicKey (PublicKeyDER a) = Ok (KeyP256 k) /\ cbor_receipt (sReceipt s) = Ok payload
    /\ VerifyASN1 k (sha256 (signing_preimage ReceiptSigningDomain payload)) (sigValue (sSignature s)) = true;
}.

Lemma VerifySignature_spec i domain payload sig :
  VerifySignature i domain payload sig = Ok () ->
  sha256 (idPublicKeyDER i) = idKeyID i /\ sigKeyID sig = idKeyID i
  /\ exists k, ParsePKIXPublicKey (idPublicKeyDER i) = Ok (KeyP256 k)
       /\ VerifyASN1 k (sha256 (signing_preimage domain payload)) (sigValue sig) = true.
Proof.
  unfold VerifySignature. intros E. do 3 inv_guard E. inv_bind E. destruct a as [k| |]; [|done..].
  inv_bind E. unfold SigningDigest in E1. inv_guard E1. apply (inj Ok) in E1 as <-. inv_guard E.
  norm_guards.
  split; [done|]. split; [done|]. by exists k.
Qed.

(** A receipt the verifier accepts is structurally valid, fresh, from an allowed platform, and carries a
    signature, under the receipt domain and over its own canonical encoding, that verifies with the P-256 key
    the receipt's attestation reference names. *)
Theorem accepted_receipt_is_attested clock s opts :
  receipt_Verify clock s opts = Ok () ->
  exists a, attested (if o_Now opts =? 0 then clock else o_Now opts) opts s a.
Proof.
  unfold receipt_Verify. intros E. inv_bind E. destruct a. destruct (Attestation (sReceipt s)) as [a|] eqn:Ea; [|done].
  do 3 inv_guard E. inv_bind E. destruct (receipt_Identity_spec _ _ E1) as (a' & Ea' & Ep & Ek & _).
  rewrite Ea in Ea'. apply (inj Some) in Ea' as <-.
  inv_guard E. inv_bind E. destruct (VerifySignature_spec _ _ _ _ E) as (Hk & Hs & k & Hp & Hv).
  rewrite Ek, Ep in *. exists a. apply andb_false_iff in Hguard, Hguard0, Hguard1. split; [done..| | | | |].
  - destruct Hguard0 as [G|G]; [left|right].
    + apply negb_false_iff, Nat.eqb_eq in G. by apply nil_length_inv.
    + apply negb_false_iff, existsb_exists in G as (p & Hin & Epl). by apply String.eqb_eq in Epl as ->.
  - intros Hr. rewrite Hr in Hguard. destruct Hguard as [|G]; [done|]. by destruct (Evidence a).
  - intros Hm. destruct Hguard1 as [G|G]; [apply Z.ltb_ge in G; lia|by apply Z.ltb_ge in G].
  - done.
  - exists k, a1. done.
Qed.

(** ** What a TEE signs, a verifier accepts *)

(** An epoch whose identity and signing key belong together. *)
Definition epoch_of `{!EcdsaLaws} (k : PrivKey) (platform kind app : string) (evidence evidenceHash : bytes)
    : Epoch :=
  let der := marshalPKIX k in
  mkEpoch (mkIdentity platform kind app evidence evidenceHash der (sha256 der))
    (epoch_Sign k (sha256 der)).

(** A receipt signed by an attested epoch verifies: whatever the signer emits, a verifier whose policy
    allows the epoch's platform and whose age window covers it accepts, and signing changes nothing of the
    receipt but its attestation reference. *)
Theorem signed_receipts_verify `{!EcdsaLaws} k platform kind app evidence evidenceHash incl receipt clock opts sr :
  signer_Sign (Some (mkSigner (Some (epoch_of k platform kind app evidence evidenceHash)) incl)) receipt = Ok sr ->
  (o_AllowedPlatforms opts = [] \/ In platform (o_AllowedPlatforms opts)) ->
  (o_RequireEvidence opts = true -> incl = true /\ evidence <> []) ->
  (0 < o_MaxAge opts ->
   time_Sub (if o_Now opts =? 0 then clock else o_Now opts) (time_Unix (FinishedAt receipt)) <= o_MaxAge opts) ->
  receipt_Verify clock sr opts = Ok ()
  /\ exists a, sReceipt sr = with_attestation receipt a /\ KeyID a = sha256 (marshalPKIX k).
Proof.
  intros E Hplat Hev Hage. cbn in E. inv_bind E. destruct a. inv_bind E. inv_bind E. apply (inj Ok) in E as <-.
  unfold epoch_Sign in E2. inv_bind E2. inv_bind E2. apply (inj Ok) in E2 as <-.
  unfold receipt_Verify. cbn [sReceipt sSignature sigKeyID]. rewrite E0. cbn [mbind res_bind].
  cbn [Attestation with_attestation Evidence Platform FinishedAt].
  split; [|eexists; done].
  assert (Hva : validateAttestation (Some (mkAttestationRef platform kind app (sha256 (marshalPKIX k))
    (marshalPKIX k) evidenceHash (if incl then evidence else []))) = Ok ()).
  { unfold receipt_Validate in E0. do 8 inv_guard E0. exact E0. }
  unfold receipt_Identity. cbn [Attestation with_attestation]. rewrite Hva. cbn [mbind res_bind].
  rewrite E1. cbn [Platform AttestationType ApplicationID Evidence EvidenceHash PublicKeyDER KeyID
    mbind res_bind idKeyID]. rewrite pad_to_exact by apply sha256_length. rewrite bytes_eqb_refl.
  replace (o_RequireEvidence opts && _) with false; [|symmetry; apply andb_false_iff].
  2: { destruct (o_RequireEvidence opts); [right|by left]. destruct (Hev eq_refl) as [-> ?]. by destruct evidence. }
  replace (negb (length (o_AllowedPlatforms opts) =? 0)%nat && _) with false; [|symmetry; apply andb_false_iff].
  2: { destruct Hplat as [->|Hin]; [by left|right]. apply negb_false_iff, existsb_exists. exists platform.
       by rewrite String.eqb_refl. }
  replace ((0 <? o_MaxAge opts) && _) with false; [|symmetry; apply andb_false_iff].
  2: { destruct (Z.ltb_spec 0 (o_MaxAge opts)) as [G|G]; [right|by left]. apply Z.ltb_ge. by apply Hage. }
  cbn [negb]. unfold VerifySignature. cbn [sigAlgorithm idPublicKeyDER idKeyID sigKeyID sigValue].
  rewrite String.eqb_refl, !bytes_eqb_refl, parse_marshal, E. cbn [negb mbind res_bind].
  by rewrite (verify_sign _ _ _ E3).
Qed.
End Facts.

(** ** Concrete runs *)

(** A key that signs by prefixing the digest with itself, and an encoding of the sequence number. *)
Definition toy_ecdsa : Ecdsa := {|
  PubKey := bytes; PrivKey := bytes;
  ParsePKIXPublicKey der := Ok (KeyP256 der);
  VerifyASN1 k d v := bytes_eqb v (k ++ d);
  SignASN1 k d := Ok (k ++ d);
|}.

Definition toy_laws : @EcdsaLaws toy_ecdsa.
Proof.
  refine (@Build_EcdsaLaws toy_ecdsa (fun k => k) (fun k => k) (fun k => eq_refl) _).
  intros k d v E. apply (inj Ok) in E as <-. apply bytes_eqb_refl.
Defined.

Definition toy_cbor : Cbor := {| cbor_receipt r := Ok (be_put 8 (ProviderSeq r)) |}.

Definition demo_job : bytes := zeros JobIDLength.
Definition demo_chunks : list bytes := [[104; 105]; [33]].

Definition demo_receipt : Receipt :=
  mkReceipt 1 demo_job (zeros 32) "openai" "POST" "api.openai.com" "/v1/chat/completions" 200
    (HashResponseStream demo_job demo_chunks) 2 3 CompletionComplete 1000 1001 None (zeros 32) 7 1 [].

Definition demo_signed : SignedReceipt :=
  match @signer_Sign sha_256 toy_cbor
          (Some (mkSigner (Some (@epoch_of sha_256 toy_ecdsa toy_laws [1; 2; 3] "aws-sev-snp" "report" "app" [9] (zeros 32))) false))
          demo_receipt with
  | Ok sr => sr
  | _ => mkSigned demo_receipt (mkSignature "" [] [])
  end.

Lemma stream_hash_binds_job_and_bytes_witness :
  MatchesStream demo_receipt demo_chunks = true
  /\ MatchesStream demo_receipt [[104]; []; [105; 33]] = true.
Proof.
  assert (M : MatchesStream demo_receipt demo_chunks = true) by (vm_compute; reflexivity).
  split; [exact M|].
  exact (proj1 (stream_hash_binds_job_and_bytes demo_receipt demo_receipt demo_chunks demo_chunks
                  eq_refl eq_refl M) [[104]; []; [105; 33]] eq_refl).
Defined.

Lemma signing_digest_separates_domains_witness :
  exists x, SigningDigest ReceiptSigningDomain [1] = Ok x
    /\ (("TokenHive.ExecutionReceipt.v1"%string = ReceiptSigningDomain /\ [1] = [1])
        \/ collides (signing_preimage "TokenHive.ExecutionReceipt.v1" [1]) (signing_preimage ReceiptSigningDomain [1])).
Proof.
  eexists. split; [reflexivity|].
  exact (signing_digest_separates_domains "TokenHive.ExecutionReceipt.v1" ReceiptSigningDomain [1] [1] _
           eq_refl eq_refl).
Defined.

Lemma signed_receipts_verify_witness :
  @receipt_Verify sha_256 toy_cbor toy_ecdsa 5 demo_signed (mkOptions 0 ["aws-sev-snp"%string] false 0) = Ok ().
Proof.
  refine (proj1 (@signed_receipts_verify sha_256 toy_cbor toy_ecdsa toy_laws [1; 2; 3] "aws-sev-snp" "report" "app"
    [9] (zeros 32) false demo_receipt 5 (mkOptions 0 ["aws-sev-snp"%string] false 0) demo_signed _ _ _ _)).
  - vm_compute. reflexivity.
  - right. left. reflexivity.
  - intros E. discriminate E.
  - intros E. inversion E.
Defined.

Lemma accepted_receipt_is_attested_witness :
  exists a, @attested sha_256 toy_cbor toy_ecdsa 5 (mkOptions 0 [] false 0) demo_signed a.
Proof.
  exact (@accepted_receipt_is_attested sha_256 toy_cbor toy_ecdsa 5 demo_signed (mkOptions 0 [] false 0)
           ltac:(vm_compute; reflexivity)).
Defined.
