(* ===== verification/Attest.v ===== *)
(** * The trust root of a receipt ([tokenhive/attest/attest.go])

    [proof.Verify] says that an attested key signed a receipt; the [Verifier] of
    this file says that it was a key of an enclave the deployment trusts: the
    receipt names the pinned policy, and the platform's evidence verifier accepts
    its evidence, inline or fetched.  The evidence verifiers, which parse vendor
    formats, and the fetcher are the Go interfaces they are in the source: records
    of functions. *)

From S2P Require Import Prelude Bytes Crypto Receipt.

(** [platform.EvidenceVerifier]; its method [Platform] only names the platform and is not called here. *)
Record EvidenceVerifier := mkEvidenceVerifier {
  CheckEvidence : Identity -> res unit;
  CheckEvidenceForDeployment : Identity -> bytes -> res unit;
}.

(** [attest.Config]; the zero [PolicyHash] pins nothing. *)
Record attest_Config := mkAttestConfig {
  ac_AllowedPlatforms : list string;
  ac_ByPlatform : gmap string EvidenceVerifier;
  ac_Fetcher : option (Identity -> res bytes);
  ac_PolicyHash : bytes;
}.

Record Verifier := mkVerifier {
  v_allowed : gset string;
  v_byPlatform : gmap string EvidenceVerifier;
  v_fetcher : option (Identity -> res bytes);
  v_havePolicy : bool;
  v_policyHash : bytes;
}.

Definition attest_New (cfg : attest_Config) : res Verifier :=
  fail_if ((length (ac_AllowedPlatforms cfg) =? 0)%nat) "attest: AllowedPlatforms is empty";;
  fail_if (existsb (String.eqb "") (ac_AllowedPlatforms cfg)) "attest: empty platform in AllowedPlatforms";;
  fail_if (bool_decide (is_Some (ac_ByPlatform cfg !! ""%string))) "attest: empty platform key in ByPlatform";;
  let havePolicy := negb (bytes_eqb (ac_PolicyHash cfg) (zeros 32)) in
  let v := mkVerifier (list_to_set (ac_AllowedPlatforms cfg)) (ac_ByPlatform cfg) (ac_Fetcher cfg) havePolicy
             (if havePolicy then ac_PolicyHash cfg else zeros 32) in
  fail_if (negb (bool_decide (Forall (fun p => is_Some (ac_ByPlatform cfg !! p)) (ac_AllowedPlatforms cfg))))
    "attest: platform allowed but has no evidence verifier";;
  Ok v.

(** The insertion sort of [sortStrings]: the inner loop moves an element to the left of the sorted part, which is kept
    in reverse. *)
Fixpoint sink (x : string) (sorted : list string) : list string :=
  match sorted with
  | [] => [x]
  | y :: sorted' => if String.ltb x y then y :: sink x sorted' else x :: sorted
  end.

Definition sortStrings (s : list string) : list string := reverse (foldl (fun sorted x => sink x sorted) [] s).

Definition allowedList (v : Verifier) : list string := sortStrings (elements (v_allowed v)).

(** [id.Evidence = ev]. *)
Definition with_evidence (id : Identity) (ev : bytes) : Identity :=
  mkIdentity (idPlatform id) (idAttestationType id) (idApplicationID id) ev (idEvidenceHash id) (idPublicKeyDER id) (idKeyID id).

Section Attest.
Context {SH : Sha256} {CB : Cbor} {EC : Ecdsa}.

(** The evidence in full: fetched when the receipt carries only its hash. *)
Definition resolve_evidence (v : Verifier) (id : Identity) : res Identity :=
  if (length (idEvidence id) =? 0)%nat then
    match v_fetcher v with
    | None => Panic
    | Some fetch =>
        match fetch id with
        | Ok ev => Ok (with_evidence id ev)
        | Err _ => Err "resolve attestation evidence"
        | Panic => Panic
        end
    end
  else Ok id.

(** The platform's verdict, with the deployment binding when a policy is pinned. *)
Definition platform_verdict (v : Verifier) (id : Identity) : res unit :=
  match v_byPlatform v !! idPlatform id with
  | None => Err "attest: no evidence verifier for platform"
  | Some platformVerifier =>
      if v_havePolicy v then CheckEvidenceForDeployment platformVerifier id (v_policyHash v) else CheckEvidence platformVerifier id
  end.

Definition attest_Check (clock : Z) (v : option Verifier) (signed : SignedReceipt) : res unit :=
  match v with
  | None => Err "attest: nil verifier"
  | Some v =>
      match Attestation (sReceipt signed) with
      | None => Err "receipt has no attestation reference"
      | Some ref =>
          fail_if (negb (bool_decide (Platform ref ∈ v_allowed v))) "attestation platform is not allowed";;
          let requireEvidence := match v_fetcher v with None => true | Some _ => false end in
          _ ← receipt_Verify clock signed (mkOptions 0 (allowedList v) requireEvidence 0);
          fail_if (v_havePolicy v && negb (bytes_eqb (PolicyHash (sReceipt signed)) (v_policyHash v)))
            "receipt names a different policy than the deployment";;
          id ← receipt_Identity (sReceipt signed);
          id ← resolve_evidence v id;
          platform_verdict v id
      end
  end.

Lemma sink_perm x l : sink x l ≡ₚ x :: l.
Proof. induction l as [|y l IH]; [done|]. cbn [sink]. destruct (String.ltb x y); [|done]. by rewrite IH, Permutation_swap. Qed.

Lemma sortStrings_perm l : sortStrings l ≡ₚ l.
Proof.
  unfold sortStrings. rewrite reverse_Permutation. enough (G : forall acc, foldl (fun sorted x => sink x sorted) acc l ≡ₚ acc ++ l) by apply (G []).
  induction l as [|x l IH]; intros acc; cbn [foldl]; [by rewrite app_nil_r|]. rewrite IH, sink_perm. apply Permutation_middle.
Qed.

Lemma elem_of_allowedList v p : p ∈ allowedList v <-> p ∈ v_allowed v.
Proof. unfold allowedList. by rewrite sortStrings_perm, elem_of_elements. Qed.

(** What [attest.Verifier] adds to [proof.Verify]: a receipt it accepts is attested, on a platform of the trust root,
    names the pinned policy, and the platform's evidence verifier accepts the resolved evidence of its identity. *)
Theorem checked_receipt_is_trusted clock v signed : attest_Check clock (Some v) signed = Ok () ->
  exists a id, attested clock (mkOptions 0 (allowedList v) (match v_fetcher v with None => true | Some _ => false end) 0) signed a
    /\ Platform a ∈ v_allowed v
    /\ (v_havePolicy v = true -> PolicyHash (sReceipt signed) = v_policyHash v)
    /\ idPlatform id = Platform a /\ idKeyID id = KeyID a
    /\ (Evidence a <> [] -> idEvidence id = Evidence a)
    /\ platform_verdict v id = Ok ().
Proof.
  cbn [attest_Check]. destruct (Attestation (sReceipt signed)) as [a|] eqn:Ea; [|done]. intros E. inv_guard E. inv_bind E. destruct a0.
  inv_guard E. inv_bind E. inv_bind E. destruct (accepted_receipt_is_attested _ _ _ E0) as [a' At]. cbn [o_Now] in At. rewrite Z.eqb_refl in At.
  pose proof (at_ref _ _ _ _ At) as Ea'. rewrite Ea in Ea'. apply (inj Some) in Ea' as <-. exists a, a1.
  destruct (receipt_Identity_spec _ _ E1) as (a2 & Ea2 & _ & Ek & Ep & _). rewrite Ea in Ea2. apply (inj Some) in Ea2 as <-.
  assert (Ev : idEvidence a0 = Evidence a).
  { unfold receipt_Identity in E1. inv_bind E1. rewrite Ea in E1. by apply (inj Ok) in E1 as <-. }
  assert (R : idPlatform a1 = idPlatform a0 /\ idKeyID a1 = idKeyID a0 /\ (idEvidence a0 <> [] -> idEvidence a1 = idEvidence a0)).
  { unfold resolve_evidence in E2. destruct (Nat.eqb_spec (length (idEvidence a0)) 0) as [L|L]; [|by apply (inj Ok) in E2 as <-].
    apply nil_length_inv in L. destruct (v_fetcher v) as [f|]; [|done]. destruct (f a0) as [ev| |]; [|done..]. apply (inj Ok) in E2 as <-. done. }
  destruct R as (R1 & R2 & R3). rewrite R1, R2, Ep, Ek. rewrite Ev in R3. split_and!; try done.
  - apply negb_false_iff in Hguard. by apply bool_decide_eq_true in Hguard.
  - intros Hp. rewrite Hp in Hguard0. cbn [andb] in Hguard0. by apply negb_false_iff, bytes_eqb_spec in Hguard0.
Qed.

(** A verifier trusts an epoch: its platform is in the trust root, the evidence can be had in full, and the platform's
    evidence verifier accepts it. *)
Record trusted_epoch (v : Verifier) (identity : Identity) (withEvidence : bool) : Prop := {
  te_allowed : idPlatform identity ∈ v_allowed v;
  te_evidence : (withEvidence = true /\ idEvidence identity <> [])
    \/ exists fetch, v_fetcher v = Some fetch /\ fetch (with_evidence identity []) = Ok (idEvidence identity);
  te_verdict : platform_verdict v identity = Ok ();
}.

(** What a trusted epoch signs under the pinned policy is accepted. *)
Theorem trusted_receipts_check `{!EcdsaLaws} clock v k platform kind app evidence evidenceHash incl receipt sr :
  signer_Sign (Some (mkSigner (Some (epoch_of k platform kind app evidence evidenceHash)) incl)) receipt = Ok sr ->
  trusted_epoch v (ep_Identity (epoch_of k platform kind app evidence evidenceHash)) incl ->
  (v_havePolicy v = true -> PolicyHash receipt = v_policyHash v) ->
  attest_Check clock (Some v) sr = Ok ().
Proof.
  intros E [Ha He Hv] Hp. cbn [epoch_of ep_Identity idPlatform idEvidence with_evidence idAttestationType idApplicationID idEvidenceHash idPublicKeyDER idKeyID] in *.
  assert (X : receipt_Verify clock sr (mkOptions 0 (allowedList v) (match v_fetcher v with None => true | Some _ => false end) 0) = Ok ()).
  { refine (proj1 (signed_receipts_verify k platform kind app evidence evidenceHash incl receipt clock _ sr E _ _ _)); cbn [o_AllowedPlatforms o_RequireEvidence o_MaxAge].
    - right. apply list_elem_of_In. by apply elem_of_allowedList.
    - destruct (v_fetcher v); [done|]. intros _. by destruct He as [He|(f & Hf & _)].
    - lia. }
  cbn [epoch_of ep_Identity signer_Sign idPlatform idEvidence idAttestationType idApplicationID idEvidenceHash idPublicKeyDER idKeyID] in E.
  inv_bind E. destruct a. inv_bind E. inv_bind E. apply (inj Ok) in E as <-. cbn [attest_Check sReceipt with_attestation Attestation Platform].
  rewrite bool_decide_true by done. cbn [negb]. rewrite X. cbn [mbind res_bind PolicyHash].
  replace (v_havePolicy v && _) with false.
  2: { destruct (v_havePolicy v); [|done]. cbn [with_attestation PolicyHash]. rewrite (Hp eq_refl), bytes_eqb_refl. done. }
  cbv iota. assert (V : validateAttestation (Some (mkAttestationRef platform kind app (sha256 (marshalPKIX k)) (marshalPKIX k) evidenceHash
    (if incl then evidence else []))) = Ok ()) by (unfold receipt_Validate in E0; do 8 inv_guard E0; exact E0).
  destruct (validateAttestation_spec _ V) as (a' & Ea' & _ & Lh & _). apply (inj Some) in Ea' as <-. cbn [EvidenceHash] in Lh.
  unfold receipt_Identity. cbn [Attestation with_attestation]. rewrite V. cbn [mbind res_bind Platform AttestationType ApplicationID Evidence EvidenceHash PublicKeyDER KeyID].
  rewrite !pad_to_exact by (done || apply sha256_length). unfold resolve_evidence. cbn [idEvidence].
  destruct (Nat.eqb_spec (length (if incl then evidence else [])) 0) as [L|L].
  - destruct He as [[-> He]|(fetch & Hf & Hr)]; [by apply nil_length_inv in L|]. rewrite Hf. apply nil_length_inv in L. unfold with_evidence in Hr. cbn [idPlatform idEvidence idAttestationType idApplicationID idEvidenceHash idPublicKeyDER idKeyID] in Hr. rewrite L, Hr. exact Hv.
  - cbn [mbind res_bind]. destruct incl; [exact Hv|done].
Qed.
End Attest.
