(* ===== verification/GoStrings.v ===== *)
(** * Go strings ([strings], [net], [net/url] as the sources use them)

    A Go string is a sequence of bytes, a [string] here.  Only the case mappings
    of characters outside ASCII are left abstract ([GoUnicode]); everything
    else is written out.  A [range] over a string that compares every rune with
    ASCII bounds is a test of every byte: a byte above 127 belongs to a rune
    above 127. *)

From Stdlib Require Import Ascii.
From S2P Require Import Prelude Bytes.

(** [strings.ToLower] and [strings.EqualFold] beyond ASCII. *)
Class GoUnicode := {
  unicode_ToLower : string -> string;
  unicode_EqualFold : string -> string -> bool;
}.

Definition code (a : Ascii.ascii) : Z := Z.of_N (Ascii.N_of_ascii a).

Definition all_chars (p : Ascii.ascii -> bool) (s : string) : bool := forallb p (String.list_ascii_of_string s).

Definition any_char (p : Ascii.ascii -> bool) (s : string) : bool := existsb p (String.list_ascii_of_string s).

Definition is_ascii (s : string) : bool := all_chars (fun a => code a <? 128) s.

Definition is_lower (a : Ascii.ascii) : bool := (97 <=? code a) && (code a <=? 122).
Definition is_upper (a : Ascii.ascii) : bool := (65 <=? code a) && (code a <=? 90).
Definition is_digit (a : Ascii.ascii) : bool := (48 <=? code a) && (code a <=? 57).

Definition lower_ascii (a : Ascii.ascii) : Ascii.ascii :=
  let n := Ascii.N_of_ascii a in
  if ((65 <=? n)%N && (n <=? 90)%N) then Ascii.ascii_of_N (n + 32) else a.

Fixpoint lower_string (s : string) : string :=
  match s with "" => "" | String.String a s => String.String (lower_ascii a) (lower_string s) end%string.

Definition ToLower `{GoUnicode} (s : string) : string := if is_ascii s then lower_string s else unicode_ToLower s.

Definition EqualFold `{GoUnicode} (s t : string) : bool :=
  if is_ascii s && is_ascii t then String.eqb (lower_string s) (lower_string t) else unicode_EqualFold s t.

(** [strings.ContainsAny] with an ASCII set. *)
Definition ContainsAny (s chars : string) : bool := any_char (fun a => any_char (Ascii.eqb a) chars) s.

(** [strings.Contains]. *)
Definition Contains (s sub : string) : bool := match String.index 0 sub s with Some _ => true | None => false end.

Definition has_byte (s : string) (c : Ascii.ascii) : bool := any_char (Ascii.eqb c) s.

(** [strings.HasSuffix] with one byte. *)
Fixpoint ends_with (s : string) (c : Ascii.ascii) : bool :=
  match s with
  | "" => false
  | String.String a "" => Ascii.eqb a c
  | String.String _ s => ends_with s c
  end%string.

(** [s[i:]]. *)
Fixpoint str_drop (n : nat) (s : string) : string :=
  match n, s with
  | O, _ => s
  | S n, String.String _ s => str_drop n s
  | S _, "" => ""
  end%string.

(** [strings.TrimPrefix] with one byte. *)
Definition trim_byte (s : string) (c : Ascii.ascii) : string :=
  match s with String.String a t => if Ascii.eqb a c then t else s | "" => ""%string end%string.

(** [strings.Split] on one byte: never empty. *)
Fixpoint split_on (c : Ascii.ascii) (s : string) : list string :=
  match s with
  | "" => [""]
  | String.String a s =>
      if Ascii.eqb a c then "" :: split_on c s
      else match split_on c s with
           | seg :: segs => String.String a seg :: segs
           | [] => [String.String a ""]
           end
  end%string.

(** The positions of the first and of the last [c]. *)
Fixpoint index_byte (s : string) (c : Ascii.ascii) : option nat :=
  match s with
  | "" => None
  | String.String a s => if Ascii.eqb a c then Some 0%nat else S <$> index_byte s c
  end%string.

Fixpoint last_index (s : string) (c : Ascii.ascii) : option nat :=
  match s with
  | "" => None
  | String.String a s =>
      match last_index s c with
      | Some i => Some (S i)
      | None => if Ascii.eqb a c then Some 0%nat else None
      end
  end%string.

(** ** [strings.TrimSpace]

    The UTF-8 encodings of the characters [unicode.IsSpace] accepts. *)
Definition space_codes : list (list Z) :=
  [[9]; [10]; [11]; [12]; [13]; [32]; [194; 133]; [194; 160]; [225; 154; 128]]
    ++ map (fun i => [226; 128; 128 + Z.of_nat i]) (seq 0 11)
    ++ [[226; 128; 168]; [226; 128; 169]; [226; 128; 175]; [226; 129; 159]; [227; 128; 128]].

(** [l] without the encodings at its head, which are matched against [spaces]. *)
Fixpoint trim_head (spaces : list (list Z)) (fuel : nat) (l : list Z) : list Z :=
  match fuel with
  | O => l
  | S fuel =>
      match list_find (fun e => bool_decide (take (length e) l = e) = true) spaces with
      | Some (_, e) => trim_head spaces fuel (drop (length e) l)
      | None => l
      end
  end.

(** The fuel is the length: every step drops at least one byte. *)
Definition trim_bytes (l : list Z) : list Z :=
  let l := trim_head space_codes (length l) l in
  reverse (trim_head (map reverse space_codes) (length l) (reverse l)).

Definition of_codes (l : list Z) : string :=
  String.string_of_list_ascii (map (fun z => Ascii.ascii_of_N (Z.to_N z)) l).

Definition TrimSpace (s : string) : string := of_codes (trim_bytes (str s)).

(** ** [net.SplitHostPort]: [None] is an error *)

Definition SplitHostPort (hostport : string) : option (string * string) :=
  match last_index hostport ":"%char with
  | None => None
  | Some i =>
      let port := str_drop (S i) hostport in
      let finish (host : string) (j k : nat) :=
        if has_byte (str_drop j hostport) "["%char then None else
        if has_byte (str_drop k hostport) "]"%char then None else Some (host, port) in
      if String.prefix "[" hostport then
        match index_byte hostport "]"%char with
        | None => None
        | Some e =>
            if (S e =? i)%nat then finish (String.substring 1 (e - 1) hostport) 1%nat (S e) else None
        end
      else
        let host := String.substring 0 i hostport in
        if has_byte host ":"%char then None else finish host 0%nat 0%nat
  end.

(** ** [url.ParseQuery]: the parameter names, [None] on an error *)

Definition unhex (a : Ascii.ascii) : option Z :=
  let n := code a in
  if is_digit a then Some (n - 48)
  else if (97 <=? n) && (n <=? 102) then Some (n - 87)
  else if (65 <=? n) && (n <=? 70) then Some (n - 55)
  else None.

Fixpoint QueryUnescape (s : string) : option string :=
  match s with
  | "" => Some ""
  | String.String "%"%char t =>
      match t with
      | String.String h (String.String l rest) =>
          match unhex h, unhex l with
          | Some h, Some l => String.String (Ascii.ascii_of_N (Z.to_N (16 * h + l))) <$> QueryUnescape rest
          | _, _ => None
          end
      | _ => None
      end
  | String.String "+"%char s => String.String " "%char <$> QueryUnescape s
  | String.String a s => String.String a <$> QueryUnescape s
  end%string.

(** One [key=value] setting; [Some None] is an empty one, which is skipped. *)
Definition query_setting (s : string) : option (option string) :=
  if has_byte s ";"%char then None else
  if String.eqb s "" then Some None else
  let '(k, v) := match index_byte s "="%char with
                 | Some i => (String.substring 0 i s, str_drop (S i) s)
                 | None => (s, ""%string)
                 end in
  match QueryUnescape k, QueryUnescape v with
  | Some k, Some _ => Some (Some k)
  | _, _ => None
  end.

Definition ParseQuery_keys (query : string) : option (list string) :=
  settings ← mapM query_setting (split_on "&"%char query);
  Some (remove_dups (omap id settings)).

(** ** Facts *)

(** Joining the parts a split gave. *)
Fixpoint join_on (c : Ascii.ascii) (segs : list string) : string :=
  match segs with
  | [] => ""
  | [s] => s
  | s :: segs => (s ++ String.String c (join_on c segs))%string
  end%string.

Lemma split_on_nonempty c s : exists seg segs, split_on c s = seg :: segs.
Proof.
  induction s as [|a s (seg & segs & E)]; [by eexists _, _|]. cbn.
  destruct (Ascii.eqb a c); [by eexists _, _|]. rewrite E. by eexists _, _.
Qed.

Lemma join_split c s : join_on c (split_on c s) = s.
Proof.
  induction s as [|a s IH]; [done|]. cbn [split_on]. destruct (split_on_nonempty c s) as (seg & segs & E).
  destruct (Ascii.eqb_spec a c) as [->|N].
  - rewrite E in IH |- *. cbn in IH |- *. by rewrite IH.
  - rewrite E in IH |- *. rewrite <- IH. by destruct segs.
Qed.

#[export] Instance split_on_inj c : Inj (=) (=) (split_on c).
Proof. intros s t E. rewrite <- (join_split c s), <- (join_split c t). by rewrite E. Qed.

Lemma any_char_true p s : any_char p s = true <-> exists a, a ∈ String.list_ascii_of_string s /\ p a = true.
Proof.
  unfold any_char. rewrite existsb_exists. split; intros (a & H & P); exists a; split; try done;
    by apply list_elem_of_In.
Qed.

Lemma all_chars_true p s : all_chars p s = true <-> forall a, a ∈ String.list_ascii_of_string s -> p a = true.
Proof.
  unfold all_chars. rewrite forallb_forall. split; intros H a E; apply H; by apply list_elem_of_In.
Qed.

(** No segment of a split contains the separator. *)
Lemma split_on_clean c s seg : seg ∈ split_on c s -> has_byte seg c = false.
Proof.
  revert seg. induction s as [|a s IH]; intros seg; cbn [split_on].
  { intros ->%list_elem_of_singleton. done. }
  destruct (split_on_nonempty c s) as (g & gs & E). destruct (Ascii.eqb_spec a c) as [->|N].
  - intros [->|H]%elem_of_cons; [done|]. by apply IH.
  - rewrite E in IH |- *. intros [->|H]%elem_of_cons; [|apply IH; by right].
    unfold has_byte, any_char. cbn. destruct (Ascii.eqb_spec c a) as [->|]; [done|]. cbn.
    apply (IH g). by left.
Qed.

Lemma lower_ascii_idem a : lower_ascii (lower_ascii a) = lower_ascii a.
Proof. destruct a as [[] [] [] [] [] [] [] []]; vm_compute; reflexivity. Qed.

Lemma lower_string_idem s : lower_string (lower_string s) = lower_string s.
Proof. induction s as [|a s IH]; [done|]. cbn [lower_string]. by rewrite lower_ascii_idem, IH. Qed.

Lemma lower_ascii_ascii a : code a <? 128 = true -> code (lower_ascii a) <? 128 = true.
Proof. destruct a as [[] [] [] [] [] [] [] []]; vm_compute; intros; congruence. Qed.

Lemma is_ascii_lower s : is_ascii s = true -> is_ascii (lower_string s) = true.
Proof.
  unfold is_ascii, all_chars. induction s as [|a s IH]; [done|]. cbn.
  intros [A B]%andb_true_iff. rewrite lower_ascii_ascii by done. by apply IH.
Qed.

Lemma EqualFold_ascii `{GoUnicode} s t :
  is_ascii s = true -> is_ascii t = true -> EqualFold s t = String.eqb (lower_string s) (lower_string t).
Proof. intros Hs Ht. unfold EqualFold. by rewrite Hs, Ht. Qed.

Lemma ToLower_ascii `{GoUnicode} s : is_ascii s = true -> ToLower s = lower_string s.
Proof. intros E. unfold ToLower. by rewrite E. Qed.

(** ** Bytes, concatenation and positions *)

Lemma has_byte_elem s c : has_byte s c = true <-> c ∈ String.list_ascii_of_string s.
Proof.
  unfold has_byte. rewrite any_char_true. split.
  - intros (a & H & ->%Ascii.eqb_eq). done.
  - intros H. exists c. split; [done|]. by apply Ascii.eqb_eq.
Qed.

Lemma str_cons_app a s t : (String.String a s ++ t)%string = String.String a (s ++ t).
Proof. done. Qed.

Lemma str_nil_app t : ("" ++ t)%string = t.
Proof. done. Qed.

Lemma list_ascii_app s t :
  String.list_ascii_of_string (s ++ t) = String.list_ascii_of_string s ++ String.list_ascii_of_string t.
Proof. induction s as [|a s IH]; [done|]. rewrite str_cons_app. cbn. by rewrite IH. Qed.

Lemma substring_app s t : String.substring 0 (String.length s) (s ++ t) = s.
Proof. induction s as [|a s IH]; [by destruct t|]. rewrite str_cons_app. cbn. by rewrite IH. Qed.

Lemma str_drop_app s t : str_drop (String.length s) (s ++ t) = t.
Proof. induction s as [|a s IH]; [done|]. apply IH. Qed.

Lemma index_byte_Some s c i :
  index_byte s c = Some i ->
  exists a b, s = (a ++ String.String c b)%string /\ String.length a = i /\ has_byte a c = false.
Proof.
  revert i. induction s as [|x s IH]; intros i; cbn; [done|]. destruct (Ascii.eqb_spec x c) as [->|N].
  - intros [= <-]. by exists ""%string, s.
  - destruct (index_byte s c) as [j|]; cbn; [|done]. intros [= <-].
    destruct (IH j eq_refl) as (a & b & -> & <- & F). exists (String.String x a), b. split_and!; [done..|].
    unfold has_byte, any_char in F |- *. cbn. rewrite F, (Ascii.eqb_sym c). by destruct (Ascii.eqb_spec x c).
Qed.

Lemma last_index_Some s c i :
  last_index s c = Some i ->
  exists a b, s = (a ++ String.String c b)%string /\ String.length a = i /\ has_byte b c = false.
Proof.
  revert i. induction s as [|x s IH]; intros i; cbn; [done|].
  destruct (last_index s c) as [j|] eqn:E.
  - intros [= <-]. destruct (IH j eq_refl) as (a & b & -> & <- & N). by exists (String.String x a), b.
  - destruct (Ascii.eqb_spec x c) as [->|]; [|done]. intros [= <-]. exists ""%string, s. split_and!; [done..|].
    clear IH. revert E. induction s as [|y s IH]; [done|]. cbn. destruct (last_index s c); [done|].
    unfold has_byte, any_char. cbn. rewrite (Ascii.eqb_sym c). destruct (Ascii.eqb y c); [done|]. intros _. by apply IH.
Qed.

Lemma length_app_str s t : String.length (s ++ t) = (String.length s + String.length t)%nat.
Proof. induction s as [|a s IH]; [done|]. rewrite str_cons_app. cbn. by rewrite IH. Qed.

Lemma str_drop_cons s c t : str_drop (S (String.length s)) (s ++ String.String c t) = t.
Proof. induction s as [|a s IH]; [done|]. apply IH. Qed.

Lemma app_assoc_str s t u : (s ++ t ++ u)%string = ((s ++ t) ++ u)%string.
Proof. induction s as [|a s IH]; [done|]. rewrite !str_cons_app. by rewrite IH. Qed.

Lemma str_app_cons s t x c y :
  (s ++ t)%string = (x ++ String.String c y)%string -> S (String.length x) = String.length s ->
  s = (x ++ String.String c "")%string /\ y = t.
Proof.
  revert x. induction s as [|a s IH]; intros [|d x] E L; cbn in L; try lia.
  - destruct s; [|cbn in L; lia]. change (String.String a t = String.String c y) in E. by injection E as -> ->.
  - rewrite !str_cons_app in E. injection E as -> E. destruct (IH x E) as [-> ->]; [lia|]. done.
Qed.

Lemma str_prefix_byte c a s : String.prefix (String.String c "") (String.String a s) = true -> c = a.
Proof. cbn. by destruct (ascii_dec c a). Qed.

Lemma str_prefix_head c s : String.prefix (String.String c "") (String.String c s) = true.
Proof. cbn. destruct (ascii_dec c c); [|done]. by destruct s. Qed.

Lemma substring_S n m a s : String.substring (S n) m (String.String a s) = String.substring n m s.
Proof. done. Qed.

Lemma has_byte_app s t c : has_byte (s ++ t) c = has_byte s c || has_byte t c.
Proof. unfold has_byte, any_char. by rewrite list_ascii_app, existsb_app. Qed.

Lemma has_byte_cons a t c : has_byte (String.String a t) c = Ascii.eqb c a || has_byte t c.
Proof. done. Qed.

Lemma last_index_None s c : has_byte s c = false -> last_index s c = None.
Proof.
  induction s as [|a s IH]; [done|]. rewrite has_byte_cons, Ascii.eqb_sym. intros [N F]%orb_false_iff. cbn.
  by rewrite IH, N.
Qed.

Lemma last_index_app s c t : has_byte t c = false -> last_index (s ++ String.String c t) c = Some (String.length s).
Proof.
  intros F. induction s as [|a s IH].
  - rewrite str_nil_app. cbn. by rewrite last_index_None, Ascii.eqb_refl.
  - rewrite str_cons_app. cbn. by rewrite IH.
Qed.

Lemma index_byte_app s c t : has_byte s c = false -> index_byte (s ++ String.String c t) c = Some (String.length s).
Proof.
  induction s as [|a s IH].
  - rewrite str_nil_app. cbn. by rewrite Ascii.eqb_refl.
  - rewrite str_cons_app, has_byte_cons, Ascii.eqb_sym. intros [N F]%orb_false_iff. cbn. by rewrite N, IH.
Qed.

(** Case-insensitive membership in a list of lower-case names. *)
Lemma fold_member `{GoUnicode} l name :
  is_ascii name = true -> Forall (fun f => is_ascii f = true /\ lower_string f = f) l ->
  existsb (EqualFold name) l = true <-> lower_string name ∈ l.
Proof.
  intros A F. rewrite Forall_forall in F. rewrite existsb_exists. split.
  - intros (f & I & E). apply list_elem_of_In in I. destruct (F f I) as [Af L].
    rewrite EqualFold_ascii, String.eqb_eq, L in E by done. by rewrite E.
  - intros I. exists (lower_string name). split; [by apply list_elem_of_In|].
    rewrite EqualFold_ascii, lower_string_idem by (done || by apply is_ascii_lower). apply String.eqb_refl.
Qed.
