(* ===== verification/Jobs.v ===== *)
(** * Job specifications ([tokenhive/jobs/spec.go])

    The request the Hub dispatches and the enclave validates before it touches a
    credential.  [spec_ok] is what a validated specification guarantees; the
    validator accepts exactly those.  CBOR is a parameter. *)

From Stdlib Require Import Ascii.
From stdpp Require Import sorting.
From S2P Require Import Prelude Bytes Crypto GoStrings.

Definition SpecVersionV1 : Z := 1.
Definition JobSpecHashDomain : string := "TokenHive.JobSpec.v1".
Definition BodyHashDomain : string := "TokenHive.RequestBody.v1".
Definition SpecJobIDLength : nat := 16.
Definition BodyHashLength : nat := 32.
Definition MinNonceLength : nat := 8.
Definition MaxNonceLength : nat := 64.
Definition MaxHeaders : nat := 32.
Definition MaxPathLength : nat := 2048.
Definition MaxQueryLength : nat := 4096.
Definition MaxHostLength : nat := 253.
Definition MaxProviderName : nat := 64.

Record Spec := mkSpec {
  sp_Version : Z;
  sp_JobID : bytes;
  sp_Provider : string;
  sp_Method : string;
  sp_Host : string;
  sp_Path : string;
  sp_Query : string;
  sp_Headers : gmap string string;
  sp_BodyHash : bytes;
  sp_Nonce : bytes;
  sp_ExpiresAt : Z;
  sp_MaxResponseBytes : Z;
  sp_Stream : bool;
  sp_Session : bool;
  sp_Credential : bytes;
}.

(** [canonical.Marshal] of a specification. *)
Class SpecCbor := { cbor_spec : Spec -> res bytes }.

Definition SupportedMethods : list string := ["GET"; "POST"; "PUT"; "PATCH"; "DELETE"]%string.

Definition method_supported (m : string) : bool := existsb (String.eqb m) SupportedMethods.

(** ** Shapes *)

Definition provider_char (a : ascii) : bool := is_lower a || is_digit a || Ascii.eqb a "-" || Ascii.eqb a "_".

Definition ValidateProviderName (provider : string) : res unit :=
  fail_if (String.eqb provider "" || (MaxProviderName <? String.length provider)%nat) "invalid provider";;
  fail_if (negb (all_chars provider_char provider)) "invalid provider";;
  Ok ().

Definition isDigits (s : string) : bool := negb (String.eqb s "") && all_chars is_digit s.

Definition token_char (a : ascii) : bool :=
  is_lower a || is_digit a || is_upper a || has_byte "!#$%&'*+-.^_`|~" a.

Definition IsToken (s : string) : bool := negb (String.eqb s "") && all_chars token_char s.

(** A string of one byte. *)
Definition ch (n : Z) : string := String.String (Ascii.ascii_of_N (Z.to_N n)) "".

(** Blank, tab, CR, LF; and CR, LF, NUL. *)
Definition whitespace : string := (" " ++ ch 9 ++ ch 13 ++ ch 10)%string.
Definition line_breakers : string := (ch 13 ++ ch 10 ++ ch 0)%string.

Definition ValidateHostShape (host : string) (maxLen : nat) : res unit :=
  fail_if (String.eqb host "" || (maxLen <? String.length host)%nat) "is empty or over the limit";;
  fail_if (ContainsAny host whitespace) "contains whitespace";;
  fail_if (ContainsAny host "/@?") "must be host or host:port";;
  let '(hostname, port) := match SplitHostPort host with Some hp => hp | None => (host, ""%string) end in
  fail_if (negb (String.eqb port "") && negb (isDigits port)) "has a non-numeric port";;
  fail_if (String.eqb hostname "") "has an empty hostname";;
  fail_if (has_byte hostname ":" || ends_with hostname ".") "is not a plain DNS name";;
  Ok ().

Definition validateHost (host : string) : res unit :=
  match ValidateHostShape host MaxHostLength with Ok _ => Ok () | Err _ => Err "invalid host" | Panic => Panic end.

Definition traversal (segment : string) : bool := String.eqb segment ".." || String.eqb segment ".".

Definition validatePath (path : string) : res unit :=
  fail_if (negb (String.prefix "/" path)) "invalid path: must be absolute";;
  fail_if ((MaxPathLength <? String.length path)%nat) "invalid path: too long";;
  fail_if (existsb traversal (split_on "/" path)) "invalid path: contains a traversal segment";;
  fail_if (ContainsAny path whitespace) "invalid path: contains whitespace";;
  Ok ().

Definition forbiddenHeaders : list string :=
  ["authorization"; "host"; "content-length"; "transfer-encoding"; "connection"; "proxy-authorization"; "te";
   "upgrade"]%string.

Section Spec.
Context {SH : Sha256} {SC : SpecCbor} {GU : GoUnicode}.

Definition IsForbiddenHeader (name : string) : bool := existsb (EqualFold name) forbiddenHeaders.

Definition header_ok (name value : string) : bool :=
  negb (String.eqb name "") && IsToken name && negb (ContainsAny value line_breakers)
  && negb (IsForbiddenHeader name).

(** The map is ranged over in any order; every refusal is [ErrInvalidHeaders]. *)
Definition validateHeaders (headers : gmap string string) : res unit :=
  fail_if ((MaxHeaders <? size headers)%nat) "invalid headers: too many entries";;
  fail_if (negb (forallb (fun kv => header_ok kv.1 kv.2) (map_to_list headers))) "invalid headers";;
  Ok ().

(** ** Digests *)

Definition EncodeCanonical (s : Spec) : res bytes := cbor_spec s.

Definition spec_Hash (s : Spec) : res bytes :=
  encoded ← EncodeCanonical s; Ok (sha256 (str JobSpecHashDomain ++ encoded)).

Definition HashBody (body : bytes) : bytes := sha256 (str BodyHashDomain ++ body).

(** [subtleEqual] is [ct_equal]. *)
Definition MatchesBody (s : Spec) (body : bytes) : bool :=
  if negb (length (sp_BodyHash s) =? BodyHashLength)%nat then false else ct_equal (HashBody body) (sp_BodyHash s).

(** ** Validation *)

Definition spec_Validate (s : Spec) : res unit :=
  fail_if (negb (sp_Version s =? SpecVersionV1)) "unsupported job spec version";;
  fail_if (negb (length (sp_JobID s) =? SpecJobIDLength)%nat) "invalid job ID";;
  _ ← ValidateProviderName (sp_Provider s);
  fail_if (negb (method_supported (sp_Method s))) "invalid HTTP method";;
  _ ← validateHost (sp_Host s);
  _ ← validatePath (sp_Path s);
  fail_if ((MaxQueryLength <? String.length (sp_Query s))%nat) "invalid query";;
  _ ← validateHeaders (sp_Headers s);
  fail_if (negb (length (sp_BodyHash s) =? BodyHashLength)%nat) "invalid body hash";;
  fail_if ((length (sp_Nonce s) <? MinNonceLength)%nat || (MaxNonceLength <? length (sp_Nonce s))%nat)
    "invalid nonce";;
  fail_if (sp_ExpiresAt s <=? 0) "invalid expiry";;
  fail_if (sp_MaxResponseBytes s =? 0) "invalid response size limit";;
  Ok ().

Definition spec_ValidateAt (s : Spec) (now : Z) : res unit :=
  _ ← spec_Validate s;
  fail_if (sp_ExpiresAt s <=? time_toUnix now) "job spec has expired";;
  Ok ().

(** [sort.Strings] of the header names. *)
Definition HeaderNames (s : Spec) : list string := merge_sort String.le (map_to_list (sp_Headers s)).*1.
End Spec.

(** ** What a validated specification guarantees *)

(** No byte of [s] is in [bad]. *)
Definition clean (bad s : string) : Prop :=
  forall a, a ∈ String.list_ascii_of_string s -> a ∉ String.list_ascii_of_string bad.

Definition provider_ok (p : string) : Prop :=
  p <> ""%string /\ (String.length p <= 64)%nat /\ all_chars provider_char p = true.

Definition no_brackets (s : string) : Prop := has_byte s "[" = false /\ has_byte s "]" = false.

(** A name, optionally with a port; brackets around the name are tolerated. *)
Inductive host_shape : string -> string -> string -> Prop :=
| hs_bare name : host_shape name name ""
| hs_port name port : no_brackets name -> host_shape (name ++ ":" ++ port)%string name port
| hs_bracket name port : no_brackets name -> host_shape ("[" ++ name ++ "]:" ++ port)%string name port.

Definition host_ok (host : string) : Prop :=
  (String.length host <= 253)%nat /\ clean (whitespace ++ "/@?") host
  /\ exists name port, host_shape host name port /\ name <> ""%string /\ has_byte name ":" = false
     /\ ends_with name "." = false /\ all_chars is_digit port = true.

Definition path_ok (path : string) : Prop :=
  (exists rest, path = ("/" ++ rest)%string) /\ (String.length path <= 2048)%nat /\ clean whitespace path
  /\ forall seg, seg ∈ split_on "/" path -> seg <> "."%string /\ seg <> ".."%string.

(** A header the caller may set: a token that is none of the enclave's own
    headers in any case, with a value that cannot end its line. *)
Definition header_safe (name value : string) : Prop :=
  IsToken name = true /\ (lower_string name ∉ forbiddenHeaders) /\ clean line_breakers value.

Record spec_ok (s : Spec) : Prop := {
  ok_version : sp_Version s = 1;
  ok_job : length (sp_JobID s) = 16%nat;
  ok_provider : provider_ok (sp_Provider s);
  ok_method : sp_Method s ∈ SupportedMethods;
  ok_host : host_ok (sp_Host s);
  ok_path : path_ok (sp_Path s);
  ok_query : (String.length (sp_Query s) <= 4096)%nat;
  ok_header_count : (size (sp_Headers s) <= 32)%nat;
  ok_headers : map_Forall header_safe (sp_Headers s);
  ok_body : length (sp_BodyHash s) = 32%nat;
  ok_nonce : (8 <= length (sp_Nonce s) <= 64)%nat;
  ok_expiry : 0 < sp_ExpiresAt s;
  ok_limit : sp_MaxResponseBytes s <> 0;
}.

(** *** Characters *)

Lemma ContainsAny_clean s bad : ContainsAny s bad = false <-> clean bad s.
Proof.
  rewrite <- not_true_iff_false. unfold ContainsAny, clean. rewrite any_char_true. split.
  - intros N a H B. apply N. exists a. split; [done|]. by apply has_byte_elem.
  - intros C (a & H & B). apply has_byte_elem in B. by apply (C a).
Qed.

Lemma clean_app b1 b2 s : clean (b1 ++ b2) s <-> clean b1 s /\ clean b2 s.
Proof.
  unfold clean. rewrite list_ascii_app. setoid_rewrite elem_of_app.
  split; [intros H; split; intros a A B; apply (H a A); tauto|]. intros [H1 H2] a A [B|B]; [by apply (H1 a)|by apply (H2 a)].
Qed.

Lemma token_char_ascii a : token_char a = true -> code a <? 128 = true.
Proof. destruct a as [[] [] [] [] [] [] [] []]; vm_compute; intros; congruence. Qed.

Lemma IsToken_ascii s : IsToken s = true -> is_ascii s = true.
Proof.
  unfold IsToken, is_ascii. intros [_ T]%andb_true_iff. rewrite all_chars_true in T |- *.
  intros a H. by apply token_char_ascii, T.
Qed.

Lemma IsToken_nonempty s : IsToken s = true -> s <> ""%string.
Proof. by intros T ->. Qed.

(** *** Hosts *)

(** Pushes [has_byte] through concatenations in the context and the goal. *)
Ltac norm_bytes :=
  unfold no_brackets in *;
  repeat match goal with
    | H : context [str_drop _ _] |- _ => progress cbn [str_drop] in H
    | H : has_byte _ _ = false |- _ => progress rewrite ?has_byte_app, ?has_byte_cons, ?orb_false_iff in H
    end; rewrite ?has_byte_app, ?has_byte_cons, ?orb_false_iff.

(** What a successful split says about its argument. *)
Lemma SplitHostPort_shape s host port :
  SplitHostPort s = Some (host, port) -> host_shape s host port.
Proof.
  unfold SplitHostPort. destruct (last_index s ":") as [i|] eqn:E; [|done].
  apply last_index_Some in E as (a & b & -> & <- & N). rewrite str_drop_cons.
  destruct (String.prefix "[" (a ++ _)) eqn:P.
  - destruct (index_byte (a ++ String.String ":" b) "]") as [e|] eqn:F; [|done].
    destruct (Nat.eqb_spec (S e) (String.length a)) as [L|]; [|done].
    apply index_byte_Some in F as (x & y & Exy & <- & F).
    apply str_app_cons in Exy as [-> ->]; [|done].
    destruct x as [|x0 x]; [done|]. rewrite !str_cons_app in P |- *. apply str_prefix_byte in P as <-.
    cbn [String.length Nat.sub]. rewrite Nat.sub_0_r, substring_S, <- !app_assoc_str, substring_app.
    repeat case_match; try done. intros [= <- <-]. apply (hs_bracket x b). norm_bytes. tauto.
  - rewrite substring_app. destruct (has_byte a ":"); [done|]. repeat case_match; try done.
    intros [= <- <-]. apply (hs_port a b). norm_bytes. tauto.
Qed.

(** [SplitHostPort] fails on a string without a colon. *)
Lemma SplitHostPort_None s : has_byte s ":" = false -> SplitHostPort s = None.
Proof.
  intros N. unfold SplitHostPort. destruct (last_index s ":") as [i|] eqn:E; [|done].
  apply last_index_Some in E as (a & b & -> & _). exfalso.
  rewrite <- not_true_iff_false, has_byte_elem, list_ascii_app in N. apply N. set_solver.
Qed.

Lemma digits_no_byte port c : all_chars is_digit port = true -> is_digit c = false -> has_byte port c = false.
Proof.
  intros D N. apply not_true_iff_false. rewrite has_byte_elem. intros H.
  rewrite all_chars_true in D. apply D in H. congruence.
Qed.

Lemma SplitHostPort_complete host name port :
  host_shape host name port -> has_byte name ":" = false -> all_chars is_digit port = true ->
  match SplitHostPort host with Some hp => hp | None => (host, ""%string) end = (name, port).
Proof.
  intros [n|n p [B1 B2]|n p [B1 B2]] C D; [by rewrite SplitHostPort_None|..];
    pose proof (fun c => digits_no_byte p c D) as NP; unfold SplitHostPort.
  - change (n ++ ":" ++ p)%string with (n ++ String.String ":" p)%string.
    rewrite last_index_app, str_drop_cons, substring_app, C by (by apply NP).
    replace (String.prefix "[" (n ++ String.String ":" p)) with false.
    2: { destruct n as [|a n]; [done|]. rewrite str_cons_app. destruct (String.prefix _ _) eqn:P; [|done].
         apply str_prefix_byte in P as <-. by rewrite has_byte_cons in B1. }
    cbn [str_drop]. rewrite !has_byte_app, !has_byte_cons, B1, B2. cbn. by rewrite !NP.
  - assert (E1 : ("[" ++ n ++ "]:" ++ p)%string = (("[" ++ n ++ "]") ++ String.String ":" p)%string)
      by (by rewrite <- !app_assoc_str).
    assert (E2 : ("[" ++ n ++ "]:" ++ p)%string = (("[" ++ n) ++ String.String "]" (String.String ":" p))%string)
      by (by rewrite <- !app_assoc_str).
    assert (L : String.length ("[" ++ n ++ "]") = S (S (String.length n))).
    { rewrite !length_app_str. cbn. lia. }
    set (h := ("[" ++ n ++ "]:" ++ p)%string) in *.
    assert (F1 : last_index h ":" = Some (S (S (String.length n)))).
    { rewrite E1, last_index_app by (by apply NP). by rewrite L. }
    assert (F2 : str_drop (S (S (S (String.length n)))) h = p) by (rewrite E1, <- L; apply str_drop_cons).
    assert (F3 : index_byte h "]" = Some (S (String.length n))).
    { rewrite E2, index_byte_app by (by rewrite has_byte_app, B2). by rewrite length_app_str. }
    assert (F4 : str_drop (S (S (String.length n))) h = String.String ":" p).
    { rewrite E2. apply (str_drop_cons ("[" ++ n)). }
    rewrite F1, F2, F3, Nat.eqb_refl, F4. replace (String.prefix "[" h) with true by (symmetry; apply str_prefix_head).
    cbn [Nat.sub]. rewrite Nat.sub_0_r. change (String.substring 1 ?m h) with (String.substring 0 m (n ++ "]:" ++ p)).
    rewrite substring_app. change (str_drop 1 _) with (n ++ "]:" ++ p)%string.
    rewrite !has_byte_app, !has_byte_cons, B1, !NP by done. reflexivity.
Qed.

Lemma host_iff host : validateHost host = Ok () <-> host_ok host.
Proof.
  unfold validateHost. transitivity (ValidateHostShape host MaxHostLength = Ok ()).
  { by destruct (ValidateHostShape _ _) as [[]| |]. }
  unfold ValidateHostShape, host_ok. rewrite !guard_iff, orb_false_iff, !ContainsAny_clean, clean_app.
  assert (X : forall n p, host_shape host n p -> n <> ""%string -> host <> ""%string).
  { intros n p [] N; [done|by destruct name|done]. }
  destruct (match SplitHostPort host with Some hp => hp | None => (host, ""%string) end) as [n p] eqn:E.
  rewrite !guard_iff, orb_false_iff, !String.eqb_neq, Nat.ltb_ge.
  assert (P : negb (String.eqb p "") && negb (isDigits p) = false <-> all_chars is_digit p = true).
  { unfold isDigits. destruct (String.eqb_spec p "") as [->|]; cbn; [done|]. rewrite negb_false_iff. done. }
  rewrite P. change MaxHostLength with 253%nat. split.
  - intros ([N L] & W & B & D & N' & [C T] & _). split_and!; try done. exists n, p. split_and!; try done.
    destruct (SplitHostPort host) as [[n' p']|] eqn:S; simplify_eq; [by apply SplitHostPort_shape|constructor].
  - intros (L & [W B] & n' & p' & S & N & C & T & D).
    rewrite (SplitHostPort_complete _ _ _ S C D) in E. simplify_eq. split_and!; try done. by eapply X.
Qed.

Lemma path_iff path : validatePath path = Ok () <-> path_ok path.
Proof.
  unfold validatePath, path_ok. rewrite !guard_iff, negb_false_iff, Nat.ltb_ge, ContainsAny_clean.
  change MaxPathLength with 2048%nat.
  assert (A : String.prefix "/" path = true <-> exists rest, path = ("/" ++ rest)%string).
  { destruct path as [|a t]; [split; [done|by intros [? ?]]|]. split.
    - intros <-%str_prefix_byte. by exists t.
    - intros (rest & ->). apply str_prefix_head. }
  rewrite A, <- not_true_iff_false, existsb_exists.
  assert (B : ~ (exists x, In x (split_on "/" path) /\ traversal x = true)
    <-> forall seg, seg ∈ split_on "/" path -> seg <> "."%string /\ seg <> ".."%string).
  { unfold traversal. setoid_rewrite orb_true_iff. setoid_rewrite String.eqb_eq. setoid_rewrite <- list_elem_of_In.
    split; [intros N seg H; split; intros ->; apply N; eauto|]. intros N (x & H & [-> | ->]); apply N in H; tauto. }
  rewrite B. tauto.
Qed.

Lemma method_iff m : method_supported m = true <-> m ∈ SupportedMethods.
Proof.
  unfold method_supported. rewrite existsb_exists. setoid_rewrite String.eqb_eq. setoid_rewrite <- list_elem_of_In.
  split; [by intros (? & ? & ->)|by eauto].
Qed.

Section Valid.
Context {SH : Sha256} {GU : GoUnicode}.

Lemma forbidden_iff name : IsToken name = true -> IsForbiddenHeader name = true <-> lower_string name ∈ forbiddenHeaders.
Proof. intros T%IsToken_ascii. apply fold_member; [done|]. repeat constructor. Qed.

Lemma headers_iff hs : validateHeaders hs = Ok () <-> (size hs <= 32)%nat /\ map_Forall header_safe hs.
Proof.
  unfold validateHeaders. rewrite !guard_iff, Nat.ltb_ge, negb_false_iff, forallb_forall, map_Forall_to_list, Forall_forall.
  assert (A : forall n v, header_ok n v = true <-> header_safe n v).
  { intros n v. unfold header_ok, header_safe. rewrite !andb_true_iff, !negb_true_iff, ContainsAny_clean, String.eqb_neq.
    rewrite <- (not_true_iff_false (IsForbiddenHeader n)). split.
    - intros [[[N T] C] F]. by rewrite forbidden_iff in F.
    - intros (T & F & C). rewrite forbidden_iff by done. by split_and!; [apply IsToken_nonempty|..]. }
  setoid_rewrite <- list_elem_of_In. split.
  - intros (S & F & _). split; [done|]. intros [n v] I. by apply A, (F (n, v)).
  - intros [S F]. split_and!; [done| |done]. intros [n v] I. apply A. by apply (F (n, v)).
Qed.

Lemma spec_Validate_iff s : spec_Validate s = Ok () <-> spec_ok s.
Proof.
  unfold spec_Validate, ValidateProviderName.
  open_guards. rewrite host_iff, path_iff, headers_iff.
  rewrite !negb_false_iff, !orb_false_iff, !Nat.eqb_eq, !Nat.ltb_ge, Z.eqb_eq, Z.eqb_neq, Z.leb_gt, method_iff, String.eqb_neq.
  change SpecVersionV1 with 1; change SpecJobIDLength with 16%nat; change MaxProviderName with 64%nat;
    change MaxQueryLength with 4096%nat; change BodyHashLength with 32%nat; change MinNonceLength with 8%nat;
    change MaxNonceLength with 64%nat.
  split; [|intros []].
  - intros; destruct_and!. by constructor.
  - unfold provider_ok in *. destruct_and!. by split_and!.
Qed.

Lemma spec_ValidateAt_iff s now :
  spec_ValidateAt s now = Ok () <-> spec_ok s /\ time_toUnix now < sp_ExpiresAt s.
Proof. unfold spec_ValidateAt. open_guards. rewrite spec_Validate_iff, Z.leb_gt. tauto. Qed.

Lemma MatchesBody_iff s body : MatchesBody s body = true <-> sp_BodyHash s = HashBody body.
Proof.
  unfold MatchesBody, BodyHashLength. destruct (Nat.eqb_spec (length (sp_BodyHash s)) 32) as [L|L]; cbn [negb].
  - rewrite ct_equal_spec. split; by intros ->.
  - split; [done|]. intros E. rewrite E in L. unfold HashBody in L. by rewrite sha256_length in L.
Qed.

(** A job is accepted exactly when it is well formed and not expired: the host is one name with an optional
    numeric port and carries no scheme, path or user part, the path is absolute and free of traversal segments,
    no header name is one the enclave owns in any spelling, and no header value can end its line.  A body is
    accepted for a job exactly when its digest is the committed one. *)
Theorem spec_validation_is_exact s now body :
  (spec_ValidateAt s now = Ok () <-> spec_ok s /\ time_toUnix now < sp_ExpiresAt s)
  /\ spec_ValidateAt s now <> Panic
  /\ (MatchesBody s body = true <-> sp_BodyHash s = HashBody body).
Proof.
  split_and!; [apply spec_ValidateAt_iff| |apply MatchesBody_iff].
  unfold spec_ValidateAt, spec_Validate, ValidateProviderName, validatePath, validateHeaders. no_panic.
  unfold validateHost, ValidateHostShape. destruct (match SplitHostPort _ with Some _ => _ | None => _ end).
  apply relabel_np. no_panic.
Qed.
End Valid.
