(* ===== verification/Policy.v ===== *)
(** * The deployment whitelist ([tokenhive/policy]: [policy.go], [authorize.go], [default.go])

    The policy is what bounds the use a Hub may make of a provider's credential:
    which hosts, paths, methods, headers, query parameters and sizes.
    [permitted] says declaratively which jobs it admits; [AuthorizeAt] decides
    exactly that. *)

From Stdlib Require Import Ascii.
From stdpp Require Import sorting.
From S2P Require Import Prelude Bytes Crypto GoStrings Jobs.

Definition PolicyVersionV1 : Z := 1.
Definition PolicyHashDomain : string := "TokenHive.Policy.v1".
Definition MaxHosts : nat := 16.
Definition MaxRules : nat := 64.
Definition MaxAllowedHeaders : nat := 64.
Definition MaxQueryKeys : nat := 64.
Definition MaxPlaceholderLen : nat := 32.

Record Rule := mkRule {
  r_Methods : list string;
  r_Path : string;
  r_AllowStream : bool;
  r_QueryKeys : list string;
  r_AllowAnyQuery : bool;
}.

Record Limits := mkLimits {
  l_MaxResponseBytes : Z;
  l_MaxBodyBytes : Z;
  l_AllowedHeaders : list string;
}.

Record Policy := mkPolicy {
  p_Version : Z;
  p_Hosts : list string;
  p_Rules : list Rule;
  p_Limits : Limits;
  p_IssuedAt : Z;
  p_ExpiresAt : Z;
}.

Record Decision := mkDecision {
  d_Rule : Rule;
  d_MaxResponseBytes : Z;
  d_MaxBodyBytes : Z;
  d_PolicyHash : bytes;
}.

(** [canonical.Marshal] of a policy. *)
Class PolicyCbor := { cbor_policy : Policy -> res bytes }.

(** ** Paths *)

Definition isPlaceholder (segment : string) : bool :=
  (2 <? String.length segment)%nat && String.prefix "{" segment && ends_with segment "}".

Definition isPlaceholderNameValid (name : string) : bool :=
  all_chars (fun a => is_lower a || is_upper a || is_digit a || Ascii.eqb a "_" || Ascii.eqb a "-") name.

Definition isPlaceholderSegment (segment : string) : bool :=
  if negb (isPlaceholder segment) then false else
  let name := String.substring 1 (String.length segment - 2) segment in
  if String.eqb name "" || (MaxPlaceholderLen <? String.length name)%nat then false else isPlaceholderNameValid name.

Definition path_segments (path : string) : list string := split_on "/" (trim_byte path "/").

(** The characters a literal segment must not contain: a backslash and a percent sign. *)
Definition reserved_chars : string := (ch 92 ++ "%")%string.

Definition rule_segment_ok (segment : string) : bool :=
  if ContainsAny segment "{}" then isPlaceholderSegment segment else negb (ContainsAny segment reserved_chars).

Definition validatePathRule (path : string) : res unit :=
  fail_if (negb (String.prefix "/" path)) "invalid path rule: must be absolute";;
  fail_if ((MaxPathLength <? String.length path)%nat) "invalid path rule: too long";;
  fail_if (ContainsAny path whitespace) "invalid path rule: contains whitespace";;
  fail_if (negb (forallb rule_segment_ok (path_segments path))) "invalid path rule";;
  Ok ().

Definition seg_match (rule request : string) : bool :=
  if isPlaceholderSegment rule then negb (String.eqb request "") else String.eqb rule request.

(** The loop over the rule's segments, then over the extra ones. *)
Fixpoint match_segments (rule request : list string) : bool :=
  match rule, request with
  | [], extra => forallb (fun s => negb (String.eqb s "")) extra
  | r :: rule, q :: request => seg_match r q && match_segments rule request
  | _ :: _, [] => false
  end.

Definition matchPathRule (rulePath requestPath : string) : bool :=
  match_segments (path_segments rulePath) (path_segments requestPath).

Section Policy.
Context {SH : Sha256} {PC : PolicyCbor} {GU : GoUnicode}.

(** ** Validation *)

(** The [seen] loops: every entry passes [check] and no key occurs twice. *)
Fixpoint distinct_entries (check : string -> bool) (key : string -> string) (seen : list string) (l : list string) : bool :=
  match l with
  | [] => true
  | x :: l => check x && negb (existsb (String.eqb (key x)) seen) && distinct_entries check key (key x :: seen) l
  end.

Definition validatePolicyHost (host : string) : res unit :=
  match ValidateHostShape host MaxHostLength with Ok _ => Ok () | Err _ => Err "invalid host in policy" | Panic => Panic end.

Definition query_char (a : ascii) : bool :=
  is_lower a || is_upper a || is_digit a || Ascii.eqb a "_" || Ascii.eqb a "-" || Ascii.eqb a ".".

Definition isQueryKey (key : string) : bool :=
  negb (String.eqb key "" || (64 <? String.length key)%nat) && all_chars query_char key.

Definition rule_Validate (r : Rule) : res unit :=
  fail_if ((length (r_Methods r) =? 0)%nat) "invalid method list in policy";;
  fail_if (negb (distinct_entries method_supported (fun m => m) [] (r_Methods r))) "invalid method list in policy";;
  _ ← validatePathRule (r_Path r);
  fail_if ((MaxQueryKeys <? length (r_QueryKeys r))%nat) "invalid query key in policy";;
  fail_if (negb (distinct_entries isQueryKey (fun k => k) [] (r_QueryKeys r))) "invalid query key in policy";;
  Ok ().

Definition allowed_header_ok (name : string) : bool := IsToken name && negb (IsForbiddenHeader name).

Definition limits_Validate (l : Limits) : res unit :=
  fail_if (l_MaxResponseBytes l =? 0) "invalid policy limits";;
  fail_if ((MaxAllowedHeaders <? length (l_AllowedHeaders l))%nat) "invalid policy limits";;
  fail_if (negb (distinct_entries allowed_header_ok ToLower [] (l_AllowedHeaders l))) "invalid header name in policy";;
  Ok ().

Fixpoint rules_Validate (rules : list Rule) : res unit :=
  match rules with [] => Ok () | r :: rules => _ ← rule_Validate r; rules_Validate rules end.

Definition policy_Validate (p : Policy) : res unit :=
  fail_if (negb (p_Version p =? PolicyVersionV1)) "unsupported policy version";;
  fail_if ((length (p_Hosts p) =? 0)%nat) "policy allows no hosts";;
  fail_if ((MaxHosts <? length (p_Hosts p))%nat) "policy allows no hosts";;
  fail_if (negb (distinct_entries (fun h => is_ok (validatePolicyHost h)) ToLower [] (p_Hosts p))) "invalid host in policy";;
  fail_if ((length (p_Rules p) =? 0)%nat) "policy declares no rules";;
  fail_if ((MaxRules <? length (p_Rules p))%nat) "policy declares no rules";;
  _ ← rules_Validate (p_Rules p);
  _ ← limits_Validate (p_Limits p);
  fail_if ((p_IssuedAt p <=? 0) || (p_ExpiresAt p <=? p_IssuedAt p)) "invalid policy validity window";;
  Ok ().

Definition policy_ValidateAt (p : Policy) (now : Z) : res unit :=
  _ ← policy_Validate p;
  fail_if (time_toUnix now <? p_IssuedAt p) "policy is not yet valid";;
  fail_if (p_ExpiresAt p <=? time_toUnix now) "policy has expired";;
  Ok ().

Definition policy_Hash (p : Policy) : res bytes :=
  encoded ← cbor_policy p; Ok (sha256 (str PolicyHashDomain ++ encoded)).

(** ** Authorisation *)

Definition normalise (host : string) : string :=
  let host := ToLower (TrimSpace host) in
  if has_byte host ":" then host else (host ++ ":443")%string.

Definition hostMatches (allowed requested : string) : bool := String.eqb (normalise allowed) (normalise requested).

Definition HostAllowed (p : Policy) (host : string) : bool := existsb (fun a => hostMatches a host) (p_Hosts p).

Definition MethodAllowed (r : Rule) (method : string) : bool := existsb (fun a => String.eqb a method) (r_Methods r).

Fixpoint find_rule_loop (rules : list Rule) (requestPath method : string) (pathMatched : bool) : res Rule :=
  match rules with
  | [] => if pathMatched then Err "method is not allowed by policy" else Err "path is not allowed by policy"
  | rule :: rules =>
      if negb (matchPathRule (r_Path rule) requestPath) then find_rule_loop rules requestPath method pathMatched else
      if MethodAllowed rule method then Ok rule else find_rule_loop rules requestPath method true
  end.

Definition findRule (p : Policy) (requestPath method : string) : res Rule :=
  find_rule_loop (p_Rules p) requestPath method false.

Definition HeaderAllowed (l : Limits) (name : string) : bool := existsb (fun a => EqualFold a name) (l_AllowedHeaders l).

Definition checkHeaders (p : Policy) (spec : Spec) : res unit :=
  fail_if (negb (forallb (HeaderAllowed (p_Limits p)) (HeaderNames spec))) "header is not allowed by policy";;
  Ok ().

(** The keys are sorted for a stable message; the order does not show here. *)
Definition parseQueryKeys (query : string) : res (list string) :=
  if String.eqb query "" then Ok [] else
  match ParseQuery_keys query with
  | None => Err "query parameter is not allowed by policy"
  | Some keys =>
      fail_if (existsb (String.eqb "") keys) "query parameter is not allowed by policy";;
      Ok (merge_sort String.le keys)
  end.

Definition checkQuery (spec : Spec) (rule : Rule) : res unit :=
  keys ← parseQueryKeys (sp_Query spec);
  if r_AllowAnyQuery rule then Ok () else
  fail_if (negb (forallb (fun k => existsb (String.eqb k) (r_QueryKeys rule)) keys)) "query parameter is not allowed by policy";;
  Ok ().

Definition authorize (p : Policy) (spec : Spec) : res Decision :=
  fail_if (negb (HostAllowed p (sp_Host spec))) "host is not allowed by policy";;
  rule ← findRule p (sp_Path spec) (sp_Method spec);
  _ ← checkHeaders p spec;
  _ ← checkQuery spec rule;
  fail_if (sp_Stream spec && negb (r_AllowStream rule)) "streaming is not allowed by policy";;
  let maxResponseBytes := if l_MaxResponseBytes (p_Limits p) <? sp_MaxResponseBytes spec
                          then l_MaxResponseBytes (p_Limits p) else sp_MaxResponseBytes spec in
  fail_if (l_MaxResponseBytes (p_Limits p) <? sp_MaxResponseBytes spec) "job exceeds a policy limit";;
  hash ← policy_Hash p;
  Ok (mkDecision rule maxResponseBytes (l_MaxBodyBytes (p_Limits p)) hash).

Definition Authorize (p : Policy) (spec : Spec) : res Decision :=
  _ ← spec_Validate spec; _ ← policy_Validate p; authorize p spec.

Definition AuthorizeAt (p : Policy) (spec : Spec) (now : Z) : res Decision :=
  _ ← policy_ValidateAt p now; _ ← spec_ValidateAt spec now; authorize p spec.

Definition AllowsRoute (p : Policy) (host path method : string) : res unit :=
  _ ← policy_Validate p;
  fail_if (negb (HostAllowed p host)) "host is not allowed by policy";;
  _ ← findRule p path method;
  Ok ().
End Policy.

(** ** The shipped whitelist ([whitelist.json] with the window [fromDocument] stamps on it) *)

Definition NoIssueDate : Z := 1.
Definition NoExpiry : Z := 2 ^ 63 - 1.

Definition Default : Policy :=
  mkPolicy 1
    ["127.0.0.1:18080"; "api.openai.com"; "api.anthropic.com"; "chatgpt.com"]%string
    [ mkRule ["POST"%string] "/v1/chat/completions" true ["fault"%string] false;
      mkRule ["POST"%string] "/v1/responses" true ["fault"%string] false;
      mkRule ["POST"%string] "/v1/messages" true ["fault"; "beta"]%string false;
      mkRule ["POST"%string] "/backend-api/codex/responses" true [] false;
      mkRule ["GET"%string] "/backend-api/codex/models" false ["client_version"%string] false;
      mkRule ["GET"%string] "/v1/realtime" true [] true ]
    (mkLimits 8388608 8388608
       ["content-type"; "content-encoding"; "accept"; "user-agent"; "x-client-request-id"; "chatgpt-account-id";
        "originator"; "version"; "session-id"; "thread-id"; "x-openai-internal-codex-responses-lite";
        "x-codex-beta-features"; "x-codex-turn-state"; "x-codex-turn-metadata"; "x-codex-window-id";
        "x-codex-parent-thread-id"; "x-openai-subagent"; "x-codex-routing-hint"; "anthropic-version";
        "anthropic-beta"; "anthropic-dangerous-direct-browser-access"; "x-app"; "x-stainless-lang";
        "x-stainless-package-version"; "x-stainless-os"; "x-stainless-arch"; "x-stainless-runtime";
        "x-stainless-runtime-version"; "x-stainless-retry-count"; "x-stainless-timeout";
        "x-stainless-helper-method"; "x-claude-code-session-id"; "x-claude-code-agent-id";
        "x-claude-code-parent-agent-id"; "x-claude-remote-container-id"; "x-claude-remote-session-id";
        "x-client-app"; "x-anthropic-additional-protection"]%string)
    NoIssueDate NoExpiry.

(** ** Which jobs a policy permits *)

(** One segment of a rule against one of the request. *)
Definition seg_matches (rule request : string) : Prop :=
  if isPlaceholderSegment rule then request <> ""%string else rule = request.

(** The request path is the rule's, segment by segment, or lies below it. *)
Definition under (rulePath requestPath : string) : Prop :=
  exists pre extra, path_segments requestPath = pre ++ extra
    /\ Forall2 seg_matches (path_segments rulePath) pre /\ Forall (fun s => s <> ""%string) extra.

Definition admits (r : Rule) (path method : string) : Prop := under (r_Path r) path /\ method ∈ r_Methods r.

(** [r] is the first rule that admits the request. *)
Definition first_admitting (rules : list Rule) (path method : string) (r : Rule) : Prop :=
  exists before after, rules = before ++ r :: after /\ admits r path method
    /\ Forall (fun r' => ~ admits r' path method) before.

Definition query_permitted (query : string) (r : Rule) : Prop :=
  query = ""%string \/
  exists keys, ParseQuery_keys query = Some keys /\ (""%string ∉ keys)
    /\ (r_AllowAnyQuery r = false -> forall k, k ∈ keys -> k ∈ r_QueryKeys r).

Lemma seg_match_iff r q : seg_match r q = true <-> seg_matches r q.
Proof.
  unfold seg_match, seg_matches. destruct (isPlaceholderSegment r); [|apply String.eqb_eq].
  by rewrite negb_true_iff, String.eqb_neq.
Qed.

Lemma match_segments_iff rule req :
  match_segments rule req = true <->
  exists pre extra, req = pre ++ extra /\ Forall2 seg_matches rule pre /\ Forall (fun s => s <> ""%string) extra.
Proof.
  revert req. induction rule as [|r rule IH]; intros req; cbn [match_segments].
  - rewrite forallb_forall. setoid_rewrite negb_true_iff. setoid_rewrite String.eqb_neq.
    setoid_rewrite <- list_elem_of_In. rewrite <- Forall_forall. split.
    + intros F. by exists [], req.
    + by intros (pre & extra & -> & ->%Forall2_nil_inv_l & F).
  - destruct req as [|q req].
    + split; [done|]. intros (pre & extra & E & F & _). inversion F; subst. done.
    + rewrite andb_true_iff, seg_match_iff, IH. split.
      * intros (M & pre & extra & -> & F & X). exists (q :: pre), extra. split_and!; [done|by constructor|done].
      * intros (pre & extra & E & F & X). inversion F as [|? q' ? pre' M F']; subst. injection E as <- ->.
        split; [done|]. by exists pre', extra.
Qed.

Lemma matchPathRule_iff rule path : matchPathRule rule path = true <-> under rule path.
Proof. apply match_segments_iff. Qed.

Lemma existsb_eqb_iff x l : existsb (String.eqb x) l = true <-> x ∈ l.
Proof.
  rewrite existsb_exists. setoid_rewrite String.eqb_eq. setoid_rewrite <- list_elem_of_In.
  split; [by intros (? & ? & ->)|by eauto].
Qed.

Lemma MethodAllowed_iff r m : MethodAllowed r m = true <-> m ∈ r_Methods r.
Proof.
  rewrite <- existsb_eqb_iff. unfold MethodAllowed. rewrite !existsb_exists.
  split; intros (x & I & E); exists x; by rewrite String.eqb_sym.
Qed.

Lemma find_rule_iff rules path method pm r :
  find_rule_loop rules path method pm = Ok r <-> first_admitting rules path method r.
Proof.
  revert pm. induction rules as [|x rules IH]; intros pm; cbn [find_rule_loop].
  - split; [by destruct pm|]. intros (b & a & E & _). by destruct b.
  - assert (Step : ~ admits x path method -> first_admitting (x :: rules) path method r <-> first_admitting rules path method r).
    { intros N. split.
      - intros ([|y b] & a & E & A & F); injection E as <- ->; [done|]. exists b, a. by inversion F.
      - intros (b & a & -> & A & F). exists (x :: b), a. by split_and!; [|done|constructor]. }
    destruct (matchPathRule (r_Path x) path) eqn:M; cbn [negb].
    2: { rewrite IH, Step; [done|]. intros [U _]. apply matchPathRule_iff in U. congruence. }
    apply matchPathRule_iff in M. destruct (MethodAllowed x method) eqn:A.
    + apply MethodAllowed_iff in A. split.
      * intros [= <-]. by exists [], rules.
      * intros ([|y b] & a & E & Ad & F); injection E as <- ->; [done|]. inversion F; subst. by destruct H1.
    + rewrite IH, Step; [done|]. intros [_ I]. apply MethodAllowed_iff in I. congruence.
Qed.

Section Permitted.
Context {SH : Sha256} {PC : PolicyCbor} {GU : GoUnicode}.

Record permitted (p : Policy) (s : Spec) (d : Decision) : Prop := {
  pm_host : exists allowed, allowed ∈ p_Hosts p /\ normalise allowed = normalise (sp_Host s);
  pm_rule : first_admitting (p_Rules p) (sp_Path s) (sp_Method s) (d_Rule d);
  pm_headers : forall name, is_Some (sp_Headers s !! name) ->
    exists allowed, allowed ∈ l_AllowedHeaders (p_Limits p) /\ EqualFold allowed name = true;
  pm_query : query_permitted (sp_Query s) (d_Rule d);
  pm_stream : sp_Stream s = true -> r_AllowStream (d_Rule d) = true;
  pm_size : sp_MaxResponseBytes s <= l_MaxResponseBytes (p_Limits p);
  pm_limit : d_MaxResponseBytes d = sp_MaxResponseBytes s;
  pm_body : d_MaxBodyBytes d = l_MaxBodyBytes (p_Limits p);
  pm_hash : policy_Hash p = Ok (d_PolicyHash d);
}.

Lemma HostAllowed_iff p host :
  HostAllowed p host = true <-> exists allowed, allowed ∈ p_Hosts p /\ normalise allowed = normalise host.
Proof.
  unfold HostAllowed, hostMatches. rewrite existsb_exists. setoid_rewrite <- list_elem_of_In.
  by setoid_rewrite String.eqb_eq.
Qed.

Lemma checkHeaders_iff p s :
  checkHeaders p s = Ok () <-> forall name, is_Some (sp_Headers s !! name) ->
    exists allowed, allowed ∈ l_AllowedHeaders (p_Limits p) /\ EqualFold allowed name = true.
Proof.
  unfold checkHeaders. open_guards. rewrite negb_false_iff, forallb_forall. unfold HeaderNames, HeaderAllowed.
  setoid_rewrite existsb_exists. setoid_rewrite <- list_elem_of_In.
  assert (A : forall name, name ∈ merge_sort String.le (map_to_list (sp_Headers s)).*1 <-> is_Some (sp_Headers s !! name)).
  { intros name. rewrite merge_sort_Permutation, list_elem_of_fmap. split.
    - intros ([n v] & -> & I%elem_of_map_to_list). by exists v.
    - intros [v E]. exists (name, v). split; [done|]. by apply elem_of_map_to_list. }
  setoid_rewrite A. tauto.
Qed.

Lemma checkQuery_iff s r : checkQuery s r = Ok () <-> query_permitted (sp_Query s) r.
Proof.
  unfold checkQuery, parseQueryKeys, query_permitted. destruct (String.eqb_spec (sp_Query s) "") as [->|N].
  { cbn. split; [by left|]. by destruct (r_AllowAnyQuery r). }
  destruct (ParseQuery_keys (sp_Query s)) as [keys|]; cbn [mbind res_bind].
  2: { split; [done|]. by intros [?|(? & ? & _)]. }
  destruct (existsb (String.eqb "") keys) eqn:X; cbn [mbind res_bind].
  { split; [done|]. apply existsb_eqb_iff in X. intros [?|(k & [= <-] & K & _)]; done. }
  assert (K : ""%string ∉ keys) by (intros K%existsb_eqb_iff; congruence). destruct (r_AllowAnyQuery r).
  { split; [|done]. intros _. right. exists keys. by split_and!. }
  open_guards. rewrite negb_false_iff, forallb_forall. setoid_rewrite <- list_elem_of_In.
  setoid_rewrite existsb_eqb_iff. setoid_rewrite merge_sort_Permutation. split.
  - intros [F _]. right. exists keys. by split_and!; [..|intros _].
  - intros [?|(k & [= <-] & _ & F)]; [done|]. split; [|done]. by apply F.
Qed.

Lemma AuthorizeAt_iff p s now d :
  AuthorizeAt p s now = Ok d <-> policy_ValidateAt p now = Ok () /\ spec_ValidateAt s now = Ok () /\ permitted p s d.
Proof.
  unfold AuthorizeAt. open_guards. apply and_iff_compat_l, and_iff_compat_l. unfold authorize. open_guards.
  rewrite negb_false_iff, HostAllowed_iff. split.
  - intros [H K]. inv_bind K. apply find_rule_iff in E. rewrite !unit_bind_iff, !guard_iff in K.
    destruct K as (Hh & Q & S & L & K). inv_bind K. apply (inj Ok) in K as <-. apply Z.ltb_ge in L.
    rewrite checkHeaders_iff in Hh. rewrite checkQuery_iff in Q.
    constructor; try done; cbn.
    + intros T. rewrite T in S. by destruct (r_AllowStream a).
    + by destruct (Z.ltb_spec (l_MaxResponseBytes (p_Limits p)) (sp_MaxResponseBytes s)); [lia|].
  - intros []. split; [done|]. apply (find_rule_iff _ _ _ false) in pm_rule0. unfold findRule. rewrite pm_rule0. cbn.
    open_guards. rewrite checkHeaders_iff, checkQuery_iff. apply Z.ltb_ge in pm_size0. rewrite pm_size0, pm_hash0.
    split_and!; try done.
    + destruct (sp_Stream s); [|done]. by rewrite pm_stream0.
    + destruct d. cbn in *. by subst.
Qed.
End Permitted.

(** ** Paths under a rule without placeholders *)

Lemma join_on_app c a b :
  a <> [] -> b <> [] -> join_on c (a ++ b) = (join_on c a ++ String.String c (join_on c b))%string.
Proof.
  intros A B. induction a as [|x [|y a] IH]; [done|by destruct b|].
  change (join_on c ((x :: y :: a) ++ b)) with (x ++ String.String c (join_on c ((y :: a) ++ b)))%string.
  rewrite IH by done. change (join_on c (x :: y :: a)) with (x ++ String.String c (join_on c (y :: a)))%string.
  by rewrite <- app_assoc_str.
Qed.

Lemma absolute_path path :
  String.prefix "/" path = true -> path = String.String "/" (join_on "/" (path_segments path)).
Proof.
  intros P. unfold path_segments. rewrite join_split. destruct path as [|a t]; [done|].
  by apply str_prefix_byte in P as <-.
Qed.

Lemma under_literal rule path :
  String.prefix "/" rule = true -> String.prefix "/" path = true ->
  (forall seg, seg ∈ path_segments rule -> isPlaceholderSegment seg = false) -> under rule path ->
  path = rule \/ exists rest, path = (rule ++ String.String "/" rest)%string.
Proof.
  intros R P L (pre & extra & E & F & _).
  assert (Eq : path_segments rule = pre).
  { clear E. induction F as [|x y xs ys M F IH]; [done|]. unfold seg_matches in M. rewrite L in M by (by left).
    rewrite M, IH; [done|]. intros. apply L. by right. }
  rewrite (absolute_path path P), (absolute_path rule R), E, <- Eq.
  destruct extra as [|e extra]; [left; by rewrite app_nil_r|right].
  exists (join_on "/" (e :: extra)). rewrite join_on_app; [done| |done].
  destruct (split_on_nonempty "/" (trim_byte rule "/")) as (g & gs & X). unfold path_segments. by rewrite X.
Qed.

Section Theorems.
Context {SH : Sha256} {PC : PolicyCbor} {GU : GoUnicode}.

Lemma rules_Validate_in rules r : rules_Validate rules = Ok () -> r ∈ rules -> rule_Validate r = Ok ().
Proof.
  induction rules as [|x rules IH]; cbn [rules_Validate]; [by intros _ ?%elem_of_nil|].
  rewrite unit_bind_iff. intros [V K] [->|I]%elem_of_cons; [done|by apply IH].
Qed.

(** C26: A job is authorised exactly when the policy is valid and in force, the job is well formed and unexpired,
    and the policy permits it: the host is listed (up to case, surrounding space and the default port), the
    first rule that admits the path and the method decides, every caller header is listed, every query
    parameter is listed unless the rule allows any, streaming is allowed if asked for and the response limit is
    within the policy's; the decision carries the job's own limit and the digest of that policy.  A route the
    job uses is then one the bring-up check [AllowsRoute] admits. *)
Theorem authorization_is_exact p s now d :
  (AuthorizeAt p s now = Ok d <->
     policy_ValidateAt p now = Ok () /\ (spec_ok s /\ time_toUnix now < sp_ExpiresAt s) /\ permitted p s d)
  /\ (AuthorizeAt p s now = Ok d -> AllowsRoute p (sp_Host s) (sp_Path s) (sp_Method s) = Ok ()).
Proof.
  rewrite AuthorizeAt_iff, spec_ValidateAt_iff. split; [done|].
  intros (V & _ & []). unfold policy_ValidateAt in V. rewrite unit_bind_iff in V. destruct V as [V _].
  unfold AllowsRoute. rewrite V. cbn. apply HostAllowed_iff in pm_host0. rewrite pm_host0. cbn.
  unfold findRule. apply (find_rule_iff _ _ _ false) in pm_rule0. by rewrite pm_rule0.
Qed.

(** An authorised job stays below the rule that admitted it: when that rule has no placeholder, the request
    path is the rule's path itself or continues it after a slash, never a longer name that merely starts the
    same way, and no segment of it is a traversal. *)
Theorem authorized_path_stays_below_rule p s now d :
  AuthorizeAt p s now = Ok d ->
  (forall seg, seg ∈ path_segments (r_Path (d_Rule d)) -> isPlaceholderSegment seg = false) ->
  (sp_Path s = r_Path (d_Rule d) \/ exists rest, sp_Path s = (r_Path (d_Rule d) ++ String.String "/" rest)%string)
  /\ forall seg, seg ∈ split_on "/" (sp_Path s) -> seg <> "."%string /\ seg <> ".."%string.
Proof.
  rewrite AuthorizeAt_iff, spec_ValidateAt_iff. intros (V & [Hs _] & []) L. destruct (ok_path _ Hs) as ((rest & Er) & _ & _ & T).
  split; [|done]. destruct pm_rule0 as (b & a & Eb & [U _] & _).
  unfold policy_ValidateAt, policy_Validate in V. rewrite !unit_bind_iff, !guard_iff, unit_bind_iff in V.
  destruct V as [V _]. destruct_and!.
  match goal with H : rules_Validate _ = Ok () |- _ => apply (rules_Validate_in _ (d_Rule d)) in H; [rename H into R|] end.
  2: { rewrite Eb. set_solver. }
  unfold rule_Validate, validatePathRule in R. rewrite !guard_iff, unit_bind_iff, !guard_iff in R. destruct_and!. norm_guards.
  apply under_literal; try done. rewrite Er. apply str_prefix_head.
Qed.
End Theorems.

(** ** The shipped whitelist at work *)

Definition demo_policy_cbor : PolicyCbor := {| cbor_policy _ := Ok [] |}.
Definition demo_unicode : GoUnicode := {| unicode_ToLower s := s; unicode_EqualFold := String.eqb |}.

(** January 2025, in nanoseconds since the year 1. *)
Definition demo_now : Z := time_Unix 1735689600.

Definition chat_spec (query : string) : Spec :=
  mkSpec 1 (zeros 16) "openai" "POST" "API.openai.com" "/v1/chat/completions" query
    {[ "Content-Type"%string := "application/json"%string ]} (zeros 32) (zeros 8) 1735690000 65536 true false [1].

Lemma authorized_path_stays_below_rule_witness :
  sp_Path (chat_spec "fault=slow") = "/v1/chat/completions"%string
  \/ exists rest, sp_Path (chat_spec "fault=slow") = ("/v1/chat/completions" ++ String.String "/" rest)%string.
Proof.
  destruct (@AuthorizeAt const_sha demo_policy_cbor demo_unicode Default (chat_spec "fault=slow") demo_now) as [d| |] eqn:E;
    [|vm_compute in E; discriminate|vm_compute in E; discriminate].
  assert (R : d_Rule d = mkRule ["POST"%string] "/v1/chat/completions" true ["fault"%string] false).
  { vm_compute in E. apply (f_equal (fun r => match r with Ok d => d_Rule d | _ => d_Rule d end)) in E. by rewrite <- E. }
  pose proof (@authorized_path_stays_below_rule const_sha demo_policy_cbor demo_unicode Default _ demo_now d E) as T.
  rewrite R in T. apply T. apply Forall_forall. repeat constructor.
Defined.
