(* ===== verification/Credential.v ===== *)
(** * Provider credentials ([tokenhive/tee/credential.go], [tokenhive/tee/inbox.go])

    A provider's token travels from its agent to the enclave sealed in an
    envelope; the Hub only carries it.  X25519, AES-GCM, the PKIX, JSON and CBOR
    encodings are parameters ([InboxLib]) with their documented behaviour
    ([InboxLaws]); the binding to the inbox key and to the provider, the key
    derivation and the checks on a secret are the program's own. *)

From Stdlib Require Import Ascii.
From S2P Require Import Prelude Bytes Crypto GoStrings Jobs.

(** ** Secrets *)

Record Secret := mkSecret { s_Token : string; s_Header : string; s_Scheme : string }.

Definition reservedInjectionHeaders : list string :=
  ["host"; "content-length"; "transfer-encoding"; "connection"; "upgrade"; "te"; "trailer"; "proxy-authorization"]%string.

Definition ErrInvalidSecret : error := "invalid credential secret".

Section Secret.
Context {GU : GoUnicode}.

Definition isReservedInjectionHeader (name : string) : bool := existsb (EqualFold name) reservedInjectionHeaders.

Definition validateTokenValue (token : string) : res unit :=
  fail_if (ContainsAny token line_breakers) ErrInvalidSecret;;
  fail_if (negb (String.eqb (TrimSpace token) token)) ErrInvalidSecret;;
  Ok ().

Definition secret_Validate (s : Secret) : res unit :=
  if String.eqb (s_Header s) "" then
    fail_if (negb (String.eqb (s_Token s) "") || negb (String.eqb (s_Scheme s) "")) ErrInvalidSecret;; Ok ()
  else
    fail_if (negb (IsToken (s_Header s))) ErrInvalidSecret;;
    fail_if (isReservedInjectionHeader (s_Header s)) ErrInvalidSecret;;
    fail_if (negb (String.eqb (s_Scheme s) "") && negb (IsToken (s_Scheme s))) ErrInvalidSecret;;
    fail_if (String.eqb (s_Token s) "") ErrInvalidSecret;;
    validateTokenValue (s_Token s).

Definition secret_Render (s : Secret) : res (string * string) :=
  _ ← secret_Validate s;
  Ok (s_Header s, if String.eqb (s_Scheme s) "" then s_Token s else (s_Scheme s ++ " " ++ s_Token s)%string).
End Secret.

(** ** Envelopes *)

Record Envelope := mkEnvelope { e_KeyID : bytes; e_Ephemeral : bytes; e_Nonce : bytes; e_Ciphertext : bytes }.

Record credentialPayload := mkPayload { cp_Provider : string; cp_Secret : Secret; cp_IssuedAt : Z }.

(** [canonical.Marshal] and [canonical.Unmarshal] of an envelope. *)
Class EnvelopeCbor := {
  cbor_envelope : Envelope -> res bytes;
  uncbor_envelope : bytes -> res Envelope;
}.

Definition CredentialEnvelopeDomain : string := "TokenHive.CredentialEnvelope.v1".

(** The nonce of [cipher.NewGCM]. *)
Definition gcmNonceSize : nat := 12.

Class InboxLib := {
  XPriv : Type;
  XPub : Type;
  x_public : XPriv -> XPub;
  x_ECDH : XPriv -> XPub -> res bytes;
  x_NewPublicKey : bytes -> res XPub;
  x_Bytes : XPub -> bytes;
  pkix_Marshal : XPub -> res bytes;
  pkix_Parse : bytes -> res (option XPub);      (* [None]: another kind of key *)
  gcm_Seal : bytes -> bytes -> bytes -> bytes;  (* key, nonce, plaintext *)
  gcm_Open : bytes -> bytes -> bytes -> option bytes;
  json_payload : credentialPayload -> res bytes;
  unjson_payload : bytes -> res credentialPayload;
}.

Definition payload_text (p : credentialPayload) : Prop :=
  is_ascii (cp_Provider p) = true /\ is_ascii (s_Token (cp_Secret p)) = true
  /\ is_ascii (s_Header (cp_Secret p)) = true /\ is_ascii (s_Scheme (cp_Secret p)) = true.

Class InboxLaws `{InboxLib} := {
  ecdh_agrees : forall a b, x_ECDH a (x_public b) = x_ECDH b (x_public a);
  public_bytes : forall p, x_NewPublicKey (x_Bytes p) = Ok p;
  public_length : forall p, length (x_Bytes p) = 32%nat;
  pkix_roundtrip : forall p der, pkix_Marshal p = Ok der -> pkix_Parse der = Ok (Some p);
  gcm_roundtrip : forall k n p, gcm_Open k n (gcm_Seal k n p) = Some p;
  payload_roundtrip : forall p b, payload_text p -> json_payload p = Ok b -> unjson_payload b = Ok p;
}.

Definition DecodeEnvelope `{EnvelopeCbor} (b : bytes) : res Envelope :=
  match uncbor_envelope b with Err _ => Err "decode credential envelope" | r => r end.

Section Inbox.
Context {SH : Sha256} {IL : InboxLib}.

Record InboxPublic := mkInboxPublic { ip_KeyID : bytes; ip_PublicKey : bytes }.

Record InboxKey := mkInboxKey { ik_priv : XPriv; ik_pub : XPub; ik_id : bytes; ik_der : bytes }.

(** [priv] is what [ecdh.X25519().GenerateKey] returned. *)
Definition GenerateInboxKey (priv : XPriv) : res InboxKey :=
  match pkix_Marshal (x_public priv) with
  | Ok der => Ok (mkInboxKey priv (x_public priv) (sha256 der) der)
  | Err _ => Err "marshal inbox public key"
  | Panic => Panic
  end.

Definition inbox_Public (k : InboxKey) : InboxPublic := mkInboxPublic (ik_id k) (ik_der k).

Definition deriveEnvelopeKey (keyID ephemeral shared : bytes) : bytes :=
  sha256 (str CredentialEnvelopeDomain ++ keyID ++ ephemeral ++ shared).

Definition inbox_Open (k : InboxKey) (env : Envelope) : res (Secret * string) :=
  fail_if (negb (length (e_KeyID env) =? 32)%nat) "envelope has no key ID";;
  fail_if (negb (bytes_eqb (e_KeyID env) (ik_id k))) "envelope was not encrypted for this inbox key";;
  fail_if (negb (length (e_Ephemeral env) =? 32)%nat) "envelope has a malformed ephemeral key";;
  eph ← x_NewPublicKey (e_Ephemeral env);
  shared ← x_ECDH (ik_priv k) eph;
  let key := deriveEnvelopeKey (ik_id k) (e_Ephemeral env) shared in
  fail_if (negb (length (e_Nonce env) =? gcmNonceSize)%nat) "envelope has a malformed nonce";;
  match gcm_Open key (e_Nonce env) (e_Ciphertext env) with
  | None => Err "envelope failed to decrypt (wrong key or tampered)"
  | Some plain =>
      payload ← unjson_payload plain;
      Ok (cp_Secret payload, cp_Provider payload)
  end.

(** [eph] and [nonce] are drawn from [crypto/rand], [now] is the clock. *)
Definition EncryptCredential (pub : InboxPublic) (provider : string) (secret : Secret) (eph : XPriv) (nonce : bytes) (now : Z)
    : res Envelope :=
  parsed ← pkix_Parse (ip_PublicKey pub);
  match parsed with
  | None => Err "inbox public key is not an X25519 key"
  | Some theirKey =>
      fail_if (negb (bytes_eqb (ip_KeyID pub) (sha256 (ip_PublicKey pub)))) "inbox key ID does not match its public key";;
      shared ← x_ECDH eph theirKey;
      let ephBytes := x_Bytes (x_public eph) in
      let key := deriveEnvelopeKey (ip_KeyID pub) ephBytes shared in
      plain ← json_payload (mkPayload provider secret (time_toUnix now));
      Ok (mkEnvelope (ip_KeyID pub) ephBytes nonce (gcm_Seal key nonce plain))
  end.
End Inbox.

(** ** Facts *)

Section Facts.
Context {SH : Sha256} {IL : InboxLib} {GU : GoUnicode}.

Lemma reserved_iff name :
  IsToken name = true -> isReservedInjectionHeader name = true <-> lower_string name ∈ reservedInjectionHeaders.
Proof.
  intros T%IsToken_ascii. apply fold_member; [done|]. repeat constructor.
Qed.

(** What a rendered secret puts on the wire: nothing, or one header line that neither frames the request nor ends early. *)
Lemma secret_Render_safe s n v :
  secret_Render s = Ok (n, v) -> n <> ""%string ->
  IsToken n = true /\ (lower_string n ∉ reservedInjectionHeaders) /\ clean line_breakers v.
Proof.
  unfold secret_Render. intros R N. inv_bind R. apply (inj Ok) in R. injection R as <- <-.
  unfold secret_Validate in E. destruct (String.eqb_spec (s_Header s) "") as [X|_]; [done|].
  destruct a. rewrite !guard_iff in E. destruct E as (T & Rs & Sc & _ & V). unfold validateTokenValue in V.
  rewrite !guard_iff, ContainsAny_clean in V. destruct V as (C & _ & _). norm_guards.
  split_and!; [done|by rewrite <- reserved_iff, Rs|]. destruct (String.eqb_spec (s_Scheme s) "") as [|Ne]; [done|].
  cbn in Sc. norm_guards. intros a I B. rewrite !list_ascii_app, !elem_of_app in I.
  destruct I as [I|[I|I]]; [|by apply list_elem_of_singleton in I as ->; vm_compute in B; set_solver|by apply (C a)].
  unfold IsToken in Sc. apply andb_true_iff in Sc as [_ Sc]. rewrite all_chars_true in Sc. specialize (Sc a I).
  vm_compute in B. set_unfold in B. destruct B as [->|[->|[->|[]]]]; vm_compute in Sc; discriminate.
Qed.

(** An envelope sealed to the enclave's published inbox key opens to the secret and the provider that were
    sealed in it; an envelope that names another inbox key is refused. *)
Theorem sealed_credential_opens {LW : InboxLaws} priv k provider secret eph nonce now env :
  GenerateInboxKey priv = Ok k -> length nonce = gcmNonceSize -> payload_text (mkPayload provider secret (time_toUnix now)) ->
  EncryptCredential (inbox_Public k) provider secret eph nonce now = Ok env ->
  inbox_Open k env = Ok (secret, provider)
  /\ forall other, ik_id other <> ik_id k -> is_ok (inbox_Open other env) = false.
Proof.
  intros G Ln T E. unfold GenerateInboxKey in G. destruct (pkix_Marshal (x_public priv)) as [der| |] eqn:M; [|done..].
  apply (inj Ok) in G as <-. unfold EncryptCredential in E. cbn [inbox_Public ip_PublicKey ip_KeyID ik_der ik_id] in *.
  rewrite (pkix_roundtrip _ _ M) in E. cbn in E. rewrite bytes_eqb_refl in E. cbn in E. inv_bind E. inv_bind E.
  apply (inj Ok) in E as <-. unfold inbox_Open. cbn [e_KeyID e_Ephemeral e_Nonce e_Ciphertext].
  rewrite sha256_length, public_length, public_bytes, Ln. cbn [negb Nat.eqb gcmNonceSize]. split.
  - rewrite bytes_eqb_refl. cbn. rewrite ecdh_agrees, E0. cbn. rewrite gcm_roundtrip.
    by rewrite (payload_roundtrip _ _ T E1).
  - intros other N. unfold bytes_eqb. by rewrite bool_decide_eq_false_2.
Qed.
End Facts.

(** ** A concrete envelope *)

Definition demo_secret : Secret := mkSecret "sk-1" "Authorization" "Bearer".
Definition demo_payload : credentialPayload := mkPayload "openai" demo_secret 1735689600.

Definition is_demo_payload (p : credentialPayload) : bool :=
  bool_decide (cp_Provider p = cp_Provider demo_payload /\ s_Token (cp_Secret p) = s_Token demo_secret
    /\ s_Header (cp_Secret p) = s_Header demo_secret /\ s_Scheme (cp_Secret p) = s_Scheme demo_secret
    /\ cp_IssuedAt p = cp_IssuedAt demo_payload).

(** One-point primitives: every law holds and the demo payload can be encoded. *)
Definition demo_inbox_lib : InboxLib := {|
  XPriv := unit; XPub := unit; x_public _ := (); x_ECDH _ _ := Ok []; x_NewPublicKey _ := Ok ();
  x_Bytes _ := zeros 32; pkix_Marshal _ := Ok [7]; pkix_Parse _ := Ok (Some ());
  gcm_Seal _ _ p := p; gcm_Open _ _ c := Some c;
  json_payload p := if is_demo_payload p then Ok [1] else Err "json";
  unjson_payload _ := Ok demo_payload;
|}.

Lemma demo_inbox_laws : @InboxLaws demo_inbox_lib.
Proof.
  split; try done; [by intros []|by intros [] ? _|].
  intros p b _ E. cbn in E. unfold is_demo_payload in E. case_bool_decide as X; [|done].
  destruct p as [pr [tk hd sc] at_]. cbn in X. destruct X as (-> & -> & -> & -> & ->). done.
Qed.

Definition demo_inbox : @InboxKey demo_inbox_lib :=
  match @GenerateInboxKey const_sha demo_inbox_lib () with Ok k => k | _ => @mkInboxKey demo_inbox_lib () () [] [] end.

Definition demo_envelope : Envelope := mkEnvelope (zeros 32) (zeros 32) (zeros 12) [1].

Lemma sealed_credential_opens_witness :
  @inbox_Open const_sha demo_inbox_lib demo_inbox demo_envelope = Ok (demo_secret, "openai"%string).
Proof.
  refine (proj1 (@sealed_credential_opens const_sha demo_inbox_lib demo_inbox_laws () demo_inbox "openai" demo_secret ()
    (zeros 12) (time_Unix 1735689600) demo_envelope _ _ _ _)).
  - vm_compute. reflexivity.
  - vm_compute. reflexivity.
  - vm_compute. split_and!; reflexivity.
  - vm_compute. reflexivity.
Defined.
