(* ===== verification/SeqStore.v ===== *)
(** * Sequence numbers ([tokenhive/tee/seqstore.go])

    The enclave numbers the executions of each provider; a number may be handed
    out only after it was recorded.  [SeqStore] is the interface the execution
    path uses with what it relies on ([SeqLaws]); the in-memory store and the
    file store implement it.  For the file store the results are about every
    history of calls, write failures, crashes at any point of a write, and
    restarts ([seq_run]). *)

From Stdlib Require Import Sorted.
From S2P Require Import Prelude Bytes GoStrings.

(** ** The interface *)

Class SeqStore := {
  seq_state : Type;
  seq_Next : seq_state -> string -> seq_state * res Z;
  seq_Peek : seq_state -> string -> Z;
}.

(** A number that is handed out is the successor of the recorded one and is
    recorded; a call that fails, and a call for another provider, changes no
    counter. *)
Class SeqLaws `{SeqStore} := {
  seq_ok : seq_state -> Prop;
  next_keeps : forall s p, seq_ok s -> seq_ok (seq_Next s p).1;
  next_ok : forall s p s' n, seq_ok s -> seq_Next s p = (s', Ok n) ->
    n = add64 (seq_Peek s p) 1 /\ seq_Peek s' p = n /\ forall q, q <> p -> seq_Peek s' q = seq_Peek s q;
  next_err : forall s p s' r, seq_ok s -> seq_Next s p = (s', r) -> is_ok r = false ->
    forall q, seq_Peek s' q = seq_Peek s q;
}.

(** ** In memory *)

Definition memorySeqStore : Type := gmap string Z.

Definition counter (m : gmap string Z) (p : string) : Z := default 0 (m !! p).

Definition memory_Next (s : memorySeqStore) (p : string) : memorySeqStore * res Z :=
  let n := add64 (counter s p) 1 in (<[p := n]> s, Ok n).

#[export] Instance memory_seq : SeqStore :=
  {| seq_state := memorySeqStore; seq_Next := memory_Next; seq_Peek := counter |}.

Lemma counter_insert m p n : counter (<[p := n]> m) p = n.
Proof. unfold counter. by rewrite lookup_insert_eq. Qed.

Lemma counter_insert_ne m p q n : q <> p -> counter (<[p := n]> m) q = counter m q.
Proof. intros N. unfold counter. by rewrite lookup_insert_ne. Qed.

#[export] Instance memory_laws : SeqLaws (H := memory_seq).
Proof.
  refine {| seq_ok := fun _ : @seq_state memory_seq => True |}; [done|..].
  - intros s p s' n _ [= <- <-]. split_and!; [done|apply counter_insert|]. intros q N. by apply counter_insert_ne.
  - intros s p s' r _ [= <- <-] F. done.
Defined.

(** ** In a file *)

(** [encoding/json] of the counters; [None] is a nil map, written [null]. *)
Class JsonCounters := {
  json_counters : option (gmap string Z) -> res bytes;
  unjson_counters : bytes -> res (option (gmap string Z));
}.

(** What is written reads back, for keys that are plain text. *)
Class JsonCountersLaws `{JsonCounters} := {
  unjson_json : forall m b, (forall k, is_Some (m !! k) -> is_ascii k = true) ->
    json_counters (Some m) = Ok b -> b <> [] /\ unjson_counters b = Ok (Some m);
  json_no_panic : forall m, json_counters m <> Panic;
}.

Record fileSeqStore := mkFileSeq { fq_data : option (gmap string Z); fq_disk : option bytes }.

Inductive flushFault := FlushOk | WriteFault | RenameFault.
Inductive loadFault := LoadOk | MkdirFault | ReadFault.

Section File.
Context `{JsonCounters}.

(** [disk] is the content of the file, [None] when it does not exist. *)
Definition NewFileSeqStore (fault : loadFault) (disk : option bytes) : res fileSeqStore :=
  match fault with
  | MkdirFault => Err "seqstore: create dir"
  | ReadFault => Err "seqstore: read"
  | LoadOk =>
      match disk with
      | None => Ok (mkFileSeq (Some ∅) None)
      | Some raw =>
          if (0 <? length raw)%nat then
            match unjson_counters raw with
            | Ok m => Ok (mkFileSeq m disk)
            | Err _ => Err "seqstore: parse"
            | Panic => Panic
            end
          else Ok (mkFileSeq (Some ∅) disk)
      end
  end.

Definition flushLocked (fault : flushFault) (s : fileSeqStore) : fileSeqStore * res unit :=
  match json_counters (fq_data s) with
  | Err _ => (s, Err "seqstore: marshal")
  | Panic => (s, Panic)
  | Ok encoded =>
      match fault with
      | WriteFault => (s, Err "seqstore: write")
      | RenameFault => (s, Err "rename")
      | FlushOk => (mkFileSeq (fq_data s) (Some encoded), Ok ())
      end
  end.

(** [s.data[key]++] on a nil map panics. *)
Definition file_Next (fault : flushFault) (s : fileSeqStore) (p : string) : fileSeqStore * res Z :=
  match fq_data s with
  | None => (s, Panic)
  | Some m =>
      let n := add64 (counter m p) 1 in
      match flushLocked fault (mkFileSeq (Some (<[p := n]> m)) (fq_disk s)) with
      | (s', Ok _) => (s', Ok n)
      | (s', Err e) => (mkFileSeq (Some (<[p := sub64 n 1]> m)) (fq_disk s'), Err e)
      | (s', Panic) => (s', Panic)
      end
  end.

Definition file_Peek (s : fileSeqStore) (p : string) : Z := counter (default ∅ (fq_data s)) p.

Definition file_Close (fault : flushFault) (s : fileSeqStore) : fileSeqStore * res unit := flushLocked fault s.

(** ** Histories

    A process that runs with a store, or only the file it left behind. *)
Inductive seqWorld := Running (s : fileSeqStore) | Stopped (disk : option bytes).

Inductive seqOp :=
| OpNext (p : string) (fault : flushFault)
| OpDie (p : string) (renamed : bool)     (* the process dies inside Next, before or after the rename *)
| OpExit (fault : flushFault)             (* Close, then the process ends *)
| OpStart (fault : loadFault).

(** The step and the number it hands out, if any. *)
Definition seq_step (w : seqWorld) (op : seqOp) : seqWorld * option (string * Z) :=
  match w, op with
  | Running s, OpNext p f =>
      match file_Next f s p with
      | (s', Ok n) => (Running s', Some (p, n))
      | (s', Err _) => (Running s', None)
      | (s', Panic) => (Stopped (fq_disk s'), None)
      end
  | Running s, OpDie p renamed => (Stopped (fq_disk (file_Next (if renamed then FlushOk else RenameFault) s p).1), None)
  | Running s, OpExit f => (Stopped (fq_disk (file_Close f s).1), None)
  | Stopped d, OpStart f => match NewFileSeqStore f d with Ok s => (Running s, None) | _ => (w, None) end
  | _, _ => (w, None)
  end.

Fixpoint seq_run (w : seqWorld) (ops : list seqOp) : seqWorld * list (string * Z) :=
  match ops with
  | [] => (w, [])
  | op :: ops =>
      let '(w, e) := seq_step w op in
      let '(w, l) := seq_run w ops in
      (w, match e with Some x => x :: l | None => l end)
  end.

(** The numbers a provider got, in order. *)
Definition issued_to (p : string) (l : list (string * Z)) : list Z := omap (fun x => if String.eqb x.1 p then Some x.2 else None) l.
End File.

(** ** Numbers never repeat *)

Definition ascii_keys (m : gmap string Z) : Prop := forall k, is_Some (m !! k) -> is_ascii k = true.

Definition op_ascii (op : seqOp) : Prop :=
  match op with OpNext p _ | OpDie p _ => is_ascii p = true | _ => True end.

Definition no_crash (op : seqOp) : Prop := match op with OpDie _ _ => False | _ => True end.

Section Series.
Context `{JL : JsonCountersLaws}.

(** The file holds the counters [m]. *)
Definition disk_holds (d : option bytes) (m : gmap string Z) : Prop :=
  match d with None => m = ∅ | Some b => b <> [] /\ unjson_counters b = Ok (Some m) end.

Definition same_counters (m m' : gmap string Z) : Prop := forall p, counter m p = counter m' p.

(** The file holds [m], and a running store has the same counters in memory; [k] bounds them. *)
Definition seq_inv (w : seqWorld) (m : gmap string Z) (k : Z) : Prop :=
  ascii_keys m /\ (forall p, 0 <= counter m p <= k)
  /\ match w with
     | Stopped d => disk_holds d m
     | Running s => disk_holds (fq_disk s) m
         /\ exists m', fq_data s = Some m' /\ ascii_keys m' /\ same_counters m' m
     end.

Lemma ascii_keys_insert m p n : ascii_keys m -> is_ascii p = true -> ascii_keys (<[p := n]> m).
Proof.
  intros K A k [x E]. destruct (decide (k = p)) as [->|N]; [done|]. rewrite lookup_insert_ne in E by done.
  apply K. by exists x.
Qed.

Lemma same_counters_insert m m' p : same_counters m m' -> counter m p = counter m' p.
Proof. done. Qed.

Lemma roll_back m p : 0 <= counter m p < 2 ^ 64 - 1 -> same_counters (<[p := sub64 (add64 (counter m p) 1) 1]> m) m.
Proof.
  intros B q. destruct (decide (q = p)) as [->|N]; [|by apply counter_insert_ne].
  rewrite counter_insert. unfold add64, sub64. rewrite (u64_id (counter m p + 1)) by (unfold is_u64; lia).
  rewrite u64_id by (unfold is_u64; lia). lia.
Qed.

Lemma same_counters_trans m1 m2 m3 : same_counters m1 m2 -> same_counters m2 m3 -> same_counters m1 m3.
Proof. intros A B p. by rewrite A, B. Qed.

(** What one call of [Next] leaves behind: nothing new, or the successor on disk. *)
Lemma file_Next_cases f s p m k :
  seq_inv (Running s) m k -> k < 2 ^ 64 - 1 -> is_ascii p = true ->
  let '(s', r) := file_Next f s p in
  let m1 := <[p := counter m p + 1]> m in
  (is_ok r = false /\ disk_holds (fq_disk s') m /\ (r <> Panic -> seq_inv (Running s') m (k + 1)))
  \/ (exists m', r = Ok (counter m p + 1) /\ disk_holds (fq_disk s') m' /\ same_counters m' m1
      /\ seq_inv (Running s') m' (k + 1)).
Proof.
  intros (K & B & D & m' & Ed & K' & S) Hk A. unfold file_Next. rewrite Ed.
  assert (N : add64 (counter m' p) 1 = counter m p + 1).
  { rewrite S. unfold add64. apply u64_id. unfold is_u64. specialize (B p). lia. }
  unfold flushLocked. cbn [fq_data fq_disk]. destruct (json_counters _) as [b|e|] eqn:J; [destruct f|..]; cbn [fq_disk fq_data].
  2-4: left; split_and!; [done..|]; intros _; split_and!; [done|intros q; specialize (B q); lia|done|];
       eexists; split_and!; [done|by apply ascii_keys_insert|]; eapply same_counters_trans; [|exact S]; apply roll_back;
       rewrite S; specialize (B p); lia.
  2: by left; split_and!.
  right. exists (<[p := add64 (counter m' p) 1]> m'). rewrite N in J |- *.
  assert (Ka : ascii_keys (<[p := counter m p + 1]> m')) by (by apply ascii_keys_insert).
  destruct (unjson_json _ _ Ka J) as [Nb U].
  assert (Sc : same_counters (<[p := counter m p + 1]> m') (<[p := counter m p + 1]> m)).
  { intros q. destruct (decide (q = p)) as [->|]; [by rewrite !counter_insert|]. rewrite !counter_insert_ne by done. apply S. }
  refine (conj eq_refl (conj (conj Nb U) (conj Sc (conj Ka (conj _ (conj (conj Nb U) _)))))).
  - intros q. rewrite Sc. pose proof (B q). pose proof (B p).
    destruct (decide (q = p)) as [->|]; [rewrite counter_insert|rewrite counter_insert_ne by done]; lia.
  - by eexists.
Qed.

Lemma inv_weaken w m k k' : seq_inv w m k -> k <= k' -> seq_inv w m k'.
Proof. intros (K & B & R) L. split_and!; [done| |done]. intros p. specialize (B p). lia. Qed.

Lemma disk_inv d m k : ascii_keys m -> (forall p, 0 <= counter m p <= k) -> disk_holds d m -> seq_inv (Stopped d) m k.
Proof. by intros. Qed.

Lemma disk_inv_weaken d m k :
  ascii_keys m -> (forall p, 0 <= counter m p <= k) -> disk_holds d m -> seq_inv (Stopped d) m (k + 1).
Proof. intros K B D. apply disk_inv; [done| |done]. intros q. specialize (B q). lia. Qed.

(** One step: an event is the successor of the recorded number, and recorded; without a crash nothing else moves a counter. *)
Lemma seq_step_inv w op m k :
  seq_inv w m k -> k < 2 ^ 64 - 1 -> op_ascii op ->
  exists m', seq_inv (seq_step w op).1 m' (k + 1)
    /\ (forall q, counter m q <= counter m' q)
    /\ match (seq_step w op).2 with
       | Some (p, n) => n = counter m p + 1 /\ counter m' p = n /\ forall q, q <> p -> counter m' q = counter m q
       | None => no_crash op -> same_counters m' m
       end.
Proof.
  intros I Hk A. destruct w as [s|d], op as [p f|p ren|f|f]; cbn [seq_step];
    try (exists m; split_and!; [by apply (inv_weaken _ _ k); [|lia]|done|done]; fail).
  - pose proof (file_Next_cases f s p m k I Hk A) as C. destruct I as (K & B & _).
    destruct (file_Next f s p) as [s' r]. destruct C as [(F & D & R)|(m' & -> & D & Sc & I')]; cbn in *.
    + exists m. destruct r as [n|e|]; [done|..]; cbn; (split; [|split; [done|done]]); [by apply R|].
      by apply (disk_inv_weaken _ _ k).
    + exists m'. split_and!; [done| |done|by rewrite Sc, counter_insert|].
      * intros q. rewrite Sc. destruct (decide (q = p)) as [->|]; [rewrite counter_insert; lia|by rewrite counter_insert_ne].
      * intros q N. by rewrite Sc, counter_insert_ne.
  - set (f := if ren then FlushOk else RenameFault). pose proof (file_Next_cases f s p m k I Hk A) as C.
    destruct I as (K & B & _). destruct (file_Next f s p) as [s' r]. cbn.
    destruct C as [(F & D & R)|(m' & -> & D & Sc & (K' & B' & _))].
    + exists m. split; [by apply (disk_inv_weaken _ _ k)|done].
    + exists m'. split; [by apply disk_inv|]. split; [|done]. intros q. rewrite Sc.
      destruct (decide (q = p)) as [->|]; [rewrite counter_insert; lia|by rewrite counter_insert_ne].
  - destruct I as (K & B & D & m' & Ed & K' & S). unfold file_Close, flushLocked. rewrite Ed.
    destruct (json_counters (Some m')) as [b|e|] eqn:J; [destruct f|..]; cbn [fst snd fq_disk].
    1: destruct (unjson_json _ _ K' J) as [Nb U]; exists m'; split; [|by split; [intros q; rewrite S|]];
       apply (disk_inv_weaken _ _ k); try done; intros q; by rewrite S.
    all: exists m; split; [by apply (disk_inv_weaken _ _ k)|done].
  - destruct I as (K & B & D). exists m. unfold NewFileSeqStore. split; [|by destruct f; try done; repeat case_match].
    assert (B' : forall q, 0 <= counter m q <= k + 1) by (intros q; specialize (B q); lia).
    destruct f; [|by apply disk_inv..]. destruct d as [b|]; cbn in D.
    + destruct D as [Nb U]. destruct (Nat.ltb_spec 0 (length b)) as [L|L]; [|by destruct b; cbn in L; [|lia]].
      rewrite U. refine (conj K (conj B' (conj (conj Nb U) _))). by exists m.
    + subst m. refine (conj K (conj B' (conj eq_refl _))). by exists ∅.
Qed.

Lemma issued_cons p e l :
  issued_to p (match e with Some x => x :: l | None => l end)
  = match e with Some (q, n) => if String.eqb q p then n :: issued_to p l else issued_to p l | None => issued_to p l end.
Proof. destruct e as [[q n]|]; [|done]. unfold issued_to. cbn. by destruct (String.eqb q p). Qed.

Lemma StronglySorted_lower c c' l : c <= c' -> StronglySorted Z.lt (c' :: l) -> StronglySorted Z.lt (c :: l).
Proof.
  intros L S. apply StronglySorted_inv in S as [S F]. constructor; [done|].
  eapply Forall_impl; [exact F|]. cbn. lia.
Qed.

Lemma seq_run_inv ops w m k p :
  seq_inv w m k -> k + Z.of_nat (length ops) < 2 ^ 64 - 1 -> Forall op_ascii ops ->
  let l := issued_to p (seq_run w ops).2 in
  StronglySorted Z.lt (counter m p :: l)
  /\ (Forall no_crash ops -> l = seqZ (counter m p + 1) (Z.of_nat (length l))).
Proof.
  revert w m k. induction ops as [|op ops IH]; intros w m k I L A; cbn [seq_run].
  { cbn. split; [by repeat constructor|done]. }
  apply Forall_cons in A as [A As]. cbn [length] in L.
  destruct (seq_step_inv w op m k I ltac:(lia) A) as (m' & I' & Mono & Ev).
  destruct (seq_step w op) as [w1 e]. cbn [fst snd] in *.
  specialize (IH w1 m' (k + 1) I' ltac:(lia) As). destruct (seq_run w1 ops) as [w2 l] eqn:R. cbn [snd] in *.
  rewrite issued_cons. destruct IH as [S G]. destruct e as [[q n]|].
  - destruct Ev as (-> & En & Other). destruct (String.eqb_spec q p) as [->|N].
    + rewrite En in S, G. split; [constructor; [done|]|].
      * apply StronglySorted_inv in S as [_ F]. constructor; [lia|]. eapply Forall_impl; [exact F|]. cbn. lia.
      * intros [_ NC]%Forall_cons. cbn [length]. rewrite seqZ_cons by lia. f_equal.
        rewrite (G NC) at 1. do 2 f_equal; lia.
    + rewrite Other in S, G by done. split; [done|]. intros [_ NC]%Forall_cons. by apply G.
  - split; [by eapply StronglySorted_lower; [apply Mono|]|]. intros [N NC]%Forall_cons. rewrite <- (Ev N p). by apply G.
Qed.

(** C22: Whatever happens to the enclave's process, a provider's sequence numbers never repeat and never go back:
    over any history of calls, failed writes, crashes before or after the rename, clean exits and restarts from
    the file, the numbers handed to a provider are strictly increasing from 1.  As long as no process dies
    inside a call they are even consecutive: a failed write takes its number back. *)
Theorem sequence_numbers_never_repeat ops p :
  Z.of_nat (length ops) < 2 ^ 64 - 1 -> Forall op_ascii ops ->
  let issued := issued_to p (seq_run (Stopped None) ops).2 in
  StronglySorted Z.lt (0 :: issued)
  /\ (Forall no_crash ops -> issued = seqZ 1 (Z.of_nat (length issued))).
Proof.
  intros L A. assert (C : forall q, counter ∅ q = 0) by (intros q; unfold counter; by rewrite lookup_empty).
  pose proof (seq_run_inv ops (Stopped None) ∅ 0 p) as R. rewrite C in R. apply R; [|done..].
  split_and!; [intros k [x E]; by rewrite lookup_empty in E|intros q; by rewrite C|done].
Qed.

(** A file that was emptied is read as a first run: the series starts again at 1, whatever was issued before. *)
Lemma emptied_file_restarts_series p : 
  exists s, NewFileSeqStore LoadOk (Some []) = Ok s /\ file_Peek s p = 0.
Proof. eexists. split; [reflexivity|]. done. Qed.
End Series.

(** ** The file store as the execution path sees it

    The state carries the schedule of write failures, one entry per call. *)
#[export] Instance file_seq `{JsonCounters} : SeqStore := {|
  seq_state := fileSeqStore * list flushFault;
  seq_Next s p :=
    let '(s', r) := file_Next (match s.2 with [] => FlushOk | f :: _ => f end) s.1 p in ((s', tail s.2), r);
  seq_Peek s p := file_Peek s.1 p;
|}.

Lemma file_Next_laws `{JsonCountersLaws} f s p m :
  fq_data s = Some m -> is_u64 (counter m p) ->
  let '(s', r) := file_Next f s p in
  exists m', fq_data s' = Some m'
    /\ match r with
       | Ok n => n = add64 (counter m p) 1 /\ m' = <[p := n]> m
       | _ => same_counters m' m
       end.
Proof.
  intros E U. unfold file_Next, flushLocked. rewrite E. cbn [fq_data fq_disk].
  assert (RB : same_counters (<[p := sub64 (add64 (counter m p) 1) 1]> m) m).
  { intros q. destruct (decide (q = p)) as [->|N]; [|by apply counter_insert_ne].
    rewrite counter_insert. unfold add64, sub64, u64. rewrite Zminus_mod_idemp_l.
    replace (counter m p + 1 - 1) with (counter m p) by lia. by apply Z.mod_small. }
  destruct (json_counters _) as [b|e|] eqn:J; [destruct f|..]; [by eexists..|]. by apply json_no_panic in J.
Qed.

#[export] Instance file_laws `{JL : JsonCountersLaws} : SeqLaws (H := file_seq).
Proof.
  refine {| seq_ok := fun s : @seq_state file_seq =>
    exists m, fq_data s.1 = Some m /\ forall p, is_u64 (counter m p) |}.
  - intros [s fs] p (m & E & U). cbn in *.
    pose proof (file_Next_laws (match fs with [] => FlushOk | f :: _ => f end) s p m E (U p)) as L.
    destruct (file_Next _ s p) as [s' r]. destruct L as (m' & E' & L). cbn. exists m'. split; [done|]. intros q.
    destruct r as [n| |]; [|by rewrite L..]. destruct L as [-> ->].
    destruct (decide (q = p)) as [->|]; [rewrite counter_insert; apply u64_range|by rewrite counter_insert_ne].
  - intros [s fs] p [s' fs'] n (m & E & U) R. cbn in *.
    pose proof (file_Next_laws (match fs with [] => FlushOk | f :: _ => f end) s p m E (U p)) as L.
    destruct (file_Next _ s p) as [s1 r]. destruct L as (m' & E' & L). injection R as <- <- ->. destruct L as [-> ->].
    unfold file_Peek. cbn. rewrite E, E'. cbn. rewrite counter_insert. split_and!; [done..|].
    intros q N. by apply counter_insert_ne.
  - intros [s fs] p [s' fs'] r (m & E & U) R F q. cbn in *.
    pose proof (file_Next_laws (match fs with [] => FlushOk | f :: _ => f end) s p m E (U p)) as L.
    destruct (file_Next _ s p) as [s1 r1]. destruct L as (m' & E' & L). injection R as <- <- ->.
    unfold file_Peek. cbn. rewrite E, E'. cbn. by destruct r.
Defined.

(** ** A concrete history *)

(** A codec of one counter, enough for one provider. *)
Definition demo_json : JsonCounters := {|
  json_counters m :=
    match m with
    | None => Ok [0]
    | Some m => if bool_decide (m = {[ "openai"%string := counter m "openai" ]} /\ is_u64 (counter m "openai")) then Ok (1 :: le_put 8 (counter m "openai")) else Err "x"
    end;
  unjson_counters b :=
    match b with
    | 0 :: _ => Ok None
    | 1 :: b => Ok (Some {[ "openai"%string := le_get b ]})
    | _ => Err "x"
    end |}.

Definition demo_ops : list seqOp :=
  [OpStart LoadOk; OpNext "openai" FlushOk; OpNext "openai" WriteFault; OpNext "openai" FlushOk;
   OpDie "openai" true; OpStart LoadOk; OpNext "openai" FlushOk].

Lemma demo_json_laws : @JsonCountersLaws demo_json.
Proof.
  split; [|by intros [m|]; cbn; [case_bool_decide|]].
  intros m b _ E. cbn in E. case_bool_decide as X; [|done]. destruct X as [Em U]. apply (inj Ok) in E as <-.
  split; [done|]. change (Ok (Some {[ "openai"%string := le_get (le_put 8 (counter m "openai")) ]}) = Ok (Some m)).
  rewrite le_get_put, Z.mod_small by done. by rewrite <- Em.
Qed.

Lemma sequence_numbers_never_repeat_witness :
  issued_to "openai" (@seq_run demo_json (Stopped None) demo_ops).2 = [1; 2; 4]
  /\ StronglySorted Z.lt [0; 1; 2; 4].
Proof.
  assert (E : issued_to "openai" (@seq_run demo_json (Stopped None) demo_ops).2 = [1; 2; 4]) by (vm_compute; reflexivity).
  split; [exact E|]. rewrite <- E.
  refine (proj1 (@sequence_numbers_never_repeat demo_json demo_json_laws demo_ops "openai" _ _)).
  - vm_compute. reflexivity.
  - repeat constructor.
Defined.
