(* ===== verification/Transport.v ===== *)
(** * The path to the provider ([tokenhive/tee/transport.go], [tokenhive/transport/channelpool.go])

    The request the enclave puts on the wire, byte for byte, and the pool of
    resident connections it is sent over.  The pool is a state machine under one
    mutex; a connection is checked out by at most one exchange, the cap on live
    connections holds in every state, and a caller that waits is never missed
    by the wake-up that concerns it. *)

From Stdlib Require Import Ascii.
From stdpp Require Import pretty.
From S2P Require Import Prelude Bytes GoStrings Jobs.

(** ** Requests and responses *)

Record Request := mkRequest {
  rq_Method : string;
  rq_Provider : string;
  rq_Host : string;
  rq_Path : string;
  rq_Query : string;
  rq_Headers : gmap string string;
  rq_Body : bytes;
  rq_Stream : bool;
  rq_MaxResponseBytes : Z;
  rq_Timeout : Z;
  rq_JobID : bytes;
}.

Record Response := mkResponse { rs_StatusCode : Z; rs_Headers : gmap string (list string) }.

(** ** Rendering *)

Definition CRLF : string := (ch 13 ++ ch 10)%string.

Definition target (rq : Request) : string :=
  if String.eqb (rq_Query rq) "" then rq_Path rq else (rq_Path rq ++ "?" ++ rq_Query rq)%string.

Definition header_line (kv : string * string) : string := (kv.1 ++ ": " ++ kv.2)%string.

(** [order] is the order in which the header map is ranged over. *)
Definition head_lines (rq : Request) (order : list (string * string)) : list string :=
  (rq_Method rq ++ " " ++ target rq ++ " HTTP/1.1")%string
  :: ("Host: " ++ rq_Host rq)%string
  :: "Connection: keep-alive"%string
  :: map header_line order
  ++ [("Content-Length: " ++ pretty (N.of_nat (length (rq_Body rq))))%string].

Definition render_head (lines : list string) : bytes := concat (map (fun l => str (l ++ CRLF)) lines) ++ str CRLF.

Definition buildRequestBytes (rq : Request) (order : list (string * string)) : bytes :=
  render_head (head_lines rq order) ++ rq_Body rq.

(** [key] is the fresh key of [newWebSocketKey]. *)
Definition buildUpgradeBytes (rq : Request) (order : list (string * string)) (key : string) : bytes :=
  render_head ((rq_Method rq ++ " " ++ target rq ++ " HTTP/1.1")%string
    :: ("Host: " ++ rq_Host rq)%string
    :: "Connection: Upgrade"%string :: "Upgrade: websocket"%string :: "Sec-WebSocket-Version: 13"%string
    :: ("Sec-WebSocket-Key: " ++ key)%string :: map header_line order).

(** ** How a server reads a head: lines up to the first empty one *)

(** The bytes before the first CR LF, and after it. *)
Fixpoint cut_line (l : bytes) : option (bytes * bytes) :=
  match l with
  | [] => None
  | a :: t =>
      match t with
      | b :: t' =>
          if (a =? 13) && (b =? 10) then Some ([], t')
          else match cut_line t with Some (x, r) => Some (a :: x, r) | None => None end
      | [] => None
      end
  end.

Fixpoint read_head (fuel : nat) (l : bytes) : option (list bytes * bytes) :=
  match fuel with
  | O => None
  | S fuel =>
      match cut_line l with
      | None => None
      | Some ([], r) => Some ([], r)
      | Some (x, r) => match read_head fuel r with Some (xs, r') => Some (x :: xs, r') | None => None end
      end
  end.

(** A line that stays one line. *)
Definition one_line (l : string) : Prop := l <> ""%string /\ clean CRLF l.

Lemma str_app s t : str (s ++ t) = str s ++ str t.
Proof. unfold str. by rewrite list_ascii_app, map_app. Qed.

Lemma cut_line_one l r : clean CRLF l -> cut_line (str (l ++ CRLF) ++ r) = Some (str l, r).
Proof.
  intros C. rewrite str_app, <- app_assoc. induction l as [|a l IH]; [done|].
  assert (Ca : clean CRLF l) by (intros x I; apply C; by right). specialize (IH Ca).
  change (str (String.String a l)) with (code a :: str l). cbn [app cut_line].
  destruct (str l ++ str CRLF ++ r) as [|b t] eqn:E; [by destruct (str l)|].
  rewrite IH. assert (Na : code a =? 13 = false); [|by rewrite Na].
  apply Z.eqb_neq. intros X. apply (C a); [by left|].
  assert (a = Ascii.ascii_of_N 13) as ->.
  { rewrite <- (Ascii.ascii_N_embedding a). f_equal. unfold code in X. lia. }
  by left.
Qed.

Lemma read_head_render lines body :
  Forall one_line lines -> read_head (S (length lines)) (render_head lines ++ body) = Some (map str lines, body).
Proof.
  intros F. unfold render_head. induction F as [|l lines [Ne C] F IH].
  - reflexivity.
  - cbn [map concat length]. rewrite <- !app_assoc. remember (S (length lines)) as n. cbn [read_head].
    rewrite cut_line_one by done. rewrite <- app_assoc in IH. rewrite IH. by destruct l.
Qed.

(** ** The pool of resident connections *)

Record channel := mkChannel { ch_id : nat; ch_lastUsed : Z }.

(** [cp_gen] counts the wake-ups: [notify] is closed and replaced by each. *)
Record channelPool := mkPool {
  cp_idle : list channel;
  cp_active : Z;
  cp_closed : bool;
  cp_gen : nat;
}.

Inductive acquired := GotIdle (c : channel) | MustDial | MustWait (gen : nat) | PoolClosed.

Section Pool.
Variables (maxConns idleTimeout : Z).

Definition newChannelPool : channelPool := mkPool [] 0 false 0.

Definition wakeLocked (p : channelPool) : channelPool :=
  mkPool (cp_idle p) (cp_active p) (cp_closed p) (S (cp_gen p)).

Definition fresh_enough (now : Z) (c : channel) : bool := negb (idleTimeout <? time_Sub now (ch_lastUsed c)).

Definition expireIdleLocked (now : Z) (p : channelPool) : channelPool :=
  let kept := List.filter (fresh_enough now) (cp_idle p) in
  let closed := Z.of_nat (length (cp_idle p) - length kept) in
  let p' := mkPool kept (cp_active p - closed) (cp_closed p) (cp_gen p) in
  if 0 <? closed then wakeLocked p' else p'.

(** One turn of the loop of [acquire], the lock held: [MustWait] is the wait on [notify]. *)
Definition acquire_turn (now : Z) (p : channelPool) : channelPool * acquired :=
  if cp_closed p then (p, PoolClosed) else
  let p := expireIdleLocked now p in
  match last (cp_idle p) with
  | Some c => (mkPool (take (length (cp_idle p) - 1) (cp_idle p)) (cp_active p) (cp_closed p) (cp_gen p), GotIdle c)
  | None =>
      if cp_active p <? maxConns then (mkPool (cp_idle p) (cp_active p + 1) (cp_closed p) (cp_gen p), MustDial)
      else (p, MustWait (cp_gen p))
  end.

Definition releaseSlot (p : channelPool) : channelPool :=
  wakeLocked (mkPool (cp_idle p) (cp_active p - 1) (cp_closed p) (cp_gen p)).

(** The locked part; on a closed pool the caller goes on to [drop]. *)
Definition reuse (now : Z) (c : channel) (p : channelPool) : channelPool * bool :=
  if cp_closed p then (p, false)
  else (wakeLocked (mkPool (cp_idle p ++ [mkChannel (ch_id c) now]) (cp_active p) (cp_closed p) (cp_gen p)), true).

Definition drop (p : channelPool) : channelPool :=
  wakeLocked (mkPool (cp_idle p) (cp_active p - 1) (cp_closed p) (cp_gen p)).

(** The locked part; the caller then drops the connections it took out. *)
Definition pool_close (p : channelPool) : channelPool * list channel :=
  (wakeLocked (mkPool [] (cp_active p) true (cp_gen p)), cp_idle p).

(** ** Every interleaving of exchanges on one pool

    [pw_out] are the connections exchanges hold, [pw_dialing] the slots reserved
    for a dial, [pw_dropping] the connections a caller has taken out and is about
    to drop, [pw_waiting] the wake-up counts the parked callers saw. *)
Record poolWorld := mkPoolWorld {
  pw_pool : channelPool;
  pw_out : list channel;
  pw_dialing : nat;
  pw_dropping : list channel;
  pw_waiting : list nat;
}.

Definition ids (w : poolWorld) : list nat := ch_id <$> (cp_idle (pw_pool w) ++ pw_out w ++ pw_dropping w).

Inductive pool_step : poolWorld -> poolWorld -> Prop :=
| ps_got w now p c :
    acquire_turn now (pw_pool w) = (p, GotIdle c) ->
    pool_step w (mkPoolWorld p (c :: pw_out w) (pw_dialing w) (pw_dropping w) (pw_waiting w))
| ps_reserve w now p :
    acquire_turn now (pw_pool w) = (p, MustDial) ->
    pool_step w (mkPoolWorld p (pw_out w) (S (pw_dialing w)) (pw_dropping w) (pw_waiting w))
| ps_wait w now p g :
    acquire_turn now (pw_pool w) = (p, MustWait g) ->
    pool_step w (mkPoolWorld p (pw_out w) (pw_dialing w) (pw_dropping w) (g :: pw_waiting w))
| ps_leave w l1 g l2 :                       (* woken, or its context ended *)
    pw_waiting w = l1 ++ g :: l2 ->
    pool_step w (mkPoolWorld (pw_pool w) (pw_out w) (pw_dialing w) (pw_dropping w) (l1 ++ l2))
| ps_dialed w n i t :
    pw_dialing w = S n -> i ∉ ids w ->
    pool_step w (mkPoolWorld (pw_pool w) (mkChannel i t :: pw_out w) n (pw_dropping w) (pw_waiting w))
| ps_dial_failed w n :
    pw_dialing w = S n ->
    pool_step w (mkPoolWorld (releaseSlot (pw_pool w)) (pw_out w) n (pw_dropping w) (pw_waiting w))
| ps_reuse w now l1 c l2 p ok :
    pw_out w = l1 ++ c :: l2 -> reuse now c (pw_pool w) = (p, ok) ->
    pool_step w (mkPoolWorld p (l1 ++ l2) (pw_dialing w)
                   (if ok then pw_dropping w else c :: pw_dropping w) (pw_waiting w))
| ps_discard w l1 c l2 :                     (* the connection is closed, then its slot freed *)
    pw_out w = l1 ++ c :: l2 ->
    pool_step w (mkPoolWorld (drop (pw_pool w)) (l1 ++ l2) (pw_dialing w) (pw_dropping w) (pw_waiting w))
| ps_drop w l1 c l2 :
    pw_dropping w = l1 ++ c :: l2 ->
    pool_step w (mkPoolWorld (drop (pw_pool w)) (pw_out w) (pw_dialing w) (l1 ++ l2) (pw_waiting w))
| ps_expire w now :
    pool_step w (mkPoolWorld (expireIdleLocked now (pw_pool w)) (pw_out w) (pw_dialing w) (pw_dropping w) (pw_waiting w))
| ps_close w p taken :
    pool_close (pw_pool w) = (p, taken) ->
    pool_step w (mkPoolWorld p (pw_out w) (pw_dialing w) (taken ++ pw_dropping w) (pw_waiting w)).

Inductive pool_reachable : poolWorld -> Prop :=
| pr_new : pool_reachable (mkPoolWorld newChannelPool [] 0 [] [])
| pr_step w w' : pool_reachable w -> pool_step w w' -> pool_reachable w'.

(** Nothing to take and no slot free: an acquirer has to wait. *)
Definition must_wait (p : channelPool) : Prop := cp_closed p = false /\ cp_idle p = [] /\ maxConns <= cp_active p.

Record pool_inv (w : poolWorld) : Prop := {
  pi_count : cp_active (pw_pool w) =
    Z.of_nat (length (cp_idle (pw_pool w)) + length (pw_out w) + pw_dialing w + length (pw_dropping w));
  pi_cap : cp_active (pw_pool w) <= maxConns;
  pi_ids : NoDup (ids w);
  pi_past : Forall (fun g => (g <= cp_gen (pw_pool w))%nat) (pw_waiting w);
  pi_wake : cp_gen (pw_pool w) ∈ pw_waiting w -> must_wait (pw_pool w);
}.

(** After a wake-up no parked caller has seen the current count. *)
Lemma woken p l : Forall (fun g => (g <= cp_gen p)%nat) l ->
  Forall (fun g => (g <= S (cp_gen p))%nat) l /\ (S (cp_gen p) ∈ l -> False).
Proof.
  intros F. split; [eapply Forall_impl; [exact F|cbn; lia]|].
  intros I. rewrite Forall_forall in F. apply F in I. lia.
Qed.

Lemma filter_sublist {A} (f : A -> bool) l : List.filter f l `sublist_of` l.
Proof. induction l as [|x l IH]; [constructor|]. cbn. destruct (f x); by constructor. Qed.

(** What expiry leaves behind. *)
Lemma expire_inv now w :
  pool_inv w ->
  pool_inv (mkPoolWorld (expireIdleLocked now (pw_pool w)) (pw_out w) (pw_dialing w) (pw_dropping w) (pw_waiting w)).
Proof.
  intros [Hc Hm Hi Hp Hw]. unfold expireIdleLocked. set (kept := List.filter _ _).
  assert (Sub : kept `sublist_of` cp_idle (pw_pool w)) by apply filter_sublist.
  pose proof (sublist_length _ _ Sub) as L.
  assert (Hi' : forall a c g, NoDup (ids (mkPoolWorld (mkPool kept a c g) (pw_out w) (pw_dialing w) (pw_dropping w) (pw_waiting w)))).
  { intros a c g. unfold ids in *. cbn. eapply sublist_NoDup; [exact Hi|]. apply fmap_sublist. by apply sublist_app. }
  destruct (Z.ltb_spec 0 (Z.of_nat (length (cp_idle (pw_pool w)) - length kept))) as [X|X].
  - destruct (woken _ _ Hp) as [Hp' Hn]. constructor; cbn; [lia|lia|apply (Hi' 0 false 0%nat)|done|by intros ?%Hn].
  - constructor; cbn; [lia|lia|apply (Hi' 0 false 0%nat)|done|]. intros I. destruct (Hw I) as (C & E & A).
    unfold must_wait. cbn. split_and!; [done| |lia]. unfold kept. by rewrite E.
Qed.

Lemma expire_closed now p : cp_closed (expireIdleLocked now p) = cp_closed p.
Proof. unfold expireIdleLocked. by case_match. Qed.

(** The world around a pool, with what changes in a step. *)
Lemma wake_inv w idle active closed out dialing dropping :
  pool_inv w ->
  active = Z.of_nat (length idle + length out + dialing + length dropping) -> active <= maxConns ->
  NoDup (ch_id <$> idle ++ out ++ dropping) ->
  pool_inv (mkPoolWorld (mkPool idle active closed (S (cp_gen (pw_pool w)))) out dialing dropping (pw_waiting w)).
Proof.
  intros [_ _ _ Hp _] Ec Em Ei. destruct (woken _ _ Hp) as [Hp' Hn]. by constructor.
Qed.

Lemma ids_perm w l : ch_id <$> cp_idle (pw_pool w) ++ pw_out w ++ pw_dropping w ≡ₚ l -> NoDup (ids w) -> NoDup l.
Proof. intros P. unfold ids. by rewrite P. Qed.

Lemma acquire_inv now w p a :
  pool_inv w -> acquire_turn now (pw_pool w) = (p, a) ->
  match a with
  | GotIdle c => pool_inv (mkPoolWorld p (c :: pw_out w) (pw_dialing w) (pw_dropping w) (pw_waiting w))
  | MustDial => pool_inv (mkPoolWorld p (pw_out w) (S (pw_dialing w)) (pw_dropping w) (pw_waiting w))
  | MustWait g => pool_inv (mkPoolWorld p (pw_out w) (pw_dialing w) (pw_dropping w) (g :: pw_waiting w))
  | PoolClosed => True
  end.
Proof.
  intros I. unfold acquire_turn. destruct (cp_closed (pw_pool w)) eqn:Cl; [by intros [= <- <-]|].
  rewrite <- (expire_closed now) in Cl. apply (expire_inv now) in I. set (q := expireIdleLocked now (pw_pool w)) in *.
  destruct I as [Hc Hm Hi Hp Hw]. cbn in *. unfold ids in Hi. cbn in Hi.
  destruct (last (cp_idle q)) as [c|] eqn:El.
  - apply last_Some in El as (l & El). intros [= <- <-]. rewrite El in Hc, Hi |- *. rewrite length_app in Hc |- *. cbn in Hc.
    replace (length l + length [c] - 1)%nat with (length l) by (cbn; lia). rewrite take_app_length.
    constructor; cbn; try done; [lia| |].
    + unfold ids. cbn. eapply NoDup_Permutation_proper; [|exact Hi]. apply fmap_Permutation. solve_Permutation.
    + intros In. destruct (Hw In) as (_ & E & _). rewrite E in El. by destruct l.
  - destruct (Z.ltb_spec (cp_active q) maxConns) as [L|L]; intros [= <- <-].
    + constructor; cbn; try done; try lia. intros In. destruct (Hw In) as (_ & _ & E). lia.
    + apply last_None in El. constructor; cbn; try done. by constructor.
Qed.

Lemma perm_back {A} (a l1 l2 d : list A) x : (a ++ [x]) ++ (l1 ++ l2) ++ d ≡ₚ a ++ (l1 ++ x :: l2) ++ d.
Proof. solve_Permutation. Qed.

Ltac move_ids Hi := eapply NoDup_Permutation_proper; [|exact Hi]; apply fmap_Permutation; solve_Permutation.

Lemma pool_step_inv w w' : pool_inv w -> pool_step w w' -> pool_inv w'.
Proof.
  intros I St. pose proof I as [Hc Hm Hi Hp Hw]. unfold ids in Hi.
  destruct St as [w now p c E|w now p E|w now p g E|w l1 g l2 E|w n i t E F|w n E|w now l1 c l2 p ok E R|w l1 c l2 E
                 |w l1 c l2 E|w now|w p taken E].
  - by apply (acquire_inv now w p (GotIdle c)).
  - by apply (acquire_inv now w p MustDial).
  - by apply (acquire_inv now w p (MustWait g)).
  - constructor; cbn; try done.
    + rewrite E in Hp. rewrite Forall_app, Forall_cons in Hp. apply Forall_app. tauto.
    + intros In. apply Hw. rewrite E. set_solver.
  - constructor; cbn; try done; [lia|]. unfold ids. cbn.
    eapply (NoDup_Permutation_proper _ (i :: (ch_id <$> cp_idle (pw_pool w) ++ pw_out w ++ pw_dropping w))).
    { rewrite !fmap_app, fmap_cons, fmap_app. symmetry. apply Permutation_middle. }
    constructor; [|done]. done.
  - apply (wake_inv w); cbn; [done|lia|lia|done].
  - rewrite E in Hc, Hi. rewrite length_app in Hc. cbn in Hc. unfold reuse in R.
    destruct (cp_closed (pw_pool w)) eqn:Cl; injection R as <- <-.
    + constructor; cbn; try done; [rewrite length_app; lia|]. move_ids Hi.
    + apply (wake_inv w); cbn; [done|rewrite !length_app; cbn; lia|lia|].
      rewrite !fmap_app, fmap_cons in Hi. rewrite !fmap_app. eapply NoDup_Permutation_proper; [|exact Hi]. apply perm_back.
  - rewrite E in Hc, Hi. rewrite length_app in Hc. cbn in Hc.
    apply (wake_inv w); cbn; [done|rewrite length_app; lia|lia|]. eapply sublist_NoDup; [exact Hi|].
    apply fmap_sublist. apply sublist_app; [done|]. rewrite <- !app_assoc. apply sublist_app; [done|]. cbn. by apply sublist_cons.
  - rewrite E in Hc, Hi. rewrite length_app in Hc. cbn in Hc.
    apply (wake_inv w); cbn; [done|rewrite length_app; lia|lia|]. eapply sublist_NoDup; [exact Hi|].
    apply fmap_sublist. do 2 (apply sublist_app; [done|]). apply sublist_app; [done|]. by apply sublist_cons.
  - by apply expire_inv.
  - injection E as <- <-. apply (wake_inv w); cbn; [done|rewrite length_app; lia|lia|]. move_ids Hi.
Qed.

Lemma pool_reachable_inv w : 0 <= maxConns -> pool_reachable w -> pool_inv w.
Proof.
  intros M R. induction R as [|w w' R IH St]; [|by eapply pool_step_inv].
  constructor; cbn; [done|done|apply NoDup_nil_2|constructor|by intros ?%elem_of_nil].
Qed.

(** C35: Under every interleaving of exchanges, dials, expiries and shutdown on one pool: the number of live
    connections is exactly counted and never above the cap, a connection is in one place only (idle, with one
    exchange, or being dropped), and no wake-up is lost: a caller that still waits on the current notification
    would find nothing to take. *)
Theorem pool_is_bounded_and_wakes_waiters w :
  0 <= maxConns -> pool_reachable w ->
  0 <= cp_active (pw_pool w) <= maxConns
  /\ cp_active (pw_pool w) = Z.of_nat (length (cp_idle (pw_pool w)) + length (pw_out w) + pw_dialing w + length (pw_dropping w))
  /\ NoDup (ids w)
  /\ (cp_gen (pw_pool w) ∈ pw_waiting w ->
      forall now, exists p g, acquire_turn now (pw_pool w) = (p, MustWait g)).
Proof.
  intros M R. destruct (pool_reachable_inv w M R) as [Hc Hm Hi Hp Hw]. split_and!; [lia|done|done|done|].
  intros In now. destruct (Hw In) as (C & E & A). unfold acquire_turn, expireIdleLocked. rewrite C, E.
  change (0 <? _) with false. cbn [cp_idle cp_active List.filter last length Nat.sub]. rewrite Z.sub_0_r.
  destruct (Z.ltb_spec (cp_active (pw_pool w)) maxConns); [lia|]. by eexists _, _.
Qed.
End Pool.

(** Two exchanges over one slot: the second waits, the first gives its connection back, the second takes it. *)
Lemma pool_is_bounded_and_wakes_waiters_witness :
  exists w, pw_waiting w = [0%nat] /\ cp_gen (pw_pool w) = 1%nat /\ 0 <= cp_active (pw_pool w) <= 1 /\ NoDup (ids w).
Proof.
  assert (R1 : pool_reachable 1 60 (mkPoolWorld (mkPool [] 1 false 0) [] 1 [] [])).
  { eapply (pr_step 1 60); [apply pr_new|]. exact (ps_reserve 1 60 (mkPoolWorld newChannelPool [] 0 [] []) 0 (mkPool [] 1 false 0) eq_refl). }
  assert (R2 : pool_reachable 1 60 (mkPoolWorld (mkPool [] 1 false 0) [mkChannel 7 0] 0 [] [])).
  { eapply (pr_step 1 60); [apply R1|]. refine (ps_dialed 1 60 (mkPoolWorld (mkPool [] 1 false 0) [] 1 [] []) 0 7 0 eq_refl _). by intros ?%elem_of_nil. }
  assert (R3 : pool_reachable 1 60 (mkPoolWorld (mkPool [] 1 false 0) [mkChannel 7 0] 0 [] [0%nat])).
  { eapply (pr_step 1 60); [apply R2|]. exact (ps_wait 1 60 (mkPoolWorld (mkPool [] 1 false 0) [mkChannel 7 0] 0 [] []) 1 (mkPool [] 1 false 0) 0 eq_refl). }
  assert (R : pool_reachable 1 60 (mkPoolWorld (mkPool [mkChannel 7 5] 1 false 1) [] 0 [] [0%nat])).
  { eapply (pr_step 1 60); [apply R3|].
    exact (ps_reuse 1 60 (mkPoolWorld (mkPool [] 1 false 0) [mkChannel 7 0] 0 [] [0%nat]) 5 [] (mkChannel 7 0) [] (mkPool [mkChannel 7 5] 1 false 1) true eq_refl eq_refl). }
  eexists. destruct (pool_is_bounded_and_wakes_waiters 1 60 _ ltac:(lia) R) as (B & _ & N & _).
  split; [|split; [|split; [exact B|exact N]]]; reflexivity.
Defined.
