(* ===== verification/Headers.v ===== *)
(** * What the enclave reports of a response ([tokenhive/tee/headers.go], [tokenhive/tee/failure.go])

    The response headers the Hub may see and their digest, and the closed
    vocabulary for why an exchange did not complete. *)

From S2P Require Import Prelude Bytes Crypto GoStrings.

(** ** Response headers *)

Definition AllowedResponseHeaders : list string :=
  ["content-type"; "cache-control"; "retry-after"; "www-authenticate"; "x-request-id"; "request-id";
   "openai-organization"; "openai-processing-ms"; "openai-version";
   "x-ratelimit-limit-requests"; "x-ratelimit-remaining-requests"; "x-ratelimit-reset-requests";
   "x-ratelimit-limit-tokens"; "x-ratelimit-remaining-tokens"; "x-ratelimit-reset-tokens";
   "anthropic-ratelimit-requests-limit"; "anthropic-ratelimit-requests-remaining";
   "anthropic-ratelimit-requests-reset"; "anthropic-ratelimit-input-tokens-limit";
   "anthropic-ratelimit-input-tokens-remaining"; "anthropic-ratelimit-input-tokens-reset";
   "anthropic-ratelimit-output-tokens-limit"; "anthropic-ratelimit-output-tokens-remaining";
   "anthropic-ratelimit-output-tokens-reset"; "x-oai-request-id"; "cf-ray"; "x-codex-turn-state"; "x-models-etag";
   "x-reasoning-included"; "openai-model"; "x-codex-safety-buffering-enabled";
   "x-codex-safety-buffering-faster-model"]%string.

Notation headers := (gmap string (list string)) (only parsing).

(** [encoding/json] of a header set: keys sorted, so a function of the set. *)
Class HeaderJson := { json_headers : headers -> bytes }.

(** [norm[strings.ToLower(name)] = values] over the entries in some order. *)
Definition normalised `{GoUnicode} (entries : list (string * list string)) : headers :=
  fold_left (fun m kv => <[ToLower kv.1 := kv.2]> m) entries ∅.

Section Headers.
Context {SH : Sha256} {GU : GoUnicode} {HJ : HeaderJson}.

Definition header_forwarded (name : string) : bool := existsb (String.eqb (ToLower name)) AllowedResponseHeaders.

Definition ForwardResponseHeaders (src : headers) : headers :=
  filter (fun kv => header_forwarded kv.1 = true) src.

Definition HashResponseHeaders (h : headers) : bytes := sha256 (json_headers (normalised (map_to_list h))).

(** Names that differ in more than case: what [net/http] delivers. *)
Definition case_distinct (h : headers) : Prop := NoDup ((fun kv => ToLower kv.1) <$> map_to_list h).

Definition lowered (kv : string * list string) : string * list string := (ToLower kv.1, kv.2).

Lemma normalised_list entries : normalised entries = list_to_map (rev (lowered <$> entries)).
Proof.
  unfold normalised. assert (A : forall acc : headers, fold_left (fun m kv => <[ToLower kv.1 := kv.2]> m) entries acc
    = foldr (fun kv m => <[kv.1 := kv.2]> m) acc (rev (lowered <$> entries))).
  { induction entries as [|[n v] entries IH]; intros acc; [done|]. cbn [fold_left]. rewrite IH.
    rewrite fmap_cons. cbn [rev]. by rewrite foldr_app. }
  apply (A ∅).
Qed.

(** The digest does not depend on the order the map is ranged over. *)
Lemma normalised_order h entries :
  case_distinct h -> entries ≡ₚ map_to_list h -> normalised entries = normalised (map_to_list h).
Proof.
  intros D P. rewrite !normalised_list. apply list_to_map_proper.
  - rewrite <- Permutation_rev, P. rewrite <- list_fmap_compose. exact D.
  - by rewrite <- !Permutation_rev, P.
Qed.
End Headers.

(** ** Failures *)

Definition FailureRequestTimeout : string := "request_timeout".
Definition FailureCallerGone : string := "caller_gone".
Definition FailureResponseTooLarge : string := "response_too_large".
Definition FailureDial : string := "dial_failed".
Definition FailureTLSHandshake : string := "tls_handshake_failed".
Definition FailureUpstreamClosed : string := "upstream_closed".
Definition FailureReadTimeout : string := "read_timeout".
Definition FailureOther : string := "other".

Definition failure_Known (c : string) : bool :=
  existsb (String.eqb c) [FailureRequestTimeout; FailureCallerGone; FailureResponseTooLarge; FailureDial;
    FailureTLSHandshake; FailureUpstreamClosed; FailureReadTimeout; FailureOther].

Definition StageDial : string := "dial".
Definition StageTLS : string := "tls".
Definition StageWrite : string := "write".
Definition StageTTFB : string := "ttfb".
Definition StageBody : string := "body".

Record Failure := mkFailure { f_Class : string; f_Stage : string; f_Cold : bool }.

(** A transport error, as far as the code looks into it: the [*StageError] it
    carries, whether it is [ErrRequestTimeout], whether it is a timeout. *)
Record transportErr := mkTransportErr { te_stage : option (string * bool); te_ownTimeout : bool; te_timeout : bool }.

(** What the relay raised: the byte cap, or the caller's own failure. *)
Inductive stopErr := StopTooLarge | StopCaller.

Inductive contextErr := ContextOk | Canceled | DeadlineExceeded.

(** The switch: [own] is [errors.Is(err, ErrRequestTimeout)], [timeout] is [isTimeout(err)]. *)
Definition failure_class (stage : string) (own timeout : bool) (stop : option stopErr) (ctx : contextErr) : string :=
  match stop with
  | Some StopTooLarge => FailureResponseTooLarge
  | Some StopCaller => FailureCallerGone
  | None =>
      if match ctx with Canceled => true | _ => false end then FailureCallerGone
      else if match ctx with DeadlineExceeded => negb own | _ => false end then FailureCallerGone
      else if String.eqb stage StageDial then FailureDial
      else if String.eqb stage StageTLS && negb own then FailureTLSHandshake
      else if own then FailureRequestTimeout
      else if timeout then FailureReadTimeout
      else if String.eqb stage StageWrite || String.eqb stage StageTTFB || String.eqb stage StageBody
      then FailureUpstreamClosed
      else FailureOther
  end.

Definition ClassifyFailure (err : option transportErr) (stop : option stopErr) (ctx : contextErr) : option Failure :=
  match err, stop with
  | None, None => None
  | _, _ =>
      let '(stage, cold) := match err with Some e => default (""%string, false) (te_stage e) | None => (""%string, false) end in
      let own := match err with Some e => te_ownTimeout e | None => false end in
      let timeout := match err with Some e => te_timeout e | None => false end in
      Some (mkFailure (failure_class stage own timeout stop ctx) stage cold)
  end.

(** The classes for which the provider's side of the tunnel is where to look. *)
Definition upstream_class (c : string) : bool :=
  existsb (String.eqb c) [FailureTLSHandshake; FailureUpstreamClosed; FailureReadTimeout].

(** A failure never blames the upstream for what this side ended: if the byte cap was hit, the caller failed or
    left, or the exchange's own time ran out, the class is none of the upstream's. *)
Lemma failure_never_blames_upstream err stop ctx f :
  ClassifyFailure err stop ctx = Some f ->
  failure_Known (f_Class f) = true
  /\ (is_Some stop \/ ctx = Canceled \/ (exists e, err = Some e /\ te_ownTimeout e = true) ->
      upstream_class (f_Class f) = false).
Proof.
  set (own := match err with Some e => te_ownTimeout e | None => false end). intros E.
  assert (exists stage timeout, f_Class f = failure_class stage own timeout stop ctx) as (stage & timeout & ->).
  { unfold ClassifyFailure in E. destruct (match err with Some e => default _ (te_stage e) | None => _ end) as [st c].
    exists st, (match err with Some e => te_timeout e | None => false end). destruct err, stop; by simplify_eq/=. }
  unfold failure_class. split; [repeat case_match; reflexivity|].
  intros H. destruct stop as [[]|]; [reflexivity..|].
  assert (ctx = Canceled \/ own = true) as [-> | ->]; [|reflexivity|].
  { destruct H as [[? ?]|[H|(e & -> & H)]]; [done|by left|by right]. }
  rewrite andb_false_r. repeat case_match; reflexivity.
Qed.
