(* ===== verification/Sse.v ===== *)
(** * The stream between the enclave and the Hub ([tokenhive/tee/sse.go], the writers of [tokenhive/tee/rpc.go])

    The enclave answers a dispatch with a stream of frames; the Hub reads them
    back and settles against the chunks it read, which must be the chunks the
    receipt digests.  [Next] is the reader, over the lines of what is left of
    the stream; the writers emit bytes. *)

From S2P Require Import Prelude Bytes GoStrings.

Definition LF : Z := 10.
Definition CR : Z := 13.

(** ** Lines *)

(** [bytes.Split(l, "\n")]. *)
Fixpoint split_lines (l : bytes) : list bytes :=
  match l with
  | [] => [[]]
  | a :: l =>
      if a =? LF then [] :: split_lines l
      else match split_lines l with line :: lines => (a :: line) :: lines | [] => [[a]] end
  end.

(** [strings.Join(lines, "\n")]. *)
Fixpoint join_lines (lines : list bytes) : bytes :=
  match lines with
  | [] => []
  | [line] => line
  | line :: lines => line ++ LF :: join_lines lines
  end.

(** [strings.TrimRight(line, "\r\n")]. *)
Fixpoint trim_right (l : bytes) : bytes :=
  match l with
  | [] => []
  | a :: l => match trim_right l with
              | [] => if (a =? CR) || (a =? LF) then [] else [a]
              | t => a :: t
              end
  end.

(** [strings.HasPrefix] with [strings.TrimPrefix]. *)
Fixpoint strip (p l : bytes) : option bytes :=
  match p, l with
  | [], _ => Some l
  | a :: p, b :: l => if a =? b then strip p l else None
  | _ :: _, [] => None
  end.

(** ** Reading *)

Record SSEEvent := mkSSEEvent { ev_Type : string; ev_Data : bytes; ev_HasData : bool }.

(** What is left to read: the lines that end in a newline, and what follows the last of them. *)
Record SSEStream := mkSSEStream { ss_lines : list bytes; ss_tail : bytes }.

Definition NewSSEStream (body : bytes) : SSEStream :=
  let lines := split_lines body in mkSSEStream (removelast lines) (List.last lines []).

(** The variables of the loop. *)
Record nextState := mkNext { nx_Type : string; nx_data : bytes; nx_dataLines : nat; nx_seen : bool }.

Definition next_init : nextState := mkNext "" [] 0 false.

Definition next_event (st : nextState) : SSEEvent := mkSSEEvent (nx_Type st) (nx_data st) (0 <? nx_dataLines st)%nat.

(** The [event:] and [data:] cases of the switch. *)
Definition feed (st : nextState) (trimmed : bytes) : nextState :=
  match strip (str "event:") trimmed with
  | Some rest => mkNext (TrimSpace (of_codes rest)) (nx_data st) (nx_dataLines st) true
  | None =>
      match strip (str "data:") trimmed with
      | Some rest =>
          let data := if (0 <? nx_dataLines st)%nat then nx_data st ++ [LF] else nx_data st in
          mkNext (nx_Type st) (data ++ default rest (strip (str " ") rest)) (S (nx_dataLines st)) true
      | None => st
      end
  end.

(** [None]: [io.EOF]. *)
Fixpoint next_loop (lines : list bytes) (tail : bytes) (st : nextState) : option SSEEvent * SSEStream :=
  match lines with
  | [] =>
      let trimmed := trim_right tail in
      let st := if (length trimmed =? 0)%nat then st else feed st trimmed in
      ((if nx_seen st then Some (next_event st) else None), mkSSEStream [] [])
  | line :: lines =>
      let trimmed := trim_right (line ++ [LF]) in
      if (length trimmed =? 0)%nat then
        if nx_seen st then (Some (next_event st), mkSSEStream lines tail) else next_loop lines tail st
      else next_loop lines tail (feed st trimmed)
  end.

Definition Next (s : SSEStream) : option SSEEvent * SSEStream := next_loop (ss_lines s) (ss_tail s) next_init.

(** ** Writing *)

Definition EventStart : string := "start".
Definition EventFailure : string := "failure".
Definition EventReceipt : string := "receipt".
Definition EventError : string := "error".

Definition writeChunkFrame (chunk : bytes) : bytes :=
  concat (map (fun line => str "data: " ++ line ++ [LF]) (split_lines chunk)) ++ [LF].

Definition writeEvent (event : string) (data : bytes) : bytes :=
  str "event: " ++ str event ++ [LF] ++ str "data: " ++ data ++ [LF; LF].

(** ** Lines, read back *)

Definition one_piece (l : bytes) : Prop := LF ∉ l.

Lemma split_lines_app l r : one_piece l -> split_lines (l ++ LF :: r) = l :: split_lines r.
Proof.
  intros N. induction l as [|a l IH]; [done|]. cbn. apply not_elem_of_cons in N as [Na N].
  rewrite (proj2 (Z.eqb_neq a LF)) by congruence. by rewrite IH.
Qed.

Lemma split_lines_cons l : exists line lines, split_lines l = line :: lines.
Proof. destruct l as [|a l]; cbn; [eauto|]. destruct (a =? LF); [eauto|]. destruct (split_lines l); eauto. Qed.

Lemma split_lines_pieces l : Forall one_piece (split_lines l).
Proof.
  induction l as [|a l IH]; cbn; [constructor; [apply not_elem_of_nil|done]|].
  destruct (Z.eqb_spec a LF) as [->|N]; [constructor; [apply not_elem_of_nil|done]|].
  destruct (split_lines l) as [|line lines]; [constructor; [|done]; by apply not_elem_of_cons; split; [|apply not_elem_of_nil]|].
  inv IH. constructor; [|done]. by apply not_elem_of_cons.
Qed.

Lemma join_cons2 a b l : join_lines (a :: b :: l) = a ++ LF :: join_lines (b :: l).
Proof. reflexivity. Qed.

Lemma join_split_lines l : join_lines (split_lines l) = l.
Proof.
  induction l as [|a l IH]; [done|]. cbn [split_lines]. destruct (split_lines_cons l) as (line & lines & E).
  rewrite E in *. destruct (Z.eqb_spec a LF) as [->|N]; [by rewrite join_cons2, IH|].
  destruct lines as [|b lines]; [cbn in *; by rewrite IH|]. rewrite join_cons2 in *. cbn [app]. by rewrite IH.
Qed.

Lemma split_join_lines lines : lines <> [] -> Forall one_piece lines -> split_lines (join_lines lines) = lines.
Proof.
  intros Ne F. revert Ne. induction F as [|a lines N F IH]; intros Ne; [done|]. destruct lines as [|b lines].
  - clear - N. induction a as [|x a IHa]; [done|]. cbn. apply not_elem_of_cons in N as [Nx N].
    rewrite (proj2 (Z.eqb_neq x LF)) by congruence. cbn in IHa. by rewrite IHa.
  - rewrite join_cons2, split_lines_app by done. by rewrite IH.
Qed.

(** A line more in front of what is left to read. *)
Definition push (line : bytes) (s : SSEStream) : SSEStream := mkSSEStream (line :: ss_lines s) (ss_tail s).

Lemma NewSSEStream_line line r : one_piece line -> NewSSEStream (line ++ LF :: r) = push line (NewSSEStream r).
Proof.
  intros N. unfold NewSSEStream, push. rewrite split_lines_app by done.
  destruct (split_lines_cons r) as (l & ls & ->). done.
Qed.

Lemma NewSSEStream_lines lines r :
  Forall one_piece lines -> NewSSEStream (concat (map (fun l => l ++ [LF]) lines) ++ r) = foldr push (NewSSEStream r) lines.
Proof.
  induction 1 as [|l lines N F IH]; [done|]. cbn [map concat foldr]. rewrite <- !app_assoc.
  change ([LF] ++ ?x) with (LF :: x). by rewrite NewSSEStream_line, IH.
Qed.

(** ** Trimming *)

Lemma trim_right_app p c l : c <> CR -> c <> LF -> trim_right (p ++ c :: l) = p ++ c :: trim_right l.
Proof.
  intros C L. induction p as [|a p IH]; cbn.
  - destruct (trim_right l) eqn:E; [|done]. rewrite (proj2 (Z.eqb_neq c CR)), (proj2 (Z.eqb_neq c LF)) by done. done.
  - rewrite IH. by destruct p.
Qed.

Lemma trim_right_line l : trim_right (l ++ [LF]) = trim_right l.
Proof. induction l as [|a l IH]; [done|]. cbn. by rewrite IH. Qed.

(** Nothing is lost of a line that does not end in a carriage return. *)
Lemma trim_right_id l : one_piece l -> trim_right l = l <-> last l <> Some CR.
Proof.
  intros N. destruct l as [|x l _] using rev_ind; [done|]. rewrite last_snoc.
  assert (Nx : x <> LF) by (intros ->; apply N; set_solver). split.
  - intros E [= ->]. apply (f_equal length) in E. revert E. clear. rewrite length_app.
    assert (B : (length (trim_right (l ++ [CR])) <= length l)%nat); [|cbn; lia].
    induction l as [|a l IH]; [done|]. cbn. destruct (trim_right (l ++ [CR])); [|cbn in *; lia]. destruct (_ || _); cbn; lia.
  - intros C. by rewrite trim_right_app by (done || congruence).
Qed.

(** ** Frames, read back *)

(** What the reader makes of a chunk: its lines, each without the carriage returns at its end. *)
Definition delivered (chunk : bytes) : bytes := join_lines (map trim_right (split_lines chunk)).

Lemma feed_data st line :
  one_piece line ->
  trim_right ((str "data: " ++ line) ++ [LF]) = str "data: " ++ trim_right line
  /\ feed st (str "data: " ++ trim_right line) =
       mkNext (nx_Type st) ((if (0 <? nx_dataLines st)%nat then nx_data st ++ [LF] else nx_data st) ++ trim_right line)
         (S (nx_dataLines st)) true.
Proof.
  intros N. split; [|reflexivity]. rewrite trim_right_line. change (str "data: ") with (str "data:" ++ [32]).
  rewrite <- app_assoc. by apply trim_right_app.
Qed.

Lemma next_data_lines lines rest tail st :
  Forall one_piece lines -> lines <> [] \/ nx_seen st = true -> 
  next_loop (map (app (str "data: ")) lines ++ [] :: rest) tail st =
    (Some (mkSSEEvent (nx_Type st)
       (nx_data st ++ (if (0 <? nx_dataLines st)%nat && negb (length lines =? 0)%nat then [LF] else []) ++ join_lines (map trim_right lines))
       (0 <? nx_dataLines st + length lines)%nat), mkSSEStream rest tail).
Proof.
  intros F. revert st. induction F as [|line lines N F IH]; intros st S.
  - destruct S as [|S]; [done|]. cbn. rewrite S. unfold next_event. by rewrite andb_false_r, !app_nil_r, Nat.add_0_r.
  - cbn [map app next_loop]. destruct (feed_data st line N) as [-> E].
    change (length (str "data: " ++ trim_right line) =? 0)%nat with false.
    cbn match.
    rewrite E, IH by (by right). cbn [nx_Type nx_data nx_dataLines Nat.ltb Nat.leb andb].
    f_equal. f_equal. f_equal; [|by destruct (nx_dataLines st); cbn; rewrite ?Nat.add_succ_r].
    destruct lines as [|b lines], (nx_dataLines st); cbn [length negb Nat.eqb map andb join_lines app];
      rewrite <- ?app_assoc; cbn [app]; by rewrite ?app_nil_r.
Qed.

Lemma next_chunk chunk rest :
  Next (NewSSEStream (writeChunkFrame chunk ++ rest)) = (Some (mkSSEEvent "" (delivered chunk) true), NewSSEStream rest).
Proof.
  set (lines := split_lines chunk).
  assert (P : Forall one_piece (map (app (str "data: ")) lines)).
  { apply Forall_map. eapply Forall_impl; [apply split_lines_pieces|]. intros l N [I|I]%elem_of_app; [|done].
    vm_compute in I. set_unfold in I. destruct_or! I; done. }
  assert (E : writeChunkFrame chunk ++ rest = concat (map (fun l => l ++ [LF]) (map (app (str "data: ")) lines ++ [[]])) ++ rest).
  { unfold writeChunkFrame. fold lines. rewrite map_app, concat_app, map_map. cbn. rewrite <- !app_assoc. cbn.
    by do 2 f_equal. }
  rewrite E, NewSSEStream_lines by (apply Forall_app_2; [done|]; constructor; [apply not_elem_of_nil|done]).
  rewrite foldr_app. cbn [foldr].
  assert (S : forall ls s, foldr push s ls = mkSSEStream (ls ++ ss_lines s) (ss_tail s)).
  { induction ls as [|l ls IH]; intros s; [by destruct s|]. cbn. by rewrite IH. }
  rewrite S. unfold Next, push. cbn [ss_lines ss_tail].
  destruct (split_lines_cons chunk) as (l & ls & El). fold lines in El. rewrite next_data_lines; [|apply split_lines_pieces|left; by rewrite El].
  cbn [nx_Type nx_data nx_dataLines next_init Nat.ltb Nat.leb andb app]. rewrite El. cbn [length].
  unfold delivered. fold lines. by rewrite El.
Qed.

(** A frame of one event whose data is one line. *)
Lemma next_named event data rest :
  TrimSpace (of_codes (32 :: str event)) = event -> one_piece (str event) -> last (str event) <> Some CR ->
  one_piece data -> last data <> Some CR ->
  Next (NewSSEStream (writeEvent event data ++ rest)) = (Some (mkSSEEvent event data true), NewSSEStream rest).
Proof.
  intros Tr Pe Le Pd Ld.
  assert (E : writeEvent event data ++ rest = (str "event: " ++ str event) ++ LF :: (str "data: " ++ data) ++ LF :: [] ++ LF :: rest).
  { unfold writeEvent. rewrite <- !app_assoc. done. }
  assert (P : forall p l, one_piece (str p) -> one_piece l -> one_piece (str p ++ l)).
  { intros p l A B [I|I]%elem_of_app; [by apply A|by apply B]. }
  assert (Q : one_piece (str "event: ") /\ one_piece (str "data: ")).
  { split; intros I; vm_compute in I; set_unfold in I; destruct_or! I; done. }
  rewrite E, !NewSSEStream_line by (first [apply P; [apply Q|done]|apply not_elem_of_nil]).
  unfold Next, push. cbn [ss_lines ss_tail next_loop].
  assert (T1 : trim_right ((str "event: " ++ str event) ++ [LF]) = str "event: " ++ str event).
  { rewrite trim_right_line. change (str "event: ") with (str "event:" ++ [32]). rewrite <- app_assoc. cbn [app].
    rewrite trim_right_app by done. by rewrite (proj2 (trim_right_id _ Pe) Le). }
  rewrite T1. change (length (str "event: " ++ str event) =? 0)%nat with false. cbn match.
  change (feed next_init (str "event: " ++ str event)) with (mkNext (TrimSpace (of_codes (32 :: str event))) [] 0 true).
  rewrite Tr. destruct (feed_data (mkNext event [] 0 true) data Pd) as [-> Ed].
  rewrite (proj2 (trim_right_id _ Pd) Ld) in *. change (length (str "data: " ++ data) =? 0)%nat with false. cbn match.
  rewrite Ed. reflexivity.
Qed.

Lemma trim_right_length l : (length (trim_right l) <= length l)%nat.
Proof. induction l as [|a l IH]; [done|]. cbn. destruct (trim_right l); [destruct (_ || _); cbn; lia|cbn in *; lia]. Qed.

Lemma map_trim_id lines :
  Forall one_piece lines -> map trim_right lines = lines <-> Forall (fun line => last line <> Some CR) lines.
Proof.
  induction 1 as [|x xs N P IH]; [done|]. cbn [map]. rewrite Forall_cons, <- IH, <- (trim_right_id _ N).
  split; [by intros [= -> ->]|by intros [-> ->]].
Qed.

Lemma delivered_id chunk : delivered chunk = chunk <-> Forall (fun line => last line <> Some CR) (split_lines chunk).
Proof.
  pose proof (split_lines_pieces chunk) as P. rewrite <- (map_trim_id _ P). unfold delivered.
  split; [|intros ->; apply join_split_lines]. intros E. rewrite <- E at 2.
  symmetry. apply split_join_lines; [by destruct (split_lines_cons chunk) as (? & ? & ->)|].
  apply Forall_map. eapply Forall_impl; [exact P|]. intros x N Ix. apply N. clear - Ix.
  induction x as [|a x IH]; [done|]. cbn in Ix. destruct (trim_right x) as [|b t] eqn:E.
  - destruct (_ || _); [by apply elem_of_nil in Ix|]. apply list_elem_of_singleton in Ix as ->. by left.
  - apply elem_of_cons in Ix as [->|Ix]; [by left|]. right. by apply IH.
Qed.

Lemma join_trim_length lines :
  (length (join_lines (map trim_right lines)) <= length (join_lines lines))%nat
  /\ (length (join_lines (map trim_right lines)) = length (join_lines lines) -> join_lines (map trim_right lines) = join_lines lines).
Proof.
  induction lines as [|a lines IH]; [done|]. pose proof (trim_right_length a) as La.
  assert (Ea : length (trim_right a) = length a -> trim_right a = a).
  { clear. induction a as [|x a IH]; [done|]. cbn. pose proof (trim_right_length a). destruct (trim_right a) eqn:E.
    - destruct (_ || _); [done|]. cbn in *. intros [= L]. by rewrite (IH L).
    - cbn in *. intros [= L]. by rewrite IH by lia. }
  destruct lines as [|b lines]; [cbn; auto|]. cbn [map] in *. rewrite !join_cons2, !length_app. cbn [length].
  destruct IH as [IH1 IH2]. split; [lia|]. intros L. rewrite Ea, IH2 by lia. done.
Qed.

(** A chunk that is not delivered whole is delivered shorter. *)
Lemma delivered_length chunk :
  (length (delivered chunk) <= length chunk)%nat /\ (length (delivered chunk) = length chunk -> delivered chunk = chunk).
Proof. pose proof (join_trim_length (split_lines chunk)) as H. by rewrite join_split_lines in H. Qed.

Lemma delivered_shorter chunks :
  Exists (fun chunk => Exists (fun line => last line = Some CR) (split_lines chunk)) chunks ->
  (length (concat (map delivered chunks)) < length (concat chunks))%nat.
Proof.
  assert (Le : forall l, (length (concat (map delivered l)) <= length (concat l))%nat).
  { induction l as [|x l IH]; [done|]. cbn. rewrite !length_app. pose proof (proj1 (delivered_length x)). lia. }
  induction 1 as [x l X|x l X IH]; cbn; rewrite !length_app.
  - pose proof (Le l). destruct (delivered_length x) as [L E]. destruct (decide (length (delivered x) = length x)) as [Q|]; [|lia].
    apply E, delivered_id in Q. exfalso. clear - X Q. induction X; inv Q; auto.
  - pose proof (proj1 (delivered_length x)). lia.
Qed.

(** The framing delivers every chunk, whatever follows it, including empty chunks and chunks of many lines,
    except for the carriage returns at the ends of its lines: the Hub reads exactly the bytes the enclave wrote
    if and only if no line of the chunk ends in one.  A body with CR LF line ends is therefore read back
    shorter than the enclave digested it. *)
Theorem chunk_framing_drops_carriage_returns chunk rest :
  Next (NewSSEStream (writeChunkFrame chunk ++ rest)) = (Some (mkSSEEvent "" (delivered chunk) true), NewSSEStream rest)
  /\ (delivered chunk = chunk <-> Forall (fun line => last line <> Some CR) (split_lines chunk))
  /\ delivered (str "a" ++ [CR; LF] ++ str "b") = str "a" ++ [LF] ++ str "b".
Proof.
  split; [apply next_chunk|]. split; [apply delivered_id|vm_compute; reflexivity].
Qed.
