(* ===== verification/Tee.v ===== *)
(** * The enclave's execution core ([tokenhive/tee/service.go])

    [tee_Execute] runs one job: the checks in their fixed order, the credential,
    the sequence number, then the exchange, and a signed receipt for whatever
    happened.  The transport is an arbitrary program over its two callbacks
    ([exchange]); the caller's callback is an arbitrary function.  The clock and
    the signer the process serves may change between the points the code reads
    them, so they are functions of the reading.

    Instrumentation ([timing.go]) is left out.  The goroutine that cancels an
    exchange when the signer runs out of time is part of what an [exchange] may
    do: it ends it with an error and a cancelled context. *)

From S2P Require Import Prelude Bytes Crypto Receipt GoStrings Jobs Policy Credential SeqStore Transport Headers.

(** ** The transport *)

(** A run of [Transport.Do]: it reports the response start and chunks, each
    chunk answered by whether the callback failed, and ends with a response, an
    error and the state of the context. *)
Inductive exchange :=
| XDone (resp : Response) (err : option transportErr) (ctx : contextErr)
| XStart (resp : Response) (k : exchange)
| XChunk (chunk : bytes) (k : bool -> exchange).

(** ** The service *)

(** [SNPNitroLeafNotAfter] reads the expiry of the vendor's certificate in the evidence. *)
Class LeafExpiry := { SNPNitroLeafNotAfter : bytes -> option Z }.

Definition nanoseconds_per_second : Z := 1000000000.
Definition SNPSigningMargin : Z := 5 * 60 * nanoseconds_per_second.
Definition signingHandoff : Z := nanoseconds_per_second.

(** [None]: the evidence carries no deadline. *)
Definition SNPSigningDeadline `{LeafExpiry} (attestation : bytes) : option Z :=
  (fun notAfter => notAfter - SNPSigningMargin) <$> SNPNitroLeafNotAfter attestation.

(** Its [timing] has an effect on construction only. *)
Record TimingConfig := mkTimingConfig { tc_off : bool; tc_sink : bool }.

Section Service.
Context {SH : Sha256} {CB : Cbor} {EC : Ecdsa} {SC : SpecCbor} {PC : PolicyCbor} {GU : GoUnicode} {HJ : HeaderJson}
        {EV : EnvelopeCbor} {IL : InboxLib} {LE : LeafExpiry} {SQ : SeqStore}.

(** [sv_cell] is the signer cell of the rotation loop, by the point it is read at. *)
Record Service := mkService {
  sv_policy : Policy;
  sv_signer : option Signer;
  sv_cell : option (nat -> option Signer);
  sv_requestTimeout : Z;
  sv_submitterVerify : option (Spec -> res unit);
  sv_inbox : InboxKey;
}.

Record TeeConfig := mkTeeConfig {
  tcf_Policy : option Policy;
  tcf_Transport : bool;
  tcf_Signer : option Signer;
  tcf_SignerCell : option (nat -> option Signer);
  tcf_Seq : bool;
  tcf_RequestTimeout : Z;
  tcf_SubmitterVerifier : option (Spec -> res unit);
  tcf_InboxKey : option InboxKey;
  tcf_Timing : option TimingConfig;
}.

Definition NewService (cfg : TeeConfig) : res Service :=
  match tcf_Policy cfg with
  | None => Err "no policy configured"
  | Some policy =>
  match tcf_InboxKey cfg with
  | None => Err "no inbox key configured"
  | Some inbox =>
      fail_if (negb (tcf_Transport cfg)) "no transport configured";;
      fail_if (match tcf_Signer cfg with None => true | Some _ => false end) "no receipt signer configured";;
      fail_if (negb (tcf_Seq cfg)) "no sequence store configured";;
      fail_if (match tcf_Timing cfg with Some t => negb (tc_off t) && negb (tc_sink t) | None => false end)
        "timing level configured without a sink";;
      Ok (mkService policy (tcf_Signer cfg) (tcf_SignerCell cfg) (tcf_RequestTimeout cfg)
            (tcf_SubmitterVerifier cfg) inbox)
  end end.

Definition activeSigner (sv : Service) (point : nat) : option Signer :=
  match sv_cell sv with
  | Some cell => match cell point with Some s => Some s | None => sv_signer sv end
  | None => sv_signer sv
  end.

Definition signingDeadline (signer : option Signer) : option Z :=
  match signer with
  | Some s => match s_epoch s with Some e => SNPSigningDeadline (idEvidence (ep_Identity e)) | None => None end
  | None => None
  end.

Definition signingBudget (signer : option Signer) (now : Z) : option Z :=
  (fun deadline => i64 (time_Sub deadline now - signingHandoff)) <$> signingDeadline signer.

Definition signerStaleAt (signer : option Signer) (now : Z) : bool :=
  match signingDeadline signer with
  | None => match signer with Some s => match s_epoch s with Some _ => false | None => true end | None => true end
  | Some deadline => negb (now <? deadline)
  end.

Definition ErrAttestationStale : error := "attested epoch inside its signing margin; rotation has not published".

(** ** The credential *)

Definition headerSet (hs : gmap string string) (name : string) : bool :=
  existsb (fun kv => EqualFold kv.1 name) (map_to_list hs).

Definition injectCredential (sv : Service) (spec : Spec) : res (gmap string string) :=
  let hs := sp_Headers spec in
  fail_if ((length (sp_Credential spec) =? 0)%nat) "job carries no credential";;
  env ← DecodeEnvelope (sp_Credential spec);
  opened ← inbox_Open (sv_inbox sv) env;
  let '(secret, declared) := opened in
  fail_if (negb (String.eqb declared (sp_Provider spec))) "credential envelope is bound to another provider";;
  _ ← secret_Validate secret;
  if String.eqb (s_Header secret) "" then Ok hs else
  fail_if (headerSet hs (s_Header secret)) "job already sets the header the credential occupies";;
  rendered ← secret_Render secret;
  Ok (<[rendered.1 := rendered.2]> hs).

(** ** The exchange *)

Record relayState := mkRelay {
  ry_hasher : StreamingHasher;
  ry_totalBytes : Z;
  ry_totalChunks : Z;
  ry_truncated : bool;
  ry_stop : option stopErr;
  ry_started : option Response;     (* the response start that was reported, headers filtered *)
  ry_headerHash : bytes;
  ry_relayed : list bytes;          (* the chunks that entered the digest, in order *)
  ry_arrived : list bytes;          (* the chunks the transport handed over *)
  ry_calls : list (Response + bytes); (* the calls of [onStart] and [onChunk], in order *)
}.

Definition new_relay (jobID : bytes) : relayState :=
  mkRelay (NewStreamingHasher jobID) 0 0 false None None [] [] [] [].

(** [onChunk], when it is not nil: given the chunks it took before, whether it fails on this one, and with what. *)
Definition Consumer : Type := list bytes -> bytes -> option stopErr.

Definition relay_start (st : relayState) (resp : Response) : relayState :=
  if match ry_started st with Some _ => true | None => false end || (rs_StatusCode resp =? 0) then st else
  let resp := mkResponse (rs_StatusCode resp) (ForwardResponseHeaders (rs_Headers resp)) in
  mkRelay (ry_hasher st) (ry_totalBytes st) (ry_totalChunks st) (ry_truncated st) (ry_stop st) (Some resp)
    (HashResponseHeaders (rs_Headers resp)) (ry_relayed st) (ry_arrived st) (ry_calls st ++ [inl resp]).

(** The relay callback; the flag is whether it returned an error. *)
Definition relay_chunk (maxBytes : Z) (onChunk : option Consumer) (st : relayState) (chunk : bytes) : relayState * bool :=
  let total := add64 (ry_totalBytes st) (Z.of_nat (length chunk)) in
  let chunks := add64 (ry_totalChunks st) 1 in
  let arrived := ry_arrived st ++ [chunk] in
  if maxBytes <? add64 (h_bytes (ry_hasher st)) (Z.of_nat (length chunk)) then
    (mkRelay (ry_hasher st) total chunks true (Some StopTooLarge) (ry_started st) (ry_headerHash st) (ry_relayed st) arrived (ry_calls st), true)
  else
    let hasher := hasher_WriteChunk (ry_hasher st) chunk in
    let failed := match onChunk with Some f => f (ry_relayed st) chunk | None => None end in
    let relayed := ry_relayed st ++ [chunk] in
    let calls := ry_calls st ++ [inr chunk] in
    match failed with
    | Some e => (mkRelay hasher total chunks true (Some e) (ry_started st) (ry_headerHash st) relayed arrived calls, true)
    | None => (mkRelay hasher total chunks (ry_truncated st) (ry_stop st) (ry_started st) (ry_headerHash st) relayed arrived calls, false)
    end.

Fixpoint run_exchange (maxBytes : Z) (onChunk : option Consumer) (x : exchange) (st : relayState)
    : relayState * Response * option transportErr * contextErr :=
  match x with
  | XDone resp err ctx => (st, resp, err, ctx)
  | XStart resp k => run_exchange maxBytes onChunk k (relay_start st resp)
  | XChunk chunk k => let '(st, failed) := relay_chunk maxBytes onChunk st chunk in run_exchange maxBytes onChunk (k failed) st
  end.

Definition is_started (st : relayState) : bool := match ry_started st with Some _ => true | None => false end.

Definition completion_of (err : option transportErr) (st : relayState) : Z :=
  match err with
  | Some _ => if negb (is_started st) && (h_bytes (ry_hasher st) =? 0) then CompletionFailed else CompletionTruncated
  | None => if ry_truncated st then CompletionTruncated else CompletionComplete
  end.

Record TeeResult := mkTeeResult {
  tr_Receipt : SignedReceipt;
  tr_StatusCode : Z;
  tr_ChunkCount : Z;
  tr_ResponseBytes : Z;
  tr_StreamHash : bytes;
  tr_Truncated : bool;
  tr_Failure : option Failure;
  tr_PolicyHash : bytes;
  tr_ProviderSeq : Z;
}.

(** The receipt [perform] signs. *)
Definition exchange_receipt (spec : Spec) (specHash : bytes) (decision : Decision) (seq requestBytes startedAt finishedAt : Z)
    (st : relayState) (resp : Response) (err : option transportErr) : Receipt :=
  let statusCode := match err with Some _ => if is_started st then rs_StatusCode resp else 0 | None => rs_StatusCode resp end in
  mkReceipt VersionV1 (sp_JobID spec) specHash (sp_Provider spec) (sp_Method spec) (sp_Host spec) (sp_Path spec)
    statusCode (hasher_Sum (ry_hasher st)) (ry_totalChunks st) (ry_totalBytes st) (completion_of err st)
    startedAt finishedAt None (d_PolicyHash decision) requestBytes seq (ry_headerHash st).

(** [clock] gives the reading at each point: 2 and 3 around the exchange, 4 and
    5 before the signature.  [activeSigner] is read at 1 and, for the handoff, at 2. *)
Definition perform (sv : Service) (clock : nat -> Z) (transport : Request -> exchange) (request : Request) (spec : Spec)
    (specHash : bytes) (decision : Decision) (seq : Z) (onChunk : option Consumer) : res TeeResult * relayState :=
  let signer := activeSigner sv 1 in
  let startedAt := time_toUnix (clock 2%nat) in
  let '(st, resp, err, ctx) := run_exchange (rq_MaxResponseBytes request) onChunk (transport request) (new_relay (sp_JobID spec)) in
  let finishedAt := time_toUnix (clock 3%nat) in
  let failure := ClassifyFailure err (ry_stop st) ctx in
  let receipt := exchange_receipt spec specHash decision seq (Z.of_nat (length (rq_Body request))) startedAt finishedAt st resp err in
  let signing := if signerStaleAt signer (clock 4%nat) then activeSigner sv 2 else signer in
  if signerStaleAt signing (clock 5%nat) then (Err ErrAttestationStale, st) else
  match signer_Sign signing receipt with
  | Err _ => (Err "sign receipt", st)
  | Panic => (Panic, st)
  | Ok signed =>
      (Ok (mkTeeResult signed (StatusCode receipt) (ChunkCount receipt) (ResponseBytes receipt) (StreamHash receipt)
             (ry_truncated st || (Completion receipt =? CompletionTruncated)) failure (d_PolicyHash decision) seq), st)
  end.

(** ** Execute *)

(** The checks of [Execute], in their order, up to the sequence number: what
    the job may do, the headers to send, and the digest of the job. *)
Definition execute_checks (sv : Service) (clock : nat -> Z) (spec : Spec) (body : bytes)
    : res (Decision * gmap string string * bytes) :=
  let now := clock 0%nat in
  let signer := activeSigner sv 0 in
  fail_if (signerStaleAt signer now) ErrAttestationStale;;
  fail_if (match signingBudget signer (clock 1%nat) with Some b => b <=? 0 | None => false end) ErrAttestationStale;;
  _ ← match sv_submitterVerify sv with
      | Some verify => match verify spec with Err _ => Err "submitter rejected" | r => r end
      | None => Ok ()
      end;
  _ ← spec_ValidateAt spec now;
  fail_if (negb (MatchesBody spec body)) "request body does not match the hash committed in the job spec";;
  decision ← AuthorizeAt (sv_policy sv) spec now;
  fail_if (d_MaxBodyBytes decision <? Z.of_nat (length body)) "request body exceeds the policy limit";;
  hs ← injectCredential sv spec;
  specHash ← spec_Hash spec;
  Ok (decision, hs, specHash).

Definition exchange_request (sv : Service) (spec : Spec) (hs : gmap string string) (body : bytes) (decision : Decision) : Request :=
  mkRequest (sp_Method spec) (sp_Provider spec) (sp_Host spec) (sp_Path spec) (sp_Query spec) hs body (sp_Stream spec)
    (d_MaxResponseBytes decision) (sv_requestTimeout sv) (sp_JobID spec).

(** The new sequence state, the outcome, and the exchange when one took place. *)
Definition tee_Execute (sv : Service) (clock : nat -> Z) (transport : Request -> exchange) (sq : seq_state) (spec : Spec)
    (body : bytes) (onChunk : option Consumer) : seq_state * res TeeResult * option (Request * relayState) :=
  match execute_checks sv clock spec body with
  | Err e => (sq, Err e, None)
  | Panic => (sq, Panic, None)
  | Ok (decision, hs, specHash) =>
      match seq_Next sq (sp_Provider spec) with
      | (sq, Err _) => (sq, Err "allocate provider sequence", None)
      | (sq, Panic) => (sq, Panic, None)
      | (sq, Ok seq) =>
          let request := exchange_request sv spec hs body decision in
          let '(r, st) := perform sv clock transport request spec specHash decision seq onChunk in
          (sq, r, Some (request, st))
      end
  end.
End Service.

(** ** What the relay keeps account of *)

Definition sent (chunks : list bytes) : Z := Z.of_nat (length (concat chunks)).

Definition called_chunks (calls : list (Response + bytes)) : list bytes :=
  omap (fun c => match c with inr chunk => Some chunk | inl _ => None end) calls.
Definition called_starts (calls : list (Response + bytes)) : list Response :=
  omap (fun c => match c with inl resp => Some resp | inr _ => None end) calls.

Section Relay.
Context {SH : Sha256} {GU : GoUnicode} {HJ : HeaderJson}.

Record relay_inv (jobID : bytes) (maxBytes : Z) (st : relayState) : Prop := {
  ri_hasher : ry_hasher st = fold_left hasher_WriteChunk (ry_relayed st) (NewStreamingHasher jobID);
  ri_bytes : ry_totalBytes st = u64 (sent (ry_arrived st));
  ri_chunks : ry_totalChunks st = u64 (Z.of_nat (length (ry_arrived st)));
  ri_cap : sent (ry_arrived st) < 2 ^ 64 -> sent (ry_relayed st) <= maxBytes;
  ri_sub : sublist (ry_relayed st) (ry_arrived st);
  ri_whole : ry_truncated st = false -> ry_relayed st = ry_arrived st;
  ri_stop : is_Some (ry_stop st) <-> ry_truncated st = true;
  ri_start : match ry_started st with
             | None => ry_headerHash st = []
             | Some resp => rs_StatusCode resp <> 0 /\ ry_headerHash st = HashResponseHeaders (rs_Headers resp)
             end;
  ri_calls : called_chunks (ry_calls st) = ry_relayed st /\ called_starts (ry_calls st) = option_list (ry_started st);
}.

Lemma sent_snoc l c : sent (l ++ [c]) = sent l + Z.of_nat (length c).
Proof. unfold sent. rewrite concat_app, length_app. cbn. rewrite app_nil_r. lia. Qed.

Lemma sent_sublist l k : sublist l k -> sent l <= sent k.
Proof. unfold sent. induction 1; cbn [concat]; rewrite ?length_app; lia. Qed.

Lemma hasher_bytes jobID chunks :
  h_bytes (fold_left hasher_WriteChunk chunks (NewStreamingHasher jobID)) = u64 (sent chunks).
Proof.
  induction chunks as [|c chunks IH] using rev_ind; [done|]. rewrite fold_left_app, sent_snoc. cbn [fold_left].
  set (s := fold_left _ _ _) in *. change (h_bytes (hasher_WriteChunk s c)) with (add64 (h_bytes s) (Z.of_nat (length c))).
  rewrite IH. unfold add64, u64. by rewrite Zplus_mod_idemp_l.
Qed.

Lemma new_relay_inv jobID maxBytes : 0 <= maxBytes -> relay_inv jobID maxBytes (new_relay jobID).
Proof. intros M. split; try done; cbn. by split; [intros []|]. Qed.

Lemma relay_start_inv jobID maxBytes st resp : relay_inv jobID maxBytes st -> relay_inv jobID maxBytes (relay_start st resp).
Proof.
  intros []. unfold relay_start. destruct (ry_started st) eqn:E; cbn; [by split; rewrite ?E|].
  destruct (Z.eqb_spec (rs_StatusCode resp) 0); cbn; [by split; rewrite ?E|]. split; try done. cbn.
  unfold called_chunks, called_starts in *. rewrite !omap_app. destruct ri_calls0 as [-> ->]. cbn. by rewrite app_nil_r.
Qed.

Lemma relay_chunk_inv jobID maxBytes onChunk st chunk :
  relay_inv jobID maxBytes st -> relay_inv jobID maxBytes (relay_chunk maxBytes onChunk st chunk).1.
Proof.
  intros []. unfold relay_chunk.
  assert (B : add64 (ry_totalBytes st) (Z.of_nat (length chunk)) = u64 (sent (ry_arrived st ++ [chunk]))).
  { rewrite ri_bytes0, sent_snoc. unfold add64, u64. apply Zplus_mod_idemp_l. }
  assert (N : add64 (ry_totalChunks st) 1 = u64 (Z.of_nat (length (ry_arrived st ++ [chunk])))).
  { rewrite ri_chunks0, length_app, Nat2Z.inj_add. unfold add64, u64. apply Zplus_mod_idemp_l. }
  assert (S : sublist (ry_relayed st ++ [chunk]) (ry_arrived st ++ [chunk])) by (by apply sublist_app).
  rewrite ri_hasher0, hasher_bytes. fold (add64 (u64 (sent (ry_relayed st))) (Z.of_nat (length chunk))).
  destruct (Z.ltb_spec maxBytes (add64 (u64 (sent (ry_relayed st))) (Z.of_nat (length chunk)))) as [O|O].
  - split; cbn; try done.
    + intros L. apply ri_cap0. rewrite sent_snoc in L. lia.
    + by apply sublist_inserts_r.
  - assert (C : sent (ry_arrived st ++ [chunk]) < 2 ^ 64 -> sent (ry_relayed st ++ [chunk]) <= maxBytes).
    { intros L. pose proof (sent_sublist _ _ S) as Le. rewrite sent_snoc in Le |- *.
      unfold add64, u64 in O. rewrite Zplus_mod_idemp_l, Z.mod_small in O by (unfold sent in *; lia). lia. }
    assert (Cl : called_chunks (ry_calls st ++ [inr chunk]) = ry_relayed st ++ [chunk]
      /\ called_starts (ry_calls st ++ [inr chunk]) = option_list (ry_started st)).
    { unfold called_chunks, called_starts in *. rewrite !omap_app. destruct ri_calls0 as [-> ->]. cbn. by rewrite app_nil_r. }
    destruct (match onChunk with Some f => f (ry_relayed st) chunk | None => None end); split; cbn; try done.
    + by rewrite fold_left_app.
    + by rewrite fold_left_app.
    + intros T. by rewrite ri_whole0.
Qed.

Lemma run_exchange_inv jobID maxBytes onChunk x st :
  relay_inv jobID maxBytes st -> relay_inv jobID maxBytes (run_exchange maxBytes onChunk x st).1.1.1.
Proof.
  revert st. induction x as [| |chunk k IH]; intros st I; cbn [run_exchange]; [done|by auto using relay_start_inv|].
  pose proof (relay_chunk_inv jobID maxBytes onChunk st chunk I) as I'. destruct (relay_chunk _ _ _ _) as [st' failed]. by apply IH.
Qed.
End Relay.

(** ** What an execution does *)

Section Execution.
Context {SH : Sha256} {CB : Cbor} {EC : Ecdsa} {SC : SpecCbor} {PC : PolicyCbor} {GU : GoUnicode} {HJ : HeaderJson}
        {EV : EnvelopeCbor} {IL : InboxLib} {LE : LeafExpiry} {SQ : SeqStore}.

Lemma execute_exchange sv clock transport sq spec body onChunk sq' r rq st :
  tee_Execute sv clock transport sq spec body onChunk = (sq', r, Some (rq, st)) ->
  exists d hs specHash n,
    execute_checks sv clock spec body = Ok (d, hs, specHash)
    /\ seq_Next sq (sp_Provider spec) = (sq', Ok n)
    /\ rq = exchange_request sv spec hs body d
    /\ perform sv clock transport rq spec specHash d n onChunk = (r, st).
Proof.
  unfold tee_Execute. intros E. destruct (execute_checks _ _ _ _) as [[[d hs] specHash]| |] eqn:C; [|done..].
  destruct (seq_Next sq _) as [sq1 [n| |]] eqn:N; [|done..].
  destruct (perform _ _ _ _ _ _ _ _ _) as [r1 st1] eqn:P. injection E as <- <- <- <-. by exists d, hs, specHash, n.
Qed.

Lemma execute_refused sv clock transport sq spec body onChunk sq' r :
  tee_Execute sv clock transport sq spec body onChunk = (sq', r, None) ->
  is_ok r = false
  /\ (sq' = sq \/ exists e, seq_Next sq (sp_Provider spec) = (sq', e) /\ is_ok e = false).
Proof.
  unfold tee_Execute. intros E. destruct (execute_checks _ _ _ _) as [[[d hs] specHash]| |]; [|injection E as <- <-; auto..].
  destruct (seq_Next sq _) as [sq1 [n|e|]] eqn:N; [|injection E as <- <-; eauto..].
  destruct (perform _ _ _ _ _ _ _ _ _). discriminate.
Qed.

(** The signer was usable at [now]: it has an epoch whose evidence, if it expires, does so after the margin. *)
Definition signable (signer : option Signer) (now : Z) : Prop :=
  exists s e, signer = Some s /\ s_epoch s = Some e
    /\ forall notAfter, SNPNitroLeafNotAfter (idEvidence (ep_Identity e)) = Some notAfter -> now < notAfter - SNPSigningMargin.

Lemma signerStaleAt_iff signer now : signerStaleAt signer now = false <-> signable signer now.
Proof.
  unfold signerStaleAt, signingDeadline, signable, SNPSigningDeadline. destruct signer as [s|]; [|naive_solver].
  destruct (s_epoch s) as [e|] eqn:E; [|naive_solver].
  destruct (SNPNitroLeafNotAfter (idEvidence (ep_Identity e))) as [na|] eqn:N; cbn.
  - rewrite negb_false_iff, Z.ltb_lt. split; [naive_solver|]. intros (s' & e' & [= <-] & E' & L). simplify_eq. by apply L.
  - split; [|done]. intros _. exists s, e. split_and!; [done..|]. by rewrite N.
Qed.

Lemma signer_Sign_receipt signer receipt signed :
  signer_Sign signer receipt = Ok signed -> exists a, sReceipt signed = with_attestation receipt a.
Proof.
  unfold signer_Sign. destruct signer as [[[e|] ?]|]; [|done..]. intros E. inv_bind E. inv_bind E. inv_bind E.
  apply (inj Ok) in E as <-. by eexists.
Qed.

Lemma perform_signed sv clock transport rq spec specHash d n onChunk res st :
  perform sv clock transport rq spec specHash d n onChunk = (Ok res, st) ->
  exists resp err ctx signer a,
    run_exchange (rq_MaxResponseBytes rq) onChunk (transport rq) (new_relay (sp_JobID spec)) = (st, resp, err, ctx)
    /\ signable signer (clock 5%nat)
    /\ signer_Sign signer (exchange_receipt spec specHash d n (Z.of_nat (length (rq_Body rq)))
         (time_toUnix (clock 2%nat)) (time_toUnix (clock 3%nat)) st resp err) = Ok (tr_Receipt res)
    /\ sReceipt (tr_Receipt res) = with_attestation (exchange_receipt spec specHash d n (Z.of_nat (length (rq_Body rq)))
         (time_toUnix (clock 2%nat)) (time_toUnix (clock 3%nat)) st resp err) a
    /\ tr_Failure res = ClassifyFailure err (ry_stop st) ctx
    /\ tr_ProviderSeq res = n
    /\ tr_Truncated res = ry_truncated st || (completion_of err st =? CompletionTruncated).
Proof.
  unfold perform. destruct (run_exchange _ _ _ _) as [[[st1 resp] err] ctx].
  set (receipt := exchange_receipt _ _ _ _ _ _ _ _ _ _). set (signing := if signerStaleAt _ (clock 4%nat) then _ else _).
  destruct (signerStaleAt signing (clock 5%nat)) eqn:S; [done|].
  destruct (signer_Sign signing receipt) as [signed| |] eqn:Sg; [|done..]. intros E. injection E as <- <-.
  destruct (signer_Sign_receipt _ _ _ Sg) as [a Ea]. exists resp, err, ctx, signing, a.
  rewrite <- signerStaleAt_iff. split_and!; try done.
Qed.

(** What the checks before the exchange establish. *)
Record cleared (sv : Service) (clock : nat -> Z) (spec : Spec) (body : bytes) (d : Decision)
    (hs : gmap string string) (specHash : bytes) : Prop := {
  cl_fresh : signable (activeSigner sv 0) (clock 0%nat);
  cl_submitter : forall verify, sv_submitterVerify sv = Some verify -> verify spec = Ok ();
  cl_spec : spec_ok spec;
  cl_unexpired : time_toUnix (clock 0%nat) < sp_ExpiresAt spec;
  cl_body : sp_BodyHash spec = HashBody body;
  cl_policy : policy_ValidateAt (sv_policy sv) (clock 0%nat) = Ok ();
  cl_permitted : permitted (sv_policy sv) spec d;
  cl_size : Z.of_nat (length body) <= l_MaxBodyBytes (p_Limits (sv_policy sv));
  cl_headers : injectCredential sv spec = Ok hs;
  cl_hash : spec_Hash spec = Ok specHash;
}.

Lemma execute_checks_cleared sv clock spec body d hs specHash :
  execute_checks sv clock spec body = Ok (d, hs, specHash) -> cleared sv clock spec body d hs specHash.
Proof.
  unfold execute_checks. open_guards. rewrite signerStaleAt_iff, spec_ValidateAt_iff, negb_false_iff, MatchesBody_iff.
  intros (F & _ & V & [S X] & B & K). inv_bind K. apply AuthorizeAt_iff in E as (P & _ & Pm).
  rewrite guard_iff, Z.ltb_ge, (pm_body _ _ _ Pm) in K. destruct K as [Sz K]. inv_bind K. inv_bind K.
  apply (inj Ok) in K. injection K as -> -> ->. split; try done.
  intros verify Ev. rewrite Ev in V. destruct (verify spec) as [[]| |]; done.
Qed.

Lemma completion_complete err st :
  completion_of err st = CompletionComplete -> err = None /\ ry_truncated st = false.
Proof. unfold completion_of. destruct err; [by destruct (_ && _)|by destruct (ry_truncated st)]. Qed.

Lemma completion_failed err st :
  completion_of err st = CompletionFailed -> exists e, err = Some e /\ is_started st = false /\ h_bytes (ry_hasher st) = 0.
Proof.
  unfold completion_of. destruct err as [e|], (ry_truncated st); try done.
  all: destruct (is_started st), (Z.eqb_spec (h_bytes (ry_hasher st)) 0); try done; by exists e.
Qed.

(** The receipt was signed by a signer the service has published, over the policy that was enforced. *)
Lemma perform_signer sv clock transport rq spec specHash d n onChunk res st :
  perform sv clock transport rq spec specHash d n onChunk = (Ok res, st) ->
  exists point receipt, signer_Sign (activeSigner sv point) receipt = Ok (tr_Receipt res) /\ PolicyHash receipt = d_PolicyHash d.
Proof.
  unfold perform. destruct (run_exchange _ _ _ _) as [[[st1 resp] err] ctx]. destruct (signerStaleAt (activeSigner sv 1) (clock 4%nat)).
  all: destruct (signerStaleAt _ (clock 5%nat)); [done|].
  all: destruct (signer_Sign _ _) as [signed| |] eqn:Sg; [|done..]; intros E; injection E as <- <-; eexists _, _; by split; [exact Sg|].
Qed.

(** A transport that reports one start, before any chunk and with a real status, and returns the status it
    reported; a callback that fails is the last one called. *)
Fixpoint consistent (started : option Z) (x : exchange) : Prop :=
  match x with
  | XDone resp err _ => match started with Some status => rs_StatusCode resp = status | None => err <> None end
  | XStart resp k => started = None /\ consistent (Some (rs_StatusCode resp)) k
  | XChunk _ k => is_Some started /\ (forall b, consistent started (k b)) /\ exists resp err ctx, k true = XDone resp (Some err) ctx
  end.

(** What the relay knows of the start, against what the transport reported. *)
Definition start_agrees (started : option Z) (st : relayState) : Prop :=
  match ry_started st with
  | Some resp => started = Some (rs_StatusCode resp)
  | None => started = None \/ started = Some 0
  end.

Lemma relay_chunk_started maxBytes onChunk st chunk : ry_started (relay_chunk maxBytes onChunk st chunk).1 = ry_started st.
Proof. unfold relay_chunk. destruct (_ <? _); [done|]. by destruct (match onChunk with Some _ => _ | None => _ end). Qed.

(** The final status is the reported one; without a start there is an error or no status. *)
Lemma run_exchange_status maxBytes onChunk x started st st' resp err ctx :
  consistent started x -> start_agrees started st -> run_exchange maxBytes onChunk x st = (st', resp, err, ctx) ->
  match ry_started st' with Some start => rs_StatusCode resp = rs_StatusCode start | None => err <> None \/ rs_StatusCode resp = 0 end.
Proof.
  revert started st. induction x as [resp0 err0 ctx0|resp0 k IH|chunk k IH]; intros started st C A E; cbn [run_exchange] in E.
  - injection E as <- <- <- <-. unfold start_agrees in A. destruct (ry_started st) as [start|].
    + subst started. apply C.
    + destruct A as [-> | ->]; [by left|by right].
  - destruct C as [-> C]. refine (IH _ _ C _ E). unfold start_agrees in *. unfold relay_start.
    destruct (ry_started st) eqn:S; [done|]. cbn. destruct (Z.eqb_spec (rs_StatusCode resp0) 0) as [Z0|]; cbn.
    + rewrite S, Z0. by right.
    + done.
  - destruct C as (_ & C & _). pose proof (relay_chunk_started maxBytes onChunk st chunk) as R.
    destruct (relay_chunk _ _ _ _) as [st1 failed]. cbn in R. refine (IH _ _ _ (C failed) _ E).
    unfold start_agrees in *. by rewrite R.
Qed.


(** ** Series of executions *)

Record teeJob := mkTeeJob {
  tj_clock : nat -> Z;
  tj_transport : Request -> exchange;
  tj_spec : Spec;
  tj_body : bytes;
  tj_onChunk : option Consumer;
}.

(** Jobs in the order in which they reach the sequence store. *)
Fixpoint serve (sv : Service) (sq : seq_state) (jobs : list teeJob)
    : seq_state * list (string * res TeeResult * option (Request * relayState)) :=
  match jobs with
  | [] => (sq, [])
  | j :: jobs =>
      let '(sq, r, x) := tee_Execute sv (tj_clock j) (tj_transport j) sq (tj_spec j) (tj_body j) (tj_onChunk j) in
      let '(sq, log) := serve sv sq jobs in
      (sq, (sp_Provider (tj_spec j), r, x) :: log)
  end.

(** The exchanges of a provider, each with the number its receipt carries if one was issued. *)
Definition exchange_numbers (p : string) (log : list (string * res TeeResult * option (Request * relayState))) : list (option Z) :=
  omap (fun '(q, r, x) =>
    match x with
    | Some _ => if String.eqb q p then Some (match r with Ok res => Some (ProviderSeq (sReceipt (tr_Receipt res))) | _ => None end) else None
    | None => None
    end) log.

Lemma execute_numbers {SL : SeqLaws} sv clock transport sq spec body onChunk sq' r x :
  seq_ok sq -> tee_Execute sv clock transport sq spec body onChunk = (sq', r, x) ->
  seq_ok sq'
  /\ match x with
     | None => is_ok r = false /\ forall q, seq_Peek sq' q = seq_Peek sq q
     | Some _ => seq_Peek sq' (sp_Provider spec) = add64 (seq_Peek sq (sp_Provider spec)) 1
         /\ (forall q, q <> sp_Provider spec -> seq_Peek sq' q = seq_Peek sq q)
         /\ forall res, r = Ok res -> ProviderSeq (sReceipt (tr_Receipt res)) = add64 (seq_Peek sq (sp_Provider spec)) 1
     end.
Proof.
  intros K E. pose proof (next_keeps sq (sp_Provider spec) K) as K'. destruct x as [[rq st]|].
  - apply execute_exchange in E as (d & hs & sh & n & _ & N & _ & P). rewrite N in K'. split; [done|].
    destruct (next_ok _ _ _ _ K N) as (-> & -> & O). split_and!; [done..|]. intros res ->.
    by apply perform_signed in P as (? & ? & ? & ? & a & _ & _ & _ & -> & _).
  - apply execute_refused in E as [F [-> | (e & N & Fe)]]; [done|]. rewrite N in K'. split_and!; [done..|].
    by apply (next_err _ _ _ _ K N).
Qed.

(** A provider's receipts are numbered without gaps by what was executed.  A job that is refused, for whatever
    reason, leaves every provider's counter where it was; every exchange takes exactly the next number of its own
    provider, and the receipt issued for it carries that number.  So the k-th exchange of a provider carries the
    k-th number after the recorded one, whatever was refused or run for others in between. *)
Theorem exchanges_are_numbered_without_gaps {SL : SeqLaws} sv sq jobs p :
  seq_ok sq ->
  let '(sq', log) := serve sv sq jobs in
  u64 (seq_Peek sq' p) = u64 (seq_Peek sq p + Z.of_nat (length (exchange_numbers p log)))
  /\ forall i n, exchange_numbers p log !! i = Some (Some n) -> n = u64 (seq_Peek sq p + 1 + Z.of_nat i).
Proof.
  revert sq. induction jobs as [|j jobs IH]; intros sq K; cbn [serve]; [cbn; rewrite Z.add_0_r; naive_solver|].
  destruct (tee_Execute _ _ _ _ _ _ _) as [[sq1 r] x] eqn:E. apply execute_numbers in E as [K1 X]; [|done].
  specialize (IH sq1 K1). destruct (serve sv sq1 jobs) as [sq' log]. unfold exchange_numbers in *. cbn [omap list_omap].
  destruct x as [[rq st]|]; [|by destruct X as [_ X]; rewrite <- X].
  destruct X as (X1 & X2 & X3). destruct (String.eqb_spec (sp_Provider (tj_spec j)) p) as [<-|N]; [|by rewrite X2 in IH].
  rewrite X1 in IH. unfold add64, u64 in IH. rewrite Zplus_mod_idemp_l in IH. destruct IH as [I1 I2]. split.
  - cbn [length]. unfold u64. rewrite I1. f_equal. lia.
  - intros [|i] n E; cbn in E.
    + destruct r as [res| |]; [|done..]. injection E as <-. rewrite (X3 _ eq_refl), Z.add_0_r. done.
    + rewrite (I2 i n E), <- Z.add_assoc, Zplus_mod_idemp_l. unfold u64. f_equal. lia.
Qed.
End Execution.

(** ** A concrete enclave *)

Definition demo_spec_cbor : SpecCbor := {| cbor_spec _ := Ok [] |}.
Definition demo_header_json : HeaderJson := {| json_headers _ := [] |}.
Definition demo_envelope_cbor : EnvelopeCbor := {| cbor_envelope _ := Ok [1]; uncbor_envelope _ := Ok demo_envelope |}.
(** The evidence expires an hour after [demo_now]. *)
Definition demo_leaf : LeafExpiry := {| SNPNitroLeafNotAfter _ := Some (demo_now + 3600 * nanoseconds_per_second) |}.

Definition demo_epoch : Epoch := @epoch_of const_sha toy_ecdsa toy_laws [1; 2; 3] "aws-sev-snp" "report" "app" [9] (zeros 32).

Definition demo_service : @Service demo_inbox_lib :=
  @mkService demo_inbox_lib Default (Some (mkSigner (Some demo_epoch) false)) None 0 None demo_inbox.

Definition demo_clock (_ : nat) : Z := demo_now.

(** A provider that answers 200 and two chunks, and stops when the relay does. *)
Definition demo_transport (_ : Request) : exchange :=
  XStart (mkResponse 200 ∅) (XChunk [104; 105] (fun failed =>
    if failed then XDone (mkResponse 200 ∅) (Some (mkTransportErr (Some (StageBody, false)) false false)) ContextOk
    else XChunk [33] (fun failed =>
      XDone (mkResponse 200 ∅) (if failed then Some (mkTransportErr (Some (StageBody, false)) false false) else None) ContextOk))).

Lemma demo_consistent rq : consistent None (demo_transport rq).
Proof. cbn. split_and!; [done|by eexists| |by do 3 eexists]. intros []; [done|]. cbn. split_and!; [by eexists|by intros []|by do 3 eexists]. Qed.

Definition demo_Execute (sq : memorySeqStore) (spec : Spec) : memorySeqStore * res TeeResult * option (Request * relayState) :=
  @tee_Execute const_sha toy_cbor demo_spec_cbor demo_policy_cbor demo_unicode demo_header_json demo_envelope_cbor
    demo_inbox_lib demo_leaf memory_seq demo_service demo_clock demo_transport sq spec [] None.

Definition enclave_run : memorySeqStore * res TeeResult * option (Request * relayState) := demo_Execute ∅ (chat_spec "fault=slow").

(** What the run leaves behind: the counter, the completion, the chunks relayed and arrived. *)
Definition summary (x : memorySeqStore * res TeeResult * option (Request * relayState)) : option (Z * Z * list bytes * list bytes) :=
  match x with
  | (sq, Ok res, Some (_, st)) =>
      Some (counter sq "openai", Completion (sReceipt (tr_Receipt res)), ry_relayed st, ry_arrived st)
  | _ => None
  end.

Lemma demo_summary : summary enclave_run = Some (1, CompletionComplete, [[104; 105]; [33]], [[104; 105]; [33]]).
Proof. vm_compute. reflexivity. Qed.

Lemma demo_started : (match enclave_run with (_, _, Some (_, st)) => rs_StatusCode <$> ry_started st | _ => None end) = Some 200.
Proof. vm_compute. reflexivity. Qed.


Definition demo_series :=
  @serve const_sha toy_cbor demo_spec_cbor demo_policy_cbor demo_unicode demo_header_json demo_envelope_cbor
    demo_inbox_lib demo_leaf memory_seq demo_service ∅
    (map (fun q => mkTeeJob demo_clock demo_transport (chat_spec q) [] None) ["fault=a"; "debug=1"; ""]%string).

Lemma demo_series_numbers : exchange_numbers "openai" demo_series.2 = [Some 1; Some 2].
Proof. vm_compute. reflexivity. Qed.

Lemma exchanges_are_numbered_without_gaps_witness :
  exists sq log, demo_series = (sq, log) /\ exchange_numbers "openai" log = [Some 1; Some 2] /\ u64 (counter sq "openai") = 2.
Proof.
  pose proof (@exchanges_are_numbered_without_gaps const_sha toy_cbor demo_spec_cbor demo_policy_cbor demo_unicode
    demo_header_json demo_envelope_cbor demo_inbox_lib demo_leaf memory_seq memory_laws demo_service ∅
    (map (fun q => mkTeeJob demo_clock demo_transport (chat_spec q) [] None) ["fault=a"; "debug=1"; ""]%string) "openai" I) as T.
  pose proof demo_series_numbers as N. fold demo_series in T. destruct demo_series as [sq log]. cbn [snd] in N.
  exists sq, log. split; [reflexivity|]. split; [exact N|]. destruct T as [T _]. rewrite N in T. exact T.
Defined.
