(* ===== verification/Egress.v ===== *)
(** * What leaves the enclave

    The bytes the enclave writes to a provider, read back the way a server reads
    them.  [tee_Execute] decides what may be sent ([tee/service.go]),
    [buildRequestBytes] renders it ([transport/channelpool.go]); the results are
    about the two together.  The server is written from the rules of HTTP/1.1 and
    knows nothing of the renderer ([server_reads]).  When the query carries no
    white space it reads one request, the authorised one, with the provider's own
    credential, and nothing is left over.
    The validation of a job does not ask that of a query, and without it one
    authorised job is two requests on the wire. *)

From Stdlib Require Import Ascii.
From stdpp Require Import pretty.
From S2P Require Import Prelude Bytes Crypto Receipt GoStrings Jobs Policy Credential SeqStore Transport Headers Tee.
From stdpp Require Import list.
Open Scope Z_scope.

(** ** Clean strings *)

Definition sub_bytes (a b : string) : Prop :=
  String.list_ascii_of_string a ⊆ String.list_ascii_of_string b.

Lemma clean_cat bad s t : clean bad (s ++ t) <-> clean bad s /\ clean bad t.
Proof. unfold clean. rewrite list_ascii_app. setoid_rewrite elem_of_app. naive_solver. Qed.

Lemma clean_weaken bad bad' s : sub_bytes bad' bad -> clean bad s -> clean bad' s.
Proof. intros S C a I B. by apply (C a I), S. Qed.

Lemma clean_chars (f : ascii -> bool) bad s :
  all_chars f s = true -> (forall a, a ∈ String.list_ascii_of_string bad -> f a = false) -> clean bad s.
Proof. rewrite all_chars_true. intros A N a I B. specialize (A a I). by rewrite (N a B) in A. Qed.

Lemma pretty_N_digits (x : N) : all_chars is_digit (pretty x) = true.
Proof.
  assert (D : forall s, all_chars is_digit s = true -> all_chars is_digit (pretty_N_go x s) = true).
  { induction (N.lt_wf_0 x) as [x _ IH]. intros s S. destruct (decide (x = 0)%N) as [->|N].
    - by rewrite pretty_N_go_0.
    - rewrite pretty_N_go_step by lia. apply IH; [apply N.div_lt; lia|].
      change (is_digit (pretty_N_char (x mod 10)) && all_chars is_digit s = true). rewrite S, andb_true_r.
      unfold pretty_N_char. by repeat case_match. }
  unfold pretty, pretty_N. destruct (decide _); [done|]. by apply D.
Qed.

(** A byte string of literals is clean by computation. *)
Ltac clean_lit := apply ContainsAny_clean; vm_compute; reflexivity.

Lemma split_on_none c s : has_byte s c = false -> split_on c s = [s].
Proof.
  induction s as [|a s IH]; [done|]. rewrite has_byte_cons, Ascii.eqb_sym. intros [N F]%orb_false_iff.
  cbn. by rewrite N, IH.
Qed.

Lemma split_on_app c s t : has_byte s c = false -> split_on c (s ++ String.String c t) = s :: split_on c t.
Proof.
  induction s as [|a s IH].
  - intros _. change ("" ++ String.String c t)%string with (String.String c t). cbn. by rewrite Ascii.eqb_refl.
  - rewrite str_cons_app, has_byte_cons, Ascii.eqb_sym. intros [N F]%orb_false_iff. cbn. by rewrite N, IH.
Qed.

Lemma clean_has bad s c : clean bad s -> c ∈ String.list_ascii_of_string bad -> has_byte s c = false.
Proof. intros C I. apply not_true_iff_false. rewrite has_byte_elem. intros B. by apply (C c B). Qed.

(** ** How a server reads a request

    RFC 9112: the head up to the empty line, the fields of its lines under their names in lower case and without the
    white space around their values, and a body of as many bytes as the one Content-Length says.  A server refuses a
    request without exactly one Host, and to be sure of the framing it refuses a Transfer-Encoding and any other number
    of lengths than one. *)

Definition unstr (l : bytes) : string := String.string_of_list_ascii (map (fun b => Ascii.ascii_of_N (Z.to_N b)) l).

Fixpoint cut_colon (s : string) : option (string * string) :=
  match s with
  | String.EmptyString => None
  | String.String a s => if Ascii.eqb a ":" then Some (String.EmptyString, s)
                         else match cut_colon s with Some (n, v) => Some (String.String a n, v) | None => None end
  end.

Definition is_blank (a : ascii) : bool := Ascii.eqb a " " || Ascii.eqb a (Ascii.ascii_of_N 9).

Fixpoint skip_blanks (l : list ascii) : list ascii :=
  match l with [] => [] | a :: l' => if is_blank a then skip_blanks l' else l end.

Definition trim_blanks (s : string) : string :=
  String.string_of_list_ascii (reverse (skip_blanks (reverse (skip_blanks (String.list_ascii_of_string s))))).

Definition field_of (line : string) : option (string * string) :=
  match cut_colon line with Some (n, v) => Some (lower_string n, trim_blanks v) | None => None end.

Fixpoint fields_of (lines : list string) : option (list (string * string)) :=
  match lines with
  | [] => Some []
  | line :: lines => match field_of line, fields_of lines with Some f, Some fs => Some (f :: fs) | _, _ => None end
  end.

Definition decimal (s : string) : option Z :=
  if negb (String.eqb s "") && all_chars is_digit s then Some (foldl (fun n b => 10 * n + (b - 48)) 0 (str s)) else None.

Definition field_values (name : string) (fields : list (string * string)) : list string :=
  map snd (filter (fun f => f.1 = name) fields).

Record serverRequest := mkServerRequest {
  sv_request_line : list string;
  sv_host : string;
  sv_fields : list (string * string);
  sv_body : bytes;
}.

(** The request, and the bytes that follow it on the connection. *)
Definition server_reads (wire : bytes) : option (serverRequest * bytes) :=
  match read_head (S (length wire)) wire with
  | Some (line :: lines, rest) =>
      match fields_of (map unstr lines) with
      | Some fields =>
          match field_values "transfer-encoding" fields, field_values "content-length" fields, field_values "host" fields with
          | [], [len], [host] =>
              match decimal len with
              | Some n => if Z.of_nat (length rest) <? n then None
                          else Some (mkServerRequest (split_on " " (unstr line)) host fields (take (Z.to_nat n) rest), drop (Z.to_nat n) rest)
              | None => None
              end
          | _, _, _ => None
          end
      | None => None
      end
  | _ => None
  end.

Lemma unstr_str s : unstr (str s) = s.
Proof.
  unfold unstr, str. rewrite map_map. rewrite (map_ext _ id); [by rewrite map_id, String.string_of_list_ascii_of_string|].
  intros a. rewrite N2Z.id. apply Ascii.ascii_N_embedding.
Qed.

Lemma read_head_fuel fuel l r : read_head fuel l = Some r -> forall fuel', (fuel <= fuel')%nat -> read_head fuel' l = Some r.
Proof.
  revert l r. induction fuel as [|fuel IH]; intros l r E fuel' L; [done|]. destruct fuel' as [|fuel']; [lia|]. cbn [read_head] in *.
  destruct (cut_line l) as [[[|b x] rest]|]; [done| |done]. destruct (read_head fuel rest) as [[xs r']|] eqn:Er; [|done].
  by rewrite (IH _ _ Er fuel') by lia.
Qed.

Lemma render_head_length lines : (length lines <= length (render_head lines))%nat.
Proof.
  unfold render_head. rewrite length_app. induction lines as [|l lines IH]; cbn [map concat length]; [lia|].
  rewrite length_app, length_str. assert (X : forall a, String.length (a ++ CRLF) <> 0%nat) by (intros []; done). specialize (X l). lia.
Qed.

Lemma cut_colon_app n v : has_byte n ":" = false -> cut_colon (n ++ String.String ":" v) = Some (n, v).
Proof.
  induction n as [|a n IH]; [done|]. rewrite str_cons_app, has_byte_cons, Ascii.eqb_sym. intros [N F]%orb_false_iff. cbn [cut_colon].
  by rewrite N, IH.
Qed.

Lemma field_of_line n v : has_byte n ":" = false -> field_of (n ++ ": " ++ v) = Some (lower_string n, trim_blanks v).
Proof. intros H. unfold field_of. change (": " ++ v)%string with (String.String ":" (" " ++ v)). rewrite cut_colon_app by done. done. Qed.

Lemma trim_clean s : clean whitespace s -> trim_blanks s = s.
Proof.
  intros C. assert (K : forall l, (forall a, a ∈ l -> a ∈ String.list_ascii_of_string s) -> skip_blanks l = l).
  { intros l Hl. destruct l as [|a l]; [done|]. cbn [skip_blanks]. destruct (is_blank a) eqn:E; [|done]. exfalso.
    apply (C a); [apply Hl, list_elem_of_here|]. unfold is_blank in E. apply orb_true_iff in E as [E%Ascii.eqb_eq|E%Ascii.eqb_eq]; subst a.
    - vm_compute. set_solver.
    - vm_compute. set_solver. }
  unfold trim_blanks. rewrite (K (String.list_ascii_of_string s)) by done. rewrite K by (intros a; by rewrite elem_of_reverse). rewrite reverse_involutive.
  apply String.string_of_list_ascii_of_string.
Qed.

Lemma token_no_colon n : IsToken n = true -> has_byte n ":" = false.
Proof.
  unfold IsToken. intros [_ T]%andb_true_iff. apply not_true_iff_false. rewrite has_byte_elem. intros I. rewrite all_chars_true in T. by specialize (T _ I).
Qed.

Lemma fields_of_app l1 l2 f1 f2 : fields_of l1 = Some f1 -> fields_of l2 = Some f2 -> fields_of (l1 ++ l2) = Some (f1 ++ f2).
Proof.
  revert f1. induction l1 as [|x l1 IH]; intros f1 E1 E2; cbn [fields_of app] in *; [by injection E1 as <-|].
  destruct (field_of x); [|done]. destruct (fields_of l1) as [fs|]; [|done]. injection E1 as <-. by rewrite (IH fs).
Qed.

Definition sent_field (kv : string * string) : string * string := (lower_string kv.1, trim_blanks kv.2).

Lemma fields_of_headers order : Forall (fun kv => IsToken kv.1 = true) order -> fields_of (map header_line order) = Some (map sent_field order).
Proof.
  induction 1 as [|[n v] order T F IH]; [done|]. cbn [map fields_of]. unfold header_line at 1. cbn [fst snd].
  rewrite field_of_line by by apply token_no_colon. by rewrite IH.
Qed.

Lemma field_values_app name f1 f2 : field_values name (f1 ++ f2) = field_values name f1 ++ field_values name f2.
Proof. unfold field_values. by rewrite filter_app, map_app. Qed.

Lemma field_values_other name order : Forall (fun kv : string * string => lower_string kv.1 <> name) order -> field_values name (map sent_field order) = [].
Proof. intros F. unfold field_values. induction F as [|kv order N F IH]; [done|]. cbn [map]. by rewrite filter_cons_False. Qed.

(** The decimal digits of a number read as the number. *)
Lemma decimal_pretty (x : N) : decimal (pretty x) = Some (Z.of_N x).
Proof.
  assert (G : forall s, foldl (fun n b => 10 * n + (b - 48)) 0 (str (pretty_N_go x s)) = foldl (fun n b => 10 * n + (b - 48)) (Z.of_N x) (str s)).
  { induction (N.lt_wf_0 x) as [x _ IH]. intros s. destruct (decide (x = 0)%N) as [->|N]; [by rewrite pretty_N_go_0|].
    rewrite pretty_N_go_step, IH by (lia || (apply N.div_lt; lia)).
    change (str (String.String (pretty_N_char (x mod 10)) s)) with (code (pretty_N_char (x mod 10)) :: str s). cbn [foldl]. f_equal.
    assert (D : code (pretty_N_char (x mod 10)) - 48 = Z.of_N (x mod 10)).
    { pose proof (N.mod_lt x 10 ltac:(lia)) as B. destruct (x mod 10)%N as [|p]; [done|]. do 4 (destruct p as [p|p|]; try done; try lia). }
    rewrite D. rewrite N2Z.inj_div, N2Z.inj_mod. pose proof (Z.div_mod (Z.of_N x) (Z.of_N 10) ltac:(lia)). lia. }
  assert (Ne : String.eqb (pretty x) "" = false).
  { apply String.eqb_neq. unfold pretty, pretty_N. destruct (decide _); [done|]. rewrite pretty_N_go_step by lia.
    assert (L : forall x s, s <> ""%string -> pretty_N_go x s <> ""%string).
    { clear. intros x. induction (N.lt_wf_0 x) as [x _ IH]. intros s Hs. destruct (decide (x = 0)%N) as [->|N]; [by rewrite pretty_N_go_0|].
      rewrite pretty_N_go_step by lia. apply IH; [apply N.div_lt; lia|done]. }
    by apply L. }
  unfold decimal. rewrite Ne, pretty_N_digits. cbn [negb andb]. f_equal. unfold pretty, pretty_N.
  destruct (decide (x = 0)%N) as [->|N]; [done|]. apply (G ""%string).
Qed.

(** ** The credential *)

Section Egress.
Context {SH : Sha256} {CB : Cbor} {EC : Ecdsa} {SC : SpecCbor} {PC : PolicyCbor} {GU : GoUnicode} {HJ : HeaderJson}
        {EV : EnvelopeCbor} {IL : InboxLib} {LE : LeafExpiry} {SQ : SeqStore}.

(** The headers sent for [spec] are its own and, if the provider authenticates, one header of the credential that
    was sealed for [spec]'s provider. *)
Definition credential_headers (sv : Service) (spec : Spec) (hs : gmap string string) : Prop :=
  exists env secret, DecodeEnvelope (sp_Credential spec) = Ok env
    /\ inbox_Open (sv_inbox sv) env = Ok (secret, sp_Provider spec)
    /\ ((s_Header secret = ""%string /\ hs = sp_Headers spec)
        \/ exists name value, secret_Render secret = Ok (name, value) /\ name <> ""%string
             /\ headerSet (sp_Headers spec) name = false /\ hs = <[name := value]> (sp_Headers spec)).

Lemma injectCredential_headers sv spec hs : injectCredential sv spec = Ok hs -> credential_headers sv spec hs.
Proof.
  unfold injectCredential. rewrite guard_iff. intros [_ E]. inv_bind E. inv_bind E. destruct a0 as [secret declared].
  rewrite guard_iff, negb_false_iff, String.eqb_eq, unit_bind_iff in E. destruct E as (-> & _ & E).
  exists a, secret. split_and!; [done..|]. destruct (String.eqb_spec (s_Header secret) "") as [Em|Ne].
  - left. by apply (inj Ok) in E as <-.
  - right. rewrite guard_iff in E. destruct E as [Hs E]. inv_bind E. destruct a0 as [n v]. apply (inj Ok) in E as <-.
    exists n, v. assert (n = s_Header secret) as ->; [|done].
    unfold secret_Render in E2. inv_bind E2. by apply (inj Ok) in E2 as [= <- <-].
Qed.

(** A header that may be sent: one line, and not one of those a server frames or routes a request by. *)
Definition harmless (kv : string * string) : Prop :=
  IsToken kv.1 = true /\ clean line_breakers kv.2
  /\ lower_string kv.1 <> "host"%string /\ lower_string kv.1 <> "content-length"%string
  /\ lower_string kv.1 <> "transfer-encoding"%string.

Lemma egress_headers_safe sv spec hs :
  spec_ok spec -> credential_headers sv spec hs -> map_Forall (fun n v => harmless (n, v)) hs.
Proof.
  intros Ok (env & secret & _ & _ & H).
  assert (S : map_Forall (fun n v => harmless (n, v)) (sp_Headers spec)).
  { intros n v L. destruct (ok_headers _ Ok n v L) as (T & F & C). split; [done|]. split; [done|].
    cbn. split_and!; intros E; apply F; rewrite E; vm_compute; set_solver. }
  destruct H as [[_ ->] | (n & v & R & Ne & _ & ->)]; [done|].
  apply map_Forall_insert_2; [|done]. destruct (secret_Render_safe _ _ _ R Ne) as (T & F & C). split; [done|]. split; [done|].
  cbn. split_and!; intros E; apply F; rewrite E; vm_compute; set_solver.
Qed.

Lemma method_clean m : m ∈ SupportedMethods -> clean whitespace m.
Proof. intros M. vm_compute in M. set_unfold in M. repeat destruct M as [-> | M]; try done; clean_lit. Qed.

Lemma token_clean n : IsToken n = true -> clean CRLF n.
Proof.
  unfold IsToken. intros [_ T]%andb_true_iff. apply (clean_chars token_char); [done|].
  intros a B. vm_compute in B. set_unfold in B. by destruct B as [-> | [-> | []]].
Qed.

Lemma app_nonempty s t : t <> ""%string -> (s ++ t)%string <> ""%string.
Proof. by destruct s, t. Qed.

Lemma head_lines_clean rq order :
  rq_Method rq ∈ SupportedMethods -> clean whitespace (target rq) -> clean CRLF (rq_Host rq) ->
  Forall harmless order ->
  Forall one_line (head_lines rq order).
Proof.
  assert (WS : sub_bytes CRLF whitespace) by (intros a B; vm_compute in B |- *; set_solver).
  assert (LB : sub_bytes CRLF line_breakers) by (intros a B; vm_compute in B |- *; set_solver).
  intros M T H O. unfold head_lines. repeat apply Forall_cons_2.
  - split; [by apply app_nonempty|]. rewrite !clean_cat. split_and!; [|clean_lit| |clean_lit].
    + by apply (clean_weaken _ _ _ WS), method_clean.
    + by apply (clean_weaken _ _ _ WS).
  - split; [done|]. rewrite clean_cat. split; [clean_lit|done].
  - split; [done|clean_lit].
  - apply Forall_app_2; [|apply Forall_singleton; split; [done|]].
    + apply Forall_map. eapply Forall_impl; [exact O|]. intros [n v] (Tn & Cv & _). cbn in *. split.
      * destruct n; done.
      * unfold header_line. rewrite !clean_cat. split_and!; [by apply token_clean|clean_lit|by apply (clean_weaken _ _ _ LB)].
    + rewrite clean_cat. split; [clean_lit|]. apply (clean_chars is_digit); [apply pretty_N_digits|].
      intros a B. vm_compute in B. set_unfold in B. by destruct B as [-> | [-> | []]].
Qed.

(** The fields a server finds in a rendered head. *)
Lemma fields_of_head rq order :
  clean whitespace (rq_Host rq) -> Forall harmless order ->
  fields_of (tail (head_lines rq order)) =
    Some (("host", rq_Host rq)%string :: ("connection", "keep-alive")%string
          :: map sent_field order ++ [("content-length"%string, pretty (N.of_nat (length (rq_Body rq))))]).
Proof.
  intros H O. assert (L : fields_of [("Content-Length: " ++ pretty (N.of_nat (length (rq_Body rq))))%string]
    = Some [("content-length"%string, pretty (N.of_nat (length (rq_Body rq))))]).
  { change ("Content-Length: " ++ pretty (N.of_nat (length (rq_Body rq))))%string
      with ("Content-Length" ++ ": " ++ pretty (N.of_nat (length (rq_Body rq))))%string.
    cbn [fields_of]. rewrite field_of_line by done.
    rewrite trim_clean; [done|]. apply (clean_chars is_digit); [apply pretty_N_digits|].
    intros a B. vm_compute in B. set_unfold in B. by repeat destruct B as [-> | B]. }
  assert (F : fields_of (map header_line order) = Some (map sent_field order))
    by (apply fields_of_headers; eapply Forall_impl; [exact O|by intros kv []]).
  unfold head_lines. cbn [tail fields_of]. rewrite (fields_of_app _ _ _ _ F L).
  change ("Host: " ++ rq_Host rq)%string with ("Host" ++ ": " ++ rq_Host rq)%string. rewrite field_of_line by done. rewrite (trim_clean _ H). done.
Qed.

(** One Content-Length, the length of the body, one Host and no Transfer-Encoding. *)
Lemma head_frames_body rq order :
  Forall harmless order ->
  let fields := ("host", rq_Host rq)%string :: ("connection", "keep-alive")%string
                :: map sent_field order ++ [("content-length"%string, pretty (N.of_nat (length (rq_Body rq))))] in
  field_values "transfer-encoding" fields = [] /\ field_values "content-length" fields = [pretty (N.of_nat (length (rq_Body rq)))]
  /\ field_values "host" fields = [rq_Host rq].
Proof.
  intros O fields.
  assert (X : forall name, Forall (fun kv : string * string => lower_string kv.1 <> name) order -> field_values name fields =
    field_values name [("host", rq_Host rq); ("connection", "keep-alive")]%string
    ++ field_values name [("content-length"%string, pretty (N.of_nat (length (rq_Body rq))))]).
  { intros name F. unfold fields. rewrite !app_comm_cons, field_values_app. f_equal.
    change (?a :: ?b :: ?l) with ([a; b] ++ l). rewrite field_values_app, field_values_other by done. apply app_nil_r. }
  split_and!; (rewrite X; [reflexivity|]); eapply Forall_impl; [exact O| |exact O| |exact O|]; by intros kv (_ & _ & ? & ? & ?).
Qed.

(** What a server reads of a rendered request. *)
Lemma server_reads_rendered rq order :
  Forall one_line (head_lines rq order) -> clean whitespace (rq_Host rq) -> Forall harmless order ->
  server_reads (buildRequestBytes rq order) =
    Some (mkServerRequest (split_on " " (rq_Method rq ++ " " ++ target rq ++ " HTTP/1.1")) (rq_Host rq)
            (("host", rq_Host rq)%string :: ("connection", "keep-alive")%string
             :: map sent_field order ++ [("content-length"%string, pretty (N.of_nat (length (rq_Body rq))))]) (rq_Body rq), []).
Proof.
  intros L H O. unfold server_reads.
  rewrite (read_head_fuel (S (length (head_lines rq order))) _ (map str (head_lines rq order), rq_Body rq));
    [|by apply read_head_render|].
  2: { unfold buildRequestBytes. rewrite length_app. pose proof (render_head_length (head_lines rq order)). lia. }
  change (map str (head_lines rq order)) with
    (str (rq_Method rq ++ " " ++ target rq ++ " HTTP/1.1")%string :: map str (tail (head_lines rq order))).
  cbv iota beta. rewrite map_map, (map_ext _ id), map_id by apply unstr_str.
  rewrite (fields_of_head _ _ H O). destruct (head_frames_body rq order O) as (-> & -> & ->). rewrite decimal_pretty, unstr_str.
  rewrite nat_N_Z, Z.ltb_irrefl, Nat2Z.id, take_ge, drop_ge by lia. done.
Qed.

(** C25: The provider reads exactly the authorised request.  When a job is executed and its query carries no white
    space, then what is written to the connection, whatever the order in which the headers are rendered, is one
    request to a server that reads by the rules of HTTP/1.1 ([server_reads]: one Host, one Content-Length, no
    Transfer-Encoding), with no byte left over after it.  Its request line is the job's method, its path with its
    query and the version; its host is the job's; its fields are the host, the connection option, the headers sent
    and a length that is the decimal length of the body; and its body is the committed body.  The headers sent are
    the job's own plus, if the provider authenticates, the one header of the credential that was sealed for the job's
    own provider.  The policy permits the job. *)
Theorem provider_reads_authorised_request sv clock transport sq spec body onChunk sq' r rq st order :
  tee_Execute sv clock transport sq spec body onChunk = (sq', r, Some (rq, st)) ->
  clean whitespace (sp_Query spec) -> order ≡ₚ map_to_list (rq_Headers rq) ->
  (exists len, decimal len = Some (Z.of_nat (length body))
    /\ server_reads (buildRequestBytes rq order) =
         Some (mkServerRequest
           [sp_Method spec; (if String.eqb (sp_Query spec) "" then sp_Path spec else sp_Path spec ++ "?" ++ sp_Query spec)%string;
            "HTTP/1.1"%string]
           (sp_Host spec)
           (("host", sp_Host spec)%string :: ("connection", "keep-alive")%string
            :: map sent_field order ++ [("content-length"%string, len)])
           body, []))
  /\ credential_headers sv spec (rq_Headers rq)
  /\ sp_BodyHash spec = HashBody body /\ exists d, permitted (sv_policy sv) spec d.
Proof.
  intros E Q O. apply execute_exchange in E as (d & hs & sh & n & C & _ & -> & _).
  apply execute_checks_cleared in C as [_ _ Sok _ Bh _ Pm _ Hs _]. apply injectCredential_headers in Hs.
  destruct (ok_path _ Sok) as (_ & _ & Pc & _). destruct (ok_host _ Sok) as (_ & Hc & _).
  assert (T : clean whitespace (target (exchange_request sv spec hs body d))).
  { unfold target. cbn. destruct (String.eqb _ _); [done|]. rewrite !clean_cat. split_and!; [done|clean_lit|done]. }
  assert (Hw : clean whitespace (sp_Host spec))
    by (apply (clean_weaken (whitespace ++ "/@?")); [|done]; intros a B; vm_compute in B |- *; set_solver).
  assert (Hm : Forall harmless order).
  { apply Forall_forall. intros [n' v] I. rewrite O in I. apply elem_of_map_to_list in I. by apply (egress_headers_safe _ _ _ Sok Hs). }
  split_and!; [|done..|by exists d]. exists (pretty (N.of_nat (length body))). split; [by rewrite decimal_pretty, nat_N_Z|].
  rewrite server_reads_rendered; [|apply head_lines_clean; [by apply Sok|done| |done]|done|done].
  - do 3 f_equal.
    change (split_on " " (sp_Method spec ++ String.String " " (target (exchange_request sv spec hs body d)
      ++ String.String " " "HTTP/1.1")) = [sp_Method spec; target (exchange_request sv spec hs body d); "HTTP/1.1"%string]).
    assert (Sp : " "%char ∈ String.list_ascii_of_string whitespace) by (vm_compute; set_solver).
    rewrite split_on_app by (apply (clean_has whitespace); [by apply method_clean, Sok|done]).
    rewrite split_on_app by (by apply (clean_has whitespace)). by rewrite split_on_none.
  - apply (clean_weaken whitespace); [|done]. intros a B. vm_compute in B |- *. set_solver.
Qed.
End Egress.

(** ** Concrete requests *)

Lemma provider_reads_authorised_request_witness :
  exists sq r rq st len, enclave_run = (sq, r, Some (rq, st)) /\ decimal len = Some 0
    /\ server_reads (buildRequestBytes rq (map_to_list (rq_Headers rq))) =
         Some (mkServerRequest ["POST"; "/v1/chat/completions?fault=slow"; "HTTP/1.1"]%string "API.openai.com"
           [("host", "API.openai.com"); ("connection", "keep-alive"); ("content-type", "application/json");
            ("authorization", "Bearer sk-1"); ("content-length", len)]%string [], []).
Proof.
  assert (D : (match enclave_run.2 with Some (rq, _) => map sent_field (map_to_list (rq_Headers rq)) | None => [] end)
    = [("content-type", "application/json"); ("authorization", "Bearer sk-1")]%string) by (vm_compute; reflexivity).
  destruct enclave_run as [[sq r] [[rq st]|]] eqn:E; [|discriminate D]. unfold enclave_run, demo_Execute in E.
  pose proof (@provider_reads_authorised_request const_sha toy_cbor demo_spec_cbor demo_policy_cbor demo_unicode
    demo_header_json demo_envelope_cbor demo_inbox_lib demo_leaf memory_seq demo_service demo_clock demo_transport ∅
    (chat_spec "fault=slow") [] None sq r rq st (map_to_list (rq_Headers rq)) E) as T.
  cbn [snd] in D. destruct T as [(len & Dl & T) _]; [cbn [chat_spec sp_Query]; clean_lit|reflexivity|].
  exists sq, r, rq, st, len. rewrite D in T. split; [reflexivity|]. split; [exact Dl|exact T].
Defined.

Definition smuggled_query : string :=
  ("fault=x HTTP/1.1" ++ CRLF ++ "Host: api.openai.com" ++ CRLF ++ "Content-Length: 0" ++ CRLF ++ CRLF ++ "DELETE /v1/files/f1")%string.

Definition wire_of (x : memorySeqStore * res TeeResult * option (Request * relayState)) : option bytes :=
  match x.2 with Some (rq, _) => Some (buildRequestBytes rq (map_to_list (rq_Headers rq))) | None => None end.

(** A query is copied to the request line as it is, and neither the validation of a job nor the policy looks
    for line breaks in it.  Under the shipped policy a job for an admitted path passes every check, and what is
    written reads as two requests: the admitted one, which ends before its headers, and a second one of the
    submitter's choosing, here a method and a path the policy refuses, which carries the provider's credential. *)
Theorem raw_query_smuggles_a_request :
  exists wire first rest second,
    wire_of (demo_Execute ∅ (chat_spec smuggled_query)) = Some wire
    /\ read_head 8 wire = Some (first, rest) /\ read_head 8 rest = Some (second, [])
    /\ first = map str ["POST /v1/chat/completions?fault=x HTTP/1.1"; "Host: api.openai.com"; "Content-Length: 0"]%string
    /\ second = map str ["DELETE /v1/files/f1 HTTP/1.1"; "Host: API.openai.com"; "Connection: keep-alive";
         "Content-Type: application/json"; "Authorization: Bearer sk-1"; "Content-Length: 0"]%string
    /\ findRule Default "/v1/files/f1" "DELETE" = Err "path is not allowed by policy".
Proof.
  destruct (wire_of (demo_Execute ∅ (chat_spec smuggled_query))) as [wire|] eqn:E; [|vm_compute in E; discriminate E].
  vm_compute in E. apply (inj Some) in E as <-. do 4 eexists. split; [reflexivity|].
  split; [vm_compute; reflexivity|]. split; [vm_compute; reflexivity|]. split; [vm_compute; reflexivity|].
  split; vm_compute; reflexivity.
Qed.
