(* ===== verification/RequestFormat.v ===== *)
(** * The form of a request ([tee_k/session_handlers.go], [tee_k/cbc_handlers.go])

    TEE_K signs a request whose hidden ranges it shows as asterisks, so it
    checks the form first: the host, the end of the connection and, with the CBC
    suites, the framing.  A request is a list of bytes here and its lines are
    too. *)

From Stdlib Require Import Ascii.
From stdpp Require Import pretty.
From S2P Require Import Prelude Bytes Crypto CipherSuite Prf SplitAead Cbc Redaction Response CbcSession GoStrings Jobs Transport.
From stdpp Require Import list.
Open Scope Z_scope.

Definition crlf : bytes := [13; 10].

(** [bytes.Index]. *)
Fixpoint index_of (pat l : bytes) : option nat :=
  if bool_decide (take (length pat) l = pat) then Some 0%nat else
  match l with [] => None | _ :: l => S <$> index_of pat l end.

Definition contains (l pat : bytes) : bool := bool_decide (is_Some (index_of pat l)).

Definition has_prefix (l pat : bytes) : bool := bool_decide (take (length pat) l = pat).
Definition has_suffix (l pat : bytes) : bool := (length pat <=? length l)%nat && bool_decide (drop (length l - length pat)%nat l = pat).

Definition cons_head (a : Z) (ls : list bytes) : list bytes := match ls with l :: ls => (a :: l) :: ls | [] => [[a]] end.

(** [strings.Split] on CR LF and on one byte. *)
Fixpoint split_crlf (l : bytes) : list bytes :=
  match l with
  | [] => [[]]
  | a :: t =>
      match t with
      | b :: t' => if (a =? 13) && (b =? 10) then [] :: split_crlf t' else cons_head a (split_crlf t)
      | [] => [[a]]
      end
  end.

Fixpoint split_byte (c : Z) (l : bytes) : list bytes :=
  match l with
  | [] => [[]]
  | a :: t => if a =? c then [] :: split_byte c t else cons_head a (split_byte c t)
  end.

(** [strings.Cut] at one byte. *)
Fixpoint cut_byte (c : Z) (l : bytes) : option (bytes * bytes) :=
  match l with
  | [] => None
  | a :: t => if a =? c then Some ([], t) else match cut_byte c t with Some (x, r) => Some (a :: x, r) | None => None end
  end.

Definition lower_byte (a : Z) : Z := if (65 <=? a) && (a <=? 90) then a + 32 else a.

(** [strconv.ParseUint(s, 10, 63)]: [None] is an error. *)
Definition digit_byte (a : Z) : bool := (48 <=? a) && (a <=? 57).
Definition decimal (l : bytes) : Z := foldl (fun n a => n * 10 + (a - 48)) 0 l.
Definition ParseUint63 (l : bytes) : option Z :=
  if (length l =? 0)%nat || negb (forallb digit_byte l) then None else
  if decimal l <? 2 ^ 63 then Some (decimal l) else None.

Definition FormatUint (n : Z) : bytes := str (pretty (Z.to_N n)).

(** ** The authority of the connection *)

(** The fields of [shared.RequestConnectionData] that the checks read. *)
Record RequestConnectionData := mkConn { cd_Hostname : bytes; cd_Port : Z }.

Definition defaultHTTPSPort : Z := 443.

Definition validateHTTPSPort (port : Z) : res unit :=
  fail_if ((port <? 1) || (65535 <? port)) "HTTPS port out of range";; Ok ().

(** [net.JoinHostPort] brackets a host with a colon. *)
Definition JoinHostPort (host : bytes) (port : bytes) : bytes :=
  if contains host [58] then [91] ++ host ++ [93; 58] ++ port else host ++ [58] ++ port.

Definition expectedHTTPRequestAuthority (connData : RequestConnectionData) : res bytes :=
  _ ← validateHTTPSPort (cd_Port connData);
  if cd_Port connData =? defaultHTTPSPort then Ok (cd_Hostname connData)
  else Ok (JoinHostPort (cd_Hostname connData) (FormatUint (cd_Port connData))).

(** ** What the client hides is shown as asterisks *)

Definition pretty_range (request : bytes) (r : RequestRedactionRange) : bytes :=
  let end_ := range_end r in
  if (0 <=? rr_Start r) && (end_ <=? Z.of_nat (length request))
  then write_loop (replicate (Z.to_nat (end_ - rr_Start r)) 42) (Z.to_nat (rr_Start r)) request else request.

Definition prettyRequest (request : bytes) (ranges : list RequestRedactionRange) : bytes := foldl pretty_range request ranges.

(** ** The check of the CBC sessions *)

Definition name_marks : bytes := str "!#$%&'*+-.^_`|~".

Definition validHTTPHeaderName (name : bytes) : bool :=
  negb (length name =? 0)%nat
  && forallb (fun c => ((97 <=? c) && (c <=? 122)) || ((65 <=? c) && (c <=? 90)) || ((48 <=? c) && (c <=? 57)) || existsb (Z.eqb c) name_marks) name.

(** The counters of the loop over the header lines. *)
Record HeaderScan := mkScan { hs_contentLengthCount : nat; hs_transferEncodingCount : nat; hs_declaredBodyLength : Z }.

(** Line [i] of [lines[1:]], which is [prettyLines[i+1]] with the asterisks.  A valid name is ASCII. *)
Definition scan_header (i : nat) (line prettyLine : bytes) (st : HeaderScan) : res HeaderScan :=
  match cut_byte 58 line with
  | None => Err "invalid HTTP header line"
  | Some (rawName, rest) =>
      fail_if (negb (validHTTPHeaderName rawName)) "invalid HTTP header line";;
      let name := map lower_byte rawName in
      let value := trim_bytes rest in
      fail_if (existsb (fun a => (a =? 13) || (a =? 10) || (a =? 0)) value) "invalid control byte in HTTP header";;
      if bytes_eqb name (str "host") then fail_if (negb (i =? 0)%nat) "duplicate Host header";; Ok st else
      if bytes_eqb name (str "connection") then fail_if (negb (i =? 1)%nat) "duplicate Connection header";; Ok st else
      if bytes_eqb name (str "content-length") then
        match ParseUint63 value with
        | None => Err "invalid Content-Length header"
        | Some parsed =>
            fail_if (negb (bytes_eqb (FormatUint parsed) value)) "invalid Content-Length header";;
            fail_if (negb (bytes_eqb prettyLine line)) "Content-Length header must not be redacted";;
            Ok (mkScan (S (hs_contentLengthCount st)) (hs_transferEncodingCount st) parsed)
        end else
      if bytes_eqb name (str "transfer-encoding") then
        Ok (mkScan (hs_contentLengthCount st) (S (hs_transferEncodingCount st)) (hs_declaredBodyLength st)) else
      Ok st
  end.

Fixpoint scan_headers (i : nat) (lines prettyLines : list bytes) (st : HeaderScan) : res HeaderScan :=
  match lines with
  | [] => Ok st
  | line :: lines =>
      match prettyLines with
      | [] => Panic
      | prettyLine :: prettyLines => st ← scan_header i line prettyLine st; scan_headers (S i) lines prettyLines st
      end
  end.

Definition check_request_line (line prettyLine : bytes) : res unit :=
  match split_byte 32 line with
  | [method; requestTarget; version] =>
      fail_if (negb (bytes_eqb method (str "GET") || bytes_eqb method (str "POST") || bytes_eqb method (str "PUT") || bytes_eqb method (str "PATCH")))
        "unsupported HTTP method";;
      fail_if (negb (hd 0 requestTarget =? 47) || existsb (fun a => existsb (Z.eqb a) [13; 10; 9; 32; 35]) requestTarget) "invalid HTTP request target";;
      fail_if (negb (bytes_eqb version (str "HTTP/1.1"))) "request must use HTTP/1.1";;
      fail_if (negb (has_prefix prettyLine (method ++ [32])) || negb (has_suffix prettyLine (str " HTTP/1.1")))
        "request method or HTTP version must not be redacted";;
      Ok ()
  | _ => Err "invalid HTTP request line format"
  end.

Definition host_line (connData : RequestConnectionData) (authority line : bytes) : bool :=
  bytes_eqb line (str "Host: " ++ authority)
  || ((cd_Port connData =? defaultHTTPSPort) && contains (cd_Hostname connData) [58]
      && bytes_eqb line (str "Host: [" ++ cd_Hostname connData ++ [93])).

Definition check_host (connData : option RequestConnectionData) (line prettyLine : bytes) : res unit :=
  match connData with
  | None => Ok ()
  | Some connData =>
      authority ← expectedHTTPRequestAuthority connData;
      fail_if (negb (host_line connData authority line) || negb (host_line connData authority prettyLine))
        "host header does not match connection authority or is redacted";;
      Ok ()
  end.

Definition validateTLS12CBCHTTPRequestFormat (redactedRequest : bytes) (ranges : list RequestRedactionRange)
    (connData : option RequestConnectionData) : res unit :=
  let pretty := prettyRequest redactedRequest ranges in
  match index_of (crlf ++ crlf) redactedRequest with
  | None => Err "request does not contain a complete HTTP header block"
  | Some headerEnd =>
      let lines := split_crlf (take headerEnd redactedRequest) in
      let prettyLines := split_crlf (take headerEnd pretty) in
      fail_if (((length lines <? 4) || negb (length prettyLines =? length lines))%nat) "request has insufficient or redacted structural lines";;
      line0 ← index lines 0; pretty0 ← index prettyLines 0;
      _ ← check_request_line line0 pretty0;
      line1 ← index lines 1; pretty1 ← index prettyLines 1;
      _ ← check_host connData line1 pretty1;
      line2 ← index lines 2; pretty2 ← index prettyLines 2;
      fail_if (negb (bytes_eqb line2 (str "Connection: close")) || negb (bytes_eqb pretty2 (str "Connection: close")))
        "connection header must be the unredacted second header with value close";;
      st ← scan_headers 0 (drop 1 lines) (drop 1 prettyLines) (mkScan 0 0 (-1));
      fail_if (negb (hs_contentLengthCount st =? 1)%nat) "request must contain exactly one Content-Length header";;
      fail_if (negb (hs_transferEncodingCount st =? 0)%nat) "request must not contain Transfer-Encoding";;
      fail_if (negb (Z.of_nat (length redactedRequest) - (Z.of_nat headerEnd + 4) =? hs_declaredBodyLength st))
        "request body length does not match Content-Length";;
      Ok ()
  end.

(** ** The check of the split sessions *)

Section Legacy.
Context {GU : GoUnicode}.

(** The lines after the first, all of them: the body is not set apart. *)
Fixpoint extract_from (lines : list bytes) (headerPrefix : bytes) : bytes :=
  match lines with
  | [] => []
  | line :: lines =>
      if has_prefix (str (ToLower (of_codes line))) headerPrefix
      then match cut_byte 58 line with Some (_, after) => trim_bytes after | None => extract_from lines headerPrefix end
      else extract_from lines headerPrefix
  end.

Definition extractHeader (lines : list bytes) (headerName : string) : bytes :=
  extract_from (drop 1 lines) (str (lower_string headerName) ++ [58]).

Definition validateHTTPRequestFormat (redactedRequest : bytes) (ranges : list RequestRedactionRange)
    (connData : option RequestConnectionData) : res unit :=
  let reqStr := prettyRequest redactedRequest ranges in
  fail_if (negb (has_prefix reqStr (str "GET ")) && negb (has_prefix reqStr (str "POST "))) "request does not start with valid HTTP method";;
  fail_if (negb (contains reqStr (str " HTTP/1.1"))) "request does not contain HTTP/1.1 version";;
  fail_if (negb (contains reqStr crlf)) "request does not contain proper CRLF line endings";;
  fail_if (negb (contains reqStr (crlf ++ crlf))) "request does not end with proper double CRLF";;
  let lines := split_crlf reqStr in
  fail_if ((length lines <? 2)%nat) "request has insufficient lines";;
  line0 ← index lines 0;
  fail_if ((length (split_byte 32 line0) <? 3)%nat) "invalid HTTP request line format";;
  _ ← match connData with
      | None => Ok ()
      | Some connData =>
          authority ← expectedHTTPRequestAuthority connData;
          let hostHeader := extractHeader lines "Host" in
          fail_if ((length hostHeader =? 0)%nat) "host header is missing";;
          fail_if (contains hostHeader [42]) "host header must not be redacted";;
          fail_if (negb (bytes_eqb hostHeader authority)
            && negb ((cd_Port connData =? defaultHTTPSPort) && contains (cd_Hostname connData) [58]
                     && bytes_eqb hostHeader ([91] ++ cd_Hostname connData ++ [93]))) "host header does not match connection authority";;
          Ok ()
      end;
  let connectionHeader := extractHeader lines "Connection" in
  fail_if ((length connectionHeader =? 0)%nat) "connection header is missing";;
  fail_if (contains connectionHeader [42]) "connection header must not be redacted";;
  fail_if (negb (EqualFold (of_codes (trim_bytes connectionHeader)) "close")) "connection header must be close";;
  Ok ().

Definition MaxHTTPRequestSize : nat := Z.to_nat (1 * 1024 * 1024).

(** The part of [handleRedactedRequest] before the encryption: the request and the ranges that go to the transcript. *)
Definition handleRedactedRequest (connData : option RequestConnectionData) (redactedRequest : bytes) (ranges : list RequestRedactionRange)
    : res (bytes * list RequestRedactionRange) :=
  fail_if ((MaxHTTPRequestSize <? length redactedRequest)%nat) "HTTP request too large";;
  fail_if ((MaxRedactionRanges <? length ranges)%nat) "too many redaction ranges";;
  fail_if (bool_decide (connData = None)) "invalid connection data type";;
  _ ← validateHTTPRequestFormat redactedRequest ranges connData;
  _ ← validateRedactionPositions ranges (Z.of_nat (length redactedRequest));
  Ok (redactedRequest, ranges).
End Legacy.

(** ** The CBC request *)

Definition maxTLS12CBCRequestPlaintext : nat := Z.to_nat 16384.

Definition validateTLS12CBCRequestPlaintext (request : bytes) : res unit :=
  fail_if (((length request =? 0) || (maxTLS12CBCRequestPlaintext <? length request))%nat) "invalid TLS 1.2 CBC HTTP request length";; Ok ().

(** The fields of TEE_K's session that the handler reads and writes. *)
Record TeekRequest := mkTeekRequest {
  kq_CBCBinding : option SessionBinding;
  kq_HandshakeComplete : bool;
  kq_context : option TLS12CBCContext;
  kq_CBCRequestReceived : bool;
  kq_ConnectionData : option RequestConnectionData;
  kq_CBCAuthenticatedRedactedRequest : bytes;
  kq_CBCRequestDigest : bytes;
  kq_CBCRequestRedactionRanges : list RequestRedactionRange;
}.

Definition isTLS12CBCSession (binding : option SessionBinding) : bool := is_ok (validateTLS12CBCBinding binding).

(** [rand.Read] over the ranges of type sensitive. *)
Fixpoint randomize_sensitive (random : RequestRedactionRange -> option bytes) (ranges : list RequestRedactionRange) (request : bytes) : res bytes :=
  match ranges with
  | [] => Ok request
  | r :: ranges =>
      if String.eqb (rr_Type r) RedactionTypeSensitive then
        match random r with
        | None => Err "redact TLS 1.2 CBC request"
        | Some b => randomize_sensitive random ranges (write_loop (pad_to (Z.to_nat (rr_Length r)) b) (Z.to_nat (rr_Start r)) request)
        end
      else randomize_sensitive random ranges request
  end.

(** [None] for a nil range. *)
Fixpoint all_some {A} (l : list (option A)) : option (list A) :=
  match l with
  | [] => Some []
  | None :: _ => None
  | Some x :: l => match all_some l with Some xs => Some (x :: xs) | None => None end
  end.

Section Request.
Context {BC : BlockCipher} {HS : Hashes} {SH : Sha256}.

(** Every error ends the session.  [random] fills the ranges, [iv] is the explicit IV of the record, which goes to the client. *)
Definition handleTLS12CBCRequest (k : TeekRequest) (request : option (bytes * list (option RequestRedactionRange)))
    (random : RequestRedactionRange -> option bytes) (iv : option bytes) : res (TeekRequest * TLSRecord) :=
  match request with
  | None => Err "TLS 1.2 CBC request is nil"
  | Some (fullRequest, items) =>
      match kq_context k with
      | None => Err "TLS 1.2 CBC request received outside a completed CBC session"
      | Some ctx =>
          fail_if (negb (isTLS12CBCSession (kq_CBCBinding k)) || negb (kq_HandshakeComplete k))
            "TLS 1.2 CBC request received outside a completed CBC session";;
          fail_if (kq_CBCRequestReceived k) "multiple TLS 1.2 CBC requests received";;
          _ ← validateTLS12CBCRequestPlaintext fullRequest;
          fail_if ((MaxRedactionRanges <? length items)%nat) "too many TLS 1.2 CBC request redaction ranges";;
          match all_some items with
          | None => Err "nil TLS 1.2 CBC request redaction range"
          | Some ranges =>
              _ ← validateRedactionPositions ranges (Z.of_nat (length fullRequest));
              _ ← validateTLS12CBCHTTPRequestFormat fullRequest ranges (kq_ConnectionData k);
              authenticatedRedactedRequest ← randomize_sensitive random ranges fullRequest;
              let seq := cc_writeSeq ctx in
              '(record, ctx) ← match EncryptRecord ctx iv RecordTypeApplicationData fullRequest with
                               | Err _ => Err "encrypt TLS 1.2 CBC request record" | r => r end;
              let record := mkRecord (take 5 record) (drop 5 record) seq in
              digest ← TLS12CBCRecordDigest TLS12CBCRequestDigestDomain [Some record];
              Ok (mkTeekRequest (kq_CBCBinding k) (kq_HandshakeComplete k) (Some ctx) true (kq_ConnectionData k)
                    authenticatedRedactedRequest digest (map (fun r => mkRange (i32 (rr_Start r)) (i32 (rr_Length r)) (rr_Type r)) ranges), record)
          end
      end
  end.
End Request.

(** ** Lines *)

Lemma split_crlf_cons h : exists l ls, split_crlf h = l :: ls.
Proof.
  destruct h as [|a [|b t]]; [by do 2 eexists..|].
  change (split_crlf (a :: b :: t)) with (if (a =? 13) && (b =? 10) then [] :: split_crlf t else cons_head a (split_crlf (b :: t))).
  destruct (_ && _); [by do 2 eexists|]. destruct (split_crlf (b :: t)); by do 2 eexists.
Qed.

(** What the server cuts off is the first line of the split. *)
Lemma cut_split n : forall h r, (length h <= n)%nat ->
  (exists l, split_crlf h = [l] /\ cut_line (h ++ 13 :: 10 :: r) = Some (l, r))
  \/ exists l h', split_crlf h = l :: split_crlf h' /\ (length h' < length h)%nat /\ cut_line (h ++ 13 :: 10 :: r) = Some (l, h' ++ 13 :: 10 :: r).
Proof.
  induction n as [|n IH]; intros [|a [|b t]] r L; cbn [length] in L; try lia; try (left; by eexists).
  - left. exists [a]. split; [done|]. cbn. by rewrite andb_false_r.
  - change (split_crlf (a :: b :: t)) with (if (a =? 13) && (b =? 10) then [] :: split_crlf t else cons_head a (split_crlf (b :: t))).
    change (cut_line ((a :: b :: t) ++ 13 :: 10 :: r)) with (if (a =? 13) && (b =? 10) then Some ([], t ++ 13 :: 10 :: r)
      else match cut_line ((b :: t) ++ 13 :: 10 :: r) with Some (x, r) => Some (a :: x, r) | None => None end).
    destruct (_ && _); [right; exists [], t; cbn; split; [done|]; split; [lia|done]|].
    destruct (IH (b :: t) r ltac:(cbn; lia)) as [(l & -> & ->)|(l & h' & -> & L' & ->)]; [left|right].
    + by exists (a :: l).
    + exists (a :: l), h'. cbn in *. split; [done|]. split; [lia|done].
Qed.

(** A server that reads CR LF lines reads the lines of the split, when none is empty. *)
Lemma read_head_split body n : forall h, (length h <= n)%nat -> Forall (fun l => l <> []) (split_crlf h) ->
  read_head (S (length (split_crlf h))) (h ++ crlf ++ crlf ++ body) = Some (split_crlf h, body).
Proof.
  induction n as [|n IH]; intros h L F.
  { destruct h; [|cbn in L; lia]. by apply Forall_cons in F as [? _]. }
  change (h ++ crlf ++ crlf ++ body) with (h ++ 13 :: 10 :: crlf ++ body).
  destruct (cut_split _ h (crlf ++ body) ltac:(reflexivity)) as [(l & E & C)|(l & h' & E & L' & C)]; rewrite E in F |- *; apply Forall_cons in F as [Hl F].
  - cbn [length read_head]. rewrite C. destruct l; [done|]. by cbn.
  - cbn [length read_head]. rewrite C. destruct l as [|x l]; [done|]. specialize (IH h' ltac:(lia) F). cbn [read_head] in IH |- *.
    change (h' ++ 13 :: 10 :: crlf ++ body) with (h' ++ crlf ++ crlf ++ body). by rewrite IH.
Qed.

(** The byte as it is, or an asterisk. *)
Definition starred (a b : Z) : Prop := b = a \/ b = 42.

Lemma starred_crlf a b x y : starred a x -> starred b y -> (x =? 13) && (y =? 10) = true -> (a =? 13) && (b =? 10) = true.
Proof. intros [-> | ->] [-> | ->]; [done| |done..]; rewrite andb_comm; done. Qed.

Lemma length_cons_head a h : length (cons_head a (split_crlf h)) = length (split_crlf h).
Proof. destruct (split_crlf_cons h) as (l & ls & ->). done. Qed.

(** Asterisks can only join lines; when they join none, they fall inside them. *)
Lemma starred_lines n : forall l p, (length l <= n)%nat -> Forall2 starred l p ->
  (length (split_crlf p) <= length (split_crlf l))%nat
  /\ (length (split_crlf p) = length (split_crlf l) -> Forall2 (Forall2 starred) (split_crlf l) (split_crlf p)).
Proof.
  assert (H0 : Forall2 (Forall2 starred) [[]] [[]]) by (constructor; constructor).
  assert (H1 : forall a x, starred a x -> Forall2 (Forall2 starred) [[a]] [[x]]) by (intros; constructor; [constructor; [done|constructor]|constructor]).
  induction n as [|n IH]; intros l p L F.
  { destruct F; [|cbn in L; lia]. split; [done|]. intros _. apply H0. }
  destruct F as [|a x l p Ha F]; [split; [done|]; intros _; apply H0|]. destruct F as [|b y l p Hb F]; [split; [done|]; intros _; by apply H1|].
  change (split_crlf (a :: b :: l)) with (if (a =? 13) && (b =? 10) then [] :: split_crlf l else cons_head a (split_crlf (b :: l))).
  change (split_crlf (x :: y :: p)) with (if (x =? 13) && (y =? 10) then [] :: split_crlf p else cons_head x (split_crlf (y :: p))).
  cbn [length] in L. destruct (IH l p ltac:(lia) F) as [L1 F1]. destruct (IH (b :: l) (y :: p) ltac:(cbn; lia) ltac:(by constructor)) as [L2 F2].
  destruct ((x =? 13) && (y =? 10)) eqn:C.
  - rewrite (starred_crlf a b x y Ha Hb C). cbn [length]. split; [lia|]. intros E. constructor; [done|]. apply F1. lia.
  - rewrite length_cons_head. destruct ((a =? 13) && (b =? 10)) eqn:C'.
    + assert (length (split_crlf (b :: l)) = length (split_crlf l)).
      { apply andb_true_iff in C' as [_ ->%Z.eqb_eq]. destruct l as [|c l]; [done|]. change (split_crlf (10 :: c :: l)) with (cons_head 10 (split_crlf (c :: l))).
        apply length_cons_head. }
      cbn [length]. split; [lia|]. intros. lia.
    + rewrite length_cons_head. split; [done|]. intros E. specialize (F2 E).
      destruct (split_crlf_cons (b :: l)) as (u & us & Eu), (split_crlf_cons (y :: p)) as (v & vs & Ev). rewrite Eu, Ev in *.
      apply Forall2_cons in F2 as [? ?]. cbn. constructor; [by constructor|done].
Qed.

Lemma pretty_range_starred request p r : Forall2 starred request p -> Forall2 starred request (pretty_range p r).
Proof.
  intros F. unfold pretty_range. destruct (_ && _); [|done]. apply Forall2_same_length_lookup. pose proof (Forall2_length _ _ _ F) as L.
  split; [by rewrite length_write_loop|]. intros i a b Ha Hb. assert (i < length p)%nat by (rewrite <- L; by eapply lookup_lt_Some).
  rewrite write_loop_lookup in Hb by done. destruct (_ && _)%nat; [right; by apply lookup_replicate in Hb as [-> _]|].
  by eapply (Forall2_lookup_lr _ _ _ _ _ _ F).
Qed.

Lemma prettyRequest_starred request ranges : Forall2 starred request (prettyRequest request ranges).
Proof.
  unfold prettyRequest. assert (F : Forall2 starred request request) by (apply Forall2_same_length_lookup; split; [done|]; intros; left; congruence).
  revert F. generalize request at 2 4. induction ranges as [|r ranges IH]; intros p F; [done|]. cbn [foldl]. by apply IH, pretty_range_starred.
Qed.

Lemma index_of_Some pat l n : index_of pat l = Some n -> l = take n l ++ pat ++ drop (n + length pat) l.
Proof.
  revert n. induction l as [|a l IH]; intros n; cbn [index_of]; case_bool_decide as E.
  1,3: intros [= <-]; rewrite Nat.add_0_l; rewrite <- E at 1; cbn [take app]; by rewrite take_drop.
  - done.
  - intros H. destruct (index_of pat l) as [m|]; [|done]. injection H as <-. cbn [take app Nat.add drop]. f_equal. by apply IH.
Qed.

(** ** Headers *)

Definition header_name (line : bytes) : option bytes := match cut_byte 58 line with Some (n, _) => Some (map lower_byte n) | None => None end.
Definition header_value (line : bytes) : bytes := match cut_byte 58 line with Some (_, v) => trim_bytes v | None => [] end.
Definition named (name : string) (line : bytes) : Prop := header_name line = Some (str name).

#[export] Instance named_dec name line : Decision (named name line).
Proof. unfold named. apply _. Defined.

(** What one header line does to the scan. *)
Lemma scan_header_ok i line p st st' : scan_header i line p st = Ok st' ->
  line <> [] /\ is_Some (header_name line)
  /\ (named "host" line -> i = 0%nat) /\ (named "connection" line -> i = 1%nat)
  /\ (if decide (named "content-length" line) then p = line /\ hs_contentLengthCount st' = S (hs_contentLengthCount st)
        /\ header_value line = FormatUint (hs_declaredBodyLength st') /\ hs_transferEncodingCount st' = hs_transferEncodingCount st
      else hs_contentLengthCount st' = hs_contentLengthCount st /\ hs_declaredBodyLength st' = hs_declaredBodyLength st
        /\ hs_transferEncodingCount st' = ((if decide (named "transfer-encoding" line) then 1 else 0) + hs_transferEncodingCount st)%nat).
Proof.
  unfold scan_header. destruct (cut_byte 58 line) as [[raw rest]|] eqn:C; [|done]. intros E. do 2 inv_guard E. set (name := map lower_byte raw) in *.
  assert (HN : header_name line = Some name) by (unfold header_name; by rewrite C).
  assert (HV : header_value line = trim_bytes rest) by (unfold header_value; by rewrite C).
  assert (Y : forall n, bytes_eqb name (str n) = true -> named n line) by (intros n X%bytes_eqb_spec; unfold named; by rewrite HN, X).
  assert (N : forall n, bytes_eqb name (str n) = false -> ~ named n line) by (unfold named; intros n X; rewrite HN; intros [= X']; by rewrite X', bytes_eqb_refl in X).
  assert (O : forall n m, named n line -> str n <> str m -> ~ named m line) by (unfold named; congruence).
  split; [by intros -> |]. split; [by eexists|]. destruct (bytes_eqb name (str "host")) eqn:Eh.
  { inv_guard E. injection E as <-. apply negb_false_iff, Nat.eqb_eq in Hguard1. pose proof (O _ "connection" (Y _ Eh) ltac:(done)).
    rewrite !decide_False by (by apply (O _ _ (Y _ Eh))). done. }
  destruct (bytes_eqb name (str "connection")) eqn:Ec.
  { inv_guard E. injection E as <-. apply negb_false_iff, Nat.eqb_eq in Hguard1. pose proof (N _ Eh).
    rewrite !decide_False by (by apply (O _ _ (Y _ Ec))). done. }
  pose proof (N _ Eh). pose proof (N _ Ec). split; [done|]. split; [done|]. destruct (bytes_eqb name (str "content-length")) eqn:El.
  { rewrite decide_True by (by apply Y). destruct (ParseUint63 _) as [parsed|]; [|done]. do 2 inv_guard E. injection E as <-.
    apply negb_false_iff, bytes_eqb_spec in Hguard1, Hguard2. by rewrite HV. }
  rewrite decide_False by (by apply N). destruct (bytes_eqb name (str "transfer-encoding")) eqn:Et; injection E as <-.
  - by rewrite decide_True by (by apply Y).
  - by rewrite decide_False by (by apply N).
Qed.

Record scanned (i : nat) (lines shown : list bytes) (st st' : HeaderScan) : Prop := {
  sc_lines : Forall (fun l => l <> [] /\ is_Some (header_name l)) lines;
  sc_host : forall j l, lines !! j = Some l -> named "host" l -> (i + j = 0)%nat;
  sc_connection : forall j l, lines !! j = Some l -> named "connection" l -> (i + j = 1)%nat;
  sc_shown : forall j l, lines !! j = Some l -> named "content-length" l -> shown !! j = Some l;
  sc_count : hs_contentLengthCount st' = (hs_contentLengthCount st + length (filter (named "content-length") lines))%nat;
  sc_te : hs_transferEncodingCount st' = (hs_transferEncodingCount st + length (filter (named "transfer-encoding") lines))%nat;
  sc_declared : match last (filter (named "content-length") lines) with
                | Some l => header_value l = FormatUint (hs_declaredBodyLength st')
                | None => hs_declaredBodyLength st' = hs_declaredBodyLength st
                end;
}.

Lemma scan_headers_ok lines : forall i shown st st', scan_headers i lines shown st = Ok st' -> scanned i lines shown st st'.
Proof.
  induction lines as [|line lines IH]; intros i shown st st' E; cbn [scan_headers] in E.
  { injection E as <-. split; [constructor|done..|cbn; lia|cbn; lia|done]. }
  destruct shown as [|p shown]; [done|]. inv_bind E. rename a into st1. destruct (scan_header_ok _ _ _ _ _ E0) as (Hne & Hn & Hh & Hc & Hd).
  destruct (IH _ _ _ _ E) as [F H1 H2 H3 H4 H5 H6]. split; rewrite ?filter_cons.
  - by constructor.
  - intros [|j] l; cbn; [intros [= <-] N; rewrite (Hh N); lia|]. intros L N. specialize (H1 j l L N). lia.
  - intros [|j] l; cbn; [intros [= <-] N; rewrite (Hc N); lia|]. intros L N. specialize (H2 j l L N). lia.
  - intros [|j] l; cbn; [intros [= <-] N|apply H3]. rewrite decide_True in Hd by done. f_equal. tauto.
  - rewrite H4. destruct (decide (named "content-length" line)); [destruct Hd as (_ & -> & _); cbn; lia|by destruct Hd as (-> & _)].
  - rewrite H5. destruct (decide (named "content-length" line)) as [Ncl|].
    + destruct Hd as (_ & _ & _ & ->). rewrite decide_False; [done|]. unfold named in *. intros N. by rewrite Ncl in N.
    + destruct Hd as (_ & _ & ->). destruct (decide _); cbn; lia.
  - destruct (decide (named "content-length" line)).
    + rewrite last_cons. destruct (last (filter _ lines)); [done|]. destruct Hd as (_ & _ & -> & _). by rewrite H6.
    + destruct (last (filter _ lines)); [done|]. rewrite H6. tauto.
Qed.

(** ** The request line *)

Lemma split_byte_cons c l : exists x xs, split_byte c l = x :: xs.
Proof. destruct l as [|a l]; [by do 2 eexists|]. cbn. destruct (a =? c); [by do 2 eexists|]. destruct (split_byte c l); by do 2 eexists. Qed.

Fixpoint join_byte (c : Z) (ls : list bytes) : bytes :=
  match ls with [] => [] | [l] => l | l :: ls => l ++ [c] ++ join_byte c ls end.

Lemma join_split_byte c l : join_byte c (split_byte c l) = l.
Proof.
  induction l as [|a l IH]; [done|]. cbn [split_byte]. destruct (split_byte_cons c l) as (x & xs & E). rewrite E in *. destruct (Z.eqb_spec a c) as [-> |].
  - change (join_byte c ([] :: x :: xs)) with (c :: join_byte c (x :: xs)). by rewrite IH.
  - cbn [cons_head]. destruct xs; cbn [join_byte app] in *; by rewrite <- IH.
Qed.

Definition methods : list bytes := [str "GET"; str "POST"; str "PUT"; str "PATCH"].

Lemma check_request_line_ok line p : check_request_line line p = Ok () ->
  exists method target, line = method ++ [32] ++ target ++ [32] ++ str "HTTP/1.1" /\ method ∈ methods /\ hd 0 target = 47
    /\ Forall (fun a => a ∉ [13; 10; 9; 32; 35]) target.
Proof.
  unfold check_request_line. destruct (split_byte 32 line) as [|m [|t [|v [|]]]] eqn:S; try done. intros E. do 4 inv_guard E.
  exists m, t. rewrite <- (join_split_byte 32 line), S. cbn [join_byte]. apply negb_false_iff, bytes_eqb_spec in Hguard1 as ->. split; [done|].
  apply negb_false_iff in Hguard. apply orb_false_iff in Hguard0 as [H1%negb_false_iff%Z.eqb_eq H2]. split; [|split; [done|]].
  - unfold methods. rewrite !orb_true_iff in Hguard. rewrite !bytes_eqb_spec in Hguard. set_solver.
  - apply Forall_forall. intros a Ha Hin. apply not_true_iff_false in H2. apply H2, existsb_exists. exists a. split; [by apply list_elem_of_In|].
    apply existsb_exists. exists a. split; [by apply list_elem_of_In|apply Z.eqb_refl].
Qed.

(** ** One request *)

(** What a server that reads CR LF lines makes of a request, and which of its lines everybody sees. *)
Record one_request (request : bytes) (ranges : list RequestRedactionRange) (connData : option RequestConnectionData)
    (lines shown : list bytes) (body : bytes) : Prop := {
  or_read : read_head (S (length lines)) request = Some (lines, body);
  or_line : exists method target, lines !! 0%nat = Some (method ++ [32] ++ target ++ [32] ++ str "HTTP/1.1")
    /\ method ∈ methods /\ hd 0 target = 47 /\ Forall (fun a => a ∉ [13; 10; 9; 32; 35]) target;
  or_host : forall c, connData = Some c -> exists authority host shownHost, expectedHTTPRequestAuthority c = Ok authority
    /\ lines !! 1%nat = Some host /\ host_line c authority host = true /\ shown !! 1%nat = Some shownHost /\ host_line c authority shownHost = true;
  or_close : lines !! 2%nat = Some (str "Connection: close") /\ shown !! 2%nat = Some (str "Connection: close");
  or_unique : forall j l, lines !! S j = Some l ->
    (named "host" l -> j = 0%nat) /\ (named "connection" l -> j = 1%nat) /\ ~ named "transfer-encoding" l;
  or_length : exists l, filter (named "content-length") (drop 1 lines) = [l] /\ header_value l = FormatUint (Z.of_nat (length body));
  or_shown : shown = split_crlf (take (length request - (length body + 4)) (prettyRequest request ranges)) /\ Forall2 (Forall2 starred) lines shown;
  or_visible : forall j l, lines !! S j = Some l -> named "content-length" l -> shown !! S j = Some l;
}.

Lemma filter_singleton {A} (P : A -> Prop) `{!forall x, Decision (P x)} (l : list A) :
  length (filter P l) = 1%nat -> exists x, filter P l = [x] /\ last (filter P l) = Some x.
Proof. destruct (filter P l) as [|x [|]]; [done| |done]. eauto. Qed.

(** A request that passes the check is one request, and its frame is in sight: the hidden ranges join no lines, and leave
    the host line that of the connection and the Connection and Content-Length lines as they are. *)
Lemma accepted_is_one_request request ranges connData : validateTLS12CBCHTTPRequestFormat request ranges connData = Ok () ->
  exists lines shown body, one_request request ranges connData lines shown body.
Proof.
  unfold validateTLS12CBCHTTPRequestFormat. destruct (index_of (crlf ++ crlf) request) as [n|] eqn:Hn; [|done]. intros E. inv_guard E.
  pose proof (index_of_Some _ _ _ Hn) as R. cbn [length app crlf] in R. set (head := take n request) in *. set (body := drop (n + 4) request) in *.
  assert (Ln : (n = length head /\ length request = n + 4 + length body)%nat).
  { apply (f_equal length) in R. rewrite length_app in R. cbn [length] in R. unfold head in *. rewrite length_take in *. lia. }
  destruct Ln as [Ln Lr]. set (lines := split_crlf head) in *. set (shown := split_crlf (take n (prettyRequest request ranges))) in *.
  apply orb_false_iff in Hguard as [H4%Nat.ltb_ge HL%negb_false_iff%Nat.eqb_eq].
  do 3 inv_bind E. destruct a1. do 3 inv_bind E. destruct a3. do 2 inv_bind E. inv_guard E. inv_bind E. do 3 inv_guard E. clear E.
  unfold index in *. destruct (lines !! 0%nat) eqn:L0; [|done]. destruct (lines !! 1%nat) eqn:L1; [|done]. destruct (lines !! 2%nat) eqn:L2; [|done].
  destruct (shown !! 0%nat) eqn:S0; [|done]. destruct (shown !! 1%nat) eqn:S1; [|done]. destruct (shown !! 2%nat) eqn:S2; [|done]. simplify_eq.
  destruct (check_request_line_ok _ _ E2) as (method & target & El0 & Hm & Ht & Hta).
  match goal with E : scan_headers _ _ _ _ = Ok ?x |- _ => destruct (scan_headers_ok _ _ _ _ _ E) as [F Hh Hc Hs Hcl Hte Hd]; rename x into st end.
  apply orb_false_iff in Hguard as [Hc1%negb_false_iff%bytes_eqb_spec Hc2%negb_false_iff%bytes_eqb_spec].
  apply negb_false_iff, Nat.eqb_eq in Hguard0, Hguard1. apply negb_false_iff, Z.eqb_eq in Hguard2. cbn in Hcl, Hte. rewrite Hguard0 in Hcl. rewrite Hguard1 in Hte.
  symmetry in Hcl. destruct (filter_singleton _ _ Hcl) as (cl & Ecl & Elast). rewrite Elast in Hd.
  exists lines, shown, body. split.
  - rewrite R. apply (read_head_split body _ head (Nat.le_refl _)). fold lines. destruct lines as [|l0 ls]; [done|]. cbn in F, L0. constructor.
    + injection L0 as ->. rewrite El0. intros X%app_eq_nil. by destruct X.
    + eapply Forall_impl; [exact F|]. by intros ? [? _].
  - exists method, target. split; [by rewrite L0, El0|done].
  - intros c ->. cbn [check_host] in E5. inv_bind E5. inv_guard E5. apply orb_false_iff in Hguard as [X1%negb_false_iff X2%negb_false_iff].
    do 3 eexists. split; [done|]. split; [exact L1|]. split; [done|]. split; [exact S1|done].
  - by rewrite L2, S2, Hc1, Hc2.
  - intros j l Hj. assert (Hj' : drop 1 lines !! j = Some l) by (by rewrite lookup_drop). split; [|split].
    + intros N. apply (Hh j l Hj' N).
    + intros N. apply (Hc j l Hj' N).
    + intros N. assert (filter (named "transfer-encoding") (drop 1 lines) = []) as X by (apply nil_length_inv; lia).
      assert (l ∈ filter (named "transfer-encoding") (drop 1 lines)) as Hin by (apply list_elem_of_filter; split; [done|by eapply list_elem_of_lookup_2]).
      rewrite X in Hin. by apply elem_of_nil in Hin.
  - exists cl. split; [done|]. rewrite Hd. f_equal. lia.
  - split; [unfold shown; do 2 f_equal; lia|]. apply (starred_lines (length head) head _ (Nat.le_refl _)); [|done].
    unfold head. apply Forall2_take, prettyRequest_starred.
  - intros j l Hj N. assert (Hj' : drop 1 lines !! j = Some l) by (by rewrite lookup_drop). specialize (Hs j l Hj' N). by rewrite lookup_drop in Hs.
Qed.

(** ** The sealed request *)

Definition int32_range (r : RequestRedactionRange) : Prop := - 2 ^ 31 <= rr_Start r < 2 ^ 31 /\ - 2 ^ 31 <= rr_Length r < 2 ^ 31.

Lemma positions_start ranges len : validateRedactionPositions ranges len = Ok () -> Forall (fun r => 0 <= rr_Start r) ranges.
Proof.
  induction ranges as [|r ranges IH]; intros E; cbn [validateRedactionPositions] in E; [constructor|]. do 3 inv_guard E. constructor; [|by apply IH].
  apply orb_false_iff in Hguard as [[H _]%orb_false_iff _]. by apply Z.ltb_ge in H.
Qed.

Lemma randomize_sensitive_outside random ranges : forall request redacted, randomize_sensitive random ranges request = Ok redacted ->
  length redacted = length request
  /\ forall q, (q < length request)%nat ->
       Forall (fun r => 0 <= rr_Start r /\ (rr_Type r = RedactionTypeSensitive -> ~ (rr_Start r <= Z.of_nat q < rr_Start r + rr_Length r))) ranges ->
       redacted !! q = request !! q.
Proof.
  induction ranges as [|r ranges IH]; intros request redacted E; cbn [randomize_sensitive] in E; [by injection E as <-|].
  destruct (String.eqb_spec (rr_Type r) RedactionTypeSensitive) as [Et|]; cycle 1.
  { destruct (IH _ _ E) as [L H]. split; [done|]. intros q Hq [_ F]%Forall_cons. by apply H. }
  destruct (random r) as [b|]; [|done]. destruct (IH _ _ E) as [L H]. rewrite length_write_loop in L, H. split; [done|].
  intros q Hq [[H0 Hr] F]%Forall_cons. specialize (Hr Et). rewrite (H q Hq F), write_loop_lookup by done.
  assert (Lp : length (pad_to (Z.to_nat (rr_Length r)) b) = Z.to_nat (rr_Length r)) by (unfold pad_to, zeros; rewrite length_app, length_take, length_replicate; lia).
  rewrite Lp. destruct (Nat.leb_spec (Z.to_nat (rr_Start r)) q), (Nat.ltb_spec q (Z.to_nat (rr_Start r) + Z.to_nat (rr_Length r))); cbn [andb]; (done || lia).
Qed.

Section Sealed.
Context {BC : BlockCipher} {BD : BlockDecipher} {HS : Hashes} {SH : Sha256}.

(** C11: What the server gets of a CBC session is what TEE_K signs.  When TEE_K answers a request with a record, the server
    paired with its context opens the record to exactly the request the client sent; that request is one request to the
    host of the connection; the copy kept for the transcript equals it at every position outside the ranges of type
    sensitive, which are kept as the client gave them; and every further request of the session is refused. *)
Theorem cbc_request_reaches_server_as_signed k ctx r info request items random iv k' record :
  kq_context k = Some ctx -> paired ctx r info -> 0 <= cc_writeSeq ctx < MaxUint64 -> length iv = 16%nat -> is_bytes iv -> is_bytes request ->
  Forall int32_range items ->
  handleTLS12CBCRequest k (Some (request, map Some items)) random (Some iv) = Ok (k', record) ->
  (exists r', DecryptRecord r (tr_Header record) (tr_Payload record) = Ok (request, r') /\ tr_SeqNum record = cc_readSeq r)
  /\ (exists lines shown body, one_request request items (kq_ConnectionData k) lines shown body)
  /\ kq_CBCRequestRedactionRanges k' = items
  /\ length (kq_CBCAuthenticatedRedactedRequest k') = length request
  /\ (forall q, (q < length request)%nat ->
        Forall (fun r => rr_Type r = RedactionTypeSensitive -> ~ (rr_Start r <= Z.of_nat q < rr_Start r + rr_Length r)) items ->
        kq_CBCAuthenticatedRedactedRequest k' !! q = request !! q)
  /\ forall again random' iv', is_ok (handleTLS12CBCRequest k' again random' iv') = false.
Proof.
  intros Hc HP Hq Li Bi BR F32 E. unfold handleTLS12CBCRequest in E. rewrite Hc in E. do 2 inv_guard E. inv_bind E. inv_guard E.
  assert (all_some (map Some items) = Some items) as Ei by (clear; induction items as [|x l IH]; [done|]; cbn; by rewrite IH). rewrite Ei in E.
  do 3 inv_bind E. destruct a0, a1. inv_bind E. destruct a0 as [wire ctx']. inv_bind E. injection E as <- <-. cbn.
  assert (LP : Z.of_nat (length request) <= tls12MaxPlaintext).
  { unfold validateTLS12CBCRequestPlaintext in E0. inv_guard E0. apply orb_false_iff in Hguard2 as [_ H%Nat.ltb_ge]. unfold maxTLS12CBCRequestPlaintext in H.
    unfold tls12MaxPlaintext. lia. }
  destruct (record_exchange ctx r info iv RecordTypeApplicationData request HP Hq Li Bi BR LP) as (rec & w' & r' & EE & ED & _).
  rewrite EE in E4. injection E4 as <- <-. split; [exists r'; split; [done|]; apply (pr_seq _ _ _ HP)|].
  split; [by eapply accepted_is_one_request|].
  split; [clear -F32; induction F32 as [|[s l t] rs [? ?] F IH]; [done|]; cbn in *; rewrite IH, !i32_id by done; done|].
  destruct (randomize_sensitive_outside _ _ _ _ E3) as [L H]. split; [done|]. split.
  - intros q Hq' N. apply H; [done|]. pose proof (positions_start _ _ E1) as P. apply Forall_forall. intros x Hx. rewrite Forall_forall in P, N.
    split; [by apply P|by apply N].
  - intros [[? ?]|] ? ?; [|done]. cbn. by destruct (_ || _).
Qed.
End Sealed.

(** ** Concrete requests *)

Definition http_lines (lines : list string) : bytes := concat (map (fun l => str l ++ crlf) lines).

Definition demo_conn : RequestConnectionData := mkConn (str "good.example") 443.

Definition plain_request : bytes :=
  http_lines ["GET /a HTTP/1.1"; "Host: good.example"; "Connection: close"; "X: secret"; "Content-Length: 2"; ""] ++ str "hi".

(** The six bytes of the secret. *)
Definition plain_ranges : list RequestRedactionRange := [mkRange 59 6 RedactionTypeSensitive].

Definition demo_teek : TeekRequest :=
  mkTeekRequest (Some (mkBinding 1 TLS_RSA_WITH_AES_128_CBC_SHA 2 true (zeros 32))) true (Some (demo_cbc TLS12CBCRecordModeEncryptThenMAC)) false
    (Some demo_conn) [] [] [].

Definition demo_answer : TeekRequest * TLSRecord :=
  match @handleTLS12CBCRequest id_cipher const_hashes const_sha demo_teek (Some (plain_request, map Some plain_ranges)) (fun _ => Some []) (Some (zeros 16)) with
  | Ok x => x | _ => (demo_teek, mkRecord [] [] 0) end.

Lemma cbc_request_reaches_server_as_signed_witness :
  (exists r', @DecryptRecord id_cipher id_decipher const_hashes (demo_cbc TLS12CBCRecordModeEncryptThenMAC) (tr_Header demo_answer.2) (tr_Payload demo_answer.2) = Ok (plain_request, r'))
  /\ kq_CBCRequestRedactionRanges demo_answer.1 = plain_ranges.
Proof.
  destruct (@cbc_request_reaches_server_as_signed id_cipher id_decipher const_hashes const_sha demo_teek (demo_cbc TLS12CBCRecordModeEncryptThenMAC)
    (demo_cbc TLS12CBCRecordModeEncryptThenMAC) demo_cbc_info plain_request plain_ranges (fun _ => Some []) (zeros 16) demo_answer.1 demo_answer.2)
    as ((r' & D & _) & _ & R & _); [reflexivity|split; [by apply demo_cbc_ok|done..]|done|done|apply zeros_bytes| | | |by split; [exists r'|]].
  - apply Forall_forall. intros x Hx. assert (A : forallb (fun x => (0 <=? x) && (x <? 256)) plain_request = true) by (vm_compute; reflexivity).
    rewrite forallb_forall in A. apply list_elem_of_In, A in Hx. unfold is_byte. lia.
  - repeat constructor; vm_compute; discriminate || reflexivity.
  - vm_compute. reflexivity.
Defined.

(** ** What the checks let through *)

(** How a server reads a head when it takes a bare LF for the end of a line, as RFC 9112 allows. *)
Definition strip_cr (l : bytes) : bytes := match last l with Some 13 => take (length l - 1) l | _ => l end.
Fixpoint until_empty (ls : list bytes) : list bytes := match ls with [] => [] | [] :: _ => [] | l :: ls => l :: until_empty ls end.
Definition lenient_head (request : bytes) : list bytes := until_empty (map strip_cr (split_byte 10 request)).

Definition newline_request : bytes :=
  http_lines ["GET / HTTP/1.1"; "Host: good.example"; "Connection: close"] ++ str "X:" ++ [10] ++ str "Transfer-Encoding: chunked" ++ crlf
  ++ http_lines ["Content-Length: 5"; ""] ++ str "0" ++ crlf ++ crlf.

(** From the bare LF to the end of the line. *)
Definition newline_ranges : list RequestRedactionRange := [mkRange 57 27 RedactionTypeSensitive].

(** The check of the CBC requests does not see a bare LF at the start of a header value.  The value is trimmed before
    it is searched for control bytes, so a request with a line "X:", LF, "Transfer-Encoding: chunked" is accepted, even
    when everything from the LF on is hidden, and a server that ends lines at a bare LF reads a Transfer-Encoding header,
    which the check is there to exclude. *)
Theorem bare_newline_hides_a_header :
  validateTLS12CBCHTTPRequestFormat newline_request newline_ranges (Some demo_conn) = Ok ()
  /\ validateRedactionPositions newline_ranges (Z.of_nat (length newline_request)) = Ok ()
  /\ lenient_head newline_request = map str ["GET / HTTP/1.1"; "Host: good.example"; "Connection: close"; "X:"; "Transfer-Encoding: chunked"; "Content-Length: 5"].
Proof. split; [by vm_compute|]. split; by vm_compute. Qed.

Definition body_host_request : bytes :=
  http_lines ["GET / HTTP/1.1"; "Host: other.example"; "Connection: close"; ""] ++ str "Host: good.example".

(** The host line. *)
Definition body_host_ranges : list RequestRedactionRange := [mkRange 16 19 RedactionTypeSensitive].

(** C40: The check of the split requests reads headers from the body.  A client hides the real Host line and puts a line
    that looks like the Host of the connection into the body.  Whatever stream it hides the line with, TEE_K accepts the
    redacted request and puts it into the transcript, where the line of the body is the only Host in sight; the server,
    for which the streams are taken off again, reads the hidden Host, which the check says must not be redacted and must
    match the connection. *)
Theorem hidden_host_is_accepted `{GoUnicode} (stream : nat -> Z) : exists redacted,
  createRedactedRequest [] body_host_request body_host_ranges (Some [map stream (seq 0 19)]) = Ok redacted
  /\ handleRedactedRequest (Some demo_conn) redacted body_host_ranges = Ok (redacted, body_host_ranges)
  /\ split_crlf (prettyRequest redacted body_host_ranges)
     = map str ["GET / HTTP/1.1"; "*******************"; "Connection: close"; ""; "Host: good.example"]
  /\ read_head 5 body_host_request = Some (map str ["GET / HTTP/1.1"; "Host: other.example"; "Connection: close"], str "Host: good.example").
Proof.
  assert (exists redacted, createRedactedRequest [] body_host_request body_host_ranges (Some [map stream (seq 0 19)]) = Ok redacted
    /\ length redacted = length body_host_request /\ prettyRequest redacted body_host_ranges = prettyRequest body_host_request body_host_ranges) as (redacted & E & L & P).
  { cbn [map seq]. eexists. split; [lazy -[Z.lxor]; reflexivity|]. split; [reflexivity|]. lazy -[Z.lxor]. reflexivity. }
  exists redacted. split; [done|]. rewrite P. split; [|split; by vm_compute].
  unfold handleRedactedRequest, validateHTTPRequestFormat. rewrite P, L. assert (Y : forall A (x y : A) b, b = false -> (if b then x else y) = y) by (by intros ? ? ? ? ->).
  rewrite Y by by vm_compute. vm_compute. reflexivity.
Qed.
