(* ===== verification/HttpParser.v ===== *)
(** * The response parser ([providers/http_parser.go])

    The parser reads an HTTP/1.1 response in whatever pieces it arrives and
    notes where in the response everything is: what is redacted later is
    computed from these positions.  With [strictFraming] (the CBC sessions) it
    refuses ambiguous framing.  A string is a list of bytes; indices are [int]s
    of a response that fits into memory and do not overflow. *)

From S2P Require Import Prelude Bytes Crypto CipherSuite SplitAead Redaction Response GoStrings Transport RequestFormat.
From stdpp Require Import list.
Open Scope Z_scope.

(** [strconv.ParseInt(s, base, 64)] for an explicit base: [None] is an error. *)
Definition digit_value (base : Z) (a : Z) : option Z :=
  let v := if (48 <=? a) && (a <=? 57) then a - 48 else
           if (97 <=? a) && (a <=? 122) then a - 87 else
           if (65 <=? a) && (a <=? 90) then a - 55 else base in
  if v <? base then Some v else None.

Fixpoint digits_value (base n : Z) (l : bytes) : option Z :=
  match l with
  | [] => Some n
  | a :: l => match digit_value base a with Some v => digits_value base (n * base + v) l | None => None end
  end.

Definition ParseInt (base : Z) (l : bytes) : option Z :=
  let '(sign, digits) := if hd 0 l =? 43 then (1, tail l) else if hd 0 l =? 45 then (-1, tail l) else (1, l) in
  if (length digits =? 0)%nat then None else
  match digits_value base 0 digits with
  | None => None
  | Some n => if (- 2 ^ 63 <=? sign * n) && (sign * n <? 2 ^ 63) then Some (sign * n) else None
  end.

(** ** The state *)

Record HTTPParsedResponse := mkParsed {
  pr_StatusCode : Z;
  pr_StatusMessage : bytes;
  pr_StatusLineEndIndex : Z;
  pr_HeaderEndIdx : Z;
  pr_BodyStartIndex : Z;
  pr_Body : bytes;
  pr_HeaderLowerToRanges : gmap bytes ResponseRedactionRange;
  pr_HeaderFraming : list ResponseRedactionRange;
  pr_Headers : gmap bytes bytes;
  pr_Chunked : bool;
  pr_Chunks : list ResponseRedactionRange;
  pr_ChunkFraming : list ResponseRedactionRange;
  pr_HeadersComplete : bool;
  pr_Complete : bool;
}.

Record HTTPResponseParser := mkHttp {
  hp_Response : HTTPParsedResponse;
  hp_remainingBodyBytes : Z;
  hp_isChunked : bool;
  hp_chunkNeedsCRLF : bool;
  hp_finalChunkSeen : bool;
  hp_strictFraming : bool;
  hp_remaining : bytes;
  hp_currentByteIdx : Z;
  hp_headersComplete : bool;
  hp_complete : bool;
  hp_streamEnded : bool;
}.

Definition newHTTPResponseParser (strictFraming : bool) : HTTPResponseParser :=
  mkHttp (mkParsed 0 [] (-1) (-1) (-1) [] ∅ [] ∅ false [] [] false false) 0 false false false strictFraming [] 0 false false false.

(** Assignments. *)
Definition on_response (f : HTTPParsedResponse -> HTTPParsedResponse) (p : HTTPResponseParser) : HTTPResponseParser :=
  mkHttp (f (hp_Response p)) (hp_remainingBodyBytes p) (hp_isChunked p) (hp_chunkNeedsCRLF p) (hp_finalChunkSeen p) (hp_strictFraming p)
    (hp_remaining p) (hp_currentByteIdx p) (hp_headersComplete p) (hp_complete p) (hp_streamEnded p).

Definition set_body_bytes (n : Z) (p : HTTPResponseParser) : HTTPResponseParser :=
  mkHttp (hp_Response p) n (hp_isChunked p) (hp_chunkNeedsCRLF p) (hp_finalChunkSeen p) (hp_strictFraming p)
    (hp_remaining p) (hp_currentByteIdx p) (hp_headersComplete p) (hp_complete p) (hp_streamEnded p).

Definition set_chunk_state (needsCRLF finalSeen : bool) (p : HTTPResponseParser) : HTTPResponseParser :=
  mkHttp (hp_Response p) (hp_remainingBodyBytes p) (hp_isChunked p) needsCRLF finalSeen (hp_strictFraming p)
    (hp_remaining p) (hp_currentByteIdx p) (hp_headersComplete p) (hp_complete p) (hp_streamEnded p).

(** [p.remaining = rest] and [p.currentByteIdx += n]. *)
Definition consume (n : nat) (rest : bytes) (p : HTTPResponseParser) : HTTPResponseParser :=
  mkHttp (hp_Response p) (hp_remainingBodyBytes p) (hp_isChunked p) (hp_chunkNeedsCRLF p) (hp_finalChunkSeen p) (hp_strictFraming p)
    rest (hp_currentByteIdx p + Z.of_nat n) (hp_headersComplete p) (hp_complete p) (hp_streamEnded p).

Definition append_remaining (data : bytes) (p : HTTPResponseParser) : HTTPResponseParser :=
  mkHttp (hp_Response p) (hp_remainingBodyBytes p) (hp_isChunked p) (hp_chunkNeedsCRLF p) (hp_finalChunkSeen p) (hp_strictFraming p)
    (hp_remaining p ++ data) (hp_currentByteIdx p) (hp_headersComplete p) (hp_complete p) (hp_streamEnded p).

(** [p.complete] and [p.Response.Complete] are always set together. *)
Definition set_complete (p : HTTPResponseParser) : HTTPResponseParser :=
  let r := hp_Response p in
  mkHttp (mkParsed (pr_StatusCode r) (pr_StatusMessage r) (pr_StatusLineEndIndex r) (pr_HeaderEndIdx r) (pr_BodyStartIndex r) (pr_Body r)
      (pr_HeaderLowerToRanges r) (pr_HeaderFraming r) (pr_Headers r) (pr_Chunked r) (pr_Chunks r) (pr_ChunkFraming r) (pr_HeadersComplete r) true)
    (hp_remainingBodyBytes p) (hp_isChunked p) (hp_chunkNeedsCRLF p) (hp_finalChunkSeen p) (hp_strictFraming p)
    (hp_remaining p) (hp_currentByteIdx p) (hp_headersComplete p) true (hp_streamEnded p).

Definition add_body (data : bytes) (r : HTTPParsedResponse) : HTTPParsedResponse :=
  mkParsed (pr_StatusCode r) (pr_StatusMessage r) (pr_StatusLineEndIndex r) (pr_HeaderEndIdx r) (pr_BodyStartIndex r) (pr_Body r ++ data)
    (pr_HeaderLowerToRanges r) (pr_HeaderFraming r) (pr_Headers r) (pr_Chunked r) (pr_Chunks r) (pr_ChunkFraming r) (pr_HeadersComplete r) (pr_Complete r).

Definition add_chunk (c : ResponseRedactionRange) (r : HTTPParsedResponse) : HTTPParsedResponse :=
  mkParsed (pr_StatusCode r) (pr_StatusMessage r) (pr_StatusLineEndIndex r) (pr_HeaderEndIdx r) (pr_BodyStartIndex r) (pr_Body r)
    (pr_HeaderLowerToRanges r) (pr_HeaderFraming r) (pr_Headers r) (pr_Chunked r) (pr_Chunks r ++ [c]) (pr_ChunkFraming r) (pr_HeadersComplete r) (pr_Complete r).

Definition recordChunkFraming (start len : Z) (p : HTTPResponseParser) : HTTPResponseParser :=
  if len <=? 0 then p else
  on_response (fun r =>
    mkParsed (pr_StatusCode r) (pr_StatusMessage r) (pr_StatusLineEndIndex r) (pr_HeaderEndIdx r) (pr_BodyStartIndex r) (pr_Body r)
      (pr_HeaderLowerToRanges r) (pr_HeaderFraming r) (pr_Headers r) (pr_Chunked r) (pr_Chunks r) (pr_ChunkFraming r ++ [mkResponseRange start len])
      (pr_HeadersComplete r) (pr_Complete r)) p.

Definition getLine (p : HTTPResponseParser) : option (bytes * HTTPResponseParser) :=
  match cut_line (hp_remaining p) with
  | None => None
  | Some (line, rest) => Some (line, consume (length line + 2) rest p)
  end.

(** ** The head *)

Definition parseStatusLine (line : bytes) (p : HTTPResponseParser) : res HTTPResponseParser :=
  match cut_byte 32 line with
  | None => Err "invalid HTTP status line"
  | Some (_, after) =>
      let '(code, message) := match cut_byte 32 after with Some (code, message) => (code, Some message) | None => (after, None) end in
      match ParseInt 10 code with
      | None => Err "invalid status code"
      | Some statusCode =>
          Ok (on_response (fun r =>
            mkParsed statusCode (match message with Some m => m | None => pr_StatusMessage r end) (hp_currentByteIdx p - 2) (pr_HeaderEndIdx r)
              (pr_BodyStartIndex r) (pr_Body r) (pr_HeaderLowerToRanges r) (pr_HeaderFraming r) (pr_Headers r) (pr_Chunked r) (pr_Chunks r)
              (pr_ChunkFraming r) (pr_HeadersComplete r) (pr_Complete r)) p)
      end
  end.

Definition validHTTPResponseHeaderName (name : bytes) : bool := validHTTPHeaderName name.

(** The number of blanks at the head. *)
Fixpoint blanks (l : bytes) : nat :=
  match l with a :: l => if (a =? 32) || (a =? 9) then S (blanks l) else O | [] => O end.

(** [strings.Cut(line, ": ")]. *)
Fixpoint cut_colon_blank (l : bytes) : option (bytes * bytes) :=
  match l with
  | [] => None
  | a :: t =>
      match t with
      | b :: t' => if (a =? 58) && (b =? 32) then Some ([], t')
                   else match cut_colon_blank t with Some (x, r) => Some (a :: x, r) | None => None end
      | [] => None
      end
  end.

Section Parser.
Context {GU : GoUnicode}.

Definition to_lower (l : bytes) : bytes := str (ToLower (of_codes l)).

(** Name, value and where the value starts; [None] for a line that is skipped. *)
Definition split_header (strictFraming : bool) (line : bytes) : res (option (bytes * bytes * nat)) :=
  if strictFraming then
    match cut_byte 58 line with
    | None => Err "invalid HTTP response header line"
    | Some (before, after) =>
        fail_if ((length before =? 0)%nat) "invalid HTTP response header line";;
        fail_if (negb (validHTTPResponseHeaderName before)) "invalid HTTP response header name";;
        Ok (Some (before, drop (blanks after) after, (length before + 1 + blanks after)%nat))
    end
  else
    match cut_colon_blank line with
    | None => Ok None
    | Some (before, after) => Ok (Some (before, after, (length before + 2)%nat))
    end.

Definition parseHeaderLine (line : bytes) (p : HTTPResponseParser) : res HTTPResponseParser :=
  header ← split_header (hp_strictFraming p) line;
  match header with
  | None => Ok p
  | Some (before, value, valueStart) =>
      let key := to_lower before in
      fail_if (hp_strictFraming p && (bytes_eqb key (str "content-length") || bytes_eqb key (str "transfer-encoding"))
        && bool_decide (is_Some (pr_Headers (hp_Response p) !! key))) "duplicate HTTP response framing header";;
      let lineStart := hp_currentByteIdx p - Z.of_nat (length line) - 2 in
      Ok (on_response (fun r =>
        mkParsed (pr_StatusCode r) (pr_StatusMessage r) (pr_StatusLineEndIndex r) (pr_HeaderEndIdx r) (pr_BodyStartIndex r) (pr_Body r)
          (<[key := mkResponseRange lineStart (Z.of_nat (length line))]> (pr_HeaderLowerToRanges r))
          (if hp_strictFraming p
           then pr_HeaderFraming r ++ [mkResponseRange lineStart (Z.of_nat valueStart); mkResponseRange (lineStart + Z.of_nat (length line)) 2]
           else pr_HeaderFraming r)
          (<[key := value]> (pr_Headers r)) (pr_Chunked r) (pr_Chunks r) (pr_ChunkFraming r) (pr_HeadersComplete r) (pr_Complete r)) p)
  end.

(** The transfer codings in order; whether the last is chunked. *)
Fixpoint codings_loop (codings : list bytes) (isChunked : bool) : res bool :=
  match codings with
  | [] => Ok isChunked
  | coding :: codings =>
      let coding := trim_bytes coding in
      fail_if ((length coding =? 0)%nat) "HTTP response contains an invalid Transfer-Encoding";;
      if bytes_eqb coding (str "chunked") then
        fail_if ((0 <? length codings)%nat) "HTTP response contains invalid Transfer-Encoding order";;
        codings_loop codings true
      else codings_loop codings isChunked
  end.

Definition finishHeaders (p : HTTPResponseParser) : res HTTPResponseParser :=
  let r := hp_Response p in
  let header name := default [] (pr_Headers r !! str name) in
  let transferEncoding := header "transfer-encoding" in
  let contentLength := header "content-length" in
  let strict := hp_strictFraming p in
  let done r' remainingBodyBytes chunked complete :=
    mkHttp (mkParsed (pr_StatusCode r') (pr_StatusMessage r') (pr_StatusLineEndIndex r') (hp_currentByteIdx p - 4) (hp_currentByteIdx p) (pr_Body r')
        (pr_HeaderLowerToRanges r') (pr_HeaderFraming r') (pr_Headers r') (chunked || pr_Chunked r') (pr_Chunks r') (pr_ChunkFraming r') true
        (complete || pr_Complete r'))
      remainingBodyBytes (chunked || hp_isChunked p) (hp_chunkNeedsCRLF p) (hp_finalChunkSeen p) strict
      (hp_remaining p) (hp_currentByteIdx p) true (complete || hp_complete p) (hp_streamEnded p) in
  fail_if (strict && negb (length transferEncoding =? 0)%nat && negb (length contentLength =? 0)%nat)
    "HTTP response contains both Transfer-Encoding and Content-Length";;
  isChunked ← (if strict && negb (length transferEncoding =? 0)%nat then codings_loop (split_byte 44 (to_lower transferEncoding)) false
               else Ok (contains (to_lower transferEncoding) (str "chunked")));
  if isChunked : bool then Ok (done r 0 true false) else
  if negb (length contentLength =? 0)%nat then
    fail_if (strict && existsb (fun a => negb (digit_byte a)) contentLength) "invalid Content-Length";;
    match ParseInt 10 contentLength with
    | None => Err "invalid Content-Length"
    | Some len => fail_if (len <? 0) "invalid Content-Length: negative values not allowed";; Ok (done r len false (len =? 0))
    end
  else Ok (done r (-1) false false).

(** Each turn takes a line off, so that a turn per byte and one more are enough. *)
Fixpoint processHeaders (fuel : nat) (p : HTTPResponseParser) : res HTTPResponseParser :=
  match fuel with
  | O => Panic
  | S fuel =>
      match getLine p with
      | None => Ok p
      | Some (line, p) =>
          if pr_StatusCode (hp_Response p) =? 0 then p ← parseStatusLine line p; processHeaders fuel p else
          if (length line =? 0)%nat then finishHeaders p else
          p ← parseHeaderLine line p; processHeaders fuel p
      end
  end.

(** ** The body *)

Definition processFixedBody (p : HTTPResponseParser) : res HTTPResponseParser :=
  if hp_remainingBodyBytes p =? 0 then Ok (set_complete p) else
  if (length (hp_remaining p) =? 0)%nat then Ok p else
  let bytesToCopy := if hp_remainingBodyBytes p =? -1 then Z.of_nat (length (hp_remaining p))
                     else Z.min (hp_remainingBodyBytes p) (Z.of_nat (length (hp_remaining p))) in
  if bytesToCopy <? 0 then Panic else
  let left := if hp_remainingBodyBytes p =? -1 then -1 else hp_remainingBodyBytes p - bytesToCopy in
  let n := Z.to_nat bytesToCopy in
  let p := set_body_bytes left (consume n (drop n (hp_remaining p)) (on_response (add_body (take n (hp_remaining p))) p)) in
  Ok (if left =? 0 then set_complete p else p).

Definition validChunkSize (size : bytes) : bool :=
  negb (length size =? 0)%nat
  && forallb (fun c => ((48 <=? c) && (c <=? 57)) || ((97 <=? c) && (c <=? 102)) || ((65 <=? c) && (c <=? 70))) size.

(** The size line of a chunk, which has been taken off. *)
Definition chunk_size_line (line : bytes) (p : HTTPResponseParser) : res HTTPResponseParser :=
  let sizeStr := trim_bytes (match cut_byte 59 line with Some (before, _) => before | None => line end) in
  fail_if (hp_strictFraming p && negb (validChunkSize sizeStr)) "invalid chunk size";;
  match ParseInt 16 sizeStr with
  | None => Err "invalid chunk size"
  | Some chunkSize =>
      let lineStart := hp_currentByteIdx p - Z.of_nat (length line) - 2 in
      fail_if (negb (contains line sizeStr)) "invalid chunk size position";;
      let p := recordChunkFraming lineStart (match cut_byte 59 line with Some (before, _) => Z.of_nat (length before) + 1 | None => Z.of_nat (length line) end) p in
      let p := recordChunkFraming (hp_currentByteIdx p - 2) 2 p in
      if chunkSize =? 0 then Ok (set_chunk_state (hp_chunkNeedsCRLF p) true p) else
      Ok (set_body_bytes chunkSize (on_response (add_chunk (mkResponseRange (hp_currentByteIdx p) chunkSize)) p))
  end.

(** Each turn takes at least a byte off. *)
Fixpoint processChunkedBody (fuel : nat) (p : HTTPResponseParser) : res HTTPResponseParser :=
  match fuel with
  | O => Panic
  | S fuel =>
      if hp_finalChunkSeen p then
        match getLine p with
        | None => Ok p
        | Some (line, p) =>
            let p := recordChunkFraming (hp_currentByteIdx p - 2) 2 p in
            if (length line =? 0)%nat then Ok (set_complete p) else processChunkedBody fuel p
        end
      else if hp_chunkNeedsCRLF p then
        if (length (hp_remaining p) <? 2)%nat then Ok p else
        if negb (bytes_eqb (take 2 (hp_remaining p)) crlf) then Err "invalid chunk: missing CRLF after data" else
        let p := recordChunkFraming (hp_currentByteIdx p) 2 p in
        processChunkedBody fuel (set_chunk_state false (hp_finalChunkSeen p) (consume 2 (drop 2 (hp_remaining p)) p))
      else if 0 <? hp_remainingBodyBytes p then
        let n := Z.to_nat (Z.min (hp_remainingBodyBytes p) (Z.of_nat (length (hp_remaining p)))) in
        if (n =? 0)%nat then Ok p else
        let left := hp_remainingBodyBytes p - Z.of_nat n in
        let p := set_body_bytes left (consume n (drop n (hp_remaining p)) (on_response (add_body (take n (hp_remaining p))) p)) in
        if 0 <? left then Ok p else processChunkedBody fuel (set_chunk_state true (hp_finalChunkSeen p) p)
      else
        match getLine p with
        | None => Ok p
        | Some (line, p) =>
            if (length line =? 0)%nat then if hp_strictFraming p then Err "invalid chunk: empty size line" else processChunkedBody fuel p else
            p ← chunk_size_line line p; processChunkedBody fuel p
        end
  end.

Definition processBody (p : HTTPResponseParser) : res HTTPResponseParser :=
  if hp_complete p then Ok p else
  if hp_isChunked p then processChunkedBody (S (length (hp_remaining p))) p else processFixedBody p.

(** ** The calls *)

Definition OnChunk (data : bytes) (p : HTTPResponseParser) : res HTTPResponseParser :=
  fail_if (hp_complete p) "got more data after response was complete";;
  let p := append_remaining data p in
  p ← (if hp_headersComplete p then Ok p else processHeaders (S (length (hp_remaining p))) p);
  if hp_headersComplete p then processBody p else Ok p.

Definition StreamEnded (p : HTTPResponseParser) : res HTTPResponseParser :=
  let strict := hp_strictFraming p in
  fail_if (negb (hp_headersComplete p)) "stream ended before headers were complete";;
  fail_if (0 <? hp_remainingBodyBytes p) "stream ended before all body bytes were received";;
  fail_if (strict && hp_isChunked p && hp_chunkNeedsCRLF p) "stream ended before chunk data CRLF";;
  fail_if (strict && hp_isChunked p && negb (hp_finalChunkSeen p)) "stream ended before terminal zero chunk";;
  fail_if (strict && hp_isChunked p && negb (hp_complete p)) "stream ended before final chunk trailer terminator";;
  let ended p := set_complete (mkHttp (hp_Response p) (hp_remainingBodyBytes p) (hp_isChunked p) (hp_chunkNeedsCRLF p) (hp_finalChunkSeen p)
                   (hp_strictFraming p) (hp_remaining p) (hp_currentByteIdx p) (hp_headersComplete p) (hp_complete p) true) in
  let n := length (hp_remaining p) in
  if (n =? 0)%nat then Ok (ended p) else
  if hp_remainingBodyBytes p =? -1 then Ok (ended (consume n [] (on_response (add_body (hp_remaining p)) p))) else
  if hp_isChunked p then fail_if strict "received trailing bytes after chunked response";; Ok (ended (consume n [] p)) else
  fail_if strict "received trailing bytes after Content-Length body";;
  Ok (ended (consume 0 [] p)).

(** The pieces one after the other, then the end. *)
Fixpoint on_pieces (pieces : list bytes) (p : HTTPResponseParser) : res HTTPResponseParser :=
  match pieces with
  | [] => Ok p
  | d :: pieces => p ← OnChunk d p; on_pieces pieces p
  end.

Definition parse_pieces (strictFraming : bool) (pieces : list bytes) : res HTTPParsedResponse :=
  p ← on_pieces pieces (newHTTPResponseParser strictFraming);
  p ← StreamEnded p;
  Ok (hp_Response p).

Definition parseHTTPResponseBytesWithFraming (data : bytes) (strictFraming : bool) : res HTTPParsedResponse :=
  p ← OnChunk data (newHTTPResponseParser strictFraming);
  p ← StreamEnded p;
  Ok (hp_Response p).
End Parser.

Ltac fields :=
  cbn [orb hp_Response hp_remainingBodyBytes hp_isChunked hp_chunkNeedsCRLF hp_finalChunkSeen hp_strictFraming hp_remaining hp_currentByteIdx hp_headersComplete
    hp_complete hp_streamEnded pr_StatusCode pr_StatusMessage pr_StatusLineEndIndex pr_HeaderEndIdx pr_BodyStartIndex pr_Body pr_HeaderLowerToRanges
    pr_HeaderFraming pr_Headers pr_Chunked pr_Chunks pr_ChunkFraming pr_HeadersComplete pr_Complete on_response set_body_bytes set_chunk_state consume set_complete
    add_body add_chunk].

(** ** The parser a byte at a time

    One step takes a line off, or a byte of the body; [None] where more data is needed. *)

Section Steps.
Context {GU : GoUnicode}.

Definition head_line (line : bytes) (p : HTTPResponseParser) : res HTTPResponseParser :=
  if pr_StatusCode (hp_Response p) =? 0 then parseStatusLine line p else
  if (length line =? 0)%nat then finishHeaders p else parseHeaderLine line p.

(** [n] bytes of the body. *)
Definition bulk (left : Z) (n : nat) (p : HTTPResponseParser) : HTTPResponseParser :=
  mkHttp (add_body (take n (hp_remaining p)) (hp_Response p)) left (hp_isChunked p) (hp_chunkNeedsCRLF p) (hp_finalChunkSeen p) (hp_strictFraming p)
    (drop n (hp_remaining p)) (hp_currentByteIdx p + Z.of_nat n) (hp_headersComplete p) (hp_complete p) (hp_streamEnded p).

Definition step_chunked (p : HTTPResponseParser) : option (res HTTPResponseParser) :=
  if hp_finalChunkSeen p then
    match getLine p with
    | None => None
    | Some (line, p) =>
        let p := recordChunkFraming (hp_currentByteIdx p - 2) 2 p in
        Some (Ok (if (length line =? 0)%nat then set_complete p else p))
    end
  else if hp_chunkNeedsCRLF p then
    if (length (hp_remaining p) <? 2)%nat then None else
    if negb (bytes_eqb (take 2 (hp_remaining p)) crlf) then Some (Err "invalid chunk: missing CRLF after data") else
    let p := recordChunkFraming (hp_currentByteIdx p) 2 p in
    Some (Ok (set_chunk_state false (hp_finalChunkSeen p) (consume 2 (drop 2 (hp_remaining p)) p)))
  else if 0 <? hp_remainingBodyBytes p then
    if (length (hp_remaining p) =? 0)%nat then None else
    let p := bulk (hp_remainingBodyBytes p - 1) 1 p in
    Some (Ok (if 0 <? hp_remainingBodyBytes p then p else set_chunk_state true (hp_finalChunkSeen p) p))
  else
    match getLine p with
    | None => None
    | Some (line, p) =>
        if (length line =? 0)%nat then Some (if hp_strictFraming p then Err "invalid chunk: empty size line" else Ok p)
        else Some (chunk_size_line line p)
    end.

Definition step_fixed (p : HTTPResponseParser) : option (res HTTPResponseParser) :=
  if hp_remainingBodyBytes p =? 0 then Some (Ok (set_complete p)) else
  if (length (hp_remaining p) =? 0)%nat then None else
  if hp_remainingBodyBytes p <? -1 then Some Panic else
  let p := bulk (if hp_remainingBodyBytes p =? -1 then -1 else hp_remainingBodyBytes p - 1) 1 p in
  Some (Ok (if hp_remainingBodyBytes p =? 0 then set_complete p else p)).

Definition step (p : HTTPResponseParser) : option (res HTTPResponseParser) :=
  if hp_complete p then None else
  if hp_headersComplete p then if hp_isChunked p then step_chunked p else step_fixed p
  else match getLine p with Some (line, p) => Some (head_line line p) | None => None end.

(** Steps up to where none is left, or to an error. *)
Inductive runs : HTTPResponseParser -> res HTTPResponseParser -> Prop :=
  | runs_end p : step p = None -> runs p (Ok p)
  | runs_step p p' r : step p = Some (Ok p') -> runs p' r -> runs p r
  | runs_err p e : step p = Some (Err e) -> runs p (Err e)
  | runs_panic p : step p = Some Panic -> runs p Panic.

Lemma runs_det p r1 : runs p r1 -> forall r2, runs p r2 -> r1 = r2.
Proof.
  induction 1 as [p H|p p' r H R IH|p e H|p H]; intros r2 R2; destruct R2 as [p H2|p p2 r2 H2 R2|p e2 H2|p H2]; rewrite H in H2; try done; try congruence.
  injection H2 as <-. by apply IH.
Qed.

(** ** The parsing functions leave what they do not read *)

(** The same result with more data behind it. *)
Definition lift (d : bytes) (r : res HTTPResponseParser) : res HTTPResponseParser := p ← r; Ok (append_remaining d p).

Lemma cut_line_cons a b l : cut_line (a :: b :: l)
  = if (a =? 13) && (b =? 10) then Some ([], l) else match cut_line (b :: l) with Some (x, r) => Some (a :: x, r) | None => None end.
Proof. reflexivity. Qed.

Lemma cut_line_app l d x r : cut_line l = Some (x, r) -> cut_line (l ++ d) = Some (x, r ++ d).
Proof.
  revert x r. induction l as [|a l IH]; intros x r; [done|]. destruct l as [|b l]; [done|]. change ((a :: b :: l) ++ d) with (a :: b :: l ++ d).
  rewrite !cut_line_cons. destruct (_ && _); [by intros [= <- <-]|]. destruct (cut_line (b :: l)) as [[x' r']|] eqn:E; [|done].
  intros [= <- <-]. change (b :: l ++ d) with ((b :: l) ++ d). by rewrite (IH _ _ eq_refl).
Qed.

Lemma cut_line_length l x r : cut_line l = Some (x, r) -> l = x ++ crlf ++ r.
Proof.
  revert x r. induction l as [|a l IH]; intros x r; [done|]. destruct l as [|b l]; [done|]. rewrite cut_line_cons.
  destruct (_ && _) eqn:C; [intros [= <- <-]; apply andb_true_iff in C as [->%Z.eqb_eq ->%Z.eqb_eq]; done|].
  destruct (cut_line (b :: l)) as [[x' r']|] eqn:E; [|done]. intros [= <- <-]. cbn [app]. by rewrite (IH _ _ eq_refl).
Qed.

Lemma getLine_app d p line p' : getLine p = Some (line, p') -> getLine (append_remaining d p) = Some (line, append_remaining d p').
Proof.
  unfold getLine. cbn [append_remaining hp_remaining]. destruct (cut_line (hp_remaining p)) as [[x r]|] eqn:E; [|done].
  intros [= <- <-]. by rewrite (cut_line_app _ d _ _ E).
Qed.

Lemma recordChunkFraming_app d a b p : recordChunkFraming a b (append_remaining d p) = append_remaining d (recordChunkFraming a b p).
Proof. unfold recordChunkFraming. by destruct (b <=? 0). Qed.

Lemma parseStatusLine_app d line p : parseStatusLine line (append_remaining d p) = lift d (parseStatusLine line p).
Proof.
  unfold parseStatusLine. destruct (cut_byte 32 line) as [[x after]|]; [|done]. destruct (match cut_byte 32 after with Some (code, message) => (code, Some message) | None => (after, None) end) as [c m].
  by destruct (ParseInt 10 c).
Qed.

Lemma parseHeaderLine_app d line p : parseHeaderLine line (append_remaining d p) = lift d (parseHeaderLine line p).
Proof.
  unfold parseHeaderLine. cbn [append_remaining hp_strictFraming hp_Response hp_currentByteIdx].
  destruct (split_header _ line) as [[[[b v] s]|]| |]; [|done..]. cbn [mbind res_bind]. by destruct (_ && _ && _).
Qed.

Lemma finishHeaders_app d p : finishHeaders (append_remaining d p) = lift d (finishHeaders p).
Proof.
  unfold finishHeaders. cbn [append_remaining hp_strictFraming hp_Response hp_currentByteIdx hp_remaining hp_isChunked hp_chunkNeedsCRLF hp_finalChunkSeen hp_complete hp_streamEnded].
  destruct (_ && _ && _); [done|]. destruct (if _ && _ then codings_loop _ _ else _) as [[]| |]; [done| |done..]. cbn [mbind res_bind].
  destruct (negb _); [|done]. destruct (_ && _); [done|]. destruct (ParseInt 10 _) as [n|]; [|done]. by destruct (n <? 0).
Qed.

Lemma head_line_app d line p : head_line line (append_remaining d p) = lift d (head_line line p).
Proof.
  unfold head_line. cbn [append_remaining hp_Response]. destruct (_ =? 0); [apply parseStatusLine_app|].
  destruct (_ =? 0)%nat; [apply finishHeaders_app|apply parseHeaderLine_app].
Qed.

Lemma chunk_size_line_app d line p : chunk_size_line line (append_remaining d p) = lift d (chunk_size_line line p).
Proof.
  unfold chunk_size_line. cbn [append_remaining hp_strictFraming hp_currentByteIdx]. destruct (_ && _); [done|]. destruct (ParseInt 16 _) as [n|]; [|done].
  destruct (negb _); [done|]. change (mkHttp _ _ _ _ _ _ (hp_remaining p ++ d) _ _ _ _) with (append_remaining d p). rewrite !recordChunkFraming_app. by destruct (n =? 0).
Qed.

Lemma bulk_app d left n p : (n <= length (hp_remaining p))%nat -> bulk left n (append_remaining d p) = append_remaining d (bulk left n p).
Proof.
  intros H. unfold bulk, append_remaining. cbn. rewrite take_app_le, drop_app_le by done. done.
Qed.

(** A step stays the same step when more data follows. *)
Lemma step_app d p r : step p = Some r -> step (append_remaining d p) = Some (lift d r).
Proof.
  unfold step. cbn [append_remaining hp_complete hp_headersComplete hp_isChunked]. destruct (hp_complete p); [done|].
  change (mkHttp _ _ _ _ _ _ (hp_remaining p ++ d) _ _ _ _) with (append_remaining d p).
  destruct (hp_headersComplete p); cycle 1.
  { destruct (getLine p) as [[line p']|] eqn:E; [|done]. intros [= <-]. rewrite (getLine_app d _ _ _ E). f_equal. apply head_line_app. }
  destruct (hp_isChunked p).
  - unfold step_chunked. cbn [append_remaining hp_finalChunkSeen hp_chunkNeedsCRLF hp_remaining hp_remainingBodyBytes hp_currentByteIdx].
    change (mkHttp _ _ _ _ _ _ (hp_remaining p ++ d) _ _ _ _) with (append_remaining d p). destruct (hp_finalChunkSeen p).
    { destruct (getLine p) as [[line p']|] eqn:E; [|done]. intros [= <-]. rewrite (getLine_app d _ _ _ E), recordChunkFraming_app. by destruct (_ =? 0)%nat. }
    destruct (hp_chunkNeedsCRLF p).
    { destruct (Nat.ltb_spec (length (hp_remaining p)) 2); [done|]. rewrite (proj2 (Nat.ltb_ge _ _)) by (rewrite length_app; lia). rewrite take_app_le by done.
      destruct (negb _); [by intros [= <-]|]. intros [= <-]. do 2 f_equal. rewrite recordChunkFraming_app. unfold recordChunkFraming, consume, set_chunk_state, append_remaining, on_response. cbn.
      by rewrite drop_app_le. }
    destruct (0 <? _).
    { destruct (Nat.eqb_spec (length (hp_remaining p)) 0); [done|]. rewrite (proj2 (Nat.eqb_neq _ _)) by (rewrite length_app; lia). intros [= <-].
      rewrite bulk_app by lia. cbn [append_remaining hp_remainingBodyBytes]. by destruct (0 <? _). }
    destruct (getLine p) as [[line p']|] eqn:E; [|done]. rewrite (getLine_app d _ _ _ E). cbn [append_remaining hp_strictFraming].
    destruct (_ =? 0)%nat; intros [= <-]; [by destruct (hp_strictFraming p')|]. f_equal. apply chunk_size_line_app.
  - unfold step_fixed. cbn [append_remaining hp_remainingBodyBytes hp_remaining].
    change (mkHttp _ _ _ _ _ _ (hp_remaining p ++ d) _ _ _ _) with (append_remaining d p). destruct (_ =? 0); [by intros [= <-]|].
    destruct (Nat.eqb_spec (length (hp_remaining p)) 0); [done|]. rewrite (proj2 (Nat.eqb_neq _ _)) by (rewrite length_app; lia).
    destruct (_ <? -1); [by intros [= <-]|]. intros [= <-]. rewrite bulk_app by lia. cbn [append_remaining hp_remainingBodyBytes]. by destruct (_ =? 0).
Qed.
End Steps.

(** ** The loops take the steps *)

Section Loops.
Context {GU : GoUnicode}.

Lemma getLine_shorter p line p' : getLine p = Some (line, p') ->
  hp_remaining p = line ++ crlf ++ hp_remaining p' /\ (length (hp_remaining p') < length (hp_remaining p))%nat
  /\ p' = consume (length line + 2) (hp_remaining p') p.
Proof.
  unfold getLine. destruct (cut_line (hp_remaining p)) as [[x r]|] eqn:E; [|done]. intros [= <- <-]. cbn. rewrite (cut_line_length _ _ _ E).
  split; [done|]. split; [rewrite !length_app; cbn; lia|done].
Qed.

(** What a line of the head leaves alone. *)
Lemma head_line_keeps line p p' : head_line line p = Ok p' ->
  hp_remaining p' = hp_remaining p /\ hp_currentByteIdx p' = hp_currentByteIdx p /\ hp_strictFraming p' = hp_strictFraming p
  /\ (hp_headersComplete p' = true \/ hp_headersComplete p' = hp_headersComplete p /\ hp_complete p' = hp_complete p).
Proof.
  unfold head_line. destruct (_ =? 0).
  { unfold parseStatusLine. destruct (cut_byte 32 line) as [[x after]|]; [|done].
    destruct (match cut_byte 32 after with Some (code, message) => (code, Some message) | None => (after, None) end) as [c m].
    destruct (ParseInt 10 c); [|done]. intros [= <-]. cbn. split_and!; auto. }
  destruct (_ =? 0)%nat.
  { unfold finishHeaders. intros E. inv_guard E. inv_bind E. clear E0. repeat case_match; simplify_eq; cbn; split_and!; auto. }
  unfold parseHeaderLine. intros E. inv_bind E. destruct a as [[[b v] s]|]; [|injection E as <-; split_and!; auto]. inv_guard E. injection E as <-. cbn. split_and!; auto.
Qed.

Lemma codings_no_panic l b : codings_loop l b <> Panic.
Proof. revert b. induction l as [|c l IH]; intros b; [done|]. cbn [codings_loop]. destruct (_ =? 0)%nat; [done|]. destruct (bytes_eqb _ _); [|apply IH]. destruct (0 <? _)%nat; [done|apply IH]. Qed.

Lemma head_line_no_panic line p : head_line line p <> Panic.
Proof.
  unfold head_line. destruct (_ =? 0).
  { unfold parseStatusLine. destruct (cut_byte 32 line) as [[x after]|]; [|done].
    destruct (match cut_byte 32 after with Some (code, message) => (code, Some message) | None => (after, None) end) as [c m]. by destruct (ParseInt 10 c). }
  destruct (_ =? 0)%nat.
  { unfold finishHeaders. intros E. destruct (_ && _ && _); [done|]. match type of E with mbind _ ?m = _ => destruct m eqn:EM end; [|done|].
    - cbn [mbind res_bind] in E. repeat case_match; done.
    - destruct (_ && _) in EM; [|done]. by apply codings_no_panic in EM. }
  unfold parseHeaderLine, split_header. destruct (hp_strictFraming p).
  - destruct (cut_byte 58 line) as [[x y]|]; [|done]. destruct (_ =? 0)%nat; [done|]. destruct (negb _); [done|]. cbn [mbind res_bind]. by repeat case_match.
  - destruct (cut_colon_blank line) as [[x y]|]; [|done]. cbn [mbind res_bind]. by repeat case_match.
Qed.

Lemma chunk_size_line_no_panic line p : chunk_size_line line p <> Panic.
Proof. unfold chunk_size_line. destruct (_ && _); [done|]. destruct (ParseInt 16 _) as [n|]; [|done]. destruct (negb _); [done|]. by destruct (n =? 0). Qed.

Lemma recordChunkFraming_keeps a b p : exists f, recordChunkFraming a b p = on_response f p.
Proof. unfold recordChunkFraming. destruct (_ <=? 0); [|by eexists]. exists (fun r => r). by destruct p. Qed.

Lemma chunk_size_line_keeps line p p' : chunk_size_line line p = Ok p' ->
  hp_remaining p' = hp_remaining p /\ hp_headersComplete p' = hp_headersComplete p /\ hp_complete p' = hp_complete p /\ hp_isChunked p' = hp_isChunked p
  /\ hp_chunkNeedsCRLF p' = hp_chunkNeedsCRLF p /\ hp_strictFraming p' = hp_strictFraming p.
Proof.
  unfold chunk_size_line. intros E. inv_guard E. destruct (ParseInt 16 _) as [n|]; [|done]. inv_guard E.
  match type of E with context [recordChunkFraming ?a ?b p] => destruct (recordChunkFraming_keeps a b p) as [f Ef]; rewrite Ef in E end.
  match type of E with context [recordChunkFraming ?a ?b (on_response f p)] => destruct (recordChunkFraming_keeps a b (on_response f p)) as [g Eg]; rewrite Eg in E end.
  destruct (n =? 0); injection E as <-; by cbn.
Qed.

(** The loop over the head ends, and ends where the steps do. *)
Lemma headers_run fuel : forall p, (length (hp_remaining p) < fuel)%nat -> hp_complete p = false -> hp_headersComplete p = false ->
  match processHeaders fuel p with
  | Ok p' => hp_headersComplete p' = false /\ runs p (Ok p') \/ hp_headersComplete p' = true /\ forall r, runs p' r -> runs p r
  | Err e => runs p (Err e)
  | Panic => False
  end.
Proof.
  induction fuel as [|fuel IH]; intros p L C H; [lia|]. cbn [processHeaders]. destruct (getLine p) as [[line p1]|] eqn:G; cycle 1.
  { left. split; [done|]. apply runs_end. unfold step. by rewrite C, H, G. }
  destruct (getLine_shorter _ _ _ G) as (_ & L1 & E1). assert (C1 : hp_complete p1 = false) by (by rewrite E1). assert (H1 : hp_headersComplete p1 = false) by (by rewrite E1).
  assert (S : step p = Some (head_line line p1)) by (unfold step; by rewrite C, H, G).
  assert (X : match head_line line p1 with
              | Ok p2 => if hp_headersComplete p2 then True else match processHeaders fuel p2 with
                  | Ok p' => hp_headersComplete p' = false /\ runs p (Ok p') \/ hp_headersComplete p' = true /\ forall r, runs p' r -> runs p r
                  | Err e => runs p (Err e) | Panic => False end
              | _ => True end).
  { destruct (head_line line p1) as [p2|e|] eqn:HL; [|done..]. destruct (head_line_keeps _ _ _ HL) as (R2 & _ & _ & [D|[D1 D2]]); [by rewrite D|]. rewrite D1, H1.
    specialize (IH p2). rewrite R2, D1, D2 in IH. specialize (IH ltac:(lia) C1 H1). destruct (processHeaders fuel p2) as [p'|e|]; [|by eapply runs_step|done].
    destruct IH as [[? ?]|[? IH]]; [left|right]; (split; [done|]); [by eapply runs_step|]. intros r R. eapply runs_step; [exact S|]. by apply IH. }
  assert (NP := head_line_no_panic line p1). unfold head_line in S, X, NP. destruct (_ =? 0) eqn:Z0.
  { destruct (parseStatusLine line p1) as [p2|e|] eqn:PS; [|by apply runs_err|done]. cbn [mbind res_bind].
    assert (HL : head_line line p1 = Ok p2) by (unfold head_line; by rewrite Z0). unfold parseStatusLine in PS.
    destruct (cut_byte 32 line) as [[x after]|]; [|done]. destruct (match cut_byte 32 after with Some (code, message) => (code, Some message) | None => (after, None) end) as [c m].
    destruct (ParseInt 10 c); [|done]. injection PS as <-. cbn [hp_headersComplete on_response] in X. rewrite H1 in X. exact X. }
  destruct (length line =? 0)%nat eqn:Z1.
  { destruct (finishHeaders p1) as [p2|e|] eqn:FH; [|by apply runs_err|done]. right.
    assert (D : hp_headersComplete p2 = true).
    { clear -FH. revert FH. unfold finishHeaders. intros E. inv_guard E. inv_bind E. clear E0. by repeat case_match; simplify_eq. }
    split; [done|]. intros r R. by eapply runs_step. }
  destruct (parseHeaderLine line p1) as [p2|e|] eqn:PH; [|by apply runs_err|done]. cbn [mbind res_bind].
  assert (D : hp_headersComplete p2 = false); [|by rewrite D in X].
  unfold parseHeaderLine in PH. inv_bind PH. destruct a as [[[b v] s]|]; [|by injection PH as <-]. inv_guard PH. by injection PH as <-.
Qed.

Lemma bulk_bulk l1 l2 n p : (1 <= length (hp_remaining p))%nat -> bulk l2 n (bulk l1 1 p) = bulk l2 (S n) p.
Proof.
  intros L. destruct (hp_remaining p) as [|b rem] eqn:E; [cbn in L; lia|]. unfold bulk.
  cbn [hp_Response hp_remainingBodyBytes hp_isChunked hp_chunkNeedsCRLF hp_finalChunkSeen hp_strictFraming hp_remaining hp_currentByteIdx hp_headersComplete hp_complete hp_streamEnded].
  rewrite E. cbn [take drop]. f_equal; [|lia]. destruct (hp_Response p). unfold add_body.
  cbn [pr_StatusCode pr_StatusMessage pr_StatusLineEndIndex pr_HeaderEndIdx pr_BodyStartIndex pr_Body pr_HeaderLowerToRanges pr_HeaderFraming pr_Headers pr_Chunked pr_Chunks pr_ChunkFraming pr_HeadersComplete pr_Complete].
  f_equal. by rewrite <- app_assoc.
Qed.

(** A run of body bytes of a chunk, and of a body of known or open length. *)
Lemma chunk_data n : forall p r, hp_complete p = false -> hp_headersComplete p = true -> hp_isChunked p = true -> hp_finalChunkSeen p = false ->
  hp_chunkNeedsCRLF p = false -> (S n <= length (hp_remaining p))%nat -> Z.of_nat (S n) <= hp_remainingBodyBytes p ->
  let left := hp_remainingBodyBytes p - Z.of_nat (S n) in
  runs (if 0 <? left then bulk left (S n) p else set_chunk_state true false (bulk left (S n) p)) r -> runs p r.
Proof.
  induction n as [|n IH]; intros p r C H K F N L B left R.
  - eapply runs_step; [|exact R]. unfold step, step_chunked. rewrite C, H, K, F, N, (proj2 (Z.ltb_lt _ _)), (proj2 (Nat.eqb_neq _ _)) by lia.
    cbn [bulk hp_remainingBodyBytes hp_finalChunkSeen]. by rewrite F.
  - eapply runs_step with (p' := bulk (hp_remainingBodyBytes p - 1) 1 p).
    + unfold step, step_chunked. rewrite C, H, K, F, N, (proj2 (Z.ltb_lt _ _)), (proj2 (Nat.eqb_neq _ _)) by lia.
      cbn [bulk hp_remainingBodyBytes hp_finalChunkSeen]. by rewrite (proj2 (Z.ltb_lt _ _)) by lia.
    + apply IH; try done; cbn [bulk hp_remainingBodyBytes hp_remaining]; [rewrite length_drop; lia|lia|].
      change (mkHttp _ _ _ _ _ _ _ _ _ _ _) with (bulk (hp_remainingBodyBytes p - 1) 1 p). rewrite bulk_bulk by lia.
      replace (hp_remainingBodyBytes p - 1 - Z.of_nat (S n)) with left by lia. exact R.
Qed.

Lemma fixed_data n : forall p r, hp_complete p = false -> hp_headersComplete p = true -> hp_isChunked p = false ->
  (S n <= length (hp_remaining p))%nat -> hp_remainingBodyBytes p = -1 \/ Z.of_nat (S n) <= hp_remainingBodyBytes p ->
  let left := if hp_remainingBodyBytes p =? -1 then -1 else hp_remainingBodyBytes p - Z.of_nat (S n) in
  runs (if left =? 0 then set_complete (bulk left (S n) p) else bulk left (S n) p) r -> runs p r.
Proof.
  induction n as [|n IH]; intros p r C H K L B left R.
  - eapply runs_step; [|exact R]. unfold step, step_fixed. rewrite C, H, K, (proj2 (Z.eqb_neq (hp_remainingBodyBytes p) 0)), (proj2 (Nat.eqb_neq _ _)), (proj2 (Z.ltb_ge _ _)) by lia. done.
  - eapply runs_step with (p' := bulk (if hp_remainingBodyBytes p =? -1 then -1 else hp_remainingBodyBytes p - 1) 1 p).
    + unfold step, step_fixed. rewrite C, H, K, (proj2 (Z.eqb_neq (hp_remainingBodyBytes p) 0)), (proj2 (Nat.eqb_neq _ _)), (proj2 (Z.ltb_ge _ _)) by lia.
      cbn [bulk hp_remainingBodyBytes]. destruct (Z.eqb_spec (hp_remainingBodyBytes p) (-1)); [done|]. by rewrite (proj2 (Z.eqb_neq _ _)) by lia.
    + apply IH; try done; cbn [bulk hp_remainingBodyBytes hp_remaining]; [rewrite length_drop; lia| |].
      * destruct (Z.eqb_spec (hp_remainingBodyBytes p) (-1)); [by left|right; lia].
      * change (mkHttp _ _ _ _ _ _ _ _ _ _ _) with (bulk (if hp_remainingBodyBytes p =? -1 then -1 else hp_remainingBodyBytes p - 1) 1 p). rewrite bulk_bulk by lia. unfold left in R.
        destruct (Z.eqb_spec (hp_remainingBodyBytes p) (-1)); [exact R|]. rewrite (proj2 (Z.eqb_neq (hp_remainingBodyBytes p - 1) (-1))) by lia.
        replace (hp_remainingBodyBytes p - 1 - Z.of_nat (S n)) with (hp_remainingBodyBytes p - Z.of_nat (S (S n))) by lia. exact R.
Qed.

Lemma fixed_run p : hp_complete p = false -> hp_headersComplete p = true -> hp_isChunked p = false -> -1 <= hp_remainingBodyBytes p ->
  match processFixedBody p with Panic => False | r => runs p r end.
Proof.
  intros C H K B. unfold processFixedBody. destruct (Z.eqb_spec (hp_remainingBodyBytes p) 0) as [E|E].
  { eapply runs_step; [unfold step, step_fixed; rewrite C, H, K, E; reflexivity|]. by apply runs_end. }
  destruct (Nat.eqb_spec (length (hp_remaining p)) 0) as [E2|E2].
  { apply runs_end. unfold step, step_fixed. by rewrite C, H, K, (proj2 (Z.eqb_neq _ _) E), (proj2 (Nat.eqb_eq _ _) E2). }
  set (n := if hp_remainingBodyBytes p =? -1 then _ else _).
  assert (Hn : 1 <= n <= Z.of_nat (length (hp_remaining p)) /\ (hp_remainingBodyBytes p = -1 \/ n <= hp_remainingBodyBytes p))
    by (unfold n; destruct (Z.eqb_spec (hp_remainingBodyBytes p) (-1)); lia).
  rewrite (proj2 (Z.ltb_ge _ _)) by lia. pose proof (fixed_data (Z.to_nat n - 1) p) as FD. replace (S (Z.to_nat n - 1)) with (Z.to_nat n) in FD by lia.
  rewrite Z2Nat.id in FD by lia. cbv zeta in FD |- *. apply FD; [done..|lia|lia|].
  change (set_body_bytes ?l (consume _ _ _)) with (bulk l (Z.to_nat n) p). set (left := if hp_remainingBodyBytes p =? -1 then -1 else _).
  destruct (left =? 0) eqn:L0; apply runs_end.
  - done.
  - unfold step, step_fixed. cbn [bulk hp_complete hp_headersComplete hp_isChunked hp_remainingBodyBytes hp_remaining].
    rewrite C, H, K, L0. assert (drop (Z.to_nat n) (hp_remaining p) = []) as ->; [|done].
    apply drop_ge. unfold left in L0. apply Z.eqb_neq in L0. unfold n in *. destruct (Z.eqb_spec (hp_remainingBodyBytes p) (-1)); lia.
Qed.

(** The loop over the chunks ends, and ends where the steps do. *)
Lemma chunked_run fuel : forall p, (length (hp_remaining p) < fuel)%nat -> hp_complete p = false -> hp_headersComplete p = true -> hp_isChunked p = true ->
  match processChunkedBody fuel p with Panic => False | r => runs p r end.
Proof.
  induction fuel as [|fuel IH]; intros p L C H K; [lia|]. cbn [processChunkedBody].
  assert (next : forall p1, step p = Some (Ok p1) -> (length (hp_remaining p1) < length (hp_remaining p))%nat -> hp_complete p1 = false -> hp_headersComplete p1 = true ->
    hp_isChunked p1 = true -> match processChunkedBody fuel p1 with Panic => False | r => runs p r end).
  { intros p1 S L1 C1 H1 K1. specialize (IH p1 ltac:(lia) C1 H1 K1). destruct (processChunkedBody fuel p1); [by eapply runs_step..|done]. }
  assert (stuck : step p = None -> runs p (Ok p)) by apply runs_end.
  unfold step in next, stuck. rewrite C, H, K in next, stuck. unfold step_chunked in next, stuck. destruct (hp_finalChunkSeen p) eqn:F.
  { destruct (getLine p) as [[line p1]|] eqn:G; [|by apply stuck]. destruct (getLine_shorter _ _ _ G) as (_ & L1 & E1).
    destruct (recordChunkFraming_keeps (hp_currentByteIdx p1 - 2) 2 p1) as [f Ef]. rewrite Ef in *. destruct (_ =? 0)%nat eqn:Z0.
    - eapply runs_step; [unfold step, step_chunked; rewrite C, H, K, F, G, Ef, Z0; reflexivity|]. by apply runs_end.
    - apply next; cbn; [done|lia|by rewrite E1..]. }
  destruct (hp_chunkNeedsCRLF p) eqn:N.
  { destruct (Nat.ltb_spec (length (hp_remaining p)) 2); [by apply stuck|]. destruct (negb _) eqn:Q.
    - apply runs_err. unfold step, step_chunked. rewrite C, H, K, F, N, (proj2 (Nat.ltb_ge _ _)) by lia. by rewrite Q.
    - destruct (recordChunkFraming_keeps (hp_currentByteIdx p) 2 p) as [f Ef]. rewrite Ef in *. apply next; cbn; [done|rewrite length_drop; lia|done..]. }
  destruct (Z.ltb_spec 0 (hp_remainingBodyBytes p)) as [B|B].
  { destruct (Nat.eqb_spec (length (hp_remaining p)) 0) as [E0|E0].
    { rewrite E0. change (Z.of_nat 0) with 0. rewrite Z.min_r by lia. by apply stuck. }
    set (n := Z.to_nat _). assert (Hn : (1 <= n <= length (hp_remaining p))%nat /\ Z.of_nat n <= hp_remainingBodyBytes p /\ (Z.of_nat n = hp_remainingBodyBytes p \/ n = length (hp_remaining p))) by lia.
    rewrite (proj2 (Nat.eqb_neq _ _)) by lia. pose proof (chunk_data (n - 1) p) as CD. replace (S (n - 1)) with n in CD by lia. cbv zeta in CD.
    clear next stuck.
    change (set_body_bytes ?l (consume _ _ _)) with (bulk l n p). destruct (0 <? hp_remainingBodyBytes p - Z.of_nat n) eqn:Lf.
    - apply CD; [done..|lia|lia|]. apply runs_end. unfold step, step_chunked.
      cbn [bulk hp_complete hp_headersComplete hp_isChunked hp_remainingBodyBytes hp_remaining hp_finalChunkSeen hp_chunkNeedsCRLF].
      apply Z.ltb_lt in Lf. rewrite C, H, K, F, N, (proj2 (Z.ltb_lt _ _)) by lia. assert (drop n (hp_remaining p) = []) as ->; [apply drop_ge; lia|done].
    - specialize (IH (set_chunk_state true false (bulk (hp_remainingBodyBytes p - Z.of_nat n) n p))). cbn [bulk set_chunk_state hp_remaining hp_complete hp_headersComplete hp_isChunked] in IH.
      rewrite length_drop in IH. specialize (IH ltac:(lia) C H K). change (set_chunk_state true (hp_finalChunkSeen _) ?q) with (set_chunk_state true (hp_finalChunkSeen p) q). rewrite F.
      change (mkHttp _ _ _ _ _ _ _ _ _ _ _) with (set_chunk_state true false (bulk (hp_remainingBodyBytes p - Z.of_nat n) n p)) in IH.
      destruct (processChunkedBody fuel _) as [q|e|]; [apply CD; [done..|lia|lia|exact IH]|apply CD; [done..|lia|lia|exact IH]|done]. }
  destruct (getLine p) as [[line p1]|] eqn:G; [|by apply stuck]. destruct (getLine_shorter _ _ _ G) as (_ & L1 & E1).
  assert (C1 : hp_complete p1 = false) by (by rewrite E1). assert (H1 : hp_headersComplete p1 = true) by (by rewrite E1). assert (K1 : hp_isChunked p1 = true) by (by rewrite E1).
  destruct (_ =? 0)%nat eqn:Z0.
  { destruct (hp_strictFraming p1) eqn:S1; [|by apply next].
    apply runs_err. unfold step, step_chunked. rewrite C, H, K, F, N, (proj2 (Z.ltb_ge _ _)), G, Z0 by lia. by rewrite S1. }
  destruct (chunk_size_line line p1) as [p2|e|] eqn:CL; [|apply runs_err|by apply chunk_size_line_no_panic in CL].
  - cbn [mbind res_bind]. destruct (chunk_size_line_keeps _ _ _ CL) as (R2 & H2 & C2 & K2 & _). apply next; [done|by rewrite R2|congruence..].
  - unfold step, step_chunked. by rewrite C, H, K, F, N, (proj2 (Z.ltb_ge _ _)), G, Z0, CL by lia.
Qed.
End Loops.

(** ** The positions *)

(** The bytes of the response that a range names. *)
Definition range_bytes (c : bytes) (r : ResponseRedactionRange) : bytes := take (Z.to_nat (sr_Length r)) (drop (Z.to_nat (sr_Start r)) c).

(** Ranges in order, none empty, between [lo] and [hi]. *)
Fixpoint ordered (lo : Z) (rs : list ResponseRedactionRange) (hi : Z) : Prop :=
  match rs with
  | [] => lo <= hi
  | r :: rs => lo <= sr_Start r /\ 0 < sr_Length r /\ ordered (sr_Start r + sr_Length r) rs hi
  end.

Lemma ordered_app lo rs r hi : ordered lo (rs ++ [r]) hi <-> exists mid, ordered lo rs mid /\ mid <= sr_Start r /\ 0 < sr_Length r /\ sr_Start r + sr_Length r <= hi.
Proof.
  revert lo. induction rs as [|q rs IH]; intros lo; cbn [ordered app].
  - split; [intros (? & ? & ?); exists lo; lia|intros (mid & ? & ? & ?); lia].
  - rewrite IH. split; [intros (? & ? & mid & ?); exists mid; tauto|intros (mid & ? & ?); split_and!; [tauto..|exists mid; tauto]].
Qed.

Lemma ordered_mono lo rs hi hi' : hi <= hi' -> ordered lo rs hi -> ordered lo rs hi'.
Proof. intros H. revert lo. induction rs as [|q rs IH]; intros lo; cbn [ordered]; [lia|]. intros (? & ? & ?). split_and!; [done..|by apply IH]. Qed.

Lemma range_bytes_app c x r : 0 <= sr_Start r -> sr_Start r + sr_Length r <= Z.of_nat (length c) -> range_bytes (c ++ x) r = range_bytes c r.
Proof.
  intros H0 H1. unfold range_bytes. destruct (Z.leb_spec 0 (sr_Length r)).
  - rewrite drop_app_le by lia. rewrite take_app_le; [done|]. rewrite length_drop. lia.
  - by replace (Z.to_nat (sr_Length r)) with 0%nat by lia.
Qed.

Lemma ordered_le lo rs hi : ordered lo rs hi -> lo <= hi.
Proof. revert lo. induction rs as [|r rs IH]; intros lo; cbn; [done|]. intros (? & ? & O). specialize (IH _ O). lia. Qed.

Lemma ranges_bytes_app c x lo rs : 0 <= lo -> ordered lo rs (Z.of_nat (length c)) -> map (range_bytes (c ++ x)) rs = map (range_bytes c) rs.
Proof.
  revert lo. induction rs as [|r rs IH]; intros lo H0; [done|]. cbn [ordered map]. intros (? & ? & O). rewrite (IH (sr_Start r + sr_Length r)) by (done || lia). f_equal.
  apply range_bytes_app; [lia|]. clear -O. revert O. generalize (sr_Start r + sr_Length r). induction rs as [|q rs IH]; intros z; cbn; [done|]. intros (? & ? & O).
  specialize (IH _ O). lia.
Qed.

Lemma cut_byte_spec c l x r : cut_byte c l = Some (x, r) -> l = x ++ [c] ++ r.
Proof.
  revert x r. induction l as [|a l IH]; intros x r; cbn [cut_byte]; [done|]. destruct (Z.eqb_spec a c) as [-> |]; [by intros [= <- <-]|].
  destruct (cut_byte c l) as [[x' r']|]; [|done]. intros [= <- <-]. cbn. by rewrite (IH _ _ eq_refl).
Qed.

Lemma cut_colon_blank_cons a b l : cut_colon_blank (a :: b :: l)
  = if (a =? 58) && (b =? 32) then Some ([], l) else match cut_colon_blank (b :: l) with Some (x, r) => Some (a :: x, r) | None => None end.
Proof. reflexivity. Qed.

Lemma cut_colon_blank_spec l x r : cut_colon_blank l = Some (x, r) -> l = x ++ [58; 32] ++ r.
Proof.
  revert x r. induction l as [|a l IH]; intros x r; [done|]. destruct l as [|b l]; [done|]. rewrite cut_colon_blank_cons.
  destruct (_ && _) eqn:C; [intros [= <- <-]; apply andb_true_iff in C as [->%Z.eqb_eq ->%Z.eqb_eq]; done|].
  destruct (cut_colon_blank (b :: l)) as [[x' r']|] eqn:E; [|done]. intros [= <- <-]. cbn [app]. by rewrite (IH _ _ eq_refl).
Qed.

Lemma blanks_spec l : exists b, l = b ++ drop (blanks l) l /\ length b = blanks l /\ Forall (fun a => a = 32 \/ a = 9) b.
Proof.
  induction l as [|a l (b & E & L & F)]; [by exists []|]. cbn [blanks]. destruct (_ || _) eqn:C; [|by exists []]. exists (a :: b). cbn. split; [by rewrite <- E|].
  split; [by rewrite L|]. constructor; [|done]. apply orb_true_iff in C as [C%Z.eqb_eq|C%Z.eqb_eq]; auto.
Qed.

Lemma digits_value_nonneg base l : 0 <= base -> forall n v, digits_value base n l = Some v -> 0 <= n -> 0 <= v.
Proof.
  intros B. induction l as [|a l IH]; intros n v; cbn [digits_value]; [by intros [= <-]|]. destruct (digit_value base a) as [d|] eqn:D; [|done].
  intros E H. apply (IH _ _ E). assert (0 <= d); [|lia]. unfold digit_value in D. repeat case_match; simplify_eq; try lia.
Qed.

Lemma chunk_size_nonneg l n : validChunkSize l = true -> ParseInt 16 l = Some n -> 0 <= n.
Proof.
  unfold validChunkSize, ParseInt. intros [_ V]%andb_true_iff. destruct l as [|a l]; [done|]. cbn [forallb] in V. apply andb_true_iff in V as [Va _].
  cbn [hd]. rewrite (proj2 (Z.eqb_neq a 43)), (proj2 (Z.eqb_neq a 45)) by (intros ->; done).
  destruct (_ =? 0)%nat; [done|]. destruct (digits_value 16 0 (a :: l)) as [v|] eqn:D; [|done]. case_match; [|done]. intros [= <-].
  rewrite Z.mul_1_l. by apply (digits_value_nonneg 16 (a :: l) ltac:(lia) 0 _ D).
Qed.

Section Positions.
Context {GU : GoUnicode}.

(** The range is a line of [c] with this name, in lower case, and this value. *)
Definition header_at (c k value : bytes) (r : ResponseRedactionRange) : Prop :=
  0 <= sr_Start r /\ sr_Start r + sr_Length r <= Z.of_nat (length c)
  /\ exists name blank, range_bytes c r = name ++ [58] ++ blank ++ value /\ to_lower name = k /\ Forall (fun a => a = 32 \/ a = 9) blank.

(** What holds of the parser once it has consumed [c]. *)
Record inv (c : bytes) (p : HTTPResponseParser) : Prop := {
  iv_idx : hp_currentByteIdx p = Z.of_nat (length c);
  iv_flag : pr_Chunked (hp_Response p) = hp_isChunked p;
  iv_complete : hp_complete p = true -> hp_headersComplete p = true;
  iv_open : hp_headersComplete p = false -> hp_isChunked p = false /\ hp_finalChunkSeen p = false /\ hp_chunkNeedsCRLF p = false
    /\ pr_Body (hp_Response p) = [] /\ pr_Chunks (hp_Response p) = [];
  iv_headers : forall k v, pr_Headers (hp_Response p) !! k = Some v ->
    exists r, pr_HeaderLowerToRanges (hp_Response p) !! k = Some r /\ header_at c k v r;
  iv_status : pr_StatusLineEndIndex (hp_Response p) < Z.of_nat (length c);
  iv_head : hp_headersComplete p = true -> pr_HeaderEndIdx (hp_Response p) = pr_BodyStartIndex (hp_Response p) - 4
    /\ pr_StatusLineEndIndex (hp_Response p) < pr_BodyStartIndex (hp_Response p);
  iv_start : hp_headersComplete p = true -> 0 <= pr_BodyStartIndex (hp_Response p) <= Z.of_nat (length c);
  iv_fixed : hp_headersComplete p = true -> hp_isChunked p = false ->
    pr_Body (hp_Response p) = drop (Z.to_nat (pr_BodyStartIndex (hp_Response p))) c
    /\ let cl := default [] (pr_Headers (hp_Response p) !! str "content-length") in
       if (length cl =? 0)%nat then hp_remainingBodyBytes p = -1
       else 0 <= hp_remainingBodyBytes p /\ ParseInt 10 cl = Some (hp_remainingBodyBytes p + Z.of_nat (length (pr_Body (hp_Response p))));
  iv_done : hp_complete p = true -> hp_isChunked p = false -> hp_remainingBodyBytes p = 0;
  iv_chunks : hp_strictFraming p = true -> hp_headersComplete p = true -> hp_isChunked p = true ->
    0 <= hp_remainingBodyBytes p /\ pr_Body (hp_Response p) = concat (map (range_bytes c) (pr_Chunks (hp_Response p)))
    /\ ordered (pr_BodyStartIndex (hp_Response p)) (pr_Chunks (hp_Response p)) (Z.of_nat (length c) + hp_remainingBodyBytes p)
    /\ (0 < hp_remainingBodyBytes p -> exists old last, pr_Chunks (hp_Response p) = old ++ [last]
          /\ sr_Start last + sr_Length last = Z.of_nat (length c) + hp_remainingBodyBytes p /\ sr_Start last <= Z.of_nat (length c));
  iv_rest : hp_finalChunkSeen p || hp_chunkNeedsCRLF p = true -> hp_remainingBodyBytes p <= 0;
  iv_nochunks : hp_isChunked p = false -> pr_Chunks (hp_Response p) = [];
}.

Lemma inv_new strict : inv [] (newHTTPResponseParser strict).
Proof. split; done. Qed.

Lemma header_at_app c x k v r : header_at c k v r -> header_at (c ++ x) k v r.
Proof. intros (? & ? & name & blank & E & ?). split; [done|]. split; [rewrite length_app; lia|]. exists name, blank. by rewrite range_bytes_app. Qed.

Lemma inv_append c p d : inv c p -> inv c (append_remaining d p).
Proof. intros []. by split. Qed.

Lemma inv_framing c p a b : inv c p -> inv c (recordChunkFraming a b p).
Proof. intros I. unfold recordChunkFraming. destruct (_ <=? 0); [done|]. destruct I. by split. Qed.

Lemma inv_set_complete c p : inv c p -> hp_headersComplete p = true -> (hp_isChunked p = false -> hp_remainingBodyBytes p = 0) -> inv c (set_complete p).
Proof. intros [] H D. split; done. Qed.

(** Lines are consumed in the head and between chunks. *)
Lemma inv_consume c p x rest : inv c p -> (hp_headersComplete p = true -> hp_isChunked p = true /\ hp_remainingBodyBytes p <= 0) ->
  inv (c ++ x) (consume (length x) rest p).
Proof.
  intros [I1 I2 I3 I4 I5 Is Ih I6 I7 I8 I9 I10 I11] D. split; cbn [consume hp_Response hp_currentByteIdx hp_headersComplete hp_isChunked hp_complete hp_remainingBodyBytes hp_strictFraming hp_finalChunkSeen hp_chunkNeedsCRLF]; auto.
  - rewrite length_app. lia.
  - intros k v E. destruct (I5 k v E) as (r & ? & ?). exists r. split; [done|]. by apply header_at_app.
  - rewrite length_app. lia.
  - intros H. specialize (I6 H). rewrite length_app. lia.
  - intros H K. destruct (D H). congruence.
  - intros S H K. destruct (I9 S H K) as (R0 & B & O & _). destruct (D H) as [_ R]. assert (E0 : hp_remainingBodyBytes p = 0) by lia. rewrite E0 in *. rewrite Z.add_0_r in *.
    split; [lia|]. split; [rewrite B; f_equal; symmetry; apply (ranges_bytes_app c x (pr_BodyStartIndex (hp_Response p))); [apply I6, H|done]|].
    split; [eapply ordered_mono; [|exact O]; rewrite length_app; lia|]. lia.
Qed.

Lemma parseStatusLine_inv c line p p' : inv c p -> hp_headersComplete p = false -> parseStatusLine line p = Ok p' -> inv c p'.
Proof.
  intros [I1 I2 I3 I4 I5 Is Ih I6 I7 I8 I9 I10 I11] H E. unfold parseStatusLine in E. destruct (cut_byte 32 line) as [[x after]|]; [|done].
  destruct (match cut_byte 32 after with Some (code, message) => (code, Some message) | None => (after, None) end) as [code m].
  destruct (ParseInt 10 code); [|done]. injection E as <-. split; cbn; auto; (congruence || lia).
Qed.

Lemma split_header_ok strict line before value vs : split_header strict line = Ok (Some (before, value, vs)) ->
  exists blank, line = before ++ [58] ++ blank ++ value /\ Forall (fun a => a = 32 \/ a = 9) blank.
Proof.
  unfold split_header. destruct strict; intros E.
  - destruct (cut_byte 58 line) as [[x y]|] eqn:C; [|done]. do 2 inv_guard E. injection E as <- <- <-. destruct (blanks_spec y) as (b & Ey & _ & F).
    exists b. split; [|done]. rewrite (cut_byte_spec _ _ _ _ C). do 2 f_equal. done.
  - destruct (cut_colon_blank line) as [[x y]|] eqn:C; [|done]. injection E as <- <- <-. exists [32]. split; [by apply cut_colon_blank_spec in C|]. constructor; [by left|constructor].
Qed.

Lemma parseHeaderLine_inv c line p p' : inv (c ++ line ++ crlf) p -> hp_headersComplete p = false -> parseHeaderLine line p = Ok p' -> inv (c ++ line ++ crlf) p'.
Proof.
  intros [I1 I2 I3 I4 I5 Is Ih I6 I7 I8 I9 I10 I11] H E. unfold parseHeaderLine in E. inv_bind E. destruct a as [[[before value] vs]|]; [|injection E as <-; by split].
  inv_guard E. injection E as <-. split; cbn; auto; try congruence. intros k v. destruct (decide (to_lower before = k)) as [<-|N].
  - rewrite !lookup_insert_eq. intros [= <-]. eexists. split; [done|]. assert (EL : Z.of_nat (length (c ++ line ++ crlf)) = Z.of_nat (length c) + Z.of_nat (length line) + 2)
      by (rewrite !length_app; cbn; lia). split; [cbn; lia|]. split; [cbn; lia|]. destruct (split_header_ok _ _ _ _ _ E0) as (blank & El & F).
    exists before, blank. split; [|done]. unfold range_bytes. cbn [sr_Start sr_Length]. rewrite I1, EL, Nat2Z.id. replace (Z.to_nat _) with (length c) by lia.
    by rewrite drop_app_length, take_app_length, <- El.
  - rewrite !lookup_insert_ne by done. apply I5.
Qed.

Lemma finishHeaders_inv c p p' : inv c p -> hp_complete p = false -> hp_headersComplete p = false -> finishHeaders p = Ok p' -> inv c p'.
Proof.
  intros [I1 I2 I3 I4 I5 Is Ih I6 I7 I8 I9 I10 I11] C H E. destruct (I4 H) as (K & F & N & B & Cs). unfold finishHeaders in E. rewrite K, F, N, I2, K in E. inv_guard E. inv_bind E.
  assert (HB : forall x, pr_Body (hp_Response p) = drop (Z.to_nat (Z.of_nat (length x))) x) by (intros x; rewrite Nat2Z.id, drop_ge by done; done).
  destruct a; [|destruct (negb (length (default [] (pr_Headers (hp_Response p) !! str "content-length")) =? 0)%nat) eqn:CL].
  - injection E as <-. split; fields; rewrite ?I1; auto; try congruence; try lia. intros _ _ _. rewrite B, Cs. cbn [map concat ordered]. split_and!; (done || lia).
  - inv_guard E. destruct (ParseInt 10 _) as [n|] eqn:PI; [|done]. inv_guard E. injection E as <-. apply Z.ltb_ge in Hguard1. apply negb_true_iff in CL.
    split; fields; rewrite ?I1, ?C; auto; try congruence; try lia.
    intros _ _. split; [apply HB|]. rewrite CL, B, PI. split; [lia|]. cbn [length]. f_equal. lia.
  - injection E as <-. apply negb_false_iff in CL. split; fields; rewrite ?I1, ?C; auto; try congruence; try lia. intros _ _. split; [apply HB|]. by rewrite CL.
Qed.

Lemma head_line_inv c line p p' : inv (c ++ line ++ crlf) p -> hp_complete p = false -> hp_headersComplete p = false -> head_line line p = Ok p' -> inv (c ++ line ++ crlf) p'.
Proof.
  intros I C H. unfold head_line. destruct (_ =? 0); [by apply parseStatusLine_inv|]. destruct (_ =? 0)%nat; [by apply finishHeaders_inv|by apply parseHeaderLine_inv].
Qed.

Lemma chunk_size_line_inv c line p p' : inv c p -> hp_complete p = false -> hp_headersComplete p = true -> hp_isChunked p = true -> hp_finalChunkSeen p = false ->
  hp_chunkNeedsCRLF p = false -> hp_remainingBodyBytes p <= 0 -> chunk_size_line line p = Ok p' -> inv c p'.
Proof.
  intros I C H K F N R E. unfold chunk_size_line in E. destruct (_ && _) eqn:V in E; [done|]. destruct (ParseInt 16 _) as [n|] eqn:PI; [|done]. inv_guard E.
  match type of E with context [recordChunkFraming ?a ?b p] => apply (inv_framing _ _ a b) in I; destruct (recordChunkFraming_keeps a b p) as [f Ef]; rewrite Ef in I, E end.
  match type of E with context [recordChunkFraming ?a ?b (on_response f p)] => apply (inv_framing _ _ a b) in I; destruct (recordChunkFraming_keeps a b (on_response f p)) as [g Eg]; rewrite Eg in I, E end.
  destruct I as [I1 I2 I3 I4 I5 Is Ih I6 I7 I8 I9 I10 I11]. revert I1 I2 I3 I4 I5 Is Ih I6 I7 I8 I9 I10 I11. destruct (Z.eqb_spec n 0) as [-> |Hn]; injection E as <-; fields; intros; split; fields; auto; try congruence.
  - intros S _ _. rewrite S in V. apply negb_false_iff in V. pose proof (chunk_size_nonneg _ _ V PI). destruct (I9 S H K) as (R0 & B & O & _).
    assert (E0 : hp_remainingBodyBytes p = 0) by lia. rewrite E0, Z.add_0_r in O. split; [done|]. rewrite map_app, concat_app. split; [|split].
    + rewrite B. cbn [map concat]. assert (range_bytes c (mkResponseRange (hp_currentByteIdx p) n) = []) as ->; [|by rewrite !app_nil_r].
      unfold range_bytes. cbn [sr_Start sr_Length]. by rewrite I1, Nat2Z.id, (drop_ge c), take_nil by done.
    + apply ordered_app. exists (Z.of_nat (length c)). cbn. rewrite I1. split_and!; (done || lia).
    + intros _. do 2 eexists. split; [reflexivity|]. cbn. rewrite I1. lia.
  - rewrite F, N. done.
Qed.

Lemma bulk_fixed_inv c p b rest : inv c p -> hp_remaining p = b :: rest -> hp_headersComplete p = true -> hp_isChunked p = false -> hp_complete p = false ->
  -1 <= hp_remainingBodyBytes p -> hp_remainingBodyBytes p <> 0 ->
  inv (c ++ [b]) (bulk (if hp_remainingBodyBytes p =? -1 then -1 else hp_remainingBodyBytes p - 1) 1 p).
Proof.
  intros [I1 I2 I3 I4 I5 Is Ih I6 I7 I8 I9 I10 I11] E H K C R0 R1. unfold bulk. rewrite E. split; fields; auto; try congruence.
  - rewrite length_app. cbn. lia.
  - intros k v Ek. destruct (I5 k v Ek) as (r & ? & ?). exists r. split; [done|]. by apply header_at_app.
  - rewrite length_app. lia.
  - intros _. specialize (I6 H). rewrite length_app. lia.
  - intros _ _. destruct (I7 H K) as [B L]. specialize (I6 H). split; [rewrite drop_app_le by lia; cbn [take]; by rewrite <- B|]. cbv zeta in L |- *.
    destruct (_ =? 0)%nat; [by rewrite L|]. destruct L as [L0 L]. rewrite (proj2 (Z.eqb_neq _ _)) by lia. split; [lia|]. rewrite L, length_app. change (length (take 1 (b :: rest))) with 1%nat. f_equal. lia.
  - intros X. specialize (I10 X). rewrite (proj2 (Z.eqb_eq _ _)) by lia. lia.
Qed.

Lemma bulk_chunk_inv c p b rest : inv c p -> hp_remaining p = b :: rest -> hp_headersComplete p = true -> hp_isChunked p = true -> hp_complete p = false ->
  hp_finalChunkSeen p = false -> hp_chunkNeedsCRLF p = false -> 0 < hp_remainingBodyBytes p ->
  let left := hp_remainingBodyBytes p - 1 in
  inv (c ++ [b]) (if 0 <? left then bulk left 1 p else set_chunk_state true (hp_finalChunkSeen p) (bulk left 1 p)).
Proof.
  intros [I1 I2 I3 I4 I5 Is Ih I6 I7 I8 I9 I10 I11] E H K C F N R left.
  assert (X : forall crlf, (crlf = true -> left = 0) -> inv (c ++ [b]) (set_chunk_state crlf (hp_finalChunkSeen p) (bulk left 1 p))).
  { intros cr Hcr. unfold bulk. rewrite E. split; fields; auto; try congruence.
    - rewrite length_app. cbn. lia.
    - intros k v Ek. destruct (I5 k v Ek) as (r & ? & ?). exists r. split; [done|]. by apply header_at_app.
    - rewrite length_app. lia.
    - intros _. specialize (I6 H). rewrite length_app. lia.
    - intros S _ _. destruct (I9 S H K) as (_ & B & O & Lst). destruct (Lst R) as (old & last & Ec & El & Es). rewrite Ec in *. specialize (I6 H).
      apply ordered_app in O as (mid & O1 & O2 & O3 & O4). split; [lia|]. assert (Ll : Z.of_nat (length (c ++ [b])) = Z.of_nat (length c) + 1) by (rewrite length_app; cbn; lia). rewrite Ll.
      split; [|split].
      + rewrite B, !map_app, !concat_app. cbn [map concat]. change (take 1 (b :: rest)) with [b]. rewrite !app_nil_r, <- app_assoc. f_equal.
        * f_equal. symmetry. apply (ranges_bytes_app c [b] (pr_BodyStartIndex (hp_Response p))); [lia|]. eapply ordered_mono; [|exact O1]. lia.
        * assert (0 <= sr_Start last) by (apply ordered_le in O1; lia).
          unfold range_bytes. rewrite (drop_app_le c [b]) by lia.
          rewrite (take_ge (drop _ c)) by (rewrite length_drop; lia). symmetry. apply take_ge. rewrite length_app, length_drop. change (length [b]) with 1%nat. lia.
      + apply ordered_app. exists mid. split_and!; [done..|lia].
      + intros _. exists old, last. split; [done|]. lia.
    - rewrite F. cbn. intros Q. rewrite (Hcr Q). lia. }
  destruct (Z.ltb_spec 0 left).
  - specialize (X false ltac:(done)). unfold set_chunk_state in X. cbn in X. rewrite <- N in X. exact X.
  - apply X. intros _. lia.
Qed.

(** Every step keeps the invariant and consumes a piece of what remains. *)
Lemma parser_step_inv c p p' : inv c p -> step p = Some (Ok p') -> exists x, hp_remaining p = x ++ hp_remaining p' /\ inv (c ++ x) p' /\ hp_strictFraming p' = hp_strictFraming p.
Proof.
  intros I. unfold step. destruct (hp_complete p) eqn:C; [done|]. destruct (hp_headersComplete p) eqn:H; cycle 1.
  { destruct (getLine p) as [[line p1]|] eqn:G; [|done]. intros [= E]. destruct (getLine_shorter _ _ _ G) as (Er & _ & E1). exists (line ++ crlf).
    assert (I1 : inv (c ++ line ++ crlf) p1).
    { rewrite E1. replace (length line + 2)%nat with (length (line ++ crlf)) by (rewrite length_app; done). apply inv_consume; [done|]. congruence. }
    assert (C1 : hp_complete p1 = false) by (by rewrite E1). assert (H1 : hp_headersComplete p1 = false) by (by rewrite E1).
    destruct (head_line_keeps _ _ _ E) as (Rm & _ & S & _). rewrite Rm, S. split; [by rewrite <- app_assoc|]. split; [by eapply head_line_inv|by rewrite E1]. }
  assert (line_inv : forall line p1, getLine p = Some (line, p1) -> hp_isChunked p = true -> hp_remainingBodyBytes p <= 0 ->
    hp_remaining p = (line ++ crlf) ++ hp_remaining p1 /\ inv (c ++ line ++ crlf) p1
    /\ p1 = consume (length line + 2) (hp_remaining p1) p).
  { intros line p1 G K R. destruct (getLine_shorter _ _ _ G) as (Er & _ & E1). split; [by rewrite <- app_assoc|]. split; [|done]. rewrite E1.
    replace (length line + 2)%nat with (length (line ++ crlf)) by (rewrite length_app; done). by apply inv_consume. }
  destruct (hp_isChunked p) eqn:K.
  - unfold step_chunked. destruct (hp_finalChunkSeen p) eqn:F.
    { destruct (getLine p) as [[line p1]|] eqn:G; [|done]. intros [= <-]. destruct (line_inv line p1 eq_refl eq_refl) as (Er & I1 & E1); [apply (iv_rest _ _ I); by rewrite F|].
      exists (line ++ crlf). apply (inv_framing _ _ (hp_currentByteIdx p1 - 2) 2) in I1. destruct (recordChunkFraming_keeps (hp_currentByteIdx p1 - 2) 2 p1) as [f Ef]. rewrite Ef in *.
      destruct (_ =? 0)%nat; [|by split; [|split; [|rewrite E1]]]. split; [done|]. split; [apply inv_set_complete; [done|by rewrite E1|]|by rewrite E1].
      intros X. exfalso. revert X. rewrite E1. cbn. by rewrite K. }
    destruct (hp_chunkNeedsCRLF p) eqn:N.
    { destruct (Nat.ltb_spec (length (hp_remaining p)) 2); [done|]. destruct (negb _) eqn:Q; [done|]. intros [= <-]. apply negb_false_iff, bytes_eqb_spec in Q. exists crlf.
      pose proof (inv_framing _ _ (hp_currentByteIdx p) 2 I) as I'. destruct (recordChunkFraming_keeps (hp_currentByteIdx p) 2 p) as [f Ef]. rewrite Ef in *.
      split; [fields; by rewrite <- Q, take_drop|]. split; [|done]. assert (R : hp_remainingBodyBytes p <= 0) by (apply (iv_rest _ _ I); by rewrite F, N).
      apply (inv_consume _ _ crlf (drop 2 (hp_remaining p))) in I'; [|done]. clear I. revert I'. fields. intros [I1 I2 I3 I4 I5 Is Ih I6 I7 I8 I9 I10 I11]. split; fields; auto. congruence. }
    destruct (Z.ltb_spec 0 (hp_remainingBodyBytes p)) as [R|R].
    { destruct (hp_remaining p) as [|b rest] eqn:Er; [done|]. cbn [length Nat.eqb]. intros [= <-]. exists [b]. pose proof (bulk_chunk_inv c p b rest I Er H K C F N R) as I'. cbv zeta in I'.
      cbn [bulk hp_remainingBodyBytes hp_finalChunkSeen]. change (mkHttp _ _ _ _ _ _ _ _ _ _ _) with (bulk (hp_remainingBodyBytes p - 1) 1 p).
      split; [destruct (0 <? _); cbn; by rewrite Er|]. split; [done|by destruct (0 <? _)]. }
    destruct (getLine p) as [[line p1]|] eqn:G; [|done]. destruct (line_inv line p1 eq_refl eq_refl R) as (Er & I1 & E1). destruct (_ =? 0)%nat.
    { destruct (hp_strictFraming p1); [done|]. intros [= <-]. exists (line ++ crlf). split; [done|]. split; [done|by rewrite E1]. }
    intros [= E]. destruct (chunk_size_line_keeps _ _ _ E) as (Rm & _ & _ & _ & _ & S). exists (line ++ crlf). rewrite Rm. split; [done|]. split.
    + eapply chunk_size_line_inv; [exact I1|rewrite E1; fields; done..|exact E].
    + by rewrite S, E1.
  - unfold step_fixed. destruct (iv_fixed _ _ I H K) as [_ L]. cbv zeta in L. assert (R : -1 <= hp_remainingBodyBytes p) by (destruct (_ =? 0)%nat; lia).
    destruct (Z.eqb_spec (hp_remainingBodyBytes p) 0) as [R0|R0].
    { intros [= <-]. exists []. rewrite app_nil_r. split; [done|]. split; [by apply inv_set_complete|done]. }
    destruct (hp_remaining p) as [|b rest] eqn:Er; [done|]. cbn [length Nat.eqb]. rewrite (proj2 (Z.ltb_ge _ _)) by lia. intros [= <-]. exists [b].
    pose proof (bulk_fixed_inv c p b rest I Er H K C R R0) as I'. set (left := if _ =? -1 then _ else _) in *. destruct (Z.eqb_spec left 0) as [Z0|Z0].
    + split; [cbn; by rewrite Er|]. split; [|done]. apply inv_set_complete; [done|done|]. intros _. exact Z0.
    + split; [cbn; by rewrite Er|]. done.
Qed.
End Positions.

(** ** The calls take the steps *)

Section Calls.
Context {GU : GoUnicode}.

Lemma runs_stuck p p' : runs p (Ok p') -> step p' = None.
Proof. remember (Ok p') as r eqn:E. induction 1 as [p H|p q r H R IH|p e H|p H]; [by injection E as <-|by apply IH|done..]. Qed.

Lemma runs_inv p p' : runs p (Ok p') -> forall c, inv c p -> exists x, hp_remaining p = x ++ hp_remaining p' /\ inv (c ++ x) p' /\ hp_strictFraming p' = hp_strictFraming p.
Proof.
  remember (Ok p') as r eqn:E. induction 1 as [p H|p q r H R IH|p e H|p H]; intros c I; [|subst r|done..].
  - injection E as <-. exists []. by rewrite app_nil_r.
  - destruct (parser_step_inv c p q I H) as (x & Ex & I1 & S1). destruct (IH eq_refl _ I1) as (y & Ey & I2 & S2). exists (x ++ y). rewrite app_assoc, Ex, Ey, <- app_assoc. split; [done|]. split; [done|congruence].
Qed.

Lemma append_append d x p : append_remaining x (append_remaining d p) = append_remaining (d ++ x) p.
Proof. unfold append_remaining. cbn. by rewrite app_assoc. Qed.

Lemma append_nil p : append_remaining [] p = p.
Proof. destruct p. unfold append_remaining. cbn. by rewrite app_nil_r. Qed.

(** More data only adds steps. *)
Lemma runs_app x p r : runs p r -> match r with
  | Ok p' => forall q, runs (append_remaining x p') q -> runs (append_remaining x p) q
  | _ => runs (append_remaining x p) r end.
Proof.
  induction 1 as [p H|p p' r H R IH|p e H|p H]; [done| | |].
  - apply (step_app x) in H. destruct r; [intros q Q|..]; (eapply runs_step; [exact H|]); auto.
  - apply (step_app x) in H. by apply runs_err.
  - apply (step_app x) in H. by apply runs_panic.
Qed.

Lemma processHeaders_inv fuel : forall c p p', inv c p -> hp_complete p = false -> hp_headersComplete p = false -> processHeaders fuel p = Ok p' -> exists c', inv c' p'.
Proof.
  induction fuel as [|fuel IH]; intros c p p' I C H E; [done|]. cbn [processHeaders] in E. destruct (getLine p) as [[line p1]|] eqn:G; [|injection E as <-; by exists c].
  destruct (getLine_shorter _ _ _ G) as (_ & _ & E1).
  assert (I1 : inv (c ++ line ++ crlf) p1).
  { rewrite E1. replace (length line + 2)%nat with (length (line ++ crlf)) by (rewrite length_app; done). apply inv_consume; [done|]. congruence. }
  assert (C1 : hp_complete p1 = false) by (by rewrite E1). assert (H1 : hp_headersComplete p1 = false) by (by rewrite E1). clear E1 G.
  destruct (_ =? 0).
  { inv_bind E. pose proof (parseStatusLine_inv _ _ _ _ I1 H1 E0) as I2. eapply IH; [exact I2| | |exact E].
    - unfold parseStatusLine in E0. repeat case_match; by simplify_eq.
    - unfold parseStatusLine in E0. repeat case_match; by simplify_eq. }
  destruct (_ =? 0)%nat; [exists (c ++ line ++ crlf); by eapply finishHeaders_inv|].
  inv_bind E. pose proof (parseHeaderLine_inv _ _ _ _ I1 H1 E0) as I2. eapply IH; [exact I2| | |exact E].
  - unfold parseHeaderLine in E0. inv_bind E0. repeat case_match; by simplify_eq.
  - unfold parseHeaderLine in E0. inv_bind E0. repeat case_match; by simplify_eq.
Qed.

Lemma body_run c p : inv c p -> hp_headersComplete p = true -> match processBody p with Panic => False | r => runs p r end.
Proof.
  intros I H. unfold processBody. destruct (hp_complete p) eqn:C; [apply runs_end; unfold step; by rewrite C|].
  destruct (hp_isChunked p) eqn:K; [apply chunked_run; [lia|done..]|]. apply fixed_run; [done..|]. destruct (iv_fixed _ _ I H K) as [_ L]. cbv zeta in L. destruct (_ =? 0)%nat; lia.
Qed.

Lemma OnChunk_run c p d : inv c p -> hp_complete p = false -> match OnChunk d p with Panic => False | r => runs (append_remaining d p) r end.
Proof.
  intros I C. unfold OnChunk. rewrite C. apply (inv_append _ _ d) in I. cbv zeta. assert (C1 : hp_complete (append_remaining d p) = false) by done. revert I C1.
  generalize (append_remaining d p). clear p C. intros p I C. destruct (hp_headersComplete p) eqn:H.
  { cbn [mbind res_bind]. rewrite H. by apply (body_run c). }
  pose proof (headers_run _ p (Nat.lt_succ_diag_r _) C H) as HR. destruct (processHeaders _ p) as [p'|e|] eqn:E; [|done..]. cbn [mbind res_bind].
  destruct HR as [[H' R]|[H' R]]; rewrite H'; [done|]. destruct (processHeaders_inv _ _ _ _ I C H E) as [c' I']. pose proof (body_run c' p' I' H') as B.
  destruct (processBody p'); [by apply R..|done].
Qed.

Lemma StreamEnded_no_panic p : StreamEnded p <> Panic.
Proof. unfold StreamEnded. repeat case_match; done. Qed.

(** The pieces and the whole. *)
Lemma pieces_run pieces : Forall (fun d => d <> []) pieces -> forall c p, inv c p -> hp_complete p = false -> step p = None ->
  match on_pieces pieces p with
  | Ok p' => runs (append_remaining (concat pieces) p) (Ok p')
  | Err _ => (exists e, runs (append_remaining (concat pieces) p) (Err e))
             \/ exists q, runs (append_remaining (concat pieces) p) (Ok q) /\ hp_complete q = true /\ hp_remaining q <> []
  | Panic => False
  end.
Proof.
  induction 1 as [|d pieces Hd F IH]; intros c p I C S; cbn [on_pieces concat]; [rewrite append_nil; by apply runs_end|].
  pose proof (OnChunk_run c p d I C) as R. destruct (OnChunk d p) as [p1|e|] eqn:E; [|left; exists e; rewrite <- append_append; by apply (runs_app _ _ _ R)|done].
  cbn [mbind res_bind]. pose proof (runs_app (concat pieces) _ _ R) as A. cbn beta iota in A. rewrite append_append in A.
  destruct (runs_inv _ _ R c (inv_append _ _ d I)) as (x & Ex & I1 & _). destruct (hp_complete p1) eqn:C1.
  - destruct pieces as [|d2 pieces]; cbn [on_pieces]; [cbn [concat]; rewrite app_nil_r; done|]. unfold OnChunk. rewrite C1. right.
    exists (append_remaining (concat (d2 :: pieces)) p1). split; [apply A, runs_end; unfold step; cbn; by rewrite C1|]. split; [done|]. apply Forall_cons in F as [N _].
    cbn. intros X. apply app_eq_nil in X as [_ X]. by apply app_eq_nil in X as [X _].
  - specialize (IH _ p1 I1 C1 (runs_stuck _ _ R)). destruct (on_pieces pieces p1) as [p'|e|]; [by apply A| |done].
    destruct IH as [[e' Q]|(q & Q & D)]; [left; exists e'; by apply A|right; exists q; split; [by apply A|done]].
Qed.

Lemma new_stuck strict : step (newHTTPResponseParser strict) = None.
Proof. done. Qed.

Lemma whole_run strict data : match OnChunk data (newHTTPResponseParser strict) with Panic => False | r => runs (append_remaining data (newHTTPResponseParser strict)) r end.
Proof. apply (OnChunk_run []); [apply inv_new|done]. Qed.

(** C18: Parsing does not depend on how the response was cut.  A response that is accepted in pieces is accepted as a
    whole, with the same parse; with strict framing, one that is accepted as a whole is accepted in whatever nonempty
    pieces it arrives.  Without strict framing the converse does not hold: bytes after the end of the body are passed
    over when they come with it and refused when they come in a piece of their own
    ([overlong_response_depends_on_the_cut]). *)
Theorem parsing_ignores_the_cut strict pieces : Forall (fun d => d <> []) pieces ->
  (forall R, parse_pieces strict pieces = Ok R -> parseHTTPResponseBytesWithFraming (concat pieces) strict = Ok R)
  /\ (strict = true -> forall R, parseHTTPResponseBytesWithFraming (concat pieces) strict = Ok R -> parse_pieces strict pieces = Ok R).
Proof.
  intros F. unfold parse_pieces, parseHTTPResponseBytesWithFraming. pose proof (whole_run strict (concat pieces)) as W.
  pose proof (pieces_run pieces F [] (newHTTPResponseParser strict) (inv_new strict) eq_refl (new_stuck strict)) as P. set (new := newHTTPResponseParser strict) in *.
  destruct (on_pieces pieces new) as [p|e|] eqn:EP; [| |done]; cbn [mbind res_bind].
  - assert (OnChunk (concat pieces) new = Ok p) as ->; [|done]. destruct (OnChunk (concat pieces) new) as [q|e|]; [|by apply (runs_det _ _ P) in W|done].
    apply (runs_det _ _ P) in W. by injection W as ->.
  - split; [done|]. intros St R E. exfalso. destruct P as [[e' Q]|(q & Q & D1 & D2)].
    + destruct (OnChunk (concat pieces) new); [by apply (runs_det _ _ Q) in W|done..].
    + destruct (OnChunk (concat pieces) new) as [q'|e'|]; [|done..]. apply (runs_det _ _ Q) in W. injection W as <-. cbn [mbind res_bind] in E.
      destruct (runs_inv _ _ Q [] (inv_append _ _ _ (inv_new strict))) as (x & _ & I & S). cbn [append_remaining hp_strictFraming] in S. subst strict. unfold new in S. cbn in S.
      pose proof (iv_complete _ _ I D1) as H. inv_bind E. unfold StreamEnded in E0. rewrite S, H, D1 in E0. cbn [negb andb] in E0. inv_guard E0. inv_guard E0. inv_guard E0.
      rewrite andb_false_r in E0. destruct (hp_remaining q) as [|b rest]; [done|]. cbn [length Nat.eqb] in E0.
      assert (R0 : hp_remainingBodyBytes q =? -1 = false).
      { apply Z.eqb_neq. destruct (hp_isChunked q) eqn:K; [|rewrite (iv_done _ _ I D1 K); done]. destruct (iv_chunks _ _ I S H K) as (? & _). lia. }
      rewrite R0 in E0. by destruct (hp_isChunked q).
Qed.

Lemma pieces_inv pieces : forall c p, inv c p -> match on_pieces pieces p with
  | Ok p' => exists x, hp_remaining p ++ concat pieces = x ++ hp_remaining p' /\ inv (c ++ x) p' /\ hp_strictFraming p' = hp_strictFraming p
  | Err _ => True
  | Panic => False
  end.
Proof.
  induction pieces as [|d pieces IH]; intros c p I; cbn [on_pieces concat]; [exists []; by rewrite !app_nil_r|].
  destruct (hp_complete p) eqn:C; [unfold OnChunk; by rewrite C|]. pose proof (OnChunk_run c p d I C) as R. destruct (OnChunk d p) as [p1|e|]; [|done..]. cbn [mbind res_bind].
  destruct (runs_inv _ _ R c (inv_append _ _ d I)) as (x & Ex & I1 & S1). specialize (IH _ p1 I1). destruct (on_pieces pieces p1) as [p'|e|]; [|done..].
  destruct IH as (y & Ey & I2 & S2). exists (x ++ y). rewrite app_assoc. cbn in Ex. rewrite app_assoc, Ex, <- !app_assoc, Ey. split; [done|]. split; [by rewrite app_assoc|]. rewrite S2. apply S1.
Qed.

(** Where the head of an accepted response ends. *)
Lemma parse_head_layout data strict R : parseHTTPResponseBytesWithFraming data strict = Ok R ->
  pr_HeaderEndIdx R = pr_BodyStartIndex R - 4 /\ pr_StatusLineEndIndex R < pr_BodyStartIndex R.
Proof.
  unfold parseHTTPResponseBytesWithFraming. pose proof (whole_run strict data) as W. destruct (OnChunk data _) as [p|e|]; cbn [mbind res_bind]; [|done..]. intros E.
  destruct (runs_inv _ _ W [] (inv_append _ _ _ (inv_new strict))) as (x & _ & I & _). inv_bind E. injection E as <-. rename E0 into E. unfold StreamEnded in E.
  do 5 inv_guard E. apply negb_false_iff in Hguard. pose proof (iv_head _ _ I Hguard) as L. repeat case_match; simplify_eq; exact L.
Qed.

(** C19: The parser always comes to an end.  Whatever pieces it is fed, the loops over lines and chunks take no more turns
    than there are bytes, no slice is taken out of bounds, and the call returns a response or an error. *)
Theorem parser_always_ends strict pieces : (exists R, parse_pieces strict pieces = Ok R) \/ (exists e, parse_pieces strict pieces = Err e).
Proof.
  unfold parse_pieces. pose proof (pieces_inv pieces [] (newHTTPResponseParser strict) (inv_new strict)) as P.
  destruct (on_pieces pieces _) as [p|e|]; cbn [mbind res_bind]; [|right; eauto|done].
  destruct (StreamEnded p) as [q|e|] eqn:E; [left; by eexists|right; by eexists|by apply StreamEnded_no_panic in E].
Qed.

Lemma strict_parse_layout pieces R : parse_pieces true pieces = Ok R ->
  let input := concat pieces in
  (forall k v, pr_Headers R !! k = Some v -> exists r, pr_HeaderLowerToRanges R !! k = Some r /\ header_at input k v r)
  /\ 0 <= pr_BodyStartIndex R <= Z.of_nat (length input)
  /\ (if pr_Chunked R then pr_Body R = concat (map (range_bytes input) (pr_Chunks R)) /\ ordered (pr_BodyStartIndex R) (pr_Chunks R) (Z.of_nat (length input))
      else pr_Chunks R = [] /\ pr_Body R = drop (Z.to_nat (pr_BodyStartIndex R)) input
           /\ (forall cl, pr_Headers R !! str "content-length" = Some cl -> cl <> [] -> ParseInt 10 cl = Some (Z.of_nat (length (pr_Body R))))).
Proof.
  unfold parse_pieces. pose proof (pieces_inv pieces [] (newHTTPResponseParser true) (inv_new true)) as P. destruct (on_pieces pieces _) as [p|e|]; cbn [mbind res_bind]; [|done..].
  destruct P as (x & Ex & I & S). cbn in Ex, S, I. intros E. inv_bind E. injection E as <-. rename E0 into E. unfold StreamEnded in E. rewrite S in E.
  do 2 inv_guard E. apply negb_false_iff in Hguard. rename Hguard into H. apply Z.ltb_ge in Hguard0. cbn [andb] in E. do 3 inv_guard E. destruct I as [I1 I2 I3 I4 I5 Is Ih I6 I7 I8 I9 I10 I11].
  assert (X : concat pieces = x ++ hp_remaining p) by done. rewrite X. cbv zeta.
  assert (HD : forall k v, pr_Headers (hp_Response p) !! k = Some v -> exists r, pr_HeaderLowerToRanges (hp_Response p) !! k = Some r /\ header_at (x ++ hp_remaining p) k v r)
    by (intros k v Ek; destruct (I5 k v Ek) as (r & ? & ?); exists r; split; [done|by apply header_at_app]).
  assert (BS : 0 <= pr_BodyStartIndex (hp_Response p) <= Z.of_nat (length (x ++ hp_remaining p))) by (specialize (I6 H); rewrite length_app; lia).
  destruct (Nat.eqb_spec (length (hp_remaining p)) 0) as [L|L].
  { injection E as <-. apply nil_length_inv in L. rewrite L, app_nil_r in *. fields. split; [done|]. split; [done|]. rewrite I2. destruct (hp_isChunked p) eqn:K.
    - destruct (I9 S H eq_refl) as (R0 & B & O & _). replace (hp_remainingBodyBytes p) with 0 in O by lia. by rewrite Z.add_0_r in O.
    - specialize (I11 eq_refl). destruct (I7 H eq_refl) as [B C]. split; [done|]. split; [done|]. cbv zeta in C. intros cl Ecl Ncl. rewrite Ecl in C. change (default [] (Some cl)) with cl in C. rewrite (proj2 (Nat.eqb_neq _ _)) in C by (by destruct cl).
      destruct C as [C0 C]. rewrite C. f_equal. lia. }
  destruct (Z.eqb_spec (hp_remainingBodyBytes p) (-1)) as [R1|R1]; [|by destruct (hp_isChunked p)].
  injection E as <-. fields. split; [done|]. split; [done|]. rewrite I2. destruct (hp_isChunked p) eqn:K.
  - destruct (I9 S H eq_refl) as (R0 & _). lia.
  - specialize (I11 eq_refl). destruct (I7 H eq_refl) as [B C]. split; [done|]. specialize (I6 H). split; [rewrite drop_app_le by lia; by rewrite <- B|]. cbv zeta in C. intros cl Ecl Ncl. rewrite Ecl in C. change (default [] (Some cl)) with cl in C.
    rewrite (proj2 (Nat.eqb_neq _ _)) in C by (by destruct cl). lia.
Qed.

(** C17: What a strict parse says of a response is there.  If a response is accepted, in whatever pieces, every header it
    reports is a line of the response at the range it gives, with that name and that value; the body starts inside the
    response; a chunked body is the concatenation of the bytes at the chunk ranges, which are in order and inside the
    response; any other body is everything after the head, and as long as its Content-Length says. *)
Theorem strict_parse_points_at_the_bytes pieces R : parse_pieces true pieces = Ok R ->
  let input := concat pieces in
  (forall k v, pr_Headers R !! k = Some v -> exists r, pr_HeaderLowerToRanges R !! k = Some r /\ header_at input k v r)
  /\ 0 <= pr_BodyStartIndex R <= Z.of_nat (length input)
  /\ (if pr_Chunked R then pr_Body R = concat (map (range_bytes input) (pr_Chunks R)) /\ ordered (pr_BodyStartIndex R) (pr_Chunks R) (Z.of_nat (length input))
      else pr_Body R = drop (Z.to_nat (pr_BodyStartIndex R)) input
           /\ (forall cl, pr_Headers R !! str "content-length" = Some cl -> cl <> [] -> ParseInt 10 cl = Some (Z.of_nat (length (pr_Body R))))).
Proof.
  intros E. destruct (strict_parse_layout _ _ E) as (H & B & L). cbv zeta. split; [done|]. split; [done|]. by destruct (pr_Chunked R); [|destruct L].
Qed.
End Calls.

(** ** Concrete responses *)

Definition ascii_unicode : GoUnicode := {| unicode_ToLower := lower_string; unicode_EqualFold := fun s t => String.eqb (lower_string s) (lower_string t) |}.

Definition chunked_response : bytes :=
  http_lines ["HTTP/1.1 200 OK"; "Transfer-Encoding: chunked"; ""; "3"; "abc"; "2;x=y"; "de"; "0"; ""].

Definition chunked_pieces : list bytes := [take 20 chunked_response; take 30 (drop 20 chunked_response); drop 50 chunked_response].

Lemma parsing_ignores_the_cut_witness :
  (forall R, @parse_pieces ascii_unicode true chunked_pieces = Ok R -> @parseHTTPResponseBytesWithFraming ascii_unicode (concat chunked_pieces) true = Ok R)
  /\ (true = true -> forall R, @parseHTTPResponseBytesWithFraming ascii_unicode (concat chunked_pieces) true = Ok R -> @parse_pieces ascii_unicode true chunked_pieces = Ok R).
Proof. apply (@parsing_ignores_the_cut ascii_unicode true chunked_pieces). repeat constructor; discriminate. Defined.

Definition chunked_parse : HTTPParsedResponse :=
  match @parse_pieces ascii_unicode true chunked_pieces with Ok R => R | _ => hp_Response (newHTTPResponseParser true) end.

Lemma strict_parse_points_at_the_bytes_witness :
  pr_Body chunked_parse = str "abcde" /\ pr_Body chunked_parse = concat (map (range_bytes (concat chunked_pieces)) (pr_Chunks chunked_parse)).
Proof.
  split; [by vm_compute|]. destruct (@strict_parse_points_at_the_bytes ascii_unicode chunked_pieces chunked_parse) as (_ & _ & B); [by vm_compute|].
  change (pr_Chunked chunked_parse) with true in B. exact (proj1 B).
Defined.

(** Without strict framing a chunk of size -1 is accepted, and what follows its size line is taken for the body to the end. *)
Definition negative_chunk_response : bytes := http_lines ["HTTP/1.1 200 OK"; "Transfer-Encoding: chunked"; ""; "-1"] ++ str "0".

Lemma negative_chunk_is_read_to_the_end :
  match @parseHTTPResponseBytesWithFraming ascii_unicode negative_chunk_response false with
  | Ok R => Some (pr_Body R, map (fun r => (sr_Start r, sr_Length r)) (pr_Chunks R), pr_Complete R) | _ => None end
  = Some (str "0", [(51, -1)], true).
Proof. by vm_compute. Qed.

(** Without strict framing a byte after the announced body is passed over when it comes with the body, and refused in
    a piece of its own. *)
Definition overlong_response : bytes := http_lines ["HTTP/1.1 200 OK"; "Content-Length: 1"; ""] ++ str "a".

Lemma overlong_response_depends_on_the_cut :
  match @parseHTTPResponseBytesWithFraming ascii_unicode (overlong_response ++ str "b") false with Ok R => Some (pr_Body R) | _ => None end
    = Some (str "a")
  /\ match @parse_pieces ascii_unicode false [overlong_response; str "b"] with Err _ => True | _ => False end.
Proof. split; by vm_compute. Qed.
