(* ===== verification/ResponseRedactions.v ===== *)
(** * What of a response is redacted ([providers/response.go], [providers/http.go])

    The client computes which bytes of a response it redacts: everything but
    the status line, a few headers and the values the provider selects.  The
    selection itself (XPath, JSONPath, regular expressions, character sets) is
    an argument; so is the sort of [sort.Slice], of which only is known that it
    sorts. *)

From Stdlib Require Import Permutation.
From S2P Require Import Prelude Bytes Crypto CipherSuite SplitAead Redaction Response GoStrings Transport RequestFormat HttpParser.
From stdpp Require Import list sorting.
Open Scope Z_scope.

(** [shared.ResponseRedactionRange] with its hash. *)
Record Reveal := mkReveal { rv_Start : Z; rv_Length : Z; rv_Hash : string }.

Definition rv_End (r : Reveal) : Z := rv_Start r + rv_Length r.
Definition plain (r : ResponseRedactionRange) : Reveal := mkReveal (sr_Start r) (sr_Length r) "".

(** ** From positions of the body to positions of the response *)

Fixpoint start_loop (pos chunkBodyStart : Z) (chunks : list ResponseRedactionRange) : Z :=
  match chunks with
  | [] => -1
  | ch :: chunks =>
      let chunkSize := sr_Length ch in
      if (chunkBodyStart <=? pos) && (pos <? chunkBodyStart + chunkSize) then pos - chunkBodyStart + sr_Start ch else
      if pos =? chunkBodyStart + chunkSize then match chunks with next :: _ => sr_Start next | [] => sr_Start ch + sr_Length ch end else
      start_loop pos (chunkBodyStart + chunkSize) chunks
  end.

Definition convertResponseStartPosToAbsolute (pos bodyStartIdx : Z) (chunks : list ResponseRedactionRange) : Z :=
  if (0 <? length chunks)%nat then start_loop pos 0 chunks else bodyStartIdx + pos.

Fixpoint end_loop (pos chunkBodyStart : Z) (chunks : list ResponseRedactionRange) : Z :=
  match chunks with
  | [] => -1
  | ch :: chunks =>
      let chunkBodyEnd := chunkBodyStart + sr_Length ch in
      if (chunkBodyStart <=? pos) && (pos <=? chunkBodyEnd) then sr_Start ch + (pos - chunkBodyStart) else end_loop pos chunkBodyEnd chunks
  end.

Definition convertResponseEndPosToAbsolute (pos bodyStartIdx : Z) (chunks : list ResponseRedactionRange) : Z :=
  if (0 <? length chunks)%nat then end_loop pos 0 chunks else bodyStartIdx + pos.

Definition getReveal (startIdx len bodyStartIdx : Z) (resChunks : list ResponseRedactionRange) (hash : string) : Reveal :=
  let from := convertResponseStartPosToAbsolute startIdx bodyStartIdx resChunks in
  let to := convertResponseEndPosToAbsolute (startIdx + len) bodyStartIdx resChunks in
  mkReveal from (to - from) hash.

(** The loop over [chunks[1:]] with the chunk before each. *)
Fixpoint header_redactions (from to : Z) (previous : ResponseRedactionRange) (chunks : list ResponseRedactionRange) : list Reveal :=
  match chunks with
  | [] => []
  | ch :: chunks =>
      let previousEnd := sr_Start previous + sr_Length previous in
      (if (from <? sr_Start ch) && (sr_Start ch <? to) then [mkReveal previousEnd (sr_Start ch - previousEnd) ""] else [])
      ++ header_redactions from to ch chunks
  end.

Definition getRedactionsForChunkHeaders (from to : Z) (chunks : list ResponseRedactionRange) : list Reveal :=
  match chunks with [] => [] | ch :: chunks => header_redactions from to ch chunks end.

(** ** Sets of positions *)

Section Sorting.
Variable sort : (Reveal -> Z) -> list Reveal -> list Reveal.

(** The loop over the sorted ranges that may stay. *)
Fixpoint metadata_loop (bodyStart responseEnd cursor : Z) (allowed : list Reveal) : list Reveal :=
  match allowed with
  | [] => if cursor <? responseEnd then [mkReveal cursor (responseEnd - cursor) ""] else []
  | item :: allowed =>
      let start := Z.max (rv_Start item) bodyStart in
      let end_ := Z.min (rv_End item) responseEnd in
      if (end_ <=? cursor) || (responseEnd <=? start) then metadata_loop bodyStart responseEnd cursor allowed else
      (if cursor <? start then [mkReveal cursor (start - cursor) ""] else [])
      ++ metadata_loop bodyStart responseEnd (if cursor <? end_ then end_ else cursor) allowed
  end.

Definition chunkMetadataRedactions (bodyStart responseEnd : Z) (chunks framing : list Reveal) : list Reveal :=
  metadata_loop bodyStart responseEnd bodyStart (sort rv_Start (chunks ++ framing)).

(** The pieces of one reveal that no exclusion meets. *)
Fixpoint subtract_loop (cursor end_ : Z) (hash : string) (exclusions : list Reveal) : list Reveal :=
  match exclusions with
  | [] => if cursor <? end_ then [mkReveal cursor (end_ - cursor) hash] else []
  | e :: exclusions =>
      if rv_End e <=? cursor then subtract_loop cursor end_ hash exclusions else
      if end_ <=? rv_Start e then (if cursor <? end_ then [mkReveal cursor (end_ - cursor) hash] else []) else
      (if cursor <? rv_Start e then [mkReveal cursor (rv_Start e - cursor) hash] else [])
      ++ (let cursor := if cursor <? rv_End e then rv_End e else cursor in
          if end_ <=? cursor then [] else subtract_loop cursor end_ hash exclusions)
  end.

Definition subtractRevealRanges (reveals exclusions : list Reveal) : list Reveal :=
  if (length exclusions =? 0)%nat then reveals else
  let exclusions := sort rv_Start exclusions in
  concat (map (fun r => subtract_loop (rv_Start r) (rv_End r) (rv_Hash r) exclusions) reveals).

(** The complement of the reveals, which are sorted by their start. *)
Fixpoint complement_loop (n currentIndex : Z) (reveals : list Reveal) : list Reveal :=
  match reveals with
  | [] => if currentIndex <? n then [mkReveal currentIndex (n - currentIndex) ""] else []
  | r :: reveals =>
      (if currentIndex <? rv_Start r then [mkReveal currentIndex (rv_Start r - currentIndex) ""] else [])
      ++ complement_loop n (if currentIndex <? rv_End r then rv_End r else currentIndex) reveals
  end.

(** The older clients: sorted by end; [lastChunkEnd] when the response is chunked. *)
Fixpoint legacy_loop (n currentIndex : Z) (lastChunkEnd : option Z) (reveals : list Reveal) : list Reveal :=
  match reveals with
  | [] => if currentIndex <? n then [mkReveal currentIndex (n - currentIndex) ""] else []
  | r :: reveals =>
      (if currentIndex <? rv_Start r then [mkReveal currentIndex (rv_Start r - currentIndex) ""] else [])
      ++ (let currentIndex := rv_End r in
          let currentIndex := match lastChunkEnd, reveals with
                              | Some e, [] => if (currentIndex =? e) && (currentIndex <? n) then n else currentIndex
                              | _, _ => currentIndex
                              end in
          legacy_loop n currentIndex lastChunkEnd reveals)
  end.

(** ** The redactions of a response *)

Record ProviderCtx := mkCtx { cx_Version : Z; cx_TLS12CBC : bool }.

Definition ATTESTOR_VERSION_2_0_1 : Z := 4.
Definition ATTESTOR_VERSION_3_2_0 : Z := 7.
Definition shouldRevealCrlf (ctx : ProviderCtx) : bool := ATTESTOR_VERSION_2_0_1 <=? cx_Version ctx.
Definition shouldRevealChunkFraming (ctx : ProviderCtx) : bool := ATTESTOR_VERSION_3_2_0 <=? cx_Version ctx.

(** The gaps between and around the chunks. *)
Fixpoint chunk_gaps (n prev : Z) (chunks : list ResponseRedactionRange) : list Reveal :=
  match chunks with
  | [] => if prev <? n then [mkReveal prev (n - prev) ""] else []
  | ch :: chunks => (if prev <? sr_Start ch then [mkReveal prev (sr_Start ch - prev) ""] else []) ++ chunk_gaps n (sr_Start ch + sr_Length ch) chunks
  end.

Definition header_range (res : HTTPParsedResponse) (name : string) : list Reveal :=
  match pr_HeaderLowerToRanges res !! str name with Some r => if 0 <? sr_Length r then [plain r] else [] | None => [] end.

(** What is revealed of the head. *)
Definition head_reveals (ctx : ProviderCtx) (res : HTTPParsedResponse) : list Reveal :=
  let headerEndIndex := pr_StatusLineEndIndex res in
  [mkReveal 0 headerEndIndex ""]
  ++ (if cx_TLS12CBC ctx then mkReveal headerEndIndex 2 "" :: map plain (pr_HeaderFraming res) else [])
  ++ [mkReveal (pr_HeaderEndIdx res) 4 ""]
  ++ header_range res "date" ++ header_range res "content-type"
  ++ (if shouldRevealChunkFraming ctx then header_range res "transfer-encoding" ++ (if cx_TLS12CBC ctx then header_range res "content-length" else []) else []).

(** All reveals, the framing of the chunks included. *)
Definition all_reveals (ctx : ProviderCtx) (res : HTTPParsedResponse) (n : Z) (items : list (Reveal * list Reveal)) : list Reveal :=
  let reveals := head_reveals ctx res ++ map fst items in
  let revealFraming := shouldRevealChunkFraming ctx in
  if revealFraming && cx_TLS12CBC ctx && pr_Chunked res then
    subtractRevealRanges (reveals ++ map plain (pr_ChunkFraming res))
      (chunkMetadataRedactions (pr_BodyStartIndex res) n (map plain (pr_Chunks res)) (map plain (pr_ChunkFraming res)))
  else if revealFraming && (0 <? length (pr_Chunks res))%nat then reveals ++ chunk_gaps n (pr_HeaderEndIdx res + 4) (pr_Chunks res)
  else reveals.

Definition last_chunk_end (res : HTTPParsedResponse) : option Z := (fun ch => sr_Start ch + sr_Length ch) <$> last (pr_Chunks res).

Definition redact (ctx : ProviderCtx) (res : HTTPParsedResponse) (n : Z) (items : list (Reveal * list Reveal)) : list Reveal :=
  let reveals := all_reveals ctx res n items in
  let redactions := concat (map snd items) in
  let reveals := sort (if shouldRevealChunkFraming ctx then rv_Start else rv_End) reveals in
  let gaps := if (1 <? length reveals)%nat then
                if shouldRevealChunkFraming ctx then complement_loop n 0 reveals else legacy_loop n 0 (last_chunk_end res) reveals
              else [] in
  sort rv_End (redactions ++ gaps ++ filter (fun r => rv_Hash r <> ""%string) reveals).

Section Response.
Context {GU : GoUnicode}.

(** [rules]: the number of redaction rules; [substitute]: the provider's parameters with their placeholders filled in;
    [process]: what they select in the parsed response, in order, with the redactions inside each selection. *)
Definition GetResponseRedactions {params} (response : bytes) (ctx : ProviderCtx) (rules : nat) (substitute : res params)
    (process : params -> HTTPParsedResponse -> res (list (Reveal * list Reveal))) : res (list Reveal) :=
  R ← parseHTTPResponseBytesWithFraming response (cx_TLS12CBC ctx);
  if (rules =? 0)%nat then Ok [] else
  fail_if (negb (Z.quot (pr_StatusCode R) 100 =? 2)) "expected status 2xx";;
  params ← substitute;
  fail_if (pr_BodyStartIndex R <? 4) "Failed to find response body";;
  fail_if (shouldRevealCrlf ctx && ((pr_HeaderEndIdx R <? 0) || (Z.of_nat (length response) <? pr_HeaderEndIdx R + 4))) "Failed to find header/body separator";;
  fail_if (shouldRevealCrlf ctx && negb (bytes_eqb (slice response (Z.to_nat (pr_HeaderEndIdx R)) (Z.to_nat (pr_HeaderEndIdx R + 4))) (crlf ++ crlf)))
    "Failed to find header/body separator";;
  items ← process params R;
  Ok (redact ctx R (Z.of_nat (length response)) items).
End Response.

(** ** What is covered *)

Definition covered (p : Z) (rs : list Reveal) : Prop := Exists (fun r => rv_Start r <= p < rv_End r) rs.

Lemma covered_nil p : covered p [] <-> False.
Proof. apply Exists_nil. Qed.

Lemma covered_cons p r rs : covered p (r :: rs) <-> rv_Start r <= p < rv_End r \/ covered p rs.
Proof. apply Exists_cons. Qed.

Lemma covered_app p rs rs' : covered p (rs ++ rs') <-> covered p rs \/ covered p rs'.
Proof. apply Exists_app. Qed.

Lemma covered_perm p rs rs' : rs ≡ₚ rs' -> covered p rs <-> covered p rs'.
Proof. unfold covered. intros P. by rewrite P. Qed.

Lemma covered_range p a b h : covered p (if a <? b then [mkReveal a (b - a) h] else []) <-> a <= p < b.
Proof. unfold covered. destruct (Z.ltb_spec a b); [rewrite Exists_cons, Exists_nil; unfold rv_End; cbn; split; [intros [?|[]]; lia|intros ?; left; lia]|rewrite Exists_nil; split; [done|lia]]. Qed.

Definition by_start : list Reveal -> Prop := StronglySorted (fun a b => rv_Start a <= rv_Start b).

Lemma before_all p r rs : by_start (r :: rs) -> p < rv_Start r -> ~ covered p rs.
Proof.
  intros S L C. apply StronglySorted_inv in S as [_ F]. unfold covered in C. apply Exists_exists in C as (x & Hx & B). rewrite Forall_forall in F. specialize (F x Hx). lia.
Qed.

Lemma complement_loop_spec n p rs : p < n -> forall cur, by_start rs -> covered p (complement_loop n cur rs) <-> cur <= p /\ ~ covered p rs.
Proof.
  intros N. induction rs as [|r rs IH]; intros cur S; cbn [complement_loop]; [rewrite covered_range, covered_nil; lia|].
  pose proof (before_all p r rs S) as B. apply StronglySorted_inv in S as [S _]. rewrite covered_app, covered_range, covered_cons, IH by done.
  destruct (Z.ltb_spec cur (rv_End r)); split; intros; destruct (decide (p < rv_Start r)); intuition lia.
Qed.

Lemma subtract_loop_spec p h end_ ex : forall cur, by_start ex -> covered p (subtract_loop cur end_ h ex) <-> cur <= p < end_ /\ ~ covered p ex.
Proof.
  induction ex as [|e ex IH]; intros cur S; cbn [subtract_loop]; [rewrite covered_range, covered_nil; lia|].
  pose proof (before_all p e ex S) as B. apply StronglySorted_inv in S as [S _]. rewrite covered_cons.
  destruct (Z.leb_spec (rv_End e) cur); [rewrite IH by done; intuition lia|].
  destruct (Z.leb_spec end_ (rv_Start e)); [rewrite covered_range; destruct (decide (p < rv_Start e)); intuition lia|].
  rewrite covered_app, covered_range. cbv zeta. rewrite (proj2 (Z.ltb_lt cur (rv_End e))) by done.
  destruct (Z.leb_spec end_ (rv_End e)); [rewrite covered_nil|rewrite IH by done]; destruct (decide (p < rv_Start e)); intuition lia.
Qed.

Lemma metadata_loop_spec p bodyStart E allowed : forall cur, bodyStart <= cur -> by_start allowed ->
  covered p (metadata_loop bodyStart E cur allowed) <-> cur <= p < E /\ ~ covered p allowed.
Proof.
  induction allowed as [|r rs IH]; intros cur L S; cbn [metadata_loop]; [rewrite covered_range, covered_nil; lia|].
  pose proof (before_all p r rs S) as B. apply StronglySorted_inv in S as [S _]. rewrite covered_cons.
  destruct ((Z.min (rv_End r) E <=? cur) || (E <=? Z.max (rv_Start r) bodyStart)) eqn:Q.
  - rewrite IH by done. apply orb_true_iff in Q as [Q%Z.leb_le|Q%Z.leb_le]; intuition lia.
  - apply orb_false_iff in Q as [Q1%Z.leb_gt Q2%Z.leb_gt]. rewrite (proj2 (Z.ltb_lt cur (Z.min (rv_End r) E))) by done. rewrite covered_app, covered_range, IH by (done || lia).
    destruct (decide (p < rv_Start r)); intuition lia.
Qed.

(** The older clients redact everything that is not revealed up to the last chunk's end. *)
Lemma legacy_loop_spec n p e rs : p < n -> match e with Some e => p < e | None => True end ->
  forall cur, cur <= p -> ~ covered p rs -> covered p (legacy_loop n cur e rs).
Proof.
  intros N Le. induction rs as [|r rs IH]; intros cur L C; cbn [legacy_loop]; [by rewrite covered_range|].
  rewrite covered_cons in C. rewrite covered_app, covered_range. destruct (decide (cur <= p < rv_Start r)); [by left|right]. cbv zeta.
  apply IH; [|tauto]. assert (E : rv_End r <= p) by (apply Z.le_ngt; intros ?; apply C; left; lia).
  destruct e as [e|]; [|done]. destruct rs; [|done]. destruct (Z.eqb_spec (rv_End r) e); cbn [andb]; [lia|done].
Qed.

Hypothesis sort_perm : forall key l, sort key l ≡ₚ l.
Hypothesis sort_sorted : forall key l, StronglySorted (fun a b => key a <= key b) (sort key l).

Lemma chunkMetadataRedactions_spec p bodyStart E chunks framing :
  covered p (chunkMetadataRedactions bodyStart E chunks framing) <-> bodyStart <= p < E /\ ~ covered p chunks /\ ~ covered p framing.
Proof.
  unfold chunkMetadataRedactions. rewrite metadata_loop_spec by (done || apply sort_sorted). rewrite (covered_perm _ _ _ (sort_perm _ _)), covered_app. tauto.
Qed.

(** Subtraction takes the exclusions off the reveals of each kind of hash. *)
Lemma subtract_loop_hash cur end_ h ex : Forall (fun r => rv_Hash r = h) (subtract_loop cur end_ h ex).
Proof.
  revert cur. induction ex as [|e ex IH]; intros cur; cbn [subtract_loop]; [destruct (_ <? _); by constructor|].
  repeat case_match; cbn [app]; repeat constructor; auto.
Qed.

Section Filtered.
Context (P : string -> Prop) `{!forall h, Decision (P h)}.

Lemma filter_hash h rs : Forall (fun r => rv_Hash r = h) rs -> filter (fun r => P (rv_Hash r)) rs = if decide (P h) then rs else [].
Proof.
  induction 1 as [|r rs E F IH]; [by destruct (decide _)|]. rewrite filter_cons, E, IH. by destruct (decide (P h)).
Qed.

Lemma subtractRevealRanges_spec p reveals ex :
  covered p (filter (fun r => P (rv_Hash r)) (subtractRevealRanges reveals ex)) <-> covered p (filter (fun r => P (rv_Hash r)) reveals) /\ ~ covered p ex.
Proof.
  unfold subtractRevealRanges. destruct ex as [|e ex0]; [cbn [length Nat.eqb]; rewrite covered_nil; tauto|]. cbn [length Nat.eqb]. set (ex := e :: ex0). cbv zeta.
  induction reveals as [|r reveals IH]; [cbn; rewrite covered_nil; tauto|]. cbn [map concat]. rewrite filter_app, covered_app, IH, filter_cons.
  rewrite (filter_hash (rv_Hash r)) by apply subtract_loop_hash. destruct (decide (P (rv_Hash r))); [|rewrite covered_nil; tauto].
  rewrite covered_cons, subtract_loop_spec by apply sort_sorted. rewrite (covered_perm _ _ _ (sort_perm _ _)). tauto.
Qed.
End Filtered.

Lemma subtracted p reveals ex : covered p (subtractRevealRanges reveals ex) <-> covered p reveals /\ ~ covered p ex.
Proof.
  assert (A : forall rs : list Reveal, filter (fun r => True) rs = rs) by (induction rs as [|r rs IH]; [done|]; rewrite filter_cons_True by done; by rewrite IH).
  pose proof (subtractRevealRanges_spec (fun _ => True) p reveals ex) as E. by rewrite !A in E.
Qed.

Lemma plain_unhashed rs : Forall (fun r => rv_Hash r = ""%string) (map plain rs).
Proof. induction rs; by constructor. Qed.

Lemma head_unhashed ctx R : Forall (fun r => rv_Hash r = ""%string) (head_reveals ctx R).
Proof.
  assert (H : forall n, Forall (fun r => rv_Hash r = ""%string) (header_range R n)) by (intros n; unfold header_range; repeat case_match; by repeat constructor).
  unfold head_reveals. repeat case_match; repeat (apply Forall_app; split); repeat constructor; auto using plain_unhashed.
Qed.

Lemma gaps_unhashed n chunks : forall prev, Forall (fun r => rv_Hash r = ""%string) (chunk_gaps n prev chunks).
Proof. induction chunks as [|c chunks IH]; intros prev; cbn [chunk_gaps]; [case_match; by repeat constructor|]. apply Forall_app. split; [case_match; by repeat constructor|apply IH]. Qed.

(** The bytes some reveal asks for and the framing rules let through. *)
Definition shown (ctx : ProviderCtx) (R : HTTPParsedResponse) (n : Z) (items : list (Reveal * list Reveal)) (p : Z) : Prop :=
  let asked := covered p (head_reveals ctx R ++ map fst items) in
  if cx_TLS12CBC ctx && pr_Chunked R then
    let framing := covered p (map plain (pr_ChunkFraming R)) in
    (asked \/ framing) /\ (p < pr_BodyStartIndex R \/ covered p (map plain (pr_Chunks R)) \/ framing)
  else asked \/ ((0 < length (pr_Chunks R))%nat /\ covered p (chunk_gaps n (pr_HeaderEndIdx R + 4) (pr_Chunks R))).

Definition hashed (rs : list Reveal) : list Reveal := filter (fun r => rv_Hash r <> ""%string) rs.

Lemma unhashed rs : Forall (fun r => rv_Hash r = ""%string) rs -> hashed rs = [].
Proof. intros F. etransitivity; [exact (filter_hash (fun h => h <> ""%string) ""%string rs F)|]. by destruct (decide _). Qed.

Lemma hashed_subtracted p reveals ex : covered p (hashed (subtractRevealRanges reveals ex)) <-> covered p (hashed reveals) /\ ~ covered p ex.
Proof. exact (subtractRevealRanges_spec (fun h => h <> ""%string) p reveals ex). Qed.

Section Reveals.
Context (ctx : ProviderCtx) (R : HTTPParsedResponse) (n : Z) (items : list (Reveal * list Reveal)).
Let reveals := all_reveals ctx R n items.

Lemma hashed_reveals p : covered p (hashed reveals) -> covered p (hashed (map fst items)).
Proof.
  unfold reveals, all_reveals. assert (H : forall rs, Forall (fun r => rv_Hash r = ""%string) rs -> covered p (hashed ((head_reveals ctx R ++ map fst items) ++ rs)) -> covered p (hashed (map fst items))).
  { intros rs F. unfold hashed. rewrite !filter_app. fold (hashed (head_reveals ctx R)) (hashed rs). rewrite (unhashed _ (head_unhashed ctx R)), (unhashed _ F), app_nil_r. done. }
  case_match; [rewrite hashed_subtracted; intros [C _]; eapply H; [apply plain_unhashed|exact C]|].
  case_match; [apply H, gaps_unhashed|]. intros C. apply (H []); [constructor|by rewrite app_nil_r].
Qed.

Hypothesis framing : shouldRevealChunkFraming ctx = true.

Lemma shown_spec p : p < n -> covered p reveals <-> shown ctx R n items p.
Proof.
  intros L. unfold reveals, all_reveals, shown. rewrite framing. cbn [andb]. destruct (cx_TLS12CBC ctx && pr_Chunked R).
  - rewrite subtracted, covered_app, chunkMetadataRedactions_spec. assert (B : pr_BodyStartIndex R <= p < n <-> ~ p < pr_BodyStartIndex R) by lia. rewrite B.
    assert (D : forall rs, covered p rs \/ ~ covered p rs).
    { intros rs. unfold covered. destruct (decide (Exists (fun r => rv_Start r <= p < rv_End r) rs)); auto. }
    destruct (D (map plain (pr_Chunks R))), (D (map plain (pr_ChunkFraming R))), (decide (p < pr_BodyStartIndex R)); tauto.
  - destruct (Nat.ltb_spec 0 (length (pr_Chunks R))); rewrite ?(covered_app _ (_ ++ _)); intuition lia.
Qed.

Lemma hashed_shown p : p < n -> covered p (hashed (map fst items)) -> covered p (hashed reveals) \/ ~ shown ctx R n items p.
Proof.
  intros L C. rewrite <- shown_spec by done. destruct (decide (Exists (fun r => rv_Start r <= p < rv_End r) reveals)) as [D|D]; [left|by right]. revert D. change (Exists _ reveals) with (covered p reveals).
  assert (H : forall rs, covered p (hashed ((head_reveals ctx R ++ map fst items) ++ rs))) by (intros rs; unfold hashed; rewrite !filter_app, !covered_app; auto).
  unfold reveals, all_reveals. cbv zeta. case_match; [rewrite subtracted, hashed_subtracted; intros [_ X]; split; [apply H|done]|].
  case_match; intros _; [apply H|]. specialize (H []). by rewrite app_nil_r in H.
Qed.
End Reveals.

Lemma hashed_perm p rs rs' : rs ≡ₚ rs' -> covered p (hashed rs) <-> covered p (hashed rs').
Proof. intros P. apply covered_perm. unfold hashed. by rewrite P. Qed.

Lemma covered_nonempty p rs : covered p rs -> (1 <= length rs)%nat.
Proof. intros C. destruct rs; [by apply covered_nil in C|cbn; lia]. Qed.

Lemma subtract_app rs rs' ex : (0 < length ex)%nat -> subtractRevealRanges (rs ++ rs') ex = subtractRevealRanges rs ex ++ subtractRevealRanges rs' ex.
Proof. intros L. unfold subtractRevealRanges. rewrite (proj2 (Nat.eqb_neq _ _)) by lia. cbv zeta. by rewrite map_app, concat_app. Qed.

(** There are always two reveals, so that the rest is always redacted. *)
Lemma two_reveals ctx R n items : pr_HeaderEndIdx R = pr_BodyStartIndex R - 4 -> pr_StatusLineEndIndex R < pr_BodyStartIndex R ->
  (1 < length (all_reveals ctx R n items))%nat.
Proof.
  intros He Hs. assert (H2 : (1 < length (head_reveals ctx R))%nat) by (unfold head_reveals; rewrite !length_app; cbn [length]; lia).
  unfold all_reveals. cbv zeta. destruct (shouldRevealChunkFraming ctx && cx_TLS12CBC ctx && pr_Chunked R) eqn:Q; [|destruct (shouldRevealChunkFraming ctx && (0 <? _)%nat); rewrite ?length_app; lia].
  apply andb_true_iff in Q as [[_ Q]%andb_true_iff _]. set (ex := chunkMetadataRedactions _ _ _ _). destruct (decide (0 < length ex)%nat) as [L|L].
  - rewrite !subtract_app, !length_app by done. unfold head_reveals. rewrite Q. rewrite !subtract_app by done. rewrite (app_comm_cons (map plain _) [] (mkReveal _ 2 _)) || idtac.
    change (?a :: map plain (pr_HeaderFraming R)) with ([a] ++ map plain (pr_HeaderFraming R)). rewrite subtract_app by done. rewrite !length_app.
    assert (A : forall r p, rv_Start r <= p < rv_End r -> p < pr_BodyStartIndex R -> (1 <= length (subtractRevealRanges [r] ex))%nat).
    { intros r p C B. apply (covered_nonempty p), subtracted. split; [by apply covered_cons; left|]. unfold ex. rewrite chunkMetadataRedactions_spec. lia. }
    pose proof (A (mkReveal (pr_StatusLineEndIndex R) 2 "") (pr_StatusLineEndIndex R)) as A1. pose proof (A (mkReveal (pr_HeaderEndIdx R) 4 "") (pr_HeaderEndIdx R)) as A2.
    unfold rv_End in A1, A2. cbn [rv_Start rv_Length] in A1, A2. lia.
  - unfold subtractRevealRanges. rewrite (proj2 (Nat.eqb_eq _ _)) by lia. rewrite !length_app. lia.
Qed.

Section Main.
Context {GU : GoUnicode}.

(** C15: Exactly what is not shown is redacted.  For a client that reveals the framing of chunks, a byte of the response is
    redacted if and only if no reveal that the framing rules let through covers it, or a selection redacts it, or it belongs to a
    reveal that is only shown as a hash; in a CBC session the bytes between the chunks other than their framing are redacted whatever the
    provider selects.  For an older client every byte that no reveal covers is redacted, up to the end of the last chunk. *)
Theorem unrevealed_bytes_are_redacted {params} response ctx rules (substitute : res params) process red :
  GetResponseRedactions response ctx (S rules) substitute process = Ok red ->
  let n := Z.of_nat (length response) in
  exists R ps items, parseHTTPResponseBytesWithFraming response (cx_TLS12CBC ctx) = Ok R /\ substitute = Ok ps /\ process ps R = Ok items
  /\ forall p, 0 <= p < n ->
     if shouldRevealChunkFraming ctx
     then covered p red <-> ~ shown ctx R n items p \/ covered p (concat (map snd items)) \/ covered p (hashed (map fst items))
     else match last_chunk_end R with Some e => p < e | None => True end -> ~ covered p (head_reveals ctx R ++ map fst items) -> covered p red.
Proof.
  intros E n. unfold GetResponseRedactions in E. inv_bind E. rename a into R. rename E0 into EP. cbn [Nat.eqb] in E. inv_guard E. inv_bind E. rename a into ps, E0 into ES. do 3 inv_guard E. inv_bind E.
  rename a into items, E0 into EI. injection E as <-. exists R, ps, items. split; [done|]. split; [done|]. split; [done|]. intros p Hp.
  destruct (parse_head_layout _ _ _ EP) as [He Hs]. pose proof (two_reveals ctx R n items He Hs) as L2. unfold redact. cbv zeta. fold n.
  rewrite (Permutation_length (sort_perm _ (all_reveals ctx R n items))), (proj2 (Nat.ltb_lt _ _)) by done. destruct (shouldRevealChunkFraming ctx) eqn:F.
  - rewrite (covered_perm _ _ _ (sort_perm _ _)), !covered_app, complement_loop_spec by (lia || apply sort_sorted). rewrite (covered_perm _ _ _ (sort_perm _ _)), shown_spec by (done || lia).
    change (filter _ (sort rv_Start ?l)) with (hashed (sort rv_Start l)). rewrite (hashed_perm _ _ _ (sort_perm _ _)).
    pose proof (hashed_reveals ctx R n items p) as H1. pose proof (hashed_shown ctx R n items F p (proj2 Hp)) as H2. destruct Hp as [Hp _]. tauto.
  - intros Le N. rewrite (covered_perm _ _ _ (sort_perm _ _)), !covered_app. right. left. apply legacy_loop_spec; [lia|done|lia|]. rewrite (covered_perm _ _ _ (sort_perm _ _)).
    unfold all_reveals. by rewrite F.
Qed.
End Main.
End Sorting.

(** ** The selected bytes *)

Fixpoint total (chunks : list ResponseRedactionRange) : Z :=
  match chunks with [] => 0 | ch :: chunks => sr_Length ch + total chunks end.

(** Where the [i]-th byte of the chunks is. *)
Fixpoint place (i : Z) (chunks : list ResponseRedactionRange) : Z :=
  match chunks with [] => 0 | ch :: chunks => if i <? sr_Length ch then sr_Start ch + i else place (i - sr_Length ch) chunks end.

Lemma total_lengths_nonneg lo cs hi : ordered lo cs hi -> 0 <= total cs.
Proof. revert lo. induction cs as [|c cs IH]; intros lo; cbn; [done|]. intros (_ & L & O). specialize (IH _ O). lia. Qed.

Lemma start_loop_place cs : forall lo hi b i, ordered lo cs hi -> b <= i < b + total cs -> start_loop i b cs = place (i - b) cs.
Proof.
  induction cs as [|c cs IH]; intros lo hi b i O L; cbn [total] in L; [lia|]. cbn [start_loop place ordered] in *. destruct O as (_ & P & O).
  destruct (Z.ltb_spec (i - b) (sr_Length c)).
  - rewrite (proj2 (Z.leb_le b i)), (proj2 (Z.ltb_lt i _)) by lia. cbn. lia.
  - rewrite (proj2 (Z.ltb_ge i _)), andb_false_r by lia. replace (i - b - sr_Length c) with (i - (b + sr_Length c)) by lia.
    rewrite <- (IH _ _ _ _ O) by lia. destruct (Z.eqb_spec i (b + sr_Length c)) as [->|]; [|done]. destruct cs as [|d cs]; [cbn [total] in L; lia|]. destruct O as (_ & Pd & _).
    cbn [start_loop]. rewrite Z.leb_refl, (proj2 (Z.ltb_lt _ _)) by lia. cbn. lia.
Qed.

Lemma end_loop_place cs : forall lo hi b i, ordered lo cs hi -> b < i <= b + total cs -> end_loop i b cs = place (i - b - 1) cs + 1.
Proof.
  induction cs as [|c cs IH]; intros lo hi b i O L; cbn [total] in L; [lia|]. cbn [end_loop place ordered] in *. destruct O as (_ & P & O).
  destruct (Z.ltb_spec (i - b - 1) (sr_Length c)).
  - rewrite (proj2 (Z.leb_le b i)), (proj2 (Z.leb_le i _)) by lia. cbn. lia.
  - rewrite (proj2 (Z.leb_gt i _)), andb_false_r by lia. rewrite (IH _ _ _ _ O) by lia. do 2 f_equal. lia.
Qed.

Lemma place_bounds cs : forall lo hi i, ordered lo cs hi -> 0 <= i < total cs -> lo <= place i cs < hi.
Proof.
  induction cs as [|c cs IH]; intros lo hi i O L; cbn [total] in L; [lia|]. cbn [place]. pose proof O as (S & P & O').
  destruct (Z.ltb_spec i (sr_Length c)).
  - pose proof (ordered_le _ _ _ O'). lia.
  - assert (0 <= i - sr_Length c < total cs) by lia. specialize (IH _ _ _ O' H0). lia.
Qed.

Lemma place_mono cs : forall lo hi i j, ordered lo cs hi -> 0 <= i -> i < j < total cs -> place i cs < place j cs.
Proof.
  induction cs as [|c cs IH]; intros lo hi i j O L0 L; cbn [total] in L; [lia|]. cbn [place]. destruct O as (S & P & O).
  destruct (Z.ltb_spec i (sr_Length c)), (Z.ltb_spec j (sr_Length c)); [lia| |lia|eapply IH; [exact O|lia..]].
  pose proof (place_bounds cs _ _ (j - sr_Length c) O ltac:(lia)). lia.
Qed.

(** The places are the positions of the chunks. *)
Lemma place_onto cs p : forall lo hi, ordered lo cs hi -> covered p (map plain cs) <-> exists i, 0 <= i < total cs /\ p = place i cs.
Proof.
  induction cs as [|c cs IH]; intros lo hi O; cbn [map total place]; [rewrite covered_nil; split; [done|]; intros (i & ? & _); lia|]. destruct O as (S & P & O).
  rewrite covered_cons, (IH _ _ O). unfold rv_End, plain. cbn [rv_Start rv_Length]. pose proof (total_lengths_nonneg _ _ _ O). split.
  - intros [C|(i & L & ->)]; [exists (p - sr_Start c); rewrite (proj2 (Z.ltb_lt _ _)) by lia; lia|].
    exists (i + sr_Length c). rewrite (proj2 (Z.ltb_ge _ _)) by lia. split; [lia|]. f_equal. lia.
  - intros (i & L & ->). destruct (Z.ltb_spec i (sr_Length c)); [left; lia|right]. exists (i - sr_Length c). split; [lia|done].
Qed.

Lemma ordered_covered p cs : forall lo hi, ordered lo cs hi -> covered p (map plain cs) -> lo <= p < hi.
Proof. intros lo hi O C. apply (place_onto _ _ _ _ O) in C as (i & L & ->). by apply place_bounds. Qed.

Lemma header_redactions_after from to p cs : forall prev lo hi, ordered lo (prev :: cs) hi -> covered p (header_redactions from to prev cs) ->
  sr_Start prev + sr_Length prev <= p.
Proof.
  induction cs as [|c cs IH]; intros prev lo hi O C; cbn [header_redactions] in C; [by apply covered_nil in C|]. destruct O as (S & P & O).
  apply covered_app in C as [C|C]; [|specialize (IH _ _ _ O C); destruct O as (? & ? & _); lia]. destruct (_ && _); [|by apply covered_nil in C].
  apply covered_cons in C as [C|C]; [cbn in C; lia|by apply covered_nil in C].
Qed.

(** Between two bytes of chunks, what lies between chunks is redacted. *)
Lemma header_redactions_spec from to p cs : from <= p < to -> forall prev lo hi, ordered lo (prev :: cs) hi -> sr_Start prev <= p ->
  covered (to - 1) (map plain (prev :: cs)) -> covered p (header_redactions from to prev cs) <-> ~ covered p (map plain (prev :: cs)).
Proof.
  intros Hp. induction cs as [|c cs IH]; intros prev lo hi O Lp Ct; cbn [header_redactions].
  - rewrite covered_nil. cbn [map] in *. rewrite covered_cons, covered_nil in *. cbn [plain rv_Start] in *. split; [done|]. intros N. apply N. left. destruct Ct as [Ct|[]]. lia.
  - pose proof O as (S & P & O'). pose proof O' as (Sc & Pc & _). rewrite covered_app. cbn [map] in *. rewrite (covered_cons p (plain prev)). rewrite (covered_cons (to - 1) (plain prev)) in Ct.
    unfold rv_End in *. cbn [plain rv_Start rv_Length] in *. pose proof (ordered_covered (to - 1) (c :: cs) _ _ O') as Lt. cbn [map plain] in Lt.
    destruct (decide (p < sr_Start prev + sr_Length prev)) as [L1|L1]; [|destruct (decide (p < sr_Start c)) as [L2|L2]].
    + split; [|intros N; exfalso; apply N; left; lia]. intros [C|C].
      * destruct (_ && _); [|by apply covered_nil in C]. apply covered_cons in C as [C|C]; [unfold rv_End in C; cbn in C; lia|by apply covered_nil in C].
      * apply (header_redactions_after _ _ _ _ _ _ _ O') in C. lia.
    + split; [|].
      * intros _ [C|C]; [lia|]. destruct O' as (A1 & A2 & A3). assert (O2 : ordered (sr_Start c) (c :: cs) hi) by (split; [lia|done]). apply (ordered_covered p (c :: cs) _ _ O2) in C. lia.
      * intros _. left. assert (O2 : ordered (sr_Start c) (c :: cs) hi) by (split; [lia|split; [lia|apply O']]).
        pose proof (ordered_covered (to - 1) (c :: cs) _ _ O2) as Lt2. cbn [map plain] in Lt2. rewrite (proj2 (Z.ltb_lt from _)), (proj2 (Z.ltb_lt _ to)) by (destruct Ct as [?|Ct]; [lia|specialize (Lt2 Ct); lia]).
        apply covered_cons. left. unfold rv_End. cbn. lia.
    + assert (Ct2 : covered (to - 1) (map plain (c :: cs))) by (destruct Ct as [?|?]; [lia|done]). rewrite (IH _ _ _ O') by (done || lia). split.
      * intros [C|N] [?|X]; [lia| |lia|done]. destruct (_ && _); [|by apply covered_nil in C]. apply covered_cons in C as [C|C]; [unfold rv_End in C; cbn in C; lia|by apply covered_nil in C].
      * intros N. right. tauto.
Qed.

Lemma place_bytes c cs : forall lo i, 0 <= lo -> ordered lo cs (Z.of_nat (length c)) -> 0 <= i < total cs ->
  nth (Z.to_nat i) (concat (map (range_bytes c) cs)) 0 = nth (Z.to_nat (place i cs)) c 0.
Proof.
  induction cs as [|r cs IH]; intros lo i L0 O L; cbn [total] in L; [lia|]. cbn [map concat place]. pose proof O as (S & P & O'). pose proof (ordered_le _ _ _ O').
  assert (EL : length (range_bytes c r) = Z.to_nat (sr_Length r)) by (unfold range_bytes; rewrite length_take, length_drop; lia).
  destruct (Z.ltb_spec i (sr_Length r)).
  - rewrite app_nth1 by lia. unfold range_bytes. rewrite nth_firstn, nth_skipn, (proj2 (Nat.ltb_lt _ _)) by lia. f_equal. lia.
  - rewrite app_nth2 by lia. rewrite EL. replace (Z.to_nat i - Z.to_nat (sr_Length r))%nat with (Z.to_nat (i - sr_Length r)) by lia. apply (IH (sr_Start r + sr_Length r)); [lia|done|lia].
Qed.

Lemma total_length c cs : forall lo, 0 <= lo -> ordered lo cs (Z.of_nat (length c)) -> Z.of_nat (length (concat (map (range_bytes c) cs))) = total cs.
Proof.
  induction cs as [|r cs IH]; intros lo L0 O; [done|]. cbn [map concat total]. pose proof O as (S & P & O'). pose proof (ordered_le _ _ _ O').
  rewrite length_app, Nat2Z.inj_add, (IH (sr_Start r + sr_Length r) ltac:(lia) O'). unfold range_bytes. rewrite length_take, length_drop. lia.
Qed.

(** The places from [s] to [last] are the bytes of the chunks between theirs. *)
Lemma selected_positions lo hi c cs s last p : ordered lo (c :: cs) hi -> 0 <= s <= last -> last < total (c :: cs) ->
  let from := place s (c :: cs) in
  let to := place last (c :: cs) + 1 in
  (from <= p < to /\ ~ covered p (header_redactions from to c cs)) <-> exists i, s <= i < last + 1 /\ p = start_loop i 0 (c :: cs).
Proof.
  intros O L1 L2. cbv zeta. set (chunks := c :: cs) in *. set (from := place s chunks). set (to := place last chunks + 1).
  assert (PL : forall i, 0 <= i < total chunks -> start_loop i 0 chunks = place i chunks) by (intros i Hi; rewrite (start_loop_place _ _ _ _ _ O), Z.sub_0_r by lia; done).
  assert (M : forall i j, 0 <= i -> i < j < total chunks -> place i chunks < place j chunks) by (intros; by eapply place_mono).
  assert (HR : forall q, from <= q < to -> ~ covered q (header_redactions from to c cs) <-> covered q (map plain chunks)).
  { intros q Hq. rewrite (header_redactions_spec from to q cs Hq c lo hi O).
    - unfold covered. destruct (decide (Exists (fun r => rv_Start r <= q < rv_End r) (map plain chunks))); tauto.
    - assert (O2 : ordered (sr_Start c) chunks hi) by (destruct O as (? & ? & ?); split; [lia|done]). pose proof (place_bounds _ _ _ s O2 ltac:(lia)). lia.
    - apply (place_onto _ _ _ _ O). exists last. split; [lia|]. lia. }
  split.
  - intros [Hq N]. apply HR in N; [|done]. apply (place_onto _ _ _ _ O) in N as (i & Hi & ->). exists i. rewrite PL by done. split; [|done].
    split; [apply Z.le_ngt; intros Q; specialize (M i s ltac:(lia) ltac:(lia)); lia|]. apply Z.lt_nge. intros Q. specialize (M last i ltac:(lia) ltac:(lia)). lia.
  - intros (i & Hi & ->). rewrite PL by lia. assert (B : from <= place i chunks < to).
    { split; [destruct (decide (s = i)) as [<-|]; [lia|specialize (M s i); lia]|]. destruct (decide (i = last)) as [->|]; [lia|specialize (M i last); lia]. }
    split; [done|]. apply HR; [done|]. apply (place_onto _ _ _ _ O). exists i. split; [lia|done].
Qed.

Section Selected.
Context {GU : GoUnicode}.

Lemma strict_whole response R : parseHTTPResponseBytesWithFraming response true = Ok R -> parse_pieces true [response] = Ok R.
Proof. unfold parse_pieces, parseHTTPResponseBytesWithFraming. cbn [on_pieces]. by destruct (OnChunk response _). Qed.

(** C16: A selection of the body reveals its bytes and no others.  In a response
    parsed with strict framing, as those of CBC sessions are (without it a chunk may have a negative size, and no such
    claim holds), the bytes inside the reveal of the body's
    positions [s, s + len), less the redactions of the chunk headers it spans, are the bytes of the response that the
    body consists of at these positions, in the same order, whether the body is chunked or not. *)
Theorem reveal_shows_the_selected_bytes response R s len hash :
  parseHTTPResponseBytesWithFraming response true = Ok R -> 0 <= s -> 0 < len -> s + len <= Z.of_nat (length (pr_Body R)) ->
  let reveal := getReveal s len (pr_BodyStartIndex R) (pr_Chunks R) hash in
  let redactions := getRedactionsForChunkHeaders (rv_Start reveal) (rv_End reveal) (pr_Chunks R) in
  let absolute i := convertResponseStartPosToAbsolute i (pr_BodyStartIndex R) (pr_Chunks R) in
  (forall p, (rv_Start reveal <= p < rv_End reveal /\ ~ covered p redactions) <-> exists i, s <= i < s + len /\ p = absolute i)
  /\ (forall i j, s <= i -> i < j < s + len -> absolute i < absolute j)
  /\ (forall i, s <= i < s + len -> nth (Z.to_nat (absolute i)) response 0 = nth (Z.to_nat i) (pr_Body R) 0).
Proof.
  intros E Hs Hl Hb. apply strict_whole in E. destruct (strict_parse_layout _ _ E) as (_ & B & L). cbn [concat] in B, L. rewrite app_nil_r in B, L. cbv zeta.
  unfold getReveal, rv_End. cbn [rv_Start rv_Length]. destruct (pr_Chunks R) as [|c cs] eqn:EC.
  - assert (EB : pr_Body R = drop (Z.to_nat (pr_BodyStartIndex R)) response) by (destruct (pr_Chunked R); [destruct L as [L _]; rewrite L in Hb; cbn in Hb; lia|apply L]).
    unfold convertResponseStartPosToAbsolute, convertResponseEndPosToAbsolute. cbn [length Nat.ltb Nat.leb getRedactionsForChunkHeaders]. split; [|split].
    + intros p. rewrite covered_nil. split; [intros [? _]; exists (p - pr_BodyStartIndex R); lia|intros (i & ? & ->); split; [lia|tauto]].
    + lia.
    + intros i Hi. rewrite EB, nth_skipn. f_equal. lia.
  - assert (L' : pr_Body R = concat (map (range_bytes response) (c :: cs)) /\ ordered (pr_BodyStartIndex R) (c :: cs) (Z.of_nat (length response))) by (destruct (pr_Chunked R); [done|by destruct L]).
    destruct L' as [EB O]. rewrite EB, (total_length _ _ (pr_BodyStartIndex R) (proj1 B) O) in Hb. unfold convertResponseStartPosToAbsolute, convertResponseEndPosToAbsolute.
    assert (C0 : (0 <? length (c :: cs))%nat = true) by done. rewrite C0. set (chunks := c :: cs) in *. clear C0.
    assert (PL : forall i, 0 <= i < total chunks -> start_loop i 0 chunks = place i chunks) by (intros i Hi; rewrite (start_loop_place _ _ _ _ _ O), Z.sub_0_r by lia; done).
    rewrite (end_loop_place chunks _ _ 0 (s + len) O), (PL s), Z.sub_0_r by lia. set (last := s + len - 1). split; [|split].
    + intros p. replace (place s chunks + (place last chunks + 1 - place s chunks)) with (place last chunks + 1) by lia. replace (s + len) with (last + 1) by lia. apply (selected_positions _ _ c cs s last p O); fold chunks; lia.
    + intros i j Hi Hj. rewrite !PL by lia. apply (place_mono _ _ _ _ _ O); lia.
    + intros i Hi. rewrite PL, EB by lia. symmetry. apply (place_bytes response chunks (pr_BodyStartIndex R)); [lia|done|lia].
Qed.
End Selected.

(** ** A concrete response *)

Definition cbc_client : ProviderCtx := mkCtx 7 true.

(** The provider selects the second to fourth byte of the body, which the two chunks "abc" and "de" share. *)
Definition select_middle (_ : unit) (R : HTTPParsedResponse) : res (list (Reveal * list Reveal)) :=
  Ok [(getReveal 1 3 (pr_BodyStartIndex R) (pr_Chunks R) "", [])].

Definition middle_redactions : list Reveal :=
  match @GetResponseRedactions (@sort_by Reveal) ascii_unicode unit chunked_response cbc_client 1 (Ok tt) select_middle with Ok r => r | _ => [] end.

Lemma unrevealed_bytes_are_redacted_witness :
  map (fun r => (rv_Start r, rv_Length r)) middle_redactions = [(50, 1); (57, 3); (63, 1)]
  /\ exists R ps items, @parseHTTPResponseBytesWithFraming ascii_unicode chunked_response true = Ok R /\ Ok tt = Ok ps /\ select_middle ps R = Ok items
     /\ forall p, 0 <= p < Z.of_nat (length chunked_response) ->
        covered p middle_redactions <-> ~ shown cbc_client R (Z.of_nat (length chunked_response)) items p \/ covered p (concat (map snd items)) \/ covered p (hashed (map fst items)).
Proof.
  split; [vm_compute; reflexivity|].
  apply (@unrevealed_bytes_are_redacted (@sort_by Reveal) (fun key l => proj1 (sort_by_spec key l)) (fun key l => proj2 (sort_by_spec key l)) ascii_unicode unit
    chunked_response cbc_client 0 (Ok tt) select_middle middle_redactions). by vm_compute.
Defined.

Definition whole_parse : HTTPParsedResponse :=
  match @parseHTTPResponseBytesWithFraming ascii_unicode chunked_response true with Ok R => R | _ => hp_Response (newHTTPResponseParser true) end.

Definition middle_reveal : Reveal := getReveal 1 3 (pr_BodyStartIndex whole_parse) (pr_Chunks whole_parse) "".

Lemma reveal_shows_the_selected_bytes_witness :
  (rv_Start middle_reveal, rv_Length middle_reveal) = (51, 12)
  /\ forall p, (rv_Start middle_reveal <= p < rv_End middle_reveal /\ ~ covered p (getRedactionsForChunkHeaders (rv_Start middle_reveal) (rv_End middle_reveal) (pr_Chunks whole_parse)))
     <-> exists i, 1 <= i < 1 + 3 /\ p = convertResponseStartPosToAbsolute i (pr_BodyStartIndex whole_parse) (pr_Chunks whole_parse).
Proof.
  split; [by vm_compute|].
  apply (@reveal_shows_the_selected_bytes ascii_unicode chunked_response whole_parse 1 3 ""); [by vm_compute|lia|lia|by vm_compute].
Defined.
