(* ===== verification/ClientRedaction.v ===== *)
(** * The client: from decrypted records to the redaction specification ([client/verification.go], [client/redaction.go])

    The client decrypts the records with the streams of TEE_K (or takes the
    plaintexts TEE_T authenticated), puts the response together, computes what
    of it is redacted and states it in the positions of the stream of records
    that TEE_T signs.  Locks, logging and the transmission are left out; [Err]
    is an error that ends the session. *)

From Stdlib Require Import Permutation.
From S2P Require Import Prelude Bytes Crypto CipherSuite SplitAead Redaction Response CbcSession GoStrings Transport RequestFormat HttpParser ResponseRedactions.
From stdpp Require Import list sorting.
Open Scope Z_scope.

(** ** The state *)

Record TLSResponseData := mkTLSResponse { td_ActualContent : bytes; td_ContentType : Z; td_OriginalLen : Z }.

Record TLSToHTTPMapping := mkMapping { mp_SeqNum : Z; mp_HTTPPos : Z; mp_TLSPos : Z; mp_Length : Z; mp_Ciphertext : bytes }.

Record TLSAnalysisResult := mkAnalysis {
  ar_ProtocolRedactions : list Reveal;
  ar_HTTPMappings : list TLSToHTTPMapping;
  ar_AllHTTPContent : bytes;
  ar_TotalTLSOffset : Z;
}.

Record OPRFMPCRangeMapping := mkRangeMapping { om_HTTPStart : Z; om_HTTPLength : Z; om_TLSStart : Z; om_TLSLength : Z }.

(** The fields of [Client] that these functions use. *)
Record Client := mkClient {
  cl_cipherSuite : Z;
  cl_ciphertextBySeq : gmap Z bytes;
  cl_decryptionStreamBySeq : gmap Z bytes;
  cl_parsedResponseBySeq : gmap Z TLSResponseData;
  cl_httpToTlsMapping : list TLSToHTTPMapping;
  cl_lastRedactionRanges : list Reveal;
  cl_oprfRedactionRanges : gmap Z Z;
  cl_oprfMpcRedactionRanges : gmap Z Z;
  cl_oprfMpcRangeMappings : list OPRFMPCRangeMapping;
  cl_cbcResponsePlaintextLengths : list Z;
  cl_cbcResponseCloseNotify : bool;
}.

Definition set_records (ciphertexts streams : gmap Z bytes) (parsed : gmap Z TLSResponseData) (c : Client) : Client :=
  mkClient (cl_cipherSuite c) ciphertexts streams parsed (cl_httpToTlsMapping c) (cl_lastRedactionRanges c) (cl_oprfRedactionRanges c)
    (cl_oprfMpcRedactionRanges c) (cl_oprfMpcRangeMappings c) (cl_cbcResponsePlaintextLengths c) (cl_cbcResponseCloseNotify c).

Definition set_mapping (m : list TLSToHTTPMapping) (c : Client) : Client :=
  mkClient (cl_cipherSuite c) (cl_ciphertextBySeq c) (cl_decryptionStreamBySeq c) (cl_parsedResponseBySeq c) m (cl_lastRedactionRanges c)
    (cl_oprfRedactionRanges c) (cl_oprfMpcRedactionRanges c) (cl_oprfMpcRangeMappings c) (cl_cbcResponsePlaintextLengths c) (cl_cbcResponseCloseNotify c).

Definition set_ranges (last : list Reveal) (oprf mpc : gmap Z Z) (c : Client) : Client :=
  mkClient (cl_cipherSuite c) (cl_ciphertextBySeq c) (cl_decryptionStreamBySeq c) (cl_parsedResponseBySeq c) (cl_httpToTlsMapping c) last oprf mpc
    (cl_oprfMpcRangeMappings c) (cl_cbcResponsePlaintextLengths c) (cl_cbcResponseCloseNotify c).

Definition set_cbc (lengths : list Z) (closeNotify : bool) (c : Client) : Client :=
  mkClient (cl_cipherSuite c) (cl_ciphertextBySeq c) (cl_decryptionStreamBySeq c) (cl_parsedResponseBySeq c) (cl_httpToTlsMapping c) (cl_lastRedactionRanges c)
    (cl_oprfRedactionRanges c) (cl_oprfMpcRedactionRanges c) (cl_oprfMpcRangeMappings c) lengths closeNotify.

Definition set_range_mappings (m : list OPRFMPCRangeMapping) (c : Client) : Client :=
  mkClient (cl_cipherSuite c) (cl_ciphertextBySeq c) (cl_decryptionStreamBySeq c) (cl_parsedResponseBySeq c) (cl_httpToTlsMapping c) (cl_lastRedactionRanges c)
    (cl_oprfRedactionRanges c) (cl_oprfMpcRedactionRanges c) m (cl_cbcResponsePlaintextLengths c) (cl_cbcResponseCloseNotify c).

(** ** The records in the clear *)

(** The index of the last byte that is not zero among the first [n]. *)
Fixpoint last_nonzero (n : nat) (data : bytes) : option nat :=
  match n with O => None | S k => if nth k data 0 =? 0 then last_nonzero k data else Some k end.

Definition removeTLSPadding (cipherSuite : Z) (data : bytes) : bytes * Z :=
  if (length data =? 0)%nat then ([], 0) else
  if negb (cipherSuite =? 0) && IsTLS12CipherSuite cipherSuite then (data, 0x17) else
  match last_nonzero (length data) data with
  | None => ([], 0)
  | Some k => (take k data, nth k data 0)
  end.

(** One stream of the batch; [streamData] without a ciphertext, or shorter than it, is skipped. *)
Definition decrypt_stream (c : Client) (streamData : Z * bytes) : res Client :=
  let '(seqNum, stream) := streamData in
  let streams := <[seqNum := stream]> (cl_decryptionStreamBySeq c) in
  match cl_ciphertextBySeq c !! seqNum with
  | None => Ok (set_records (cl_ciphertextBySeq c) streams (cl_parsedResponseBySeq c) c)
  | Some ciphertext =>
      if (length stream <? length ciphertext)%nat then Ok (set_records (cl_ciphertextBySeq c) streams (cl_parsedResponseBySeq c) c) else
      let plaintext := xor_bytes ciphertext stream in
      let originalLen := Z.of_nat (length plaintext) in
      let '(actualContent, contentType) := removeTLSPadding (cl_cipherSuite c) plaintext in
      let teetStreamLen := if IsTLS13CipherSuite (cl_cipherSuite c) then originalLen - 1 else originalLen in
      fail_if ((teetStreamLen <? 0) || (Z.of_nat (length ciphertext) <? teetStreamLen)) "Invalid decryption stream data";;
      Ok (set_records (<[seqNum := take (Z.to_nat teetStreamLen) ciphertext]> (cl_ciphertextBySeq c)) streams
            (<[seqNum := mkTLSResponse actualContent contentType originalLen]> (cl_parsedResponseBySeq c)) c)
  end.

Fixpoint decrypt_streams (c : Client) (streams : list (Z * bytes)) : res Client :=
  match streams with [] => Ok c | s :: streams => c ← decrypt_stream c s; decrypt_streams c streams end.

(** The fragments TEE_T authenticated: what has been read so far, the number of application records and whether close_notify was seen. *)
Fixpoint cbc_fragments (i : Z) (fragments : list (Z * Z * bytes)) (closeNotify : bool) (apps : nat) (acc : list (Z * TLSResponseData))
    : res (bool * nat * list (Z * TLSResponseData)) :=
  match fragments with
  | [] => Ok (closeNotify, apps, acc)
  | (seqNum, recordType, plaintext) :: fragments =>
      fail_if closeNotify "authenticated CBC response fragment follows close_notify";;
      fail_if (negb (seqNum =? i + 1)) "authenticated CBC response sequence mismatch";;
      let contentType := u8 recordType in
      let entry := (seqNum, mkTLSResponse plaintext contentType (Z.of_nat (length plaintext))) in
      if contentType =? RecordTypeApplicationData then cbc_fragments (i + 1) fragments closeNotify (S apps) (acc ++ [entry]) else
      if contentType =? RecordTypeAlert then
        fail_if (negb (length plaintext =? 2)%nat) "invalid authenticated CBC alert length";;
        fail_if ((nth 0 plaintext 0 =? 2) && negb (nth 1 plaintext 0 =? 0)) "TLS alert received";;
        cbc_fragments (i + 1) fragments (nth 1 plaintext 0 =? 0) apps (acc ++ [entry])
      else Err "unsupported authenticated CBC response record type"
  end.

(** [handleAuthenticatedTLS12CBCResponse] up to the reconstruction; [bound]: the session has a CBC binding, [sameSession]: the envelope names it. *)
Definition handleAuthenticatedTLS12CBCResponse (c : Client) (bound sameSession : bool) (fragments : list (Z * Z * bytes)) (closeNotifyFlag : bool) : res Client :=
  fail_if (negb bound || negb (IsTLS12CBCCipherSuite (cl_cipherSuite c))) "authenticated CBC response received outside a TLS 1.2 CBC session";;
  fail_if (negb sameSession) "authenticated CBC response session mismatch";;
  fail_if ((length fragments =? 0)%nat || (MaxEncryptedFragments <? length fragments)%nat) "invalid authenticated CBC response fragment count";;
  read ← cbc_fragments 0 fragments false 0 [];
  let '(closeNotify, apps, entries) := read in
  fail_if ((apps =? 0)%nat) "authenticated CBC response contains no application data";;
  fail_if (negb (Bool.eqb closeNotifyFlag closeNotify)) "authenticated CBC response close_notify flag mismatch";;
  fail_if (negb (bool_decide (cl_parsedResponseBySeq c = ∅)) || negb (bool_decide (cl_ciphertextBySeq c = ∅))) "authenticated CBC response state is not empty";;
  let lengths := map (fun e => td_OriginalLen e.2) (filter (fun e => td_ContentType e.2 = RecordTypeApplicationData) entries) in
  Ok (set_cbc lengths closeNotify
        (set_records (list_to_map (map (fun e => (e.1, td_ActualContent e.2)) entries)) (cl_decryptionStreamBySeq c) (list_to_map entries) c)).

(** ** The positions of the response in the stream of records *)

Definition getSortedSequenceNumbers (c : Client) : list Z := sort_by (fun s => s) (map fst (map_to_list (cl_parsedResponseBySeq c))).

Definition processSingleTLSRecord (c : Client) (seqNum : Z) (result : TLSAnalysisResult) : res TLSAnalysisResult :=
  match cl_parsedResponseBySeq c !! seqNum, cl_ciphertextBySeq c !! seqNum with
  | None, _ => Err "no parsed data found for sequence"
  | _, None => Err "no ciphertext found for sequence"
  | Some parsed, Some ciphertext =>
      let tlsStreamLength := if IsTLS13CipherSuite (cl_cipherSuite c) then td_OriginalLen parsed - 1 else td_OriginalLen parsed in
      fail_if (negb (Z.of_nat (length ciphertext) =? tlsStreamLength)) "ciphertext length does not match TEE_T stream length";;
      let isTLS12CBC := IsTLS12CBCCipherSuite (cl_cipherSuite c) in
      let application := td_ContentType parsed =? RecordTypeApplicationData in
      let offset := ar_TotalTLSOffset result in
      let total := if negb isTLS12CBC || application then offset + tlsStreamLength else offset in
      Ok (if application then
            mkAnalysis (ar_ProtocolRedactions result)
              (ar_HTTPMappings result ++ [mkMapping seqNum (Z.of_nat (length (ar_AllHTTPContent result))) offset (Z.of_nat (length (td_ActualContent parsed))) ciphertext])
              (ar_AllHTTPContent result ++ td_ActualContent parsed) total
          else
            mkAnalysis (if isTLS12CBC then ar_ProtocolRedactions result else ar_ProtocolRedactions result ++ [mkReveal offset tlsStreamLength ""])
              (ar_HTTPMappings result) (ar_AllHTTPContent result) total)
  end.

Fixpoint analyze_loop (c : Client) (seqNums : list Z) (result : TLSAnalysisResult) : res TLSAnalysisResult :=
  match seqNums with [] => Ok result | s :: seqNums => result ← processSingleTLSRecord c s result; analyze_loop c seqNums result end.

Definition analyzeTLSRecords (c : Client) (seqNums : list Z) : res (Client * TLSAnalysisResult) :=
  result ← analyze_loop c seqNums (mkAnalysis [] [] [] 0);
  Ok (set_mapping (ar_HTTPMappings result) c, result).

Definition findTLSPositions (httpStart httpLength : Z) (mappings : list TLSToHTTPMapping) : list Reveal :=
  let httpEnd := httpStart + httpLength in
  concat (map (fun m =>
    let mappingHTTPEnd := mp_HTTPPos m + mp_Length m in
    if (mp_HTTPPos m <? httpEnd) && (httpStart <? mappingHTTPEnd) then
      let overlapStart := Z.max (mp_HTTPPos m) httpStart in
      let overlapEnd := Z.min mappingHTTPEnd httpEnd in
      [mkReveal (mp_TLSPos m + (overlapStart - mp_HTTPPos m)) (overlapEnd - overlapStart) ""]
    else []) mappings).

Definition mapHTTPToTLSRedactions (httpRanges : list Reveal) (mappings : list TLSToHTTPMapping) : list Reveal :=
  concat (map (fun r => findTLSPositions (rv_Start r) (rv_Length r) mappings) httpRanges).

Fixpoint httpPositionToTlsPosition (httpPos : Z) (mappings : list TLSToHTTPMapping) : option Z :=
  match mappings with
  | [] => None
  | m :: mappings =>
      if (mp_HTTPPos m <=? httpPos) && (httpPos <? mp_HTTPPos m + mp_Length m) then Some (mp_TLSPos m + (httpPos - mp_HTTPPos m))
      else httpPositionToTlsPosition httpPos mappings
  end.

Fixpoint consolidate_loop (current : Reveal) (ranges : list Reveal) : list Reveal :=
  match ranges with
  | [] => [current]
  | next :: ranges =>
      if String.eqb (rv_Hash current) (rv_Hash next) && (rv_Start next <=? rv_End current)
      then consolidate_loop (mkReveal (rv_Start current) (Z.max (rv_End current) (rv_End next) - rv_Start current) (rv_Hash current)) ranges
      else current :: consolidate_loop next ranges
  end.

Definition HASH_TYPE_OPRF : string := "oprf".
Definition HASH_TYPE_OPRF_MPC : string := "oprf-mpc".

(** The ranges of one hash type that lie in the response, by their start. *)
Definition mark_ranges (hash : string) (n : Z) (ranges : list Reveal) (m : gmap Z Z) : gmap Z Z :=
  foldl (fun m r => if (0 <=? rv_Start r) && (rv_End r <=? n) && String.eqb (rv_Hash r) hash then <[rv_Start r := rv_Length r]> m else m) m ranges.

(** One range of [buildOPRFMPCRanges]; one that cannot be stated is skipped. *)
Definition oprf_range (mappings : list TLSToHTTPMapping) (httpStart httpLength : Z) : option OPRFMPCRangeMapping :=
  match httpPositionToTlsPosition httpStart mappings, httpPositionToTlsPosition (httpStart + httpLength - 1) mappings with
  | Some tlsStart, Some tlsEnd =>
      let tlsLength := tlsEnd + 1 - tlsStart in
      if (64 <? tlsLength) || (tlsLength <=? 0) then None else Some (mkRangeMapping httpStart httpLength tlsStart tlsLength)
  | _, _ => None
  end.

(** Also what is sent: start and length as [int32]. *)
Definition buildOPRFMPCRanges (c : Client) : Client * list (Z * Z) :=
  let httpStarts := sort_by (fun s => s) (map fst (map_to_list (cl_oprfMpcRedactionRanges c))) in
  let rs := omap (fun httpStart => oprf_range (cl_httpToTlsMapping c) httpStart (default 0 (cl_oprfMpcRedactionRanges c !! httpStart))) httpStarts in
  (set_range_mappings rs c, map (fun r => (i32 (om_TLSStart r), i32 (om_TLSLength r))) rs).

Section Analysis.
Variable sort : (Reveal -> Z) -> list Reveal -> list Reveal.
Context {GU : GoUnicode} {params : Type}.
(** The provider's parameters: absent, or their rules, the substitution and the selection. *)
Variable provider : option (nat * res params * (params -> HTTPParsedResponse -> res (list (Reveal * list Reveal)))).

Definition ConsolidateResponseRedactionRanges (ranges : list Reveal) : list Reveal :=
  match sort rv_Start ranges with [] => [] | r :: ranges => consolidate_loop r ranges end.

Definition getResponseRedactions (c : Client) (response : bytes) : res (Client * list Reveal) :=
  match provider with
  | None | Some (O, _, _) => Ok (c, [])
  | Some (rules, substitute, process) =>
      let ctx := mkCtx ATTESTOR_VERSION_3_2_0 (IsTLS12CBCCipherSuite (cl_cipherSuite c)) in
      ranges ← GetResponseRedactions sort response ctx rules substitute process;
      let n := Z.of_nat (length response) in
      Ok (set_ranges (cl_lastRedactionRanges c) (mark_ranges HASH_TYPE_OPRF n ranges (cl_oprfRedactionRanges c))
            (mark_ranges HASH_TYPE_OPRF_MPC n ranges (cl_oprfMpcRedactionRanges c)) c,
          ConsolidateResponseRedactionRanges ranges)
  end.

(** The ranges are computed once. *)
Definition getAutomaticHTTPRedactions (c : Client) (response : bytes) : res (Client * list Reveal) :=
  if (0 <? length (cl_lastRedactionRanges c))%nat then Ok (c, cl_lastRedactionRanges c) else
  got ← getResponseRedactions c response;
  let '(c, ranges) := got in
  Ok (set_ranges ranges (cl_oprfRedactionRanges c) (cl_oprfMpcRedactionRanges c) c, ranges).

Definition analyzeHTTPContent (c : Client) (mappings : list TLSToHTTPMapping) (httpContent : bytes) : res (Client * list Reveal) :=
  if (length httpContent =? 0)%nat || (length mappings =? 0)%nat then Ok (c, []) else
  got ← getAutomaticHTTPRedactions c httpContent;
  let '(c, httpRedactions) := got in
  Ok (c, mapHTTPToTLSRedactions httpRedactions mappings).

Definition finalizeRedactionSpec (ranges : list Reveal) : list Reveal := ConsolidateResponseRedactionRanges ranges.

Definition analyzeResponseRedaction (c : Client) : res (Client * list Reveal) :=
  got ← analyzeTLSRecords c (getSortedSequenceNumbers c);
  let '(c, tlsAnalysis) := got in
  got ← analyzeHTTPContent c (ar_HTTPMappings tlsAnalysis) (ar_AllHTTPContent tlsAnalysis);
  let '(c, httpRedactions) := got in
  Ok (c, finalizeRedactionSpec (ar_ProtocolRedactions tlsAnalysis ++ httpRedactions)).

(** What is sent: the ranges of the OPRF first, then the redactions, in [int32]. *)
Definition sendRedactionSpec (c : Client) : res (Client * list (Z * Z) * list ResponseRedactionRange) :=
  got ← analyzeResponseRedaction c;
  let '(c, spec) := got in
  fail_if (IsTLS12CBCCipherSuite (cl_cipherSuite c) && negb (bool_decide (cl_oprfRedactionRanges c = ∅))) "legacy ZK TOPRF is not supported for TLS 1.2 CBC";;
  let '(c, mpcRanges) := buildOPRFMPCRanges c in
  Ok (c, mpcRanges, map (fun r => mkResponseRange (i32 (rv_Start r)) (i32 (rv_Length r))) spec).
End Analysis.

(** ** Coverage *)

Lemma consolidate_loop_covers p rs : forall cur, by_start (cur :: rs) -> covered p (consolidate_loop cur rs) <-> covered p (cur :: rs).
Proof.
  induction rs as [|r rs IH]; intros cur S; cbn [consolidate_loop]; [done|]. pose proof S as S0. apply StronglySorted_inv in S as [S F]. apply Forall_cons in F as [F0 F].
  destruct (String.eqb _ _ && _) eqn:M.
  - apply andb_true_iff in M as [_ M%Z.leb_le]. rewrite IH; [|apply StronglySorted_inv in S as [S _]; by constructor]. rewrite !covered_cons. unfold rv_End in *. cbn [rv_Start rv_Length]. split; intros [?|?]; try tauto.
    + destruct (decide (p < rv_Start cur + rv_Length cur)); [left|right; left]; lia.
    + left. lia.
    + destruct H as [?|?]; [left; lia|by right].
  - rewrite covered_cons, IH by done. by rewrite (covered_cons p cur (r :: rs)).
Qed.

Lemma covered_concat_map {A} p (f : A -> list Reveal) l : covered p (concat (map f l)) <-> Exists (fun a => covered p (f a)) l.
Proof. induction l as [|a l IH]; cbn [map concat]; [by rewrite covered_nil, Exists_nil|]. by rewrite covered_app, Exists_cons, IH. Qed.

(** A position of the stream is redacted for an HTTP position it stands for. *)
Definition mapped (t : Z) (Q : Z -> Prop) (m : TLSToHTTPMapping) : Prop := mp_TLSPos m <= t < mp_TLSPos m + mp_Length m /\ Q (mp_HTTPPos m + (t - mp_TLSPos m)).

Lemma mapHTTPToTLSRedactions_spec t rs ms : covered t (mapHTTPToTLSRedactions rs ms) <-> Exists (mapped t (fun h => covered h rs)) ms.
Proof.
  unfold mapHTTPToTLSRedactions, findTLSPositions. cbv zeta. rewrite covered_concat_map.
  assert (H : forall r m, covered t (if (mp_HTTPPos m <? rv_Start r + rv_Length r) && (rv_Start r <? mp_HTTPPos m + mp_Length m)
      then [mkReveal (mp_TLSPos m + (Z.max (mp_HTTPPos m) (rv_Start r) - mp_HTTPPos m))
              (Z.min (mp_HTTPPos m + mp_Length m) (rv_Start r + rv_Length r) - Z.max (mp_HTTPPos m) (rv_Start r)) ""] else [])
    <-> mapped t (fun h => rv_Start r <= h < rv_End r) m).
  { intros r m. unfold mapped, rv_End. destruct (_ && _) eqn:E.
    - rewrite covered_cons, covered_nil. unfold rv_End. cbn [rv_Start rv_Length]. lia.
    - rewrite covered_nil. apply andb_false_iff in E as [E%Z.ltb_ge|E%Z.ltb_ge]; lia. }
  rewrite !Exists_exists. split.
  - intros (r & Hr & C). apply covered_concat_map, Exists_exists in C as (m & Hm & C). exists m. split; [done|]. apply H in C as [C1 C2]. split; [done|]. apply Exists_exists. by exists r.
  - intros (m & Hm & C1 & C2). apply Exists_exists in C2 as (r & Hr & C2). exists r. split; [done|]. apply covered_concat_map, Exists_exists. exists m. split; [done|]. by apply H.
Qed.

(** ** The layout of the stream *)

Section Layout.
Context (suite : Z).

Definition stream_len (p : TLSResponseData) : Z := if IsTLS13CipherSuite suite then td_OriginalLen p - 1 else td_OriginalLen p.
Definition application (p : TLSResponseData) : bool := td_ContentType p =? RecordTypeApplicationData.

(** The records that have a place in the signed stream: in a CBC session only application data. *)
Definition in_stream (p : TLSResponseData) : Prop := negb (IsTLS12CBCCipherSuite suite) || application p = true.

#[export] Instance in_stream_dec p : Decision (in_stream p).
Proof. unfold in_stream. apply _. Defined.

Fixpoint stream_total (rs : list TLSResponseData) : Z := match rs with [] => 0 | p :: rs => stream_len p + stream_total rs end.

Definition contents (rs : list TLSResponseData) : bytes := concat (map td_ActualContent (filter (fun p => application p = true) rs)).

(** What the analysis finds of records laid out from [off], the response from [http]. *)
Fixpoint protocol_of (off : Z) (rs : list TLSResponseData) : list Reveal :=
  match rs with
  | [] => []
  | p :: rs => (if application p then [] else [mkReveal off (stream_len p) ""]) ++ protocol_of (off + stream_len p) rs
  end.

Fixpoint mappings_of (off http : Z) (rs : list TLSResponseData) : list (Z * Z * Z) :=
  match rs with
  | [] => []
  | p :: rs =>
      let n := Z.of_nat (length (td_ActualContent p)) in
      if application p then (http, off, n) :: mappings_of (off + stream_len p) (http + n) rs else mappings_of (off + stream_len p) http rs
  end.

Definition spot (m : TLSToHTTPMapping) : Z * Z * Z := (mp_HTTPPos m, mp_TLSPos m, mp_Length m).

(** The content of a record lies in its part of the stream. *)
Definition fits (p : TLSResponseData) : Prop := 0 <= stream_len p /\ (application p = true -> Z.of_nat (length (td_ActualContent p)) <= stream_len p).

Lemma stream_total_nonneg rs : Forall fits rs -> 0 <= stream_total rs.
Proof. induction 1 as [|p rs [L _] F IH]; cbn; lia. Qed.

Lemma protocol_of_after t rs : Forall fits rs -> forall off, covered t (protocol_of off rs) -> off <= t.
Proof.
  induction 1 as [|p rs [L _] F IH]; intros off C; cbn [protocol_of] in C; [by apply covered_nil in C|]. apply covered_app in C as [C|C]; [|specialize (IH _ C); lia].
  destruct (application p); [by apply covered_nil in C|]. apply covered_cons in C as [C|C]; [cbn in C; lia|by apply covered_nil in C].
Qed.

Definition spot_mapped (t : Z) (Q : Z -> Prop) (m : Z * Z * Z) : Prop := m.1.2 <= t < m.1.2 + m.2 /\ Q (m.1.1 + (t - m.1.2)).

Lemma mappings_of_after t Q rs : Forall fits rs -> forall off http, Exists (spot_mapped t Q) (mappings_of off http rs) -> off <= t.
Proof.
  induction 1 as [|p rs [L _] F IH]; intros off http C; cbn [mappings_of] in C; [by apply Exists_nil in C|]. cbv zeta in C.
  destruct (application p); [apply Exists_cons in C as [[C _]|C]; [cbn in C; lia|]|]; specialize (IH _ _ C); lia.
Qed.

Lemma contents_cons p rs : contents (p :: rs) = (if application p then td_ActualContent p else []) ++ contents rs.
Proof. unfold contents. rewrite filter_cons. destruct (application p) eqn:A; [by rewrite decide_True|by rewrite decide_False]. Qed.

(** The byte [j] of a record is redacted as protocol data, or as the part of the response it holds. *)
Lemma position_spec Q before p after : Forall fits (before ++ p :: after) -> forall off http j, 0 <= j < stream_len p ->
  let t := off + stream_total before + j in
  (covered t (protocol_of off (before ++ p :: after)) <-> application p = false)
  /\ (Exists (spot_mapped t Q) (mappings_of off http (before ++ p :: after))
      <-> application p = true /\ j < Z.of_nat (length (td_ActualContent p)) /\ Q (http + Z.of_nat (length (contents before)) + j)).
Proof.
  induction before as [|b before IH]; intros F off http j J; cbn [app stream_total].
  - apply Forall_cons in F as [[L Fp] F]. cbn [protocol_of mappings_of contents]. cbv zeta. unfold contents. cbn [filter list_filter map concat length].
    pose proof (protocol_of_after (off + 0 + j) after F (off + stream_len p)) as A1. pose proof (mappings_of_after (off + 0 + j) Q after F (off + stream_len p)) as A2.
    rewrite covered_app. destruct (application p) eqn:A.
    + rewrite covered_nil, Exists_cons. unfold spot_mapped at 1. cbn [fst snd]. replace (http + (off + 0 + j - off)) with (http + Z.of_nat 0 + j) by lia.
      split; [split; [intros [[]|C]; specialize (A1 C); lia|done]|]. split; [intros [[C1 C2]|C]; [split; [done|]; split; [lia|done]|specialize (A2 _ C); lia]|].
      intros (_ & C1 & C2). left. split; [lia|done].
    + rewrite covered_cons, covered_nil. unfold rv_End. cbn [rv_Start rv_Length]. split; [split; [done|]; intros _; left; left; lia|]. split; [intros C; specialize (A2 _ C); lia|by intros []].
  - apply Forall_cons in F as [[Lb Fb] F]. pose proof F as F'. apply Forall_app in F' as [F' _]. pose proof (stream_total_nonneg _ F') as T0.
    cbn [protocol_of mappings_of]. cbv zeta. rewrite contents_cons, length_app.
    specialize (IH F (off + stream_len b)). replace (off + (stream_len b + stream_total before) + j) with (off + stream_len b + stream_total before + j) by lia.
    rewrite covered_app. destruct (application b) eqn:A.
    + rewrite covered_nil, Exists_cons. specialize (IH (http + Z.of_nat (length (td_ActualContent b))) j J). cbv zeta in IH.
      replace (http + Z.of_nat (length (td_ActualContent b) + length (contents before)) + j) with (http + Z.of_nat (length (td_ActualContent b)) + Z.of_nat (length (contents before)) + j) by lia.
      destruct IH as [IH1 IH2]. rewrite <- IH1, <- IH2. split; [tauto|]. split; [|tauto]. intros [[C _]|C]; [|done]. cbn [fst snd] in C. specialize (Fb eq_refl). lia.
    + rewrite covered_cons, covered_nil. unfold rv_End. cbn [rv_Start rv_Length length]. specialize (IH http j J). cbv zeta in IH. rewrite Nat.add_0_l. destruct IH as [IH1 IH2]. rewrite <- IH1, <- IH2.
      split; [|done]. split; [intros [[?|[]]|C]; [lia|done]|by right].
Qed.
End Layout.

(** ** The states of the client *)

Lemma last_nonzero_lt data : forall n k, last_nonzero n data = Some k -> (k < n)%nat.
Proof. induction n as [|n IH]; intros k; cbn [last_nonzero]; [done|]. case_match; [intros E; specialize (IH _ E); lia|intros [= <-]; lia]. Qed.

Lemma removeTLSPadding_fits suite data content contentType : removeTLSPadding suite data = (content, contentType) -> contentType = RecordTypeApplicationData ->
  Z.of_nat (length content) <= if IsTLS13CipherSuite suite then Z.of_nat (length data) - 1 else Z.of_nat (length data).
Proof.
  unfold removeTLSPadding. destruct (length data =? 0)%nat; [by intros [= <- <-]|]. destruct (negb (suite =? 0) && IsTLS12CipherSuite suite) eqn:T.
  - intros [= <- <-] _. apply andb_true_iff in T as [_ T]. unfold IsTLS12CipherSuite, IsTLS13CipherSuite in *. destruct (GetCipherSuiteInfo suite) as [i|]; [|done]. apply negb_true_iff in T. by rewrite T.
  - destruct (last_nonzero _ _) as [k|] eqn:K; [|by intros [= <- <-]]. intros [= <- _] _. apply last_nonzero_lt in K. rewrite length_take. destruct (IsTLS13CipherSuite suite); lia.
Qed.

(** From the capture of the records on. *)
Inductive client_reaches : Client -> Prop :=
| reach_captured c : cl_parsedResponseBySeq c = ∅ -> cl_lastRedactionRanges c = [] -> client_reaches c
| reach_streams c streams c' : client_reaches c -> decrypt_streams c streams = Ok c' -> client_reaches c'
| reach_authenticated c bound same fragments flag c' : client_reaches c -> handleAuthenticatedTLS12CBCResponse c bound same fragments flag = Ok c' -> client_reaches c'.

Definition parsed_fit (c : Client) : Prop :=
  cl_lastRedactionRanges c = [] /\ forall s p, cl_parsedResponseBySeq c !! s = Some p -> application p = true ->
    Z.of_nat (length (td_ActualContent p)) <= stream_len (cl_cipherSuite c) p.

Lemma decrypt_stream_fit c s c' : parsed_fit c -> decrypt_stream c s = Ok c' -> parsed_fit c'.
Proof.
  intros [L F] E. unfold decrypt_stream in E. destruct s as [q stream]. destruct (cl_ciphertextBySeq c !! q) as [ct|]; [|injection E as <-; by split].
  destruct (_ <? _)%nat; [injection E as <-; by split|]. destruct (removeTLSPadding _ _) as [content ty] eqn:R. cbv zeta in E. inv_guard E. injection E as <-. split; [done|].
  intros s p. cbn [set_records cl_parsedResponseBySeq cl_cipherSuite]. destruct (decide (q = s)) as [<-|N]; [|rewrite lookup_insert_ne by done; apply F].
  rewrite lookup_insert_eq. intros [= <-] A. apply Z.eqb_eq in A. exact (removeTLSPadding_fits _ _ _ _ R A).
Qed.

Lemma decrypt_streams_fit streams : forall c c', parsed_fit c -> decrypt_streams c streams = Ok c' -> parsed_fit c'.
Proof. induction streams as [|s streams IH]; intros c c' F E; cbn [decrypt_streams] in E; [by injection E as <-|]. inv_bind E. eapply IH; [by eapply decrypt_stream_fit|done]. Qed.

Lemma cbc_fragments_entries fragments : forall i cn apps acc r, Forall (fun e => td_OriginalLen e.2 = Z.of_nat (length (td_ActualContent e.2))) acc ->
  cbc_fragments i fragments cn apps acc = Ok r -> Forall (fun e => td_OriginalLen e.2 = Z.of_nat (length (td_ActualContent e.2))) r.2.
Proof.
  induction fragments as [|[[q ty] pt] fragments IH]; intros i cn apps acc r F E; cbn [cbc_fragments] in E; [by injection E as <-|]. do 2 inv_guard E. cbv zeta in E.
  destruct (_ =? RecordTypeApplicationData); [eapply IH; [|exact E]; apply Forall_app; split; [done|by repeat constructor]|].
  destruct (_ =? RecordTypeAlert); [|done]. do 2 inv_guard E. eapply IH; [|exact E]. apply Forall_app. split; [done|by repeat constructor].
Qed.

Lemma cbc_not_tls13 suite : IsTLS12CBCCipherSuite suite = true -> IsTLS13CipherSuite suite = false.
Proof. unfold IsTLS12CBCCipherSuite, IsTLS13CipherSuite. destruct (GetCipherSuiteInfo suite) as [i|]; [|done]. intros [E _]%andb_true_iff. by apply negb_true_iff. Qed.

Lemma authenticated_fit c bound same fragments flag c' : parsed_fit c -> handleAuthenticatedTLS12CBCResponse c bound same fragments flag = Ok c' -> parsed_fit c'.
Proof.
  intros [L F] E. unfold handleAuthenticatedTLS12CBCResponse in E. do 3 inv_guard E. inv_bind E. destruct a as [[cn apps] entries]. do 3 inv_guard E. cbv zeta in E. injection E as <-. split; [done|].
  apply orb_false_iff in Hguard as [_ S%negb_false_iff]. apply cbc_not_tls13 in S. intros s p H _. cbn [set_cbc set_records cl_parsedResponseBySeq cl_cipherSuite] in *.
  unfold stream_len. rewrite S. apply elem_of_list_to_map_2 in H. pose proof (cbc_fragments_entries _ _ _ _ _ _ (Forall_nil_2 _) E0) as FE. rewrite Forall_forall in FE. specialize (FE _ H). cbn in FE. lia.
Qed.

Lemma reaches_fit c : client_reaches c -> parsed_fit c.
Proof.
  induction 1 as [c E L|c streams c' R IH E|c bound same fragments flag c' R IH E]; [|by eapply decrypt_streams_fit|by eapply authenticated_fit].
  split; [done|]. intros s p. by rewrite E.
Qed.

(** The records of the signed stream, in order. *)
Definition stream_records (c : Client) : list TLSResponseData :=
  filter (in_stream (cl_cipherSuite c)) (omap (fun s => cl_parsedResponseBySeq c !! s) (getSortedSequenceNumbers c)).

Lemma analyze_loop_spec c seqs : forall r r', analyze_loop c seqs r = Ok r' ->
  let rs := filter (in_stream (cl_cipherSuite c)) (omap (fun s => cl_parsedResponseBySeq c !! s) seqs) in
  ar_ProtocolRedactions r' = ar_ProtocolRedactions r ++ protocol_of (cl_cipherSuite c) (ar_TotalTLSOffset r) rs
  /\ map spot (ar_HTTPMappings r') = map spot (ar_HTTPMappings r) ++ mappings_of (cl_cipherSuite c) (ar_TotalTLSOffset r) (Z.of_nat (length (ar_AllHTTPContent r))) rs
  /\ ar_AllHTTPContent r' = ar_AllHTTPContent r ++ contents rs
  /\ Forall (fun p => 0 <= stream_len (cl_cipherSuite c) p) rs.
Proof.
  induction seqs as [|s seqs IH]; intros r r' E; cbn [analyze_loop] in E; [injection E as <-; cbn; by rewrite !app_nil_r|]. inv_bind E. rename a into r1, E0 into E1.
  specialize (IH _ _ E). clear E. unfold processSingleTLSRecord in E1. cbn [omap list_omap]. destruct (cl_parsedResponseBySeq c !! s) as [p|]; [|done]. destruct (cl_ciphertextBySeq c !! s) as [ct|]; [|done].
  change (if IsTLS13CipherSuite (cl_cipherSuite c) then td_OriginalLen p - 1 else td_OriginalLen p) with (stream_len (cl_cipherSuite c) p) in E1. cbv zeta in E1. inv_guard E1.
  apply negb_false_iff, Z.eqb_eq in Hguard. change (td_ContentType p =? RecordTypeApplicationData) with (application p) in E1. injection E1 as <-. cbv zeta in IH |- *.
  set (rs := filter _ (omap _ seqs)) in *. rewrite filter_cons. fold rs. destruct (application p) eqn:A.
  - rewrite orb_true_r in IH. rewrite decide_True by (unfold in_stream; by rewrite A, orb_true_r). cbn [ar_ProtocolRedactions ar_HTTPMappings ar_AllHTTPContent ar_TotalTLSOffset] in IH. destruct IH as (I1 & I2 & I3 & I4).
    cbn [protocol_of mappings_of]. rewrite contents_cons, A, I1, I2, I3, map_app, length_app, Nat2Z.inj_add. cbn [map spot mp_HTTPPos mp_TLSPos mp_Length]. rewrite <- !app_assoc.
    split; [done|]. split; [done|]. split; [done|]. constructor; [lia|done].
  - rewrite orb_false_r in IH. destruct (IsTLS12CBCCipherSuite (cl_cipherSuite c)) eqn:C; cbn [negb] in *.
    + rewrite decide_False by (unfold in_stream; by rewrite A, C). exact IH.
    + rewrite decide_True by (unfold in_stream; by rewrite A, C). cbn [ar_ProtocolRedactions ar_HTTPMappings ar_AllHTTPContent ar_TotalTLSOffset] in IH. destruct IH as (I1 & I2 & I3 & I4).
      cbn [protocol_of mappings_of]. rewrite contents_cons, A, I1, I2, I3, <- !app_assoc. split; [done|]. split; [done|]. split; [done|]. constructor; [lia|done].
Qed.

Section Composed.
Variable sort : (Reveal -> Z) -> list Reveal -> list Reveal.
Context {GU : GoUnicode} {params : Type}.
Variable provider : option (nat * res params * (params -> HTTPParsedResponse -> res (list (Reveal * list Reveal)))).
Hypothesis sort_perm : forall key l, sort key l ≡ₚ l.
Hypothesis sort_sorted : forall key l, StronglySorted (fun a b => key a <= key b) (sort key l).

Lemma Consolidate_covers p rs : covered p (ConsolidateResponseRedactionRanges sort rs) <-> covered p rs.
Proof.
  unfold ConsolidateResponseRedactionRanges. pose proof (sort_sorted rv_Start rs) as S. rewrite <- (covered_perm p _ _ (sort_perm rv_Start rs)). destruct (sort rv_Start rs) as [|r l]; [done|].
  by apply consolidate_loop_covers.
Qed.

(** The redactions of the response, by the provider's rules. *)
Definition response_redactions (suite : Z) (response : bytes) (red : list Reveal) : Prop :=
  match provider with
  | Some (S rules, substitute, process) =>
      response <> [] -> GetResponseRedactions sort response (mkCtx ATTESTOR_VERSION_3_2_0 (IsTLS12CBCCipherSuite suite)) (S rules) substitute process = Ok red
  | _ => red = []
  end.

Lemma automatic_spec c response c' rs : cl_lastRedactionRanges c = [] -> response <> [] -> getAutomaticHTTPRedactions sort provider c response = Ok (c', rs) ->
  exists red, response_redactions (cl_cipherSuite c) response red /\ forall h, covered h rs <-> covered h red.
Proof.
  intros L N E. unfold getAutomaticHTTPRedactions in E. rewrite L in E. cbn [length Nat.ltb Nat.leb] in E. inv_bind E. destruct a as [c1 ranges]. injection E as <- <-. rename E0 into E.
  unfold getResponseRedactions in E. unfold response_redactions. destruct provider as [[[[|rules] sub] proc]|]; [injection E as <- <-; by exists []| |injection E as <- <-; by exists []].
  inv_bind E. injection E as <- <-. exists a. split; [done|]. intros h. apply Consolidate_covers.
Qed.

Lemma mapped_spots t Q ms : Exists (mapped t Q) ms <-> Exists (spot_mapped t Q) (map spot ms).
Proof. induction ms as [|m ms IH]; [by rewrite !Exists_nil|]. cbn [map]. by rewrite !Exists_cons, IH. Qed.

Lemma no_mappings suite rs : forall off http, mappings_of suite off http rs = [] -> contents rs = [].
Proof.
  induction rs as [|p rs IH]; intros off http H; [done|]. cbn [mappings_of] in H. rewrite contents_cons. destruct (application p); [done|]. by apply IH in H.
Qed.

Lemma content_spec c ms response c' http : cl_lastRedactionRanges c = [] -> analyzeHTTPContent sort provider c ms response = Ok (c', http) -> (response <> [] -> ms <> []) ->
  exists red, response_redactions (cl_cipherSuite c) response red /\ forall t, covered t http <-> Exists (spot_mapped t (fun h => covered h red)) (map spot ms).
Proof.
  intros L E NM. unfold analyzeHTTPContent in E. destruct (Nat.eqb_spec (length response) 0) as [N|N].
  - cbn [orb] in E. injection E as <- <-. exists []. split; [unfold response_redactions; apply nil_length_inv in N; rewrite N; by repeat case_match|]. intros t. rewrite covered_nil. split; [done|].
    intros X. apply Exists_exists in X as (m & _ & _ & X). by apply covered_nil in X.
  - assert (N2 : response <> []) by (by intros ->). rewrite (proj2 (Nat.eqb_neq (length ms) 0)) in E by (intros X; apply nil_length_inv in X; by apply NM). cbn [orb] in E.
    inv_bind E. destruct a as [c3 rs]. injection E as <- <-. destruct (automatic_spec _ _ _ _ L N2 E0) as (red & HR & C). exists red. split; [done|].
    intros t. rewrite mapHTTPToTLSRedactions_spec, mapped_spots. split; intros X; (eapply Exists_impl; [exact X|]); intros m [B Q]; (split; [done|]); by apply C.
Qed.

(** C14: The specification the client sends hides exactly what the provider's rules hide.  In every session, whatever streams or
    authenticated fragments came, a byte of the signed record stream is in the redaction specification if and only if it is
    part of a protocol record, or of the response at a position that is redacted there; the response is the concatenated
    application data, and no byte of one record is taken for a byte of another. *)
Theorem spec_hides_what_the_rules_hide c c' spec : client_reaches c -> analyzeResponseRedaction sort provider c = Ok (c', spec) ->
  let suite := cl_cipherSuite c in
  let records := stream_records c in
  exists red, response_redactions suite (contents records) red
  /\ forall before p after j, records = before ++ p :: after -> 0 <= j < stream_len suite p ->
     covered (stream_total suite before + j) spec
     <-> application p = false \/ (j < Z.of_nat (length (td_ActualContent p)) /\ covered (Z.of_nat (length (contents before)) + j) red).
Proof.
  intros R E suite records. destruct (reaches_fit c R) as [L F]. unfold analyzeResponseRedaction in E. inv_bind E. destruct a as [c1 an]. unfold analyzeTLSRecords in E0. inv_bind E0. injection E0 as <- ->.
  destruct (analyze_loop_spec _ _ _ _ E1) as (I1 & I2 & I3 & I4). cbn [ar_ProtocolRedactions ar_HTTPMappings ar_AllHTTPContent ar_TotalTLSOffset app map length] in I1, I2, I3.
  fold (stream_records c) in I1, I2, I3, I4. fold suite in I1, I2, I4. fold records in I1, I2, I3, I4. change (Z.of_nat 0) with 0 in I2.
  assert (FT : Forall (fits suite) records).
  { apply Forall_forall. intros p Hp. rewrite Forall_forall in I4. split; [by apply I4|]. intros A. unfold records, stream_records in Hp. apply list_elem_of_filter in Hp as [_ Hp].
    apply list_elem_of_omap in Hp as (s & _ & Hs). by apply (F s). }
  inv_bind E. destruct a as [c2 http]. injection E as <- <-. rename E0 into EH. rewrite I3 in EH.
  destruct (content_spec (set_mapping (ar_HTTPMappings an) c) _ _ _ _ L EH) as (red & HR & C); [intros N X; rewrite X in I2; apply N; symmetry in I2; by apply (no_mappings suite records 0 0)|]. cbn [set_mapping cl_cipherSuite] in HR. fold suite in HR.
  exists red. split; [done|]. intros before p after j Er Hj. unfold finalizeRedactionSpec. rewrite Consolidate_covers, covered_app, C, I1, I2. rewrite Er in FT |- *.
  destruct (position_spec suite (fun h => covered h red) before p after FT 0 0 j Hj) as [P1 P2]. cbv zeta in P1, P2. rewrite !Z.add_0_l in P1, P2. rewrite P1, P2. destruct (application p); intuition done.
Qed.
End Composed.

(** ** Concrete sessions *)

(** The response in two records of TLS 1.3 after a ticket; [pad] zero bytes of padding end the first of them. *)
Definition padded_records (pad : nat) : gmap Z bytes :=
  list_to_map [(0, [4; 0; 0; 22]); (1, take 52 chunked_response ++ 23 :: repeat 0 pad); (2, drop 52 chunked_response ++ [23])].

Definition captured_client (pad : nat) : Client := mkClient 0x1301 (padded_records pad) ∅ ∅ [] [] ∅ ∅ [] [] false.

(** Streams of zeros: what was captured is the plaintext. *)
Definition zero_streams (pad : nat) : list (Z * bytes) := [(0, repeat 0 4); (1, repeat 0 (53 + pad)); (2, repeat 0 100)].

Definition decrypted_client (pad : nat) : Client :=
  match decrypt_streams (captured_client pad) (zero_streams pad) with Ok c => c | _ => captured_client pad end.

Definition middle_provider : option (nat * res unit * (unit -> HTTPParsedResponse -> res (list (Reveal * list Reveal)))) := Some (1%nat, Ok tt, select_middle).

Definition middle_spec (pad : nat) : list Reveal :=
  match @analyzeResponseRedaction (@sort_by Reveal) ascii_unicode unit middle_provider (decrypted_client pad) with Ok (_, spec) => spec | _ => [] end.

Lemma spec_hides_what_the_rules_hide_witness :
  map (fun r => (rv_Start r, rv_Length r)) (middle_spec 2) = [(0, 3); (18, 2); (53, 1); (68, 1)]
  /\ exists red, @response_redactions (@sort_by Reveal) ascii_unicode unit middle_provider 0x1301 (contents (stream_records (decrypted_client 2))) red
     /\ forall before p after j, stream_records (decrypted_client 2) = before ++ p :: after -> 0 <= j < stream_len 0x1301 p ->
        covered (stream_total 0x1301 before + j) (middle_spec 2)
        <-> application p = false \/ (j < Z.of_nat (length (td_ActualContent p)) /\ covered (Z.of_nat (length (contents before)) + j) red).
Proof.
  split; [vm_compute; reflexivity|].
  destruct (@analyzeResponseRedaction (@sort_by Reveal) ascii_unicode unit middle_provider (decrypted_client 2)) as [[c' spec]| |] eqn:E; [|by vm_compute in E..].
  assert (S : spec = middle_spec 2) by (unfold middle_spec; by rewrite E). rewrite <- S.
  apply (@spec_hides_what_the_rules_hide (@sort_by Reveal) ascii_unicode unit middle_provider (fun key l => proj1 (sort_by_spec key l)) (fun key l => proj2 (sort_by_spec key l))
    (decrypted_client 2) c' spec); [|exact E].
  apply (reach_streams (captured_client 2) (zero_streams 2)); [by apply reach_captured|by vm_compute].
Defined.

(** A hashed value that two records share: padding between its parts becomes part of the range of the OPRF. *)
Definition select_hashed (_ : unit) (R : HTTPParsedResponse) : res (list (Reveal * list Reveal)) :=
  Ok [(getReveal 0 3 (pr_BodyStartIndex R) (pr_Chunks R) HASH_TYPE_OPRF_MPC, [])].

Definition oprf_ranges_sent (pad : nat) : option (list (Z * Z)) :=
  match @sendRedactionSpec (@sort_by Reveal) ascii_unicode unit (Some (1%nat, Ok tt, select_hashed)) (decrypted_client pad) with Ok (_, ranges, _) => Some ranges | _ => None end.

Lemma padding_enters_the_oprf_range : oprf_ranges_sent 0 = Some [(53, 3)] /\ oprf_ranges_sent 2 = Some [(53, 5)].
Proof. split; vm_compute; reflexivity. Qed.
