(* ===== verification/Channel.v ===== *)
(** * One exchange on a pooled connection ([tokenhive/transport/channel.go] [Do], [channelpool.go] [exchange])

    What the transport does with a request, as an [exchange]: acquire a
    connection, write the request, report the response start, relay the body,
    and try once more when a dead connection took nothing.  The network is an
    arbitrary script. *)

From S2P Require Import Prelude Bytes GoStrings Transport Headers Tee.

Definition StageAcquire : string := "acquire".

(** An error of the network: whether it is a timeout. *)
Record netErr := mkNetErr { ne_timeout : bool }.

(** [ch.fail]: a [StageError]. *)
Definition fail (stage : string) (cold : bool) (e : netErr) : transportErr :=
  mkTransportErr (Some (stage, cold)) false (ne_timeout e).

(** What the network does with one attempt on an acquired connection.  [wrote] counts the bytes the write took
    before it failed; a body is its reads and, unless it ends in EOF, an error. *)
Inductive upstream :=
| RequestFails (wrote : nat) (e : netErr)
| HeadersFails (e : netErr)
| Answers (resp : Response) (body : list bytes) (err : option netErr).

(** The loop over the body; a read of nothing is not relayed.  An error of the callback keeps its own identity
    under the stage; whether it is a timeout is never looked at. *)
Fixpoint relay_body (cold : bool) (resp : Response) (body : list bytes) (err : option netErr)
    (finish : option transportErr -> exchange) : exchange :=
  match body with
  | [] => finish (fail StageBody cold <$> err)
  | chunk :: body =>
      if (length chunk =? 0)%nat then relay_body cold resp body err finish else
      XChunk chunk (fun failed =>
        if failed then finish (Some (fail StageBody cold (mkNetErr false))) else relay_body cold resp body err finish)
  end.

(** [exchange], ended by [finish]. *)
Definition channel_exchange (cold : bool) (u : upstream) (finish : Response -> option transportErr -> exchange) : exchange :=
  match u with
  | RequestFails _ e => finish (mkResponse 0 ∅) (Some (fail StageWrite cold e))
  | HeadersFails e => finish (mkResponse 0 ∅) (Some (fail StageTTFB cold e))
  | Answers resp body err => XStart resp (relay_body cold resp body err (finish resp))
  end.

Definition wroteNothing (u : upstream) : bool := match u with RequestFails wrote _ => (wrote =? 0)%nat | _ => false end.

(** An acquisition: the failure of the pool, of the dial or of the handshake, or a connection, dialed for it or not. *)
Inductive acquisition :=
| AcquireFails (e : netErr) | DialFails (e : netErr) | HandshakeFails (e : netErr) | Acquired (cold : bool) (u : upstream).

Definition acquire_err (a : acquisition) : option transportErr :=
  match a with
  | AcquireFails e => Some (fail StageAcquire false e)
  | DialFails e => Some (fail StageDial true e)
  | HandshakeFails e => Some (fail StageTLS true e)
  | Acquired _ _ => None
  end.

(** [own]: the exchange's own deadline has passed, by the context or by the clock, and it is the tightest. *)
Definition timedOut (own : bool) (err : option transportErr) : option transportErr :=
  (fun e => if own then mkTransportErr (te_stage e) true (te_timeout e) else e) <$> err.

(** The deadline this layer answers for, if any. *)
Definition own_deadline (timeout now : Z) (callerDeadline : option Z) : option Z :=
  if 0 <? timeout then
    match callerDeadline with
    | Some d => if d <? now + timeout then None else Some (now + timeout)
    | None => Some (now + timeout)
    end
  else None.

(** [timedOut]'s test, at [now], with whether the context's deadline has been exceeded. *)
Definition own_expired (own : option Z) (ctxExceeded : bool) (now : Z) : bool :=
  match own with None => false | Some d => ctxExceeded || negb (now <? d) end.

Definition Do (closed own : bool) (ctx : contextErr) (first second : acquisition) : exchange :=
  let done resp err := XDone resp (timedOut own err) ctx in
  if closed then XDone (mkResponse 0 ∅) (Some (mkTransportErr None false false)) ctx else
  match first with
  | Acquired cold u =>
      if wroteNothing u then
        match second with
        | Acquired cold u => channel_exchange cold u done
        | failed => done (mkResponse 0 ∅) (acquire_err failed)
        end
      else channel_exchange cold u done
  | failed => done (mkResponse 0 ∅) (acquire_err failed)
  end.

(** ** What the service may rely on *)

Lemma relay_body_consistent cold resp body err own ctx :
  consistent (Some (rs_StatusCode resp)) (relay_body cold resp body err (fun e => XDone resp (timedOut own e) ctx)).
Proof.
  induction body as [|chunk body IH]; [done|]. cbn [relay_body]. destruct (length chunk =? 0)%nat; [done|].
  split; [by eexists|]. split; [by intros []|]. by do 3 eexists.
Qed.

Lemma channel_exchange_consistent cold u own ctx :
  consistent None (channel_exchange cold u (fun resp e => XDone resp (timedOut own e) ctx)).
Proof. destruct u; [done..|]. split; [done|]. apply relay_body_consistent. Qed.

(** The transport keeps the promise, retry included: the second attempt is only made when the first reported
    nothing. *)
Lemma Do_consistent closed own ctx first second : consistent None (Do closed own ctx first second).
Proof.
  unfold Do. destruct closed; [done|]. destruct first as [e|e|e|cold u]; try done.
  destruct (wroteNothing u); [destruct second as [e|e|e|cold' u']; try done|]; apply channel_exchange_consistent.
Qed.
