(* ===== verification/Session.v ===== *)
(** * Streaming sessions in the enclave ([Session] of [tokenhive/tee/service.go], [tokenhive/tee/session.go])

    A session is a tunnel that is metered and attested: every byte that goes up
    is counted, every byte that comes down is counted and digested, up to the
    session's cap, and one receipt is signed at the end.  The uplink loop, the
    downlink pump and the two watchers of [relaySession] interleave; a session's
    history is any sequence of the operations they perform. *)

From S2P Require Import Prelude Bytes Crypto Receipt GoStrings Jobs Policy Credential SeqStore Transport Headers Tee.

Inductive readErr := ReadEOF | ReadFailed.

Section Session.
Context {SH : Sha256} {CB : Cbor} {EC : Ecdsa} {SC : SpecCbor} {PC : PolicyCbor} {GU : GoUnicode} {HJ : HeaderJson}
        {EV : EnvelopeCbor} {IL : InboxLib} {LE : LeafExpiry} {SQ : SeqStore}.

(** [sn_cached]: the result and the error of the first call of [Receipt] that signed. *)
Record Session := mkSession {
  sn_spec : Spec;
  sn_specHash : bytes;
  sn_decision : Decision;
  sn_seq : Z;
  sn_hasher : StreamingHasher;
  sn_started : Z;
  sn_downLimit : Z;
  sn_requestBytes : Z;
  sn_responseBytes : Z;
  sn_chunkCount : Z;
  sn_truncated : bool;
  sn_cached : option (res SignedReceipt);
}.

(** ** Opening *)

(** The checks of [OpenSession], in their order, up to the sequence number. *)
Definition session_checks (sv : Service) (clock : nat -> Z) (spec : Spec) (body : bytes)
    : res (Decision * gmap string string * bytes) :=
  let now := clock 0%nat in
  let signer := activeSigner sv 0 in
  fail_if (signerStaleAt signer now) ErrAttestationStale;;
  fail_if (match signingBudget signer (clock 1%nat) with Some b => b <=? 0 | None => false end) ErrAttestationStale;;
  _ ← match sv_submitterVerify sv with
      | Some verify => match verify spec with Err _ => Err "submitter rejected" | r => r end
      | None => Ok ()
      end;
  _ ← spec_ValidateAt spec now;
  fail_if (negb (MatchesBody spec body)) "request body does not match the hash committed in the job spec";;
  fail_if (negb (length body =? 0)%nat) "session job must carry an empty body";;
  fail_if (negb (sp_Session spec)) "session job must carry an empty body: Spec.Session is false";;
  decision ← AuthorizeAt (sv_policy sv) spec now;
  hs ← injectCredential sv spec;
  specHash ← spec_Hash spec;
  Ok (decision, hs, specHash).

Definition session_request (sv : Service) (spec : Spec) (hs : gmap string string) : Request :=
  mkRequest (sp_Method spec) (sp_Provider spec) (sp_Host spec) (sp_Path spec) (sp_Query spec) hs [] true 0
    (sv_requestTimeout sv) (sp_JobID spec).

Definition new_session (clock : nat -> Z) (spec : Spec) (specHash : bytes) (d : Decision) (seq : Z) : Session :=
  mkSession spec specHash d seq (NewStreamingHasher (sp_JobID spec)) (time_toUnix (clock 0%nat)) (sp_MaxResponseBytes spec)
    0 0 0 false None.

(** [opener]: [None] for a transport without sessions, else the handshake's verdict on a request. *)
Definition OpenSession (sv : Service) (clock : nat -> Z) (opener : option (Request -> res unit)) (sq : seq_state) (spec : Spec)
    (body : bytes) : seq_state * res Session :=
  match session_checks sv clock spec body with
  | Err e => (sq, Err e)
  | Panic => (sq, Panic)
  | Ok (d, hs, specHash) =>
      match seq_Next sq (sp_Provider spec) with
      | (sq, Err _) => (sq, Err "allocate provider sequence")
      | (sq, Panic) => (sq, Panic)
      | (sq, Ok seq) =>
          match opener with
          | None => (sq, Err "transport does not support sessions")
          | Some open =>
              match open (session_request sv spec hs) with
              | Ok _ => (sq, Ok (new_session clock spec specHash d seq))
              | Err _ => (sq, Err "open session")
              | Panic => (sq, Panic)
              end
          end
      end
  end.

(** ** Operating *)

(** [n] is what the connection took. *)
Definition session_Write (s : Session) (n : nat) : Session :=
  mkSession (sn_spec s) (sn_specHash s) (sn_decision s) (sn_seq s) (sn_hasher s) (sn_started s) (sn_downLimit s)
    (add64 (sn_requestBytes s) (Z.of_nat n)) (sn_responseBytes s) (sn_chunkCount s) (sn_truncated s) (sn_cached s).

Definition markTruncated (s : Session) : Session :=
  mkSession (sn_spec s) (sn_specHash s) (sn_decision s) (sn_seq s) (sn_hasher s) (sn_started s) (sn_downLimit s)
    (sn_requestBytes s) (sn_responseBytes s) (sn_chunkCount s) true (sn_cached s).

(** [p] and [err] are what the connection's own [Read] returned, if it is asked; the bytes handed to the caller and the error. *)
Definition session_Read (s : Session) (p : bytes) (err : option readErr) : Session * bytes * option readErr :=
  let limit := sn_downLimit s in
  let used := sn_responseBytes s in
  if (0 <? limit) && (limit <=? used) then (markTruncated s, [], Some ReadEOF) else
  let '(s, data) :=
    if (0 <? length p)%nat then
      let data := if (0 <? limit) && (limit <? add64 used (Z.of_nat (length p))) then take (Z.to_nat (sub64 limit used)) p else p in
      let responseBytes := add64 (sn_responseBytes s) (Z.of_nat (length data)) in
      (mkSession (sn_spec s) (sn_specHash s) (sn_decision s) (sn_seq s) (hasher_WriteChunk (sn_hasher s) data) (sn_started s)
         (sn_downLimit s) (sn_requestBytes s) responseBytes (add64 (sn_chunkCount s) 1)
         (sn_truncated s || ((0 <? limit) && (limit <=? responseBytes))) (sn_cached s), data)
    else (s, []) in
  let s := match err with Some ReadFailed => markTruncated s | _ => s end in
  (s, data, err).

(** The receipt of a session, before it is signed. *)
Definition session_receipt (s : Session) (finishedAt : Z) : Receipt :=
  mkReceipt VersionV1 (sp_JobID (sn_spec s)) (sn_specHash s) (sp_Provider (sn_spec s)) (sp_Method (sn_spec s)) (sp_Host (sn_spec s))
    (sp_Path (sn_spec s)) 101 (hasher_Sum (sn_hasher s)) (sn_chunkCount s) (sn_responseBytes s)
    (if sn_truncated s then CompletionTruncated else CompletionComplete) (sn_started s) finishedAt None
    (d_PolicyHash (sn_decision s)) (sn_requestBytes s) (sn_seq s) [].

(** [signer], [now] and [finishedAt] are read during the call.  A stale signer refuses and leaves nothing cached. *)
Definition session_Receipt (s : Session) (signer : option Signer) (now finishedAt : Z) : Session * res SignedReceipt :=
  match sn_cached s with
  | Some r => (s, r)
  | None =>
      if signerStaleAt signer now then (s, Err ErrAttestationStale) else
      let r := signer_Sign signer (session_receipt s finishedAt) in
      (mkSession (sn_spec s) (sn_specHash s) (sn_decision s) (sn_seq s) (sn_hasher s) (sn_started s) (sn_downLimit s)
         (sn_requestBytes s) (sn_responseBytes s) (sn_chunkCount s) (sn_truncated s) (Some r), r)
  end.

(** ** Histories *)

Inductive sessionOp :=
| SWrite (n : nat)                                    (* the uplink loop *)
| SRead (p : bytes) (err : option readErr)            (* the pump *)
| SCut                                                (* the signing-deadline watcher *)
| SReceipt (signer : option Signer) (now finishedAt : Z).

(** What a history delivered downlink, took uplink, and the receipts it returned. *)
Record sessionLog := mkSessionLog { lg_down : list bytes; lg_up : Z; lg_receipts : list (res SignedReceipt) }.

Definition session_step (x : Session * sessionLog) (op : sessionOp) : Session * sessionLog :=
  let '(s, l) := x in
  match op with
  | SWrite n => (session_Write s n, mkSessionLog (lg_down l) (lg_up l + Z.of_nat n) (lg_receipts l))
  | SRead p err =>
      let '(s, data, _) := session_Read s p err in
      (s, mkSessionLog (if (0 <? length data)%nat then lg_down l ++ [data] else lg_down l) (lg_up l) (lg_receipts l))
  | SCut => (markTruncated s, l)
  | SReceipt signer now finishedAt =>
      let '(s, r) := session_Receipt s signer now finishedAt in
      (s, mkSessionLog (lg_down l) (lg_up l) (lg_receipts l ++ [r]))
  end.

Definition session_run (s : Session) (ops : list sessionOp) : Session * sessionLog :=
  fold_left session_step ops (s, mkSessionLog [] 0 []).
End Session.

(** ** What the receipt says *)

Section Facts.
Context {SH : Sha256} {CB : Cbor} {EC : Ecdsa} {SC : SpecCbor} {PC : PolicyCbor} {GU : GoUnicode} {HJ : HeaderJson}
        {EV : EnvelopeCbor} {IL : InboxLib} {LE : LeafExpiry} {SQ : SeqStore}.

(** The session was not cut by the enclave and no read failed. *)
Definition undisturbed (op : sessionOp) : Prop :=
  match op with SCut | SRead _ (Some ReadFailed) => False | _ => True end.

(** The slices of a Go program are shorter than 2^63. *)
Definition op_fits (op : sessionOp) : Prop := match op with SRead p _ => Z.of_nat (length p) < 2 ^ 63 | _ => True end.

Definition signed_once (l : list (res SignedReceipt)) (cached : option (res SignedReceipt)) : Prop :=
  match cached with
  | Some r => exists stale, Forall (fun x => x = Err ErrAttestationStale) stale /\ exists k, l = stale ++ replicate (S k) r
  | None => Forall (fun x => x = Err ErrAttestationStale) l
  end.

Record session_inv (spec : Spec) (ops : list sessionOp) (s : Session) (l : sessionLog) : Prop := {
  si_spec : sn_spec s = spec /\ sn_downLimit s = sp_MaxResponseBytes spec;
  si_hasher : sn_hasher s = fold_left hasher_WriteChunk (lg_down l) (NewStreamingHasher (sp_JobID spec));
  si_down : sn_responseBytes s = u64 (sent (lg_down l));
  si_chunks : sn_chunkCount s = u64 (Z.of_nat (length (lg_down l)));
  si_up : sn_requestBytes s = u64 (lg_up l);
  si_cap : 0 < sp_MaxResponseBytes spec -> sent (lg_down l) <= sp_MaxResponseBytes spec;
  si_full : sn_truncated s = false -> Forall undisturbed ops
    /\ (0 < sp_MaxResponseBytes spec -> sent (lg_down l) < sp_MaxResponseBytes spec);
  si_signed : signed_once (lg_receipts l) (sn_cached s);
}.

Lemma read_inv spec ops s l p err :
  sp_MaxResponseBytes spec < 2 ^ 63 -> op_fits (SRead p err) -> session_inv spec ops s l ->
  let '(s', l') := session_step (s, l) (SRead p err) in session_inv spec (ops ++ [SRead p err]) s' l'.
Proof.
  intros M F [[Es El] Hh Hd Hc Hu Hcap Hf Hs]. cbn [session_step]. unfold session_Read. rewrite El, Hd. cbn in F.
  set (lim := sp_MaxResponseBytes spec) in *. set (d := sent (lg_down l)) in *.
  assert (D0 : 0 <= d) by (unfold d, sent; lia).
  assert (Small : 0 < lim -> u64 d = d) by (intros L; apply u64_id; unfold is_u64; specialize (Hcap L); lia).
  destruct ((0 <? lim) && (lim <=? u64 d)) eqn:Full; [by split|].
  destruct (Nat.ltb_spec 0 (length p)) as [Lp|Lp].
  2: { destruct err as [[]|]; split; cbn; try done; intros T; destruct (Hf T) as [U ?]; (split; [|done]);
       apply Forall_app_2; [done|by constructor|done|by constructor]. }
  set (data := if _ && _ then take _ p else p).
  assert (Ld : (0 < length data)%nat /\ (0 < lim -> d + Z.of_nat (length data) <= lim)).
  { subst data. destruct (Z.ltb_spec 0 lim) as [L|L]; cbn [andb] in *; [|split; [lia|lia]]. specialize (Small L). specialize (Hcap L).
    apply Z.leb_gt in Full. rewrite Small in *. unfold add64, sub64. rewrite (u64_id (d + _)) by (unfold is_u64; lia).
    rewrite (u64_id (lim - d)) by (unfold is_u64; lia).
    destruct (Z.ltb_spec lim (d + Z.of_nat (length p))); [|split; [done|lia]]. rewrite length_take. lia. }
  destruct Ld as [Ld Cap]. cbn zeta. rewrite (proj2 (Nat.ltb_lt _ _) Ld).
  assert (Sd : add64 (u64 d) (Z.of_nat (length data)) = u64 (sent (lg_down l ++ [data]))).
  { rewrite sent_snoc. unfold add64, u64. by rewrite Zplus_mod_idemp_l. }
  assert (Sc : add64 (sn_chunkCount s) 1 = u64 (Z.of_nat (length (lg_down l ++ [data])))).
  { rewrite Hc, length_app, Nat2Z.inj_add. unfold add64, u64. by rewrite Zplus_mod_idemp_l. }
  assert (G : forall s0, s0 = mkSession (sn_spec s) (sn_specHash s) (sn_decision s) (sn_seq s) (hasher_WriteChunk (sn_hasher s) data)
      (sn_started s) lim (sn_requestBytes s) (add64 (u64 d) (Z.of_nat (length data))) (add64 (sn_chunkCount s) 1)
      (sn_truncated s || ((0 <? lim) && (lim <=? add64 (u64 d) (Z.of_nat (length data))))) (sn_cached s) ->
    session_inv spec (ops ++ [SRead p err]) (match err with Some ReadFailed => markTruncated s0 | _ => s0 end)
      (mkSessionLog (lg_down l ++ [data]) (lg_up l) (lg_receipts l))).
  { intros s0 ->. assert (T : forall u, u || ((0 <? lim) && (lim <=? add64 (u64 d) (Z.of_nat (length data)))) = false ->
      u = false /\ (0 < lim -> sent (lg_down l ++ [data]) < lim)).
    { intros u [-> X]%orb_false_iff. split; [done|]. intros L. rewrite (proj2 (Z.ltb_lt _ _) L), Sd in X. apply Z.leb_gt in X.
      rewrite sent_snoc in *. fold d in X |- *. specialize (Cap L). rewrite u64_id in X by (unfold is_u64; lia). done. }
    destruct err as [[]|]; split; cbn; try done; try (by rewrite fold_left_app, Hh); try (by rewrite sent_snoc; fold d).
    - intros X. destruct (T _ X) as [Y ?]. destruct (Hf Y) as [? _]. split; [|done]. apply Forall_app_2; [done|by constructor].
    - intros X. destruct (T _ X) as [Y ?]. destruct (Hf Y) as [? _]. split; [|done]. apply Forall_app_2; [done|by constructor]. }
  by apply G.
Qed.

Lemma step_inv spec ops op s l :
  sp_MaxResponseBytes spec < 2 ^ 63 -> op_fits op -> session_inv spec ops s l ->
  let '(s', l') := session_step (s, l) op in session_inv spec (ops ++ [op]) s' l'.
Proof.
  intros M F I. destruct op as [n|p err| |signer now fin]; [|by apply read_inv|..]; destruct I as [[Es El] Hh Hd Hc Hu Hcap Hf Hs].
  - split; cbn; try done.
    + rewrite Hu. unfold add64, u64. by rewrite Zplus_mod_idemp_l.
    + intros T. destruct (Hf T). split; [|done]. apply Forall_app_2; [done|by constructor].
  - by split.
  - cbn [session_step]. unfold session_Receipt.
    assert (U : forall t, (t = false -> Forall undisturbed ops /\ (0 < sp_MaxResponseBytes spec -> sent (lg_down l) < sp_MaxResponseBytes spec)) ->
      t = false -> Forall undisturbed (ops ++ [SReceipt signer now fin])
        /\ (0 < sp_MaxResponseBytes spec -> sent (lg_down l) < sp_MaxResponseBytes spec)).
    { intros t H T. destruct (H T). split; [|done]. apply Forall_app_2; [done|by constructor]. }
    destruct (sn_cached s) as [r|] eqn:C.
    + split; cbn; try done; [by apply U|]. rewrite C. destruct Hs as (stale & Fs & k & ->). exists stale. split; [done|].
      exists (S k). rewrite <- app_assoc. f_equal. symmetry. apply replicate_S_end.
    + destruct (signerStaleAt signer now).
      * split; cbn; try done; [by apply U|]. rewrite C. apply Forall_app_2; [done|by constructor].
      * split; cbn; try done; [by apply U|]. by exists (lg_receipts l); split; [|exists 0%nat].
Qed.

Lemma run_inv clock spec specHash d seq ops :
  sp_MaxResponseBytes spec < 2 ^ 63 -> Forall op_fits ops ->
  let '(s, l) := session_run (new_session clock spec specHash d seq) ops in session_inv spec ops s l.
Proof.
  intros M F. unfold session_run. induction ops as [|op ops IH] using rev_ind.
  - split; cbn; try done; unfold sent; cbn; lia.
  - apply Forall_app in F as [F Fo]. inv Fo. specialize (IH F). rewrite fold_left_app. cbn [fold_left].
    destruct (fold_left session_step ops _) as [s l]. by apply step_inv.
Qed.

(** A session's receipt is exact under every interleaving of its uplink, its downlink and its watchers.  It
    digests exactly the bytes the caller was handed, counts them, their chunks and the bytes that went up, never
    attests more than the session's cap, and says complete only when the session was not cut, no read failed and
    the cap was not reached.  The receipt is signed once: after the first call that signed, every call returns the
    same answer, and before it every call refused for a stale signer. *)
Theorem session_receipt_is_exact clock spec specHash d seq ops fin :
  sp_MaxResponseBytes spec < 2 ^ 63 -> Forall op_fits ops ->
  let '(s, l) := session_run (new_session clock spec specHash d seq) ops in
  let r := session_receipt s fin in
  sent (lg_down l) < 2 ^ 64 -> 0 <= lg_up l < 2 ^ 64 ->
  MatchesStream r (lg_down l) = true
  /\ (ResponseBytes r = sent (lg_down l) /\ ChunkCount r = u64 (Z.of_nat (length (lg_down l))) /\ RequestBytes r = lg_up l)
  /\ (0 < sp_MaxResponseBytes spec -> ResponseBytes r <= sp_MaxResponseBytes spec)
  /\ (Completion r = CompletionComplete -> Forall undisturbed ops
      /\ (0 < sp_MaxResponseBytes spec -> ResponseBytes r < sp_MaxResponseBytes spec))
  /\ signed_once (lg_receipts l) (sn_cached s).
Proof.
  intros M F. pose proof (run_inv clock spec specHash d seq ops M F) as I.
  destruct (session_run _ ops) as [s l]. destruct I as [[Es El] Hh Hd Hc Hu Hcap Hf Hs]. intros r Ld Lu.
  assert (Ed : ResponseBytes r = sent (lg_down l)).
  { cbn. rewrite Hd. apply u64_id. unfold is_u64, sent in *. lia. }
  split; [|split; [|split; [|split; [|done]]]].
  - apply MatchesStream_spec. cbn [r session_receipt StreamHash JobID]. rewrite Es, Hh. split; [apply sha256_length|].
    by rewrite <- HashResponseStream_concat.
  - split; [done|]. split; [done|]. cbn. rewrite Hu. by apply u64_id.
  - rewrite Ed. done.
  - rewrite Ed. cbn [r session_receipt Completion]. destruct (sn_truncated s); [done|]. intros _. by apply Hf.
Qed.
End Facts.

(** ** A concrete session *)

Definition demo_session_spec : Spec :=
  mkSpec 1 (zeros 16) "openai" "GET" "api.openai.com" "/v1/realtime" "" ∅ (zeros 32) (zeros 8) 1735690000 4 true true [1].

Definition demo_session_ops : list sessionOp :=
  [SWrite 7; SRead [1; 2; 3] None; SWrite 2; SRead [4; 5; 6] None; SRead [] (Some ReadEOF);
   SReceipt (Some (mkSigner (Some demo_epoch) false)) demo_now 1735689700].

Definition demo_session : Session := new_session demo_clock demo_session_spec (zeros 32) (mkDecision (mkRule [] "/" true [] true) 4 4 (zeros 32)) 1.

Lemma session_receipt_is_exact_witness :
  exists s l, @session_run const_sha toy_cbor demo_leaf demo_session demo_session_ops = (s, l)
    /\ lg_down l = [[1; 2; 3]; [4]] /\ ResponseBytes (session_receipt s 0) = 4 /\ RequestBytes (session_receipt s 0) = 9
    /\ Completion (session_receipt s 0) = CompletionTruncated /\ length (lg_receipts l) = 1%nat.
Proof.
  pose proof (@session_receipt_is_exact const_sha toy_cbor demo_leaf demo_clock
    demo_session_spec (zeros 32) (mkDecision (mkRule [] "/" true [] true) 4 4 (zeros 32)) 1 demo_session_ops 0) as T.
  fold demo_session in T.
  assert (D : (let '(s, l) := @session_run const_sha toy_cbor demo_leaf demo_session demo_session_ops in
    (lg_down l, lg_up l, Completion (session_receipt s 0), length (lg_receipts l))) = ([[1; 2; 3]; [4]], 9, CompletionTruncated, 1%nat))
    by (vm_compute; reflexivity).
  destruct (session_run demo_session demo_session_ops) as [s l]. exists s, l. split; [reflexivity|].
  apply pair_equal_spec in D as [D L]. apply pair_equal_spec in D as [D C]. apply pair_equal_spec in D as [Dd Du].
  rewrite Dd, Du in T. destruct T as (_ & (E1 & _ & E2) & _).
  - vm_compute. reflexivity.
  - repeat constructor.
  - vm_compute. reflexivity.
  - lia.
  - split; [exact Dd|]. split; [exact E1|]. split; [exact E2|]. split; [exact C|exact L].
Defined.
