(* ===== verification/Pricing.v ===== *)
(** * Rate cards, prices and commission ([tokenhive/hub]: [rates.go], [pricing.go], [commission.go])

    What a receipt earns a seller and what the buyer pays on top, in 64-bit
    micro-units with explicit overflow checks.  The specification is the same
    price over unbounded integers ([earned]); the code returns it exactly, or
    reports an overflow exactly when it does not fit. *)

From S2P Require Import Prelude Bytes Crypto Receipt.

(** ** Checked arithmetic *)

Definition addChecked (a b : Z) : Z * bool :=
  let sum := add64 a b in (sum, a <=? sum).

Definition mulChecked (a b : Z) : Z * bool :=
  if (a =? 0) || (b =? 0) then (0, true) else
  let product := u64 (a * b) in (product, product / b =? a).

(** ** Rate cards *)

Definition MaxRateModels : nat := 64.
Definition MaxModelNameLength : nat := 64.
Definition MaxRateMicros : Z := 2 ^ 40.
Definition ErrInvalidRateCard : error := "invalid rate card".

Record RateCard := mkCard {
  PerRequestMicros : Z;
  PerMegabyteMicros : Z;
  ModelPremiumMicros : gmap string Z;
}.

Definition premium_bad (entry : string * Z) : bool :=
  String.eqb entry.1 "" || (MaxModelNameLength <? String.length entry.1)%nat || (MaxRateMicros <? entry.2).

Definition card_Validate (r : RateCard) : res unit :=
  fail_if ((MaxRateMicros <? PerRequestMicros r)) ErrInvalidRateCard;;
  fail_if ((MaxRateMicros <? PerMegabyteMicros r)) ErrInvalidRateCard;;
  fail_if ((MaxRateModels <? size (ModelPremiumMicros r))%nat) ErrInvalidRateCard;;
  fail_if (existsb premium_bad (map_to_list (ModelPremiumMicros r))) ErrInvalidRateCard;;
  Ok ().

(** Reading a missing key of a Go map gives the zero value. *)
Definition Premium (r : RateCard) (model : string) : Z := default 0 (ModelPremiumMicros r !! model).

(** ** Prices *)

Definition mebibyte : Z := 2 ^ 20.
Definition sessionStatus : Z := 101.
Definition ErrPriceOverflow : error := "rate card prices this receipt out of range".

Definition Billable (r : Receipt) : bool :=
  if negb (Completion r =? CompletionComplete) then false else
  if (200 <=? StatusCode r) && (StatusCode r <? 300) then true else
  StatusCode r =? sessionStatus.

Definition Price (card : RateCard) (declaredModel : string) (relayedBytes : Z) (r : Receipt) : res Z :=
  if negb (Completion r =? CompletionComplete) && negb (Completion r =? CompletionTruncated) then Ok 0 else
  if ((StatusCode r <? 200) || (300 <=? StatusCode r)) && negb (StatusCode r =? sessionStatus) then Ok 0 else
  let delivered := if relayedBytes <? ResponseBytes r then relayedBytes else ResponseBytes r in
  if (Completion r =? CompletionTruncated) && (delivered =? 0) then Ok 0 else
  let '(billed, ok) := addChecked (RequestBytes r) delivered in
  fail_if (negb ok) ErrPriceOverflow;;
  let volumes := sub64 (add64 billed mebibyte) 1 / mebibyte in
  let '(total, ok) := mulChecked volumes (PerMegabyteMicros card) in
  fail_if (negb ok) ErrPriceOverflow;;
  if Completion r =? CompletionComplete then
    let '(fee, ok) := addChecked (PerRequestMicros card) (Premium card declaredModel) in
    fail_if (negb ok) ErrPriceOverflow;;
    let '(total, ok) := addChecked total fee in
    fail_if (negb ok) ErrPriceOverflow;;
    Ok total
  else Ok total.

(** ** Commission *)

Definition CommissionOn (basisPoints seller : Z) : res Z :=
  if (basisPoints =? 0) || (seller =? 0) then Ok 0 else
  let '(scaled, ok) := mulChecked seller basisPoints in
  fail_if (negb ok) ErrPriceOverflow;;
  Ok (scaled / 10000).

Definition BuyerPrice (basisPoints seller : Z) : res Z :=
  commission ← CommissionOn basisPoints seller;
  let '(buyer, ok) := addChecked seller commission in
  fail_if (negb ok) ErrPriceOverflow;;
  Ok buyer.

(** Neither ever panics. *)
Lemma price_no_panic card model relayed r : Price card model relayed r <> Panic.
Proof.
  unfold Price. destruct (_ && _); [done|]. destruct (_ && _); [done|]. destruct (_ && _); [done|]. destruct (addChecked _ _) as [? []]; [|done].
  cbn [negb]. destruct (mulChecked _ _) as [? []]; [|done]. cbn [negb]. destruct (_ =? _); [|done]. destruct (addChecked _ (Premium _ _)) as [? []]; [|done].
  cbn [negb]. by destruct (addChecked _ _) as [? []].
Qed.

Lemma commission_no_panic basisPoints seller : CommissionOn basisPoints seller <> Panic.
Proof. unfold CommissionOn. destruct (_ || _); [done|]. by destruct (mulChecked _ _) as [? []]. Qed.

(** ** The checked operations *)

Lemma addChecked_spec a b :
  is_u64 a -> is_u64 b -> addChecked a b = (u64 (a + b), a + b <? 2 ^ 64).
Proof.
  unfold is_u64, addChecked, add64, u64. intros Ha Hb. f_equal.
  destruct (Z.ltb_spec (a + b) (2 ^ 64)).
  - rewrite Z.mod_small by lia. apply Z.leb_le. lia.
  - apply Z.leb_gt. replace (a + b) with (a + b - 2 ^ 64 + 1 * 2 ^ 64) by lia.
    rewrite Z.mod_add by lia. rewrite Z.mod_small; lia.
Qed.

Lemma mulChecked_spec a b :
  is_u64 a -> is_u64 b -> mulChecked a b = (u64 (a * b), a * b <? 2 ^ 64).
Proof.
  unfold is_u64, mulChecked, u64. intros Ha Hb.
  destruct (Z.eqb_spec a 0) as [->|Na]; [done|].
  destruct (Z.eqb_spec b 0) as [->|Nb]; [by rewrite Z.mul_0_r|]. cbn [orb]. f_equal.
  destruct (Z.ltb_spec (a * b) (2 ^ 64)) as [L|L].
  - rewrite Z.mod_small by nia. rewrite Z.div_mul by done. by rewrite Z.eqb_refl.
  - apply Z.eqb_neq. intros E.
    pose proof (Z.mod_pos_bound (a * b) (2 ^ 64)). pose proof (Z.mul_div_le (a * b mod 2 ^ 64) b).
    nia.
Qed.

(** ** The price over unbounded integers *)

Definition checked (z : Z) : res Z := if z <? 2 ^ 64 then Ok z else Err ErrPriceOverflow.

(** Whole mebibytes, rounded up. *)
Definition volume_units (billed : Z) : Z := (billed + (mebibyte - 1)) / mebibyte.

Definition paying_status (status : Z) : bool := ((200 <=? status) && (status <? 300)) || (status =? sessionStatus).

Definition delivered_bytes (relayedBytes : Z) (r : Receipt) : Z := Z.min (ResponseBytes r) relayedBytes.

Definition billed_bytes (relayedBytes : Z) (r : Receipt) : Z := RequestBytes r + delivered_bytes relayedBytes r.

Definition flat_fee (card : RateCard) (model : string) : Z := PerRequestMicros card + Premium card model.

(** The three outcomes: a completed success earns the volume rate, the request
    fee and the premium; a truncated stream that delivered something earns the
    volume rate; anything else earns nothing. *)
Definition earned (card : RateCard) (model : string) (relayedBytes : Z) (r : Receipt) : Z :=
  let volume := volume_units (billed_bytes relayedBytes r) * PerMegabyteMicros card in
  if negb (paying_status (StatusCode r)) then 0 else
  if Completion r =? CompletionComplete then volume + flat_fee card model else
  if (Completion r =? CompletionTruncated) && (0 <? delivered_bytes relayedBytes r) then volume else 0.

(** The widths of the Go fields. *)
Record card_ok (c : RateCard) : Prop := {
  card_request : is_u64 (PerRequestMicros c);
  card_volume : is_u64 (PerMegabyteMicros c);
  card_premiums : map_Forall (fun _ => is_u64) (ModelPremiumMicros c);
}.

Record sizes_ok (relayedBytes : Z) (r : Receipt) : Prop := {
  size_relayed : is_u64 relayedBytes;
  size_request : is_u64 (RequestBytes r);
  size_response : is_u64 (ResponseBytes r);
}.

Lemma Premium_u64 c model : card_ok c -> is_u64 (Premium c model).
Proof.
  intros [_ _ Hp]. unfold Premium. destruct (ModelPremiumMicros c !! model) eqn:E; [|done]. by apply (Hp model).
Qed.

Lemma delivered_u64 rel r : sizes_ok rel r -> is_u64 (delivered_bytes rel r).
Proof. intros [H1 H2 H3]. unfold delivered_bytes, is_u64 in *. lia. Qed.

Lemma Price_unfold card model rel r :
  Price card model rel r =
  if negb (paying_status (StatusCode r)) then Ok 0 else
  if negb ((Completion r =? CompletionComplete)
           || (Completion r =? CompletionTruncated) && (negb (delivered_bytes rel r =? 0))) then Ok 0 else
  let '(billed, ok) := addChecked (RequestBytes r) (delivered_bytes rel r) in
  fail_if (negb ok) ErrPriceOverflow;;
  let '(total, ok) := mulChecked (sub64 (add64 billed mebibyte) 1 / mebibyte) (PerMegabyteMicros card) in
  fail_if (negb ok) ErrPriceOverflow;;
  if Completion r =? CompletionComplete then
    let '(fee, ok) := addChecked (PerRequestMicros card) (Premium card model) in
    fail_if (negb ok) ErrPriceOverflow;;
    let '(total, ok) := addChecked total fee in
    fail_if (negb ok) ErrPriceOverflow;;
    Ok total
  else Ok total.
Proof.
  unfold Price.
  replace (if rel <? ResponseBytes r then rel else ResponseBytes r) with (delivered_bytes rel r)
    by (unfold delivered_bytes; destruct (Z.ltb_spec rel (ResponseBytes r)); lia).
  replace (((StatusCode r <? 200) || (300 <=? StatusCode r)) && negb (StatusCode r =? sessionStatus))
    with (negb (paying_status (StatusCode r)))
    by (unfold paying_status; destruct (Z.leb_spec 200 (StatusCode r)), (Z.ltb_spec (StatusCode r) 300),
          (Z.ltb_spec (StatusCode r) 200), (Z.leb_spec 300 (StatusCode r)); lia || done).
  destruct (Z.eqb_spec (Completion r) CompletionComplete) as [->|]; [by destruct (paying_status _)|].
  destruct (Z.eqb_spec (Completion r) CompletionTruncated); destruct (paying_status _); try done.
  cbn [negb andb orb]. by destruct (_ =? 0).
Qed.

(** The three regimes of the rounding step. *)
Lemma volumes_exact b :
  0 <= b <= 2 ^ 64 - mebibyte -> sub64 (add64 b mebibyte) 1 / mebibyte = volume_units b.
Proof.
  unfold sub64, add64, volume_units, mebibyte, u64. intros H. f_equal.
  rewrite Zminus_mod_idemp_l, Z.mod_small; lia.
Qed.

Lemma volumes_wrap b :
  2 ^ 64 - mebibyte < b < 2 ^ 64 -> sub64 (add64 b mebibyte) 1 / mebibyte = 0.
Proof.
  unfold sub64, add64, mebibyte, u64. intros H. rewrite Zminus_mod_idemp_l.
  replace (b + 2 ^ 20 - 1) with (b + 2 ^ 20 - 1 - 2 ^ 64 + 1 * 2 ^ 64) by lia.
  rewrite Z.mod_add by lia. rewrite Z.mod_small by lia. apply Z.div_small. lia.
Qed.

Lemma volume_units_bounds b : 0 <= b < 2 ^ 64 -> 0 <= volume_units b <= 2 ^ 44.
Proof.
  unfold volume_units, mebibyte. intros H. split; [apply Z.div_pos; lia|].
  apply Z.lt_succ_r, Z.div_lt_upper_bound; lia.
Qed.

(** The checked steps after the rounding, for any number of units. *)
Lemma price_steps card model units complete :
  card_ok card -> is_u64 units ->
  (let '(total, ok) := mulChecked units (PerMegabyteMicros card) in
   fail_if (negb ok) ErrPriceOverflow;;
   if complete : bool then
     let '(fee, ok) := addChecked (PerRequestMicros card) (Premium card model) in
     fail_if (negb ok) ErrPriceOverflow;;
     let '(total, ok) := addChecked total fee in
     fail_if (negb ok) ErrPriceOverflow;;
     Ok total
   else Ok total)
  = checked (units * PerMegabyteMicros card + if complete then flat_fee card model else 0).
Proof.
  intros Hc Hu. pose proof (Premium_u64 card model Hc) as Hp. destruct Hc as [Hr Hv _].
  unfold checked, flat_fee, is_u64 in *. rewrite mulChecked_spec by done.
  destruct (Z.ltb_spec (units * PerMegabyteMicros card) (2 ^ 64)) as [Lv|Lv]; cbn [negb].
  - rewrite u64_id by (unfold is_u64; nia). destruct complete.
    + rewrite addChecked_spec by done.
      destruct (Z.ltb_spec (PerRequestMicros card + Premium card model) (2 ^ 64)) as [Lf|Lf]; cbn [negb].
      * rewrite u64_id by (unfold is_u64; lia). rewrite addChecked_spec by (unfold is_u64; nia).
        destruct (Z.ltb_spec (units * PerMegabyteMicros card + (PerRequestMicros card + Premium card model)) (2 ^ 64));
          cbn [negb]; [|done]. rewrite u64_id by (unfold is_u64; nia). done.
      * destruct (Z.ltb_spec (units * PerMegabyteMicros card + (PerRequestMicros card + Premium card model)) (2 ^ 64));
          [nia|done].
    + rewrite Z.add_0_r. destruct (Z.ltb_spec (units * PerMegabyteMicros card) (2 ^ 64)); [done|lia].
  - destruct (Z.ltb_spec (units * PerMegabyteMicros card + if complete then PerRequestMicros card + Premium card model else 0) (2 ^ 64));
      [destruct complete; lia|done].
Qed.

(** The price with the rounding step left as it is. *)
Lemma Price_steps card model rel r units :
  card_ok card -> sizes_ok rel r -> billed_bytes rel r < 2 ^ 64 -> is_u64 units ->
  sub64 (add64 (billed_bytes rel r) mebibyte) 1 / mebibyte = units ->
  Price card model rel r =
  if negb (paying_status (StatusCode r)) then Ok 0 else
  if Completion r =? CompletionComplete then checked (units * PerMegabyteMicros card + flat_fee card model) else
  if (Completion r =? CompletionTruncated) && (0 <? delivered_bytes rel r)
  then checked (units * PerMegabyteMicros card) else Ok 0.
Proof.
  intros Hc Hs Hb Hu E. pose proof (delivered_u64 _ _ Hs) as Hd. destruct Hs as [_ Hq _].
  rewrite Price_unfold. destruct (paying_status (StatusCode r)); [|done]. cbn [negb].
  rewrite addChecked_spec by done. unfold billed_bytes in *.
  rewrite (proj2 (Z.ltb_lt _ _) Hb), u64_id by (unfold is_u64 in *; lia). rewrite E, price_steps by done.
  destruct (Completion r =? CompletionComplete); [done|].
  replace (negb (delivered_bytes rel r =? 0)) with (0 <? delivered_bytes rel r)
    by (unfold is_u64 in Hd; destruct (Z.ltb_spec 0 (delivered_bytes rel r)), (Z.eqb_spec (delivered_bytes rel r) 0); lia || done).
  cbn [orb negb]. destruct (_ && _); [|done]. by rewrite Z.add_0_r.
Qed.

Lemma Price_earned card model rel r :
  card_ok card -> sizes_ok rel r -> billed_bytes rel r <= 2 ^ 64 - mebibyte ->
  Price card model rel r = checked (earned card model rel r).
Proof.
  intros Hc Hs Hb. pose proof (delivered_u64 _ _ Hs) as Hd.
  assert (Hb0 : 0 <= billed_bytes rel r).
  { destruct Hs as [_ Hq _]. unfold billed_bytes, is_u64 in *. lia. }
  pose proof (volume_units_bounds (billed_bytes rel r)) as Hv. unfold mebibyte in Hb.
  rewrite (Price_steps card model rel r (volume_units (billed_bytes rel r))); [|done|done|lia|..].
  2: { unfold is_u64. lia. }
  2: { apply volumes_exact. unfold mebibyte. lia. }
  unfold earned. destruct (paying_status _); [|done]. cbn [negb].
  destruct (_ =? CompletionComplete); [done|]. by destruct (_ && _).
Qed.

(** The price of a receipt is exactly what the rate card says over unbounded integers (volume rounded up to
    whole mebibytes over the request and the delivered response, the request fee and model premium for a
    completed success only, nothing for anything but a success), and the overflow error is returned exactly
    when that amount does not fit 64 bits. *)
Theorem price_is_exact card model rel r :
  card_ok card -> sizes_ok rel r -> billed_bytes rel r <= 2 ^ 64 - mebibyte ->
  Price card model rel r = checked (earned card model rel r).
Proof.
  apply Price_earned.
Qed.

(** Above 2^64 - 2^20 billed bytes the rounding step [billed + mebibyte - 1] wraps unchecked: the volume
    counts as zero units and a completed exchange is charged the flat fee alone, without the overflow error the
    other steps report, although the card asks for 2^44 units. *)
Theorem price_drops_volume_near_overflow card model rel r :
  card_ok card -> sizes_ok rel r -> 2 ^ 64 - mebibyte < billed_bytes rel r < 2 ^ 64 ->
  Completion r = CompletionComplete -> Billable r = true ->
  Price card model rel r = checked (flat_fee card model)
  /\ volume_units (billed_bytes rel r) = 2 ^ 44.
Proof.
  intros Hc Hs Hb Ec Hbill. split.
  - rewrite (Price_steps card model rel r 0); [|done|done|lia|done|by apply volumes_wrap].
    unfold Billable in Hbill. rewrite Ec in *. unfold paying_status. cbn [negb Z.eqb CompletionComplete Pos.eqb] in *.
    destruct (_ && _); cbn [orb negb]; [done|]. by rewrite Hbill.
  - unfold volume_units, mebibyte in *. symmetry. apply (Z.div_unique _ _ _ (billed_bytes rel r + (2 ^ 20 - 1) - 2 ^ 64)); lia.
Qed.

(** ** Validated cards *)

Lemma card_Validate_spec c :
  card_Validate c = Ok () ->
  PerRequestMicros c <= MaxRateMicros /\ PerMegabyteMicros c <= MaxRateMicros
  /\ (size (ModelPremiumMicros c) <= MaxRateModels)%nat
  /\ map_Forall (fun model micros => model <> ""%string /\ (String.length model <= MaxModelNameLength)%nat
                                     /\ micros <= MaxRateMicros) (ModelPremiumMicros c).
Proof.
  unfold card_Validate. intros E. do 4 inv_guard E.
  norm_guards. split_and!; [done..|]. intros model micros Hm.
  apply not_true_iff_false in Hguard2. destruct (premium_bad (model, micros)) eqn:B.
  { exfalso. apply Hguard2, existsb_exists. exists (model, micros). split; [|done].
    by apply list_elem_of_In, elem_of_map_to_list. }
  unfold premium_bad in B. norm_guards. by split_and!.
Qed.

Lemma Premium_max c model : card_Validate c = Ok () -> Premium c model <= MaxRateMicros.
Proof.
  intros V. destruct (card_Validate_spec _ V) as (_ & _ & _ & F). unfold Premium.
  destruct (ModelPremiumMicros c !! model) eqn:E; [by destruct (F model z E) as (_ & _ & ?)|done].
Qed.

(** The bound on a validated card does its job: for any exchange of up to 8 TiB a validated card never
    overflows the price, whatever the receipt says. *)
Theorem validated_card_never_overflows card model rel r :
  card_ok card -> card_Validate card = Ok () -> sizes_ok rel r -> billed_bytes rel r <= 2 ^ 43 ->
  Price card model rel r = Ok (earned card model rel r)
  /\ earned card model rel r <= (2 ^ 23 + 2) * MaxRateMicros.
Proof.
  intros Hc V Hs Hb. pose proof (delivered_u64 _ _ Hs) as Hd.
  assert (He : 0 <= earned card model rel r <= (2 ^ 23 + 2) * MaxRateMicros).
  { destruct (card_Validate_spec _ V) as (V1 & V2 & _). pose proof (Premium_max card model V) as V3.
    pose proof (Premium_u64 card model Hc) as P. destruct Hc as [C1 C2 _], Hs as [_ Hq _].
    assert (U : 0 <= volume_units (billed_bytes rel r) <= 2 ^ 23).
    { unfold volume_units, mebibyte, billed_bytes, is_u64 in *. split; [apply Z.div_pos; lia|].
      apply Z.lt_succ_r, Z.div_lt_upper_bound; lia. }
    unfold earned, flat_fee, MaxRateMicros, is_u64 in *.
    repeat match goal with |- context [if ?c then _ else _] => destruct c end; nia. }
  split; [|lia]. rewrite (Price_earned card model rel r) by (done || unfold mebibyte; lia).
  unfold checked. rewrite (proj2 (Z.ltb_lt _ _)); [done|]. unfold MaxRateMicros in He. lia.
Qed.

(** ** Commission and the buyer's bill *)

Lemma CommissionOn_spec bps seller :
  is_u64 bps -> is_u64 seller ->
  CommissionOn bps seller = if seller * bps <? 2 ^ 64 then Ok (seller * bps / 10000) else Err ErrPriceOverflow.
Proof.
  intros Hb Hs. unfold CommissionOn.
  destruct (Z.eqb_spec bps 0) as [->|Nb]; [by rewrite Z.mul_0_r|].
  destruct (Z.eqb_spec seller 0) as [->|Ns]; [done|]. cbn [orb]. rewrite mulChecked_spec by done.
  destruct (Z.ltb_spec (seller * bps) (2 ^ 64)); [|done]. cbn [negb].
  rewrite u64_id; [done|]. unfold is_u64 in *. nia.
Qed.

(** The buyer pays the seller's price plus the commission rounded down to a whole micro-unit (so the Hub never
    keeps more than its rate, and less than one unit under it), and a bill that does not fit 64 bits is refused
    rather than wrapped. *)
Theorem buyer_price_is_exact bps seller :
  is_u64 bps -> is_u64 seller ->
  match BuyerPrice bps seller with
  | Ok buyer => buyer = seller + seller * bps / 10000 /\ is_u64 buyer
                /\ 10000 * (buyer - seller) <= seller * bps < 10000 * (buyer - seller + 1)
  | Err e => e = ErrPriceOverflow
             /\ (2 ^ 64 <= seller * bps \/ 2 ^ 64 <= seller + seller * bps / 10000)
  | Panic => False
  end.
Proof.
  intros Hb Hs. unfold BuyerPrice. rewrite CommissionOn_spec by done.
  destruct (Z.ltb_spec (seller * bps) (2 ^ 64)) as [L|L]; cbn [mbind res_bind]; [|split; [done|by left]].
  assert (P : 0 <= seller * bps) by (unfold is_u64 in *; nia).
  pose proof (Z.div_pos _ 10000 P). pose proof (Z.div_le_upper_bound (seller * bps) 10000 (2 ^ 64 - 1)).
  pose proof (Z.mul_div_le (seller * bps) 10000). pose proof (Z.mul_succ_div_gt (seller * bps) 10000).
  rewrite addChecked_spec by (unfold is_u64 in *; lia).
  destruct (Z.ltb_spec (seller + seller * bps / 10000) (2 ^ 64)) as [L'|L']; cbn [negb]; [|split; [done|by right]].
  rewrite u64_id by (unfold is_u64 in *; lia). unfold is_u64 in *. split; [done|]. lia.
Qed.

(** ** Concrete runs *)

Definition demo_card : RateCard := mkCard 100 5 {[ "gpt-4o"%string := 7 ]}.

Definition sized_receipt (request response : Z) (completion : Z) : Receipt :=
  mkReceipt 1 demo_job (zeros 32) "openai" "POST" "api.openai.com" "/" 200 (zeros 32) 1 response completion
    1000 1001 None (zeros 32) request 1 [].

Lemma demo_card_ok : card_ok demo_card.
Proof.
  split; [done..|]. apply map_Forall_insert_2; [done|apply map_Forall_empty].
Qed.

Lemma price_is_exact_witness :
  Price demo_card "gpt-4o" (2 ^ 20) (sized_receipt 1 (2 ^ 21) CompletionComplete) = Ok 117.
Proof.
  rewrite (price_is_exact demo_card "gpt-4o" (2 ^ 20) (sized_receipt 1 (2 ^ 21) CompletionComplete) demo_card_ok).
  - vm_compute. reflexivity.
  - split; done.
  - vm_compute. discriminate.
Defined.

Lemma price_drops_volume_near_overflow_witness :
  Price demo_card "gpt-4o" 0 (sized_receipt (2 ^ 64 - 1) 0 CompletionComplete) = Ok 107.
Proof.
  rewrite (proj1 (price_drops_volume_near_overflow demo_card "gpt-4o" 0
    (sized_receipt (2 ^ 64 - 1) 0 CompletionComplete) demo_card_ok ltac:(split; done)
    ltac:(vm_compute; split; reflexivity) eq_refl eq_refl)).
  vm_compute. reflexivity.
Defined.

Lemma validated_card_never_overflows_witness :
  Price demo_card "gpt-4o" 10 (sized_receipt 3 10 CompletionTruncated) = Ok 5.
Proof.
  rewrite (proj1 (validated_card_never_overflows demo_card "gpt-4o" 10 (sized_receipt 3 10 CompletionTruncated)
    demo_card_ok ltac:(vm_compute; reflexivity) ltac:(split; done) ltac:(vm_compute; discriminate))).
  vm_compute. reflexivity.
Defined.

Lemma buyer_price_is_exact_witness :
  BuyerPrice 250 1999 = Ok 2048 /\ 10000 * (2048 - 1999) <= 1999 * 250.
Proof.
  split; [vm_compute; reflexivity|].
  exact (proj1 (proj2 (proj2 (buyer_price_is_exact 250 1999 ltac:(done) ltac:(done))))).
Defined.
