(* ===== verification/Ledger.v ===== *)
(** * The Hub's ledger ([tokenhive/hub/ledger.go])

    Counters and saturating totals, overall and per provider.  The mutex makes
    each method atomic.  The specification is the log of what was noted: every
    figure of a snapshot is a function of that log. *)

From S2P Require Import Prelude Bytes Crypto Receipt Pricing.

Record providerAccount := mkAccount {
  a_dispatched : Z;
  a_verified : Z;
  a_settled : Z;
  a_revenue : Z;
  a_commission : Z;
}.

Record Ledger := mkLedger {
  dispatched : Z;
  verified : Z;
  settled : Z;
  revenue : Z;
  commission : Z;
  accounts : gmap string providerAccount;
}.

Definition NewLedger : Ledger := mkLedger 0 0 0 0 0 ∅.

Definition saturatingAdd (a b : Z) : Z :=
  let '(s, ok) := addChecked a b in if negb ok then MaxUint64 else s.

Definition account_zero : providerAccount := mkAccount 0 0 0 0 0.

(** [account] returns the provider's account, creating it on first use; the
    methods update it in place. *)
Definition account (l : Ledger) (provider : string) : providerAccount := default account_zero (accounts l !! provider).

(** [x++] on an [int]. *)
Definition incr (x : Z) : Z := i64 (x + 1).

Definition NoteDispatch (l : Ledger) (provider : string) : Ledger :=
  let a := account l provider in
  mkLedger (incr (dispatched l)) (verified l) (settled l) (revenue l) (commission l)
    (<[provider := mkAccount (incr (a_dispatched a)) (a_verified a) (a_settled a) (a_revenue a) (a_commission a)]>
       (accounts l)).

Definition NoteVerified (l : Ledger) (provider : string) : Ledger :=
  let a := account l provider in
  mkLedger (dispatched l) (incr (verified l)) (settled l) (revenue l) (commission l)
    (<[provider := mkAccount (a_dispatched a) (incr (a_verified a)) (a_settled a) (a_revenue a) (a_commission a)]>
       (accounts l)).

Definition NoteSettled (l : Ledger) (provider : string) (micros : Z) : Ledger :=
  let a := account l provider in
  mkLedger (dispatched l) (verified l) (incr (settled l)) (saturatingAdd (revenue l) micros) (commission l)
    (<[provider := mkAccount (a_dispatched a) (a_verified a) (incr (a_settled a))
                     (saturatingAdd (a_revenue a) micros) (a_commission a)]> (accounts l)).

Definition NoteCommission (l : Ledger) (provider : string) (micros : Z) : Ledger :=
  let a := account l provider in
  mkLedger (dispatched l) (verified l) (settled l) (revenue l) (saturatingAdd (commission l) micros)
    (<[provider := mkAccount (a_dispatched a) (a_verified a) (a_settled a) (a_revenue a)
                     (saturatingAdd (a_commission a) micros)]> (accounts l)).

Record Snapshot := mkSnapshot {
  Dispatched : Z;
  Verified : Z;
  Settled : Z;
  Revenue : Z;
  Commission : Z;
  ByProvider : gmap string providerAccount;
}.

Definition ledger_Snapshot (l : Ledger) : Snapshot :=
  mkSnapshot (dispatched l) (verified l) (settled l) (revenue l) (commission l)
    ((fun a => mkAccount (a_dispatched a) (a_verified a) (a_settled a) (a_revenue a) (a_commission a)) <$> accounts l).

(** ** The log a ledger summarises *)

Inductive ledgerEvent :=
| EvDispatch (p : string)
| EvVerified (p : string)
| EvSettled (p : string) (micros : Z)
| EvCommission (p : string) (micros : Z).

Definition ev_provider (e : ledgerEvent) : string :=
  match e with EvDispatch p | EvVerified p | EvSettled p _ | EvCommission p _ => p end.

Definition ledger_note (l : Ledger) (e : ledgerEvent) : Ledger :=
  match e with
  | EvDispatch p => NoteDispatch l p
  | EvVerified p => NoteVerified l p
  | EvSettled p m => NoteSettled l p m
  | EvCommission p m => NoteCommission l p m
  end.

Definition ledger_run (log : list ledgerEvent) : Ledger := fold_left ledger_note log NewLedger.

Definition n_dispatch (e : ledgerEvent) : Z := match e with EvDispatch _ => 1 | _ => 0 end.
Definition n_verified (e : ledgerEvent) : Z := match e with EvVerified _ => 1 | _ => 0 end.
Definition n_settled (e : ledgerEvent) : Z := match e with EvSettled _ _ => 1 | _ => 0 end.
Definition m_revenue (e : ledgerEvent) : Z := match e with EvSettled _ m => m | _ => 0 end.
Definition m_commission (e : ledgerEvent) : Z := match e with EvCommission _ m => m | _ => 0 end.

Definition total (f : ledgerEvent -> Z) (log : list ledgerEvent) : Z := foldr (fun e s => f e + s) 0 log.

(** The events of one provider. *)
Definition of_provider (p : string) (log : list ledgerEvent) : list ledgerEvent :=
  filter (fun e => ev_provider e = p) log.

Definition saturated (z : Z) : Z := Z.min z MaxUint64.

Definition log_account (log : list ledgerEvent) : providerAccount :=
  mkAccount (i64 (total n_dispatch log)) (i64 (total n_verified log)) (i64 (total n_settled log))
    (saturated (total m_revenue log)) (saturated (total m_commission log)).

Definition event_ok (e : ledgerEvent) : Prop := is_u64 (m_revenue e) /\ is_u64 (m_commission e).

(** The sum of a figure over all accounts. *)
Definition sum_accounts (f : providerAccount -> Z) (m : gmap string providerAccount) : Z :=
  map_fold (fun _ a s => f a + s) 0 m.

(** ** Arithmetic *)

Lemma saturatingAdd_spec a b : is_u64 a -> is_u64 b -> saturatingAdd a b = saturated (a + b).
Proof.
  intros Ha Hb. unfold saturatingAdd. rewrite addChecked_spec by done. unfold saturated, MaxUint64, is_u64 in *.
  destruct (Z.ltb_spec (a + b) (2 ^ 64)); cbn [negb]; [rewrite u64_id by (unfold is_u64; lia)|]; lia.
Qed.

Lemma saturated_u64 z : 0 <= z -> is_u64 (saturated z).
Proof. unfold saturated, is_u64, MaxUint64. lia. Qed.

Lemma saturated_add a b :
  0 <= a -> is_u64 b -> saturatingAdd (saturated a) b = saturated (a + b).
Proof.
  intros Ha Hb. rewrite saturatingAdd_spec by (done || by apply saturated_u64).
  unfold saturated, MaxUint64, is_u64 in *. lia.
Qed.

Lemma incr_i64 z : incr (i64 z) = i64 (z + 1).
Proof.
  unfold incr, i64. f_equal.
  replace ((z + 2 ^ 63) mod 2 ^ 64 - 2 ^ 63 + 1 + 2 ^ 63) with ((z + 2 ^ 63) mod 2 ^ 64 + 1) by lia.
  rewrite Zplus_mod_idemp_l. f_equal. lia.
Qed.

Lemma total_snoc f log e : total f (log ++ [e]) = total f log + f e.
Proof. unfold total. induction log as [|x log IH]; cbn [foldr app]; lia. Qed.

Lemma total_nonneg f log : (forall e, In e log -> 0 <= f e) -> 0 <= total f log.
Proof.
  induction log as [|x log IH]; intros H; cbn; [done|].
  pose proof (H x (or_introl eq_refl)). assert (0 <= total f log) by (apply IH; intros; apply H; by right).
  unfold total in *. lia.
Qed.

Lemma of_provider_snoc p log e :
  of_provider p (log ++ [e]) = of_provider p log ++ (if decide (ev_provider e = p) then [e] else []).
Proof.
  unfold of_provider. by rewrite filter_app.
Qed.

Lemma log_revenue_nonneg log p : Forall event_ok log ->
  0 <= total m_revenue (of_provider p log) /\ 0 <= total m_commission (of_provider p log)
  /\ 0 <= total m_revenue log /\ 0 <= total m_commission log.
Proof.
  rewrite List.Forall_forall. intros F.
  assert (G : forall e, In e (of_provider p log) -> In e log).
  { intros e He. apply list_elem_of_In. unfold of_provider in He. apply list_elem_of_In, list_elem_of_filter in He as [_ He]. done. }
  unfold event_ok, is_u64 in F. split_and!; apply total_nonneg; intros e He.
  - by apply F, G.
  - by apply F, G.
  - by apply F.
  - by apply F.
Qed.

(** ** The ledger summarises its log *)

Lemma log_account_snoc log e :
  event_ok e -> 0 <= total m_revenue log -> 0 <= total m_commission log ->
  log_account (log ++ [e]) =
  match e with
  | EvDispatch _ => mkAccount (incr (a_dispatched (log_account log))) (a_verified (log_account log))
      (a_settled (log_account log)) (a_revenue (log_account log)) (a_commission (log_account log))
  | EvVerified _ => mkAccount (a_dispatched (log_account log)) (incr (a_verified (log_account log)))
      (a_settled (log_account log)) (a_revenue (log_account log)) (a_commission (log_account log))
  | EvSettled _ m => mkAccount (a_dispatched (log_account log)) (a_verified (log_account log))
      (incr (a_settled (log_account log))) (saturatingAdd (a_revenue (log_account log)) m)
      (a_commission (log_account log))
  | EvCommission _ m => mkAccount (a_dispatched (log_account log)) (a_verified (log_account log))
      (a_settled (log_account log)) (a_revenue (log_account log))
      (saturatingAdd (a_commission (log_account log)) m)
  end.
Proof.
  intros [H1 H2] Hr Hc. unfold log_account. rewrite !total_snoc.
  destruct e as [p|p|p m|p m]; cbn -[i64 saturatingAdd saturated] in *; rewrite ?Z.add_0_r, ?incr_i64; try done.
  - by rewrite saturated_add.
  - by rewrite saturated_add.
Qed.

Definition ledger_repr (log : list ledgerEvent) (l : Ledger) : Prop :=
  mkAccount (dispatched l) (verified l) (settled l) (revenue l) (commission l) = log_account log
  /\ forall p, accounts l !! p =
       (if decide (of_provider p log = []) then None else Some (log_account (of_provider p log))).

Lemma account_repr log l p : ledger_repr log l -> account l p = log_account (of_provider p log).
Proof. intros [_ H]. unfold account. rewrite H. by destruct (decide (of_provider p log = [])) as [->|]. Qed.

Lemma ledger_note_repr log l e :
  ledger_repr log l -> Forall event_ok log -> event_ok e -> ledger_repr (log ++ [e]) (ledger_note l e).
Proof.
  intros R F He. pose proof (account_repr log l (ev_provider e) R) as Ha. destruct R as [Rt Ra].
  destruct (log_revenue_nonneg log (ev_provider e) F) as (N1 & N2 & N3 & N4). split.
  - rewrite log_account_snoc, <- Rt by done. by destruct e.
  - intros p. rewrite of_provider_snoc. destruct (decide (ev_provider e = p)) as [<-|N].
    + rewrite decide_False by (intros E; by apply app_eq_nil in E as [_ ?]).
      rewrite log_account_snoc, <- Ha by done. by destruct e; cbn; rewrite lookup_insert_eq.
    + rewrite app_nil_r, <- Ra. by destruct e; cbn in *; rewrite lookup_insert_ne.
Qed.

Lemma ledger_run_repr log : Forall event_ok log -> ledger_repr log (ledger_run log).
Proof.
  induction log as [|e log IH] using rev_ind; intros F; [done|].
  apply Forall_app in F as [F He]. apply Forall_inv in He.
  unfold ledger_run. rewrite fold_left_app. by apply ledger_note_repr; [apply IH| |].
Qed.

Lemma sum_accounts_insert f m p a :
  sum_accounts f (<[p := a]> m) = sum_accounts f m - from_option f 0 (m !! p) + f a.
Proof.
  assert (C : forall m p a, m !! p = None -> sum_accounts f (<[p := a]> m) = f a + sum_accounts f m).
  { clear. intros m p a Hm. unfold sum_accounts. rewrite map_fold_insert_L; [done| |done]. intros. lia. }
  destruct (m !! p) as [b|] eqn:E; cbn.
  - rewrite <- (insert_delete_id m p b E), insert_insert_eq.
    rewrite !C by apply lookup_delete_eq. lia.
  - rewrite C by done. lia.
Qed.

Lemma sum_accounts_log (field : providerAccount -> Z) (f : ledgerEvent -> Z) log l :
  (forall log, field (log_account log) = saturated (total f log)) -> field account_zero = 0 ->
  (forall e, event_ok e -> is_u64 (f e)) ->
  Forall event_ok log -> total f log < 2 ^ 64 -> l = ledger_run log ->
  sum_accounts field (accounts l) = total f log.
Proof.
  intros Hf H0 Hu. revert l. induction log as [|e log IH] using rev_ind; intros l F B ->; [done|].
  apply Forall_app in F as [F He]. apply Forall_inv in He. rewrite total_snoc in *.
  assert (P : forall q, 0 <= total f (of_provider q log) <= total f log).
  { intros q. clear -F Hu. unfold of_provider. induction F as [|x l Hx F IHl]; [done|]. rewrite filter_cons.
    pose proof (Hu x Hx) as Hb. unfold is_u64, total in *. destruct (decide _); cbn [foldr]; lia. }
  pose proof (P (ev_provider e)) as Pe. pose proof (Hu e He) as Ue. unfold is_u64 in Ue.
  pose proof (ledger_run_repr log F) as R. destruct (ledger_note_repr log _ e R F He) as [_ R'].
  specialize (R' (ev_provider e)). rewrite of_provider_snoc in R'.
  rewrite (decide_True (P := ev_provider e = ev_provider e)), decide_False in R'
    by (done || (intros E; by apply app_eq_nil in E as [_ ?])).
  destruct R as [_ R]. specialize (R (ev_provider e)).
  unfold ledger_run in *. rewrite fold_left_app. cbn [fold_left].
  set (l := fold_left ledger_note log NewLedger) in *.
  assert (E : exists a, accounts (ledger_note l e) = <[ev_provider e := a]> (accounts l)) by (destruct e; cbn; by eexists).
  destruct E as [a E]. rewrite E in *. rewrite lookup_insert_eq in R'. apply (inj Some) in R' as ->.
  rewrite sum_accounts_insert, (IH l), R, Hf, total_snoc by (done || lia).
  replace (from_option field 0 _) with (total f (of_provider (ev_provider e) log)).
  - unfold saturated, MaxUint64. lia.
  - destruct (decide (of_provider (ev_provider e) log = [])) as [->|]; cbn; [done|].
    rewrite Hf. unfold saturated, MaxUint64. lia.
Qed.

(** A ledger is a faithful summary of everything noted in it: each total and each provider's line is the
    (counted, or saturating) sum of the corresponding notes, a provider appears exactly when something was
    noted for it, and while the totals fit 64 bits the provider lines add up to the Hub's own totals. *)
Theorem ledger_summarises_log log :
  Forall event_ok log ->
  let s := ledger_Snapshot (ledger_run log) in
  mkAccount (Dispatched s) (Verified s) (Settled s) (Revenue s) (Commission s) = log_account log
  /\ (forall p, ByProvider s !! p =
        if decide (of_provider p log = []) then None else Some (log_account (of_provider p log)))
  /\ (total m_revenue log < 2 ^ 64 -> sum_accounts a_revenue (ByProvider s) = Revenue s)
  /\ (total m_commission log < 2 ^ 64 -> sum_accounts a_commission (ByProvider s) = Commission s).
Proof.
  intros F. destruct (ledger_run_repr log F) as [Rt Ra].
  assert (Ej : ByProvider (ledger_Snapshot (ledger_run log)) = accounts (ledger_run log)).
  { cbn. rewrite <- (map_fmap_id (accounts (ledger_run log))) at 2. apply map_fmap_ext. by intros p [] _. }
  destruct (log_revenue_nonneg log "" F) as (_ & _ & N1 & N2).
  cbn zeta. rewrite Ej. split; [exact Rt|]. split; [exact Ra|].
  split; intros B; cbn [Revenue Commission ledger_Snapshot].
  - apply (f_equal a_revenue) in Rt. cbn in Rt. rewrite Rt.
    rewrite (sum_accounts_log a_revenue m_revenue log); [|done|done|by intros e []|done..].
    unfold saturated, MaxUint64. lia.
  - apply (f_equal a_commission) in Rt. cbn in Rt. rewrite Rt.
    rewrite (sum_accounts_log a_commission m_commission log); [|done|done|by intros e []|done..].
    unfold saturated, MaxUint64. lia.
Qed.

Definition demo_log : list ledgerEvent :=
  [EvDispatch "openai"; EvVerified "openai"; EvSettled "openai" 40; EvDispatch "anthropic";
   EvVerified "anthropic"; EvSettled "anthropic" 60; EvCommission "anthropic" 6].

Lemma ledger_summarises_log_witness :
  Revenue (ledger_Snapshot (ledger_run demo_log)) = 100
  /\ sum_accounts a_revenue (ByProvider (ledger_Snapshot (ledger_run demo_log))) = 100.
Proof.
  split; [vm_compute; reflexivity|].
  rewrite (proj1 (proj2 (proj2 (ledger_summarises_log demo_log
    ltac:(repeat constructor; vm_compute; discriminate)))) ltac:(vm_compute; reflexivity)).
  vm_compute. reflexivity.
Defined.
