(* ===== verification/Admission.v ===== *)
(** * Tenant controls of the Hub ([tokenhive/hub]: [quota.go], [budget.go], [flight.go])

    Three tables keyed by tenant: a fixed-window request quota, a cumulative
    spending budget and a limit on jobs in flight.  Each method runs under the
    table's mutex, so it is a function on the table.  Specifications: the quota
    bounds what any time interval admits, the limiter counts exactly the slots
    that are out, and both tables stay within their tenant caps. *)

From S2P Require Import Prelude Bytes Crypto Receipt Pricing Ledger.

(** ** Quota *)

Definition MaxQuotaTenants : Z := 2 ^ 16.
Definition ErrInvalidQuota : error := "invalid quota".

Record quotaWindow := mkWindow { w_start : Z; w_used : Z }.

Record Quota := mkQuota {
  q_limit : Z;
  q_window : Z;
  q_maxTenants : Z;
  q_windows : gmap string quotaWindow;
  q_nextSweep : Z;
}.

Definition NewQuotaBounded (limit window maxTenants : Z) : res Quota :=
  fail_if ((limit <? 1)) ErrInvalidQuota;;
  fail_if ((window <=? 0)) ErrInvalidQuota;;
  fail_if ((maxTenants <? 1)) ErrInvalidQuota;;
  Ok (mkQuota limit window maxTenants ∅ 0).

Definition NewQuota (limit window : Z) : res Quota := NewQuotaBounded limit window MaxQuotaTenants.

(** The window has run out at [now]. *)
Definition expired (q : Quota) (now : Z) (w : quotaWindow) : bool := q_window q <=? time_Sub now (w_start w).

Definition quota_sweep (q : Quota) (now : Z) : Quota :=
  if now <? q_nextSweep q then q else
  mkQuota (q_limit q) (q_window q) (q_maxTenants q)
    (filter (fun kv => expired q now kv.2 = false) (q_windows q)) (now + q_window q).

Definition quota_admit (q : Quota) (now : Z) : Quota * bool :=
  if Z.of_nat (size (q_windows q)) <? q_maxTenants q then (q, true) else
  let q := quota_sweep q now in (q, Z.of_nat (size (q_windows q)) <? q_maxTenants q).

Definition with_window (q : Quota) (tenant : string) (w : quotaWindow) : Quota :=
  mkQuota (q_limit q) (q_window q) (q_maxTenants q) (<[tenant := w]> (q_windows q)) (q_nextSweep q).

Definition quota_Allow (q : Quota) (tenant : string) (now : Z) : Quota * bool :=
  match q_windows q !! tenant with
  | Some w =>
      if negb (expired q now w) then
        if q_limit q <=? w_used w then (q, false)
        else (with_window q tenant (mkWindow (w_start w) (i64 (w_used w + 1))), true)
      else (with_window q tenant (mkWindow now 1), true)
  | None =>
      let '(q, room) := quota_admit q now in
      if negb room then (q, false) else (with_window q tenant (mkWindow now 1), true)
  end.

Definition quota_Remaining (q : Quota) (tenant : string) (now : Z) : Z :=
  match q_windows q !! tenant with
  | Some w =>
      if expired q now w then q_limit q else
      let left := i64 (q_limit q - w_used w) in
      if 0 <? left then left else 0
  | None => q_limit q
  end.

(** ** Budget *)

Definition ErrInvalidBudget : error := "invalid budget".

Record Budget := mkBudget { b_budgets : gmap string Z; b_used : gmap string Z }.

Definition NewBudget (budgets : gmap string Z) : res Budget :=
  fail_if ((size budgets =? 0)%nat) ErrInvalidBudget;;
  fail_if (existsb (fun kv => String.eqb kv.1 "" || (kv.2 =? 0)) (map_to_list budgets)) ErrInvalidBudget;;
  Ok (mkBudget budgets ∅).

Definition budget_used (b : Budget) (tenant : string) : Z := default 0 (b_used b !! tenant).

Definition budget_Allow (b : Budget) (tenant : string) : bool :=
  match b_budgets b !! tenant with
  | None => true
  | Some ceiling => budget_used b tenant <? ceiling
  end.

Definition budget_Record (b : Budget) (tenant : string) (micros : Z) : Budget :=
  match b_budgets b !! tenant with
  | None => b
  | Some _ =>
      let used := budget_used b tenant in
      let sum := add64 used micros in
      mkBudget (b_budgets b) (<[tenant := if used <=? sum then sum else MaxUint64]> (b_used b))
  end.

Definition budget_Remaining (b : Budget) (tenant : string) : Z * bool :=
  match b_budgets b !! tenant with
  | None => (0, false)
  | Some ceiling =>
      let used := budget_used b tenant in
      if used <? ceiling then (sub64 ceiling used, true) else (0, true)
  end.

(** ** Jobs in flight *)

Definition MaxFlightTenants : Z := 2 ^ 16.

Record flightLimiter := mkFlight { f_maxPerTenant : Z; f_maxTenants : Z; f_per : gmap string Z }.

Definition newFlightLimiter (maxPerTenant maxTenants : Z) : flightLimiter :=
  mkFlight maxPerTenant (if maxTenants <? 1 then MaxFlightTenants else maxTenants) ∅.

Definition flight_count (f : flightLimiter) (tenant : string) : Z := default 0 (f_per f !! tenant).

(** A nil limiter admits everything. *)
Definition flight_acquire (f : option flightLimiter) (tenant : string) : option flightLimiter * bool :=
  match f with
  | None => (None, true)
  | Some f =>
      let n := flight_count f tenant in
      if f_maxPerTenant f <=? n then (Some f, false) else
      if (n =? 0) && (0 <? f_maxTenants f) && (f_maxTenants f <=? Z.of_nat (size (f_per f))) then (Some f, false) else
      (Some (mkFlight (f_maxPerTenant f) (f_maxTenants f) (<[tenant := i64 (n + 1)]> (f_per f))), true)
  end.

Definition flight_release (f : option flightLimiter) (tenant : string) : option flightLimiter :=
  match f with
  | None => None
  | Some f =>
      let n := flight_count f tenant in
      Some (mkFlight (f_maxPerTenant f) (f_maxTenants f)
        (if n <=? 1 then delete tenant (f_per f) else <[tenant := i64 (n - 1)]> (f_per f)))
  end.

Definition flight_active (f : option flightLimiter) (tenant : string) : Z :=
  match f with None => 0 | Some f => flight_count f tenant end.

(** ** What a quota admits over time *)

(** A run records the admitted requests. *)
Definition quota_step (w : Quota * list (string * Z)) (r : string * Z) : Quota * list (string * Z) :=
  let '(q, ok) := quota_Allow w.1 r.1 r.2 in (q, if ok then r :: w.2 else w.2).

Definition quota_run (q : Quota) (reqs : list (string * Z)) : Quota * list (string * Z) :=
  fold_left quota_step reqs (q, []).

Definition tally (P : Z -> bool) (t : string) (h : list (string * Z)) : Z :=
  foldr (fun r n => (if String.eqb r.1 t && P r.2 then 1 else 0) + n) 0 h.

(** Requests of [t] admitted at or after [a], and in [a, b). *)
Definition admitted_from (t : string) (a : Z) : list (string * Z) -> Z := tally (fun x => a <=? x) t.
Definition admitted_in (t : string) (a b : Z) : list (string * Z) -> Z := tally (fun x => (a <=? x) && (x <? b)) t.

Lemma tally_mono P Q t h : (forall x, P x = true -> Q x = true) -> 0 <= tally P t h <= tally Q t h.
Proof.
  intros I. unfold tally. induction h as [|[u x] h IH]; cbn [foldr fst snd]; [done|]. specialize (I x).
  destruct (String.eqb u t), (P x), (Q x); cbn [andb]; (lia || by discriminate I).
Qed.

Lemma tally_none P t h : Forall (fun r => r.1 = t -> P r.2 = false) h -> tally P t h = 0.
Proof.
  unfold tally. induction 1 as [|[u x] h Hx F IH]; cbn [foldr fst snd] in *; [done|]. rewrite IH.
  destruct (String.eqb_spec u t) as [->|]; [|done]. by rewrite Hx.
Qed.

Lemma expired_spec q now w :
  0 < q_window q <= maxDuration -> expired q now w = (q_window q <=? now - w_start w).
Proof.
  unfold expired, time_Sub, maxDuration, minDuration. intros H.
  destruct (Z.leb_spec (q_window q) (now - w_start w)) as [L|L]; [apply Z.leb_le|apply Z.leb_gt]; lia.
Qed.

Lemma quota_sweep_size q now : (size (q_windows (quota_sweep q now)) <= size (q_windows q))%nat.
Proof. unfold quota_sweep. destruct (_ <? _); [done|]. apply map_size_filter. Qed.

(** What [admit] does to a window: nothing, or it drops it when it has run out. *)
Lemma quota_admit_lookup q now t :
  let q' := (quota_admit q now).1 in
  q_windows q' !! t = q_windows q !! t
  \/ (exists w, q_windows q !! t = Some w /\ expired q now w = true /\ q_windows q' !! t = None).
Proof.
  unfold quota_admit, quota_sweep. destruct (_ <? q_maxTenants q); [by left|]. destruct (now <? _); [by left|]. cbn.
  destruct (q_windows q !! t) as [w|] eqn:E.
  - destruct (expired q now w) eqn:X; [right|left].
    + exists w. split; [done|]. split; [done|]. apply map_lookup_filter_None_2. right.
      intros w' E'. rewrite E in E'. apply (inj Some) in E' as <-. cbn. by rewrite X.
    + by apply map_lookup_filter_Some_2.
  - left. apply map_lookup_filter_None_2. by left.
Qed.

Lemma quota_admit_params q now :
  let q' := (quota_admit q now).1 in
  q_limit q' = q_limit q /\ q_window q' = q_window q /\ q_maxTenants q' = q_maxTenants q.
Proof. unfold quota_admit, quota_sweep. destruct (_ <? q_maxTenants q); [done|]. by destruct (now <? _). Qed.

Lemma quota_Allow_params q t now :
  let q' := (quota_Allow q t now).1 in
  q_limit q' = q_limit q /\ q_window q' = q_window q /\ q_maxTenants q' = q_maxTenants q.
Proof.
  unfold quota_Allow. destruct (q_windows q !! t) as [w|].
  - destruct (negb _); [|done]. by destruct (_ <=? _).
  - pose proof (quota_admit_params q now) as P. destruct (quota_admit q now) as [q' room]. by destruct room.
Qed.

(** The effect on another tenant. *)
Lemma quota_Allow_other q t t' now :
  t' <> t ->
  let q' := (quota_Allow q t' now).1 in
  q_windows q' !! t = q_windows q !! t
  \/ (exists w, q_windows q !! t = Some w /\ expired q now w = true /\ q_windows q' !! t = None).
Proof.
  intros N. unfold quota_Allow. destruct (q_windows q !! t') as [w|] eqn:E.
  - left. destruct (negb _); [destruct (_ <=? _); [done|]|]; cbn; by rewrite lookup_insert_ne.
  - pose proof (quota_admit_lookup q now t) as P. destruct (quota_admit q now) as [q' room]. cbn zeta in P. cbn [fst] in P.
    destruct room; cbn [negb fst]; [|done]. cbn [with_window q_windows]. by rewrite lookup_insert_ne.
Qed.

(** The table never exceeds its cap. *)
Lemma quota_Allow_size q t now :
  Z.of_nat (size (q_windows q)) <= q_maxTenants q ->
  Z.of_nat (size (q_windows (quota_Allow q t now).1)) <= q_maxTenants (quota_Allow q t now).1.
Proof.
  intros Hsz. unfold quota_Allow. destruct (q_windows q !! t) as [w|] eqn:E.
  - assert (U : forall w', size (<[t := w']> (q_windows q)) = size (q_windows q)).
    { intros w'. rewrite map_size_insert, E. done. }
    destruct (negb _); [destruct (_ <=? _)|]; cbn [fst with_window q_windows q_maxTenants]; rewrite ?U; done.
  - unfold quota_admit. destruct (Z.ltb_spec (Z.of_nat (size (q_windows q))) (q_maxTenants q)) as [L|L]; cbn.
    { rewrite map_size_insert, E. lia. }
    pose proof (quota_sweep_size q now) as W.
    assert (M : q_maxTenants (quota_sweep q now) = q_maxTenants q) by (unfold quota_sweep; by destruct (_ <? _)).
    destruct (Z.ltb_spec (Z.of_nat (size (q_windows (quota_sweep q now)))) (q_maxTenants (quota_sweep q now)))
      as [L'|L']; cbn; [|lia].
    rewrite map_size_insert. destruct (q_windows (quota_sweep q now) !! t); unfold id; lia.
Qed.

(** The invariant of one tenant [t] at time [clk], over the start [st] of its last window: everything admitted
    lies before the end of that window, at most [limit] of it in the window, and at most [limit] more in the
    [window] before it. *)
Record quota_inv (t : string) (clk : Z) (w : Quota * list (string * Z)) (st : Z) : Prop := {
  qi_params : 1 <= q_limit w.1 < 2 ^ 63 /\ 0 < q_window w.1 <= maxDuration;
  qi_before : Forall (fun r => r.1 = t -> r.2 < st + q_window w.1) w.2;
  qi_window : admitted_from t st w.2 <= q_limit w.1;
  qi_prev : forall s, st - q_window w.1 < s -> admitted_from t s w.2 <= admitted_from t st w.2 + q_limit w.1;
  qi_entry : match q_windows w.1 !! t with
             | Some e => w_start e = st /\ w_used e = admitted_from t st w.2 /\ st <= clk
             | None => st + q_window w.1 <= clk
             end;
  qi_any : forall s, admitted_in t s (s + q_window w.1) w.2 <= 2 * q_limit w.1;
}.

Lemma admitted_from_cons t a r h :
  admitted_from t a (r :: h) = (if String.eqb r.1 t && (a <=? r.2) then 1 else 0) + admitted_from t a h.
Proof. done. Qed.

Lemma admitted_in_le t a b h : admitted_in t a b h <= admitted_from t a h.
Proof. apply tally_mono. intros x E. by apply andb_true_iff in E as [? _]. Qed.

Lemma admitted_from_anti t a b h : a <= b -> 0 <= admitted_from t b h <= admitted_from t a h.
Proof. intros L. apply tally_mono. intros x E. apply Z.leb_le in E. apply Z.leb_le. lia. Qed.

(** Admitting one more request of [t] at [now] keeps the interval bound, given the bound back from [now]. *)
Lemma qi_any_cons t now h W L :
  (forall s, admitted_in t s (s + W) h <= 2 * L) ->
  (forall s, now - W < s -> admitted_from t s ((t, now) :: h) <= 2 * L) ->
  forall s, admitted_in t s (s + W) ((t, now) :: h) <= 2 * L.
Proof.
  intros Ho Hn s. destruct (decide (s <= now < s + W)) as [I|I].
  - etransitivity; [apply admitted_in_le|]. apply Hn. lia.
  - specialize (Ho s). unfold admitted_in, tally in *. cbn [foldr fst snd]. rewrite String.eqb_refl. cbn [andb].
    destruct (Z.leb_spec s now), (Z.ltb_spec now (s + W)); cbn [andb]; lia.
Qed.

(** A request admitted into a fresh window that starts now. *)
Lemma quota_inv_fresh t clk now q h st q' :
  quota_inv t clk (q, h) st -> st + q_window q <= now ->
  q_limit q' = q_limit q -> q_window q' = q_window q -> q_windows q' !! t = Some (mkWindow now 1) ->
  quota_inv t now (q', (t, now) :: h) now.
Proof.
  intros [Hp Hb Hw Hv _ Ha] Hn El Ew Ee. cbn [fst snd] in *.
  assert (N : admitted_from t now h = 0).
  { apply tally_none. eapply Forall_impl; [exact Hb|]. intros r Hr Er. apply Z.leb_gt. specialize (Hr Er). lia. }
  assert (C : forall s, now - q_window q < s -> admitted_from t s ((t, now) :: h) <= 1 + q_limit q).
  { intros s Hs. rewrite admitted_from_cons. pose proof (admitted_from_anti t st s h). destruct (_ && _); lia. }
  assert (S1 : admitted_from t now ((t, now) :: h) = 1).
  { rewrite admitted_from_cons, N. cbn [fst snd]. by rewrite String.eqb_refl, Z.leb_refl. }
  split; cbn [fst snd]; rewrite ?El, ?Ew, ?Ee, ?S1; cbn [w_start w_used]; [done| |lia| |lia|].
  - constructor; [cbn; lia|]. eapply Forall_impl; [exact Hb|]. intros r Hr Er. specialize (Hr Er). lia.
  - intros s Hs. specialize (C s Hs). lia.
  - apply qi_any_cons; [done|]. intros s Hs. specialize (C s Hs). lia.
Qed.

(** A request admitted into the running window. *)
Lemma quota_inv_more t clk now q h st u q' :
  quota_inv t clk (q, h) st -> clk <= now -> now < st + q_window q ->
  q_windows q !! t = Some (mkWindow st u) -> u < q_limit q ->
  q_limit q' = q_limit q -> q_window q' = q_window q -> q_windows q' !! t = Some (mkWindow st (i64 (u + 1))) ->
  quota_inv t now (q', (t, now) :: h) st.
Proof.
  intros [Hp Hb Hw Hv He Ha] Hc Hn Eo Hu El Ew Ee. cbn [fst snd] in *. rewrite Eo in He. cbn in He.
  destruct He as (_ & Eu & Hst).
  assert (S1 : admitted_from t st ((t, now) :: h) = u + 1).
  { rewrite admitted_from_cons. cbn [fst snd]. rewrite String.eqb_refl, (proj2 (Z.leb_le _ _)) by lia. cbn. lia. }
  assert (C : forall s, st - q_window q < s -> admitted_from t s ((t, now) :: h) <= u + 1 + q_limit q).
  { intros s Hs. rewrite admitted_from_cons. specialize (Hv s Hs). destruct (_ && _); lia. }
  assert (I : i64 (u + 1) = u + 1).
  { unfold i64. pose proof (admitted_from_anti t st st h). rewrite Z.mod_small; lia. }
  split; cbn [fst snd]; rewrite ?El, ?Ew, ?Ee, ?S1; cbn [w_start w_used]; [done| |lia| | |].
  - constructor; [cbn; lia|done].
  - intros s Hs. specialize (C s Hs). lia.
  - lia.
  - apply qi_any_cons; [done|]. intros s Hs. specialize (C s). lia.
Qed.

(** No admission of [t]: its entry is kept, or dropped because it has run out. *)
Lemma quota_inv_keep t clk now q h st q' h' :
  quota_inv t clk (q, h) st -> clk <= now -> q_limit q' = q_limit q -> q_window q' = q_window q ->
  (h' = h \/ exists u, u <> t /\ h' = (u, now) :: h) ->
  (q_windows q' !! t = q_windows q !! t
   \/ (exists w, q_windows q !! t = Some w /\ expired q now w = true /\ q_windows q' !! t = None)) ->
  quota_inv t now (q', h') st.
Proof.
  intros [Hp Hb Hw Hv He Ha] Hc El Ew Hh Hl. cbn [fst snd] in *.
  assert (T : forall P, tally P t h' = tally P t h).
  { intros P. destruct Hh as [->|(u & Hu & ->)]; [done|]. unfold tally. cbn [foldr fst snd].
    by rewrite (proj2 (String.eqb_neq u t) Hu). }
  split; cbn [fst snd]; rewrite ?El, ?Ew; unfold admitted_from, admitted_in in *; [done| |by rewrite T| | |].
  - destruct Hh as [->|(u & Hu & ->)]; [done|]. constructor; [by cbn|done].
  - intros s Hs. rewrite !T. by apply Hv.
  - rewrite T. destruct Hl as [->|(w & Eq & X & ->)].
    + destruct (q_windows q !! t); [|lia]. split_and!; [by apply He..|]. destruct He as (_ & _ & ?). lia.
    + rewrite Eq in He. destruct He as (Es & _ & _). rewrite expired_spec in X by apply Hp. apply Z.leb_le in X. lia.
  - intros s. rewrite T. apply Ha.
Qed.

Lemma quota_step_inv t t' clk now w st :
  quota_inv t clk w st -> clk <= now -> exists st', quota_inv t now (quota_step w (t', now)) st'.
Proof.
  destruct w as [q h]. intros I Hc. unfold quota_step. cbn [fst snd].
  pose proof (quota_Allow_params q t' now) as P. destruct (decide (t' = t)) as [->|N].
  - pose proof I as [Hp _ _ _ He _]. cbn [fst snd] in *. unfold quota_Allow in *.
    destruct (q_windows q !! t) as [[st' u]|] eqn:E; cbn [w_start w_used] in *.
    + destruct He as (-> & Eu & Hs). rewrite expired_spec in * by apply Hp. cbn [w_start] in *.
      destruct (Z.leb_spec (q_window q) (now - st)) as [X|X]; cbn [negb fst] in *.
      * exists now. eapply quota_inv_fresh; [done|lia|done..|]. cbn. apply lookup_insert_eq.
      * destruct (Z.leb_spec (q_limit q) u) as [L|L]; cbn [fst] in *.
        -- exists st. eapply quota_inv_keep; [done..|by left|by left].
        -- exists st. eapply (quota_inv_more t clk now q h st u); [done|done|lia|done|done|done|done|].
           cbn. apply lookup_insert_eq.
    + pose proof (quota_admit_lookup q now t) as A. destruct (quota_admit q now) as [q' room].
      cbn zeta in *. cbn [fst] in A. rewrite E in A. destruct room; cbn [negb fst] in *.
      * exists now. eapply (quota_inv_fresh t clk now q h st); [done|lia|apply P|apply P|]. cbn. apply lookup_insert_eq.
      * exists st. eapply (quota_inv_keep t clk now q h st); [done|done|apply P|apply P|by left|by rewrite E].
  - exists st. pose proof (quota_Allow_other q t t' now N) as O. destruct (quota_Allow q t' now) as [q' ok].
    cbn zeta in *. cbn [fst] in *. eapply (quota_inv_keep t clk now q h st); [done|done|apply P|apply P| |exact O].
    destruct ok; [right; by exists t'|by left].
Qed.

(** The requests come in the order of the clock. *)
Fixpoint in_order (clk : Z) (reqs : list (string * Z)) : Prop :=
  match reqs with [] => True | r :: reqs => clk <= r.2 /\ in_order r.2 reqs end.

Lemma quota_run_inv t reqs clk w st :
  quota_inv t clk w st -> in_order clk reqs -> Z.of_nat (size (q_windows w.1)) <= q_maxTenants w.1 ->
  let w' := fold_left quota_step reqs w in
  (exists clk' st', quota_inv t clk' w' st')
  /\ Z.of_nat (size (q_windows w'.1)) <= q_maxTenants w'.1
  /\ q_limit w'.1 = q_limit w.1 /\ q_window w'.1 = q_window w.1 /\ q_maxTenants w'.1 = q_maxTenants w.1.
Proof.
  revert clk w st. induction reqs as [|[t' now] reqs IH]; intros clk w st I O S; cbn [fold_left].
  { split; [by exists clk, st|done]. }
  destruct O as [Hc O]. destruct (quota_step_inv t t' clk now w st I Hc) as [st' I'].
  pose proof (quota_Allow_size w.1 t' now S) as S'. pose proof (quota_Allow_params w.1 t' now) as P.
  assert (E : (quota_step w (t', now)).1 = (quota_Allow w.1 t' now).1).
  { unfold quota_step. cbn [fst snd]. by destruct (quota_Allow w.1 t' now). }
  rewrite <- E in *. destruct (IH now _ st' I' O S') as (X & Y & Z1 & Z2 & Z3).
  split; [done|]. split; [done|]. cbn zeta in P. destruct P as (P1 & P2 & P3). by rewrite Z1, Z2, Z3.
Qed.

(** The quota protects a shared credential: whatever requests arrive, from however many tenants, no tenant is
    admitted more than twice its limit in any interval as long as the window (at most its limit in each fixed
    window), and the table never holds more tenants than its cap. *)
Theorem quota_bounds_any_interval limit window maxTenants q0 clk reqs t a :
  NewQuotaBounded limit window maxTenants = Ok q0 -> is_int limit -> is_int window -> in_order clk reqs ->
  let '(q, h) := quota_run q0 reqs in
  admitted_in t a (a + window) h <= 2 * limit /\ Z.of_nat (size (q_windows q)) <= maxTenants.
Proof.
  unfold NewQuotaBounded, is_int. intros E Hl Hw O. do 3 inv_guard E. norm_guards. apply (inj Ok) in E as <-.
  set (q0 := mkQuota limit window maxTenants ∅ 0).
  assert (I : quota_inv t clk (q0, []) (clk - window)).
  { split; cbn; rewrite ?lookup_empty; unfold maxDuration; (done || lia). }
  destruct (quota_run_inv t reqs clk (q0, []) _ I O) as ((clk' & st' & [_ _ _ _ _ Ha]) & Hs & E1 & E2 & E3);
    [cbn; rewrite map_size_empty; lia|].
  unfold quota_run in *. destruct (fold_left quota_step reqs (q0, [])) as [q h]. cbn [fst snd q_limit q_window q_maxTenants] in *.
  rewrite E1, E2 in Ha. rewrite E3 in Hs. split; [apply Ha|exact Hs].
Qed.

Definition demo_requests : list (string * Z) :=
  [("alice"%string, 5); ("bob"%string, 6); ("alice"%string, 7); ("alice"%string, 8); ("alice"%string, 120)].

Lemma quota_bounds_any_interval_witness :
  (quota_run (mkQuota 2 100 1 ∅ 0) demo_requests).2
    = [("alice"%string, 120); ("alice"%string, 7); ("alice"%string, 5)]
  /\ (let '(q, h) := quota_run (mkQuota 2 100 1 ∅ 0) demo_requests in
      admitted_in "alice" 0 (0 + 100) h <= 2 * 2 /\ Z.of_nat (size (q_windows q)) <= 1).
Proof.
  split; [vm_compute; reflexivity|].
  exact (quota_bounds_any_interval 2 100 1 (mkQuota 2 100 1 ∅ 0) 0 demo_requests "alice" 0
    eq_refl ltac:(done) ltac:(done) ltac:(cbn; lia)).
Defined.

(** ** Slots in flight

    A run of the limiter with the slots that are out, one occurrence per slot. *)

Definition slots (t : string) (held : list string) : Z := Z.of_nat (count_occ String.string_dec held t).

Inductive flight_reachable (maxPer maxTenants : Z) : flightLimiter * list string -> Prop :=
| fr_new : flight_reachable maxPer maxTenants (newFlightLimiter maxPer maxTenants, [])
| fr_acquire f held t f' :
    flight_reachable maxPer maxTenants (f, held) -> flight_acquire (Some f) t = (Some f', true) ->
    flight_reachable maxPer maxTenants (f', t :: held)
| fr_refused f held t f' :
    flight_reachable maxPer maxTenants (f, held) -> flight_acquire (Some f) t = (Some f', false) ->
    flight_reachable maxPer maxTenants (f', held)
| fr_release f held1 held2 t f' :
    flight_reachable maxPer maxTenants (f, held1 ++ t :: held2) -> flight_release (Some f) t = Some f' ->
    flight_reachable maxPer maxTenants (f', held1 ++ held2).

Record flight_ok (maxPer maxTenants : Z) (w : flightLimiter * list string) : Prop := {
  fo_params : f_maxPerTenant w.1 = maxPer /\ f_maxTenants w.1 = maxTenants;
  fo_counts : forall t, f_per w.1 !! t = (if decide (slots t w.2 = 0) then None else Some (slots t w.2));
  fo_bound : forall t, slots t w.2 <= maxPer;
  fo_size : Z.of_nat (size (f_per w.1)) <= maxTenants;
}.

Lemma slots_cons t u held : slots t (u :: held) = (if decide (u = t) then 1 else 0) + slots t held.
Proof. unfold slots. cbn [count_occ]. destruct (String.string_dec u t), (decide (u = t)); (done || lia). Qed.

Lemma slots_nonneg t held : 0 <= slots t held.
Proof. unfold slots. lia. Qed.

Lemma slots_mid t u h1 h2 : slots t (h1 ++ u :: h2) = (if decide (u = t) then 1 else 0) + slots t (h1 ++ h2).
Proof.
  unfold slots. rewrite !count_occ_app. cbn [count_occ].
  destruct (String.string_dec u t), (decide (u = t)); (done || lia).
Qed.

Lemma flight_count_ok m n w t : flight_ok m n w -> flight_count w.1 t = slots t w.2.
Proof. intros [_ C _ _]. unfold flight_count. rewrite C. by destruct (decide (slots t w.2 = 0)) as [->|]. Qed.

Lemma flight_reachable_ok m n w :
  1 <= m < 2 ^ 63 -> 1 <= n -> flight_reachable m n w -> flight_ok m n w.
Proof.
  intros Hm Hn. induction 1 as [|f held t f' R IH E|f held t f' R IH E|f h1 h2 t f' R IH E].
  - unfold newFlightLimiter. rewrite (proj2 (Z.ltb_ge _ _)) by lia. split; cbn; [done|done| |rewrite map_size_empty; lia].
    intros t. unfold slots. cbn. lia.
  - pose proof (flight_count_ok _ _ _ t IH) as Ct. destruct IH as [[P1 P2] C B S]. cbn [fst snd] in *.
    unfold flight_acquire in E. rewrite Ct, P1, P2 in E.
    destruct (Z.leb_spec m (slots t held)) as [L|L]; [done|].
    destruct (_ && (n <=? _)) eqn:F; [done|]. injection E as <-. pose proof (slots_nonneg t held) as N.
    assert (I : i64 (slots t held + 1) = slots t held + 1) by (unfold i64; rewrite Z.mod_small; lia).
    split; cbn [fst snd f_maxPerTenant f_maxTenants f_per]; [done| | |].
    + intros u. rewrite slots_cons. destruct (decide (t = u)) as [<-|D].
      * rewrite lookup_insert_eq, I, decide_False by lia. f_equal. lia.
      * rewrite lookup_insert_ne by done. apply C.
    + intros u. rewrite slots_cons. specialize (B u). destruct (decide (t = u)) as [<-|]; lia.
    + rewrite map_size_insert, C. destruct (decide (slots t held = 0)) as [Z0|Z0]; unfold id; [|done].
      rewrite Z0 in F. cbn [Z.eqb andb] in F. rewrite (proj2 (Z.ltb_lt 0 n)) in F by lia. cbn [andb] in F. norm_guards. lia.
  - assert (f' = f) as ->; [|done]. unfold flight_acquire in E.
    destruct (_ <=? flight_count f t); [congruence|]. destruct (_ && _); congruence.
  - pose proof (flight_count_ok _ _ _ t IH) as Ct. destruct IH as [[P1 P2] C B S]. cbn [fst snd] in *.
    unfold flight_release in E. rewrite Ct, slots_mid, decide_True in E by done. injection E as <-.
    pose proof (slots_nonneg t (h1 ++ h2)) as N. pose proof (B t) as Bt. rewrite slots_mid, decide_True in Bt by done.
    split; cbn [fst snd f_maxPerTenant f_maxTenants f_per]; [done| | |].
    + intros u. specialize (C u). rewrite slots_mid in C. destruct (Z.leb_spec (1 + slots t (h1 ++ h2)) 1) as [L|L].
      * destruct (decide (t = u)) as [<-|D]; [|by rewrite lookup_delete_ne].
        rewrite lookup_delete_eq, decide_True by lia. done.
      * destruct (decide (t = u)) as [<-|D]; [|by rewrite lookup_insert_ne].
        rewrite lookup_insert_eq, decide_False by lia. f_equal. unfold i64. rewrite Z.mod_small; lia.
    + intros u. specialize (B u). rewrite slots_mid in B. destruct (decide _); lia.
    + destruct (_ <=? 1).
      * etransitivity; [|exact S]. apply inj_le. rewrite map_size_delete. destruct (_ !! t); unfold id; lia.
      * rewrite map_size_insert, C, slots_mid, (decide_True (P := t = t)) by done. rewrite decide_False by lia.
        unfold id. done.
Qed.

(** The in-flight limiter counts exactly the slots that are out: in every reachable state a tenant's count is
    the number of its running jobs and never above its share, a tenant with nothing running has no entry (so a
    quiet limiter is empty), the table stays within its cap, and a further job is admitted exactly when the
    tenant is below its share and, if it has nothing running, the table has room. *)
Theorem flight_limiter_counts_slots maxPer maxTenants f held t :
  1 <= maxPer < 2 ^ 63 -> 1 <= maxTenants -> flight_reachable maxPer maxTenants (f, held) ->
  flight_active (Some f) t = slots t held /\ slots t held <= maxPer
  /\ (f_per f !! t = None <-> slots t held = 0) /\ Z.of_nat (size (f_per f)) <= maxTenants
  /\ ((flight_acquire (Some f) t).2 = true <->
      slots t held < maxPer /\ (slots t held = 0 -> Z.of_nat (size (f_per f)) < maxTenants)).
Proof.
  intros Hm Hn R. pose proof (flight_reachable_ok _ _ _ Hm Hn R) as O.
  pose proof (flight_count_ok _ _ _ t O) as Ct. destruct O as [[P1 P2] C B S]. cbn [fst snd] in *.
  split; [exact Ct|]. split; [apply B|].
  split; [rewrite C; by destruct (decide (slots t held = 0))|]. split; [done|].
  unfold flight_acquire. rewrite Ct, P1, P2.
  destruct (Z.leb_spec maxPer (slots t held)) as [L|L]; cbn [snd]; [split; [done|lia]|].
  destruct (Z.eqb_spec (slots t held) 0) as [Z0|Z0]; cbn [andb snd]; [|split; [lia|done]].
  rewrite (proj2 (Z.ltb_lt 0 maxTenants)) by lia. cbn [andb].
  destruct (Z.leb_spec maxTenants (Z.of_nat (size (f_per f)))); cbn [snd]; [split; [done|lia]|split; [lia|done]].
Qed.

Lemma flight_limiter_counts_slots_witness :
  flight_active (Some (mkFlight 2 8 {[ "alice"%string := 1 ]})) "alice" = 1
  /\ (flight_acquire (Some (mkFlight 2 8 {[ "alice"%string := 1 ]})) "alice").2 = true.
Proof.
  assert (R : flight_reachable 2 8 (mkFlight 2 8 {[ "alice"%string := 1 ]}, ["alice"%string])).
  { eapply (fr_acquire 2 8 (newFlightLimiter 2 8) [] "alice"); [constructor|reflexivity]. }
  destruct (flight_limiter_counts_slots 2 8 _ _ "alice" ltac:(lia) ltac:(lia) R) as (E & _ & _ & _ & A).
  split; [exact E|]. apply A. vm_compute. split; [reflexivity|discriminate].
Defined.
