(* ===== verification/Store.v ===== *)
(** * The receipt store and the provider's audit ([tokenhive/hub/store.go])

    The Hub must keep the receipts a provider may audit.  [Store] is the
    interface the Hub uses, with what it may rely on ([StoreLaws]);
    [receipt_store] is the file-per-receipt implementation, and [Audit] the
    provider's check for hidden executions.  [ValidateProviderName] guards the
    directory names. *)

From S2P Require Import Prelude Bytes Crypto Receipt GoStrings Jobs.

(** ** The interface *)

Class Store := {
  store_state : Type;
  store_Put : store_state -> string -> SignedReceipt -> store_state * res unit;
}.

(** What the Hub relies on: a receipt whose [Put] succeeded is held, what is
    held stays held whatever is put later, and a sequence number of a provider
    is held once. *)
Class StoreLaws `{Store} := {
  holds : store_state -> string -> SignedReceipt -> Prop;
  put_holds : forall s p r s', store_Put s p r = (s', Ok ()) -> holds s' p r;
  put_keeps : forall s p r p' r', holds s p' r' -> holds (store_Put s p r).1 p' r';
  holds_once : forall s p r r', holds s p r -> holds s p r' ->
    ProviderSeq (sReceipt r) = ProviderSeq (sReceipt r') -> r = r';
}.

(** ** The file store

    One file per receipt, named after its sequence number, in the provider's
    directory.  [fs_faults] schedules the failures of the file system, one
    entry per [Put]. *)

(** Canonical CBOR of a signed receipt, and its decoder. *)
Class SignedCbor := {
  cbor_signed : SignedReceipt -> res bytes;
  uncbor_signed : bytes -> res SignedReceipt;
}.

Class SignedCborLaws `{SignedCbor} := {
  uncbor_cbor : forall s b, cbor_signed s = Ok b -> uncbor_signed b = Ok s;
}.

Inductive ioFault := NoFault | MkdirFails | WriteFails | RenameFails.

Record ReceiptStore := mkReceiptStore {
  fs_files : gmap (string * Z) bytes;
  fs_faults : list ioFault;
}.

Definition ErrDuplicateSeq : error := "receipt sequence already stored".

Section FileStore.
Context `{SignedCbor}.

Definition receiptStore_Put (s : ReceiptStore) (provider : string) (signed : SignedReceipt)
    : ReceiptStore * res unit :=
  let fault := match fs_faults s with [] => NoFault | f :: _ => f end in
  let s' := mkReceiptStore (fs_files s) (tail (fs_faults s)) in
  match ValidateProviderName provider with
  | Err e => (s', Err e) | Panic => (s', Panic)
  | Ok _ =>
      match cbor_signed signed with
      | Err e => (s', Err e) | Panic => (s', Panic)
      | Ok enc =>
          let path := (provider, ProviderSeq (sReceipt signed)) in
          match fault with
          | MkdirFails => (s', Err "mkdir")
          | _ =>
              match fs_files s !! path with
              | Some _ => (s', Err ErrDuplicateSeq)
              | None =>
                  match fault with
                  | WriteFails => (s', Err "write")
                  | RenameFails => (s', Err "rename")
                  | _ => (mkReceiptStore (<[path := enc]> (fs_files s)) (tail (fs_faults s)), Ok ())
                  end
              end
          end
      end
  end.

#[export] Instance receipt_store : Store := {| store_state := ReceiptStore; store_Put := receiptStore_Put |}.
End FileStore.

(** ** Audit *)

Record AuditReport := mkReport {
  Total : Z;
  Verified : Z;
  Invalid : Z;
  MaxSeq : Z;
  Missing : list Z;
}.

Definition report_Complete (r : AuditReport) : bool := (length (Missing r) =? 0)%nat.

Section Audit.
Context `{SignedCbor}.
Variable verify : SignedReceipt -> res unit.

(** One file; [None] is a file that cannot be read. *)
Definition audit_file (st : AuditReport * gset Z) (file : option bytes) : AuditReport * gset Z :=
  let '(r, seen) := st in
  let bad := (mkReport (Total r + 1) (Verified r) (Invalid r + 1) (MaxSeq r) (Missing r), seen) in
  match file with
  | None => bad
  | Some b =>
      match uncbor_signed b with
      | Ok signed =>
          match verify signed with
          | Ok _ =>
              let seq := ProviderSeq (sReceipt signed) in
              (mkReport (Total r + 1) (Verified r + 1) (Invalid r)
                 (if MaxSeq r <? seq then seq else MaxSeq r) (Missing r), {[ seq ]} ∪ seen)
          | _ => bad
          end
      | _ => bad
      end
  end.

(** [for seq := uint64(1); seq <= maxSeq; seq++]; [None] when [fuel] iterations did not end it. *)
Fixpoint missing_loop (fuel : nat) (seq maxSeq : Z) (seen : gset Z) : option (list Z) :=
  if negb (seq <=? maxSeq) then Some [] else
  match fuel with
  | O => None
  | S fuel =>
      rest ← missing_loop fuel (add64 seq 1) maxSeq seen;
      Some (if bool_decide (seq ∈ seen) then rest else seq :: rest)
  end.

Definition audit_files (files : list (option bytes)) : option AuditReport :=
  let '(r, seen) := fold_left audit_file files (mkReport 0 0 0 0 [], ∅) in
  missing ← missing_loop (Z.to_nat (MaxSeq r)) 1 (MaxSeq r) seen;
  Some (mkReport (Total r) (Verified r) (Invalid r) (MaxSeq r) missing).

(** The files of a provider's directory. *)
Definition files (s : ReceiptStore) (provider : string) : list (option bytes) :=
  (fun kv => Some kv.2) <$> filter (fun kv => kv.1.1 = provider) (map_to_list (fs_files s)).

End Audit.

(** A nil verifier is refused. *)
Definition Audit `{SignedCbor} (s : ReceiptStore) (provider : string) (verify : option (SignedReceipt -> res unit))
    : res (option AuditReport) :=
  match verify with
  | None => Err "hub has no receipt verifier"
  | Some verify =>
      _ ← ValidateProviderName provider;
      Ok (audit_files verify (files s provider))
  end.

(** ** The file store keeps its promises *)

Definition file_holds `{SignedCbor} (s : ReceiptStore) (p : string) (r : SignedReceipt) : Prop :=
  exists enc, fs_files s !! (p, ProviderSeq (sReceipt r)) = Some enc /\ cbor_signed r = Ok enc.

(** A successful [Put] adds one file under a fresh name; a failed one changes no file. *)
Lemma receiptStore_Put_cases `{SignedCbor} s p r :
  (exists enc, cbor_signed r = Ok enc /\ fs_files s !! (p, ProviderSeq (sReceipt r)) = None
     /\ receiptStore_Put s p r =
        (mkReceiptStore (<[(p, ProviderSeq (sReceipt r)) := enc]> (fs_files s)) (tail (fs_faults s)), Ok ()))
  \/ (fs_files (receiptStore_Put s p r).1 = fs_files s /\ (receiptStore_Put s p r).2 <> Ok ()).
Proof.
  unfold receiptStore_Put. destruct (ValidateProviderName p) as [[]| |]; [|by right..].
  destruct (cbor_signed r) as [enc| |] eqn:Ec; [|by right..].
  destruct (fs_files s !! (p, ProviderSeq (sReceipt r))) eqn:Ef.
  { right. by destruct (match fs_faults s with [] => _ | f :: _ => f end). }
  destruct (match fs_faults s with [] => _ | f :: _ => f end); [left; by exists enc|by right..].
Qed.

#[export] Instance receipt_store_laws `{SignedCborLaws} : StoreLaws.
Proof.
  refine {| holds := file_holds |}.
  - intros s p r s' E. change (store_Put s p r) with (receiptStore_Put s p r) in E.
    destruct (receiptStore_Put_cases s p r) as [(enc & Ec & _ & Ep)|[_ N]]; [|by rewrite E in N].
    rewrite Ep in E. apply (f_equal fst) in E. cbn in E. subst s'.
    exists enc. cbn. by rewrite lookup_insert_eq.
  - intros s p r p' r' (enc & Ef & Ec). change (file_holds (receiptStore_Put s p r).1 p' r').
    exists enc. split; [|done].
    destruct (receiptStore_Put_cases s p r) as [(enc' & Ec' & N & ->)|[-> _]]; [|done].
    cbn. rewrite lookup_insert_ne; [done|]. intros E. rewrite E, Ef in N. done.
  - intros s p r r' (enc & Ef & Ec) (enc' & Ef' & Ec') Es. rewrite Es, Ef' in Ef. apply (inj Some) in Ef as ->.
    apply uncbor_cbor in Ec, Ec'. congruence.
Defined.

(** ** Every gap is found *)

Section AuditFacts.
Context `{SignedCbor}.
Variable verify : SignedReceipt -> res unit.

(** The sequence number a file proves, if it is readable, canonical and verifies. *)
Definition proved_seq (file : option bytes) : option Z :=
  match file with
  | None => None
  | Some b => match uncbor_signed b with
              | Ok s => match verify s with Ok _ => Some (ProviderSeq (sReceipt s)) | _ => None end
              | _ => None
              end
  end.

Definition proved_seqs (files : list (option bytes)) : list Z := omap proved_seq files.

Lemma audit_fold files r seen :
  let '(r', seen') := fold_left (audit_file verify) files (r, seen) in
  Total r' = Total r + Z.of_nat (length files)
  /\ Verified r' = Verified r + Z.of_nat (length (proved_seqs files))
  /\ Verified r' + Invalid r' = Verified r + Invalid r + Z.of_nat (length files)
  /\ MaxSeq r' = foldr Z.max (MaxSeq r) (proved_seqs files)
  /\ (forall k, k ∈ seen' <-> k ∈ seen \/ k ∈ proved_seqs files).
Proof.
  revert r seen. induction files as [|f files IH]; intros r seen; cbn [fold_left].
  { cbn. split_and!; [lia..|done|]. intros k. rewrite elem_of_nil. tauto. }
  assert (E : audit_file verify (r, seen) f =
    match proved_seq f with
    | Some k => (mkReport (Total r + 1) (Verified r + 1) (Invalid r) (Z.max (MaxSeq r) k) (Missing r), {[ k ]} ∪ seen)
    | None => (mkReport (Total r + 1) (Verified r) (Invalid r + 1) (MaxSeq r) (Missing r), seen)
    end).
  { unfold audit_file, proved_seq. destruct f as [b|]; [|done]. destruct (uncbor_signed b); [|done..].
    destruct (verify a); [|done..].
    destruct (Z.ltb_spec (MaxSeq r) (ProviderSeq (sReceipt a))); do 2 f_equal; lia. }
  assert (M : forall l a b, foldr Z.max (Z.max a b) l = Z.max b (foldr Z.max a l)).
  { induction l as [|x l IHl]; intros a b; cbn; [lia|]. rewrite IHl. lia. }
  rewrite E. unfold proved_seqs in *. cbn [omap list_omap length].
  destruct (proved_seq f) as [k|]; [specialize (IH (mkReport (Total r + 1) (Verified r + 1) (Invalid r)
      (Z.max (MaxSeq r) k) (Missing r)) ({[ k ]} ∪ seen))
    |specialize (IH (mkReport (Total r + 1) (Verified r) (Invalid r + 1) (MaxSeq r) (Missing r)) seen)];
    destruct (fold_left _ _ _) as [r' seen']; cbn [Total Verified Invalid MaxSeq length] in IH |- *;
    destruct IH as (I1 & I2 & I3 & I4 & I5); split_and!; try lia.
  - rewrite I4. cbn. apply M.
  - intros j. rewrite I5, elem_of_cons, elem_of_union, elem_of_singleton. tauto.
  - done.
Qed.

Lemma missing_loop_spec fuel seq maxSeq seen :
  0 <= seq <= maxSeq + 1 -> maxSeq < 2 ^ 64 - 1 -> maxSeq + 1 - seq <= Z.of_nat fuel ->
  missing_loop fuel seq maxSeq seen = Some (filter (fun k => k ∉ seen) (seqZ seq (maxSeq + 1 - seq))).
Proof.
  intros Hs Hm. revert seq Hs. induction fuel as [|fuel IH]; intros seq Hs Hf; cbn [missing_loop].
  - rewrite (proj2 (Z.leb_gt _ _)) by lia. cbn [negb]. rewrite seqZ_nil by lia. done.
  - destruct (Z.leb_spec seq maxSeq) as [L|L]; cbn [negb]; [|by rewrite seqZ_nil by lia].
    assert (A : add64 seq 1 = seq + 1) by (unfold add64; apply u64_id; unfold is_u64; lia).
    rewrite A, IH by lia. cbn [mbind option_bind]. rewrite (seqZ_cons seq) by lia. rewrite filter_cons.
    replace (maxSeq + 1 - Z.succ seq) with (Z.pred (maxSeq + 1 - seq)) by lia.
    replace (maxSeq + 1 - (seq + 1)) with (Z.pred (maxSeq + 1 - seq)) by lia.
    change (Z.succ seq) with (seq + 1).
    destruct (decide (seq ∉ seen)) as [N|N]; [by rewrite bool_decide_eq_false_2|].
    rewrite bool_decide_eq_true_2; [done|]. by destruct (decide (seq ∈ seen)).
Qed.

(** A receipt numbered 2^64 - 1 makes the loop run forever: after the last number comes zero again. *)
Lemma missing_loop_diverges fuel seq seen : is_u64 seq -> missing_loop fuel seq MaxUint64 seen = None.
Proof.
  revert seq. induction fuel as [|fuel IH]; intros seq Hs; cbn [missing_loop];
    rewrite (proj2 (Z.leb_le _ _)) by (unfold MaxUint64, is_u64 in *; lia); cbn [negb]; [done|].
  rewrite IH; [done|]. unfold add64, u64, is_u64. apply Z.mod_pos_bound. lia.
Qed.
End AuditFacts.

Lemma foldr_max_spec a l :
  (forall k, k ∈ l -> k <= foldr Z.max a l) /\ (foldr Z.max a l = a \/ foldr Z.max a l ∈ l) /\ a <= foldr Z.max a l.
Proof.
  induction l as [|x l (I1 & I2 & I3)]; cbn.
  { split_and!; [|by left|done]. intros k Hk. by apply elem_of_nil in Hk. }
  split_and!; [| |lia].
  - intros k. rewrite elem_of_cons. intros [->|Hk]; [lia|]. specialize (I1 k Hk). lia.
  - rewrite elem_of_cons. destruct (Z.max_spec x (foldr Z.max a l)) as [[_ ->]|[_ ->]]; [|by right; left].
    destruct I2 as [I2|I2]; [by left|by right; right].
Qed.

(** An audit ends and finds every hidden execution: it counts exactly the files that verify, its highest number
    is the highest one a verified receipt carries, a number is reported missing exactly when it lies below that
    and no verified receipt carries it, and the report is complete exactly when no number is missing. *)
Theorem audit_finds_every_gap `{SignedCbor} verify files :
  Forall (fun k => 0 <= k < 2 ^ 64 - 1) (proved_seqs verify files) ->
  exists r, audit_files verify files = Some r
    /\ Total r = Z.of_nat (length files) /\ Verified r = Z.of_nat (length (proved_seqs verify files))
    /\ Verified r + Invalid r = Total r
    /\ (forall k, k ∈ proved_seqs verify files -> k <= MaxSeq r) /\ (MaxSeq r = 0 \/ MaxSeq r ∈ proved_seqs verify files)
    /\ (forall k, k ∈ Missing r <-> 1 <= k <= MaxSeq r /\ k ∉ proved_seqs verify files)
    /\ (report_Complete r = true <-> forall k, 1 <= k <= MaxSeq r -> k ∈ proved_seqs verify files).
Proof.
  intros F. unfold audit_files. pose proof (audit_fold verify files (mkReport 0 0 0 0 []) ∅) as A.
  destruct (fold_left _ _ _) as [r seen]. cbn [Total Verified Invalid MaxSeq] in A.
  destruct A as (A1 & A2 & A3 & A4 & A5). pose proof (foldr_max_spec 0 (proved_seqs verify files)) as (M1 & M2 & M3).
  rewrite <- A4 in M1, M2, M3.
  assert (B : MaxSeq r < 2 ^ 64 - 1).
  { destruct M2 as [->|Hin]; [lia|]. rewrite Forall_forall in F. by apply F. }
  rewrite missing_loop_spec by lia. cbn [mbind option_bind]. eexists. split; [done|].
  assert (K : forall k, k ∈ filter (fun k => k ∉ seen) (seqZ 1 (MaxSeq r + 1 - 1))
                        <-> 1 <= k <= MaxSeq r /\ k ∉ proved_seqs verify files).
  { intros k. rewrite list_elem_of_filter, elem_of_seqZ, A5. rewrite elem_of_empty. split; intros [P Q]; (split; [lia||tauto|lia||tauto]). }
  cbn [Total Verified Invalid MaxSeq Missing]. split_and!; [lia|lia|lia|done|done|done|].
  unfold report_Complete. cbn [Missing]. rewrite Nat.eqb_eq, length_zero_iff_nil. split.
  - intros E k Hk. rewrite E in K. destruct (decide (k ∈ proved_seqs verify files)) as [|N]; [done|].
    by apply (conj Hk), K, elem_of_nil in N.
  - intros C. destruct (filter _ _) as [|k l]; [done|]. destruct (proj1 (K k) (list_elem_of_here _ _)) as [Hk N].
    by destruct (N (C k Hk)).
Qed.

(** An encoding that keeps the sequence number only, for receipts that are otherwise fixed. *)
Definition seq_receipt (k : Z) : SignedReceipt :=
  mkSigned (mkReceipt 1 demo_job (zeros 32) "openai" "POST" "api.openai.com" "/" 200 (zeros 32) 1 3 CompletionComplete
    1000 1001 None (zeros 32) 7 k []) (mkSignature "" [] []).

Definition seq_cbor : SignedCbor := {|
  cbor_signed s := Ok [ProviderSeq (sReceipt s)];
  uncbor_signed b := match b with [k] => Ok (seq_receipt k) | _ => Err "decode" end;
|}.

Definition demo_store : ReceiptStore :=
  (@receiptStore_Put seq_cbor (@receiptStore_Put seq_cbor (mkReceiptStore ∅ []) "openai" (seq_receipt 1)).1
     "openai" (seq_receipt 3)).1.

Lemma audit_finds_every_gap_witness :
  exists r, @audit_files seq_cbor (fun _ => Ok ()) (files demo_store "openai") = Some r /\ 2 ∈ Missing r.
Proof.
  assert (E : @proved_seqs seq_cbor (fun _ => Ok ()) (files demo_store "openai") = [3; 1]) by (vm_compute; reflexivity).
  destruct (@audit_finds_every_gap seq_cbor (fun _ => Ok ()) (files demo_store "openai")) as
    (r & Ea & _ & _ & _ & Hmax & _ & K & _); rewrite E in *.
  - apply Forall_cons; split; [lia|]. apply Forall_cons; split; [lia|]. apply Forall_nil; exact I.
  - exists r. split; [exact Ea|]. apply K. specialize (Hmax 3). rewrite !elem_of_cons in *. split; [lia|].
    intros [?|[?|N]]; [lia..|]. by apply elem_of_nil in N.
Defined.
