(* ===== verification/Hub.v ===== *)
(** * One job through the Hub ([tokenhive/hub/hub.go], [flight.go], [agentnet.go])

    The state of a Hub and the execution of one job: admit the tenant, dispatch
    to the TEE, verify the receipt, price it, store it, settle it.  A job is two
    atomic parts with the TEE's answer between them, [execute_begin] and
    [execute_finish]; other jobs run in between, so the safety results are
    about every interleaving of such parts ([hub_reachable]).

    The TEE is a parameter: a dispatch is answered by any [TeeRun]. *)

From S2P Require Import Prelude Bytes Crypto Receipt GoStrings Jobs Credential Headers Pricing Ledger Admission Store.

(** ** Data *)

Record Result := mkResult {
  Chunks : list bytes;
  Status : Z;
  Headers : gmap string (list string);
  RReceipt : SignedReceipt;
  RFailure : option Failure;
}.

(** What the TEE did with a dispatch: its result and error, and what it handed
    to the caller's callbacks on the way. *)
Record TeeRun := mkRun {
  run_result : Result;
  run_err : option error;
  run_started : bool;         (* [onStart] was called *)
  run_chunks : list bytes;    (* the chunks [onChunk] was called with *)
}.

(** One online agent; its tunnel is an address. *)
Record agentConn := mkAgent { ag_provider : string; ag_price : RateCard; ag_models : list string; ag_mux : nat }.

Inductive HubErr :=
| ErrTooManyInflight | ErrBudgetExceeded | ErrQuotaExceeded | ErrUnknownProvider
| ErrCredential (e : error) | ErrTEE (e : error) | ErrVerify (e : error)
| ErrStreamMismatch | ErrResponseStartMismatch | ErrPrice (e : error) | ErrStorePut (e : error)
| ErrJobPriceExceeded | ErrDuplicateSettlement
| ErrNoProviderForModel | ErrNoProvidersOnline | ErrBuildSpec (e : error)
| HubPanic.                       (* a panic of a collaborator that unwinds through the Hub *)

Record Outcome := mkOutcome {
  o_Receipt : SignedReceipt;
  o_Chunks : list bytes;
  o_StatusCode : Z;
  o_Charged : Z;
  o_Commission : Z;
  o_Buyer : Z;
  o_Stored : bool;
  o_Failure : option Failure;
}.

(** The zero values. *)
Definition zero_signed : SignedReceipt :=
  mkSigned (mkReceipt 0 [] [] "" "" "" "" 0 [] 0 0 0 0 0 None [] 0 0 []) (mkSignature "" (zeros 32) []).
Definition zero_outcome : Outcome := mkOutcome zero_signed [] 0 0 0 0 false None.

Definition attemptOutcome (res : Result) : Outcome :=
  mkOutcome zero_signed (Chunks res) (Status res) 0 0 0 false (RFailure res).

(** [Outcome{Receipt: res.Receipt, ..., Stored: stored}]. *)
Definition pricedOutcome (res : Result) (charged comm buyer : Z) (stored : bool) : Outcome :=
  mkOutcome (RReceipt res) (Chunks res) (Status res) charged comm buyer stored (RFailure res).

(** ** Parameters: [encoding/json] of a header set, CBOR of an envelope, the receipt verifier *)

Class HubLib := {
  hub_unicode :: GoUnicode;
  hub_envelope :: EnvelopeCbor;
  hub_headers :: HeaderJson;
  hub_verify : SignedReceipt -> res unit;
}.

Definition streamHashEq (a b : bytes) : bool := ct_equal a b.

Section Hub.
Context {SH : Sha256} {ST : Store} {HL : HubLib}.

Definition receiptMatchesStart (r : Receipt) (status : Z) (headers : gmap string (list string)) : bool :=
  if (length (ResponseHeadersHash r) =? 0)%nat then status =? 0 else
  if negb (StatusCode r =? status) then false else
  streamHashEq (HashResponseHeaders headers) (ResponseHeadersHash r).

(** ** The state *)

Record Hub := mkHub {
  h_rates : gmap string RateCard;
  h_store : store_state;
  h_ledger : Ledger;
  h_quota : option Quota;
  h_budget : option Budget;
  h_flight : option flightLimiter;
  h_commission : Z;
  h_maxJob : Z;
  h_withhold : option (Z -> bool);
  h_online : gmap string agentConn;
  h_agentKeys : gmap string bytes;
  h_credentialStore : gmap string Envelope;
  h_settled : gset bytes;
}.

Definition with_store (h : Hub) (s : store_state) : Hub :=
  mkHub (h_rates h) s (h_ledger h) (h_quota h) (h_budget h) (h_flight h) (h_commission h) (h_maxJob h)
    (h_withhold h) (h_online h) (h_agentKeys h) (h_credentialStore h) (h_settled h).
Definition with_ledger (h : Hub) (l : Ledger) : Hub :=
  mkHub (h_rates h) (h_store h) l (h_quota h) (h_budget h) (h_flight h) (h_commission h) (h_maxJob h)
    (h_withhold h) (h_online h) (h_agentKeys h) (h_credentialStore h) (h_settled h).
Definition with_quota (h : Hub) (q : option Quota) : Hub :=
  mkHub (h_rates h) (h_store h) (h_ledger h) q (h_budget h) (h_flight h) (h_commission h) (h_maxJob h)
    (h_withhold h) (h_online h) (h_agentKeys h) (h_credentialStore h) (h_settled h).
Definition with_budget (h : Hub) (b : option Budget) : Hub :=
  mkHub (h_rates h) (h_store h) (h_ledger h) (h_quota h) b (h_flight h) (h_commission h) (h_maxJob h)
    (h_withhold h) (h_online h) (h_agentKeys h) (h_credentialStore h) (h_settled h).
Definition with_flight (h : Hub) (f : option flightLimiter) : Hub :=
  mkHub (h_rates h) (h_store h) (h_ledger h) (h_quota h) (h_budget h) f (h_commission h) (h_maxJob h)
    (h_withhold h) (h_online h) (h_agentKeys h) (h_credentialStore h) (h_settled h).
Definition with_settled (h : Hub) (s : gset bytes) : Hub :=
  mkHub (h_rates h) (h_store h) (h_ledger h) (h_quota h) (h_budget h) (h_flight h) (h_commission h) (h_maxJob h)
    (h_withhold h) (h_online h) (h_agentKeys h) (h_credentialStore h) s.

(** [New]: a budget table needs a per-job ceiling behind it. *)
Record Config := mkConfig {
  c_Rates : option (gmap string RateCard);
  c_Store : option store_state;
  c_Ledger : option Ledger;
  c_Quota : option Quota;
  c_Budgets : gmap string Z;
  c_Commission : Z;
  c_MaxJobMicros : Z;
  c_MaxInflightPerTenant : Z;
  c_Withhold : option (Z -> bool);
  c_AgentKeys : gmap string bytes;
  c_CredentialStore : option (gmap string Envelope);
}.

Definition New (cfg : Config) : res Hub :=
  match c_Rates cfg, c_Store cfg with
  | None, _ => Err "hub has no rate table"
  | _, None => Err "hub has no receipt store"
  | Some rates, Some store =>
      let ledger := match c_Ledger cfg with None => NewLedger | Some l => l end in
      budget ← (if (0 <? size (c_Budgets cfg))%nat then
                  fail_if ((c_MaxJobMicros cfg =? 0)) ErrInvalidBudget;;
                  Some <$> NewBudget (c_Budgets cfg)
                else Ok None);
      let flight := if 0 <? c_MaxInflightPerTenant cfg
                    then Some (newFlightLimiter (c_MaxInflightPerTenant cfg) MaxFlightTenants) else None in
      Ok (mkHub rates store ledger (c_Quota cfg) budget flight (c_Commission cfg) (c_MaxJobMicros cfg)
            (c_Withhold cfg) ∅ (c_AgentKeys cfg) (default ∅ (c_CredentialStore cfg)) ∅)
  end.

(** ** Agents *)

Definition agentsEnabled (h : Hub) : bool := (0 <? size (h_agentKeys h))%nat.

Definition serves (a : agentConn) (model : string) : bool :=
  if (length (ag_models a) =? 0)%nat then true else existsb (fun m => String.eqb m model) (ag_models a).

Definition card (h : Hub) (provider : string) : option RateCard :=
  match h_online h !! provider with
  | Some a => Some (ag_price a)
  | None => h_rates h !! provider
  end.

(** ** Admission *)

Definition admitTenant (h : Hub) (tenant : string) (now : Z) : Hub * option HubErr :=
  if match h_budget h with Some b => negb (budget_Allow b tenant) | None => false end
  then (h, Some ErrBudgetExceeded) else
  match h_quota h with
  | None => (h, None)
  | Some q =>
      let '(q, ok) := quota_Allow q tenant now in
      (with_quota h (Some q), if ok then None else Some ErrQuotaExceeded)
  end.

Definition chargeTenant (h : Hub) (tenant : string) (micros : Z) : Hub :=
  match h_budget h with
  | None => h
  | Some b => with_budget h (Some (budget_Record b tenant micros))
  end.

Definition beginJob (h : Hub) (tenant : string) (now : Z) : Hub * option HubErr :=
  let '(f, ok) := flight_acquire (h_flight h) tenant in
  let h := with_flight h f in
  if negb ok then (h, Some ErrTooManyInflight) else
  let '(h, err) := admitTenant h tenant now in
  match err with
  | Some e => (with_flight h (flight_release (h_flight h) tenant), Some e)
  | None => (h, None)
  end.

Definition attachCredential (h : Hub) (spec : Spec) : res Spec :=
  match h_credentialStore h !! sp_Provider spec with
  | None => Ok spec
  | Some env =>
      enc ← cbor_envelope env;
      Ok (mkSpec (sp_Version spec) (sp_JobID spec) (sp_Provider spec) (sp_Method spec) (sp_Host spec)
            (sp_Path spec) (sp_Query spec) (sp_Headers spec) (sp_BodyHash spec) (sp_Nonce spec)
            (sp_ExpiresAt spec) (sp_MaxResponseBytes spec) (sp_Stream spec) (sp_Session spec) enc)
  end.

(** ** Settlement *)

Definition maxSettledJobs : Z := 2 ^ 18.

Definition claimSettlement (h : Hub) (jobID : bytes) : Hub * bool :=
  if bool_decide (jobID ∈ h_settled h) then (h, false) else
  let settled := if maxSettledJobs <=? Z.of_nat (size (h_settled h)) then ∅ else h_settled h in
  (with_settled h ({[ jobID ]} ∪ settled), true).

(** Up to the dispatch.  The slot taken here is given back by [finish_job]. *)
Definition execute_begin (h : Hub) (now : Z) (tenant : string) (spec : Spec)
    : Hub * (HubErr + RateCard * Spec) :=
  let '(h, err) := beginJob h tenant now in
  match err with
  | Some e => (h, inl e)
  | None =>
      let refuse e := (with_flight h (flight_release (h_flight h) tenant), inl e) in
      match card h (sp_Provider spec) with
      | None => refuse ErrUnknownProvider
      | Some c =>
          match attachCredential h spec with
          | Ok spec => (with_ledger h (NoteDispatch (h_ledger h) (sp_Provider spec)), inr (c, spec))
          | Err e => refuse (ErrCredential e)
          | Panic => refuse HubPanic
          end
      end
  end.

Definition relayed_bytes (chunks : list bytes) : Z :=
  fold_left (fun n c => add64 n (Z.of_nat (length c))) chunks 0.

(** [NoteSettled], [NoteCommission], [chargeTenant]. *)
Definition settle_books (h : Hub) (provider tenant : string) (charged comm buyer : Z) : Hub :=
  chargeTenant (with_ledger h (NoteCommission (NoteSettled (h_ledger h) provider charged) provider comm))
    tenant buyer.

(** After the TEE answered. *)
Definition execute_settle (h : Hub) (tenant model : string) (c : RateCard) (spec : Spec) (run : TeeRun)
    : Hub * Outcome * option HubErr :=
  let res := run_result run in
  let provider := sp_Provider spec in
  match run_err run with
  | Some e => (h, attemptOutcome res, Some (ErrTEE e))
  | None =>
  match hub_verify (RReceipt res) with
  | Err e => (h, attemptOutcome res, Some (ErrVerify e))
  | Panic => (h, attemptOutcome res, Some HubPanic)
  | Ok _ =>
  let h := with_ledger h (NoteVerified (h_ledger h) provider) in
  let r := sReceipt (RReceipt res) in
  if negb (MatchesStream r (Chunks res)) then (h, attemptOutcome res, Some ErrStreamMismatch) else
  if negb (receiptMatchesStart r (Status res) (Headers res))
  then (h, attemptOutcome res, Some ErrResponseStartMismatch) else
  match Price c model (relayed_bytes (Chunks res)) r with
  | Err e => (h, attemptOutcome res, Some (ErrPrice e))
  | Panic => (h, attemptOutcome res, Some HubPanic)
  | Ok charged =>
  match CommissionOn (h_commission h) charged with
  | Err e => (h, attemptOutcome res, Some (ErrPrice e))
  | Panic => (h, attemptOutcome res, Some HubPanic)
  | Ok comm =>
  let '(buyer, ok) := addChecked charged comm in
  if negb ok then (h, attemptOutcome res, Some (ErrPrice ErrPriceOverflow)) else
  let out := pricedOutcome res charged comm buyer in
  if (0 <? h_maxJob h) && (h_maxJob h <? buyer) then
    match store_Put (h_store h) provider (RReceipt res) with
    | (s, Ok _) => (with_store h s, out true, Some ErrJobPriceExceeded)
    | (s, Err e) => (with_store h s, out false, Some (ErrStorePut e))
    | (s, Panic) => (with_store h s, out false, Some HubPanic)
    end
  else if match h_withhold h with Some w => w (ProviderSeq r) | None => false end then
    let '(h, fresh) := claimSettlement h (JobID r) in
    if negb fresh then (h, out false, Some ErrDuplicateSettlement) else
    (settle_books h provider tenant charged comm buyer, out false, None)
  else
    match store_Put (h_store h) provider (RReceipt res) with
    | (s, Err e) => (with_store h s, out false, Some (ErrStorePut e))
    | (s, Panic) => (with_store h s, out false, Some HubPanic)
    | (s, Ok _) =>
        let h := with_store h s in
        let '(h, fresh) := claimSettlement h (JobID r) in
        if negb fresh then (h, out true, Some ErrDuplicateSettlement) else
        (settle_books h provider tenant charged comm buyer, out true, None)
    end
  end end end end.

(** The deferred [release]. *)
Definition execute_finish (h : Hub) (tenant model : string) (c : RateCard) (spec : Spec) (run : TeeRun)
    : Hub * Outcome * option HubErr :=
  let '(h, out, err) := execute_settle h tenant model c spec run in
  (with_flight h (flight_release (h_flight h) tenant), out, err).

(** [Execute], alone on the Hub. *)
Definition Execute (h : Hub) (now : Z) (tenant model : string) (spec : Spec) (tee : Spec -> TeeRun)
    : Hub * Outcome * option HubErr :=
  match execute_begin h now tenant spec with
  | (h, inl e) => (h, zero_outcome, Some e)
  | (h, inr (c, spec)) => execute_finish h tenant model c spec (tee spec)
  end.
End Hub.

(** ** What one settlement does *)

Section Settle.
Context {SH : Sha256} {ST : Store} {HL : HubLib}.

Definition withheld (h : Hub) (r : Receipt) : bool :=
  match h_withhold h with Some w => w (ProviderSeq r) | None => false end.

(** The conditions under which money moves, and the state it leaves. *)
Record settled_by (h : Hub) (tenant model : string) (c : RateCard) (spec : Spec) (run : TeeRun)
    (h' : Hub) (out : Outcome) : Prop := {
  sb_answered : run_err run = None;
  sb_receipt : o_Receipt out = RReceipt (run_result run);
  sb_verified : hub_verify (o_Receipt out) = Ok ();
  sb_stream : MatchesStream (sReceipt (o_Receipt out)) (Chunks (run_result run)) = true;
  sb_start : receiptMatchesStart (sReceipt (o_Receipt out)) (Status (run_result run)) (Headers (run_result run)) = true;
  sb_charged : Price c model (relayed_bytes (Chunks (run_result run))) (sReceipt (o_Receipt out)) = Ok (o_Charged out);
  sb_commission : CommissionOn (h_commission h) (o_Charged out) = Ok (o_Commission out);
  sb_buyer : BuyerPrice (h_commission h) (o_Charged out) = Ok (o_Buyer out);
  sb_ceiling : 0 < h_maxJob h -> o_Buyer out <= h_maxJob h;
  sb_fresh : JobID (sReceipt (o_Receipt out)) ∉ h_settled h;
  sb_stored : if withheld h (sReceipt (o_Receipt out)) then h_store h' = h_store h
              else store_Put (h_store h) (sp_Provider spec) (o_Receipt out) = (h_store h', Ok ());
  sb_state : h' = settle_books
    (with_settled (with_store (with_ledger h (NoteVerified (h_ledger h) (sp_Provider spec))) (h_store h'))
       ({[ JobID (sReceipt (o_Receipt out)) ]} ∪
          (if maxSettledJobs <=? Z.of_nat (size (h_settled h)) then ∅ else h_settled h)))
    (sp_Provider spec) tenant (o_Charged out) (o_Commission out) (o_Buyer out);
}.

(** Everything but the store and the count of verified receipts is untouched. *)
Definition books_untouched (h : Hub) (provider : string) (h' : Hub) : Prop :=
  exists s l, h' = with_store (with_ledger h l) s
    /\ (l = h_ledger h \/ l = NoteVerified (h_ledger h) provider).

Lemma books_untouched_put h p l s :
  l = h_ledger h \/ l = NoteVerified (h_ledger h) p -> books_untouched h p (with_store (with_ledger h l) s).
Proof. intros Hl. by exists s, l. Qed.

Lemma books_untouched_refl h p l :
  l = h_ledger h \/ l = NoteVerified (h_ledger h) p -> books_untouched h p (with_ledger h l).
Proof. intros Hl. exists (h_store h), l. by destruct h. Qed.

Lemma books_untouched_id h p : books_untouched h p h.
Proof. exists (h_store h), (h_ledger h). split; [by destruct h|by left]. Qed.

Lemma h_store_settle_books h p t a b d : h_store (settle_books h p t a b d) = h_store h.
Proof. unfold settle_books, chargeTenant. by destruct h as [? ? ? ? []]. Qed.

Lemma BuyerPrice_of bps seller comm :
  CommissionOn bps seller = Ok comm -> (addChecked seller comm).2 = true ->
  BuyerPrice bps seller = Ok (addChecked seller comm).1.
Proof. intros E O. unfold BuyerPrice. rewrite E. cbn [mbind res_bind]. unfold addChecked in *. cbn in O. by rewrite O. Qed.

Lemma execute_settle_cases h tenant model c spec run :
  let '(h', out, err) := execute_settle h tenant model c spec run in
  match err with
  | Some _ => books_untouched h (sp_Provider spec) h'
  | None => settled_by h tenant model c spec run h' out
  end.
Proof.
  unfold execute_settle. destruct (run_err run) as [e|] eqn:Er; [apply books_untouched_id|].
  destruct (hub_verify (RReceipt (run_result run))) as [[]| |] eqn:Ev; [|apply books_untouched_id..].
  set (r := sReceipt (RReceipt (run_result run))).
  set (h1 := with_ledger h (NoteVerified (h_ledger h) (sp_Provider spec))).
  assert (U : books_untouched h (sp_Provider spec) h1) by (apply books_untouched_refl; by right).
  assert (P : forall s, books_untouched h (sp_Provider spec) (with_store h1 s)).
  { intros s. apply books_untouched_put. by right. }
  destruct (MatchesStream r _) eqn:Em; cbn [negb]; [|done].
  destruct (receiptMatchesStart r _ _) eqn:Es; cbn [negb]; [|done].
  destruct (Price c model _ r) as [charged| |] eqn:Ep; [|done..].
  destruct (CommissionOn (h_commission h1) charged) as [comm| |] eqn:Ec; [|done..].
  pose proof (BuyerPrice_of _ _ _ Ec) as Eb. destruct (addChecked charged comm) as [buyer ok]. cbn [fst snd] in Eb.
  destruct ok; cbn [negb]; [|done]. specialize (Eb eq_refl).
  destruct ((0 <? h_maxJob h1) && (h_maxJob h1 <? buyer)) eqn:Ej.
  { destruct (store_Put _ _ _) as [s [| |]]; apply P. }
  assert (Hj : 0 < h_maxJob h -> buyer <= h_maxJob h).
  { intros Hm. cbn in Ej. rewrite (proj2 (Z.ltb_lt _ _) Hm) in Ej. cbn in Ej. by apply Z.ltb_ge in Ej. }
  change (h_withhold h1) with (h_withhold h). fold (withheld h r).
  destruct (withheld h r) eqn:Ew.
  - unfold claimSettlement. change (h_settled h1) with (h_settled h).
    destruct (bool_decide (JobID r ∈ h_settled h)) eqn:Ed; cbn [negb]; [done|].
    apply bool_decide_eq_false in Ed.
    split; cbn [o_Receipt o_Charged o_Commission o_Buyer pricedOutcome]; try done; fold r;
      rewrite ?Ew, h_store_settle_books; [done|by destruct h].
  - change (h_store h1) with (h_store h).
    destruct (store_Put (h_store h) (sp_Provider spec) (RReceipt (run_result run))) as [s [[]| |]] eqn:Eq; [|apply P..].
    unfold claimSettlement. change (h_settled (with_store h1 s)) with (h_settled h).
    destruct (bool_decide (JobID r ∈ h_settled h)) eqn:Ed; cbn [negb]; [apply P|].
    apply bool_decide_eq_false in Ed.
    split; cbn [o_Receipt o_Charged o_Commission o_Buyer pricedOutcome]; try done; fold r;
      rewrite ?Ew, h_store_settle_books; [done|by destruct h].
Qed.
End Settle.

(** ** Money moves only with proof *)

Section Money.
Context {SH : Sha256} {ST : Store} {HL : HubLib}.

(** Everything that says who owes what. *)
Definition money (h : Hub) : Z * Z * Z * option Budget * gset bytes :=
  (settled (h_ledger h), revenue (h_ledger h), commission (h_ledger h), h_budget h, h_settled h).
Definition account_money (h : Hub) (p : string) : Z * Z * Z :=
  let a := account (h_ledger h) p in (a_settled a, a_revenue a, a_commission a).

Lemma books_untouched_money h p h' :
  books_untouched h p h' -> money h' = money h /\ forall q, account_money h' q = account_money h q.
Proof.
  intros (s & l & -> & Hl). split; [destruct Hl as [->| ->]; by destruct h|].
  intros q. unfold account_money. cbn [h_ledger with_store with_ledger]. destruct Hl as [->| ->]; [done|].
  unfold account. cbn [NoteVerified accounts]. destruct (decide (p = q)) as [<-|N].
  - by rewrite lookup_insert_eq.
  - by rewrite lookup_insert_ne.
Qed.

(** C6: Money moves only with proof behind it.  An attempt that ends in an error changes nothing of the revenue, the
    commission, the settlement counts, the settled jobs or the tenant's budget; one that succeeds had a receipt
    that verified, that attests exactly the bytes and the response start the Hub relayed, was priced from the
    rate card within the per-job ceiling, settles a job not settled before, and its receipt is held by the store
    (unless the test seam withheld it). *)
Theorem money_moves_only_with_proof {SL : StoreLaws} h tenant model c spec run :
  let '(h', out, err) := execute_settle h tenant model c spec run in
  match err with
  | Some _ => money h' = money h /\ forall q, account_money h' q = account_money h q
  | None => settled_by h tenant model c spec run h' out
            /\ (withheld h (sReceipt (o_Receipt out)) = false -> holds (h_store h') (sp_Provider spec) (o_Receipt out))
  end.
Proof.
  pose proof (execute_settle_cases h tenant model c spec run) as S.
  destruct (execute_settle h tenant model c spec run) as [[h' out] [e|]].
  - by apply (books_untouched_money h (sp_Provider spec)).
  - split; [exact S|]. intros W. pose proof (sb_stored _ _ _ _ _ _ _ _ S) as P. rewrite W in P.
    by eapply put_holds.
Qed.
End Money.

(** ** Jobs in flight, interleaved *)

Section Interleave.
Context {SH : Sha256} {ST : Store} {HL : HubLib}.

(** A dispatched job the TEE has not answered yet. *)
Record job := mkJob { j_tenant : string; j_model : string; j_card : RateCard; j_spec : Spec }.

(** A settled one, for the books. *)
Record charge := mkCharge {
  ch_tenant : string; ch_provider : string; ch_job : bytes; ch_charged : Z; ch_commission : Z; ch_buyer : Z }.

Definition charge_of (j : job) (out : Outcome) : charge :=
  mkCharge (j_tenant j) (sp_Provider (j_spec j)) (JobID (sReceipt (o_Receipt out))) (o_Charged out)
    (o_Commission out) (o_Buyer out).

(** Agents come and go, with their prices and their credentials. *)
Definition with_supply (h : Hub) (online : gmap string agentConn) (creds : gmap string Envelope) : Hub :=
  mkHub (h_rates h) (h_store h) (h_ledger h) (h_quota h) (h_budget h) (h_flight h) (h_commission h) (h_maxJob h)
    (h_withhold h) online (h_agentKeys h) creds (h_settled h).

(** Every interleaving of job starts, job ends and supply changes.  The Hub's realtime sessions are modelled by
    themselves ([Realtime]) and are not steps of this relation: what is proved of it is about runs of jobs. *)
Inductive hub_reachable (cfg : Config) : Hub -> list job -> list charge -> Prop :=
| hr_new h : New cfg = Ok h -> hub_reachable cfg h [] []
| hr_refused h js log now t spec h' e :
    hub_reachable cfg h js log -> execute_begin h now t spec = (h', inl e) -> hub_reachable cfg h' js log
| hr_begin h js log now t model spec h' c spec' :
    hub_reachable cfg h js log -> execute_begin h now t spec = (h', inr (c, spec')) ->
    hub_reachable cfg h' (mkJob t model c spec' :: js) log
| hr_finish h js1 j js2 log run h' out err :
    hub_reachable cfg h (js1 ++ j :: js2) log ->
    execute_finish h (j_tenant j) (j_model j) (j_card j) (j_spec j) run = (h', out, err) ->
    hub_reachable cfg h' (js1 ++ js2) (match err with None => charge_of j out :: log | Some _ => log end)
| hr_supply h js log online creds :
    hub_reachable cfg h js log -> hub_reachable cfg (with_supply h online creds) js log.

(** What a start changes: the quota, the dispatch count and the in-flight slots, nothing else. *)
Lemma execute_begin_cases h now t spec :
  let '(h', r) := execute_begin h now t spec in
  exists q l f, h' = with_ledger (with_flight (with_quota h q) f) l
    /\ match r with
       | inl _ => l = h_ledger h /\ (f = (flight_acquire (h_flight h) t).1 /\ (flight_acquire (h_flight h) t).2 = false
                  \/ (flight_acquire (h_flight h) t).2 = true /\ f = flight_release (flight_acquire (h_flight h) t).1 t)
       | inr (c, spec') => flight_acquire (h_flight h) t = (f, true) /\ l = NoteDispatch (h_ledger h) (sp_Provider spec')
           /\ match h_budget h with Some b => budget_Allow b t = true | None => True end
       end.
Proof.
  unfold execute_begin, beginJob. destruct (flight_acquire (h_flight h) t) as [f ok] eqn:Ef.
  destruct ok; cbn [negb fst snd].
  2: { exists (h_quota h), (h_ledger h), f. split; [by destruct h|]. split; [done|by left]. }
  unfold admitTenant. cbn [with_flight h_budget h_quota].
  destruct (match h_budget h with Some b => _ | None => _ end) eqn:Eb.
  { exists (h_quota h), (h_ledger h), (flight_release f t). split; [by destruct h|]. split; [done|by right]. }
  assert (B : match h_budget h with Some b => budget_Allow b t = true | None => True end).
  { destruct (h_budget h) as [b|]; [|done]. by apply negb_false_iff in Eb. }
  assert (K : forall q, let h1 := with_quota (with_flight h f) q in
    let '(h', r) := match card h1 (sp_Provider spec) with
      | None => (with_flight h1 (flight_release (h_flight h1) t), inl ErrUnknownProvider)
      | Some c => match attachCredential h1 spec with
          | Ok spec => (with_ledger h1 (NoteDispatch (h_ledger h1) (sp_Provider spec)), inr (c, spec))
          | Err e => (with_flight h1 (flight_release (h_flight h1) t), inl (ErrCredential e))
          | Panic => (with_flight h1 (flight_release (h_flight h1) t), inl HubPanic) end end in
    exists q l f0, h' = with_ledger (with_flight (with_quota h q) f0) l
    /\ match r with
       | inl _ => l = h_ledger h /\ (f0 = f /\ true = false \/ true = true /\ f0 = flight_release f t)
       | inr (c, spec') => (f, true) = (f0, true) /\ l = NoteDispatch (h_ledger h) (sp_Provider spec')
           /\ match h_budget h with Some b => budget_Allow b t = true | None => True end
       end).
  { intros q h1. destruct (card h1 (sp_Provider spec)) as [c|]; [|exists q, (h_ledger h), (flight_release f t);
      split; [by destruct h|split; [done|by right]]].
    destruct (attachCredential h1 spec) as [spec'| |].
    - exists q, (NoteDispatch (h_ledger h) (sp_Provider spec')), f. by split; [destruct h|].
    - exists q, (h_ledger h), (flight_release f t). split; [by destruct h|split; [done|by right]].
    - exists q, (h_ledger h), (flight_release f t). split; [by destruct h|split; [done|by right]]. }
  destruct (h_quota h) as [q|] eqn:Eq.
  - destruct (quota_Allow q t now) as [q' okq]. destruct okq; [apply (K (Some q'))|].
    exists (Some q'), (h_ledger h), (flight_release f t). split; [by destruct h|]. split; [done|by right].
  - specialize (K None). cbn zeta in K. replace (with_quota (with_flight h f) None) with (with_flight h f) in K
      by (destruct h; cbn in *; by subst). exact K.
Qed.
End Interleave.

Section Invariants.
Context {SH : Sha256} {ST : Store} {HL : HubLib}.

Lemma execute_finish_cases h t model c spec run h' out err :
  execute_finish h t model c spec run = (h', out, err) ->
  exists h1, h' = with_flight h1 (flight_release (h_flight h) t)
    /\ match err with
       | Some _ => books_untouched h (sp_Provider spec) h1
       | None => settled_by h t model c spec run h1 out
       end.
Proof.
  unfold execute_finish. pose proof (execute_settle_cases h t model c spec run) as S.
  destruct (execute_settle h t model c spec run) as [[h1 out1] err1].
  intros E. injection E as <- <- <-. exists h1. split; [|exact S]. f_equal.
  destruct err1 as [e|].
  - destruct S as (s & l & -> & _). by destruct h.
  - rewrite (sb_state _ _ _ _ _ _ _ _ S). unfold settle_books, chargeTenant. by destruct h as [? ? ? ? []].
Qed.

(** Facts about the parts of the state a settlement writes. *)
Lemma settled_by_books h t model c spec run h1 out :
  settled_by h t model c spec run h1 out ->
  h_commission h1 = h_commission h /\ h_maxJob h1 = h_maxJob h
  /\ h_settled h1 = {[ JobID (sReceipt (o_Receipt out)) ]} ∪
       (if maxSettledJobs <=? Z.of_nat (size (h_settled h)) then ∅ else h_settled h)
  /\ h_budget h1 = (fun b => budget_Record b t (o_Buyer out)) <$> h_budget h
  /\ h_ledger h1 = NoteCommission (NoteSettled (NoteVerified (h_ledger h) (sp_Provider spec)) (sp_Provider spec)
                     (o_Charged out)) (sp_Provider spec) (o_Commission out).
Proof.
  intros S. rewrite (sb_state _ _ _ _ _ _ _ _ S). unfold settle_books, chargeTenant.
  by destruct h as [? ? ? ? []].
Qed.

Lemma Price_u64 c model rel r z : Price c model rel r = Ok z -> is_u64 z.
Proof.
  assert (A : forall a b, is_u64 (addChecked a b).1).
  { intros a b. unfold addChecked, add64, u64, is_u64. apply Z.mod_pos_bound. lia. }
  assert (M : forall a b, is_u64 (mulChecked a b).1).
  { intros a b. unfold mulChecked. destruct (_ || _); [done|]. apply Z.mod_pos_bound. lia. }
  unfold Price. intros E.
  repeat (case_match; try done; try (apply (inj Ok) in E as <-));
    repeat match goal with H : addChecked ?a ?b = (?x, _) |- _ => pose proof (A a b); rewrite H in *; clear H
      | H : mulChecked ?a ?b = (?x, _) |- _ => pose proof (M a b); rewrite H in *; clear H end; done.
Qed.

Lemma CommissionOn_u64 bps z comm : CommissionOn bps z = Ok comm -> is_u64 comm.
Proof.
  unfold CommissionOn, mulChecked. destruct (_ || _); [by intros E; apply (inj Ok) in E as <-|].
  destruct (_ || _); intros E; cbn [negb] in E.
  - by apply (inj Ok) in E as <-.
  - destruct (_ =? _); [|done]. apply (inj Ok) in E as <-. unfold is_u64, u64.
    pose proof (Z.mod_pos_bound (z * bps) (2 ^ 64)). split; [apply Z.div_pos; lia|].
    apply Z.div_lt_upper_bound; lia.
Qed.

Lemma settled_by_u64 h t model c spec run h1 out :
  settled_by h t model c spec run h1 out ->
  is_u64 (o_Charged out) /\ is_u64 (o_Commission out) /\ is_u64 (o_Buyer out).
Proof.
  intros S. split; [eapply Price_u64, sb_charged, S|]. split; [eapply CommissionOn_u64, sb_commission, S|].
  pose proof (sb_buyer _ _ _ _ _ _ _ _ S) as B. unfold BuyerPrice in B. inv_bind B.
  unfold addChecked in B. destruct (_ <=? _); [|done]. apply (inj Ok) in B as <-. apply Z.mod_pos_bound. lia.
Qed.

(** *** The in-flight slots are exactly the running jobs *)

Definition tenants (js : list job) : list string := map j_tenant js.

Lemma hub_flight_inv cfg h js log :
  0 < c_MaxInflightPerTenant cfg -> hub_reachable cfg h js log ->
  exists f, h_flight h = Some f
    /\ flight_reachable (c_MaxInflightPerTenant cfg) MaxFlightTenants (f, tenants js).
Proof.
  intros Hm. induction 1 as [h E|h js log now t spec h' e R (f & Ef & IH) E|h js log now t model spec h' c spec' R (f & Ef & IH) E
    |h js1 j js2 log run h' out err R (f & Ef & IH) E|h js log online creds R (f & Ef & IH)].
  - unfold New in E. destruct (c_Rates cfg); [|done]. destruct (c_Store cfg); [|done]. inv_bind E.
    apply (inj Ok) in E as <-. cbn. rewrite (proj2 (Z.ltb_lt _ _)) by done. eexists. split; [done|]. constructor.
  - pose proof (execute_begin_cases h now t spec) as C. rewrite E in C. destruct C as (q & l & f0 & -> & _ & C).
    cbn [h_flight with_ledger with_flight]. rewrite Ef in C.
    assert (A : exists f1, (flight_acquire (Some f) t).1 = Some f1).
    { unfold flight_acquire. destruct (_ <=? _); [by eexists|]. destruct (_ && _); by eexists. }
    destruct A as [f1 A]. destruct (flight_acquire (Some f) t) as [fa ok] eqn:Ea. cbn [fst snd] in *. subst fa.
    destruct C as [[-> ->]|[-> ->]].
    + exists f1. split; [done|]. by eapply fr_refused.
    + eexists. split; [reflexivity|]. apply (fr_release _ _ f1 [] (tenants js) t); [|done]. by eapply fr_acquire.
  - pose proof (execute_begin_cases h now t spec) as C. rewrite E in C. destruct C as (q & l & f0 & -> & C & _).
    rewrite Ef in C. cbn [h_flight with_ledger with_flight].
    assert (exists f1, f0 = Some f1) as [f1 ->].
    { unfold flight_acquire in C. destruct (_ <=? _); [done|]. destruct (_ && _); [done|]. injection C as <-. by eexists. }
    exists f1. split; [done|]. cbn. by eapply fr_acquire.
  - apply execute_finish_cases in E as (h1 & -> & _). cbn [h_flight with_flight]. rewrite Ef.
    eexists. split; [reflexivity|]. unfold tenants in *. rewrite map_app in *. cbn [map] in IH. by eapply fr_release.
  - exists f. split; [done|exact IH].
Qed.

(** *** A job settles once *)

Lemma hub_settled_inv cfg h js log :
  hub_reachable cfg h js log -> Z.of_nat (length log) <= maxSettledJobs ->
  h_settled h = list_to_set (map ch_job log) /\ NoDup (map ch_job log).
Proof.
  induction 1 as [h E|h js log now t spec h' e R IH E|h js log now t model spec h' c spec' R IH E
    |h js1 j js2 log run h' out err R IH E|h js log online creds R IH]; intros L.
  - unfold New in E. destruct (c_Rates cfg); [|done]. destruct (c_Store cfg); [|done]. inv_bind E.
    apply (inj Ok) in E as <-. split; [done|constructor].
  - pose proof (execute_begin_cases h now t spec) as C. rewrite E in C. destruct C as (q & l & f0 & -> & _).
    by destruct h; apply IH.
  - pose proof (execute_begin_cases h now t spec) as C. rewrite E in C. destruct C as (q & l & f0 & -> & _).
    by destruct h; apply IH.
  - apply execute_finish_cases in E as (h1 & -> & C). cbn [h_settled with_flight]. destruct err as [e|].
    + destruct C as (s & l & -> & _). by apply IH.
    + cbn [length map] in *. destruct (IH ltac:(lia)) as [IHs IHn].
      destruct (settled_by_books _ _ _ _ _ _ _ _ C) as (_ & _ & -> & _). pose proof (sb_fresh _ _ _ _ _ _ _ _ C) as F.
      rewrite IHs in F |- *. rewrite size_list_to_set, length_map by done.
      rewrite (proj2 (Z.leb_gt _ _)) by lia. split; [done|].
      constructor; [|done]. intros N. by apply F, elem_of_list_to_set.
  - by apply IH.
Qed.
End Invariants.

(** ** The results about every interleaving *)

Section Results.
Context {SH : Sha256} {ST : Store} {HL : HubLib}.

(** C28: One job settles at most once: in a run of jobs, however they interleave, the jobs a Hub has settled are pairwise different, as
    long as it has settled at most the size of its table of settled jobs. *)
Theorem job_settles_once cfg h js log :
  hub_reachable cfg h js log -> Z.of_nat (length log) <= maxSettledJobs -> NoDup (map ch_job log).
Proof. intros R L. by destruct (hub_settled_inv cfg h js log R L). Qed.

(** *** Budgets *)

Lemma budget_Record_used b t m u :
  is_u64 m -> is_u64 (budget_used b u) ->
  b_budgets (budget_Record b t m) = b_budgets b
  /\ is_u64 (budget_used (budget_Record b t m) u)
  /\ budget_used (budget_Record b t m) u <= budget_used b u + (if decide (t = u) then m else 0).
Proof.
  intros Hm Hu. unfold budget_Record. destruct (b_budgets b !! t) as [ceil|] eqn:E.
  2: { split; [done|]. split; [done|]. unfold is_u64 in *. destruct (decide _); lia. }
  split; [done|]. unfold budget_used in *. cbn [b_used]. destruct (decide (t = u)) as [<-|N].
  - rewrite lookup_insert_eq. cbn [default]. pose proof (saturatingAdd_spec _ m Hu Hm) as S.
    assert (E2 : saturatingAdd (default 0 (b_used b !! t)) m =
      if default 0 (b_used b !! t) <=? add64 (default 0 (b_used b !! t)) m
      then add64 (default 0 (b_used b !! t)) m else MaxUint64).
    { unfold saturatingAdd, addChecked. by destruct (_ <=? _). }
    cbn [id]. rewrite <- E2, S. unfold saturated, MaxUint64, is_u64 in *. lia.
  - rewrite lookup_insert_ne by done. unfold is_u64 in *. lia.
Qed.

(** What the Hub has recorded and what its running jobs may still add stay under the ceiling plus the overshoot. *)
Definition budget_room (cfg : Config) (h : Hub) (js : list job) : Prop :=
  h_maxJob h = c_MaxJobMicros cfg
  /\ exists b, h_budget h = Some b /\ b_budgets b = c_Budgets cfg
     /\ forall t ceil, c_Budgets cfg !! t = Some ceil ->
          is_u64 (budget_used b t)
          /\ budget_used b t + slots t (tenants js) * c_MaxJobMicros cfg
             <= ceil - 1 + c_MaxInflightPerTenant cfg * c_MaxJobMicros cfg.

Lemma NewBudget_spec m b : NewBudget m = Ok b -> b = mkBudget m ∅ /\ map_Forall (fun _ v => v <> 0) m.
Proof.
  unfold NewBudget. intros E. do 2 inv_guard E. apply (inj Ok) in E as <-. split; [done|].
  intros t v Hv ->. apply not_true_iff_false in Hguard0. apply Hguard0, existsb_exists. exists (t, 0).
  split; [by apply list_elem_of_In, elem_of_map_to_list|]. apply orb_true_r.
Qed.

Lemma New_budget cfg h :
  New cfg = Ok h -> c_Budgets cfg <> ∅ ->
  h_maxJob h = c_MaxJobMicros cfg /\ c_MaxJobMicros cfg <> 0 /\ h_budget h = Some (mkBudget (c_Budgets cfg) ∅)
  /\ map_Forall (fun _ v => v <> 0) (c_Budgets cfg).
Proof.
  unfold New. intros E N. destruct (c_Rates cfg); [|done]. destruct (c_Store cfg); [|done].
  rewrite (proj2 (Nat.ltb_lt _ _)) in E by (apply Nat.neq_0_lt_0; intros Z0; by apply map_size_empty_iff in Z0).
  inv_bind E. inv_guard E0. destruct (NewBudget (c_Budgets cfg)) as [b| |] eqn:Eb; [|done..].
  apply (inj Ok) in E0 as <-. apply (inj Ok) in E as <-. cbn. destruct (NewBudget_spec _ _ Eb) as [-> F].
  split; [done|]. split; [|done]. by apply Z.eqb_neq.
Qed.

Lemma hub_budget_inv cfg h js log :
  c_Budgets cfg <> ∅ -> map_Forall (fun _ v => is_u64 v) (c_Budgets cfg) -> is_u64 (c_MaxJobMicros cfg) ->
  0 < c_MaxInflightPerTenant cfg < 2 ^ 63 ->
  hub_reachable cfg h js log -> budget_room cfg h js.
Proof.
  intros Nb Ub Um Hf. induction 1 as [h E|h js log now t spec h' e R IH E|h js log now t model spec h' c spec' R IH E
    |h js1 j js2 log run h' out err R IH E|h js log online creds R IH].
  - destruct (New_budget cfg h E Nb) as (Em & _ & Eb & F). split; [done|]. eexists. split; [done|]. split; [done|].
    intros t ceil Ht. specialize (F t ceil Ht). specialize (Ub t ceil Ht). cbn in F, Ub. unfold is_u64 in *.
    unfold budget_used, slots. cbn. rewrite lookup_empty. cbn. nia.
  - pose proof (execute_begin_cases h now t spec) as C. rewrite E in C. destruct C as (q & l & f0 & -> & _).
    by destruct h.
  - destruct (hub_flight_inv cfg h js log (proj1 Hf) R) as (f & Ef & Rf).
    pose proof (execute_begin_cases h now t spec) as C. rewrite E in C. destruct C as (q & l & f0 & -> & Ca & _ & Cb).
    rewrite Ef in Ca. destruct IH as (Em & b & Eb & Et & IH). rewrite Eb in Cb.
    split; [by destruct h|]. exists b. split; [by destruct h|]. split; [done|]. intros u ceil Hu.
    destruct (IH u ceil Hu) as [U IHu]. split; [done|]. cbn [tenants map]. rewrite slots_cons. cbn [j_tenant].
    destruct (decide (t = u)) as [<-|N]; [|done]. unfold budget_Allow in Cb. rewrite Et, Hu in Cb. apply Z.ltb_lt in Cb.
    assert (exists f1, f0 = Some f1) as [f1 ->].
    { unfold flight_acquire in Ca. destruct (_ <=? _); [done|]. destruct (_ && _); [done|]. injection Ca as <-. by eexists. }
    pose proof (fr_acquire _ _ _ _ _ _ Rf Ca) as Ra.
    apply flight_reachable_ok in Ra; [|lia|unfold MaxFlightTenants; lia].
    pose proof (fo_bound _ _ _ Ra t) as B. cbn [snd] in B. rewrite slots_cons, decide_True in B by done.
    fold (tenants js). unfold is_u64 in *. nia.
  - apply execute_finish_cases in E as (h1 & -> & C). destruct IH as (Em & b & Eb & Et & IH).
    assert (S : forall u, slots u (tenants (js1 ++ j :: js2)) =
      (if decide (j_tenant j = u) then 1 else 0) + slots u (tenants (js1 ++ js2))).
    { intros u. unfold tenants. rewrite !map_app. apply slots_mid. }
    destruct err as [e|].
    + destruct C as (s & l & -> & _). split; [by destruct h|]. exists b. split; [by destruct h|]. split; [done|].
      intros u ceil Hu. destruct (IH u ceil Hu) as [U IHu]. split; [done|]. rewrite S in IHu.
      unfold is_u64 in *. destruct (decide _); nia.
    + destruct (settled_by_books _ _ _ _ _ _ _ _ C) as (_ & Ej & _ & Ebu & _).
      destruct (settled_by_u64 _ _ _ _ _ _ _ _ C) as (_ & _ & Ubu).
      split; [by cbn; rewrite Ej|]. rewrite Eb in Ebu. exists (budget_Record b (j_tenant j) (o_Buyer out)).
      split; [done|]. split; [unfold budget_Record; by destruct (_ !! _)|].
      intros u ceil Hu. destruct (IH u ceil Hu) as [U IHu].
      destruct (budget_Record_used b (j_tenant j) (o_Buyer out) u Ubu U) as (_ & U' & L). split; [done|].
      rewrite S in IHu. pose proof (sb_ceiling _ _ _ _ _ _ _ _ C) as Hc. rewrite Em in Hc.
      pose proof (New_budget cfg) as NB. destruct (decide (j_tenant j = u)); [|lia].
      assert (0 < c_MaxJobMicros cfg).
      { clear -R Nb Um. induction R; [|done..]. destruct (New_budget cfg h H Nb) as (_ & ? & _). unfold is_u64 in Um. lia. }
      specialize (Hc ltac:(done)). nia.
  - exact IH.
Qed.

(** C31: A tenant's budget holds under concurrency on a Hub that serves jobs: whatever their interleaving, what a
    tenant with a ceiling has been billed stays below the ceiling plus its allowed jobs in flight times the per-job
    ceiling.  Realtime sessions bill the same budget and are not among the steps; they give their slot back before
    they are billed, and [session_slot_returns_before_billing] shows that they exceed this bound. *)
Theorem budget_overshoot_is_bounded cfg h js log t ceil b :
  map_Forall (fun _ v => is_u64 v) (c_Budgets cfg) -> is_u64 (c_MaxJobMicros cfg) ->
  0 < c_MaxInflightPerTenant cfg < 2 ^ 63 -> hub_reachable cfg h js log ->
  c_Budgets cfg !! t = Some ceil -> h_budget h = Some b ->
  budget_used b t < ceil + c_MaxInflightPerTenant cfg * c_MaxJobMicros cfg.
Proof.
  intros Ub Um Hf R Ht Eb.
  assert (Nb : c_Budgets cfg <> ∅) by (intros E; rewrite E, lookup_empty in Ht; done).
  destruct (hub_budget_inv cfg h js log Nb Ub Um Hf R) as (_ & b' & Eb' & _ & I).
  rewrite Eb in Eb'. apply (inj Some) in Eb' as <-. destruct (I t ceil Ht) as [_ L].
  pose proof (slots_nonneg t (tenants js)). unfold is_u64 in Um. nia.
Qed.

(** *** The books *)

Definition charge_sum (f : charge -> Z) (log : list charge) : Z := foldr (fun c s => f c + s) 0 log.

Definition for_provider (p : string) (f : charge -> Z) (c : charge) : Z :=
  if decide (ch_provider c = p) then f c else 0.

Definition weighed (P : string -> bool) (f : ledgerEvent -> Z) (e : ledgerEvent) : Z :=
  if P (ev_provider e) then f e else 0.

Definition only (P : string -> bool) (f : charge -> Z) (c : charge) : Z := if P (ch_provider c) then f c else 0.

(** The events noted so far carry exactly the settled charges. *)
Definition books_of (evs : list ledgerEvent) (log : list charge) : Prop :=
  Forall event_ok evs /\ forall P,
    total (weighed P m_revenue) evs = charge_sum (only P ch_charged) log
    /\ total (weighed P m_commission) evs = charge_sum (only P ch_commission) log
    /\ total (weighed P n_settled) evs = charge_sum (only P (fun _ => 1)) log.

Lemma ledger_run_snoc evs e : ledger_run (evs ++ [e]) = ledger_note (ledger_run evs) e.
Proof. unfold ledger_run. by rewrite fold_left_app. Qed.

Lemma books_of_quiet evs log e :
  books_of evs log -> m_revenue e = 0 -> m_commission e = 0 -> n_settled e = 0 -> books_of (evs ++ [e]) log.
Proof.
  intros [F B] R C S. split.
  - apply Forall_app. split; [done|]. constructor; [|done]. unfold event_ok. rewrite R, C. done.
  - intros P. rewrite !total_snoc. unfold weighed at 2 4 6. rewrite R, C, S. destruct (B P) as (-> & -> & ->).
    destruct (P (ev_provider e)); lia.
Qed.

Lemma books_of_charge evs log c :
  books_of evs log -> is_u64 (ch_charged c) -> is_u64 (ch_commission c) ->
  books_of ((evs ++ [EvSettled (ch_provider c) (ch_charged c)]) ++ [EvCommission (ch_provider c) (ch_commission c)])
    (c :: log).
Proof.
  intros [F B] Hc Hm. split.
  - apply Forall_app. split; [apply Forall_app; split; [done|]|]; constructor; by cbn.
  - intros P. rewrite !total_snoc. destruct (B P) as (-> & -> & ->). unfold charge_sum. cbn [foldr].
    change (only P ?f c) with (if P (ch_provider c) then f c else 0).
    unfold weighed. cbn [ev_provider m_revenue m_commission n_settled]. destruct (P (ch_provider c)); split_and!; lia.
Qed.

Lemma hub_ledger_inv cfg h js log :
  c_Ledger cfg = None -> hub_reachable cfg h js log ->
  exists evs, h_ledger h = ledger_run evs /\ books_of evs log.
Proof.
  intros HL0. induction 1 as [h E|h js log now t spec h' e R IH E|h js log now t model spec h' c spec' R IH E
    |h js1 j js2 log run h' out err R IH E|h js log online creds R IH].
  - exists []. unfold New in E. destruct (c_Rates cfg); [|done]. destruct (c_Store cfg); [|done]. inv_bind E.
    apply (inj Ok) in E as <-. cbn. rewrite HL0. split; [done|]. split; [constructor|done].
  - pose proof (execute_begin_cases h now t spec) as C. rewrite E in C. destruct C as (q & l & f0 & -> & -> & _).
    exact IH.
  - pose proof (execute_begin_cases h now t spec) as C. rewrite E in C. destruct C as (q & l & f0 & -> & _ & -> & _).
    destruct IH as (evs & El & B). exists (evs ++ [EvDispatch (sp_Provider spec')]).
    split; [rewrite ledger_run_snoc, <- El; done|by apply books_of_quiet].
  - apply execute_finish_cases in E as (h1 & -> & C). destruct IH as (evs & El & B). cbn [h_ledger with_flight].
    pose proof (books_of_quiet evs log (EvVerified (sp_Provider (j_spec j))) B eq_refl eq_refl eq_refl) as Bv.
    destruct err as [e|].
    + destruct C as (s & l & -> & [->| ->]); [by exists evs|].
      eexists. split; [|exact Bv]. by rewrite ledger_run_snoc, <- El.
    + destruct (settled_by_books _ _ _ _ _ _ _ _ C) as (_ & _ & _ & _ & ->).
      destruct (settled_by_u64 _ _ _ _ _ _ _ _ C) as (Uc & Um & _).
      eexists. split; [|exact (books_of_charge _ _ (charge_of j out) Bv Uc Um)].
      rewrite !ledger_run_snoc, <- El. done.
  - exact IH.
Qed.

Lemma total_of_provider f p evs :
  total f (of_provider p evs) = total (weighed (fun q => String.eqb q p) f) evs.
Proof.
  unfold of_provider, total. induction evs as [|e evs IH]; [done|]. rewrite filter_cons. cbn [foldr].
  unfold weighed at 1. destruct (decide (ev_provider e = p)) as [E|N].
  - rewrite (proj2 (String.eqb_eq _ _) E). cbn [foldr]. by rewrite IH.
  - rewrite (proj2 (String.eqb_neq _ _) N). by rewrite IH.
Qed.

Lemma charge_sum_ext f g log : (forall c, f c = g c) -> charge_sum f log = charge_sum g log.
Proof. intros E. unfold charge_sum. induction log as [|c log IH]; cbn; [done|]. by rewrite E, IH. Qed.

Lemma charge_count log : charge_sum (only (fun _ => true) (fun _ => 1)) log = Z.of_nat (length log).
Proof. unfold charge_sum, only. induction log as [|c log IH]; [done|]. cbn -[Z.of_nat Z.add] in *. rewrite IH. lia. Qed.

(** C32: The books reconcile under every interleaving of jobs on a Hub with a new ledger: what the ledger says each provider has earned, and the Hub
    has kept, is the (saturating) sum of the charges and of the commissions of the jobs that settled, and the
    settlement count is their number. *)
Theorem hub_books_reconcile cfg h js log p :
  c_Ledger cfg = None -> hub_reachable cfg h js log ->
  a_revenue (account (h_ledger h) p) = saturated (charge_sum (for_provider p ch_charged) log)
  /\ a_commission (account (h_ledger h) p) = saturated (charge_sum (for_provider p ch_commission) log)
  /\ revenue (h_ledger h) = saturated (charge_sum ch_charged log)
  /\ commission (h_ledger h) = saturated (charge_sum ch_commission log)
  /\ settled (h_ledger h) = i64 (Z.of_nat (length log)).
Proof.
  intros HL0 R. destruct (hub_ledger_inv cfg h js log HL0 R) as (evs & -> & F & B).
  pose proof (ledger_run_repr evs F) as Rp. rewrite (account_repr evs _ p Rp). destruct Rp as [Rt _].
  assert (A : forall f, total f evs = total (weighed (fun _ => true) f) evs) by done.
  destruct (B (fun q => String.eqb q p)) as (B1 & B2 & _). destruct (B (fun _ => true)) as (B4 & B5 & B6).
  assert (Q : forall f, charge_sum (only (fun q => String.eqb q p) f) log = charge_sum (for_provider p f) log).
  { intros f. apply charge_sum_ext. intros c. unfold only, for_provider.
    destruct (String.eqb_spec (ch_provider c) p); by destruct (decide _). }
  cbn [log_account a_revenue a_commission]. rewrite !total_of_provider, B1, B2, !Q.
  split; [done|]. split; [done|].
  pose proof (f_equal a_revenue Rt) as R1. pose proof (f_equal a_commission Rt) as R2.
  pose proof (f_equal a_settled Rt) as R3. cbn [log_account a_revenue a_commission a_settled] in R1, R2, R3.
  rewrite R1, R2, R3, (A m_revenue), (A m_commission), (A n_settled), B4, B5, B6.
  split; [done|]. split; [done|]. f_equal.
  apply charge_count.
Qed.
End Results.

(** ** A concrete Hub

    A store in memory, a verifier that accepts, one provider, one tenant with a
    budget: one job is started, answered and settled. *)

Definition mem_store : Store := {|
  store_state := gmap (string * Z) SignedReceipt;
  store_Put s p r := match s !! (p, ProviderSeq (sReceipt r)) with
                     | Some _ => (s, Err ErrDuplicateSeq)
                     | None => (<[(p, ProviderSeq (sReceipt r)) := r]> s, Ok ())
                     end;
|}.

Definition mem_laws : @StoreLaws mem_store.
Proof.
  refine (@Build_StoreLaws mem_store (fun (s : gmap (string * Z) SignedReceipt) p r =>
    s !! (p, ProviderSeq (sReceipt r)) = Some r) _ _ _).
  - intros s p r s' E. cbn in *. destruct (_ !! _); [done|]. injection E as <-. apply lookup_insert_eq.
  - intros s p r p' r' E. cbn in *. destruct (s !! (p, ProviderSeq (sReceipt r))) eqn:N; [done|]. cbn.
    rewrite lookup_insert_ne; [done|]. intros X. rewrite X, E in N. done.
  - intros s p r r' E E' Es. rewrite Es in E. congruence.
Defined.

Definition demo_lib : HubLib := {|
  hub_unicode := {| unicode_ToLower s := s; unicode_EqualFold := String.eqb |};
  hub_envelope := {| cbor_envelope e := Ok (e_Ciphertext e); uncbor_envelope b := Ok (mkEnvelope [] [] [] b) |};
  hub_headers := {| json_headers _ := [] |}; hub_verify _ := Ok ();
|}.

Definition demo_config : @Config mem_store :=
  @mkConfig mem_store (Some {[ "openai"%string := demo_card ]}) (Some ∅) None None {[ "alice"%string := 1000 ]}
    1000 500 2 None ∅ None.

Definition demo_spec : Spec :=
  mkSpec 1 demo_job "openai" "POST" "api.openai.com" "/v1/chat/completions" "" ∅ (zeros 32) (zeros 8) 2000 1024
    false false [].

Definition demo_run : TeeRun :=
  mkRun (mkResult demo_chunks 0 ∅ (mkSigned demo_receipt (mkSignature "" [] [])) None) None false [].

Definition demo_hub : @Hub mem_store :=
  match @New mem_store demo_config with
  | Ok h => h
  | _ => @mkHub mem_store ∅ ∅ NewLedger None None None 0 0 None ∅ ∅ ∅ ∅
  end.

Definition demo_running : @Hub mem_store := (@execute_begin mem_store demo_lib demo_hub 0 "alice" demo_spec).1.

Definition demo_settled : @Hub mem_store * Outcome * option HubErr :=
  @execute_finish sha_256 mem_store demo_lib demo_running "alice" "gpt-4o" demo_card demo_spec demo_run.

Definition demo_charge : charge := mkCharge "alice" "openai" demo_job 112 11 123.

Lemma demo_reachable :
  @hub_reachable sha_256 mem_store demo_lib demo_config demo_settled.1.1 [] [demo_charge].
Proof.
  assert (R0 : @hub_reachable sha_256 mem_store demo_lib demo_config demo_hub [] []).
  { apply hr_new. vm_compute. reflexivity. }
  assert (R1 : @hub_reachable sha_256 mem_store demo_lib demo_config demo_running
                 [mkJob "alice" "gpt-4o" demo_card demo_spec] []).
  { eapply (@hr_begin sha_256 mem_store demo_lib demo_config demo_hub [] [] 0 "alice" "gpt-4o" demo_spec); [exact R0|].
    vm_compute. reflexivity. }
  assert (E : @execute_finish sha_256 mem_store demo_lib demo_running "alice" "gpt-4o" demo_card demo_spec demo_run
              = (demo_settled.1.1, demo_settled.1.2, demo_settled.2)).
  { unfold demo_settled. by destruct (execute_finish _ _ _ _ _ _) as [[? ?] ?]. }
  pose proof (@hr_finish sha_256 mem_store demo_lib demo_config demo_running []
    (mkJob "alice" "gpt-4o" demo_card demo_spec) [] [] demo_run _ _ _ R1 E) as R2.
  replace (demo_settled.2) with (@None HubErr) in R2 by (vm_compute; reflexivity).
  replace [demo_charge] with [charge_of (mkJob "alice" "gpt-4o" demo_card demo_spec) demo_settled.1.2]
    by (vm_compute; reflexivity).
  exact R2.
Qed.

Lemma money_moves_only_with_proof_witness :
  let '(h', out, err) := @execute_settle sha_256 mem_store demo_lib demo_running "alice" "gpt-4o" demo_card demo_spec demo_run in
  match err with
  | Some _ => money h' = money demo_running /\ forall q, account_money h' q = account_money demo_running q
  | None => @settled_by sha_256 mem_store demo_lib demo_running "alice" "gpt-4o" demo_card demo_spec demo_run h' out
            /\ (withheld demo_running (sReceipt (o_Receipt out)) = false ->
                @holds mem_store mem_laws (h_store h') (sp_Provider demo_spec) (o_Receipt out))
  end.
Proof.
  exact (@money_moves_only_with_proof sha_256 mem_store demo_lib mem_laws demo_running "alice" "gpt-4o" demo_card
           demo_spec demo_run).
Defined.

Lemma job_settles_once_witness : NoDup (map ch_job [demo_charge]).
Proof.
  exact (@job_settles_once sha_256 mem_store demo_lib demo_config _ _ _ demo_reachable ltac:(vm_compute; discriminate)).
Defined.

Lemma budget_overshoot_is_bounded_witness :
  exists b, h_budget demo_settled.1.1 = Some b /\ budget_used b "alice" = 123 /\ budget_used b "alice" < 1000 + 2 * 500.
Proof.
  exists (mkBudget {[ "alice"%string := 1000 ]} {[ "alice"%string := 123 ]}).
  assert (E : h_budget demo_settled.1.1 = Some (mkBudget {[ "alice"%string := 1000 ]} {[ "alice"%string := 123 ]}))
    by (vm_compute; reflexivity).
  split; [exact E|]. split; [vm_compute; reflexivity|].
  refine (@budget_overshoot_is_bounded sha_256 mem_store demo_lib demo_config _ _ _ "alice" 1000 _ _ _ _
    demo_reachable _ E).
  - apply map_Forall_singleton. unfold is_u64. lia.
  - unfold is_u64. cbn. lia.
  - cbn. lia.
  - vm_compute. reflexivity.
Defined.

Lemma hub_books_reconcile_witness :
  revenue (h_ledger demo_settled.1.1) = saturated (charge_sum ch_charged [demo_charge]).
Proof.
  exact (proj1 (proj2 (proj2 (@hub_books_reconcile sha_256 mem_store demo_lib demo_config _ _ _ "openai" eq_refl
    demo_reachable)))).
Defined.
