(* ===== verification/Schedule.v ===== *)
(** * Scheduling a job over the market ([tokenhive/hub/schedule.go])

    Which providers can serve a model, in which order they are tried, and when
    an attempt is final.  Map iteration order is arbitrary in Go; every list
    here is sorted by a total order before it is used, so the order the model
    iterates in does not show. *)

From stdpp Require Import sorting.
From S2P Require Import Prelude Bytes Crypto Receipt GoStrings Jobs Credential Headers Pricing Ledger Admission Store Hub.

Record ModelQuote := mkQuote { mq_Model : string; mq_Provider : string; mq_PriceMicros : Z }.

Section Schedule.
Context {SH : Sha256} {ST : Store} {HL : HubLib}.

Definition onlineProviders (h : Hub) : list string := (map_to_list (h_online h)).*1.

Definition supplyError (h : Hub) : HubErr :=
  if agentsEnabled h && (length (onlineProviders h) =? 0)%nat then ErrNoProvidersOnline else ErrNoProviderForModel.

(** ** Book prices *)

Definition bookPrice (h : Hub) (provider model : string) : Z * bool :=
  match card h provider with
  | None => (0, false)
  | Some c =>
      let '(book, ok) := addChecked (PerRequestMicros c) (Premium c model) in
      if negb ok then (0, false) else addChecked book (PerMegabyteMicros c)
  end.

(** ** Candidates *)

Definition conn_serves (h : Hub) (model provider : string) : bool :=
  match h_online h !! provider with Some a => serves a model | None => false end.

Definition supply (h : Hub) (model : string) : list string :=
  if negb (agentsEnabled h) then (map_to_list (h_rates h)).*1
  else filter (fun p => conn_serves h model p = true) (onlineProviders h).

(** The price a candidate is ranked by; [None] drops it. *)
Definition ranked_price (h : Hub) (model provider : string) : option Z :=
  let '(price, ok) := bookPrice h provider model in
  if negb ok then Some MaxUint64 else
  if (0 <? h_maxJob h) && (h_maxJob h <? price) then None else Some price.

Definition before (a b : string * Z) : Prop := a.2 < b.2 \/ (a.2 = b.2 /\ String.le a.1 b.1).

#[export] Instance before_dec a b : Decision (before a b).
Proof. unfold before. apply _. Defined.

Definition kept (h : Hub) (model : string) : list (string * Z) :=
  omap (fun p => (fun z => (p, z)) <$> ranked_price h model p) (supply h model).

Definition providersForModel (h : Hub) (model : string) : list string := (merge_sort before (kept h model)).*1.

Definition providerServes (h : Hub) (provider model : string) : bool :=
  if negb (agentsEnabled h) then bool_decide (is_Some (h_rates h !! provider)) else conn_serves h model provider.

(** ** The buyer's directory *)

Definition quote_before (a b : ModelQuote) : Prop :=
  (String.ltb (mq_Provider a) (mq_Provider b) = true)
  \/ (mq_Provider a = mq_Provider b /\ String.leb (mq_Model a) (mq_Model b) = true).

#[export] Instance quote_before_dec a b : Decision (quote_before a b).
Proof. unfold quote_before. apply _. Defined.

Definition quote_of (h : Hub) (p m : string) : option ModelQuote :=
  let '(price, ok) := bookPrice h p m in if negb ok then None else Some (mkQuote m p price).

Definition MarketQuotes (h : Hub) (provider model : string) : list ModelQuote :=
  if negb (agentsEnabled h) then [] else
  let model := ToLower model in
  let matches m := negb (String.eqb m "") && (String.eqb model "" || Contains (ToLower m) model) in
  merge_sort quote_before
    (p ← filter (fun p => String.eqb provider "" || String.eqb p provider = true) (onlineProviders h);
     match h_online h !! p with
     | None => []
     | Some a => omap (quote_of h p) (filter (fun m => matches m = true) (ag_models a))
     end).

Definition model_before (a b : ModelQuote) : Prop := String.leb (mq_Model a) (mq_Model b) = true.

#[export] Instance model_before_dec a b : Decision (model_before a b).
Proof. unfold model_before. apply _. Defined.

(** The models some online agent declares. *)
Definition declared_models (h : Hub) : list string :=
  remove_dups (p ← onlineProviders h;
    match h_online h !! p with Some a => filter (fun m => m <> ""%string) (ag_models a) | None => [] end).

Definition SearchModels (h : Hub) (query : string) : list ModelQuote :=
  let query := ToLower query in
  merge_sort model_before
    (omap (fun m =>
       if negb (String.eqb query "") && negb (Contains (ToLower m) query) then None else
       match providersForModel h m with
       | [] => None
       | cheapest :: _ => Some (mkQuote m cheapest (bookPrice h cheapest m).1)
       end) (declared_models h)).

Definition ModelDirectory (h : Hub) : list ModelQuote := SearchModels h "".

(** ** Attempts *)

(** What [Execute] returns, with the record of what reached the caller. *)
Record attempt := mkAttempt {
  at_provider : string; at_out : Outcome; at_err : option HubErr; at_relayed : bool }.

(** The callbacks the caller passed: [onChunk] and [onStart] may be nil. *)
Record callbacks := mkCallbacks { cb_chunk : bool; cb_start : bool }.

(** The wrapped callbacks set [relayed] on a non-empty chunk and on the response start. *)
Definition run_relayed (cb : callbacks) (run : TeeRun) : bool :=
  (cb_chunk cb && existsb (fun c => negb (length c =? 0)%nat) (run_chunks run)) || (cb_start cb && run_started run).

Definition execute_attempt (h : Hub) (now : Z) (tenant model : string) (cb : callbacks) (spec : Spec)
    (tee : Spec -> TeeRun) : Hub * Outcome * option HubErr * bool :=
  match execute_begin h now tenant spec with
  | (h, inl e) => (h, zero_outcome, Some e, false)
  | (h, inr (c, spec)) => (execute_finish h tenant model c spec (tee spec), run_relayed cb (tee spec))
  end.

(** The Hub's own ceiling is final, and a panic unwinds the loop. *)
Definition is_ceiling (e : HubErr) : bool := match e with ErrJobPriceExceeded | HubPanic => true | _ => false end.

(** The fallback loop: [last], [err], [ran] and [relayed] are its variables; the attempts made are returned too. *)
Fixpoint candidates_loop (clock : nat -> Z) (tenant model : string) (cb : callbacks) (build : string -> res Spec)
    (tee : Spec -> TeeRun) (ps : list string) (i : nat) (h : Hub) (last : Outcome) (err : option HubErr)
    (ran relayed : bool) : Hub * Outcome * option HubErr * list attempt :=
  match ps with
  | [] => if negb ran then (h, zero_outcome, Some (supplyError h), []) else (h, last, err, [])
  | p :: ps =>
      match build p with
      | Err e => (h, zero_outcome, Some (ErrBuildSpec e), [])
      | Panic => (h, zero_outcome, Some HubPanic, [])
      | Ok spec =>
          let '(h, last, err, now_relayed) := execute_attempt h (clock i) tenant model cb spec tee in
          let relayed := relayed || now_relayed in
          let a := mkAttempt p last err now_relayed in
          let continue :=
            match err with
            | Some e => negb relayed && negb (is_ceiling e)
            | None => negb (Billable (sReceipt (o_Receipt last))) && negb (0 <? o_Charged last) && negb relayed
            end in
          if continue then
            let '(h, out, err, tr) := candidates_loop clock tenant model cb build tee ps (S i) h last err true relayed in
            (h, out, err, a :: tr)
          else (h, last, err, [a])
      end
  end.

Definition executeForProviders (h : Hub) (clock : nat -> Z) (tenant model : string) (providers : list string)
    (cb : callbacks) (build : string -> res Spec) (tee : Spec -> TeeRun)
    : Hub * Outcome * option HubErr * list attempt :=
  candidates_loop clock tenant model cb build tee providers 0 h zero_outcome None false false.

Definition ExecuteForModel (h : Hub) (clock : nat -> Z) (tenant model : string) (cb : callbacks)
    (build : string -> res Spec) (tee : Spec -> TeeRun) : Hub * Outcome * option HubErr * list attempt :=
  let providers := providersForModel h model in
  if (length providers =? 0)%nat then (h, zero_outcome, Some (supplyError h), [])
  else executeForProviders h clock tenant model providers cb build tee.

Definition ExecuteForProvider (h : Hub) (clock : nat -> Z) (tenant model provider : string) (cb : callbacks)
    (build : string -> res Spec) (tee : Spec -> TeeRun) : Hub * Outcome * option HubErr * list attempt :=
  if negb (providerServes h provider model) then (h, zero_outcome, Some ErrNoProviderForModel, [])
  else executeForProviders h clock tenant model [provider] cb build tee.
End Schedule.

(** ** The ranking *)

#[export] Instance before_trans : Transitive before.
Proof.
  intros a b c [H|[H1 H2]] [K|[K1 K2]]; unfold before; [left; lia|left; lia|left; lia|right].
  split; [lia|]. by transitivity b.1.
Qed.

#[export] Instance before_total : base.Total before.
Proof.
  intros a b. unfold before. destruct (Z.lt_trichotomy a.2 b.2) as [L|[E|L]]; [by left; left| |by right; left].
  destruct (base.total String.le a.1 b.1); [left|right]; by right.
Qed.

Section Ranking.
Context {SH : Sha256} {ST : Store} {HL : HubLib}.

(** The number a provider is ranked by. *)
Definition rank (h : Hub) (model p : string) : Z :=
  if (bookPrice h p model).2 then (bookPrice h p model).1 else MaxUint64.

(** Within the per-job ceiling, as far as it has a book price. *)
Definition affordable (h : Hub) (model p : string) : Prop :=
  0 < h_maxJob h -> (bookPrice h p model).2 = true -> (bookPrice h p model).1 <= h_maxJob h.

Lemma ranked_price_spec h model p z :
  ranked_price h model p = Some z <-> z = rank h model p /\ affordable h model p.
Proof.
  unfold ranked_price, rank, affordable. destruct (bookPrice h p model) as [price ok]. cbn [fst snd].
  destruct ok; cbn [negb]; [|by split; [intros [= <-]|intros [-> _]]].
  destruct (Z.ltb_spec 0 (h_maxJob h)) as [L|L]; cbn [andb].
  - destruct (Z.ltb_spec (h_maxJob h) price) as [L'|L'].
    + split; [done|]. intros [_ A]. specialize (A L eq_refl). lia.
    + split; [intros [= <-]; done|]. by intros [-> _].
  - split; [intros [= <-]; split; [done|lia]|]. by intros [-> _].
Qed.

Lemma supply_spec h model p : p ∈ supply h model <-> providerServes h p model = true.
Proof.
  unfold supply, providerServes, onlineProviders, conn_serves.
  assert (K : forall A (m : gmap string A), p ∈ (map_to_list m).*1 <-> is_Some (m !! p)).
  { intros A m. rewrite list_elem_of_fmap. split.
    - intros ([q a] & -> & E). apply elem_of_map_to_list in E. by exists a.
    - intros [a E]. exists (p, a). split; [done|]. by apply elem_of_map_to_list. }
  destruct (agentsEnabled h); cbn [negb].
  - rewrite list_elem_of_filter, K. split; [tauto|]. intros E. split; [done|]. by destruct (h_online h !! p).
  - rewrite K, bool_decide_eq_true. done.
Qed.

Lemma supply_NoDup h model : NoDup (supply h model).
Proof.
  unfold supply, onlineProviders. destruct (negb _); [apply NoDup_fst_map_to_list|].
  apply NoDup_filter, NoDup_fst_map_to_list.
Qed.

Lemma kept_fst h model : (kept h model).*1 = filter (fun p => is_Some (ranked_price h model p)) (supply h model).
Proof.
  unfold kept. induction (supply h model) as [|p l IH]; [done|]. rewrite filter_cons. cbn.
  destruct (ranked_price h model p); cbn.
  - rewrite decide_True by done. f_equal. exact IH.
  - rewrite decide_False by (by intros [? ?]). exact IH.
Qed.

Lemma kept_snd h model p z : (p, z) ∈ kept h model -> z = rank h model p.
Proof.
  unfold kept. rewrite list_elem_of_omap. intros (q & _ & E).
  destruct (ranked_price h model q) as [y|] eqn:Ey; [|done]. injection E as -> ->.
  by apply ranked_price_spec in Ey as [? _].
Qed.

(** The candidates for a model are exactly the providers that currently serve it within the Hub's per-job ceiling,
    each once, cheapest book price first with ties broken by name: the order is a function of supply and price. *)
Theorem candidates_are_ranked h model :
  NoDup (providersForModel h model)
  /\ (forall p, p ∈ providersForModel h model <-> providerServes h p model = true /\ affordable h model p)
  /\ StronglySorted (fun a b => before (a, rank h model a) (b, rank h model b)) (providersForModel h model).
Proof.
  unfold providersForModel. pose proof (merge_sort_Permutation before (kept h model)) as P.
  assert (P1 : (merge_sort before (kept h model)).*1 ≡ₚ (kept h model).*1) by (by rewrite P).
  split; [|split].
  - rewrite P1, kept_fst. apply NoDup_filter, supply_NoDup.
  - intros p. rewrite P1, kept_fst, list_elem_of_filter, supply_spec. split.
    + intros [[z Hz] S]. apply ranked_price_spec in Hz as [_ A]. done.
    + intros [S A]. split; [|done]. exists (rank h model p). by apply ranked_price_spec.
  - pose proof (StronglySorted_merge_sort before (kept h model)) as S.
    assert (F : Forall (fun a => a.2 = rank h model a.1) (merge_sort before (kept h model))).
    { rewrite P. apply Forall_forall. intros [p z] Hz. by apply kept_snd. }
    revert S F. generalize (merge_sort before (kept h model)). clear. intros l.
    induction 1 as [|[p z] l S IH Hd]; intros F; [constructor|]. apply Forall_cons in F as [E F].
    cbn [fmap list_fmap fst snd] in *. constructor; [by apply IH|]. subst z. apply Forall_fmap.
    rewrite Forall_forall in F, Hd. apply Forall_forall. intros [q y] Hin. specialize (Hd _ Hin).
    pose proof (F _ Hin) as Ey. cbn in Ey |- *. by rewrite <- Ey.
Qed.

(** ** The book price *)

(** The price the scheduler ranks by is a floor of the bill: a completed exchange of at least one byte is never
    charged less than the book price, and exactly that if it fits one mebibyte. *)
Theorem book_price_is_a_floor h provider model c rel r book z :
  card h provider = Some c -> card_ok c -> bookPrice h provider model = (book, true) ->
  sizes_ok rel r -> Billable r = true -> 0 < billed_bytes rel r <= 2 ^ 64 - mebibyte ->
  Price c model rel r = Ok z ->
  book <= z /\ (billed_bytes rel r <= mebibyte -> z = book).
Proof.
  intros Ec Hc Eb Hs Hb Hn Ep.
  rewrite Price_earned in Ep by (done || lia). unfold bookPrice in Eb. rewrite Ec in Eb.
  pose proof (Premium_u64 c model Hc) as Hp. destruct Hc as [Hr Hv _].
  rewrite addChecked_spec in Eb by done.
  destruct (Z.ltb_spec (PerRequestMicros c + Premium c model) (2 ^ 64)) as [L|L]; [|done]. cbn [negb] in Eb.
  rewrite u64_id in Eb by (unfold is_u64 in *; lia). rewrite addChecked_spec in Eb by (unfold is_u64 in *; lia).
  apply (inj2 pair) in Eb as [Eb L2]. apply Z.ltb_lt in L2. rewrite u64_id in Eb by (unfold is_u64 in *; lia).
  assert (Ee : earned c model rel r = volume_units (billed_bytes rel r) * PerMegabyteMicros c + flat_fee c model).
  { unfold earned, Billable, paying_status in *. destruct (Completion r =? CompletionComplete); [|done].
    cbn [negb] in Hb. destruct (_ && _); cbn [orb negb]; [done|]. by rewrite Hb. }
  unfold checked in Ep. destruct (_ <? 2 ^ 64); [|done]. apply (inj Ok) in Ep as <-. rewrite Ee. unfold flat_fee.
  assert (V : 1 <= volume_units (billed_bytes rel r)).
  { unfold volume_units, mebibyte in *. apply Z.div_le_lower_bound; lia. }
  unfold is_u64 in *. split; [nia|]. intros Hm.
  assert (volume_units (billed_bytes rel r) = 1) as ->; [|lia].
  unfold volume_units, mebibyte in *. symmetry. apply (Z.div_unique _ _ _ (billed_bytes rel r - 1)); lia.
Qed.
End Ranking.

(** ** Fallback *)

Section Fallback.
Context {SH : Sha256} {ST : Store} {HL : HubLib}.

(** What an attempt cost the buyer's side in seller revenue. *)
Definition settled_charge (a : attempt) : Z := match at_err a with None => o_Charged (at_out a) | Some _ => 0 end.

Definition last_charge (tr : list attempt) : Z := match last tr with Some a => settled_charge a | None => 0 end.

Lemma saturatingAdd_0 x : is_u64 x -> saturatingAdd x 0 = x.
Proof. intros Hx. rewrite saturatingAdd_spec by done. unfold saturated, MaxUint64, is_u64 in *. lia. Qed.

Lemma execute_attempt_revenue h now tenant model cb spec tee h' out err rel p :
  execute_attempt h now tenant model cb spec tee = (h', out, err, rel) -> is_u64 (revenue (h_ledger h)) ->
  revenue (h_ledger h') = saturatingAdd (revenue (h_ledger h)) (settled_charge (mkAttempt p out err rel))
  /\ is_u64 (revenue (h_ledger h')).
Proof.
  intros E U. unfold execute_attempt in E. pose proof (execute_begin_cases h now tenant spec) as C.
  destruct (execute_begin h now tenant spec) as [h1 [e|[c spec']]]; destruct C as (q & l & f & -> & C).
  - injection E as <- <- <- <-. destruct C as [-> _]. unfold settled_charge. cbn [at_err h_ledger with_ledger].
    by rewrite saturatingAdd_0.
  - destruct C as (_ & -> & _). injection E as E _. apply execute_finish_cases in E as (h2 & -> & C).
    unfold settled_charge. cbn [at_err at_out h_ledger with_flight]. destruct err as [e|].
    + destruct C as (s & l & -> & [->| ->]); cbn [h_ledger with_store with_ledger NoteVerified NoteDispatch revenue];
        by rewrite saturatingAdd_0.
    + destruct (settled_by_books _ _ _ _ _ _ _ _ C) as (_ & _ & _ & _ & ->).
      destruct (settled_by_u64 _ _ _ _ _ _ _ _ C) as (Uc & _).
      cbn [h_ledger with_ledger NoteCommission NoteSettled NoteVerified NoteDispatch revenue]. split; [done|].
      rewrite saturatingAdd_spec by done. apply saturated_u64. unfold is_u64 in *. lia.
Qed.

Lemma execute_attempt_charged h now tenant model cb spec tee h' out rel :
  execute_attempt h now tenant model cb spec tee = (h', out, None, rel) -> is_u64 (o_Charged out).
Proof.
  unfold execute_attempt. destruct (execute_begin h now tenant spec) as [h1 [e|[c spec']]]; [done|].
  intros E. injection E as E _. apply execute_finish_cases in E as (h2 & _ & C).
  by destruct (settled_by_u64 _ _ _ _ _ _ _ _ C).
Qed.

(** The attempts that are not the last one. *)
Definition all_but_last_free (tr : list attempt) : Prop :=
  Forall (fun a => at_relayed a = false /\ settled_charge a = 0) (removelast tr).

Lemma all_but_last_cons a tr :
  at_relayed a = false -> settled_charge a = 0 -> all_but_last_free tr -> all_but_last_free (a :: tr).
Proof. intros R S F. unfold all_but_last_free in *. destruct tr as [|b tr]; [constructor|]. by constructor. Qed.

Lemma last_charge_cons a tr : settled_charge a = 0 -> last_charge (a :: tr) = last_charge tr.
Proof. intros S. unfold last_charge. destruct tr as [|b tr]; [done|]. done. Qed.

Lemma candidates_loop_free clock tenant model cb build tee ps i h last0 err0 ran relayed :
  is_u64 (revenue (h_ledger h)) ->
  let '(h', out, err, tr) := candidates_loop clock tenant model cb build tee ps i h last0 err0 ran relayed in
  map at_provider tr `prefix_of` ps /\ all_but_last_free tr
  /\ revenue (h_ledger h') = saturatingAdd (revenue (h_ledger h)) (last_charge tr)
  /\ (err = None -> (tr = [] /\ out = last0 /\ ran = true /\ err0 = None)
                    \/ exists a, last tr = Some a /\ out = at_out a /\ at_err a = None).
Proof.
  revert i h last0 err0 ran relayed. induction ps as [|p ps IH]; intros i h last0 err0 ran relayed U; cbn [candidates_loop].
  { destruct ran; cbn [negb]; (split; [done|split; [constructor|split; [by rewrite saturatingAdd_0|]]]); [|done].
    intros ->. by left. }
  destruct (build p) as [spec| |].
  2,3: split; [apply prefix_nil|split; [constructor|split; [by rewrite saturatingAdd_0|done]]].
  destruct (execute_attempt h (clock i) tenant model cb spec tee) as [[[h1 out1] err1] rel1] eqn:Ea.
  destruct (execute_attempt_revenue _ _ _ _ _ _ _ _ _ _ _ p Ea U) as [R1 U1].
  set (a := mkAttempt p out1 err1 rel1) in *.
  destruct (match err1 with Some e => _ | None => _ end) eqn:Ec.
  - assert (Fr : rel1 = false /\ settled_charge a = 0).
    { unfold settled_charge. cbn [a at_err at_out]. destruct err1 as [e|]; norm_guards.
      - split; [|done]. destruct relayed, rel1; done.
      - split; [destruct relayed, rel1; done|].
        destruct (execute_attempt_charged h (clock i) tenant model cb spec tee h1 out1 rel1 Ea) as [? _]. lia. }
    destruct Fr as [Fr Fc]. rewrite Fc, saturatingAdd_0 in R1 by done.
    specialize (IH (S i) h1 out1 err1 true (relayed || rel1) U1).
    destruct (candidates_loop clock tenant model cb build tee ps (S i) h1 out1 err1 true (relayed || rel1))
      as [[[h' out] err] tr]. destruct IH as (I1 & I2 & I3 & I4).
    split; [by apply prefix_cons|]. split; [by apply all_but_last_cons|].
    split; [by rewrite I3, R1, last_charge_cons|]. intros En. right.
    destruct (I4 En) as [(-> & -> & _ & ->)|(b & Eb & ? & ?)]; [by exists a|].
    exists b. split; [|done]. by destruct tr.
  - split; [cbn; apply prefix_cons, prefix_nil|]. split; [constructor|]. split; [done|]. intros En. right. by exists a.
Qed.

End Fallback.

(** ** A concrete market: a cheaper provider that fails, and one that answers *)

Definition market_config : @Config mem_store :=
  @mkConfig mem_store (Some {[ "cheap"%string := mkCard 1 1 ∅; "openai"%string := demo_card ]}) (Some ∅) None None
    {[ "alice"%string := 1000 ]} 1000 500 2 None ∅ None.

Definition market_hub : @Hub mem_store :=
  match @New mem_store market_config with Ok h => h | _ => demo_hub end.

Definition market_build (p : string) : res Spec :=
  Ok (mkSpec 1 demo_job p "POST" "api.openai.com" "/v1/chat/completions" "" ∅ (zeros 32) (zeros 8) 2000 1024
        false false []).

Definition market_tee (spec : Spec) : TeeRun :=
  if String.eqb (sp_Provider spec) "cheap"
  then mkRun (mkResult [] 0 ∅ zero_signed None) (Some "tee refused the job"%string) false []
  else mkRun (run_result demo_run) None false demo_chunks.


Lemma candidates_are_ranked_witness :
  providersForModel market_hub "gpt-4o" = ["cheap"%string; "openai"%string]
  /\ NoDup (providersForModel market_hub "gpt-4o").
Proof. split; [vm_compute; reflexivity|]. exact (proj1 (candidates_are_ranked market_hub "gpt-4o")). Defined.

Lemma book_price_is_a_floor_witness :
  Price demo_card "gpt-4o" 10 (sized_receipt 3 10 CompletionComplete) = Ok 112 /\ 112 <= 112.
Proof.
  assert (E : Price demo_card "gpt-4o" 10 (sized_receipt 3 10 CompletionComplete) = Ok 112) by (vm_compute; reflexivity).
  split; [exact E|].
  refine (proj1 (book_price_is_a_floor market_hub "openai" "gpt-4o" demo_card 10
    (sized_receipt 3 10 CompletionComplete) 112 112 _ demo_card_ok _ _ _ _ E)).
  - vm_compute. reflexivity.
  - vm_compute. reflexivity.
  - split; done.
  - vm_compute. reflexivity.
  - vm_compute. split; [reflexivity|discriminate].
Defined.
