(* ===== verification/Agents.v ===== *)
(** * Supply: agents coming online and leaving ([tokenhive/hub/agenthttp.go], [agentnet.go])

    An agent dials in with the key of its provider, registers once on its
    control stream, and is online until that stream ends.  Each agent is served
    by its own goroutine; the credential store and the registry have a lock
    each, so the steps of different agents interleave. *)

From S2P Require Import Prelude Bytes Crypto Receipt GoStrings Jobs Credential Headers Pricing Ledger Admission Store Hub.

(** [reg_Credential]: [None] for a registration without one. *)
Record AgentRegister := mkAgentRegister {
  reg_Provider : string;
  reg_SelfPrice : option RateCard;
  reg_Models : list string;
  reg_Credential : option Envelope;
}.

Section Agents.
Context {ST : Store} {HL : HubLib}.

Definition agentKeyMatches (presented secret : bytes) : bool :=
  if (length secret =? 0)%nat then false else
  if negb (length presented =? length secret)%nat then false else ct_equal presented secret.

Definition authenticateAgent (h : Hub) (provider : string) (presented : bytes) : option string :=
  match h_agentKeys h !! provider with
  | Some secret => if agentKeyMatches presented secret then Some provider else None
  | None => None
  end.

Definition agentPrice (h : Hub) (reg : AgentRegister) : option RateCard :=
  match reg_SelfPrice reg with
  | Some c => if is_ok (card_Validate c) then Some c else h_rates h !! reg_Provider reg
  | None => h_rates h !! reg_Provider reg
  end.

(** The control stream's checks up to the credential; [whitelist] is the deployment's whitelist, [None] when it has none. *)
Definition register_checks (h : Hub) (whitelist : option (AgentRegister -> bool)) (authed : string) (reg : AgentRegister) : option RateCard :=
  if negb (is_ok (ValidateProviderName (reg_Provider reg))) then None else
  if negb (String.eqb authed "") && negb (String.eqb (reg_Provider reg) authed) then None else
  if match whitelist with Some f => negb (f reg) | None => false end then None else
  agentPrice h reg.

(** The steps that change the Hub. *)
Definition with_online (h : Hub) (online : gmap string agentConn) : Hub := with_supply h online (h_credentialStore h).

Definition deliverCredential (h : Hub) (reg : AgentRegister) : option Hub :=
  match reg_Credential reg with
  | None => None
  | Some env => Some (with_supply h (h_online h) (<[reg_Provider reg := env]> (h_credentialStore h)))
  end.

Definition register (h : Hub) (a : agentConn) : Hub := with_online h (<[ag_provider a := a]> (h_online h)).

Definition deregister (h : Hub) (provider : string) (mux : nat) : Hub * bool :=
  match h_online h !! provider with
  | Some cur => if (ag_mux cur =? mux)%nat then (with_online h (delete provider (h_online h)), true) else (h, false)
  | None => (h, false)
  end.

Definition revokeCredential (h : Hub) (provider : string) : Hub :=
  with_supply h (h_online h) (delete provider (h_credentialStore h)).

(** ** Interleaved agents *)

(** Where a tunnel's handler stands. *)
Inductive phase := Checked | Delivered | Online | Leaving | Gone.

Record handler := mkHandler { hd_key : bytes; hd_reg : AgentRegister; hd_price : RateCard; hd_phase : phase }.

Definition at_phase (x : handler) (p : phase) : handler := mkHandler (hd_key x) (hd_reg x) (hd_price x) p.

Definition conn_of (m : nat) (x : handler) : agentConn := mkAgent (reg_Provider (hd_reg x)) (hd_price x) (reg_Models (hd_reg x)) m.

Inductive agent_step (whitelist : option (AgentRegister -> bool)) : Hub * gmap nat handler -> Hub * gmap nat handler -> Prop :=
| st_admit h hs m key provider authed reg price :
    hs !! m = None -> authenticateAgent h provider key = Some authed -> register_checks h whitelist authed reg = Some price ->
    agent_step whitelist (h, hs) (h, <[m := mkHandler key reg price Checked]> hs)
| st_deliver h hs m x h' :
    hs !! m = Some x -> hd_phase x = Checked -> deliverCredential h (hd_reg x) = Some h' ->
    agent_step whitelist (h, hs) (h', <[m := at_phase x Delivered]> hs)
| st_register h hs m x :
    hs !! m = Some x -> hd_phase x = Delivered ->
    agent_step whitelist (h, hs) (register h (conn_of m x), <[m := at_phase x Online]> hs)
| st_deregister h hs m x h' was :
    hs !! m = Some x -> hd_phase x = Online -> deregister h (reg_Provider (hd_reg x)) m = (h', was) ->
    agent_step whitelist (h, hs) (h', <[m := at_phase x (if was then Leaving else Gone)]> hs)
| st_revoke h hs m x :
    hs !! m = Some x -> hd_phase x = Leaving ->
    agent_step whitelist (h, hs) (revokeCredential h (reg_Provider (hd_reg x)), <[m := at_phase x Gone]> hs).

Definition agents_reachable (whitelist : option (AgentRegister -> bool)) (h0 : Hub) (w : Hub * gmap nat handler) : Prop :=
  rtc (agent_step whitelist) (h0, ∅) w.

(** ** Who can be online *)

(** What a handler that got past the checks has shown. *)
Definition shown (h0 : Hub) (whitelist : option (AgentRegister -> bool)) (x : handler) : Prop :=
  (exists secret, h_agentKeys h0 !! reg_Provider (hd_reg x) = Some secret /\ secret <> [] /\ hd_key x = secret)
  /\ ValidateProviderName (reg_Provider (hd_reg x)) = Ok ()
  /\ (forall f, whitelist = Some f -> f (hd_reg x) = true)
  /\ agentPrice h0 (hd_reg x) = Some (hd_price x).

Definition agents_inv (h0 : Hub) (whitelist : option (AgentRegister -> bool)) (w : Hub * gmap nat handler) : Prop :=
  (exists online creds, w.1 = with_supply h0 online creds)
  /\ map_Forall (fun _ x => shown h0 whitelist x) w.2
  /\ forall p a, h_online w.1 !! p = Some a ->
       ag_provider a = p /\ exists x, w.2 !! ag_mux a = Some x /\ hd_phase x = Online /\ a = conn_of (ag_mux a) x.
End Agents.

Section Safety.
Context {ST : Store} {HL : HubLib}.

Lemma authenticateAgent_shown h provider key authed :
  authenticateAgent h provider key = Some authed ->
  authed = provider /\ exists secret, h_agentKeys h !! provider = Some secret /\ secret <> [] /\ key = secret.
Proof.
  unfold authenticateAgent, agentKeyMatches. destruct (h_agentKeys h !! provider) as [secret|]; [|done].
  destruct (Nat.eqb_spec (length secret) 0) as [|N]; [done|]. destruct (negb _); [done|].
  destruct (ct_equal key secret) eqn:E; [|done]. intros [= <-]. split; [done|]. exists secret.
  apply ct_equal_spec in E as ->. split_and!; [done|by intros ->|done].
Qed.

Lemma agents_step_inv h0 whitelist w w' :
  h_agentKeys h0 !! ""%string = None -> agents_inv h0 whitelist w -> agent_step whitelist w w' -> agents_inv h0 whitelist w'.
Proof.
  intros Ne ((online & creds & Ew) & S & O) St. unfold agents_inv.
  assert (Move : forall m x p (hs : gmap nat handler), hs !! m = Some x -> map_Forall (fun _ x => shown h0 whitelist x) hs ->
    map_Forall (fun _ x => shown h0 whitelist x) (<[m := at_phase x p]> hs)).
  { intros m x p hs Em F. apply map_Forall_insert_2; [|done]. exact (F m x Em). }
  destruct St as [h hs m key provider authed reg price Em A R|h hs m x h' Em Ph D|h hs m x Em Ph|h hs m x h' was Em Ph D|h hs m x Em Ph];
    cbn [fst snd] in *.
  - apply authenticateAgent_shown in A as (-> & secret & Es & Ns & ->). rewrite Ew in Es, R. split; [by eauto|]. split.
    + apply map_Forall_insert_2; [|done]. unfold register_checks in R.
      destruct (ValidateProviderName (reg_Provider reg)) as [[]| |] eqn:V; cbn [is_ok negb] in R; [|done..].
      destruct (String.eqb_spec provider ""); [subst; cbn in Es; by rewrite Ne in Es|]. cbn [negb andb] in R.
      destruct (String.eqb_spec (reg_Provider reg) provider) as [<-|]; cbn [negb] in R; [|done].
      destruct (match whitelist with Some f => negb (f reg) | None => false end) eqn:Ad; [done|].
      split_and!; cbn; try done; [by exists secret|]. intros f ->. by apply negb_false_iff.
    + intros p a Ha. destruct (O p a Ha) as (? & x & Ex & ? & ?). split; [done|]. exists x. split_and!; try done.
      rewrite lookup_insert_ne; [done|]. intros ->. by rewrite Em in Ex.
  - unfold deliverCredential in D. destruct (reg_Credential (hd_reg x)) as [env|]; [|done]. apply (inj Some) in D as <-.
    rewrite Ew in *. split; [by eexists _, _|]. split; [by apply Move|]. intros p a Ha. destruct (O p a Ha) as (? & y & Ey & Py & ?).
    split; [done|]. exists y. split_and!; try done. rewrite lookup_insert_ne; [done|]. intros ->. rewrite Em in Ey. congruence.
  - rewrite Ew in *. split; [by eexists _, _|]. split; [by apply Move|]. intros p a. cbn [register with_online h_online with_supply].
    destruct (decide (p = ag_provider (conn_of m x))) as [->|Np].
    + rewrite lookup_insert_eq. intros [= <-]. split; [done|]. exists (at_phase x Online). cbn [conn_of ag_mux].
      rewrite lookup_insert_eq. split_and!; done.
    + rewrite lookup_insert_ne by done. intros Ha. destruct (O p a Ha) as (? & y & Ey & Py & ?). split; [done|]. exists y.
      split_and!; try done. rewrite lookup_insert_ne; [done|]. intros ->. rewrite Em in Ey. congruence.
  - assert (K : forall p a, h_online h !! p = Some a -> ag_mux a <> m -> ag_provider a = p /\ exists y,
      (<[m := at_phase x (if was then Leaving else Gone)]> hs) !! ag_mux a = Some y /\ hd_phase y = Online /\ a = conn_of (ag_mux a) y).
    { intros p a Ha N. destruct (O p a Ha) as (? & y & Ey & Py & ?). split; [done|]. exists y. split_and!; try done.
      by rewrite lookup_insert_ne. }
    assert (M : forall p a, h_online h !! p = Some a -> ag_mux a = m -> p = reg_Provider (hd_reg x)).
    { intros p a Ha Hm. destruct (O p a Ha) as (Hp & y & Ey & _ & Ea). rewrite Hm, Em in Ey. apply (inj Some) in Ey as <-.
      rewrite <- Hp, Ea. done. }
    unfold deregister in D. destruct (h_online h !! reg_Provider (hd_reg x)) as [cur|] eqn:Ec.
    + destruct (Nat.eqb_spec (ag_mux cur) m) as [Hm|Hm]; injection D as <- <-.
      * rewrite Ew in *. split; [by eexists _, _|]. split; [by apply Move|]. intros p a. cbn [with_online h_online with_supply].
        rewrite lookup_delete_Some. intros [Np Ha]. apply K; [done|]. intros Hm'. by apply Np; rewrite (M _ _ Ha Hm').
      * split; [by eauto|]. split; [by apply Move|]. intros p a Ha. apply K; [done|]. intros Hm'.
        pose proof (M _ _ Ha Hm') as ->. rewrite Ec in Ha. congruence.
    + injection D as <- <-. split; [by eauto|]. split; [by apply Move|]. intros p a Ha. apply K; [done|]. intros Hm'.
      pose proof (M _ _ Ha Hm') as ->. by rewrite Ec in Ha.
  - rewrite Ew in *. split; [by eexists _, _|]. split; [by apply Move|]. intros p a Ha. destruct (O p a Ha) as (? & y & Ey & Py & ?).
    split; [done|]. exists y. split_and!; try done. rewrite lookup_insert_ne; [done|]. intros ->. rewrite Em in Ey. congruence.
Qed.

(** C34: Under every interleaving of agents, a provider is online only through a tunnel that presented that
    provider's own key, with a valid name that the deployment's whitelist admitted, at the price the agent may
    quote; at most one tunnel serves a provider, and a tunnel that was replaced cannot take its successor offline. *)
Theorem online_agents_hold_their_keys h0 whitelist w p a :
  h_online h0 = ∅ -> h_agentKeys h0 !! ""%string = None -> agents_reachable whitelist h0 w -> h_online w.1 !! p = Some a ->
  exists x secret, w.2 !! ag_mux a = Some x /\ hd_phase x = Online /\ reg_Provider (hd_reg x) = p
    /\ h_agentKeys h0 !! p = Some secret /\ secret <> [] /\ hd_key x = secret
    /\ ValidateProviderName p = Ok () /\ (forall f, whitelist = Some f -> f (hd_reg x) = true)
    /\ agentPrice h0 (hd_reg x) = Some (ag_price a)
    /\ (forall m, m <> ag_mux a -> deregister w.1 p m = (w.1, false)).
Proof.
  intros E0 Ne R Ha.
  assert (I : agents_inv h0 whitelist w).
  { unfold agents_reachable in R. revert R. apply (rtc_ind_r (agents_inv h0 whitelist) (h0, ∅)).
    - split; [exists (h_online h0), (h_credentialStore h0); by destruct h0|]. split; [apply map_Forall_empty|].
      intros q b. cbn. by rewrite E0, lookup_empty.
    - intros y z _ St I. by apply (agents_step_inv h0 whitelist y). }
  destruct I as (_ & S & O). destruct (O p a Ha) as (Hp & x & Ex & Px & Ea). exists x.
  destruct (S _ _ Ex) as ((secret & Es & Ns & Ek) & V & Ad & Pr).
  assert (Hr : reg_Provider (hd_reg x) = p) by (rewrite <- Hp, Ea; done). rewrite Hr in *. exists secret.
  split_and!; try done.
  - rewrite Pr, Ea. done.
  - intros m N. unfold deregister. rewrite Ha. by destruct (Nat.eqb_spec (ag_mux a) m) as [<-|].
Qed.
End Safety.

Lemma deregister_current {ST : Store} (h : Hub) p m cur :
  h_online h !! p = Some cur -> ag_mux cur = m -> deregister h p m = (with_online h (delete p (h_online h)), true).
Proof. intros E <-. unfold deregister. by rewrite E, Nat.eqb_refl. Qed.

(** ** Concrete agents *)

Definition agents_hub : @Hub mem_store :=
  match @New mem_store (@mkConfig mem_store (Some {[ "openai"%string := demo_card ]}) (Some ∅) None None ∅ 0 0 0 None
    {[ "openai"%string := [7] ]} None) with
  | Ok h => h
  | _ => demo_hub
  end.

Definition demo_reg : AgentRegister := mkAgentRegister "openai" None [] (Some (mkEnvelope [] [] [] [1])).
Definition demo_handler (p : phase) : handler := mkHandler [7] demo_reg demo_card p.

Definition demo_env : gmap string Envelope := {[ "openai"%string := mkEnvelope [] [] [] [1] ]}.
Definition demo_online (m : nat) : gmap string agentConn := {[ "openai"%string := conn_of m (demo_handler Online) ]}.

Definition with_two (p1 p2 : phase) : gmap nat handler := <[2%nat := demo_handler p2]> {[ 1%nat := demo_handler p1 ]}.

(** One agent, up to its being online. *)
Lemma demo_one_online :
  rtc (@agent_step mem_store None) (agents_hub, ∅) (with_supply agents_hub (demo_online 1) demo_env, {[ 1%nat := demo_handler Online ]}).
Proof.
  eapply rtc_l; [apply (st_admit None agents_hub ∅ 1 [7] "openai" "openai" demo_reg demo_card); [done|vm_compute; reflexivity..]|].
  eapply rtc_l; [eapply (st_deliver None _ _ 1 (demo_handler Checked)); [apply lookup_insert_eq|reflexivity|reflexivity]|].
  eapply rtc_l; [eapply (st_register None _ _ 1 (demo_handler Delivered)); [apply lookup_insert_eq|reflexivity]|].
  rewrite !insert_insert_eq. apply rtc_refl.
Qed.

Lemma online_agents_hold_their_keys_witness :
  exists x secret, ({[ 1%nat := demo_handler Online ]} : gmap nat handler) !! 1%nat = Some x
    /\ h_agentKeys agents_hub !! "openai"%string = Some secret /\ hd_key x = secret.
Proof.
  destruct (@online_agents_hold_their_keys mem_store agents_hub None
    (with_supply agents_hub (demo_online 1) demo_env, {[ 1%nat := demo_handler Online ]}) "openai" (conn_of 1 (demo_handler Online)))
    as (x & secret & E1 & _ & _ & E2 & _ & E3 & _).
  - vm_compute. reflexivity.
  - vm_compute. reflexivity.
  - exact demo_one_online.
  - vm_compute. reflexivity.
  - exists x, secret. split; [exact E1|]. split; [exact E2|exact E3].
Defined.

(** A reconnecting agent can come online without its credential.  The credential is stored before the agent is
    registered and an ending tunnel revokes it after it has left the registry, under different locks: when the old
    tunnel of a provider ends between the two steps of its successor, it still finds itself the current one, and
    its revocation removes the credential its successor has just stored.  When both are done the provider is online,
    no step is pending, the store is empty, and a job for the provider is dispatched without a credential. *)
Theorem reconnect_loses_credential :
  exists w a, @agents_reachable mem_store None agents_hub w
    /\ h_online w.1 !! "openai"%string = Some a /\ h_credentialStore w.1 !! "openai"%string = None
    /\ map_Forall (fun _ x => hd_phase x = Online \/ hd_phase x = Gone) w.2
    /\ @attachCredential mem_store demo_lib w.1 demo_spec = Ok demo_spec /\ sp_Credential demo_spec = [].
Proof.
  exists (with_supply agents_hub (demo_online 2) ∅, with_two Gone Online), (conn_of 2 (demo_handler Online)).
  split; [|split; [vm_compute; reflexivity|split; [vm_compute; reflexivity|split; [|split; vm_compute; reflexivity]]]].
  2: { apply map_Forall_insert_2; [by left|]. apply map_Forall_singleton. by right. }
  unfold agents_reachable. etrans; [exact demo_one_online|].
  eapply rtc_l; [apply (st_admit None _ _ 2 [7] "openai" "openai" demo_reg demo_card); vm_compute; reflexivity|].
  eapply rtc_l; [eapply (st_deliver None _ _ 2 (demo_handler Checked)); [apply lookup_insert_eq|reflexivity|reflexivity]|].
  rewrite insert_insert_eq.
  eapply rtc_l; [eapply (st_deregister None _ _ 1 (demo_handler Online)); [vm_compute; reflexivity|reflexivity|
    apply (deregister_current _ _ _ (conn_of 1 (demo_handler Online))); reflexivity]|].
  eapply rtc_l; [eapply (st_revoke None _ _ 1 (demo_handler Leaving)); [apply lookup_insert_eq|reflexivity]|].
  rewrite insert_insert_eq.
  eapply rtc_l; [eapply (st_register None _ _ 2 (demo_handler Delivered)); [vm_compute; reflexivity|reflexivity]|].
  assert (E : forall a b : @Hub mem_store * gmap nat handler, a = b -> rtc (agent_step None) a b) by (by intros a b ->).
  apply E. f_equal.
Qed.
