(* ===== verification/Seam.v ===== *)
(** * The seam between the Hub and the enclave ([tokenhive/tee/rpc.go], [tokenhive/hub/tee.go])

    [ServeExecute] wraps the enclave's [Execute] into one HTTP exchange that
    answers with a stream of frames; [HTTPTEE] is the Hub's client, which reads
    the frames back into the [Result] the Hub settles.  The JSON, base64 and CBOR
    encodings are parameters with their round trips ([SeamLaws]).  The results
    are about an exchange of an honest enclave as the Hub sees it, which verifies
    receipts with the [Verifier] of [Attest]. *)

From S2P Require Import Prelude Bytes Crypto Receipt Attest GoStrings Jobs Policy Credential SeqStore Transport Headers Sse Tee Channel.
From S2P Require Import Pricing Ledger Admission Store Hub.

(** ** Encodings *)

Class SeamCodec := {
  json_start : Response -> bytes;
  unjson_start : bytes -> res Response;
  json_failure : Failure -> bytes;
  unjson_failure : bytes -> res Failure;
  base64_receipt : SignedReceipt -> res bytes;        (* [EncodeCanonical], then [EncodeToString] *)
  DecodeReceiptFrame : bytes -> res SignedReceipt;
  cbor_execute : Spec * bytes -> res bytes;           (* [ExecuteRequest.EncodeCanonical] *)
  uncbor_execute : bytes -> res (Spec * bytes);
}.

(** A start whose header text JSON carries unchanged. *)
Definition plain_text (resp : Response) : Prop :=
  map_Forall (fun n vs => is_ascii n = true /\ Forall (fun v => is_ascii v = true) vs) (rs_Headers resp).

(** JSON escapes line breaks and base64 has none, so each of these is one data line. *)
Definition one_data_line (b : bytes) : Prop := one_piece b /\ CR ∉ b.

Class SeamLaws `{SeamCodec} := {
  start_roundtrip : forall resp, plain_text resp -> unjson_start (json_start resp) = Ok resp;
  start_line : forall resp, one_data_line (json_start resp);
  failure_roundtrip : forall f, unjson_failure (json_failure f) = Ok f;
  failure_line : forall f, one_data_line (json_failure f);
  receipt_roundtrip : forall r b, base64_receipt r = Ok b -> DecodeReceiptFrame b = Ok r;
  receipt_line : forall r b, base64_receipt r = Ok b -> one_data_line b /\ b <> [];
  execute_roundtrip : forall r b, cbor_execute r = Ok b -> uncbor_execute b = Ok r;
}.

(** ** The enclave's side *)

Definition MaxExecuteBody : nat := Z.to_nat (8 * 2 ^ 20).

(** The status, whether it carries [EpochRetiredHeader], and for a 200 the body of the stream. *)
Inductive httpReply := HttpError (status : Z) (epochRetired : bool) | HttpStream (body : bytes).

Section Seam.
Context {SH : Sha256} {CB : Cbor} {EC : Ecdsa} {SC : SpecCbor} {PC : PolicyCbor} {ST : Store} {HL : HubLib}
        {IL : InboxLib} {LE : LeafExpiry} {SQ : SeqStore} {CD : SeamCodec}.

Definition writeStartFrame (resp : Response) : bytes := writeEvent EventStart (json_start resp).
Definition writeFailureFrame (f : Failure) : bytes := writeEvent EventFailure (json_failure f).

(** What [onStart] and [onChunk] write. *)
Definition write_call (c : Response + bytes) : bytes :=
  match c with inl resp => writeStartFrame resp | inr chunk => writeChunkFrame chunk end.

(** [onChunk] ignores the errors of the connection it writes to. *)
Definition stream_onChunk : Consumer := fun _ _ => None.

(** The frames after the exchange; a panic of the service ends the stream where it is. *)
Definition final_frames (r : res TeeResult) : bytes :=
  match r with
  | Err e => writeEvent EventError (str e)
  | Panic => []
  | Ok r =>
      match tr_Failure r with Some f => writeFailureFrame f | None => [] end
      ++ match base64_receipt (tr_Receipt r) with
         | Ok enc => writeEvent EventReceipt enc
         | Err e => writeEvent EventError (str ("encode receipt: " ++ e))
         | Panic => []
         end
  end.

(** [raw] is what [io.ReadAll] made of the request body. *)
Definition ServeExecute (sv : Service) (clock : nat -> Z) (transport : Request -> exchange) (sq : seq_state) (raw : res bytes)
    : seq_state * httpReply :=
  match raw with
  | Err _ | Panic => (sq, HttpError 400 false)
  | Ok raw =>
      if (MaxExecuteBody <? length raw)%nat then (sq, HttpError 413 false) else
      match uncbor_execute raw with
      | Err _ | Panic => (sq, HttpError 400 false)
      | Ok (spec, body) =>
          let '(sq, r, x) := tee_Execute sv clock transport sq spec body (Some stream_onChunk) in
          let calls := match x with Some (_, st) => ry_calls st | None => [] end in
          (sq, HttpStream (concat (map write_call calls) ++ final_frames r))
      end
  end.

(** ** The Hub's side *)

(** The variables of [readSSE]; [onStart] and [onChunk] were called with what the result holds. *)
Record sseAcc := mkAcc {
  sa_chunks : list bytes;
  sa_start : option Response;
  sa_failure : option Failure;
  sa_receipt : bytes;
  sa_teeErr : bytes;
  sa_startErr : bool;
}.

Definition acc_init : sseAcc := mkAcc [] None None [] [] false.

Definition sse_frame (a : sseAcc) (frame : SSEEvent) : sseAcc :=
  let t := ev_Type frame in
  if String.eqb t "" || String.eqb t "message" then
    if ev_HasData frame
    then mkAcc (sa_chunks a ++ [ev_Data frame]) (sa_start a) (sa_failure a) (sa_receipt a) (sa_teeErr a) (sa_startErr a)
    else a
  else if String.eqb t EventStart then
    match unjson_start (ev_Data frame) with
    | Ok resp => mkAcc (sa_chunks a) (Some resp) (sa_failure a) (sa_receipt a) (sa_teeErr a) (sa_startErr a)
    | _ => mkAcc (sa_chunks a) (sa_start a) (sa_failure a) (sa_receipt a) (sa_teeErr a) true
    end
  else if String.eqb t EventFailure then
    match unjson_failure (ev_Data frame) with
    | Ok f =>
        if String.eqb (f_Class f) "" then a else
        let f := if failure_Known (f_Class f) then f else mkFailure FailureOther (f_Stage f) (f_Cold f) in
        mkAcc (sa_chunks a) (sa_start a) (Some f) (sa_receipt a) (sa_teeErr a) (sa_startErr a)
    | _ => a
    end
  else if String.eqb t EventReceipt then
    mkAcc (sa_chunks a) (sa_start a) (sa_failure a) (ev_Data frame) (sa_teeErr a) (sa_startErr a)
  else if String.eqb t EventError then
    mkAcc (sa_chunks a) (sa_start a) (sa_failure a) (sa_receipt a) (ev_Data frame) (sa_startErr a)
  else a.

(** Every frame takes at least one line, so a body of [n] bytes has at most [n] frames. *)
Fixpoint sse_loop (fuel : nat) (s : SSEStream) (a : sseAcc) : sseAcc :=
  match fuel with
  | O => a
  | S fuel => match Next s with (None, _) => a | (Some frame, s) => sse_loop fuel s (sse_frame a frame) end
  end.

Definition acc_result (a : sseAcc) (signed : SignedReceipt) : Result :=
  mkResult (sa_chunks a) (match sa_start a with Some resp => rs_StatusCode resp | None => 0 end)
    (match sa_start a with Some resp => rs_Headers resp | None => ∅ end) signed (sa_failure a).

Definition acc_run (a : sseAcc) (signed : SignedReceipt) (err : option error) : TeeRun :=
  mkRun (acc_result a signed) err (match sa_start a with Some _ => true | None => false end) (sa_chunks a).

Definition readSSE (body : bytes) : TeeRun :=
  let a := sse_loop (S (length body)) (NewSSEStream body) acc_init in
  let fail e := acc_run a zero_signed (Some e) in
  if sa_startErr a then fail "decode response start frame"%string
  else if negb (length (sa_teeErr a) =? 0)%nat then fail "tee refused the job"%string
  else if (length (sa_receipt a) =? 0)%nat then fail "tee stream ended without a receipt frame"%string
  else match DecodeReceiptFrame (sa_receipt a) with
       | Ok signed => acc_run a signed None
       | _ => fail "decode receipt frame"%string
       end.

Definition failed_run (e : error) : TeeRun := acc_run acc_init zero_signed (Some e).

(** One dispatch; the flag is [errors.Is(err, tee.ErrEpochRetired)]. *)
Definition HTTPTEE_dispatch (reply : res httpReply) : TeeRun * bool :=
  match reply with
  | Ok (HttpStream body) => (readSSE body, false)
  | Ok (HttpError status retired) =>
      if (status =? 503) && retired then (failed_run "epoch retired", true) else (failed_run "tee http error", false)
  | _ => (failed_run "connection failed", false)
  end.

(** [send fresh enc] is the exchange over HTTP, on a pooled or on a fresh connection. *)
Definition HTTPTEE_Execute (send : bool -> bytes -> res httpReply) (spec : Spec) (body : bytes) : TeeRun :=
  match cbor_execute (spec, body) with
  | Ok enc =>
      let '(run, retired) := HTTPTEE_dispatch (send false enc) in
      if negb retired then run else (HTTPTEE_dispatch (send true enc)).1
  | _ => failed_run "encode execute request"
  end.
End Seam.

(** ** A stream, read back *)

Section ReadBack.
Context {SH : Sha256} {CB : Cbor} {EC : Ecdsa} {SC : SpecCbor} {PC : PolicyCbor} {ST : Store} {HL : HubLib}
        {IL : InboxLib} {LE : LeafExpiry} {SQ : SeqStore} {CD : SeamCodec} {CL : SeamLaws}.


Lemma next_event_frame event data rest :
  event ∈ [EventStart; EventFailure; EventReceipt; EventError] -> one_data_line data ->
  Next (NewSSEStream (writeEvent event data ++ rest)) = (Some (mkSSEEvent event data true), NewSSEStream rest).
Proof.
  intros I [P N]. assert (last data <> Some CR) by (intros E; by apply N, last_Some_elem_of).
  set_unfold in I. destruct_or! I; subst event; apply next_named; try done; (vm_compute; (reflexivity || set_solver || congruence)).
Qed.

(** What one call of the service's callbacks adds to what the Hub holds. *)
Definition acc_call (a : sseAcc) (c : Response + bytes) : sseAcc :=
  match c with
  | inl resp => mkAcc (sa_chunks a) (Some resp) (sa_failure a) (sa_receipt a) (sa_teeErr a) (sa_startErr a)
  | inr chunk => mkAcc (sa_chunks a ++ [delivered chunk]) (sa_start a) (sa_failure a) (sa_receipt a) (sa_teeErr a) (sa_startErr a)
  end.

Lemma sse_loop_calls calls n rest a :
  Forall plain_text (called_starts calls) ->
  sse_loop (length calls + n) (NewSSEStream (concat (map write_call calls) ++ rest)) a
  = sse_loop n (NewSSEStream rest) (fold_left acc_call calls a).
Proof.
  revert a. induction calls as [|[resp|chunk] calls IH]; intros a P; [done|..]; cbn [map concat length Nat.add sse_loop fold_left].
  - inv P. rewrite <- app_assoc. cbn [write_call]. unfold writeStartFrame.
    rewrite next_event_frame by (set_solver || apply start_line). unfold sse_frame. cbn [ev_Type ev_Data].
    rewrite start_roundtrip by done. by rewrite IH.
  - rewrite <- app_assoc. cbn [write_call]. rewrite next_chunk. by rewrite IH.
Qed.

Lemma fold_acc_call calls a :
  fold_left acc_call calls a = mkAcc (sa_chunks a ++ map delivered (called_chunks calls))
    (match last (called_starts calls) with Some resp => Some resp | None => sa_start a end)
    (sa_failure a) (sa_receipt a) (sa_teeErr a) (sa_startErr a).
Proof.
  revert a. induction calls as [|[resp|chunk] calls IH]; intros a; cbn [fold_left].
  - cbn. rewrite app_nil_r. by destruct a.
  - rewrite IH. unfold called_starts. cbn [omap list_omap acc_call sa_chunks sa_start sa_failure sa_receipt sa_teeErr sa_startErr].
    rewrite last_cons. by destruct (last (omap _ calls)).
  - rewrite IH. cbn. by rewrite <- app_assoc.
Qed.

Lemma write_call_length c : (1 <= length (write_call c))%nat.
Proof.
  destruct c; cbn [write_call]; unfold writeStartFrame, writeEvent, writeChunkFrame; rewrite !length_app; cbn; lia.
Qed.

Lemma calls_length calls : (length calls <= length (concat (map write_call calls)))%nat.
Proof.
  induction calls as [|c calls IH]; [done|]. cbn [map concat length]. rewrite length_app. pose proof (write_call_length c). lia.
Qed.

Lemma known_nonempty f : failure_Known f = true -> f <> ""%string.
Proof. by intros H ->. Qed.

(** The Hub reads what the callbacks were given, chunk by chunk, and the receipt. *)
Lemma stream_read_back calls r enc :
  Forall plain_text (called_starts calls) -> base64_receipt (tr_Receipt r) = Ok enc ->
  (forall f, tr_Failure r = Some f -> failure_Known (f_Class f) = true) ->
  readSSE (concat (map write_call calls) ++ final_frames (Ok r)) =
    acc_run (mkAcc (map delivered (called_chunks calls)) (last (called_starts calls)) (tr_Failure r) enc [] false)
      (tr_Receipt r) None.
Proof.
  intros P B K. destruct (receipt_line _ _ B) as [Ln Ne]. unfold readSSE.
  set (body := concat (map write_call calls) ++ final_frames (Ok r)).
  assert (L : sse_loop (S (length body)) (NewSSEStream body) acc_init =
    mkAcc (map delivered (called_chunks calls)) (last (called_starts calls)) (tr_Failure r) enc [] false).
  { assert (exists n, S (length body) = length calls + (3 + n))%nat as [n ->].
    { exists (length body - length calls - 2)%nat. pose proof (calls_length calls). unfold body, final_frames.
      rewrite B, !length_app. unfold writeEvent. rewrite !length_app. cbn [length]. lia. }
    unfold body. rewrite sse_loop_calls, fold_acc_call by done. cbn [sa_chunks sa_start sa_failure sa_receipt sa_teeErr sa_startErr acc_init app].
    set (st := match last _ with Some _ => _ | None => None end). assert (st = last (called_starts calls)) as ->.
    { unfold st. by destruct (last _). }
    unfold final_frames. rewrite B.
    assert (End : Next (NewSSEStream []) = (None, NewSSEStream [])) by reflexivity.
    assert (R : forall a m, sse_loop (2 + m) (NewSSEStream (writeEvent EventReceipt enc)) a =
      mkAcc (sa_chunks a) (sa_start a) (sa_failure a) enc (sa_teeErr a) (sa_startErr a)).
    { intros a m. rewrite <- (app_nil_r (writeEvent _ _)). cbn [Nat.add sse_loop]. rewrite next_event_frame by (done || set_solver).
      by rewrite End. }
    destruct (tr_Failure r) as [f|] eqn:F; [|cbn [app]; change (3 + n)%nat with (2 + S n)%nat; by rewrite R].
    change (3 + n)%nat with (S (2 + n)). cbn [sse_loop]. unfold writeFailureFrame.
    rewrite next_event_frame by (set_solver || apply failure_line). rewrite R.
    specialize (K f eq_refl). unfold sse_frame. cbn [ev_Type ev_Data String.eqb orb].
    change (String.eqb EventFailure "" || String.eqb EventFailure "message") with false.
    change (String.eqb EventFailure EventStart) with false. change (String.eqb EventFailure EventFailure) with true. cbn match.
    rewrite failure_roundtrip, K. apply known_nonempty in K. by destruct (String.eqb_spec (f_Class f) ""). }
  rewrite L. cbn [sa_startErr sa_teeErr sa_receipt length Nat.eqb negb]. rewrite (receipt_roundtrip _ _ B).
  by destruct enc.
Qed.
End ReadBack.

(** ** An honest enclave, as the Hub sees it *)

Section Honest.
Context {SH : Sha256} {CB : Cbor} {EC : Ecdsa} {EL : EcdsaLaws} {SC : SpecCbor} {PC : PolicyCbor} {ST : Store} {HL : HubLib}
        {IL : InboxLib} {LE : LeafExpiry} {SQ : SeqStore} {CD : SeamCodec} {CL : SeamLaws}.

(** The signer holds an epoch whose identity belongs to its key, and the verifier trusts that identity. *)
Definition trusted_signer (v : Verifier) (signer : Signer) : Prop :=
  exists k platform kind app evidence evidenceHash, s_epoch signer = Some (epoch_of k platform kind app evidence evidenceHash)
    /\ trusted_epoch v (ep_Identity (epoch_of k platform kind app evidence evidenceHash)) (IncludeEvidence signer).

(** The Hub verifies with the trust root [v], under which the enclave runs: every epoch it may sign with is trusted, and
    a pinned policy is the one it enforces. *)
Record trusted_enclave (v : Verifier) (sv : Service) : Prop := {
  tn_verify : exists now, forall s, hub_verify s = attest_Check now (Some v) s;
  tn_policy : v_havePolicy v = true -> policy_Hash (sv_policy sv) = Ok (v_policyHash v);
  tn_signers : forall point signer, activeSigner sv point = Some signer -> trusted_signer v signer;
}.

(** An exchange of an honest enclave, sent and answered over the seam. *)
Record honest_exchange (sv : Service) (clock : nat -> Z) (transport : Request -> exchange) (sq : seq_state) (spec : Spec)
    (body enc : bytes) (res : TeeResult) (st : relayState) : Prop := {
  he_sent : cbor_execute (spec, body) = Ok enc;
  he_size : (length enc <= MaxExecuteBody)%nat;
  he_run : exists sq' rq, tee_Execute sv clock transport sq spec body (Some stream_onChunk) = (sq', Ok res, Some (rq, st))
    /\ consistent None (transport rq);
  he_limit : 0 <= sp_MaxResponseBytes spec;
  he_receipt : is_ok (base64_receipt (tr_Receipt res)) = true;
  he_headers : forall resp, ry_started st = Some resp -> plain_text resp;
  he_trusted : exists v, trusted_enclave v sv;
}.

(** The Hub's client, connected to that enclave. *)
Definition dispatched (sv : Service) (clock : nat -> Z) (transport : Request -> exchange) (sq : seq_state) (spec : Spec)
    (body : bytes) : TeeRun :=
  HTTPTEE_Execute (fun _ enc => Ok (ServeExecute sv clock transport sq (Ok enc)).2) spec body.

(** The receipt verifies at the Hub: it was signed by a trusted epoch and names the policy of the enclave. *)
Lemma honest_verified sv clock transport sq spec body enc res st :
  honest_exchange sv clock transport sq spec body enc res st -> hub_verify (tr_Receipt res) = Ok ().
Proof.
  intros [_ _ (sq' & rq & E & _) _ _ _ (v & [[now V] Hp Hs])]. apply execute_exchange in E as (d & hs & sh & n & Ck & _ & -> & P).
  apply execute_checks_cleared in Ck as [_ _ _ _ _ _ Pm _ _ _]. pose proof (pm_hash _ _ _ Pm) as PH.
  apply perform_signer in P as (point & receipt & Sg & EP). rewrite V.
  destruct (activeSigner sv point) as [[epoch incl]|] eqn:Ea; [|done].
  destruct (Hs _ _ Ea) as (k & platform & kind & app & evidence & evidenceHash & Ee & T). cbn [s_epoch IncludeEvidence] in Ee, T. subst epoch.
  refine (trusted_receipts_check now v k platform kind app evidence evidenceHash incl receipt _ Sg T _).
  intros Hv. rewrite EP. specialize (Hp Hv). rewrite PH in Hp. by apply (inj Ok) in Hp.
Qed.

Lemma honest_relay sv clock transport sq spec body enc res st :
  honest_exchange sv clock transport sq spec body enc res st ->
  relay_inv (sp_JobID spec) (sp_MaxResponseBytes spec) st
  /\ JobID (sReceipt (tr_Receipt res)) = sp_JobID spec
  /\ StreamHash (sReceipt (tr_Receipt res)) = HashResponseStream (sp_JobID spec) (ry_relayed st)
  /\ ResponseHeadersHash (sReceipt (tr_Receipt res)) = ry_headerHash st
  /\ (forall start, ry_started st = Some start -> StatusCode (sReceipt (tr_Receipt res)) = rs_StatusCode start)
  /\ (forall f, tr_Failure res = Some f -> failure_Known (f_Class f) = true).
Proof.
  intros [_ _ (sq' & rq & E & C) L _ _ _]. apply execute_exchange in E as (d & hs & sh & n & Ck & _ & -> & P).
  apply execute_checks_cleared in Ck as [_ _ _ _ _ _ Pm _ _ _].
  apply perform_signed in P as (resp & err & ctx & signer & a & X & _ & _ & -> & F & _).
  rewrite <- (pm_limit _ _ _ Pm) in *. cbn [exchange_request rq_MaxResponseBytes] in X.
  pose proof (run_exchange_inv (sp_JobID spec) (d_MaxResponseBytes d) (Some stream_onChunk)
    (transport (exchange_request sv spec hs body d)) _ (new_relay_inv _ _ L)) as I. rewrite X in I. cbn [fst] in I.
  assert (A : start_agrees None (new_relay (sp_JobID spec))) by (by left).
  pose proof (run_exchange_status _ _ _ _ _ _ _ _ _ C A X) as S.
  split; [done|]. cbn [with_attestation exchange_receipt JobID StreamHash ResponseHeadersHash StatusCode].
  split; [done|]. split; [by rewrite (ri_hasher _ _ _ I)|]. split; [done|]. split.
  - intros start Hs. unfold is_started. rewrite Hs in S |- *. rewrite <- S. by destruct err.
  - intros f Hf. rewrite F in Hf. by apply failure_never_blames_upstream in Hf as [? _].
Qed.

(** What the Hub reads. *)
Lemma honest_dispatched sv clock transport sq spec body enc res st :
  honest_exchange sv clock transport sq spec body enc res st ->
  exists b, dispatched sv clock transport sq spec body =
    acc_run (mkAcc (map delivered (ry_relayed st)) (ry_started st) (tr_Failure res) b [] false) (tr_Receipt res) None.
Proof.
  intros H. destruct (honest_relay _ _ _ _ _ _ _ _ _ H) as (I & _ & _ & _ & _ & K).
  destruct H as [S Z (sq' & rq & E & _) _ B P _]. destruct (base64_receipt (tr_Receipt res)) as [b| |] eqn:Eb; [|done..].
  exists b. unfold dispatched, HTTPTEE_Execute. rewrite S. unfold ServeExecute.
  rewrite (proj2 (Nat.ltb_ge _ _) Z), (execute_roundtrip _ _ S), E. cbn [snd HTTPTEE_dispatch negb].
  destruct (ri_calls _ _ _ I) as [Cc Cs].
  assert (Pl : Forall plain_text (called_starts (ry_calls st))).
  { rewrite Cs. destruct (ry_started st) as [resp|]; [|constructor]. constructor; [by apply P|constructor]. }
  rewrite (stream_read_back _ _ _ Pl Eb K), Cc, Cs. by destruct (ry_started st).
Qed.

(** Refusals that are about the price or the books, not about the receipt. *)
Definition commercial (e : HubErr) : bool :=
  match e with ErrPrice _ | ErrStorePut _ | ErrJobPriceExceeded | ErrDuplicateSettlement => true | _ => false end.

Lemma honest_start sv clock transport sq spec body enc res st a :
  honest_exchange sv clock transport sq spec body enc res st -> sa_start a = ry_started st ->
  receiptMatchesStart (sReceipt (tr_Receipt res)) (Status (acc_result a (tr_Receipt res))) (Headers (acc_result a (tr_Receipt res))) = true.
Proof.
  intros H E. destruct (honest_relay _ _ _ _ _ _ _ _ _ H) as (I & _ & _ & Hh & Hs & _).
  unfold acc_result. cbn [Status Headers]. rewrite E. unfold receiptMatchesStart. rewrite Hh.
  pose proof (ri_start _ _ _ I) as S. destruct (ry_started st) as [resp|]; [|by rewrite S].
  destruct S as [_ ->]. unfold HashResponseHeaders at 1. rewrite sha256_length. cbn [Nat.eqb].
  rewrite (Hs _ eq_refl), Z.eqb_refl. cbn [negb]. by apply ct_equal_spec.
Qed.

(** C21: The receipt of an honest enclave stands.  The job fits the size limit of the request, the transport keeps its
    promise, which the shipped one does, the response headers are plain text (which their JSON form keeps), the receipt
    can be encoded, and every epoch of the enclave is trusted by the verifier of the Hub, with the policy it pins.  When
    in addition no line of a chunk ends in a carriage return, the Hub receives exactly the chunks that were relayed, the
    reported start, the receipt and the diagnosis; the receipt verifies and matches the stream and the start it was
    shown; and with a receipt store that does not panic the job is settled or refused for its price, by the store or
    as settled before, and for nothing else. *)
Theorem honest_receipt_is_accepted sv clock transport sq spec body enc res st h tenant model c :
  honest_exchange sv clock transport sq spec body enc res st ->
  Forall (fun chunk => Forall (fun line => last line <> Some CR) (split_lines chunk)) (ry_relayed st) ->
  (forall s provider signed, (store_Put s provider signed).2 <> Panic) ->
  let run := dispatched sv clock transport sq spec body in
  (run_err run = None /\ RReceipt (run_result run) = tr_Receipt res /\ Chunks (run_result run) = ry_relayed st
   /\ RFailure (run_result run) = tr_Failure res /\ hub_verify (RReceipt (run_result run)) = Ok ())
  /\ match (execute_settle h tenant model c spec run).2 with None => True | Some e => commercial e = true end.
Proof.
  intros H D NP run. destruct (honest_relay _ _ _ _ _ _ _ _ _ H) as (_ & J & S & _). pose proof (honest_verified _ _ _ _ _ _ _ _ _ H) as HV.
  destruct (honest_dispatched _ _ _ _ _ _ _ _ _ H) as [b E]. fold run in E.
  assert (M : map delivered (ry_relayed st) = ry_relayed st).
  { clear - D. induction D as [|chunk chunks X _ IH]; [done|]. cbn [map]. rewrite IH. f_equal. by apply delivered_id. }
  rewrite M in E. rewrite E. split; [done|]. unfold execute_settle. cbn [acc_run run_err run_result].
  set (res' := acc_result _ _). change (RReceipt res') with (tr_Receipt res). rewrite HV.
  assert (Ms : MatchesStream (sReceipt (tr_Receipt res)) (Chunks res') = true).
  { apply MatchesStream_spec. rewrite J, S, HashResponseStream_concat. split; [apply sha256_length|done]. }
  assert (Hs : receiptMatchesStart (sReceipt (tr_Receipt res)) (Status res') (Headers res') = true) by (by apply (honest_start _ _ _ _ _ _ _ _ _ _ H)).
  rewrite Ms, Hs. cbn [negb].
  pose proof (price_no_panic c model (relayed_bytes (Chunks res')) (sReceipt (tr_Receipt res))) as PP.
  destruct (Price _ _ _ _) as [charged| |]; [|done|done]. pose proof (commission_no_panic (h_commission h) charged) as CP.
  destruct (CommissionOn _ charged) as [comm| |]; [|done|done]. destruct (addChecked charged comm) as [buyer [|]]; [|done]. cbn [negb].
  set (h' := with_ledger h _). pose proof (NP (h_store h') (sp_Provider spec) (tr_Receipt res)) as SP.
  destruct (_ && _); [destruct (store_Put _ _ _) as [s [| |]]; done|].
  destruct (match h_withhold h' with Some w => _ | None => _ end); [by destruct (claimSettlement _ _) as [? []]|].
  destruct (store_Put _ _ _) as [s [[]| |]]; [by destruct (claimSettlement _ _) as [? []]|done..].
Qed.

(** The job is refused for its stream, and the books are as they were. *)
Definition stream_refused (h : Hub) (x : Hub * Outcome * option HubErr) : Prop :=
  x.2 = Some ErrStreamMismatch /\ money x.1.1 = money h.

(** C37: A response body with CR LF line ends is not settled.  When a relayed chunk of an honest exchange has a line that
    ends in a carriage return, the Hub is handed the chunks without it: a text strictly shorter than the one relayed and
    signed for.  So unless these two texts, under the prefix of the job, have the same SHA-256 digest, the Hub refuses the
    honest receipt for a stream mismatch and moves no money, although the enclave, the transport and the receipt did
    nothing wrong. *)
Theorem carriage_return_blocks_settlement sv clock transport sq spec body enc res st h tenant model c :
  honest_exchange sv clock transport sq spec body enc res st ->
  Exists (fun chunk => Exists (fun line => last line = Some CR) (split_lines chunk)) (ry_relayed st) ->
  let run := dispatched sv clock transport sq spec body in let handed := Chunks (run_result run) in
  handed = map delivered (ry_relayed st) /\ (length (concat handed) < length (concat (ry_relayed st)))%nat
  /\ (sha256 (stream_preimage (sp_JobID spec) handed) <> sha256 (stream_preimage (sp_JobID spec) (ry_relayed st)) ->
      stream_refused h (execute_settle h tenant model c spec run)).
Proof.
  intros H D run handed. destruct (honest_relay _ _ _ _ _ _ _ _ _ H) as (_ & J & S & _).
  destruct (honest_dispatched _ _ _ _ _ _ _ _ _ H) as [b E]. fold run in E.
  assert (Eh : handed = map delivered (ry_relayed st)) by (unfold handed; by rewrite E). split; [done|].
  split; [rewrite Eh; by apply delivered_shorter|]. intros Ne. unfold execute_settle. rewrite E. cbn [acc_run run_err run_result].
  set (res' := acc_result _ _). change (RReceipt res') with (tr_Receipt res). rewrite (honest_verified _ _ _ _ _ _ _ _ _ H).
  destruct (MatchesStream (sReceipt (tr_Receipt res)) (Chunks res')) eqn:Ms; [exfalso|done].
  apply MatchesStream_spec in Ms as [_ Ms]. rewrite J, S, HashResponseStream_concat in Ms. apply Ne. rewrite Eh. exact Ms.
Qed.
End Honest.

(** ** A concrete seam *)

#[export] Instance SignedReceipt_eq_dec : EqDecision SignedReceipt.
Proof.
  assert (EqDecision AttestationRef) by solve_decision. assert (EqDecision Signature) by solve_decision.
  assert (EqDecision Receipt) by solve_decision. solve_decision.
Defined.

#[export] Instance Spec_eq_dec : EqDecision Spec.
Proof. solve_decision. Defined.

(** A text encoding of any countable data: the digits of its code. *)
Fixpoint digits (p : positive) : bytes :=
  match p with xH => [49] | xO p => 48 :: digits p | xI p => 50 :: digits p end.

Fixpoint undigits (l : bytes) : positive :=
  match l with [] => xH | a :: l => if a =? 48 then xO (undigits l) else if a =? 50 then xI (undigits l) else xH end.

Lemma undigits_digits p : undigits (digits p) = p.
Proof. induction p as [p IH|p IH|]; cbn; by rewrite ?IH. Qed.

Lemma digits_line p : one_data_line (digits p).
Proof.
  assert (A : Forall (fun a => 48 <= a <= 50) (digits p)) by (induction p; repeat constructor; try lia; done).
  rewrite Forall_forall in A. split; intros I%A; unfold LF, CR in *; lia.
Qed.

Definition of_start (resp : Response) : positive := encode (rs_StatusCode resp, rs_Headers resp).
Definition of_failure (f : Failure) : positive := encode (f_Class f, f_Stage f, f_Cold f).

Definition demo_codec (signed : SignedReceipt) (spec : Spec) : SeamCodec := {|
  json_start resp := digits (of_start resp);
  unjson_start b := match decode (undigits b) with Some (status, hs) => Ok (mkResponse status hs) | None => Err "json" end;
  json_failure f := digits (of_failure f);
  unjson_failure b := match decode (undigits b) with Some (c, s, o) => Ok (mkFailure c s o) | None => Err "json" end;
  base64_receipt r := if decide (r = signed) then Ok [65] else Err "cbor";
  DecodeReceiptFrame _ := Ok signed;
  cbor_execute r := if decide (r = (spec, [])) then Ok [1] else Err "cbor";
  uncbor_execute _ := Ok (spec, []);
|}.

Lemma demo_codec_laws signed spec : @SeamLaws (demo_codec signed spec).
Proof.
  split; cbn.
  - intros [status hs] _. rewrite undigits_digits. unfold of_start. by rewrite decode_encode.
  - intros. apply digits_line.
  - intros [c s o]. rewrite undigits_digits. unfold of_failure. by rewrite decode_encode.
  - intros. apply digits_line.
  - intros r b. by destruct (decide _) as [->|].
  - intros r b. destruct (decide _); intros E; [|done]. apply (inj Ok) in E as <-. split; [|done].
    split; intros I%list_elem_of_singleton; done.
  - intros r b. by destruct (decide _) as [->|].
Qed.

(** The enclave of the earlier examples, under the real digest, behind a transport that answers with [chunks]. *)
Definition seam_inbox : @InboxKey demo_inbox_lib := @mkInboxKey demo_inbox_lib () () (sha256 [7]) [7].
Definition seam_envelope : Envelope := mkEnvelope (sha256 [7]) (zeros 32) (zeros 12) [1].
Definition seam_envelope_cbor : EnvelopeCbor := {| cbor_envelope _ := Ok [1]; uncbor_envelope _ := Ok seam_envelope |}.
Definition seam_epoch : Epoch := @epoch_of sha_256 toy_ecdsa toy_laws [1; 2; 3] "aws-sev-snp" "report" "app" [9] (zeros 32).
Definition seam_service : @Service demo_inbox_lib :=
  @mkService demo_inbox_lib Default (Some (mkSigner (Some seam_epoch) false)) None 0 None seam_inbox.
(** The operator of the Hub trusts simulated evidence [[9]] and pins no policy. *)
Definition seam_evidence : EvidenceVerifier :=
  mkEvidenceVerifier (fun id => fail_if (negb (bytes_eqb (idEvidence id) [9])) "untrusted evidence";; Ok ()) (fun _ _ => Err "no deployment").
Definition seam_verifier : Verifier := mkVerifier {["aws-sev-snp"%string]} {["aws-sev-snp"%string := seam_evidence]} (Some (fun _ => Ok [9])) false [].

Lemma seam_verifier_new : attest_New (mkAttestConfig ["aws-sev-snp"%string] {["aws-sev-snp"%string := seam_evidence]} (Some (fun _ => Ok [9])) (zeros 32))
  = Ok (mkVerifier {["aws-sev-snp"%string]} {["aws-sev-snp"%string := seam_evidence]} (Some (fun _ => Ok [9])) false (zeros 32)).
Proof. vm_compute. reflexivity. Qed.

Definition seam_lib : HubLib :=
  {| hub_unicode := demo_unicode; hub_envelope := seam_envelope_cbor; hub_headers := demo_header_json;
     hub_verify s := @attest_Check sha_256 toy_cbor toy_ecdsa 0 (Some seam_verifier) s |}.

Definition seam_spec : Spec :=
  mkSpec 1 (zeros 16) "openai" "POST" "api.openai.com" "/v1/chat/completions" "" ∅ (HashBody []) (zeros 8) 1735690000 65536 true false [1].

Definition seam_transport (chunks : list bytes) (_ : Request) : exchange :=
  Do false false ContextOk (Acquired false (RequestFails 0 (mkNetErr false)))
    (Acquired true (Answers (mkResponse 200 ∅) chunks None)).

Definition seam_run (chunks : list bytes) : memorySeqStore * res TeeResult * option (Request * relayState) :=
  @tee_Execute sha_256 toy_cbor demo_spec_cbor demo_policy_cbor demo_unicode demo_header_json seam_envelope_cbor
    demo_inbox_lib demo_leaf memory_seq seam_service demo_clock (seam_transport chunks) ∅ seam_spec [] (Some stream_onChunk).

Definition run_signed (x : memorySeqStore * res TeeResult * option (Request * relayState)) : SignedReceipt :=
  match x.1.2 with Ok res => tr_Receipt res | _ => zero_signed end.

Definition run_relayed (x : memorySeqStore * res TeeResult * option (Request * relayState)) : option (list bytes) :=
  match x with (_, Ok _, Some (_, st)) => Some (ry_relayed st) | _ => None end.

Definition run_start (x : memorySeqStore * res TeeResult * option (Request * relayState)) : option bool :=
  match x with
  | (_, Ok res, Some (_, st)) =>
      Some (match ry_started st with Some resp => bool_decide (rs_Headers resp = ∅) | None => true end)
  | _ => None
  end.

Lemma seam_honest chunks :
  run_start (seam_run chunks) = Some true ->
  exists res st, run_relayed (seam_run chunks) = Some (ry_relayed st) /\
    @honest_exchange sha_256 toy_cbor toy_ecdsa toy_laws demo_spec_cbor demo_policy_cbor seam_lib demo_inbox_lib demo_leaf memory_seq
      (demo_codec (run_signed (seam_run chunks)) seam_spec) seam_service demo_clock (seam_transport chunks) ∅ seam_spec [] [1] res st.
Proof.
  destruct (seam_run chunks) as [[sq [res| |]] [[rq st]|]] eqn:E; intros S; try discriminate S.
  apply (inj Some) in S. exists res, st. split; [reflexivity|]. split.
  - cbn. by rewrite decide_True.
  - cbn [length]. unfold MaxExecuteBody. lia.
  - exists sq, rq. split; [exact E|]. apply Do_consistent.
  - done.
  - cbn. unfold run_signed. cbn. by rewrite decide_True.
  - intros resp R. rewrite R in S. apply bool_decide_eq_true in S. unfold plain_text. rewrite S. apply map_Forall_empty.
  - exists seam_verifier. split; [by exists 0|done|]. intros point signer [= <-].
    exists [1; 2; 3], "aws-sev-snp"%string, "report"%string, "app"%string, [9], (zeros 32). split; [done|].
    split.
    + apply (proj2 (elem_of_singleton (C := gset string) "aws-sev-snp"%string "aws-sev-snp"%string)). reflexivity.
    + right. exists (fun _ => Ok [9]). split; reflexivity.
    + reflexivity.
Qed.

Lemma seam_plain_run : run_start (seam_run [[104; 105]; []; [10; 33]]) = Some true /\ run_relayed (seam_run [[104; 105]; []; [10; 33]]) = Some [[104; 105]; [10; 33]].
Proof. split; vm_compute; reflexivity. Qed.

Lemma seam_crlf_run : run_start (seam_run [[104; 13; 10; 105]]) = Some true /\ run_relayed (seam_run [[104; 13; 10; 105]]) = Some [[104; 13; 10; 105]].
Proof. split; vm_compute; reflexivity. Qed.

(** The Hub's client connected to it. *)
Definition seam_dispatched (chunks : list bytes) : TeeRun :=
  @dispatched sha_256 toy_cbor demo_spec_cbor demo_policy_cbor seam_lib demo_inbox_lib demo_leaf memory_seq
    (demo_codec (run_signed (seam_run chunks)) seam_spec) seam_service demo_clock (seam_transport chunks) ∅ seam_spec [].

Lemma mem_store_no_panic s provider signed : (@store_Put mem_store s provider signed).2 <> Panic.
Proof. cbn. by destruct (_ !! _). Qed.

Lemma honest_receipt_is_accepted_witness :
  let run := seam_dispatched [[104; 105]; []; [10; 33]] in
  (run_err run = None /\ Chunks (run_result run) = [[104; 105]; [10; 33]] /\ hub_verify (HubLib := seam_lib) (RReceipt (run_result run)) = Ok ())
  /\ match (@execute_settle sha_256 mem_store seam_lib demo_hub "alice" "gpt-4o" demo_card seam_spec run).2 with
     | None => True
     | Some e => commercial e = true
     end.
Proof.
  intros run. destruct seam_plain_run as [S R]. destruct (seam_honest _ S) as (res & st & Rr & H). rewrite R in Rr. apply (inj Some) in Rr.
  pose proof (@honest_receipt_is_accepted sha_256 toy_cbor toy_ecdsa toy_laws demo_spec_cbor demo_policy_cbor mem_store seam_lib demo_inbox_lib demo_leaf
    memory_seq _ (demo_codec_laws _ _) _ _ _ _ _ _ _ _ _ demo_hub "alice" "gpt-4o" demo_card H) as T.
  rewrite <- Rr in T. destruct T as [(E1 & _ & E2 & _ & E3) E4]; [repeat constructor; vm_compute; discriminate|exact mem_store_no_panic|].
  subst run. unfold seam_dispatched. split; [split; [exact E1|split; [exact E2|exact E3]]|exact E4].
Defined.

Lemma carriage_return_blocks_settlement_witness :
  Chunks (run_result (seam_dispatched [[104; 13; 10; 105]])) = [[104; 10; 105]]
  /\ stream_refused demo_hub (@execute_settle sha_256 mem_store seam_lib demo_hub "alice" "gpt-4o" demo_card seam_spec
       (seam_dispatched [[104; 13; 10; 105]])).
Proof.
  destruct seam_crlf_run as [S R]. destruct (seam_honest _ S) as (res & st & Rr & H). rewrite R in Rr. apply (inj Some) in Rr.
  pose proof (@carriage_return_blocks_settlement sha_256 toy_cbor toy_ecdsa toy_laws demo_spec_cbor demo_policy_cbor mem_store seam_lib demo_inbox_lib
    demo_leaf memory_seq _ (demo_codec_laws _ _) _ _ _ _ _ _ _ _ _ demo_hub "alice" "gpt-4o" demo_card H) as T.
  rewrite <- Rr in T. destruct T as (E1 & _ & E2); [left; left; reflexivity|].
  unfold seam_dispatched. split; [exact E1|]. rewrite E1 in E2. apply E2. vm_compute. discriminate.
Defined.
