(* ===== verification/WsFrame.v ===== *)
(** * WebSocket frames of a streaming session ([tokenhive/hub/wsframe.go])

    The Hub owns the framing of a session: it masks what it sends to a provider
    and decodes what the provider sends back, however the tunnel cut it, whatever
    its flags, its form of the length and its masking key are. *)

From S2P Require Import Prelude Bytes.

Definition WSOpText : Z := 1.
Definition WSOpBinary : Z := 2.
Definition WSOpClose : Z := 8.

Definition mask_key : bytes := [85; 170; 18; 52].

(** [b ^ key[i%4]], from index [i] on. *)
Fixpoint mask_from (i : nat) (key payload : bytes) : bytes :=
  match payload with
  | [] => []
  | b :: payload => Z.lxor b (nth (i mod 4) key 0) :: mask_from (S i) key payload
  end.

Definition MaskClientFrame (opcode : Z) (payload : bytes) : bytes :=
  let n := Z.of_nat (length payload) in
  Z.lor 128 opcode
  :: (if n <? 126 then [Z.lor 128 (u8 n)]
      else if n <=? 65535 then Z.lor 128 126 :: be_put 2 n
      else Z.lor 128 127 :: be_put 8 n)
  ++ mask_key ++ mask_from 0 mask_key payload.

Record WsFrame := mkWsFrame { wf_Opcode : Z; wf_Data : bytes; wf_Terminal : bool }.

(** One turn of the loop of [Feed]: not enough bytes, a panic of a slice expression, or a frame and what follows it. *)
Inductive parsed := Partial | Crash | Frame (f : WsFrame) (rest : bytes).

Definition parse_frame (buf : bytes) : parsed :=
  match buf with
  | b0 :: b1 :: _ =>
      let opcode := Z.land b0 15 in
      let masked := negb (Z.land b1 128 =? 0) in
      let n7 := Z.land b1 127 in
      let ext := if n7 =? 126 then 2%nat else if n7 =? 127 then 8%nat else 0%nat in
      let head := (2 + ext)%nat in
      if (length buf <? head)%nat then Partial else
      let n := if (ext =? 0)%nat then n7 else be_get (slice buf 2 head) in
      if masked && (length buf <? head + 4)%nat then Partial else
      let key := slice buf head (head + 4) in
      let head := if masked then (head + 4)%nat else head in
      if Z.of_nat (length buf) <? add64 (Z.of_nat head) n then Partial else
      (* [d.buf[head : head+int(n)]] *)
      if i64 n <? 0 then Crash else
      let payload := slice buf head (head + Z.to_nat n) in
      let data := if masked then mask_from 0 key payload else payload in
      Frame (mkWsFrame opcode data (opcode =? WSOpClose)) (drop (head + Z.to_nat n) buf)
  | _ => Partial
  end.

(** The loop: the frames and the buffer that is left; [None] is a panic.  A frame takes at least two bytes. *)
Fixpoint feed_loop (fuel : nat) (buf : bytes) : option (list WsFrame * bytes) :=
  match fuel with
  | O => Some ([], buf)
  | S fuel =>
      match parse_frame buf with
      | Partial => Some ([], buf)
      | Crash => None
      | Frame f rest =>
          if wf_Terminal f then Some ([f], rest)
          else match feed_loop fuel rest with Some (fs, buf) => Some (f :: fs, buf) | None => None end
      end
  end.

(** [Feed] on the buffer [buf]. *)
Definition Feed (buf p : bytes) : option (list WsFrame * bytes) := feed_loop (length (buf ++ p)) (buf ++ p).

(** A decoder fed with the pieces of a stream. *)
Fixpoint feed_all (buf : bytes) (pieces : list bytes) : option (list WsFrame * bytes) :=
  match pieces with
  | [] => Some ([], buf)
  | p :: pieces =>
      match Feed buf p with
      | None => None
      | Some (fs, buf) =>
          match feed_all buf pieces with Some (gs, buf) => Some (fs ++ gs, buf) | None => None end
      end
  end.

(** ** Masking *)

Lemma length_mask_from i key l : length (mask_from i key l) = length l.
Proof. revert i. induction l as [|b l IH]; intros i; cbn; [done|]. by rewrite IH. Qed.

Lemma mask_from_twice i key l : mask_from i key (mask_from i key l) = l.
Proof.
  revert i. induction l as [|b l IH]; intros i; cbn; [done|].
  rewrite Z.lxor_assoc, Z.lxor_nilpotent, Z.lxor_0_r. by rewrite IH.
Qed.

(** ** A frame, decoded *)

(** The three forms of a length field: in the second byte, or in two or eight bytes after it. *)
Inductive lengthForm := Length7 | Length16 | Length64.

(** The shortest form. *)
Definition shortest_form (n : Z) : lengthForm := if n <? 126 then Length7 else if n <=? 65535 then Length16 else Length64.

Definition form_fits (form : lengthForm) (n : Z) : Prop :=
  match form with Length7 => n < 126 | Length16 => n < 2 ^ 16 | Length64 => n < 2 ^ 63 end.

(** The rest of a frame: masked under a key, as a client sends it, or plain as a server does. *)
Definition frame_tail (key : option bytes) (payload : bytes) : bytes :=
  match key with Some key => key ++ mask_from 0 key payload | None => payload end.

(** RFC 6455: a frame with the four flags FIN, RSV1, RSV2, RSV3 in [flags]. *)
Definition ws_encode (flags : Z) (form : lengthForm) (key : option bytes) (op : Z) (payload : bytes) : bytes :=
  let n := Z.of_nat (length payload) in
  let mask := match key with Some _ => 128 | None => 0 end in
  let '(b1, ext) := match form with
                    | Length7 => (Z.lor mask n, [])
                    | Length16 => (Z.lor mask 126, be_put 2 n)
                    | Length64 => (Z.lor mask 127, be_put 8 n)
                    end in
  Z.lor (Z.shiftl flags 4) op :: b1 :: ext ++ frame_tail key payload.

Lemma MaskClientFrame_encode op payload :
  MaskClientFrame op payload = ws_encode 8 (shortest_form (Z.of_nat (length payload))) (Some mask_key) op payload.
Proof.
  unfold MaskClientFrame, ws_encode, shortest_form. change (Z.shiftl 8 4) with 128.
  destruct (Z.ltb_spec (Z.of_nat (length payload)) 126); [|by destruct (_ <=? 65535)].
  unfold u8. by rewrite Z.mod_small by (cbn; lia).
Qed.

Lemma opcode_bits flags op : 0 <= op < 16 -> Z.land (Z.lor (Z.shiftl flags 4) op) 15 = op.
Proof.
  intros Ho. change 15 with (Z.ones 4). rewrite Z.land_lor_distr_l, !Z.land_ones, Z.shiftl_mul_pow2 by lia.
  rewrite Z.mod_mul by lia. rewrite Z.lor_0_l. apply Z.mod_small. cbn. lia.
Qed.

Lemma low_bits b k : 0 <= b < 128 -> 0 <= k <= 7 -> Z.land (Z.lor 128 b) (2 ^ k - 1) = b mod 2 ^ k.
Proof.
  intros Hb Hk. rewrite <- Z.land_ones by lia. rewrite Z.ones_equiv.
  replace (Z.pred (2 ^ k)) with (2 ^ k - 1) by lia. rewrite Z.land_lor_distr_l.
  replace (Z.land 128 (2 ^ k - 1)) with 0; [by rewrite Z.lor_0_l|].
  symmetry. replace (2 ^ k - 1) with (Z.ones k) by (rewrite Z.ones_equiv; lia). rewrite Z.land_ones by lia.
  assert (k = 0 \/ k = 1 \/ k = 2 \/ k = 3 \/ k = 4 \/ k = 5 \/ k = 6 \/ k = 7) by lia. by destruct_or!; subst.
Qed.

Lemma high_bit b : 0 <= b < 128 -> Z.land (Z.lor 128 b) 128 = 128.
Proof.
  intros Hb. rewrite Z.land_lor_distr_l. rewrite (Z.bits_inj_0 (Z.land b 128)); [done|].
  intros i. rewrite Z.land_spec. change 128 with (2 ^ 7). destruct (decide (i = 7)) as [->|N].
  - by rewrite (testbit_high 7).
  - destruct (decide (0 <= i)); [|by rewrite Z.testbit_neg_r by lia]. by rewrite (Z.pow2_bits_false 7) by lia; rewrite andb_false_r.
Qed.

Lemma slice_prefix (l r : bytes) a b : (b <= length l)%nat -> slice l a b = slice (l ++ r) a b.
Proof.
  intros L. unfold slice. destruct (decide (a <= b)%nat); [|by replace (b - a)%nat with 0%nat by lia].
  rewrite drop_app_le by lia. by rewrite take_app_le by (rewrite length_drop; lia).
Qed.

(** The length field [b1], [ext] says [n], and whether the frame is masked. *)
Definition says_length (masked : bool) (b1 : Z) (ext : bytes) (n : Z) : Prop :=
  negb (Z.land b1 128 =? 0) = masked
  /\ ((Z.land b1 127 = n /\ n < 126 /\ ext = [])
      \/ (Z.land b1 127 = 126 /\ length ext = 2%nat /\ be_get ext = n)
      \/ (Z.land b1 127 = 127 /\ length ext = 8%nat /\ be_get ext = n)).

Lemma flag_bits (masked : bool) b :
  0 <= b < 128 -> let b1 := Z.lor (if masked then 128 else 0) b in negb (Z.land b1 128 =? 0) = masked /\ Z.land b1 127 = b.
Proof.
  intros Hb. destruct masked; cbn zeta.
  - rewrite high_bit by done. split; [done|]. change 127 with (2 ^ 7 - 1). rewrite low_bits by lia. by rewrite Z.mod_small.
  - rewrite Z.lor_0_l. split.
    + assert (E : Z.land b 128 = 0); [|by rewrite E]. apply Z.bits_inj_0. intros i. rewrite Z.land_spec.
      change 128 with (2 ^ 7). destruct (decide (i = 7)) as [->|N]; [by rewrite (testbit_high 7)|].
      destruct (decide (0 <= i)); [|by rewrite Z.testbit_neg_r by lia]. by rewrite (Z.pow2_bits_false 7) by lia; rewrite andb_false_r.
    + change 127 with (Z.ones 7). rewrite Z.land_ones by lia. by rewrite Z.mod_small.
Qed.

Definition is_masked (key : option bytes) : bool := match key with Some _ => true | None => false end.

Lemma ws_encode_says flags form key op payload :
  form_fits form (Z.of_nat (length payload)) ->
  exists b1 ext, ws_encode flags form key op payload = Z.lor (Z.shiftl flags 4) op :: b1 :: ext ++ frame_tail key payload
    /\ says_length (is_masked key) b1 ext (Z.of_nat (length payload)).
Proof.
  intros B. unfold ws_encode, says_length.
  replace (match key with Some _ => 128 | None => 0 end) with (if is_masked key then 128 else 0) by by destruct key.
  destruct form; cbn [form_fits] in B; do 2 eexists; (split; [done|]).
  - destruct (flag_bits (is_masked key) (Z.of_nat (length payload))) as [? ?]; [lia|]. auto.
  - destruct (flag_bits (is_masked key) 126) as [? ?]; [lia|]. split; [done|]. right. left. split; [done|].
    split; [apply length_be_put|]. apply be_get_put. change (256 ^ Z.of_nat 2) with (2 ^ 16). lia.
  - destruct (flag_bits (is_masked key) 127) as [? ?]; [lia|]. split; [done|]. right. right. split; [done|].
    split; [apply length_be_put|]. apply be_get_put. change (256 ^ Z.of_nat 8) with (2 ^ 64). lia.
Qed.

(** A frame, on any prefix of a stream that starts with it: nothing until it is complete, then the frame. *)
Lemma parse_on_prefix key b0 b1 ext payload l r more :
  let masked := is_masked key in
  (forall k, key = Some k -> length k = 4%nat) ->
  says_length masked b1 ext (Z.of_nat (length payload)) -> Z.of_nat (length payload) < 2 ^ 63 ->
  l ++ r = b0 :: b1 :: ext ++ frame_tail key payload ++ more ->
  let total := (2 + length ext + length (frame_tail key payload))%nat in
  parse_frame l =
    if (length l <? total)%nat then Partial
    else Frame (mkWsFrame (Z.land b0 15) payload (Z.land b0 15 =? WSOpClose)) (drop total l).
Proof.
  intros masked Lk [Hm Hl] B E total.
  assert (Ht : total = ((if masked then 2 + length ext + 4 else 2 + length ext) + length payload)%nat).
  { subst total masked. unfold frame_tail. destruct key as [k|]; [|done]. rewrite length_app, length_mask_from, (Lk k) by done. cbn. lia. }
  destruct l as [|x0 [|x1 l]]; [by rewrite (proj2 (Nat.ltb_lt _ _)) by (cbn; lia)..|]. injection E as -> -> E. unfold parse_frame.
  rewrite Hm. set (e := if Z.land b1 127 =? 126 then 2%nat else _).
  assert (He : e = length ext) by (subst e; destruct Hl as [(-> & ? & ->)|[(-> & -> & _)|(-> & -> & _)]]; [|done..];
    rewrite !(proj2 (Z.eqb_neq _ _)) by lia; done).
  rewrite He. cbn [length]. destruct (Nat.ltb_spec (S (S (length l))) (2 + length ext)) as [L|L].
  { rewrite (proj2 (Nat.ltb_lt _ _)) by (destruct masked; lia). done. }
  destruct (masked && (S (S (length l)) <? 2 + length ext + 4)%nat) eqn:L4.
  { apply andb_true_iff in L4 as [-> L4%Nat.ltb_lt]. by rewrite (proj2 (Nat.ltb_lt _ _)) by lia. }
  assert (P : forall a c, (a + c <= length l)%nat ->
    slice (b0 :: b1 :: l) (2 + a) (2 + a + c) = take c (drop a (ext ++ frame_tail key payload ++ more))).
  { intros a c La. rewrite (slice_prefix _ r) by (cbn; lia).
    change ((b0 :: b1 :: l) ++ r) with (b0 :: b1 :: l ++ r). rewrite E. unfold slice. by replace (2 + a + c - (2 + a))%nat with c by lia. }
  assert (N : (if (length ext =? 0)%nat then Z.land b1 127 else be_get (slice (b0 :: b1 :: l) 2 (2 + length ext))) = Z.of_nat (length payload)).
  { pose proof (P 0%nat (length ext) ltac:(lia)) as X. cbn [Nat.add] in X |- *. rewrite X, drop_0, take_app_length.
    destruct Hl as [(-> & _ & ->)|[(_ & -> & ->)|(_ & -> & ->)]]; done. }
  rewrite N. assert (Lx : (length ext <= 8)%nat) by (destruct Hl as [(_ & _ & ->)|[(_ & -> & _)|(_ & -> & _)]]; cbn; lia).
  set (head := if masked then (2 + length ext + 4)%nat else (2 + length ext)%nat) in *.
  assert (Lh : (head <= 14)%nat) by (subst head; destruct masked; lia).
  assert (A : add64 (Z.of_nat head) (Z.of_nat (length payload)) = Z.of_nat total).
  { unfold add64. rewrite u64_id; [lia|]. unfold is_u64. lia. }
  rewrite A. destruct (Nat.ltb_spec (S (S (length l))) total) as [L6|L6]; [by rewrite (proj2 (Z.ltb_lt _ _)) by lia|].
  rewrite (proj2 (Z.ltb_ge _ _)) by lia.
  assert (I : i64 (Z.of_nat (length payload)) <? 0 = false).
  { unfold i64. rewrite Z.mod_small by lia. apply Z.ltb_ge. lia. }
  rewrite I, Nat2Z.id, <- Ht. f_equal. f_equal. subst head masked. unfold frame_tail in *. destruct key as [k|]; cbn [is_masked] in *.
  - specialize (Lk k eq_refl). pose proof (P (length ext) 4%nat ltac:(lia)) as X1. pose proof (P (length ext + 4)%nat (length payload) ltac:(lia)) as X2.
    replace (2 + (length ext + 4))%nat with (2 + length ext + 4)%nat in X2 by lia. rewrite <- Ht in X2. rewrite X1, X2.
    rewrite drop_app_length, <- app_assoc, (app_assoc ext k), drop_app_length' by (rewrite length_app; cbn; lia).
    rewrite (take_app_length' k _ 4) by done.
    rewrite take_app_length' by (by rewrite length_mask_from). apply mask_from_twice.
  - pose proof (P (length ext) (length payload) ltac:(lia)) as X. rewrite <- Ht in X. by rewrite X, drop_app_length, take_app_length.
Qed.

(** ** A stream of frames, however it is cut *)

(** A frame on the wire: flags, the form of its length, its mask, opcode and payload. *)
Record wireFrame := mkWireFrame { wi_flags : Z; wi_form : lengthForm; wi_key : option bytes; wi_op : Z; wi_payload : bytes }.

Definition wire_bytes (g : wireFrame) : bytes := ws_encode (wi_flags g) (wi_form g) (wi_key g) (wi_op g) (wi_payload g).

(** Data frames and control frames other than a close, whose length fits the field. *)
Record wire_ok (g : wireFrame) : Prop := {
  wk_op : 0 <= wi_op g < 16 /\ wi_op g <> WSOpClose;
  wk_key : forall k, wi_key g = Some k -> length k = 4%nat;
  wk_form : form_fits (wi_form g) (Z.of_nat (length (wi_payload g)));
}.

Definition decoded (g : wireFrame) : WsFrame := mkWsFrame (wi_op g) (wi_payload g) false.

Lemma parse_wire g l r more :
  wire_ok g -> l ++ r = wire_bytes g ++ more ->
  parse_frame l = if (length l <? length (wire_bytes g))%nat then Partial else Frame (decoded g) (drop (length (wire_bytes g)) l).
Proof.
  intros [[Ho Nc] Hk Hf] E. unfold wire_bytes in *.
  assert (Lp : Z.of_nat (length (wi_payload g)) < 2 ^ 63) by (unfold form_fits in Hf; destruct (wi_form g); lia).
  destruct (ws_encode_says (wi_flags g) (wi_form g) (wi_key g) (wi_op g) (wi_payload g) Hf) as (b1 & ext & Ee & S). rewrite Ee in *.
  cbn [app] in E. rewrite <- app_assoc in E. rewrite (parse_on_prefix _ _ _ _ _ _ _ _ Hk S Lp E).
  rewrite opcode_bits by done. cbn [length]. rewrite length_app. unfold decoded. by rewrite (proj2 (Z.eqb_neq _ _) Nc).
Qed.

Lemma wire_bytes_length g : (2 <= length (wire_bytes g))%nat.
Proof.
  unfold wire_bytes, ws_encode. destruct (wi_form g); cbn [length]; lia.
Qed.

(** On a prefix of a stream: the frames that are complete, and the start of the next one. *)
Lemma feed_prefix gs l r fuel :
  Forall wire_ok gs -> l ++ r = concat (map wire_bytes gs) -> (length l <= fuel)%nat ->
  exists gs1 gs2 rest, gs = gs1 ++ gs2 /\ feed_loop fuel l = Some (map decoded gs1, rest)
    /\ rest ++ r = concat (map wire_bytes gs2) /\ match gs2 with [] => rest = [] | g :: _ => (length rest < length (wire_bytes g))%nat end.
Proof.
  intros F. revert l fuel. induction F as [|g gs O F IH]; intros l fuel E Lf.
  - cbn in E. apply app_nil in E as [-> ->]. exists [], [], []. split_and!; try done. by destruct fuel.
  - cbn [map concat] in E. destruct (Nat.ltb_spec (length l) (length (wire_bytes g))) as [L|L].
    + exists [], (g :: gs), l. split_and!; try done. destruct fuel; [by destruct l; cbn in *; [|lia]|].
      cbn [feed_loop]. rewrite (parse_wire g l r _ O E). by rewrite (proj2 (Nat.ltb_lt _ _) L).
    + pose proof (wire_bytes_length g) as G. destruct fuel as [|fuel]; [lia|]. cbn [feed_loop].
      rewrite (parse_wire g l r _ O E), (proj2 (Nat.ltb_ge _ _) L). cbn [wf_Terminal decoded].
      assert (E2 : drop (length (wire_bytes g)) l ++ r = concat (map wire_bytes gs)).
      { rewrite <- drop_app_le by done. rewrite E. apply drop_app_length. }
      destruct (IH _ fuel E2) as (gs1 & gs2 & rest & -> & Ef & Er & Ok); [rewrite length_drop; lia|].
      rewrite Ef. by exists (g :: gs1), gs2, rest.
Qed.

(** C36: The decoder reassembles a session's frames however the tunnel cut them.  For every stream of frames other than
    close frames, with any flags (the decoder does not look at FIN and the reserved bits), plain or masked under any
    key, with any form of the length field that can hold the length, and every division of its bytes into pieces, the
    frames that come out are exactly those that went in, in order, nothing is left over and nothing panics; and what the
    Hub masks for a provider is such a frame: final, under the key of the Hub, with the shortest length field. *)
Theorem frames_survive_any_cut gs pieces :
  Forall wire_ok gs -> concat pieces = concat (map wire_bytes gs) ->
  feed_all [] pieces = Some (map decoded gs, [])
  /\ forall op payload, MaskClientFrame op payload
       = wire_bytes (mkWireFrame 8 (shortest_form (Z.of_nat (length payload))) (Some mask_key) op payload).
Proof.
  intros F E. split; [|intros op payload; apply MaskClientFrame_encode].
  assert (G : forall buf gs, Forall wire_ok gs -> buf ++ concat pieces = concat (map wire_bytes gs) ->
    match gs with [] => buf = [] | g :: _ => (length buf < length (wire_bytes g))%nat end ->
    feed_all buf pieces = Some (map decoded gs, [])).
  { clear gs F E. induction pieces as [|p pieces IH]; intros buf gs F E B; cbn [feed_all concat] in *.
    - rewrite app_nil_r in E. destruct gs as [|g gs]; [by subst|]. cbn [map concat] in E. apply (f_equal length) in E.
      rewrite length_app in E. lia.
    - rewrite app_assoc in E. destruct (feed_prefix gs (buf ++ p) (concat pieces) _ F E (le_n _)) as (gs1 & gs2 & rest & -> & Ef & Er & Ok).
      unfold Feed. rewrite Ef. apply Forall_app in F as [_ F2]. rewrite (IH _ _ F2 Er Ok). by rewrite map_app. }
  apply G; [done|done|]. destruct gs as [|g gs]; [done|]. pose proof (wire_bytes_length g). cbn. lia.
Qed.

(** A fragment that is not final, a masked frame under a key of its own with a longer length field than it needs, and a
    frame as the Hub masks it, in pieces. *)
Definition demo_frames : list wireFrame :=
  [mkWireFrame 0 Length7 None 1 [104; 105]; mkWireFrame 8 Length16 (Some [1; 2; 3; 4]) 0 [33];
   mkWireFrame 8 Length7 (Some mask_key) 2 [49]].

Lemma frames_survive_any_cut_witness :
  feed_all [] [[1]; [2; 104]; [105; 128; 254; 0]; [1; 1; 2; 3; 4; 32; 130; 129; 85; 170]; [18; 52; 100]]
  = Some ([mkWsFrame 1 [104; 105] false; mkWsFrame 0 [33] false; mkWsFrame 2 [49] false], []).
Proof.
  refine (proj1 (frames_survive_any_cut demo_frames
    [[1]; [2; 104]; [105; 128; 254; 0]; [1; 1; 2; 3; 4; 32; 130; 129; 85; 170]; [18; 52; 100]] _ _)).
  - repeat constructor; cbn; try lia; try done; by intros k [= <-].
  - vm_compute. reflexivity.
Defined.

(** The check that a payload has arrived adds the announced length in 64 bits and wraps: ten bytes that announce
    a frame of 2^64-1 bytes pass it, and the slice expression that follows panics, in every state of the decoder
    that has no frame pending.  After a close frame the decoder goes on: the next call still returns frames, where
    its comment says it returns nil. *)
Theorem hostile_frame_crashes_decoder :
  (forall op rest, 0 <= op < 16 -> Feed [] (Z.lor 128 op :: 127 :: replicate 8 255 ++ rest) = None)
  /\ feed_all [] [ws_encode 8 Length7 None WSOpClose []; ws_encode 8 Length7 None WSOpText [104]]
     = Some ([mkWsFrame WSOpClose [] true; mkWsFrame WSOpText [104] false], []).
Proof.
  split; [|vm_compute; reflexivity]. intros op rest Ho. unfold Feed. cbn [app length feed_loop].
  assert (P : parse_frame (Z.lor 128 op :: 127 :: replicate 8 255 ++ rest) = Crash); [|by rewrite P].
  unfold parse_frame. change (Z.land 127 128 =? 0) with true. change (Z.land 127 127) with 127. cbn [negb andb Z.eqb Pos.eqb].
  change (slice (Z.lor 128 op :: 127 :: replicate 8 255 ++ rest) 2 (2 + 8)) with (replicate 8 255).
  assert (L : (length (Z.lor 128 op :: 127%Z :: replicate 8 255%Z ++ rest) <? 2 + 8)%nat = false) by (apply Nat.ltb_ge; cbn; lia).
  rewrite L. cbn [Nat.eqb]. replace (be_get (replicate 8 255)) with (2 ^ 64 - 1) by (vm_compute; reflexivity).
  replace (add64 (Z.of_nat (2 + 8)) (2 ^ 64 - 1)) with 9 by (vm_compute; reflexivity).
  apply Nat.ltb_ge in L. rewrite (proj2 (Z.ltb_ge _ _)) by lia. by vm_compute.
Qed.
