(* ===== verification/Realtime.v ===== *)
(** * Streaming sessions in the Hub ([tokenhive/hub/realtime.go], [flightConn] of [flight.go])

    The Hub opens a session through the enclave, relays it, and settles its
    receipt.  Opening, closing and settling are separate steps, between which
    other jobs run: the tenant's slot travels with the connection and is given
    back when it closes. *)

From S2P Require Import Prelude Bytes Crypto Receipt GoStrings Jobs Policy Credential SeqStore Transport Headers Tee Session.
From S2P Require Import Pricing Ledger Admission Store Hub Schedule.

Inductive SessErr :=
| SLimitExceeded | SNoReceipt | SVerify (e : error) | SStatus | SStreamMismatch | SUnknownProvider
| SPrice (e : error) | SStore (e : error) | SJobPrice | SDuplicate | SRelay (e : error) | SPanic.

Record SessionOutcome := mkSessionOutcome {
  so_Receipt : SignedReceipt;
  so_Provider : string;
  so_Up : Z;
  so_Down : Z;
  so_Charged : Z;
  so_Commission : Z;
  so_Buyer : Z;
  so_Stored : bool;
}.

Definition zero_session : SessionOutcome := mkSessionOutcome zero_signed "" 0 0 0 0 0 false.

(** ** The relay *)

(** The downlink loop of [relaySession]: each read of the tunnel with its error, and whether the user's link fails
    to take the bytes.  The count, the digest and how it ended; [None] is a clean end. *)
Inductive downEnd := DownLimit | DownLink | DownTunnel | DownTimeout.

Fixpoint down_loop `{Sha256} (maxDown : Z) (reads : list (bytes * option readErr * bool)) (count : Z) (hasher : StreamingHasher)
    : Z * bytes * option downEnd :=
  match reads with
  | [] => (count, hasher_Sum hasher, Some DownTunnel)
  | (p, err, linkFails) :: reads =>
      if (0 <? length p)%nat then
        if (0 <? maxDown) && (maxDown <? add64 count (Z.of_nat (length p))) then (count, hasher_Sum hasher, Some DownLimit) else
        let count := add64 count (Z.of_nat (length p)) in
        let hasher := hasher_WriteChunk hasher p in
        if linkFails then (count, hasher_Sum hasher, Some DownLink) else
        match err with
        | Some ReadEOF => (count, hasher_Sum hasher, None)
        | Some ReadFailed => (count, hasher_Sum hasher, Some DownTunnel)
        | None => down_loop maxDown reads count hasher
        end
      else
        match err with
        | Some ReadEOF => (count, hasher_Sum hasher, None)
        | Some ReadFailed => (count, hasher_Sum hasher, Some DownTunnel)
        | None => down_loop maxDown reads count hasher
        end
  end.

(** The uplink loop: what the user's link gave, piece by piece, and whether the tunnel took it. *)
Fixpoint up_loop (maxUp : Z) (reads : list (nat * bool)) (count : Z) : Z :=
  match reads with
  | [] => count
  | (n, tunnelTakes) :: reads =>
      if (0 <? n)%nat then
        if (0 <? maxUp) && (maxUp <? add64 count (Z.of_nat n)) then count else
        let count := add64 count (Z.of_nat n) in
        if tunnelTakes then up_loop maxUp reads count else count
      else up_loop maxUp reads count
  end.

Section Realtime.
Context {SH : Sha256} {ST : Store} {HL : HubLib}.

(** ** Opening *)

Definition with_limit (spec : Spec) (limit : Z) : Spec :=
  mkSpec (sp_Version spec) (sp_JobID spec) (sp_Provider spec) (sp_Method spec) (sp_Host spec) (sp_Path spec) (sp_Query spec)
    (sp_Headers spec) (sp_BodyHash spec) (sp_Nonce spec) (sp_ExpiresAt spec) limit (sp_Stream spec) (sp_Session spec)
    (sp_Credential spec).

Definition boundSession (maxDown : Z) (spec : Spec) : Spec :=
  if maxDown =? 0 then spec else
  if (sp_MaxResponseBytes spec =? 0) || (maxDown <? sp_MaxResponseBytes spec) then with_limit spec maxDown else spec.

Fixpoint open_candidates (h : Hub) (maxDown : Z) (build : string -> res Spec) (open : Spec -> bool) (providers : list string)
    : HubErr + Spec :=
  match providers with
  | [] => inl ErrNoProviderForModel
  | p :: providers =>
      match build p with
      | Err e => inl (ErrBuildSpec e)
      | Panic => inl HubPanic
      | Ok spec =>
          match attachCredential h (boundSession maxDown spec) with
          | Err e => inl (ErrCredential e)
          | Panic => inl HubPanic
          | Ok spec => if open spec then inr spec else open_candidates h maxDown build open providers
          end
      end
  end.

Definition openSessionFor (h : Hub) (maxDown : Z) (model provider : string) (build : string -> res Spec) (open : Spec -> bool)
    : HubErr + Spec :=
  if negb (String.eqb provider "") then
    if negb (providerServes h provider model) then inl ErrNoProviderForModel
    else open_candidates h maxDown build open [provider]
  else
    match providersForModel h model with
    | [] => inl (supplyError h)
    | providers => open_candidates h maxDown build open providers
    end.

(** [openSession] and the [NoteDispatch] that follows it. *)
Definition openSession (h : Hub) (now : Z) (tenant : string) (maxDown : Z) (model provider : string) (build : string -> res Spec)
    (open : Spec -> bool) : Hub * (HubErr + Spec) :=
  let '(h, err) := beginJob h tenant now in
  match err with
  | Some e => (h, inl e)
  | None =>
      match openSessionFor h maxDown model provider build open with
      | inl e => (with_flight h (flight_release (h_flight h) tenant), inl e)
      | inr spec => (with_ledger h (NoteDispatch (h_ledger h) (sp_Provider spec)), inr spec)
      end
  end.

(** ** Closing *)

(** [flightConn.Close], the first time: [relaySession] calls it when the relay is over, before the receipt is settled. *)
Definition closeSession (h : Hub) (tenant : string) : Hub := with_flight h (flight_release (h_flight h) tenant).

(** ** Settling *)

(** [receipt] is what the tunnel's [Receipt] returned; [ended] how the relay ended. *)
Definition session_settle (h : Hub) (tenant model : string) (spec : Spec) (up down : Z) (downHash : bytes) (ended : option downEnd)
    (receipt : option SignedReceipt) : Hub * SessionOutcome * option SessErr :=
  let provider := sp_Provider spec in
  match ended with
  | Some DownLimit => (h, mkSessionOutcome zero_signed provider up down 0 0 0 false, Some SLimitExceeded)
  | _ =>
  match receipt with
  | None => (h, zero_session, Some SNoReceipt)
  | Some receipt =>
  match hub_verify receipt with
  | Err e => (h, zero_session, Some (SVerify e))
  | Panic => (h, zero_session, Some SPanic)
  | Ok _ =>
  let h := with_ledger h (NoteVerified (h_ledger h) provider) in
  let rec := sReceipt receipt in
  if negb (StatusCode rec =? 101) then (h, zero_session, Some SStatus) else
  if (up <? RequestBytes rec) || negb (ResponseBytes rec =? down) || negb (streamHashEq (StreamHash rec) downHash)
  then (h, zero_session, Some SStreamMismatch) else
  match card h provider with
  | None => (h, zero_session, Some SUnknownProvider)
  | Some c =>
  match Price c model down rec with
  | Err e => (h, zero_session, Some (SPrice e))
  | Panic => (h, zero_session, Some SPanic)
  | Ok charged =>
  match CommissionOn (h_commission h) charged with
  | Err e => (h, zero_session, Some (SPrice e))
  | Panic => (h, zero_session, Some SPanic)
  | Ok comm =>
  let '(buyer, ok) := addChecked charged comm in
  if negb ok then (h, zero_session, Some (SPrice ErrPriceOverflow)) else
  let out := mkSessionOutcome receipt provider up down charged comm buyer in
  if (0 <? h_maxJob h) && (h_maxJob h <? buyer) then
    match store_Put (h_store h) provider receipt with
    | (s, Ok _) => (with_store h s, out true, Some SJobPrice)
    | (s, Err e) => (with_store h s, out false, Some (SStore e))
    | (s, Panic) => (with_store h s, out false, Some SPanic)
    end
  else
    match store_Put (h_store h) provider receipt with
    | (s, Err e) => (with_store h s, out false, Some (SStore e))
    | (s, Panic) => (with_store h s, out false, Some SPanic)
    | (s, Ok _) =>
        let h := with_store h s in
        let '(h, fresh) := claimSettlement h (JobID rec) in
        if negb fresh then (h, out true, Some SDuplicate) else
        (settle_books h provider tenant charged comm buyer, out true,
         match ended with None => None | Some _ => Some (SRelay "relay") end)
    end
  end end end end end end.
End Realtime.

(** ** Money moves only with proof *)

Section Money.
Context {SH : Sha256} {ST : Store} {HL : HubLib}.

(** The conditions under which a session's money moves, and the state it leaves. *)
Record session_settled (h : Hub) (tenant model : string) (spec : Spec) (up down : Z) (downHash : bytes)
    (receipt : option SignedReceipt) (h' : Hub) (out : SessionOutcome) : Prop := {
  ss_receipt : receipt = Some (so_Receipt out);
  ss_verified : hub_verify (so_Receipt out) = Ok ();
  ss_status : StatusCode (sReceipt (so_Receipt out)) = 101;
  ss_up : RequestBytes (sReceipt (so_Receipt out)) <= up;
  ss_down : ResponseBytes (sReceipt (so_Receipt out)) = down;
  ss_stream : StreamHash (sReceipt (so_Receipt out)) = downHash;
  ss_charged : exists c, card h (sp_Provider spec) = Some c /\ Price c model down (sReceipt (so_Receipt out)) = Ok (so_Charged out);
  ss_commission : CommissionOn (h_commission h) (so_Charged out) = Ok (so_Commission out);
  ss_buyer : BuyerPrice (h_commission h) (so_Charged out) = Ok (so_Buyer out);
  ss_ceiling : 0 < h_maxJob h -> so_Buyer out <= h_maxJob h;
  ss_fresh : JobID (sReceipt (so_Receipt out)) ∉ h_settled h;
  ss_stored : store_Put (h_store h) (sp_Provider spec) (so_Receipt out) = (h_store h', Ok ());
  ss_state : h' = settle_books
    (with_settled (with_store (with_ledger h (NoteVerified (h_ledger h) (sp_Provider spec))) (h_store h'))
       ({[ JobID (sReceipt (so_Receipt out)) ]} ∪
          (if maxSettledJobs <=? Z.of_nat (size (h_settled h)) then ∅ else h_settled h)))
    (sp_Provider spec) tenant (so_Charged out) (so_Commission out) (so_Buyer out);
}.

Definition relay_error (e : option SessErr) : bool := match e with None | Some (SRelay _) => true | _ => false end.

Lemma session_settle_cases h tenant model spec up down downHash ended receipt :
  let '(h', out, err) := session_settle h tenant model spec up down downHash ended receipt in
  if relay_error err then session_settled h tenant model spec up down downHash receipt h' out
  else books_untouched h (sp_Provider spec) h'.
Proof.
  unfold session_settle. destruct (match ended with Some DownLimit => true | _ => false end) eqn:El.
  { destruct ended as [[]|]; try done. apply books_untouched_id. }
  assert (Hend : forall A (a b : A), match ended with Some DownLimit => a | _ => b end = b) by (intros; by destruct ended as [[]|]).
  rewrite Hend. destruct receipt as [receipt|]; [|apply books_untouched_id].
  destruct (hub_verify receipt) as [[]| |] eqn:Ev; [|apply books_untouched_id..].
  set (r := sReceipt receipt). set (h1 := with_ledger h (NoteVerified (h_ledger h) (sp_Provider spec))).
  assert (U : books_untouched h (sp_Provider spec) h1) by (apply books_untouched_refl; by right).
  assert (P : forall s, books_untouched h (sp_Provider spec) (with_store h1 s)) by (intros s; apply books_untouched_put; by right).
  destruct (Z.eqb_spec (StatusCode r) 101) as [Es|]; cbn [negb]; [|done].
  destruct ((up <? RequestBytes r) || negb (ResponseBytes r =? down) || negb (streamHashEq (StreamHash r) downHash)) eqn:Em; [done|].
  apply orb_false_iff in Em as [[Eu%Z.ltb_ge Ed%negb_false_iff%Z.eqb_eq]%orb_false_iff Eh%negb_false_iff%ct_equal_spec].
  destruct (card h1 (sp_Provider spec)) as [c|] eqn:Ec; [|done].
  destruct (Price c model down r) as [charged| |] eqn:Ep; [|done..].
  destruct (CommissionOn (h_commission h1) charged) as [comm| |] eqn:Eco; [|done..].
  pose proof (BuyerPrice_of _ _ _ Eco) as Eb. destruct (addChecked charged comm) as [buyer ok]. cbn [fst snd] in Eb.
  destruct ok; cbn [negb]; [|done]. specialize (Eb eq_refl).
  destruct ((0 <? h_maxJob h1) && (h_maxJob h1 <? buyer)) eqn:Ej; [destruct (store_Put _ _ _) as [s [| |]]; apply P|].
  assert (Hj : 0 < h_maxJob h -> buyer <= h_maxJob h).
  { intros Hm. cbn in Ej. rewrite (proj2 (Z.ltb_lt _ _) Hm) in Ej. cbn in Ej. by apply Z.ltb_ge in Ej. }
  change (h_store h1) with (h_store h).
  destruct (store_Put (h_store h) (sp_Provider spec) receipt) as [s [[]| |]] eqn:Eq; [|apply P..].
  unfold claimSettlement. change (h_settled (with_store h1 s)) with (h_settled h).
  destruct (bool_decide (JobID r ∈ h_settled h)) eqn:Edup; cbn [negb]; [apply P|]. apply bool_decide_eq_false in Edup.
  assert (R : relay_error (match ended with None => None | Some _ => Some (SRelay "relay") end) = true) by (by destruct ended).
  rewrite R. split; cbn [so_Receipt so_Charged so_Commission so_Buyer]; try done; rewrite ?h_store_settle_books; try done.
  - exists c. split; [|done]. exact Ec.
Qed.

End Money.

(** ** A capped session reconciles *)

Section Reconcile.
Context {SH : Sha256} {CB : Cbor} {EC : Ecdsa} {LE : LeafExpiry}.

(** What the tunnel hands to the Hub: the bytes in some pieces, then the end that follows the receipt. *)
Definition tunnel_reads (pieces : list bytes) : list (bytes * option readErr * bool) :=
  map (fun p => (p, None, false)) pieces ++ [([], Some ReadEOF, false)].

Lemma down_loop_pieces maxDown pieces count hasher :
  Forall (fun p => p <> []) pieces -> 0 <= count -> count + sent pieces < 2 ^ 64 -> (0 < maxDown -> count + sent pieces <= maxDown) ->
  down_loop maxDown (tunnel_reads pieces) count hasher = (count + sent pieces, hasher_Sum (fold_left hasher_WriteChunk pieces hasher), None).
Proof.
  intros F. revert count hasher. induction F as [|p pieces N F IH]; intros count hasher C B M.
  - cbn. by rewrite Z.add_0_r.
  - cbn [tunnel_reads map app down_loop]. assert (Sp : sent (p :: pieces) = Z.of_nat (length p) + sent pieces).
    { unfold sent. cbn [concat]. rewrite length_app. lia. }
    rewrite Sp in *. assert (0 <= sent pieces) by (unfold sent; lia).
    rewrite (proj2 (Nat.ltb_lt _ _)) by (destruct p; [done|cbn; lia]).
    assert (A : add64 count (Z.of_nat (length p)) = count + Z.of_nat (length p)).
    { unfold add64. apply u64_id. unfold is_u64. lia. }
    rewrite A. assert (X : (0 <? maxDown) && (maxDown <? count + Z.of_nat (length p)) = false).
    { destruct (Z.ltb_spec 0 maxDown) as [L|L]; [|done]. cbn. apply Z.ltb_ge. specialize (M L). lia. }
    rewrite X. fold (tunnel_reads pieces). rewrite IH by lia. cbn [fold_left]. f_equal. f_equal. lia.
Qed.

(** A session that honours its cap reconciles.  Whatever the interleaving inside the enclave and however the
    tunnel re-cuts the bytes, the Hub's own bound never fires on a session it opened, because it is the bound the
    enclave enforces; the Hub's count and digest are those of the receipt, so the downlink side of the settlement
    check passes. *)
Theorem honest_session_reconciles clock spec0 specHash d seq ops fin maxDown pieces :
  let spec := boundSession maxDown spec0 in
  sp_MaxResponseBytes spec < 2 ^ 63 -> 0 <= sp_MaxResponseBytes spec0 -> 0 <= maxDown -> Forall op_fits ops ->
  Forall (fun p => p <> []) pieces ->
  let '(s, l) := session_run (new_session clock spec specHash d seq) ops in
  sent (lg_down l) < 2 ^ 64 -> concat pieces = concat (lg_down l) ->
  down_loop maxDown (tunnel_reads pieces) 0 (NewStreamingHasher (sp_JobID spec)) =
    (ResponseBytes (session_receipt s fin), StreamHash (session_receipt s fin), None).
Proof.
  intros spec M M0 Md F Np. pose proof (run_inv clock spec specHash d seq ops M F) as I.
  destruct (session_run _ ops) as [s l]. destruct I as [[Es El] Hh Hd _ _ Hcap _ _]. intros Ld Ec.
  assert (Sp : sent pieces = sent (lg_down l)) by (unfold sent; by rewrite Ec).
  assert (B : 0 < maxDown -> 0 < sp_MaxResponseBytes spec <= maxDown).
  { intros L. subst spec. unfold boundSession. rewrite (proj2 (Z.eqb_neq maxDown 0)) by lia.
    destruct (Z.eqb_spec (sp_MaxResponseBytes spec0) 0); cbn [orb]; [cbn; lia|].
    destruct (Z.ltb_spec maxDown (sp_MaxResponseBytes spec0)); [cbn; lia|lia]. }
  rewrite down_loop_pieces; [|done|lia|lia|intros L; destruct (B L) as [B1 B2]; specialize (Hcap B1); lia].
  cbn [session_receipt ResponseBytes StreamHash]. rewrite Hd, Hh. f_equal. f_equal.
  - rewrite Sp, u64_id; [lia|]. unfold is_u64, sent in *. lia.
  - change (HashResponseStream (sp_JobID spec) pieces = HashResponseStream (sp_JobID spec) (lg_down l)).
    by rewrite !HashResponseStream_concat, Ec.
Qed.
End Reconcile.

(** ** Two sessions on one slot *)

(** One slot per tenant, a budget of one unit, a ceiling of 117 per job. *)
Definition tight_config : @Config mem_store :=
  @mkConfig mem_store (Some {[ "openai"%string := demo_card ]}) (Some ∅) None None {[ "alice"%string := 1 ]} 0 117 1 None ∅ None.

Definition tight_hub : @Hub mem_store := match @New mem_store tight_config with Ok h => h | _ => demo_hub end.

Definition session_build (p : string) : res Spec :=
  Ok (mkSpec 1 demo_job p "GET" "api.openai.com" "/v1/realtime" "" ∅ (zeros 32) (zeros 8) 2000 1024 true true []).

Definition numbered_receipt (k : Z) : SignedReceipt :=
  mkSigned (mkReceipt 1 (k :: zeros 15) (zeros 32) "openai" "GET" "api.openai.com" "/v1/realtime" 101 (zeros 32) 1 10
    CompletionComplete 1000 1001 None (zeros 32) 3 k []) (mkSignature "" [] []).

(** A session of alice's that is opened and whose relay ends. *)
Definition open_and_close (h : @Hub mem_store) : option (@Hub mem_store) :=
  match @openSession mem_store demo_lib h 0 "alice" 0 "gpt-4o" "openai" session_build (fun _ => true) with
  | (h, inr _) => Some (@closeSession mem_store h "alice")
  | _ => None
  end.

Definition settle_number (k : Z) (h : @Hub mem_store) : @Hub mem_store :=
  (@session_settle mem_store demo_lib h "alice" "gpt-4o" demo_spec 3 10 (zeros 32) None (Some (numbered_receipt k))).1.1.

Definition two_sessions : option (@Hub mem_store) :=
  h ← open_and_close tight_hub; h ← open_and_close h; Some (settle_number 2 (settle_number 1 h)).

Definition bill (h : option (@Hub mem_store)) : option Z :=
  match h with Some h => match h_budget h with Some b => Some (budget_used b "alice") | None => None end | None => None end.

Lemma two_sessions_bill : bill two_sessions = Some 224.
Proof. vm_compute. reflexivity. Qed.

(** A session's slot is returned when its connection closes, before the session is billed, so the slots do not
    bound what a tenant can run up.  With one slot per tenant a tenant with a budget of one unit has two sessions
    admitted, since the second finds the slot free and the first not yet charged, and both settle: the bill reaches
    224, where the budget plus one job at the ceiling is 118. *)
Theorem session_slot_returns_before_billing :
  exists h b, two_sessions = Some h /\ h_budget h = Some b
    /\ budget_used b "alice" = 224
    /\ 1 + c_MaxInflightPerTenant tight_config * c_MaxJobMicros tight_config <= budget_used b "alice".
Proof.
  pose proof two_sessions_bill as B. unfold bill in B. destruct two_sessions as [h|]; [|discriminate B].
  destruct (h_budget h) as [b|] eqn:Eb; [|discriminate B]. apply (inj Some) in B.
  exists h, b. split; [reflexivity|]. split; [exact Eb|]. split; [exact B|]. rewrite B. vm_compute. discriminate.
Qed.

Definition demo_decision : Decision := mkDecision (mkRule [] "/" true [] true) 4 4 (zeros 32).

Lemma demo_delivery :
  lg_down (@session_run sha_256 toy_cbor demo_leaf (new_session demo_clock (boundSession 4 demo_session_spec) (zeros 32) demo_decision 1)
    demo_session_ops).2 = [[1; 2; 3]; [4]].
Proof. vm_compute. reflexivity. Qed.

Lemma honest_session_reconciles_witness :
  exists s l, @session_run sha_256 toy_cbor demo_leaf (new_session demo_clock (boundSession 4 demo_session_spec) (zeros 32) demo_decision 1)
      demo_session_ops = (s, l)
    /\ down_loop 4 (tunnel_reads [[1; 2]; [3; 4]]) 0 (NewStreamingHasher (sp_JobID (boundSession 4 demo_session_spec))) =
         (ResponseBytes (session_receipt s 0), StreamHash (session_receipt s 0), None).
Proof.
  pose proof (@honest_session_reconciles sha_256 toy_cbor demo_leaf demo_clock demo_session_spec (zeros 32) demo_decision 1
    demo_session_ops 0 4 [[1; 2]; [3; 4]]) as T.
  pose proof demo_delivery as D. cbv zeta in T. destruct (session_run _ demo_session_ops) as [s l]. cbn [snd] in D.
  exists s, l. split; [reflexivity|]. refine (T _ _ _ _ _ _ _).
  - vm_compute. reflexivity.
  - vm_compute. discriminate.
  - lia.
  - repeat constructor.
  - repeat constructor; discriminate.
  - rewrite D. vm_compute. reflexivity.
  - rewrite D. reflexivity.
Defined.
